(* ===== verification/_CoqProject ===== *)
-Q . S2P
Prelude.v
Pmm.v
PmmSpec.v
Frames.v
Vmm.v
Paging.v
VmmSpec.v
AddrSpace.v
Uvm.v
UvmTable.v
UvmSpec.v
Heap.v
HeapSpec.v
Pipe.v
PipeSpec.v
Msg.v
MsgSpec.v
Printf.v
PrintfSpec.v
KStdlib.v
KStdlibSpec.v
KString.v
KStringSpec.v
Inet.v
InetSpec.v
Alloc.v
Sock.v
SockSpec.v
Arp.v
ArpSpec.v
Net.v
NetSpec.v
Fat.v
FatSpec.v
FatFileSpec.v
FatSync.v
FatName.v
FatNameSpec.v
FatDir.v
FatListing.v
FatWalk.v
FatDirSpec.v
FatMkdir.v
FatReaddir.v
FatUse.v
FatPath.v
FatPathSpec.v
FatTree.v
FatTreeOps.v
FatTreeSpec.v
PeImage.v
PeImageSpec.v
PeLoad.v
VfsGate.v
VfsGateSpec.v
BlockDev.v
Partition.v
PartitionSpec.v
PartitionUse.v
Signal.v
SignalSpec.v
SignalUse.v
Vfs.v
VfsSpec.v
VfsPath.v
VfsLookup.v
VfsOps.v
VfsFiles.v
VfsMount.v
VfsUse.v
