(* ===== verification/Prelude.v ===== *)
(** * The Gaia kernel

    A verification development for the memory, messaging, text, network,
    storage, FAT, PE and signal parts of the Gaia kernel ([src/kernel/]), a 64-bit x86 kernel in C.  C
    functions are translated to functions on explicit state; machine integers
    are [Z] with the wrap-around of their type written out ([u8] ... [u64]
    below); loops that are not structural carry fuel.

    ** The program and the files

    Memory, bottom up.  Each layer uses the one below through a type class,
    and the layer below is an instance of the class.

    - [Pmm], [PmmSpec]: the physical-frame allocator, [memory/pmm.c].  The
      record [pmm] holds the file's static variables, the bitmap included; boot
      ([pmm_init], [hhdm_extend]) works on the decoded list of the tags of
      [boot/multiboot2.c].
    - [Frames]: classes [FrameOps] and [FrameLaws], what [pmm.h] promises to
      paging code, with [Pmm] as instance.
    - [Vmm], [VmmSpec]: four-level page tables, [memory/vmm.c], in a
      word-addressed physical memory, over any [FrameLaws].
    - [Paging]: classes [PagingOps] and [PagingLaws], what [vmm.h] and [pmm.h]
      promise to their clients, with [Vmm] as instance.
    - [AddrSpace]: the page tables of a process, [loader/process.c]
      (creation, the private first gigabyte, the user stack, teardown).
    - [Uvm], [UvmTable], [UvmSpec]: user address spaces, [memory/uvm.c] (the
      reservation table, the arena, demand paging), over any [PagingLaws].
    - [Heap], [HeapSpec]: [kmalloc] and [kfree], [memory/heap.c], over any
      [PagingLaws].
    - [Alloc]: classes [AllocOps] and [AllocLaws], what [heap.h] promises,
      with [Heap] as instance.

    Messages.

    - [Pipe], [PipeSpec]: anonymous pipes, [msg/pipe.c].
    - [Msg], [MsgSpec]: input events and IPC messages, [msg/msg.c].

    Text and memory primitives.

    - [Printf], [PrintfSpec]: [utilities/printf.c].
    - [KStdlib], [KStdlibSpec]: [utilities/stdlib.c].
    - [KString], [KStringSpec]: [utilities/string.c].

    Network, bottom up.

    - [Inet], [InetSpec]: byte order, addresses and checksums ([net/inet.h],
      [net/inet.c], the sums of [net/udp.c] and [net/tcp.c]).
    - [Sock], [SockSpec]: datagram sockets, [net/ksocket.c], over any
      [AllocLaws].
    - [Arp], [ArpSpec]: the interface ([net/netif.c]), Ethernet output
      ([net/eth.c]) and ARP ([net/arp.c]).  The driver is a parameter.
    - [Net], [NetSpec]: Ethernet input, IPv4, ICMP, UDP, TCP and
      [socket_sendto] ([net/eth.c], [ipv4.c], [icmp.c], [udp.c], [tcp.c],
      [ksocket.c]).

    Files.

    - [Fat], [FatSpec]: FAT volumes, [fs/fat/fat_mount.c]: mounting, the
      allocation table, chains of clusters.  The image is a byte memory; the
      block device behind the sector writer and the clock are parameters.
    - [FatFileSpec], [FatSync]: the files of [Fat] ([fs/fat/fat_file.c], the
      transfers of [fs/fat/fat_vfs.c]) and write-through to the device.
    - [FatName], [FatNameSpec]: long and short names, [fs/fat/fat_name.c].
    - [FatDir]: directories, [fs/fat/fat_directory.c], and the operations of
      [fs/fat/fat.c] on one directory.  [FatListing] reads the slots of a
      directory as a list of named entries; [FatWalk] and [FatDirSpec] prove
      lookup, creation and removal against that list, [FatMkdir] making a
      directory, [FatReaddir] listing one, [FatUse] sequences of them.
    - [FatPath], [FatPathSpec]: paths ([fs/fat/fat.c]) and the callbacks of
      [fs/fat/fat_vfs.c] that work on the volume.
    - [FatTree], [FatTreeOps], [FatTreeSpec]: a whole volume as a tree of
      directories and files, and the operations by path on it.
    - [VfsGate], [VfsGateSpec]: the lock of the file system switch,
      [fs/vfs/lock.c]: its owner, the list of waiting stack frames and the
      depth of each task, stepped by any interleaving of callers.
    - [Vfs]: the file system switch, [fs/vfs/vfs.c], [namei.c] and [file.c], over
      any [AllocLaws].  The record [vfs] holds the tables of file systems and
      mounts, the inodes on the heap, the heap and the state of the file systems,
      whose operations are the class [Backend].  A call is a computation that
      either ends in a new state or faults: it used an inode that is not on the
      heap, or a table that is not there.
    - [VfsSpec], [VfsPath], [VfsLookup], [VfsOps], [VfsFiles], [VfsMount]: who
      holds which reference ([store_ok]), what a path names ([walk]), and what
      each operation does to both, as total-correctness lemmas ([wp]).  [VfsUse]:
      sequences of calls, with a small file system as instance of [BackendLaws].

    Storage.

    - [BlockDev]: the registry of volumes ([drivers/storage/blockdev.c]) and the
      calls of [block.h].  A device is a disk or a slice of another device;
      what a disk does is the class [Transport].
    - [Partition], [PartitionSpec], [PartitionUse]: partition tables,
      [drivers/storage/partition.c], over any [TransportLaws], with a disk in
      memory as instance.

    Programs.

    - [PeImage], [PeImageSpec], [PeLoad]: PE images, [loader/pe_image.c].  The
      file and the memory are byte lists, every access is checked, and [None]
      stands for an access outside of them.
    - [Signal], [SignalSpec], [SignalUse]: signals, [sched/signal.c], with
      [sys_rt_sigaction] and [syscall_prepare_return] of [arch/syscall.c].  User
      memory is a function from addresses to bytes; which ranges may be used is
      the class [UserRanges], with [uvm_buffer_ok] of [Uvm] as instance.

    This file, [Prelude], holds the machine integers, their bit-level lemmas,
    list and byte-buffer lemmas, the error numbers of [utilities/errno.h], the
    outcome [round] of one uninterrupted stretch of a blocking call, and the
    hint databases [gaia] and [gaia_rw].

    ** What the theorems show

    - Frames: the bitmap allocator refines a set of free frames, a frame is
      never granted twice, boot withholds every reserved byte and the direct
      map reaches all of memory.
    - Page tables: the effect of each operation on the translation of every
      address, isolation of address spaces, the shared kernel half, and
      teardown gives back exactly the private frames.
    - User memory: the structure invariant and, for each operation, what happens
      to the reservation map, the page table and the frames on every outcome.
    - Heap: a refinement to a set of live blocks that includes termination,
      memory safety for well-behaved callers, and the size bound these need.
    - Messages: pipes are bounded queues under any interleaving, short writes
      are atomic, polling agrees with the calls; message rings refine bounded
      queues.
    - Text: [vsnprintf] writes a reference text, printing and parsing are
      inverse, [qsort] sorts, the memory and string routines meet byte-level
      specifications.
    - Network: checksums are those of RFC 1071; sockets refine queues of
      datagrams and lose no allocation; ARP keeps its invariant, delivers what
      it parked and gives up on silent hosts; a datagram and a ping travel
      from one host to another through every layer; [udp_output] stores its
      checksum in the wrong byte order; the TCP option walk ends.
    - Files: a volume that mounts has a sound layout unless the size of its
      tables wraps; a file is a sequence of bytes and operations on one file
      change no other; every change reaches the device; names survive
      storage; an empty write can misplace the cursor of an open file.
    - Directories: every walk ends on any contents; lookup, creation and
      removal act on the list of names; paths are words with dots resolved;
      by path, a volume refines a tree whose files hold byte sequences.  A
      directory whose last cluster is full cannot be listed to its end, and a
      generated alias can hide the long name of another file.
    - PE images: validation, relocation and lookup of exports stay inside the
      file and the memory for all contents; accepted images are well formed
      and laid out as their headers say; relocation moves the words its table
      names.
    - The switch: under every interleaving its lock is a first-in first-out
      queue with one task past it, and a waiter gets it after as many releases
      as there are tasks before it.  Any sequence of calls returns without a
      fault and leaves the counts of inodes and mounts exact; a path that opens
      leads to the inode its components name; what is in use is neither removed
      nor unmounted.
    - Storage: a partition is a device of its own, isolated from all it does not
      overlap; scanning any disk ends, writes nothing and publishes slices inside
      the disk under new names; a table that is written is read back.
    - Signals: a handler is invisible to the code it interrupts, its frame
      stays in user memory below the red zone, [SIGKILL] and [SIGSTOP] can not be
      blocked, caught or ignored, and no frame a program forges returns to
      anything but user code with harmless flags.

    ** Blocking and interleaving

    A call that can block is a sequence of rounds; a round ([round]) runs
    without interruption, because interrupts are off or a lock is held, until
    the call returns or parks.  Pipes are verified for arbitrary interleavings
    of rounds of arbitrary calls, and the lock of the switch for those of
    arbitrary tasks.  In the network stack a call runs to its end
    before the next one starts; what a driver does is unrestricted except that it
    does not call back.

    ** Fuel

    Every loop with fuel is started with enough of it, and the theorems about
    it are about the result, not about runs that happen to end:

    - [find_free_frame_loop], [scan_loop]: one more than the length of the
      interval scanned; each pass moves right.
    - [hole_merge]: [hole_fuel] covers a full scan of the holes after each
      merge; each merge clears one.
    - [heap_grow_loop], [large_alloc_loop], [kmalloc_loop]: one more than the
      number of free frames; every pass but the last takes one.
    - [find_fit], [find_link], [find_socket], [drain]: the number of headers,
      sockets or packets there are; the invariants make the lists acyclic.
    - [write_loop]: three passes; the room left in the ring is at most two
      pieces, and the third pass finds it full or the write done.
    - [digits_loop]: 64 digits cover a 64-bit number in any base;
      [format_loop]: one more than the length of the format, of which each pass
      consumes a character.
    - [fold_sum]: three folds bring a 32-bit sum below 2^16 ([None] is
      excluded by [fold_sum_ok]).
    - [arp_flush_pending]: one more than the number of slots; each pass
      empties one.
    - [tcp_options_loop]: one more than the number of option bytes.
    - [free_chain_loop]: the number of clusters, as in the source;
      [fat_read_loop], [fat_write_loop], [fill_loop]: one more than the number
      of bytes; each pass but the last moves at least one.
    - [cursor_loop] and the walks built on it: [dir_fuel], which covers the
      slots of as many clusters as the cursor accepts; [alloc_slots_loop]: the
      clusters a chain can have; [read_dir_loop]: one more than the bytes of
      the buffer, of which each name takes one; [alias_loop]: the 999999
      tails of the source; [split_loop]: the length limit of a path.
    - [relocate_loop]: one more than the size of the table, of which each
      block takes eight bytes.
    - [mount_name_loop], [lookup_loop]: one more than the length of the path, of
      which each pass consumes a character; [has_entries_loop]: one more than
      the entries the file system has left to list ([dir_left]);
      [virtual_mount_loop]: one more than the mounts; [vfs_read_dir_loop]: one
      more than the bytes of the buffer.
    - [scan_links]: the 64 links of the source; [ctz_loop]: the 64 bits of a
      word.

    ** Not modelled

    - Hardware: the drivers ([drivers/], [devices/], [pci/], [acpi/], [isa/],
      [interrupts/]), the boot path and assembly ([boot/], [arch/x86_64],
      [firmware/]), descriptor tables and per-CPU setup ([arch/]).  They act on
      devices and processor state that the C text does not define.
    - The scheduler, SMP start-up and wait queues ([sched/], [sync/]):
      context switches are assembly; their effect on the verified code is
      the interleaving of rounds described above.  Locks are not state.
    - System call dispatch ([arch/syscall.c]), which connects user registers
      to the functions modelled here; how a task ends ([task_exit], [task_kill]).
    - Reading a FAT volume from its device ([fs/fat/fat_block.c]), the other
      file systems ([fs/ext2], [fs/rootfs.c]) and kernel streams ([fs/stdio.c]),
      building processes from executables ([loader/elf.c], [loader/pe.c]), display and
      input ([display/], [input/]).
    - Logging, panic screens, symbol tables and floating-point mathematics
      ([utilities/log.c], [panic.c], [symtab.c], [math.c]).
    - Userspace, the host tools and the tests ([src/userspace], [src/tools],
      [src/tests], [src/rootfs]). *)
From Stdlib Require Export ZArith Lia Bool.
From stdpp Require Export prelude gmap list numbers.

#[global] Open Scope Z_scope.

(** ** Machine-width integers

    A [w]-bit unsigned C integer is a [Z] in [[0, 2^w)]; each C operation that
    can leave the range is written with the wrap-around of its type. *)
Definition u8 (x : Z) : Z := x mod 2 ^ 8.
Definition u16 (x : Z) : Z := x mod 2 ^ 16.
Definition u32 (x : Z) : Z := x mod 2 ^ 32.
Definition u64 (x : Z) : Z := x mod 2 ^ 64.

(** Conversions to the signed types. *)
Definition i32 (x : Z) : Z := (x + 2 ^ 31) mod 2 ^ 32 - 2 ^ 31.
Definition i64 (x : Z) : Z := (x + 2 ^ 63) mod 2 ^ 64 - 2 ^ 63.
Definition i16 (x : Z) : Z := (x + 2 ^ 15) mod 2 ^ 16 - 2 ^ 15.
Definition i8 (x : Z) : Z := (x + 2 ^ 7) mod 2 ^ 8 - 2 ^ 7.

(** [~x] on a [u64]. *)
Definition not64 (x : Z) : Z := Z.lxor x (2 ^ 64 - 1).

Definition is_u8 (x : Z) : Prop := 0 <= x < 2 ^ 8.
Definition is_u32 (x : Z) : Prop := 0 <= x < 2 ^ 32.
Definition is_u64 (x : Z) : Prop := 0 <= x < 2 ^ 64.

Declare Scope gaia_scope.
Delimit Scope gaia_scope with gaia.
Notation "a ⊕ b" := (u64 (a + b)) (at level 50, left associativity) : gaia_scope.
Notation "a ⊖ b" := (u64 (a - b)) (at level 50, left associativity) : gaia_scope.
Notation "a ⊗ b" := (u64 (a * b)) (at level 40, left associativity) : gaia_scope.
(** The C truth value of [x & mask]. *)
Notation "x &? m" := (negb (Z.land x m =? 0)) (at level 40, no associativity) : gaia_scope.
#[global] Open Scope gaia_scope.

#[global] Arguments Z.testbit : simpl never.
#[global] Arguments Z.land : simpl never.
#[global] Arguments Z.lor : simpl never.
#[global] Arguments Z.pow : simpl never.
#[global] Arguments Z.div : simpl never.
#[global] Arguments Z.modulo : simpl never.

Create HintDb gaia.
Create Rewrite HintDb gaia_rw.

(** Turn boolean comparisons in hypotheses and goal into propositions. *)
Ltac zbool :=
  repeat match goal with
    | H : _ && _ = true |- _ => apply andb_prop in H; destruct H
    | H : _ || _ = false |- _ => apply orb_false_elim in H; destruct H
    | H : negb _ = true |- _ => apply negb_true_iff in H
    | H : negb _ = false |- _ => apply negb_false_iff in H
    | H : (_ <? _) = true |- _ => apply Z.ltb_lt in H
    | H : (_ <? _) = false |- _ => apply Z.ltb_ge in H
    | H : (_ <=? _) = true |- _ => apply Z.leb_le in H
    | H : (_ <=? _) = false |- _ => apply Z.leb_gt in H
    | H : (_ =? _) = true |- _ => apply Z.eqb_eq in H
    | H : (_ =? _) = false |- _ => apply Z.eqb_neq in H
    end.

(** Case analysis on the first boolean test of the goal. *)
Ltac cases_if :=
  match goal with
  | |- context [if ?b then _ else _] => let E := fresh "E" in destruct b eqn:E; zbool
  end.

(** Case analysis on every integer comparison of the goal, closing the cases
    that arithmetic or computation settles. *)
Ltac zcases :=
  repeat match goal with
    | |- context [?a <=? ?b] => destruct (Z.leb_spec a b); try lia
    | |- context [?a <? ?b] => destruct (Z.ltb_spec a b); try lia
    | |- context [?a =? ?b] => destruct (Z.eqb_spec a b); try lia
    end; simpl; try done; try lia.

(** One guard of a partial function that has returned a result. *)
Ltac none_if H E := match type of H with (if ?b then None else _) = Some _ => destruct b eqn:E; [discriminate H|] end.

Lemma u64_small x : 0 <= x < 2 ^ 64 -> u64 x = x.
Proof. apply Z.mod_small. Qed.
Lemma u32_small x : 0 <= x < 2 ^ 32 -> u32 x = x.
Proof. apply Z.mod_small. Qed.
Lemma u16_small x : 0 <= x < 2 ^ 16 -> u16 x = x.
Proof. apply Z.mod_small. Qed.
Lemma u8_small x : 0 <= x < 2 ^ 8 -> u8 x = x.
Proof. apply Z.mod_small. Qed.
Lemma u64_range x : 0 <= u64 x < 2 ^ 64.
Proof. apply Z.mod_pos_bound. lia. Qed.
Lemma u8_range x : 0 <= u8 x < 2 ^ 8.
Proof. apply Z.mod_pos_bound. lia. Qed.
#[export] Hint Resolve u64_range u8_range : gaia.

(** ** Bits *)

Lemma testbit_high x n k : 0 <= x < 2 ^ n -> n <= k -> Z.testbit x k = false.
Proof.
  intros Hx Hk. destruct (Z.eq_dec x 0) as [->|Hn]; [apply Z.bits_0|].
  destruct (Z.lt_ge_cases n 0); [rewrite Z.pow_neg_r in Hx by lia; lia|].
  apply Z.bits_above_log2; [lia|]. apply Z.log2_lt_pow2; [lia|].
  pose proof (Z.pow_le_mono_r 2 n k). lia.
Qed.

Lemma testbit_mod x n k : 0 <= n -> Z.testbit (x mod 2 ^ n) k = (k <? n) && Z.testbit x k.
Proof.
  intros Hn. destruct (Z.ltb_spec k n).
  - by rewrite Z.mod_pow2_bits_low.
  - by rewrite Z.mod_pow2_bits_high by lia.
Qed.

Lemma testbit_pow2 n k : 0 <= n -> Z.testbit (2 ^ n) k = (n =? k).
Proof. intros. by apply Z.pow2_bits_eqb. Qed.

Lemma testbit_shiftl1 n k : 0 <= n -> Z.testbit (Z.shiftl 1 n) k = (n =? k).
Proof. intros. rewrite Z.shiftl_1_l. by apply testbit_pow2. Qed.

(** [x & (1 << n)] is non-zero exactly when bit [n] is set. *)
Lemma land_bit_test x n : 0 <= n -> (x &? 2 ^ n) = Z.testbit x n.
Proof.
  intros Hn. destruct (Z.testbit x n) eqn:E.
  - apply negb_true_iff, Z.eqb_neq. intros H0.
    assert (Z.testbit (Z.land x (2 ^ n)) n = true) as Ht.
    { by rewrite Z.land_spec, testbit_pow2, Z.eqb_refl, E by done. }
    by rewrite H0, Z.bits_0 in Ht.
  - apply negb_false_iff, Z.eqb_eq, Z.bits_inj'. intros k Hk.
    rewrite Z.land_spec, testbit_pow2, Z.bits_0 by done.
    destruct (Z.eqb_spec n k) as [->|]; [by rewrite E|by rewrite andb_false_r].
Qed.

Lemma bits_ext_bounded x y n :
  0 <= x < 2 ^ n -> 0 <= y < 2 ^ n ->
  (forall k, 0 <= k < n -> Z.testbit x k = Z.testbit y k) -> x = y.
Proof.
  intros Hx Hy H. apply Z.bits_inj'. intros k Hk.
  destruct (Z.lt_ge_cases k n); [by apply H|]. by rewrite !(testbit_high _ n).
Qed.

(** A number whose bits from [n] on are all clear is an [n]-bit number. *)
Lemma bits_range x n : 0 <= n -> (forall k, n <= k -> Z.testbit x k = false) -> 0 <= x < 2 ^ n.
Proof.
  intros Hn H. assert (x = x mod 2 ^ n) as ->.
  { apply Z.bits_inj'. intros k Hk. rewrite testbit_mod by done.
    destruct (Z.ltb_spec k n); [done|]. by rewrite H by lia. }
  apply Z.mod_pos_bound. lia.
Qed.

Lemma land_range x y n : 0 <= n -> 0 <= x < 2 ^ n -> 0 <= Z.land x y < 2 ^ n.
Proof.
  intros Hn Hx. apply bits_range; [done|]. intros k Hk.
  by rewrite Z.land_spec, (testbit_high x n).
Qed.

Lemma lor_range x y n : 0 <= n -> 0 <= x < 2 ^ n -> 0 <= y < 2 ^ n -> 0 <= Z.lor x y < 2 ^ n.
Proof.
  intros Hn Hx Hy. apply bits_range; [done|]. intros k Hk.
  by rewrite Z.lor_spec, (testbit_high x n), (testbit_high y n).
Qed.

Lemma ones_pow2 n : 2 ^ n - 1 = Z.ones n.
Proof. rewrite Z.ones_equiv. lia. Qed.

(** [x & ~(2^n - 1)] rounds a [u64] down to a multiple of [2^n]. *)
Lemma land_not64_ones x n :
  0 <= x < 2 ^ 64 -> 0 <= n -> Z.land x (not64 (2 ^ n - 1)) = x - x mod 2 ^ n.
Proof.
  intros Hx Hn. unfold not64. rewrite !ones_pow2.
  assert (Z.land x (Z.lxor (Z.ones n) (Z.ones 64)) = Z.ldiff x (Z.ones n)) as ->.
  { apply Z.bits_inj'. intros k Hk.
    rewrite Z.land_spec, Z.ldiff_spec, Z.lxor_spec.
    destruct (Z.lt_ge_cases k 64).
    - rewrite (Z.ones_spec_low 64) by lia. by destruct (Z.testbit (Z.ones n) k).
    - by rewrite (testbit_high x 64). }
  rewrite Z.ldiff_ones_r, Z.shiftr_div_pow2, Z.shiftl_mul_pow2 by lia.
  pose proof (Z.div_mod x (2 ^ n)). lia.
Qed.

(** Disjoint bit patterns add up. *)
Lemma lor_add x y n : 0 <= n -> x mod 2 ^ n = 0 -> 0 <= y < 2 ^ n -> Z.lor x y = x + y.
Proof.
  intros Hn Hx Hy. rewrite <-Z.add_lor_land.
  assert (Z.land x y = 0) as ->; [|lia].
  apply Z.bits_inj'. intros k Hk. rewrite Z.land_spec, Z.bits_0.
  destruct (Z.lt_ge_cases k n).
  - assert (Z.testbit x k = false) as ->; [|done].
    rewrite <-(Z.mod_pow2_bits_low x n), Hx by lia. apply Z.bits_0.
  - by rewrite (testbit_high y n), andb_false_r.
Qed.

Lemma sub_mod_mod x m : 0 < m -> (x - x mod m) mod m = 0.
Proof. intros. rewrite Zminus_mod_idemp_r, Z.sub_diag. by apply Z.mod_0_l; lia. Qed.

(** [x | (2^n - 1)] is the last number of the [2^n]-aligned group of [x]. *)
Lemma lor_ones x n : 0 <= n -> Z.lor x (2 ^ n - 1) = x - x mod 2 ^ n + (2 ^ n - 1).
Proof.
  intros Hn. pose proof (Z.pow_pos_nonneg 2 n).
  rewrite <-(lor_add _ _ n) by (rewrite ?sub_mod_mod; lia).
  rewrite ones_pow2. apply Z.bits_inj'. intros k Hk. rewrite !Z.lor_spec.
  destruct (Z.lt_ge_cases k n).
  - by rewrite (Z.ones_spec_low n), !orb_true_r by lia.
  - f_equal. replace (x - x mod 2 ^ n) with (Z.shiftl (Z.shiftr x n) n).
    2:{ rewrite Z.shiftr_div_pow2, Z.shiftl_mul_pow2 by lia.
        pose proof (Z.div_mod x (2 ^ n)). lia. }
    rewrite Z.shiftl_spec, Z.shiftr_spec by lia. f_equal. lia.
Qed.

(** ** Byte and word arrays

    A C array is a list; the index is the C index.  Reading or writing out of
    range is undefined in C: [rd] returns 0 and [wr] does nothing there, and
    the invariants of each component keep its indices in range. *)
Definition rd (l : list Z) (i : Z) : Z := default 0 (l !! Z.to_nat i).
Definition wr (l : list Z) (i v : Z) : list Z := <[Z.to_nat i := v]> l.
Definition zlen {A} (l : list A) : Z := Z.of_nat (length l).

Lemma rd_wr_eq l i v : 0 <= i < zlen l -> rd (wr l i v) i = v.
Proof. unfold rd, wr, zlen. intros. by rewrite list_lookup_insert_eq by lia. Qed.

Lemma rd_wr_ne l i j v : 0 <= i -> 0 <= j -> i <> j -> rd (wr l i v) j = rd l j.
Proof. unfold rd, wr. intros. by rewrite list_lookup_insert_ne by lia. Qed.

Lemma zlen_wr l i v : zlen (wr l i v) = zlen l.
Proof. unfold zlen, wr. by rewrite length_insert. Qed.

Lemma rd_Forall (P : Z -> Prop) l i : P 0 -> Forall P l -> P (rd l i).
Proof.
  intros H0 Hl. unfold rd. destruct (l !! Z.to_nat i) eqn:E; simpl; [|done].
  by eapply Forall_lookup_1.
Qed.

Lemma wr_Forall (P : Z -> Prop) l i v : P v -> Forall P l -> Forall P (wr l i v).
Proof. intros. by apply Forall_insert. Qed.
#[export] Hint Resolve wr_Forall : gaia.
#[export] Hint Rewrite zlen_wr : gaia_rw.

Lemma rd_app_l l k i : 0 <= i < zlen l -> rd (l ++ k) i = rd l i.
Proof. intros H. unfold rd. rewrite lookup_app_l; [done|]. unfold zlen in H. lia. Qed.

Lemma rd_app_r l1 l2 i : 0 <= i -> rd (l1 ++ l2) (zlen l1 + i) = rd l2 i.
Proof. intros. unfold rd, zlen. rewrite lookup_app_r by lia. f_equal. f_equal. lia. Qed.

(** [memcpy] of [n] bytes out of an array at an offset, and into one. *)
Definition bytes_at (d : list Z) (off n : Z) : list Z := take (Z.to_nat n) (drop (Z.to_nat off) d).
Definition copy_to (d : list Z) (off : Z) (src : list Z) : list Z :=
  take (Z.to_nat off) d ++ src ++ drop (Z.to_nat off + length src) d.

Lemma bytes_at_lookup d off n i : 0 <= off -> 0 <= n -> Z.of_nat i < n -> bytes_at d off n !! i = d !! (Z.to_nat off + i)%nat.
Proof. intros. unfold bytes_at. rewrite lookup_take_lt by lia. by rewrite lookup_drop. Qed.

Lemma bytes_at_length d off n : 0 <= off -> 0 <= n -> off + n <= Z.of_nat (length d) -> length (bytes_at d off n) = Z.to_nat n.
Proof. intros. unfold bytes_at. rewrite length_take, length_drop. lia. Qed.

Lemma copy_to_length d off src : 0 <= off -> off + Z.of_nat (length src) <= Z.of_nat (length d) ->
  length (copy_to d off src) = length d.
Proof. intros. unfold copy_to. rewrite !length_app, length_take, length_drop. lia. Qed.

Lemma copy_to_lookup d off src k : 0 <= off -> off + Z.of_nat (length src) <= Z.of_nat (length d) ->
  copy_to d off src !! k =
    if decide (off <= Z.of_nat k < off + Z.of_nat (length src)) then src !! (k - Z.to_nat off)%nat else d !! k.
Proof.
  intros H0 Hl. unfold copy_to. case_decide as Hd.
  - rewrite lookup_app_r by (rewrite length_take; lia). rewrite length_take, lookup_app_l by lia. f_equal. lia.
  - destruct (Z.lt_ge_cases (Z.of_nat k) off).
    + rewrite lookup_app_l by (rewrite length_take; lia). by rewrite lookup_take_lt by lia.
    + rewrite lookup_app_r by (rewrite length_take; lia). rewrite length_take, lookup_app_r by lia. rewrite lookup_drop. f_equal. lia.
Qed.

Lemma bytes_at_sub buf w c off n : 0 <= w -> 0 <= off -> 0 <= n -> off + n <= c ->
  bytes_at (bytes_at buf w c) off n = bytes_at buf (w + off) n.
Proof.
  intros. unfold bytes_at. rewrite skipn_firstn_comm, drop_drop, take_take. f_equal; [lia|]. f_equal. lia.
Qed.

(** Little-endian numbers. *)
Fixpoint le_value (bs : list Z) : Z := match bs with [] => 0 | b :: bs => b + 256 * le_value bs end.
Fixpoint le_bytes (n : nat) (x : Z) : list Z := match n with O => [] | S n => u8 x :: le_bytes n (x / 256) end.

Definition bytes (l : list Z) : Prop := Forall (fun b => 0 <= b < 256) l.

Lemma le_value_range bs : bytes bs -> 0 <= le_value bs < 256 ^ zlen bs.
Proof.
  induction 1 as [|b bs Hb _ IH]; cbn [le_value]; [done|]. replace (zlen (b :: bs)) with (Z.succ (zlen bs)) by (unfold zlen; cbn; lia).
  rewrite Z.pow_succ_r by (unfold zlen; lia). lia.
Qed.

Lemma le_bytes_length n x : zlen (le_bytes n x) = Z.of_nat n.
Proof. revert x. induction n as [|n IH]; intros x; [done|]. unfold zlen in *. cbn [le_bytes length]. rewrite Nat2Z.inj_succ, IH. lia. Qed.

Lemma le_bytes_bytes n x : bytes (le_bytes n x).
Proof. revert x. induction n as [|n IH]; intros x; cbn; constructor; [apply u8_range|apply IH]. Qed.

Lemma le_value_bytes n x : le_value (le_bytes n x) = x mod 256 ^ Z.of_nat n.
Proof.
  revert x. induction n as [|n IH]; intros x; cbn [le_bytes le_value]; [by rewrite Z.mod_1_r|]. rewrite IH, Nat2Z.inj_succ, Z.pow_succ_r by lia.
  unfold u8. change (2 ^ 8) with 256. rewrite (Z.rem_mul_r x 256 (256 ^ Z.of_nat n)) by (try apply Z.pow_nonzero; lia). lia.
Qed.

Lemma le_bytes_value bs : bytes bs -> le_bytes (length bs) (le_value bs) = bs.
Proof.
  induction 1 as [|b bs Hb _ IH]; [done|]. cbn [length le_bytes le_value]. unfold u8. change (2 ^ 8) with 256. f_equal.
  - rewrite Z.mul_comm, Z.mod_add by lia. by apply Z.mod_small.
  - rewrite Z.mul_comm, Z.div_add by lia. rewrite (Z.div_small b) by lia. by rewrite Z.add_0_l.
Qed.

(** ** Error numbers, [kernel/utilities/errno.h] *)
Definition EPERM : Z := 1.
Definition ENOENT : Z := 2.
Definition ESRCH : Z := 3.
Definition EINTR : Z := 4.
Definition EIO : Z := 5.
Definition EBADF : Z := 9.
Definition EAGAIN : Z := 11.
Definition ENOMEM : Z := 12.
Definition EFAULT : Z := 14.
Definition EBUSY : Z := 16.
Definition EEXIST : Z := 17.
Definition ENODEV : Z := 19.
Definition ENOTDIR : Z := 20.
Definition EISDIR : Z := 21.
Definition EINVAL : Z := 22.
Definition ENOSPC : Z := 28.
Definition ESPIPE : Z := 29.
Definition EROFS : Z := 30.
Definition EPIPE : Z := 32.
Definition ENAMETOOLONG : Z := 36.
Definition ENOTEMPTY : Z := 39.

(** ** Calls that can block

    What one round of a blocking call ends with. *)
Inductive round := Returned (ret : Z) | Parked.

(** ** Counting a boolean predicate over [[a, a + n)] *)
Fixpoint count_from (p : Z -> bool) (a : Z) (n : nat) : Z :=
  match n with
  | O => 0
  | S n' => (if p a then 1 else 0) + count_from p (a + 1) n'
  end.
Definition countZ (p : Z -> bool) (a n : Z) : Z := count_from p a (Z.to_nat n).

Lemma count_from_ext p q n a :
  (forall x, a <= x < a + Z.of_nat n -> p x = q x) -> count_from p a n = count_from q a n.
Proof.
  revert a. induction n as [|n IH]; intros a H; [done|]. simpl.
  rewrite (H a) by lia. rewrite (IH (a + 1)); [done|]. intros. apply H. lia.
Qed.

Lemma countZ_ext p q a n :
  (forall x, a <= x < a + n -> p x = q x) -> countZ p a n = countZ q a n.
Proof. intros H. apply count_from_ext. intros. apply H. lia. Qed.

Lemma count_from_bound p n a : 0 <= count_from p a n <= Z.of_nat n.
Proof.
  revert a. induction n as [|n IH]; intros a; simpl; [lia|].
  specialize (IH (a + 1)). destruct (p a); lia.
Qed.

Lemma countZ_bound p a n : 0 <= n -> 0 <= countZ p a n <= n.
Proof. intros. pose proof (count_from_bound p (Z.to_nat n) a). unfold countZ. lia. Qed.

(** Changing the predicate at exactly one point of the range changes the count
    by the difference at that point. *)
Lemma count_from_flip p q n a k :
  a <= k < a + Z.of_nat n -> (forall x, x <> k -> p x = q x) ->
  count_from q a n = count_from p a n + (if q k then 1 else 0) - (if p k then 1 else 0).
Proof.
  revert a. induction n as [|n IH]; intros a Hk H; [lia|]. simpl.
  destruct (Z.eq_dec a k) as [->|Hne].
  - rewrite (count_from_ext q p); [lia|]. intros. symmetry. apply H. lia.
  - rewrite (IH (a + 1)) by (done || lia). rewrite (H a) by done. lia.
Qed.

Lemma countZ_flip p q a n k :
  a <= k < a + n -> (forall x, x <> k -> p x = q x) ->
  countZ q a n = countZ p a n + (if q k then 1 else 0) - (if p k then 1 else 0).
Proof. intros. apply count_from_flip; [lia|done]. Qed.

Lemma count_from_all p n a :
  (forall x, a <= x < a + Z.of_nat n -> p x = true) -> count_from p a n = Z.of_nat n.
Proof.
  revert a. induction n as [|n IH]; intros a H; simpl; [done|].
  rewrite (H a), (IH (a + 1)) by (intros; try apply H; lia). lia.
Qed.

Lemma countZ_all p a n : 0 <= n -> (forall x, a <= x < a + n -> p x = true) -> countZ p a n = n.
Proof. intros Hn H. unfold countZ. rewrite count_from_all; [lia|]. intros. apply H. lia. Qed.

(** ** Count trailing zeros, [__builtin_ctz] on a non-zero argument *)
Fixpoint pos_ctz (p : positive) : Z :=
  match p with
  | xO q => 1 + pos_ctz q
  | _ => 0
  end.
Definition ctz (x : Z) : Z := match x with Zpos p => pos_ctz p | _ => 0 end.

Lemma pos_ctz_nonneg p : 0 <= pos_ctz p.
Proof. induction p; simpl; lia. Qed.

Lemma ctz_nonneg x : 0 <= ctz x.
Proof. destruct x; simpl; [lia|apply pos_ctz_nonneg|lia]. Qed.

Lemma ctz_spec x :
  0 < x -> Z.testbit x (ctz x) = true /\ (forall k, 0 <= k < ctz x -> Z.testbit x k = false).
Proof.
  destruct x as [|p|p]; try lia. intros _. simpl.
  induction p as [p IH|p IH|]; simpl pos_ctz.
  - split; [done|lia].
  - destruct IH as [IH1 IH2]. pose proof (pos_ctz_nonneg p).
    change (Z.pos p~0) with (2 * Z.pos p). rewrite Z.add_1_l. split.
    + by rewrite Z.testbit_even_succ.
    + intros k Hk. destruct (Z.eq_dec k 0) as [->|]; [by rewrite Z.testbit_even_0|].
      rewrite <-(Z.succ_pred k), Z.testbit_even_succ by lia. apply IH2. lia.
  - split; [done|lia].
Qed.

(** ** Concatenations of lists *)
Lemma elem_of_concat_map {A B} (f : A -> list B) l x : x ∈ concat (map f l) <-> exists a, a ∈ l /\ x ∈ f a.
Proof.
  induction l as [|a l IH]; simpl.
  - split; [intros H; by apply not_elem_of_nil in H|intros (a & H & _); by apply not_elem_of_nil in H].
  - rewrite elem_of_app, IH. split.
    + intros [H|(b & Hb & H)]; [by exists a; split; [left|]|by exists b; split; [right|]].
    + intros (b & [->|Hb]%elem_of_cons & H); [by left|right; by exists b].
Qed.

Lemma NoDup_concat_map {A B} (f : A -> list B) l :
  NoDup l -> (forall a, a ∈ l -> NoDup (f a)) ->
  (forall a b x, a ∈ l -> b ∈ l -> x ∈ f a -> x ∈ f b -> a = b) -> NoDup (concat (map f l)).
Proof.
  intros Hl. induction Hl as [|a l Ha Hl IH]; intros Hf Hd; simpl; [constructor|].
  apply list_relations.list.NoDup_app. split_and!.
  - apply Hf. left.
  - intros x Hx (b & Hb & Hxb)%elem_of_concat_map.
    assert (a = b) as -> by (eapply Hd; [left|by right|done|done]). done.
  - apply IH; [intros; apply Hf; by right|]. intros b c x Hb Hc. apply Hd; by right.
Qed.

(** Two early returns of the same value are one. *)
Lemma orb_if {A} (a b : bool) (x y : A) : (if a then x else if b then x else y) = if a || b then x else y.
Proof. by destruct a, b. Qed.
