(* ===== verification/Pmm.v ===== *)
(** The physical-frame allocator, [kernel/memory/pmm.c].

    The allocator keeps one bit per 4 KiB frame, set when the frame is taken.
    The state of the module (its five [static] variables) is the record [pmm];
    each C function is one definition that takes and returns that state.  The
    loops that only walk an index over a fixed interval are folds over
    [seqZ]; the scanning loops carry a fuel argument that bounds the number of
    iterations, and their specifications show that it is enough. *)
From S2P Require Import Prelude.

(** ** Constants ([pmm.c:20-31], [pmm.h:15]) *)
Definition FRAME_SIZE : Z := 4096.
Definition PMM_GENERAL_ALLOC_BASE : Z := 0x100000.
Definition PMM_ISA_DMA_START : Z := 0x10000.
Definition PMM_ISA_DMA_END : Z := 0xA0000.
Definition GIB : Z := 2 ^ 30.
Definition BOOT_HHDM_LIMIT : Z := 4 * GIB.

(** First frame of the general pool, [PMM_GENERAL_ALLOC_BASE / FRAME_SIZE]. *)
Definition GENERAL_FRAME : Z := PMM_GENERAL_ALLOC_BASE / FRAME_SIZE.

(** ** State *)
Record pmm := Pmm {
  bitmap : list Z;          (* u8 *bitmap *)
  bitmap_frames : Z;
  usable_frames : Z;
  used_frames : Z;
  next_free_frame : Z;
}.

Definition set_bitmap (s : pmm) (b : list Z) : pmm :=
  Pmm b (bitmap_frames s) (usable_frames s) (used_frames s) (next_free_frame s).
Definition set_used (s : pmm) (n : Z) : pmm :=
  Pmm (bitmap s) (bitmap_frames s) (usable_frames s) n (next_free_frame s).
Definition set_next (s : pmm) (n : Z) : pmm :=
  Pmm (bitmap s) (bitmap_frames s) (usable_frames s) (used_frames s) n.

(** ** Bitmap primitives *)
Definition bitmap_set (s : pmm) (frame : Z) : pmm :=
  set_bitmap s (wr (bitmap s) (frame / 8)
    (u8 (Z.lor (rd (bitmap s) (frame / 8)) (Z.shiftl 1 (frame mod 8))))).

Definition bitmap_clear (s : pmm) (frame : Z) : pmm :=
  set_bitmap s (wr (bitmap s) (frame / 8)
    (u8 (Z.land (rd (bitmap s) (frame / 8)) (Z.lnot (Z.shiftl 1 (frame mod 8)))))).

(** The truth value of the [int] the C function returns. *)
Definition bitmap_test (s : pmm) (frame : Z) : bool :=
  rd (bitmap s) (frame / 8) &? Z.shiftl 1 (frame mod 8).

(** [while (first < end)]; each round either returns or moves [first] to the
    start of the next byte. *)
Fixpoint find_free_frame_loop (fuel : nat) (s : pmm) (first last : Z) : Z :=
  match fuel with
  | O => bitmap_frames s
  | S fuel' =>
      if first <? last then
        let free_bits := Z.land (u8 (Z.lnot (rd (bitmap s) (first / 8))))
                                (u32 (Z.shiftl 0xFF (first mod 8))) in
        if negb (free_bits =? 0) then
          let frame := Z.land first (not64 7) ⊕ ctz free_bits in
          if frame <? last then frame else bitmap_frames s
        else find_free_frame_loop fuel' s (Z.lor first 7 ⊕ 1) last
      else bitmap_frames s
  end.

Definition find_free_frame (s : pmm) (first last : Z) : Z :=
  find_free_frame_loop (S (Z.to_nat (last - first))) s first last.

(** ** Marking whole regions *)
Definition mark_used_step (s : pmm) (f : Z) : pmm :=
  if negb (bitmap_test s f) then
    let s' := bitmap_set s f in set_used s' (used_frames s' ⊕ 1)
  else s.

Definition mark_region_used (s : pmm) (base length : Z) : pmm :=
  let start := base / FRAME_SIZE in
  let last := (base ⊕ length ⊕ FRAME_SIZE ⊖ 1) / FRAME_SIZE in
  foldl mark_used_step s (seqZ start (Z.min last (bitmap_frames s) - start)).

Definition mark_free_step (s : pmm) (f : Z) : pmm :=
  if bitmap_test s f then
    let s' := bitmap_clear s f in set_used s' (used_frames s' ⊖ 1)
  else s.

Definition mark_region_free (s : pmm) (base length : Z) : pmm :=
  let start := base / FRAME_SIZE in
  let last := (base ⊕ length) / FRAME_SIZE in
  foldl mark_free_step s (seqZ start (Z.min last (bitmap_frames s) - start)).

(** ** Allocation and release *)
Definition wrap_next (s : pmm) (n : Z) : Z :=
  if n >=? bitmap_frames s then GENERAL_FRAME else n.

Definition allocate_frame_at (s : pmm) (frame : Z) : Z * pmm :=
  let s := bitmap_set s frame in
  let s := set_used s (used_frames s ⊕ 1) in
  let s := set_next s (wrap_next s (frame ⊕ 1)) in
  (frame ⊗ FRAME_SIZE, s).

(** [for (f = first; f < last; f = find_free_frame(f + 1, last))
       if (!bitmap_test(f)) return ...]; the frame found, if any. *)
Fixpoint scan_loop (fuel : nat) (s : pmm) (f last : Z) : option Z :=
  match fuel with
  | O => None
  | S fuel' =>
      if f <? last then
        if negb (bitmap_test s f) then Some f
        else scan_loop fuel' s (find_free_frame s (f ⊕ 1) last) last
      else None
  end.

Definition scan (s : pmm) (first last : Z) : option Z :=
  scan_loop (S (Z.to_nat (last - first))) s first last.

Definition pmm_alloc_frame (s : pmm) : Z * pmm :=
  let first := GENERAL_FRAME in
  let start := next_free_frame s in
  let start := if (start <? first) || (start >=? bitmap_frames s) then first else start in
  match scan s start (bitmap_frames s) with
  | Some f => allocate_frame_at s f
  | None =>
      match scan s first start with
      | Some f => allocate_frame_at s f
      | None => (0, s)
      end
  end.

Definition pmm_alloc_frame_below (s : pmm) (limit : Z) : Z * pmm :=
  let frames := Z.min (limit / FRAME_SIZE) (bitmap_frames s) in
  let first_frame := if limit >? PMM_GENERAL_ALLOC_BASE then GENERAL_FRAME else 0 in
  let f := find_free_frame s first_frame frames in
  if f <? frames then
    let s := bitmap_set s f in
    let s := set_used s (used_frames s ⊕ 1) in
    let s := if f >=? GENERAL_FRAME then set_next s (wrap_next s (f ⊕ 1)) else s in
    (f ⊗ FRAME_SIZE, s)
  else (0, s).

(** [for (i = start; i < start + n; i++) { bitmap_set(i); used_frames++; }] *)
Definition take_step (s : pmm) (f : Z) : pmm :=
  let s' := bitmap_set s f in set_used s' (used_frames s' ⊕ 1).
Definition take_run (s : pmm) (start n : Z) : pmm := foldl take_step s (seqZ start n).

(** The search loop over [f], with its two accumulators. *)
Fixpoint contiguous_loop (fs : list Z) (s : pmm) (num consecutive start_frame : Z) : option Z :=
  match fs with
  | [] => None
  | f :: fs' =>
      if negb (bitmap_test s f) then
        let start_frame := if consecutive =? 0 then f else start_frame in
        let consecutive := consecutive ⊕ 1 in
        if consecutive =? num then Some start_frame
        else contiguous_loop fs' s num consecutive start_frame
      else contiguous_loop fs' s num 0 start_frame
  end.

Definition pmm_alloc_contiguous_below (s : pmm) (limit num_frames : Z) : Z * pmm :=
  if num_frames =? 0 then (0, s) else
  let max_frames := Z.min (limit / FRAME_SIZE) (bitmap_frames s) in
  let first_frame := if limit >? PMM_GENERAL_ALLOC_BASE then GENERAL_FRAME else 0 in
  match contiguous_loop (seqZ first_frame (max_frames - first_frame)) s num_frames 0 0 with
  | Some start_frame =>
      let s := take_run s start_frame num_frames in
      let s := if start_frame >=? GENERAL_FRAME
               then set_next s (wrap_next s (start_frame ⊕ num_frames)) else s in
      (start_frame ⊗ FRAME_SIZE, s)
  | None => (0, s)
  end.

Definition pmm_free_frame (s : pmm) (frame : Z) : pmm :=
  let f := frame / FRAME_SIZE in
  if f >=? bitmap_frames s then s
  else if bitmap_test s f then
    let s := bitmap_clear s f in
    let s := set_used s (used_frames s ⊖ 1) in
    if (f >=? GENERAL_FRAME) && (f <? next_free_frame s) then set_next s f else s
  else s.

Definition pmm_free_contiguous (s : pmm) (frame num_frames : Z) : pmm :=
  foldl (fun s i => pmm_free_frame s (frame ⊕ i ⊗ FRAME_SIZE)) s (seqZ 0 num_frames).

Definition pmm_total_frames (s : pmm) : Z := bitmap_frames s.
Definition pmm_usable_frames (s : pmm) : Z := usable_frames s.
Definition pmm_used_frames (s : pmm) : Z := used_frames s.

(** ** Boot-time construction, [pmm_init]

    The Multiboot2 tag stream is the decoded list of tags in the order the
    bootloader wrote them; the physical extent of the kernel image (linker
    symbols) and of the tag block are arguments. *)
Record mb2_mmap_entry := MmapEntry { me_base : Z; me_len : Z; me_type : Z }.
Inductive mb2_tag :=
| TagMmap (entries : list mb2_mmap_entry)
| TagModule (mod_start mod_end : Z)
| TagOther (type : Z).

(** First memory-map tag, [mb2_find_tag(mb2_addr, MULTIBOOT_TAG_MMAP)]. *)
Fixpoint mb2_find_mmap (tags : list mb2_tag) : option (list mb2_mmap_entry) :=
  match tags with
  | [] => None
  | TagMmap es :: _ => Some es
  | _ :: tags' => mb2_find_mmap tags'
  end.

(** The unrecoverable conditions on which [pmm_init] halts the machine. *)
Inductive pmm_halt :=
| NoMmapTag | NoUsableMemory | NoBitmapRegion | BitmapOutsideHhdm | HhdmTooLarge | NoLowFrame.

Definition align_up (value align : Z) : Z :=
  Z.land (value ⊕ align ⊖ 1) (not64 (align ⊖ 1)).

Fixpoint find_bitmap_region (es : list mb2_mmap_entry) (bitmap_bytes min_addr : Z) : Z :=
  match es with
  | [] => 0
  | e :: es' =>
      if negb (me_type e =? 1) then find_bitmap_region es' bitmap_bytes min_addr
      else
        let region_top := me_base e ⊕ me_len e in
        let candidate := align_up (Z.max (me_base e) min_addr) FRAME_SIZE in
        if (candidate <? region_top) && (bitmap_bytes <=? region_top - candidate) then candidate
        else find_bitmap_region es' bitmap_bytes min_addr
  end.

(** The first pass: highest usable address and usable bytes. *)
Definition mmap_extent (es : list mb2_mmap_entry) : Z * Z :=
  foldl (fun '(highest, bytes) e =>
    if negb (me_type e =? 1) then (highest, bytes)
    else let top := me_base e ⊕ me_len e in
         (if top >? highest then top else highest, bytes ⊕ me_len e)) (0, 0) es.

Definition max_module_end (tags : list mb2_tag) (a : Z) : Z :=
  foldl (fun a t => match t with TagModule _ e => Z.max a e | _ => a end) a tags.

Definition reserve_modules (s : pmm) (tags : list mb2_tag) : pmm :=
  foldl (fun s t => match t with
    | TagModule b e => mark_region_used s b (e ⊖ b)
    | _ => s end) s tags.

Definition free_usable (s : pmm) (es : list mb2_mmap_entry) : pmm :=
  foldl (fun s e => if me_type e =? 1 then mark_region_free s (me_base e) (me_len e) else s) s es.

(** One page directory written by [hhdm_extend]: its frame, its 512 entries and
    the entry put in the direct-map PDPT. *)
Record hhdm_pd := HhdmPd { pd_gib : Z; pd_phys : Z; pd_entries : list Z; pdpt_entry : Z }.
Definition PAGE_2M : Z := 2 ^ 21.
Definition PAGE_FLAGS : Z := 0x83.   (* PRESENT | WRITE | HUGE *)

(** [for (entry = 0; entry < 512; entry++) pd[entry] = ...] *)
Definition pd_entries_for (gib : Z) : list Z :=
  map (fun entry => Z.lor (gib ⊗ GIB ⊕ entry ⊗ PAGE_2M) PAGE_FLAGS) (seqZ 0 512).
#[global] Arguments pd_entries_for : simpl never.

Fixpoint hhdm_extend_loop (gibs : list Z) (s : pmm) : pmm_halt + (pmm * list hhdm_pd) :=
  match gibs with
  | [] => inr (s, [])
  | gib :: gibs' =>
      let '(pd, s) := pmm_alloc_frame_below s BOOT_HHDM_LIMIT in
      if pd =? 0 then inl NoLowFrame
      else
        match hhdm_extend_loop gibs' s with
        | inl h => inl h
        | inr (s, pds) => inr (s, HhdmPd gib pd (pd_entries_for gib) (Z.lor pd 3) :: pds)
        end
  end.

Definition hhdm_extend (s : pmm) (highest_physical : Z) : pmm_halt + (pmm * list hhdm_pd) :=
  let required_gib := (highest_physical ⊕ GIB ⊖ 1) / GIB in
  if required_gib >? 512 then inl HhdmTooLarge
  else hhdm_extend_loop (seqZ 4 (required_gib - 4)) s.

Definition pmm_init (tags : list mb2_tag) (mb2_addr mb2_size kstart kend : Z)
  : pmm_halt + (pmm * list hhdm_pd) :=
  match mb2_find_mmap tags with
  | None => inl NoMmapTag
  | Some es =>
      let '(highest, bytes) := mmap_extent es in
      if highest =? 0 then inl NoUsableMemory else
      let frames := highest / FRAME_SIZE in
      let bitmap_bytes := (frames ⊕ 7) / 8 in
      let min_addr := Z.max (Z.max kend (mb2_addr ⊕ mb2_size)) 0x100000 in
      let min_addr := max_module_end tags min_addr in
      let bitmap_phys := find_bitmap_region es bitmap_bytes min_addr in
      if bitmap_phys =? 0 then inl NoBitmapRegion else
      if (bitmap_phys >=? BOOT_HHDM_LIMIT) || (bitmap_bytes >? BOOT_HHDM_LIMIT - bitmap_phys)
      then inl BitmapOutsideHhdm else
      let s := Pmm (replicate (Z.to_nat bitmap_bytes) 0xFF) frames (bytes / FRAME_SIZE) frames
                   GENERAL_FRAME in
      let s := free_usable s es in
      let s := mark_region_used s 0 PMM_ISA_DMA_START in
      let s := mark_region_used s PMM_ISA_DMA_END (PMM_GENERAL_ALLOC_BASE - PMM_ISA_DMA_END) in
      let s := mark_region_used s kstart (kend ⊖ kstart) in
      let s := mark_region_used s bitmap_phys bitmap_bytes in
      let s := mark_region_used s mb2_addr mb2_size in
      let s := reserve_modules s tags in
      hhdm_extend s highest
  end.

(** ** Well-formed allocator states

    The bitmap covers every frame, its bytes are bytes, frame numbers stay far
    from the 64-bit limit, and the counter of used frames is exact. *)
Record wf (s : pmm) : Prop := Wf {
  wf_frames : 0 <= bitmap_frames s <= 2 ^ 52;
  wf_len : zlen (bitmap s) = (bitmap_frames s + 7) / 8;
  wf_bytes : Forall is_u8 (bitmap s);
  wf_used : used_frames s = countZ (bitmap_test s) 0 (bitmap_frames s);
  wf_next : 0 <= next_free_frame s < 2 ^ 64;
}.

(** ** Lemmas on the bitmap primitives *)
Lemma bitmap_test_bit s f :
  bitmap_test s f = Z.testbit (rd (bitmap s) (f / 8)) (f mod 8).
Proof.
  unfold bitmap_test. pose proof (Z.mod_pos_bound f 8).
  by rewrite Z.shiftl_1_l, land_bit_test by lia.
Qed.

Lemma div8_eq f g : f / 8 = g / 8 -> f mod 8 = g mod 8 -> f = g.
Proof. intros. rewrite (Z.div_mod f 8), (Z.div_mod g 8) by lia. lia. Qed.

Lemma byte_index s f : wf s -> 0 <= f < bitmap_frames s -> 0 <= f / 8 < zlen (bitmap s).
Proof. intros W Hf. rewrite (wf_len s W). Z.to_euclidean_division_equations. lia. Qed.

Lemma rd_byte s i : wf s -> is_u8 (rd (bitmap s) i).
Proof. intros W. apply rd_Forall; [unfold is_u8; lia|apply W]. Qed.

Lemma test_set s f g :
  wf s -> 0 <= f < bitmap_frames s -> 0 <= g ->
  bitmap_test (bitmap_set s f) g = (f =? g) || bitmap_test s g.
Proof.
  intros W Hf Hg. rewrite !bitmap_test_bit. unfold bitmap_set; simpl.
  pose proof (byte_index s f W Hf) as Hi.
  pose proof (Z.mod_pos_bound f 8). pose proof (Z.mod_pos_bound g 8).
  destruct (Z.eq_dec (f / 8) (g / 8)) as [He|Hne].
  - rewrite <-He, rd_wr_eq by done. unfold u8.
    rewrite testbit_mod, Z.lor_spec, testbit_shiftl1 by lia.
    rewrite (proj2 (Z.ltb_lt (g mod 8) 8)) by lia. simpl.
    destruct (Z.eqb_spec f g) as [->|]; [by rewrite Z.eqb_refl, orb_true_r|].
    destruct (Z.eqb_spec (f mod 8) (g mod 8)); [by destruct (div8_eq f g)|by rewrite orb_false_r].
  - rewrite rd_wr_ne by (done || apply Z.div_pos; lia).
    by destruct (Z.eqb_spec f g) as [->|].
Qed.

Lemma test_clear s f g :
  wf s -> 0 <= f < bitmap_frames s -> 0 <= g ->
  bitmap_test (bitmap_clear s f) g = negb (f =? g) && bitmap_test s g.
Proof.
  intros W Hf Hg. rewrite !bitmap_test_bit. unfold bitmap_clear; simpl.
  pose proof (byte_index s f W Hf) as Hi.
  pose proof (Z.mod_pos_bound f 8). pose proof (Z.mod_pos_bound g 8).
  destruct (Z.eq_dec (f / 8) (g / 8)) as [He|Hne].
  - rewrite <-He, rd_wr_eq by done. unfold u8.
    rewrite testbit_mod, Z.land_spec, Z.lnot_spec, testbit_shiftl1 by lia.
    rewrite (proj2 (Z.ltb_lt (g mod 8) 8)) by lia. simpl.
    destruct (Z.eqb_spec f g) as [->|]; [by rewrite Z.eqb_refl, andb_false_r|].
    destruct (Z.eqb_spec (f mod 8) (g mod 8)); [by destruct (div8_eq f g)|by rewrite andb_true_r].
  - rewrite rd_wr_ne by (done || apply Z.div_pos; lia).
    by destruct (Z.eqb_spec f g) as [->|].
Qed.

(** ** The byte-at-a-time scan finds the first free frame *)
Definition free_bits (s : pmm) (first : Z) : Z :=
  Z.land (u8 (Z.lnot (rd (bitmap s) (first / 8)))) (u32 (Z.shiftl 0xFF (first mod 8))).

Lemma free_bits_spec s first k :
  0 <= k < 8 ->
  Z.testbit (free_bits s first) k
  = negb (bitmap_test s (first - first mod 8 + k)) && (first mod 8 <=? k).
Proof.
  intros Hk. unfold free_bits, u8, u32. pose proof (Z.mod_pos_bound first 8).
  rewrite Z.land_spec, !testbit_mod, Z.lnot_spec by lia.
  rewrite (proj2 (Z.ltb_lt k 8)), (proj2 (Z.ltb_lt k 32)) by lia. simpl.
  rewrite Z.shiftl_spec by lia. change 255 with (Z.ones 8).
  rewrite bitmap_test_bit.
  assert (first - first mod 8 + k = k + first / 8 * 8) as ->
    by (pose proof (Z.div_mod first 8); lia).
  rewrite Z.div_add, (Z.div_small k 8), Z.add_0_l, Z.mod_add, (Z.mod_small k 8) by lia. f_equal.
  destruct (Z.leb_spec (first mod 8) k); [by rewrite Z.ones_spec_low by lia|].
  by rewrite Z.testbit_neg_r by lia.
Qed.

Lemma free_bits_range s first : 0 <= free_bits s first < 2 ^ 8.
Proof. apply land_range; [lia|apply u8_range]. Qed.

(** What a search for a free frame in [[first, last)] answers. *)
Definition first_free (s : pmm) (first last r : Z) : Prop :=
  (first <= r < last /\ bitmap_test s r = false /\
   forall g, first <= g < r -> bitmap_test s g = true)
  \/ (r = bitmap_frames s /\ forall g, first <= g < last -> bitmap_test s g = true).

Lemma group_bounds first : 0 <= first -> 0 <= first - first mod 8 /\ first <= first - first mod 8 + 7.
Proof. intros. pose proof (Z.mod_pos_bound first 8). pose proof (Z.mod_le first 8). lia. Qed.

Lemma find_free_frame_loop_spec s last : 
  last <= 2 ^ 53 ->
  forall fuel first, 0 <= first -> last - first < Z.of_nat fuel ->
  first_free s first last (find_free_frame_loop fuel s first last).
Proof.
  intros Hlast fuel. induction fuel as [|fuel IH]; intros first H0 Hf; simpl.
  { right. split; [done|]. intros g Hg. lia. }
  destruct (Z.ltb_spec first last) as [Hlt|Hge]; [|right; split; [done|lia]].
  fold (free_bits s first).
  pose proof (group_bounds first H0) as [Hg0 Hg1].
  pose proof (Z.mod_pos_bound first 8 ltac:(lia)) as Hm.
  pose proof (free_bits_range s first) as Hr.
  assert (Hbit : forall g, first <= g <= first - first mod 8 + 7 ->
    bitmap_test s g = negb (Z.testbit (free_bits s first) (g - (first - first mod 8)))).
  { intros g Hg. rewrite free_bits_spec by lia.
    replace (first - first mod 8 + _) with g by lia.
    rewrite (proj2 (Z.leb_le _ _)) by lia. by rewrite andb_true_r, negb_involutive. }
  change 7 with (2 ^ 3 - 1). rewrite land_not64_ones, lor_ones by lia.
  change (2 ^ 3) with 8. change (8 - 1) with 7.
  destruct (Z.eqb_spec (free_bits s first) 0) as [Hz|Hnz]; simpl.
  - rewrite u64_small by lia.
    assert (Hgroup : forall g, first <= g <= first - first mod 8 + 7 -> bitmap_test s g = true).
    { intros g Hg. by rewrite Hbit, Hz, Z.bits_0. }
    destruct (IH (first - first mod 8 + 7 + 1)) as [(Ha & Hb & Hc)|(Ha & Hb)]; [lia|lia|left|right].
    + split_and!; [lia|lia|done|]. intros g Hg.
      destruct (Z.le_gt_cases g (first - first mod 8 + 7)); [apply Hgroup|apply Hc]; lia.
    + split; [done|]. intros g Hg.
      destruct (Z.le_gt_cases g (first - first mod 8 + 7)); [apply Hgroup|apply Hb]; lia.
  - destruct (ctz_spec (free_bits s first)) as [Ht Hlow]; [lia|].
    pose proof (ctz_nonneg (free_bits s first)) as Hc0.
    set (c := ctz (free_bits s first)) in *.
    assert (Hc8 : c < 8).
    { destruct (Z.lt_ge_cases c 8); [done|]. by rewrite (testbit_high _ 8) in Ht. }
    pose proof Ht as Ht'. rewrite free_bits_spec in Ht' by lia.
    apply andb_prop in Ht' as [Hfree Hle]. zbool.
    rewrite u64_small by lia.
    assert (Hbefore : forall g, first <= g < first - first mod 8 + c -> bitmap_test s g = true).
    { intros g Hg. rewrite Hbit, Hlow by lia. done. }
    destruct (Z.ltb_spec (first - first mod 8 + c) last); [left|right].
    + split_and!; [lia|lia|done|done].
    + split; [done|]. intros g Hg. apply Hbefore. lia.
Qed.

Lemma find_free_frame_spec s first last :
  0 <= first -> last <= 2 ^ 53 -> first_free s first last (find_free_frame s first last).
Proof. intros. apply find_free_frame_loop_spec; lia. Qed.

(** ** Taking and clearing one frame keep the state well formed *)
Lemma set_bytes s f v : wf s -> Forall is_u8 (wr (bitmap s) f (u8 v)).
Proof. intros W. apply wr_Forall; [apply u8_range|apply W]. Qed.

Lemma wf_flip s s' f b :
  wf s -> 0 <= f < bitmap_frames s ->
  bitmap_frames s' = bitmap_frames s -> zlen (bitmap s') = zlen (bitmap s) ->
  Forall is_u8 (bitmap s') -> 0 <= next_free_frame s' < 2 ^ 64 ->
  bitmap_test s f = negb b ->
  (forall g, 0 <= g -> bitmap_test s' g = if f =? g then b else bitmap_test s g) ->
  used_frames s' = u64 (if b then used_frames s + 1 else used_frames s - 1) ->
  wf s' /\ used_frames s' = used_frames s + (if b then 1 else -1).
Proof.
  intros W Hf Hfr Hlen Hby Hnext Hb Ht Hu.
  assert (Hcount : countZ (bitmap_test s') 0 (bitmap_frames s)
                   = used_frames s + (if b then 1 else -1)).
  { rewrite (wf_used s W).
    rewrite (countZ_ext _ (fun g => if f =? g then b else bitmap_test s g))
      by (intros; apply Ht; lia).
    rewrite (countZ_flip (bitmap_test s) _ _ _ f) by
      (lia || (intros x Hx; by rewrite (proj2 (Z.eqb_neq f x))) ).
    rewrite Z.eqb_refl, Hb. destruct b; simpl; lia. }
  pose proof (countZ_bound (bitmap_test s') 0 (bitmap_frames s)) as Hbd.
  pose proof (wf_frames s W). rewrite Hcount in Hbd.
  assert (Hu' : used_frames s' = used_frames s + (if b then 1 else -1)).
  { rewrite Hu. destruct b; rewrite u64_small; lia. }
  split; [|done]. split; rewrite ?Hfr; try done.
  - rewrite Hlen. apply W.
  - by rewrite Hu', Hcount.
Qed.

Lemma wrap_next_range s n : 0 <= n < 2 ^ 64 -> 0 <= wrap_next s n < 2 ^ 64.
Proof. intros. unfold wrap_next. case_match; [|done]. by vm_compute. Qed.

(** The effect of marking a free frame taken, whatever the hint becomes. *)
Lemma take_wf s f n :
  wf s -> 0 <= f < bitmap_frames s -> bitmap_test s f = false -> 0 <= n < 2 ^ 64 ->
  let s' := set_next (set_used (bitmap_set s f) (used_frames s ⊕ 1)) n in
  wf s' /\ used_frames s' = used_frames s + 1 /\
  (forall g, 0 <= g -> bitmap_test s' g = (f =? g) || bitmap_test s g).
Proof.
  intros W Hf Hfree Hn s'.
  assert (Ht : forall g, 0 <= g -> bitmap_test s' g = (f =? g) || bitmap_test s g)
    by (intros; by apply test_set).
  destruct (wf_flip s s' f true) as [W' Hu]; try done.
  - apply zlen_wr.
  - by apply set_bytes.
Qed.

(** Dually for a frame given back. *)
Lemma release_wf s f n :
  wf s -> 0 <= f < bitmap_frames s -> bitmap_test s f = true -> 0 <= n < 2 ^ 64 ->
  let s' := set_next (set_used (bitmap_clear s f) (used_frames s ⊖ 1)) n in
  wf s' /\ used_frames s' = used_frames s - 1 /\
  (forall g, 0 <= g -> bitmap_test s' g = negb (f =? g) && bitmap_test s g).
Proof.
  intros W Hf Hfree Hn s'.
  assert (Ht : forall g, 0 <= g -> bitmap_test s' g = negb (f =? g) && bitmap_test s g)
    by (intros; by apply test_clear).
  destruct (wf_flip s s' f false) as [W' Hu]; try done.
  - apply zlen_wr.
  - by apply set_bytes.
  - intros g Hg. rewrite Ht by done. by destruct (f =? g).
Qed.

(** ** The allocation entry points *)
Lemma scan_spec s first last :
  0 <= first -> last <= bitmap_frames s -> bitmap_frames s <= 2 ^ 52 ->
  match scan s first last with
  | Some f => first <= f < last /\ bitmap_test s f = false /\
              (forall g, first <= g < f -> bitmap_test s g = true)
  | None => forall g, first <= g < last -> bitmap_test s g = true
  end.
Proof.
  intros H0 Hl Hb. unfold scan. cbn [scan_loop].
  destruct (Z.ltb_spec first last) as [Hlt|]; [|intros; lia].
  destruct (bitmap_test s first) eqn:Et; simpl; [|split_and!; try lia; done].
  replace (Z.to_nat (last - first)) with (S (Z.to_nat (last - first - 1))) by lia.
  cbn [scan_loop]. rewrite u64_small by lia.
  assert (Hgrow : forall r, (forall g, first + 1 <= g < r -> bitmap_test s g = true) ->
            forall g, first <= g < r -> bitmap_test s g = true).
  { intros r Hr g Hg. destruct (Z.eq_dec g first) as [->|]; [done|]. apply Hr. lia. }
  destruct (find_free_frame_spec s (first + 1) last) as [(Ha & Hf & Hall)|(-> & Hall)]; [lia|lia| |].
  - rewrite (proj2 (Z.ltb_lt _ _)) by lia. rewrite Hf. simpl. split_and!; [lia|lia|done|by apply Hgrow].
  - rewrite (proj2 (Z.ltb_ge _ _)) by lia. by apply Hgrow.
Qed.

(** What one allocation of frame [f] does to the state. *)
Record took (s s' : pmm) (f : Z) : Prop := Took {
  took_wf : wf s';
  took_frames : bitmap_frames s' = bitmap_frames s;
  took_range : 0 <= f < bitmap_frames s;
  took_free : bitmap_test s f = false;
  took_used : used_frames s' = used_frames s + 1;
  took_map : forall g, 0 <= g -> bitmap_test s' g = (f =? g) || bitmap_test s g;
}.

Lemma allocate_frame_at_spec s f :
  wf s -> 0 <= f < bitmap_frames s -> bitmap_test s f = false ->
  fst (allocate_frame_at s f) = f * FRAME_SIZE /\ took s (snd (allocate_frame_at s f)) f.
Proof.
  intros W Hf Hfree. pose proof (wf_frames s W). unfold allocate_frame_at, FRAME_SIZE. simpl.
  rewrite (u64_small (f * _)) by lia. split; [done|].
  destruct (take_wf s f (wrap_next (set_used (bitmap_set s f) (used_frames s ⊕ 1)) (f ⊕ 1)))
    as (W' & Hu & Ht); [done..| |by split].
  apply wrap_next_range, u64_range.
Qed.

Definition alloc_start (s : pmm) : Z :=
  if (next_free_frame s <? GENERAL_FRAME) || (next_free_frame s >=? bitmap_frames s)
  then GENERAL_FRAME else next_free_frame s.

Lemma alloc_start_ge s : GENERAL_FRAME <= alloc_start s.
Proof. unfold alloc_start. case_match eqn:E; [lia|]. zbool. lia. Qed.

Lemma pmm_alloc_frame_spec s :
  wf s ->
  (exists f, GENERAL_FRAME <= f /\ fst (pmm_alloc_frame s) = f * FRAME_SIZE /\
             took s (snd (pmm_alloc_frame s)) f)
  \/ (pmm_alloc_frame s = (0, s) /\
      forall g, GENERAL_FRAME <= g < bitmap_frames s -> bitmap_test s g = true).
Proof.
  intros W. pose proof (wf_frames s W) as Hfr. pose proof (alloc_start_ge s) as Hst.
  assert (Hg : 0 <= GENERAL_FRAME) by done.
  unfold pmm_alloc_frame. fold (alloc_start s).
  pose proof (scan_spec s (alloc_start s) (bitmap_frames s)) as H1.
  destruct (scan s (alloc_start s) (bitmap_frames s)) as [f|].
  { left. exists f. destruct H1 as (Hr & Hf & _); [lia..|].
    destruct (allocate_frame_at_spec s f) as [Ha Hb]; [done|lia|done|]. split_and!; try done; lia. }
  destruct (Z.lt_ge_cases (bitmap_frames s) (alloc_start s)) as [Hgt|Hle].
  - (* the bitmap ends below 1 MiB: both loops are empty *)
    assert (alloc_start s = GENERAL_FRAME) as ->.
    { unfold alloc_start in *. case_match; [done|]. zbool. lia. }
    right. unfold scan. rewrite Z.sub_diag. cbn. rewrite Z.ltb_irrefl. split; [done|].
    intros g ?. unfold alloc_start in Hgt. revert Hgt. case_match; intros; zbool; lia.
  - pose proof (scan_spec s GENERAL_FRAME (alloc_start s)) as H2.
    destruct (scan s GENERAL_FRAME (alloc_start s)) as [f|].
    + left. exists f. destruct H2 as (Hr & Hf & _); [lia..|].
      destruct (allocate_frame_at_spec s f) as [Ha Hb]; [done|lia|done|]. split_and!; try done; lia.
    + right. split; [done|]. intros g Hgr.
      destruct (Z.lt_ge_cases g (alloc_start s)); [apply H2|apply H1]; lia.
Qed.

Definition low_bound (limit : Z) : Z :=
  if limit >? PMM_GENERAL_ALLOC_BASE then GENERAL_FRAME else 0.
Definition high_bound (s : pmm) (limit : Z) : Z := Z.min (limit / FRAME_SIZE) (bitmap_frames s).

Lemma low_bound_nonneg limit : 0 <= low_bound limit.
Proof. unfold low_bound. case_match; done. Qed.

Lemma pmm_alloc_frame_below_spec s limit :
  wf s ->
  (exists f, low_bound limit <= f < high_bound s limit /\
             (forall g, low_bound limit <= g < f -> bitmap_test s g = true) /\
             fst (pmm_alloc_frame_below s limit) = f * FRAME_SIZE /\
             took s (snd (pmm_alloc_frame_below s limit)) f)
  \/ (pmm_alloc_frame_below s limit = (0, s) /\
      forall g, low_bound limit <= g < high_bound s limit -> bitmap_test s g = true).
Proof.
  intros W. pose proof (wf_frames s W) as Hfr. pose proof (low_bound_nonneg limit) as H0.
  unfold pmm_alloc_frame_below. fold (low_bound limit) (high_bound s limit).
  assert (Hh : high_bound s limit <= bitmap_frames s) by (unfold high_bound; lia).
  destruct (find_free_frame_spec s (low_bound limit) (high_bound s limit))
    as [(Ha & Hf & Hall)|(-> & Hall)]; [lia..| |].
  - left. set (f := find_free_frame s (low_bound limit) (high_bound s limit)) in *.
    exists f. rewrite (proj2 (Z.ltb_lt _ _)) by lia. unfold FRAME_SIZE. simpl.
    rewrite (u64_small (f * _)) by lia. split_and!; try lia; try done.
    set (s1 := set_used _ _).
    destruct (take_wf s f (if f >=? GENERAL_FRAME then wrap_next s1 (f ⊕ 1) else next_free_frame s))
      as (W' & Hu & Ht); [done|lia|done| |].
    { case_match; [apply wrap_next_range, u64_range|apply W]. }
    destruct (f >=? GENERAL_FRAME); (split; [done..|lia|done|done|done]).
  - right. rewrite (proj2 (Z.ltb_ge _ _)) by lia. done.
Qed.

(** *** Contiguous runs *)
Definition run_free (s : pmm) (b n : Z) : Prop := forall g, b <= g < b + n -> bitmap_test s g = false.

Lemma contiguous_loop_spec s num lo hi :
  0 < num -> 0 <= lo -> hi <= 2 ^ 52 ->
  forall n f c st,
  n = Z.to_nat (hi - f) -> lo <= f -> 0 <= c < num -> c <= f - lo ->
  (0 < c -> st = f - c) -> run_free s (f - c) c ->
  (forall b, lo <= b < f - c -> ~ run_free s b num) ->
  match contiguous_loop (seqZ f (hi - f)) s num c st with
  | Some b => lo <= b /\ b + num <= hi /\ run_free s b num /\
              (forall b', lo <= b' < b -> ~ run_free s b' num)
  | None => forall b, lo <= b -> b + num <= hi -> ~ run_free s b num
  end.
Proof.
  intros Hnum Hlo Hhi n. induction n as [|n IH]; intros f c st Hn Hf Hc Hcf Hst Hrun Hno.
  - rewrite seqZ_nil by lia. simpl. intros b Hb Hbn. apply Hno. lia.
  - rewrite seqZ_cons by lia. simpl.
    replace (Z.succ f) with (f + 1) by lia. replace (Z.pred (hi - f)) with (hi - (f + 1)) by lia.
    destruct (bitmap_test s f) eqn:Et; simpl.
    + apply IH; try lia.
      * intros g Hg. lia.
      * intros b Hb Hr. destruct (Z.lt_ge_cases b (f - c)) as [|Hge]; [by apply (Hno b); [lia|]|].
        destruct (Z.lt_ge_cases f (b + num)); [|lia].
        rewrite (Hr f) in Et by lia. done.
    + assert (Hrun' : run_free s (f - c) (c + 1)).
      { intros g Hg. destruct (Z.eq_dec g f) as [->|]; [done|]. apply Hrun. lia. }
      rewrite u64_small by lia.
      replace (if c =? 0 then f else st) with (f - c)
        by (destruct (Z.eqb_spec c 0); [lia|rewrite Hst; lia]).
      destruct (Z.eqb_spec (c + 1) num) as [He|Hne].
      * rewrite <-He. split_and!; [lia|lia|done|]. rewrite He. intros b' Hb'. apply Hno. lia.
      * apply IH; try lia; replace (f + 1 - (c + 1)) with (f - c) by lia; done.
Qed.

Lemma set_next_id s : set_next s (next_free_frame s) = s.
Proof. by destruct s. Qed.

Definition in_run (b n g : Z) : bool := (b <=? g) && (g <? b + n).

Lemma take_run_spec s b n :
  wf s -> 0 <= b -> 0 <= n -> b + n <= bitmap_frames s -> run_free s b n ->
  let s' := take_run s b n in
  wf s' /\ bitmap_frames s' = bitmap_frames s /\ next_free_frame s' = next_free_frame s /\
  used_frames s' = used_frames s + n /\
  (forall g, 0 <= g -> bitmap_test s' g = in_run b n g || bitmap_test s g).
Proof.
  intros W H0 Hn. unfold take_run. remember (Z.to_nat n) as m eqn:Hm.
  revert s b n W H0 Hn Hm. induction m as [|m IH]; intros s b n W H0 Hn Hm Hle Hfree.
  { assert (n = 0) as -> by lia. rewrite seqZ_nil by lia. simpl. split_and!; try done; [lia|].
    intros g Hg. unfold in_run. zcases. }
  rewrite seqZ_cons by lia. simpl.
  destruct (take_wf s b (next_free_frame s)) as (W' & Hu & Ht); [done|lia|apply Hfree; lia|apply W|].
  change (next_free_frame s) with (next_free_frame (take_step s b)) in W', Hu, Ht.
  fold (take_step s b) in W', Hu, Ht.
  change (set_used (bitmap_set s b) (used_frames s ⊕ 1)) with (take_step s b) in W', Hu, Ht.
  rewrite set_next_id in W', Hu, Ht.
  destruct (IH (take_step s b) (Z.succ b) (Z.pred n)) as (W2 & Hf2 & Hn2 & Hu2 & Ht2); try lia; try done.
  { change (bitmap_frames (take_step s b)) with (bitmap_frames s). lia. }
  { intros g Hg. rewrite Ht by lia. rewrite (proj2 (Z.eqb_neq b g)) by lia. apply Hfree. lia. }
  split_and!; try done; [lia|]. intros g Hg. rewrite Ht2, Ht by done. unfold in_run. zcases.
Qed.

Lemma set_next_wf s n : wf s -> 0 <= n < 2 ^ 64 -> wf (set_next s n).
Proof. intros [] ?. by split. Qed.

Lemma pmm_alloc_contiguous_spec s limit num :
  wf s -> 0 < num ->
  (exists b, low_bound limit <= b /\ b + num <= high_bound s limit /\ run_free s b num /\
             (forall b', low_bound limit <= b' < b -> ~ run_free s b' num) /\
             fst (pmm_alloc_contiguous_below s limit num) = b * FRAME_SIZE /\
             let s' := snd (pmm_alloc_contiguous_below s limit num) in
             wf s' /\ bitmap_frames s' = bitmap_frames s /\ used_frames s' = used_frames s + num /\
             (forall g, 0 <= g -> bitmap_test s' g = in_run b num g || bitmap_test s g))
  \/ (pmm_alloc_contiguous_below s limit num = (0, s) /\
      forall b, low_bound limit <= b -> b + num <= high_bound s limit -> ~ run_free s b num).
Proof.
  intros W Hnum. pose proof (wf_frames s W) as Hfr. pose proof (low_bound_nonneg limit) as H0.
  assert (Hh : high_bound s limit <= bitmap_frames s) by (unfold high_bound; lia).
  unfold pmm_alloc_contiguous_below. fold (low_bound limit) (high_bound s limit).
  rewrite (proj2 (Z.eqb_neq num 0)) by lia.
  pose proof (contiguous_loop_spec s num (low_bound limit) (high_bound s limit) Hnum H0
    ltac:(lia) _ (low_bound limit) 0 0 eq_refl) as HL.
  destruct (contiguous_loop _ s num 0 0) as [b|].
  - left. exists b. destruct HL as (Hb & Hbn & Hrun & Hno); try lia.
    { intros g Hg. lia. }
    destruct (take_run_spec s b num) as (W' & Hf' & Hn' & Hu' & Ht'); [done|lia|lia|lia|done|].
    unfold FRAME_SIZE. simpl. rewrite (u64_small (b * _)) by lia. split_and!; try done.
    + case_match; [|done]. apply set_next_wf; [done|]. apply wrap_next_range, u64_range.
    + by case_match.
    + by case_match.
    + intros g Hg. rewrite <-Ht' by done. by case_match.
  - right. split; [done|]. apply HL; try lia. intros g Hg. lia.
Qed.

(** *** Release *)
Lemma pmm_free_frame_spec s frame :
  wf s -> 0 <= frame ->
  let s' := pmm_free_frame s frame in
  let f := frame / FRAME_SIZE in
  wf s' /\ bitmap_frames s' = bitmap_frames s /\
  (forall g, 0 <= g -> bitmap_test s' g =
     negb ((f =? g) && (f <? bitmap_frames s)) && bitmap_test s g) /\
  used_frames s' = used_frames s -
     (if (f <? bitmap_frames s) && bitmap_test s f then 1 else 0).
Proof.
  intros W Hpos s' f. subst s'. unfold pmm_free_frame. fold f.
  assert (0 <= f) by (apply Z.div_pos; [done|unfold FRAME_SIZE; lia]).
  rewrite Z.geb_leb. destruct (Z.leb_spec (bitmap_frames s) f) as [Hge|Hlt].
  { rewrite (proj2 (Z.ltb_ge f (bitmap_frames s))) by done. split_and!; try done; [|simpl; lia].
    intros. by rewrite andb_false_r. }
  rewrite (proj2 (Z.ltb_lt f (bitmap_frames s))) by done. simpl. setoid_rewrite andb_true_r.
  destruct (bitmap_test s f) eqn:Et.
  - simpl. set (s1 := set_used (bitmap_clear s f) (used_frames s ⊖ 1)).
    destruct (release_wf s f (if (f >=? GENERAL_FRAME) && (f <? next_free_frame s)
                              then f else next_free_frame s)) as (W' & Hu & Ht); [done|done|done| |].
    { pose proof (wf_frames s W). pose proof (wf_next s W). case_match; lia. }
    fold s1 in W', Hu, Ht.
    destruct ((f >=? GENERAL_FRAME) && (f <? next_free_frame s)).
    + split_and!; done.
    + rewrite <-(set_next_id s1). split_and!; done.
  - split_and!; try done; [|lia]. intros g Hg. destruct (Z.eqb_spec f g) as [<-|]; simpl; [|done].
    by rewrite Et.
Qed.


(** ** Region marking *)
Section mark.
Context (step : pmm -> Z -> pmm) (b : bool).
Hypothesis step_spec : forall s f, wf s -> 0 <= f < bitmap_frames s ->
  wf (step s f) /\ bitmap_frames (step s f) = bitmap_frames s /\
  (forall g, 0 <= g -> bitmap_test (step s f) g = if f =? g then b else bitmap_test s g).

Lemma mark_run_spec n s st :
  wf s -> 0 <= st -> st + Z.of_nat n <= bitmap_frames s ->
  let s' := foldl step s (seqZ st (Z.of_nat n)) in
  wf s' /\ bitmap_frames s' = bitmap_frames s /\
  (forall g, 0 <= g -> bitmap_test s' g = if in_run st (Z.of_nat n) g then b else bitmap_test s g).
Proof using step_spec.
  revert s st. induction n as [|n IH]; intros s st W H0 Hle.
  { simpl. split_and!; try done. intros g Hg. unfold in_run. zcases. }
  rewrite seqZ_cons by lia. replace (Z.pred (Z.of_nat (S n))) with (Z.of_nat n) by lia. simpl.
  destruct (step_spec s st) as (W1 & Hf1 & Ht1); [done|lia|].
  destruct (IH (step s st) (Z.succ st)) as (W2 & Hf2 & Ht2); [done|lia|lia|].
  split_and!; [done|congruence|]. intros g Hg. rewrite Ht2, Ht1 by done. unfold in_run. zcases.
Qed.

Lemma mark_interval_spec s st last :
  wf s -> 0 <= st ->
  let s' := foldl step s (seqZ st (Z.min last (bitmap_frames s) - st)) in
  wf s' /\ bitmap_frames s' = bitmap_frames s /\
  (forall g, 0 <= g < bitmap_frames s ->
     bitmap_test s' g = if (st <=? g) && (g <? last) then b else bitmap_test s g).
Proof using step_spec.
  intros W H0. set (n := Z.min last (bitmap_frames s) - st).
  destruct (Z.le_gt_cases n 0) as [Hn|Hn].
  - rewrite seqZ_nil by lia. simpl. split_and!; try done. intros g Hg. zcases.
  - rewrite <-(Z2Nat.id n) by lia.
    destruct (mark_run_spec (Z.to_nat n) s st) as (W' & Hf & Ht); [done|done|lia|].
    split_and!; try done. intros g Hg. rewrite Ht by lia. unfold in_run. zcases.
Qed.
End mark.

Lemma mark_used_step_spec s f :
  wf s -> 0 <= f < bitmap_frames s ->
  wf (mark_used_step s f) /\ bitmap_frames (mark_used_step s f) = bitmap_frames s /\
  (forall g, 0 <= g -> bitmap_test (mark_used_step s f) g = if f =? g then true else bitmap_test s g).
Proof.
  intros W Hf. unfold mark_used_step. destruct (bitmap_test s f) eqn:Et; simpl.
  - split_and!; try done. intros g Hg. by destruct (Z.eqb_spec f g) as [<-|].
  - destruct (take_wf s f (next_free_frame s)) as (W' & _ & Ht); [done|done|done|apply W|].
    split_and!; [|done|].
    + by rewrite <-set_next_id.
    + intros g Hg. rewrite <-(set_next_id (set_used _ _)). rewrite Ht by done. by destruct (f =? g).
Qed.

Lemma mark_free_step_spec s f :
  wf s -> 0 <= f < bitmap_frames s ->
  wf (mark_free_step s f) /\ bitmap_frames (mark_free_step s f) = bitmap_frames s /\
  (forall g, 0 <= g -> bitmap_test (mark_free_step s f) g = if f =? g then false else bitmap_test s g).
Proof.
  intros W Hf. unfold mark_free_step. destruct (bitmap_test s f) eqn:Et; simpl.
  - destruct (release_wf s f (next_free_frame s)) as (W' & _ & Ht); [done|done|done|apply W|].
    split_and!; [|done|].
    + by rewrite <-set_next_id.
    + intros g Hg. rewrite <-(set_next_id (set_used _ _)). rewrite Ht by done. by destruct (f =? g).
  - split_and!; try done. intros g Hg. by destruct (Z.eqb_spec f g) as [<-|].
Qed.

(** A region ends up fully taken, partially covered frames included. *)
Lemma mark_region_used_spec s base length :
  wf s -> 0 <= base ->
  let s' := mark_region_used s base length in
  wf s' /\ bitmap_frames s' = bitmap_frames s /\
  (forall g, 0 <= g < bitmap_frames s -> bitmap_test s' g =
     if (base / FRAME_SIZE <=? g) && (g <? (base ⊕ length ⊕ FRAME_SIZE ⊖ 1) / FRAME_SIZE)
     then true else bitmap_test s g).
Proof.
  intros W Hb. apply mark_interval_spec; [apply mark_used_step_spec|done|].
  apply Z.div_pos; [done|unfold FRAME_SIZE; lia].
Qed.

Lemma mark_region_free_spec s base length :
  wf s -> 0 <= base ->
  let s' := mark_region_free s base length in
  wf s' /\ bitmap_frames s' = bitmap_frames s /\
  (forall g, 0 <= g < bitmap_frames s -> bitmap_test s' g =
     if (base / FRAME_SIZE <=? g) && (g <? (base ⊕ length) / FRAME_SIZE)
     then false else bitmap_test s g).
Proof.
  intros W Hb. apply mark_interval_spec; [apply mark_free_step_spec|done|].
  apply Z.div_pos; [done|unfold FRAME_SIZE; lia].
Qed.

(** ** Boot-time state *)
Definition region_covers (base length g : Z) : bool :=
  (base / FRAME_SIZE <=? g) && (g <? (base ⊕ length ⊕ FRAME_SIZE ⊖ 1) / FRAME_SIZE).
Definition usable_covers (g : Z) (e : mb2_mmap_entry) : bool :=
  (me_type e =? 1) && ((me_base e / FRAME_SIZE <=? g) && (g <? (me_base e ⊕ me_len e) / FRAME_SIZE)).
Definition module_covers (g : Z) (t : mb2_tag) : bool :=
  match t with TagModule b e => region_covers b (e ⊖ b) g | _ => false end.

Lemma init_bitmap_wf frames usable :
  0 <= frames <= 2 ^ 52 ->
  let s := Pmm (replicate (Z.to_nat ((frames ⊕ 7) / 8)) 0xFF) frames usable frames GENERAL_FRAME in
  wf s /\ (forall g, 0 <= g < frames -> bitmap_test s g = true).
Proof.
  intros Hf s.
  assert (Ht : forall g, 0 <= g < frames -> bitmap_test s g = true).
  { intros g Hg. rewrite bitmap_test_bit. unfold rd. simpl.
    rewrite u64_small by lia. rewrite lookup_replicate_2; simpl.
    - pose proof (Z.mod_pos_bound g 8). change 255 with (Z.ones 8). apply Z.ones_spec_low. lia.
    - assert (0 <= g / 8 < (frames + 7) / 8); [|lia]. Z.to_euclidean_division_equations. lia. }
  split; [|done]. split; simpl; try done.
  - unfold zlen. rewrite length_replicate, u64_small by lia.
    rewrite Z2Nat.id; [done|]. apply Z.div_pos; lia.
  - apply Forall_replicate. done.
  - rewrite countZ_all; [done|lia|]. intros. apply Ht. lia.
Qed.

Lemma free_usable_spec es s :
  wf s -> Forall (fun e => 0 <= me_base e) es ->
  wf (free_usable s es) /\ bitmap_frames (free_usable s es) = bitmap_frames s /\
  (forall g, 0 <= g < bitmap_frames s ->
     bitmap_test (free_usable s es) g = bitmap_test s g && negb (existsb (usable_covers g) es)).
Proof.
  intros W Hes. revert s W. induction Hes as [|e es He Hes IH]; intros s W; simpl.
  { split_and!; try done. intros. by rewrite andb_true_r. }
  unfold free_usable in *. simpl.
  destruct (mark_region_free_spec s (me_base e) (me_len e)) as (W1 & Hf1 & Ht1); [done|done|].
  unfold usable_covers at 1. destruct (me_type e =? 1); simpl.
  - destruct (IH _ W1) as (W2 & Hf2 & Ht2). split_and!; [done|congruence|].
    intros g Hg. rewrite Ht2, Ht1 by congruence.
    destruct ((me_base e / FRAME_SIZE <=? g) && (g <? (me_base e ⊕ me_len e) / FRAME_SIZE)); simpl;
      [by rewrite andb_false_r|done].
  - by apply IH.
Qed.

Lemma reserve_modules_spec tags s :
  wf s -> (forall b e, TagModule b e ∈ tags -> 0 <= b) ->
  wf (reserve_modules s tags) /\ bitmap_frames (reserve_modules s tags) = bitmap_frames s /\
  (forall g, 0 <= g < bitmap_frames s ->
     bitmap_test (reserve_modules s tags) g = bitmap_test s g || existsb (module_covers g) tags).
Proof.
  intros W Hm. revert s W. induction tags as [|t tags IH]; intros s W; simpl.
  { split_and!; try done. intros. by rewrite orb_false_r. }
  unfold reserve_modules in *. simpl.
  assert (IH' := IH ltac:(intros; eapply Hm; by right)).
  destruct t as [es|b e|ty]; simpl; [by apply IH'| |by apply IH'].
  destruct (mark_region_used_spec s b (e ⊖ b)) as (W1 & Hf1 & Ht1); [done|eapply Hm; by left|].
  destruct (IH' _ W1) as (W2 & Hf2 & Ht2). split_and!; [done|congruence|].
  intros g Hg. rewrite Ht2, Ht1 by congruence. fold (region_covers b (e ⊖ b) g).
  destruct (region_covers b (e ⊖ b) g); simpl; [by rewrite orb_true_r|done].
Qed.

Lemma hhdm_extend_loop_spec gibs s s' pds :
  wf s -> hhdm_extend_loop gibs s = inr (s', pds) ->
  wf s' /\ bitmap_frames s' = bitmap_frames s /\
  (forall g, 0 <= g < bitmap_frames s ->
     bitmap_test s' g = bitmap_test s g || existsb (fun pd => pd_phys pd =? g * FRAME_SIZE) pds).
Proof.
  revert s s' pds. induction gibs as [|gib gibs IH]; intros s s' pds W H; simpl in H.
  { simplify_eq. split_and!; try done. intros. by rewrite orb_false_r. }
  pose proof (pmm_alloc_frame_below_spec s BOOT_HHDM_LIMIT W) as Ha.
  destruct (pmm_alloc_frame_below s BOOT_HHDM_LIMIT) as [pd s1] eqn:Ea. simpl in Ha.
  destruct Ha as [(f & _ & _ & Hpd & [W1 Hf1 Hr Hfree _ Ht1])|[? _]]; [|by simplify_eq].
  destruct (pd =? 0); [done|].
  destruct (hhdm_extend_loop gibs s1) as [|[s2 pds']] eqn:El; simplify_eq.
  destruct (IH _ _ _ W1 El) as (W2 & Hf2 & Ht2). split_and!; [done|congruence|].
  intros g Hg. rewrite Ht2, Ht1 by lia. simpl.
  replace (f * FRAME_SIZE =? g * FRAME_SIZE) with (f =? g); [by destruct (f =? g), (bitmap_test s g)|].
  unfold FRAME_SIZE. zcases.
Qed.

Definition init_reserved (tags : list mb2_tag) (mb2_addr mb2_size kstart kend bphys bbytes g : Z) : bool :=
  region_covers 0 PMM_ISA_DMA_START g
  || region_covers PMM_ISA_DMA_END (PMM_GENERAL_ALLOC_BASE - PMM_ISA_DMA_END) g
  || region_covers kstart (kend ⊖ kstart) g
  || region_covers bphys bbytes g
  || region_covers mb2_addr mb2_size g
  || existsb (module_covers g) tags.

Lemma align_up_nonneg a b : 0 <= align_up a b.
Proof. unfold align_up. apply Z.land_nonneg. left. apply u64_range. Qed.

Lemma find_bitmap_region_nonneg es b m : 0 <= find_bitmap_region es b m.
Proof.
  induction es as [|e es IH]; simpl; [done|]. case_match; [done|].
  case_match; [apply align_up_nonneg|done].
Qed.

Lemma mmap_extent_range es : 0 <= fst (mmap_extent es) < 2 ^ 64.
Proof.
  unfold mmap_extent. assert (forall p, 0 <= fst p < 2 ^ 64 -> 0 <= fst (foldl (fun '(highest, bytes) e =>
    if negb (me_type e =? 1) then (highest, bytes)
    else let top := me_base e ⊕ me_len e in
         (if top >? highest then top else highest, bytes ⊕ me_len e)) p es) < 2 ^ 64) as H.
  { induction es as [|e es IH]; intros [h b] Hp; simpl; [done|]. apply IH.
    case_match; [done|]. simpl. case_match; [apply u64_range|done]. }
  by apply H.
Qed.

(** Where [pmm_init] puts the bitmap, and how long it is. *)
Definition init_bitmap_bytes (es : list mb2_mmap_entry) : Z :=
  (fst (mmap_extent es) / FRAME_SIZE ⊕ 7) / 8.
Definition init_bitmap_phys (tags : list mb2_tag) (es : list mb2_mmap_entry) (mb2_addr mb2_size kend : Z) : Z :=
  find_bitmap_region es (init_bitmap_bytes es)
    (max_module_end tags (Z.max (Z.max kend (mb2_addr ⊕ mb2_size)) 0x100000)).

(** Chain one [mark_region_used] call. *)
Lemma mark_used_chain s0 s base length (R : Z -> bool) :
  wf s -> bitmap_frames s = bitmap_frames s0 -> 0 <= base ->
  (forall g, 0 <= g < bitmap_frames s0 -> bitmap_test s g = bitmap_test s0 g || R g) ->
  wf (mark_region_used s base length) /\
  bitmap_frames (mark_region_used s base length) = bitmap_frames s0 /\
  (forall g, 0 <= g < bitmap_frames s0 ->
    bitmap_test (mark_region_used s base length) g
    = bitmap_test s0 g || (R g || region_covers base length g)).
Proof.
  intros W Hf Hb HR.
  destruct (mark_region_used_spec s base length) as (W1 & Hf1 & Ht1); [done|done|].
  split_and!; [done|congruence|]. intros g Hg. rewrite Ht1, HR by congruence.
  unfold region_covers. by destruct (_ && _), (bitmap_test s0 g), (R g).
Qed.

Lemma pmm_init_spec tags mb2_addr mb2_size kstart kend es s pds :
  mb2_find_mmap tags = Some es ->
  Forall (fun e => 0 <= me_base e) es -> (forall b e, TagModule b e ∈ tags -> 0 <= b) ->
  0 <= mb2_addr -> 0 <= kstart ->
  pmm_init tags mb2_addr mb2_size kstart kend = inr (s, pds) ->
  wf s /\ bitmap_frames s = fst (mmap_extent es) / FRAME_SIZE /\
  (forall g, 0 <= g < bitmap_frames s -> bitmap_test s g =
     negb (existsb (usable_covers g) es)
     || init_reserved tags mb2_addr mb2_size kstart kend
          (init_bitmap_phys tags es mb2_addr mb2_size kend) (init_bitmap_bytes es) g
     || existsb (fun pd => pd_phys pd =? g * FRAME_SIZE) pds).
Proof.
  intros Htag Hes Hmod Hmb Hk. unfold pmm_init. rewrite Htag.
  pose proof (mmap_extent_range es) as Hr.
  unfold init_bitmap_phys, init_bitmap_bytes.
  destruct (mmap_extent es) as [highest bytes]. simpl in *.
  case_match; [done|]. set (frames := highest / FRAME_SIZE). set (bb := (frames ⊕ 7) / 8).
  set (bp := find_bitmap_region es bb _). do 2 (case_match; [done|]).
  assert (Hfr : 0 <= frames <= 2 ^ 52).
  { unfold frames, FRAME_SIZE. Z.to_euclidean_division_equations. lia. }
  destruct (init_bitmap_wf frames (bytes / FRAME_SIZE) Hfr) as (W0 & Ht0). fold bb in W0, Ht0.
  set (s0 := Pmm (replicate (Z.to_nat bb) 255) _ _ _ _) in *.
  destruct (free_usable_spec es s0 W0 Hes) as (W1 & Hf1 & Ht1).
  set (s1 := free_usable s0 es) in *.
  destruct (mark_used_chain s1 s1 0 PMM_ISA_DMA_START (fun _ => false))
    as (W2 & Hf2 & Ht2); [done|done|done|intros; by rewrite orb_false_r|].
  apply (mark_used_chain _ _ PMM_ISA_DMA_END (PMM_GENERAL_ALLOC_BASE - PMM_ISA_DMA_END)) in Ht2
    as (W3 & Hf3 & Ht3); [|done..].
  apply (mark_used_chain _ _ kstart (kend ⊖ kstart)) in Ht3 as (W4 & Hf4 & Ht4); [|done..].
  apply (mark_used_chain _ _ bp bb) in Ht4 as (W5 & Hf5 & Ht5);
    [|done|done|apply find_bitmap_region_nonneg].
  apply (mark_used_chain _ _ mb2_addr mb2_size) in Ht5 as (W6 & Hf6 & Ht6); [|done..].
  destruct (reserve_modules_spec tags _ W6 Hmod) as (W7 & Hf7 & Ht7).
  intros Hh. unfold hhdm_extend in Hh. case_match; [done|].
  destruct (hhdm_extend_loop_spec _ _ _ _ W7 Hh) as (W8 & Hf8 & Ht8).
  change (bitmap_frames s0) with frames in *.
  assert (Hframes : bitmap_frames s = frames) by congruence.
  split_and!; [done|done|]. intros g Hg. rewrite Hframes in Hg.
  rewrite Ht8, Ht7, Ht6, Ht1, Ht0 by lia. unfold init_reserved. simpl.
  by rewrite !orb_assoc.
Qed.
