(* ===== verification/PmmSpec.v ===== *)
(** What the frame allocator promises, and that [kernel/memory/pmm.c] keeps it.

    The abstract allocator is a set of free frames; [fstep] says which answers
    and which next sets each call of [pmm.h] allows.  [pmm_exec_sim] shows that
    every call of the bitmap allocator is such a step, and [runs] closes the
    simulation under sequences of calls, which gives exclusive ownership of
    granted frames.  The second half is about boot: which addresses
    [pmm_init] withholds and what its direct-map extension covers. *)
From S2P Require Import Prelude.
From S2P Require Import Pmm.

(** ** Abstract allocator *)
Inductive pmm_op :=
| OpAlloc
| OpAllocBelow (limit : Z)
| OpAllocRun (limit num : Z)
| OpFree (frame : Z)
| OpFreeRun (frame num : Z).

(** The arguments are [u64] values. *)
Definition op_ok (op : pmm_op) : Prop :=
  match op with
  | OpAlloc => True
  | OpAllocBelow limit => is_u64 limit
  | OpAllocRun limit num => is_u64 limit /\ is_u64 num
  | OpFree frame => is_u64 frame
  | OpFreeRun frame num => is_u64 frame /\ is_u64 num
  end.

Definition pmm_exec (s : pmm) (op : pmm_op) : Z * pmm :=
  match op with
  | OpAlloc => pmm_alloc_frame s
  | OpAllocBelow limit => pmm_alloc_frame_below s limit
  | OpAllocRun limit num => pmm_alloc_contiguous_below s limit num
  | OpFree frame => (0, pmm_free_frame s frame)
  | OpFreeRun frame num => (0, pmm_free_contiguous s frame num)
  end.

Definition run_set (b n : Z) : gset Z := list_to_set (seqZ b n).
Definition is_release (op : pmm_op) : bool :=
  match op with OpFree _ | OpFreeRun _ _ => true | _ => false end.
(** The frames a release names, whether or not the allocator manages them. *)
Definition released (op : pmm_op) : gset Z :=
  match op with
  | OpFree frame => {[ frame / FRAME_SIZE ]}
  | OpFreeRun frame num => list_to_set (map (fun i => (frame ⊕ i ⊗ FRAME_SIZE) / FRAME_SIZE) (seqZ 0 num))
  | _ => ∅
  end.
(** The frames an answer hands to the caller. *)
Definition granted (op : pmm_op) (r : Z) : gset Z :=
  if r =? 0 then ∅ else
  match op with
  | OpAlloc | OpAllocBelow _ => {[ r / FRAME_SIZE ]}
  | OpAllocRun _ num => run_set (r / FRAME_SIZE) num
  | _ => ∅
  end.

(** [fstep N F op r F']: with [F] free among [N] frames, [op] may answer [r]
    and leave [F'].  The bounded searches are first-fit; the general one is
    next-fit from a hint, so any frame of the general pool will do. *)
Inductive fstep (N : Z) (F : gset Z) : pmm_op -> Z -> gset Z -> Prop :=
| fs_alloc f : f ∈ F -> GENERAL_FRAME <= f -> fstep N F OpAlloc (f * FRAME_SIZE) (F ∖ {[ f ]})
| fs_alloc_none : (forall f, f ∈ F -> f < GENERAL_FRAME) -> fstep N F OpAlloc 0 F
| fs_below limit f : f ∈ F -> low_bound limit <= f < limit / FRAME_SIZE ->
    (forall g, g ∈ F -> low_bound limit <= g -> f <= g) ->
    fstep N F (OpAllocBelow limit) (f * FRAME_SIZE) (F ∖ {[ f ]})
| fs_below_none limit : (forall g, g ∈ F -> ~ low_bound limit <= g < limit / FRAME_SIZE) ->
    fstep N F (OpAllocBelow limit) 0 F
| fs_run limit num b : 0 < num -> run_set b num ⊆ F -> low_bound limit <= b -> b + num <= limit / FRAME_SIZE ->
    (forall b', run_set b' num ⊆ F -> low_bound limit <= b' -> b <= b') ->
    fstep N F (OpAllocRun limit num) (b * FRAME_SIZE) (F ∖ run_set b num)
| fs_run_none limit num :
    (forall b, low_bound limit <= b -> b + num <= limit / FRAME_SIZE -> 0 < num -> ~ run_set b num ⊆ F) ->
    fstep N F (OpAllocRun limit num) 0 F
| fs_free op F' : is_release op = true ->
    (forall f, f ∈ F' <-> f ∈ F \/ f ∈ released op /\ f < N) -> fstep N F op 0 F'.

(** The abstraction function. *)
Definition free_frames (s : pmm) : gset Z :=
  list_to_set (filter (fun f => bitmap_test s f = false) (seqZ 0 (bitmap_frames s))).

Lemma elem_of_free_frames s f : f ∈ free_frames s <-> 0 <= f < bitmap_frames s /\ bitmap_test s f = false.
Proof.
  unfold free_frames. rewrite elem_of_list_to_set, list_elem_of_filter, elem_of_seqZ. naive_solver lia.
Qed.

Lemma elem_of_run_set b n f : f ∈ run_set b n <-> b <= f < b + n.
Proof. unfold run_set. rewrite elem_of_list_to_set, elem_of_seqZ. done. Qed.

Lemma run_set_free s b n : 0 <= b -> b + n <= bitmap_frames s ->
  run_free s b n <-> run_set b n ⊆ free_frames s.
Proof.
  intros Hb Hn. unfold run_free. split.
  - intros H f Hf%elem_of_run_set. apply elem_of_free_frames. split; [lia|by apply H].
  - intros H g Hg. apply elem_of_run_set, H, elem_of_free_frames in Hg. by destruct Hg.
Qed.

(** ** Simulation *)
Lemma took_free s s' f : took s s' f -> free_frames s' = free_frames s ∖ {[ f ]}.
Proof.
  intros T. apply set_eq. intros g. rewrite elem_of_difference, !elem_of_free_frames, elem_of_singleton.
  rewrite (took_frames _ _ _ T). split.
  - intros [Hg Ht]. rewrite (took_map _ _ _ T) in Ht by lia. apply orb_false_iff in Ht as [?%Z.eqb_neq ?]. naive_solver.
  - intros [[Hg Ht] Hne]. split; [done|]. rewrite (took_map _ _ _ T), Ht by lia.
    rewrite (proj2 (Z.eqb_neq f g)); [done|congruence].
Qed.

Lemma took_elem s s' f : took s s' f -> f ∈ free_frames s.
Proof. intros T. apply elem_of_free_frames. split; apply T. Qed.

(** Releasing a list of addresses. *)
Lemma free_list_spec l s : wf s -> Forall (fun a => 0 <= a) l ->
  let s' := foldl pmm_free_frame s l in
  wf s' /\ bitmap_frames s' = bitmap_frames s /\
  forall g, g ∈ free_frames s' <-> g ∈ free_frames s \/ g ∈ map (fun a => a / FRAME_SIZE) l /\ g < bitmap_frames s.
Proof.
  intros W Hl. revert s W. induction Hl as [|a l Ha Hl IH]; intros s W; simpl.
  { split_and!; try done. intros g. split; [by left|intros [?|[?%not_elem_of_nil _]]; done]. }
  destruct (pmm_free_frame_spec s a W Ha) as (W1 & Hf1 & Ht1 & _).
  destruct (IH _ W1) as (W2 & Hf2 & Ht2). split_and!; [done|congruence|]. intros g.
  rewrite Ht2, !elem_of_free_frames, Hf1, elem_of_cons.
  assert (0 <= a / FRAME_SIZE) by (apply Z.div_pos; [done|unfold FRAME_SIZE; lia]).
  destruct (decide (0 <= g < bitmap_frames s)) as [Hg|Hg].
  - rewrite Ht1 by lia. destruct (Z.eqb_spec (a / FRAME_SIZE) g) as [<-|Hne]; simpl.
    + rewrite (proj2 (Z.ltb_lt _ _)) by lia. simpl. split; [|by left; split; [lia|]]. intros _. right. by split; [left|lia].
    + split; [intros [?|[? ?]]; [by left|right; by split; [right|]]|intros [?|[[?|?] ?]]; [by left|congruence|by right]].
  - split; [intros [[? _]|[? ?]]; [done|right; by split; [right|]]|].
    intros [[? _]|[[->|?] ?]]; [done|lia|by right].
Qed.

Lemma release_fstep s op :
  wf s -> op_ok op -> is_release op = true ->
  fstep (bitmap_frames s) (free_frames s) op (fst (pmm_exec s op)) (free_frames (snd (pmm_exec s op))) /\
  wf (snd (pmm_exec s op)) /\ bitmap_frames (snd (pmm_exec s op)) = bitmap_frames s.
Proof.
  intros W Hop. destruct op as [| | |a|a n]; try done; intros _; cbn [pmm_exec fst snd].
  - destruct (free_list_spec [a] s W) as (W' & Hf & Hg); [by constructor; [apply Hop|]|].
    split; [|done]. apply fs_free; [done|]. intros f. cbn [foldl] in Hg. rewrite Hg. cbn [map released]. set_solver.
  - unfold pmm_free_contiguous.
    assert (forall l (s : pmm), foldl (fun s i => pmm_free_frame s (a ⊕ i ⊗ FRAME_SIZE)) s l
              = foldl pmm_free_frame s (map (fun i => a ⊕ i ⊗ FRAME_SIZE) l)) as ->
      by (induction l; simpl; [done|intros; by rewrite IHl]).
    destruct (free_list_spec (map (fun i => a ⊕ i ⊗ FRAME_SIZE) (seqZ 0 n)) s W) as (W' & Hf & Hg).
    { apply Forall_map, Forall_true. intros i. simpl. apply u64_range. }
    split; [|done]. apply fs_free; [done|]. intros f. rewrite Hg. cbn [released].
    by rewrite map_map, elem_of_list_to_set.
Qed.

(** Every call is a step of the abstract allocator. *)
Lemma pmm_exec_sim s op :
  wf s -> op_ok op ->
  fstep (bitmap_frames s) (free_frames s) op (fst (pmm_exec s op)) (free_frames (snd (pmm_exec s op))) /\
  wf (snd (pmm_exec s op)) /\ bitmap_frames (snd (pmm_exec s op)) = bitmap_frames s.
Proof.
  intros W Hop. destruct (is_release op) eqn:Er; [by apply release_fstep|].
  destruct op as [|limit|limit num| |]; try done; cbn [pmm_exec].
  - destruct (pmm_alloc_frame_spec s W) as [(f & Hf & -> & T)|[-> Hn]].
    + rewrite (took_free _ _ _ T). split; [|split; apply T]. apply fs_alloc; [by eapply took_elem|done].
    + cbn [fst snd]. split; [|done]. apply fs_alloc_none. intros f [Hf Ht]%elem_of_free_frames.
      destruct (Z.lt_ge_cases f GENERAL_FRAME); [done|]. rewrite Hn in Ht by lia. done.
  - destruct (pmm_alloc_frame_below_spec s limit W) as [(f & Hf & Hmin & -> & T)|[-> Hn]]; unfold high_bound in *.
    + rewrite (took_free _ _ _ T). split; [|split; apply T]. apply fs_below; [by eapply took_elem|lia|].
      intros g [Hg Ht]%elem_of_free_frames Hlow. destruct (Z.lt_ge_cases g f); [|done].
      rewrite Hmin in Ht by lia. done.
    + cbn [fst snd]. split; [|done]. apply fs_below_none. intros g [Hg Ht]%elem_of_free_frames Hl. rewrite Hn in Ht by lia. done.
  - destruct (Z.eq_dec num 0) as [->|Hnz].
    { cbn. split; [|done]. apply fs_run_none. lia. }
    destruct Hop as [_ Hnum]. unfold is_u64 in Hnum. pose proof (low_bound_nonneg limit) as Hlow.
    destruct (pmm_alloc_contiguous_spec s limit num W ltac:(lia))
      as [(b & Hb & Hbn & Hfree & Hmin & -> & W' & Hf & _ & Ht)|[-> Hn]]; unfold high_bound in *.
    + replace (free_frames (snd _)) with (free_frames s ∖ run_set b num).
      { split; [|done]. apply fs_run; [lia|apply run_set_free; [lia..|done]|lia|lia|].
        intros b' Hb' Hl. destruct (Z.lt_ge_cases b' b); [|done]. exfalso.
        apply (Hmin b'); [lia|]. apply run_set_free; [lia|lia|done]. }
      symmetry. apply set_eq. intros g. rewrite elem_of_difference, !elem_of_free_frames, elem_of_run_set, Hf.
      destruct (decide (0 <= g < bitmap_frames s)); [|naive_solver]. rewrite Ht by lia. unfold in_run.
      destruct (bitmap_test s g); zcases.
    + cbn [fst snd]. split; [|done]. apply fs_run_none. intros b Hb Hbn _ Hsub. apply (Hn b); [done| |].
      * assert (b + num - 1 ∈ free_frames s) as [? _]%elem_of_free_frames by (apply Hsub, elem_of_run_set; lia). lia.
      * assert (b + num - 1 ∈ free_frames s) as [? _]%elem_of_free_frames by (apply Hsub, elem_of_run_set; lia).
        apply run_set_free; [lia|lia|done].
Qed.

(** ** Sequences of calls *)
Inductive runs (N : Z) : gset Z -> list (pmm_op * Z) -> gset Z -> Prop :=
| runs_nil F : runs N F [] F
| runs_cons F op r F1 tr F2 : fstep N F op r F1 -> runs N F1 tr F2 -> runs N F ((op, r) :: tr) F2.

(** Execute a list of calls, keeping each answer beside its call. *)
Fixpoint pmm_trace (s : pmm) (ops : list pmm_op) : list (pmm_op * Z) * pmm :=
  match ops with
  | [] => ([], s)
  | op :: ops' =>
      let '(r, s1) := pmm_exec s op in
      let '(tr, s2) := pmm_trace s1 ops' in ((op, r) :: tr, s2)
  end.

Lemma pmm_trace_sim ops s :
  wf s -> Forall op_ok ops ->
  runs (bitmap_frames s) (free_frames s) (fst (pmm_trace s ops)) (free_frames (snd (pmm_trace s ops))) /\
  wf (snd (pmm_trace s ops)) /\ bitmap_frames (snd (pmm_trace s ops)) = bitmap_frames s.
Proof.
  intros W Hops. revert s W. induction Hops as [|op ops Hop Hops IH]; intros s W; simpl; [by split; [constructor|]|].
  destruct (pmm_exec_sim s op W Hop) as (Hs & W1 & Hf1).
  destruct (pmm_exec s op) as [r s1]. cbn [fst snd] in *. destruct (IH s1 W1) as (Hr & W2 & Hf2).
  destruct (pmm_trace s1 ops) as [tr s2]. cbn [fst snd] in *. rewrite Hf1 in *.
  split_and!; [by econstructor|done|done].
Qed.

Lemma fstep_granted N F op r F' f : fstep N F op r F' -> f ∈ granted op r -> f ∈ F /\ f ∉ F'.
Proof.
  unfold granted. intros H. destruct (Z.eqb_spec r 0) as [|Hr]; [set_solver|].
  destruct H; try done; rewrite Z.div_mul by done; try set_solver.
Qed.

Lemma fstep_stays N F op r F' f : fstep N F op r F' -> f ∉ F -> f ∈ F' -> f ∈ released op.
Proof. intros H. destruct H; set_solver. Qed.

Lemma runs_stays N F tr F' f :
  runs N F tr F' -> f ∉ F -> (forall op r, (op, r) ∈ tr -> f ∉ released op) ->
  (f ∉ F') /\ (forall op r, (op, r) ∈ tr -> f ∉ granted op r).
Proof.
  induction 1 as [|F op r F1 tr F2 Hs Hr IH]; intros Hf Hno; [split; [done|set_solver]|].
  destruct IH as [Hf2 Hg].
  - intros Hin. apply (Hno op r); [by left|by eapply fstep_stays].
  - set_solver.
  - split; [done|]. intros op' r' [[= -> ->]|Hin]%elem_of_cons; [|by eapply Hg].
    intros Hgr. by destruct (fstep_granted _ _ _ _ _ _ Hs Hgr).
Qed.

Lemma runs_app_inv N F tr1 tr2 F' : runs N F (tr1 ++ tr2) F' -> exists F1, runs N F tr1 F1 /\ runs N F1 tr2 F'.
Proof.
  revert F. induction tr1 as [|[op r] tr1 IH]; simpl; intros F H; [by exists F; split; [constructor|]|].
  inversion_clear H. destruct (IH _ ltac:(eassumption)) as (F2 & ? & ?). exists F2. split; [by econstructor|done].
Qed.

(** A small machine for the examples: 320 frames, the first megabyte and half
    of the frames above it taken. *)
Definition ex_pmm : pmm := Pmm (replicate 32 0xFF ++ replicate 8 0x0F) 320 320 288 256.

Lemma ex_pmm_wf : wf ex_pmm.
Proof.
  split; try (by vm_compute). unfold ex_pmm. cbn [bitmap]. apply Forall_app. split; by apply Forall_replicate.
Qed.

(** ** Properties *)

(** C1: every call of the allocator is allowed by the abstract allocator on the
    set of free frames: any sequence of alloc, bounded alloc, contiguous alloc and
    release calls with 64-bit arguments, from a well-formed state, answers as
    the abstract allocator may (first fit for the bounded searches, 0 only when nothing fits),
    moves the free set accordingly, and keeps the state well formed. *)
Theorem pmm_refines ops s :
  wf s -> Forall op_ok ops ->
  runs (bitmap_frames s) (free_frames s) (fst (pmm_trace s ops)) (free_frames (snd (pmm_trace s ops))) /\
  wf (snd (pmm_trace s ops)).
Proof. intros W H. by destruct (pmm_trace_sim ops s W H) as (? & ? & _). Qed.

Lemma pmm_refines_witness :
  let ops := [OpAlloc; OpAllocRun 0x140000 4; OpFree 0x104000; OpAllocBelow 0x140000; OpAllocRun 0x140000 5] in
  let tr := [(OpAlloc, 0x104000); (OpAllocRun 0x140000 4, 0x10C000); (OpFree 0x104000, 0);
             (OpAllocBelow 0x140000, 0x104000); (OpAllocRun 0x140000 5, 0)] in
  fst (pmm_trace ex_pmm ops) = tr /\
  runs 320 (free_frames ex_pmm) tr (free_frames (snd (pmm_trace ex_pmm ops))).
Proof.
  cbv zeta. assert (Htr : fst (pmm_trace ex_pmm [OpAlloc; OpAllocRun 0x140000 4; OpFree 0x104000; OpAllocBelow 0x140000; OpAllocRun 0x140000 5])
    = [(OpAlloc, 0x104000); (OpAllocRun 0x140000 4, 0x10C000); (OpFree 0x104000, 0);
             (OpAllocBelow 0x140000, 0x104000); (OpAllocRun 0x140000 5, 0)]) by (vm_compute; reflexivity).
  split; [exact Htr|]. rewrite <-Htr.
  apply (pmm_refines [OpAlloc; OpAllocRun 0x140000 4; OpFree 0x104000; OpAllocBelow 0x140000; OpAllocRun 0x140000 5] ex_pmm ex_pmm_wf).
  repeat constructor; unfold is_u64; lia.
Defined.

(** A frame handed out is not handed out again before it is released:
    whatever calls follow a grant, if none of them releases frame [f] then
    none of them grants [f]. *)
Theorem pmm_exclusive s ops op r mid after f :
  wf s -> Forall op_ok ops -> fst (pmm_trace s ops) = mid ++ (op, r) :: after ->
  f ∈ granted op r -> (forall op' r', (op', r') ∈ after -> f ∉ released op') ->
  forall op' r', (op', r') ∈ after -> f ∉ granted op' r'.
Proof.
  intros W Hops Htr Hg Hno. destruct (pmm_trace_sim ops s W Hops) as (Hr & _ & _). rewrite Htr in Hr.
  apply runs_app_inv in Hr as (F1 & _ & Hr). inversion_clear Hr.
  destruct (fstep_granted _ _ _ _ _ _ ltac:(eassumption) Hg) as [_ Hnin]. by eapply runs_stays.
Qed.

Lemma pmm_exclusive_witness :
  let after := [(OpAlloc, 0x105000); (OpFree 0x105000, 0); (OpAllocBelow 0x140000, 0x105000)] in
  260 ∈ granted OpAlloc 0x104000 /\ forall op' r', (op', r') ∈ after -> 260 ∉ granted op' r'.
Proof.
  cbv zeta. assert (Hg : 260 ∈ granted OpAlloc 0x104000) by (apply elem_of_singleton; reflexivity).
  split; [exact Hg|].
  apply (pmm_exclusive ex_pmm [OpAlloc; OpAlloc; OpFree 0x105000; OpAllocBelow 0x140000] OpAlloc 0x104000 [] _ 260 ex_pmm_wf);
    [repeat constructor; unfold is_u64; lia|vm_compute; reflexivity|exact Hg|].
  intros op' r' Hin.
  repeat (apply elem_of_cons in Hin as [[= -> ->]|Hin];
    [cbn [released]; first [apply not_elem_of_empty | apply not_elem_of_singleton; vm_compute; discriminate]|]).
  by apply not_elem_of_nil in Hin.
Defined.

(** ** Boot *)
Lemma region_covers_byte base len a :
  0 <= base -> base + len + FRAME_SIZE < 2 ^ 64 -> base <= a < base + len ->
  region_covers base len (a / FRAME_SIZE) = true.
Proof.
  unfold region_covers, FRAME_SIZE. intros Hb Hw Ha.
  rewrite (u64_small (base + len)), (u64_small (base + len + _)), (u64_small (base + len + _ - 1)) by lia.
  apply andb_true_iff. split; [apply Z.leb_le; by apply Z.div_le_mono; lia|apply Z.ltb_lt].
  Z.to_euclidean_division_equations. lia.
Qed.

(** A byte range that the arithmetic of [mark_region_used] does not wrap. *)
Definition byte_range (base len : Z) : Prop := 0 <= base /\ 0 <= len /\ base + len + FRAME_SIZE < 2 ^ 64.

(** What [pmm_init] must never hand out. *)
Definition reserved_byte (tags : list mb2_tag) (mb2_addr mb2_size kstart kend bphys bbytes a : Z) : Prop :=
  a < PMM_ISA_DMA_START
  \/ PMM_ISA_DMA_END <= a < PMM_GENERAL_ALLOC_BASE
  \/ kstart <= a < kend
  \/ bphys <= a < bphys + bbytes
  \/ mb2_addr <= a < mb2_addr + mb2_size
  \/ exists b e, TagModule b e ∈ tags /\ b <= a < e.

Lemma reserved_byte_covers tags mb2_addr mb2_size kstart kend bphys bbytes a :
  byte_range mb2_addr mb2_size -> byte_range kstart (kend - kstart) -> byte_range bphys bbytes ->
  (forall b e, TagModule b e ∈ tags -> byte_range b (e - b)) -> 0 <= a ->
  reserved_byte tags mb2_addr mb2_size kstart kend bphys bbytes a ->
  init_reserved tags mb2_addr mb2_size kstart kend bphys bbytes (a / FRAME_SIZE) = true.
Proof.
  unfold byte_range. intros (M1 & M2 & M3) (K1 & K2 & K3) (B1 & B2 & B3) HT Ha Hr.
  pose proof (eq_refl : FRAME_SIZE = 4096) as HF.
  unfold init_reserved. destruct Hr as [H|[H|[H|[H|[H|(b & e & Hin & H)]]]]]; zbool.
  - do 5 (apply orb_true_iff; left). apply region_covers_byte; unfold PMM_ISA_DMA_START in *; lia.
  - do 4 (apply orb_true_iff; left). apply orb_true_iff; right.
    apply region_covers_byte; unfold PMM_ISA_DMA_END, PMM_GENERAL_ALLOC_BASE in *; lia.
  - do 3 (apply orb_true_iff; left). apply orb_true_iff; right.
    rewrite (u64_small (kend - kstart)) by lia. apply region_covers_byte; lia.
  - do 2 (apply orb_true_iff; left). apply orb_true_iff; right. apply region_covers_byte; lia.
  - do 1 (apply orb_true_iff; left). apply orb_true_iff; right. apply region_covers_byte; lia.
  - apply orb_true_iff; right. apply existsb_exists. exists (TagModule b e). split; [by apply list_elem_of_In|].
    destruct (HT b e Hin) as (? & ? & ?). simpl. rewrite (u64_small (e - b)) by lia. apply region_covers_byte; lia.
Qed.

(** Where the bitmap goes: above everything already placed, inside a usable region. *)
Lemma align_up_frame x : 0 <= x -> x + FRAME_SIZE < 2 ^ 64 ->
  x <= align_up x FRAME_SIZE < x + FRAME_SIZE /\ align_up x FRAME_SIZE mod FRAME_SIZE = 0.
Proof.
  unfold align_up, FRAME_SIZE. intros H0 Hx.
  rewrite (u64_small (x + 4096)), (u64_small (4096 - 1)), (u64_small (x + 4096 - 1)) by lia.
  change (4096 - 1) with (2 ^ 12 - 1). rewrite land_not64_ones by lia. change (2 ^ 12) with 4096.
  Z.to_euclidean_division_equations. lia.
Qed.

Lemma find_bitmap_region_spec es bytes lo :
  0 <= lo -> lo + FRAME_SIZE < 2 ^ 64 -> 0 <= bytes -> Forall (fun e => byte_range (me_base e) (me_len e)) es ->
  let p := find_bitmap_region es bytes lo in
  p = 0 \/ lo <= p /\ p mod FRAME_SIZE = 0 /\
    exists e, e ∈ es /\ me_type e = 1 /\ me_base e <= p /\ p + bytes <= me_base e + me_len e.
Proof.
  intros H0 Hlo Hb Hes. induction Hes as [|e es (E1 & E2 & E3) Hes IH]; simpl; [by left|].
  assert (IH' : find_bitmap_region es bytes lo = 0 \/ lo <= find_bitmap_region es bytes lo /\
    find_bitmap_region es bytes lo mod FRAME_SIZE = 0 /\ exists e0, e0 ∈ e :: es /\ me_type e0 = 1 /\
    me_base e0 <= find_bitmap_region es bytes lo /\ find_bitmap_region es bytes lo + bytes <= me_base e0 + me_len e0).
  { destruct IH as [IH|(I1 & I2 & e' & Hin & I3)]; [by left|right].
    split_and!; [done..|]. exists e'. split; [by right|done]. }
  destruct (Z.eqb_spec (me_type e) 1) as [Ht|Ht]; cbn [negb]; [|done].
  rewrite (u64_small (me_base e + me_len e)) by (unfold FRAME_SIZE in *; lia).
  destruct (_ && _) eqn:E; [right|done]. apply andb_true_iff in E as [E4%Z.ltb_lt E5%Z.leb_le].
  destruct (align_up_frame (Z.max (me_base e) lo)) as [Hr Ha]; [lia..|].
  split_and!; [lia|done|]. exists e. split_and!; [by left|done|lia|lia].
Qed.

(** The page directories the direct map gains: one per gigabyte, each in a
    frame of its own that was free. *)
Definition pd_good (s : pmm) (pd : hhdm_pd) : Prop :=
  pd_entries pd = pd_entries_for (pd_gib pd) /\ pdpt_entry pd = Z.lor (pd_phys pd) 3 /\
  pd_phys pd mod FRAME_SIZE = 0 /\ 0 < pd_phys pd < BOOT_HHDM_LIMIT /\
  bitmap_test s (pd_phys pd / FRAME_SIZE) = false.

Lemma hhdm_extend_loop_pds gibs s s' pds :
  wf s -> hhdm_extend_loop gibs s = inr (s', pds) ->
  map pd_gib pds = gibs /\ Forall (pd_good s) pds /\ NoDup (map pd_phys pds).
Proof.
  revert s s' pds. induction gibs as [|gib gibs IH]; intros s s' pds W H; simpl in H.
  { simplify_eq. split_and!; constructor. }
  pose proof (pmm_alloc_frame_below_spec s BOOT_HHDM_LIMIT W) as Ha.
  destruct (pmm_alloc_frame_below s BOOT_HHDM_LIMIT) as [pd s1] eqn:Ea. simpl in Ha.
  destruct Ha as [(f & Hf & _ & -> & T)|[? _]]; [|by simplify_eq].
  destruct (Z.eqb_spec (f * FRAME_SIZE) 0); [done|].
  destruct (hhdm_extend_loop gibs s1) as [|[s2 pds']] eqn:El; simplify_eq.
  destruct (IH _ _ _ (took_wf _ _ _ T) El) as (<- & Hg & Hd).
  pose proof (low_bound_nonneg BOOT_HHDM_LIMIT). pose proof (took_range _ _ _ T).
  assert (Hback : forall q, 0 <= q -> bitmap_test s1 q = false -> f <> q /\ bitmap_test s q = false).
  { intros q Hq. rewrite (took_map _ _ _ T) by done. intros [?%Z.eqb_neq ?]%orb_false_iff. done. }
  split_and!; [done| |].
  - constructor.
    + split_and!; cbn [pd_entries pd_gib pdpt_entry pd_phys]; try done.
      * by apply Z.mod_mul.
      * unfold FRAME_SIZE in *. lia.
      * unfold high_bound, FRAME_SIZE in *. change BOOT_HHDM_LIMIT with (2 ^ 20 * 4096) in *.
        rewrite Z.div_mul in Hf by done. lia.
      * rewrite Z.div_mul by done. apply T.
    + revert Hg. apply Forall_impl. intros x (X1 & X2 & X3 & X4 & X5). split_and!; try done; try lia.
      apply Hback; [apply Z.div_pos; [lia|done]|done].
  - simpl. constructor; [|done]. intros (x & Hx & Hin)%list_elem_of_fmap.
    rewrite List.Forall_forall in Hg. destruct (Hg x (proj1 (list_elem_of_In _ _) Hin)) as (_ & _ & _ & _ & X5).
    rewrite <-Hx, Z.div_mul in X5 by done. by destruct (Hback f) as [? _]; [lia|done|].
Qed.

Lemma pd_entries_for_lookup p : 0 <= p <= 2 ^ 52 ->
  pd_entries_for (p / GIB) !! Z.to_nat ((p mod GIB) / PAGE_2M) = Some (p - p mod PAGE_2M + PAGE_FLAGS).
Proof.
  intros Hp. unfold pd_entries_for.
  assert (Hi : 0 <= (p mod GIB) / PAGE_2M < 512) by (unfold GIB, PAGE_2M; Z.to_euclidean_division_equations; lia).
  assert (Hs : p / GIB * GIB + (p mod GIB) / PAGE_2M * PAGE_2M = p - p mod PAGE_2M).
  { unfold GIB, PAGE_2M. Z.to_euclidean_division_equations. lia. }
  rewrite list_lookup_fmap, lookup_seqZ_lt by lia. cbn [fmap option_fmap option_map]. rewrite Z.add_0_l, Z2Nat.id by lia.
  rewrite (u64_small (p / GIB * GIB)) by (unfold GIB; Z.to_euclidean_division_equations; lia).
  rewrite (u64_small (_ * PAGE_2M)), Hs by (unfold PAGE_2M in *; lia).
  rewrite u64_small by (unfold PAGE_2M; Z.to_euclidean_division_equations; lia).
  f_equal. apply (lor_add _ _ 21); [done| |done]. unfold PAGE_2M. Z.to_euclidean_division_equations. lia.
Qed.

(** The boot information block is in range: no region wraps, and usable memory
    ends below the 52-bit limit of physical addresses. *)
Record boot_ok (tags : list mb2_tag) (es : list mb2_mmap_entry) (mb2_addr mb2_size kstart kend : Z) : Prop := BootOk {
  bo_mmap : mb2_find_mmap tags = Some es;
  bo_es : Forall (fun e => 0 <= me_base e /\ 0 <= me_len e /\ me_base e + me_len e <= 2 ^ 52) es;
  bo_mods b e : TagModule b e ∈ tags -> byte_range b (e - b);
  bo_mb2 : byte_range mb2_addr mb2_size;
  bo_kernel : byte_range kstart (kend - kstart);
}.

Lemma pmm_init_inv tags es mb2_addr mb2_size kstart kend s pds :
  mb2_find_mmap tags = Some es -> pmm_init tags mb2_addr mb2_size kstart kend = inr (s, pds) ->
  let bp := init_bitmap_phys tags es mb2_addr mb2_size kend in
  bp <> 0 /\ bp + init_bitmap_bytes es <= BOOT_HHDM_LIMIT /\ exists s0, hhdm_extend s0 (fst (mmap_extent es)) = inr (s, pds).
Proof.
  intros He. unfold pmm_init, init_bitmap_phys, init_bitmap_bytes. rewrite He.
  destruct (mmap_extent es) as [highest bytes]. cbn [fst]. repeat (case_match; [done|]). intros Hh.
  zbool. split_and!; [done|lia|]. eexists. exact Hh.
Qed.

Lemma max_module_end_spec tags a : a <= max_module_end tags a /\ (forall b e, TagModule b e ∈ tags -> e <= max_module_end tags a) /\
  (forall c, a <= c -> (forall b e, TagModule b e ∈ tags -> e <= c) -> max_module_end tags a <= c).
Proof.
  unfold max_module_end. revert a. induction tags as [|t tags IH]; intros a; simpl.
  { split_and!; [lia|intros b e H; by apply not_elem_of_nil in H|done]. }
  destruct t as [es|b e|ty]; [destruct (IH a) as (H1 & H2 & H3)|destruct (IH (Z.max a e)) as (H1 & H2 & H3)|destruct (IH a) as (H1 & H2 & H3)].
  1,3: split_and!; [done|intros b e [?|?]%elem_of_cons; [done|by eapply H2]|intros c Hc Hm; apply H3; [done|intros; eapply Hm; by right]].
  split_and!; [lia|intros b' e' [[= -> ->]|?]%elem_of_cons; [lia|by eapply H2]|].
  intros c Hc Hm. apply H3; [|intros; eapply Hm; by right]. assert (e <= c) by (eapply Hm; by left). lia.
Qed.

Lemma mmap_extent_le es hi : 0 <= hi -> 
  Forall (fun e => 0 <= me_base e /\ 0 <= me_len e /\ me_base e + me_len e <= hi) es -> fst (mmap_extent es) <= hi.
Proof.
  intros H0 Hes. unfold mmap_extent.
  assert (forall p, fst p <= hi -> fst (foldl (fun '(highest, bytes) e =>
    if negb (me_type e =? 1) then (highest, bytes)
    else let top := me_base e ⊕ me_len e in
         (if top >? highest then top else highest, bytes ⊕ me_len e)) p es) <= hi) as H; [|by apply H].
  induction Hes as [|e es (E1 & E2 & E3) Hes IH]; intros [h b] Hp; simpl; [done|]. apply IH.
  case_match; [done|]. simpl. case_match; [|done].
  transitivity (me_base e + me_len e); [apply Z.mod_le; lia|done].
Qed.

(** The bitmap has one bit per frame of the 512 GiB the direct map can reach. *)
Lemma pmm_init_frames tags es mb2_addr mb2_size kstart kend s pds :
  boot_ok tags es mb2_addr mb2_size kstart kend ->
  pmm_init tags mb2_addr mb2_size kstart kend = inr (s, pds) -> fst (mmap_extent es) / FRAME_SIZE <= 2 ^ 27.
Proof.
  intros B Hi. destruct (pmm_init_inv _ _ _ _ _ _ _ _ (bo_mmap _ _ _ _ _ _ B) Hi) as (_ & _ & s0 & Hx).
  unfold hhdm_extend in Hx. destruct (Z.gtb_spec ((fst (mmap_extent es) ⊕ GIB ⊖ 1) / GIB) 512) as [|Hle]; [done|].
  pose proof (mmap_extent_range es). pose proof (mmap_extent_le es (2 ^ 52) ltac:(done) (bo_es _ _ _ _ _ _ B)).
  unfold GIB, FRAME_SIZE in *. rewrite (u64_small (_ + 2 ^ 30)), u64_small in Hle by lia.
  Z.to_euclidean_division_equations. lia.
Qed.

Lemma pmm_init_placement tags es mb2_addr mb2_size kstart kend s pds :
  boot_ok tags es mb2_addr mb2_size kstart kend ->
  pmm_init tags mb2_addr mb2_size kstart kend = inr (s, pds) ->
  let bphys := init_bitmap_phys tags es mb2_addr mb2_size kend in
  let bbytes := init_bitmap_bytes es in
  0 <= bbytes /\ bphys mod FRAME_SIZE = 0 /\ bphys + bbytes <= BOOT_HHDM_LIMIT /\ kend <= bphys /\
  mb2_addr + mb2_size <= bphys /\ (forall b e, TagModule b e ∈ tags -> e <= bphys) /\
  exists e, e ∈ es /\ me_type e = 1 /\ me_base e <= bphys /\ bphys + bbytes <= me_base e + me_len e.
Proof.
  intros [He Hes Hmods (B1 & B2 & B3) (K1 & K2 & K3)] Hi. cbv zeta.
  destruct (pmm_init_inv _ _ _ _ _ _ _ _ He Hi) as (Hnz & Hlim & _).
  assert (Hbb : 0 <= init_bitmap_bytes es) by (apply Z.div_pos; [apply u64_range|lia]).
  unfold init_bitmap_phys in *. unfold FRAME_SIZE in B3, K3.
  rewrite (u64_small (mb2_addr + mb2_size)) in * by lia.
  set (lo := Z.max (Z.max kend (mb2_addr + mb2_size)) 0x100000) in *.
  destruct (max_module_end_spec tags lo) as (M1 & M2 & M3). set (lo' := max_module_end tags lo) in *.
  destruct (find_bitmap_region_spec es (init_bitmap_bytes es) lo') as [?|(P1 & P2 & P3)]; try done; [lia| | |].
  - apply (Z.le_lt_trans _ (2 ^ 64 - 4097 + 4096)); [|lia].
    apply Z.add_le_mono_r, M3; [lia|]. intros b e (? & ? & ?)%Hmods. unfold FRAME_SIZE in *. lia.
  - revert Hes. apply Forall_impl. intros e (? & ? & ?). unfold byte_range, FRAME_SIZE. lia.
  - split_and!; try done; [lia|lia|]. intros b e ?%M2. lia.
Qed.

(** When boot succeeds, the allocator is well formed, no reserved
    byte (BIOS areas, kernel image, boot information, modules, the bitmap)
    lies in a free frame, every free frame ends inside a usable region it
    overlaps, and the bitmap sits frame-aligned in a usable region above the
    kernel, the boot information and every module, inside the 4 GiB the
    bootstrap direct map covers. *)
Theorem pmm_init_reserves tags es mb2_addr mb2_size kstart kend s pds :
  boot_ok tags es mb2_addr mb2_size kstart kend ->
  pmm_init tags mb2_addr mb2_size kstart kend = inr (s, pds) ->
  let bphys := init_bitmap_phys tags es mb2_addr mb2_size kend in
  let bbytes := init_bitmap_bytes es in
  wf s /\ bitmap_frames s <= 2 ^ 27 /\
  (forall a, 0 <= a -> a / FRAME_SIZE < bitmap_frames s ->
     reserved_byte tags mb2_addr mb2_size kstart kend bphys bbytes a -> bitmap_test s (a / FRAME_SIZE) = true) /\
  (forall f, f ∈ free_frames s -> exists e, e ∈ es /\ me_type e = 1 /\
     me_base e < (f + 1) * FRAME_SIZE <= me_base e + me_len e) /\
  (bphys mod FRAME_SIZE = 0 /\ bphys + bbytes <= BOOT_HHDM_LIMIT /\ kend <= bphys /\ mb2_addr + mb2_size <= bphys /\
   (forall b e, TagModule b e ∈ tags -> e <= bphys) /\
   exists e, e ∈ es /\ me_type e = 1 /\ me_base e <= bphys /\ bphys + bbytes <= me_base e + me_len e).
Proof.
  intros B Hi bphys bbytes. destruct (pmm_init_placement _ _ _ _ _ _ _ _ B Hi) as (Hbb & Hplace).
  fold bphys bbytes in Hbb, Hplace. pose proof (pmm_init_frames _ _ _ _ _ _ _ _ B Hi) as Hn.
  destruct B as [He Hes Hmods Hmb Hk].
  destruct (pmm_init_spec tags mb2_addr mb2_size kstart kend es s pds) as (W & Hfr & Ht); try done;
    [by revert Hes; apply Forall_impl; intros e []|by intros b e []%Hmods|apply Hmb|apply Hk|].
  fold bphys bbytes in Ht. split; [done|]. split; [by rewrite Hfr|]. split; [|split; [|done]].
  - intros a Ha Hlt Hr. rewrite Ht by (split; [by apply Z.div_pos|done]).
    rewrite (reserved_byte_covers _ _ _ _ _ _ _ a Hmb Hk); try done; [by rewrite orb_true_r|].
    destruct Hplace as (_ & ? & ? & _). unfold byte_range, FRAME_SIZE, BOOT_HHDM_LIMIT, GIB in *.
    destruct Hk. lia.
  - intros f [Hf Hfree]%elem_of_free_frames. rewrite Ht in Hfree by done.
    apply orb_false_iff in Hfree as [[Hfree _]%orb_false_iff _].
    apply negb_false_iff, existsb_exists in Hfree as (e & Hin%list_elem_of_In & Hc).
    exists e. split; [done|]. rewrite List.Forall_forall in Hes.
    destruct (Hes e (proj1 (list_elem_of_In _ _) Hin)) as (E1 & E2 & E3).
    unfold usable_covers in Hc. zbool. rewrite u64_small in * by lia. unfold FRAME_SIZE in *.
    split; [done|]. Z.to_euclidean_division_equations. lia.
Qed.

(** A 5 MiB machine with a kernel, boot information and one module. *)
Definition ex_mmap : list mb2_mmap_entry :=
  [MmapEntry 0 0x9FC00 1; MmapEntry 0xF0000 0x10000 2; MmapEntry 0x100000 0x400000 1].
Definition ex_tags : list mb2_tag := [TagOther 1; TagModule 0x300000 0x340000; TagMmap ex_mmap].
Definition ex_boot : pmm * list hhdm_pd :=
  match pmm_init ex_tags 0x210000 0x1000 0x100000 0x200000 with inr p => p | inl _ => (ex_pmm, []) end.

Lemma ex_boot_ok : boot_ok ex_tags ex_mmap 0x210000 0x1000 0x100000 0x200000.
Proof.
  split; [done| | |by vm_compute|by vm_compute].
  - repeat constructor; simpl; lia.
  - intros b e H. apply list_elem_of_In in H. simpl in H. destruct_or? H; simplify_eq; try done.
Qed.

Lemma ex_boot_eq : pmm_init ex_tags 0x210000 0x1000 0x100000 0x200000 = inr (fst ex_boot, snd ex_boot).
Proof. vm_compute. reflexivity. Qed.

Lemma pmm_init_reserves_witness :
  bitmap_frames (fst ex_boot) = 1280 /\ used_frames (fst ex_boot) = 435 /\
  wf (fst ex_boot) /\ bitmap_test (fst ex_boot) (0x33FFFF / FRAME_SIZE) = true.
Proof.
  split; [vm_compute; reflexivity|]. split; [vm_compute; reflexivity|].
  destruct (pmm_init_reserves _ _ _ _ _ _ _ _ ex_boot_ok ex_boot_eq) as (W & _ & Hr & _).
  split; [exact W|]. apply Hr; [lia|vm_compute; reflexivity|].
  do 5 right. exists 0x300000, 0x340000. split; [right; left|lia].
Defined.

(** The extended direct map reaches all of memory: after [hhdm_extend],
    every physical address between 4 GiB and the end of usable memory has a page
    directory for its gigabyte whose entry for its 2 MiB page maps exactly
    that page; the directories are distinct free frames below 4 GiB, linked
    present and writable. *)
Theorem hhdm_extend_covers s highest s' pds p :
  wf s -> 0 <= highest <= 2 ^ 52 -> hhdm_extend s highest = inr (s', pds) ->
  BOOT_HHDM_LIMIT <= p < highest ->
  NoDup (map pd_phys pds) /\
  exists pd, pd ∈ pds /\ pd_gib pd = p / GIB /\
    pd_entries pd !! Z.to_nat ((p mod GIB) / PAGE_2M) = Some (p - p mod PAGE_2M + PAGE_FLAGS) /\
    pdpt_entry pd = pd_phys pd + 3 /\ pd_phys pd mod FRAME_SIZE = 0 /\ 0 < pd_phys pd < BOOT_HHDM_LIMIT /\
    bitmap_test s (pd_phys pd / FRAME_SIZE) = false.
Proof.
  intros W Hh Hx Hp. unfold hhdm_extend in Hx. destruct (Z.gtb_spec ((highest ⊕ GIB ⊖ 1) / GIB) 512) as [|Hle]; [done|].
  destruct (hhdm_extend_loop_pds _ _ _ _ W Hx) as (Hg & Hgood & Hd). split; [done|].
  assert (Hin : p / GIB ∈ map pd_gib pds).
  { rewrite Hg. apply elem_of_seqZ. unfold BOOT_HHDM_LIMIT, GIB in *.
    rewrite (u64_small (highest + _)), u64_small by lia. Z.to_euclidean_division_equations. lia. }
  apply list_elem_of_fmap in Hin as (pd & Hpd & Hin). exists pd. rewrite List.Forall_forall in Hgood.
  destruct (Hgood pd (proj1 (list_elem_of_In _ _) Hin)) as (G1 & G2 & G3 & G4 & G5).
  split_and!; try done; try lia.
  - rewrite G1, <-Hpd. apply pd_entries_for_lookup. unfold BOOT_HHDM_LIMIT, GIB in *. lia.
  - rewrite G2. by apply (lor_add _ _ 12).
Qed.

Lemma hhdm_extend_covers_witness :
  exists s' pds, hhdm_extend ex_pmm (5 * GIB) = inr (s', pds) /\
  exists pd, pd ∈ pds /\ pd_gib pd = 4 /\ pd_entries pd !! 256%nat = Some 0x120000083.
Proof.
  destruct (hhdm_extend ex_pmm (5 * GIB)) as [h|[s' pds]] eqn:E; [vm_compute in E; discriminate|].
  exists s', pds. split; [reflexivity|].
  destruct (hhdm_extend_covers ex_pmm (5 * GIB) s' pds 0x120000000 ex_pmm_wf) as (_ & pd & H1 & H2 & H3 & _);
    [unfold GIB; lia|exact E|unfold BOOT_HHDM_LIMIT, GIB; lia|].
  exists pd. split; [exact H1|]. split; [exact H2|exact H3].
Defined.

(** [mark_region_free] does not round the start of a region inward: a frame
    whose first bytes lie before the region is freed with it. *)
Lemma mark_region_free_partial_start :
  bitmap_test ex_pmm 256 = true /\ bitmap_test (mark_region_free ex_pmm 0x100800 0x1800) 256 = false /\
  256 * FRAME_SIZE < 0x100800.
Proof. by vm_compute. Qed.
