(* ===== verification/Frames.v ===== *)
(** The interface between the physical-frame allocator and its clients.

    [FrameOps] lists the operations [kernel/memory/pmm.h] offers to the paging
    code; [FrameLaws] states what a client may rely on: a frame handed out was
    free, is page aligned and non-zero, and taking or releasing one frame
    leaves every other frame alone.  The page-table, user-address-space and
    heap theorems are proved against these laws; the instance at the end of the
    file shows that the bitmap allocator of [Pmm] satisfies them. *)
From S2P Require Import Prelude.
From S2P Require Import Pmm.

Class FrameOps (A : Type) := {
  fa_alloc : A -> Z * A;          (* pmm_alloc_frame: 0 on exhaustion *)
  fa_free : A -> Z -> A;          (* pmm_free_frame *)
  fa_taken : A -> Z -> bool;      (* is the frame at this physical base taken? *)
  fa_wf : A -> Prop;
  fa_avail : A -> nat;            (* frames left; bounds every retry loop *)
}.

(** A page-aligned physical address an entry can hold. *)
Definition frame_addr (p : Z) : Prop := 0 < p < 2 ^ 47 /\ p mod 4096 = 0.

Class FrameLaws (A : Type) `{!FrameOps A} := {
  fa_alloc_ok a : fa_wf a -> fst (fa_alloc a) <> 0 ->
    let p := fst (fa_alloc a) in let a' := snd (fa_alloc a) in
    frame_addr p /\ fa_taken a p = false /\ fa_wf a' /\ (fa_avail a' < fa_avail a)%nat /\
    (forall q, frame_addr q -> fa_taken a' q = (p =? q) || fa_taken a q);
  fa_alloc_fail a : fa_wf a -> fst (fa_alloc a) = 0 -> snd (fa_alloc a) = a;
  fa_free_ok a p : fa_wf a -> frame_addr p -> fa_taken a p = true ->
    let a' := fa_free a p in
    fa_wf a' /\ (forall q, frame_addr q -> fa_taken a' q = negb (p =? q) && fa_taken a q);
  fa_free_avail a p : fa_wf a -> frame_addr p -> fa_taken a p = true -> (fa_avail (fa_free a p) <= S (fa_avail a))%nat;
}.

(** ** The bitmap allocator is a frame allocator

    The direct map covers at most 512 GiB, so [pmm_init] never reports more
    than 2^27 frames (see [pmm_init_frames]). *)
#[export] Instance pmm_ops : FrameOps pmm := {|
  fa_alloc := pmm_alloc_frame;
  fa_free := pmm_free_frame;
  fa_taken s p := (p / FRAME_SIZE <? bitmap_frames s) && bitmap_test s (p / FRAME_SIZE);
  fa_wf s := wf s /\ bitmap_frames s <= 2 ^ 27;
  fa_avail s := Z.to_nat (bitmap_frames s - used_frames s);
|}.

Lemma frame_div_eq f q : frame_addr q -> (f =? q / FRAME_SIZE) = (f * FRAME_SIZE =? q).
Proof.
  intros [_ Hm]. unfold FRAME_SIZE. pose proof (Z.div_mod q 4096). zcases.
Qed.

Lemma frame_div_nonneg q : frame_addr q -> 0 <= q / FRAME_SIZE.
Proof. intros [Hq _]. apply Z.div_pos; [lia|done]. Qed.

#[export] Instance pmm_laws : FrameLaws pmm.
Proof.
  split.
  - intros s [W Hb] Hnz. simpl in *.
    destruct (pmm_alloc_frame_spec s W) as [(f & Hge & -> & [W' Hf' Hr Hfree Hu Ht])|[He _]];
      [|by rewrite He in Hnz].
    assert (GENERAL_FRAME = 256) as HG by done. rewrite HG in Hge.
    assert (frame_addr (f * FRAME_SIZE)) as Hfa.
    { split; unfold FRAME_SIZE; [lia|]. by rewrite Z.mod_mul. }
    split_and!; try done; try lia.
    + unfold FRAME_SIZE. rewrite Z.div_mul by done. by rewrite Hfree, andb_false_r.
    + rewrite Hf', Hu. pose proof (countZ_bound (bitmap_test (snd (pmm_alloc_frame s))) 0 (bitmap_frames s)).
      pose proof (wf_used _ W') as Hu'. rewrite Hf' in Hu'. pose proof (wf_frames s W). lia.
    + intros q Hq. rewrite Hf', Ht, <-frame_div_eq by (done || by apply frame_div_nonneg).
      destruct (Z.eqb_spec f (q / FRAME_SIZE)) as [<-|]; [|done].
      rewrite (proj2 (Z.ltb_lt _ _)) by lia. done.
  - intros s [W Hb] Hz. simpl in *.
    destruct (pmm_alloc_frame_spec s W) as [(f & Hge & Hf & _)|[He _]]; [|by rewrite He].
    assert (GENERAL_FRAME = 256) as HG by done. unfold FRAME_SIZE in Hf. lia.
  - intros s p [W Hb] Hp Ht. simpl in *. zbool.
    destruct (pmm_free_frame_spec s p W) as (W' & Hf' & Htest & _); [destruct Hp; lia|].
    split; [split; [done|lia]|]. intros q Hq. rewrite Hf', Htest by by apply frame_div_nonneg.
    rewrite frame_div_eq by done. rewrite (proj2 (Z.ltb_lt (p / FRAME_SIZE) _)) by done.
    rewrite andb_true_r.
    assert (p / FRAME_SIZE * FRAME_SIZE = p) as ->.
    { destruct Hp as [_ Hm]. unfold FRAME_SIZE. pose proof (Z.div_mod p 4096). lia. }
    by destruct (p =? q), (q / FRAME_SIZE <? bitmap_frames s).
  - intros s p [W Hb] Hp Ht. simpl in *. zbool.
    destruct (pmm_free_frame_spec s p W) as (W' & Hf' & _ & Hu); [destruct Hp; lia|]. rewrite Hf', Hu.
    rewrite (proj2 (Z.ltb_lt _ _)), H0 by done. simpl. lia.
Qed.
