(* ===== verification/Vmm.v ===== *)
(** Long-mode four-level paging, [kernel/memory/vmm.c].

    Physical memory is a finite map from the physical address of an 8-byte word
    to its contents; a [u64 *] into the higher-half direct map is represented by
    the physical address it points to, which is what [phys_to_virt] and
    [virt_to_phys] of [hhdm.h] convert between.  The frame allocator is any
    type with [FrameOps].  Functions return the new state together with the C
    result; [None] is the null pointer of [walk_only]. *)
From S2P Require Import Prelude.
From S2P Require Import Frames.

(** ** Entry layout ([vmm.h:36-52]) *)
Definition VMM_PRESENT : Z := 2 ^ 0.
Definition VMM_WRITE : Z := 2 ^ 1.
Definition VMM_USER : Z := 2 ^ 2.
Definition VMM_PS : Z := 2 ^ 7.
Definition VMM_SHARED : Z := 2 ^ 9.
Definition VMM_NX : Z := 2 ^ 63.
Definition VMM_ADDR_MASK : Z := 0x000FFFFFFFFFF000.
Definition HHDM_BASE : Z := 0xffff800000000000.

Definition phys_to_virt (phys : Z) : Z := HHDM_BASE ⊕ phys.
Definition virt_to_phys (virt : Z) : Z := virt ⊖ HHDM_BASE.

(** ** Memory *)
Abbreviation memory := (gmap Z Z).
Definition mread (m : memory) (a : Z) : Z := default 0 (m !! a).
Definition mwrite (m : memory) (a v : Z) : memory := <[a := v]> m.
(** [memset(phys_to_virt(p), 0, 4096)], word by word. *)
Definition zero_words (m : memory) (p : Z) (l : list Z) : memory :=
  foldl (fun m i => mwrite m (p + 8 * i) 0) m l.
Definition zero_page (m : memory) (p : Z) : memory := zero_words m p (seqZ 0 512).
#[global] Arguments zero_page : simpl never.
#[global] Arguments mread : simpl never.
#[global] Arguments mwrite : simpl never.

Section vmm.
Context {A : Type} `{!FrameOps A}.

(** Physical memory and the allocator, the two things paging code mutates. *)
Record vst := Vst { vmem : memory; vpm : A }.

Definition set_mem (s : vst) (m : memory) : vst := Vst m (vpm s).

(** [va_split] *)
Definition va_split (virt : Z) : Z * Z * Z * Z :=
  (Z.land (Z.shiftr virt 39) 0x1FF, Z.land (Z.shiftr virt 30) 0x1FF,
   Z.land (Z.shiftr virt 21) 0x1FF, Z.land (Z.shiftr virt 12) 0x1FF).

(** One level of [walk_or_create]: follow the entry at [table[i]], or install a
    fresh zeroed table there.  The PML4 level has no huge-page test, the other
    two do ([check_ps]). *)
Definition walk_level (check_ps : bool) (s : vst) (table i flags : Z) : vst * option Z :=
  let e := mread (vmem s) (table + 8 * i) in
  if e &? VMM_PRESENT then
    if check_ps && (e &? VMM_PS) then (s, None)
    else
      let s := if (flags &? VMM_USER) && negb (e &? VMM_USER)
               then set_mem s (mwrite (vmem s) (table + 8 * i) (Z.lor e VMM_USER)) else s in
      (s, Some (Z.land (mread (vmem s) (table + 8 * i)) VMM_ADDR_MASK))
  else
    let '(phys, pm) := fa_alloc (vpm s) in
    if phys =? 0 then (Vst (vmem s) pm, None)
    else
      let m := zero_page (vmem s) phys in
      let m := mwrite m (table + 8 * i)
                 (Z.lor (Z.lor (Z.lor phys VMM_PRESENT) VMM_WRITE) (Z.land flags VMM_USER)) in
      (Vst m pm, Some phys).

(** [walk_or_create]: the address of the leaf entry, or [None] for [-1]. *)
Definition walk_or_create (s : vst) (pml4 virt flags : Z) : vst * option Z :=
  let '(i0, i1, i2, i3) := va_split virt in
  match walk_level false s pml4 i0 flags with
  | (s, None) => (s, None)
  | (s, Some pdpt) =>
      match walk_level true s pdpt i1 flags with
      | (s, None) => (s, None)
      | (s, Some pd) =>
          match walk_level true s pd i2 flags with
          | (s, None) => (s, None)
          | (s, Some pt) => (s, Some (pt + 8 * i3))
          end
      end
  end.

Definition walk_only (m : memory) (pml4 virt : Z) : option Z :=
  let '(i0, i1, i2, i3) := va_split virt in
  let e := mread m (pml4 + 8 * i0) in
  if negb (e &? VMM_PRESENT) then None else
  let pdpt := Z.land e VMM_ADDR_MASK in
  let e := mread m (pdpt + 8 * i1) in
  if negb (e &? VMM_PRESENT) || (e &? VMM_PS) then None else
  let pd := Z.land e VMM_ADDR_MASK in
  let e := mread m (pd + 8 * i2) in
  if negb (e &? VMM_PRESENT) || (e &? VMM_PS) then None else
  let pt := Z.land e VMM_ADDR_MASK in
  Some (pt + 8 * i3).

Definition vmm_map_in (s : vst) (pml4 virt phys flags : Z) : vst * Z :=
  if phys &? 0xFFFF800000000000 then (s, -1) else
  match walk_or_create s pml4 virt flags with
  | (s, None) => (s, -1)
  | (s, Some pte) =>
      (set_mem s (mwrite (vmem s) pte (Z.lor (Z.land phys VMM_ADDR_MASK) (Z.lor flags VMM_PRESENT))), 0)
  end.

Definition vmm_protect_in (s : vst) (pml4 virt flags : Z) : vst * Z :=
  match walk_only (vmem s) pml4 virt with
  | None => (s, -1)
  | Some pte =>
      let e := mread (vmem s) pte in
      if negb (e &? VMM_PRESENT) then (s, -1) else
      let keep := Z.lor (Z.land e VMM_ADDR_MASK) (Z.land e VMM_SHARED) in
      (set_mem s (mwrite (vmem s) pte (Z.lor keep (Z.lor flags VMM_PRESENT))), 0)
  end.

Definition vmm_entry_in (m : memory) (pml4 virt : Z) : Z :=
  match walk_only m pml4 virt with
  | None => 0
  | Some pte => let e := mread m pte in if negb (e &? VMM_PRESENT) then 0 else e
  end.

Definition vmm_unmap_in (s : vst) (pml4 virt : Z) : vst * Z :=
  match walk_only (vmem s) pml4 virt with
  | None => (s, -1)
  | Some pte => (set_mem s (mwrite (vmem s) pte 0), 0)
  end.

Definition vmm_translate_in (m : memory) (pml4 virt : Z) : Z :=
  let '(i0, i1, i2, i3) := va_split virt in
  let e := mread m (pml4 + 8 * i0) in
  if negb (e &? VMM_PRESENT) then 0 else
  let pdpt := Z.land e VMM_ADDR_MASK in
  let e := mread m (pdpt + 8 * i1) in
  if negb (e &? VMM_PRESENT) then 0 else
  if e &? VMM_PS then Z.lor (Z.land e VMM_ADDR_MASK) (Z.land virt 0x3FFFFFFF) else
  let pd := Z.land e VMM_ADDR_MASK in
  let e := mread m (pd + 8 * i2) in
  if negb (e &? VMM_PRESENT) then 0 else
  if e &? VMM_PS then Z.lor (Z.land e VMM_ADDR_MASK) (Z.land virt 0x1FFFFF) else
  let pt := Z.land e VMM_ADDR_MASK in
  let e := mread m (pt + 8 * i3) in
  if negb (e &? VMM_PRESENT) then 0 else
  Z.lor (Z.land e VMM_ADDR_MASK) (Z.land virt 0xFFF).

(** [current_pml4] and the wrappers on the active table, the value of CR3 being
    an argument. *)
Definition current_pml4 (cr3 : Z) : Z := Z.land cr3 VMM_ADDR_MASK.
Definition vmm_map (s : vst) (cr3 virt phys flags : Z) : vst * Z :=
  vmm_map_in s (current_pml4 cr3) virt phys flags.
Definition vmm_unmap (s : vst) (cr3 virt : Z) : vst * Z := vmm_unmap_in s (current_pml4 cr3) virt.
Definition vmm_translate (s : vst) (cr3 virt : Z) : Z :=
  vmm_translate_in (vmem s) (current_pml4 cr3) virt.

(** [reserve_kernel_pml4_entries]: the loop over the kernel half, stopping at
    the first failed allocation. *)
Fixpoint reserve_loop (is_ : list Z) (s : vst) (pml4 : Z) : vst :=
  match is_ with
  | [] => s
  | i :: rest =>
      if mread (vmem s) (pml4 + 8 * i) &? VMM_PRESENT then reserve_loop rest s pml4
      else
        let '(phys, pm) := fa_alloc (vpm s) in
        if phys =? 0 then Vst (vmem s) pm
        else
          let m := zero_page (vmem s) phys in
          let m := mwrite m (pml4 + 8 * i) (Z.lor (Z.lor phys VMM_PRESENT) VMM_WRITE) in
          reserve_loop rest (Vst m pm) pml4
  end.
Definition reserve_kernel_pml4_entries (s : vst) (kernel_pml4 : Z) : vst :=
  reserve_loop (seqZ 256 256) s kernel_pml4.
Definition vmm_init (s : vst) (cr3 : Z) : vst * Z :=
  let kernel_pml4 := current_pml4 cr3 in
  (reserve_kernel_pml4_entries s kernel_pml4, kernel_pml4).

End vmm.
Arguments vst A : clear implicits.

(** ** Entry bits *)
Lemma test_present e : (e &? VMM_PRESENT) = Z.testbit e 0.
Proof. by apply land_bit_test. Qed.
Lemma test_user e : (e &? VMM_USER) = Z.testbit e 2.
Proof. by apply land_bit_test. Qed.
Lemma test_ps e : (e &? VMM_PS) = Z.testbit e 7.
Proof. by apply land_bit_test. Qed.
#[export] Hint Rewrite test_present test_user test_ps : gaia_rw.

Lemma mask_bits k : Z.testbit VMM_ADDR_MASK k = (12 <=? k) && (k <? 52).
Proof.
  change VMM_ADDR_MASK with (Z.shiftl (Z.ones 40) 12).
  destruct (Z.lt_ge_cases k 0) as [|Hk]; [rewrite Z.testbit_neg_r by done; zcases|].
  rewrite Z.shiftl_spec by done. destruct (Z.leb_spec 12 k), (Z.ltb_spec k 52); simpl.
  - apply Z.ones_spec_low. lia.
  - apply Z.ones_spec_high. lia.
  - by rewrite Z.testbit_neg_r by lia.
  - lia.
Qed.

Lemma mask_aligned e : Z.land e VMM_ADDR_MASK mod 4096 = 0.
Proof.
  change 4096 with (2 ^ 12). rewrite <-Z.land_ones by lia. apply Z.bits_inj'. intros k Hk.
  rewrite !Z.land_spec, mask_bits, Z.bits_0. destruct (Z.leb_spec 12 k); simpl.
  - rewrite Z.ones_spec_high by lia. by rewrite andb_false_r.
  - by rewrite andb_false_r.
Qed.

(** The mask keeps a frame address. *)
Lemma mask_frame p : frame_addr p -> Z.land p VMM_ADDR_MASK = p.
Proof.
  intros [Hp Hm]. apply Z.bits_inj'. intros k Hk. rewrite Z.land_spec, mask_bits.
  destruct (Z.leb_spec 12 k), (Z.ltb_spec k 52); simpl; rewrite ?andb_true_r, ?andb_false_r; try done.
  - rewrite (testbit_high p 47) by lia. done.
  - change 4096 with (2 ^ 12) in Hm. rewrite <-(Z.mod_pow2_bits_low p 12 k), Hm by lia. by rewrite Z.bits_0.
  - lia.
Qed.

(** The new entry for a table at [p] is present, not huge, and points to [p]. *)
Lemma table_entry_bits p flags :
  frame_addr p ->
  let e := Z.lor (Z.lor (Z.lor p VMM_PRESENT) VMM_WRITE) (Z.land flags VMM_USER) in
  Z.testbit e 0 = true /\ Z.testbit e 7 = false /\ Z.land e VMM_ADDR_MASK = p.
Proof.
  intros Hp e. pose proof Hp as [Hr Hm]. unfold e, VMM_PRESENT, VMM_WRITE, VMM_USER. split_and!.
  - by rewrite !Z.lor_spec, !testbit_pow2, orb_true_r.
  - rewrite !Z.lor_spec, Z.land_spec, !testbit_pow2 by done.
    change 4096 with (2 ^ 12) in Hm. rewrite <-(Z.mod_pow2_bits_low p 12 7), Hm, Z.bits_0 by lia.
    by rewrite andb_false_r.
  - rewrite !Z.land_lor_distr_l, (mask_frame p) by done.
    rewrite <-Z.land_assoc. by rewrite !Z.lor_0_r, Z.land_0_r, Z.lor_0_r.
Qed.

Lemma user_entry_bits e :
  let e' := Z.lor e VMM_USER in
  Z.testbit e' 0 = Z.testbit e 0 /\ Z.testbit e' 7 = Z.testbit e 7 /\
  Z.land e' VMM_ADDR_MASK = Z.land e VMM_ADDR_MASK.
Proof.
  unfold VMM_USER. split_and!; [..|by rewrite Z.land_lor_distr_l, Z.lor_0_r];
    rewrite Z.lor_spec, testbit_pow2 by done; by rewrite orb_false_r.
Qed.

(** ** Memory *)
Lemma mread_write_eq m a v : mread (mwrite m a v) a = v.
Proof. unfold mread, mwrite. by rewrite lookup_insert_eq. Qed.
Lemma mread_write_ne m a b v : a <> b -> mread (mwrite m a v) b = mread m b.
Proof. intros. unfold mread, mwrite. by rewrite lookup_insert_ne. Qed.

(** Words of two page-aligned tables coincide only when table and index do. *)
Lemma slot_inj t t' i j :
  t mod 4096 = 0 -> t' mod 4096 = 0 -> 0 <= i < 512 -> 0 <= j < 512 ->
  t + 8 * i = t' + 8 * j -> t = t' /\ i = j.
Proof. intros. Z.to_euclidean_division_equations. lia. Qed.

Lemma zero_words_keep m p l a : (forall i, i ∈ l -> a <> p + 8 * i) -> mread (zero_words m p l) a = mread m a.
Proof.
  revert m. induction l as [|i l IH]; intros m H; [done|]. unfold zero_words. simpl. fold (zero_words (mwrite m (p + 8 * i) 0) p l).
  rewrite IH by (intros j Hj; apply H; by right).
  apply mread_write_ne. intros Ha. apply (H i); [by left|done].
Qed.

Lemma zero_words_zero m p l i : i ∈ l \/ mread m (p + 8 * i) = 0 -> mread (zero_words m p l) (p + 8 * i) = 0.
Proof.
  revert m. induction l as [|j l IH]; intros m H.
  - destruct H as [H|H]; [by apply not_elem_of_nil in H|done].
  - unfold zero_words. simpl. fold (zero_words (mwrite m (p + 8 * j) 0) p l). apply IH.
    destruct (Z.eq_dec i j) as [->|Hne]; [right; apply mread_write_eq|].
    destruct H as [[->|H]%elem_of_cons|H]; [done|by left|right].
    rewrite mread_write_ne by lia. done.
Qed.

Lemma zero_page_in m p i : 0 <= i < 512 -> mread (zero_page m p) (p + 8 * i) = 0.
Proof. intros Hi. unfold zero_page. apply zero_words_zero. left. apply elem_of_seqZ. lia. Qed.

Lemma zero_page_out m p a : (forall i, 0 <= i < 512 -> a <> p + 8 * i) -> mread (zero_page m p) a = mread m a.
Proof. intros H. unfold zero_page. apply zero_words_keep. intros i Hi%elem_of_seqZ. apply H. lia. Qed.

(** ** The tree view

    What the hardware walk finds for a path of table indices: nothing, a huge
    page at level 1 or 2, or a present leaf entry. *)
Inductive view := VNone | VHuge (level : nat) (e : Z) | VLeaf (e : Z).

Definition leaf_view (e : Z) : view := if Z.testbit e 0 then VLeaf e else VNone.

(** [huge level e]: the walk stops at this entry (no test at the PML4). *)
Definition huge (level : nat) (e : Z) : bool := (0 <? level)%nat && Z.testbit e 7.

Fixpoint rview (m : memory) (level : nat) (t : Z) (path : list Z) : view :=
  match path with
  | [] => VNone
  | [i] => leaf_view (mread m (t + 8 * i))
  | i :: rest =>
      let e := mread m (t + 8 * i) in
      if negb (Z.testbit e 0) then VNone
      else if huge level e then VHuge level e
      else rview m (S level) (Z.land e VMM_ADDR_MASK) rest
  end.

(** The address of the leaf word, when the walk gets that far. *)
Fixpoint rptr (m : memory) (level : nat) (t : Z) (path : list Z) : option Z :=
  match path with
  | [] => None
  | [i] => Some (t + 8 * i)
  | i :: rest =>
      let e := mread m (t + 8 * i) in
      if negb (Z.testbit e 0) || huge level e then None
      else rptr m (S level) (Z.land e VMM_ADDR_MASK) rest
  end.

Definition vpath (virt : Z) : list Z :=
  let '(i0, i1, i2, i3) := va_split virt in [i0; i1; i2; i3].

#[global] Arguments vpath : simpl never.

Lemma walk_only_rptr m pml4 virt : walk_only m pml4 virt = rptr m 0 pml4 (vpath virt).
Proof.
  unfold walk_only, vpath. destruct (va_split virt) as [[[i0 i1] i2] i3]. cbn [rptr huge].
  rewrite !test_present, !test_ps. simpl. by rewrite orb_false_r.
Qed.

Definition view_entry (v : view) : Z := match v with VLeaf e => e | _ => 0 end.
Definition view_translate (v : view) (virt : Z) : Z :=
  match v with
  | VNone => 0
  | VHuge 1 e => Z.lor (Z.land e VMM_ADDR_MASK) (Z.land virt 0x3FFFFFFF)
  | VHuge _ e => Z.lor (Z.land e VMM_ADDR_MASK) (Z.land virt 0x1FFFFF)
  | VLeaf e => Z.lor (Z.land e VMM_ADDR_MASK) (Z.land virt 0xFFF)
  end.

Lemma rview_rptr m level t path :
  match rptr m level t path with
  | Some a => rview m level t path = leaf_view (mread m a)
  | None => match rview m level t path with VLeaf _ => False | _ => True end
  end.
Proof.
  revert level t. induction path as [|i [|j rest] IH]; intros level t; [done|done|].
  cbn [rptr rview]. destruct (negb _); simpl; [done|]. destruct (huge level _); simpl; [done|]. apply IH.
Qed.

Lemma vmm_entry_view m pml4 virt : vmm_entry_in m pml4 virt = view_entry (rview m 0 pml4 (vpath virt)).
Proof.
  unfold vmm_entry_in. rewrite walk_only_rptr. pose proof (rview_rptr m 0 pml4 (vpath virt)) as H.
  destruct (rptr m 0 pml4 (vpath virt)).
  - rewrite H, test_present. unfold leaf_view. by destruct (Z.testbit _ 0).
  - by destruct (rview m 0 pml4 (vpath virt)).
Qed.

Lemma vmm_translate_view m pml4 virt :
  vmm_translate_in m pml4 virt = view_translate (rview m 0 pml4 (vpath virt)) virt.
Proof.
  unfold vmm_translate_in, vpath. destruct (va_split virt) as [[[i0 i1] i2] i3]. cbn [rview].
  rewrite !test_present, !test_ps. unfold huge, leaf_view. simpl.
  repeat (case_match; simplify_eq; try done).
Qed.

Lemma vpath_range virt : Forall (fun i => 0 <= i < 512) (vpath virt).
Proof.
  assert (forall x, 0 <= Z.land x 511 < 512) as H.
  { intros x. change 511 with (Z.ones 9). rewrite Z.land_ones by done. by apply Z.mod_pos_bound. }
  repeat constructor; apply H.
Qed.

Lemma vpath_length virt : length (vpath virt) = 4%nat.
Proof. done. Qed.

(** Entry [t[i]] of a table at depth [level] leads to table [t']. *)
Definition leads (m : memory) (level : nat) (t i t' : Z) : Prop :=
  let e := mread m (t + 8 * i) in
  Z.testbit e 0 = true /\ huge level e = false /\ Z.land e VMM_ADDR_MASK = t'.

(** ** Well-formed page-table trees

    [own] assigns to every table frame of the tree the path of indices leading
    to it from the root.  As a function of the frame it says that no frame is
    used as a table at two places, which is what makes an update of one mapping
    invisible to all others.  Every table is linked from its parent. *)
Record tree (m : memory) (root : Z) (own : gmap Z (list Z)) : Prop := Tree {
  tree_root : own !! root = Some [];
  tree_frame t p : own !! t = Some p -> frame_addr t /\ (length p <= 3)%nat;
  tree_child t p i : own !! t = Some p -> (length p < 3)%nat -> 0 <= i < 512 ->
    let e := mread m (t + 8 * i) in
    Z.testbit e 0 = true -> huge (length p) e = false ->
    own !! Z.land e VMM_ADDR_MASK = Some (p ++ [i]);
  tree_linked t p : own !! t = Some p -> t = root /\ p = [] \/
    exists t' q i, p = q ++ [i] /\ 0 <= i < 512 /\ own !! t' = Some q /\ leads m (length q) t' i t;
}.

Section tree_lemmas.
Context (m : memory) (root : Z) (own : gmap Z (list Z)).
Hypothesis T : tree m root own.

Lemma tree_slot t p t' p' i j :
  own !! t = Some p -> own !! t' = Some p' -> 0 <= i < 512 -> 0 <= j < 512 ->
  t + 8 * i = t' + 8 * j -> t = t' /\ p = p' /\ i = j.
Proof using T.
  intros Ht Ht' Hi Hj He. destruct (tree_frame _ _ _ T t p Ht) as [[_ Ha] _].
  destruct (tree_frame _ _ _ T t' p' Ht') as [[_ Ha'] _].
  destruct (slot_inj t t' i j) as [-> ->]; try done. by simplify_eq.
Qed.

(** A leaf pointer lies in the table that owns the path's prefix. *)
Lemma rptr_own path level t p a :
  own !! t = Some p -> length p = level -> (level + length path = 4)%nat ->
  Forall (fun i => 0 <= i < 512) path -> rptr m level t path = Some a ->
  exists t3 p3 i, own !! t3 = Some p3 /\ p ++ path = p3 ++ [i] /\ 0 <= i < 512 /\ a = t3 + 8 * i.
Proof using T.
  revert level t p. induction path as [|i [|j rest] IH]; intros level t p Ht Hl Hlen Hi Hp; [done| |].
  - simpl in Hp. simplify_eq. inversion Hi; subst. by exists t, p, i.
  - cbn [rptr] in Hp. inversion Hi as [|? ? Hi0 Hi']; subst.
    destruct (negb _) eqn:E1; [done|]. destruct (huge _ _) eqn:E2; [done|]. simpl in Hp.
    apply negb_false_iff in E1.
    pose proof (tree_child _ _ _ T t p i Ht ltac:(simpl in Hlen; lia) Hi0 E1 E2) as Hc.
    destruct (IH (S (length p)) _ (p ++ [i]) Hc) as (t3 & p3 & k & H1 & H2 & H3 & H4); try done.
    + rewrite length_app. simpl. lia.
    + simpl in *. lia.
    + exists t3, p3, k. by rewrite <-H2, <-app_assoc.
Qed.

(** Writing a leaf word [t3[i3]] changes the view of exactly one path. *)
Lemma rptr_write_leaf t3 p3 i3 v path level t p :
  own !! t3 = Some p3 -> length p3 = 3%nat -> 0 <= i3 < 512 ->
  own !! t = Some p -> length p = level -> (level + length path = 4)%nat ->
  Forall (fun i => 0 <= i < 512) path ->
  rptr (mwrite m (t3 + 8 * i3) v) level t path = rptr m level t path /\
  (p ++ path <> p3 ++ [i3] -> rview (mwrite m (t3 + 8 * i3) v) level t path = rview m level t path).
Proof using T.
  intros H3 Hp3 Hi3. revert level t p.
  induction path as [|i [|j rest] IH]; intros level t p Ht Hl Hlen Hi; [done| |];
    inversion Hi as [|? ? Hi0 Hi']; subst.
  - split; [done|]. intros Hne. simpl. rewrite mread_write_ne; [done|].
    intros He. destruct (tree_slot t3 p3 t p i3 i) as (_ & -> & ->); done.
  - cbn [rptr rview]. rewrite mread_write_ne.
    2:{ intros He. destruct (tree_slot t3 p3 t p i3 i) as (_ & -> & _); [done..|]. simpl in Hlen. lia. }
    destruct (negb _) eqn:E1; [done|]. destruct (huge _ _) eqn:E2; [done|]. simpl.
    apply negb_false_iff in E1.
    pose proof (tree_child _ _ _ T t p i Ht ltac:(simpl in Hlen; lia) Hi0 E1 E2) as Hc.
    destruct (IH (S (length p)) _ (p ++ [i]) Hc) as [H1 H2]; try done.
    + rewrite length_app. simpl. lia.
    + simpl in *. lia.
    + split; [done|]. rewrite <-app_assoc in H2. done.
Qed.

Lemma linked_mono m' :
  (forall t p i t', own !! t = Some p -> (length p < 3)%nat -> 0 <= i < 512 ->
     leads m (length p) t i t' -> leads m' (length p) t i t') ->
  forall t p, own !! t = Some p -> t = root /\ p = [] \/
    exists t' q i, p = q ++ [i] /\ 0 <= i < 512 /\ own !! t' = Some q /\ leads m' (length q) t' i t.
Proof using T.
  intros Hm t p Ht. destruct (tree_linked _ _ _ T t p Ht) as [?|(t' & q & i & -> & Hi & Hq & Hl)]; [by left|right].
  exists t', q, i. split_and!; try done; try lia. apply Hm; try done.
  destruct (tree_frame _ _ _ T t _ Ht) as [_ Hlen]. rewrite length_app in Hlen. simpl in Hlen. lia.
Qed.

Lemma tree_write_leaf t3 p3 i3 v :
  own !! t3 = Some p3 -> length p3 = 3%nat -> 0 <= i3 < 512 -> tree (mwrite m (t3 + 8 * i3) v) root own.
Proof using T.
  intros H3 Hp3 Hi3.
  assert (Hread : forall t p i, own !! t = Some p -> (length p < 3)%nat -> 0 <= i < 512 ->
    mread (mwrite m (t3 + 8 * i3) v) (t + 8 * i) = mread m (t + 8 * i)).
  { intros t p i Ht Hp Hi. apply mread_write_ne.
    intros He. destruct (tree_slot t3 p3 t p i3 i) as (_ & -> & _); [done..|]. lia. }
  split; [apply T|apply T| |].
  - intros t p i Ht Hp Hi. rewrite (Hread t p i) by done. by apply T.
  - apply linked_mono. intros t p i t' Ht Hp Hi. unfold leads. by rewrite (Hread t p i).
Qed.
End tree_lemmas.

#[local] Opaque zero_page mread mwrite.

(** Two trees show the same mappings. *)
Definition same_view (m m' : memory) (root : Z) : Prop :=
  forall path, length path = 4%nat -> Forall (fun i => 0 <= i < 512) path ->
    rview m' 0 root path = rview m 0 root path.

(** A tree only depends on the words of its own tables. *)
Lemma tree_ext m m' root own :
  tree m root own ->
  (forall t p i, own !! t = Some p -> 0 <= i < 512 -> mread m' (t + 8 * i) = mread m (t + 8 * i)) ->
  tree m' root own /\ same_view m m' root.
Proof.
  intros T Hread. split.
  - split; [apply T|apply T| |].
    + intros t p i Ht Hp Hi. rewrite (Hread t p i) by done. by apply T.
    + apply (linked_mono m); [done|]. intros t p i t' Ht Hp Hi. unfold leads. by rewrite (Hread t p i).
  - assert (H : forall path level t q, own !! t = Some q -> length q = level -> (level + length path = 4)%nat ->
      Forall (fun i => 0 <= i < 512) path -> rview m' level t path = rview m level t path).
    { induction path as [|i [|j rest] IH]; intros level t q Ht Hl Hlen Hr; [done| |];
        apply Forall_cons_1 in Hr as [Hi Hr]; subst.
      - cbn [rview]. by rewrite (Hread t q i).
      - cbn [rview]. rewrite (Hread t q i) by done.
        destruct (Z.testbit (mread m (t + 8 * i)) 0) eqn:E1; [|done]. cbn [negb].
        destruct (huge (length q) (mread m (t + 8 * i))) eqn:E2; [done|].
        apply (IH _ _ (q ++ [i])); [|by rewrite length_app; simpl; lia|simpl in Hlen |- *; lia|done].
        apply T; try done. simpl in Hlen. lia. }
    intros path Hl Hr. apply (H path 0%nat root []); try done. apply T.
Qed.

Section tree_steps.
Context (m : memory) (root : Z) (own : gmap Z (list Z)).
Hypothesis T : tree m root own.
Context (t0 : Z) (p0 : list Z) (i0 : Z).
Hypothesis Ht0 : own !! t0 = Some p0.
Hypothesis Hp0 : (length p0 < 3)%nat.
Hypothesis Hi0 : 0 <= i0 < 512.

Lemma table_write_read v t p i :
  own !! t = Some p -> 0 <= i < 512 ->
  mread (mwrite m (t0 + 8 * i0) v) (t + 8 * i) = if decide (t = t0 /\ i = i0) then v else mread m (t + 8 * i).
Proof using T Ht0 Hi0.
  intros Ht Hi. case_decide as Hd; [destruct Hd as [-> ->]; apply mread_write_eq|].
  apply mread_write_ne. intros He. apply Hd.
  destruct (tree_slot _ _ _ T t0 p0 t p i0 i) as (-> & _ & ->); done.
Qed.

(** *** Rewriting a table entry without changing where it leads *)
Section retag.
Context (e' : Z).
Hypothesis Hpres : Z.testbit (mread m (t0 + 8 * i0)) 0 = true.
Hypothesis Hbit : Z.testbit e' 0 = true.
Hypothesis Hhuge : huge (length p0) (mread m (t0 + 8 * i0)) = false.
Hypothesis Hhuge' : huge (length p0) e' = false.
Hypothesis Haddr : Z.land e' VMM_ADDR_MASK = Z.land (mread m (t0 + 8 * i0)) VMM_ADDR_MASK.

Lemma retag_tree : tree (mwrite m (t0 + 8 * i0) e') root own.
Proof using All.
  split; [apply T|apply T| |].
  - intros t p i Ht Hp Hi. rewrite (table_write_read e' t p i) by done. case_decide as Hd; [|by apply T].
    destruct Hd as [-> ->]. assert (p = p0) as -> by congruence. cbv zeta. intros _ _. rewrite Haddr. by apply T.
  - apply (linked_mono m); [done|]. intros t p i t' Ht Hp Hi (L0 & L7 & LM). unfold leads.
    rewrite (table_write_read e' t p i) by done. case_decide as Hd; [|done].
    destruct Hd as [-> ->]. assert (p = p0) as -> by congruence. by rewrite Haddr.
Qed.

Lemma retag_view path level t p :
  own !! t = Some p -> length p = level -> (level + length path = 4)%nat ->
  Forall (fun i => 0 <= i < 512) path ->
  rview (mwrite m (t0 + 8 * i0) e') level t path = rview m level t path.
Proof using All.
  revert level t p. induction path as [|i [|j rest] IH]; intros level t p Ht Hl Hlen Hi; [done| |];
    inversion Hi as [|? ? Hi1 Hi']; subst.
  - simpl. rewrite (table_write_read e' t p i) by done. case_decide as Hd; [|done].
    destruct Hd as [-> ->]. assert (p = p0) as -> by congruence. simpl in Hlen. lia.
  - cbn [rview]. rewrite (table_write_read e' t p i) by done.
    assert (Hchild : forall e, Z.testbit (mread m (t + 8 * i)) 0 = true -> huge (length p) (mread m (t + 8 * i)) = false ->
      Z.land e VMM_ADDR_MASK = Z.land (mread m (t + 8 * i)) VMM_ADDR_MASK ->
      rview (mwrite m (t0 + 8 * i0) e') (S (length p)) (Z.land e VMM_ADDR_MASK) (j :: rest)
      = rview m (S (length p)) (Z.land (mread m (t + 8 * i)) VMM_ADDR_MASK) (j :: rest)).
    { intros e E1 E2 ->. apply (IH _ _ (p ++ [i])); [|by rewrite length_app; simpl; lia|simpl in Hlen |- *; lia|done].
      apply T; try done. simpl in Hlen. lia. }
    case_decide as Hd.
    + destruct Hd as [-> ->]. assert (p = p0) as -> by congruence. rewrite Hbit, Hpres, Hhuge, Hhuge'. simpl. by apply Hchild.
    + destruct (Z.testbit (mread m (t + 8 * i)) 0) eqn:E1; cbn [negb]; [|reflexivity].
      destruct (huge (length p) (mread m (t + 8 * i))) eqn:E2; [reflexivity|]. by apply Hchild.
Qed.

Lemma retag_same : same_view m (mwrite m (t0 + 8 * i0) e') root.
Proof using All. intros path Hl Hr. apply (retag_view path 0 root []); try done. apply T. Qed.
End retag.

  (** *** Hanging a fresh zeroed table under an absent entry *)
Section link.
Context (f e' : Z).
Hypothesis Habs : Z.testbit (mread m (t0 + 8 * i0)) 0 = false.
Hypothesis Hf : frame_addr f.
Hypothesis Hfree : own !! f = None.
Hypothesis Hbit : Z.testbit e' 0 = true.
Hypothesis Hhuge : huge (length p0) e' = false.
Hypothesis Haddr : Z.land e' VMM_ADDR_MASK = f.

Definition link_mem : memory := mwrite (zero_page m f) (t0 + 8 * i0) e'.
Definition link_own : gmap Z (list Z) := <[f := p0 ++ [i0]]> own.

Lemma f_not_table t p : own !! t = Some p -> t <> f.
Proof using Hfree. by intros Ht ->; rewrite Hfree in Ht. Qed.

Lemma link_read t p i :
  own !! t = Some p -> 0 <= i < 512 ->
  mread link_mem (t + 8 * i) = if decide (t = t0 /\ i = i0) then e' else mread m (t + 8 * i).
Proof using All.
  intros Ht Hi. unfold link_mem. case_decide as Hd; [destruct Hd as [-> ->]; apply mread_write_eq|].
  rewrite mread_write_ne.
  - apply zero_page_out. intros k Hk He. destruct (tree_frame _ _ _ T t p Ht) as [[_ Ha] _].
    destruct Hf as [_ Hfa]. destruct (slot_inj t f i k) as [-> _]; try done. by apply (f_not_table f p).
  - intros He. apply Hd. destruct (tree_slot _ _ _ T t0 p0 t p i0 i) as (-> & _ & ->); done.
Qed.

Lemma link_read_new i : 0 <= i < 512 -> mread link_mem (f + 8 * i) = 0.
Proof using All.
  intros Hi. unfold link_mem. rewrite mread_write_ne; [by apply zero_page_in|].
  intros He. destruct (tree_frame _ _ _ T t0 p0 Ht0) as [[_ Ha] _]. destruct Hf as [_ Hfa].
  destruct (slot_inj t0 f i0 i) as [-> _]; try done. by apply (f_not_table f p0).
Qed.

Lemma link_tree : tree link_mem root link_own.
Proof using All.
  unfold link_own. split.
  - rewrite lookup_insert_ne; [apply T|]. symmetry. apply (f_not_table root []). apply T.
  - intros t p [[<- <-]|[Hne Ht]]%lookup_insert_Some; [|by apply T].
    split; [done|]. rewrite length_app. simpl. lia.
  - intros t p i [[<- <-]|[Hne Ht]]%lookup_insert_Some Hp Hi.
    + rewrite link_read_new by done. cbv zeta. by rewrite Z.bits_0.
    + rewrite (link_read t p i) by done. case_decide as Hd.
      * destruct Hd as [-> ->]. assert (p = p0) as -> by congruence. cbv zeta. intros _ _. rewrite Haddr. apply lookup_insert_eq.
      * intros e E1 E2. pose proof (tree_child _ _ _ T t p i Ht Hp Hi E1 E2) as Hc.
        rewrite lookup_insert_ne; [done|]. symmetry. by apply (f_not_table _ (p ++ [i])).
  - intros t p [[<- <-]|[Hne Ht]]%lookup_insert_Some.
    + right. exists t0, p0, i0. split_and!; try done; try lia.
      * rewrite lookup_insert_ne; [done|]. symmetry. by apply (f_not_table _ p0).
      * unfold leads. rewrite (link_read t0 p0 i0), decide_True by done. done.
    + destruct (tree_linked _ _ _ T t p Ht) as [?|(t' & q & i & -> & Hi & Hq & (L0 & L7 & LM))]; [by left|right].
      exists t', q, i. split_and!; try done; try lia.
      * rewrite lookup_insert_ne; [done|]. symmetry. by apply (f_not_table _ q).
      * unfold leads. rewrite (link_read t' q i) by done. case_decide as Hd; [|done].
        destruct Hd as [-> ->]. congruence.
Qed.

Lemma link_view path level t p :
  own !! t = Some p -> length p = level -> (level + length path = 4)%nat ->
  Forall (fun i => 0 <= i < 512) path ->
  rview link_mem level t path = rview m level t path.
Proof using All.
  revert level t p. induction path as [|i [|j rest] IH]; intros level t p Ht Hl Hlen Hi; [done| |];
    inversion Hi as [|? ? Hi1 Hi']; subst.
  - simpl. rewrite (link_read t p i) by done. case_decide as Hd; [|done].
    destruct Hd as [-> ->]. assert (p = p0) as -> by congruence. simpl in Hlen. lia.
  - cbn [rview]. rewrite (link_read t p i) by done. case_decide as Hd.
    + destruct Hd as [-> ->]. assert (p = p0) as -> by congruence. rewrite Hbit, Habs, Hhuge, Haddr. cbn [negb].
      inversion Hi' as [|? ? Hj ?]; subst. destruct rest; cbn [rview]; rewrite link_read_new by done;
        unfold leaf_view; by rewrite Z.bits_0.
    + destruct (Z.testbit (mread m (t + 8 * i)) 0) eqn:E1; cbn [negb]; [|reflexivity].
      destruct (huge (length p) (mread m (t + 8 * i))) eqn:E2; [reflexivity|].
      apply (IH _ _ (p ++ [i])); [|by rewrite length_app; simpl; lia|simpl in Hlen |- *; lia|done].
      apply T; try done. simpl in Hlen. lia.
Qed.

Lemma link_same : same_view m link_mem root.
Proof using All. intros path Hl Hr. apply (link_view path 0 root []); try done. apply T. Qed.
End link.
End tree_steps.

(** ** The walk that grows the tree *)
Section walk.
Context {A : Type} `{!FrameOps A, !FrameLaws A}.
Implicit Types (s : vst A) (own : gmap Z (list Z)).

(** The tree is well formed and every table frame is held from the allocator. *)
Record vtree s (root : Z) own : Prop := Vtree {
  vt_tree : tree (vmem s) root own;
  vt_pm : fa_wf (vpm s);
  vt_taken t p : own !! t = Some p -> fa_taken (vpm s) t = true;
}.

(** Links between tables stay. *)
Definition links_kept own (m m' : memory) : Prop :=
  forall t p i t', own !! t = Some p -> (length p < 3)%nat -> 0 <= i < 512 ->
    leads m (length p) t i t' -> leads m' (length p) t i t'.

(** Pages other than the tables on the way to [path] are untouched. *)
Definition outside (path : list Z) own (m m' : memory) : Prop :=
  forall q i, frame_addr q -> 0 <= i < 512 -> (forall p, own !! q = Some p -> ~ p `prefix_of` path) ->
    mread m' (q + 8 * i) = mread m (q + 8 * i).

(** What growing the tree may change: tables are added from free frames, and
    nothing that was mapped or linked before changes. *)
Record grows (path : list Z) (root : Z) s own s' own' : Prop := Grows {
  gr_tree : vtree s' root own';
  gr_own : own ⊆ own';
  gr_view : same_view (vmem s) (vmem s') root;
  gr_taken q : frame_addr q -> fa_taken (vpm s) q = true -> fa_taken (vpm s') q = true;
  gr_fresh t p : own' !! t = Some p -> own !! t = None -> fa_taken (vpm s) t = false;
  gr_held q : frame_addr q -> fa_taken (vpm s') q = true -> fa_taken (vpm s) q = true \/ is_Some (own' !! q);
  gr_links : links_kept own (vmem s) (vmem s');
  gr_avail : (fa_avail (vpm s') <= fa_avail (vpm s))%nat;
  gr_outside : outside path own' (vmem s) (vmem s');
}.

Lemma grows_refl path root s own : vtree s root own -> grows path root s own s own.
Proof. intros V. split; try done; [intros; congruence|auto|by intros ?]. Qed.

Lemma grows_trans path root s1 o1 s2 o2 s3 o3 :
  grows path root s1 o1 s2 o2 -> grows path root s2 o2 s3 o3 -> grows path root s1 o1 s3 o3.
Proof.
  intros G H. split.
  - apply H.
  - etrans; [apply G|apply H].
  - intros path' Hl Hr. rewrite (gr_view _ _ _ _ _ _ H) by done. by apply G.
  - intros q Hq Hs. eapply gr_taken; [done..|]. by eapply gr_taken.
  - intros t p Ht Hn. destruct (o2 !! t) eqn:E2; [by eapply (gr_fresh _ _ _ _ _ _ G)|].
    pose proof (gr_fresh _ _ _ _ _ _ H t p Ht E2) as Hf.
    destruct (fa_taken (vpm s1) t) eqn:Et; [|done].
    rewrite (gr_taken _ _ _ _ _ _ G t) in Hf; [done| |done].
    by eapply (tree_frame _ _ _ (vt_tree _ _ _ (gr_tree _ _ _ _ _ _ H))).
  - intros q Hq Hs. destruct (gr_held _ _ _ _ _ _ H q Hq Hs) as [Hs2|Hs2]; [|by right].
    destruct (gr_held _ _ _ _ _ _ G q Hq Hs2) as [|[p Hp]]; [by left|right].
    exists p. eapply lookup_weaken; [done|apply H].
  - intros t p i t' Ht Hp Hi Hl. eapply (gr_links _ _ _ _ _ _ H); try done.
    + eapply lookup_weaken; [done|apply G].
    + by eapply (gr_links _ _ _ _ _ _ G).
  - pose proof (gr_avail _ _ _ _ _ _ G). pose proof (gr_avail _ _ _ _ _ _ H). lia.
  - intros q i Hq Hi Hn. rewrite (gr_outside _ _ _ _ _ _ H) by done. apply G; [done..|].
    intros p Hp. apply Hn. eapply lookup_weaken; [done|apply H].
Qed.

(** Adding [VMM_USER] to a table entry. *)
Lemma retag_grows path s root own t p i :
  vtree s root own -> own !! t = Some p -> p ++ [i] `prefix_of` path -> (length p < 3)%nat -> 0 <= i < 512 ->
  let e := mread (vmem s) (t + 8 * i) in
  Z.testbit e 0 = true -> huge (length p) e = false ->
  grows path root s own (set_mem s (mwrite (vmem s) (t + 8 * i) (Z.lor e VMM_USER))) own.
Proof.
  intros V Ht Hpre Hp Hi e E0 E7. pose proof (vt_tree _ _ _ V) as T.
  destruct (user_entry_bits e) as (B0 & B7 & BM).
  assert (Hh : huge (length p) (Z.lor e VMM_USER) = false) by (unfold huge; by rewrite B7).
  rewrite E0 in B0. split; simpl; try done; [| |intros; congruence|by auto| |].
  - split; simpl; [|apply V|apply V]. by eapply retag_tree.
  - by eapply retag_same.
  - intros t1 p1 i1 t' Ht1 Hp1 Hi1 (L0 & L7 & LM). unfold leads.
    rewrite (table_write_read _ root own T t p i Ht Hi _ t1 p1 i1) by done.
    case_decide as Hd; [|done]. destruct Hd as [-> ->]. simplify_eq. fold e. by rewrite BM.
  - intros q j Hq Hj Hn. apply mread_write_ne. intros He.
    destruct (tree_frame _ _ _ T t p Ht) as [[_ Ha] _]. destruct (slot_inj t q i j) as [-> _]; try done; [apply Hq|].
    apply (Hn p Ht). etrans; [by apply prefix_app_r|done].
Qed.

(** Hanging a table allocated from the frame allocator under an absent entry. *)
Lemma link_grows path s root own t p i flags :
  vtree s root own -> own !! t = Some p -> p ++ [i] `prefix_of` path -> (length p < 3)%nat -> 0 <= i < 512 ->
  Z.testbit (mread (vmem s) (t + 8 * i)) 0 = false -> fst (fa_alloc (vpm s)) <> 0 ->
  let f := fst (fa_alloc (vpm s)) in
  let e' := Z.lor (Z.lor (Z.lor f VMM_PRESENT) VMM_WRITE) (Z.land flags VMM_USER) in
  let s' := Vst (link_mem (vmem s) t i f e') (snd (fa_alloc (vpm s))) in
  grows path root s own s' (link_own own p i f) /\ leads (vmem s') (length p) t i f.
Proof.
  intros V Ht Hpre Hp Hi E0 Hnz f e' s'. pose proof (vt_tree _ _ _ V) as T.
  destruct (fa_alloc_ok _ (vt_pm _ _ _ V) Hnz) as (Hf & Hfree & W' & Hav & Htk). fold f in Hf, Hfree, Htk.
  destruct (table_entry_bits f flags Hf) as (B0 & B7 & BM). fold e' in B0, B7, BM.
  assert (Hh : huge (length p) e' = false) by (unfold huge; by rewrite B7, andb_false_r).
  assert (Hno : own !! f = None).
  { destruct (own !! f) eqn:E; [|done]. by rewrite (vt_taken _ _ _ V f _ E) in Hfree. }
  assert (Hread : forall t1 p1 i1, own !! t1 = Some p1 -> 0 <= i1 < 512 ->
    mread (vmem s') (t1 + 8 * i1) = if decide (t1 = t /\ i1 = i) then e' else mread (vmem s) (t1 + 8 * i1)).
  { intros. by eapply link_read. }
  split.
  - split; simpl.
    + split; simpl; [by eapply link_tree|done|]. unfold link_own.
      intros t1 p1 [[<- <-]|[Hne Ht1]]%lookup_insert_Some.
      * by rewrite Htk, Z.eqb_refl.
      * rewrite Htk by by eapply T. by rewrite (vt_taken _ _ _ V _ _ Ht1), orb_true_r.
    + by apply insert_subseteq.
    + by eapply link_same.
    + intros q Hq Hs. by rewrite Htk, Hs, orb_true_r.
    + unfold link_own. intros t1 p1 [[<- <-]|[Hne Ht1]]%lookup_insert_Some; [done|congruence].
    + intros q Hq Hs. rewrite Htk in Hs by done. destruct (Z.eqb_spec f q) as [<-|]; [right|by left].
      unfold link_own. by rewrite lookup_insert_eq.
    + intros t1 p1 i1 t' Ht1 Hp1 Hi1 (L0 & L7 & LM). unfold leads.
      change (link_mem _ _ _ _ _) with (vmem s'). rewrite (Hread t1 p1 i1) by done.
      case_decide as Hd; [|done]. destruct Hd as [-> ->]. congruence.
    + lia.
    + intros q j Hq Hj Hn. unfold link_mem. destruct (tree_frame _ _ _ T t p Ht) as [[_ Ha] _].
      rewrite mread_write_ne, zero_page_out; [done| |].
      * intros k Hk He. destruct (slot_inj q f j k) as [-> _]; try done; [apply Hq|apply Hf|].
        apply (Hn (p ++ [i])); [apply lookup_insert_eq|done].
      * intros He. destruct (slot_inj t q i j) as [-> _]; try done; [apply Hq|].
        apply (Hn p); [by apply (lookup_weaken _ _ _ _ Ht), insert_subseteq|]. etrans; [by apply prefix_app_r|done].
  - unfold leads. rewrite (Hread t p i) by done. by rewrite decide_True.
Qed.

(** Outcome of one level of the walk. *)
Lemma walk_level_spec path s root own t p i flags s' r :
  vtree s root own -> own !! t = Some p -> p ++ [i] `prefix_of` path -> (length p < 3)%nat -> 0 <= i < 512 ->
  walk_level (0 <? length p)%nat s t i flags = (s', r) ->
  exists own', grows path root s own s' own' /\
  match r with
  | Some t' => own' !! t' = Some (p ++ [i]) /\ leads (vmem s') (length p) t i t'
  | None => (Z.testbit (mread (vmem s') (t + 8 * i)) 0 = true /\
             huge (length p) (mread (vmem s') (t + 8 * i)) = true)
            \/ fst (fa_alloc (vpm s')) = 0
  end.
Proof.
  intros V Ht Hpre Hp Hi. unfold walk_level. rewrite test_present, test_ps, !test_user.
  set (e := mread (vmem s) (t + 8 * i)). fold (huge (length p) e).
  pose proof (vt_tree _ _ _ V) as T.
  destruct (Z.testbit e 0) eqn:E0.
  - destruct (huge (length p) e) eqn:E7.
    { intros [= <- <-]. exists own. split; [by apply grows_refl|]. by left. }
    destruct (_ && _); intros [= <- <-]; exists own.
    + destruct (user_entry_bits e) as (B0 & B7 & BM). split; [by eapply retag_grows|].
      unfold leads. simpl. rewrite mread_write_eq, BM. split; [by apply T|].
      unfold huge. rewrite B0, B7. done.
    + split; [by apply grows_refl|]. split; [by apply T|done].
  - destruct (fa_alloc (vpm s)) as [f pm] eqn:Ea.
    destruct (Z.eqb_spec f 0) as [->|Hnz]; intros [= <- <-].
    + exists own. pose proof (fa_alloc_fail _ (vt_pm _ _ _ V)) as Hfail. rewrite Ea in Hfail. simpl in Hfail.
      rewrite (Hfail eq_refl). destruct s as [m0 pm0]; simpl in *.
      split; [by apply grows_refl|right; by rewrite Ea].
    + exists (link_own own p i f).
      destruct (link_grows path s root own t p i flags) as [Hg Hl]; try done; [by rewrite Ea|].
      rewrite Ea in Hg, Hl. split; [done|]. split; [|done]. unfold link_own. by rewrite lookup_insert_eq.
Qed.

Lemma leads_rptr m level t i t' j rest :
  leads m level t i t' -> rptr m level t (i :: j :: rest) = rptr m (S level) t' (j :: rest).
Proof. intros (L0 & L7 & LM). cbn [rptr]. by rewrite L0, L7, LM. Qed.

Lemma leads_view m level t i t' j rest :
  leads m level t i t' -> rview m level t (i :: j :: rest) = rview m (S level) t' (j :: rest).
Proof. intros (L0 & L7 & LM). cbn [rview]. by rewrite L0, L7, LM. Qed.

Lemma stuck_view m level t i j rest :
  Z.testbit (mread m (t + 8 * i)) 0 = true -> huge level (mread m (t + 8 * i)) = true ->
  rview m level t (i :: j :: rest) = VHuge level (mread m (t + 8 * i)).
Proof. intros L0 L7. cbn [rview]. by rewrite L0, L7. Qed.

(** [walk_or_create] either produces the leaf slot of the path, or stops on a
    huge page or on an exhausted allocator. *)
Lemma walk_or_create_spec s root own virt flags s' r :
  vtree s root own -> walk_or_create s root virt flags = (s', r) ->
  exists own', grows (vpath virt) root s own s' own' /\
  match r with
  | Some pte => rptr (vmem s') 0 root (vpath virt) = Some pte
  | None => (exists l e, rview (vmem s') 0 root (vpath virt) = VHuge l e) \/ fst (fa_alloc (vpm s')) = 0
  end.
Proof.
  intros V. unfold walk_or_create. pose proof (vpath_range virt) as Hr. unfold vpath in *.
  destruct (va_split virt) as [[[i0 i1] i2] i3].
  apply Forall_cons_1 in Hr as [R0 Hr]. apply Forall_cons_1 in Hr as [R1 Hr]. apply Forall_cons_1 in Hr as [R2 _].
  destruct (walk_level false s root i0 flags) as [s1 r1] eqn:E1.
  apply (walk_level_spec [i0; i1; i2; i3] s root own root []) in E1 as (o1 & G1 & P1); [|done|apply V|by exists [i1; i2; i3]|simpl; lia|done].
  destruct r1 as [pdpt|].
  2:{ intros [= <- <-]. exists o1. split; [done|]. destruct P1 as [[? ?]|?]; [done|by right]. }
  destruct P1 as [Hpdpt L1].
  destruct (walk_level true s1 pdpt i1 flags) as [s2 r2] eqn:E2.
  apply (walk_level_spec [i0; i1; i2; i3] s1 root o1 pdpt [i0]) in E2 as (o2 & G2 & P2); [|apply G1|done|by exists [i2; i3]|simpl; lia|done].
  pose proof (gr_links _ _ _ _ _ _ G2 _ _ _ _ (tree_root _ _ _ (vt_tree _ _ _ (gr_tree _ _ _ _ _ _ G1)))
    ltac:(simpl; lia) R0 L1) as L1'.
  pose proof (grows_trans _ _ _ _ _ _ _ _ G1 G2) as G12.
  destruct r2 as [pd|].
  2:{ intros [= <- <-]. exists o2. split; [done|]. destruct P2 as [[? ?]|?]; [left|by right].
      rewrite (leads_view _ 0 root i0 pdpt) by done. eexists _, _. by apply stuck_view. }
  destruct P2 as [Hpd L2].
  destruct (walk_level true s2 pd i2 flags) as [s3 r3] eqn:E3.
  apply (walk_level_spec [i0; i1; i2; i3] s2 root o2 pd [i0; i1]) in E3 as (o3 & G3 & P3); [|apply G2|done|by exists [i3]|simpl; lia|done].
  pose proof (gr_links _ _ _ _ _ _ G3 _ _ _ _ (tree_root _ _ _ (vt_tree _ _ _ (gr_tree _ _ _ _ _ _ G2)))
    ltac:(simpl; lia) R0 L1') as L1''.
  pose proof (gr_links _ _ _ _ _ _ G3 pdpt [i0] _ _ (lookup_weaken _ _ _ _ Hpdpt (gr_own _ _ _ _ _ _ G2))
    ltac:(simpl; lia) R1 L2) as L2'.
  pose proof (grows_trans _ _ _ _ _ _ _ _ G12 G3) as G123.
  destruct r3 as [pt|]; intros [= <- <-]; exists o3; (split; [done|]).
  - destruct P3 as [Hpt L3].
    by rewrite (leads_rptr _ 0 root i0 pdpt), (leads_rptr _ 1 pdpt i1 pd), (leads_rptr _ 2 pd i2 pt).
  - destruct P3 as [[? ?]|?]; [left|by right].
    rewrite (leads_view _ 0 root i0 pdpt), (leads_view _ 1 pdpt i1 pd) by done.
    eexists _, _. by apply stuck_view.
Qed.

(** Overwriting the leaf slot of a path. *)
Lemma write_leaf_spec s root own virt pte v :
  vtree s root own -> rptr (vmem s) 0 root (vpath virt) = Some pte ->
  let m' := mwrite (vmem s) pte v in
  vtree (set_mem s m') root own /\ outside (vpath virt) own (vmem s) m' /\ links_kept own (vmem s) m' /\
  (forall virt', rview m' 0 root (vpath virt') =
     if decide (vpath virt' = vpath virt) then leaf_view v else rview (vmem s) 0 root (vpath virt')).
Proof.
  intros V Hp m'. pose proof (vt_tree _ _ _ V) as T.
  destruct (rptr_own _ root own T (vpath virt) 0 root [] pte) as (t3 & p3 & i & H3 & Hpath & Hi & ->);
    try done; [apply T|apply vpath_range|].
  assert (length p3 = 3%nat) as Hlen.
  { apply (f_equal length) in Hpath. rewrite !length_app, vpath_length in Hpath. simpl in Hpath. lia. }
  split_and!.
  - split; [by eapply tree_write_leaf|apply V|apply V].
  - intros q j Hq Hj Hn. apply mread_write_ne. intros He.
    destruct (tree_frame _ _ _ T t3 p3 H3) as [[_ Ha] _].
    destruct (slot_inj t3 q i j) as [-> _]; try done; [apply Hq|].
    apply (Hn p3 H3). exists [i]. by rewrite <-Hpath.
  - intros t p j t' Ht Hp' Hj Hl. unfold leads, m'. rewrite mread_write_ne; [done|]. intros He.
    destruct (tree_slot _ root own T t3 p3 t p i j) as (_ & <- & _); try done. lia.
  - intros virt'.
    destruct (rptr_write_leaf _ root own T t3 p3 i v (vpath virt') 0 root []) as [Hptr Hview];
      try done; [apply T|apply vpath_range|]. fold m' in Hptr, Hview.
    case_decide as Hd; [|apply Hview; simpl in *; congruence].
    pose proof (rview_rptr m' 0 root (vpath virt')) as Hv. rewrite Hptr, Hd, Hp in Hv. rewrite Hd, Hv.
    unfold m'. by rewrite mread_write_eq.
Qed.

(** ** Specifications of the entry points *)
Lemma vmm_map_in_spec s root own virt phys flags s' r :
  vtree s root own -> vmm_map_in s root virt phys flags = (s', r) ->
  exists own',
    let e := Z.lor (Z.land phys VMM_ADDR_MASK) (Z.lor flags VMM_PRESENT) in
    vtree s' root own' /\ own ⊆ own' /\
    (forall q, frame_addr q -> fa_taken (vpm s) q = true -> fa_taken (vpm s') q = true) /\
    (forall q, frame_addr q -> fa_taken (vpm s') q = true -> fa_taken (vpm s) q = true \/ is_Some (own' !! q)) /\
    (forall t p, own' !! t = Some p -> own !! t = None -> fa_taken (vpm s) t = false) /\
    (fa_avail (vpm s') <= fa_avail (vpm s))%nat /\
    outside (vpath virt) own' (vmem s) (vmem s') /\ links_kept own (vmem s) (vmem s') /\
    (r = 0 /\ (forall virt', rview (vmem s') 0 root (vpath virt') =
                if decide (vpath virt' = vpath virt) then VLeaf e else rview (vmem s) 0 root (vpath virt'))
     \/ r = -1 /\ (forall virt', rview (vmem s') 0 root (vpath virt') = rview (vmem s) 0 root (vpath virt'))
        /\ (phys &? 0xFFFF800000000000 = true \/ (exists l e, rview (vmem s) 0 root (vpath virt) = VHuge l e)
            \/ fst (fa_alloc (vpm s')) = 0)).
Proof.
  intros V. unfold vmm_map_in. destruct (phys &? 0xFFFF800000000000) eqn:Ephys.
  { intros [= <- <-]. exists own. split_and!; try done; [auto|by intros ? ? ? ?; congruence|by intros ?|].
    right. split_and!; try done. by left. }
  destruct (walk_or_create s root virt flags) as [s1 r1] eqn:Ew.
  destruct (walk_or_create_spec _ _ _ _ _ _ _ V Ew) as (own' & G & Hr1).
  assert (Hsame : forall virt', rview (vmem s1) 0 root (vpath virt') = rview (vmem s) 0 root (vpath virt'))
    by (intros; apply G; [done|apply vpath_range]).
  destruct r1 as [pte|]; intros [= <- <-]; exists own'.
  - destruct (write_leaf_spec s1 root own' virt pte
      (Z.lor (Z.land phys VMM_ADDR_MASK) (Z.lor flags VMM_PRESENT)) (gr_tree _ _ _ _ _ _ G) Hr1) as (V' & Ho & Hk & Hv).
    split_and!; [done|apply G..| | |].
    { intros q i Hq Hi Hn. cbn [vmem set_mem]. rewrite Ho by done. by apply G. }
    { intros t p i t' Ht Hp Hi Hl. apply Hk; try done; [eapply lookup_weaken; [done|apply G]|by apply G]. }
    left. split; [done|]. intros virt'. cbn [vmem set_mem]. rewrite Hv.
    case_decide; [|apply Hsame]. unfold leaf_view, VMM_PRESENT.
    by rewrite !Z.lor_spec, testbit_pow2, !orb_true_r.
  - split_and!; [apply G..|]. right. split_and!; try done. rewrite <-Hsame. by right.
Qed.

Lemma vmm_unmap_in_spec s root own virt s' r :
  vtree s root own -> vmm_unmap_in s root virt = (s', r) ->
  vtree s' root own /\ vpm s' = vpm s /\ outside (vpath virt) own (vmem s) (vmem s') /\
  links_kept own (vmem s) (vmem s') /\
  (forall virt', rview (vmem s') 0 root (vpath virt') =
     if decide (vpath virt' = vpath virt /\ r = 0) then VNone else rview (vmem s) 0 root (vpath virt')) /\
  (r = 0 \/ r = -1 /\ vmm_entry_in (vmem s) root virt = 0).
Proof.
  intros V. unfold vmm_unmap_in. rewrite walk_only_rptr.
  destruct (rptr (vmem s) 0 root (vpath virt)) as [pte|] eqn:Ep; intros [= <- <-].
  - destruct (write_leaf_spec s root own virt pte 0 V Ep) as (V' & Ho & Hk & Hv).
    split_and!; try done; [|by left]. intros virt'. cbn [vmem set_mem]. rewrite Hv.
    destruct (decide (vpath virt' = vpath virt)); [by rewrite decide_True|]. rewrite decide_False; [done|by intros [? ?]].
  - split_and!; try done; [by intros ?|intros; rewrite decide_False; [done|by intros [? ?]]|right].
    split; [done|]. rewrite vmm_entry_view. pose proof (rview_rptr (vmem s) 0 root (vpath virt)) as H.
    rewrite Ep in H. by destruct (rview _ _ _ _).
Qed.

Lemma vmm_protect_in_spec s root own virt flags s' r :
  vtree s root own -> vmm_protect_in s root virt flags = (s', r) ->
  vtree s' root own /\ vpm s' = vpm s /\ outside (vpath virt) own (vmem s) (vmem s') /\
  links_kept own (vmem s) (vmem s') /\
  (r = -1 /\ s' = s /\ vmm_entry_in (vmem s) root virt = 0
   \/ r = 0 /\ exists e, rview (vmem s) 0 root (vpath virt) = VLeaf e /\
      forall virt', rview (vmem s') 0 root (vpath virt') =
        if decide (vpath virt' = vpath virt)
        then VLeaf (Z.lor (Z.lor (Z.land e VMM_ADDR_MASK) (Z.land e VMM_SHARED)) (Z.lor flags VMM_PRESENT))
        else rview (vmem s) 0 root (vpath virt')).
Proof.
  intros V. unfold vmm_protect_in. rewrite vmm_entry_view, walk_only_rptr.
  pose proof (rview_rptr (vmem s) 0 root (vpath virt)) as Hrv.
  destruct (rptr (vmem s) 0 root (vpath virt)) as [pte|] eqn:Ep.
  2:{ intros [= <- <-]. split_and!; try done; [by intros ?|]. left. by destruct (rview _ _ _ _). }
  rewrite test_present. unfold leaf_view in Hrv.
  destruct (Z.testbit (mread (vmem s) pte) 0); cbn [negb]; intros [= <- <-].
  - destruct (write_leaf_spec s root own virt pte (Z.lor (Z.lor (Z.land (mread (vmem s) pte) VMM_ADDR_MASK)
      (Z.land (mread (vmem s) pte) VMM_SHARED)) (Z.lor flags VMM_PRESENT)) V Ep) as (V' & Ho & Hk & Hv).
    split_and!; try done. right. split; [done|]. eexists. split; [done|]. intros virt'. cbn [vmem set_mem]. rewrite Hv.
    case_decide; [|done]. unfold leaf_view, VMM_PRESENT.
    by rewrite !Z.lor_spec, testbit_pow2, !orb_true_r.
  - split_and!; try done; [by intros ?|]. left. by rewrite Hrv.
Qed.
End walk.
