(* ===== verification/Paging.v ===== *)
(** The interface between page-table code and its clients.

    [PagingOps] collects what [kernel/memory/uvm.c], [heap.c] and [vma.c] use of
    [vmm.h] and [pmm.h] on one address space: reading an entry, mapping,
    unmapping, re-protecting, translating, and taking or releasing frames.
    [PagingLaws] states their contract over a ghost set of table frames.  The
    instance at the end discharges the laws with the theorems of [Vmm]. *)
From S2P Require Import Prelude.
From S2P Require Import Frames.
From S2P Require Import Vmm.

(** The page a virtual address belongs to: its low 12 bits and the bits above
    the 48-bit canonical range do not take part in the walk. *)
Definition page_of (virt : Z) : Z := (virt / 4096) mod 2 ^ 36.

Class PagingOps (S : Type) := {
  pg_entry : S -> Z -> Z -> Z;                (* vmm_entry_in pml4 virt *)
  pg_translate : S -> Z -> Z -> Z;            (* vmm_translate_in pml4 virt *)
  pg_map : S -> Z -> Z -> Z -> Z -> S * Z;    (* vmm_map_in pml4 virt phys flags *)
  pg_unmap : S -> Z -> Z -> S * Z;            (* vmm_unmap_in pml4 virt *)
  pg_protect : S -> Z -> Z -> Z -> S * Z;     (* vmm_protect_in pml4 virt flags *)
  pg_alloc : S -> Z * S;                      (* pmm_alloc_frame *)
  pg_free : S -> Z -> S;                      (* pmm_free_frame *)
  pg_zero : S -> Z -> S;                      (* memset(phys_to_virt(p), 0, 4096) *)
  pg_taken : S -> Z -> bool;
  pg_avail : S -> nat;
  pg_wf : S -> Z -> gset Z -> Prop;           (* root and its table frames *)
}.

Definition pte_of (phys flags : Z) : Z := Z.lor (Z.land phys VMM_ADDR_MASK) (Z.lor flags VMM_PRESENT).
Definition reprotect (e flags : Z) : Z :=
  Z.lor (Z.lor (Z.land e VMM_ADDR_MASK) (Z.land e VMM_SHARED)) (Z.lor flags VMM_PRESENT).

Class PagingLaws (S : Type) `{!PagingOps S} := {
  pg_table_taken s root T t : pg_wf s root T -> t ∈ T -> frame_addr t /\ pg_taken s t = true;
  (** An entry is zero or present; translation sees every mapped frame. *)
  pg_entry_present s root T v : pg_wf s root T -> pg_entry s root v <> 0 -> Z.testbit (pg_entry s root v) 0 = true;
  pg_entry_page s root v v' : page_of v = page_of v' -> pg_entry s root v = pg_entry s root v';
  pg_translate_entry s root v : pg_entry s root v <> 0 ->
    pg_translate s root v = Z.lor (Z.land (pg_entry s root v) VMM_ADDR_MASK) (Z.land v 0xFFF);
  pg_map_ok s root T v phys flags s' r : pg_wf s root T -> pg_map s root v phys flags = (s', r) ->
    exists T', pg_wf s' root T' /\ T ⊆ T' /\
      (forall q, frame_addr q -> pg_taken s q = true -> pg_taken s' q = true) /\
      (forall q, frame_addr q -> pg_taken s' q = true -> pg_taken s q = true \/ q ∈ T') /\
      (forall t, t ∈ T' -> t ∉ T -> pg_taken s t = false) /\
      (r = 0 /\ (forall v', pg_entry s' root v' =
                  if decide (page_of v' = page_of v) then pte_of phys flags else pg_entry s root v')
       \/ r = -1 /\ (forall v', pg_entry s' root v' = pg_entry s root v')) /\
      (pg_avail s' <= pg_avail s)%nat;
  pg_unmap_ok s root T v s' r : pg_wf s root T -> pg_unmap s root v = (s', r) ->
    pg_wf s' root T /\ (forall q, pg_taken s' q = pg_taken s q) /\
    (forall v', pg_entry s' root v' =
       if decide (page_of v' = page_of v) then 0 else pg_entry s root v');
  pg_protect_ok s root T v flags s' r : pg_wf s root T -> pg_protect s root v flags = (s', r) ->
    pg_wf s' root T /\ (forall q, pg_taken s' q = pg_taken s q) /\
    (r = -1 /\ pg_entry s root v = 0 /\ (forall v', pg_entry s' root v' = pg_entry s root v')
     \/ r = 0 /\ pg_entry s root v <> 0 /\
        (forall v', pg_entry s' root v' = if decide (page_of v' = page_of v)
           then reprotect (pg_entry s root v) flags else pg_entry s root v'));
  pg_alloc_ok s root T : pg_wf s root T -> fst (pg_alloc s) <> 0 ->
    let p := fst (pg_alloc s) in let s' := snd (pg_alloc s) in
    frame_addr p /\ pg_taken s p = false /\ pg_wf s' root T /\ (pg_avail s' < pg_avail s)%nat /\
    (forall q, frame_addr q -> pg_taken s' q = (p =? q) || pg_taken s q) /\
    (forall v, pg_entry s' root v = pg_entry s root v);
  pg_alloc_fail s root T : pg_wf s root T -> fst (pg_alloc s) = 0 -> snd (pg_alloc s) = s;
  pg_zero_ok s root T p : pg_wf s root T -> frame_addr p -> p ∉ T ->
    pg_wf (pg_zero s p) root T /\ (forall q, pg_taken (pg_zero s p) q = pg_taken s q) /\
    (pg_avail (pg_zero s p) = pg_avail s) /\ (forall v, pg_entry (pg_zero s p) root v = pg_entry s root v);
  pg_free_ok s root T p : pg_wf s root T -> frame_addr p -> p ∉ T -> pg_taken s p = true ->
    pg_wf (pg_free s p) root T /\
    (forall q, frame_addr q -> pg_taken (pg_free s p) q = negb (p =? q) && pg_taken s q) /\
    (forall v, pg_entry (pg_free s p) root v = pg_entry s root v);
  pg_free_avail s root T p : pg_wf s root T -> frame_addr p -> p ∉ T -> pg_taken s p = true ->
    (pg_avail (pg_free s p) <= 1 + pg_avail s)%nat;
}.

(** ** The page-table code implements the interface *)
Lemma page_of_bits v k : 0 <= k -> Z.testbit (page_of v) k = (k <? 36) && Z.testbit v (k + 12).
Proof.
  intros Hk. unfold page_of. rewrite testbit_mod by done. f_equal.
  change 4096 with (2 ^ 12). by rewrite Z.div_pow2_bits.
Qed.

Lemma slice_bits v n k : 0 <= k -> 0 <= n -> Z.testbit (Z.land (Z.shiftr v n) 0x1FF) k = (k <? 9) && Z.testbit v (k + n).
Proof.
  intros Hk Hn. change 0x1FF with (Z.ones 9). rewrite Z.land_ones by done.
  by rewrite testbit_mod, Z.shiftr_spec.
Qed.

Lemma vpath_page v v' : vpath v = vpath v' <-> page_of v = page_of v'.
Proof.
  unfold vpath, va_split. split; intros H.
  - assert (Hbits : forall n k, n ∈ [39; 30; 21; 12] -> 0 <= k < 9 -> Z.testbit v (k + n) = Z.testbit v' (k + n)).
    { intros n k Hn Hk.
      assert (Z.land (Z.shiftr v n) 0x1FF = Z.land (Z.shiftr v' n) 0x1FF) as Hs.
      { repeat (apply elem_of_cons in Hn as [->|Hn]; [by simplify_eq|]). by apply not_elem_of_nil in Hn. }
      assert (0 <= n) by (repeat (apply elem_of_cons in Hn as [->|Hn]; [done|]); by apply not_elem_of_nil in Hn).
      apply (f_equal (fun z => Z.testbit z k)) in Hs. rewrite !slice_bits in Hs by lia.
      by rewrite (proj2 (Z.ltb_lt k 9)) in Hs by lia. }
    apply Z.bits_inj'. intros k Hk. rewrite !page_of_bits by done.
    destruct (Z.ltb_spec k 36); [|done]. simpl.
    destruct (Z.lt_ge_cases k 9); [apply (Hbits 12); [set_solver|lia]|].
    destruct (Z.lt_ge_cases k 18); [replace (k + 12) with (k - 9 + 21) by lia; apply Hbits; [set_solver|lia]|].
    destruct (Z.lt_ge_cases k 27); [replace (k + 12) with (k - 18 + 30) by lia; apply Hbits; [set_solver|lia]|].
    replace (k + 12) with (k - 27 + 39) by lia; apply Hbits; [set_solver|lia].
  - assert (Hbits : forall n, 12 <= n <= 39 -> Z.land (Z.shiftr v n) 0x1FF = Z.land (Z.shiftr v' n) 0x1FF).
    { intros n Hn. apply Z.bits_inj'. intros k Hk. rewrite !slice_bits by lia.
      destruct (Z.ltb_spec k 9); [|done]. simpl.
      apply (f_equal (fun z => Z.testbit z (k + n - 12))) in H. rewrite !page_of_bits in H by lia.
      rewrite (proj2 (Z.ltb_lt _ _)) in H by lia. by replace (k + n - 12 + 12) with (k + n) in H by lia. }
    by rewrite !Hbits.
Qed.

#[local] Opaque zero_page mread mwrite va_split vmm_entry_in vmm_translate_in.

Section vmm_paging.
Context {A : Type} `{!FrameOps A, !FrameLaws A}.

#[export] Instance vmm_paging : PagingOps (vst A) := {|
  pg_entry s root v := vmm_entry_in (vmem s) root v;
  pg_translate s root v := vmm_translate_in (vmem s) root v;
  pg_map := vmm_map_in;
  pg_unmap := vmm_unmap_in;
  pg_protect := vmm_protect_in;
  pg_alloc s := let '(p, pm) := fa_alloc (vpm s) in (p, Vst (vmem s) pm);
  pg_free s p := Vst (vmem s) (fa_free (vpm s) p);
  pg_zero s p := set_mem s (zero_page (vmem s) p);
  pg_taken s p := fa_taken (vpm s) p;
  pg_avail s := fa_avail (vpm s);
  pg_wf s root T := exists own, vtree s root own /\ dom own = T;
|}.

Lemma leaf_present m level t path e : rview m level t path = VLeaf e -> Z.testbit e 0 = true.
Proof.
  revert level t. induction path as [|i [|j rest] IH]; intros level t; [done| |].
  - simpl. unfold leaf_view. case_match; [|done]. by intros [= <-].
  - cbn [rview]. destruct (negb _); [done|]. destruct (huge _ _); [done|]. apply IH.
Qed.

Lemma pte_nonzero e : Z.testbit e 0 = true -> e <> 0.
Proof. by intros H ->. Qed.

(** Zeroing a frame that is no table leaves the tree alone. *)
Lemma zero_page_tree (s : vst A) root own p :
  vtree s root own -> frame_addr p -> own !! p = None ->
  vtree (set_mem s (zero_page (vmem s) p)) root own /\
  forall path, length path = 4%nat -> Forall (fun i => 0 <= i < 512) path ->
    rview (zero_page (vmem s) p) 0 root path = rview (vmem s) 0 root path.
Proof.
  intros V Hp Hno. pose proof (vt_tree _ _ _ V) as T.
  assert (Hread : forall t q i, own !! t = Some q -> 0 <= i < 512 ->
    mread (zero_page (vmem s) p) (t + 8 * i) = mread (vmem s) (t + 8 * i)).
  { intros t q i Ht Hi. apply zero_page_out. intros k Hk He.
    destruct (tree_frame _ _ _ T t q Ht) as [[_ Ha] _]. destruct Hp as [_ Hpa].
    destruct (slot_inj t p i k) as [-> _]; try done. congruence. }
  destruct (tree_ext (vmem s) (zero_page (vmem s) p) root own T Hread) as [T' Hv].
  split; [|done]. split; [done|apply V|apply V].
Qed.

Lemma entry_view_decide (c : Prop) `{!Decision c} x y :
  view_entry (if decide c then x else y) = if decide c then view_entry x else view_entry y.
Proof. by destruct (decide c). Qed.

Lemma decide_page v v' (x y : Z) :
  (if decide (vpath v' = vpath v) then x else y) = if decide (page_of v' = page_of v) then x else y.
Proof. destruct (decide (vpath _ = _)) as [H|H]; rewrite vpath_page in H; [by rewrite decide_True|by rewrite decide_False]. Qed.

Lemma vmm_pg_map_ok (s : vst A) root T v phys flags s' r : pg_wf s root T -> pg_map s root v phys flags = (s', r) ->
    exists T', pg_wf s' root T' /\ T ⊆ T' /\
      (forall q, frame_addr q -> pg_taken s q = true -> pg_taken s' q = true) /\
      (forall q, frame_addr q -> pg_taken s' q = true -> pg_taken s q = true \/ q ∈ T') /\
      (forall t, t ∈ T' -> t ∉ T -> pg_taken s t = false) /\
      (r = 0 /\ (forall v', pg_entry s' root v' =
                  if decide (page_of v' = page_of v) then pte_of phys flags else pg_entry s root v')
       \/ r = -1 /\ (forall v', pg_entry s' root v' = pg_entry s root v')) /\
      (pg_avail s' <= pg_avail s)%nat.
Proof using FrameLaws0.
  intros (own & V & <-) Hm. destruct (vmm_map_in_spec _ _ _ _ _ _ _ _ V Hm) as (own' & V' & Ho & Ht & Hh & Hf & Ha & _ & _ & Hr).
  exists (dom own'). split_and!.
  - by exists own'.
  - by apply subseteq_dom.
  - exact Ht.
  - intros q Hq Hq'. destruct (Hh q Hq Hq') as [?|?]; [by left|right; by apply elem_of_dom].
  - intros t [p Hp]%elem_of_dom Hn%not_elem_of_dom. by eapply Hf.
  - cbn [pg_entry vmm_paging]. destruct Hr as [[-> Hv]|(-> & Hv & _)]; [left|right]; split; try done; intros v'.
    + rewrite !vmm_entry_view, Hv, entry_view_decide. apply decide_page.
    + by rewrite !vmm_entry_view, Hv.
  - exact Ha.
Qed.

Lemma vmm_pg_unmap_ok (s : vst A) root T v s' r : pg_wf s root T -> pg_unmap s root v = (s', r) ->
    pg_wf s' root T /\ (forall q, pg_taken s' q = pg_taken s q) /\
    (forall v', pg_entry s' root v' =
       if decide (page_of v' = page_of v) then 0 else pg_entry s root v').
Proof using FrameLaws0.
  intros (own & V & <-) Hm. destruct (vmm_unmap_in_spec _ _ _ _ _ _ V Hm) as (V' & Hpm & _ & _ & Hv & Hr).
  split_and!; [by exists own|cbn; by rewrite Hpm|]. cbn [pg_entry vmm_paging]. intros v'.
  rewrite <-decide_page, !vmm_entry_view, Hv, entry_view_decide.
  destruct (decide (vpath v' = vpath v)) as [He|]; [|rewrite decide_False; [done|by intros [? _]]].
  destruct Hr as [->|[-> H0]]; [by rewrite decide_True|]. rewrite decide_False by (by intros [_ ?]).
  by rewrite vmm_entry_view, <-He in H0.
Qed.

Lemma vmm_pg_protect_ok (s : vst A) root T v flags s' r : pg_wf s root T -> pg_protect s root v flags = (s', r) ->
    pg_wf s' root T /\ (forall q, pg_taken s' q = pg_taken s q) /\
    (r = -1 /\ pg_entry s root v = 0 /\ (forall v', pg_entry s' root v' = pg_entry s root v')
     \/ r = 0 /\ pg_entry s root v <> 0 /\
        (forall v', pg_entry s' root v' = if decide (page_of v' = page_of v)
           then reprotect (pg_entry s root v) flags else pg_entry s root v')).
Proof using FrameLaws0.
  intros (own & V & <-) Hm. destruct (vmm_protect_in_spec _ _ _ _ _ _ _ V Hm) as (V' & Hpm & _ & _ & Hr).
  split_and!; [by exists own|cbn; by rewrite Hpm|]. cbn [pg_entry vmm_paging].
  destruct Hr as [(-> & -> & H0)|(-> & e & He & Hv)]; [left; done|right].
  rewrite !vmm_entry_view, He. split_and!; [done|by eapply pte_nonzero, leaf_present|].
  intros v'. rewrite !vmm_entry_view, Hv, entry_view_decide. cbn [view_entry]. apply decide_page.
Qed.

#[export] Instance vmm_paging_laws : PagingLaws (vst A).
Proof using FrameLaws0.
  split.
  - intros s root T t (own & V & <-) [p Hp]%elem_of_dom. split; [by eapply tree_frame; [apply V|]|by eapply V].
  - intros s root T v _. cbn [pg_entry vmm_paging]. rewrite vmm_entry_view.
    destruct (rview _ _ _ _) eqn:E; [done|done|]. intros _. by eapply leaf_present.
  - intros s root v v' H%vpath_page. cbn [pg_entry vmm_paging]. by rewrite !vmm_entry_view, H.
  - intros s root v. cbn [pg_entry pg_translate vmm_paging]. rewrite vmm_entry_view, vmm_translate_view.
    destruct (rview _ _ _ _) eqn:E; [done|done|]. done.
  - apply vmm_pg_map_ok.
  - apply vmm_pg_unmap_ok.
  - apply vmm_pg_protect_ok.
  - intros s root T (own & V & <-). cbn [pg_alloc vmm_paging]. pose proof (fa_alloc_ok (vpm s) (vt_pm _ _ _ V)) as H.
    destruct (fa_alloc (vpm s)) as [p pm] eqn:E. cbn [fst snd] in *. intros Hp.
    destruct (H Hp) as (Hf & Hn & Hw & Ha & Ht). split_and!; try done. exists own. split; [|done].
    split; [apply V|done|]. intros t q Hq. cbn [vpm]. rewrite Ht by (by eapply tree_frame; [apply V|]).
    by rewrite (vt_taken _ _ _ V t q Hq), orb_true_r.
  - intros s root T (own & V & <-). cbn [pg_alloc vmm_paging]. pose proof (fa_alloc_fail (vpm s) (vt_pm _ _ _ V)) as H.
    destruct (fa_alloc (vpm s)) as [p pm] eqn:E. cbn [fst snd] in *. intros Hp. rewrite (H Hp). by destruct s.
  - intros s root T p (own & V & <-) Hp Hn%not_elem_of_dom. cbn [pg_zero vmm_paging].
    destruct (zero_page_tree s root own p V Hp Hn) as [V' Hv]. split_and!; [by exists own|done..|].
    intros v. cbn [pg_entry vmm_paging vmem set_mem]. rewrite !vmm_entry_view.
    by rewrite Hv by (apply vpath_length || apply vpath_range).
  - intros s root T p (own & V & <-) Hp Hn%not_elem_of_dom Ht. cbn in Ht. 
    destruct (fa_free_ok (vpm s) p (vt_pm _ _ _ V) Hp Ht) as [Hw Hq].
    split_and!; [|exact Hq|done]. exists own. split; [|done]. split; [apply V|done|].
    intros t q Htq. cbn [vpm pg_free vmm_paging]. rewrite Hq by (by eapply tree_frame; [apply V|]).
    rewrite (vt_taken _ _ _ V t q Htq), andb_true_r. destruct (Z.eqb_spec p t); [|done]. congruence.
  - intros s root T p (own & V & <-) Hp _ Ht. by apply fa_free_avail; [apply V| |].
Qed.

End vmm_paging.

#[local] Transparent zero_page mread mwrite va_split vmm_entry_in vmm_translate_in.

(** Entries the code writes are present, hence non-zero. *)
Lemma pte_of_nonzero phys fl : pte_of phys fl <> 0.
Proof. apply pte_nonzero. unfold pte_of, VMM_PRESENT. by rewrite !Z.lor_spec, testbit_pow2, !orb_true_r. Qed.

Lemma reprotect_nonzero e fl : reprotect e fl <> 0.
Proof. apply pte_nonzero. unfold reprotect, VMM_PRESENT. by rewrite !Z.lor_spec, testbit_pow2, !orb_true_r. Qed.
