(* ===== verification/VmmSpec.v ===== *)
(** What the page-table code of [kernel/memory/vmm.c] promises.

    Mapping, unmapping and re-protecting are described by their effect on the
    translation of every address, against any frame allocator.  The second
    half is about several address spaces: operations on the user half of one
    leave the others alone, and the kernel half, whose top-level entries
    [vmm_init] fills before the first process copies them, stays shared. *)
From S2P Require Import Prelude.
From S2P Require Import Pmm.
From S2P Require Import PmmSpec.
From S2P Require Import Frames.
From S2P Require Import Vmm.
From S2P Require Import Paging.

#[local] Opaque zero_page mread mwrite va_split vmm_entry_in vmm_translate_in.

Section specs.
Context {A : Type} `{!FrameOps A, !FrameLaws A}.
Implicit Types (s : vst A) (own : gmap Z (list Z)).

(** ** One operation on one address space *)
Inductive vop := VMap (virt phys flags : Z) | VUnmap (virt : Z) | VProtect (virt flags : Z).
Definition vop_virt (op : vop) : Z :=
  match op with VMap v _ _ | VUnmap v | VProtect v _ => v end.
Definition vexec s (root : Z) (op : vop) : vst A * Z :=
  match op with
  | VMap v p f => vmm_map_in s root v p f
  | VUnmap v => vmm_unmap_in s root v
  | VProtect v f => vmm_protect_in s root v f
  end.

(** What every operation keeps. *)
Lemma vexec_keeps s root own op s' r :
  vtree s root own -> vexec s root op = (s', r) ->
  exists own', vtree s' root own' /\ own ⊆ own' /\
    (forall q, frame_addr q -> fa_taken (vpm s) q = true -> fa_taken (vpm s') q = true) /\
    (forall t p, own' !! t = Some p -> own !! t = None -> fa_taken (vpm s) t = false) /\
    outside (vpath (vop_virt op)) own' (vmem s) (vmem s') /\ links_kept own (vmem s) (vmem s').
Proof using FrameLaws0.
  intros V. destruct op as [v p f|v|v f]; cbn [vexec vop_virt]; intros H.
  - destruct (vmm_map_in_spec _ _ _ _ _ _ _ _ V H) as (own' & V' & Ho & Ht & _ & Hf & _ & Hout & Hl & _). by exists own'.
  - destruct (vmm_unmap_in_spec _ _ _ _ _ _ V H) as (V' & Hpm & Hout & Hl & _). exists own. rewrite Hpm.
    split_and!; try done. intros; congruence.
  - destruct (vmm_protect_in_spec _ _ _ _ _ _ _ V H) as (V' & Hpm & Hout & Hl & _). exists own. rewrite Hpm.
    split_and!; try done. intros; congruence.
Qed.

(** ** Kernel and user addresses

    Processes share with the kernel the upper half and the identity map of the
    first gigabyte; their private mappings lie between the two. *)
Definition user_addr (virt : Z) : Prop := 2 ^ 30 <= virt < 2 ^ 47.
Definition kernel_addr (virt : Z) : Prop := 2 ^ 64 - 2 ^ 47 <= virt < 2 ^ 64.

Lemma vpath_head virt : exists i0 i1 rest, vpath virt = i0 :: i1 :: rest /\
  i0 = (virt / 2 ^ 39) mod 512 /\ i1 = (virt / 2 ^ 30) mod 512 /\ (length rest = 2)%nat.
Proof.
  unfold vpath. eexists _, _, _. split; [reflexivity|]. change 0x1FF with (Z.ones 9).
  by rewrite !Z.land_ones, !Z.shiftr_div_pow2.
Qed.

Lemma kernel_index virt : kernel_addr virt -> 256 <= (virt / 2 ^ 39) mod 512 < 512.
Proof. unfold kernel_addr. intros H. Z.to_euclidean_division_equations. lia. Qed.

(** A table at this path belongs to the kernel. *)
Definition kernel_path (p : list Z) : Prop :=
  match p with i :: rest => 256 <= i \/ i = 0 /\ (exists q, rest = 0 :: q) | [] => False end.
(** Two address spaces share only tables of the kernel. *)
Definition share_kernel own1 own2 : Prop :=
  forall t p1 p2, own1 !! t = Some p1 -> own2 !! t = Some p2 -> kernel_path p1.

Lemma kernel_path_prefix p virt : user_addr virt -> p `prefix_of` vpath virt -> ~ kernel_path p.
Proof.
  unfold user_addr. intros Hu [k Hk] Hp. destruct (vpath_head virt) as (i0 & i1 & rest & Hv & Hi0 & Hi1 & _).
  rewrite Hv in Hk. destruct p as [|i p]; [done|]. simpl in Hk, Hp. injection Hk as <- Hk.
  destruct Hp as [Hp|(Hi & q & ->)]; [|injection Hk as Hk _]; Z.to_euclidean_division_equations; lia.
Qed.

Lemma user_op_keeps_words s root1 own1 root2 own2 op s' r t p i :
  vtree s root1 own1 -> vtree s root2 own2 -> share_kernel own1 own2 -> user_addr (vop_virt op) ->
  vexec s root1 op = (s', r) -> own2 !! t = Some p -> 0 <= i < 512 ->
  mread (vmem s') (t + 8 * i) = mread (vmem s) (t + 8 * i).
Proof using FrameLaws0.
  intros V1 V2 Hsh Hu Hx Ht Hi. destruct (vexec_keeps _ _ _ _ _ _ V1 Hx) as (own' & _ & Ho & _ & Hf & Hout & _).
  apply Hout; [by eapply tree_frame; [apply V2|]|done|].
  intros p' Hp' Hpre. apply (kernel_path_prefix p' (vop_virt op)); try done.
  destruct (own1 !! t) as [p1|] eqn:E1.
  - rewrite (lookup_weaken _ _ _ _ E1 Ho) in Hp'. injection Hp' as <-. by eapply Hsh.
  - pose proof (Hf t p' Hp' E1) as Hfree. by rewrite (vt_taken _ _ _ V2 t p Ht) in Hfree.
Qed.

(** ** Sharing the kernel half *)
Definition shares_slots (m : memory) (root1 root2 : Z) : Prop :=
  forall i, 256 <= i < 512 -> exists t, leads m 0 root1 i t /\ leads m 0 root2 i t.

Lemma shares_slots_view m root1 root2 virt :
  shares_slots m root1 root2 -> kernel_addr virt -> rview m 0 root2 (vpath virt) = rview m 0 root1 (vpath virt).
Proof.
  intros Hs Hk. destruct (vpath_head virt) as (i0 & i1 & rest & -> & -> & _ & _).
  destruct (Hs _ (kernel_index virt Hk)) as (t & L1 & L2).
  by rewrite (leads_view _ 0 root1 _ t), (leads_view _ 0 root2 _ t).
Qed.

Lemma vexec_shares s root1 own1 root2 op s' r :
  vtree s root1 own1 -> frame_addr root2 -> fa_taken (vpm s) root2 = true -> own1 !! root2 = None ->
  shares_slots (vmem s) root1 root2 -> vexec s root1 op = (s', r) -> shares_slots (vmem s') root1 root2.
Proof using FrameLaws0.
  intros V1 Hr2 Ht2 Hno Hs Hx i Hi. destruct (Hs i Hi) as (t & L1 & L2). exists t.
  destruct (vexec_keeps _ _ _ _ _ _ V1 Hx) as (own' & _ & _ & _ & Hf & Hout & Hlk). split.
  - apply (Hlk root1 [] i t); [apply V1|simpl; lia|lia|done].
  - unfold leads. rewrite Hout; [done|done|lia|]. intros p Hp _.
    pose proof (Hf root2 p Hp Hno) as Hfree. by rewrite Ht2 in Hfree.
Qed.

(** ** Sequences of operations *)
Fixpoint vrun s (root : Z) (ops : list vop) : vst A :=
  match ops with [] => s | op :: ops' => vrun (fst (vexec s root op)) root ops' end.

Lemma vrun_isolated ops s root1 own1 root2 own2 :
  vtree s root1 own1 -> vtree s root2 own2 -> share_kernel own1 own2 -> Forall (fun op => user_addr (vop_virt op)) ops ->
  vtree (vrun s root1 ops) root2 own2 /\ same_view (vmem s) (vmem (vrun s root1 ops)) root2.
Proof using FrameLaws0.
  intros V1 V2 Hsh Hops. revert s own1 V1 V2 Hsh. induction Hops as [|op ops Hu Hops IH]; intros s own1 V1 V2 Hsh; simpl; [done|].
  destruct (vexec s root1 op) as [s1 r] eqn:Hx. cbn [fst].
  destruct (vexec_keeps _ _ _ _ _ _ V1 Hx) as (own' & V1' & Ho & Htk & Hf & _ & _).
  destruct (tree_ext (vmem s) (vmem s1) root2 own2) as [T2 Hv]; [apply V2|intros t p i Ht Hi; by apply (user_op_keeps_words s root1 own1 root2 own2 op s1 r t p i)|].
  destruct (IH s1 own') as [IH1 IH2].
  - done.
  - split; [done|apply V1'|]. intros t p Ht. apply Htk; [by eapply tree_frame; [apply V2|]|by eapply V2].
  - intros t p1 p2 H1 H2. destruct (own1 !! t) as [q|] eqn:E1.
    + rewrite (lookup_weaken _ _ _ _ E1 Ho) in H1. injection H1 as <-. by eapply Hsh.
    + pose proof (Hf t p1 H1 E1) as Hfree. by rewrite (vt_taken _ _ _ V2 t p2 H2) in Hfree.
  - split; [done|]. intros path Hl Hr. rewrite IH2 by done. by apply Hv.
Qed.

Lemma vrun_shares ops s root1 own1 root2 :
  vtree s root1 own1 -> frame_addr root2 -> fa_taken (vpm s) root2 = true -> own1 !! root2 = None ->
  shares_slots (vmem s) root1 root2 -> shares_slots (vmem (vrun s root1 ops)) root1 root2.
Proof using FrameLaws0.
  intros V1 Hr2. revert s own1 V1. induction ops as [|op ops IH]; intros s own1 V1 Ht2 Hno Hs; simpl; [done|].
  destruct (vexec s root1 op) as [s1 r] eqn:Hx. cbn [fst].
  destruct (vexec_keeps _ _ _ _ _ _ V1 Hx) as (own' & V1' & Ho & Htk & Hf & _ & _).
  apply (IH s1 own'); [done|by apply Htk| |by apply (vexec_shares s root1 own1 root2 op s1 r)].
  destruct (own' !! root2) as [p|] eqn:E; [|done]. pose proof (Hf root2 p E Hno) as Hfree. by rewrite Ht2 in Hfree.
Qed.

(** ** Reserving the kernel slots *)
Lemma reserve_loop_spec is_ s root own :
  vtree s root own -> Forall (fun i => 0 <= i < 512) is_ ->
  let s' := reserve_loop is_ s root in
  exists own', vtree s' root own' /\ own ⊆ own' /\ same_view (vmem s) (vmem s') root /\
    links_kept own (vmem s) (vmem s') /\
    ((forall i, i ∈ is_ -> exists t, leads (vmem s') 0 root i t) \/ fst (fa_alloc (vpm s')) = 0).
Proof using FrameLaws0.
  intros V Hr. revert s own V. induction Hr as [|i is_ Hi Hr IH]; intros s own V; cbn [reserve_loop].
  { exists own. split_and!; try done; [by intros ?|]. left. intros i Hi. by apply not_elem_of_nil in Hi. }
  rewrite test_present. destruct (Z.testbit (mread (vmem s) (root + 8 * i)) 0) eqn:E0.
  - destruct (IH s own V) as (own' & V' & Ho & Hv & Hk & Hs). exists own'. split_and!; try done.
    destruct Hs as [Hs|]; [left|by right]. intros j [->|Hj]%elem_of_cons; [|by apply Hs].
    exists (Z.land (mread (vmem s) (root + 8 * i)) VMM_ADDR_MASK). apply (Hk root [] i); [apply V|simpl; lia|done|by split].
  - destruct (fa_alloc (vpm s)) as [f pm] eqn:Ea. destruct (Z.eqb_spec f 0) as [->|Hnz].
    + pose proof (fa_alloc_fail _ (vt_pm _ _ _ V)) as Hfail. rewrite Ea in Hfail. simpl in Hfail.
      rewrite (Hfail eq_refl). exists own. destruct s as [m pm0]. cbn [vmem vpm] in *.
      split_and!; try done; [by intros ?|right; by rewrite Ea].
    + destruct (link_grows [i] s root own root [] i 0) as [G L]; try done; [apply V|simpl; lia|by rewrite Ea|].
      rewrite Ea in G, L. cbn [fst snd] in G, L. rewrite Z.land_0_l, Z.lor_0_r in G, L. unfold link_mem in G, L.
      destruct (IH _ _ (gr_tree _ _ _ _ _ _ G)) as (own' & V' & Ho & Hv & Hk & Hs). exists own'.
      split_and!; [done|etrans; [apply G|done]| | |].
      * intros path Hl Hp. rewrite Hv by done. by apply G.
      * intros t p j t' Ht Hp Hj Hlead. apply Hk; try done; [eapply lookup_weaken; [done|apply G]|by apply G].
      * destruct Hs as [Hs|]; [left|by right]. intros j [->|Hj]%elem_of_cons; [|by apply Hs].
        exists f. apply (Hk root [] i); [eapply lookup_weaken; [apply V|apply G]|simpl; lia|done|done].
Qed.

Lemma reserve_kernel_spec s root own :
  vtree s root own ->
  let s' := reserve_kernel_pml4_entries s root in
  same_view (vmem s) (vmem s') root /\
    ((forall i, 256 <= i < 512 -> exists t, leads (vmem s') 0 root i t) \/ fst (fa_alloc (vpm s')) = 0).
Proof using FrameLaws0.
  intros V. unfold reserve_kernel_pml4_entries.
  destruct (reserve_loop_spec (seqZ 256 256) s root own V) as (own' & V' & Ho & Hv & Hk & Hs).
  { apply List.Forall_forall. intros i Hi%list_elem_of_In%elem_of_seqZ. lia. }
  split; [exact Hv|]. destruct Hs as [Hs|Hs]; [left|right; exact Hs]. intros i Hi. apply Hs, elem_of_seqZ. lia.
Qed.
End specs.

#[local] Opaque reserve_kernel_pml4_entries.

(** ** Properties *)
(** A machine with two empty top tables, in frames 256 and 257. *)
Definition ex_vst : vst pmm := Vst ∅ ex_pmm.
Definition ex_root1 : Z := 0x100000.
Definition ex_root2 : Z := 0x101000.

Lemma ex_vtree root : root ∈ [ex_root1; ex_root2] -> vtree ex_vst root {[ root := [] ]}.
Proof.
  intros Hr. assert (Hf : frame_addr root /\ fa_taken ex_pmm root = true).
  { apply list_elem_of_In in Hr. unfold frame_addr. destruct Hr as [<-|[<-|[]]]; by vm_compute. }
  split.
  - split; [apply lookup_singleton_eq| | |].
    + intros t p [<- <-]%lookup_singleton_Some. split; [apply Hf|simpl; lia].
    + intros t p i _ _ _. cbv zeta. unfold ex_vst. cbn [vmem].
      assert (mread ∅ (t + 8 * i) = 0) as -> by reflexivity. by rewrite Z.bits_0.
    + intros t p [<- <-]%lookup_singleton_Some. by left.
  - split; [apply ex_pmm_wf|by vm_compute].
  - intros t p [<- <-]%lookup_singleton_Some. apply Hf.
Qed.

Section properties.
Context {A : Type} `{!FrameOps A, !FrameLaws A}.
Implicit Types (s : vst A) (own : gmap Z (list Z)).

Lemma entry_mask phys flags : Z.land flags VMM_ADDR_MASK = 0 ->
  Z.land (pte_of phys flags) VMM_ADDR_MASK = Z.land phys VMM_ADDR_MASK.
Proof.
  intros Hf. unfold pte_of. rewrite !Z.land_lor_distr_l, Hf, <-Z.land_assoc, Z.land_diag.
  change (Z.land VMM_PRESENT VMM_ADDR_MASK) with 0. by rewrite !Z.lor_0_r.
Qed.

Lemma reprotect_mask e flags : Z.land flags VMM_ADDR_MASK = 0 ->
  Z.land (reprotect e flags) VMM_ADDR_MASK = Z.land e VMM_ADDR_MASK.
Proof.
  intros Hf. unfold reprotect. rewrite !Z.land_lor_distr_l, Hf, <-!Z.land_assoc, Z.land_diag.
  change (Z.land VMM_PRESENT VMM_ADDR_MASK) with 0. change (Z.land VMM_SHARED VMM_ADDR_MASK) with 0.
  by rewrite Z.land_0_r, !Z.lor_0_r.
Qed.

Lemma view_of_path (m m' : memory) root v v' (x : view) :
  rview m' 0 root (vpath v') = (if decide (vpath v' = vpath v) then x else rview m 0 root (vpath v')) ->
  rview m' 0 root (vpath v') = (if decide (page_of v' = page_of v) then x else rview m 0 root (vpath v')).
Proof. intros ->. destruct (decide (vpath _ = _)) as [H|H]; rewrite vpath_page in H; [by rewrite decide_True|by rewrite decide_False]. Qed.


(** Unmapping a page. No address of the page has an entry afterwards, every
    address of another page translates as before, and an answer of -1
    means the page had no entry. *)
Theorem vmm_unmap_correct s root own virt s' r :
  vtree s root own -> vmm_unmap_in s root virt = (s', r) ->
  vtree s' root own /\ vpm s' = vpm s /\
  (forall v, page_of v = page_of virt -> vmm_entry_in (vmem s') root v = 0) /\
  (forall v, page_of v <> page_of virt -> vmm_translate_in (vmem s') root v = vmm_translate_in (vmem s) root v) /\
  (r = 0 \/ r = -1 /\ vmm_entry_in (vmem s) root virt = 0).
Proof using FrameLaws0.
  intros V Hm. destruct (vmm_unmap_in_spec _ _ _ _ _ _ V Hm) as (V' & Hpm & _ & _ & Hv & Hr). split_and!; try done.
  - intros v Hp%vpath_page. rewrite vmm_entry_view, Hv. destruct Hr as [->|[-> He]]; [by rewrite decide_True|].
    rewrite decide_False by (by intros [_ ?]). by rewrite Hp, <-vmm_entry_view.
  - intros v Hp. rewrite !vmm_translate_view, Hv, decide_False; [done|]. by intros [?%vpath_page _].
Qed.

(** Re-protecting a page keeps the translation of every address: a mapped
    page keeps its frame and its shared mark and takes the new flags, and an
    unmapped page is refused with nothing changed. *)
Theorem vmm_protect_correct s root own virt flags s' r :
  vtree s root own -> Z.land flags VMM_ADDR_MASK = 0 -> vmm_protect_in s root virt flags = (s', r) ->
  vtree s' root own /\ vpm s' = vpm s /\
  (forall v, vmm_translate_in (vmem s') root v = vmm_translate_in (vmem s) root v) /\
  (r = -1 /\ s' = s /\ vmm_entry_in (vmem s) root virt = 0
   \/ r = 0 /\ vmm_entry_in (vmem s) root virt <> 0 /\
      forall v, vmm_entry_in (vmem s') root v = if decide (page_of v = page_of virt)
        then reprotect (vmm_entry_in (vmem s) root virt) flags else vmm_entry_in (vmem s) root v).
Proof using FrameLaws0.
  intros V Hf Hm. destruct (vmm_protect_in_spec _ _ _ _ _ _ _ V Hm) as (V' & Hpm & _ & _ & Hr).
  destruct Hr as [(-> & -> & He)|(-> & e & He & Hv)]; [by split_and!; try done; left|].
  fold (reprotect e flags) in Hv. assert (Hv' := fun v => view_of_path _ _ _ _ v _ (Hv v)). split_and!; try done.
  - intros v. rewrite !vmm_translate_view, Hv'. case_decide as Hp; [|done].
    apply vpath_page in Hp. rewrite Hp, He. cbn [view_translate]. by rewrite reprotect_mask.
  - right. rewrite (vmm_entry_view _ _ virt), He. cbn [view_entry].
    split_and!; [done|by eapply pte_nonzero, leaf_present|]. intros v. rewrite !vmm_entry_view, Hv'. by case_decide.
Qed.


(** The kernel half is shared. [vmm_init] changes no translation and, unless
    frames run out, fills every kernel slot of the top table; a table that then copies
    those slots by value sees, after any later operations on the kernel's
    tables, exactly the kernel's translation of every kernel address. *)
Theorem kernel_half_shared s cr3 own s1 root1 :
  vtree s (current_pml4 cr3) own -> vmm_init s cr3 = (s1, root1) ->
  (forall v, vmm_translate_in (vmem s1) root1 v = vmm_translate_in (vmem s) root1 v) /\
  (fst (fa_alloc (vpm s1)) = 0 \/
   forall own1 s2 root2 ops,
     (forall i, 256 <= i < 512 -> mread (vmem s2) (root1 + 8 * i) = mread (vmem s1) (root1 + 8 * i) /\
        mread (vmem s2) (root2 + 8 * i) = mread (vmem s1) (root1 + 8 * i)) ->
     vtree s2 root1 own1 -> frame_addr root2 -> fa_taken (vpm s2) root2 = true -> own1 !! root2 = None ->
     forall v, kernel_addr v ->
       vmm_translate_in (vmem (vrun s2 root1 ops)) root2 v = vmm_translate_in (vmem (vrun s2 root1 ops)) root1 v).
Proof using FrameLaws0.
  intros V [= <- <-]. destruct (reserve_kernel_spec s _ own V) as (Hv & Hs).
  split; [intros v; rewrite !vmm_translate_view, Hv by (apply vpath_length || apply vpath_range); done|].
  destruct Hs as [Hs|]; [right|by left]. intros own1 s2 root2 ops Hcopy V1 Hr2 Ht2 Hno v Hkv.
  assert (Hsl : shares_slots (vmem s2) (current_pml4 cr3) root2).
  { intros i Hi. destruct (Hs i Hi) as [t L]. exists t. unfold leads in *.
    destruct (Hcopy i Hi) as [-> ->]. done. }
  rewrite !vmm_translate_view. rewrite (shares_slots_view _ (current_pml4 cr3) root2); [done| |done].
  by eapply vrun_shares.
Qed.
End properties.

(** ** Examples *)
#[local] Transparent zero_page mread mwrite va_split vmm_entry_in vmm_translate_in reserve_kernel_pml4_entries.


(** The state after mapping one page, for the next examples. *)
Definition ex_mapped : vst pmm := fst (vmm_map_in ex_vst ex_root1 0x40000000 0x123000 VMM_WRITE).

Lemma ex_mapped_tree : exists own, vtree ex_mapped ex_root1 own.
Proof.
  unfold ex_mapped. destruct (vmm_map_in ex_vst ex_root1 0x40000000 0x123000 VMM_WRITE) as [s' r] eqn:E.
  destruct (vmm_map_in_spec _ _ _ _ _ _ _ _ (ex_vtree ex_root1 ltac:(left)) E) as (own' & V & _). by exists own'.
Qed.

Lemma vmm_unmap_correct_witness :
  let '(s', r) := vmm_unmap_in ex_mapped ex_root1 0x40000000 in
  vmm_entry_in (vmem ex_mapped) ex_root1 0x40000ABC = 0x123003 /\ vmm_entry_in (vmem s') ex_root1 0x40000ABC = 0.
Proof.
  destruct (vmm_unmap_in ex_mapped ex_root1 0x40000000) as [s' r] eqn:E. split; [vm_compute; reflexivity|].
  destruct ex_mapped_tree as [own V].
  destruct (vmm_unmap_correct ex_mapped ex_root1 own 0x40000000 s' r V E) as (_ & _ & H & _). apply H. reflexivity.
Defined.

Lemma vmm_protect_correct_witness :
  let '(s', r) := vmm_protect_in ex_mapped ex_root1 0x40000000 VMM_USER in
  r = 0 /\ vmm_translate_in (vmem s') ex_root1 0x40000ABC = 0x123ABC.
Proof.
  destruct (vmm_protect_in ex_mapped ex_root1 0x40000000 VMM_USER) as [s' r] eqn:E.
  split; [change r with (snd (s', r)); rewrite <-E; vm_compute; reflexivity|].
  destruct ex_mapped_tree as [own V].
  destruct (vmm_protect_correct ex_mapped ex_root1 own 0x40000000 VMM_USER s' r V) as (_ & _ & H & _);
    [reflexivity|exact E|]. rewrite H. vm_compute. reflexivity.
Defined.


Lemma kernel_half_shared_witness :
  let '(s1, root1) := vmm_init ex_vst ex_root1 in
  root1 = ex_root1 /\ vmm_translate_in (vmem s1) root1 0xFFFF900000000000 = vmm_translate_in (vmem ex_vst) root1 0xFFFF900000000000.
Proof.
  destruct (vmm_init ex_vst ex_root1) as [s1 root1] eqn:E.
  split; [change root1 with (snd (s1, root1)); rewrite <-E; reflexivity|].
  destruct (kernel_half_shared ex_vst ex_root1 {[ ex_root1 := [] ]} s1 root1) as [H _]; [apply (ex_vtree ex_root1); left|exact E|].
  apply H.
Defined.
