(* ===== verification/AddrSpace.v ===== *)
(** Process address spaces, the page-table part of [kernel/loader/process.c].

    [process_pml4_create] builds a top table that shares the kernel's entries,
    [process_pml4_enable_low_elf] gives a process its own first gigabyte,
    [user_stack_alloc_in] populates the user stack and [free_user_pml4] gives every private frame back.  An address space
    is the physical address of its top table, 0 standing for the null pointer. *)
From S2P Require Import Prelude.
From S2P Require Import Pmm.
From S2P Require Import PmmSpec.
From S2P Require Import Frames.
From S2P Require Import Vmm.
From S2P Require Import Paging.
From S2P Require Import VmmSpec.

Definition PML4_PRIVATE_LOW : Z := 2 ^ 10.

Section model.
Context {A : Type} `{!FrameOps A}.

(** ** Construction *)
Definition copy_slots (m : memory) (src dst : Z) : memory :=
  foldl (fun m i => mwrite m (dst + 8 * i) (mread m (src + 8 * i))) m (seqZ 256 256).

Definition process_pml4_create (s : vst A) (kernel_pml4 : Z) : vst A * Z :=
  let '(pml4, pm) := fa_alloc (vpm s) in
  if pml4 =? 0 then (Vst (vmem s) pm, 0) else
  let m := zero_page (vmem s) pml4 in
  let '(pdpt, pm) := fa_alloc pm in
  if pdpt =? 0 then (Vst m (fa_free pm pml4), 0) else
  let m := zero_page m pdpt in
  let kernel_pml4_0 := mread m (kernel_pml4 + 8 * 0) in
  let m := if kernel_pml4_0 &? 1
           then mwrite m (pdpt + 8 * 0) (mread m (Z.land kernel_pml4_0 VMM_ADDR_MASK + 8 * 0))
           else m in
  let m := mwrite m (pml4 + 8 * 0) (Z.lor (Z.lor (Z.lor pdpt VMM_PRESENT) VMM_WRITE) VMM_USER) in
  (Vst (copy_slots m kernel_pml4 pml4) pm, pml4).

Definition process_pml4_enable_low_elf (m : memory) (pml4 : Z) : memory :=
  let e := mread m (pml4 + 8 * 0) in
  if e &? PML4_PRIVATE_LOW then m else
  let m := mwrite m (Z.land e VMM_ADDR_MASK + 8 * 0) 0 in
  mwrite m (pml4 + 8 * 0) (Z.lor (mread m (pml4 + 8 * 0)) PML4_PRIVATE_LOW).

(** ** Teardown: the memory is only read, the frames go back one by one *)
Definition free_pt (m : memory) (pt : Z) (pm : A) : A :=
  foldl (fun pm k =>
    let pte := mread m (pt + 8 * k) in
    if negb (pte &? VMM_PRESENT) then pm
    else if pte &? VMM_SHARED then pm
    else fa_free pm (Z.land pte VMM_ADDR_MASK)) pm (seqZ 0 512).

Definition free_pd (m : memory) (pd : Z) (pm : A) : A :=
  foldl (fun pm j =>
    let pd_e := mread m (pd + 8 * j) in
    if negb (pd_e &? VMM_PRESENT) || (pd_e &? VMM_PS) then pm
    else let pt := Z.land pd_e VMM_ADDR_MASK in fa_free (free_pt m pt pm) pt) pm (seqZ 0 512).

Definition free_pdpt_subtree (m : memory) (pdpt start_idx : Z) (pm : A) : A :=
  let pm := foldl (fun pm i =>
    let pdpt_e := mread m (pdpt + 8 * i) in
    if negb (pdpt_e &? VMM_PRESENT) || (pdpt_e &? VMM_PS) then pm
    else let pd := Z.land pdpt_e VMM_ADDR_MASK in fa_free (free_pd m pd pm) pd)
    pm (seqZ start_idx (512 - start_idx)) in
  fa_free pm pdpt.

Definition free_user_pml4 (m : memory) (pml4 : Z) (pm : A) : A :=
  if pml4 =? 0 then pm else
  let pml4_0 := mread m (pml4 + 8 * 0) in
  let pm := if pml4_0 &? VMM_PRESENT
            then free_pdpt_subtree m (Z.land pml4_0 VMM_ADDR_MASK) (if pml4_0 &? PML4_PRIVATE_LOW then 0 else 1) pm
            else pm in
  let pm := foldl (fun pm p =>
    let pml4_e := mread m (pml4 + 8 * p) in
    if negb (pml4_e &? VMM_PRESENT) then pm
    else free_pdpt_subtree m (Z.land pml4_e VMM_ADDR_MASK) 0 pm) pm (seqZ 1 255) in
  fa_free pm pml4.
End model.

#[local] Opaque zero_page mread mwrite va_split vmm_entry_in vmm_translate_in.

(** ** Reading the new tables *)
Lemma page_slot_ne p q i j : frame_addr p -> frame_addr q -> 0 <= i < 512 -> 0 <= j < 512 -> p <> q -> p + 8 * i <> q + 8 * j.
Proof. intros [_ Hp] [_ Hq] Hi Hj Hne He. by destruct (slot_inj p q i j) as [? _]. Qed.

Lemma copy_read m src dst l : frame_addr src -> frame_addr dst -> src <> dst -> Forall (fun i => 0 <= i < 512) l ->
  let m' := foldl (fun m i => mwrite m (dst + 8 * i) (mread m (src + 8 * i))) m l in
  (forall q i, frame_addr q -> 0 <= i < 512 -> q <> dst -> mread m' (q + 8 * i) = mread m (q + 8 * i)) /\
  (forall i, 0 <= i < 512 -> mread m' (dst + 8 * i) = if decide (i ∈ l) then mread m (src + 8 * i) else mread m (dst + 8 * i)).
Proof.
  intros Hs Hd Hne Hl. revert m. induction Hl as [|j l Hj Hl IH]; intros m; cbn [foldl].
  { split; [done|]. intros i Hi. rewrite decide_False; [done|]. by apply not_elem_of_nil. }
  destruct (IH (mwrite m (dst + 8 * j) (mread m (src + 8 * j)))) as [IH1 IH2]. split.
  - intros q i Hq Hi Hqd. rewrite IH1 by done. apply mread_write_ne. by apply page_slot_ne.
  - intros i Hi. rewrite IH2 by done. rewrite (mread_write_ne _ _ (src + 8 * i)) by (by apply page_slot_ne).
    destruct (Z.eq_dec i j) as [->|Hij].
    + rewrite mread_write_eq. rewrite (decide_True (P := j ∈ j :: l)) by left. by case_decide.
    + rewrite mread_write_ne by lia.
      destruct (decide (i ∈ l)); [by rewrite decide_True by by right|].
      rewrite decide_False; [done|]. by intros [?|?]%elem_of_cons.
Qed.

Lemma zero_page_read m p q i : frame_addr p -> frame_addr q -> 0 <= i < 512 ->
  mread (zero_page m p) (q + 8 * i) = if decide (q = p) then 0 else mread m (q + 8 * i).
Proof.
  intros Hp Hq Hi. case_decide as Hd; [subst; by apply zero_page_in|].
  apply zero_page_out. intros k Hk. by apply page_slot_ne.
Qed.

Lemma slot_write_read m p q i j v : frame_addr p -> frame_addr q -> 0 <= i < 512 -> 0 <= j < 512 ->
  mread (mwrite m (p + 8 * i) v) (q + 8 * j) = if decide (q = p /\ j = i) then v else mread m (q + 8 * j).
Proof.
  intros Hp Hq Hi Hj. case_decide as Hd; [destruct Hd as [-> ->]; apply mread_write_eq|].
  apply mread_write_ne. intros He. destruct Hp as [_ Hp], Hq as [_ Hq].
  destruct (slot_inj p q i j) as [-> ->]; try done. by apply Hd.
Qed.

(** The memory [process_pml4_create] leaves, word by word. *)
Definition create_mem (m : memory) (kroot pml4 pdpt : Z) : memory :=
  let m := zero_page (zero_page m pml4) pdpt in
  let k0 := mread m (kroot + 8 * 0) in
  let m := if k0 &? 1 then mwrite m (pdpt + 8 * 0) (mread m (Z.land k0 VMM_ADDR_MASK + 8 * 0)) else m in
  let m := mwrite m (pml4 + 8 * 0) (Z.lor (Z.lor (Z.lor pdpt VMM_PRESENT) VMM_WRITE) VMM_USER) in
  copy_slots m kroot pml4.

Section create_reads.
Context (m : memory) (kroot pml4 pdpt : Z).
Hypothesis Hk : frame_addr kroot.
Hypothesis Hl : frame_addr pml4.
Hypothesis Ht : frame_addr pdpt.
Hypothesis Hkl : kroot <> pml4.
Hypothesis Hkt : kroot <> pdpt.
Hypothesis Hlt : pml4 <> pdpt.
(** The kernel's own first-gigabyte table, when there is one. *)
Let k0 := mread m (kroot + 8 * 0).
Let kpdpt := Z.land k0 VMM_ADDR_MASK.
Hypothesis Hkp : Z.testbit k0 0 = true -> frame_addr kpdpt /\ kpdpt <> pml4 /\ kpdpt <> pdpt.

Lemma create_k0 : mread (zero_page (zero_page m pml4) pdpt) (kroot + 8 * 0) = k0.
Proof using All. by rewrite !zero_page_read, !decide_False by done. Qed.

Lemma create_reads :
  (forall q i, frame_addr q -> 0 <= i < 512 -> q <> pml4 -> q <> pdpt ->
     mread (create_mem m kroot pml4 pdpt) (q + 8 * i) = mread m (q + 8 * i)) /\
  (forall i, 0 <= i < 512 -> mread (create_mem m kroot pml4 pdpt) (pdpt + 8 * i) =
     if decide (i = 0 /\ Z.testbit k0 0 = true) then mread m (kpdpt + 8 * 0) else 0) /\
  (forall i, 0 <= i < 512 -> mread (create_mem m kroot pml4 pdpt) (pml4 + 8 * i) =
     if decide (256 <= i) then mread m (kroot + 8 * i)
     else if decide (i = 0) then Z.lor (Z.lor (Z.lor pdpt VMM_PRESENT) VMM_WRITE) VMM_USER else 0).
Proof using All.
  unfold create_mem, copy_slots. cbv zeta. rewrite create_k0. change 1 with VMM_PRESENT. rewrite test_present.
  set (m1 := if Z.testbit k0 0 then _ else _).
  assert (H1 : forall q i, frame_addr q -> 0 <= i < 512 -> mread m1 (q + 8 * i) =
    if decide (q = pdpt) then if decide (i = 0 /\ Z.testbit k0 0 = true) then mread m (kpdpt + 8 * 0) else 0
    else if decide (q = pml4) then 0 else mread m (q + 8 * i)).
  { intros q i Hq Hi. unfold m1. destruct (Z.testbit k0 0) eqn:E.
    - fold kpdpt. destruct (Hkp eq_refl) as (Hf & Hne1 & Hne2).
      rewrite slot_write_read, !zero_page_read, !(decide_False (P := kpdpt = _)) by (done || lia).
      destruct (decide (q = pdpt)) as [->|]; [|by rewrite decide_False by naive_solver].
      destruct (decide (i = 0)); [by rewrite !decide_True by done|by rewrite !decide_False by naive_solver].
    - rewrite !zero_page_read by done. case_decide; [|done]. by rewrite decide_False by naive_solver. }
  set (m2 := mwrite m1 (pml4 + 8 * 0) _).
  destruct (copy_read m2 kroot pml4 (seqZ 256 256)) as [C1 C2]; try done.
  { apply List.Forall_forall. intros i Hi%list_elem_of_In%elem_of_seqZ. lia. }
  split_and!.
  - intros q i Hq Hi Hn1 Hn2. rewrite C1 by done. unfold m2.
    rewrite slot_write_read, decide_False by (done || lia || naive_solver). by rewrite H1, !decide_False.
  - intros i Hi. rewrite C1 by done. unfold m2. rewrite slot_write_read, decide_False by (done || lia || naive_solver).
    by rewrite H1, decide_True.
  - intros i Hi. rewrite C2 by done. unfold m2.
    destruct (decide (256 <= i)) as [Hge|Hlt'].
    + rewrite decide_True by (apply elem_of_seqZ; lia).
      rewrite slot_write_read, decide_False by (done || lia || naive_solver). by rewrite H1, !decide_False.
    + rewrite decide_False by (rewrite elem_of_seqZ; lia). rewrite slot_write_read by (done || lia).
      destruct (decide (i = 0)) as [->|]; [by rewrite decide_True|]. rewrite decide_False by naive_solver.
      by rewrite H1, decide_False, decide_True.
Qed.
End create_reads.

(** ** The tree of a new address space *)
Definition kernel_pathb (p : list Z) : bool :=
  match p with i :: rest => (256 <=? i) || (i =? 0) && match rest with j :: _ => j =? 0 | [] => false end | [] => false end.

Lemma kernel_pathb_spec p : kernel_pathb p = true <-> kernel_path p.
Proof.
  destruct p as [|i [|j rest]]; simpl; [done|..].
  - rewrite andb_false_r, orb_false_r, Z.leb_le. split; [by left|]. by intros [?|(_ & q & ?)].
  - rewrite orb_true_iff, andb_true_iff, Z.leb_le, !Z.eqb_eq. split.
    + intros [?|[-> ->]]; [by left|right]. split; [done|]. by eexists.
    + intros [?|(-> & q & [= -> _])]; [by left|by right].
Qed.

Lemma kernel_path_app p i : kernel_path p -> kernel_path (p ++ [i]).
Proof.
  destruct p as [|j p]; simpl; [done|]. intros [?|(-> & q & ->)]; [by left|right]. split; [done|]. by eexists.
Qed.

Definition kernel_part (own : gmap Z (list Z)) : gmap Z (list Z) := filter (fun tp => kernel_pathb tp.2 = true) own.
Definition create_own (own : gmap Z (list Z)) (pml4 pdpt : Z) : gmap Z (list Z) :=
  <[pml4 := []]> (<[pdpt := [0]]> (kernel_part own)).

Lemma kernel_part_lookup own t p : kernel_part own !! t = Some p <-> own !! t = Some p /\ kernel_path p.
Proof. unfold kernel_part. by rewrite map_lookup_filter_Some, kernel_pathb_spec. Qed.

Section create_tree.
Context (m : memory) (kroot pml4 pdpt : Z) (own : gmap Z (list Z)).
Hypothesis T : tree m kroot own.
Hypothesis Hl : frame_addr pml4.
Hypothesis Ht : frame_addr pdpt.
Hypothesis Hlt : pml4 <> pdpt.
Hypothesis Hlo : own !! pml4 = None.
Hypothesis Hto : own !! pdpt = None.
Let k0 := mread m (kroot + 8 * 0).
Let kpdpt := Z.land k0 VMM_ADDR_MASK.
Let m' := create_mem m kroot pml4 pdpt.
Let own2 := create_own own pml4 pdpt.

Lemma owned_ne t p : own !! t = Some p -> frame_addr t /\ t <> pml4 /\ t <> pdpt.
Proof using All. intros H. split; [by eapply tree_frame|]. split; intros ->; congruence. Qed.

Lemma kpdpt_own : Z.testbit k0 0 = true -> own !! kpdpt = Some [0].
Proof using All. intros E. apply (tree_child _ _ _ T kroot [] 0); [apply T|simpl; lia|lia|done|done]. Qed.

Lemma create_reads' :
  (forall q i, frame_addr q -> 0 <= i < 512 -> q <> pml4 -> q <> pdpt -> mread m' (q + 8 * i) = mread m (q + 8 * i)) /\
  (forall i, 0 <= i < 512 -> mread m' (pdpt + 8 * i) =
     if decide (i = 0 /\ Z.testbit k0 0 = true) then mread m (kpdpt + 8 * 0) else 0) /\
  (forall i, 0 <= i < 512 -> mread m' (pml4 + 8 * i) =
     if decide (256 <= i) then mread m (kroot + 8 * i)
     else if decide (i = 0) then Z.lor (Z.lor (Z.lor pdpt VMM_PRESENT) VMM_WRITE) VMM_USER else 0).
Proof using All.
  destruct (owned_ne kroot [] (tree_root _ _ _ T)) as (? & ? & ?).
  apply create_reads; try done. intros E. by apply (owned_ne _ [0]), kpdpt_own.
Qed.

Lemma own_read t p i : own !! t = Some p -> 0 <= i < 512 -> mread m' (t + 8 * i) = mread m (t + 8 * i).
Proof using All. intros H Hi. destruct (owned_ne t p H) as (? & ? & ?). by apply create_reads'. Qed.

Lemma own2_kernel t p : own !! t = Some p -> kernel_path p -> own2 !! t = Some p.
Proof using All.
  intros H Hp. destruct (owned_ne t p H) as (_ & ? & ?). unfold own2, create_own.
  rewrite !lookup_insert_ne by done. by apply kernel_part_lookup.
Qed.

Lemma own2_pdpt : own2 !! pdpt = Some [0].
Proof using All. unfold own2, create_own. by rewrite lookup_insert_ne, lookup_insert_eq. Qed.

Lemma own2_inv t p : own2 !! t = Some p ->
  t = pml4 /\ p = [] \/ t = pdpt /\ p = [0] \/ own !! t = Some p /\ kernel_path p.
Proof using.
  unfold own2, create_own. intros [[<- <-]|[_ H]]%lookup_insert_Some; [by left|right].
  apply lookup_insert_Some in H as [[<- <-]|[_ H]]; [by left|right]. by apply kernel_part_lookup.
Qed.

Lemma pml4_0_bits : let e := Z.lor (Z.lor (Z.lor pdpt VMM_PRESENT) VMM_WRITE) VMM_USER in
  Z.testbit e 0 = true /\ Z.testbit e 7 = false /\ Z.land e VMM_ADDR_MASK = pdpt.
Proof using Ht. apply (table_entry_bits pdpt VMM_USER Ht). Qed.

Lemma create_tree_child t p i : own2 !! t = Some p -> (length p < 3)%nat -> 0 <= i < 512 ->
  let e := mread m' (t + 8 * i) in
  Z.testbit e 0 = true -> huge (length p) e = false -> own2 !! Z.land e VMM_ADDR_MASK = Some (p ++ [i]).
Proof using All.
  intros H Hp Hi e E0 E7. destruct create_reads' as (_ & Rt & Rl).
  destruct (own2_inv t p H) as [[-> ->]|[[-> ->]|[Ho Hk]]]; unfold e in *; clear e.
  - rewrite Rl in * by done. destruct (decide (256 <= i)).
    + apply own2_kernel; [|by left]. by apply (tree_child _ _ _ T kroot []); [apply T|..].
    + destruct (decide (i = 0)) as [->|]; [|done].
      destruct pml4_0_bits as (_ & _ & ->). apply own2_pdpt.
  - rewrite Rt in * by done. case_decide as Hd; [|done]. destruct Hd as [-> Ek].
    apply own2_kernel; [|right; split; [done|by exists []]].
    by apply (tree_child _ _ _ T kpdpt [0]); [apply kpdpt_own|..].
  - rewrite (own_read t p i) in * by done. apply own2_kernel; [|by apply kernel_path_app]. by apply T.
Qed.

Lemma create_tree_linked t p : own2 !! t = Some p -> t = pml4 /\ p = [] \/
  exists t' q i, p = q ++ [i] /\ 0 <= i < 512 /\ own2 !! t' = Some q /\ leads m' (length q) t' i t.
Proof using All.
  intros H. destruct create_reads' as (_ & Rt & Rl).
  destruct (own2_inv t p H) as [[-> ->]|[[-> ->]|[Ho Hk]]]; [by left|right..].
  - exists pml4, [], 0. split_and!; try done; [apply lookup_insert_eq|].
    unfold leads. rewrite Rl, decide_False, decide_True by lia. destruct pml4_0_bits as (-> & ? & ->). done.
  - destruct (tree_linked _ _ _ T t p Ho) as [[-> ->]|(t' & q & i & -> & Hi & Hq & L)]; [done|].
    destruct (decide (kernel_pathb q = true)) as [Hkq%kernel_pathb_spec|Hnk].
    { exists t', q, i. split_and!; try done; try lia; [by apply own2_kernel|]. unfold leads. by rewrite (own_read t' q i). }
    destruct q as [|j q].
    + exists pml4, [], i. simpl in Hk. destruct Hk as [Hge|(_ & q & ?)]; [|done].
      destruct (tree_linked _ _ _ T t' [] Hq) as [[-> _]|(? & q & k & Hq' & _)]; [|by destruct q].
      split_and!; try done; try lia; [apply lookup_insert_eq|]. unfold leads. by rewrite Rl, decide_True.
    + rewrite kernel_pathb_spec in Hnk. simpl in Hk, Hnk.
      destruct Hk as [?|(-> & q' & Hq')]; [by destruct Hnk; left|].
      destruct q as [|j' q]; [|simpl in Hq'; injection Hq' as -> _; destruct Hnk; right; split; [done|by eexists]].
      simpl in Hq'. injection Hq' as -> _.
      destruct (tree_linked _ _ _ T t' [0] Hq) as [[_ ?]|(t2 & q & k & Hq2 & Hk' & Ht2 & L2)]; [done|].
      destruct q as [|? [|]]; try done. injection Hq2 as <-.
      destruct (tree_linked _ _ _ T t2 [] Ht2) as [[-> _]|(? & q & k & Hq' & _)]; [|by destruct q].
      destruct L2 as (L20 & _ & L2M). exists pdpt, [0], 0. split_and!; try done; [apply own2_pdpt|].
      unfold leads. rewrite Rt, decide_True by done. unfold kpdpt, k0. rewrite L2M. apply L.
Qed.

Lemma create_tree : tree m' pml4 own2.
Proof using All.
  split; [apply lookup_insert_eq| |apply create_tree_child|apply create_tree_linked].
  intros t p H. destruct (own2_inv t p H) as [[-> ->]|[[-> ->]|[Ho _]]]; [split; [done|simpl; lia]..|by apply T].
Qed.

(** What the new space shows. *)
Lemma create_kernel_view v : kernel_addr v -> rview m' 0 pml4 (vpath v) = rview m' 0 kroot (vpath v).
Proof using All.
  intros Hv. destruct create_reads' as (_ & _ & Rl).
  destruct (vpath_head v) as (i0 & i1 & rest & -> & -> & _). pose proof (kernel_index v Hv) as Hi.
  cbn [rview]. by rewrite Rl, decide_True, (own_read kroot []) by (apply T || lia).
Qed.

Lemma create_pml4_0 i rest : rview m' 0 pml4 (0 :: i :: rest) = rview m' 1 pdpt (i :: rest).
Proof using All.
  destruct create_reads' as (_ & _ & Rl). apply leads_view. unfold leads.
  rewrite Rl, decide_False, decide_True by lia. destruct pml4_0_bits as (-> & ? & ->). done.
Qed.

Lemma create_low_view v : 0 <= v < 2 ^ 30 -> rview m' 0 pml4 (vpath v) = rview m' 0 kroot (vpath v).
Proof using All.
  intros Hv. destruct create_reads' as (_ & Rt & _).
  destruct (vpath_head v) as (i0 & i1 & rest & -> & -> & -> & Hlen).
  assert ((v / 2 ^ 39) mod 512 = 0) as -> by (Z.to_euclidean_division_equations; lia).
  assert ((v / 2 ^ 30) mod 512 = 0) as -> by (Z.to_euclidean_division_equations; lia).
  rewrite create_pml4_0. destruct rest as [|j rest]; [done|]. cbn [rview].
  rewrite Rt, (own_read kroot [] 0) by (apply T || lia). fold k0. change (huge 0 k0) with false. fold kpdpt.
  destruct (Z.testbit k0 0) eqn:E; [|by rewrite decide_False by (by intros [_ ?])].
  rewrite decide_True by done. by rewrite (own_read kpdpt [0] 0) by (lia || by apply kpdpt_own).
Qed.

Lemma create_user_view v : user_addr v -> rview m' 0 pml4 (vpath v) = VNone.
Proof using All.
  unfold user_addr. intros Hv. destruct create_reads' as (_ & Rt & Rl).
  destruct (vpath_head v) as (i0 & i1 & rest & -> & Hi0 & Hi1 & Hlen).
  destruct (Z.eq_dec i0 0) as [Hz|Hz].
  - rewrite Hz, create_pml4_0. destruct rest as [|j rest]; [done|]. cbn [rview].
    rewrite Rt, decide_False; [by rewrite Z.bits_0|..]; clear Rt Rl T; Z.to_euclidean_division_equations; lia.
  - cbn [rview]. rewrite Rl, decide_False, decide_False; [by rewrite Z.bits_0|..];
      clear Rt Rl T; Z.to_euclidean_division_equations; lia.
Qed.
End create_tree.

#[local] Opaque copy_slots.

Lemma process_pml4_create_eq {A} `{!FrameOps A} (s : vst A) kroot :
  process_pml4_create s kroot =
  let '(pml4, pm) := fa_alloc (vpm s) in
  if pml4 =? 0 then (Vst (vmem s) pm, 0) else
  let '(pdpt, pm) := fa_alloc pm in
  if pdpt =? 0 then (Vst (zero_page (vmem s) pml4) (fa_free pm pml4), 0)
  else (Vst (create_mem (vmem s) kroot pml4 pdpt) pm, pml4).
Proof.
  unfold process_pml4_create, create_mem. destruct (fa_alloc (vpm s)) as [pml4 pm1].
  destruct (pml4 =? 0); [reflexivity|]. cbv zeta. destruct (fa_alloc pm1) as [pdpt pm2]. by destruct (pdpt =? 0).
Qed.

#[local] Opaque create_mem.

Section create_spec.
Context {A : Type} `{!FrameOps A, !FrameLaws A}.
Implicit Types (s : vst A) (own : gmap Z (list Z)).

Lemma process_pml4_create_spec s kroot own s' r :
  vtree s kroot own -> process_pml4_create s kroot = (s', r) ->
  vtree s' kroot own /\ same_view (vmem s) (vmem s') kroot /\
  (r = 0 /\ (forall q, frame_addr q -> fa_taken (vpm s') q = fa_taken (vpm s) q)
   \/ r <> 0 /\ exists pdpt, frame_addr r /\ frame_addr pdpt /\ r <> pdpt /\ own !! r = None /\ own !! pdpt = None /\
        fa_taken (vpm s) r = false /\ fa_taken (vpm s) pdpt = false /\
        vmem s' = create_mem (vmem s) kroot r pdpt /\ vtree s' r (create_own own r pdpt) /\
        (forall q, frame_addr q -> fa_taken (vpm s') q = (pdpt =? q) || ((r =? q) || fa_taken (vpm s) q))).
Proof using FrameLaws0.
  intros V. pose proof (vt_tree _ _ _ V) as T. rewrite process_pml4_create_eq.
  assert (Hnew : forall q, fa_taken (vpm s) q = false -> own !! q = None).
  { intros q Hq. destruct (own !! q) eqn:E; [|done]. by rewrite (vt_taken _ _ _ V q _ E) in Hq. }
  pose proof (fa_alloc_ok _ (vt_pm _ _ _ V)) as H1. pose proof (fa_alloc_fail _ (vt_pm _ _ _ V)) as F1.
  destruct (fa_alloc (vpm s)) as [pml4 pm1]. cbn [fst snd] in H1, F1.
  destruct (Z.eqb_spec pml4 0) as [->|Hz1].
  { intros [= <- <-]. rewrite (F1 eq_refl). split_and!; [by destruct s|done|by left]. }
  destruct (H1 Hz1) as (Hl & Hl0 & W1 & _ & T1). clear H1 F1.
  pose proof (fa_alloc_ok _ W1) as H2. pose proof (fa_alloc_fail _ W1) as F2.
  destruct (fa_alloc pm1) as [pdpt pm2]. cbn [fst snd] in H2, F2.
  destruct (Z.eqb_spec pdpt 0) as [->|Hz2].
  - intros [= <- <-]. rewrite (F2 eq_refl). clear H2 F2.
    destruct (fa_free_ok pm1 pml4 W1 Hl) as [Wf Tf]; [by rewrite T1, Z.eqb_refl|].
    destruct (zero_page_tree s kroot own pml4 V Hl (Hnew _ Hl0)) as [V' Hv].
    assert (Htk : forall q, frame_addr q -> fa_taken (fa_free pm1 pml4) q = fa_taken (vpm s) q).
    { intros q Hq. rewrite Tf, T1 by done. destruct (Z.eqb_spec pml4 q) as [<-|]; [by rewrite Hl0|done]. }
    split_and!; [|done|by left]. split; [apply V'|done|]. cbn [vpm].
    intros t p Ht. rewrite Htk by (by eapply tree_frame). by eapply V.
  - destruct (H2 Hz2) as (Ht & Ht0 & W2 & _ & T2). clear H2 F2. rewrite T1 in Ht0 by done.
    apply orb_false_iff in Ht0 as [Hne%Z.eqb_neq Ht0]. intros [= <- <-].
    pose proof (Hnew _ Hl0) as No1. pose proof (Hnew _ Ht0) as No2.
    assert (Htk : forall q, frame_addr q -> fa_taken pm2 q = (pdpt =? q) || ((pml4 =? q) || fa_taken (vpm s) q))
      by (intros; by rewrite T2, T1).
    destruct (tree_ext (vmem s) (create_mem (vmem s) kroot pml4 pdpt) kroot own T) as [T' Hv].
    { intros; by eapply own_read. }
    split_and!; [split; [done|done|]|done|right; split; [done|]].
    + intros t p Hp. cbn [vpm]. rewrite Htk by (by eapply tree_frame). by rewrite (vt_taken _ _ _ V t p Hp), !orb_true_r.
    + exists pdpt. split_and!; try done. assert (Tn : tree (create_mem (vmem s) kroot pml4 pdpt) pml4 (create_own own pml4 pdpt))
        by (apply create_tree; done).
      split; [done|done|]. cbn [vpm]. intros t p Hp. rewrite Htk by (by eapply tree_frame).
      apply own2_inv in Hp as [[-> _]|[[-> _]|[Hp _]]]; [by rewrite Z.eqb_refl, orb_true_r|by rewrite Z.eqb_refl|].
      by rewrite (vt_taken _ _ _ V t p Hp), !orb_true_r.
Qed.
End create_spec.

(** ** Teardown as a list of frames *)
Definition slot_leaf (m : memory) (pt k : Z) : list Z :=
  let pte := mread m (pt + 8 * k) in
  if Z.testbit pte 0 && negb (pte &? VMM_SHARED) then [Z.land pte VMM_ADDR_MASK] else [].

(** Frames released below entry [i] of a table at depth [3 - d], and below the
    entries of a table from [start] on. *)
Fixpoint slot_frees (d : nat) (m : memory) (t i : Z) : list Z :=
  match d with
  | O => slot_leaf m t i
  | S d' =>
      let e := mread m (t + 8 * i) in
      if Z.testbit e 0 && negb (huge (3 - d) e)
      then concat (map (slot_frees d' m (Z.land e VMM_ADDR_MASK)) (seqZ 0 512)) ++ [Z.land e VMM_ADDR_MASK]
      else []
  end.
Definition sub_frees (d : nat) (m : memory) (t start : Z) : list Z :=
  concat (map (slot_frees d m t) (seqZ start (512 - start))).

Definition low_start (m : memory) (pml4 : Z) : Z :=
  if Z.testbit (mread m (pml4 + 8 * 0)) 10 then 0 else 1.
Definition user_frees (m : memory) (pml4 : Z) : list Z :=
  let e := mread m (pml4 + 8 * 0) in
  (if Z.testbit e 0 then sub_frees 2 m (Z.land e VMM_ADDR_MASK) (low_start m pml4) ++ [Z.land e VMM_ADDR_MASK] else [])
  ++ concat (map (slot_frees 3 m pml4) (seqZ 1 255)) ++ [pml4].

#[local] Opaque seqZ.

Section free_list.
Context {A : Type} `{!FrameOps A}.

Lemma foldl_frees {B} (f : A -> B -> A) (g : B -> list Z) l pm :
  (forall pm x, f pm x = foldl fa_free pm (g x)) -> foldl f pm l = foldl fa_free pm (concat (map g l)).
Proof.
  intros H. revert pm. induction l as [|x l IH]; intros pm; simpl; [done|]. by rewrite foldl_app, <-H.
Qed.

Lemma free_pt_list m pt pm : free_pt m pt pm = foldl fa_free pm (sub_frees 0 m pt 0).
Proof.
  apply foldl_frees. intros pm' k. cbn [slot_frees]. unfold slot_leaf. rewrite test_present.
  destruct (Z.testbit _ 0); [|reflexivity]. simpl. by destruct (_ &? VMM_SHARED).
Qed.

Lemma free_pd_list m pd pm : free_pd m pd pm = foldl fa_free pm (sub_frees 1 m pd 0).
Proof.
  apply foldl_frees. intros pm' k. cbn [slot_frees]. unfold huge. rewrite test_present, test_ps. simpl.
  destruct (Z.testbit _ 0); [|reflexivity]. simpl. destruct (Z.testbit _ 7); [reflexivity|]. simpl.
  by rewrite free_pt_list, foldl_app.
Qed.

Lemma free_pdpt_list m pdpt start pm :
  free_pdpt_subtree m pdpt start pm = foldl fa_free pm (sub_frees 2 m pdpt start ++ [pdpt]).
Proof.
  unfold free_pdpt_subtree. rewrite foldl_app. simpl. f_equal.
  apply foldl_frees. intros pm' k. cbn [slot_frees]. unfold huge. rewrite test_present, test_ps. simpl.
  destruct (Z.testbit _ 0); [|reflexivity]. simpl. destruct (Z.testbit _ 7); [reflexivity|]. simpl.
  by rewrite free_pd_list, foldl_app.
Qed.

Lemma free_user_list m pml4 pm : pml4 <> 0 -> free_user_pml4 m pml4 pm = foldl fa_free pm (user_frees m pml4).
Proof.
  intros Hz. unfold free_user_pml4, user_frees, low_start. rewrite (proj2 (Z.eqb_neq _ _) Hz), !foldl_app, test_present.
  assert ((mread m (pml4 + 8 * 0) &? PML4_PRIVATE_LOW) = Z.testbit (mread m (pml4 + 8 * 0)) 10) as ->
    by (by apply land_bit_test).
  cbn [foldl]. f_equal. rewrite (foldl_frees _ (slot_frees 3 m pml4)).
  - f_equal. destruct (Z.testbit _ 0); [apply free_pdpt_list|reflexivity].
  - intros pm' p. cbn [slot_frees]. unfold huge. simpl. rewrite test_present.
    destruct (Z.testbit _ 0); [|reflexivity]. simpl. apply free_pdpt_list.
Qed.
End free_list.

(** ** Who holds which frame *)
Section holders.
Context (m : memory) (root : Z) (own : gmap Z (list Z)).
Hypothesis T : tree m root own.

Definition in_range (path : list Z) : Prop := Forall (fun i => 0 <= i < 512) path.
(** Frame [q] is mapped, and not borrowed, at [path]. *)
Definition leaf_at (q : Z) (path : list Z) : Prop :=
  length path = 4%nat /\ in_range path /\
  exists e, rview m 0 root path = VLeaf e /\ (e &? VMM_SHARED) = false /\ Z.land e VMM_ADDR_MASK = q.
Definition holds (q : Z) (path : list Z) : Prop := own !! q = Some path \/ leaf_at q path.

Lemma tree_parent t p i : own !! t = Some (p ++ [i]) ->
  0 <= i < 512 /\ exists t', own !! t' = Some p /\ leads m (length p) t' i t.
Proof using T.
  intros H. destruct (tree_linked _ _ _ T t _ H) as [[_ He]|(t' & q & j & He & Hj & Ht' & L)]; [by destruct p|].
  apply app_inj_tail in He as [<- <-]. split; [done|by exists t'].
Qed.

Lemma path_inj p t t' : own !! t = Some p -> own !! t' = Some p -> t = t'.
Proof using T.
  revert t t'. induction p as [|i p IH] using rev_ind; intros t t' H H'.
  - assert (Hr : forall u, own !! u = Some [] -> u = root).
    { intros u Hu. destruct (tree_linked _ _ _ T u [] Hu) as [[? _]|(? & q & ? & He & _)]; [done|by destruct q]. }
    by rewrite (Hr t), (Hr t').
  - destruct (tree_parent _ _ _ H) as (_ & u & Hu & (_ & _ & <-)).
    destruct (tree_parent _ _ _ H') as (_ & u' & Hu' & (_ & _ & <-)). by rewrite (IH u u').
Qed.

Lemma path_range t p : own !! t = Some p -> in_range p.
Proof using T.
  revert t. induction p as [|i p IH] using rev_ind; intros t H; [constructor|].
  destruct (tree_parent _ _ _ H) as (Hi & u & Hu & _). apply Forall_app. split; [by eapply IH|by apply Forall_singleton].
Qed.

Lemma path_prefix t p r : own !! t = Some (p ++ r) -> exists u, own !! u = Some p.
Proof using T.
  revert t. induction r as [|i r IH] using rev_ind; intros t H; [rewrite app_nil_r in H; by exists t|].
  rewrite app_assoc in H. destruct (tree_parent _ _ _ H) as (_ & u & Hu & _). by eapply IH.
Qed.

Lemma view_split t p i rest : own !! t = Some p -> rview m 0 root (p ++ i :: rest) = rview m (length p) t (i :: rest).
Proof using T.
  revert t i rest. induction p as [|j p IH] using rev_ind; intros t i rest H.
  - destruct (tree_linked _ _ _ T t [] H) as [[-> _]|(? & q & ? & He & _)]; [done|by destruct q].
  - destruct (tree_parent _ _ _ H) as (_ & u & Hu & L). rewrite <-app_assoc. cbn [app].
    rewrite (IH u j (i :: rest) Hu), (leads_view _ _ _ _ t) by done. by rewrite length_app, Nat.add_comm.
Qed.

(** The frames below one slot. *)
Lemma slot_frees_elem d t p i q : own !! t = Some p -> (length p + d = 3)%nat -> 0 <= i < 512 ->
  q ∈ slot_frees d m t i <-> exists rest, holds q (p ++ i :: rest).
Proof using T.
  revert t p i. induction d as [|d IH]; intros t p i Ht Hd Hi; cbn [slot_frees].
  - unfold slot_leaf. assert (Hv := view_split t p i [] Ht). cbn [rview] in Hv. unfold leaf_view in Hv. split.
    + destruct (Z.testbit (mread m (t + 8 * i)) 0) eqn:E; simpl; [|intros H; by apply not_elem_of_nil in H].
      destruct (_ &? VMM_SHARED) eqn:Es; simpl; [intros H; by apply not_elem_of_nil in H|].
      intros ->%list_elem_of_singleton. exists []. right. split; [rewrite length_app; simpl; lia|]. split.
      * apply Forall_app. split; [by eapply path_range|by apply Forall_singleton].
      * by eexists.
    + intros (rest & [Ho|(Hl & Hr & e & Hve & Hs & <-)]).
      { destruct (tree_frame _ _ _ T q _ Ho) as [_ Hl]. rewrite length_app in Hl. simpl in Hl. lia. }
      rewrite length_app in Hl. simpl in Hl. destruct rest; [|simpl in Hl; lia]. rewrite Hve in Hv.
      destruct (Z.testbit (mread m (t + 8 * i)) 0); [|done]. injection Hv as ->. rewrite Hs. by apply list_elem_of_singleton.
  - set (e := mread m (t + 8 * i)). replace (3 - S d)%nat with (length p) by lia.
    destruct (Z.testbit e 0 && negb (huge (length p) e)) eqn:E.
    + apply andb_true_iff in E as [E0 E7%negb_true_iff]. set (c := Z.land e VMM_ADDR_MASK).
      assert (Hc : own !! c = Some (p ++ [i])) by (apply T; try done; lia).
      rewrite elem_of_app, elem_of_concat_map, list_elem_of_singleton. split.
      * intros [(j & Hj%elem_of_seqZ & Hq)| ->]; [|exists []; by left].
        apply (IH c (p ++ [i])) in Hq as (rest & Hq); [|done|rewrite length_app; simpl; lia|lia].
        exists (j :: rest). by rewrite <-app_assoc in Hq.
      * intros (rest & Hh). destruct rest as [|j rest].
        { right. destruct Hh as [Ho|(Hl & _)]; [by eapply path_inj|]. rewrite length_app in Hl. simpl in Hl. lia. }
        left. assert (Hj : 0 <= j < 512).
        { assert (in_range (p ++ i :: j :: rest)) as Hr by (destruct Hh as [Ho|(_ & Hr & _)]; [by eapply path_range|done]).
          apply Forall_app in Hr as [_ Hr]. apply Forall_cons_1 in Hr as [_ Hr]. by apply Forall_cons_1 in Hr as [? _]. }
        exists j. split; [apply elem_of_seqZ; lia|].
        apply (IH c (p ++ [i])); [done|rewrite length_app; simpl; lia|done|]. exists rest. by rewrite <-app_assoc.
    + split; [intros H; by apply not_elem_of_nil in H|]. intros (rest & Hh). exfalso.
      destruct Hh as [Ho|(Hl & _ & e' & Hv & _)].
      * replace (p ++ i :: rest) with ((p ++ [i]) ++ rest) in Ho by (by rewrite <-app_assoc).
        destruct (path_prefix _ _ _ Ho) as (c & Hc). destruct (tree_parent _ _ _ Hc) as (_ & u & Hu & (L0 & L7 & _)).
        rewrite (path_inj p u t Hu Ht) in L0, L7. fold e in L0, L7. by rewrite L0, L7 in E.
      * rewrite length_app in Hl. simpl in Hl. destruct rest as [|j rest]; [simpl in Hl; lia|].
        rewrite (view_split t p i (j :: rest) Ht) in Hv. cbn [rview] in Hv. fold e in Hv.
        destruct (Z.testbit e 0); [|done]. cbn [negb andb] in *. by destruct (huge (length p) e).
Qed.

Lemma slots_elem d t p start q : own !! t = Some p -> (length p + d = 3)%nat -> 0 <= start ->
  q ∈ sub_frees d m t start <-> exists j rest, start <= j /\ holds q (p ++ j :: rest).
Proof using T.
  intros Ht Hd Hs. unfold sub_frees. rewrite elem_of_concat_map. split.
  - intros (j & Hj%elem_of_seqZ & Hq). apply (slot_frees_elem d t p j q Ht Hd) in Hq as (rest & Hq); [|lia].
    exists j, rest. split; [lia|done].
  - intros (j & rest & Hj & Hq). assert (0 <= j < 512).
    { assert (in_range (p ++ j :: rest)) as Hr by (destruct Hq as [Ho|(_ & Hr & _)]; [by eapply path_range|done]).
      apply Forall_app in Hr as [_ Hr]. by apply Forall_cons_1 in Hr as [? _]. }
    exists j. split; [apply elem_of_seqZ; lia|]. apply (slot_frees_elem d t p j q Ht Hd); [done|by exists rest].
Qed.

(** No frame of the paths in [P] is held at two of them. *)
Definition held_once (P : list Z -> Prop) : Prop :=
  forall q p1 p2, holds q p1 -> holds q p2 -> P p1 -> P p2 -> p1 = p2.

Lemma slots_nodup P d t p l : held_once P -> own !! t = Some p -> (length p + d = 3)%nat ->
  NoDup l -> Forall (fun i => 0 <= i < 512) l -> (forall i rest, i ∈ l -> P (p ++ i :: rest)) ->
  NoDup (concat (map (slot_frees d m t) l)).
Proof using T.
  intros HP. revert t p l. induction d as [|d IH]; intros t p l Ht Hd Hl Hr HPl;
    (apply NoDup_concat_map; [done| |]).
  1: { intros i _. cbn [slot_frees]. unfold slot_leaf. case_match; [apply NoDup_singleton|constructor]. }
  2: { intros i Hi. pose proof (proj1 (List.Forall_forall _ _) Hr i (proj1 (list_elem_of_In _ _) Hi)) as Hri. simpl in Hri.
    cbn [slot_frees]. set (e := mread m (t + 8 * i)). replace (3 - S d)%nat with (length p) by lia.
    destruct (Z.testbit e 0 && negb (huge (length p) e)) eqn:E; [|constructor].
    apply andb_true_iff in E as [E0 E7%negb_true_iff]. set (c := Z.land e VMM_ADDR_MASK).
    assert (Hc : own !! c = Some (p ++ [i])) by (apply T; try done; lia).
    assert (Hlc : (length (p ++ [i]) + d = 3)%nat) by (rewrite length_app; simpl; lia).
    apply list_relations.list.NoDup_app. split_and!; [|intros q (j & Hj%elem_of_seqZ & Hq)%elem_of_concat_map|apply NoDup_singleton].
    - apply (IH c (p ++ [i])); [done|done|apply NoDup_seqZ| |].
      + apply List.Forall_forall. intros j Hj%list_elem_of_In%elem_of_seqZ. lia.
      + intros j rest _. rewrite <-app_assoc. by apply HPl.
    - apply (slot_frees_elem d c (p ++ [i]) j q Hc Hlc) in Hq as (rest & Hq); [|lia]. rewrite list_elem_of_singleton. intros ->.
      assert (p ++ [i] = (p ++ [i]) ++ j :: rest) as He.
      { apply (HP c); [by left|done|by apply HPl|]. rewrite <-app_assoc. by apply HPl. }
      apply (f_equal length) in He. rewrite !length_app in He. simpl in He. lia. }
  all: intros i j q Hi Hj Hqi Hqj; rewrite List.Forall_forall in Hr.
  all: pose proof (Hr i (proj1 (list_elem_of_In _ _) Hi)) as Hri; pose proof (Hr j (proj1 (list_elem_of_In _ _) Hj)) as Hrj; simpl in Hri, Hrj.
  all: apply (slot_frees_elem _ t p) in Hqi as (r1 & H1), Hqj as (r2 & H2); try done.
  all: assert (p ++ i :: r1 = p ++ j :: r2) as He by (by apply (HP q); [..|apply HPl|apply HPl]).
  all: apply app_inv_head in He; by injection He.
Qed.

(** Paths of the process's own tables and pages. *)
Definition private (low : bool) (path : list Z) : Prop :=
  match path with
  | [] => True
  | i :: rest => i < 256 /\ ~ (low = false /\ i = 0 /\ exists r, rest = 0 :: r)
  end.
Definition private_low : bool := Z.testbit (mread m (root + 8 * 0)) 10.

Lemma low_private j rest : low_start m root <= j -> private private_low (0 :: j :: rest).
Proof using. unfold low_start, private_low. simpl. intros H. split; [lia|]. intros (Hl & _ & r & [= -> _]). rewrite Hl in H. lia. Qed.

Lemma private_low_inv j rest : 0 <= j -> private private_low (0 :: j :: rest) -> low_start m root <= j.
Proof using.
  unfold low_start, private_low. simpl. intros Hj [_ H]. destruct (Z.testbit _ 10); [done|].
  destruct (Z.eq_dec j 0) as [->|]; [|lia]. destruct H. split_and!; try done. by exists rest.
Qed.

Lemma low_start_range : 0 <= low_start m root <= 1.
Proof using. unfold low_start. case_match; lia. Qed.

(** The first slot is walked from [low_start] on. *)
Lemma slot0_elem q :
  let e := mread m (root + 8 * 0) in
  q ∈ (if Z.testbit e 0 then sub_frees 2 m (Z.land e VMM_ADDR_MASK) (low_start m root) ++ [Z.land e VMM_ADDR_MASK] else [])
  <-> exists rest, holds q (0 :: rest) /\ private private_low (0 :: rest).
Proof using T.
  intros e. pose proof low_start_range as Hls. destruct (Z.testbit e 0) eqn:E0.
  - set (c := Z.land e VMM_ADDR_MASK).
    assert (Hc : own !! c = Some [0]) by (apply (tree_child _ _ _ T root [] 0); [apply T|simpl; lia|lia|done|done]).
    rewrite elem_of_app, list_elem_of_singleton, (slots_elem 2 c [0]) by (done || lia). split.
    + intros [(j & rest & Hj & Hq)| ->].
      * exists (j :: rest). split; [done|by apply low_private].
      * exists []. split; [by left|]. split; [lia|]. by intros (_ & _ & r & ?).
    + intros ([|j rest] & Hq & Hp).
      * right. destruct Hq as [Ho|(Hl & _)]; [by eapply path_inj|done].
      * left. exists j, rest. split; [|done]. apply (private_low_inv j rest); [|done].
        assert (in_range (0 :: j :: rest)) as Hr by (destruct Hq as [Ho|(_ & Hr & _)]; [by eapply path_range|done]).
        apply Forall_cons_1 in Hr as [_ Hr]. by apply Forall_cons_1 in Hr as [[? _] _].
  - split; [intros H; by apply not_elem_of_nil in H|]. intros (rest & Hq & _).
    assert (H : q ∈ slot_frees 3 m root 0).
    { apply (slot_frees_elem 3 root [] 0); [apply T|done|lia|by exists rest]. }
    cbn [slot_frees] in H. fold e in H. rewrite E0 in H. by apply not_elem_of_nil in H.
Qed.

Lemma user_frees_elem q : q ∈ user_frees m root <-> exists path, holds q path /\ private private_low path.
Proof using T.
  unfold user_frees. rewrite !elem_of_app, slot0_elem, elem_of_concat_map, list_elem_of_singleton. split.
  - intros [(rest & Hq & Hp)|[(j & Hj%elem_of_seqZ & Hq)| ->]].
    + by exists (0 :: rest).
    + apply (slot_frees_elem 3 root []) in Hq as (rest & Hq); [|apply T|done|lia].
      exists (j :: rest). split; [done|]. split; [lia|]. intros (_ & -> & _). lia.
    + exists []. split; [left; apply T|done].
  - intros ([|j rest] & Hq & Hp).
    + right; right. destruct Hq as [Ho|(Hl & _)]; [eapply path_inj; [done|apply T]|done].
    + destruct (Z.eq_dec j 0) as [->|Hj]; [left; by exists rest|right; left].
      assert (in_range (j :: rest)) as Hr by (destruct Hq as [Ho|(_ & Hr & _)]; [by eapply path_range|done]).
      apply Forall_cons_1 in Hr as [? _]. destruct Hp as [Hp _]. exists j.
      split; [apply elem_of_seqZ; lia|]. apply (slot_frees_elem 3 root []); [apply T|done|lia|by exists rest].
Qed.

Lemma user_frees_nodup : held_once (private private_low) -> NoDup (user_frees m root).
Proof using T.
  intros HP. pose proof low_start_range as Hls. unfold user_frees. apply list_relations.list.NoDup_app. split_and!.
  - destruct (Z.testbit _ 0) eqn:E0; [|constructor]. set (c := Z.land _ VMM_ADDR_MASK).
    assert (Hc : own !! c = Some [0]) by (apply (tree_child _ _ _ T root [] 0); [apply T|simpl; lia|lia|done|done]).
    apply list_relations.list.NoDup_app. split_and!; [| |apply NoDup_singleton].
    + apply (slots_nodup (private private_low) 2 c [0]); [done|done|done|apply NoDup_seqZ| |].
      * apply List.Forall_forall. intros j Hj%list_elem_of_In%elem_of_seqZ. lia.
      * intros j rest Hj%elem_of_seqZ. apply low_private. lia.
    + intros q (j & rest & Hj & Hq)%(slots_elem 2 c [0]); [|done|done|lia]. rewrite list_elem_of_singleton. intros ->.
      assert (0 :: j :: rest = [0]) as He; [|done].
      apply (HP c); [done|by left|by apply low_private|]. split; [lia|]. by intros (_ & _ & r & ?).
  - intros q (rest & Hq & Hp)%slot0_elem. rewrite elem_of_app, elem_of_concat_map, list_elem_of_singleton.
    intros [(j & Hj%elem_of_seqZ & Hqj)| ->].
    + apply (slot_frees_elem 3 root []) in Hqj as (r2 & Hqj); [|apply T|done|lia].
      assert (0 :: rest = j :: r2) as [= ]; [|lia]. apply (HP q); try done. split; [lia|]. intros (_ & -> & _). lia.
    + assert (0 :: rest = []) as He; [|done]. apply (HP root); [done|left; apply T|done|done].
  - apply list_relations.list.NoDup_app. split_and!; [| |apply NoDup_singleton].
    + apply (slots_nodup (private private_low) 3 root []); [done|apply T|done|apply NoDup_seqZ| |].
      * apply List.Forall_forall. intros j Hj%list_elem_of_In%elem_of_seqZ. lia.
      * intros j rest Hj%elem_of_seqZ. split; [lia|]. intros (_ & -> & _). lia.
    + intros q (j & Hj%elem_of_seqZ & Hqj)%elem_of_concat_map. rewrite list_elem_of_singleton. intros ->.
      apply (slot_frees_elem 3 root []) in Hqj as (r2 & Hqj); [|apply T|done|lia].
      assert (j :: r2 = []) as He; [|done]. apply (HP root); [done|left; apply T| |done].
      split; [lia|]. intros (_ & -> & _). lia.
Qed.
End holders.

(** ** What teardown leaves *)
Section teardown.
Context {A : Type} `{!FrameOps A, !FrameLaws A}.
Implicit Types (s : vst A) (own : gmap Z (list Z)).

Lemma free_frames_list l pm : fa_wf pm -> NoDup l -> (forall q, q ∈ l -> frame_addr q /\ fa_taken pm q = true) ->
  fa_wf (foldl fa_free pm l) /\
  forall q, frame_addr q -> fa_taken (foldl fa_free pm l) q = fa_taken pm q && negb (bool_decide (q ∈ l)).
Proof using FrameLaws0.
  intros W Hnd. revert pm W. induction Hnd as [|p l Hp Hnd IH]; intros pm W Hl; cbn [foldl].
  { split; [done|]. intros q _. rewrite bool_decide_eq_false_2 by apply not_elem_of_nil. by rewrite andb_true_r. }
  destruct (Hl p) as [Hf Ht]; [left|]. destruct (fa_free_ok pm p W Hf Ht) as [W1 T1].
  destruct (IH _ W1) as [W2 T2].
  { intros q Hq. destruct (Hl q) as [Hfq Htq]; [by right|]. split; [done|]. rewrite T1, Htq by done.
    destruct (Z.eqb_spec p q); [congruence|done]. }
  split; [done|]. intros q Hq. rewrite T2, T1 by done.
  destruct (Z.eqb_spec p q) as [->|Hne]; simpl.
  - rewrite (bool_decide_eq_true_2 (q ∈ q :: l)) by left. by rewrite andb_false_r.
  - f_equal. f_equal. apply bool_decide_ext. rewrite elem_of_cons. naive_solver.
Qed.
End teardown.

(** Every path of four indices is the path of an address. *)
Lemma path_vpath path : length path = 4%nat -> in_range path -> exists v, 0 <= v < 2 ^ 48 /\ vpath v = path.
Proof.
  intros Hl Hr. destruct path as [|i0 [|i1 [|i2 [|i3 [|]]]]]; try done. unfold in_range in Hr.
  apply Forall_cons_1 in Hr as [R0 Hr]. apply Forall_cons_1 in Hr as [R1 Hr].
  apply Forall_cons_1 in Hr as [R2 Hr]. apply Forall_cons_1 in Hr as [R3 _].
  exists (i0 * 2 ^ 39 + i1 * 2 ^ 30 + i2 * 2 ^ 21 + i3 * 2 ^ 12). split; [lia|].
  unfold vpath. with_strategy transparent [va_split] unfold va_split. change 0x1FF with (Z.ones 9).
  rewrite !Z.land_ones, !Z.shiftr_div_pow2 by done.
  repeat f_equal; (match goal with |- ?a mod ?b = ?c => symmetry; apply (Z.mod_unique _ _ (a / b)) end; [lia|]); 
    Z.to_euclidean_division_equations; lia.
Qed.

(** ** Properties *)
Section properties.
Context {A : Type} `{!FrameOps A, !FrameLaws A}.
Implicit Types (s : vst A) (own : gmap Z (list Z)).

(** Frames mapped privately are taken, are no tables, and are mapped once. *)
Record leaves_ok s (root : Z) own : Prop := LeavesOk {
  lo_frame q path : leaf_at (vmem s) root q path -> private (private_low (vmem s) root) path ->
    frame_addr q /\ fa_taken (vpm s) q = true /\ own !! q = None;
  lo_once q p1 p2 : leaf_at (vmem s) root q p1 -> leaf_at (vmem s) root q p2 ->
    private (private_low (vmem s) root) p1 -> private (private_low (vmem s) root) p2 -> p1 = p2;
}.

Lemma leaves_held_once s root own : leaves_ok s root own ->
  held_once (vmem s) root own (private (private_low (vmem s) root)).
Proof.
  intros [Lf Lo] q p1 p2 [H1|H1] [H2|H2] P1 P2.
  - congruence.
  - destruct (Lf q p2 H2 P2) as (_ & _ & ?). congruence.
  - destruct (Lf q p1 H1 P1) as (_ & _ & ?). congruence.
  - by eapply Lo.
Qed.

(** A new address space. The kernel's tables and translations are
    untouched. On success the new top table was a free frame, it translates kernel
    addresses and the first gigabyte exactly as the kernel does, maps no private user
    address, and shares only kernel tables with the kernel. On failure no
    frame is lost. *)
Theorem process_pml4_create_correct s kroot own s' r :
  vtree s kroot own -> process_pml4_create s kroot = (s', r) ->
  vtree s' kroot own /\
  (forall v, vmm_translate_in (vmem s') kroot v = vmm_translate_in (vmem s) kroot v) /\
  (r = 0 /\ (forall q, frame_addr q -> fa_taken (vpm s') q = fa_taken (vpm s) q)
   \/ r <> 0 /\ fa_taken (vpm s) r = false /\ exists own2, vtree s' r own2 /\ share_kernel own2 own /\ share_kernel own own2 /\
      (forall v, kernel_addr v \/ 0 <= v < 2 ^ 30 -> vmm_translate_in (vmem s') r v = vmm_translate_in (vmem s') kroot v) /\
      (forall v, user_addr v -> vmm_entry_in (vmem s') r v = 0 /\ vmm_translate_in (vmem s') r v = 0)).
Proof using FrameLaws0.
  intros V Hc. destruct (process_pml4_create_spec s kroot own s' r V Hc) as (V' & Hv & Hr). split; [done|].
  split; [intros v; rewrite !vmm_translate_view, Hv by (apply vpath_length || apply vpath_range); done|].
  destruct Hr as [?|(Hz & pdpt & F1 & F2 & Hne & O1 & O2 & T1 & T2 & Hm & V2 & _)]; [by left|right].
  split_and!; [done|done|]. exists (create_own own r pdpt). split_and!; [done|..].
  - intros t p1 p2 [[-> _]|[[-> _]|[_ Hk]]]%own2_inv Ht; [congruence|congruence|done].
  - intros t p1 p2 Ht [[-> _]|[[-> _]|[Ho Hk]]]%own2_inv; [congruence|congruence|]. by simplify_eq.
  - intros v [Hk|Hl]; rewrite !vmm_translate_view, Hm.
    + by rewrite (create_kernel_view (vmem s) kroot r pdpt own (vt_tree _ _ _ V)).
    + by rewrite (create_low_view (vmem s) kroot r pdpt own (vt_tree _ _ _ V)).
  - intros v Hu. rewrite vmm_entry_view, vmm_translate_view, Hm.
    by rewrite (create_user_view (vmem s) kroot r pdpt own (vt_tree _ _ _ V)).
Qed.

End properties.

(** ** Examples *)
Lemma ex_empty_view path : length path = 4%nat -> rview ∅ 0 ex_root1 path = VNone.
Proof. intros H. destruct path as [|i0 [|i1 [|i2 [|i3 [|]]]]]; done. Qed.

Lemma ex_mapped_leaves : exists own, vtree ex_mapped ex_root1 own /\ leaves_ok ex_mapped ex_root1 own.
Proof.
  assert (Hq : frame_addr 0x123000) by (unfold frame_addr; by vm_compute).
  assert (Htq : fa_taken ex_pmm 0x123000 = true) by (vm_compute; reflexivity).
  unfold ex_mapped. destruct (vmm_map_in ex_vst ex_root1 0x40000000 0x123000 VMM_WRITE) as [s' r] eqn:E.
  destruct (vmm_map_in_spec _ _ _ _ _ _ _ _ (ex_vtree ex_root1 ltac:(left)) E)
    as (own' & V & Ho & Ht & _ & Hf & _ & _ & _ & Hr). cbn [fst].
  destruct Hr as [[_ Hv]|(-> & _)]; [clear E|apply (f_equal snd) in E; vm_compute in E; discriminate].
  assert (Hleaf : forall q path, leaf_at (vmem s') ex_root1 q path -> path = vpath 0x40000000 /\ q = 0x123000).
  { intros q path (Hl & Hin & e & Hve & _ & <-). destruct (path_vpath path Hl Hin) as (v & _ & <-).
    rewrite Hv in Hve. case_decide as Hd; [|by rewrite ex_empty_view in Hve]. split; [done|]. by injection Hve as <-. }
  exists own'. split; [done|]. split.
  - intros q path [_ ->]%Hleaf _. split; [exact Hq|]. split; [exact (Ht _ Hq Htq)|].
    destruct (own' !! 0x123000) as [p|] eqn:Eo; [exfalso|reflexivity].
    assert (Hno : ({[ex_root1 := []]} : gmap Z (list Z)) !! 0x123000 = None) by (apply lookup_singleton_ne; discriminate).
    pose proof (Hf _ _ Eo Hno) as Hfr. cbn [vpm ex_vst] in Hfr. rewrite Htq in Hfr. discriminate.
  - intros q p1 p2 [-> _]%Hleaf [-> _]%Hleaf _ _. done.
Qed.

Lemma process_pml4_create_correct_witness :
  let '(s', r) := process_pml4_create ex_vst ex_root1 in
  r = 0x104000 /\ vmm_translate_in (vmem s') r 0x40000000 = 0.
Proof.
  destruct (process_pml4_create ex_vst ex_root1) as [s' r] eqn:E.
  assert (Hr : r = 0x104000) by (change r with (snd (s', r)); rewrite <-E; vm_compute; reflexivity).
  split; [exact Hr|].
  destruct (process_pml4_create_correct ex_vst ex_root1 {[ ex_root1 := [] ]} s' r (ex_vtree ex_root1 ltac:(left)) E)
    as (_ & _ & [[Hz _]|(_ & _ & own2 & _ & _ & _ & _ & H)]).
  - rewrite Hr in Hz. discriminate.
  - apply (H 0x40000000). unfold user_addr. lia.
Defined.

