(* ===== verification/Uvm.v ===== *)
(** User address spaces, [kernel/memory/uvm.c].

    A [task_vm] holds a table of reservations (which ranges are legal, with
    what page flags), an arena for automatically placed ranges with a list of
    freed holes, and a page table.  The definitions take the structure a
    non-null [struct task_vm *] points to; the page table and the frame
    allocator are reached through [PagingOps] only. *)
From S2P Require Import Prelude.
From S2P Require Import Frames.
From S2P Require Import Vmm.
From S2P Require Import Paging.

(** ** Layout ([process.h], [uvm.h]) *)
Definition USER_VA_MIN : Z := 0x1000.
Definition USER_MMAP_BASE : Z := 0x70000000.
Definition USER_MMAP_LIMIT : Z := 0x80000000.
Definition USER_SHMEM_BASE : Z := 0x80000000.
Definition USER_VA_MAX : Z := 0x7F0000000000.
Definition USER_STACK_TOP : Z := 0x7FFFFFFFE000.
Definition USER_STACK_PAGES : Z := 512.
Definition USER_STACK_LOW : Z := USER_STACK_TOP - USER_STACK_PAGES * 4096.
Definition MAX_USER_VMAS : nat := 64.
Definition TASK_MMAP_HOLES : nat := 16.

(** ** State *)
Record vm_hole := Hole { h_base : Z; h_len : Z }.
Record user_vma := Vma { v_start : Z; v_end : Z; v_pte_flags : Z; v_used : bool }.
Record task_vm := TaskVm {
  user_pml4 : Z;
  shmem_next_va : Z;
  mmap_next_va : Z;
  mmap_holes : list vm_hole;
  vmas : list user_vma;
  shmem_shared_out : Z;
}.
Definition set_holes (vm : task_vm) (hs : list vm_hole) : task_vm :=
  TaskVm (user_pml4 vm) (shmem_next_va vm) (mmap_next_va vm) hs (vmas vm) (shmem_shared_out vm).
Definition set_vmas (vm : task_vm) (vs : list user_vma) : task_vm :=
  TaskVm (user_pml4 vm) (shmem_next_va vm) (mmap_next_va vm) (mmap_holes vm) vs (shmem_shared_out vm).
Definition set_mmap_next (vm : task_vm) (n : Z) : task_vm :=
  TaskVm (user_pml4 vm) (shmem_next_va vm) n (mmap_holes vm) (vmas vm) (shmem_shared_out vm).

Definition no_hole : vm_hole := Hole 0 0.
Definition no_vma : user_vma := Vma 0 0 0 false.

Definition uvm_init (vm : task_vm) : task_vm :=
  TaskVm (user_pml4 vm) USER_SHMEM_BASE USER_MMAP_BASE
    (replicate TASK_MMAP_HOLES no_hole) (replicate MAX_USER_VMAS no_vma) 0.

Definition uvm_range_ok (base bytes : Z) : bool :=
  if (bytes =? 0) || (base <? USER_VA_MIN) then false
  else if (base ⊕ bytes <? base) || (base ⊕ bytes >? USER_VA_MAX) then false
  else if (base <? USER_STACK_TOP) && (base ⊕ bytes >? USER_STACK_LOW) then false
  else true.

(** ** The reservation table *)
Definition vma_covers (a : Z) (v : user_vma) : bool := v_used v && (v_start v <=? a) && (a <? v_end v).
Definition vma_at (vm : task_vm) (address : Z) : option user_vma :=
  snd <$> list_find (fun v => vma_covers address v = true) (vmas vm).
Definition vma_free_slot (vs : list user_vma) : option nat :=
  fst <$> list_find (fun v => v_used v = false) vs.

(** [for (u64 off = 0; off < bytes; off += 4096)] *)
Definition page_offsets (bytes : Z) : list Z := map (fun k => 4096 * k) (seqZ 0 ((bytes + 4095) / 4096)).

(** *** Removing a range *)
Definition remove_step (start last : Z) (split : option nat) (vs : list user_vma) (i : nat) : list user_vma :=
  match vs !! i with
  | None => vs
  | Some v =>
      if negb (v_used v) || (start >=? v_end v) || (last <=? v_start v) then vs
      else if (start <=? v_start v) && (last >=? v_end v) then <[i := no_vma]> vs
      else if start <=? v_start v then <[i := Vma last (v_end v) (v_pte_flags v) true]> vs
      else if last >=? v_end v then <[i := Vma (v_start v) start (v_pte_flags v) true]> vs
      else
        let right := Vma last (v_end v) (v_pte_flags v) true in
        let vs := match split with Some k => <[k := right]> vs | None => vs end in
        <[i := Vma (v_start v) start (v_pte_flags v) true]> vs
  end.

Definition vma_strictly (start last : Z) (v : user_vma) : bool :=
  v_used v && (start >? v_start v) && (last <? v_end v).

Definition vma_remove_range (vm : task_vm) (start last : Z) : option task_vm :=
  let needs := existsb (vma_strictly start last) (vmas vm) in
  let split := vma_free_slot (vmas vm) in
  if needs && bool_decide (split = None) then None
  else Some (set_vmas vm (foldl (remove_step start last (if needs then split else None))
                            (vmas vm) (seq 0 MAX_USER_VMAS))).

(** ** The arena *)
Fixpoint hole_merge (fuel : nat) (hs : list vm_hole) (base last : Z) (i : nat) : list vm_hole * Z * Z :=
  match fuel with
  | O => (hs, base, last)
  | S fuel' =>
      match hs !! i with
      | None => (hs, base, last)
      | Some h =>
          if h_len h =? 0 then hole_merge fuel' hs base last (S i)
          else
            let hole_end := h_base h ⊕ h_len h in
            if (hole_end <? base) || (h_base h >? last) then hole_merge fuel' hs base last (S i)
            else
              let base := if h_base h <? base then h_base h else base in
              let last := if hole_end >? last then hole_end else last in
              hole_merge fuel' (<[i := no_hole]> hs) base last 0
      end
  end.

(** Each merge empties one hole and restarts the scan. *)
Definition hole_fuel : nat := (S TASK_MMAP_HOLES) * S TASK_MMAP_HOLES.

Definition hole_add (vm : task_vm) (base bytes : Z) : task_vm :=
  let '(hs, base, last) := hole_merge hole_fuel (mmap_holes vm) base (base ⊕ bytes) 0 in
  match list_find (fun h => h_len h = 0) hs with
  | Some (i, _) => set_holes vm (<[i := Hole base (last ⊖ base)]> hs)
  | None => set_holes vm hs
  end.

Definition arena_alloc (vm : task_vm) (bytes : Z) : task_vm * Z :=
  match list_find (fun h => (h_len h =? 0) || (h_len h <? bytes) = false) (mmap_holes vm) with
  | Some (i, h) => (set_holes vm (<[i := Hole (h_base h ⊕ bytes) (h_len h ⊖ bytes)]> (mmap_holes vm)), h_base h)
  | None =>
      let base := mmap_next_va vm in
      if (base ⊕ bytes <? base) || (base ⊕ bytes >? USER_MMAP_LIMIT) then (vm, 0)
      else (set_mmap_next vm (base ⊕ bytes), base)
  end.

(** *** Growing a neighbour *)
Definition neighbour_step (pte_flags base last : Z) (acc : option nat * option nat) (iv : nat * user_vma)
  : option nat * option nat :=
  let '(below, above) := acc in
  let '(i, v) := iv in
  if negb (v_used v) || negb (v_pte_flags v =? pte_flags) then (below, above)
  else if v_end v =? base then (Some i, above)
  else if v_start v =? last then (below, Some i)
  else (below, above).

Definition neighbours (vs : list user_vma) (pte_flags base last : Z) : option nat * option nat :=
  foldl (neighbour_step pte_flags base last) (None, None) (imap pair vs).

Definition set_end (v : user_vma) (e : Z) : user_vma := Vma (v_start v) e (v_pte_flags v) (v_used v).
Definition set_start (v : user_vma) (b : Z) : user_vma := Vma b (v_end v) (v_pte_flags v) (v_used v).

Definition record_range (vs : list user_vma) (slot : nat) (base last pte_flags : Z) : list user_vma :=
  match neighbours vs pte_flags base last with
  | (Some b, Some a) =>
      match vs !! b, vs !! a with
      | Some vb, Some va => <[a := no_vma]> (<[b := set_end vb (v_end va)]> vs)
      | _, _ => vs
      end
  | (Some b, None) => match vs !! b with Some vb => <[b := set_end vb last]> vs | None => vs end
  | (None, Some a) => match vs !! a with Some va => <[a := set_start va base]> vs | None => vs end
  | (None, None) => <[slot := Vma base last pte_flags true]> vs
  end.

(** ** Operations on pages *)
Section pages.
Context {S : Type} `{!PagingOps S}.

Definition range_is_unmapped (s : S) (vm : task_vm) (base bytes : Z) : bool :=
  let last := base ⊕ bytes in
  if existsb (fun v => v_used v && (base <? v_end v) && (last >? v_start v)) (vmas vm) then false
  else forallb (fun off => pg_translate s (user_pml4 vm) (base ⊕ off) =? 0) (page_offsets bytes).

Definition page_base (addr : Z) : Z := Z.land addr (not64 4095).

Definition uvm_fault_in (s : S) (vm : task_vm) (addr : Z) (writable : bool) : S * bool :=
  if user_pml4 vm =? 0 then (s, false) else
  let page := page_base addr in
  let entry := pg_entry s (user_pml4 vm) page in
  if negb (entry =? 0) then (s, (entry &? VMM_USER) && (negb writable || (entry &? VMM_WRITE))) else
  match vma_at vm page with
  | None => (s, false)
  | Some vma =>
      if negb (v_pte_flags vma &? VMM_USER) || (writable && negb (v_pte_flags vma &? VMM_WRITE)) then (s, false) else
      let '(phys, s) := pg_alloc s in
      if phys =? 0 then (s, false) else
      let s := pg_zero s phys in
      let '(s, r) := pg_map s (user_pml4 vm) page phys (v_pte_flags vma) in
      if negb (r =? 0) then (pg_free s phys, false) else (s, true)
  end.

(** Fault in a list of pages, stopping at the first refusal. *)
Fixpoint fault_all (s : S) (vm : task_vm) (pages : list Z) (writable : bool) : S * bool :=
  match pages with
  | [] => (s, true)
  | p :: pages' =>
      let '(s, ok) := uvm_fault_in s vm p writable in
      if ok then fault_all s vm pages' writable else (s, false)
  end.

Definition uvm_buffer_ok (s : S) (vm : task_vm) (pointer bytes : Z) (writable : bool) : S * bool :=
  if bytes =? 0 then (s, true) else
  if user_pml4 vm =? 0 then (s, false) else
  let base := pointer in
  let last := base ⊕ bytes in
  if (base <? USER_VA_MIN) || (last <? base) then (s, false) else
  let in_general_range := last <=? USER_VA_MAX in
  let in_stack := (base >=? USER_STACK_LOW) && (last <=? USER_STACK_TOP) in
  if negb in_general_range && negb in_stack then (s, false) else
  let page := page_base base in
  let final := page_base (last ⊖ 1) in
  fault_all s vm (map (fun k => page + 4096 * k) (seqZ 0 ((final - page) / 4096 + 1))) writable.

Definition uvm_reserve (s : S) (vm : task_vm) (addr bytes pte_flags : Z) (fixed : bool) : task_vm * Z :=
  if (user_pml4 vm =? 0) || (bytes =? 0) || (bytes &? 4095) || (pte_flags =? 0) then (vm, 0) else
  match vma_free_slot (vmas vm) with
  | None => (vm, 0)
  | Some slot =>
      let '(vm, base) :=
        if fixed then
          if (addr &? 4095) || negb (uvm_range_ok addr bytes) || negb (range_is_unmapped s vm addr bytes)
          then (vm, 0) else (vm, addr)
        else arena_alloc vm bytes in
      if base =? 0 then (vm, 0)
      else (set_vmas vm (record_range (vmas vm) slot base (base ⊕ bytes) pte_flags), base)
  end.

Fixpoint protect_all (s : S) (vm : task_vm) (pages : list Z) (pte_flags : Z) : S * Z :=
  match pages with
  | [] => (s, 0)
  | p :: pages' =>
      let '(s, r) := pg_protect s (user_pml4 vm) p pte_flags in
      if negb (r =? 0) then (s, -1) else protect_all s vm pages' pte_flags
  end.

Definition uvm_protect (s : S) (vm : task_vm) (addr bytes pte_flags : Z) : S * Z :=
  if (user_pml4 vm =? 0) || (addr &? 4095) || (bytes &? 4095) || (pte_flags =? 0) then (s, -1) else
  if negb (uvm_range_ok addr bytes) then (s, -1) else
  let pages := map (fun off => addr ⊕ off) (page_offsets bytes) in
  let '(s, ok) := fault_all s vm pages false in
  if negb ok then (s, -1) else protect_all s vm pages pte_flags.

(** Unmap one page and give its frame back, [keep_shared] sparing borrowed ones. *)
Definition drop_page (keep_shared : bool) (vm : task_vm) (s : S) (va : Z) : S :=
  let entry := pg_entry s (user_pml4 vm) va in
  if entry =? 0 then s else
  let '(s, _) := pg_unmap s (user_pml4 vm) va in
  if keep_shared && (entry &? VMM_SHARED) then s
  else pg_free s (Z.land entry VMM_ADDR_MASK).

Definition uvm_release (s : S) (vm : task_vm) (addr bytes : Z) : S * task_vm * Z :=
  if (user_pml4 vm =? 0) || (addr &? 4095) || (bytes &? 4095) then (s, vm, -1) else
  if negb (uvm_range_ok addr bytes) then (s, vm, -1) else
  match vma_remove_range vm addr (addr ⊕ bytes) with
  | None => (s, vm, -1)
  | Some vm =>
      let s := foldl (drop_page true vm) s (map (fun off => addr ⊕ off) (page_offsets bytes)) in
      let vm := if (addr >=? USER_MMAP_BASE) && (addr ⊕ bytes <=? USER_MMAP_LIMIT)
                then hole_add vm addr bytes else vm in
      (s, vm, 0)
  end.

Definition uvm_discard (s : S) (vm : task_vm) (addr bytes : Z) : S * Z :=
  if (user_pml4 vm =? 0) || (addr &? 4095) || (bytes &? 4095) then (s, -1) else
  if negb (uvm_range_ok addr bytes) then (s, -1) else
  let pages := map (fun off => addr ⊕ off) (page_offsets bytes) in
  if existsb (fun va => match vma_at vm va with
                        | None => true
                        | Some _ => pg_entry s (user_pml4 vm) va &? VMM_SHARED end) pages
  then (s, -1)
  else (foldl (drop_page false vm) s pages, 0).
End pages.
