(* ===== verification/UvmTable.v ===== *)
(** The reservation table and the arena of [kernel/memory/uvm.c] as maps.

    [covers] reads the table as a partial map from addresses to page flags;
    the lemmas say what each table update does to that map and that used
    records stay disjoint.  The arena part shows that free holes stay apart
    and inside the part of the arena already handed out. *)
From S2P Require Import Prelude.
From S2P Require Import Frames.
From S2P Require Import Vmm.
From S2P Require Import Paging.
From S2P Require Import Uvm.

(** ** Coverage *)
Definition vcov (v : user_vma) (a : Z) : Prop := v_used v = true /\ v_start v <= a < v_end v.
Definition covers (vs : list user_vma) (a f : Z) : Prop :=
  exists i v, vs !! i = Some v /\ vcov v a /\ v_pte_flags v = f.
Definition covers_but (k : nat) (vs : list user_vma) (a f : Z) : Prop :=
  exists i v, i <> k /\ vs !! i = Some v /\ vcov v a /\ v_pte_flags v = f.

(** A legal reserved range. *)
Definition vma_ok (v : user_vma) : Prop :=
  USER_VA_MIN <= v_start v < v_end v /\ v_end v <= USER_VA_MAX /\
  v_start v mod 4096 = 0 /\ v_end v mod 4096 = 0 /\ v_pte_flags v <> 0.
Definition apart (v w : user_vma) : Prop := v_end v <= v_start w \/ v_end w <= v_start v.

Record vmas_ok (vs : list user_vma) : Prop := VmasOk {
  vs_len : length vs = MAX_USER_VMAS;
  vs_ok i v : vs !! i = Some v -> v_used v = true -> vma_ok v;
  vs_apart i j v w : vs !! i = Some v -> vs !! j = Some w -> i <> j ->
    v_used v = true -> v_used w = true -> apart v w;
}.

Lemma covers_at k v vs a f : vs !! k = Some v ->
  covers vs a f <-> (vcov v a /\ v_pte_flags v = f) \/ covers_but k vs a f.
Proof.
  intros Hk. split.
  - intros (i & w & Hi & Hc & Hf). destruct (decide (i = k)) as [->|Hne].
    + left. by simplify_eq.
    + right. by exists i, w.
  - intros [[Hc Hf]|(i & w & _ & Hi & Hc & Hf)]; [by exists k, v|by exists i, w].
Qed.

Lemma covers_but_insert k w vs a f : covers_but k (<[k := w]> vs) a f <-> covers_but k vs a f.
Proof.
  split; intros (i & v & Hne & Hi & H); exists i, v; (split; [done|]); split; try done;
    by rewrite list_lookup_insert_ne in * by done.
Qed.

Lemma covers_insert k v w vs a f : vs !! k = Some v ->
  covers (<[k := w]> vs) a f <-> (vcov w a /\ v_pte_flags w = f) \/ covers_but k vs a f.
Proof.
  intros Hk. rewrite (covers_at k w); [by rewrite covers_but_insert|].
  apply list_lookup_insert_eq. by eapply lookup_lt_Some.
Qed.

Lemma vmas_ok_insert k w vs :
  vmas_ok vs ->
  (v_used w = true -> vma_ok w /\ forall j v, j <> k -> vs !! j = Some v -> v_used v = true -> apart v w) ->
  vmas_ok (<[k := w]> vs).
Proof.
  intros [Hl Hok Hap] Hw. split.
  - by rewrite length_insert.
  - intros i v Hi Hu. apply list_lookup_insert_Some in Hi as [(-> & -> & _)|[_ Hi]]; [by apply Hw|by eapply Hok].
  - intros i j v1 v2 Hi Hj Hne U1 U2.
    apply list_lookup_insert_Some in Hi as [(-> & -> & _)|[Hik Hi]];
      apply list_lookup_insert_Some in Hj as [(-> & -> & _)|[Hjk Hj]]; [done| | |by eapply Hap].
    + destruct (Hw U1) as [_ Ha]. destruct (Ha j v2) as [?|?]; try done; unfold apart; lia.
    + destruct (Hw U2) as [_ Ha]. by apply (Ha i v1).
Qed.

(** Used records that cover a common address are the same record. *)
Lemma covers_once vs i j v w a : vmas_ok vs -> vs !! i = Some v -> vs !! j = Some w -> vcov v a -> vcov w a -> i = j.
Proof.
  intros V Hi Hj [Uv Hv] [Uw Hw]. destruct (decide (i = j)) as [|Hne]; [done|].
  destruct (vs_apart vs V i j v w Hi Hj Hne Uv Uw); lia.
Qed.

Lemma covers_fun vs a f g : vmas_ok vs -> covers vs a f -> covers vs a g -> f = g.
Proof.
  intros V (i & v & Hi & Hc & <-) (j & w & Hj & Hd & <-).
  pose proof (covers_once vs i j v w a V Hi Hj Hc Hd) as ->. by simplify_eq.
Qed.

Lemma vma_covers_spec a v : vma_covers a v = true <-> vcov v a.
Proof. unfold vma_covers, vcov. rewrite !andb_true_iff, Z.leb_le, Z.ltb_lt. naive_solver. Qed.

Lemma vma_at_Some vm a v : vma_at vm a = Some v -> covers (vmas vm) a (v_pte_flags v).
Proof.
  unfold vma_at. destruct (list_find _ (vmas vm)) as [[i w]|] eqn:E; simpl; [|done]. intros [= ->].
  apply list_find_Some in E as (Hi & Hc & _). apply vma_covers_spec in Hc. by exists i, v.
Qed.

Lemma vma_at_None vm a : vma_at vm a = None -> forall f, ~ covers (vmas vm) a f.
Proof.
  unfold vma_at. destruct (list_find _ (vmas vm)) eqn:E; simpl; [done|]. intros _ f (i & v & Hi & Hc & _).
  apply list_find_None in E. rewrite List.Forall_forall in E. apply (E v).
  - apply list_elem_of_In. by eapply list_elem_of_lookup_2.
  - by apply vma_covers_spec.
Qed.

Lemma vma_free_slot_Some vs k : vma_free_slot vs = Some k -> exists v, vs !! k = Some v /\ v_used v = false.
Proof.
  unfold vma_free_slot. destruct (list_find _ vs) as [[i w]|] eqn:E; simpl; [|done]. intros [= ->].
  apply list_find_Some in E as (Hi & Hu & _). by exists w.
Qed.

Lemma unused_no_cov v a : v_used v = false -> ~ vcov v a.
Proof. intros Hu [Hu' _]. congruence. Qed.

(** ** Removing a range *)
Section remove.
Context (start last : Z) (split : option nat).
Hypothesis Hsl : start < last.
Hypothesis Hsa : start mod 4096 = 0.
Hypothesis Hla : last mod 4096 = 0.

Definition clean (v : user_vma) : Prop := v_used v = true -> v_end v <= start \/ last <= v_start v.

(** A record around the range needs the spare slot, which is still free. *)
Record rm_inv (vs : list user_vma) : Prop := RmInv {
  rm_ok : vmas_ok vs;
  rm_split i v : vs !! i = Some v -> vma_strictly start last v = true ->
    exists k w, split = Some k /\ vs !! k = Some w /\ v_used w = false;
}.

Definition rm_step_ok (vs vs' : list user_vma) (i : nat) : Prop :=
  rm_inv vs' /\
  (forall a f, ~ start <= a < last -> covers vs' a f <-> covers vs a f) /\
  (forall w, vs' !! i = Some w -> clean w) /\
  (forall j w, vs !! j = Some w -> clean w -> exists w', vs' !! j = Some w' /\ clean w').

Lemma strictly_spec v : vma_strictly start last v = true <-> v_used v = true /\ v_start v < start /\ last < v_end v.
Proof using. unfold vma_strictly. rewrite !andb_true_iff, Z.gtb_lt, Z.ltb_lt. naive_solver. Qed.

Lemma shrink_ok vs i v w : vmas_ok vs -> vs !! i = Some v -> v_used v = true ->
  (v_used w = true -> v_start v <= v_start w < v_end w /\ v_end w <= v_end v /\
     v_start w mod 4096 = 0 /\ v_end w mod 4096 = 0 /\ v_pte_flags w = v_pte_flags v) ->
  vmas_ok (<[i := w]> vs).
Proof using.
  intros V Hi Hu Hw. apply vmas_ok_insert; [done|]. intros Huw. destruct (Hw Huw) as (? & ? & ? & ? & Hf).
  destruct (vs_ok vs V i v Hi Hu) as (? & ? & ? & ? & ?). split; [unfold vma_ok; rewrite Hf; lia|].
  intros j u Hne Hj Huu. destruct (vs_apart vs V j i u v Hj Hi Hne Huu Hu); unfold apart; lia.
Qed.

(** Replacing the record at [i] by a clean part of it that keeps what lies outside the range. *)
Lemma shrink_step vs i v w : rm_inv vs -> vs !! i = Some v -> v_used v = true -> v_start v < last -> start < v_end v ->
  clean w -> vma_strictly start last v = false ->
  (v_used w = true -> v_start v <= v_start w < v_end w /\ v_end w <= v_end v /\
     v_start w mod 4096 = 0 /\ v_end w mod 4096 = 0 /\ v_pte_flags w = v_pte_flags v) ->
  (forall a, ~ start <= a < last -> vcov v a <-> vcov w a) ->
  rm_step_ok vs (<[i := w]> vs) i.
Proof using Hsl.
  intros [V Hsp] Hi Hu H1 H2 Hc Hns Hw Hcov. pose proof (lookup_lt_Some _ _ _ Hi) as Hlt. split_and!.
  - split; [by eapply shrink_ok|]. intros j u Hj Hstr. exfalso.
    apply list_lookup_insert_Some in Hj as [(-> & -> & _)|[Hne Hj]]; apply strictly_spec in Hstr as (Hu' & ? & ?).
    + destruct (Hc Hu'); lia.
    + destruct (vs_apart vs V j i u v Hj Hi ltac:(congruence) Hu' Hu); lia.
  - intros a f Ha. rewrite (covers_insert i v w), (covers_at i v) by done. rewrite (Hcov a Ha).
    split; (intros [[Hv Hf]|?]; [left|by right]); (split; [done|]); destruct (Hw (proj1 Hv)) as (_ & _ & _ & _ & Hfl); congruence.
  - intros u Hu'. rewrite list_lookup_insert_eq in Hu' by done. by simplify_eq.
  - intros j u Hj Hcl. destruct (decide (j = i)) as [->|Hne].
    + exists w. by rewrite list_lookup_insert_eq.
    + exists u. by rewrite list_lookup_insert_ne.
Qed.

Lemma split_step vs i v k w : rm_inv vs -> vs !! i = Some v -> vma_strictly start last v = true ->
  vs !! k = Some w -> v_used w = false ->
  rm_step_ok vs (<[i := Vma (v_start v) start (v_pte_flags v) true]>
                  (<[k := Vma last (v_end v) (v_pte_flags v) true]> vs)) i.
Proof using Hsl Hsa Hla.
  intros [V Hsp] Hi (Hu & H1 & H2)%strictly_spec Hk Hw.
  assert (Hne : k <> i) by congruence. pose proof (lookup_lt_Some _ _ _ Hi) as Hlt. pose proof (lookup_lt_Some _ _ _ Hk) as Hkt.
  destruct (vs_ok vs V i v Hi Hu) as (O1 & O2 & O3 & O4 & O5).
  assert (Hoth : forall j u, j <> i -> vs !! j = Some u -> v_used u = true -> v_end u <= v_start v \/ v_end v <= v_start u).
  { intros j u Hji Hj Hju. by apply (vs_apart vs V j i). }
  assert (Hik : <[k := (Vma last (v_end v) (v_pte_flags v) true)]> vs !! i = Some v) by (by rewrite list_lookup_insert_ne).
  assert (V1 : vmas_ok (<[i := (Vma (v_start v) start (v_pte_flags v) true)]> vs)).
  { apply (shrink_ok vs i v); try done. intros _. simpl. lia. }
  assert (V2 : vmas_ok (<[i := (Vma (v_start v) start (v_pte_flags v) true)]> (<[k := (Vma last (v_end v) (v_pte_flags v) true)]> vs))).
  { rewrite list_insert_insert_ne by done. apply vmas_ok_insert; [done|]. intros _. split; [unfold vma_ok; simpl; lia|].
    intros j u Hjk Hj Hju. unfold apart. simpl.
    apply list_lookup_insert_Some in Hj as [(<- & <- & _)|[Hji Hj]]; [simpl; lia|]. destruct (Hoth j u ltac:(congruence) Hj Hju); lia. }
  split_and!.
  - split; [done|]. intros j u Hj (Hju & ? & ?)%strictly_spec. exfalso.
    apply list_lookup_insert_Some in Hj as [(<- & <- & _)|[Hji Hj]]; [simpl in *; lia|].
    apply list_lookup_insert_Some in Hj as [(<- & <- & _)|[Hjk Hj]]; [simpl in *; lia|].
    destruct (Hoth j u ltac:(congruence) Hj Hju); lia.
  - intros a f Ha. rewrite (covers_insert i v) by done. rewrite (covers_at i v vs) by done.
    assert (Hb : covers_but i (<[k := (Vma last (v_end v) (v_pte_flags v) true)]> vs) a f <-> (vcov (Vma last (v_end v) (v_pte_flags v) true) a /\ v_pte_flags (Vma last (v_end v) (v_pte_flags v) true) = f) \/ covers_but i vs a f).
    { split.
      - intros (j & u & Hji & Hj & Hc & Hf). apply list_lookup_insert_Some in Hj as [(<- & <- & _)|[Hjk Hj]]; [by left|right].
        by exists j, u.
      - intros [[Hc Hf]|(j & u & Hji & Hj & Hc & Hf)]; [exists k, (Vma last (v_end v) (v_pte_flags v) true)|exists j, u].
        + by rewrite list_lookup_insert_eq.
        + rewrite list_lookup_insert_ne; [done|]. intros <-. simplify_eq. by apply unused_no_cov in Hc. }
    rewrite Hb. unfold vcov. simpl. split.
    + intros [[Hc <-]|[[Hc <-]|?]]; [left; split_and!; try done; lia..|by right].
    + intros [[Hc <-]|?]; [|by right; right]. destruct (Z.lt_ge_cases a start); [left|right; left]; split_and!; try done; lia.
  - intros u Hu'. rewrite list_lookup_insert_eq in Hu' by (by rewrite length_insert). simplify_eq. intros _. by left.
  - intros j u Hj Hcl. destruct (decide (j = i)) as [->|Hji].
    { eexists. rewrite list_lookup_insert_eq by (by rewrite length_insert). split; [done|]. intros _. by left. }
    rewrite list_lookup_insert_ne by done. destruct (decide (j = k)) as [->|Hjk].
    + exists (Vma last (v_end v) (v_pte_flags v) true). rewrite list_lookup_insert_eq by done. split; [done|]. intros _. by right.
    + exists u. by rewrite list_lookup_insert_ne.
Qed.

Lemma skip_step vs i v : rm_inv vs -> vs !! i = Some v -> clean v -> rm_step_ok vs vs i.
Proof using.
  intros R Hi Hc. split_and!; [done|done| |].
  - intros w Hw. by simplify_eq.
  - intros j w Hj Hw. by exists w.
Qed.

Lemma remove_step_ok vs i v : rm_inv vs -> vs !! i = Some v -> rm_step_ok vs (remove_step start last split vs i) i.
Proof using Hsl Hsa Hla.
  intros R Hi. unfold remove_step. rewrite Hi.
  destruct (negb (v_used v) || (start >=? v_end v) || (last <=? v_start v)) eqn:E1.
  { apply (skip_step vs i v); try done. intros Hu. rewrite Hu in E1. zbool. lia. }
  zbool. assert (Hu : v_used v = true) by done. destruct (vs_ok _ (rm_ok vs R) i v Hi Hu) as (O1 & O2 & O3 & O4 & O5).
  assert (Hns : vma_strictly start last v = true -> v_start v < start /\ last < v_end v)
    by (intros (_ & ? & ?)%strictly_spec; done).
  destruct ((start <=? v_start v) && (last >=? v_end v)) eqn:E2.
  { zbool. apply (shrink_step vs i v); try done; try lia.
    - destruct (vma_strictly start last v); [lia|done].
    - intros a Ha. unfold vcov. simpl. split; [intros; lia|by intros [? _]]. }
  destruct (start <=? v_start v) eqn:E3.
  { zbool. apply (shrink_step vs i v); try done; try lia.
    - intros _. simpl. by right.
    - destruct (vma_strictly start last v); [lia|done].
    - intros _. simpl. lia.
    - intros a Ha. unfold vcov. simpl. split; intros [? ?]; (split; [done|lia]). }
  destruct (last >=? v_end v) eqn:E4.
  { zbool. apply (shrink_step vs i v); try done; try lia.
    - intros _. simpl. by left.
    - destruct (vma_strictly start last v); [lia|done].
    - intros _. simpl. lia.
    - intros a Ha. unfold vcov. simpl. split; intros [? ?]; (split; [done|lia]). }
  assert (Hs : vma_strictly start last v = true) by (apply strictly_spec; zbool; split_and!; try done; lia).
  destruct (rm_split vs R i v Hi Hs) as (k & w & -> & Hk & Hw). by apply (split_step vs i v k w).
Qed.

Lemma remove_loop_ok n vs : rm_inv vs -> (n <= length vs)%nat ->
  let vs' := foldl (remove_step start last split) vs (seq 0 n) in
  rm_inv vs' /\ length vs' = length vs /\
  (forall a f, ~ start <= a < last -> covers vs' a f <-> covers vs a f) /\
  (forall j w, (j < n)%nat -> vs' !! j = Some w -> clean w).
Proof using Hsl Hsa Hla.
  intros R Hn. induction n as [|n IH].
  { split_and!; try done. intros. lia. }
  rewrite seq_S, foldl_app. cbn [foldl Nat.add]. destruct IH as (R1 & Hl & Hc & Hcl); [lia|].
  set (vs1 := foldl _ vs (seq 0 n)) in *.
  destruct (vs1 !! n) as [v|] eqn:Hv; [|apply lookup_ge_None in Hv; lia].
  destruct (remove_step_ok vs1 n v R1 Hv) as (R2 & Hc2 & Hi2 & Hk2).
  set (vs2 := remove_step start last split vs1 n) in *. split_and!.
  - done.
  - rewrite (vs_len _ (rm_ok _ R2)), <-Hl. symmetry. apply R1.
  - intros a f Ha. rewrite Hc2 by done. by apply Hc.
  - intros j w Hj Hw. destruct (decide (j = n)) as [->|]; [by apply Hi2|].
    destruct (vs1 !! j) as [u|] eqn:Hu.
    + destruct (Hk2 j u Hu) as (w' & Hw' & Hcw); [apply (Hcl j); [lia|done]|]. by simplify_eq.
    + apply lookup_ge_None in Hu. apply lookup_lt_Some in Hw.
      rewrite (vs_len _ (rm_ok _ R2)) in Hw. rewrite (vs_len _ (rm_ok _ R1)) in Hu. lia.
Qed.
End remove.

Lemma vma_remove_range_spec vm start last vm' :
  vmas_ok (vmas vm) -> start < last -> start mod 4096 = 0 -> last mod 4096 = 0 ->
  vma_remove_range vm start last = Some vm' ->
  exists vs', vm' = set_vmas vm vs' /\ vmas_ok vs' /\
    forall a f, covers vs' a f <-> covers (vmas vm) a f /\ ~ start <= a < last.
Proof.
  intros V Hsl Hsa Hla. unfold vma_remove_range.
  set (needs := existsb _ _). set (split := if needs then _ else None).
  destruct (needs && _) eqn:E; [discriminate|]. intros <-%Some_inj.
  assert (R : rm_inv start last split (vmas vm)).
  { split; [done|]. intros i v Hi Hs. assert (Hneeds : needs = true).
    { apply existsb_exists. exists v. split; [|done]. apply list_elem_of_In. by eapply list_elem_of_lookup_2. }
    rewrite Hneeds in E. simpl in E. apply bool_decide_eq_false in E. unfold split. rewrite Hneeds.
    destruct (vma_free_slot (vmas vm)) as [k|] eqn:Ek; [|done].
    apply vma_free_slot_Some in Ek as (w & Hw & Hu). by exists k, w. }
  destruct (remove_loop_ok start last split Hsl Hsa Hla MAX_USER_VMAS (vmas vm) R) as (R' & Hl & Hc & Hcl).
  { by rewrite (vs_len _ V). }
  set (vs' := foldl _ _ _) in *. exists vs'. split_and!; [done|apply R'|]. intros a f. split.
  - intros H. assert (Hn : ~ start <= a < last).
    { intros Ha. destruct H as (i & v & Hi & [Hu Hv] & _). destruct (Hcl i v) as [?|?]; try done; try lia.
      rewrite <-(vs_len _ (rm_ok _ _ _ _ R')). by eapply lookup_lt_Some. }
    split; [|done]. by apply Hc.
  - intros [H Hn]. by apply Hc.
Qed.

(** The only failure is a range inside one record with a full table. *)
Lemma vma_remove_range_None vm start last : vma_remove_range vm start last = None ->
  (forall i v, vmas vm !! i = Some v -> v_used v = true) /\
  exists i v, vmas vm !! i = Some v /\ v_used v = true /\ v_start v < start /\ last < v_end v.
Proof.
  unfold vma_remove_range. destruct (existsb _ _) eqn:E; simpl; [|done].
  destruct (bool_decide _) eqn:B; [|done]. apply bool_decide_eq_true in B. intros _. split.
  - intros i v Hi. unfold vma_free_slot in B. destruct (list_find _ _) eqn:F; [done|].
    apply list_find_None in F. rewrite List.Forall_forall in F.
    destruct (v_used v) eqn:U; [done|]. destruct (F v); [|done]. apply list_elem_of_In. by eapply list_elem_of_lookup_2.
  - apply existsb_exists in E as (v & Hin%list_elem_of_In & (U & ? & ?)%strictly_spec).
    apply list_elem_of_lookup in Hin as [i Hi]. by exists i, v.
Qed.

(** ** Recording a range *)
Lemma neighbours_spec vs fl base last :
  let '(below, above) := neighbours vs fl base last in
  (forall b, below = Some b -> exists v, vs !! b = Some v /\ v_used v = true /\ v_pte_flags v = fl /\ v_end v = base) /\
  (forall a, above = Some a -> exists v, vs !! a = Some v /\ v_used v = true /\ v_pte_flags v = fl /\ v_start v = last).
Proof.
  unfold neighbours.
  set (P := fun (acc : option nat * option nat) =>
    (forall b, acc.1 = Some b -> exists v, vs !! b = Some v /\ v_used v = true /\ v_pte_flags v = fl /\ v_end v = base) /\
    (forall a, acc.2 = Some a -> exists v, vs !! a = Some v /\ v_used v = true /\ v_pte_flags v = fl /\ v_start v = last)).
  assert (H : forall l acc, P acc -> (forall i v, (i, v) ∈ l -> vs !! i = Some v) ->
    P (foldl (neighbour_step fl base last) acc l)).
  { induction l as [|[i v] l IH]; intros [be ab] HP Hl; [done|]. cbn [foldl]. apply IH; [|intros; apply Hl; by right].
    pose proof (Hl i v ltac:(left)) as Hi. destruct HP as [H1 H2]. unfold neighbour_step. simpl in H1, H2.
    destruct (negb (v_used v) || negb (v_pte_flags v =? fl)) eqn:E1; [by split|]. zbool.
    destruct (Z.eqb_spec (v_end v) base); [split; simpl; [intros b [= <-]; by exists v|done]|].
    destruct (Z.eqb_spec (v_start v) last); [split; simpl; [done|intros b [= <-]; by exists v]|by split]. }
  specialize (H (imap pair vs) (None, None)). destruct (foldl _ _ _) as [be ab]. apply H.
  - by split.
  - intros i v Hin. apply elem_of_lookup_imap_1 in Hin as (j & w & [= -> ->] & Hj). done.
Qed.

Section record.
Context (vs : list user_vma) (base last fl : Z).
Hypothesis V : vmas_ok vs.
Hypothesis Hlo : USER_VA_MIN <= base.
Hypothesis Hbl : base < last.
Hypothesis Hhi : last <= USER_VA_MAX.
Hypothesis Hba : base mod 4096 = 0.
Hypothesis Hla : last mod 4096 = 0.
Hypothesis Hfl : fl <> 0.
Hypothesis Hfree : forall i v, vs !! i = Some v -> v_used v = true -> v_end v <= base \/ last <= v_start v.

Definition recorded (vs' : list user_vma) : Prop :=
  vmas_ok vs' /\ forall a f, covers vs' a f <-> covers vs a f \/ base <= a < last /\ f = fl.

(** Replacing record [k] by one that covers it and the new range. *)
Lemma grow_ok k v w :
  vs !! k = Some v -> v_used w = true -> vma_ok w -> v_pte_flags w = fl ->
  (forall j u, j <> k -> vs !! j = Some u -> v_used u = true -> apart u w) ->
  (forall a, v_start w <= a < v_end w <-> (vcov v a /\ v_pte_flags v = fl) \/ base <= a < last) ->
  (forall a f, vcov v a -> v_pte_flags v = f -> f = fl) ->
  recorded (<[k := w]> vs).
Proof using V.
  intros Hk Hu Hw Hf Hap Hcov Hvf. split; [apply vmas_ok_insert; [done|]; intros _; split; [done|]; intros; by eapply Hap|].
  intros a f. rewrite (covers_insert k v w), (covers_at k v) by done. unfold vcov at 1. rewrite Hf. split.
  - intros [[[_ Ha] <-]|?]; [|tauto]. apply Hcov in Ha as [?|?]; tauto.
  - intros [[[Hc Hf']|?]|[Ha ->]]; [left|tauto|left].
    + split; [split; [done|]|by rewrite (Hvf a f)]. apply Hcov. left. split; [done|]. by rewrite Hf', (Hvf a f).
    + split; [split; [done|]|done]. apply Hcov. by right.
Qed.

Lemma record_range_ok slot w : vs !! slot = Some w -> v_used w = false -> recorded (record_range vs slot base last fl).
Proof using All.
  intros Hs Hu. unfold record_range. pose proof (neighbours_spec vs fl base last) as Hn.
  destruct (neighbours vs fl base last) as [[b|] [a|]]; destruct Hn as [Hb Ha].
  - destruct (Hb b eq_refl) as (vb & Eb & Ub & Fb & Bb). destruct (Ha a eq_refl) as (va & Ea & Ua & Fa & Aa).
    rewrite Eb, Ea. destruct (vs_ok vs V b vb Eb Ub) as (B1 & B2 & B3 & B4 & B5).
    destruct (vs_ok vs V a va Ea Ua) as (A1 & A2 & A3 & A4 & A5).
    assert (Hne : a <> b) by (intros ->; simplify_eq; lia).
    rewrite list_insert_insert_ne by done. set (vs1 := <[a := no_vma]> vs).
    assert (V1 : vmas_ok vs1) by (by apply vmas_ok_insert).
    assert (Eb1 : vs1 !! b = Some vb) by (unfold vs1; by rewrite list_lookup_insert_ne).
    assert (Hc1 : forall x f, covers vs x f <-> covers vs1 x f \/ vcov va x /\ f = fl).
    { intros x f. unfold vs1. rewrite (covers_insert a va), (covers_at a va) by done. unfold vcov at 2. simpl.
      rewrite Fa. split; [intros [[? <-]|?]; tauto|intros [[[[? _] _]|?]|[? ->]]; [done|tauto|tauto]]. }
    assert (V2 : vmas_ok (<[b := set_end vb (v_end va)]> vs1)).
    { apply vmas_ok_insert; [done|]. intros _. unfold vma_ok, set_end; simpl. split; [split_and!; lia || done|].
      intros j u Hj Hju Uu. unfold vs1 in Hju. apply list_lookup_insert_Some in Hju as [(<- & <- & _)|[Hja Hju]]; [done|].
      unfold apart. simpl. destruct (vs_ok vs V j u Hju Uu) as ([_ ?] & _).
      destruct (vs_apart vs V j b u vb Hju Eb Hj Uu Ub), (vs_apart vs V j a u va Hju Ea ltac:(congruence) Uu Ua),
        (Hfree j u Hju Uu); lia. }
    split; [done|]. intros x f. rewrite (covers_insert b vb _ vs1), Hc1, (covers_at b vb vs1) by done.
    unfold vcov, set_end. simpl. rewrite Fb, Ub, Ua.
    destruct (decide (v_start vb <= x < v_end va)); split; intuition (subst; try lia; auto).
    all: destruct (Z.lt_ge_cases x base); [tauto|]; destruct (Z.lt_ge_cases x last); [|left; right]; intuition lia.
  - destruct (Hb b eq_refl) as (vb & Eb & Ub & Fb & Bb). rewrite Eb.
    destruct (vs_ok vs V b vb Eb Ub) as (B1 & B2 & B3 & B4 & B5).
    apply (grow_ok b vb); try done.
    + unfold vma_ok, set_end; simpl. split_and!; lia || done.
    + intros j u Hj Hju Uu. unfold apart, set_end; simpl. destruct (vs_ok vs V j u Hju Uu) as ([_ ?] & _).
      destruct (vs_apart vs V j b u vb Hju Eb Hj Uu Ub), (Hfree j u Hju Uu); lia.
    + intros x. unfold vcov, set_end. simpl. rewrite Ub. intuition lia.
    + intros x f _ <-. done.
  - destruct (Ha a eq_refl) as (va & Ea & Ua & Fa & Aa). rewrite Ea.
    destruct (vs_ok vs V a va Ea Ua) as (A1 & A2 & A3 & A4 & A5).
    apply (grow_ok a va); try done.
    + unfold vma_ok, set_start; simpl. split_and!; lia || done.
    + intros j u Hj Hju Uu. unfold apart, set_start; simpl. destruct (vs_ok vs V j u Hju Uu) as ([_ ?] & _).
      destruct (vs_apart vs V j a u va Hju Ea Hj Uu Ua), (Hfree j u Hju Uu); lia.
    + intros x. unfold vcov, set_start. simpl. rewrite Ua. intuition lia.
    + intros x f _ <-. done.
  - apply (grow_ok slot w); try done.
    + intros j u Hj Hju Uu. unfold apart; simpl. apply (Hfree j u Hju Uu).
    + intros x. simpl. split; [by right|intros [[[? _] _]|?]; [congruence|done]].
    + intros x f [? _]. congruence.
Qed.
End record.

(** ** Holes *)
Definition in_hole (hs : list vm_hole) (a : Z) : Prop :=
  exists i h, hs !! i = Some h /\ h_base h <= a < h_base h + h_len h.

(** A range of the arena below the bump pointer. *)
Definition arena_range (next base last : Z) : Prop :=
  USER_MMAP_BASE <= base < last /\ last <= next /\ base mod 4096 = 0 /\ last mod 4096 = 0.

Record holes_ok (next : Z) (hs : list vm_hole) : Prop := HolesOk {
  ho_len : length hs = TASK_MMAP_HOLES;
  ho_ok i h : hs !! i = Some h -> h_len h <> 0 -> arena_range next (h_base h) (h_base h + h_len h);
  ho_apart i j h g : hs !! i = Some h -> hs !! j = Some g -> i <> j -> h_len h <> 0 -> h_len g <> 0 ->
    h_base h + h_len h < h_base g \/ h_base g + h_len g < h_base h;
}.

Fixpoint nonempty (hs : list vm_hole) : nat :=
  match hs with [] => 0%nat | h :: hs' => ((if (h_len h =? 0)%Z then 0 else 1) + nonempty hs')%nat end.

Lemma nonempty_le hs : (nonempty hs <= length hs)%nat.
Proof. induction hs as [|h hs IH]; simpl; [lia|]. case_match; lia. Qed.

Lemma nonempty_clear hs i h : hs !! i = Some h -> h_len h <> 0 -> S (nonempty (<[i := no_hole]> hs)) = nonempty hs.
Proof.
  revert i. induction hs as [|g hs IH]; intros [|i] Hi Hn; simpl in *; try done.
  - injection Hi as ->. rewrite (proj2 (Z.eqb_neq _ _) Hn). done.
  - rewrite <-(IH i Hi Hn). lia.
Qed.

Lemma in_hole_insert hs i h w a : hs !! i = Some h ->
  in_hole (<[i := w]> hs) a <-> (h_base w <= a < h_base w + h_len w) \/
    exists j g, j <> i /\ hs !! j = Some g /\ h_base g <= a < h_base g + h_len g.
Proof.
  intros Hi. pose proof (lookup_lt_Some _ _ _ Hi) as Hlt. split.
  - intros (j & g & Hj & Ha). apply list_lookup_insert_Some in Hj as [(<- & <- & _)|[Hne Hj]]; [by left|right].
    exists j, g. split; [congruence|done].
  - intros [Ha|(j & g & Hne & Hj & Ha)]; [exists i, w|exists j, g].
    + by rewrite list_lookup_insert_eq.
    + by rewrite list_lookup_insert_ne.
Qed.

Lemma in_hole_at hs i h a : hs !! i = Some h ->
  in_hole hs a <-> (h_base h <= a < h_base h + h_len h) \/
    exists j g, j <> i /\ hs !! j = Some g /\ h_base g <= a < h_base g + h_len g.
Proof.
  intros Hi. split.
  - intros (j & g & Hj & Ha). destruct (decide (j = i)) as [->|Hne]; [left; by simplify_eq|right; by exists j, g].
  - intros [Ha|(j & g & _ & Hj & Ha)]; [by exists i, h|by exists j, g].
Qed.

Lemma holes_ok_insert next hs i w :
  holes_ok next hs ->
  (h_len w <> 0 -> arena_range next (h_base w) (h_base w + h_len w) /\
     forall j g, j <> i -> hs !! j = Some g -> h_len g <> 0 ->
       h_base w + h_len w < h_base g \/ h_base g + h_len g < h_base w) ->
  holes_ok next (<[i := w]> hs).
Proof.
  intros [Hl Hok Hap] Hw. split.
  - by rewrite length_insert.
  - intros j g Hj Hn. apply list_lookup_insert_Some in Hj as [(<- & <- & _)|[_ Hj]]; [by apply Hw|by eapply Hok].
  - intros j k g1 g2 Hj Hk Hne N1 N2.
    apply list_lookup_insert_Some in Hj as [(<- & <- & _)|[Hji Hj]];
      apply list_lookup_insert_Some in Hk as [(<- & <- & _)|[Hki Hk]]; [done| | |by eapply Hap].
    + destruct (Hw N1) as [_ Ha]. apply (Ha k); [congruence|done|done].
    + destruct (Hw N2) as [_ Ha]. destruct (Ha j g1); [congruence|done|done|by right|by left].
Qed.

(** A hole that neither overlaps nor adjoins the range. *)
Definition away (base last : Z) (h : vm_hole) : Prop :=
  h_len h <> 0 -> h_base h + h_len h < base \/ last < h_base h.

Lemma hole_merge_ok next fuel hs base last i :
  next <= USER_MMAP_LIMIT -> holes_ok next hs -> arena_range next base last ->
  (forall j h, (j < i)%nat -> hs !! j = Some h -> away base last h) -> (i <= TASK_MMAP_HOLES)%nat ->
  (nonempty hs * S TASK_MMAP_HOLES + (TASK_MMAP_HOLES - i) < fuel)%nat ->
  let '(hs', base', last') := hole_merge fuel hs base last i in
  holes_ok next hs' /\ arena_range next base' last' /\
  (forall a, in_hole hs' a \/ base' <= a < last' <-> in_hole hs a \/ base <= a < last) /\
  (forall j h, hs' !! j = Some h -> away base' last' h) /\
  (hs' = hs /\ base' = base /\ last' = last \/ exists j h, hs' !! j = Some h /\ h_len h = 0).
Proof.
  intros Hnl. revert hs base last i. induction fuel as [|fuel IH]; intros hs base last i H R Hi Hin Hf; [lia|].
  cbn [hole_merge]. destruct (hs !! i) as [h|] eqn:Eh.
  2: { apply lookup_ge_None in Eh. rewrite (ho_len _ _ H) in Eh.
    split_and!; try done; [|by left]. intros j h Hj. apply (Hi j); [|done].
    apply lookup_lt_Some in Hj. rewrite (ho_len _ _ H) in Hj. lia. }
  assert (Hilt : (i < TASK_MMAP_HOLES)%nat) by (rewrite <-(ho_len _ _ H); by eapply lookup_lt_Some).
  assert (Hskip : away base last h -> (forall j g, (j < S i)%nat -> hs !! j = Some g -> away base last g)).
  { intros Ha j g Hj Hg. destruct (decide (j = i)) as [->|]; [by simplify_eq|]. apply (Hi j); [lia|done]. }
  destruct (Z.eqb_spec (h_len h) 0) as [Hz|Hz]; [apply IH; try done; [apply Hskip; by intros ?|lia]|].
  destruct (ho_ok _ _ H i h Eh Hz) as (H1 & H2 & H3 & H4). destruct R as (R1 & R2 & R3 & R4).
  unfold USER_MMAP_LIMIT, USER_MMAP_BASE in *. rewrite (u64_small (h_base h + h_len h)) by lia.
  destruct (_ || _) eqn:E.
  { apply orb_true_iff in E. rewrite Z.ltb_lt, Z.gtb_lt in E. apply IH; try done; [apply Hskip; intros _; lia|lia]. }
  zbool. set (b2 := if h_base h <? base then h_base h else base).
  set (l2 := if h_base h + h_len h >? last then h_base h + h_len h else last).
  assert (Hb2 : b2 = Z.min (h_base h) base) by (unfold b2; case_match; zbool; lia).
  assert (Hl2 : l2 = Z.max (h_base h + h_len h) last) by (unfold l2; case_match; zbool; lia).
  assert (Hne : S (nonempty (<[i := no_hole]> hs)) = nonempty hs) by (by eapply nonempty_clear).
  specialize (IH (<[i := no_hole]> hs) b2 l2 0%nat).
  destruct (hole_merge fuel (<[i := no_hole]> hs) b2 l2 0) as [[hs' base'] last'].
  destruct IH as (I1 & I2 & I3 & I4 & I5).
  - by apply holes_ok_insert.
  - unfold arena_range, USER_MMAP_BASE. destruct (Z.min_spec (h_base h) base) as [[? Em]|[? Em]],
      (Z.max_spec (h_base h + h_len h) last) as [[? Ex]|[? Ex]]; rewrite Hb2, Hl2, Em, Ex; lia.
  - intros; lia.
  - lia.
  - unfold TASK_MMAP_HOLES in *. lia.
  - split_and!; [done|done| |done|].
    + intros a. rewrite I3, (in_hole_insert hs i h), (in_hole_at hs i h) by done. simpl.
      split; [intros [[?|?]|?]|intros [[?|?]|?]]; try tauto; try lia;
        (destruct (decide (h_base h <= a < h_base h + h_len h)); [tauto|right; lia]) || (right; lia).
    + right. destruct I5 as [(-> & _ & _)|?]; [|done]. exists i, no_hole. rewrite list_lookup_insert_eq; [done|].
      by eapply lookup_lt_Some.
Qed.

Lemma hole_add_ok vm base bytes :
  mmap_next_va vm <= USER_MMAP_LIMIT -> holes_ok (mmap_next_va vm) (mmap_holes vm) ->
  arena_range (mmap_next_va vm) base (base + bytes) ->
  exists hs', hole_add vm base bytes = set_holes vm hs' /\ holes_ok (mmap_next_va vm) hs' /\
    (forall a, in_hole (mmap_holes vm) a -> in_hole hs' a) /\
    (forall a, in_hole hs' a -> in_hole (mmap_holes vm) a \/ base <= a < base + bytes) /\
    ((forall a, base <= a < base + bytes -> in_hole hs' a) \/ hs' = mmap_holes vm /\
       forall i h, mmap_holes vm !! i = Some h -> h_len h <> 0).
Proof.
  intros Hn H R. unfold hole_add.
  assert (Hw : base ⊕ bytes = base + bytes).
  { apply u64_small. unfold arena_range, USER_MMAP_BASE, USER_MMAP_LIMIT in *. lia. }
  rewrite Hw.
  assert (M := hole_merge_ok (mmap_next_va vm) hole_fuel (mmap_holes vm) base (base + bytes) 0 Hn H R).
  destruct (hole_merge hole_fuel (mmap_holes vm) base (base + bytes) 0) as [[hs b] l].
  destruct M as (M1 & M2 & M3 & M4 & M5); [intros; lia|lia| |].
  { pose proof (nonempty_le (mmap_holes vm)) as Hle. rewrite (ho_len _ _ H) in Hle. unfold hole_fuel, TASK_MMAP_HOLES in *. lia. }
  destruct (list_find (fun h => h_len h = 0) hs) as [[i h]|] eqn:E.
  - apply list_find_Some in E as (Hi & Hz & _). pose proof M2 as (A1 & A2 & A3 & A4).
    assert (Hl : l ⊖ b = l - b) by (apply u64_small; unfold USER_MMAP_BASE, USER_MMAP_LIMIT in *; lia).
    rewrite Hl. eexists. split; [reflexivity|].
    assert (Hin : forall a, in_hole (<[i := Hole b (l - b)]> hs) a <-> in_hole (mmap_holes vm) a \/ base <= a < base + bytes).
    { intros a. rewrite <-M3, (in_hole_insert hs i h), (in_hole_at hs i h) by done. simpl.
      replace (b + (l - b)) with l by lia. split; [tauto|]. intros [[?|?]|?]; [lia|tauto|tauto]. }
    split_and!; [|intros; apply Hin; tauto|intros; by apply Hin|left; intros; apply Hin; tauto].
    apply holes_ok_insert; [done|]. simpl. replace (b + (l - b)) with l by lia. intros _. split; [done|].
    intros j g Hne Hj Hg. destruct (M4 j g Hj Hg); lia.
  - apply list_find_None in E. rewrite List.Forall_forall in E.
    assert (Hfull : forall i h, hs !! i = Some h -> h_len h <> 0).
    { intros i h Hi. apply E, list_elem_of_In. by eapply list_elem_of_lookup_2. }
    exists hs. destruct M5 as [(-> & -> & ->)|(j & h & Hj & Hz)]; [|by destruct (Hfull j h Hj)].
    split_and!; try done; [tauto|by right].
Qed.

Lemma arena_alloc_ok vm bytes vm' r :
  0 < bytes < 2 ^ 64 -> bytes mod 4096 = 0 ->
  USER_MMAP_BASE <= mmap_next_va vm <= USER_MMAP_LIMIT -> mmap_next_va vm mod 4096 = 0 ->
  holes_ok (mmap_next_va vm) (mmap_holes vm) -> arena_alloc vm bytes = (vm', r) ->
  r = 0 /\ vm' = vm \/
  arena_range (mmap_next_va vm') r (r + bytes) /\
    mmap_next_va vm <= mmap_next_va vm' <= USER_MMAP_LIMIT /\ mmap_next_va vm' mod 4096 = 0 /\
    vmas vm' = vmas vm /\ user_pml4 vm' = user_pml4 vm /\ holes_ok (mmap_next_va vm') (mmap_holes vm') /\
    (forall a, in_hole (mmap_holes vm') a -> in_hole (mmap_holes vm) a /\ ~ r <= a < r + bytes) /\
    (forall a, r <= a < r + bytes -> in_hole (mmap_holes vm) a \/ mmap_next_va vm <= a) /\
    (forall a, r <= a < r + bytes -> a < mmap_next_va vm').
Proof.
  intros Hb Hba Hn Hna H. unfold arena_alloc. destruct (list_find _ _) as [[i h]|] eqn:E.
  - intros [= <- <-]. right. apply list_find_Some in E as (Hi & Hc & _). zbool.
    assert (Hz : h_len h <> 0) by lia. destruct (ho_ok _ _ H i h Hi Hz) as (E1 & E2 & E3 & E4).
    unfold USER_MMAP_BASE, USER_MMAP_LIMIT in *.
    rewrite (u64_small (h_base h + bytes)), (u64_small (h_len h - bytes)) by lia.
    cbn [mmap_next_va vmas user_pml4 mmap_holes set_holes].
    assert (Hin : forall a, in_hole (<[i := Hole (h_base h + bytes) (h_len h - bytes)]> (mmap_holes vm)) a ->
      in_hole (mmap_holes vm) a /\ ~ h_base h <= a < h_base h + bytes).
    { intros a. rewrite (in_hole_insert _ i h), (in_hole_at _ i h) by done. simpl. intros [Ha|(j & g & Hne & Hj & Ha)].
      - split; [left; lia|lia].
      - split; [right; by exists j, g|]. destruct (ho_apart _ _ H j i g h Hj Hi Hne) as [?|?]; try done; lia. }
    split_and!; try done; try lia.
    + unfold arena_range, USER_MMAP_BASE. split_and!; try lia; try done; by rewrite Zplus_mod, E3, Hba.
    + apply holes_ok_insert; [done|]. simpl. intros Hz'. split.
      * unfold arena_range, USER_MMAP_BASE. replace (h_base h + bytes + (h_len h - bytes)) with (h_base h + h_len h) by lia.
        split_and!; try lia; try done. by rewrite Zplus_mod, E3, Hba.
      * intros j g Hne Hj Hg. destruct (ho_apart _ _ H j i g h Hj Hi Hne) as [?|?]; try done; lia.
    + intros a Ha. left. exists i, h. split; [done|lia].
  - destruct (_ || _) eqn:F; intros [= <- <-]; [by left|right]. zbool.
    unfold USER_MMAP_BASE, USER_MMAP_LIMIT in *.
    assert (Hw : mmap_next_va vm ⊕ bytes = mmap_next_va vm + bytes).
    { destruct (Z.lt_ge_cases (mmap_next_va vm + bytes) (2 ^ 64)); [apply u64_small; lia|].
      exfalso. assert (mmap_next_va vm ⊕ bytes = mmap_next_va vm + bytes - 2 ^ 64) as Hw; [|lia].
      unfold u64. symmetry. apply (Z.mod_unique _ _ 1); lia. }
    rewrite Hw in *. cbn [mmap_next_va vmas user_pml4 mmap_holes set_mmap_next].
    assert (Hal : (mmap_next_va vm + bytes) mod 4096 = 0) by (by rewrite Zplus_mod, Hna, Hba).
    split_and!; try done; try lia.
    + unfold arena_range, USER_MMAP_BASE. lia.
    + split; [apply H| |apply H]. intros i h Hi Hz. destruct (ho_ok _ _ H i h Hi Hz) as (Q1 & Q2 & Q3 & Q4).
      unfold arena_range, USER_MMAP_BASE in *. lia.
    + intros a (i & h & Hi & Ha). split; [by exists i, h|].
      destruct (ho_ok _ _ H i h Hi ltac:(lia)) as (Q1 & Q2 & _). lia.
Qed.
