(* ===== verification/UvmSpec.v ===== *)
(** What user address spaces promise: the reservation map, the arena and the
    frames behind them ([kernel/memory/uvm.c]). *)
From S2P Require Import Prelude.
From S2P Require Import Pmm.
From S2P Require Import PmmSpec.
From S2P Require Import Frames.
From S2P Require Import Vmm.
From S2P Require Import Paging.
From S2P Require Import VmmSpec.
From S2P Require Import Uvm.
From S2P Require Import UvmTable.

(** ** The structure invariant *)
Record vm_ok (vm : task_vm) : Prop := VmOk {
  vo_vmas : vmas_ok (vmas vm);
  vo_next : USER_MMAP_BASE <= mmap_next_va vm <= USER_MMAP_LIMIT;
  vo_next_al : mmap_next_va vm mod 4096 = 0;
  vo_holes : holes_ok (mmap_next_va vm) (mmap_holes vm);
  vo_hole_free a f : in_hole (mmap_holes vm) a -> ~ covers (vmas vm) a f;
  vo_above a f : mmap_next_va vm <= a < USER_MMAP_LIMIT -> ~ covers (vmas vm) a f;
}.

Lemma uvm_init_ok vm : vm_ok (uvm_init vm).
Proof.
  assert (Hno : forall a f, ~ covers (replicate MAX_USER_VMAS no_vma) a f).
  { intros a f (i & v & Hi & [Hu _] & _). apply lookup_replicate in Hi as [-> _]. done. }
  split; cbn [uvm_init vmas mmap_next_va mmap_holes]; try done.
  - split; [apply length_replicate| |].
    + intros i v Hi Hu. apply lookup_replicate in Hi as [-> _]. done.
    + intros i j v w Hi _ _ Hu. apply lookup_replicate in Hi as [-> _]. done.
  - split; [apply length_replicate| |].
    + intros i h Hi Hn. apply lookup_replicate in Hi as [-> _]. done.
    + intros i j h g Hi _ _ Hn. apply lookup_replicate in Hi as [-> _]. done.
Qed.

(** ** Guards *)
Lemma low_bits x : (x &? 4095) = negb (x mod 4096 =? 0).
Proof. change 4095 with (Z.ones 12). by rewrite Z.land_ones. Qed.

Lemma range_ok_spec base bytes : is_u64 base -> is_u64 bytes ->
  uvm_range_ok base bytes = true ->
  USER_VA_MIN <= base /\ 0 < bytes /\ base + bytes <= USER_VA_MAX /\ base ⊕ bytes = base + bytes.
Proof.
  unfold is_u64, uvm_range_ok. intros Hb Hy. repeat (case_match; [done|]). intros _. zbool.
  destruct (Z.lt_ge_cases (base + bytes) (2 ^ 64)) as [Hlt|Hge].
  - rewrite (u64_small (base + bytes)) in * by lia. lia.
  - exfalso. assert (base ⊕ bytes = base + bytes - 2 ^ 64) as Hw; [|lia].
    unfold u64. symmetry. apply (Z.mod_unique _ _ 1); lia.
Qed.

Lemma uncovered_apart vs base last : vmas_ok vs -> base < last -> (forall a f, base <= a < last -> ~ covers vs a f) ->
  forall i v, vs !! i = Some v -> v_used v = true -> v_end v <= base \/ last <= v_start v.
Proof.
  intros V Hbl Hno i v Hi Hu. destruct (vs_ok vs V i v Hi Hu) as ([_ ?] & _).
  destruct (Z.le_gt_cases (v_end v) base); [by left|]. destruct (Z.le_gt_cases last (v_start v)); [by right|].
  exfalso. apply (Hno (Z.max base (v_start v)) (v_pte_flags v)); [lia|]. exists i, v. split_and!; [done|split; [done|lia]|done].
Qed.

Section reserve.
Context {S : Type} `{!PagingOps S}.

Lemma range_unmapped_spec (s : S) vm base bytes :
  base ⊕ bytes = base + bytes -> range_is_unmapped s vm base bytes = true ->
  forall a f, base <= a < base + bytes -> ~ covers (vmas vm) a f.
Proof.
  unfold range_is_unmapped. intros ->. destruct (existsb _ _) eqn:E; [done|]. intros _ a f Ha (i & v & Hi & [Hu Hv] & _).
  assert (Hc : existsb (fun v => v_used v && (base <? v_end v) && (base + bytes >? v_start v)) (vmas vm) = true); [|congruence].
  apply existsb_exists. exists v. split; [apply list_elem_of_In; by eapply list_elem_of_lookup_2|].
  rewrite Hu, (proj2 (Z.ltb_lt _ _)), (proj2 (Z.gtb_lt _ _)) by lia. done.
Qed.

(** The reservation is recorded in one step, whatever placed it. *)
Lemma reserve_record vm vm1 slot w base bytes fl :
  vm_ok vm -> vmas vm1 = vmas vm -> vmas vm !! slot = Some w -> v_used w = false -> fl <> 0 ->
  USER_VA_MIN <= base -> 0 < bytes -> base + bytes <= USER_VA_MAX -> base mod 4096 = 0 -> bytes mod 4096 = 0 ->
  (forall a f, base <= a < base + bytes -> ~ covers (vmas vm) a f) ->
  vmas_ok (record_range (vmas vm1) slot base (base + bytes) fl) /\
  forall a f, covers (record_range (vmas vm1) slot base (base + bytes) fl) a f <->
    covers (vmas vm) a f \/ base <= a < base + bytes /\ f = fl.
Proof.
  intros V -> Hs Hu Hf H1 H2 H3 H4 H5 Hno. apply (record_range_ok (vmas vm) base (base + bytes) fl) with w; try done; try lia.
  - apply V.
  - by rewrite Zplus_mod, H4, H5.
  - apply uncovered_apart; [apply V|lia|done].
Qed.

Lemma uvm_reserve_spec (s : S) vm addr bytes fl fixed vm' r :
  vm_ok vm -> is_u64 addr -> is_u64 bytes ->
  (fixed = true -> addr + bytes <= USER_MMAP_BASE \/ USER_MMAP_LIMIT <= addr) ->
  uvm_reserve s vm addr bytes fl fixed = (vm', r) ->
  vm_ok vm' /\ user_pml4 vm' = user_pml4 vm /\
  (r = 0 /\ vm' = vm \/
   USER_VA_MIN <= r /\ r + bytes <= USER_VA_MAX /\ r mod 4096 = 0 /\ 0 < bytes /\
   (if fixed then r = addr else USER_MMAP_BASE <= r /\ r + bytes <= USER_MMAP_LIMIT) /\
   (forall a f, r <= a < r + bytes -> ~ covers (vmas vm) a f) /\
   (forall a f, covers (vmas vm') a f <-> covers (vmas vm) a f \/ r <= a < r + bytes /\ f = fl)).
Proof.
  intros V Ua Ub Hfix. unfold uvm_reserve. rewrite low_bits.
  destruct (_ || _ || _ || _) eqn:G; [intros [= <- <-]; split_and!; [done..|by left]|].
  zbool. destruct (vma_free_slot (vmas vm)) as [slot|] eqn:Es; [|intros [= <- <-]; split_and!; [done..|by left]].
  apply vma_free_slot_Some in Es as (w & Hs & Hu). unfold is_u64 in Ua, Ub. destruct fixed.
  - rewrite low_bits. destruct (_ || _ || _) eqn:G2; [simpl; intros [= <- <-]; split_and!; [done..|by left]|]. zbool.
    destruct (range_ok_spec addr bytes) as (R1 & R2 & R3 & R4); try done.
    assert (Hz : addr <> 0) by (unfold USER_VA_MIN in *; lia). rewrite (proj2 (Z.eqb_neq _ _) Hz), R4. intros [= <- <-].
    assert (Hno : forall a f, addr <= a < addr + bytes -> ~ covers (vmas vm) a f) by (by eapply range_unmapped_spec).
    destruct (reserve_record vm vm slot w addr bytes fl) as [V1 Hc]; try done.
    specialize (Hfix eq_refl). unfold USER_MMAP_BASE, USER_MMAP_LIMIT in Hfix.
    split_and!; [|done|right; by split_and!]. split; cbn [vmas set_vmas mmap_next_va mmap_holes]; try apply V; [done| |].
    + intros a f Hin. rewrite Hc. intros [Hcv|[Hcv _]]; [by eapply (vo_hole_free vm V)|].
      destruct Hin as (i & h & Hi & Ha). destruct (ho_ok _ _ (vo_holes vm V) i h Hi ltac:(lia)) as (Q1 & Q2 & _).
      pose proof (vo_next vm V). unfold USER_MMAP_BASE, USER_MMAP_LIMIT in *. lia.
    + intros a f Ha. rewrite Hc. intros [Hcv|[Hcv _]]; [by eapply (vo_above vm V)|].
      pose proof (vo_next vm V). unfold USER_MMAP_BASE, USER_MMAP_LIMIT in *. lia.
  - clear Hfix. destruct (arena_alloc vm bytes) as [vm1 base] eqn:Ea.
    destruct (arena_alloc_ok vm bytes vm1 base) as [[-> ->]|(A1 & A2 & A3 & A4 & A5 & A6 & A7 & A8 & A9)];
      try done; try apply V; try lia.
    { simpl. intros [= <- <-]. split_and!; [done..|by left]. }
    destruct A1 as (B1 & B2 & B3 & B4). unfold USER_MMAP_BASE, USER_MMAP_LIMIT in *.
    rewrite (proj2 (Z.eqb_neq base 0)), (u64_small (base + bytes)) by lia. intros [= <- <-].
    assert (Hno : forall a f, base <= a < base + bytes -> ~ covers (vmas vm) a f).
    { intros a f Ha. destruct (A8 a Ha) as [Hin|Hge]; [by apply V|]. apply (vo_above vm V).
      specialize (A9 a Ha). unfold USER_MMAP_LIMIT. lia. }
    destruct (reserve_record vm vm1 slot w base bytes fl) as [V1 Hc]; try done; try (unfold USER_VA_MIN, USER_VA_MAX; lia).
    split_and!; [|done|right; split_and!; try done; unfold USER_VA_MIN, USER_VA_MAX; lia].
    split; cbn [vmas set_vmas mmap_next_va mmap_holes]; try done; try (unfold USER_MMAP_BASE, USER_MMAP_LIMIT; lia).
    + intros a f [Hin Hn]%A7. rewrite Hc. intros [Hcv|[Hcv _]]; [by eapply (vo_hole_free vm V)|done].
    + intros a f Ha. rewrite Hc. unfold USER_MMAP_LIMIT in Ha. intros [Hcv|[Hcv _]]; [|lia].
      eapply (vo_above vm V); [|done]. unfold USER_MMAP_LIMIT. lia.
Qed.
End reserve.

(** ** Frames behind the pages *)
Section frames.
Context {S : Type} `{!PagingOps S, !PagingLaws S}.

Definition user_va (v : Z) : Prop := 0 <= v < 2 ^ 47.
Definition frame_of (e : Z) : Z := Z.land e VMM_ADDR_MASK.
(** The page of [v] is mapped to a frame of this address space. *)
Definition owned (s : S) (root v : Z) : Prop :=
  user_va v /\ pg_entry s root v <> 0 /\ (pg_entry s root v &? VMM_SHARED) = false.

Record frames_ok (s : S) (root : Z) (T : gset Z) : Prop := FramesOk {
  fo_wf : pg_wf s root T;
  fo_frame v : owned s root v -> let q := frame_of (pg_entry s root v) in
    frame_addr q /\ pg_taken s q = true /\ q ∉ T;
  fo_once v w : owned s root v -> owned s root w ->
    frame_of (pg_entry s root v) = frame_of (pg_entry s root w) -> page_of v = page_of w;
}.

Lemma page_of_user v : user_va v -> page_of v = v / 4096.
Proof using. unfold user_va, page_of. intros H. apply Z.mod_small. Z.to_euclidean_division_equations. lia. Qed.

Lemma page_of_same s root v w : page_of v = page_of w -> pg_entry s root v = pg_entry s root w.
Proof using PagingLaws0. apply pg_entry_page. Qed.

(** Entries that agree keep the invariant, if the frames stay taken. *)
Lemma frames_ok_ext s s' root T T' :
  frames_ok s root T -> pg_wf s' root T' ->
  (forall v, pg_entry s' root v = pg_entry s root v \/ pg_entry s' root v = 0) ->
  (forall v, owned s' root v -> pg_taken s' (frame_of (pg_entry s root v)) = true) ->
  (forall q, frame_addr q -> pg_taken s q = true -> q ∈ T' -> q ∈ T) ->
  frames_ok s' root T'.
Proof using PagingLaws0.
  intros F W He Ht HT. assert (Ho : forall v, owned s' root v -> owned s root v /\ pg_entry s' root v = pg_entry s root v).
  { intros v (Hu & Hn & Hs). destruct (He v) as [E|E]; [|congruence]. rewrite E in Hn, Hs. by split_and!. }
  split; [done| |].
  - intros v Hv. destruct (Ho v Hv) as [Hv' E]. rewrite E. destruct (fo_frame _ _ _ F v Hv') as (Q1 & Q2 & Q3).
    split_and!; [done|by apply Ht|]. intros Hin. by apply Q3, HT.
  - intros v w Hv Hw. destruct (Ho v Hv) as [Hv' Ev]. destruct (Ho w Hw) as [Hw' Ew]. rewrite Ev, Ew. by apply (fo_once _ _ _ F).
Qed.

(** ** Faulting a page in *)
Definition flags_ok (vm : task_vm) : Prop := forall a f, covers (vmas vm) a f -> Z.land f VMM_ADDR_MASK = 0.
Definition usable (e : Z) (writable : bool) : bool := (e &? VMM_USER) && (negb writable || (e &? VMM_WRITE)).

(** What faulting may do to the page table: pages already mapped keep their
    entry, and new entries carry the flags of their reservation. *)
Record faulted (vm : task_vm) (s : S) (T : gset Z) (s' : S) (T' : gset Z) : Prop := Faulted {
  fa_ok : frames_ok s' (user_pml4 vm) T';
  fa_tables : T ⊆ T';
  fa_keep v : pg_entry s (user_pml4 vm) v <> 0 -> pg_entry s' (user_pml4 vm) v = pg_entry s (user_pml4 vm) v;
  fa_new v : user_va v -> pg_entry s (user_pml4 vm) v = 0 -> pg_entry s' (user_pml4 vm) v <> 0 ->
    exists phys f, covers (vmas vm) (4096 * page_of v) f /\ pg_entry s' (user_pml4 vm) v = pte_of phys f;
}.

Lemma faulted_refl vm s T : frames_ok s (user_pml4 vm) T -> faulted vm s T s T.
Proof using. intros F. split; try done. Qed.

Lemma faulted_trans vm s1 T1 s2 T2 s3 T3 : faulted vm s1 T1 s2 T2 -> faulted vm s2 T2 s3 T3 -> faulted vm s1 T1 s3 T3.
Proof using.
  intros A B. split; [apply B|etrans; [apply A|apply B]| |].
  - intros v Hv. rewrite (fa_keep _ _ _ _ _ B), (fa_keep _ _ _ _ _ A); try done. by rewrite (fa_keep _ _ _ _ _ A).
  - intros v Hu H1 H3. destruct (Z.eq_dec (pg_entry s2 (user_pml4 vm) v) 0) as [H2|H2]; [by apply (fa_new _ _ _ _ _ B)|].
    rewrite (fa_keep _ _ _ _ _ B) by done. by apply (fa_new _ _ _ _ _ A).
Qed.

Lemma page_base_eq addr : is_u64 addr -> page_base addr = addr - addr mod 4096.
Proof using. intros H. unfold page_base. change 4095 with (2 ^ 12 - 1). by rewrite land_not64_ones. Qed.

Lemma usable_pte phys f w : usable f w = true -> usable (pte_of phys f) w = true.
Proof using.
  unfold usable. rewrite test_user, test_user. unfold VMM_WRITE.
  rewrite !(land_bit_test _ 1) by done. unfold pte_of.
  rewrite !Z.lor_spec. intros [H1 H2]%andb_true_iff. rewrite H1, !orb_true_r. simpl.
  apply orb_true_iff in H2 as [->|H2]; [done|]. rewrite H2. simpl. by rewrite !orb_true_r.
Qed.

Lemma frame_of_pte phys f : frame_addr phys -> Z.land f VMM_ADDR_MASK = 0 -> frame_of (pte_of phys f) = phys.
Proof using. intros Hp Hf. unfold frame_of. by rewrite entry_mask, mask_frame. Qed.

(** A fresh frame mapped at an empty page. *)
Lemma map_fresh_ok vm s T page f phys s3 :
  frames_ok s (user_pml4 vm) T -> user_va page -> page mod 4096 = 0 -> covers (vmas vm) page f -> Z.land f VMM_ADDR_MASK = 0 ->
  pg_entry s (user_pml4 vm) page = 0 -> fst (pg_alloc s) = phys -> phys <> 0 ->
  pg_map (pg_zero (snd (pg_alloc s)) phys) (user_pml4 vm) page phys f = (s3, 0) ->
  exists T', faulted vm s T s3 T' /\ pg_entry s3 (user_pml4 vm) page = pte_of phys f /\
    forall v, page_of v <> page_of page -> pg_entry s3 (user_pml4 vm) v = pg_entry s (user_pml4 vm) v.
Proof using PagingLaws0.
  intros F Hu Hal Hcov Hf He <- Hnz Hm. set (root := user_pml4 vm) in *.
  destruct (pg_alloc_ok s root T (fo_wf _ _ _ F) Hnz) as (Hp & Hfree & W1 & _ & Ht1 & He1).
  set (phys := fst (pg_alloc s)) in *. set (s1 := snd (pg_alloc s)) in *.
  assert (HpT : phys ∉ T).
  { intros Hin. destruct (pg_table_taken s root T phys (fo_wf _ _ _ F) Hin) as [_ Ht]. congruence. }
  destruct (pg_zero_ok s1 root T phys W1 Hp HpT) as (W2 & Ht2 & _ & He2).
  destruct (pg_map_ok _ root T page phys f s3 0 W2 Hm) as (T' & W3 & HT & Ht3 & _ & Hn3 & [[_ He3]|[? _]] & _); [|done].
  assert (Htk : forall q, frame_addr q -> pg_taken s q = true -> pg_taken s3 q = true).
  { intros q Hq Hs. apply Ht3; [done|]. rewrite Ht2, Ht1, Hs, orb_true_r by done. done. }
  assert (Hpk : pg_taken s3 phys = true) by (apply Ht3; [done|]; by rewrite Ht2, Ht1, Z.eqb_refl).
  assert (Hnew : forall q, frame_addr q -> pg_taken s q = true \/ q = phys -> q ∈ T' -> q ∈ T).
  { intros q Hq Hs Hin. destruct (decide (q ∈ T)); [done|]. pose proof (Hn3 q Hin ltac:(done)) as Hno.
    rewrite Ht2, Ht1 in Hno by done. apply orb_false_iff in Hno as [?%Z.eqb_neq ?]. destruct Hs; congruence. }
  assert (Hent : forall v, pg_entry s3 root v = if decide (page_of v = page_of page) then pte_of phys f else pg_entry s root v).
  { intros v. rewrite He3. case_decide; [done|]. by rewrite He2, He1. }
  assert (Hfp : frame_of (pte_of phys f) = phys) by (by apply frame_of_pte).
  exists T'. split_and!.
  - split.
    + split; [done| |].
      * intros v (Hv & Hn & Hs). rewrite Hent in *. case_decide as Hd.
        -- cbv zeta. rewrite Hfp. split_and!; [done|done|]. intros Hin. apply HpT, Hnew; [done|by right|done].
        -- destruct (fo_frame _ _ _ F v) as (Q1 & Q2 & Q3); [done|]. split_and!; [done|by apply Htk|].
           intros Hin. apply Q3, Hnew; [done|by left|done].
      * intros v w (Hv & Hvn & Hvs) (Hw & Hwn & Hws). rewrite Hent in Hvn, Hvs. rewrite Hent in Hwn, Hws. rewrite !Hent.
        destruct (decide (page_of v = page_of page)) as [Ev|Ev], (decide (page_of w = page_of page)) as [Ew|Ew].
        -- congruence.
        -- rewrite Hfp. intros Eq. destruct (fo_frame _ _ _ F w) as (_ & Q2 & _); [done|]. rewrite <-Eq in Q2. congruence.
        -- rewrite Hfp. intros Eq. destruct (fo_frame _ _ _ F v) as (_ & Q2 & _); [done|]. rewrite Eq in Q2. congruence.
        -- by apply (fo_once _ _ _ F).
    + done.
    + intros v Hv. fold root in Hv |- *. rewrite Hent. case_decide as Hd; [|done].
      rewrite (page_of_same s root v page Hd) in Hv. done.
    + intros v Hv H0 H1. fold root in H0, H1 |- *. rewrite Hent in *. case_decide as Hd; [|done].
      exists phys, f. split; [|done]. rewrite Hd, page_of_user by done.
      replace (4096 * (page / 4096)) with page; [done|]. pose proof (Z.div_mod page 4096). lia.
  - by rewrite Hent, decide_True.
  - intros v Hd. by rewrite Hent, decide_False.
Qed.

(** A frame allocated and given back because mapping failed. *)
Lemma map_failed_ok vm s T page f phys s3 r :
  frames_ok s (user_pml4 vm) T -> fst (pg_alloc s) = phys -> phys <> 0 ->
  pg_map (pg_zero (snd (pg_alloc s)) phys) (user_pml4 vm) page phys f = (s3, r) -> r <> 0 ->
  exists T', faulted vm s T (pg_free s3 phys) T' /\
    forall v, pg_entry (pg_free s3 phys) (user_pml4 vm) v = pg_entry s (user_pml4 vm) v.
Proof using PagingLaws0.
  intros F <- Hnz Hm Hr. set (root := user_pml4 vm) in *.
  destruct (pg_alloc_ok s root T (fo_wf _ _ _ F) Hnz) as (Hp & Hfree & W1 & _ & Ht1 & He1).
  set (phys := fst (pg_alloc s)) in *. set (s1 := snd (pg_alloc s)) in *.
  assert (HpT : phys ∉ T).
  { intros Hin. destruct (pg_table_taken s root T phys (fo_wf _ _ _ F) Hin) as [_ Ht]. congruence. }
  destruct (pg_zero_ok s1 root T phys W1 Hp HpT) as (W2 & Ht2 & _ & He2).
  destruct (pg_map_ok _ root T page phys f s3 r W2 Hm) as (T' & W3 & HT & Ht3 & _ & Hn3 & [[? _]|[_ He3]] & _); [done|].
  assert (HpT' : phys ∉ T').
  { intros Hin. pose proof (Hn3 phys Hin HpT) as Hno. by rewrite Ht2, Ht1, Z.eqb_refl in Hno. }
  assert (Hpk : pg_taken s3 phys = true) by (apply Ht3; [done|]; by rewrite Ht2, Ht1, Z.eqb_refl).
  destruct (pg_free_ok s3 root T' phys W3 Hp HpT' Hpk) as (W4 & Ht4 & He4).
  assert (Hent : forall v, pg_entry (pg_free s3 phys) root v = pg_entry s root v) by (intros; by rewrite He4, He3, He2, He1).
  exists T'. split; [|done]. split; [|done| |].
  - apply (frames_ok_ext s _ root T T'); [done|done|by left| |].
    + intros v Hv. assert (Hvs : owned s root v) by (unfold owned in *; by rewrite Hent in Hv).
      destruct (fo_frame _ _ _ F v Hvs) as (Q1 & Q2 & _). rewrite Ht4 by done.
      destruct (Z.eqb_spec phys (frame_of (pg_entry s root v))) as [E|_]; [rewrite <-E in Q2; congruence|].
      apply Ht3; [done|]. by rewrite Ht2, Ht1, Q2, orb_true_r.
    + intros q Hq Hs Hin. destruct (decide (q ∈ T)); [done|]. pose proof (Hn3 q Hin ltac:(done)) as Hno.
      rewrite Ht2, Ht1, Hs, orb_true_r in Hno by done. done.
  - intros v _. apply Hent.
  - intros v _ H0 H1. fold root in H0, H1. by rewrite Hent in H1.
Qed.

Lemma usable_nonzero e w : usable e w = true -> e <> 0.
Proof using. by intros H ->. Qed.

Lemma page_base_page addr : is_u64 addr -> page_of (page_base addr) = page_of addr /\ page_base addr mod 4096 = 0.
Proof using.
  intros H. rewrite page_base_eq by done. unfold page_of. split; [f_equal|]; Z.to_euclidean_division_equations; lia.
Qed.

Lemma covers_user vm a f : vm_ok vm -> covers (vmas vm) a f -> user_va a.
Proof using.
  intros V (i & v & Hi & [Hu Ha] & _). destruct (vs_ok _ (vo_vmas vm V) i v Hi Hu) as (? & ? & _).
  unfold user_va, USER_VA_MIN, USER_VA_MAX in *. lia.
Qed.

Lemma uvm_fault_in_spec vm s T addr w s' ok :
  vm_ok vm -> flags_ok vm -> frames_ok s (user_pml4 vm) T -> is_u64 addr ->
  uvm_fault_in s vm addr w = (s', ok) ->
  exists T', faulted vm s T s' T' /\
    (forall v, page_of v <> page_of addr -> pg_entry s' (user_pml4 vm) v = pg_entry s (user_pml4 vm) v) /\
    (if ok then usable (pg_entry s' (user_pml4 vm) addr) w = true
     else forall v, pg_entry s' (user_pml4 vm) v = pg_entry s (user_pml4 vm) v).
Proof using PagingLaws0.
  intros V Hfl F Ha. unfold uvm_fault_in. set (root := user_pml4 vm).
  assert (Hsame : exists T', faulted vm s T s T' /\
    (forall v, page_of v <> page_of addr -> pg_entry s root v = pg_entry s root v) /\ forall v, pg_entry s root v = pg_entry s root v).
  { exists T. split; [by apply faulted_refl|done]. }
  destruct (root =? 0); [intros [= <- <-]; done|].
  destruct (page_base_page addr Ha) as [Hpg Hpa]. fold root.
  destruct (Z.eqb_spec (pg_entry s root (page_base addr)) 0) as [He|He]; cbn [negb].
  2: { fold (usable (pg_entry s root (page_base addr)) w). rewrite (page_of_same s root (page_base addr) addr Hpg).
    intros [= <- <-]. destruct Hsame as (T' & ? & ? & ?). exists T'. split_and!; try done.
    by destruct (usable (pg_entry s root addr) w). }
  destruct (vma_at vm (page_base addr)) as [vma|] eqn:Ev; [|intros [= <- <-]; done].
  pose proof (vma_at_Some _ _ _ Ev) as Hc.
  destruct (_ || _) eqn:G; [intros [= <- <-]; done|].
  assert (Hus : usable (v_pte_flags vma) w = true).
  { unfold usable. apply orb_false_iff in G as [G1%negb_false_iff G2]. rewrite G1. simpl.
    destruct w; [|done]. simpl in *. by apply negb_false_iff. }
  pose proof (pg_alloc_fail s root T (fo_wf _ _ _ F)) as Hfail.
  destruct (pg_alloc s) as [phys s1] eqn:Ea. cbn [fst snd] in Hfail.
  destruct (Z.eqb_spec phys 0) as [->|Hnz]; [rewrite (Hfail eq_refl); intros [= <- <-]; done|].
  destruct (pg_map (pg_zero s1 phys) root (page_base addr) phys (v_pte_flags vma)) as [s3 r] eqn:Em.
  destruct (Z.eqb_spec r 0) as [->|Hr]; cbn [negb]; intros [= <- <-].
  - destruct (map_fresh_ok vm s T (page_base addr) (v_pte_flags vma) phys s3) as (T' & H1 & H2 & H3); try done.
    + by eapply covers_user.
    + by eapply Hfl.
    + by rewrite Ea.
    + by rewrite Ea.
    + exists T'. split_and!; [done|by rewrite <-Hpg|].
      rewrite (page_of_same _ _ addr (page_base addr)) by done. fold root in H2. rewrite H2. by apply usable_pte.
  - destruct (map_failed_ok vm s T (page_base addr) (v_pte_flags vma) phys s3 r) as (T' & H1 & H2); try done.
    + by rewrite Ea.
    + by rewrite Ea.
    + exists T'. split_and!; try done.
Qed.

Lemma fault_all_spec vm pages w : forall s T s' ok,
  vm_ok vm -> flags_ok vm -> frames_ok s (user_pml4 vm) T -> Forall is_u64 pages ->
  fault_all s vm pages w = (s', ok) ->
  exists T', faulted vm s T s' T' /\
    (ok = true -> forall p, p ∈ pages -> usable (pg_entry s' (user_pml4 vm) p) w = true).
Proof using PagingLaws0.
  induction pages as [|p pages IH]; intros s T s' ok V Hfl F Hp; cbn [fault_all].
  { intros [= <- <-]. exists T. split; [by apply faulted_refl|]. intros _ p Hin. by apply not_elem_of_nil in Hin. }
  apply Forall_cons_1 in Hp as [Hp Hps]. destruct (uvm_fault_in s vm p w) as [s1 ok1] eqn:E1.
  destruct (uvm_fault_in_spec vm s T p w s1 ok1 V Hfl F Hp E1) as (T1 & F1 & _ & U1).
  destruct ok1; [|intros [= <- <-]; by exists T1]. intros E2.
  destruct (IH s1 T1 s' ok V Hfl (fa_ok _ _ _ _ _ F1) Hps E2) as (T2 & F2 & U2).
  exists T2. split; [by eapply faulted_trans|]. intros Hok q [->|Hq]%elem_of_cons; [|by apply U2].
  by rewrite (fa_keep _ _ _ _ _ F2) by (by eapply usable_nonzero).
Qed.

(** ** Dropping pages *)
Lemma frames_ok_sub s s' root T :
  frames_ok s root T -> pg_wf s' root T ->
  (forall v, owned s' root v -> owned s root v /\ frame_of (pg_entry s' root v) = frame_of (pg_entry s root v) /\
     pg_taken s' (frame_of (pg_entry s root v)) = true) ->
  frames_ok s' root T.
Proof using.
  intros F W H. split; [done| |].
  - intros v Hv. destruct (H v Hv) as (Hv' & E & Ht). cbv zeta. rewrite E.
    destruct (fo_frame _ _ _ F v Hv') as (? & _ & ?). done.
  - intros v w Hv Hw. destruct (H v Hv) as (Hv' & Ev & _). destruct (H w Hw) as (Hw' & Ew & _).
    rewrite Ev, Ew. by apply (fo_once _ _ _ F).
Qed.

Lemma drop_page_spec keep vm s T va :
  frames_ok s (user_pml4 vm) T -> user_va va ->
  (keep = false -> (pg_entry s (user_pml4 vm) va &? VMM_SHARED) = false) ->
  let s' := drop_page keep vm s va in
  frames_ok s' (user_pml4 vm) T /\
  (forall v, pg_entry s' (user_pml4 vm) v = if decide (page_of v = page_of va) then 0 else pg_entry s (user_pml4 vm) v) /\
  (forall q, frame_addr q -> pg_taken s' q = true <->
     pg_taken s q = true /\ ~ (owned s (user_pml4 vm) va /\ q = frame_of (pg_entry s (user_pml4 vm) va))).
Proof using PagingLaws0.
  intros F Hu Hk. set (root := user_pml4 vm) in *. unfold drop_page. fold root.
  destruct (Z.eqb_spec (pg_entry s root va) 0) as [He|He].
  { split_and!; [done| |].
    - intros v. case_decide as Hd; [by rewrite (page_of_same s root v va)|done].
    - intros q Hq. split; [|tauto]. intros Ht. split; [done|]. intros [(_ & ? & _) _]. done. }
  destruct (pg_unmap s root va) as [s1 r] eqn:Em.
  destruct (pg_unmap_ok s root T va s1 r (fo_wf _ _ _ F) Em) as (W1 & Ht1 & He1).
  assert (Hown : forall v, owned s1 root v -> owned s root v /\ pg_entry s1 root v = pg_entry s root v /\ page_of v <> page_of va).
  { intros v (Hv & Hn & Hs). rewrite He1 in Hn, Hs |- *. case_decide; [done|]. done. }
  assert (F1 : frames_ok s1 root T).
  { apply (frames_ok_sub s); [done|done|]. intros v (Hv & E & _)%Hown. split_and!; [done|by rewrite E|].
    rewrite Ht1. by apply (fo_frame _ _ _ F). }
  destruct (keep && (pg_entry s root va &? VMM_SHARED)) eqn:Es.
  { apply andb_true_iff in Es as [_ Es]. split_and!; [done|done|]. intros q Hq. rewrite Ht1. split; [|tauto].
    intros Ht. split; [done|]. intros [(_ & _ & ?) _]. congruence. }
  assert (Hs : (pg_entry s root va &? VMM_SHARED) = false) by (destruct keep; [done|by apply Hk]).
  assert (Ho : owned s root va) by done. destruct (fo_frame _ _ _ F va Ho) as (Q1 & Q2 & Q3).
  fold (frame_of (pg_entry s root va)). set (q0 := frame_of (pg_entry s root va)) in *.
  destruct (pg_free_ok s1 root T q0 W1 Q1 Q3) as (W2 & Ht2 & He2); [by rewrite Ht1|].
  split_and!.
  - apply (frames_ok_sub s1); [done|done|]. intros v (Hv & Hn & Hsv). rewrite He2 in Hn, Hsv.
    assert (Ho1 : owned s1 root v) by done. destruct (Hown v Ho1) as (Hov & E & Hne).
    split_and!; [done|by rewrite He2|]. destruct (fo_frame _ _ _ F1 v Ho1) as (P1 & P2 & _).
    rewrite Ht2, P2, andb_true_r by done. destruct (Z.eqb_spec q0 (frame_of (pg_entry s1 root v))) as [Eq|]; [|done].
    destruct Hne. apply (fo_once _ _ _ F); [done|done|]. by rewrite <-E, <-Eq.
  - intros v. by rewrite He2.
  - intros q Hq. rewrite Ht2, Ht1 by done. destruct (Z.eqb_spec q0 q) as [<-|Hne]; simpl.
    + split; [done|]. intros [_ Hn]. by destruct Hn.
    + split; [|tauto]. intros Ht. split; [done|]. intros [_ ->]. done.
Qed.

Lemma drop_all_spec keep vm pages : forall s T,
  frames_ok s (user_pml4 vm) T -> Forall user_va pages ->
  (keep = false -> forall p, p ∈ pages -> (pg_entry s (user_pml4 vm) p &? VMM_SHARED) = false) ->
  let s' := foldl (drop_page keep vm) s pages in
  frames_ok s' (user_pml4 vm) T /\
  (forall v, pg_entry s' (user_pml4 vm) v =
     if decide (page_of v ∈ map page_of pages) then 0 else pg_entry s (user_pml4 vm) v) /\
  (forall q, frame_addr q -> pg_taken s' q = true <->
     pg_taken s q = true /\ ~ exists p, p ∈ pages /\ owned s (user_pml4 vm) p /\ q = frame_of (pg_entry s (user_pml4 vm) p)).
Proof using PagingLaws0.
  set (root := user_pml4 vm). induction pages as [|p pages IH]; intros s T F Hp Hk; cbn [foldl].
  { split_and!; [done| |].
    - intros v. rewrite decide_False; [done|]. apply not_elem_of_nil.
    - intros q _. split; [|tauto]. intros Ht. split; [done|]. intros (p & Hin & _). by apply not_elem_of_nil in Hin. }
  apply Forall_cons_1 in Hp as [Hp Hps].
  destruct (drop_page_spec keep vm s T p F Hp) as (F1 & E1 & T1); [intros Hf; apply Hk; [done|left]|].
  set (s1 := drop_page keep vm s p) in *. fold root in F1, E1, T1.
  destruct (IH s1 T F1 Hps) as (F2 & E2 & T2).
  { intros Hf p' Hin. rewrite E1. case_decide; [done|]. apply Hk; [done|by right]. }
  split_and!; [done| |].
  - intros v. rewrite E2, E1. cbn [map]. destruct (decide (page_of v ∈ map page_of pages)) as [Hin|Hin].
    + rewrite decide_True; [done|]. by right.
    + destruct (decide (page_of v = page_of p)) as [Hd|Hd].
      * rewrite decide_True; [done|]. rewrite Hd. left.
      * rewrite decide_False; [done|]. by intros [?|?]%elem_of_cons.
  - intros q Hq. rewrite T2, T1 by done. split.
    + intros [[Ht Hn1] Hn2]. split; [done|]. intros (p' & [->|Hin]%elem_of_cons & Ho & Eq); [by apply Hn1|].
      destruct (decide (page_of p' = page_of p)) as [Hd|Hd].
      * apply Hn1. unfold owned in *. rewrite <-(page_of_same s root p' p) by done. by split_and!; try tauto.
      * apply Hn2. exists p'. unfold owned in *. rewrite E1, decide_False by done. done.
    + intros [Ht Hn]. split_and!; [done| |].
      * intros [Ho Eq]. apply Hn. exists p. by split_and!; [left|..].
      * intros (p' & Hin & (Hu & Hne & Hs) & Eq). rewrite E1 in Hne, Hs, Eq. case_decide; [done|].
        apply Hn. exists p'. by split_and!; [right|..].
Qed.

(** ** Re-protecting pages *)
Lemma reprotect_shared e fl : (reprotect e fl &? VMM_SHARED) = false -> (e &? VMM_SHARED) = false.
Proof using.
  unfold VMM_SHARED at 1 2. rewrite !(land_bit_test _ 9) by done. unfold reprotect. rewrite !Z.lor_spec, !Z.land_spec.
  intros [[_ H]%orb_false_iff _]%orb_false_iff. unfold VMM_SHARED in H. by rewrite testbit_pow2, andb_true_r in H.
Qed.

Lemma protect_all_spec vm fl pages : Z.land fl VMM_ADDR_MASK = 0 -> forall s T s' r,
  frames_ok s (user_pml4 vm) T -> NoDup (map page_of pages) ->
  (forall p, p ∈ pages -> pg_entry s (user_pml4 vm) p <> 0) ->
  protect_all s vm pages fl = (s', r) ->
  r = 0 /\ frames_ok s' (user_pml4 vm) T /\
  (forall v, pg_entry s' (user_pml4 vm) v = if decide (page_of v ∈ map page_of pages)
     then reprotect (pg_entry s (user_pml4 vm) v) fl else pg_entry s (user_pml4 vm) v).
Proof using PagingLaws0.
  intros Hfl. set (root := user_pml4 vm). induction pages as [|p pages IH]; intros s T s' r F Hd Hn; cbn [protect_all].
  { intros [= <- <-]. split_and!; [done|done|]. intros v. rewrite decide_False; [done|]. apply not_elem_of_nil. }
  destruct (pg_protect s (user_pml4 vm) p fl) as [s1 r1] eqn:E1. fold root in E1.
  destruct (pg_protect_ok s root T p fl s1 r1 (fo_wf _ _ _ F) E1) as (W1 & Ht1 & [(_ & H0 & _)|(-> & _ & He1)]).
  { destruct (Hn p); [left|done]. }
  cbn [negb Z.eqb]. inversion_clear Hd as [|? ? Hnot Hd'].
  assert (F1 : frames_ok s1 root T).
  { apply (frames_ok_sub s); [done|done|]. intros v (Hv & Hnv & Hs). rewrite He1 in Hnv, Hs |- *. rewrite Ht1.
    destruct (decide (page_of v = page_of p)) as [Hd|Hd].
    - rewrite <-(page_of_same s root v p Hd) in *. apply reprotect_shared in Hs.
      assert (Ho : owned s root v) by (split; [done|split; [rewrite (page_of_same s root v p Hd); apply Hn; left|done]]).
      split_and!; [done|by apply reprotect_mask|by apply (fo_frame _ _ _ F)].
    - split_and!; [done|done|by apply (fo_frame _ _ _ F)]. }
  intros E2. destruct (IH s1 T s' r F1 Hd') as (-> & F2 & He2); [|done|].
  { intros p' Hin. rewrite He1. case_decide; [apply reprotect_nonzero|]. apply Hn. by right. }
  split_and!; [done|done|]. intros v. rewrite He2, He1. cbn [map].
  destruct (decide (page_of v = page_of p)) as [Hpv|Hpv].
  - rewrite decide_False by (by rewrite Hpv). rewrite decide_True by (rewrite Hpv; left).
    by rewrite (page_of_same s root v p).
  - destruct (decide (page_of v ∈ map page_of pages)); [rewrite decide_True; [done|by right]|].
    rewrite decide_False; [done|]. by intros [?|?]%elem_of_cons.
Qed.

(** ** Ranges as lists of pages *)
Lemma range_pages addr bytes : addr mod 4096 = 0 -> bytes mod 4096 = 0 -> 0 <= addr -> 0 < bytes -> addr + bytes <= 2 ^ 47 ->
  let pages := map (fun off => addr ⊕ off) (page_offsets bytes) in
  Forall user_va pages /\ Forall is_u64 pages /\ NoDup (map page_of pages) /\
  (forall v, user_va v -> page_of v ∈ map page_of pages <-> addr <= v < addr + bytes) /\
  (forall p, p ∈ pages -> addr <= p < addr + bytes) /\
  (forall v, addr <= v < addr + bytes -> exists p, p ∈ pages /\ page_of p = page_of v).
Proof using.
  intros Ha Hb H0 Hpos Hhi pages. set (n := bytes / 4096).
  assert (Hn : (bytes + 4095) / 4096 = n) by (unfold n; Z.to_euclidean_division_equations; lia).
  assert (Hbn : bytes = 4096 * n) by (unfold n; Z.to_euclidean_division_equations; lia).
  set (k0 := addr / 4096). assert (Hak : addr = 4096 * k0) by (unfold k0; Z.to_euclidean_division_equations; lia).
  assert (Hp : pages = map (fun k => 4096 * (k0 + k)) (seqZ 0 n)).
  { unfold pages, page_offsets. rewrite map_map, Hn. apply map_ext_in. intros k Hk%list_elem_of_In%elem_of_seqZ.
    rewrite u64_small; lia. }
  assert (Hin : forall p, p ∈ pages <-> exists k, 0 <= k < n /\ p = 4096 * (k0 + k)).
  { intros p. rewrite Hp. rewrite list_elem_of_fmap. setoid_rewrite elem_of_seqZ. naive_solver lia. }
  assert (Hpk : forall k, 0 <= k < n -> page_of (4096 * (k0 + k)) = k0 + k).
  { intros k Hk. rewrite page_of_user by (unfold user_va; lia). rewrite Z.mul_comm. by apply Z.div_mul. }
  assert (Hu : forall p, p ∈ pages -> user_va p) by (intros p (k & Hk & ->)%Hin; unfold user_va; lia).
  assert (Hcov : forall v, addr <= v < addr + bytes -> exists p, p ∈ pages /\ page_of p = page_of v).
  { intros v Hv. exists (4096 * (k0 + (v / 4096 - k0))). split.
    - apply Hin. exists (v / 4096 - k0). split; [|done]. Z.to_euclidean_division_equations. lia.
    - rewrite Hpk by (Z.to_euclidean_division_equations; lia). rewrite page_of_user by (unfold user_va; lia). lia. }
  split_and!.
  - apply List.Forall_forall. intros p Hp'%list_elem_of_In. by apply Hu.
  - apply List.Forall_forall. intros p Hp'%list_elem_of_In%Hu. unfold user_va, is_u64 in *. lia.
  - rewrite Hp, map_map. rewrite (map_ext_in _ (fun k => k0 + k)).
    + apply NoDup_fmap_2; [intros x y; lia|apply NoDup_seqZ].
    + intros k Hk%list_elem_of_In%elem_of_seqZ. apply Hpk. lia.
  - intros v Hv. split.
    + intros (p & Hpv & (k & Hk & ->)%Hin)%list_elem_of_fmap. rewrite Hpk, page_of_user in Hpv by done.
      Z.to_euclidean_division_equations. lia.
    + intros Hr. destruct (Hcov v Hr) as (p & Hp' & <-). by apply list_elem_of_fmap_2.
  - intros p (k & Hk & ->)%Hin. lia.
  - done.
Qed.
Lemma fault_all_usable s vm pages w : user_pml4 vm <> 0 -> Forall is_u64 pages ->
  (forall p, p ∈ pages -> usable (pg_entry s (user_pml4 vm) p) w = true) -> fault_all s vm pages w = (s, true).
Proof using PagingLaws0.
  intros Hr. induction pages as [|p pages IH]; intros Hp Hu; [done|]. apply Forall_cons_1 in Hp as [Hp Hps].
  cbn [fault_all]. assert (uvm_fault_in s vm p w = (s, true)) as ->; [|apply IH; [done|]; intros q Hq; apply Hu; by right].
  unfold uvm_fault_in. cbv zeta. rewrite (proj2 (Z.eqb_neq _ _) Hr). destruct (page_base_page p Hp) as [Hpg _].
  rewrite (page_of_same s (user_pml4 vm) _ p Hpg). specialize (Hu p ltac:(left)).
  rewrite (proj2 (Z.eqb_neq _ _) (usable_nonzero _ _ Hu)). cbn [negb]. unfold usable in Hu. by rewrite Hu.
Qed.

(** The pages a buffer touches, as the loop of [uvm_buffer_ok] visits them. *)
Definition span (base last : Z) : list Z :=
  map (fun k => page_base base + 4096 * k) (seqZ 0 ((page_base (last - 1) - page_base base) / 4096 + 1)).

Lemma span_pages base last : 0 <= base -> base < last -> last <= 2 ^ 47 ->
  Forall is_u64 (span base last) /\
  (forall v, base <= v < last -> exists p, p ∈ span base last /\ page_of p = page_of v) /\
  (forall p, p ∈ span base last -> exists v, base <= v < last /\ page_of p = page_of v).
Proof using.
  intros H0 Hl Hhi. assert (Ub : is_u64 base) by (unfold is_u64; lia). assert (Ul : is_u64 (last - 1)) by (unfold is_u64; lia).
  set (b := base / 4096). set (e := (last - 1) / 4096).
  assert (Hb : page_base base = 4096 * b) by (rewrite page_base_eq by done; unfold b; Z.to_euclidean_division_equations; lia).
  assert (He : page_base (last - 1) = 4096 * e) by (rewrite page_base_eq by done; unfold e; Z.to_euclidean_division_equations; lia).
  assert (Hin : forall p, p ∈ span base last <-> exists k, 0 <= k <= e - b /\ p = 4096 * (b + k)).
  { intros p. unfold span. rewrite Hb, He. replace (4096 * e - 4096 * b) with ((e - b) * 4096) by lia. rewrite Z.div_mul by done.
    rewrite list_elem_of_fmap. setoid_rewrite elem_of_seqZ. split; intros (k & ? & ?); exists k; lia. }
  assert (Hpk : forall k, 0 <= k <= e - b -> page_of (4096 * (b + k)) = b + k).
  { intros k Hk. rewrite page_of_user by (unfold user_va, b, e in *; Z.to_euclidean_division_equations; lia). rewrite Z.mul_comm. by apply Z.div_mul. }
  split_and!.
  - apply List.Forall_forall. intros p (k & Hk & ->)%list_elem_of_In%Hin. unfold is_u64, b, e in *. Z.to_euclidean_division_equations. lia.
  - intros v Hv. assert (Hk : 0 <= v / 4096 - b <= e - b) by (unfold b, e; Z.to_euclidean_division_equations; lia).
    exists (4096 * (b + (v / 4096 - b))). split; [apply Hin; by exists (v / 4096 - b)|].
    rewrite Hpk by done. rewrite page_of_user by (unfold user_va; lia). lia.
  - intros p (k & Hk & ->)%Hin. exists (Z.max base (4096 * (b + k))).
    assert (base <= Z.max base (4096 * (b + k)) < last) by (unfold b, e in *; Z.to_euclidean_division_equations; lia).
    split; [done|]. rewrite Hpk, page_of_user by (done || unfold user_va; lia). unfold b in *. Z.to_euclidean_division_equations. lia.
Qed.
Lemma uvm_fault_in_refused s vm addr w s' : vm_ok vm -> is_u64 addr -> uvm_fault_in s vm addr w = (s', false) ->
  user_pml4 vm = 0 \/
  pg_entry s (user_pml4 vm) addr <> 0 /\ usable (pg_entry s (user_pml4 vm) addr) w = false \/
  (forall f, covers (vmas vm) (page_base addr) f -> usable f w = false) \/
  fst (pg_alloc s) = 0 \/
  exists f, snd (pg_map (pg_zero (snd (pg_alloc s)) (fst (pg_alloc s))) (user_pml4 vm) (page_base addr) (fst (pg_alloc s)) f) <> 0.
Proof using PagingLaws0.
  intros V Ha. unfold uvm_fault_in. cbv zeta. destruct (Z.eqb_spec (user_pml4 vm) 0); [by left|].
  destruct (page_base_page addr Ha) as [Hpg _]. rewrite (page_of_same s (user_pml4 vm) (page_base addr) addr Hpg).
  destruct (Z.eqb_spec (pg_entry s (user_pml4 vm) addr) 0) as [He|He]; cbn [negb]; [|intros [= _ Hu]; by right; left].
  destruct (vma_at vm (page_base addr)) as [v|] eqn:Ev; [|intros _; right; right; left; intros f Hc; by eapply vma_at_None in Ev].
  apply vma_at_Some in Ev. destruct (_ || _) eqn:G.
  { intros _. right; right; left. intros f Hc. rewrite (covers_fun _ _ _ _ (vo_vmas vm V) Hc Ev). unfold usable.
    destruct (v_pte_flags v &? VMM_USER); [|done]. simpl in *. destruct w; [|done]. simpl in *. by apply negb_true_iff. }
  destruct (pg_alloc s) as [phys s1]. cbn [fst snd]. destruct (Z.eqb_spec phys 0); [intros _; do 3 right; by left|].
  destruct (pg_map _ _ _ _ _) as [s2 r] eqn:Em. destruct (Z.eqb_spec r 0); [done|]. intros _. do 4 right.
  exists (v_pte_flags v). by rewrite Em.
Qed.

(** What the guards of [uvm_buffer_ok] let through. *)
Lemma buffer_guard_spec pointer bytes : is_u64 pointer -> is_u64 bytes -> bytes <> 0 ->
  let last := pointer ⊕ bytes in
  let refused := (pointer <? USER_VA_MIN) || (last <? pointer) ||
    negb (last <=? USER_VA_MAX) && negb ((pointer >=? USER_STACK_LOW) && (last <=? USER_STACK_TOP)) in
  refused = true /\ ~ (USER_VA_MIN <= pointer /\ pointer + bytes <= USER_VA_MAX) \/
  refused = false /\ last = pointer + bytes /\ USER_VA_MIN <= pointer /\
    (pointer + bytes <= USER_VA_MAX \/ USER_STACK_LOW <= pointer /\ pointer + bytes <= USER_STACK_TOP).
Proof using.
  intros Hp Hb Hn last refused. unfold is_u64 in Hp, Hb.
  assert (Hl : last = pointer + bytes \/ last = pointer + bytes - 2 ^ 64 /\ 2 ^ 64 <= pointer + bytes).
  { destruct (Z.lt_ge_cases (pointer + bytes) (2 ^ 64)); [left; apply u64_small; lia|right].
    split; [|done]. unfold last, u64. symmetry. apply (Z.mod_unique _ _ 1); lia. }
  clearbody last. destruct refused eqn:R; [left|right]; unfold refused in R; (split; [done|]); unfold USER_VA_MAX, USER_VA_MIN, USER_STACK_LOW, USER_STACK_TOP, USER_STACK_PAGES in *; lia.
Qed.

Lemma discard_scan s vm pages p :
  existsb (fun va => match vma_at vm va with None => true | Some _ => pg_entry s (user_pml4 vm) va &? VMM_SHARED end) pages = false ->
  p ∈ pages -> (exists f, covers (vmas vm) p f) /\ (pg_entry s (user_pml4 vm) p &? VMM_SHARED) = false.
Proof using.
  intros Hx Hp. apply not_true_iff_false in Hx. rewrite existsb_exists in Hx.
  destruct (vma_at vm p) as [v|] eqn:Ev.
  - split; [eexists; by apply vma_at_Some|]. apply not_true_iff_false. intros Hs. apply Hx. exists p.
    by rewrite <-list_elem_of_In, Ev.
  - destruct Hx. exists p. by rewrite <-list_elem_of_In, Ev.
Qed.

Lemma discard_scan_refused s vm pages :
  existsb (fun va => match vma_at vm va with None => true | Some _ => pg_entry s (user_pml4 vm) va &? VMM_SHARED end) pages = true ->
  exists p, p ∈ pages /\ ((forall f, ~ covers (vmas vm) p f) \/ (pg_entry s (user_pml4 vm) p &? VMM_SHARED) = true).
Proof using.
  intros (p & Hp%list_elem_of_In & Hx)%existsb_exists. exists p. split; [done|].
  destruct (vma_at vm p) eqn:Ev; [by right|left]. by apply vma_at_None.
Qed.

(** A range given back page by page gives back what its bytes map. *)
Lemma dropped_range s root addr bytes q :
  addr mod 4096 = 0 -> bytes mod 4096 = 0 -> 0 <= addr -> 0 < bytes -> addr + bytes <= 2 ^ 47 ->
  (exists p, p ∈ map (fun off => addr ⊕ off) (page_offsets bytes) /\ owned s root p /\ q = frame_of (pg_entry s root p)) <->
  exists v, addr <= v < addr + bytes /\ owned s root v /\ q = frame_of (pg_entry s root v).
Proof using PagingLaws0.
  intros Ha Hb H0 Hpos Hhi. destruct (range_pages addr bytes) as (P1 & _ & _ & _ & P5 & P6); try done. split.
  - intros (p & Hp & Ho & Hq). exists p. by split; [apply P5|].
  - intros (v & Hv & (_ & Hn & Hs) & ->). destruct (P6 v Hv) as (p & Hp & Hpv). exists p.
    rewrite <-(page_of_same s root p v Hpv) in *. split_and!; [done| |done].
    split; [|done]. rewrite List.Forall_forall in P1. by apply P1, list_elem_of_In.
Qed.

(** The pages of a range are page aligned. *)
Lemma range_page_base addr bytes p :
  addr mod 4096 = 0 -> bytes mod 4096 = 0 -> 0 <= addr -> 0 < bytes -> addr + bytes <= 2 ^ 47 ->
  p ∈ map (fun off => addr ⊕ off) (page_offsets bytes) -> 4096 * page_of p = p.
Proof using.
  intros Ha Hb H0 Hpos Hhi Hp. destruct (range_pages addr bytes) as (_ & _ & _ & _ & P5 & _); try done.
  pose proof (P5 p Hp). rewrite page_of_user by (unfold user_va; lia).
  apply list_elem_of_fmap in Hp as (o & -> & (k & -> & Hk%elem_of_seqZ)%list_elem_of_fmap).
  rewrite u64_small in * by (Z.to_euclidean_division_equations; lia). Z.to_euclidean_division_equations. lia.
Qed.

(** Freeing a released arena range keeps the structure invariant. *)
Lemma release_holes vm vs addr bytes :
  vm_ok vm -> vmas_ok vs -> (forall a f, covers vs a f <-> covers (vmas vm) a f /\ ~ addr <= a < addr + bytes) ->
  addr mod 4096 = 0 -> bytes mod 4096 = 0 -> 0 < bytes ->
  (USER_MMAP_BASE <= addr -> addr + bytes <= USER_MMAP_LIMIT -> addr + bytes <= mmap_next_va vm) ->
  let vm' := if (addr >=? USER_MMAP_BASE) && (addr + bytes <=? USER_MMAP_LIMIT)
             then hole_add (set_vmas vm vs) addr bytes else set_vmas vm vs in
  vm_ok vm' /\ vmas vm' = vs.
Proof using.
  intros V Vs Hcov Ha Hb Hpos Hst. cbv zeta. destruct (_ && _) eqn:Ga.
  - zbool. pose proof (vo_next vm V).
    destruct (hole_add_ok (set_vmas vm vs) addr bytes) as (hs & -> & Hh & _ & Hin & _); cbn [mmap_next_va set_vmas]; [lia|apply V| |].
    { unfold arena_range. split_and!; try lia; try done. by rewrite Zplus_mod, Ha, Hb. }
    split; [|done]. split; cbn [vmas set_vmas set_holes mmap_next_va mmap_holes]; try done; try apply V.
    + intros a f [Hi|Hr]%Hin [Hc Hn]%Hcov; [by eapply (vo_hole_free vm V)|done].
    + intros a f Hr [Hc _]%Hcov. by eapply (vo_above vm V).
  - split; [|done]. split; cbn [vmas set_vmas mmap_next_va mmap_holes]; try apply V; [done| |].
    + intros a f Hin [Hc _]%Hcov. by eapply (vo_hole_free vm V).
    + intros a f Hr [Hc _]%Hcov. by eapply (vo_above vm V).
Qed.
End frames.

(** ** Properties *)
Section properties.
Context {S : Type} `{!PagingOps S, !PagingLaws S}.



(** C24: faulting a page in. Mapped pages keep their entries, new
    entries carry the flags of their reservation and an exclusively owned frame, and
    no page but the faulting one changes. Success leaves the page accessible as
    asked; refusal changes no entry and has a cause: no address space, a mapped page without the rights, no
    reservation granting them, or no memory for the frame or the tables. *)
Theorem uvm_fault_in_correct (s : S) T vm addr w s' ok :
  vm_ok vm -> flags_ok vm -> frames_ok s (user_pml4 vm) T -> is_u64 addr ->
  uvm_fault_in s vm addr w = (s', ok) ->
  (exists T', faulted vm s T s' T') /\
  (forall v, page_of v <> page_of addr -> pg_entry s' (user_pml4 vm) v = pg_entry s (user_pml4 vm) v) /\
  (ok = true -> usable (pg_entry s' (user_pml4 vm) addr) w = true) /\
  (ok = false -> (forall v, pg_entry s' (user_pml4 vm) v = pg_entry s (user_pml4 vm) v) /\
     (user_pml4 vm = 0 \/
      pg_entry s (user_pml4 vm) addr <> 0 /\ usable (pg_entry s (user_pml4 vm) addr) w = false \/
      (forall f, covers (vmas vm) (page_base addr) f -> usable f w = false) \/
      fst (pg_alloc s) = 0 \/
      exists f, snd (pg_map (pg_zero (snd (pg_alloc s)) (fst (pg_alloc s))) (user_pml4 vm) (page_base addr) (fst (pg_alloc s)) f) <> 0)).
Proof using PagingLaws0.
  intros V Hfl F Ha E. destruct (uvm_fault_in_spec vm s T addr w s' ok V Hfl F Ha E) as (T' & Fa & Ho & Hr).
  split_and!; [by exists T'|done|by intros ->|]. intros ->. split; [done|]. by eapply uvm_fault_in_refused.
Qed.

(** Validating a user buffer. Acceptance means that every byte of the
    buffer lies in the user range and is accessible as asked in the resulting
    page table; a legal buffer whose bytes are all accessible is accepted
    with no change; in every case the page table changes only by faulting pages in. *)
Theorem uvm_buffer_ok_correct (s : S) T vm pointer bytes w s' ok :
  vm_ok vm -> flags_ok vm -> frames_ok s (user_pml4 vm) T -> is_u64 pointer -> is_u64 bytes ->
  uvm_buffer_ok s vm pointer bytes w = (s', ok) ->
  (exists T', faulted vm s T s' T') /\
  (ok = true -> forall v, pointer <= v < pointer + bytes ->
     (USER_VA_MIN <= v < USER_VA_MAX \/ USER_STACK_LOW <= v < USER_STACK_TOP) /\ usable (pg_entry s' (user_pml4 vm) v) w = true) /\
  (user_pml4 vm <> 0 -> USER_VA_MIN <= pointer -> pointer + bytes <= USER_VA_MAX ->
   (forall v, pointer <= v < pointer + bytes -> usable (pg_entry s (user_pml4 vm) v) w = true) -> s' = s /\ ok = true).
Proof using PagingLaws0.
  intros V Hfl F Up Ub. unfold uvm_buffer_ok. destruct (Z.eqb_spec bytes 0) as [->|Hb].
  { intros [= <- <-]. split_and!; [exists T; by apply faulted_refl|lia|done]. }
  destruct (Z.eqb_spec (user_pml4 vm) 0) as [|Hr]; [intros [= <- <-]; split_and!; [exists T; by apply faulted_refl|done|done]|].
  pose proof (buffer_guard_spec pointer bytes Up Ub Hb) as Hguard. cbv zeta in Hguard |- *.
  rewrite orb_if. destruct Hguard as [[-> Hg]|(-> & Hlast & Hlow & Hrange)].
  { intros [= <- <-]. split_and!; [exists T; by apply faulted_refl|done|]. intros. lia. }
  rewrite Hlast, (u64_small (pointer + bytes - 1)) by (unfold is_u64 in *; unfold USER_VA_MAX, USER_STACK_TOP in *; lia).
  fold (span pointer (pointer + bytes)). intros E.
  destruct (span_pages pointer (pointer + bytes)) as (P1 & P2 & P3); [unfold is_u64 in *; lia|unfold is_u64 in *; lia| |].
  { unfold USER_VA_MAX, USER_STACK_TOP in *. lia. }
  destruct (fault_all_spec vm _ w s T s' ok V Hfl F P1 E) as (T' & Fa & Hu). split_and!; [by exists T'| |].
  - intros Hok v Hv. split; [lia|]. destruct (P2 v Hv) as (p & Hp & Hpv).
    rewrite <-(page_of_same s' (user_pml4 vm) p v Hpv). by apply Hu.
  - intros _ _ _ Hall. rewrite fault_all_usable in E; [by injection E as <- <-|done|done|].
    intros p Hp. destruct (P3 p Hp) as (v & Hv & Hpv). rewrite (page_of_same s (user_pml4 vm) p v Hpv). by apply Hall.
Qed.

(** Changing the protection of a range is all or nothing. Success means that
    every page of the range was mapped first and then carries the new flags on the
    same frame, and no other page changed further; failure re-protects nothing: the only
    changes are pages faulted in. *)
Theorem uvm_protect_correct (s : S) T vm addr bytes fl s' r :
  vm_ok vm -> flags_ok vm -> frames_ok s (user_pml4 vm) T -> is_u64 addr -> is_u64 bytes -> Z.land fl VMM_ADDR_MASK = 0 ->
  uvm_protect s vm addr bytes fl = (s', r) ->
  exists s1 T', faulted vm s T s1 T' /\ frames_ok s' (user_pml4 vm) T' /\
    (r = -1 /\ s' = s1 \/
     r = 0 /\ forall v, user_va v ->
       if decide (addr <= v < addr + bytes)
       then pg_entry s1 (user_pml4 vm) v <> 0 /\ pg_entry s' (user_pml4 vm) v = reprotect (pg_entry s1 (user_pml4 vm) v) fl
       else pg_entry s' (user_pml4 vm) v = pg_entry s1 (user_pml4 vm) v).
Proof using PagingLaws0.
  intros V Hfl F Ua Ub Hm. unfold uvm_protect. rewrite !low_bits.
  destruct (_ || _ || _ || _) eqn:G; [intros [= <- <-]; exists s, T; split_and!; [by apply faulted_refl|done|by left]|].
  destruct (uvm_range_ok addr bytes) eqn:R; cbn [negb];
    [|intros [= <- <-]; exists s, T; split_and!; [by apply faulted_refl|done|by left]]. zbool.
  destruct (range_ok_spec addr bytes Ua Ub R) as (R1 & R2 & R3 & _). unfold USER_VA_MIN, USER_VA_MAX in *.
  destruct (range_pages addr bytes) as (P1 & P2 & P3 & P4 & P5 & P6); try done; try lia.
  destruct (fault_all s vm _ false) as [s1 ok] eqn:E1.
  destruct (fault_all_spec vm _ false s T s1 ok V Hfl F P2 E1) as (T' & Fa & Hu). destruct ok; cbn [negb].
  2: { intros [= <- <-]. exists s1, T'. split_and!; [done|apply Fa|by left]. }
  intros E2. destruct (protect_all_spec vm fl _ Hm s1 T' s' r (fa_ok _ _ _ _ _ Fa) P3) as (-> & F' & He); [|done|].
  { intros p Hp. eapply usable_nonzero. by apply Hu. }
  exists s1, T'. split_and!; [done|done|right]. split; [done|]. intros v Hv. rewrite He. case_decide as Hd.
  - rewrite decide_True by (by apply P4). split; [|done]. destruct (P6 v Hd) as (p & Hp & Hpv).
    rewrite <-(page_of_same s1 (user_pml4 vm) p v Hpv). eapply usable_nonzero. by apply Hu.
  - rewrite decide_False; [done|]. by rewrite P4.
Qed.

(** Discarding a range. It succeeds exactly on a legal page-aligned range that is reserved
    throughout and maps nothing shared; then precisely the pages of the range
    become unmapped and precisely their frames are given back. Otherwise
    nothing changes. *)
Theorem uvm_discard_correct (s : S) T vm addr bytes s' r :
  vm_ok vm -> frames_ok s (user_pml4 vm) T -> is_u64 addr -> is_u64 bytes ->
  uvm_discard s vm addr bytes = (s', r) ->
  frames_ok s' (user_pml4 vm) T /\
  (r = 0 /\
     (forall v, addr <= v < addr + bytes -> (exists f, covers (vmas vm) (4096 * page_of v) f) /\ (pg_entry s (user_pml4 vm) v &? VMM_SHARED) = false) /\
     (forall v, user_va v -> pg_entry s' (user_pml4 vm) v =
        if decide (addr <= v < addr + bytes) then 0 else pg_entry s (user_pml4 vm) v) /\
     (forall q, frame_addr q -> pg_taken s' q = true <-> pg_taken s q = true /\
        ~ exists v, addr <= v < addr + bytes /\ owned s (user_pml4 vm) v /\ q = frame_of (pg_entry s (user_pml4 vm) v))
   \/ r = -1 /\ s' = s /\
     (user_pml4 vm = 0 \/ addr mod 4096 <> 0 \/ bytes mod 4096 <> 0 \/ uvm_range_ok addr bytes = false \/
      exists v, addr <= v < addr + bytes /\ ((forall f, ~ covers (vmas vm) v f) \/ (pg_entry s (user_pml4 vm) v &? VMM_SHARED) = true))).
Proof using PagingLaws0.
  intros V F Ua Ub. unfold uvm_discard. rewrite !low_bits.
  destruct (_ || _ || _) eqn:G; [intros [= <- <-]; split; [done|right]; split_and!; [done|done|zbool; lia]|].
  destruct (uvm_range_ok addr bytes) eqn:R; cbn [negb]; [|intros [= <- <-]; split; [done|right]; split_and!; [done|done|tauto]].
  zbool. destruct (range_ok_spec addr bytes Ua Ub R) as (R1 & R2 & R3 & _). unfold USER_VA_MIN, USER_VA_MAX in *.
  destruct (range_pages addr bytes) as (P1 & P2 & P3 & P4 & P5 & P6); try done; try lia.
  set (pages := map _ (page_offsets bytes)) in *. destruct (existsb _ _) eqn:Ex.
  { intros [= <- <-]. split; [done|right]. split_and!; [done|done|do 4 right].
    destruct (discard_scan_refused _ _ _ Ex) as (p & Hp & Hc). exists p. by split; [apply P5|]. }
  assert (Hall : forall p, p ∈ pages -> (exists f, covers (vmas vm) p f) /\ (pg_entry s (user_pml4 vm) p &? VMM_SHARED) = false).
  { intros p Hp. by eapply discard_scan. }
  destruct (drop_all_spec false vm pages s T F P1) as (F' & He & Ht); [intros _ p Hp; by apply Hall|].
  intros [= <- <-]. split; [done|left]. split_and!; [done| | |].
  - intros v Hv. destruct (P6 v Hv) as (p & Hp & Hpv). destruct (Hall p Hp) as [[f Hc] Hs].
    rewrite <-(page_of_same s (user_pml4 vm) p v Hpv). split; [|done]. exists f. rewrite <-Hpv.
    by rewrite (range_page_base addr bytes p) by (done || lia).
  - intros v Hv. rewrite He. apply decide_ext. by apply P4.
  - intros q Hq. rewrite Ht by done. unfold pages. by rewrite (dropped_range s (user_pml4 vm) addr bytes) by (done || lia).
Qed.
End properties.

(** ** A concrete address space *)
(** An empty address space rooted at [ex_root1], and the one with four pages
    reserved at the bottom of the arena. *)
Definition ex_vm : task_vm := uvm_init (TaskVm ex_root1 0 0 [] [] 0).
Definition ex_flags : Z := Z.lor VMM_WRITE VMM_USER.
Definition ex_reserved : task_vm := fst (uvm_reserve ex_vst ex_vm 0 0x4000 ex_flags false).

Lemma ex_frames : frames_ok ex_vst ex_root1 {[ ex_root1 ]}.
Proof.
  assert (H0 : forall v, pg_entry ex_vst ex_root1 v = 0).
  { intros v. cbn. unfold vmm_entry_in, walk_only. destruct (va_split v) as [[[i4 i3] i2] i1]. reflexivity. }
  split.
  - exists {[ ex_root1 := [] ]}. split; [apply ex_vtree; left|]. by rewrite dom_singleton_L.
  - intros v (_ & Hn & _). by rewrite H0 in Hn.
  - intros v w (_ & Hn & _). by rewrite H0 in Hn.
Qed.

Lemma ex_reserved_ok : vm_ok ex_reserved /\ flags_ok ex_reserved /\ user_pml4 ex_reserved = ex_root1.
Proof.
  destruct (uvm_reserve ex_vst ex_vm 0 0x4000 ex_flags false) as [vm' r] eqn:E.
  assert (ex_reserved = vm') as -> by (unfold ex_reserved; by rewrite E).
  destruct (uvm_reserve_spec ex_vst ex_vm 0 0x4000 ex_flags false vm' r) as (V & Hp & Hr); [apply uvm_init_ok|by vm_compute|by vm_compute|done|done|].
  assert (Hrz : r = USER_MMAP_BASE) by (change r with (snd (vm', r)); rewrite <-E; by vm_compute).
  split_and!; [done| |by rewrite Hp]. intros a f Hc. destruct Hr as [[? _]|(_ & _ & _ & _ & _ & _ & Hcov)]; [by subst|].
  apply Hcov in Hc as [(i & v & Hi & [Hu _] & _)|[_ ->]]; [|by vm_compute].
  apply lookup_replicate in Hi as [-> _]. done.
Qed.

(** The first page of the reservation, faulted in for writing. *)
Definition ex_touched : vst pmm := fst (uvm_fault_in ex_vst ex_reserved USER_MMAP_BASE true).

Lemma ex_touched_ok : exists T, frames_ok ex_touched ex_root1 T.
Proof.
  destruct ex_reserved_ok as (V & Hf & Hp). pose proof ex_frames as F. rewrite <-Hp in F.
  destruct (uvm_fault_in ex_vst ex_reserved USER_MMAP_BASE true) as [s' ok] eqn:E.
  destruct (uvm_fault_in_spec ex_reserved ex_vst _ USER_MMAP_BASE true s' ok V Hf F) as (T & Fa & _); [unfold is_u64, USER_MMAP_BASE; lia|exact E|].
  exists T. unfold ex_touched. rewrite E, <-Hp. apply Fa.
Qed.


Lemma uvm_fault_in_correct_witness :
  let '(s', ok) := uvm_fault_in ex_vst ex_reserved (USER_MMAP_BASE + 0x123) true in
  ok = true /\ usable (pg_entry s' ex_root1 (USER_MMAP_BASE + 0x123)) true = true.
Proof.
  destruct (uvm_fault_in ex_vst ex_reserved (USER_MMAP_BASE + 0x123) true) as [s' ok] eqn:E.
  assert (Hok : ok = true) by (change ok with (snd (s', ok)); rewrite <-E; vm_compute; reflexivity).
  destruct ex_reserved_ok as (V & Hf & Hp). rewrite <-Hp. pose proof ex_frames as F. rewrite <-Hp in F.
  destruct (uvm_fault_in_correct ex_vst _ ex_reserved (USER_MMAP_BASE + 0x123) true s' ok V Hf F) as (_ & _ & H & _);
    [unfold is_u64, USER_MMAP_BASE; lia|exact E|]. split; [exact Hok|]. apply H, Hok.
Defined.

Lemma uvm_buffer_ok_correct_witness :
  let '(s', ok) := uvm_buffer_ok ex_vst ex_reserved (USER_MMAP_BASE + 0xFFF) 0x1002 true in
  ok = true /\ usable (pg_entry s' ex_root1 (USER_MMAP_BASE + 0x2000)) true = true.
Proof.
  destruct (uvm_buffer_ok ex_vst ex_reserved (USER_MMAP_BASE + 0xFFF) 0x1002 true) as [s' ok] eqn:E.
  assert (Hok : ok = true) by (change ok with (snd (s', ok)); rewrite <-E; vm_compute; reflexivity).
  destruct ex_reserved_ok as (V & Hf & Hp). rewrite <-Hp. pose proof ex_frames as F. rewrite <-Hp in F.
  destruct (uvm_buffer_ok_correct ex_vst _ ex_reserved (USER_MMAP_BASE + 0xFFF) 0x1002 true s' ok V Hf F) as (_ & H & _);
    [unfold is_u64, USER_MMAP_BASE; lia|unfold is_u64; lia|exact E|]. split; [exact Hok|]. apply (H Hok). unfold USER_MMAP_BASE. lia.
Defined.

Lemma uvm_protect_correct_witness :
  let '(s', r) := uvm_protect ex_vst ex_reserved USER_MMAP_BASE 0x2000 VMM_USER in
  r = 0 /\ exists e, pg_entry s' ex_root1 (USER_MMAP_BASE + 0x1000) = reprotect e VMM_USER.
Proof.
  destruct (uvm_protect ex_vst ex_reserved USER_MMAP_BASE 0x2000 VMM_USER) as [s' r] eqn:E.
  assert (Hr : r = 0) by (change r with (snd (s', r)); rewrite <-E; vm_compute; reflexivity).
  destruct ex_reserved_ok as (V & Hf & Hp). rewrite <-Hp. pose proof ex_frames as F. rewrite <-Hp in F.
  destruct (uvm_protect_correct ex_vst _ ex_reserved USER_MMAP_BASE 0x2000 VMM_USER s' r V Hf F) as (s1 & T & _ & _ & [[H _]|[_ H]]);
    [unfold is_u64, USER_MMAP_BASE; lia|unfold is_u64; lia|reflexivity|exact E|rewrite Hr in H; discriminate|].
  split; [exact Hr|]. exists (pg_entry s1 (user_pml4 ex_reserved) (USER_MMAP_BASE + 0x1000)).
  assert (Hu : user_va (USER_MMAP_BASE + 0x1000)) by (unfold user_va, USER_MMAP_BASE; lia).
  specialize (H _ Hu). rewrite decide_True in H by (unfold USER_MMAP_BASE; lia). apply H.
Defined.


Lemma uvm_discard_correct_witness :
  let '(s', r) := uvm_discard ex_touched ex_reserved USER_MMAP_BASE 0x2000 in
  r = 0 /\ pg_entry ex_touched ex_root1 USER_MMAP_BASE <> 0 /\ pg_entry s' ex_root1 USER_MMAP_BASE = 0.
Proof.
  destruct (uvm_discard ex_touched ex_reserved USER_MMAP_BASE 0x2000) as [s' r] eqn:E.
  assert (Hr : r = 0) by (change r with (snd (s', r)); rewrite <-E; vm_compute; reflexivity).
  assert (Ht : pg_entry ex_touched ex_root1 USER_MMAP_BASE <> 0) by (vm_compute; discriminate).
  destruct ex_reserved_ok as (V & Hf & Hp). destruct ex_touched_ok as [T F]. rewrite <-Hp in *.
  destruct (uvm_discard_correct ex_touched T ex_reserved USER_MMAP_BASE 0x2000 s' r V F) as (_ & [(_ & _ & H & _)|[H _]]);
    [unfold is_u64, USER_MMAP_BASE; lia|unfold is_u64; lia|exact E| |rewrite Hr in H; discriminate].
  split; [exact Hr|]. split; [exact Ht|].
  rewrite H by (unfold user_va, USER_MMAP_BASE; lia). apply decide_True. unfold USER_MMAP_BASE. lia.
Defined.

(** Why fixed requests must stay out of the arena. A fixed reservation inside
    the arena does not move the bump pointer, so the next placed reservation is laid over
    it: two live records of different permissions then cover the same page. *)
Theorem uvm_reserve_arena_overlap :
  let '(vm1, r1) := uvm_reserve ex_vst ex_vm (USER_MMAP_BASE + 0x1000) 0x1000 VMM_USER true in
  let '(vm2, r2) := uvm_reserve ex_vst vm1 0 0x3000 ex_flags false in
  r1 = USER_MMAP_BASE + 0x1000 /\ r2 = USER_MMAP_BASE /\
  covers (vmas vm2) r1 VMM_USER /\ covers (vmas vm2) r1 ex_flags.
Proof.
  destruct (uvm_reserve ex_vst ex_vm _ _ _ _) as [vm1 r1] eqn:E1. destruct (uvm_reserve ex_vst vm1 _ _ _ _) as [vm2 r2] eqn:E2.
  vm_compute in E1. injection E1 as <- <-. vm_compute in E2. injection E2 as <- <-. split_and!; [done|done| |].
  - exists 0%nat. eexists. split; [reflexivity|]. vm_compute. split_and!; try done.
  - exists 1%nat. eexists. split; [reflexivity|]. vm_compute. split_and!; try done.
Qed.
