(* ===== verification/Heap.v ===== *)
(** The kernel heap, [kernel/memory/heap.c].

    A heap is a doubly linked list of headers laid out in the memory it
    manages.  Headers are records at addresses; payload bytes belong to the
    callers and are not part of the state.  Frames and page tables are
    reached through [PagingOps], with [cr3] the table [vmm_map] uses. *)
From S2P Require Import Prelude.
From S2P Require Import Frames.
From S2P Require Import Vmm.
From S2P Require Import Paging.

Definition HEAP_BASE : Z := 0xFFFF900000000000.
Definition HEAP_INITIAL_PAGES : Z := 256.
Definition SPLIT_THRESHOLD : Z := 16.
Definition LARGE_ALLOC_VBASE : Z := 0xFFFFA00000000000.
Definition KMALLOC_ALIGN : Z := 16.
(** [sizeof(struct block)]: a [usize], an [int] with its padding, two pointers. *)
Definition BLOCK_SIZE : Z := 32.

Record block := Block { b_size : Z; b_free : bool; b_next : Z; b_prev : Z }.
Definition zero_block : block := Block 0 false 0 0.

(** Addresses stand for pointers, 0 for the null pointer. *)
Record heap := Heap {
  blocks : gmap Z block;
  hp_head : Z;
  hp_tail : Z;
  heap_end : Z;
  large_alloc_virt_offset : Z;
}.

Definition hp_at (h : heap) (a : Z) : block := default zero_block (blocks h !! a).
Definition set_block (h : heap) (a : Z) (b : block) : heap :=
  Heap (<[a := b]> (blocks h)) (hp_head h) (hp_tail h) (heap_end h) (large_alloc_virt_offset h).
Definition set_tail (h : heap) (a : Z) : heap :=
  Heap (blocks h) (hp_head h) a (heap_end h) (large_alloc_virt_offset h).
Definition set_head (h : heap) (a : Z) : heap :=
  Heap (blocks h) a (hp_tail h) (heap_end h) (large_alloc_virt_offset h).
Definition set_heap_end (h : heap) (e : Z) : heap :=
  Heap (blocks h) (hp_head h) (hp_tail h) e (large_alloc_virt_offset h).
Definition set_large (h : heap) (o : Z) : heap :=
  Heap (blocks h) (hp_head h) (hp_tail h) (heap_end h) o.

(** Assignments to one member of the header at [a]. *)
Definition put_size (h : heap) (a z : Z) : heap :=
  let b := hp_at h a in set_block h a (Block z (b_free b) (b_next b) (b_prev b)).
Definition put_free (h : heap) (a : Z) (f : bool) : heap :=
  let b := hp_at h a in set_block h a (Block (b_size b) f (b_next b) (b_prev b)).
Definition put_next (h : heap) (a n : Z) : heap :=
  let b := hp_at h a in set_block h a (Block (b_size b) (b_free b) n (b_prev b)).
Definition put_prev (h : heap) (a p : Z) : heap :=
  let b := hp_at h a in set_block h a (Block (b_size b) (b_free b) (b_next b) p).

Section model.
Context {S : Type} `{!PagingOps S}.

(** [heap_grow]: each round that goes on takes a frame, so one round more than
    the frames left is enough ([heap_grow_rounds]). *)
Fixpoint heap_grow_loop (fuel : nat) (s : S) (cr3 : Z) (h : heap) (pages mapped : Z) : S * heap * Z :=
  match fuel with
  | O => (s, h, mapped)
  | Datatypes.S fuel =>
      if negb (mapped <? pages) then (s, h, mapped) else
      let '(phys, s) := pg_alloc s in
      if phys =? 0 then (s, h, mapped) else
      let '(s, r) := pg_map s cr3 (heap_end h) phys (Z.lor VMM_PRESENT VMM_WRITE) in
      if negb (r =? 0) then (pg_free s phys, h, mapped) else
      heap_grow_loop fuel s cr3 (set_heap_end h (heap_end h ⊕ 4096)) pages (mapped ⊕ 1)
  end.

Definition heap_grow (s : S) (cr3 : Z) (h : heap) (pages : Z) : S * heap * Z :=
  heap_grow_loop (1 + pg_avail s) s cr3 h pages 0.

(** [None]: the machine halts. *)
Definition heap_init (s : S) (cr3 : Z) (h : heap) : option (S * heap) :=
  let h := set_heap_end h HEAP_BASE in
  let '(s, h, initial_pages) := heap_grow s cr3 h HEAP_INITIAL_PAGES in
  if initial_pages =? 0 then None else
  let h := set_head h HEAP_BASE in
  let h := set_block h HEAP_BASE (Block (initial_pages ⊗ 4096 ⊖ BLOCK_SIZE) true 0 0) in
  Some (s, set_tail h (hp_head h)).

Definition list_append (h : heap) (region_start region_bytes : Z) : heap :=
  if negb (hp_tail h =? 0) && b_free (hp_at h (hp_tail h)) then
    put_size h (hp_tail h) (b_size (hp_at h (hp_tail h)) ⊕ region_bytes)
  else
    let nb := region_start in
    let h := set_block h nb (Block (region_bytes ⊖ BLOCK_SIZE) true 0 (hp_tail h)) in
    let h := if negb (hp_tail h =? 0) then put_next h (hp_tail h) nb else h in
    let h := set_tail h nb in
    if hp_head h =? 0 then set_head h nb else h.

(** The inner loop of [kmalloc]: the first free block that is large enough. *)
Fixpoint find_fit (fuel : nat) (h : heap) (b size : Z) : Z :=
  match fuel with
  | O => 0
  | Datatypes.S fuel =>
      if b =? 0 then 0
      else if negb (b_free (hp_at h b)) || (b_size (hp_at h b) <? size) then find_fit fuel h (b_next (hp_at h b)) size
      else b
  end.

(** What [kmalloc] does with the block it found. *)
Definition take_block (h : heap) (b size : Z) : heap :=
  let h :=
    if b_size (hp_at h b) >=? size ⊕ BLOCK_SIZE ⊕ SPLIT_THRESHOLD then
      let split := b ⊕ BLOCK_SIZE ⊕ size in
      let h := set_block h split
        (Block (b_size (hp_at h b) ⊖ size ⊖ BLOCK_SIZE) true (b_next (hp_at h b)) b) in
      let h := if negb (b_next (hp_at h b) =? 0) then put_prev h (b_next (hp_at h b)) split
               else set_tail h split in
      let h := put_size h b size in
      put_next h b split
    else h in
  put_free h b false.

Definition round_size (size : Z) : Z := Z.land (size ⊕ (KMALLOC_ALIGN - 1)) (not64 (KMALLOC_ALIGN - 1)).

(** The outer loop: [None] when the rounds run out, which [kmalloc_terminates] excludes. *)
Fixpoint kmalloc_loop (fuel : nat) (s : S) (cr3 : Z) (h : heap) (size : Z) : option (S * heap * Z) :=
  match fuel with
  | O => None
  | Datatypes.S fuel =>
      let b := find_fit (1 + base.size (blocks h)) h (hp_head h) size in
      if negb (b =? 0) then Some (s, take_block h b size, b ⊕ BLOCK_SIZE) else
      let needed := (size ⊕ BLOCK_SIZE ⊕ 4095) / 4096 in
      let old_end := heap_end h in
      let '(s, h, mapped) := heap_grow s cr3 h needed in
      if mapped =? 0 then Some (s, h, 0)
      else kmalloc_loop fuel s cr3 (list_append h old_end (mapped ⊗ 4096)) size
  end.

Definition kmalloc (s : S) (cr3 : Z) (h : heap) (size : Z) : option (S * heap * Z) :=
  if size =? 0 then Some (s, h, 0)
  else kmalloc_loop (1 + pg_avail s) s cr3 h (round_size size).

(** [large_alloc]: both failures leave the pages mapped so far. *)
Fixpoint large_alloc_loop (fuel : nat) (s : S) (cr3 virt_start pages i : Z) : S * bool :=
  match fuel with
  | O => (s, false)
  | Datatypes.S fuel =>
      if negb (i <? pages) then (s, true) else
      let '(phys, s) := pg_alloc s in
      if phys =? 0 then (s, false) else
      let '(s, r) := pg_map s cr3 (virt_start ⊕ (i ⊗ 4096)) phys (Z.lor VMM_PRESENT VMM_WRITE) in
      if negb (r =? 0) then (s, false)
      else large_alloc_loop fuel s cr3 virt_start pages (i ⊕ 1)
  end.

Definition large_alloc (s : S) (cr3 : Z) (h : heap) (size : Z) : S * heap * Z :=
  if size =? 0 then (s, h, 0) else
  let pages := (size ⊕ 4095) / 4096 in
  let virt_start := large_alloc_virt_offset h in
  let '(s, ok) := large_alloc_loop (1 + pg_avail s) s cr3 virt_start pages 0 in
  if ok then (s, set_large h (large_alloc_virt_offset h ⊕ (pages ⊗ 4096)), virt_start) else (s, h, 0).
End model.

Definition coalesce_next (h : heap) (b : Z) : heap :=
  if negb (b_next (hp_at h b) =? 0) && b_free (hp_at h (b_next (hp_at h b))) then
    let n := b_next (hp_at h b) in
    let h := put_size h b (b_size (hp_at h b) ⊕ (BLOCK_SIZE ⊕ b_size (hp_at h n))) in
    let h := put_next h b (b_next (hp_at h n)) in
    if negb (b_next (hp_at h n) =? 0) then put_prev h (b_next (hp_at h n)) b else set_tail h b
  else h.

Definition coalesce_prev (h : heap) (b : Z) : heap :=
  if negb (b_prev (hp_at h b) =? 0) && b_free (hp_at h (b_prev (hp_at h b))) then
    let p := b_prev (hp_at h b) in
    let h := put_size h p (b_size (hp_at h p) ⊕ (BLOCK_SIZE ⊕ b_size (hp_at h b))) in
    let h := put_next h p (b_next (hp_at h b)) in
    if negb (b_next (hp_at h b) =? 0) then put_prev h (b_next (hp_at h b)) p else set_tail h p
  else h.

Definition kfree (h : heap) (ptr : Z) : heap :=
  if ptr =? 0 then h else
  let b := ptr ⊖ BLOCK_SIZE in
  coalesce_prev (coalesce_next (put_free h b true) b) b.
