(* ===== verification/HeapSpec.v ===== *)
(** The kernel heap tiles its memory with blocks ([kernel/memory/heap.c]).

    The headers a heap links are described by a list of segments in address
    order; [heap_ok] says that the segments tile the heap exactly, that the
    links agree with the list and that no two neighbours are free. *)
From S2P Require Import Prelude.
From S2P Require Import Pmm.
From S2P Require Import PmmSpec.
From S2P Require Import Frames.
From S2P Require Import Vmm.
From S2P Require Import Paging.
From S2P Require Import VmmSpec.
From S2P Require Import Heap.

Record seg := Seg { s_addr : Z; s_size : Z; s_free : bool }.

(** ** Linked segments *)
Definition first (l : list seg) (nxt : Z) : Z := match l with [] => nxt | x :: _ => s_addr x end.
Fixpoint final (prev : Z) (l : list seg) : Z := match l with [] => prev | x :: l => final (s_addr x) l end.

(** The headers of [l] are in memory, linked between [prev] and [nxt]. *)
Fixpoint linked (m : gmap Z block) (prev : Z) (l : list seg) (nxt : Z) : Prop :=
  match l with
  | [] => True
  | x :: l' => m !! s_addr x = Some (Block (s_size x) (s_free x) (first l' nxt) prev) /\ linked m (s_addr x) l' nxt
  end.

(** The segments cover [a, e) without gaps. *)
Fixpoint tiles (a : Z) (l : list seg) (e : Z) : Prop :=
  match l with
  | [] => a = e
  | x :: l' => s_addr x = a /\ 0 <= s_size x /\ s_size x mod 16 = 0 /\ tiles (a + BLOCK_SIZE + s_size x) l' e
  end.

(** No two neighbouring segments are free; [f] is the state of the one before. *)
Fixpoint spaced (f : bool) (l : list seg) : Prop :=
  match l with [] => True | x :: l' => f && s_free x = false /\ spaced (s_free x) l' end.

Lemma first_app l1 l2 n : first (l1 ++ l2) n = first l1 (first l2 n).
Proof. by destruct l1. Qed.

Lemma final_app l1 l2 : forall p, final p (l1 ++ l2) = final (final p l1) l2.
Proof. induction l1; simpl; auto. Qed.

Lemma linked_app m l1 l2 n : forall p,
  linked m p (l1 ++ l2) n <-> linked m p l1 (first l2 n) /\ linked m (final p l1) l2 n.
Proof. induction l1 as [|x l1 IH]; intros p; simpl; [tauto|]. rewrite IH, first_app. tauto. Qed.

Lemma tiles_app l1 l2 e : forall a, tiles a (l1 ++ l2) e <-> exists b, tiles a l1 b /\ tiles b l2 e.
Proof.
  induction l1 as [|x l1 IH]; intros a; simpl.
  - split; [intros H; by exists a|by intros (b & <- & ?)].
  - rewrite IH. naive_solver.
Qed.

Lemma tiles_le a l e : tiles a l e -> a <= e.
Proof.
  revert a. induction l as [|x l IH]; simpl; intros a; [lia|]. intros (_ & ? & _ & H%IH). unfold BLOCK_SIZE in *. lia.
Qed.

Lemma tiles_in a l e x : tiles a l e -> x ∈ l -> a <= s_addr x /\ s_addr x + BLOCK_SIZE + s_size x <= e /\ 0 <= s_size x.
Proof.
  intros H Hx. apply list_elem_of_split in Hx as (l1 & l2 & ->). apply tiles_app in H as (b & H1 & H2).
  destruct H2 as (<- & ? & _ & H2). apply tiles_le in H1, H2. lia.
Qed.

Lemma linked_frame m p l n a b : (forall x, x ∈ l -> s_addr x <> a) -> linked m p l n -> linked (<[a := b]> m) p l n.
Proof.
  revert p. induction l as [|x l IH]; intros p Hn; simpl; [done|]. intros [H1 H2]. split.
  - rewrite lookup_insert_ne; [done|]. intros ->. by apply (Hn x); [left|].
  - apply IH; [intros y Hy; apply Hn; by right|done].
Qed.

(** The neighbours a block is linked to can be changed at either end. *)
Lemma linked_next m p l x n n' : linked m p (l ++ [x]) n ->
  (forall y, y ∈ l -> s_addr y <> s_addr x) ->
  linked (<[s_addr x := Block (s_size x) (s_free x) n' (final p l)]> m) p (l ++ [x]) n'.
Proof.
  rewrite !linked_app. intros [H1 [H2 _]] Hn. simpl. split_and!; [by apply linked_frame|by rewrite lookup_insert_eq|done].
Qed.

Lemma linked_prev m p p' x l n : linked m p (x :: l) n -> (forall y, y ∈ l -> s_addr y <> s_addr x) ->
  linked (<[s_addr x := Block (s_size x) (s_free x) (first l n) p']> m) p' (x :: l) n.
Proof. intros [H1 H2] Hn. simpl. split; [by rewrite lookup_insert_eq|by apply linked_frame]. Qed.

Lemma spaced_app l1 x l2 f : spaced f (l1 ++ x :: l2) <-> spaced f (l1 ++ [x]) /\ spaced (s_free x) l2.
Proof. revert f. induction l1 as [|y l1 IH]; intros f; simpl; [tauto|]. rewrite IH. tauto. Qed.

Lemma spaced_used l x y f : s_free y = false -> spaced f (l ++ [x]) -> spaced f (l ++ [y]).
Proof. intros Hy. revert f. induction l as [|z l IH]; intros f; simpl; [by rewrite Hy, andb_false_r|]. intros [? ?]. auto. Qed.

Lemma spaced_same l x y f : s_free y = s_free x -> spaced f (l ++ [x]) -> spaced f (l ++ [y]).
Proof. intros Hy. revert f. induction l as [|z l IH]; intros f; simpl; [by rewrite Hy|]. intros [? ?]. auto. Qed.

Lemma spaced_any f l : spaced true l -> spaced f l.
Proof. destruct l as [|x l]; simpl; [done|]. intros [-> ?]. by rewrite andb_false_r. Qed.

(** Blocks start on multiples of 16. *)
Lemma tiles_aligned a l e x : tiles a l e -> a mod 16 = 0 -> x ∈ l -> s_addr x mod 16 = 0.
Proof.
  revert a. induction l as [|y l IH]; intros a; [intros _ _ Hx; by apply not_elem_of_nil in Hx|].
  intros (<- & _ & Hm & T) Ha [->|Hx]%elem_of_cons; [done|]. apply (IH _ T); [|done].
  by rewrite Zplus_mod, (Zplus_mod (s_addr y)), Ha, Hm.
Qed.

(** ** The heap invariant *)
Record heap_lk (h : heap) (l : list seg) : Prop := HeapLk {
  ho_linked : linked (blocks h) 0 l 0;
  ho_head : hp_head h = first l 0;
  ho_tail : hp_tail h = final 0 l;
  ho_tiles : tiles HEAP_BASE l (heap_end h);
  ho_end : heap_end h <= 2 ^ 64 - 2 ^ 20;
  ho_cons : l <> [];
}.

Record heap_ok (h : heap) (l : list seg) : Prop := HeapOk {
  ho_lk :> heap_lk h l;
  ho_spaced : spaced false l;
}.

(** The live allocations: payload address and size of every used block. *)
Definition live (l : list seg) : list (Z * Z) :=
  omap (fun x => if s_free x then None else Some (s_addr x + BLOCK_SIZE, s_size x)) l.

Lemma live_app l1 l2 : live (l1 ++ l2) = live l1 ++ live l2.
Proof. apply omap_app. Qed.

Lemma seg_distinct l1 x l2 a e : tiles a (l1 ++ x :: l2) e ->
  (forall y, y ∈ l1 -> 0 <= s_size y /\ s_addr y + BLOCK_SIZE + s_size y <= s_addr x) /\ (forall y, y ∈ l2 -> s_addr x + BLOCK_SIZE + s_size x <= s_addr y).
Proof.
  intros (b & H1 & <- & ? & _ & H2)%tiles_app. split.
  - intros y Hy. by destruct (tiles_in _ _ _ y H1 Hy) as (? & ? & ?).
  - intros y Hy. by destruct (tiles_in _ _ _ y H2 Hy) as (? & ? & ?).
Qed.

(** ** Reading and writing headers *)
Lemma hp_at_set h a b a' : hp_at (set_block h a b) a' = if decide (a = a') then b else hp_at h a'.
Proof. unfold hp_at. simpl. case_decide as H; [by rewrite H, lookup_insert_eq|by rewrite lookup_insert_ne]. Qed.

Lemma hp_at_tail h t a : hp_at (set_tail h t) a = hp_at h a.
Proof. done. Qed.

Lemma heap_header h l1 x l2 : heap_lk h (l1 ++ x :: l2) ->
  hp_at h (s_addr x) = Block (s_size x) (s_free x) (first l2 0) (final 0 l1).
Proof. intros H. unfold hp_at. destruct (proj1 (linked_app _ _ _ _ _) (ho_linked _ _ H)) as [_ [E _]]. by rewrite E. Qed.

(** Where a segment lies, and that it is clear of the others. *)
Lemma heap_bounds h l1 x l2 : heap_lk h (l1 ++ x :: l2) ->
  HEAP_BASE <= s_addr x /\ 0 <= s_size x /\ s_addr x + BLOCK_SIZE + s_size x <= heap_end h /\ heap_end h <= 2 ^ 64 - 2 ^ 20 /\
  (forall y, y ∈ l1 -> 0 <= s_size y /\ s_addr y + BLOCK_SIZE + s_size y <= s_addr x) /\
  (forall y, y ∈ l2 -> s_addr x + BLOCK_SIZE + s_size x <= s_addr y).
Proof.
  intros H. destruct (tiles_in _ _ _ x (ho_tiles _ _ H)) as (? & ? & ?); [apply elem_of_app; right; left|].
  destruct (seg_distinct _ _ _ _ _ (ho_tiles _ _ H)) as [? ?]. pose proof (ho_end _ _ H). done.
Qed.

Lemma heap_aligned h l1 x l2 : heap_lk h (l1 ++ x :: l2) -> s_addr x mod 16 = 0.
Proof. intros H. eapply tiles_aligned; [apply H|done|apply elem_of_app; right; left]. Qed.

Lemma heap_seg_nonneg h l x : heap_lk h l -> x ∈ l -> 0 <= s_size x /\ HEAP_BASE <= s_addr x.
Proof. intros H Hx. destruct (tiles_in _ _ _ x (ho_tiles _ _ H) Hx) as (? & ? & ?). done. Qed.

(** Frame away the headers written outside a part of the list. *)
Ltac seg_ne :=
  let y := fresh "y" in let Hy := fresh "Hy" in
  intros y Hy;
  repeat match goal with H : forall z, z ∈ _ -> _ |- _ => pose proof (H y ltac:(first [exact Hy | by right | by apply elem_of_app; left | by apply elem_of_app; right])); clear H end;
  unfold BLOCK_SIZE in *; lia.
Ltac frame_links := repeat (apply linked_frame; [by seg_ne|]).

Lemma tiles_mono a l e : tiles a l e -> forall x y l1 l2, l = l1 ++ x :: y :: l2 -> s_addr y = s_addr x + BLOCK_SIZE + s_size x.
Proof. intros H x y l1 l2 ->. apply tiles_app in H as (b & _ & <- & _ & _ & <- & _). done. Qed.

(** Evaluate header accesses from the known headers and address bounds. *)
Ltac hp_eval :=
  repeat first
    [ progress cbn [b_size b_free b_next b_prev first negb andb]
    | rewrite hp_at_set
    | rewrite hp_at_tail
    | match goal with E : hp_at _ _ = _ |- _ => rewrite E end
    | match goal with |- context [decide (?a = ?b)] =>
        first [rewrite (decide_True (P := a = b)) by lia | rewrite (decide_False (P := a = b)) by lia] end
    | match goal with |- context [?a =? 0] =>
        first [rewrite (proj2 (Z.eqb_neq a 0)) by lia | rewrite (proj2 (Z.eqb_eq a 0)) by lia] end ].

Lemma put_free_lk h l1 b l2 f : heap_lk h (l1 ++ b :: l2) ->
  heap_lk (put_free h (s_addr b) f) (l1 ++ Seg (s_addr b) (s_size b) f :: l2).
Proof.
  intros H. destruct (heap_bounds _ _ _ _ H) as (B1 & B2 & B3 & B4 & D1 & D2). pose proof (heap_header _ _ _ _ H) as Hb.
  destruct H as [L Hh Ht T E _]. unfold put_free. rewrite Hb. cbn [b_size b_next b_prev].
  apply linked_app in L as [L1 [_ L2]]. split; cbn [set_block blocks hp_head hp_tail heap_end].
  - apply linked_app. simpl. split_and!; [frame_links; done|by rewrite lookup_insert_eq|frame_links; done].
  - rewrite Hh. by destruct l1.
  - rewrite Ht, !final_app. done.
  - apply tiles_app in T as (a & T1 & T2). apply tiles_app. by exists a.
  - done.
  - by destruct l1.
Qed.

(** ** Taking a block *)
Section take.
Context (h : heap) (l1 l2 : list seg) (b : seg) (size : Z).
Hypothesis H : heap_ok h (l1 ++ b :: l2).
Hypothesis Hfree : s_free b = true.

Lemma take_whole : heap_ok (put_free h (s_addr b) false) (l1 ++ Seg (s_addr b) (s_size b) false :: l2).
Proof using H Hfree.
  split; [by apply put_free_lk, H|]. pose proof (ho_spaced _ _ H) as Sp.
  rewrite spaced_app in Sp |- *. destruct Sp as [S1 S2]. rewrite Hfree in S2. cbn [s_free].
  split; [by eapply spaced_used|by apply spaced_any].
Qed.

Hypothesis Hsize : 0 <= size.
Hypothesis Hfit : size + BLOCK_SIZE <= s_size b.
Hypothesis Hal : size mod 16 = 0.

(** The headers a split writes. *)
Definition split_map : gmap Z block :=
  let sp := s_addr b + BLOCK_SIZE + size in
  let m := <[sp := Block (s_size b - size - BLOCK_SIZE) true (first l2 0) (s_addr b)]> (blocks h) in
  let m := match l2 with [] => m | n :: l3 => <[s_addr n := Block (s_size n) (s_free n) (first l3 0) sp]> m end in
  <[s_addr b := Block size false sp (final 0 l1)]> m.

Lemma take_split : size + BLOCK_SIZE + SPLIT_THRESHOLD <= s_size b ->
  take_block h (s_addr b) size =
    Heap split_map (hp_head h) (match l2 with [] => s_addr b + BLOCK_SIZE + size | _ => hp_tail h end)
      (heap_end h) (large_alloc_virt_offset h).
Proof using H Hsize Hfit.
  intros Hth. destruct (heap_bounds _ _ _ _ H) as (B1 & B2 & B3 & B4 & D1 & D2).
  pose proof (heap_header _ _ _ _ H) as Hb. unfold take_block. rewrite Hb. cbn [b_size b_next b_prev b_free].
  unfold BLOCK_SIZE, SPLIT_THRESHOLD, HEAP_BASE in *.
  rewrite (u64_small (size + 32)), (u64_small (size + 32 + 16)), (u64_small (s_addr b + 32)), (u64_small (s_addr b + 32 + size)) by lia.
  rewrite (u64_small (s_size b - size)), (u64_small (s_size b - size - 32)) by lia.
  rewrite Z.geb_leb, (proj2 (Z.leb_le _ _)) by lia. unfold split_map, BLOCK_SIZE. destruct l2 as [|n l3].
  - unfold put_free, put_next, put_size. hp_eval. unfold set_block, set_tail. cbn. f_equal. by rewrite !insert_insert_eq.
  - assert (Hn : hp_at h (s_addr n) = Block (s_size n) (s_free n) (first l3 0) (s_addr b)).
    { rewrite (heap_header h (l1 ++ [b]) n l3) by (rewrite <-app_assoc; apply H). by rewrite final_app. }
    pose proof (D2 n ltac:(left)). unfold put_free, put_next, put_size, put_prev. hp_eval.
    unfold set_block. cbn. f_equal. by rewrite !insert_insert_eq.
Qed.

Lemma split_ok : size + BLOCK_SIZE + SPLIT_THRESHOLD <= s_size b ->
  heap_ok (take_block h (s_addr b) size)
    (l1 ++ Seg (s_addr b) size false :: Seg (s_addr b + BLOCK_SIZE + size) (s_size b - size - BLOCK_SIZE) true :: l2).
Proof using H Hfree Hsize Hfit Hal.
  intros Hth. rewrite take_split by done. clear Hth.
  destruct (heap_bounds _ _ _ _ H) as (B1 & B2 & B3 & B4 & D1 & D2). pose proof H as [[L Hh Ht T E _] Sp].
  apply linked_app in L as [L1 [_ L2]]. apply tiles_app in T as (a & T1 & <- & _ & Tm & T2).
  assert (Dn : forall n l3, l2 = n :: l3 -> forall y, y ∈ l3 -> s_addr n < s_addr y).
  { intros n l3 -> y Hy. destruct T2 as (<- & ? & _ & T2). destruct (tiles_in _ _ _ y T2 Hy) as (? & ? & ?).
    unfold BLOCK_SIZE in *. lia. }
  split; [split|]; cbn [blocks hp_head hp_tail heap_end].
  - unfold split_map. apply linked_app. cbn [linked first s_addr s_size s_free]. destruct l2 as [|n l3].
    + split_and!; [frame_links; done|by rewrite lookup_insert_eq| |done].
      rewrite lookup_insert_ne by (unfold BLOCK_SIZE in *; lia). by rewrite lookup_insert_eq.
    + pose proof (D2 n ltac:(left)). pose proof (Dn n l3 eq_refl) as Dn'. unfold BLOCK_SIZE in *.
      split_and!; [|by rewrite lookup_insert_eq| |].
      * frame_links. done.
      * rewrite !lookup_insert_ne by lia. by rewrite lookup_insert_eq.
      * destruct L2 as [_ L2]. split; [rewrite lookup_insert_ne by lia; by rewrite lookup_insert_eq|]. frame_links. done.
  - rewrite Hh. by destruct l1.
  - rewrite Ht, !final_app. simpl. by destruct l2.
  - apply tiles_app. exists (s_addr b). split; [done|]. cbn [tiles s_addr s_size]. unfold BLOCK_SIZE in *.
    split_and!; try done; try lia; [rewrite Zminus_mod, (Zminus_mod (s_size b) size), Tm, Hal; done|].
    replace (s_addr b + 32 + size + 32 + (s_size b - size - 32)) with (s_addr b + 32 + s_size b) by lia. done.
  - done.
  - by destruct l1.
  - rewrite spaced_app in Sp |- *. destruct Sp as [S1 S2]. rewrite Hfree in S2. cbn [s_free spaced].
    split_and!; [by eapply spaced_used|done|done].
Qed.
End take.

Lemma take_block_ok h l1 b l2 size :
  heap_ok h (l1 ++ b :: l2) -> s_free b = true -> 0 <= size <= s_size b -> size mod 16 = 0 ->
  exists l' sz, heap_ok (take_block h (s_addr b) size) l' /\ size <= sz /\
    live l' ≡ₚ (s_addr b + BLOCK_SIZE, sz) :: live (l1 ++ b :: l2) /\
    heap_end (take_block h (s_addr b) size) = heap_end h.
Proof.
  intros H Hf Hs Hal. destruct (heap_bounds _ _ _ _ H) as (B1 & B2 & B3 & B4 & _).
  assert (Hl : live (l1 ++ b :: l2) = live l1 ++ live l2) by (rewrite live_app; simpl; by rewrite Hf).
  rewrite Hl. destruct (Z.le_gt_cases (size + BLOCK_SIZE + SPLIT_THRESHOLD) (s_size b)) as [Hge|Hlt].
  - assert (Hfit : size + BLOCK_SIZE <= s_size b) by (unfold SPLIT_THRESHOLD in *; lia).
    eexists _, size. split_and!; [apply split_ok; (done || lia)|lia| |by rewrite (take_split h l1 l2 b) by (done || lia)].
    rewrite live_app. simpl. by rewrite <-Permutation_middle.
  - exists (l1 ++ Seg (s_addr b) (s_size b) false :: l2), (s_size b).
    assert (take_block h (s_addr b) size = put_free h (s_addr b) false) as ->.
    { unfold take_block. rewrite (heap_header _ _ _ _ H). cbn [b_size].
      unfold BLOCK_SIZE, SPLIT_THRESHOLD, HEAP_BASE in *. rewrite (u64_small (size + 32)), (u64_small (size + 32 + 16)) by lia.
      by rewrite Z.geb_leb, (proj2 (Z.leb_gt _ _)) by lia. }
    split_and!; [by apply take_whole|lia| |done]. rewrite live_app. simpl. by rewrite <-Permutation_middle.
Qed.

(** ** First fit *)
Lemma find_fit_ok h size l2 : forall l1 fuel, heap_lk h (l1 ++ l2) -> (length l2 < fuel)%nat ->
  find_fit fuel h (first l2 0) size = 0 /\ (forall x, x ∈ l2 -> s_free x = true -> s_size x < size) \/
  exists m1 b m2, l2 = m1 ++ b :: m2 /\ find_fit fuel h (first l2 0) size = s_addr b /\ s_free b = true /\ size <= s_size b /\
    (forall x, x ∈ m1 -> s_free x = true -> s_size x < size).
Proof.
  induction l2 as [|x l2 IH]; intros l1 [|fuel] H Hlen; try (simpl in Hlen; lia).
  { left. split; [done|]. intros x Hx. by apply not_elem_of_nil in Hx. }
  destruct (heap_bounds _ _ _ _ H) as (B1 & _). cbn [find_fit first]. rewrite (heap_header _ _ _ _ H).
  rewrite (proj2 (Z.eqb_neq _ _)) by (unfold HEAP_BASE in *; lia). cbn [b_free b_size b_next].
  destruct (negb (s_free x) || (s_size x <? size)) eqn:E.
  - assert (Hx : s_free x = true -> s_size x < size) by (intros Hf; rewrite Hf in E; simpl in E; by apply Z.ltb_lt).
    destruct (IH (l1 ++ [x]) fuel) as [[E0 Hn]|(m1 & b & m2 & -> & Ef & Hf & Hs & Hn)]; [by rewrite <-app_assoc|simpl in Hlen; lia| |].
    + left. split; [done|]. intros y [->|Hy]%elem_of_cons; [done|by apply Hn].
    + right. exists (x :: m1), b, m2. split_and!; try done. intros y [->|Hy]%elem_of_cons; [done|by apply Hn].
  - apply orb_false_iff in E as [E1%negb_false_iff E2%Z.ltb_ge]. right. exists [], x, l2. split_and!; try done.
    intros y Hy. by apply not_elem_of_nil in Hy.
Qed.

(** The list cannot be longer than the number of headers in memory. *)
Lemma tiles_nodup l a e : tiles a l e -> NoDup (s_addr <$> l).
Proof.
  revert a. induction l as [|x l IH]; intros a; [constructor|]. intros (<- & ? & _ & T). constructor; [|by eapply IH].
  intros (y & Ey & Hy)%list_elem_of_fmap. destruct (tiles_in _ _ _ y T Hy) as (? & _). unfold BLOCK_SIZE in *. lia.
Qed.

Lemma linked_dom m l n : forall p, linked m p l n -> forall a, a ∈ s_addr <$> l -> a ∈ dom m.
Proof.
  induction l as [|x l IH]; intros p; simpl; [intros _ a Ha; by apply not_elem_of_nil in Ha|].
  intros [E L] a [->|Ha]%elem_of_cons; [apply elem_of_dom; by eexists|by eapply IH].
Qed.

Lemma heap_length h l : heap_lk h l -> (length l <= base.size (blocks h))%nat.
Proof.
  intros H. rewrite <-(length_fmap s_addr l). rewrite <-size_dom.
  rewrite <-(size_list_to_set (C := gset Z) (s_addr <$> l)) by (eapply tiles_nodup, H).
  apply subseteq_size. intros a Ha%elem_of_list_to_set. eapply linked_dom; [apply H|done].
Qed.

(** ** Coalescing *)
(** Segments [x] and [y] become one at the address of [x]. *)
Definition joined (x y : seg) : seg := Seg (s_addr x) (s_size x + BLOCK_SIZE + s_size y) (s_free x).

Definition merged (h : heap) (l1 : list seg) (x y : seg) (l2 : list seg) : heap :=
  let m := <[s_addr x := Block (s_size x + BLOCK_SIZE + s_size y) (s_free x) (first l2 0) (final 0 l1)]> (blocks h) in
  Heap (match l2 with [] => m | n :: l3 => <[s_addr n := Block (s_size n) (s_free n) (first l3 0) (s_addr x)]> m end)
    (hp_head h) (match l2 with [] => s_addr x | _ => hp_tail h end) (heap_end h) (large_alloc_virt_offset h).

Section merge.
Context (h : heap) (l1 l2 : list seg) (x y : seg).
Hypothesis H : heap_lk h (l1 ++ x :: y :: l2).

Lemma merge_facts :
  hp_at h (s_addr x) = Block (s_size x) (s_free x) (s_addr y) (final 0 l1) /\
  hp_at h (s_addr y) = Block (s_size y) (s_free y) (first l2 0) (s_addr x) /\
  HEAP_BASE <= s_addr x /\ 0 <= s_size x /\ 0 <= s_size y /\ s_addr y = s_addr x + BLOCK_SIZE + s_size x /\
  s_addr y + BLOCK_SIZE + s_size y <= heap_end h /\ heap_end h <= 2 ^ 64 - 2 ^ 20 /\
  (forall z, z ∈ l1 -> 0 <= s_size z /\ s_addr z + BLOCK_SIZE + s_size z <= s_addr x) /\
  (forall z, z ∈ l2 -> s_addr y + BLOCK_SIZE + s_size y <= s_addr z).
Proof using H.
  assert (H' : heap_lk h ((l1 ++ [x]) ++ y :: l2)) by (by rewrite <-app_assoc).
  destruct (heap_bounds _ _ _ _ H) as (B1 & B2 & B3 & B4 & D1 & D2).
  destruct (heap_bounds _ _ _ _ H') as (C1 & C2 & C3 & _ & _ & E2).
  pose proof (heap_header _ _ _ _ H) as Hx. pose proof (heap_header _ _ _ _ H') as Hy.
  rewrite final_app in Hy. split_and!; try done. by eapply tiles_mono; [apply H|].
Qed.

Lemma merge_ok : heap_lk (merged h l1 x y l2) (l1 ++ joined x y :: l2).
Proof using H.
  destruct merge_facts as (_ & _ & B1 & B2 & B3 & Ey & B4 & B5 & D1 & D2). pose proof H as [L Hh Ht T E _].
  apply linked_app in L as [L1 [_ [_ L2]]]. apply tiles_app in T as (a & T1 & Ta & _ & Tm & _ & _ & Tn & T2).
  split; cbn [merged blocks hp_head hp_tail heap_end].
  - apply linked_app. cbn [linked joined s_addr s_size s_free first]. destruct l2 as [|n l3].
    + split_and!; [frame_links; done|by rewrite lookup_insert_eq|done].
    + pose proof (D2 n ltac:(left)). destruct L2 as [_ L2]. destruct T2 as (Tn' & ? & _ & T2). unfold BLOCK_SIZE in *.
      assert (Dn : forall z, z ∈ l3 -> s_addr n < s_addr z).
      { intros z Hz. destruct (tiles_in _ _ _ z T2 Hz) as (? & _). unfold BLOCK_SIZE in *. lia. }
      split_and!; [frame_links; done|rewrite lookup_insert_ne by lia; by rewrite lookup_insert_eq|].
      split; [by rewrite lookup_insert_eq|frame_links; done].
  - rewrite Hh. by destruct l1.
  - rewrite Ht, !final_app. simpl. by destruct l2.
  - apply tiles_app. exists a. split; [done|]. cbn [tiles joined s_addr s_size]. unfold BLOCK_SIZE in *. split_and!; [done|lia| |].
    + rewrite Zplus_mod, (Zplus_mod (s_size x)), Tm, Tn. done.
    + replace (a + 32 + (s_size x + 32 + s_size y)) with (a + 32 + s_size x + 32 + s_size y) by lia. done.
  - done.
  - by destruct l1.
Qed.

Lemma next_after_y : forall n l3, l2 = n :: l3 ->
  hp_at h (s_addr n) = Block (s_size n) (s_free n) (first l3 0) (s_addr y) /\ s_addr y + BLOCK_SIZE + s_size y <= s_addr n.
Proof using H.
  destruct merge_facts as (_ & _ & _ & _ & _ & _ & _ & _ & _ & D2). intros n l3 ->. split; [|apply D2; left].
  rewrite (heap_header h (l1 ++ [x; y]) n l3) by (by rewrite <-app_assoc). by rewrite final_app.
Qed.

Lemma coalesce_next_free : s_free y = true -> coalesce_next h (s_addr x) = merged h l1 x y l2.
Proof using H.
  intros Hf. destruct merge_facts as (Hx & Hy & B1 & B2 & B3 & Ey & B4 & B5 & _). rewrite Hf in Hy.
  unfold coalesce_next, HEAP_BASE in *. rewrite Hx. cbn [b_next]. rewrite Hy. hp_eval. unfold BLOCK_SIZE in *.
  rewrite (u64_small (32 + s_size y)), (u64_small (s_size x + (32 + s_size y))) by lia. rewrite Z.add_assoc.
  unfold put_size, put_next, put_prev, merged. pose proof next_after_y as Hnx. destruct l2 as [|n l3]; [|destruct (Hnx n l3 eq_refl) as [Hn Bn]; unfold BLOCK_SIZE in *].
  - hp_eval. unfold set_block, set_tail, BLOCK_SIZE. cbn. f_equal. by rewrite !insert_insert_eq.
  - hp_eval. unfold set_block, BLOCK_SIZE. cbn. f_equal. by rewrite !insert_insert_eq.
Qed.

Lemma coalesce_prev_free : s_free x = true -> coalesce_prev h (s_addr y) = merged h l1 x y l2.
Proof using H.
  intros Hf. destruct merge_facts as (Hx & Hy & B1 & B2 & B3 & Ey & B4 & B5 & _). rewrite Hf in Hx.
  unfold coalesce_prev, HEAP_BASE in *. rewrite Hy. cbn [b_prev]. rewrite Hx. hp_eval. unfold BLOCK_SIZE in *.
  rewrite (u64_small (32 + s_size y)), (u64_small (s_size x + (32 + s_size y))) by lia. rewrite Z.add_assoc.
  unfold put_size, put_next, put_prev, merged. rewrite Hf. pose proof next_after_y as Hnx. destruct l2 as [|n l3]; [|destruct (Hnx n l3 eq_refl) as [Hn Bn]; unfold BLOCK_SIZE in *].
  - hp_eval. unfold set_block, set_tail, BLOCK_SIZE. cbn. f_equal. by rewrite !insert_insert_eq.
  - hp_eval. unfold set_block, BLOCK_SIZE. cbn. f_equal. by rewrite !insert_insert_eq.
Qed.
End merge.

(** ** Freeing a block *)
Lemma coalesce_next_ok h l1 x l2 : heap_lk h (l1 ++ x :: l2) -> s_free x = true -> spaced false l2 ->
  exists x' l2', heap_lk (coalesce_next h (s_addr x)) (l1 ++ x' :: l2') /\ s_addr x' = s_addr x /\ s_free x' = true /\
    spaced true l2' /\ live l2' = live l2 /\ heap_end (coalesce_next h (s_addr x)) = heap_end h.
Proof.
  intros H Hf Sp. pose proof (heap_header _ _ _ _ H) as Hx. destruct l2 as [|n l3].
  { exists x, []. unfold coalesce_next. rewrite Hx. done. }
  destruct (s_free n) eqn:Hn.
  - rewrite (coalesce_next_free _ _ _ _ _ H Hn). exists (joined x n), l3. split_and!; try done.
    + by apply merge_ok.
    + by simpl in Sp; rewrite Hn in Sp; destruct Sp.
    + simpl. by rewrite Hn.
  - exists x, (n :: l3). assert (coalesce_next h (s_addr x) = h) as ->.
    { unfold coalesce_next. rewrite Hx. cbn [b_next first].
      rewrite (heap_header h (l1 ++ [x]) n l3) by (by rewrite <-app_assoc). cbn [b_free]. by rewrite Hn, andb_false_r. }
    split_and!; try done. simpl in Sp |- *. by rewrite Hn in *.
Qed.

Lemma coalesce_prev_ok h l1 x l2 : heap_lk h (l1 ++ x :: l2) -> s_free x = true -> spaced true l2 ->
  spaced false (l1 ++ [Seg (s_addr x) (s_size x) false]) ->
  exists l', heap_ok (coalesce_prev h (s_addr x)) l' /\ live l' = live l1 ++ live l2 /\
    heap_end (coalesce_prev h (s_addr x)) = heap_end h.
Proof.
  intros H Hf Sp S1. pose proof (heap_header _ _ _ _ H) as Hx. destruct l1 as [|p l1 _] using rev_ind.
  { exists (x :: l2). unfold coalesce_prev. rewrite Hx. cbn. split_and!; [|by rewrite Hf|done]. split; [done|]. simpl. by rewrite Hf. }
  rewrite <-app_assoc in H, S1. cbn [app] in H, S1. apply spaced_app in S1 as [S1 _]. destruct (s_free p) eqn:Hp.
  - rewrite (coalesce_prev_free _ _ _ _ _ H Hp). exists (l1 ++ joined p x :: l2). split_and!; [|rewrite !live_app; simpl; by rewrite Hp, app_nil_r|done].
    split; [by apply merge_ok|]. apply spaced_app. cbn [joined s_free]. rewrite Hp. split; [|done].
    eapply (spaced_same l1 p); [done|done].
  - exists (l1 ++ p :: x :: l2). assert (coalesce_prev h (s_addr x) = h) as ->.
    { unfold coalesce_prev. rewrite Hx, final_app. cbn [b_prev final].
      rewrite (heap_header _ _ _ _ H). cbn [b_free]. by rewrite Hp, andb_false_r. }
    split_and!; [|rewrite !live_app; simpl; rewrite Hp, Hf; by rewrite <-app_assoc|done].
    split; [done|]. apply spaced_app. split; [done|]. simpl. rewrite Hp, Hf. done.
Qed.

Lemma kfree_ok h l1 b l2 : heap_ok h (l1 ++ b :: l2) -> s_free b = false ->
  let h' := kfree h (s_addr b + BLOCK_SIZE) in
  exists l', heap_ok h' l' /\ live (l1 ++ b :: l2) ≡ₚ (s_addr b + BLOCK_SIZE, s_size b) :: live l' /\ heap_end h' = heap_end h.
Proof.
  intros H Hb. cbv zeta. destruct (heap_bounds _ _ _ _ H) as (B1 & B2 & B3 & B4 & _). pose proof (ho_spaced _ _ H) as Sp.
  apply spaced_app in Sp as [S1 S2]. rewrite Hb in S2.
  unfold kfree. unfold BLOCK_SIZE, HEAP_BASE in *. rewrite (proj2 (Z.eqb_neq _ _)) by lia. rewrite u64_small by lia.
  replace (s_addr b + 32 - 32) with (s_addr b) by lia.
  pose proof (put_free_lk h l1 b l2 true H) as H1.
  destruct (coalesce_next_ok _ _ _ _ H1) as (x' & l2' & H2 & Ex & Hf & S3 & Lv & He); [done|done|]. cbn [s_addr] in *.
  set (h1 := coalesce_next _ _) in *. destruct (coalesce_prev_ok _ _ _ _ H2 Hf S3) as (l' & H3 & Lv' & He').
  { by eapply spaced_used. }
  rewrite Ex in H3, He'. exists l'. split_and!; [done| |by rewrite He', He]. rewrite live_app. simpl. rewrite Hb, Lv', Lv.
  by rewrite <-Permutation_middle.
Qed.

(** ** Growing the heap *)
Lemma list_append_ok h l bytes :
  heap_ok h l -> BLOCK_SIZE <= bytes -> bytes mod 16 = 0 -> heap_end h + bytes <= 2 ^ 64 - 2 ^ 20 ->
  let h' := list_append (set_heap_end h (heap_end h + bytes)) (heap_end h) bytes in
  exists l', heap_ok h' l' /\ live l' = live l /\ heap_end h' = heap_end h + bytes.
Proof.
  intros [H Sp] Hb Hal He. destruct l as [|t l _] using rev_ind; [by destruct (ho_cons _ _ H)|].
  destruct (heap_bounds _ _ _ _ H) as (B1 & B2 & B3 & B4 & D1 & _). pose proof (heap_header _ _ _ _ H) as Ht.
  destruct H as [L Hh Htl T E _]. rewrite final_app in Htl. cbn [final] in Htl. apply linked_app in L as [L1 Lt].
  apply tiles_app in T as (a & T1 & Ta & _ & Tm & T2). cbn [tiles] in T2.
  unfold BLOCK_SIZE, HEAP_BASE in *. unfold list_append. cbn [set_heap_end hp_tail]. rewrite Htl.
  rewrite (proj2 (Z.eqb_neq (s_addr t) 0)) by lia. cbn [negb andb].
  assert (Ht' : forall h', blocks h' = blocks h -> hp_at h' (s_addr t) = Block (s_size t) (s_free t) 0 (final 0 l)).
  { intros h' E'. unfold hp_at in *. by rewrite E'. }
  rewrite Ht' by done. cbn [b_free]. destruct (s_free t) eqn:Hf.
  - exists (l ++ [Seg (s_addr t) (s_size t + bytes) true]). unfold put_size. rewrite Ht' by done.
    cbn [b_size b_free b_next b_prev]. rewrite u64_small by lia. split_and!; [|rewrite !live_app; simpl; by rewrite Hf|done].
    split; [split|]; cbn [set_block set_heap_end blocks hp_head hp_tail heap_end].
    + apply linked_app. simpl. split_and!; [frame_links; done|by rewrite lookup_insert_eq|done].
    + rewrite Hh. by destruct l.
    + by rewrite final_app.
    + apply tiles_app. exists a. split; [done|]. cbn [tiles s_addr s_size]. unfold BLOCK_SIZE. split_and!; [done|lia| |lia].
      by rewrite Zplus_mod, Tm, Hal.
    + done.
    + by destruct l.
    + by eapply spaced_same.
  - exists (l ++ [t; Seg (heap_end h) (bytes - 32) true]). unfold BLOCK_SIZE. rewrite (u64_small (bytes - 32)) by lia.
    assert (Hh0 : hp_head h <> 0) by (rewrite Hh; destruct l as [|z l]; cbn; [lia|]; pose proof (tiles_in _ _ _ z T1 ltac:(left)); lia).
    assert (Hne : blocks h !! s_addr t = Some (Block (s_size t) false 0 (final 0 l))).
    { destruct Lt as [Lt _]. by rewrite Hf in Lt. }
    unfold put_next, set_block, set_heap_end, set_tail, set_head, hp_at. cbn [blocks hp_head hp_tail heap_end large_alloc_virt_offset].
    rewrite Htl, (proj2 (Z.eqb_neq (s_addr t) 0)) by lia. cbn [negb blocks hp_head hp_tail heap_end large_alloc_virt_offset].
    rewrite lookup_insert_ne, Hne by lia. cbn [default b_size b_free b_prev].
    rewrite (proj2 (Z.eqb_neq (hp_head h) 0)) by done.
    split_and!; [|rewrite !live_app; simpl; by rewrite Hf|done].
    split; [split|]; cbn [set_block set_heap_end blocks hp_head hp_tail heap_end].
    + apply linked_app. cbn [linked first s_addr s_size s_free].
      split_and!; [frame_links; done|rewrite Hf; by rewrite lookup_insert_eq|rewrite lookup_insert_ne by lia; by rewrite lookup_insert_eq|done].
    + rewrite Hh. by destruct l.
    + by rewrite final_app.
    + apply tiles_app. exists a. split; [done|]. cbn [tiles s_addr s_size]. unfold BLOCK_SIZE. split_and!; try done; try lia.
      by rewrite Zminus_mod, Hal.
    + done.
    + by destruct l.
    + apply (spaced_app l t). split; [done|]. simpl. by rewrite Hf.
Qed.

Section grow.
Context {S : Type} `{!PagingOps S, !PagingLaws S}.
Implicit Types (s : S) (T : gset Z).

(** The frames left cannot push the heap past the end of the address space. *)
Definition room s (h : heap) : Prop := heap_end h + 4096 * Z.of_nat (pg_avail s) <= 2 ^ 64 - 2 ^ 20.
Definition heap_mapped s (cr3 : Z) (h : heap) : Prop := forall v, HEAP_BASE <= v < heap_end h -> pg_entry s cr3 v <> 0.

(** What growing may do: [n] more pages are mapped at the top. *)
Record grown (cr3 : Z) s (h : heap) s' (h' : heap) (n : Z) : Prop := Grown {
  gr_wf : exists T', pg_wf s' cr3 T';
  gr_heap : h' = set_heap_end h (heap_end h + 4096 * n);
  gr_pos : 0 <= n;
  gr_keep v : pg_entry s cr3 v <> 0 -> pg_entry s' cr3 v <> 0;
  gr_new v : heap_end h <= v < heap_end h + 4096 * n -> pg_entry s' cr3 v <> 0;
  gr_avail : Z.of_nat (pg_avail s') + n <= Z.of_nat (pg_avail s);
}.

Lemma set_heap_end_same h : set_heap_end h (heap_end h + 4096 * 0) = h.
Proof using. destruct h. unfold set_heap_end. cbn. by rewrite Z.add_0_r. Qed.

Lemma grown_none cr3 s s' h T' : pg_wf s' cr3 T' -> (forall v, pg_entry s' cr3 v = pg_entry s cr3 v) ->
  (pg_avail s' <= pg_avail s)%nat -> grown cr3 s h s' h 0.
Proof using.
  intros W He Ha. split; [by exists T'|by rewrite set_heap_end_same|done|intros v; by rewrite He|lia|lia].
Qed.

(** One page: allocate a frame and map it at the top. *)
Lemma grow_failed s cr3 T v flags s2 r :
  pg_wf s cr3 T -> fst (pg_alloc s) <> 0 -> pg_map (snd (pg_alloc s)) cr3 v (fst (pg_alloc s)) flags = (s2, r) -> r <> 0 ->
  exists T', pg_wf (pg_free s2 (fst (pg_alloc s))) cr3 T' /\
    (forall w, pg_entry (pg_free s2 (fst (pg_alloc s))) cr3 w = pg_entry s cr3 w) /\
    (pg_avail (pg_free s2 (fst (pg_alloc s))) <= pg_avail s)%nat.
Proof using PagingLaws0.
  intros W Hp Em Hr. destruct (pg_alloc_ok s cr3 T W Hp) as (Hf & Hn & W1 & Ha1 & Ht1 & He1).
  set (p := fst (pg_alloc s)) in *. set (s1 := snd (pg_alloc s)) in *.
  destruct (pg_map_ok s1 cr3 T v p flags s2 r W1 Em) as (T' & W2 & HT & Ht2 & _ & Hnew & Hres & Ha2).
  destruct Hres as [[? _]|[_ He2]]; [done|].
  assert (Hp1 : pg_taken s1 p = true) by (by rewrite Ht1, Z.eqb_refl).
  assert (HpT : p ∉ T').
  { intros Hin. destruct (decide (p ∈ T)) as [Ho|Ho].
    - destruct (pg_table_taken s cr3 T p W Ho) as [_ ?]. congruence.
    - specialize (Hnew p Hin Ho). congruence. }
  assert (Hp2 : pg_taken s2 p = true) by (by apply Ht2).
  destruct (pg_free_ok s2 cr3 T' p W2 Hf HpT Hp2) as (W3 & _ & He3).
  exists T'. split_and!; [done|intros w; by rewrite He3, He2, He1|].
  pose proof (pg_free_avail s2 cr3 T' p W2 Hf HpT Hp2). lia.
Qed.

Lemma grow_step s cr3 T h h1 s1 s' h' n :
  pg_wf s cr3 T -> h1 = set_heap_end h (heap_end h + 4096) -> heap_end h mod 4096 = 0 ->
  (pg_avail s1 < pg_avail s)%nat ->
  (forall v, pg_entry s1 cr3 v = if decide (page_of v = page_of (heap_end h)) then pg_entry s1 cr3 (heap_end h) else pg_entry s cr3 v) ->
  pg_entry s1 cr3 (heap_end h) <> 0 ->
  grown cr3 s1 h1 s' h' n -> grown cr3 s h s' h' (n + 1).
Proof using PagingLaws0.
  intros W -> Hal Ha He Hnz [Hw -> Hn Hk Hnew Hav]. cbn [set_heap_end heap_end] in *. split.
  - done.
  - unfold set_heap_end. cbn. f_equal. lia.
  - lia.
  - intros v Hv. apply Hk. rewrite He. case_decide; [done|done].
  - intros v Hv. destruct (Z.le_gt_cases (heap_end h + 4096) v); [apply Hnew; lia|]. apply Hk. rewrite He. rewrite decide_True; [done|].
    unfold page_of. f_equal. Z.to_euclidean_division_equations. lia.
  - lia.
Qed.

Lemma heap_grow_loop_ok fuel : forall s cr3 T h pages m s' h' m',
  pg_wf s cr3 T -> room s h -> 0 <= heap_end h -> heap_end h mod 4096 = 0 -> 0 <= m -> m <= pages -> pages < 2 ^ 64 ->
  heap_grow_loop fuel s cr3 h pages m = (s', h', m') ->
  grown cr3 s h s' h' (m' - m) /\ m' <= pages.
Proof using PagingLaws0.
  induction fuel as [|fuel IH]; intros s cr3 T h pages m s' h' m' W R He Hal Hm Hmp Hp; cbn [heap_grow_loop].
  { intros [= <- <- <-]. rewrite Z.sub_diag. split; [by eapply grown_none|done]. }
  destruct (Z.ltb_spec m pages) as [Hlt|Hge]; cbn [negb]; [|intros [= <- <- <-]; rewrite Z.sub_diag; split; [by eapply grown_none|done]].
  destruct (pg_alloc s) as [phys s1] eqn:Ea. destruct (Z.eqb_spec phys 0) as [->|Hz].
  { pose proof (pg_alloc_fail s cr3 T W) as Hf. rewrite Ea in Hf. cbn [fst snd] in Hf. rewrite (Hf eq_refl).
    intros [= <- <- <-]. rewrite Z.sub_diag. split; [by eapply grown_none|done]. }
  pose proof (pg_alloc_ok s cr3 T W) as Hok. rewrite Ea in Hok. cbn [fst snd] in Hok. destruct (Hok Hz) as (_ & _ & W1 & Ha1 & _ & He1).
  destruct (pg_map s1 _ _ _ _) as [s2 r] eqn:Em. destruct (Z.eqb_spec r 0) as [->|Hr]; cbn [negb].
  2: { intros [= <- <- <-]. rewrite Z.sub_diag. pose proof (grow_failed s cr3 T (heap_end h)) as Hg. rewrite Ea in Hg. cbn [fst snd] in Hg.
    destruct (Hg _ _ _ W Hz Em Hr) as (T' & W' & He' & Ha'). split; [by eapply grown_none|done]. }
  destruct (pg_map_ok s1 cr3 T _ phys _ s2 0 W1 Em) as (T2 & W2 & _ & _ & _ & _ & [[_ He2]|[? _]] & Ha2); [|done].
  unfold room in R. rewrite (u64_small (heap_end h + 4096)), (u64_small (m + 1)) by lia. intros E.
  destruct (IH s2 cr3 T2 (set_heap_end h (heap_end h + 4096)) pages (m + 1) s' h' m' W2) as [G Hle]; cbn [set_heap_end heap_end]; try done; try lia.
  { unfold room. cbn [set_heap_end heap_end]. lia. }
  { by rewrite Zplus_mod, Hal. }
  split; [|done]. replace (m' - m) with (m' - (m + 1) + 1) by lia.
  pose proof (He2 (heap_end h)) as Htop. rewrite decide_True in Htop by done.
  assert (Hnz : pg_entry s2 cr3 (heap_end h) <> 0) by (rewrite Htop; apply pte_of_nonzero).
  eapply (grow_step s cr3 T h _ s2); try done; [lia|]. intros v. rewrite Htop. by rewrite He2, He1.
Qed.

(** The rounds given to [heap_grow] are enough: more do not change the result. *)
Lemma heap_grow_rounds fuel : forall fuel' s cr3 T h pages m,
  pg_wf s cr3 T -> (pg_avail s < fuel)%nat -> (fuel <= fuel')%nat ->
  heap_grow_loop fuel' s cr3 h pages m = heap_grow_loop fuel s cr3 h pages m.
Proof using PagingLaws0.
  induction fuel as [|fuel IH]; intros fuel' s cr3 T h pages m W Ha Hle; [lia|]. destruct fuel' as [|fuel']; [lia|].
  cbn [heap_grow_loop]. destruct (negb (m <? pages)); [done|].
  pose proof (pg_alloc_ok s cr3 T W) as Hok. destruct (pg_alloc s) as [phys s1]. cbn [fst snd] in Hok.
  destruct (Z.eqb_spec phys 0) as [|Hz]; [done|]. destruct (Hok Hz) as (_ & _ & W1 & Ha1 & _).
  destruct (pg_map s1 _ _ _ _) as [s2 r] eqn:Em. destruct (negb (r =? 0)); [done|].
  destruct (pg_map_ok s1 cr3 T _ phys _ s2 r W1 Em) as (T2 & W2 & _ & _ & _ & _ & _ & Ha2).
  apply (IH _ _ _ T2); [done|lia|lia].
Qed.

Lemma heap_grow_ok s cr3 T h pages s' h' m' :
  pg_wf s cr3 T -> room s h -> 0 <= heap_end h -> heap_end h mod 4096 = 0 -> 0 <= pages < 2 ^ 64 ->
  heap_grow s cr3 h pages = (s', h', m') -> grown cr3 s h s' h' m' /\ m' <= pages.
Proof using PagingLaws0.
  intros W R He Hal Hp E. destruct (heap_grow_loop_ok (1 + pg_avail s) s cr3 T h pages 0 s' h' m') as [G ?]; try done; try lia.
  by rewrite Z.sub_0_r in G.
Qed.

(** ** Allocation *)
Lemma round_size_ok size : 0 < size <= 2 ^ 64 - 16 ->
  size <= round_size size /\ round_size size < size + 16 /\ round_size size mod 16 = 0.
Proof using.
  intros Hs. unfold round_size, KMALLOC_ALIGN. rewrite (u64_small (size + (16 - 1))) by lia.
  change (16 - 1) with (2 ^ 4 - 1). rewrite land_not64_ones by (unfold is_u64; lia).
  change (2 ^ 4) with 16. Z.to_euclidean_division_equations. lia.
Qed.

Record heap_inv s (cr3 : Z) (h : heap) (l : list seg) : Prop := HeapInv {
  hi_wf : exists T, pg_wf s cr3 T;
  hi_ok : heap_ok h l;
  hi_page : heap_end h mod 4096 = 0;
  hi_room : room s h;
  hi_mapped : heap_mapped s cr3 h;
}.

Lemma grown_inv s cr3 h l s' h' m : heap_inv s cr3 h l -> grown cr3 s h s' h' m -> m <> 0 -> m < 2 ^ 52 ->
  exists l', heap_inv s' cr3 (list_append h' (heap_end h) (m ⊗ 4096)) l' /\ live l' = live l.
Proof using.
  intros [_ H Hp R M] [W -> Hm Hk Hn Ha] Hnz Hlt. unfold room in R.
  destruct (list_append_ok h l (4096 * m) H) as (l' & H' & Hl & He); [unfold BLOCK_SIZE; lia|by rewrite Z.mul_comm, (Z.mul_mod m), Z.mul_0_r|lia|].
  rewrite (u64_small (m * 4096)), (Z.mul_comm m) by lia. exists l'. split; [|done]. split; try done.
  - by rewrite He, Zplus_mod, Hp, Z.mul_comm, Z.mod_mul.
  - unfold room. rewrite He. lia.
  - intros v. rewrite He. intros Hv. destruct (Z.lt_ge_cases v (heap_end h)); [apply Hk, M; lia|apply Hn; lia].
Qed.

Lemma kmalloc_loop_ok fuel : forall s cr3 h l size, heap_inv s cr3 h l -> 0 <= size < 2 ^ 64 -> size mod 16 = 0 ->
  (pg_avail s < fuel)%nat ->
  exists s' h' p l', kmalloc_loop fuel s cr3 h size = Some (s', h', p) /\ heap_inv s' cr3 h' l' /\
    (p = 0 /\ live l' = live l /\ (forall x, x ∈ l' -> s_free x = true -> s_size x < size) \/
     p mod 16 = 0 /\ HEAP_BASE < p /\ exists sz, size <= sz /\ live l' ≡ₚ (p, sz) :: live l).
Proof using PagingLaws0.
  induction fuel as [|fuel IH]; intros s cr3 h l size I Hs Hal Ha; [lia|]. cbn [kmalloc_loop].
  destruct I as [[T W] H Hp R M]. pose proof (heap_length h l H) as Hlen. rewrite (ho_head _ _ H).
  destruct (find_fit_ok h size l [] (1 + base.size (blocks h))) as [[-> Hno]|(m1 & b & m2 & -> & -> & Hf & Hfit & _)]; [apply H|lia| |].
  - cbn [negb Z.eqb]. set (needed := (size ⊕ BLOCK_SIZE ⊕ 4095) / 4096).
    assert (Hnd : 0 <= needed < 2 ^ 52).
    { pose proof (u64_range (size ⊕ BLOCK_SIZE + 4095)). unfold needed. Z.to_euclidean_division_equations. lia. }
    clearbody needed. destruct (heap_grow s cr3 h needed) as [[s1 h1] m] eqn:Eg.
    destruct (heap_grow_ok s cr3 T h needed s1 h1 m W R) as [G Hm]; [|done|lia|done|].
    { pose proof (tiles_le _ _ _ (ho_tiles _ _ H)). unfold HEAP_BASE in *. lia. }
    destruct (Z.eqb_spec m 0) as [->|Hnz].
    + exists s1, h1, 0, l. pose proof (gr_heap _ _ _ _ _ _ G) as ->. rewrite set_heap_end_same. split_and!; [done| |by left].
      destruct G as [W' _ _ Hk _ Hav]. split; try done; [unfold room in *; lia|]. intros v Hv. apply Hk. by apply M.
    + destruct (grown_inv s cr3 h l s1 h1 m) as (l1 & I1 & Hl1); [by split; [exists T|..]|done|done|lia|].
      destruct (IH s1 cr3 _ l1 size I1 Hs Hal) as (s' & h' & p & l' & E & I' & Hr); [destruct G; lia|].
      exists s', h', p, l'. rewrite Hl1 in Hr. done.
  - destruct (heap_bounds _ _ _ _ H) as (B1 & B2 & B3 & B4 & _). unfold HEAP_BASE in *.
    rewrite (proj2 (Z.eqb_neq _ _)) by lia. cbn [negb].
    destruct (take_block_ok h m1 b m2 size H Hf) as (l' & sz & H' & Hsz & Hl & He); [lia|done|].
    rewrite (u64_small (s_addr b + BLOCK_SIZE)) by (unfold BLOCK_SIZE in *; lia).
    eexists s, _, _, l'. split_and!; [done| |right].
    + split; [by exists T|done|by rewrite He|unfold room; by rewrite He|unfold heap_mapped; by rewrite He].
    + unfold BLOCK_SIZE in *. split_and!; [|lia|by exists sz].
      pose proof (heap_aligned _ _ _ _ H) as Hb. by rewrite Zplus_mod, Hb.
Qed.
End grow.

(** ** Live allocations are apart *)
Lemma elem_of_live l p sz : (p, sz) ∈ live l <-> exists x, x ∈ l /\ s_free x = false /\ p = s_addr x + BLOCK_SIZE /\ sz = s_size x.
Proof.
  unfold live. rewrite list_elem_of_omap. split.
  - intros (x & Hx & E). exists x. destruct (s_free x); by simplify_eq.
  - intros (x & Hx & Hf & -> & ->). exists x. by rewrite Hf.
Qed.

(** Payload [p] of [sz] bytes, with the header before it, is clear of [q]'s. *)
Definition clear (p sz q sq : Z) : Prop := p + sz <= q - BLOCK_SIZE \/ q + sq <= p - BLOCK_SIZE.

Lemma segs_clear a l e x y : tiles a l e -> x ∈ l -> y ∈ l -> x <> y ->
  clear (s_addr x + BLOCK_SIZE) (s_size x) (s_addr y + BLOCK_SIZE) (s_size y).
Proof.
  intros T Hx Hy Hne. apply list_elem_of_split in Hx as (l1 & l2 & ->).
  destruct (seg_distinct _ _ _ _ _ T) as [D1 D2]. unfold clear.
  apply elem_of_app in Hy as [Hy|[->|Hy]%elem_of_cons]; [destruct (D1 y Hy)|done|pose proof (D2 y Hy)]; lia.
Qed.

Lemma live_nodup a l e : tiles a l e -> NoDup (live l).*1.
Proof.
  intros T%tiles_nodup. induction l as [|x l IH]; [constructor|]. rewrite fmap_cons in T. inversion_clear T as [|? ? Hx T'].
  change (live (x :: l)) with (live ([x] ++ l)). rewrite live_app. cbn [live omap list_omap].
  destruct (s_free x); [by apply IH|]. cbn [app fmap list_fmap fst]. constructor; [|by apply IH].
  intros ([q sq] & E & (y & Hy & _ & -> & _)%elem_of_live)%list_elem_of_fmap. simpl in E. apply Hx.
  apply list_elem_of_fmap. exists y. split; [lia|done].
Qed.

Lemma live_clear a l e p sz q sq : tiles a l e -> (p, sz) ∈ live l -> (q, sq) ∈ live l -> p <> q -> clear p sz q sq.
Proof.
  intros T (x & Hx & _ & -> & ->)%elem_of_live (y & Hy & _ & -> & ->)%elem_of_live Hne.
  eapply segs_clear; try done. by intros ->.
Qed.

Lemma live_in_heap h l p sz : heap_lk h l -> (p, sz) ∈ live l -> 0 <= sz /\ HEAP_BASE < p /\ p + sz <= heap_end h.
Proof.
  intros H (x & Hx & _ & -> & ->)%elem_of_live. destruct (tiles_in _ _ _ x (ho_tiles _ _ H) Hx) as (? & ? & ?).
  unfold BLOCK_SIZE in *. lia.
Qed.

(** ** The contract *)
Inductive hop := HAlloc (size : Z) | HFree (ptr : Z).

(** One operation on the multiset of live allocations. *)
Inductive hstep (lv : list (Z * Z)) : hop -> Z -> list (Z * Z) -> Prop :=
  | hs_fail size : hstep lv (HAlloc size) 0 lv
  | hs_alloc size p sz lv' : size <= sz -> 0 < p -> p mod 16 = 0 -> (forall q sq, (q, sq) ∈ lv -> p <> q /\ clear p sz q sq) ->
      lv' ≡ₚ (p, sz) :: lv -> hstep lv (HAlloc size) p lv'
  | hs_free p sz lv' : lv ≡ₚ (p, sz) :: lv' -> hstep lv (HFree p) 0 lv'
  | hs_free_null : hstep lv (HFree 0) 0 lv.

(** What a caller owes: sizes that do not wrap, and freeing live pointers only. *)
Definition op_ok (lv : list (Z * Z)) (op : hop) : Prop :=
  match op with HAlloc size => 0 <= size <= 2 ^ 64 - 16 | HFree p => p = 0 \/ p ∈ lv.*1 end.

Section contract.
Context {S : Type} `{!PagingOps S, !PagingLaws S}.
Implicit Types (s : S).

Definition hexec s (cr3 : Z) (h : heap) (op : hop) : option (S * heap * Z) :=
  match op with HAlloc size => kmalloc s cr3 h size | HFree p => Some (s, kfree h p, 0) end.

Lemma kmalloc_step s cr3 h l size : heap_inv s cr3 h l -> 0 <= size <= 2 ^ 64 - 16 ->
  exists s' h' p l', kmalloc s cr3 h size = Some (s', h', p) /\ heap_inv s' cr3 h' l' /\ hstep (live l) (HAlloc size) p (live l').
Proof using PagingLaws0.
  intros I Hs. unfold kmalloc. destruct (Z.eqb_spec size 0) as [->|Hnz].
  { exists s, h, 0, l. split_and!; [done|done|constructor]. }
  destruct (round_size_ok size) as (R1 & R2 & R3); [lia|].
  destruct (kmalloc_loop_ok (1 + pg_avail s) s cr3 h l (round_size size) I) as (s' & h' & p & l' & E & I' & Hr);
    [split; [lia|apply Z.lt_le_trans with (size + 16); lia]|done|lia|].
  exists s', h', p, l'. split_and!; [done|done|]. destruct Hr as [(-> & -> & _)|(Hp & Hb & sz & Hsz & Hl)]; [constructor|].
  pose proof (live_nodup _ _ _ (ho_tiles _ _ (hi_ok _ _ _ _ I'))) as Hnd. rewrite Hl, fmap_cons in Hnd. inversion_clear Hnd as [|? ? Hnin _].
  apply (hs_alloc _ size p sz); [lia|unfold HEAP_BASE in *; lia|done| |done]. intros q sq Hq.
  assert (Hpq : p <> q) by (intros ->; apply Hnin, list_elem_of_fmap; by exists (q, sq)). split; [done|].
  eapply live_clear; [apply I'|rewrite Hl; left|rewrite Hl; by right|done].
Qed.

Lemma kfree_step s cr3 h l p : heap_inv s cr3 h l -> p = 0 \/ p ∈ (live l).*1 ->
  exists l', heap_inv s cr3 (kfree h p) l' /\ hstep (live l) (HFree p) 0 (live l').
Proof using.
  intros I [->|([q sz] & -> & (x & Hx & Hf & Hq & ->)%elem_of_live)%list_elem_of_fmap]; [by exists l; split; [|constructor]|].
  cbn [fst]. subst q. destruct I as [W H Hp R M]. apply list_elem_of_split in Hx as (l1 & l2 & ->).
  destruct (kfree_ok h l1 x l2 H Hf) as (l' & H' & Hl & He). exists l'. split; [|by eapply hs_free].
  split; [done|done|by rewrite He|unfold room; by rewrite He|unfold heap_mapped; by rewrite He].
Qed.

Lemma heap_init_inv s cr3 T h s' h' : pg_wf s cr3 T -> HEAP_BASE + 4096 * Z.of_nat (pg_avail s) <= 2 ^ 64 - 2 ^ 20 ->
  heap_init s cr3 h = Some (s', h') -> exists l, heap_inv s' cr3 h' l /\ live l = [].
Proof using PagingLaws0.
  intros W R. unfold heap_init. destruct (heap_grow s cr3 _ _) as [[s1 h1] n] eqn:Eg.
  destruct (heap_grow_ok s cr3 T (set_heap_end h HEAP_BASE) HEAP_INITIAL_PAGES s1 h1 n W) as [[W' -> Hn Hk Hnew Hav] Hle]; try done.
  cbn [heap_end set_heap_end] in *. unfold HEAP_INITIAL_PAGES in Hle.
  destruct (Z.eqb_spec n 0) as [|Hnz]; [done|]. intros [= <- <-].
  exists [Seg HEAP_BASE (4096 * n - 32) true]. split; [|done]. unfold HEAP_BASE, BLOCK_SIZE in *.
  rewrite (u64_small (n * 4096)), (u64_small (n * 4096 - 32)) by lia. rewrite (Z.mul_comm n). split; cbn [set_tail set_block set_head set_heap_end heap_end].
  - done.
  - split; [|done]. split; cbn; try done; try lia; [by rewrite lookup_insert_eq|]. unfold HEAP_BASE, BLOCK_SIZE. split_and!; try done; try lia.
    by rewrite Zminus_mod, Z.mul_comm, Z.mul_mod, Z.mul_0_r.
  - by rewrite Zplus_mod, Z.mul_comm, Z.mod_mul.
  - unfold room. cbn. lia.
  - intros v Hv. apply Hnew. done.
Qed.
End contract.

(** ** Properties *)
Section properties.
Context {S : Type} `{!PagingOps S, !PagingLaws S}.
Implicit Types (s : S).

(** C2: every heap operation returns, keeps the heap invariant (blocks tile
    the heap exactly, links agree in both directions, no two neighbours are
    free, every heap page is mapped) and acts on the live allocations as the abstract allocator:
    [kmalloc] adds one aligned block of at least the requested size clear of all
    others, or returns null and adds none; [kfree] removes exactly its block. *)
Theorem heap_refines s cr3 h l op : heap_inv s cr3 h l -> op_ok (live l) op ->
  exists s' h' r l', hexec s cr3 h op = Some (s', h', r) /\ heap_inv s' cr3 h' l' /\ hstep (live l) op r (live l').
Proof using PagingLaws0.
  intros I Hop. destruct op as [size|p]; [by apply kmalloc_step|].
  destruct (kfree_step s cr3 h l p I Hop) as (l' & I' & Hs). by exists s, (kfree h p), 0, l'.
Qed.

(** What a caller keeps: the pointers it holds and the sizes it asked for. *)
Definition account (led : gmap Z Z) (op : hop) (r : Z) : gmap Z Z :=
  match op with HAlloc size => if decide (r = 0) then led else <[r := size]> led | HFree p => delete p led end.
Definition may (led : gmap Z Z) (op : hop) : Prop :=
  match op with HAlloc size => 0 <= size <= 2 ^ 64 - 16 | HFree p => p = 0 \/ is_Some (led !! p) end.

(** The states a caller that frees only what it holds can reach. *)
Inductive reached (cr3 : Z) : S -> heap -> gmap Z Z -> Prop :=
  | reached_init s0 T h0 s h : pg_wf s0 cr3 T -> HEAP_BASE + 4096 * Z.of_nat (pg_avail s0) <= 2 ^ 64 - 2 ^ 20 ->
      heap_init s0 cr3 h0 = Some (s, h) -> reached cr3 s h ∅
  | reached_step s h led op s' h' r : reached cr3 s h led -> may led op ->
      hexec s cr3 h op = Some (s', h', r) -> reached cr3 s' h' (account led op r).

Definition led_ok (led : gmap Z Z) (lv : list (Z * Z)) : Prop :=
  forall p n, led !! p = Some n -> exists sz, (p, sz) ∈ lv /\ n <= sz /\ p mod 16 = 0.

#[local] Instance led_ok_perm led : Proper ((≡ₚ) ==> iff) (led_ok led).
Proof using. intros l1 l2 E. unfold led_ok. by setoid_rewrite E. Qed.

Lemma led_step led lv op r lv' : led_ok led lv -> hstep lv op r lv' -> led_ok (account led op r) lv'.
Proof using.
  intros L [size|size p sz lv1 Hsz Hp Hal Hc ->|p sz lv1 E|]; cbn [account].
  - done.
  - rewrite decide_False by lia. intros q n [[<- <-]|[Hne Hq]]%lookup_insert_Some; [exists sz; split_and!; [left|done|done]|].
    destruct (L q n Hq) as (sq & ? & ? & ?). exists sq. split_and!; [by right|done|done].
  - intros q n [Hne Hq]%lookup_delete_Some. destruct (L q n Hq) as (sq & Hin & ? & ?). exists sq. split_and!; try done.
    rewrite E in Hin. apply elem_of_cons in Hin as [[= -> ->]|?]; done.
  - intros q n [_ Hq]%lookup_delete_Some. by apply L.
Qed.

Lemma reached_inv cr3 s h led : reached cr3 s h led -> exists l, heap_inv s cr3 h l /\ led_ok led (live l).
Proof using PagingLaws0.
  induction 1 as [s0 T h0 s h W R E|s h led op s' h' r _ (l & I & L) Hm E].
  - destruct (heap_init_inv s0 cr3 T h0 s h W R E) as (l & I & _). by exists l.
  - assert (Hop : op_ok (live l) op).
    { destruct op as [size|p]; [done|]. destruct Hm as [->|[n Hn]]; [by left|right].
      destruct (L p n Hn) as (sz & Hin & _). apply list_elem_of_fmap. by exists (p, sz). }
    assert (Hx : exists l', heap_inv s' cr3 h' l' /\ hstep (live l) op r (live l')).
    { destruct op as [size|p]; cbn [hexec] in E.
      - destruct (kmalloc_step s cr3 h l size I Hop) as (s1 & h1 & p1 & l' & E' & I' & Hs).
        rewrite E in E'. injection E' as <- <- <-. by exists l'.
      - injection E as <- <- <-. by apply kfree_step. }
    destruct Hx as (l' & I' & Hs). exists l'. split; [done|]. by eapply led_step.
Qed.

(** Memory safety of the heap for a caller that frees only what it holds. In
    every state it can reach from [heap_init], the ranges it was granted are
    16-byte aligned, backed by mapped heap pages, and pairwise disjoint, each with at least the
    size it asked for; and its next request returns. *)
Theorem heap_safe cr3 s h led : reached cr3 s h led ->
  (forall p n, led !! p = Some n -> p mod 16 = 0 /\ HEAP_BASE < p /\ forall v, p <= v < p + n -> pg_entry s cr3 v <> 0) /\
  (forall p n q k, led !! p = Some n -> led !! q = Some k -> p <> q -> p + n <= q \/ q + k <= p) /\
  (forall op, may led op -> is_Some (hexec s cr3 h op)).
Proof using PagingLaws0.
  intros (l & I & L)%reached_inv. pose proof (ho_tiles _ _ (hi_ok _ _ _ _ I)) as T. split_and!.
  - intros p n Hp. destruct (L p n Hp) as (sz & Hin & Hn & Hal). destruct (live_in_heap h l p sz) as (? & ? & ?); [apply I|done|].
    split_and!; [done|done|]. intros v Hv. apply (hi_mapped _ _ _ _ I). lia.
  - intros p n q k Hp Hq Hne. destruct (L p n Hp) as (sz & Hin & Hn & _). destruct (L q k Hq) as (sq & Hiq & Hk & _).
    destruct (live_clear _ _ _ _ _ _ _ T Hin Hiq Hne); unfold BLOCK_SIZE in *; lia.
  - intros [size|p] Hm; [|by eexists]. destruct (kmalloc_step s cr3 h l size I Hm) as (s' & h' & p & l' & E & _).
    cbn [hexec]. by rewrite E.
Qed.
End properties.

(** A heap on the example machine: the first table frame holds the kernel's. *)
Definition ex_heap0 : heap := Heap ∅ 0 0 0 LARGE_ALLOC_VBASE.
Definition ex_heap_init : vst pmm * heap := default (ex_vst, ex_heap0) (heap_init ex_vst ex_root1 ex_heap0).

Lemma ex_heap_some : bool_decide (is_Some (heap_init ex_vst ex_root1 ex_heap0)) = true.
Proof. vm_compute. reflexivity. Qed.

Lemma ex_heap_room : HEAP_BASE + 4096 * Z.of_nat (pg_avail ex_vst) <= 2 ^ 64 - 2 ^ 20.
Proof. vm_compute. discriminate. Qed.

Lemma ex_heap_wf : pg_wf ex_vst ex_root1 {[ ex_root1 ]}.
Proof. exists {[ ex_root1 := [] ]}. split; [apply ex_vtree; left|]. by rewrite dom_singleton_L. Qed.

Lemma ex_heap_reached : reached ex_root1 (fst ex_heap_init) (snd ex_heap_init) ∅.
Proof.
  destruct (proj1 (bool_decide_eq_true _) ex_heap_some) as [[s h] E]. unfold ex_heap_init. rewrite E. cbn [default fst snd].
  exact (reached_init ex_root1 ex_vst {[ ex_root1 ]} ex_heap0 s h ex_heap_wf ex_heap_room E).
Qed.

Lemma heap_refines_witness :
  exists s h p, hexec (fst ex_heap_init) ex_root1 (snd ex_heap_init) (HAlloc 100) = Some (s, h, p) /\ p = HEAP_BASE + 32 /\
    exists l lv, heap_inv s ex_root1 h l /\ hstep lv (HAlloc 100) p (live l).
Proof.
  destruct (reached_inv ex_root1 _ _ ∅ ex_heap_reached) as (l & I & _).
  destruct (heap_refines (fst ex_heap_init) ex_root1 (snd ex_heap_init) l (HAlloc 100) I) as (s & h & p & l' & E & I' & Hs); [simpl; lia|].
  exists s, h, p. split; [exact E|]. split; [|exists l', (live l); split; assumption].
  assert (Hp : snd <$> hexec (fst ex_heap_init) ex_root1 (snd ex_heap_init) (HAlloc 100) = Some (HEAP_BASE + 32)) by (vm_compute; reflexivity).
  rewrite E in Hp. injection Hp as Hp. exact Hp.
Defined.

(** Two allocations, made one after the other. *)
Definition ex_two : option (vst pmm * heap * Z * Z) :=
  match kmalloc (fst ex_heap_init) ex_root1 (snd ex_heap_init) 100 with
  | Some (s, h, p) => match kmalloc s ex_root1 h 5000 with Some (s, h, q) => Some (s, h, p, q) | None => None end
  | None => None
  end.

Lemma ex_two_ptrs : (fun x => (snd (fst x), snd x)) <$> ex_two = Some (HEAP_BASE + 32, HEAP_BASE + 176).
Proof. vm_compute. reflexivity. Qed.

Lemma ex_two_reached : exists s h, reached ex_root1 s h (<[HEAP_BASE + 176 := 5000]> (<[HEAP_BASE + 32 := 100]> ∅)).
Proof.
  pose proof ex_two_ptrs as Ht. unfold ex_two in Ht.
  destruct (kmalloc (fst ex_heap_init) ex_root1 (snd ex_heap_init) 100) as [[[s1 h1] p]|] eqn:E1; [|discriminate].
  destruct (kmalloc s1 ex_root1 h1 5000) as [[[s2 h2] q]|] eqn:E2; [|discriminate].
  cbn [fmap option_fmap option_map fst snd] in Ht. injection Ht as -> ->. exists s2, h2.
  assert (R1 : reached ex_root1 s1 h1 (account ∅ (HAlloc 100) (HEAP_BASE + 32))).
  { refine (reached_step ex_root1 _ _ ∅ (HAlloc 100) s1 h1 _ ex_heap_reached _ E1). simpl; lia. }
  assert (R2 : reached ex_root1 s2 h2 (account (account ∅ (HAlloc 100) (HEAP_BASE + 32)) (HAlloc 5000) (HEAP_BASE + 176))).
  { refine (reached_step ex_root1 _ _ _ (HAlloc 5000) s2 h2 _ R1 _ E2). simpl; lia. }
  exact R2.
Qed.

Lemma heap_safe_witness : exists (s : vst pmm) h led, reached ex_root1 s h led /\ led !! (HEAP_BASE + 176) = Some 5000 /\
  (forall v, HEAP_BASE + 176 <= v < HEAP_BASE + 176 + 5000 -> pg_entry s ex_root1 v <> 0).
Proof.
  destruct ex_two_reached as (s & h & R). exists s, h, (<[HEAP_BASE + 176 := 5000]> (<[HEAP_BASE + 32 := 100]> ∅)).
  split; [exact R|]. split; [apply lookup_insert_eq|].
  destruct (heap_safe ex_root1 s h _ R) as (H & _). apply (H (HEAP_BASE + 176) 5000). apply lookup_insert_eq.
Defined.

(** The bound on request sizes is needed. A request within 15 bytes of the
    largest size wraps to zero when it is rounded up: [kmalloc] grants it, with a payload of
    no bytes, and the next request is placed 32 bytes further on. *)
Theorem kmalloc_wraps :
  match kmalloc (fst ex_heap_init) ex_root1 (snd ex_heap_init) (2 ^ 64 - 8) with
  | Some (s, h, p) => p = HEAP_BASE + 32 /\ (snd <$> kmalloc s ex_root1 h 16) = Some (p + 32)
  | None => False
  end.
Proof. vm_compute. split; reflexivity. Qed.
