(* ===== verification/Pipe.v ===== *)
(** Anonymous pipes, [kernel/msg/pipe.c].

    The ring and its reference counts are explicit state.  Interrupts are off
    while a call runs, so a call is a sequence of rounds: a round runs without
    interruption until the call returns or parks on a wait queue, and other
    calls run in between.  Waking the parked tasks has no effect on the state:
    a woken call runs its next round, which checks the condition again. *)
From S2P Require Import Prelude.

Definition PIPE_CAPACITY : Z := 4096.
Definition PIPE_BUF : Z := 512.

Record pipe := Pipe {
  pp_data : list Z;
  pp_head : Z;
  pp_count : Z;
  readers : Z;
  writers : Z;
}.

(** [kmalloc] succeeded and the memory is zeroed. *)
Definition pipe_create : pipe := Pipe (replicate (Z.to_nat PIPE_CAPACITY) 0) 0 0 1 1.

Definition pipe_ref (p : pipe) (write_end : bool) : pipe :=
  if write_end then Pipe (pp_data p) (pp_head p) (pp_count p) (readers p) (u32 (writers p + 1))
  else Pipe (pp_data p) (pp_head p) (pp_count p) (u32 (readers p + 1)) (writers p).

(** The pipe after dropping a reference, and whether it is freed. *)
Definition pipe_unref (p : pipe) (write_end : bool) : pipe * bool :=
  let p :=
    if write_end then
      if negb (writers p =? 0) then Pipe (pp_data p) (pp_head p) (pp_count p) (readers p) (u32 (writers p - 1)) else p
    else
      if negb (readers p =? 0) then Pipe (pp_data p) (pp_head p) (pp_count p) (u32 (readers p - 1)) (writers p) else p in
  (p, (readers p =? 0) && (writers p =? 0)).

Definition pipe_readable (p : pipe) : bool := (pp_count p >? 0) || (writers p =? 0).
Definition pipe_writable (p : pipe) : bool := (pp_count p <? PIPE_CAPACITY) || (readers p =? 0).

Definition pipe_read (p : pipe) (n : Z) (nonblock : bool) : pipe * list Z * round :=
  if n =? 0 then (p, [], Returned 0) else
  if pp_count p =? 0 then
    if writers p =? 0 then (p, [], Returned 0)
    else if nonblock then (p, [], Returned (- EAGAIN))
    else (p, [], Parked)
  else
    let chunk := if n <? pp_count p then n else pp_count p in
    let first := PIPE_CAPACITY - pp_head p in
    let first := if first >? chunk then chunk else first in
    let buf := bytes_at (pp_data p) (pp_head p) first ++ bytes_at (pp_data p) 0 (chunk - first) in
    (Pipe (pp_data p) (u32 ((pp_head p ⊕ chunk) mod PIPE_CAPACITY)) (u32 (pp_count p - chunk)) (readers p) (writers p),
     buf, Returned chunk).

(** The loop of [pipe_write], from [written] bytes on: the pipe, the bytes
    written so far, and how the round ends.  A round copies at most once
    before it returns or finds the ring full, so three passes are enough
    ([write_round_total]). *)
Fixpoint write_loop (fuel : nat) (p : pipe) (buf : list Z) (nonblock : bool) (written : Z) : pipe * Z * option round :=
  let n := Z.of_nat (length buf) in
  let finish rc := Some (Returned (if negb (written =? 0) then written else rc)) in
  match fuel with
  | O => (p, written, None)
  | S fuel =>
      if negb (written <? n) then (p, written, finish 0) else
      if readers p =? 0 then (p, written, finish (- EPIPE)) else
      let space := PIPE_CAPACITY - pp_count p in
      let need := if n <=? PIPE_BUF then n - written else 1 in
      if space <? need then
        if nonblock then (p, written, finish (- EAGAIN)) else (p, written, Some Parked)
      else
        let chunk := if n - written <? space then n - written else space in
        let tail := u32 (pp_head p + pp_count p) mod PIPE_CAPACITY in
        let first := PIPE_CAPACITY - tail in
        let first := if first >? chunk then chunk else first in
        let d := copy_to (pp_data p) tail (bytes_at buf written first) in
        let d := copy_to d 0 (bytes_at buf (written + first) (chunk - first)) in
        write_loop fuel (Pipe d (pp_head p) (u32 (pp_count p + chunk)) (readers p) (writers p)) buf nonblock (written + chunk)
  end.

Definition pipe_write (p : pipe) (buf : list Z) (nonblock : bool) (written : Z) : pipe * Z * option round :=
  if Z.of_nat (length buf) =? 0 then (p, written, Some (Returned 0)) else write_loop 3 p buf nonblock written.

(** A parked call woken by a signal returns without another pass. *)
Definition read_interrupted : Z := - EINTR.
Definition write_interrupted (written : Z) : Z := if negb (written =? 0) then written else - EINTR.
