(* ===== verification/PipeSpec.v ===== *)
(** A pipe is a bounded first-in first-out queue of bytes ([kernel/msg/pipe.c]). *)
From S2P Require Import Prelude.
From S2P Require Import Pipe.

(** ** The queue a ring holds *)
Definition slot (p : pipe) (i : nat) : nat := Z.to_nat ((pp_head p + Z.of_nat i) mod PIPE_CAPACITY).
Definition ring (p : pipe) : list Z := (fun i => pp_data p !!! slot p i) <$> seq 0 (Z.to_nat (pp_count p)).

Record pipe_ok (p : pipe) : Prop := PipeOk {
  po_data : length (pp_data p) = 4096%nat;
  po_head : 0 <= pp_head p < PIPE_CAPACITY;
  po_count : 0 <= pp_count p <= PIPE_CAPACITY;
  po_readers : is_u32 (readers p);
  po_writers : is_u32 (writers p);
}.

Lemma slot_lt p i : (slot p i < 4096)%nat.
Proof. unfold slot, PIPE_CAPACITY. pose proof (Z.mod_pos_bound (pp_head p + Z.of_nat i) 4096). lia. Qed.

Lemma ring_length p : length (ring p) = Z.to_nat (pp_count p).
Proof. unfold ring. by rewrite length_fmap, length_seq. Qed.

Lemma ring_lookup p i : pipe_ok p -> (i < Z.to_nat (pp_count p))%nat -> ring p !! i = pp_data p !! slot p i.
Proof.
  intros H Hi. unfold ring. rewrite list_lookup_fmap, lookup_seq_lt by done. simpl. symmetry. apply list_lookup_lookup_total_lt.
  rewrite (po_data _ H). apply slot_lt.
Qed.

(** A list is the ring as soon as it has its length and its bytes. *)
Lemma ring_eq p l : pipe_ok p -> length l = Z.to_nat (pp_count p) ->
  (forall i, (i < length l)%nat -> l !! i = pp_data p !! slot p i) -> ring p = l.
Proof.
  intros H Hl He. apply list_eq_same_length with (n := length l); [done|by rewrite ring_length|].
  intros i x y Hi. rewrite ring_lookup by (done || lia). rewrite <-He by lia. by intros -> [= ->].
Qed.

(** ** Copies *)
(** Two copies in a row write [src] around the end of the ring. *)
Lemma wrap_copy d tail c src k :
  length d = 4096%nat -> 0 <= tail < 4096 -> 0 <= c <= 4096 -> Z.of_nat (length src) = c ->
  let first := if 4096 - tail >? c then c else 4096 - tail in
  copy_to (copy_to d tail (bytes_at src 0 first)) 0 (bytes_at src first (c - first)) !! k =
    if decide ((Z.of_nat k - tail) mod 4096 < c /\ (k < 4096)%nat) then src !! Z.to_nat ((Z.of_nat k - tail) mod 4096) else d !! k.
Proof.
  intros Hd Ht Hc Hs first. assert (Hf : 0 <= first <= c /\ first <= 4096 - tail /\ (first < c -> first = 4096 - tail)).
  { unfold first. destruct (Z.gtb_spec (4096 - tail) c); lia. }
  clearbody first. assert (L1 : length (bytes_at src 0 first) = Z.to_nat first) by (apply bytes_at_length; lia).
  assert (L2 : length (bytes_at src first (c - first)) = Z.to_nat (c - first)) by (apply bytes_at_length; lia).
  rewrite copy_to_lookup by (rewrite ?copy_to_length; lia). rewrite L2.
  destruct (Nat.lt_ge_cases k 4096) as [Hk|Hk].
  2: { rewrite decide_False, decide_False by lia. rewrite copy_to_lookup, L1 by lia. by rewrite decide_False by lia. }
  assert (Hm : tail <= Z.of_nat k /\ (Z.of_nat k - tail) mod 4096 = Z.of_nat k - tail \/
               Z.of_nat k < tail /\ (Z.of_nat k - tail) mod 4096 = Z.of_nat k - tail + 4096).
  { destruct (Z.le_gt_cases tail (Z.of_nat k)); [left|right]; (split; [done|]); [apply Z.mod_small; lia|].
    symmetry. apply (Z.mod_unique _ _ (-1)); lia. }
  rewrite copy_to_lookup, L1 by lia. destruct Hm as [[Hle ->]|[Hgt ->]].
  - destruct (decide (Z.of_nat k - tail < c /\ _)) as [Hin|Hin].
    + rewrite decide_False by lia. rewrite decide_True by lia. rewrite bytes_at_lookup by lia. f_equal. lia.
    + rewrite decide_False by lia. by rewrite decide_False by lia.
  - destruct (decide (Z.of_nat k - tail + 4096 < c /\ _)) as [Hin|Hin].
    + rewrite decide_True by lia. rewrite bytes_at_lookup by lia. f_equal. lia.
    + rewrite decide_False by lia. by rewrite decide_False by lia.
Qed.

(** ** Reading *)
Lemma slot_mod p i : Z.of_nat (slot p i) = (pp_head p + Z.of_nat i) mod 4096.
Proof. unfold slot, PIPE_CAPACITY. pose proof (Z.mod_pos_bound (pp_head p + Z.of_nat i) 4096). lia. Qed.

Lemma read_bytes p c : pipe_ok p -> 0 < c <= pp_count p ->
  let first := if PIPE_CAPACITY - pp_head p >? c then c else PIPE_CAPACITY - pp_head p in
  bytes_at (pp_data p) (pp_head p) first ++ bytes_at (pp_data p) 0 (c - first) = take (Z.to_nat c) (ring p).
Proof.
  intros H Hc first. pose proof (po_head _ H). pose proof (po_count _ H). pose proof (po_data _ H). unfold PIPE_CAPACITY in *.
  assert (Hf : 0 <= first <= c /\ first <= 4096 - pp_head p /\ (first < c -> first = 4096 - pp_head p)).
  { unfold first. destruct (Z.gtb_spec (4096 - pp_head p) c); lia. }
  clearbody first. assert (L1 : length (bytes_at (pp_data p) (pp_head p) first) = Z.to_nat first) by (apply bytes_at_length; lia).
  apply list_eq_same_length with (n := Z.to_nat c).
  - rewrite length_take, ring_length. lia.
  - rewrite length_app, L1, bytes_at_length by lia. lia.
  - intros i x y Hi. rewrite lookup_take_lt, ring_lookup by (done || lia). pose proof (slot_mod p i) as Hsl.
    destruct (decide (Z.of_nat i < first)).
    + rewrite lookup_app_l, bytes_at_lookup by lia. rewrite Z.mod_small in Hsl by lia.
      replace (slot p i) with (Z.to_nat (pp_head p) + i)%nat by lia. congruence.
    + rewrite lookup_app_r, L1, bytes_at_lookup by lia.
      replace (slot p i) with (Z.to_nat 0 + (i - Z.to_nat first))%nat; [congruence|].
      rewrite <-(Z.mod_unique (pp_head p + Z.of_nat i) 4096 1 (pp_head p + Z.of_nat i - 4096)) in Hsl by lia. lia.
Qed.

Lemma pipe_read_ok p n nb : pipe_ok p -> is_u64 n -> n <> 0 -> pp_count p <> 0 ->
  exists p' c, pipe_read p n nb = (p', take (Z.to_nat c) (ring p), Returned c) /\ c = Z.min n (pp_count p) /\
    pipe_ok p' /\ ring p' = drop (Z.to_nat c) (ring p) /\ readers p' = readers p /\ writers p' = writers p.
Proof.
  intros H Hn Hnz Hcz. pose proof (po_head _ H) as Hh. pose proof (po_count _ H) as Hct. unfold is_u64 in Hn. unfold pipe_read.
  rewrite (proj2 (Z.eqb_neq n 0)), (proj2 (Z.eqb_neq (pp_count p) 0)) by done. set (c := if n <? pp_count p then n else pp_count p).
  assert (Hc : c = Z.min n (pp_count p)) by (unfold c; destruct (Z.ltb_spec n (pp_count p)); lia).
  clearbody c. rewrite read_bytes by (done || lia). unfold PIPE_CAPACITY in *.
  pose proof (Z.mod_pos_bound (pp_head p + c) 4096 ltac:(lia)) as Hm.
  rewrite (u64_small (pp_head p + c)), (u32_small ((pp_head p + c) mod 4096)), (u32_small (pp_count p - c)) by lia.
  eexists _, c. split; [done|]. split; [done|].
  assert (Hp' : pipe_ok (Pipe (pp_data p) ((pp_head p + c) mod 4096) (pp_count p - c) (readers p) (writers p))).
  { split; cbn; try apply H; unfold PIPE_CAPACITY; lia. }
  split_and!; try done. apply ring_eq; [done|rewrite length_drop, ring_length; cbn; lia|].
  intros i Hi. rewrite length_drop, ring_length in Hi. rewrite lookup_drop, ring_lookup by (done || lia). cbn. f_equal.
  apply Nat2Z.inj. rewrite !slot_mod. cbn. rewrite Zplus_mod_idemp_l. f_equal. lia.
Qed.

(** ** Writing *)
Lemma write_copy_ok p src : pipe_ok p -> 0 < Z.of_nat (length src) -> pp_count p + Z.of_nat (length src) <= PIPE_CAPACITY ->
  let c := Z.of_nat (length src) in
  let tail := u32 (pp_head p + pp_count p) mod PIPE_CAPACITY in
  let first := if PIPE_CAPACITY - tail >? c then c else PIPE_CAPACITY - tail in
  let d := copy_to (copy_to (pp_data p) tail (bytes_at src 0 first)) 0 (bytes_at src first (c - first)) in
  let p' := Pipe d (pp_head p) (u32 (pp_count p + c)) (readers p) (writers p) in
  pipe_ok p' /\ ring p' = ring p ++ src.
Proof.
  intros H Hpos Hfit c tail first d p'. pose proof (po_head _ H) as Hh. pose proof (po_count _ H) as Hct. pose proof (po_data _ H) as Hd.
  unfold PIPE_CAPACITY in *. assert (Ht : tail = (pp_head p + pp_count p) mod 4096) by (unfold tail; by rewrite u32_small by lia).
  assert (Htb : 0 <= tail < 4096) by (rewrite Ht; apply Z.mod_pos_bound; lia).
  assert (Hw : forall k, d !! k = if decide ((Z.of_nat k - tail) mod 4096 < c /\ (k < 4096)%nat)
    then src !! Z.to_nat ((Z.of_nat k - tail) mod 4096) else pp_data p !! k) by (intros k; apply wrap_copy; lia).
  assert (Hf : 0 <= first <= c /\ first <= 4096 - tail /\ (first < c -> first = 4096 - tail)).
  { unfold first. destruct (Z.gtb_spec (4096 - tail) c); lia. }
  assert (Hld : length d = 4096%nat).
  { assert (L1 : length (bytes_at src 0 first) = Z.to_nat first) by (apply bytes_at_length; lia).
    assert (L2 : length (bytes_at src first (c - first)) = Z.to_nat (c - first)) by (apply bytes_at_length; lia).
    unfold d. rewrite !copy_to_length; rewrite ?copy_to_length; lia. }
  assert (Hp' : pipe_ok p').
  { split; cbn; try apply H; try done. rewrite u32_small by lia. unfold PIPE_CAPACITY. lia. }
  split; [done|]. apply ring_eq; [done|rewrite length_app, ring_length; cbn; rewrite u32_small by lia; lia|].
  intros i Hi. rewrite length_app, ring_length in Hi.
  change (pp_data p') with d. rewrite Hw. change (slot p' i) with (slot p i). pose proof (slot_lt p i) as Hsl.
  assert (Hm : (Z.of_nat (slot p i) - tail) mod 4096 = (Z.of_nat i - pp_count p) mod 4096).
  { rewrite slot_mod, Ht, <-Zminus_mod. f_equal. lia. }
  rewrite Hm. destruct (decide (Z.of_nat i < pp_count p)).
  - rewrite lookup_app_l, ring_lookup by (rewrite ?ring_length; done || lia). rewrite decide_False; [done|].
    rewrite <-(Z.mod_unique (Z.of_nat i - pp_count p) 4096 (-1) (Z.of_nat i - pp_count p + 4096)) by lia. lia.
  - rewrite lookup_app_r, ring_length by (rewrite ring_length; lia). rewrite Z.mod_small by lia. rewrite decide_True by lia. f_equal. lia.
Qed.

(** Bytes a call still needs room for before it copies. *)
Definition need (buf : list Z) (written : Z) : Z :=
  let n := Z.of_nat (length buf) in if n <=? PIPE_BUF then n - written else 1.
Definition space (p : pipe) : Z := PIPE_CAPACITY - pp_count p.

(** How a round ends once nothing more can be copied. *)
Definition stopped (p : pipe) (buf : list Z) (nb : bool) (w : Z) (r : round) : Prop :=
  let n := Z.of_nat (length buf) in
  match r with
  | Parked => w < n /\ nb = false /\ readers p <> 0 /\ space p < need buf w
  | Returned k =>
      w = n /\ k = w \/
      w < n /\ readers p = 0 /\ k = (if decide (w = 0) then - EPIPE else w) \/
      w < n /\ readers p <> 0 /\ nb = true /\ space p < need buf w /\ k = (if decide (w = 0) then - EAGAIN else w)
  end.

Lemma write_loop_stop fuel p buf nb w : 0 <= w <= Z.of_nat (length buf) ->
  w = Z.of_nat (length buf) \/ readers p = 0 \/ space p < need buf w ->
  exists r, write_loop (S fuel) p buf nb w = (p, w, Some r) /\ stopped p buf nb w r.
Proof.
  intros Hw Hs. cbn [write_loop]. unfold stopped. destruct (Z.ltb_spec w (Z.of_nat (length buf))) as [Hlt|Hge]; cbn [negb].
  2: { eexists. split; [done|]. left. split; [lia|]. destruct (Z.eqb_spec w 0); simpl; lia. }
  assert (Hif : forall rc, (if negb (w =? 0) then w else rc) = if decide (w = 0) then rc else w).
  { intros rc. destruct (Z.eqb_spec w 0); simpl; by case_decide. }
  destruct (Z.eqb_spec (readers p) 0) as [Hr|Hr].
  { eexists. split; [done|]. right; left. by rewrite Hif. }
  assert (Hsp : space p < need buf w) by (destruct Hs as [?|[?|?]]; [lia|done|done]).
  unfold space, need in *. cbv zeta in *. rewrite (proj2 (Z.ltb_lt _ _)) by done. destruct nb.
  - eexists. split; [done|]. do 2 right. by rewrite Hif.
  - eexists. split; [done|]. done.
Qed.

Lemma write_loop_copy fuel p buf nb w : pipe_ok p -> 0 <= w < Z.of_nat (length buf) -> readers p <> 0 -> need buf w <= space p ->
  exists p1 w1, write_loop (S fuel) p buf nb w = write_loop fuel p1 buf nb w1 /\ w < w1 <= Z.of_nat (length buf) /\
    pipe_ok p1 /\ ring p1 = ring p ++ bytes_at buf w (w1 - w) /\ readers p1 = readers p /\ writers p1 = writers p /\
    (w1 = Z.of_nat (length buf) \/ space p1 < need buf w1).
Proof.
  intros H Hw Hr Hn. cbn [write_loop]. rewrite (proj2 (Z.ltb_lt _ _)) by lia. cbn [negb]. rewrite (proj2 (Z.eqb_neq _ _)) by done.
  fold (space p). cbv zeta. fold (need buf w). rewrite (proj2 (Z.ltb_ge _ _)) by done.
  set (n := Z.of_nat (length buf)) in *. set (chunk := if n - w <? space p then n - w else space p).
  assert (Hnd : 1 <= need buf w) by (unfold need; cbv zeta; fold n; destruct (Z.leb_spec n PIPE_BUF); lia).
  assert (Hc : chunk = Z.min (n - w) (space p)) by (unfold chunk; destruct (Z.ltb_spec (n - w) (space p)); lia).
  pose proof (po_count _ H) as Hct. assert (Hsp : space p = PIPE_CAPACITY - pp_count p) by done. unfold PIPE_CAPACITY in Hct, Hsp. clearbody chunk.
  set (src := bytes_at buf w chunk). assert (Hl : Z.of_nat (length src) = chunk) by (unfold src; rewrite bytes_at_length; lia).
  destruct (write_copy_ok p src H) as [Hok Hring]; [lia|unfold PIPE_CAPACITY; lia|]. rewrite Hl in Hok, Hring.
  set (tail := u32 (pp_head p + pp_count p) mod PIPE_CAPACITY) in *.
  set (first := if PIPE_CAPACITY - tail >? chunk then chunk else PIPE_CAPACITY - tail) in *.
  assert (Htl : 0 <= tail < 4096) by (apply Z.mod_pos_bound; done).
  assert (Hf : 0 <= first <= chunk) by (unfold first, PIPE_CAPACITY in *; destruct (Z.gtb_spec (4096 - tail) chunk); lia).
  assert (E1 : bytes_at buf w first = bytes_at src 0 first) by (unfold src; rewrite bytes_at_sub by lia; f_equal; lia).
  assert (E2 : bytes_at buf (w + first) (chunk - first) = bytes_at src first (chunk - first)) by (unfold src; by rewrite bytes_at_sub by lia).
  rewrite E1, E2. eexists _, (w + chunk). split; [done|]. split; [lia|]. split; [exact Hok|]. split; [|split; [done|split; [done|]]].
  { rewrite Hring. by replace (w + chunk - w) with chunk by lia. }
  destruct (Z.eq_dec (w + chunk) n); [by left|right]. unfold space at 1. cbn [pp_count]. rewrite u32_small by lia.
  unfold need in *. cbv zeta in *. fold n in Hn, Hnd |- *. unfold PIPE_CAPACITY. destruct (Z.leb_spec n PIPE_BUF); lia.
Qed.

(** A round always ends, with the bytes it copied appended to the ring. *)
Lemma write_round_total p buf nb w : pipe_ok p -> 0 <= w <= Z.of_nat (length buf) -> buf <> [] ->
  exists p' w' r, pipe_write p buf nb w = (p', w', Some r) /\ w <= w' <= Z.of_nat (length buf) /\ pipe_ok p' /\
    ring p' = ring p ++ bytes_at buf w (w' - w) /\ readers p' = readers p /\ writers p' = writers p /\ stopped p' buf nb w' r /\
    (w' = w \/ w' = Z.of_nat (length buf) \/ PIPE_BUF < Z.of_nat (length buf)).
Proof.
  intros H Hw Hb. unfold pipe_write. rewrite (proj2 (Z.eqb_neq _ _)) by (destruct buf; [done|simpl; lia]).
  assert (Hstay : ring p ++ bytes_at buf w (w - w) = ring p) by (rewrite Z.sub_diag; apply app_nil_r).
  destruct (Z.eq_dec w (Z.of_nat (length buf))) as [He|He].
  { destruct (write_loop_stop 2 p buf nb w Hw) as (r & -> & Hst); [by left|]. exists p, w, r. split_and!; auto; lia. }
  destruct (Z.eq_dec (readers p) 0) as [Hr|Hr].
  { destruct (write_loop_stop 2 p buf nb w Hw) as (r & -> & Hst); [by right; left|]. exists p, w, r. split_and!; auto; lia. }
  destruct (Z.lt_ge_cases (space p) (need buf w)) as [Hs|Hs].
  { destruct (write_loop_stop 2 p buf nb w Hw) as (r & -> & Hst); [by right; right|]. exists p, w, r. split_and!; auto; lia. }
  destruct (write_loop_copy 2 p buf nb w H) as (p1 & w1 & -> & Hw1 & H1 & Hr1 & R1 & W1 & Hend); [lia|done|lia|].
  destruct (write_loop_stop 1 p1 buf nb w1) as (r & -> & Hst); [lia|tauto|].
  exists p1, w1, r. split_and!; try done; try lia. destruct Hend as [?|Hend]; [by right; left|].
  destruct (Z.lt_ge_cases PIPE_BUF (Z.of_nat (length buf))); [by right; right|right; left].
  unfold need in *. cbv zeta in *. unfold space in *. pose proof (po_count _ H1). rewrite (proj2 (Z.leb_le _ _)) in Hs, Hend by lia.
  assert (pp_count p1 = pp_count p + (w1 - w)); [|lia].
  pose proof (f_equal length Hr1) as Hlen. rewrite length_app, !ring_length, bytes_at_length in Hlen by lia. pose proof (po_count _ H). lia.
Qed.

(** ** Calls in progress, interleaved *)
Inductive call := Reading (n : Z) (nonblock : bool) | Writing (buf : list Z) (nonblock : bool) (written : Z).

(** One round of a call: the pipe, the call's progress, the bytes that went in
    and out, and how it ended. *)
Definition run_round (p : pipe) (c : call) : pipe * call * list Z * list Z * option round :=
  match c with
  | Reading n nb => let '(p, out, r) := pipe_read p n nb in (p, c, [], out, Some r)
  | Writing buf nb w => let '(p, w', r) := pipe_write p buf nb w in (p, Writing buf nb w', bytes_at buf w (w' - w), [], r)
  end.

(** The pipe, the calls parked on it, the calls that returned, and the bytes
    that went in (with the call that wrote them) and out, in order. *)
Record psys := PSys {
  sy_pipe : pipe;
  sy_parked : gmap nat call;
  sy_done : gmap nat (call * Z);
  sy_in : list (nat * list Z);
  sy_out : list Z;
}.

Definition log_in (log : list (nat * list Z)) (id : nat) (bs : list Z) : list (nat * list Z) :=
  match bs with [] => log | _ => log ++ [(id, bs)] end.

Definition settle (s : psys) (id : nat) (p : pipe) (c : call) (bin bout : list Z) (r : round) : psys :=
  let log := log_in (sy_in s) id bin in let out := sy_out s ++ bout in
  match r with
  | Parked => PSys p (<[id := c]> (sy_parked s)) (sy_done s) log out
  | Returned k => PSys p (delete id (sy_parked s)) (<[id := (c, k)]> (sy_done s)) log out
  end.

Definition fresh_call (c : call) : Prop :=
  match c with Reading n _ => is_u64 n | Writing _ _ w => w = 0 end.

Definition interrupted (c : call) : Z := match c with Reading _ _ => read_interrupted | Writing _ _ w => write_interrupted w end.

Inductive pstep : psys -> psys -> Prop :=
  | ps_call s id c p c' bin bout r : sy_parked s !! id = None -> sy_done s !! id = None -> fresh_call c ->
      run_round (sy_pipe s) c = (p, c', bin, bout, Some r) -> pstep s (settle s id p c' bin bout r)
  | ps_woken s id c p c' bin bout r : sy_parked s !! id = Some c ->
      run_round (sy_pipe s) c = (p, c', bin, bout, Some r) -> pstep s (settle s id p c' bin bout r)
  | ps_signal s id c : sy_parked s !! id = Some c ->
      pstep s (PSys (sy_pipe s) (delete id (sy_parked s)) (<[id := (c, interrupted c)]> (sy_done s)) (sy_in s) (sy_out s))
  | ps_ref s w : pstep s (PSys (pipe_ref (sy_pipe s) w) (sy_parked s) (sy_done s) (sy_in s) (sy_out s))
  | ps_unref s w p : pipe_unref (sy_pipe s) w = (p, false) -> pstep s (PSys p (sy_parked s) (sy_done s) (sy_in s) (sy_out s)).

Definition psys_init : psys := PSys pipe_create ∅ ∅ [] [].
Definition preach : psys -> Prop := rtc pstep psys_init.

(** The pieces call [id] put into the pipe. *)
Definition pieces (log : list (nat * list Z)) (id : nat) : list (list Z) := (filter (fun e => e.1 = id) log).*2.

(** A write has put in the first [w] bytes of its buffer, in one piece when it is short. *)
Definition wrote (log : list (nat * list Z)) (id : nat) (buf : list Z) (w : Z) : Prop :=
  0 <= w <= Z.of_nat (length buf) /\ concat (pieces log id) = take (Z.to_nat w) buf /\
  (Z.of_nat (length buf) <= PIPE_BUF -> pieces log id = [] /\ w = 0 \/ pieces log id = [buf] /\ w = Z.of_nat (length buf)).

Definition parked_ok (log : list (nat * list Z)) (id : nat) (c : call) : Prop :=
  match c with Reading n _ => is_u64 n /\ pieces log id = [] | Writing buf _ w => wrote log id buf w end.

Definition done_ok (log : list (nat * list Z)) (id : nat) (c : call) (k : Z) : Prop :=
  match c with
  | Reading _ _ => pieces log id = []
  | Writing buf _ w => wrote log id buf w /\
      (0 < w /\ k = w \/ w = 0 /\ (k = 0 /\ buf = [] \/ k = - EPIPE \/ k = - EAGAIN \/ k = - EINTR))
  end.

(** Only a write with bytes left parks. *)
Definition unfinished (c : call) : Prop := match c with Reading _ _ => True | Writing buf _ w => w < Z.of_nat (length buf) end.

Record psys_ok (s : psys) : Prop := PSysOk {
  ps_pipe : pipe_ok (sy_pipe s);
  ps_fifo : concat (sy_in s).*2 = sy_out s ++ ring (sy_pipe s);
  ps_parked id c : sy_parked s !! id = Some c -> parked_ok (sy_in s) id c;
  ps_wait id c : sy_parked s !! id = Some c -> unfinished c;
  ps_done id c k : sy_done s !! id = Some (c, k) -> done_ok (sy_in s) id c k;
  ps_once id c : sy_parked s !! id = Some c -> sy_done s !! id = None;
  ps_new id : sy_parked s !! id = None -> sy_done s !! id = None -> pieces (sy_in s) id = [];
}.

Lemma pieces_log log id bs j : pieces (log_in log id bs) j = pieces log j ++ (if decide (id = j) then match bs with [] => [] | _ => [bs] end else []).
Proof.
  unfold log_in, pieces. destruct bs as [|b bs]; [by case_decide; rewrite app_nil_r|].
  rewrite list_basics.list.filter_app, fmap_app. f_equal. unfold filter, list_filter. cbn. by repeat case_decide.
Qed.

Lemma pieces_other log id bs j : id <> j -> pieces (log_in log id bs) j = pieces log j.
Proof. intros H. rewrite pieces_log, decide_False by done. apply app_nil_r. Qed.

Lemma concat_log log id bs : concat (log_in log id bs).*2 = concat log.*2 ++ bs.
Proof. destruct bs; cbn [log_in]; [by rewrite app_nil_r|]. by rewrite fmap_app, concat_app; cbn; rewrite app_nil_r. Qed.

Lemma wrote_step log id buf w w' : wrote log id buf w -> w <= w' <= Z.of_nat (length buf) ->
  w' = w \/ w' = Z.of_nat (length buf) \/ PIPE_BUF < Z.of_nat (length buf) ->
  wrote (log_in log id (bytes_at buf w (w' - w))) id buf w'.
Proof.
  intros (Hw & Hc & Hs) Hw' Hend. set (bs := bytes_at buf w (w' - w)).
  assert (Hbs : concat (match bs with [] => [] | _ => [bs] end) = bs) by (destruct bs; [done|]; cbn; by rewrite app_nil_r).
  unfold wrote. rewrite pieces_log, decide_True by done. split_and!; [lia|lia| |].
  - rewrite concat_app, Hc, Hbs. unfold bs, bytes_at. rewrite take_take_drop. f_equal. lia.
  - intros Hl. specialize (Hs Hl). destruct (Z.eq_dec w' w) as [->|Hne].
    { assert (bs = []) as -> by (unfold bs, bytes_at; by rewrite Z.sub_diag). rewrite app_nil_r. done. }
    destruct Hs as [[-> ->]|[_ ?]]; [|lia]. right. destruct Hend as [?|[He|?]]; [done| |lia]. split; [|done].
    assert (bs = buf) as -> by (unfold bs, bytes_at; cbn; apply take_ge; lia). destruct buf; [cbn in *; lia|done].
Qed.

Lemma run_ok p log id c p' c' bin bout r : pipe_ok p -> parked_ok log id c ->
  run_round p c = (p', c', bin, bout, Some r) ->
  pipe_ok p' /\ ring p ++ bin = bout ++ ring p' /\
  match r with Parked => parked_ok (log_in log id bin) id c' /\ unfinished c' | Returned k => done_ok (log_in log id bin) id c' k end.
Proof.
  intros H Hc. destruct c as [n nb|buf nb w]; cbn [run_round].
  - destruct Hc as [Hn Hp]. destruct (Z.eq_dec n 0) as [->|Hnz]; [|destruct (Z.eq_dec (pp_count p) 0) as [H0|H0]].
    + cbn. intros [= <- <- <- <- <-]. split_and!; [done|by rewrite app_nil_r|done].
    + unfold pipe_read. rewrite (proj2 (Z.eqb_neq n 0)), H0 by done. cbn [Z.eqb].
      destruct (writers p =? 0), nb; intros [= <- <- <- <- <-]; (split; [done|split; [by rewrite app_nil_r|cbn; auto]]).
    + destruct (pipe_read_ok p n nb H Hn Hnz H0) as (p1 & c & -> & _ & H1 & Hr & _). intros [= <- <- <- <- <-].
      split_and!; [done|by rewrite app_nil_r, Hr, take_drop|done].
  - destruct buf as [|b buf'].
    { cbn. intros [= <- <- <- <- <-]. destruct Hc as ([? ?] & Hc). cbn in *. assert (w = 0) as -> by lia.
      split; [done|]. split; [by rewrite app_nil_r|]. split; [by split|]. right. split; [done|by left]. }
    set (buf := b :: buf') in *. destruct (write_round_total p buf nb w H) as (p1 & w1 & r1 & -> & Hw1 & H1 & Hr & _ & _ & Hst & Hend); [apply Hc|done|].
    intros [= <- <- <- <- <-]. pose proof (wrote_step log id buf w w1 Hc Hw1 Hend) as Hwr. split_and!; [done|done|].
    destruct r1 as [k|]; [|split; [done|apply Hst]]. split; [done|]. destruct Hc as [[? _] _].
    assert (Hlen : 0 < Z.of_nat (length buf)) by (cbn; lia). cbn [stopped] in Hst.
    destruct Hst as [[-> ->]|[(_ & _ & ->)|(_ & _ & _ & _ & ->)]]; [left; lia| |]; case_decide; auto with lia.
    all: right; split; [done|tauto].
Qed.

Lemma parked_other log id bs j c : id <> j -> parked_ok log j c -> parked_ok (log_in log id bs) j c.
Proof. intros Hn. destruct c; unfold parked_ok, wrote; by rewrite pieces_other. Qed.

Lemma done_other log id bs j c k : id <> j -> done_ok log j c k -> done_ok (log_in log id bs) j c k.
Proof. intros Hn. destruct c; unfold done_ok, wrote; by rewrite pieces_other. Qed.

Lemma settle_ok s id c p c' bin bout r : psys_ok s -> parked_ok (sy_in s) id c -> sy_done s !! id = None ->
  run_round (sy_pipe s) c = (p, c', bin, bout, Some r) -> psys_ok (settle s id p c' bin bout r).
Proof.
  intros S Hc Hd E. destruct (run_ok _ (sy_in s) id c p c' bin bout r (ps_pipe _ S) Hc E) as (H & Hf & Hr).
  assert (Hfifo : concat (log_in (sy_in s) id bin).*2 = (sy_out s ++ bout) ++ ring p).
  { by rewrite concat_log, (ps_fifo _ S), <-!app_assoc, Hf. }
  destruct r as [k|]; split; cbn [settle sy_pipe sy_parked sy_done sy_in sy_out]; try done.
  - intros j cj [Hne Hj]%lookup_delete_Some. apply parked_other; [done|]. by apply (ps_parked _ S).
  - intros j cj [_ Hj]%lookup_delete_Some. by eapply (ps_wait _ S).
  - intros j cj kj [[<- [= <- <-]]|[Hne Hj]]%lookup_insert_Some; [done|]. apply done_other; [done|]. by apply (ps_done _ S).
  - intros j cj [Hne Hj]%lookup_delete_Some. rewrite lookup_insert_ne by done. by eapply (ps_once _ S).
  - intros j Hj [Hj' Hne]%lookup_insert_None. rewrite lookup_delete_ne in Hj by done. rewrite pieces_other by done. by apply (ps_new _ S).
  - intros j cj [[<- <-]|[Hne Hj]]%lookup_insert_Some; [apply Hr|]. apply parked_other; [done|]. by apply (ps_parked _ S).
  - intros j cj [[<- <-]|[_ Hj]]%lookup_insert_Some; [apply Hr|]. by eapply (ps_wait _ S).
  - intros j cj kj Hj. apply done_other; [by intros ->; congruence|]. by apply (ps_done _ S).
  - intros j cj [[<- <-]|[Hne Hj]]%lookup_insert_Some; [done|]. by eapply (ps_once _ S).
  - intros j [Hj Hne]%lookup_insert_None Hj'. rewrite pieces_other by done. by apply (ps_new _ S).
Qed.

Lemma signal_ok s id c : psys_ok s -> sy_parked s !! id = Some c ->
  psys_ok (PSys (sy_pipe s) (delete id (sy_parked s)) (<[id := (c, interrupted c)]> (sy_done s)) (sy_in s) (sy_out s)).
Proof.
  intros S Hc. pose proof (ps_parked _ S id c Hc) as Hok. split; cbn [sy_pipe sy_parked sy_done sy_in sy_out]; try apply S.
  - intros j cj [_ Hj]%lookup_delete_Some. by apply (ps_parked _ S).
  - intros j cj [_ Hj]%lookup_delete_Some. by eapply (ps_wait _ S).
  - intros j cj kj [[<- [= <- <-]]|[_ Hj]]%lookup_insert_Some; [|by apply (ps_done _ S)].
    destruct c as [n nb|buf nb w]; [apply Hok|]. split; [done|]. destruct Hok as ([? ?] & _). cbn [interrupted write_interrupted].
    unfold write_interrupted. destruct (Z.eqb_spec w 0) as [->|]; [right|left; cbn; lia]. split; [done|]. cbn. tauto.
  - intros j cj [Hne Hj]%lookup_delete_Some. rewrite lookup_insert_ne by done. by eapply (ps_once _ S).
  - intros j Hj [Hj' Hne]%lookup_insert_None. rewrite lookup_delete_ne in Hj by done. by apply (ps_new _ S).
Qed.

Lemma ref_ok s p : psys_ok s -> pipe_ok p -> ring p = ring (sy_pipe s) ->
  psys_ok (PSys p (sy_parked s) (sy_done s) (sy_in s) (sy_out s)).
Proof. intros S H E. split; cbn; try apply S; [done|]. rewrite E. apply S. Qed.

Lemma u32_is x : is_u32 (u32 x).
Proof. apply Z.mod_pos_bound. lia. Qed.

Lemma pstep_ok s s' : pstep s s' -> psys_ok s -> psys_ok s'.
Proof.
  intros St S. destruct St as [s id c p c' bin bout r Hp Hd Hf E|s id c p c' bin bout r Hp E|s id c Hp|s w|s w p E].
  - eapply settle_ok; [done| |done|done]. pose proof (ps_new _ S id Hp Hd) as Hn.
    destruct c as [n nb|buf nb w]; [done|]. cbn in Hf. subst w. unfold parked_ok, wrote. rewrite Hn. split_and!; [lia|lia|done|by left].
  - eapply settle_ok; [done|by apply (ps_parked _ S)|by eapply (ps_once _ S)|done].
  - by apply signal_ok.
  - pose proof (ps_pipe _ S) as [? ? ? ? ?]. apply ref_ok; [done| |by destruct w]. destruct w; split; cbn; try done; apply u32_is.
  - pose proof (ps_pipe _ S) as [? ? ? ? ?]. unfold pipe_unref in E.
    apply ref_ok; [done| |]; destruct w; case_match; simplify_eq; try done; split; cbn; try done; apply u32_is.
Qed.

Lemma preach_ok s : preach s -> psys_ok s.
Proof.
  intros H. unfold preach in H. remember psys_init as si eqn:E0. assert (psys_ok si) as Hi.
  { rewrite E0. split; cbn; try done. }
  clear E0. induction H as [|sa sb sc St _ IH]; [done|]. apply IH. by eapply pstep_ok.
Qed.

(** A one-byte write into a ring with room returns at once. *)
Lemma one_byte p b nb : pipe_ok p -> readers p <> 0 -> need [b] 0 <= space p ->
  exists p1, pipe_write p [b] nb 0 = (p1, 1, Some (Returned 1)).
Proof.
  intros H Hr Hsp. destruct (write_loop_copy 2 p [b] nb 0 H) as (p1 & w1 & E & Hw & _); [cbn; lia|done|done|].
  cbn in Hw. assert (w1 = 1) as -> by lia. exists p1. unfold pipe_write. cbn [length Z.of_nat Z.eqb]. by rewrite E.
Qed.

(** ** Properties *)
(** C15: a pipe is a bounded first-in first-out queue, whatever calls are
    interleaved on it: the bytes written, in the order they went in, are
    exactly the bytes read followed by those still in the ring, which holds at most
    [PIPE_CAPACITY] bytes; and a write that returned [k > 0] put in exactly the
    first [k] bytes of its buffer, one that returned an error none. *)
Theorem pipe_fifo s : preach s ->
  concat (sy_in s).*2 = sy_out s ++ ring (sy_pipe s) /\ Z.of_nat (length (ring (sy_pipe s))) <= PIPE_CAPACITY /\
  forall id buf nb w k, sy_done s !! id = Some (Writing buf nb w, k) ->
    k <= Z.of_nat (length buf) /\ concat (pieces (sy_in s) id) = take (Z.to_nat k) buf.
Proof.
  intros S%preach_ok. split_and!; [apply S|rewrite ring_length; pose proof (po_count _ (ps_pipe _ S)); lia|].
  intros id buf nb w k Hd. destruct (ps_done _ S _ _ _ Hd) as [(Hw & Hc & _) Hk]. rewrite Hc.
  destruct Hk as [[_ ->]|[-> Hk]]; [split; [lia|done]|]. unfold EPIPE, EAGAIN, EINTR in Hk.
  assert (k <= 0) by (destruct Hk as [[? _]|[?|[?|?]]]; lia). split; [lia|]. by replace (Z.to_nat k) with 0%nat by lia.
Qed.

(** A write of at most [PIPE_BUF] bytes is atomic: when it has returned, either
    its whole buffer went into the pipe in one contiguous piece and it returned its
    length, or nothing went in and it returned an error; and while it is parked, nothing of it
    has gone in. *)
Theorem pipe_write_atomic s id buf nb w : preach s -> Z.of_nat (length buf) <= PIPE_BUF -> buf <> [] ->
  (sy_parked s !! id = Some (Writing buf nb w) -> pieces (sy_in s) id = []) /\
  (forall k, sy_done s !! id = Some (Writing buf nb w, k) ->
     pieces (sy_in s) id = [buf] /\ k = Z.of_nat (length buf) \/ pieces (sy_in s) id = [] /\ k < 0).
Proof.
  intros S%preach_ok Hl Hb. split.
  - intros Hp. destruct (ps_parked _ S _ _ Hp) as (_ & _ & Hs). pose proof (ps_wait _ S _ _ Hp) as Hlt. cbn in Hlt.
    destruct (Hs Hl) as [[? _]|[_ ?]]; [done|lia].
  - intros k Hd. destruct (ps_done _ S _ _ _ Hd) as [(Hw & _ & Hs) Hk]. unfold EPIPE, EAGAIN, EINTR in Hk.
    destruct (Hs Hl) as [[Hp ->]|[Hp ->]].
    + right. split; [done|]. destruct Hk as [[? _]|[_ [[_ ?]|?]]]; [lia|done|lia].
    + left. split; [done|]. destruct Hk as [[_ ?]|[H0 _]]; [done|]. destruct buf; [done|]. cbn in H0. lia.
Qed.

(** Polling agrees with the calls. A pipe is readable exactly when a read of a
    non-empty buffer neither parks nor would block, and writable exactly
    when a write of one byte does not. *)
Theorem pipe_poll p n b : pipe_ok p -> is_u64 n -> n <> 0 ->
  (pipe_readable p = true <-> snd (pipe_read p n false) <> Parked /\ snd (pipe_read p n true) <> Returned (- EAGAIN)) /\
  (pipe_writable p = true <-> snd (pipe_write p [b] false 0) <> Some Parked /\ snd (pipe_write p [b] true 0) <> Some (Returned (- EAGAIN))).
Proof.
  intros H Hn Hnz. pose proof (po_count _ H) as Hct. split.
  - unfold pipe_readable. destruct (Z.eq_dec (pp_count p) 0) as [E0|E0].
    + unfold pipe_read. rewrite (proj2 (Z.eqb_neq n 0)), E0 by done. cbn. destruct (writers p =? 0); cbn; naive_solver.
    + destruct (pipe_read_ok p n false H Hn Hnz E0) as (? & c & -> & Hc & _).
      destruct (pipe_read_ok p n true H Hn Hnz E0) as (? & c' & -> & Hc' & _).
      rewrite Z.gtb_ltb, (proj2 (Z.ltb_lt _ _)) by lia. cbn. unfold is_u64, EAGAIN in *. split; [|done]. intros _. split; [done|]. intros [= ?]. lia.
  - unfold pipe_writable. destruct (Z.eqb_spec (readers p) 0) as [Hr|Hr].
    + rewrite orb_true_r. unfold pipe_write. cbn. rewrite (proj2 (Z.eqb_eq _ _) Hr). naive_solver.
    + rewrite orb_false_r. split.
      * intros Hlt%Z.ltb_lt. assert (Hsp : need [b] 0 <= space p) by (change (need [b] 0) with 1; unfold space, PIPE_CAPACITY in *; lia).
        split; [destruct (one_byte p b false H Hr Hsp) as (p1 & ->)|destruct (one_byte p b true H Hr Hsp) as (p1 & ->)]; by cbn.
      * intros [Hp _]. apply Z.ltb_lt. destruct (Z.lt_ge_cases (pp_count p) PIPE_CAPACITY) as [|Hge]; [done|]. destruct Hp.
        destruct (write_loop_stop 2 p [b] false 0) as (r & E & Hst); [cbn; lia|right; right; change (need [b] 0) with 1; unfold space, PIPE_CAPACITY in *; lia|].
        unfold pipe_write. cbn [length Z.of_nat Z.eqb]. rewrite E. destruct r as [k|]; [|done]. cbn in Hst. lia || naive_solver lia.
Qed.

(** ** A concrete run: three bytes in, two bytes out. *)
Definition do_call (s : psys) (id : nat) (c : call) : psys :=
  let '(p, c', bin, bout, r) := run_round (sy_pipe s) c in
  match r with Some r => settle s id p c' bin bout r | None => s end.

Lemma do_call_step s id c : sy_parked s !! id = None -> sy_done s !! id = None -> fresh_call c ->
  snd (run_round (sy_pipe s) c) <> None -> pstep s (do_call s id c).
Proof.
  intros Hp Hd Hf Hr. unfold do_call. destruct (run_round (sy_pipe s) c) as [[[[p c'] bin] bout] [r|]] eqn:E; [|done].
  by eapply ps_call.
Qed.

Definition ex_call0 : call := Writing [1; 2; 3] false 0.
Definition ex_sys1 : psys := do_call psys_init 0 ex_call0.
Definition ex_sys2 : psys := do_call ex_sys1 1 (Reading 2 false).

Lemma ex_sys1_reach : preach ex_sys1.
Proof. apply rtc_once, do_call_step; [reflexivity|reflexivity|reflexivity|]. vm_compute. discriminate. Qed.

Lemma ex_sys2_reach : preach ex_sys2.
Proof.
  eapply rtc_r; [apply ex_sys1_reach|]. apply do_call_step; [vm_compute; reflexivity|vm_compute; reflexivity|split; vm_compute; congruence|].
  vm_compute. discriminate.
Qed.

Lemma pipe_fifo_witness : sy_out ex_sys2 = [1; 2] /\ ring (sy_pipe ex_sys2) = [3] /\
  concat (sy_in ex_sys2).*2 = sy_out ex_sys2 ++ ring (sy_pipe ex_sys2).
Proof. split; [vm_compute; reflexivity|]. split; [vm_compute; reflexivity|]. apply (pipe_fifo ex_sys2 ex_sys2_reach). Defined.

Lemma pipe_write_atomic_witness : sy_done ex_sys2 !! 0%nat = Some (Writing [1; 2; 3] false 3, 3) /\
  (pieces (sy_in ex_sys2) 0 = [[1; 2; 3]] /\ 3 = Z.of_nat (length [1; 2; 3]) \/ pieces (sy_in ex_sys2) 0 = [] /\ 3 < 0).
Proof.
  assert (Hd : sy_done ex_sys2 !! 0%nat = Some (Writing [1; 2; 3] false 3, 3)) by (vm_compute; reflexivity).
  split; [exact Hd|]. apply (pipe_write_atomic ex_sys2 0 [1; 2; 3] false 3 ex_sys2_reach); [vm_compute; discriminate|discriminate|exact Hd].
Defined.

Lemma ex_pipe_ok : pipe_ok (sy_pipe ex_sys2).
Proof. apply preach_ok, ex_sys2_reach. Qed.

Lemma pipe_poll_witness : pipe_readable (sy_pipe ex_sys2) = true /\ snd (pipe_read (sy_pipe ex_sys2) 5 false) <> Parked.
Proof.
  assert (Hr : pipe_readable (sy_pipe ex_sys2) = true) by (vm_compute; reflexivity). split; [exact Hr|].
  apply (pipe_poll (sy_pipe ex_sys2) 5 0 ex_pipe_ok); [split; vm_compute; congruence|discriminate|exact Hr].
Defined.
