(* ===== verification/MsgSpec.v ===== *)
(** Message rings refine bounded queues ([kernel/msg/msg.c]). *)
From S2P Require Import Prelude.
From S2P Require Import Msg.

(** ** Rings as queues *)
Section ring.
Context {A : Type} `{!Inhabited A} (k n : Z).
Hypothesis Hk : 0 < k <= 16.
Hypothesis Hpow : n = 2 ^ k.
Implicit Types (r : mring A).

Definition queue r : list A := (fun i => cells r !!! Z.to_nat ((mr_tail r + i) mod n)) <$> seqZ 0 ((mr_head r - mr_tail r) mod n).

Record ring_ok r : Prop := RingOk {
  ro_cells : Z.of_nat (length (cells r)) = n;
  ro_head : 0 <= mr_head r < n;
  ro_tail : 0 <= mr_tail r < n;
}.

Lemma mask_mod x : Z.land x (n - 1) = x mod n.
Proof using Hk Hpow. rewrite Hpow, Z.sub_1_r, <-Z.ones_equiv. apply Z.land_ones. lia. Qed.

Lemma n_pos : 1 < n.
Proof using Hk Hpow. rewrite Hpow. apply Z.pow_gt_1; lia. Qed.

Lemma queue_length r : Z.of_nat (length (queue r)) = (mr_head r - mr_tail r) mod n.
Proof using Hk Hpow.
  unfold queue. rewrite length_fmap, length_seqZ. pose proof (Z.mod_pos_bound (mr_head r - mr_tail r) n). pose proof n_pos. lia.
Qed.

(** How far the head is ahead of the tail. *)
Lemma ahead r : ring_ok r -> let d := mr_head r - mr_tail r in
  0 <= d /\ d mod n = d \/ d < 0 /\ d mod n = d + n.
Proof using Hk Hpow.
  intros [_ Hh Ht]. cbv zeta. destruct (Z.le_gt_cases 0 (mr_head r - mr_tail r)); [left|right]; (split; [done|]).
  - apply Z.mod_small. lia.
  - symmetry. apply (Z.mod_unique _ _ (-1)); lia.
Qed.

Lemma ring_push_ok r x : ring_ok r ->
  match ring_push (n - 1) r x with
  | None => Z.of_nat (length (queue r)) = n - 1
  | Some r' => ring_ok r' /\ Z.of_nat (length (queue r)) < n - 1 /\ queue r' = queue r ++ [x]
  end.
Proof using Hk Hpow.
  intros H. pose proof n_pos as Hn. pose proof (ro_head _ H) as Hh. pose proof (ro_tail _ H) as Ht. pose proof (ahead r H) as Ha. cbv zeta in Ha.
  unfold ring_push. rewrite mask_mod, queue_length. pose proof (Z.mod_pos_bound (mr_head r + 1) n ltac:(lia)) as Hm.
  assert (Hnx : (mr_head r + 1) mod n = (if decide (mr_head r = n - 1) then 0 else mr_head r + 1)).
  { case_decide as E; [|apply Z.mod_small; lia]. rewrite E. by replace (n - 1 + 1) with n by lia; rewrite Z.mod_same by lia. }
  destruct (Z.eqb_spec ((mr_head r + 1) mod n) (mr_tail r)) as [E|E].
  { rewrite Hnx in E. destruct Ha as [[? ->]|[? ->]]; case_decide; lia. }
  assert (Hd : (mr_head r - mr_tail r) mod n < n - 1) by (rewrite Hnx in E; destruct Ha as [[? ->]|[? ->]]; case_decide; lia).
  split_and!; [|lia|].
  { split; cbn; [|lia|lia]. rewrite length_insert. apply H. }
  unfold queue. cbn [cells mr_head mr_tail]. set (d := (mr_head r - mr_tail r) mod n) in *.
  assert (Hd' : ((mr_head r + 1) mod n - mr_tail r) mod n = d + 1).
  { rewrite Zminus_mod_idemp_l. replace (mr_head r + 1 - mr_tail r) with (mr_head r - mr_tail r + 1) by lia.
    rewrite <-Zplus_mod_idemp_l. fold d. apply Z.mod_small. unfold d in *. pose proof (Z.mod_pos_bound (mr_head r - mr_tail r) n). lia. }
  assert (Hd0 : 0 <= d) by (apply Z.mod_pos_bound; lia).
  rewrite Hd'. rewrite (seqZ_app 0 d 1) by lia. rewrite fmap_app. f_equal.
  - apply list_fmap_ext. intros i y [-> Hi]%lookup_seqZ. apply list_lookup_total_insert_ne.
    assert (Hne : (mr_tail r + (0 + Z.of_nat i)) mod n <> mr_head r); [|pose proof (Z.mod_pos_bound (mr_tail r + (0 + Z.of_nat i)) n); lia].
    destruct (Z.lt_ge_cases (mr_tail r + (0 + Z.of_nat i)) n) as [Hlt|Hge]; [rewrite Z.mod_small by lia; lia|].
    rewrite <-(Z.mod_unique (mr_tail r + (0 + Z.of_nat i)) n 1 (mr_tail r + Z.of_nat i - n)) by lia. lia.
  - cbn. f_equal. assert (Hhd : (mr_tail r + (0 + d)) mod n = mr_head r).
    { unfold d. rewrite Z.add_0_l, Zplus_mod_idemp_r. replace (mr_tail r + (mr_head r - mr_tail r)) with (mr_head r) by lia. apply Z.mod_small. lia. }
    change (seqZ (0 + d) 1) with [0 + d]. cbn [fmap list_fmap]. rewrite Hhd. f_equal. apply list_lookup_total_insert_eq.
    pose proof (ro_cells _ H). lia.
Qed.

Lemma queue_cons r : ring_ok r -> mr_tail r <> mr_head r ->
  queue r = (cells r !!! Z.to_nat (mr_tail r)) :: queue (ring_drop (n - 1) r).
Proof using Hk Hpow.
  intros H Hne. pose proof n_pos as Hn. pose proof (ro_head _ H) as Hh. pose proof (ro_tail _ H) as Ht. pose proof (ahead r H) as Ha. cbv zeta in Ha.
  unfold queue, ring_drop. cbn [cells mr_head mr_tail]. rewrite mask_mod.
  set (d := (mr_head r - mr_tail r) mod n) in *. assert (Hd : 0 < d < n) by (destruct Ha as [[? ?]|[? ?]]; lia).
  assert (Hd' : (mr_head r - (mr_tail r + 1) mod n) mod n = d - 1).
  { rewrite Zminus_mod_idemp_r. replace (mr_head r - (mr_tail r + 1)) with (mr_head r - mr_tail r - 1) by lia.
    rewrite <-Zminus_mod_idemp_l. fold d. apply Z.mod_small. lia. }
  rewrite Hd'. rewrite seqZ_cons by lia. rewrite fmap_cons. f_equal.
  - f_equal. f_equal. rewrite Z.add_0_r. apply Z.mod_small. lia.
  - change (Z.succ 0) with 1. change (Z.pred d) with (d - 1). rewrite <-(fmap_add_seqZ 1 0), <-list_fmap_compose.
    apply list_fmap_ext. intros i x _. cbn. f_equal. f_equal. rewrite Zplus_mod_idemp_l. f_equal. lia.
Qed.

Lemma ring_peek_ok r : ring_ok r -> ring_peek r = head (queue r).
Proof using Hk Hpow.
  intros H. unfold ring_peek. destruct (Z.eqb_spec (mr_tail r) (mr_head r)) as [E|E]; [|by rewrite queue_cons].
  unfold queue. by rewrite E, Z.sub_diag, Z.mod_0_l by (pose proof n_pos; lia).
Qed.

Lemma ring_drop_ok r : ring_ok r -> ring_peek r <> None -> ring_ok (ring_drop (n - 1) r) /\ queue (ring_drop (n - 1) r) = tail (queue r).
Proof using Hk Hpow.
  intros H Hp. unfold ring_peek in Hp. destruct (Z.eqb_spec (mr_tail r) (mr_head r)) as [E|E]; [done|].
  split; [|by rewrite (queue_cons r)]. unfold ring_drop. split; cbn; [apply H|apply H|]. rewrite mask_mod. apply Z.mod_pos_bound. pose proof n_pos. lia.
Qed.
End ring.
#[local] Arguments queue : simpl never.

(** ** The abstract service: a queue per ring *)
Record atask := ATask { at_pid : Z; at_input : option (list msg); at_ipc : option (list ipc_msg) }.
Record astate := AState { atasks : list atask; aowner : Z }.

Definition abs_task (t : mtask) : atask := ATask (mt_pid t) (queue 64 <$> mt_input t) (queue 16 <$> mt_ipc t).
Definition abs (s : mstate) : astate := AState (abs_task <$> mtasks s) (input_owner_pid s).

Inductive mop := MPostTo (pid : Z) (m : msg) | MPost (m : msg) | MPeek (cur : nat) | MGet (cur : nat)
  | MSend (pid : Z) (m : ipc_msg) (from : Z) | MRecv (cur : nat) | MRegister (pid : Z) | MForce (pid : Z) | MClear (pid : Z).
Inductive mres := RUnit | RInt (z : Z) | RMsg (m : option msg) | RIpc (m : option ipc_msg).

Definition mexec (s : mstate) (op : mop) : mstate * mres :=
  match op with
  | MPostTo pid m => (msg_post_to s pid m, RUnit)
  | MPost m => (msg_post s m, RUnit)
  | MPeek cur => (s, RMsg (msg_peek s cur))
  | MGet cur => let '(s, m) := msg_get s cur in (s, RMsg m)
  | MSend pid m from => let '(s, r) := ipc_send s pid m from in (s, RInt r)
  | MRecv cur => let '(s, m) := ipc_recv s cur in (s, RIpc m)
  | MRegister pid => let '(s, r) := msg_input_owner_register s pid in (s, RInt r)
  | MForce pid => (msg_input_owner_force s pid, RUnit)
  | MClear pid => (msg_input_owner_clear s pid, RUnit)
  end.

Definition afind (a : astate) (pid : Z) : option (nat * atask) :=
  if pid <=? 0 then None else list_find (fun t => at_pid t = pid) (atasks a).
Definition aset (a : astate) (i : nat) (t : atask) : astate := AState (<[i := t]> (atasks a)) (aowner a).

(** A post reaches the queue of the named task unless it holds 63 events. *)
Definition apost (a : astate) (pid : Z) (m : msg) : astate :=
  match afind a pid with
  | Some (i, ATask p (Some q) c) => if decide (length q < 63)%nat then aset a i (ATask p (Some (q ++ [m])) c) else a
  | _ => a
  end.

Definition asend (a : astate) (pid : Z) (m : ipc_msg) : astate * Z :=
  match afind a pid with
  | Some (i, ATask p q (Some c)) => if decide (length c < 15)%nat then (aset a i (ATask p q (Some (c ++ [m]))), 0) else (a, -1)
  | _ => (a, -1)
  end.

Definition stamp (m : ipc_msg) (from : Z) : ipc_msg :=
  IpcMsg (i_type m) (u32 from) (i_a m) (i_b m) (i_c m) (i_d m) (i_va m) (i_pitch m) (i_flags m) (i_str m).

Definition aexec (a : astate) (op : mop) : astate * mres :=
  match op with
  | MPostTo pid m => (apost a pid m, RUnit)
  | MPost m => (apost a (if 0 <? aowner a then aowner a else 1) m, RUnit)
  | MPeek cur => (a, RMsg (match atasks a !! cur with Some (ATask _ (Some (m :: _)) _) => Some m | _ => None end))
  | MGet cur => match atasks a !! cur with
      | Some (ATask p (Some (m :: q)) c) => (aset a cur (ATask p (Some q) c), RMsg (Some m)) | _ => (a, RMsg None) end
  | MSend pid m from => let '(a, r) := asend a pid (stamp m from) in (a, RInt r)
  | MRecv cur => match atasks a !! cur with
      | Some (ATask p q (Some (m :: c))) => (aset a cur (ATask p q (Some c)), RIpc (Some m)) | _ => (a, RIpc None) end
  | MRegister pid => if decide (aowner a = 0 \/ aowner a = pid) then (AState (atasks a) pid, RInt 0) else (a, RInt (-1))
  | MForce pid => (AState (atasks a) (Z.max pid 0), RUnit)
  | MClear pid => (if decide (aowner a = pid) then AState (atasks a) 0 else a, RUnit)
  end.

Definition mtask_ok (t : mtask) : Prop :=
  (forall r, mt_input t = Some r -> ring_ok 64 r) /\ (forall r, mt_ipc t = Some r -> ring_ok 16 r).
Definition mstate_ok (s : mstate) : Prop := Forall mtask_ok (mtasks s).

Lemma afind_abs s pid : afind (abs s) pid = (fun it => (fst it, abs_task (snd it))) <$> task_find (mtasks s) pid.
Proof.
  unfold afind, task_find, abs. cbn [atasks]. destruct (pid <=? 0); [done|]. rewrite list_find_fmap.
  destruct (list_find _ _) as [[i t]|]; done.
Qed.

Lemma task_find_lookup s pid i t : task_find (mtasks s) pid = Some (i, t) -> mtasks s !! i = Some t.
Proof. unfold task_find. destruct (pid <=? 0); [done|]. by intros (? & _)%list_find_Some. Qed.

Lemma abs_set s i t : abs (set_task s i t) = aset (abs s) i (abs_task t).
Proof. unfold abs, set_task, aset. cbn. by rewrite list_fmap_insert. Qed.

Lemma set_task_ok s i t : mstate_ok s -> mtask_ok t -> mstate_ok (set_task s i t).
Proof. intros H Ht. by apply Forall_insert. Qed.

Lemma mtask_at s i t : mstate_ok s -> mtasks s !! i = Some t -> mtask_ok t.
Proof. intros H Hi. by eapply Forall_lookup_1. Qed.

Lemma post_refines s pid m : mstate_ok s -> mstate_ok (msg_post_to s pid m) /\ abs (msg_post_to s pid m) = apost (abs s) pid m.
Proof.
  intros H. unfold msg_post_to, apost. rewrite afind_abs. destruct (Z.leb_spec pid 0) as [Hp|Hp].
  { unfold task_find. by rewrite (proj2 (Z.leb_le _ _)). }
  destruct (task_find _ _) as [[i t]|] eqn:E; [|done]. cbn. pose proof (mtask_at s i t H (task_find_lookup _ _ _ _ E)) as [Hin Hipc].
  destruct t as [p [r|] c]; [|done]. cbn. specialize (Hin r eq_refl).
  pose proof (ring_push_ok 6 64 ltac:(lia) eq_refl r m Hin) as Hpush. change (64 - 1) with (INPUT_RING_SIZE - 1) in Hpush at 1.
  destruct (ring_push _ r m) as [r'|].
  - destruct Hpush as (Hr' & Hl & Hq). rewrite decide_True by lia. split.
    + apply set_task_ok; [done|]. split; cbn; [by intros ? [= <-]|done].
    + rewrite abs_set. unfold abs_task, set_input, set_ipc. cbn. by rewrite Hq.
  - by rewrite decide_False by lia.
Qed.

Lemma get_refines s cur : mstate_ok s ->
  let '(s', m) := msg_get s cur in mstate_ok s' /\ aexec (abs s) (MGet cur) = (abs s', RMsg m) /\ m = msg_peek s cur /\
  snd (aexec (abs s) (MPeek cur)) = RMsg m.
Proof.
  intros H. unfold msg_get, msg_peek. cbn [aexec abs atasks]. rewrite list_lookup_fmap.
  destruct (mtasks s !! cur) as [t|] eqn:E; [|done]. pose proof (mtask_at s cur t H E) as [Hin Hipc].
  destruct t as [p [r|] c]; [|done]. specialize (Hin r eq_refl). cbn [mt_input fmap option_fmap option_map abs_task mt_pid mt_ipc snd].
  pose proof (ring_drop_ok 6 64 ltac:(lia) eq_refl r Hin) as Hd. rewrite (ring_peek_ok 6 64) in * by (done || lia).
  destruct (queue 64 r) as [|m q] eqn:Eq; [done|]. cbn [head tail] in *. destruct Hd as [Hr' Hq]; [done|]. split_and!; try done.
  - apply set_task_ok; [done|]. split; cbn; [by intros ? [= <-]|done].
  - rewrite abs_set. unfold abs_task. cbn [set_input mt_pid mt_input mt_ipc fmap option_fmap option_map].
    change (INPUT_RING_SIZE - 1) with (64 - 1). by rewrite Hq.
Qed.

Lemma recv_refines s cur : mstate_ok s ->
  let '(s', m) := ipc_recv s cur in mstate_ok s' /\ aexec (abs s) (MRecv cur) = (abs s', RIpc m).
Proof.
  intros H. unfold ipc_recv. cbn [aexec abs atasks]. rewrite list_lookup_fmap.
  destruct (mtasks s !! cur) as [t|] eqn:E; [|done]. pose proof (mtask_at s cur t H E) as [Hin Hipc].
  destruct t as [p c [r|]]; [|cbn; by destruct c]. specialize (Hipc r eq_refl). cbn [mt_input fmap option_fmap option_map abs_task mt_pid mt_ipc snd].
  pose proof (ring_drop_ok 4 16 ltac:(lia) eq_refl r Hipc) as Hd. rewrite (ring_peek_ok 4 16) in * by (done || lia).
  destruct (queue 16 r) as [|m q] eqn:Eq; [done|]. cbn [head tail] in *. destruct Hd as [Hr' Hq]; [done|]. split.
  - apply set_task_ok; [done|]. split; cbn; [done|by intros ? [= <-]].
  - rewrite abs_set. unfold abs_task. cbn [set_ipc mt_pid mt_input mt_ipc fmap option_fmap option_map].
    change (IPC_RING_SIZE - 1) with (16 - 1). by rewrite Hq.
Qed.

Lemma send_refines s pid m from : mstate_ok s ->
  let '(s', r) := ipc_send s pid m from in mstate_ok s' /\ asend (abs s) pid (stamp m from) = (abs s', r).
Proof.
  intros H. unfold ipc_send, asend. rewrite afind_abs. destruct (Z.leb_spec pid 0) as [Hp|Hp].
  { unfold task_find. by rewrite (proj2 (Z.leb_le _ _)). }
  destruct (task_find _ _) as [[i t]|] eqn:E; [|done]. cbn. pose proof (mtask_at s i t H (task_find_lookup _ _ _ _ E)) as [Hin Hipc].
  destruct t as [p c [r|]]; [|done]. cbn. specialize (Hipc r eq_refl). fold (stamp m from).
  pose proof (ring_push_ok 4 16 ltac:(lia) eq_refl r (stamp m from) Hipc) as Hpush. change (16 - 1) with (IPC_RING_SIZE - 1) in Hpush at 1.
  destruct (ring_push _ r _) as [r'|].
  - destruct Hpush as (Hr' & Hl & Hq). rewrite decide_True by lia. split.
    + apply set_task_ok; [done|]. split; cbn; [done|by intros ? [= <-]].
    + rewrite abs_set. unfold abs_task, set_input, set_ipc. cbn. by rewrite Hq.
  - by rewrite decide_False by lia.
Qed.

Lemma mexec_refines s op : mstate_ok s -> mstate_ok (fst (mexec s op)) /\ aexec (abs s) op = (abs (fst (mexec s op)), snd (mexec s op)).
Proof.
  intros H. destruct op as [pid m|m|cur|cur|pid m from|cur|pid|pid|pid]; cbn [mexec].
  - destruct (post_refines s pid m H) as [? E]. split; [done|]. cbn. by rewrite E.
  - unfold msg_post. cbn [aexec abs aowner]. rewrite Z.gtb_ltb.
    destruct (0 <? input_owner_pid s); [destruct (post_refines s (input_owner_pid s) m H) as [? E]|destruct (post_refines s 1 m H) as [? E]];
      (split; [done|]); cbn [fst snd]; by rewrite E.
  - split; [done|]. cbn [fst snd]. pose proof (get_refines s cur H) as Hg. destruct (msg_get s cur) as [s' m']. destruct Hg as (_ & _ & -> & E).
    rewrite <-E. done.
  - pose proof (get_refines s cur H) as Hg. destruct (msg_get s cur) as [s' m']. by destruct Hg as (? & ? & _).
  - pose proof (send_refines s pid m from H) as Hg. destruct (ipc_send s pid m from) as [s' r]. destruct Hg as [? E]. split; [done|]. cbn. by rewrite E.
  - pose proof (recv_refines s cur H) as Hg. by destruct (ipc_recv s cur) as [s' m'].
  - unfold msg_input_owner_register. cbn [aexec abs aowner].
    destruct (Z.eqb_spec (input_owner_pid s) 0), (Z.eqb_spec (input_owner_pid s) pid); cbn; case_decide; try tauto; (split; [done|done]).
  - split; [done|]. cbn. unfold msg_input_owner_force, abs. cbn. repeat f_equal. rewrite Z.gtb_ltb. destruct (Z.ltb_spec 0 pid); lia.
  - unfold msg_input_owner_clear. cbn. destruct (Z.eqb_spec (input_owner_pid s) pid); case_decide; done.
Qed.

(** ** Properties *)
Fixpoint mrun (s : mstate) (ops : list mop) : mstate * list mres :=
  match ops with
  | [] => (s, [])
  | op :: ops => let '(s, r) := mexec s op in let '(s, rs) := mrun s ops in (s, r :: rs)
  end.
Fixpoint arun (a : astate) (ops : list mop) : astate * list mres :=
  match ops with
  | [] => (a, [])
  | op :: ops => let '(a, r) := aexec a op in let '(a, rs) := arun a ops in (a, r :: rs)
  end.


(** Two tasks, the second with both rings. *)
Definition ex_msgs : mstate :=
  MState [MTask 1 None None; MTask 7 (Some (MRing (replicate 64 inhabitant) 63 63)) (Some (MRing (replicate 16 inhabitant) 0 0))] 7.
Definition ex_ev (x : Z) : msg := Msg 1 0 x 0 0.

Lemma ex_msgs_ok : mstate_ok ex_msgs.
Proof.
  apply List.Forall_cons; [by split|]. apply List.Forall_cons; [|constructor]. by split; intros r [= <-].
Qed.

