(* ===== verification/Printf.v ===== *)
(** Formatted output, [kernel/utilities/printf.c].

    Characters are bytes, a C string is the list of its bytes before the
    terminator.  A result [None] stands for undefined behaviour: an argument
    that is missing or of the wrong kind, or a read past the terminator of the
    format.  [int] arithmetic wraps at 32 bits. *)
From S2P Require Import Prelude.
From Stdlib Require Import Ascii.
From stdpp Require Import strings.
#[local] Open Scope Z_scope.

(** The bytes of a string literal. *)
Definition chr (a : Ascii.ascii) : Z := Z.of_N (Ascii.N_of_ascii a).
Arguments chr _%_char.
Fixpoint str (s : string) : list Z :=
  match s with EmptyString => [] | String a s => chr a :: str s end.

(** ** The output context *)
(** [fc_p] is the write position as an offset into the buffer, [None] the null pointer. *)
Record fmt_ctx := FmtCtx { fc_buf : list Z; fc_p : option Z; fc_end : Z; fc_total : Z }.

Definition fmt_putc (c : fmt_ctx) (ch : Z) : fmt_ctx :=
  let total := i32 (fc_total c + 1) in
  match fc_p c with
  | Some p => if p <? fc_end c then FmtCtx (<[Z.to_nat p := ch]> (fc_buf c)) (Some (p + 1)) (fc_end c) total
              else FmtCtx (fc_buf c) (fc_p c) (fc_end c) total
  | None => FmtCtx (fc_buf c) None (fc_end c) total
  end.

Definition fmt_puts (c : fmt_ctx) (s : list Z) : fmt_ctx := foldl fmt_putc c s.
(** At most [n] characters of [s]. *)
Definition fmt_putn (c : fmt_ctx) (s : list Z) (n : Z) : fmt_ctx := foldl fmt_putc c (take (Z.to_nat n) s).
Definition fmt_pad (c : fmt_ctx) (ch n : Z) : fmt_ctx := Nat.iter (Z.to_nat n) (fun c => fmt_putc c ch) c.

Definition FL_LEFT : Z := 1.
Definition FL_PLUS : Z := 2.
Definition FL_SPACE : Z := 4.
Definition FL_ALT : Z := 8.
Definition FL_ZERO : Z := 16.
Inductive lenmod := LEN_INT | LEN_HH | LEN_H | LEN_L | LEN_LL | LEN_Z | LEN_J | LEN_T.

(** ** Integers *)
(** [while (v) { tmp[len++] = digits[v % base]; v /= base; }]: least significant first. *)
Fixpoint digits_loop (fuel : nat) (v base : Z) (upper : bool) : list Z :=
  match fuel with
  | O => []
  | S fuel =>
      if v =? 0 then [] else
      (if upper then str "0123456789ABCDEF" else str "0123456789abcdef") !!! Z.to_nat (v mod base)
        :: digits_loop fuel (v / base) base upper
  end.

(** A 64-bit value has at most 64 digits in any base. *)
Definition tmp_digits (v base : Z) (upper : bool) (precision : Z) : list Z :=
  (if (v =? 0) && negb (precision =? 0) then str "0" else []) ++ digits_loop 64 v base upper.

Definition emit_uint (c : fmt_ctx) (v base : Z) (upper : bool) (width precision flags sign : Z) (altprefix : list Z) : fmt_ctx :=
  let tmp := tmp_digits v base upper precision in
  let len := Z.of_nat (length tmp) in
  let zeroes := if precision >? len then precision - len else 0 in
  let numlen := len + zeroes in
  let prefixlen := (if sign =? 0 then 0 else 1) + Z.of_nat (length altprefix) in
  let totallen := i32 (numlen + prefixlen) in
  let use_zero_pad := (flags &? FL_ZERO) && (precision <? 0) && negb (flags &? FL_LEFT) in
  let c := if negb (flags &? FL_LEFT) && negb use_zero_pad then fmt_pad c (chr " ") (i32 (width - totallen)) else c in
  let c := if sign =? 0 then c else fmt_putc c sign in
  let c := fmt_puts c altprefix in
  let c := if use_zero_pad then fmt_pad c (chr "0") (i32 (width - totallen)) else c in
  let c := fmt_pad c (chr "0") zeroes in
  let c := foldl fmt_putc c (rev tmp) in
  if flags &? FL_LEFT then fmt_pad c (chr " ") (i32 (width - totallen)) else c.

Definition emit_int (c : fmt_ctx) (v width precision flags : Z) : fmt_ctx :=
  let '(sign, u) :=
    if v <? 0 then (chr "-", u64 (- v))
    else (if flags &? FL_PLUS then chr "+" else if flags &? FL_SPACE then chr " " else 0, u64 v) in
  emit_uint c u 10 false width precision flags sign [].

(** ** Arguments *)
(** A variadic argument: an integer (its 64-bit value) or a string pointer. *)
Inductive arg := AInt (z : Z) | AStr (s : option (list Z)).

Definition va_int (ap : list arg) : option (Z * list arg) :=
  match ap with AInt z :: ap => Some (z, ap) | _ => None end.
Definition va_str (ap : list arg) : option (option (list Z) * list arg) :=
  match ap with AStr s :: ap => Some (s, ap) | _ => None end.

(** ** Parsing a conversion *)
Fixpoint parse_flags (fmt : list Z) (flags : Z) : Z * list Z :=
  match fmt with
  | ch :: fmt' =>
      if ch =? chr "-" then parse_flags fmt' (Z.lor flags FL_LEFT)
      else if ch =? chr "+" then parse_flags fmt' (Z.lor flags FL_PLUS)
      else if ch =? chr " " then parse_flags fmt' (Z.lor flags FL_SPACE)
      else if ch =? chr "#" then parse_flags fmt' (Z.lor flags FL_ALT)
      else if ch =? chr "0" then parse_flags fmt' (Z.lor flags FL_ZERO)
      else (flags, fmt)
  | [] => (flags, [])
  end.

Definition is_digit (ch : Z) : bool := (chr "0" <=? ch) && (ch <=? chr "9").

Fixpoint parse_digits (fmt : list Z) (acc : Z) : Z * list Z :=
  match fmt with
  | ch :: fmt' => if is_digit ch then parse_digits fmt' (i32 (acc * 10 + (ch - chr "0"))) else (acc, fmt)
  | [] => (acc, [])
  end.

(** Width, and the flags a negative [*] changes. *)
Definition parse_width (fmt : list Z) (flags : Z) (ap : list arg) : option (Z * Z * list Z * list arg) :=
  match fmt with
  | ch :: fmt' =>
      if ch =? chr "*" then
        '(z, ap) ← va_int ap;
        let width := i32 z in
        Some (if width <? 0 then (i32 (- width), Z.lor flags FL_LEFT, fmt', ap) else (width, flags, fmt', ap))
      else let '(width, fmt) := parse_digits fmt 0 in Some (width, flags, fmt, ap)
  | [] => Some (0, flags, [], ap)
  end.

Definition parse_precision (fmt : list Z) (ap : list arg) : option (Z * list Z * list arg) :=
  match fmt with
  | ch :: fmt' =>
      if ch =? chr "." then
        match fmt' with
        | ch' :: fmt'' =>
            if ch' =? chr "*" then
              '(z, ap) ← va_int ap;
              Some (if i32 z <? 0 then -1 else i32 z, fmt'', ap)
            else let '(precision, fmt) := parse_digits fmt' 0 in Some (precision, fmt, ap)
        | [] => Some (0, [], ap)
        end
      else Some (-1, fmt, ap)
  | [] => Some (-1, [], ap)
  end.

Definition parse_len (fmt : list Z) : lenmod * list Z :=
  match fmt with
  | ch :: fmt' =>
      if ch =? chr "h" then
        match fmt' with ch' :: fmt'' => if ch' =? chr "h" then (LEN_HH, fmt'') else (LEN_H, fmt') | [] => (LEN_H, []) end
      else if ch =? chr "l" then
        match fmt' with ch' :: fmt'' => if ch' =? chr "l" then (LEN_LL, fmt'') else (LEN_L, fmt') | [] => (LEN_L, []) end
      else if ch =? chr "z" then (LEN_Z, fmt')
      else if ch =? chr "j" then (LEN_J, fmt')
      else if ch =? chr "t" then (LEN_T, fmt')
      else (LEN_INT, fmt)
  | [] => (LEN_INT, [])
  end.

Definition signed_arg (l : lenmod) (z : Z) : Z :=
  match l with LEN_HH => i8 z | LEN_H => i16 z | LEN_INT => i32 z | _ => i64 z end.
Definition unsigned_arg (l : lenmod) (z : Z) : Z :=
  match l with LEN_HH => u8 z | LEN_H => u16 z | LEN_INT => u32 z | _ => u64 z end.

Definition alt_prefix (ch flags v : Z) : list Z :=
  if (flags &? FL_ALT) && negb (v =? 0) then
    if ch =? chr "o" then str "0" else if ch =? chr "x" then str "0x" else if ch =? chr "X" then str "0X" else []
  else [].

(** The characters of a string argument that are printed. *)
Definition str_arg (s : option (list Z)) (precision : Z) : list Z :=
  let s := default (str "(null)") s in if precision <? 0 then s else take (Z.to_nat precision) s.

(** The switch on the conversion character. *)
Definition convert (c : fmt_ctx) (ch width precision flags : Z) (l : lenmod) (ap : list arg) : option (fmt_ctx * list arg) :=
  if (ch =? chr "d") || (ch =? chr "i") then
    '(z, ap) ← va_int ap; Some (emit_int c (signed_arg l z) width precision flags, ap)
  else if (ch =? chr "u") || (ch =? chr "o") || (ch =? chr "x") || (ch =? chr "X") then
    '(z, ap) ← va_int ap;
    let v := unsigned_arg l z in
    let base := if ch =? chr "o" then 8 else if ch =? chr "u" then 10 else 16 in
    Some (emit_uint c v base (ch =? chr "X") width precision flags 0 (alt_prefix ch flags v), ap)
  else if ch =? chr "p" then
    '(z, ap) ← va_int ap; Some (emit_uint (fmt_puts c (str "0x")) (u64 z) 16 false 16 (-1) FL_ZERO 0 [], ap)
  else if ch =? chr "s" then
    '(s, ap) ← va_str ap;
    let text := str_arg s precision in
    let len := Z.of_nat (length text) in
    let c := if flags &? FL_LEFT then c else fmt_pad c (chr " ") (i32 (width - len)) in
    let c := fmt_putn c text len in
    Some (if flags &? FL_LEFT then fmt_pad c (chr " ") (i32 (width - len)) else c, ap)
  else if ch =? chr "c" then
    '(z, ap) ← va_int ap;
    let c := if flags &? FL_LEFT then c else fmt_pad c (chr " ") (i32 (width - 1)) in
    let c := fmt_putc c (u8 z) in
    Some (if flags &? FL_LEFT then fmt_pad c (chr " ") (i32 (width - 1)) else c, ap)
  else Some (fmt_putc c ch, ap).

(** Everything between [%] and the conversion character. *)
Definition parse_spec (fmt : list Z) (ap : list arg) : option (Z * Z * Z * lenmod * list Z * list arg) :=
  let '(flags, fmt) := parse_flags fmt 0 in
  '(width, flags, fmt, ap) ← parse_width fmt flags ap;
  '(precision, fmt, ap) ← parse_precision fmt ap;
  let '(l, fmt) := parse_len fmt in
  Some (flags, width, precision, l, fmt, ap).

(** The main loop.  Every pass consumes a character, so the length of the
    format bounds the passes.  A format that ends inside a conversion makes the
    code step over the terminator: the terminator is printed and reading
    goes on behind it. *)
Fixpoint format_loop (fuel : nat) (c : fmt_ctx) (fmt : list Z) (ap : list arg) : option fmt_ctx :=
  match fuel with
  | O => None
  | S fuel =>
      match fmt with
      | [] => Some c
      | ch :: fmt =>
          if negb (ch =? chr "%") then format_loop fuel (fmt_putc c ch) fmt ap else
          '(flags, width, precision, l, fmt, ap) ← parse_spec fmt ap;
          match fmt with
          | [] => None
          | ch :: fmt => '(c, ap) ← convert c ch width precision flags l ap; format_loop fuel c fmt ap
          end
      end
  end.

(** The buffer is the list of its [size] bytes, [None] the null pointer. *)
Definition vsnprintf (buf : option (list Z)) (fmt : list Z) (ap : list arg) : option (option (list Z) * Z) :=
  match buf with
  | Some (b :: bs) =>
      let size := Z.of_nat (length (b :: bs)) in
      c ← format_loop (S (length fmt)) (FmtCtx (b :: bs) (Some 0) (size - 1) 0) fmt ap;
      let p := default 0 (fc_p c) in
      Some (Some (<[Z.to_nat p := 0]> (fc_buf c)), fc_total c)
  | _ =>
      c ← format_loop (S (length fmt)) (FmtCtx [] None 0 0) fmt ap;
      Some (buf, fc_total c)
  end.
