(* ===== verification/PrintfSpec.v ===== *)
(** What formatted output writes, and where ([kernel/utilities/printf.c]). *)
From S2P Require Import Prelude.
From S2P Require Import Printf.
From Stdlib Require Import Ascii.
From stdpp Require Import strings.
#[local] Open Scope Z_scope.

(** ** The text of a conversion *)
Definition spaces (n : Z) : list Z := replicate (Z.to_nat n) (chr " ").
Definition zeros (n : Z) : list Z := replicate (Z.to_nat n) (chr "0").

(** Text in a field: blanks on the right, zeros between prefix and digits, or blanks on the left. *)
Definition field (flags precision pad : Z) (prefix body : list Z) : list Z :=
  if flags &? FL_LEFT then prefix ++ body ++ spaces pad
  else if (flags &? FL_ZERO) && (precision <? 0) then prefix ++ zeros pad ++ body
  else spaces pad ++ prefix ++ body.

Definition uint_text (v base : Z) (upper : bool) (width precision flags sign : Z) (alt : list Z) : list Z :=
  let digits := rev (tmp_digits v base upper precision) in
  let body := zeros (precision - Z.of_nat (length digits)) ++ digits in
  let prefix := (if sign =? 0 then [] else [sign]) ++ alt in
  field flags precision (i32 (width - i32 (Z.of_nat (length body) + Z.of_nat (length prefix)))) prefix body.

Definition int_text (v width precision flags : Z) : list Z :=
  uint_text (if v <? 0 then u64 (- v) else u64 v) 10 false width precision flags
    (if v <? 0 then chr "-" else if flags &? FL_PLUS then chr "+" else if flags &? FL_SPACE then chr " " else 0) [].

(** Strings and characters are never padded with zeros. *)
Definition plain_text (flags width : Z) (text : list Z) : list Z :=
  let pad := i32 (width - Z.of_nat (length text)) in
  if flags &? FL_LEFT then text ++ spaces pad else spaces pad ++ text.

Definition conv_text (ch width precision flags : Z) (l : lenmod) (ap : list arg) : option (list Z * list arg) :=
  if (ch =? chr "d") || (ch =? chr "i") then
    '(z, ap) ← va_int ap; Some (int_text (signed_arg l z) width precision flags, ap)
  else if (ch =? chr "u") || (ch =? chr "o") || (ch =? chr "x") || (ch =? chr "X") then
    '(z, ap) ← va_int ap;
    let v := unsigned_arg l z in
    let base := if ch =? chr "o" then 8 else if ch =? chr "u" then 10 else 16 in
    Some (uint_text v base (ch =? chr "X") width precision flags 0 (alt_prefix ch flags v), ap)
  else if ch =? chr "p" then
    '(z, ap) ← va_int ap; Some (str "0x" ++ uint_text (u64 z) 16 false 16 (-1) FL_ZERO 0 [], ap)
  else if ch =? chr "s" then '(s, ap) ← va_str ap; Some (plain_text flags width (str_arg s precision), ap)
  else if ch =? chr "c" then '(z, ap) ← va_int ap; Some (plain_text flags width [u8 z], ap)
  else Some ([ch], ap).

(** The whole text of a format, [None] where the behaviour is undefined. *)
Fixpoint format_text (fuel : nat) (fmt : list Z) (ap : list arg) : option (list Z) :=
  match fuel with
  | O => None
  | S fuel =>
      match fmt with
      | [] => Some []
      | ch :: fmt =>
          if negb (ch =? chr "%") then cons ch <$> format_text fuel fmt ap else
          '(flags, width, precision, l, fmt, ap) ← parse_spec fmt ap;
          match fmt with
          | [] => None
          | ch :: fmt => '(text, ap) ← conv_text ch width precision flags l ap; app text <$> format_text fuel fmt ap
          end
      end
  end.
Definition format (fmt : list Z) (ap : list arg) : option (list Z) := format_text (S (length fmt)) fmt ap.

(** ** The code writes that text *)
Lemma fmt_pad_text c ch n : fmt_pad c ch n = foldl fmt_putc c (replicate (Z.to_nat n) ch).
Proof.
  unfold fmt_pad. generalize (Z.to_nat n) as k. intros k. revert c. induction k as [|k IH]; intros c; [done|].
  cbn [replicate foldl]. rewrite <-IH. clear IH. revert c. induction k as [|k IH]; intros c; [done|]. cbn in *. by rewrite IH.
Qed.

Lemma emit_uint_text c v base upper width precision flags sign alt :
  emit_uint c v base upper width precision flags sign alt = foldl fmt_putc c (uint_text v base upper width precision flags sign alt).
Proof.
  unfold emit_uint, uint_text. cbv zeta. set (tmp := tmp_digits v base upper precision).
  rewrite !length_app, length_rev. unfold zeros. rewrite length_replicate.
  set (zs := if precision >? Z.of_nat (length tmp) then precision - Z.of_nat (length tmp) else 0).
  assert (Hz : Z.to_nat zs = Z.to_nat (precision - Z.of_nat (length tmp))) by (unfold zs; destruct (Z.gtb_spec precision (Z.of_nat (length tmp))); lia).
  assert (Hl : forall s : Z, Z.of_nat (length tmp) + zs + ((if sign =? 0 then 0 else 1) + Z.of_nat (length alt)) =
    Z.of_nat (Z.to_nat (precision - Z.of_nat (length tmp)) + length tmp) + Z.of_nat (length (if sign =? 0 then [] else [s]) + length alt)).
  { intros s. assert (0 <= zs) by (unfold zs; destruct (Z.gtb_spec precision (Z.of_nat (length tmp))); lia). destruct (sign =? 0); cbn [length]; lia. }
  rewrite <-(Hl sign). set (pad := i32 _). rewrite !fmt_pad_text, Hz. unfold field, fmt_puts.
  assert (Hs : forall c, (if sign =? 0 then c else fmt_putc c sign) = foldl fmt_putc c (if sign =? 0 then [] else [sign])) by (intros; by destruct (sign =? 0)).
  rewrite Hs. destruct (flags &? FL_LEFT), (flags &? FL_ZERO), (precision <? 0); cbn [andb negb]; rewrite ?fmt_pad_text, ?foldl_app; done.
Qed.

Lemma emit_int_text c v width precision flags :
  emit_int c v width precision flags = foldl fmt_putc c (int_text v width precision flags).
Proof. unfold emit_int, int_text. destruct (v <? 0); by rewrite emit_uint_text. Qed.

Lemma convert_text c ch width precision flags l ap :
  convert c ch width precision flags l ap =
    (fun '(text, ap) => (foldl fmt_putc c text, ap)) <$> conv_text ch width precision flags l ap.
Proof.
  unfold convert, conv_text. destruct (_ || _); [|destruct (_ || _ || _ || _); [|destruct (ch =? chr "p"); [|destruct (ch =? chr "s"); [|destruct (ch =? chr "c"); [|done]]]]].
  - destruct (va_int ap) as [[z ap']|]; cbn; [by rewrite emit_int_text|done].
  - destruct (va_int ap) as [[z ap']|]; cbn [mbind option_bind fmap option_fmap option_map]; [by rewrite emit_uint_text|done].
  - destruct (va_int ap) as [[z ap']|]; cbn [mbind option_bind fmap option_fmap option_map]; [|done].
    rewrite emit_uint_text. unfold fmt_puts. by rewrite <-foldl_app.
  - destruct (va_str ap) as [[s ap']|]; cbn [mbind option_bind fmap option_fmap option_map]; [|done].
    unfold plain_text, fmt_putn. rewrite !fmt_pad_text, Nat2Z.id, firstn_all.
    destruct (flags &? FL_LEFT); by rewrite ?fmt_pad_text, <-foldl_app.
  - destruct (va_int ap) as [[z ap']|]; cbn [mbind option_bind fmap option_fmap option_map]; [|done].
    unfold plain_text. rewrite !fmt_pad_text. destruct (flags &? FL_LEFT); by rewrite ?foldl_app.
Qed.

Lemma format_loop_text fuel : forall c fmt ap, format_loop fuel c fmt ap = foldl fmt_putc c <$> format_text fuel fmt ap.
Proof.
  induction fuel as [|fuel IH]; intros c fmt ap; [done|]. cbn [format_loop format_text]. destruct fmt as [|ch fmt]; [done|].
  destruct (negb (ch =? chr "%")); [rewrite IH; by destruct (format_text fuel fmt ap)|].
  destruct (parse_spec fmt ap) as [[[[[[flags width] precision] l] fmt'] ap']|]; [|done]. cbn [mbind option_bind].
  destruct fmt' as [|ch' fmt']; [done|]. rewrite convert_text. destruct (conv_text _ _ _ _ _ _) as [[text ap'']|]; [|done].
  cbn [mbind option_bind fmap option_fmap option_map]. rewrite IH. destruct (format_text fuel fmt' ap''); [|done].
  cbn. by rewrite foldl_app.
Qed.

(** ** The buffer *)
Lemma i32_add x y : i32 (i32 x + y) = i32 (x + y).
Proof. unfold i32. f_equal. replace ((x + 2 ^ 31) mod 2 ^ 32 - 2 ^ 31 + y + 2 ^ 31) with ((x + 2 ^ 31) mod 2 ^ 32 + y) by lia. rewrite Zplus_mod_idemp_l. f_equal. lia. Qed.

Lemma put_total text : forall c, fc_total (foldl fmt_putc c text) = if decide (text = []) then fc_total c else i32 (fc_total c + Z.of_nat (length text)).
Proof.
  induction text as [|ch text IH]; intros c; [done|]. rewrite decide_False by done. cbn [foldl]. rewrite IH.
  assert (E : fc_total (fmt_putc c ch) = i32 (fc_total c + 1)) by (unfold fmt_putc; destruct (fc_p c); [destruct (_ <? _)|]; done).
  rewrite E. destruct text; [done|]. rewrite decide_False by done. rewrite i32_add. f_equal. cbn [length]. lia.
Qed.

(** Writing from position [p] of a buffer: what fits before the last byte goes in. *)
Lemma put_buffer text : forall done rest p tot, Z.of_nat (length done) = p -> rest <> [] ->
  let size := p + Z.of_nat (length rest) in
  let k := Nat.min (length text) (length rest - 1) in
  let c := foldl fmt_putc (FmtCtx (done ++ rest) (Some p) (size - 1) tot) text in
  fc_buf c = done ++ take k text ++ drop k rest /\ fc_p c = Some (p + Z.of_nat k) /\ fc_end c = size - 1.
Proof.
  induction text as [|ch text IH]; intros dn rest p tot Hp Hr; cbn [foldl length Nat.min take].
  { cbn. by rewrite Z.add_0_r. }
  cbv zeta. destruct rest as [|r [|r2 rest]]; [done| |].
  - unfold fmt_putc at 2 4 6. cbn [fc_p fc_end]. rewrite (proj2 (Z.ltb_ge _ _)) by (cbn; lia). cbn [fc_buf fc_total fc_p].
    destruct (IH dn [r] p (i32 (tot + 1)) Hp) as (E1 & E2 & E3); [done|]. cbn [length] in *. rewrite Nat.min_0_r in *. cbn in *. done.
  - unfold fmt_putc at 2 4 6. cbn [fc_p fc_end]. rewrite (proj2 (Z.ltb_lt _ _)) by (cbn; lia). cbn [fc_buf fc_total fc_end].
    rewrite insert_app_r_alt by lia. replace (Z.to_nat p - length dn)%nat with 0%nat by lia. cbn [insert list_insert].
    destruct (IH (dn ++ [ch]) (r2 :: rest) (p + 1) (i32 (tot + 1))) as (E1 & E2 & E3); [rewrite length_app; cbn; lia|done|].
    rewrite <-app_assoc in E1, E2, E3. cbn [app length] in *.
    replace (p + Z.of_nat (S (S (length rest))) - 1) with (p + 1 + Z.of_nat (S (length rest)) - 1) by lia.
    rewrite E1, E2, E3. cbn [Nat.sub Nat.min]. rewrite Nat.sub_0_r. cbn [take drop]. rewrite <-app_assoc. cbn. split_and!; [done|f_equal; lia|done].
Qed.

(** ** The passes over a format are bounded by its length *)
Lemma parse_flags_length fmt : forall fl, (length (snd (parse_flags fmt fl)) <= length fmt)%nat.
Proof.
  induction fmt as [|ch fmt IH]; intros fl; cbn [parse_flags]; [done|].
  repeat (destruct (ch =? _); [etrans; [apply IH|cbn; lia]|]). done.
Qed.

Lemma parse_digits_length fmt : forall n, (length (snd (parse_digits fmt n)) <= length fmt)%nat.
Proof.
  induction fmt as [|ch fmt IH]; intros n; cbn [parse_digits]; [done|]. destruct (is_digit ch); [etrans; [apply IH|cbn; lia]|done].
Qed.

Lemma parse_spec_length fmt ap fl w pr l fmt' ap' : parse_spec fmt ap = Some (fl, w, pr, l, fmt', ap') -> (length fmt' <= length fmt)%nat.
Proof.
  unfold parse_spec. pose proof (parse_flags_length fmt 0) as H1. destruct (parse_flags fmt 0) as [fl1 f1]. cbn [snd] in H1.
  destruct (parse_width f1 fl1 ap) as [[[[w1 fl2] f2] ap1]|] eqn:E2; [|done]. cbn [mbind option_bind].
  destruct (parse_precision f2 ap1) as [[[p1 f3] ap2]|] eqn:E3; [|done]. cbn [mbind option_bind].
  destruct (parse_len f3) as [l1 f4] eqn:E4. intros [= <- <- <- <- <- <-].
  assert (H2 : (length f2 <= length f1)%nat).
  { unfold parse_width in E2. destruct f1 as [|ch f1]; [by simplify_eq|]. destruct (ch =? chr "*").
    - destruct (va_int ap) as [[z a]|]; [|done]. cbn in E2. destruct (i32 z <? 0); simplify_eq; cbn; lia.
    - pose proof (parse_digits_length (ch :: f1) 0) as Hd. destruct (parse_digits (ch :: f1) 0). by simplify_eq. }
  assert (H3 : (length f3 <= length f2)%nat).
  { unfold parse_precision in E3. destruct f2 as [|ch f2]; [by simplify_eq|]. destruct (ch =? chr "."); [|by simplify_eq].
    destruct f2 as [|ch' f2]; [simplify_eq; cbn; lia|]. destruct (ch' =? chr "*").
    - destruct (va_int ap1) as [[z a]|]; [|done]. cbn in E3. simplify_eq. cbn. lia.
    - pose proof (parse_digits_length (ch' :: f2) 0) as Hd. destruct (parse_digits (ch' :: f2) 0). simplify_eq. cbn [snd length] in *. lia. }
  assert (H4 : (length f4 <= length f3)%nat).
  { unfold parse_len in E4. destruct f3 as [|ch f3]; [by simplify_eq|].
    repeat case_match; simplify_eq; cbn; lia. }
  lia.
Qed.

(** More passes than the length of the format do not change the result. *)
Lemma format_text_passes fuel : forall fuel' fmt ap, (length fmt < fuel)%nat -> (fuel <= fuel')%nat ->
  format_text fuel' fmt ap = format_text fuel fmt ap.
Proof.
  induction fuel as [|fuel IH]; intros fuel' fmt ap Hl Hle; [lia|]. destruct fuel' as [|fuel']; [lia|].
  cbn [format_text]. destruct fmt as [|ch fmt]; [done|]. cbn [length] in Hl.
  destruct (negb (ch =? chr "%")); [by rewrite (IH fuel') by lia|].
  destruct (parse_spec fmt ap) as [[[[[[fl w] pr] l] fmt'] ap']|] eqn:E; [|done]. apply parse_spec_length in E. cbn [mbind option_bind].
  destruct fmt' as [|ch' fmt']; [done|]. cbn [length] in E. destruct (conv_text _ _ _ _ _ _) as [[text ap'']|]; [|done].
  cbn [mbind option_bind]. by rewrite (IH fuel') by lia.
Qed.

Lemma vsnprintf_spec buf fmt ap :
  vsnprintf buf fmt ap =
    text ← format fmt ap;
    Some (match buf with
          | Some ((_ :: _) as bs) =>
              let k := Nat.min (length text) (length bs - 1) in Some (take k text ++ [0] ++ drop (S k) bs)
          | _ => buf
          end, i32 (Z.of_nat (length text))).
Proof.
  assert (Htot : forall text b p e, fc_total (foldl fmt_putc (FmtCtx b p e 0) text) = i32 (Z.of_nat (length text))).
  { intros. rewrite put_total. case_decide as E; [by rewrite E|done]. }
  unfold vsnprintf, format. destruct buf as [[|b bs]|]; rewrite format_loop_text; destruct (format_text _ fmt ap) as [text|]; try done;
    cbn [mbind option_bind fmap option_fmap option_map]; rewrite ?Htot; try done.
  destruct (put_buffer text [] (b :: bs) 0 0) as (E1 & E2 & _); [done|done|]. cbn [app] in E1, E2. rewrite Z.add_0_l in E1, E2.
  cbv zeta. rewrite E1, E2. set (k := Nat.min (length text) _) in *.
  change (default 0 (Some (0 + Z.of_nat k))) with (0 + Z.of_nat k). rewrite Z.add_0_l, Nat2Z.id. do 3 f_equal.
  assert (Hk : (k < length (b :: bs))%nat) by (unfold k; cbn [length]; lia).
  assert (Hkt : (k <= length text)%nat) by (unfold k; lia).
  rewrite insert_app_r_alt by (rewrite length_take; lia). rewrite length_take, Nat.min_l, Nat.sub_diag by done.
  rewrite <-(take_drop 1 (drop k (b :: bs))). rewrite drop_drop. replace (k + 1)%nat with (S k) by lia.
  destruct (drop k (b :: bs)) as [|x xs] eqn:Ed; [|done]. apply (f_equal length) in Ed. rewrite length_drop in Ed. cbn [length] in *. lia.
Qed.

(** ** Properties *)
(** C28: [vsnprintf] writes the text of the format and nothing else. Where that text
    is defined the result is its length (as an [int]), whatever the buffer; a
    buffer of [size > 0] bytes holds the first [size - 1] characters at most,
    then a terminator, and its bytes behind the terminator are untouched. No byte outside the buffer is
    written. Where it is not defined, neither is the call. *)
Theorem vsnprintf_correct buf fmt ap :
  vsnprintf buf fmt ap =
    text ← format fmt ap;
    Some (match buf with
          | Some ((_ :: _) as bs) =>
              let k := Nat.min (length text) (length bs - 1) in Some (take k text ++ [0] ++ drop (S k) bs)
          | _ => buf
          end, i32 (Z.of_nat (length text))).
Proof. apply vsnprintf_spec. Qed.
