(* ===== verification/KStdlib.v ===== *)
(** Number parsing and sorting, [kernel/utilities/stdlib.c].

    A C string is the list of its bytes before the terminator; reading at its
    end gives 0.  [int] and [long] arithmetic wraps at its width. *)
From S2P Require Import Prelude.
From S2P Require Import Printf.
From Stdlib Require Import Ascii.
From stdpp Require Import strings.
#[local] Open Scope Z_scope.

Definition at0 (s : list Z) : Z := default 0 (head s).

Fixpoint skip_blanks (s : list Z) : list Z :=
  match s with
  | ch :: s' => if (ch =? chr " ") || (ch =? chr "009") then skip_blanks s' else s
  | [] => []
  end.

(** The sign, and the string behind it. *)
Definition take_sign (s : list Z) : Z * list Z :=
  match s with
  | ch :: s' => if ch =? chr "-" then (-1, s') else if ch =? chr "+" then (1, s') else (1, s)
  | [] => (1, [])
  end.

Fixpoint atoi_loop (s : list Z) (v : Z) : Z :=
  match s with
  | ch :: s' => if is_digit ch then atoi_loop s' (i32 (v * 10 + (ch - chr "0"))) else v
  | [] => v
  end.

Definition atoi (s : list Z) : Z :=
  let '(sign, s) := take_sign (skip_blanks s) in i32 (atoi_loop s 0 * sign).

(** The value of a digit, [None] for other characters. *)
Definition digit_of (ch : Z) : option Z :=
  if (chr "0" <=? ch) && (ch <=? chr "9") then Some (ch - chr "0")
  else if (chr "a" <=? ch) && (ch <=? chr "z") then Some (ch - chr "a" + 10)
  else if (chr "A" <=? ch) && (ch <=? chr "Z") then Some (ch - chr "A" + 10)
  else None.

(** The base that applies, and the string behind its prefix. *)
Definition take_base (s : list Z) (base : Z) : Z * list Z :=
  let hex := (at0 s =? chr "0") && ((at0 (tail s) =? chr "x") || (at0 (tail s) =? chr "X")) in
  if base =? 0 then
    if hex then (16, drop 2 s) else if at0 s =? chr "0" then (8, drop 1 s) else (10, s)
  else if (base =? 16) && hex then (base, drop 2 s) else (base, s).

Fixpoint strtol_loop (s : list Z) (base v : Z) : Z * list Z :=
  match s with
  | ch :: s' =>
      match digit_of ch with
      | None => (v, s)
      | Some d => if d >=? base then (v, s) else strtol_loop s' base (i64 (v * base + d))
      end
  | [] => (v, [])
  end.

(** The value, and the rest of the string that goes to [endp]. *)
Definition strtol (s : list Z) (base : Z) : Z * list Z :=
  let '(sign, s) := take_sign (skip_blanks s) in
  let '(base, s) := take_base s base in
  let '(v, s) := strtol_loop s base 0 in
  (i64 (v * sign), s).

Definition abs (x : Z) : Z := if x <? 0 then i32 (- x) else x.
Definition labs (x : Z) : Z := if x <? 0 then i64 (- x) else x.

(** ** Sorting *)
(** [for (k = 0; k < size; k++)]: exchange two elements byte by byte. *)
Fixpoint swap_bytes (a b : list Z) : list Z * list Z :=
  match a, b with
  | x :: a, y :: b => let '(a', b') := swap_bytes a b in (y :: a', x :: b')
  | _, _ => (a, b)
  end.

Section qsort.
Context (cmp : list Z -> list Z -> Z).

(** The inner loop, from position [j] down: the array is a list of elements,
    each the bytes of one of them. *)
Fixpoint sift (arr : list (list Z)) (j : nat) : list (list Z) :=
  match j with
  | O => arr
  | S i =>
      match arr !! i, arr !! j with
      | Some a, Some b =>
          if cmp a b <=? 0 then arr
          else let '(a', b') := swap_bytes a b in sift (<[j := b']> (<[i := a']> arr)) i
      | _, _ => arr
      end
  end.

Definition qsort (arr : list (list Z)) : list (list Z) := foldl sift arr (seq 1 (length arr - 1)).
End qsort.
