(* ===== verification/KStdlibSpec.v ===== *)
(** Parsing reads back what formatting prints, and sorting sorts
    ([kernel/utilities/stdlib.c], [kernel/utilities/printf.c]). *)
From S2P Require Import Prelude.
From S2P Require Import Printf.
From S2P Require Import PrintfSpec.
From S2P Require Import KStdlib.
From Stdlib Require Import Ascii.
From stdpp Require Import strings sorting.
#[local] Open Scope Z_scope.

(** ** Digits *)
Definition digit_char (upper : bool) (d : Z) : Z :=
  (if upper then str "0123456789ABCDEF" else str "0123456789abcdef") !!! Z.to_nat d.

Lemma digit_of_char upper d : 0 <= d < 16 -> digit_of (digit_char upper d) = Some d.
Proof.
  intros H. assert (Hd : d ∈ seqZ 0 16) by (apply elem_of_seqZ; lia). revert Hd. unfold digit_char.
  assert (Hall : Forall (fun d => digit_of ((if upper then str "0123456789ABCDEF" else str "0123456789abcdef") !!! Z.to_nat d) = Some d) (seqZ 0 16)).
  { destruct upper; vm_compute; repeat constructor. }
  rewrite List.Forall_forall in Hall. intros Hd. by apply Hall, list_elem_of_In.
Qed.

Lemma digits_step fuel v base upper : v <> 0 ->
  digits_loop (S fuel) v base upper = digit_char upper (v mod base) :: digits_loop fuel (v / base) base upper.
Proof. intros H. cbn [digits_loop]. by rewrite (proj2 (Z.eqb_neq _ _)). Qed.

Lemma digits_zero fuel base upper : digits_loop fuel 0 base upper = [].
Proof. by destruct fuel. Qed.

Lemma i64_small x : - 2 ^ 63 <= x < 2 ^ 63 -> i64 x = x.
Proof. intros H. unfold i64. rewrite Z.mod_small by lia. lia. Qed.

(** Reading the digits of [v], most significant first, gives [v]. *)
Lemma strtol_digits fuel base upper rest : 2 <= base <= 16 -> forall v, 0 <= v < 2 ^ 63 -> v < base ^ Z.of_nat fuel ->
  strtol_loop (rev (digits_loop fuel v base upper) ++ rest) base 0 = strtol_loop rest base v.
Proof.
  intros Hb. revert rest. induction fuel as [|fuel IH]; intros rest v Hv Hf.
  { assert (v = 0) as -> by (cbn in Hf; lia). done. }
  destruct (Z.eq_dec v 0) as [->|Hn]; [by rewrite digits_zero|]. rewrite digits_step by done. cbn [rev]. rewrite <-app_assoc. cbn [app].
  assert (Hdiv : 0 <= v / base <= v) by (Z.to_euclidean_division_equations; nia).
  assert (Hlt : v / base < base ^ Z.of_nat fuel).
  { apply Z.div_lt_upper_bound; [lia|]. rewrite Nat2Z.inj_succ, Z.pow_succ_r in Hf by lia. done. }
  rewrite IH by lia. cbn [strtol_loop]. pose proof (Z.mod_pos_bound v base ltac:(lia)) as Hm.
  rewrite digit_of_char by lia. rewrite Z.geb_leb, (proj2 (Z.leb_gt _ _)) by lia.
  rewrite i64_small; [f_equal|]; pose proof (Z.div_mod v base ltac:(lia)); lia.
Qed.

Lemma digits_length fuel v base upper : (length (digits_loop fuel v base upper) <= fuel)%nat.
Proof. revert v. induction fuel as [|fuel IH]; intros v; cbn [digits_loop]; [done|]. destruct (v =? 0); cbn; [lia|]. specialize (IH (v / base)). lia. Qed.

(** Without a width or precision the text is the prefix and the digits. *)
Lemma uint_text_plain v base upper flags sign alt : (flags &? FL_LEFT) = false -> (flags &? FL_ZERO) = false ->
  (length alt <= 2)%nat -> uint_text v base upper 0 (-1) flags sign alt = (if sign =? 0 then [] else [sign]) ++ alt ++ rev (tmp_digits v base upper (-1)).
Proof.
  intros Hl Hz Ha. unfold uint_text, field. rewrite Hl, Hz. cbn [andb]. unfold zeros. set (tmp := tmp_digits v base upper (-1)).
  assert (Hlen : (length tmp <= 65)%nat).
  { unfold tmp, tmp_digits. rewrite length_app. pose proof (digits_length 64 v base upper). destruct (_ && _); cbn [length str]; lia. }
  rewrite (Z2Nat.nonpos (-1 - _)) by lia. cbn [replicate app]. rewrite length_rev.
  set (n := Z.of_nat (length tmp) + _). assert (Hn : 0 <= n <= 70) by (unfold n; rewrite length_app; destruct (sign =? 0); cbn; lia).
  assert (Hi : i32 (0 - i32 n) <= 0) by (unfold i32; rewrite (Z.mod_small (n + 2 ^ 31)), Z.mod_small by lia; lia).
  unfold spaces. rewrite (Z2Nat.nonpos (i32 _)) by done. cbn. by rewrite <-app_assoc.
Qed.

Lemma tmp_digits_read v base upper rest : 2 <= base <= 16 -> 0 <= v < 2 ^ 63 ->
  strtol_loop (rev (tmp_digits v base upper (-1)) ++ rest) base 0 = strtol_loop rest base v.
Proof.
  intros Hb Hv. unfold tmp_digits. destruct (Z.eqb_spec v 0) as [->|Hn]; cbn [andb negb Z.eqb].
  - rewrite digits_zero. change (rev (str "0" ++ []) ++ rest) with (chr "0" :: rest). cbn [strtol_loop].
    change (digit_of (chr "0")) with (Some 0). cbv beta iota. rewrite Z.geb_leb, (proj2 (Z.leb_gt _ _)) by lia. done.
  - cbn [app]. apply strtol_digits; [done|done|]. apply Z.lt_le_trans with (2 ^ 64); [lia|].
    change (Z.of_nat 64) with 64. apply Z.pow_le_mono_l. lia.
Qed.

Lemma first_digit v base upper : 2 <= base <= 16 -> 0 <= v -> exists d ds, rev (tmp_digits v base upper (-1)) = digit_char upper d :: ds /\ 0 <= d < base.
Proof.
  intros Hb Hv. assert (Hall : Forall (fun ch => exists d, ch = digit_char upper d /\ 0 <= d < base) (rev (tmp_digits v base upper (-1)))).
  { apply Forall_rev. unfold tmp_digits. apply Forall_app. split.
    - destruct (_ && _); [|constructor]. repeat constructor. exists 0. split; [by destruct upper|lia].
    - generalize 64%nat as fuel. intros fuel. revert v Hv. induction fuel as [|fuel IH]; intros v Hv; cbn [digits_loop]; [constructor|].
      destruct (v =? 0); [constructor|]. constructor; [|apply IH; apply Z.div_pos; lia]. exists (v mod base). split; [done|]. apply Z.mod_pos_bound. lia. }
  destruct (rev (tmp_digits v base upper (-1))) as [|ch ds] eqn:E.
  - apply (f_equal length) in E. rewrite length_rev in E. unfold tmp_digits in E.
    destruct (Z.eqb_spec v 0) as [->|Hn]; [by rewrite digits_zero in E|]. change 64%nat with (S 63) in E. rewrite digits_step in E by done. done.
  - inversion_clear Hall as [|? ? (d & -> & Hd) _]. by exists d, ds.
Qed.

(** A digit is neither a blank nor a sign. *)
Lemma digit_char_plain upper d ds : 0 <= d < 16 -> take_sign (skip_blanks (digit_char upper d :: ds)) = (1, digit_char upper d :: ds).
Proof.
  intros H. assert (Hall : Forall (fun d => (digit_char upper d =? chr " ") || (digit_char upper d =? chr "009") = false /\
    (digit_char upper d =? chr "-") = false /\ (digit_char upper d =? chr "+") = false) (seqZ 0 16)).
  { destruct upper; vm_compute; repeat constructor. }
  rewrite List.Forall_forall in Hall. destruct (Hall d) as (H1 & H2 & H3); [apply list_elem_of_In, elem_of_seqZ; lia|].
  cbn [skip_blanks]. rewrite H1. cbn [take_sign]. by rewrite H2, H3.
Qed.

(** A format that is one conversion. *)
Lemma format_one fmt ap flags width precision l ch ap1 text ap2 :
  parse_spec fmt ap = Some (flags, width, precision, l, [ch], ap1) -> conv_text ch width precision flags l ap1 = Some (text, ap2) ->
  format (chr "%" :: fmt) ap = Some text.
Proof.
  intros Ep Ec. destruct fmt as [|x fmt]; [apply parse_spec_length in Ep; cbn in Ep; lia|].
  unfold format. cbn [length format_text]. rewrite Z.eqb_refl, Ep. cbn [negb mbind option_bind]. rewrite Ec. cbn. by rewrite app_nil_r.
Qed.

Lemma format_ld v : format (str "%ld") [AInt v] = Some (int_text (i64 v) 0 (-1) 0).
Proof. eapply (format_one (str "ld")); reflexivity. Qed.

Lemma format_lx v : format (str "%#lx") [AInt v] = Some (uint_text (u64 v) 16 false 0 (-1) FL_ALT 0 (alt_prefix (chr "x") FL_ALT (u64 v))).
Proof. eapply (format_one (str "#lx")); reflexivity. Qed.

Lemma strtol_unsigned v base upper : 2 <= base <= 16 -> 0 <= v < 2 ^ 63 ->
  strtol_loop (rev (tmp_digits v base upper (-1))) base 0 = (v, []).
Proof. intros Hb Hv. pose proof (tmp_digits_read v base upper [] Hb Hv) as H. by rewrite app_nil_r in H. Qed.

Lemma read_decimal v : - 2 ^ 63 < v < 2 ^ 63 -> strtol (int_text (i64 v) 0 (-1) 0) 10 = (v, []).
Proof.
  intros Hv. rewrite i64_small by lia. unfold int_text. rewrite uint_text_plain by (cbn; done || lia).
  destruct (Z.ltb_spec v 0) as [Hn|Hp].
  - rewrite u64_small by lia. change (chr "-" =? 0) with false. cbn [app]. unfold strtol. cbn [skip_blanks].
    change ((chr "-" =? chr " ") || (chr "-" =? chr "009")) with false. cbn [take_sign]. change (chr "-" =? chr "-") with true.
    unfold take_base. cbn [Z.eqb Pos.eqb andb]. rewrite strtol_unsigned by lia. f_equal. rewrite i64_small; lia.
  - rewrite u64_small by lia. change (0 &? FL_PLUS) with false. change (0 &? FL_SPACE) with false. cbn [Z.eqb app].
    destruct (first_digit v 10 false) as (d & ds & E & Hd); [lia|lia|]. unfold strtol. rewrite E, digit_char_plain by lia.
    unfold take_base. cbn [Z.eqb Pos.eqb andb]. rewrite <-E, strtol_unsigned by lia. f_equal. rewrite i64_small; lia.
Qed.

Lemma strtol_hex s : strtol (str "0x" ++ s) 0 = let '(v, s') := strtol_loop s 16 0 in (i64 (v * 1), s').
Proof. reflexivity. Qed.

Lemma read_hex v : 0 <= v < 2 ^ 63 ->
  strtol (uint_text (u64 v) 16 false 0 (-1) FL_ALT 0 (alt_prefix (chr "x") FL_ALT (u64 v))) 0 = (v, []).
Proof.
  intros Hv. rewrite u64_small by lia. unfold alt_prefix. change (FL_ALT &? FL_ALT) with true. cbn [andb].
  destruct (Z.eqb_spec v 0) as [->|Hn]; [reflexivity|]. cbn [negb]. change (chr "x" =? chr "o") with false. change (chr "x" =? chr "x") with true.
  rewrite uint_text_plain by (cbn; done || lia). cbn [Z.eqb app].
  rewrite strtol_hex, strtol_unsigned by lia. f_equal. rewrite i64_small; lia.
Qed.

(** ** Sorting *)
Lemma swap_bytes_eq a b : length a = length b -> swap_bytes a b = (b, a).
Proof. revert b. induction a as [|x a IH]; intros [|y b] H; try done. cbn. by rewrite IH by (cbn in H; lia). Qed.

Section qsort.
Context (cmp : list Z -> list Z -> Z) (size : nat).
Hypothesis cmp_total : forall a b, cmp a b <= 0 \/ cmp b a <= 0.
Hypothesis cmp_trans : forall a b c, cmp a b <= 0 -> cmp b c <= 0 -> cmp a c <= 0.
Definition below (a b : list Z) : Prop := cmp a b <= 0.

(** Sinking [x] into the sorted elements before it. *)
Lemma sift_ok l : forall x r, Forall (fun e => length e = size) (l ++ x :: r) -> StronglySorted below l ->
  exists l', sift cmp (l ++ x :: r) (length l) = l' ++ r /\ l' ≡ₚ l ++ [x] /\ StronglySorted below l'.
Proof using cmp_total cmp_trans.
  induction l as [|a l IH] using rev_ind; intros x r Hs Hl.
  { exists [x]. split_and!; [done|done|repeat constructor]. }
  rewrite length_app, Nat.add_1_r. cbn [sift]. rewrite <-!app_assoc in *. cbn [app] in *.
  assert (Ha : (l ++ a :: x :: r) !! length l = Some a) by (by apply list_lookup_middle).
  assert (Hx : (l ++ a :: x :: r) !! S (length l) = Some x) by (rewrite lookup_app_r by lia; by replace (S (length l) - length l)%nat with 1%nat by lia).
  rewrite Ha, Hx. assert (Hall : (forall e, e ∈ l -> below e a) /\ StronglySorted below l).
  { apply StronglySorted_app in Hl as (H1 & H2 & _). split; [|done]. intros e He. apply H1; [done|left]. }
  destruct Hall as [Hla Hl0]. destruct (Z.leb_spec (cmp a x) 0) as [Hc|Hc].
  - exists (l ++ [a; x]). rewrite <-app_assoc. split_and!; [done|done|].
    apply StronglySorted_app. split_and!; [|done|repeat constructor; done].
    intros e f He [->|[->|Hf%not_elem_of_nil]%elem_of_cons]%elem_of_cons; [by apply Hla| |done]. eapply cmp_trans; [by apply Hla|done].
  - assert (Hla' : length a = size /\ length x = size).
    { apply Forall_app in Hs as [_ Hs]. inversion_clear Hs as [|? ? ? Hs']. inversion_clear Hs'. done. }
    rewrite swap_bytes_eq by lia.
    assert (<[S (length l) := a]> (<[length l := x]> (l ++ a :: x :: r)) = l ++ x :: a :: r) as ->.
    { rewrite insert_app_r_alt by lia. rewrite Nat.sub_diag. cbn [insert list_insert]. rewrite insert_app_r_alt by lia.
      by replace (S (length l) - length l)%nat with 1%nat by lia. }
    destruct (IH x (a :: r)) as (l' & E & Hp & Hsrt); [|done|].
    { rewrite Forall_app in Hs |- *. destruct Hs as [H1 H2]. inversion_clear H2 as [|? ? ? H3]. inversion_clear H3. split; [done|]. by repeat constructor. }
    exists (l' ++ [a]). rewrite <-app_assoc. split_and!; [done| |].
    + rewrite Hp, <-app_assoc. cbn. apply Permutation_app_head. constructor.
    + apply StronglySorted_app. split_and!; [|done|repeat constructor]. intros e f He [->|Hf%not_elem_of_nil]%elem_of_cons; [|done].
      rewrite Hp in He. apply elem_of_app in He as [He|[->|Hf%not_elem_of_nil]%elem_of_cons]; [by apply Hla| |done].
      destruct (cmp_total a x) as [?|?]; [lia|done].
Qed.

Lemma qsort_prefix arr n : Forall (fun e => length e = size) arr -> (0 < n <= length arr)%nat ->
  exists l, foldl (sift cmp) arr (seq 1 (n - 1)) = l ++ drop n arr /\ l ≡ₚ take n arr /\ StronglySorted below l.
Proof using cmp_total cmp_trans.
  intros Hs. induction n as [|n IH]; intros Hn; [lia|]. destruct (decide (n = 0%nat)) as [->|Hn0].
  { destruct arr as [|x arr]; [cbn in Hn; lia|]. exists [x]. split_and!; [done|done|repeat constructor]. }
  destruct IH as (l & E & Hp & Hsrt); [lia|]. replace (S n - 1)%nat with (n - 1 + 1)%nat by lia. rewrite seq_app, foldl_app, E.
  replace (1 + (n - 1))%nat with n by lia. cbn [seq foldl].
  assert (Hx : exists x, arr !! n = Some x) by (apply lookup_lt_is_Some_2; lia). destruct Hx as [x Hx].
  rewrite (drop_S arr x n Hx). assert (Hlen : length l = n) by (rewrite Hp, length_take; lia).
  destruct (sift_ok l x (drop (S n) arr)) as (l' & E' & Hp' & Hs'); [|done|].
  { rewrite <-(take_drop n arr), (drop_S arr x n Hx) in Hs. apply Forall_app in Hs as [H1 H2]. apply Forall_app. split; [by rewrite Hp|done]. }
  rewrite Hlen in E'. rewrite E'. exists l'. split_and!; [done| |done]. rewrite Hp', Hp. by rewrite (take_S_r arr n x Hx).
Qed.

Lemma qsort_ok arr : Forall (fun e => length e = size) arr -> qsort cmp arr ≡ₚ arr /\ StronglySorted below (qsort cmp arr).
Proof using cmp_total cmp_trans.
  intros Hs. destruct arr as [|x arr]; [split; constructor|].
  destruct (qsort_prefix (x :: arr) (length (x :: arr)) Hs) as (l & E & Hp & Hsrt); [cbn; lia|].
  unfold qsort. rewrite E, drop_all, app_nil_r. rewrite firstn_all in Hp. done.
Qed.
End qsort.

(** ** Properties *)
(** Parsing reads back what formatting prints. For every [long] but the
    least, [strtol] in base 10 of the text of [%ld] is the number; for every
    non-negative one, [strtol] with base detection of the text of [%#lx] is. In both the whole text is consumed. *)
Theorem print_parse_roundtrip v : - 2 ^ 63 < v < 2 ^ 63 ->
  (exists text, format (str "%ld") [AInt v] = Some text /\ strtol text 10 = (v, [])) /\
  (0 <= v -> exists text, format (str "%#lx") [AInt v] = Some text /\ strtol text 0 = (v, [])).
Proof.
  intros Hv. split; [|intros Hp].
  - eexists. split; [apply format_ld|by apply read_decimal].
  - eexists. split; [apply format_lx|apply read_hex; lia].
Qed.

Lemma print_parse_roundtrip_witness :
  vsnprintf (Some (replicate 8 1)) (str "%#lx") [AInt 48879] = Some (Some (str "0xbeef" ++ [0; 1]), 6) /\
  exists text, format (str "%#lx") [AInt 48879] = Some text /\ strtol text 0 = (48879, []).
Proof. split; [vm_compute; reflexivity|]. apply (print_parse_roundtrip 48879); lia. Defined.

(** [qsort] sorts: for a comparison that is total and transitive, and elements of
    one size, the result is a permutation of the array in which every element compares at
    most equal to all that follow. *)
Theorem qsort_sorts cmp size arr :
  (forall a b, cmp a b <= 0 \/ cmp b a <= 0) -> (forall a b c, cmp a b <= 0 -> cmp b c <= 0 -> cmp a c <= 0) ->
  Forall (fun e => length e = size) arr ->
  qsort cmp arr ≡ₚ arr /\ StronglySorted (fun a b => cmp a b <= 0) (qsort cmp arr).
Proof. intros Ht Htr Hs. by apply (qsort_ok cmp size). Qed.

(** Compare the first bytes. *)
Definition ex_cmp (a b : list Z) : Z := at0 a - at0 b.

Lemma qsort_sorts_witness :
  qsort ex_cmp [[3; 0]; [1; 1]; [2; 2]; [1; 3]] = [[1; 1]; [1; 3]; [2; 2]; [3; 0]] /\
  StronglySorted (fun a b => ex_cmp a b <= 0) (qsort ex_cmp [[3; 0]; [1; 1]; [2; 2]; [1; 3]]).
Proof.
  split; [vm_compute; reflexivity|].
  apply (qsort_sorts ex_cmp 2 [[3; 0]; [1; 1]; [2; 2]; [1; 3]]); unfold ex_cmp; [intros; lia|intros; lia|repeat constructor].
Defined.
