(* ===== verification/KString.v ===== *)
(** Memory and string primitives, [kernel/utilities/string.c].

    Memory is a map from addresses to bytes, with 0 where nothing was
    written.  The string instructions of the [mem*] routines are loops that
    move eight bytes at a time and then single bytes. *)
From S2P Require Import Prelude.

Abbreviation bmem := (gmap Z Z).
Definition ld8 (m : bmem) (a : Z) : Z := default 0 (m !! a).
Definition st8 (m : bmem) (a v : Z) : bmem := <[a := v]> m.

(** A little-endian quadword. *)
Definition ld64 (m : bmem) (a : Z) : list Z := (fun k => ld8 m (a + k)) <$> seqZ 0 8.
Fixpoint st_bytes (m : bmem) (a : Z) (bs : list Z) : bmem :=
  match bs with [] => m | b :: bs => st_bytes (st8 m a b) (a + 1) bs end.

(** [rep movsq] and [rep movsb]: the registers after [q] repetitions. *)
Fixpoint rep_movsq (m : bmem) (dst src : Z) (q : nat) : bmem * Z * Z :=
  match q with
  | O => (m, dst, src)
  | S q => rep_movsq (st_bytes m dst (ld64 m src)) (dst + 8) (src + 8) q
  end.
Fixpoint rep_movsb (m : bmem) (dst src : Z) (b : nat) : bmem :=
  match b with
  | O => m
  | S b => rep_movsb (st8 m dst (ld8 m src)) (dst + 1) (src + 1) b
  end.

Definition memcpy (m : bmem) (dst src n : Z) : bmem :=
  let q := Z.shiftr n 3 in
  let b := Z.land n 7 in
  let '(m, dst, src) := rep_movsq m dst src (Z.to_nat q) in
  rep_movsb m dst src (Z.to_nat b).

(** [rep stosq] stores the quadword [v], [rep stosb] its low byte. *)
Definition quad_bytes (v : Z) : list Z := (fun k => Z.land (Z.shiftr v (8 * k)) 255) <$> seqZ 0 8.
Fixpoint rep_stosq (m : bmem) (dst v : Z) (q : nat) : bmem * Z :=
  match q with O => (m, dst) | S q => rep_stosq (st_bytes m dst (quad_bytes v)) (dst + 8) v q end.
Fixpoint rep_stosb (m : bmem) (dst v : Z) (b : nat) : bmem :=
  match b with O => m | S b => rep_stosb (st8 m dst (Z.land v 255)) (dst + 1) v b end.

Definition memset (m : bmem) (dst c n : Z) : bmem :=
  let v := u8 c in
  let v := Z.lor v (u64 (Z.shiftl v 8)) in
  let v := Z.lor v (u64 (Z.shiftl v 16)) in
  let v := Z.lor v (u64 (Z.shiftl v 32)) in
  let q := Z.shiftr n 3 in
  let b := Z.land n 7 in
  let '(m, dst) := rep_stosq m dst v (Z.to_nat q) in
  rep_stosb m dst v (Z.to_nat b).

(** [while (n--) *--d = *--s;] with both pointers past the end. *)
Fixpoint copy_back (m : bmem) (d s : Z) (n : nat) : bmem :=
  match n with O => m | S n => copy_back (st8 m (d - 1) (ld8 m (s - 1))) (d - 1) (s - 1) n end.

Definition memmove (m : bmem) (dst src n : Z) : bmem :=
  if (dst =? src) || (n =? 0) then m
  else if dst <? src then memcpy m dst src n
  else copy_back m (dst + n) (src + n) (Z.to_nat n).

Fixpoint memcmp_loop (m : bmem) (x y : Z) (n : nat) : Z :=
  match n with
  | O => 0
  | S n => if negb (ld8 m x =? ld8 m y) then ld8 m x - ld8 m y else memcmp_loop m (x + 1) (y + 1) n
  end.
Definition memcmp (m : bmem) (a b n : Z) : Z := memcmp_loop m a b (Z.to_nat n).

(** ** Strings *)
(** A C string is the list of its non-zero bytes; the empty list is the
    terminator.  [char] is signed. *)
Definition sc (x : Z) : Z := if x <? 128 then x else x - 256.
Definition hd0 (s : list Z) : Z := match s with [] => 0 | c :: _ => c end.

Definition strlen (s : list Z) : Z := Z.of_nat (length s).
Definition strcat (dst src : list Z) : list Z := dst ++ src.
Fixpoint strncat_loop (src : list Z) (n : nat) : list Z :=
  match n, src with S n, c :: src => c :: strncat_loop src n | _, _ => [] end.
Definition strncat (dst src : list Z) (n : Z) : list Z := dst ++ strncat_loop src (Z.to_nat n).

(** The [n] bytes [strncpy] writes. *)
Fixpoint strncpy_loop (src : list Z) (n : nat) : list Z :=
  match n with
  | O => []
  | S n => match src with [] => 0 :: strncpy_loop [] n | c :: src => c :: strncpy_loop src n end
  end.
Definition strncpy (src : list Z) (n : Z) : list Z := strncpy_loop src (Z.to_nat n).

Fixpoint strcmp (a b : list Z) : Z :=
  match a, b with
  | x :: a', y :: b' => if x =? y then strcmp a' b' else x - y
  | _, _ => hd0 a - hd0 b
  end.

Fixpoint strncmp_loop (a b : list Z) (n : nat) : Z :=
  match n with
  | O => 0
  | S n => match a, b with
           | x :: a', y :: b' => if x =? y then strncmp_loop a' b' n else x - y
           | _, _ => hd0 a - hd0 b
           end
  end.
Definition strncmp (a b : list Z) (n : Z) : Z := strncmp_loop a b (Z.to_nat n).

(** On the byte of a [char]: negative ones are not letters. *)
Definition to_lower_byte (c : Z) : Z := if (65 <=? c) && (c <=? 90) then c + 32 else c.

Fixpoint strcasecmp (a b : list Z) : Z :=
  match a, b with
  | x :: a', y :: b' =>
      if negb (to_lower_byte x =? to_lower_byte y) then sc (to_lower_byte x) - sc (to_lower_byte y) else strcasecmp a' b'
  | _, _ => hd0 a - hd0 b
  end.

(** The rest of [s] from the first [c] on; [None] is the null pointer. *)
Fixpoint strchr_loop (s : list Z) (c : Z) : option (list Z) :=
  match s with
  | [] => if c =? 0 then Some [] else None
  | x :: s' => if x =? u8 c then Some s else strchr_loop s' c
  end.
Definition strchr (s : list Z) (c : Z) : option (list Z) := strchr_loop s c.

Fixpoint strrchr_loop (s : list Z) (c : Z) (last : option (list Z)) : option (list Z) :=
  match s with
  | [] => if c =? 0 then Some [] else last
  | x :: s' => strrchr_loop s' c (if x =? u8 c then Some s else last)
  end.
Definition strrchr (s : list Z) (c : Z) : option (list Z) := strrchr_loop s c None.

(** The inner loop of [strstr]: does the needle end first? *)
Fixpoint starts (a b : list Z) {struct b} : bool :=
  match b with
  | [] => true
  | y :: b' => match a with [] => false | x :: a' => if x =? y then starts a' b' else false end
  end.

Fixpoint strstr_loop (h n : list Z) : option (list Z) :=
  match h with
  | [] => None
  | _ :: h' => if starts h n then Some h else strstr_loop h' n
  end.
Definition strstr (h n : list Z) : option (list Z) :=
  match n with [] => Some h | _ => strstr_loop h n end.

(** The copy [strlwr] returns when there is memory for it. *)
Definition strlwr (s : list Z) : list Z := to_lower_byte <$> s.
