(* ===== verification/KStringSpec.v ===== *)
(** Memory and string primitives do what their names say
    ([kernel/utilities/string.c]). *)
From S2P Require Import Prelude.
From S2P Require Import KString.

Lemma ld_st m a v x : ld8 (st8 m a v) x = if decide (a = x) then v else ld8 m x.
Proof. unfold ld8, st8. case_decide as H; [by rewrite H, lookup_insert_eq|by rewrite lookup_insert_ne]. Qed.

Lemma ld_st_bytes bs : forall m a x, ld8 (st_bytes m a bs) x =
  if decide (a <= x < a + Z.of_nat (length bs)) then bs !!! Z.to_nat (x - a) else ld8 m x.
Proof.
  induction bs as [|b bs IH]; intros m a x; cbn [st_bytes length].
  { by rewrite decide_False by lia. }
  rewrite IH, ld_st. destruct (decide (a = x)) as [->|Hne].
  - rewrite decide_False by lia. rewrite decide_True by lia. by rewrite Z.sub_diag.
  - destruct (decide (a + 1 <= x < _)) as [Hin|Hin]; [|rewrite decide_False by lia; done].
    rewrite decide_True by lia. by replace (Z.to_nat (x - a)) with (S (Z.to_nat (x - (a + 1)))) by lia.
Qed.

Lemma ld64_lookup m a k : 0 <= k < 8 -> ld64 m a !!! Z.to_nat k = ld8 m (a + k).
Proof.
  intros Hk. unfold ld64. apply list_lookup_total_correct. rewrite list_lookup_fmap, (lookup_seqZ_lt 0 8) by lia. cbn. f_equal. f_equal. lia.
Qed.

(** The bytes of [src .. src+n) in [m] have been moved to [dst]. *)
Definition moved (m m' : bmem) (dst src n : Z) : Prop :=
  forall a, ld8 m' a = if decide (dst <= a < dst + n) then ld8 m (src + (a - dst)) else ld8 m a.

Lemma moved_app m m1 m2 dst src n k : 0 <= n -> 0 <= k -> dst <= src \/ src + n + k <= dst ->
  moved m m1 dst src n -> moved m1 m2 (dst + n) (src + n) k -> moved m m2 dst src (n + k).
Proof.
  intros Hn Hk Hd H1 H2 a. rewrite H2. destruct (decide (dst + n <= a < dst + n + k)) as [Hin|Hin].
  - rewrite H1. rewrite decide_False by lia. rewrite decide_True by lia. f_equal. lia.
  - rewrite H1. destruct (decide (dst <= a < dst + n)); [rewrite decide_True by lia; done|rewrite decide_False by lia; done].
Qed.

Lemma movsq_moved q : forall m dst src, dst <= src \/ src + 8 * Z.of_nat q <= dst ->
  let '(m', d, s) := rep_movsq m dst src q in
  moved m m' dst src (8 * Z.of_nat q) /\ d = dst + 8 * Z.of_nat q /\ s = src + 8 * Z.of_nat q.
Proof.
  induction q as [|q IH]; intros m dst src Hd; cbn [rep_movsq].
  { split_and!; [|lia|lia]. intros a. by rewrite decide_False by lia. }
  specialize (IH (st_bytes m dst (ld64 m src)) (dst + 8) (src + 8) ltac:(lia)).
  destruct (rep_movsq _ _ _ q) as [[m' d] s]. destruct IH as (IH & -> & ->). split_and!; [|lia|lia].
  replace (8 * Z.of_nat (S q)) with (8 + 8 * Z.of_nat q) by lia. eapply moved_app; [lia|lia|lia| |exact IH].
  intros a. rewrite ld_st_bytes. change (length (ld64 m src)) with 8%nat. destruct (decide (dst <= a < dst + Z.of_nat 8)).
  - rewrite decide_True by lia. rewrite ld64_lookup by lia. done.
  - by rewrite decide_False by lia.
Qed.

Lemma movsb_moved b : forall m dst src, dst <= src \/ src + Z.of_nat b <= dst -> moved m (rep_movsb m dst src b) dst src (Z.of_nat b).
Proof.
  induction b as [|b IH]; intros m dst src Hd; cbn [rep_movsb].
  { intros a. by rewrite decide_False by lia. }
  replace (Z.of_nat (S b)) with (1 + Z.of_nat b) by lia. eapply moved_app; [lia|lia|lia| |apply IH; lia].
  intros a. rewrite ld_st. destruct (decide (dst = a)) as [->|]; [rewrite decide_True by lia; f_equal; lia|rewrite decide_False by lia; done].
Qed.

Lemma quads n : 0 <= n -> Z.shiftr n 3 = n / 8 /\ Z.land n 7 = n mod 8.
Proof. intros H. change 7 with (Z.ones 3). rewrite Z.land_ones, Z.shiftr_div_pow2 by done. done. Qed.

Lemma memcpy_moved m dst src n : 0 <= n -> dst <= src \/ src + n <= dst -> moved m (memcpy m dst src n) dst src n.
Proof.
  intros Hn Hd. unfold memcpy. destruct (quads n Hn) as [-> ->].
  pose proof (Z.div_mod n 8 ltac:(lia)). pose proof (Z.mod_pos_bound n 8 ltac:(lia)).
  assert (0 <= n / 8) by (apply Z.div_pos; lia).
  set (q := n / 8) in *. set (b := n mod 8) in *. clearbody q b. subst n.
  pose proof (movsq_moved (Z.to_nat q) m dst src ltac:(lia)) as Hq. destruct (rep_movsq _ _ _ _) as [[m' d] s].
  destruct Hq as (Hq & -> & ->). rewrite Z2Nat.id in * by lia. eapply moved_app; [lia|lia|lia|exact Hq|].
  pose proof (movsb_moved (Z.to_nat b) m' (dst + 8 * q) (src + 8 * q) ltac:(lia)) as Hb. by rewrite Z2Nat.id in Hb by lia.
Qed.

Lemma copy_back_moved n : forall m d s, s < d -> moved m (copy_back m d s n) (d - Z.of_nat n) (s - Z.of_nat n) (Z.of_nat n).
Proof.
  induction n as [|n IH]; intros m d s Hd; cbn [copy_back].
  { intros a. by rewrite decide_False by lia. }
  intros a. rewrite (IH (st8 m (d - 1) (ld8 m (s - 1))) (d - 1) (s - 1) ltac:(lia) a), !ld_st.
  repeat case_decide; try lia; try done; f_equal; lia.
Qed.

(** ** Filling *)
Definition filled (m m' : bmem) (dst v n : Z) : Prop := forall a, ld8 m' a = if decide (dst <= a < dst + n) then v else ld8 m a.

(** The quadword built from a byte repeats it. *)
Definition spread (c : Z) : Z :=
  let v := u8 c in let v := Z.lor v (u64 (Z.shiftl v 8)) in let v := Z.lor v (u64 (Z.shiftl v 16)) in Z.lor v (u64 (Z.shiftl v 32)).

Lemma spread_bytes c : quad_bytes (spread c) = replicate 8 (u8 c) /\ Z.land (spread c) 255 = u8 c.
Proof.
  assert (Hall : forallb (fun c => bool_decide (quad_bytes (spread c) = replicate 8 c /\ Z.land (spread c) 255 = c)) (seqZ 0 256) = true)
    by (vm_compute; reflexivity).
  assert (E : spread c = spread (u8 c)).
  { unfold spread. assert (u8 (u8 c) = u8 c) as -> by (apply Z.mod_mod; done). done. }
  rewrite E. rewrite forallb_forall in Hall. eapply bool_decide_eq_true_1, Hall, list_elem_of_In, elem_of_seqZ.
  pose proof (u8_range c). lia.
Qed.

Lemma stosq_filled q v x : quad_bytes v = replicate 8 x -> forall m dst,
  let '(m', d) := rep_stosq m dst v q in filled m m' dst x (8 * Z.of_nat q) /\ d = dst + 8 * Z.of_nat q.
Proof.
  intros Hv. induction q as [|q IH]; intros m dst; cbn [rep_stosq].
  { split; [|lia]. intros a. by rewrite decide_False by lia. }
  specialize (IH (st_bytes m dst (quad_bytes v)) (dst + 8)). destruct (rep_stosq _ _ _ q) as [m' d]. destruct IH as [IH ->]. split; [|lia].
  intros a. rewrite IH, ld_st_bytes, Hv. change (length (replicate 8 x)) with 8%nat.
  destruct (decide (dst + 8 <= a < _)); [by rewrite decide_True by lia|].
  destruct (decide (dst <= a < dst + Z.of_nat 8)); [rewrite decide_True by lia; rewrite lookup_total_replicate_2 by lia; done|by rewrite decide_False by lia].
Qed.

Lemma stosb_filled b v x : Z.land v 255 = x -> forall m dst, filled m (rep_stosb m dst v b) dst x (Z.of_nat b).
Proof.
  intros Hv. induction b as [|b IH]; intros m dst a; cbn [rep_stosb]; [by rewrite decide_False by lia|].
  rewrite (IH _ _ a), ld_st, Hv. destruct (decide (dst = a)) as [->|]; [rewrite decide_False by lia; by rewrite decide_True by lia|].
  destruct (decide (dst + 1 <= a < _)); [by rewrite decide_True by lia|by rewrite decide_False by lia].
Qed.

Lemma memset_filled m dst c n : 0 <= n -> filled m (memset m dst c n) dst (u8 c) n.
Proof.
  intros Hn. unfold memset. fold (spread c). cbv zeta. fold (spread c). destruct (quads n Hn) as [-> ->]. destruct (spread_bytes c) as [Hq Hb].
  pose proof (Z.div_mod n 8 ltac:(lia)). pose proof (Z.mod_pos_bound n 8 ltac:(lia)). assert (0 <= n / 8) by (apply Z.div_pos; lia).
  change (Z.lor _ _) with (spread c). pose proof (stosq_filled (Z.to_nat (n / 8)) (spread c) (u8 c) Hq m dst) as Hfill.
  destruct (rep_stosq _ _ _ _) as [m' d]. destruct Hfill as [Hfill ->]. intros a. rewrite (stosb_filled _ (spread c) (u8 c) Hb m' _ a), Hfill.
  rewrite !Z2Nat.id by lia. repeat case_decide; try done; lia.
Qed.

(** ** Strings *)
Definition cstring (s : list Z) : Prop := Forall (fun c => 0 < c < 256) s.

Lemma hd0_pos x s : cstring (x :: s) -> 0 < x < 256.
Proof. by inversion 1. Qed.

(** The order of strings as byte sequences. *)
Fixpoint lex (a b : list Z) : comparison :=
  match a, b with
  | [], [] => Eq
  | [], _ => Lt
  | _, [] => Gt
  | x :: a, y :: b => match x ?= y with Eq => lex a b | c => c end
  end.

Lemma strcmp_sign a : forall b, cstring a -> cstring b -> (strcmp a b ?= 0) = lex a b.
Proof.
  induction a as [|x a IH]; intros [|y b] Ha Hb; cbn [strcmp lex hd0]; [done| | |].
  - apply hd0_pos in Hb. apply Z.compare_lt_iff. lia.
  - apply hd0_pos in Ha. apply Z.compare_gt_iff. lia.
  - inversion_clear Ha. inversion_clear Hb. destruct (Z.eqb_spec x y) as [->|Hne]; [rewrite Z.compare_refl; by apply IH|].
    destruct (Z.compare_spec x y); [done|apply Z.compare_lt_iff; lia|apply Z.compare_gt_iff; lia].
Qed.

Lemma starts_prefix b : forall a, starts a b = true <-> b `prefix_of` a.
Proof.
  induction b as [|y b IH]; intros a; cbn [starts]; [split; [intros _; apply prefix_nil|done]|].
  destruct a as [|x a]; [split; [done|intros H; by apply prefix_nil_inv in H]|].
  destruct (Z.eqb_spec x y) as [->|Hne]; [rewrite IH; split; [apply prefix_cons|apply prefix_cons_inv_2]|].
  split; [done|]. intros H. by apply prefix_cons_inv_1 in H.
Qed.

Lemma strstr_loop_ok n : n <> [] -> forall h,
  match strstr_loop h n with
  | Some t => exists k, t = drop k h /\ n `prefix_of` drop k h /\ forall j, (j < k)%nat -> ~ n `prefix_of` drop j h
  | None => forall j, ~ n `prefix_of` drop j h
  end.
Proof.
  intros Hn. induction h as [|x h IH]; cbn [strstr_loop].
  { intros j. rewrite drop_nil. intros H. by apply prefix_nil_inv in H. }
  destruct (starts (x :: h) n) eqn:E.
  { exists 0%nat. apply starts_prefix in E. split_and!; [done|done|lia]. }
  assert (E0 : ~ n `prefix_of` x :: h) by (rewrite <-starts_prefix; by rewrite E).
  destruct (strstr_loop h n) as [t|].
  - destruct IH as (k & -> & Hp & Hk). exists (S k). split_and!; [done|done|]. intros [|j] Hj; [done|]. apply Hk. lia.
  - intros [|j]; [done|apply IH].
Qed.

(** ** Properties *)
(** [memmove] moves the bytes whatever the overlap, though its forward path moves eight
    bytes at a time: afterwards the destination holds what the source held before, and
    every other byte is unchanged. [memcpy] does the same when the regions are disjoint or the
    destination starts first, and [memset] fills its region with the byte and
    nothing else. *)
Theorem memory_correct m dst src c n : 0 <= n ->
  moved m (memmove m dst src n) dst src n /\
  (dst <= src \/ src + n <= dst -> moved m (memcpy m dst src n) dst src n) /\
  filled m (memset m dst c n) dst (u8 c) n.
Proof.
  intros Hn. split_and!; [|by apply memcpy_moved|by apply memset_filled].
  unfold memmove. destruct (Z.eqb_spec dst src) as [->|Hne]; cbn [orb].
  { intros a. case_decide; [f_equal; lia|done]. }
  destruct (Z.eqb_spec n 0) as [->|Hn0]; [intros a; by rewrite decide_False by lia|].
  destruct (Z.ltb_spec dst src); [apply memcpy_moved; lia|].
  pose proof (copy_back_moved (Z.to_nat n) m (dst + n) (src + n) ltac:(lia)) as H'. rewrite Z2Nat.id in H' by lia.
  by replace (dst + n - n) with dst in H' by lia; replace (src + n - n) with src in H' by lia.
Qed.

(** Eleven bytes moved up by three, over themselves. *)
Definition ex_mem : bmem := st_bytes ∅ 100 (seqZ 1 11).

Lemma memory_correct_witness :
  (fun k => ld8 (memmove ex_mem 103 100 11) (103 + k)) <$> seqZ 0 11 = seqZ 1 11 /\
  (fun k => ld8 (memmove ex_mem 97 100 11) (97 + k)) <$> seqZ 0 11 = seqZ 1 11 /\
  ld8 (memmove ex_mem 103 100 11) 105 = ld8 ex_mem 102.
Proof.
  split; [vm_compute; reflexivity|]. split; [vm_compute; reflexivity|].
  destruct (memory_correct ex_mem 103 100 0 11 ltac:(lia)) as [H _]. rewrite (H 105). reflexivity.
Defined.

(** Searching and comparing strings. [strstr] returns the haystack from the first
    position where the needle occurs, and null when it occurs nowhere; the sign of [strcmp] is the
    order of the strings as sequences of bytes. *)
Theorem strings_correct h n : cstring h -> cstring n ->
  match strstr h n with
  | Some t => exists k, t = drop k h /\ n `prefix_of` drop k h /\ forall j, (j < k)%nat -> ~ n `prefix_of` drop j h
  | None => forall j, ~ n `prefix_of` drop j h
  end /\ (strcmp h n ?= 0) = lex h n.
Proof.
  intros Hh Hn. split; [|by apply strcmp_sign]. unfold strstr. destruct n as [|y n]; [|by apply strstr_loop_ok].
  exists 0%nat. split_and!; [done|apply prefix_nil|lia].
Qed.

Lemma strings_correct_witness : strstr [97; 98; 97; 98; 99] [97; 98; 99] = Some [97; 98; 99] /\
  (strcmp [97; 98; 97; 98; 99] [97; 98; 99] ?= 0) = Lt.
Proof.
  split; [vm_compute; reflexivity|].
  rewrite (proj2 (strings_correct [97; 98; 97; 98; 99] [97; 98; 99] ltac:(repeat constructor) ltac:(repeat constructor))). reflexivity.
Defined.
