(* ===== verification/Inet.v ===== *)
(** Byte order, addresses and Internet checksums, [kernel/net/inet.h],
    [kernel/net/inet.c] and the checksums of [kernel/net/udp.c] and
    [kernel/net/tcp.c].

    A packet is the list of its bytes.  A 16-bit header field is read and
    written the way x86 does, low byte first, so that the conversions of
    [inet.h] are needed where the source has them. *)
From S2P Require Import Prelude.

Definition IPPROTO_ICMP : Z := 1.
Definition IPPROTO_TCP : Z := 6.
Definition IPPROTO_UDP : Z := 17.
Definition IPV4_ALEN : Z := 4.

Definition bswap16 (value : Z) : Z := u16 (Z.lor (Z.shiftl value 8) (Z.shiftr value 8)).
Definition bswap32 (value : Z) : Z :=
  u32 (Z.lor (Z.lor (Z.lor (Z.shiftl (Z.land value 0xFF) 24) (Z.shiftl (Z.land value 0xFF00) 8))
    (Z.shiftr (Z.land value 0xFF0000) 8)) (Z.shiftr (Z.land value 0xFF000000) 24)).
Definition to_be16 (value : Z) : Z := bswap16 value.
Definition from_be16 (value : Z) : Z := bswap16 value.
Definition to_be32 (value : Z) : Z := bswap32 value.
Definition from_be32 (value : Z) : Z := bswap32 value.

(** Little-endian loads and the bytes of a little-endian store. *)
Definition le16 (b0 b1 : Z) : Z := b0 + 256 * b1.
Definition ld16 (p : list Z) (off : Z) : Z := le16 (rd p off) (rd p (off + 1)).
Definition ld32 (p : list Z) (off : Z) : Z := ld16 p off + 65536 * ld16 p (off + 2).
Definition bytes16 (v : Z) : list Z := [u8 v; u8 (Z.shiftr v 8)].

(** [(u16)~sum] on a [u32]. *)
Definition not16 (sum : Z) : Z := u16 (Z.lnot sum).

(** [while (sum >> 16) sum = (sum & 0xFFFF) + (sum >> 16)]: two rounds reduce
    any 32-bit sum, the third test ends the loop ([fold_sum_ok]). *)
Fixpoint fold_sum (fuel : nat) (sum : Z) : option Z :=
  match fuel with
  | O => None
  | S fuel => if Z.shiftr sum 16 =? 0 then Some sum else fold_sum fuel (u32 (Z.land sum 0xFFFF + Z.shiftr sum 16))
  end.

(** The words of [inet_checksum], in the order of memory; a last odd byte
    counts as the low byte. *)
Fixpoint inet_sum (bytes : list Z) (sum : Z) : Z :=
  match bytes with
  | b0 :: b1 :: rest => inet_sum rest (u32 (sum + le16 b0 b1))
  | [b0] => u32 (sum + b0)
  | [] => sum
  end.

Definition inet_checksum (data : list Z) (len : Z) : Z :=
  not16 (default 0 (fold_sum 3 (inet_sum (take (Z.to_nat len) data) 0))).

(** [udp_sum] and [tcp_sum] are the same walker: big-endian words, a last odd
    byte counts as the high byte. *)
Fixpoint be_sum (bytes : list Z) (sum : Z) : Z :=
  match bytes with
  | b0 :: b1 :: rest => be_sum rest (u32 (sum + Z.lor (Z.shiftl b0 8) b1))
  | [b0] => u32 (sum + Z.shiftl b0 8)
  | [] => sum
  end.
Definition udp_sum (p : list Z) (len sum : Z) : Z := be_sum (take (Z.to_nat len) p) sum.
Definition tcp_sum (p : list Z) (len sum : Z) : Z := be_sum (take (Z.to_nat len) p) sum.

Definition udp_pseudo_header (src_ip dst_ip : list Z) (seg_len : Z) : list Z :=
  src_ip ++ dst_ip ++ [0; IPPROTO_UDP] ++ bytes16 (to_be16 seg_len).
Definition udp_checksum (src_ip dst_ip hdr : list Z) (seg_len : Z) : Z :=
  let sum := udp_sum (udp_pseudo_header src_ip dst_ip seg_len) 12 0 in
  let sum := udp_sum hdr seg_len sum in
  not16 (default 0 (fold_sum 3 sum)).

Definition tcp_pseudo_header (src_ip dst_ip : list Z) (seg_len : Z) : list Z :=
  src_ip ++ dst_ip ++ [0; IPPROTO_TCP] ++ bytes16 (to_be16 seg_len).
Definition tcp_checksum (src_ip dst_ip hdr : list Z) (seg_len : Z) : Z :=
  let sum := tcp_sum (tcp_pseudo_header src_ip dst_ip seg_len) 12 0 in
  let sum := tcp_sum hdr seg_len sum in
  not16 (default 0 (fold_sum 3 sum)).

(** ** Addresses: four bytes *)
Definition ipv4_addr_equal (a b : list Z) : bool :=
  (rd a 0 =? rd b 0) && (rd a 1 =? rd b 1) && (rd a 2 =? rd b 2) && (rd a 3 =? rd b 3).
Definition ipv4_addr_is_zero (a : list Z) : bool := Z.lor (Z.lor (Z.lor (rd a 0) (rd a 1)) (rd a 2)) (rd a 3) =? 0.

Definition ipv4_is_broadcast (addr ip mask : list Z) : bool :=
  forallb (fun i =>
    (u8 (Z.lor (rd addr i) (rd mask i)) =? 0xFF) && (u8 (Z.land (rd ip i) (rd mask i)) =? u8 (Z.land (rd addr i) (rd mask i))))
    [0; 1; 2; 3].
Definition ipv4_same_subnet (a b mask : list Z) : bool :=
  forallb (fun i => u8 (Z.land (rd a i) (rd mask i)) =? u8 (Z.land (rd b i) (rd mask i))) [0; 1; 2; 3].
