(* ===== verification/InetSpec.v ===== *)
(** The Internet checksum: the loops of [kernel/net/inet.c], [udp.c] and
    [tcp.c] compute the ones' complement sum of RFC 1071, in either byte
    order, and a stored checksum makes the data verify. *)
From S2P Require Import Prelude.
From S2P Require Import Inet.

Definition bytes_ok (l : list Z) : Prop := Forall is_u8 l.
Definition is_u16 (x : Z) : Prop := 0 <= x < 2 ^ 16.

(** ** Words and byte order *)

Lemma shiftr8 v : Z.shiftr v 8 = v / 256.
Proof. by rewrite Z.shiftr_div_pow2 by lia. Qed.

Lemma bytes16_le v : is_u16 v -> exists a b, bytes16 v = [a; b] /\ is_u8 a /\ is_u8 b /\ v = le16 a b.
Proof.
  unfold is_u16, is_u8, bytes16, u8, le16. rewrite shiftr8. intros Hv. exists (v mod 2 ^ 8), ((v / 256) mod 2 ^ 8).
  change (2 ^ 8) with 256. change (2 ^ 16) with 65536 in Hv. pose proof (Z.mod_pos_bound v 256).
  pose proof (Z.div_mod v 256). pose proof (Z.mod_pos_bound (v / 256) 256).
  assert ((v / 256) mod 256 = v / 256) as E; [apply Z.mod_small; split; [apply Z.div_pos|apply Z.div_lt_upper_bound]; lia|].
  rewrite E in *. split_and!; try done; lia.
Qed.

Lemma bytes16_of a b : is_u8 a -> is_u8 b -> bytes16 (le16 a b) = [a; b].
Proof.
  unfold is_u8, bytes16, u8, le16. change (2 ^ 8) with 256. rewrite shiftr8. intros.
  replace (a + 256 * b) with (a + b * 256) by lia. rewrite Z.mod_add, Z.div_add by lia.
  rewrite (Z.mod_small a), (Z.div_small a) by lia. by rewrite Z.mod_small by lia.
Qed.

Lemma le16_range a b : is_u8 a -> is_u8 b -> is_u16 (le16 a b).
Proof. unfold is_u8, is_u16, le16. change (2 ^ 8) with 256. change (2 ^ 16) with 65536. lia. Qed.

Lemma be_word a b : is_u8 a -> is_u8 b -> Z.lor (Z.shiftl a 8) b = le16 b a.
Proof.
  unfold is_u8, le16. intros. rewrite Z.shiftl_mul_pow2 by lia.
  rewrite (lor_add _ _ 8); [change (2 ^ 8) with 256; lia|lia|by apply Z.mod_mul|done].
Qed.

Lemma bswap16_le a b : is_u8 a -> is_u8 b -> bswap16 (le16 a b) = le16 b a.
Proof.
  intros Ha Hb. pose proof (le16_range b a Hb Ha) as Hr. unfold bswap16, is_u16 in *.
  rewrite shiftr8. assert (le16 a b / 256 = b) as ->.
  { unfold le16, is_u8 in *. change (2 ^ 8) with 256 in *. rewrite (Z.mul_comm 256), Z.div_add, Z.div_small by lia. lia. }
  assert (Z.lor (Z.shiftl (le16 a b) 8) b = le16 b a + b * 2 ^ 16) as ->.
  { unfold le16, is_u8 in *. rewrite Z.shiftl_mul_pow2 by lia. rewrite (lor_add _ _ 8); [|lia|by apply Z.mod_mul|done].
    change (2 ^ 8) with 256. change (2 ^ 16) with 65536. lia. }
  unfold u16. rewrite Z.mod_add by lia. by apply Z.mod_small.
Qed.

Lemma u16_bytes v : is_u16 v -> exists a b, is_u8 a /\ is_u8 b /\ v = le16 a b.
Proof. intros H. destruct (bytes16_le v H) as (a & b & _ & ? & ? & ?). by exists a, b. Qed.

Lemma bswap16_range v : is_u16 (bswap16 v).
Proof. apply Z.mod_pos_bound. lia. Qed.

Lemma bswap16_invol v : is_u16 v -> bswap16 (bswap16 v) = v.
Proof. intros H. destruct (u16_bytes v H) as (a & b & ? & ? & ->). by rewrite !bswap16_le. Qed.

(** Swapping the bytes multiplies by 256 modulo 65535. *)
Lemma bswap16_mod v : is_u16 v -> exists k, bswap16 v = 256 * v + 65535 * k.
Proof.
  intros H. destruct (u16_bytes v H) as (a & b & Ha & Hb & ->). rewrite bswap16_le by done.
  exists (- b). unfold le16. lia.
Qed.

(** ** Sums of words *)
Fixpoint wsum (l : list Z) : Z :=
  match l with
  | a :: b :: l => le16 a b + wsum l
  | [a] => a
  | [] => 0
  end.
Fixpoint wsum_be (l : list Z) : Z :=
  match l with
  | a :: b :: l => le16 b a + wsum_be l
  | [a] => 256 * a
  | [] => 0
  end.

Lemma pair_ind (P : list Z -> Prop) :
  P [] -> (forall a, P [a]) -> (forall a b l, P l -> P (a :: b :: l)) -> forall l, P l.
Proof.
  intros H0 H1 H2 l. assert (P l /\ forall a, P (a :: l)) as [H _]; [|exact H].
  induction l as [|x l [IH1 IH2]]; split; auto.
Qed.

Lemma wsum_bound l : bytes_ok l -> 0 <= wsum l <= 65535 * zlen l /\ 0 <= wsum_be l <= 65535 * zlen l.
Proof.
  unfold bytes_ok, is_u8, zlen, le16. change (2 ^ 8) with 256. induction l as [|a|a b l IH] using pair_ind; intros H.
  - simpl. lia.
  - inversion_clear H. simpl. lia.
  - inversion_clear H as [|?? Ha H']. inversion_clear H' as [|?? Hb Hl]. destruct (IH Hl). cbn [wsum wsum_be length]. unfold le16. lia.
Qed.

Lemma wsum_app l1 l2 : Z.Even (zlen l1) -> wsum (l1 ++ l2) = wsum l1 + wsum l2 /\ wsum_be (l1 ++ l2) = wsum_be l1 + wsum_be l2.
Proof.
  unfold zlen. induction l1 as [|a|a b l IH] using pair_ind; intros [k H].
  - done.
  - simpl in H. lia.
  - destruct IH as [E1 E2]; [exists (k - 1); cbn [length] in H; lia|]. cbn [app wsum wsum_be]. rewrite E1, E2. lia.
Qed.

Lemma wsum_bytes16 v : is_u16 v -> wsum (bytes16 v) = v /\ wsum_be (bytes16 v) = bswap16 v.
Proof.
  intros H. destruct (bytes16_le v H) as (a & b & -> & Ha & Hb & ->). cbn [wsum wsum_be]. rewrite bswap16_le by done. lia.
Qed.

Lemma wsum_swap l : bytes_ok l -> exists k, wsum_be l = 256 * wsum l + 65535 * k.
Proof.
  unfold bytes_ok. induction l as [|a|a b l IH] using pair_ind; intros H.
  - exists 0. done.
  - exists 0. simpl. lia.
  - inversion_clear H as [|?? Ha H']. inversion_clear H' as [|?? Hb Hl]. destruct (IH Hl) as [k E].
    exists (k - b). cbn [wsum wsum_be]. rewrite E. unfold le16. lia.
Qed.

Lemma wsum_zero l : bytes_ok l -> wsum l = 0 <-> wsum_be l = 0.
Proof.
  unfold bytes_ok, is_u8. induction l as [|a|a b l IH] using pair_ind; intros H.
  - done.
  - inversion_clear H. simpl. lia.
  - inversion_clear H as [|?? Ha H']. inversion_clear H' as [|?? Hb Hl]. specialize (IH Hl).
    destruct (wsum_bound l Hl). cbn [wsum wsum_be]. unfold le16. lia.
Qed.

(** The wrap-around of the 32-bit accumulator is not reached. *)
Lemma inet_sum_exact l : forall sum, bytes_ok l -> 0 <= sum -> sum + 65535 * zlen l < 2 ^ 32 -> inet_sum l sum = sum + wsum l.
Proof.
  unfold bytes_ok. induction l as [|a|a b l IH] using pair_ind; intros sum H H0 Hs; unfold zlen in *; cbn [inet_sum wsum length] in *.
  - lia.
  - inversion_clear H as [|?? Ha]. unfold is_u8 in Ha. change (2 ^ 8) with 256 in Ha. apply u32_small. lia.
  - inversion_clear H as [|?? Ha H']. inversion_clear H' as [|?? Hb Hl]. pose proof (le16_range a b Ha Hb) as Hr.
    unfold is_u16 in Hr. change (2 ^ 16) with 65536 in Hr. rewrite u32_small by lia. rewrite IH; [lia|done|lia|lia].
Qed.

Lemma be_sum_exact l : forall sum, bytes_ok l -> 0 <= sum -> sum + 65535 * zlen l < 2 ^ 32 -> be_sum l sum = sum + wsum_be l.
Proof.
  unfold bytes_ok. induction l as [|a|a b l IH] using pair_ind; intros sum H H0 Hs; unfold zlen in *; cbn [be_sum wsum_be length] in *.
  - lia.
  - inversion_clear H as [|?? Ha]. unfold is_u8 in Ha. change (2 ^ 8) with 256 in Ha.
    rewrite Z.shiftl_mul_pow2 by lia. change (2 ^ 8) with 256. rewrite u32_small by lia. lia.
  - inversion_clear H as [|?? Ha H']. inversion_clear H' as [|?? Hb Hl]. pose proof (le16_range b a Hb Ha) as Hr.
    unfold is_u16 in Hr. change (2 ^ 16) with 65536 in Hr. rewrite be_word by done. rewrite u32_small by lia. rewrite IH; [lia|done|lia|lia].
Qed.

(** ** The ones' complement sum

    The representative in [1, 65535] modulo 65535, except that 0 stays 0. *)
Definition ones (s : Z) : Z := if s =? 0 then 0 else 1 + (s - 1) mod 65535.

Lemma ones_range s : 0 <= ones s <= 65535.
Proof. unfold ones. pose proof (Z.mod_pos_bound (s - 1) 65535). destruct (s =? 0); lia. Qed.

Lemma ones_cong s : 0 <= s -> exists k, s = ones s + 65535 * k /\ 0 <= k.
Proof.
  intros Hs. unfold ones. destruct (Z.eqb_spec s 0); [exists 0; lia|]. exists ((s - 1) / 65535).
  pose proof (Z.div_mod (s - 1) 65535). split; [lia|]. apply Z.div_pos; lia.
Qed.

Lemma ones_zero s : 0 <= s -> ones s = 0 <-> s = 0.
Proof. intros. unfold ones. pose proof (Z.mod_pos_bound (s - 1) 65535). destruct (Z.eqb_spec s 0); lia. Qed.

(** Positive sums that agree modulo 65535 have the same ones' complement sum. *)
Lemma ones_eq s t k : 0 < s -> 0 < t -> s = t + 65535 * k -> ones s = ones t.
Proof.
  intros. unfold ones. rewrite !(proj2 (Z.eqb_neq _ 0)) by lia. f_equal.
  replace (s - 1) with (t - 1 + k * 65535) by lia. by rewrite Z.mod_add.
Qed.

Lemma ones_full s : 0 < s -> ones s = 65535 <-> s mod 65535 = 0.
Proof.
  intros Hs. destruct (ones_cong s) as (k & E & _); [lia|]. pose proof (ones_range s). pose proof (ones_zero s).
  assert (s mod 65535 = ones s mod 65535) as Em by (rewrite E at 1; by rewrite (Z.mul_comm 65535), Z.mod_add by lia).
  rewrite Em. split; [by intros ->|]. intros Hm. destruct (Z.eq_dec (ones s) 65535); [done|]. rewrite Z.mod_small in Hm by lia. lia.
Qed.

Lemma fold_round s : 0 <= s < 2 ^ 32 -> u32 (Z.land s 0xFFFF + Z.shiftr s 16) = s - 65535 * (s / 65536) /\ 0 <= s / 65536 < 65536.
Proof.
  intros Hs. change (Z.land s 0xFFFF) with (Z.land s (Z.ones 16)). rewrite Z.land_ones, Z.shiftr_div_pow2 by lia. change (2 ^ 16) with 65536.
  assert (0 <= s / 65536 < 65536) as Hd.
  { split; [apply Z.div_pos; lia|apply Z.div_lt_upper_bound; [lia|]]. change (2 ^ 32) with 4294967296 in Hs. lia. }
  pose proof (Z.mod_pos_bound s 65536). pose proof (Z.div_mod s 65536). rewrite u32_small; lia.
Qed.

Lemma ones_fold s : 65536 <= s -> ones (s - 65535 * (s / 65536)) = ones s.
Proof.
  intros Hs. pose proof (Z.div_mod s 65536). pose proof (Z.mod_pos_bound s 65536).
  assert (1 <= s / 65536) by (apply Z.div_le_lower_bound; lia).
  apply ones_eq with (k := - (s / 65536)); lia.
Qed.

Lemma ones_small s : 0 <= s < 65536 -> ones s = s.
Proof. intros. unfold ones. destruct (Z.eqb_spec s 0); [done|]. rewrite Z.mod_small; lia. Qed.

Lemma fold_step fuel s : 0 <= s < 2 ^ 32 ->
  fold_sum (S fuel) s = if decide (s < 65536) then Some (ones s) else fold_sum fuel (s - 65535 * (s / 65536)).
Proof.
  intros Hs. cbn [fold_sum]. destruct (fold_round s Hs) as [-> Hd]. rewrite Z.shiftr_div_pow2 by lia. change (2 ^ 16) with 65536.
  case_decide as Hc.
  - rewrite Z.div_small by lia. simpl. by rewrite ones_small by lia.
  - rewrite (proj2 (Z.eqb_neq _ 0)); [done|]. assert (1 <= s / 65536) by (apply Z.div_le_lower_bound; lia). lia.
Qed.

(** Three tests of the loop condition end the folding of any 32-bit sum. *)
Lemma fold_sum_ok s : 0 <= s < 2 ^ 32 -> fold_sum 3 s = Some (ones s).
Proof.
  intros Hs. destruct (fold_round s Hs) as [_ Hd]. pose proof (Z.div_mod s 65536). pose proof (Z.mod_pos_bound s 65536).
  rewrite fold_step by done. case_decide; [done|]. rewrite <-(ones_fold s) by lia. set (t := s - 65535 * (s / 65536)).
  assert (Ht : 0 <= t <= 131070) by (unfold t; lia). rewrite fold_step by (change (2 ^ 32) with 4294967296; lia).
  case_decide; [done|]. pose proof (Z.div_mod t 65536). pose proof (Z.mod_pos_bound t 65536).
  assert (t / 65536 = 1) as E by (symmetry; apply (Z.div_unique _ _ 1 (t - 65536)); lia).
  rewrite <-(ones_fold t) by lia. rewrite E in *. rewrite fold_step by (change (2 ^ 32) with 4294967296; lia).
  by rewrite decide_True by lia.
Qed.

Lemma not16_sub x : is_u16 x -> not16 x = 65535 - x.
Proof.
  unfold is_u16, not16, u16. intros Hx. unfold Z.lnot. replace (Z.pred (- x)) with (65535 - x + (-1) * 2 ^ 16) by (change (2 ^ 16) with 65536; lia).
  rewrite Z.mod_add by lia. apply Z.mod_small. lia.
Qed.

Lemma not16_fold s : 0 <= s < 2 ^ 32 -> not16 (default 0 (fold_sum 3 s)) = 65535 - ones s.
Proof.
  intros Hs. rewrite fold_sum_ok by done. pose proof (ones_range s). apply not16_sub. unfold is_u16. change (2 ^ 16) with 65536. lia.
Qed.

(** ** The checksums *)
Lemma bytes_ok_take n l : bytes_ok l -> bytes_ok (take n l).
Proof. apply Forall_take. Qed.

Lemma inet_checksum_spec data : bytes_ok data -> zlen data <= 65536 -> inet_checksum data (zlen data) = 65535 - ones (wsum data).
Proof.
  intros H Hl. unfold inet_checksum, zlen in *. rewrite Nat2Z.id, firstn_all. destruct (wsum_bound data H) as [Hb _]. unfold zlen in Hb.
  change (2 ^ 32) with 4294967296 in *.
  rewrite inet_sum_exact by (done || unfold zlen; change (2 ^ 32) with 4294967296; lia). apply not16_fold. change (2 ^ 32) with 4294967296. lia.
Qed.

(** A 16-bit word at an even offset. *)
Definition with_word (l1 : list Z) (c : Z) (l2 : list Z) : list Z := l1 ++ bytes16 c ++ l2.

Lemma bytes16_ok c : bytes_ok (bytes16 c).
Proof. repeat constructor; apply u8_range. Qed.

Lemma with_word_ok l1 c l2 : bytes_ok l1 -> bytes_ok l2 -> bytes_ok (with_word l1 c l2).
Proof. intros. apply Forall_app. split; [done|]. apply Forall_app. split; [apply bytes16_ok|done]. Qed.

Lemma with_word_len l1 c l2 : zlen (with_word l1 c l2) = zlen l1 + 2 + zlen l2.
Proof. unfold with_word, zlen. rewrite !length_app. change (length (bytes16 c)) with 2%nat. lia. Qed.

Lemma with_word_sum l1 c l2 : Z.Even (zlen l1) -> is_u16 c ->
  wsum (with_word l1 c l2) = wsum l1 + wsum l2 + c /\ wsum_be (with_word l1 c l2) = wsum_be l1 + wsum_be l2 + bswap16 c.
Proof.
  intros He Hc. unfold with_word. destruct (wsum_app l1 (bytes16 c ++ l2) He) as [-> ->].
  destruct (wsum_app (bytes16 c) l2) as [-> ->]; [by exists 1|]. destruct (wsum_bytes16 c Hc) as [-> ->]. lia.
Qed.

Section stored.
Context (l1 l2 : list Z).
Hypothesis Heven : Z.Even (zlen l1).
Hypothesis H1 : bytes_ok l1.
Hypothesis H2 : bytes_ok l2.
Hypothesis Hlen : zlen l1 + 2 + zlen l2 <= 65536.

Lemma word_checksum c : is_u16 c ->
  inet_checksum (with_word l1 c l2) (zlen l1 + 2 + zlen l2) = 65535 - ones (wsum l1 + wsum l2 + c).
Proof using All.
  intros Hc. rewrite <-(with_word_len l1 c l2), inet_checksum_spec; [|by apply with_word_ok|by rewrite with_word_len].
  by rewrite (proj1 (with_word_sum l1 c l2 Heven Hc)).
Qed.

(** Data with its checksum stored sums to zero. *)
Lemma checksum_verifies : let n := zlen l1 + 2 + zlen l2 in
  inet_checksum (with_word l1 (inet_checksum (with_word l1 0 l2) n) l2) n = 0.
Proof using All.
  intros n. unfold n. destruct (wsum_bound l1 H1) as [? _]. destruct (wsum_bound l2 H2) as [? _].
  rewrite (word_checksum 0) by (split; done). pose proof (ones_range (wsum l1 + wsum l2 + 0)) as Hr.
  rewrite word_checksum by (unfold is_u16; change (2 ^ 16) with 65536; lia). rewrite Z.add_0_r in *.
  set (s := wsum l1 + wsum l2) in *. destruct (ones_cong s) as (k & E & Hk); [lia|].
  enough (ones (s + (65535 - ones s)) = 65535) by lia. rewrite E at 1. apply ones_full; [lia|].
  replace (ones s + 65535 * k + (65535 - ones s)) with ((k + 1) * 65535) by lia. by apply Z.mod_mul.
Qed.

(** Two words that both make the data verify agree modulo 65535. *)
Lemma checksum_detects w w' : let n := zlen l1 + 2 + zlen l2 in
  is_u16 w -> is_u16 w' -> inet_checksum (with_word l1 w l2) n = 0 -> inet_checksum (with_word l1 w' l2) n = 0 ->
  (w' - w) mod 65535 = 0.
Proof using All.
  intros n Hw Hw'. unfold n. rewrite !word_checksum by done. destruct (wsum_bound l1 H1) as [? _]. destruct (wsum_bound l2 H2) as [? _].
  unfold is_u16 in *. set (s := wsum l1 + wsum l2) in *. intros E E'.
  destruct (ones_cong (s + w)) as (k & Ek & _); [lia|]. destruct (ones_cong (s + w')) as (k' & Ek' & _); [lia|].
  replace (w' - w) with ((k' - k) * 65535) by lia. by apply Z.mod_mul.
Qed.
End stored.

(** The big-endian walkers compute the same checksum with its bytes swapped. *)
Lemma ones_swap s t k : 0 <= s -> 0 <= t -> (s = 0 <-> t = 0) -> t = 256 * s + 65535 * k -> ones t = bswap16 (ones s).
Proof.
  intros Hs Ht Hz E. destruct (Z.eq_dec s 0) as [->|Hn]; [rewrite (proj1 Hz eq_refl); done|].
  destruct (ones_cong s) as (j & Ej & _); [lia|]. pose proof (ones_range s) as Hr. pose proof (ones_zero s).
  assert (Hw : is_u16 (ones s)) by (unfold is_u16; change (2 ^ 16) with 65536; lia).
  destruct (bswap16_mod (ones s) Hw) as [i Ei]. pose proof (bswap16_range (ones s)) as Hb. unfold is_u16 in Hb. change (2 ^ 16) with 65536 in Hb.
  assert (bswap16 (ones s) <> 0).
  { intros E0. apply (f_equal bswap16) in E0. rewrite bswap16_invol in E0 by done. change (bswap16 0) with 0 in E0. lia. }
  rewrite <-(ones_small (bswap16 (ones s))) by lia. apply ones_eq with (k := 256 * j + k - i); lia.
Qed.

Lemma bswap16_compl v : is_u16 v -> bswap16 (65535 - v) = 65535 - bswap16 v.
Proof.
  intros H. destruct (u16_bytes v H) as (a & b & Ha & Hb & ->). rewrite (bswap16_le a b) by done.
  unfold is_u8 in *. change (2 ^ 8) with 256 in *. replace (65535 - le16 a b) with (le16 (255 - a) (255 - b)) by (unfold le16; lia).
  rewrite bswap16_le by (unfold is_u8; change (2 ^ 8) with 256; lia). unfold le16. lia.
Qed.

Lemma checksum_swap data : bytes_ok data -> zlen data <= 65536 ->
  65535 - ones (wsum_be data) = bswap16 (inet_checksum data (zlen data)).
Proof.
  intros H Hl. rewrite inet_checksum_spec by done. destruct (wsum_bound data H) as [? ?]. destruct (wsum_swap data H) as [k E].
  pose proof (ones_range (wsum data)). rewrite bswap16_compl by (unfold is_u16; change (2 ^ 16) with 65536; lia).
  rewrite (ones_swap (wsum data) (wsum_be data) k); [done|lia|lia|by apply wsum_zero|done].
Qed.

(** What is checksummed with a UDP or TCP segment. *)
Definition pseudo (proto : Z) (src_ip dst_ip : list Z) (seg_len : Z) : list Z :=
  src_ip ++ dst_ip ++ [0; proto] ++ bytes16 (to_be16 seg_len).

Lemma pseudo_len proto src dst n : length src = 4%nat -> length dst = 4%nat -> zlen (pseudo proto src dst n) = 12.
Proof. intros Hs Hd. unfold pseudo, zlen. rewrite !length_app, Hs, Hd. done. Qed.

Lemma pseudo_ok proto src dst n : is_u8 proto -> bytes_ok src -> bytes_ok dst -> bytes_ok (pseudo proto src dst n).
Proof.
  intros. apply Forall_app. split; [done|]. apply Forall_app. split; [done|].
  constructor; [unfold is_u8; lia|]. constructor; [done|]. apply bytes16_ok.
Qed.

(** [udp_checksum] and [tcp_checksum] share this computation. *)
Definition be_checksum (ph seg : list Z) (len : Z) : Z :=
  not16 (default 0 (fold_sum 3 (be_sum (take (Z.to_nat len) seg) (be_sum (take 12 ph) 0)))).

Lemma be_checksum_spec ph seg len : bytes_ok ph -> bytes_ok seg -> zlen ph = 12 -> 0 <= len <= zlen seg -> len <= 65520 ->
  be_checksum ph seg len = 65535 - ones (wsum_be (ph ++ take (Z.to_nat len) seg)).
Proof.
  intros Hp Hs Hpl Hl Hm. unfold be_checksum. assert (take 12 ph = ph) as -> by (apply take_ge; unfold zlen in Hpl; lia).
  pose proof (bytes_ok_take (Z.to_nat len) seg Hs) as Ht.
  assert (zlen (take (Z.to_nat len) seg) = len) as El by (unfold zlen in *; rewrite length_take; lia).
  destruct (wsum_bound ph Hp) as [_ Hb1]. destruct (wsum_bound _ Ht) as [_ Hb2]. rewrite El in *. rewrite Hpl in *.
  rewrite !be_sum_exact; rewrite ?be_sum_exact; try done; try lia.
  rewrite (proj2 (wsum_app ph _ ltac:(rewrite Hpl; by exists 6))).
  rewrite not16_fold by lia. f_equal.
Qed.

Lemma be_checksum_swap ph seg len : bytes_ok ph -> bytes_ok seg -> zlen ph = 12 -> 0 <= len <= zlen seg -> len <= 65520 ->
  be_checksum ph seg len = bswap16 (inet_checksum (ph ++ take (Z.to_nat len) seg) (12 + len)).
Proof.
  intros Hp Hs Hpl Hl Hm. rewrite be_checksum_spec by done.
  assert (zlen (ph ++ take (Z.to_nat len) seg) = 12 + len) as El by (unfold zlen in *; rewrite length_app, length_take; lia).
  rewrite <-El. apply checksum_swap; [|lia]. apply Forall_app. split; [done|by apply bytes_ok_take].
Qed.

(** ** A checksum field inside a UDP or TCP segment *)
Section stored_be.
Context (ph l1 l2 : list Z).
Hypothesis Heven : Z.Even (zlen l1).
Hypothesis Hph : bytes_ok ph.
Hypothesis Hlph : zlen ph = 12.
Hypothesis H1 : bytes_ok l1.
Hypothesis H2 : bytes_ok l2.
Hypothesis Hlen : zlen l1 + 2 + zlen l2 <= 65520.
Hypothesis Hpos : 0 < wsum_be ph.

Let n := zlen l1 + 2 + zlen l2.
Let s := wsum_be ph + wsum_be l1 + wsum_be l2.

Lemma be_word_checksum c : is_u16 c -> be_checksum ph (with_word l1 c l2) n = 65535 - ones (s + bswap16 c).
Proof using Heven Hph Hlph H1 H2 Hlen.
  intros Hc. pose proof (with_word_len l1 c l2) as El. fold n in El. unfold zlen in El.
  rewrite be_checksum_spec; [|done|by apply with_word_ok|done|unfold n, zlen in *; lia|unfold n in *; lia].
  rewrite <-El, Nat2Z.id, firstn_all. rewrite (proj2 (wsum_app ph _ ltac:(rewrite Hlph; by exists 6))).
  rewrite (proj2 (with_word_sum l1 c l2 Heven Hc)). f_equal. f_equal. unfold s. lia.
Qed.

Let c0 := be_checksum ph (with_word l1 0 l2) n.

Lemma be_sums : 0 < s /\ is_u16 c0 /\ c0 < 65535 /\ exists k, s = 65535 - c0 + 65535 * k.
Proof using Heven Hph Hlph H1 H2 Hlen Hpos.
  destruct (wsum_bound l1 H1) as [_ ?]. destruct (wsum_bound l2 H2) as [_ ?].
  assert (0 < s) as Hs by (unfold s; lia). assert (c0 = 65535 - ones s) as E.
  { unfold c0. rewrite be_word_checksum by (split; done). change (bswap16 0) with 0. by rewrite Z.add_0_r. }
  pose proof (ones_range s). pose proof (ones_zero s). rewrite E. unfold is_u16. change (2 ^ 16) with 65536.
  destruct (ones_cong s) as (k & Ek & _); [lia|]. split_and!; try lia. exists k. lia.
Qed.

(** A segment verifies exactly when its field, swapped, is the checksum modulo 65535. *)
Lemma be_verifies c : is_u16 c -> be_checksum ph (with_word l1 c l2) n = 0 <-> (bswap16 c - c0) mod 65535 = 0.
Proof using Heven Hph Hlph H1 H2 Hlen Hpos.
  intros Hc. rewrite be_word_checksum by done. destruct be_sums as (Hs & _ & _ & k & Ek).
  pose proof (bswap16_range c) as Hb. unfold is_u16 in Hb. rewrite (Z.sub_move_r 65535), Z.add_0_l.
  assert (65535 = ones (s + bswap16 c) <-> ones (s + bswap16 c) = 65535) as -> by (split; congruence).
  rewrite ones_full by lia. replace (s + bswap16 c) with (bswap16 c - c0 + (k + 1) * 65535) by lia. by rewrite Z.mod_add by lia.
Qed.

(** Converted to wire order the checksum verifies. *)
Lemma be_stored_swapped : be_checksum ph (with_word l1 (bswap16 c0) l2) n = 0.
Proof using Heven Hph Hlph H1 H2 Hlen Hpos.
  destruct be_sums as (_ & Hc & _). apply be_verifies; [apply bswap16_range|]. by rewrite bswap16_invol, Z.sub_diag by done.
Qed.

(** Stored as it is, it verifies only when its two bytes are equal. *)
Lemma be_stored_raw : be_checksum ph (with_word l1 c0 l2) n = 0 <-> bswap16 c0 = c0.
Proof using Heven Hph Hlph H1 H2 Hlen Hpos.
  destruct be_sums as (_ & Hc & Hlt & _). rewrite be_verifies by done. split; [|by intros ->; rewrite Z.sub_diag].
  pose proof (bswap16_range c0) as Hb. unfold is_u16 in *. change (2 ^ 16) with 65536 in *.
  assert (bswap16 c0 <> 65535).
  { intros E. apply (f_equal bswap16) in E. rewrite bswap16_invol in E by done. change (bswap16 65535) with 65535 in E. lia. }
  intros Hm. apply Z.mod_divide in Hm as [j Hj]; lia.
Qed.
End stored_be.

(** ** Properties *)

(** C29: the Internet checksum. [inet_checksum] is the complement of the ones'
    complement sum of the 16-bit words of the data (RFC 1071), and no 32-bit
    overflow or further folding round is possible for up to 64 KiB; data in which the
    checksum has been stored, as it is, at an even offset sums to zero; a
    change of any one 16-bit word of such data is detected unless it
    exchanges 0x0000 and 0xFFFF; and the big-endian walkers of UDP and
    TCP give the same checksum with its bytes swapped. *)
Theorem inet_checksum_correct l1 l2 : Z.Even (zlen l1) -> bytes_ok l1 -> bytes_ok l2 -> zlen l1 + 2 + zlen l2 <= 65520 ->
  let n := zlen l1 + 2 + zlen l2 in
  let c := inet_checksum (with_word l1 0 l2) n in
  c = 65535 - ones (wsum (with_word l1 0 l2)) /\
  inet_checksum (with_word l1 c l2) n = 0 /\
  (forall w w', is_u16 w -> is_u16 w' -> inet_checksum (with_word l1 w l2) n = 0 -> inet_checksum (with_word l1 w' l2) n = 0 ->
     w' = w \/ w = 0 /\ w' = 65535 \/ w = 65535 /\ w' = 0) /\
  (forall src dst, bytes_ok src -> bytes_ok dst -> length src = 4%nat -> length dst = 4%nat ->
     let seg := with_word l1 0 l2 in
     udp_checksum src dst seg n = bswap16 (inet_checksum (udp_pseudo_header src dst n ++ seg) (12 + n)) /\
     tcp_checksum src dst seg n = bswap16 (inet_checksum (tcp_pseudo_header src dst n ++ seg) (12 + n))).
Proof.
  intros He H1 H2 Hl n c. pose proof (with_word_len l1 0 l2) as El. pose proof (with_word_ok l1 0 l2 H1 H2) as Hok. split_and!.
  - unfold c, n. rewrite <-El. apply inet_checksum_spec; [done|lia].
  - apply checksum_verifies; done || lia.
  - intros w w' Hw Hw' E E'. pose proof (checksum_detects l1 l2 He H1 H2 ltac:(lia) w w' Hw Hw' E E') as Hm.
    unfold is_u16 in *. change (2 ^ 16) with 65536 in *. apply Z.mod_divide in Hm as [j Hj]; lia.
  - intros src dst Hs Hd Ls Ld seg. assert (take (Z.to_nat n) seg = seg) as Et by (apply take_ge; unfold n, seg, zlen in *; lia).
    assert (Hn : 0 <= n <= zlen seg) by (unfold n, seg, zlen in *; lia).
    pose proof (fun p Hp => be_checksum_swap (pseudo p src dst n) seg n (pseudo_ok p src dst n Hp Hs Hd) Hok (pseudo_len p src dst n Ls Ld) Hn Hl) as G.
    rewrite Et in G. split; apply G; unfold is_u8; change (2 ^ 8) with 256; unfold IPPROTO_UDP, IPPROTO_TCP; lia.
Qed.

(** The 20-byte header of a packet from 192.168.0.1 to 192.168.0.199. *)
Definition ex_hdr1 : list Z := [0x45; 0; 0; 0x73; 0; 0; 0x40; 0; 0x40; 0x11].
Definition ex_hdr2 : list Z := [0xC0; 0xA8; 0; 0x01; 0xC0; 0xA8; 0; 0xC7].

Lemma ex_hdr_ok : bytes_ok ex_hdr1 /\ bytes_ok ex_hdr2.
Proof. unfold bytes_ok, ex_hdr1, ex_hdr2, is_u8. change (2 ^ 8) with 256. split; repeat (constructor; [lia|]); constructor. Qed.

Lemma inet_checksum_correct_witness :
  inet_checksum (with_word ex_hdr1 0 ex_hdr2) 20 = 0x61B8 /\ inet_checksum (with_word ex_hdr1 0x61B8 ex_hdr2) 20 = 0.
Proof.
  destruct (inet_checksum_correct ex_hdr1 ex_hdr2) as (_ & H & _).
  - by exists 5.
  - apply ex_hdr_ok.
  - apply ex_hdr_ok.
  - vm_compute. discriminate.
  - split; [vm_compute; reflexivity|exact H].
Defined.
