(* ===== verification/Alloc.v ===== *)
(** The interface between the kernel heap and its clients.

    [AllocOps] lists what [kernel/memory/heap.h] offers; [AllocLaws] states
    what a client may rely on, in terms of the set of live allocations: a new
    pointer is non-null and not live yet, a failed request changes nothing,
    and freeing a live pointer removes exactly that one.  The instance shows
    that the heap of [Heap] satisfies them, over any page-table layer. *)
From S2P Require Import Prelude.
From S2P Require Import Paging.
From S2P Require Import Heap.
From S2P Require Import HeapSpec.

Class AllocOps (A : Type) := {
  al_malloc : A -> Z -> Z * A;       (* kmalloc: 0 on failure *)
  al_free : A -> Z -> A;             (* kfree *)
  al_wf : A -> gset Z -> Prop;       (* the heap is sound and exactly these pointers are live *)
}.

Class AllocLaws (A : Type) `{!AllocOps A} := {
  al_malloc_ok a L n p a' : al_wf a L -> 0 <= n <= 2 ^ 64 - 16 -> al_malloc a n = (p, a') ->
    (p = 0 /\ al_wf a' L) \/ (p <> 0 /\ (p ∉ L) /\ al_wf a' ({[p]} ∪ L));
  al_malloc_zero a : al_malloc a 0 = (0, a);
  al_free_ok a L p : al_wf a L -> p ∈ L -> al_wf (al_free a p) (L ∖ {[p]});
  al_nonnull a L : al_wf a L -> 0 ∉ L;
}.

(** ** The kernel heap is an allocator *)
Record kheap (S : Type) := KHeap { kh_pg : S; kh_cr3 : Z; kh_heap : heap }.
Arguments KHeap {S}.
Arguments kh_pg {S}.
Arguments kh_cr3 {S}.
Arguments kh_heap {S}.

Section instance.
Context {S : Type} `{!PagingOps S, !PagingLaws S}.

Definition ptrs (l : list seg) : gset Z := list_to_set (live l).*1.

#[export] Instance kheap_ops : AllocOps (kheap S) := {|
  al_malloc a n :=
    match kmalloc (kh_pg a) (kh_cr3 a) (kh_heap a) n with
    | Some (s, h, p) => (p, KHeap s (kh_cr3 a) h)
    | None => (0, a)
    end;
  al_free a p := KHeap (kh_pg a) (kh_cr3 a) (kfree (kh_heap a) p);
  al_wf a L := exists l, heap_inv (kh_pg a) (kh_cr3 a) (kh_heap a) l /\ L = ptrs l;
|}.

Lemma ptrs_perm l lv : live l ≡ₚ lv -> ptrs l = list_to_set lv.*1.
Proof using. intros E. unfold ptrs. by rewrite E. Qed.

Lemma live_unique s cr3 h l : heap_inv s cr3 h l -> NoDup (live l).*1.
Proof using. intros I. eapply live_nodup, ho_tiles. apply I. Qed.

#[export] Instance kheap_laws : AllocLaws (kheap S).
Proof using PagingLaws0.
  split.
  - intros [s cr3 h] L n p a' (l & I & ->) Hn E. cbn [al_malloc kheap_ops kh_pg kh_cr3 kh_heap] in *.
    destruct (kmalloc_step s cr3 h l n I Hn) as (s' & h' & q & l' & Ek & I' & Hs). rewrite Ek in E. injection E as -> <-.
    inversion Hs as [|? ? sz ? _ Hp _ Hc Hl| |].
    + left. split; [done|]. exists l'. split; [done|]. unfold ptrs. congruence.
    + right. split_and!; [lia| |].
      * unfold ptrs. rewrite elem_of_list_to_set. intros ([q sq] & -> & Hq)%list_elem_of_fmap. by destruct (Hc q sq Hq).
      * exists l'. split; [done|]. rewrite (ptrs_perm l' _ Hl). done.
  - by intros [s cr3 h].
  - intros [s cr3 h] L p (l & I & ->) Hp. cbn [al_free kheap_ops kh_pg kh_cr3 kh_heap] in *. unfold ptrs in Hp. rewrite elem_of_list_to_set in Hp.
    destruct (kfree_step s cr3 h l p I (or_intror Hp)) as (l' & I' & Hs). exists l'. split; [done|].
    pose proof (live_unique _ _ _ _ I) as Hnd. inversion Hs as [|? ? ? ? ? ? ? ? ?|q sz lv' Hl|E0].
    + subst. rewrite (ptrs_perm l _ Hl). cbn [fmap list_fmap fst list_to_set]. rewrite Hl in Hnd. inversion_clear Hnd as [|? ? Hnin _].
      change (p ∉ (live l').*1) in Hnin. change (list_fmap (Z * Z)%type Z fst (live l')) with ((live l').*1).
      unfold ptrs. assert (p ∉ (list_to_set (live l').*1 : gset Z)) by (by rewrite elem_of_list_to_set). set_solver.
    + subst. apply list_elem_of_fmap in Hp as ([q sq] & E & Hq). cbn in E. subst q.
      destruct (live_in_heap _ _ _ _ (ho_lk _ _ (hi_ok _ _ _ _ I)) Hq) as (_ & Hb & _). unfold HEAP_BASE in Hb. lia.
  - intros [s cr3 h] L (l & I & ->). unfold ptrs. rewrite elem_of_list_to_set. intros ([q sq] & E & Hq)%list_elem_of_fmap. cbn in E. subst q.
    destruct (live_in_heap _ _ _ _ (ho_lk _ _ (hi_ok _ _ _ _ I)) Hq) as (_ & Hb & _). unfold HEAP_BASE in Hb. lia.
Qed.
End instance.
