(* ===== verification/Sock.v ===== *)
(** Datagram sockets, [kernel/net/ksocket.c].

    A socket, a queued packet and a packet's payload are three separate heap
    allocations linked by pointers; each kind has its own store, indexed by
    address.  The heap is any allocator with the interface of [Alloc].  A call
    runs without interruption until it returns or parks on the wait queue of
    the socket; waking the parked tasks has no effect on the state here, a
    woken call runs its next round.  Sending is in [Net], above IPv4. *)
From S2P Require Import Prelude.
From S2P Require Import Alloc.
From S2P Require Import Inet.

Definition AF_INET : Z := 2.
Definition SOCK_DGRAM : Z := 2.

Inductive socket_state :=
  | SOCKET_UNBOUND | SOCKET_OPEN | SOCKET_LISTENING | SOCKET_CONNECTING | SOCKET_ESTABLISHED | SOCKET_CLOSED.

(** Ports are in network byte order. *)
Record sockaddr_in := SockAddr { sa_family : Z; sa_port : Z; sa_ip : list Z; sa_padding : list Z }.
Definition zero_addr : sockaddr_in := SockAddr 0 0 [0; 0; 0; 0] (replicate 8 0).

Record packet_node := Node { pn_src_ip : list Z; pn_src_port : Z; pn_length : Z; pn_payload : Z; pn_next : Z }.
Record packet_queue := Queue { q_head : Z; q_tail : Z; q_count : Z }.

Record socket := Socket {
  so_id : Z;
  so_state : socket_state;
  so_type : Z;
  so_protocol : Z;
  so_local : sockaddr_in;
  so_remote : sockaddr_in;
  so_rx_queue : packet_queue;
  so_fd_refs : Z;
  so_next : Z;
}.
(** [memset] to zero, and the sizes of the structures on x86-64. *)
Definition zero_socket : socket := Socket 0 SOCKET_UNBOUND 0 0 zero_addr zero_addr (Queue 0 0 0) 0 0.
Definition zero_node : packet_node := Node [0; 0; 0; 0] 0 0 0 0.
Definition sizeof_socket : Z := 96.
Definition sizeof_packet_node : Z := 24.

Record sockets (A : Type) := Sockets {
  sk_heap : A;
  sk_mem : gmap Z socket;
  sk_nodes : gmap Z packet_node;
  sk_bufs : gmap Z (list Z);
  socket_list : Z;
  next_socket_id : Z;
  next_port : Z;
}.
Arguments Sockets {A}.
Arguments sk_heap {A}.
Arguments sk_mem {A}.
Arguments sk_nodes {A}.
Arguments sk_bufs {A}.
Arguments socket_list {A}.
Arguments next_socket_id {A}.
Arguments next_port {A}.

Section model.
Context {A : Type} `{!AllocOps A}.
Implicit Types (s : sockets A).

Definition sock_at s (p : Z) : socket := default zero_socket (sk_mem s !! p).
Definition node_at s (p : Z) : packet_node := default zero_node (sk_nodes s !! p).

Definition put_heap s (h : A) : sockets A :=
  Sockets h (sk_mem s) (sk_nodes s) (sk_bufs s) (socket_list s) (next_socket_id s) (next_port s).
Definition put_sock s (p : Z) (so : socket) : sockets A :=
  Sockets (sk_heap s) (<[p := so]> (sk_mem s)) (sk_nodes s) (sk_bufs s) (socket_list s) (next_socket_id s) (next_port s).
Definition put_node s (p : Z) (n : packet_node) : sockets A :=
  Sockets (sk_heap s) (sk_mem s) (<[p := n]> (sk_nodes s)) (sk_bufs s) (socket_list s) (next_socket_id s) (next_port s).
Definition put_buf s (p : Z) (d : list Z) : sockets A :=
  Sockets (sk_heap s) (sk_mem s) (sk_nodes s) (<[p := d]> (sk_bufs s)) (socket_list s) (next_socket_id s) (next_port s).
Definition put_list s (p : Z) : sockets A :=
  Sockets (sk_heap s) (sk_mem s) (sk_nodes s) (sk_bufs s) p (next_socket_id s) (next_port s).
Definition put_next_id s (i : Z) : sockets A :=
  Sockets (sk_heap s) (sk_mem s) (sk_nodes s) (sk_bufs s) (socket_list s) i (next_port s).
Definition put_next_port s (p : Z) : sockets A :=
  Sockets (sk_heap s) (sk_mem s) (sk_nodes s) (sk_bufs s) (socket_list s) (next_socket_id s) p.

Definition set_link (so : socket) (next : Z) : socket :=
  Socket (so_id so) (so_state so) (so_type so) (so_protocol so) (so_local so) (so_remote so) (so_rx_queue so) (so_fd_refs so) next.
Definition set_rx (so : socket) (q : packet_queue) : socket :=
  Socket (so_id so) (so_state so) (so_type so) (so_protocol so) (so_local so) (so_remote so) q (so_fd_refs so) (so_next so).
Definition set_local (so : socket) (a : sockaddr_in) : socket :=
  Socket (so_id so) (so_state so) (so_type so) (so_protocol so) a (so_remote so) (so_rx_queue so) (so_fd_refs so) (so_next so).
Definition set_remote (so : socket) (a : sockaddr_in) : socket :=
  Socket (so_id so) (so_state so) (so_type so) (so_protocol so) (so_local so) a (so_rx_queue so) (so_fd_refs so) (so_next so).
Definition set_state (so : socket) (st : socket_state) : socket :=
  Socket (so_id so) st (so_type so) (so_protocol so) (so_local so) (so_remote so) (so_rx_queue so) (so_fd_refs so) (so_next so).

Definition kmalloc_sk s (n : Z) : Z * sockets A := let '(p, h) := al_malloc (sk_heap s) n in (p, put_heap s h).
Definition kfree_sk s (p : Z) : sockets A := put_heap s (al_free (sk_heap s) p).

Definition socket_create s (type protocol : Z) : sockets A * Z :=
  let '(sock, s) := kmalloc_sk s sizeof_socket in
  if sock =? 0 then (s, 0) else
  let id := next_socket_id s in
  let s := put_next_id s (u32 (id + 1)) in
  let so := Socket id SOCKET_UNBOUND type protocol zero_addr zero_addr (Queue 0 0 0) 0 (socket_list s) in
  (put_list (put_sock s sock so) sock, sock).

Definition socket_bind s (sock : Z) (addr : option sockaddr_in) : sockets A * Z :=
  match addr with
  | Some addr => if sock =? 0 then (s, -1) else (put_sock s sock (set_state (set_local (sock_at s sock) addr) SOCKET_OPEN), 0)
  | None => (s, -1)
  end.

Definition socket_readable s (sock : Z) : bool := negb (sock =? 0) && negb (q_head (so_rx_queue (sock_at s sock)) =? 0).

(** One round of [socket_recvfrom]: how it ends, the bytes copied to the
    buffer, and what is stored through [src_addr]. *)
Definition socket_recvfrom s (sock buf len : Z) (nonblock : bool) : sockets A * round * list Z * option (Z * Z * list Z) :=
  if (sock =? 0) || (buf =? 0) then (s, Returned (- EINVAL), [], None) else
  let so := sock_at s sock in
  let q := so_rx_queue so in
  let node := q_head q in
  if negb (node =? 0) then
    let n := node_at s node in
    let head := pn_next n in
    let tail := if head =? 0 then 0 else q_tail q in
    let s := put_sock s sock (set_rx so (Queue head tail (u32 (q_count q - 1)))) in
    let to_copy := if len <? pn_length n then len else pn_length n in
    let data := take (Z.to_nat to_copy) (default [] (sk_bufs s !! pn_payload n)) in
    let s := kfree_sk (kfree_sk s (pn_payload n)) node in
    (s, Returned to_copy, data, Some (AF_INET, pn_src_port n, pn_src_ip n))
  else if nonblock then (s, Returned (- EAGAIN), [], None)
  else (s, Parked, [], None).

(** A parked [socket_recvfrom] woken by a signal returns without another round. *)
Definition recv_interrupted : Z := - EINTR.

(** [link] is 0 for [&socket_list], otherwise the socket whose [next] it addresses. *)
Definition link_get s (link : Z) : Z := if link =? 0 then socket_list s else so_next (sock_at s link).
Definition link_set s (link p : Z) : sockets A :=
  if link =? 0 then put_list s p else put_sock s link (set_link (sock_at s link) p).

Fixpoint find_link (fuel : nat) s (sock link : Z) : Z :=
  match fuel with
  | O => link
  | S fuel =>
      let p := link_get s link in
      if negb (p =? 0) && negb (p =? sock) then find_link fuel s sock p else link
  end.

Fixpoint drain (fuel : nat) s (node : Z) : sockets A :=
  match fuel with
  | O => s
  | S fuel =>
      if node =? 0 then s else
      let next := pn_next (node_at s node) in
      let s := kfree_sk (kfree_sk s (pn_payload (node_at s node))) node in
      drain fuel s next
  end.

Definition socket_close s (sock : Z) : sockets A :=
  if sock =? 0 then s else
  let link := find_link (size (sk_mem s)) s sock 0 in
  let s := if link_get s link =? sock then link_set s link (so_next (sock_at s sock)) else s in
  let s := drain (size (sk_nodes s)) s (q_head (so_rx_queue (sock_at s sock))) in
  kfree_sk s sock.

(** The first socket of the list that satisfies [p]. *)
Fixpoint find_socket (fuel : nat) s (p : socket -> bool) (curr : Z) : Z :=
  match fuel with
  | O => 0
  | S fuel => if curr =? 0 then 0 else if p (sock_at s curr) then curr else find_socket fuel s p (so_next (sock_at s curr))
  end.

Definition port_taken s (candidate : Z) : bool :=
  negb (find_socket (size (sk_mem s)) s (fun so => from_be16 (sa_port (so_local so)) =? candidate) (socket_list s) =? 0).

Fixpoint ephemeral_loop (attempts : nat) s : sockets A * Z :=
  match attempts with
  | O => (s, 0)
  | S attempts =>
      let candidate := next_port s in
      let s := put_next_port s (if next_port s >=? 60999 then 32768 else u16 (next_port s + 1)) in
      if negb (port_taken s candidate) then (s, to_be16 candidate) else ephemeral_loop attempts s
  end.
Definition socket_alloc_ephemeral_port s : sockets A * Z := ephemeral_loop (Z.to_nat 28232) s.

(** The test of the delivery loop: same protocol and port, bound to the
    destination address or to any address. *)
Definition sock_matches (dest_ip : list Z) (dest_port protocol : Z) (so : socket) : bool :=
  (so_protocol so =? protocol) && (sa_port (so_local so) =? dest_port) &&
  (bool_decide (sa_ip (so_local so) = dest_ip) || bool_decide (sa_ip (so_local so) = [0; 0; 0; 0])).

Definition socket_handle_incoming s (src_ip : list Z) (src_port : Z) (dest_ip : list Z) (dest_port protocol : Z) (payload : list Z) : sockets A :=
  let length := zlen payload in
  let target := find_socket (size (sk_mem s)) s (sock_matches dest_ip dest_port protocol) (socket_list s) in
  if target =? 0 then s else
  let '(node, s) := kmalloc_sk s sizeof_packet_node in
  if node =? 0 then s else
  let '(buf, s) := kmalloc_sk s length in
  if buf =? 0 then kfree_sk s node else
  let s := put_node (put_buf s buf payload) node (Node src_ip src_port (u16 length) buf 0) in
  let q := so_rx_queue (sock_at s target) in
  let s := if negb (q_tail q =? 0)
           then let t := node_at s (q_tail q) in put_node s (q_tail q) (Node (pn_src_ip t) (pn_src_port t) (pn_length t) (pn_payload t) node)
           else s in
  let head := if negb (q_tail q =? 0) then q_head q else node in
  let so := set_rx (sock_at s target) (Queue head node (u32 (q_count q + 1))) in
  let r := so_remote so in
  put_sock s target (set_state (set_remote so (SockAddr (sa_family r) src_port src_ip (sa_padding r))) SOCKET_ESTABLISHED).
End model.
