(* ===== verification/SockSpec.v ===== *)
(** Sockets are queues of datagrams ([kernel/net/ksocket.c]): the linked
    structures refine a list of sockets, each with the list of the datagrams
    delivered to it and not yet read, and no allocation is lost. *)
From S2P Require Import Prelude.
From S2P Require Import Pmm.
From S2P Require Import Frames.
From S2P Require Import Vmm.
From S2P Require Import Paging.
From S2P Require Import VmmSpec.
From S2P Require Import Heap.
From S2P Require Import HeapSpec.
From S2P Require Import Alloc.
From S2P Require Import Inet.
From S2P Require Import Sock.

(** ** The abstract sockets *)
Record dgram := Dgram { d_ip : list Z; d_port : Z; d_data : list Z }.
Record asock := ASock {
  a_id : Z;
  a_state : socket_state;
  a_type : Z;
  a_protocol : Z;
  a_local : sockaddr_in;
  a_remote : sockaddr_in;
  a_fd_refs : Z;
  a_queue : list dgram;
}.

Definition conc (a : asock) (q : packet_queue) (next : Z) : socket :=
  Socket (a_id a) (a_state a) (a_type a) (a_protocol a) (a_local a) (a_remote a) q (a_fd_refs a) next.

(** A socket of the list: its address, the addresses of its queued packets
    and their payloads, and what it holds. *)
Record ent := Ent { e_ptr : Z; e_nodes : list (Z * Z); e_sock : asock }.
Definition node_ptrs (ns : list (Z * Z)) : list Z := concat (map (fun nb => [fst nb; snd nb]) ns).
Definition ent_ptrs (e : ent) : list Z := e_ptr e :: node_ptrs (e_nodes e).
Definition all_ptrs (es : list ent) : list Z := concat (map ent_ptrs es).

(** ** Linked lists *)
Fixpoint chain (nx : Z -> option Z) (p : Z) (l : list Z) : Prop :=
  match l with
  | [] => p = 0
  | x :: l => p = x /\ exists n, nx x = Some n /\ chain nx n l
  end.

Lemma sock_chain_ext nx nx' l : forall p, (forall x, x ∈ l -> nx' x = nx x) -> chain nx p l -> chain nx' p l.
Proof.
  induction l as [|x l IH]; intros p H; [done|]. intros (-> & n & En & C). split; [done|]. exists n. split.
  - rewrite H; [done|left].
  - apply IH; [|done]. intros y Hy. apply H. by right.
Qed.

Section queue.
Context (nodes : gmap Z packet_node) (bufs : gmap Z (list Z)).

(** The packets from [p] on. *)
Fixpoint nodes_at (p : Z) (ns : list (Z * Z)) (ds : list dgram) : Prop :=
  match ns, ds with
  | [], [] => p = 0
  | (n, b) :: ns, d :: ds =>
      p = n /\ n <> 0 /\ exists nx, nodes !! n = Some (Node (d_ip d) (d_port d) (zlen (d_data d)) b nx) /\
        bufs !! b = Some (d_data d) /\ nodes_at nx ns ds
  | _, _ => False
  end.
End queue.

Lemma nodes_at_frame nodes bufs nodes' bufs' ns : forall p ds,
  (forall n b, (n, b) ∈ ns -> nodes' !! n = nodes !! n /\ bufs' !! b = bufs !! b) ->
  nodes_at nodes bufs p ns ds -> nodes_at nodes' bufs' p ns ds.
Proof.
  induction ns as [|[n b] ns IH]; intros p [|d ds] H; simpl; try done.
  intros (-> & Hn & nx & En & Eb & C). split_and!; try done. destruct (H n b) as [-> ->]; [left|].
  exists nx. split_and!; try done. apply IH; [|done]. intros. apply H. by right.
Qed.

Lemma elem_of_node_ptrs ns x : x ∈ node_ptrs ns <-> exists n b, (n, b) ∈ ns /\ (x = n \/ x = b).
Proof.
  unfold node_ptrs. rewrite elem_of_concat_map. split.
  - intros ([n b] & Hin & Hx). exists n, b. split; [done|]. set_solver.
  - intros (n & b & Hin & Hx). exists (n, b). split; [done|]. set_solver.
Qed.

Lemma node_ptrs_app l k : node_ptrs (l ++ k) = node_ptrs l ++ node_ptrs k.
Proof. unfold node_ptrs. by rewrite map_app, concat_app. Qed.

Lemma all_ptrs_app l k : all_ptrs (l ++ k) = all_ptrs l ++ all_ptrs k.
Proof. unfold all_ptrs. by rewrite map_app, concat_app. Qed.

Lemma all_ptrs_cons e k : all_ptrs (e :: k) = ent_ptrs e ++ all_ptrs k.
Proof. done. Qed.

(** The last packet of a queue. *)
Definition tail_of (ns : list (Z * Z)) : Z := fst (last ns (0, 0)).

(** Linking a new packet behind the last one. *)
Lemma nodes_at_snoc nodes bufs t bt n b d : forall ns p ds,
  nodes_at nodes bufs p (ns ++ [(t, bt)]) ds -> NoDup (node_ptrs (ns ++ [(t, bt)]) ++ [n; b]) -> n <> 0 ->
  forall told, nodes !! t = Some told ->
  nodes_at (<[t := Node (pn_src_ip told) (pn_src_port told) (pn_length told) (pn_payload told) n]>
             (<[n := Node (d_ip d) (d_port d) (zlen (d_data d)) b 0]> nodes)) (<[b := d_data d]> bufs)
    p (ns ++ [(t, bt); (n, b)]) (ds ++ [d]).
Proof.
  induction ns as [|[m c] ns IH]; intros p [|d0 ds] C Hnd Hn told Ht; try (cbn in C; tauto).
  - cbn in C. destruct C as (-> & Ht0 & nx & Et & Eb & C). destruct ds; [|done]. subst nx. rewrite Et in Ht. injection Ht as <-.
    cbn in Hnd. apply list_relations.list.NoDup_cons in Hnd as [H1 Hnd]. apply list_relations.list.NoDup_cons in Hnd as [H2 Hnd]. cbn [app nodes_at pn_src_ip pn_src_port pn_length pn_payload].
    split_and!; try done. exists n. rewrite lookup_insert_eq, (lookup_insert_ne bufs) by set_solver. split_and!; try done.
    exists 0. rewrite lookup_insert_ne, !lookup_insert_eq by set_solver. done.
  - cbn in C. destruct C as (-> & Hm0 & nx & Em & Eb & C). change (node_ptrs (((m, c) :: ns) ++ [(t, bt)])) with (m :: c :: node_ptrs (ns ++ [(t, bt)])) in Hnd.
    cbn [app] in Hnd. apply list_relations.list.NoDup_cons in Hnd as [H1 Hnd]. apply list_relations.list.NoDup_cons in Hnd as [H2 Hnd].
    rewrite node_ptrs_app in H1, H2. cbn in H1, H2. cbn [app nodes_at].
    split_and!; try done. exists nx. rewrite !lookup_insert_ne by set_solver. split_and!; try done. by apply (IH nx ds).
Qed.

Lemma nodes_at_tail nodes bufs ns : forall p ds, nodes_at nodes bufs p ns ds -> ns <> [] ->
  exists ns' t b told, ns = ns' ++ [(t, b)] /\ tail_of ns = t /\ nodes !! t = Some told /\ t <> 0.
Proof.
  induction ns as [|[n b] ns IH]; intros p [|d ds] C Hne; try done. cbn in C. destruct C as (-> & Hn & nx & En & Eb & C).
  destruct ns as [|nb ns].
  - exists [], n, b. eexists. split_and!; done.
  - destruct (IH nx ds C) as (ns' & t & c & told & E & Et & Hl & Ht); [done|]. exists ((n, b) :: ns'), t, c, told.
    rewrite E in *. split_and!; try done. unfold tail_of. by rewrite app_comm_cons, last_last.
Qed.

Lemma nodes_at_length nodes bufs ns : forall p ds, nodes_at nodes bufs p ns ds -> length ns = length ds.
Proof.
  induction ns as [|[n b] ns IH]; intros p [|d ds] C; try done. cbn in C. destruct C as (_ & _ & nx & _ & _ & C).
  cbn [length]. by rewrite (IH nx ds C).
Qed.

(** A queue record, the packets it links and the datagrams in it. *)
Record queue_ok (nodes : gmap Z packet_node) (bufs : gmap Z (list Z)) (q : packet_queue) (ns : list (Z * Z)) (ds : list dgram) : Prop := QueueOk {
  qo_nodes : nodes_at nodes bufs (q_head q) ns ds;
  qo_tail : q_tail q = tail_of ns;
  qo_count : q_count q = u32 (zlen ds);
  qo_sizes : Forall (fun d => 0 < zlen (d_data d) < 2 ^ 16) ds;
}.

Lemma u32_succ x : u32 (u32 x + 1) = u32 (x + 1).
Proof. unfold u32. by rewrite Zplus_mod_idemp_l. Qed.
Lemma u32_pred x : u32 (u32 (x + 1) - 1) = u32 x.
Proof. unfold u32. rewrite Zminus_mod_idemp_l. f_equal. lia. Qed.

Lemma zlen_snoc {B} (l : list B) x : zlen (l ++ [x]) = zlen l + 1.
Proof. unfold zlen. rewrite length_app. cbn [length]. lia. Qed.
Lemma zlen_cons {B} (l : list B) x : zlen (x :: l) = zlen l + 1.
Proof. unfold zlen. cbn [length]. lia. Qed.

(** Delivering appends. *)
Lemma queue_push nodes bufs q ns ds n b d :
  queue_ok nodes bufs q ns ds -> NoDup (node_ptrs ns ++ [n; b]) -> n <> 0 -> 0 < zlen (d_data d) < 2 ^ 16 ->
  let nodes1 := <[n := Node (d_ip d) (d_port d) (zlen (d_data d)) b 0]> nodes in
  let t := default zero_node (nodes1 !! q_tail q) in
  let nodes2 := if negb (q_tail q =? 0) then <[q_tail q := Node (pn_src_ip t) (pn_src_port t) (pn_length t) (pn_payload t) n]> nodes1 else nodes1 in
  queue_ok nodes2 (<[b := d_data d]> bufs) (Queue (if negb (q_tail q =? 0) then q_head q else n) n (u32 (q_count q + 1)))
    (ns ++ [(n, b)]) (ds ++ [d]).
Proof.
  intros [C Et Ec Es] Hnd Hn Hd nodes1 t nodes2.
  assert (nodes_at nodes2 (<[b := d_data d]> bufs) (if negb (q_tail q =? 0) then q_head q else n) (ns ++ [(n, b)]) (ds ++ [d])) as C2.
  { destruct (decide (ns = [])) as [->|Hne].
    - unfold nodes2. rewrite Et. cbn. destruct ds; [|done]. cbn. split_and!; try done. exists 0. unfold nodes1. rewrite !lookup_insert_eq. done.
    - destruct (nodes_at_tail _ _ _ _ _ C Hne) as (ns' & tp & bt & told & -> & Htl & Hold & Ht). unfold nodes2, t. rewrite Et, Htl.
      rewrite (proj2 (Z.eqb_neq tp 0)) by done. cbn [negb]. unfold nodes1. rewrite lookup_insert_ne.
      2:{ rewrite node_ptrs_app in Hnd. cbn in Hnd. rewrite <-(assoc_L (++)) in Hnd. apply list_relations.list.NoDup_app in Hnd as (_ & _ & Hnd).
          apply list_relations.list.NoDup_cons in Hnd as [Hnd _]. set_solver. }
      rewrite Hold. cbn [default from_option id]. rewrite <-(assoc_L (++)). cbn [app]. by apply nodes_at_snoc. }
  split; cbn [q_head q_tail q_count]; [done| | |].
  - unfold tail_of. by rewrite last_last.
  - by rewrite Ec, zlen_snoc, u32_succ.
  - apply Forall_app. split; [done|]. by apply Forall_singleton.
Qed.

(** Reading takes the first. *)
Lemma queue_pop nodes bufs q n b ns d ds : queue_ok nodes bufs q ((n, b) :: ns) (d :: ds) ->
  q_head q = n /\ n <> 0 /\ exists nx, nodes !! n = Some (Node (d_ip d) (d_port d) (zlen (d_data d)) b nx) /\ bufs !! b = Some (d_data d) /\
    queue_ok nodes bufs (Queue nx (if nx =? 0 then 0 else q_tail q) (u32 (q_count q - 1))) ns ds.
Proof.
  intros [C Et Ec Es]. cbn in C. destruct C as (E & Hn & nx & En & Eb & C). split_and!; try done. exists nx. split_and!; try done.
  inversion_clear Es as [|? ? _ Es']. split; cbn [q_head q_tail q_count]; [done| |by rewrite Ec, zlen_cons, u32_pred|done].
  destruct ns as [|[m c] ns].
  - destruct ds; [|done]. cbn in C. by subst nx.
  - destruct ds; [done|]. cbn in C. destruct C as (-> & Hm & _). rewrite (proj2 (Z.eqb_neq m 0)) by done. rewrite Et. done.
Qed.

Lemma chain_mid nx x y l1 l2 : forall p, chain nx p (l1 ++ x :: y :: l2) -> nx x = Some y.
Proof.
  induction l1 as [|z l1 IH]; intros p C; cbn in C; [|destruct C as (-> & n & _ & C); by eapply IH].
  destruct C as (-> & n & En & -> & _). done.
Qed.

(** Removing an element from a chain. *)
Lemma chain_unlink nx nx' x y m l1 l2 : forall p, chain nx p (l1 ++ x :: y :: l2) -> nx y = Some m ->
  nx' x = Some m -> (forall z, z ∈ l1 ++ l2 -> nx' z = nx z) -> chain nx' p (l1 ++ x :: l2).
Proof.
  induction l1 as [|z l1 IH]; intros p C Hy Hx Hz.
  - cbn in C. destruct C as (-> & n & En & -> & k & Ek & C). rewrite Hy in Ek. injection Ek as <-. cbn. split; [done|].
    exists m. split; [done|]. eapply sock_chain_ext; [|done]. done.
  - cbn in C. destruct C as (-> & n & En & C). cbn. split; [done|]. exists n. split; [rewrite Hz; [done|left]|].
    apply IH; try done. intros w Hw. apply Hz. by right.
Qed.

(** ** The invariant *)
Section spec.
Context {A : Type} `{!AllocOps A, !AllocLaws A}.
Implicit Types (s : sockets A).

Definition ent_ok s (e : ent) : Prop :=
  exists q nx, sk_mem s !! e_ptr e = Some (conc (e_sock e) q nx) /\ queue_ok (sk_nodes s) (sk_bufs s) q (e_nodes e) (a_queue (e_sock e)).

Definition sk_next s (p : Z) : option Z := so_next <$> sk_mem s !! p.

(** [O] are the allocations of the rest of the kernel. *)
Record sk_inv s (O : gset Z) (es : list ent) : Prop := SkInv {
  si_chain : chain (sk_next s) (socket_list s) (e_ptr <$> es);
  si_ents : Forall (ent_ok s) es;
  si_nodup : NoDup (all_ptrs es);
  si_other : forall p, p ∈ all_ptrs es -> p ∉ O;
  si_heap : al_wf (sk_heap s) (list_to_set (all_ptrs es) ∪ O);
  si_port : 32768 <= next_port s <= 60999;
}.

Lemma inv_nonnull s O es p : sk_inv s O es -> p ∈ all_ptrs es -> p <> 0.
Proof using AllocLaws0. intros I Hp ->. apply (al_nonnull _ _ (si_heap _ _ _ I)). set_solver. Qed.

Lemma ptr_in es e : e ∈ es -> e_ptr e ∈ all_ptrs es.
Proof using. intros He. apply elem_of_concat_map. exists e. split; [done|]. left. Qed.

Lemma nodup_ptrs es : NoDup (all_ptrs es) -> NoDup (e_ptr <$> es).
Proof using.
  induction es as [|e es IH]; [constructor|]. rewrite all_ptrs_cons. intros (H1 & H2 & H3)%list_relations.list.NoDup_app.
  rewrite fmap_cons. constructor; [|by apply IH]. intros (e' & E & He')%list_elem_of_fmap.
  apply (H2 (e_ptr e)); [left|]. rewrite E. by apply ptr_in.
Qed.

(** The list is no longer than the socket store. *)
Lemma inv_length s O es : sk_inv s O es -> (length es <= size (sk_mem s))%nat.
Proof using.
  intros I. pose proof (nodup_ptrs _ (si_nodup _ _ _ I)) as Hnd. rewrite <-(length_fmap e_ptr es).
  rewrite <-size_dom, <-(size_list_to_set (C := gset Z)) by done. apply subseteq_size. intros p Hp.
  apply elem_of_list_to_set, list_elem_of_fmap in Hp as (e & -> & He). apply elem_of_dom.
  destruct (proj1 (list_relations.list.Forall_forall _ _) (si_ents _ _ _ I) e He) as (q & nx & -> & _). done.
Qed.

Lemma inv_sock s O es e : sk_inv s O es -> e ∈ es ->
  exists q nx, sk_mem s !! e_ptr e = Some (conc (e_sock e) q nx) /\ sock_at s (e_ptr e) = conc (e_sock e) q nx /\
    queue_ok (sk_nodes s) (sk_bufs s) q (e_nodes e) (a_queue (e_sock e)).
Proof using.
  intros I He. destruct (proj1 (list_relations.list.Forall_forall _ _) (si_ents _ _ _ I) e He) as (q & nx & E & Q).
  exists q, nx. unfold sock_at. rewrite E. done.
Qed.

(** ** Searching the list *)
Definition find_ent (p : asock -> bool) (es : list ent) : option ent := snd <$> list_find (fun e => Is_true (p (e_sock e))) es.

Lemma find_ent_cons p e es : find_ent p (e :: es) = if p (e_sock e) then Some e else find_ent p es.
Proof using.
  unfold find_ent. cbn [list_find]. destruct (p (e_sock e)) eqn:E.
  - by rewrite decide_True by exact I.
  - rewrite decide_False by (intros []). by destruct (list_find _ es) as [[]|].
Qed.

Lemma find_socket_ok s (p : socket -> bool) (ap : asock -> bool) es :
  (forall a q nx, p (conc a q nx) = ap a) ->
  forall fuel curr, chain (sk_next s) curr (e_ptr <$> es) -> Forall (ent_ok s) es -> (forall e, e ∈ es -> e_ptr e <> 0) ->
    (length es <= fuel)%nat -> find_socket fuel s p curr = default 0 (e_ptr <$> find_ent ap es).
Proof using.
  intros Hp. induction es as [|e es IH]; intros fuel curr C F Hnz Hf.
  - cbn in C. subst curr. by destruct fuel.
  - rewrite fmap_cons in C. destruct C as (-> & n & En & C). destruct fuel as [|fuel]; [cbn in Hf; lia|]. cbn [find_socket].
    rewrite (proj2 (Z.eqb_neq _ 0)) by (apply Hnz; left). inversion_clear F as [|? ? (q & nx & E & Q) F'].
    unfold sk_next in En. rewrite E in En. injection En as <-. unfold sock_at. rewrite E. cbn [default from_option id]. rewrite Hp, find_ent_cons.
    destruct (ap (e_sock e)); [done|]. apply IH; [done|done| |cbn in Hf; lia]. intros. apply Hnz. by right.
Qed.

Lemma find_socket_inv s O es p ap : sk_inv s O es -> (forall a q nx, p (conc a q nx) = ap a) ->
  find_socket (size (sk_mem s)) s p (socket_list s) = default 0 (e_ptr <$> find_ent ap es).
Proof using AllocLaws0.
  intros I Hp. apply find_socket_ok; [done|apply I|apply I| |by eapply inv_length].
  intros e He. eapply inv_nonnull; [done|by apply ptr_in].
Qed.

(** ** Changing one socket *)
Lemma ent_ok_frame s s' e : sk_mem s' !! e_ptr e = sk_mem s !! e_ptr e ->
  (forall n b, (n, b) ∈ e_nodes e -> sk_nodes s' !! n = sk_nodes s !! n /\ sk_bufs s' !! b = sk_bufs s !! b) ->
  ent_ok s e -> ent_ok s' e.
Proof using.
  intros Em Hn (q & nx & E & [Qn Qt Qc Qs]). exists q, nx. rewrite Em. split; [done|]. split; [|done|done|done].
  by eapply nodes_at_frame.
Qed.

(** The addresses of one entry are not those of another. *)
Lemma ptrs_apart es1 e es2 : NoDup (all_ptrs (es1 ++ e :: es2)) ->
  NoDup (ent_ptrs e) /\ forall e' p, e' ∈ es1 ++ es2 -> p ∈ ent_ptrs e' -> p ∉ ent_ptrs e.
Proof using.
  rewrite all_ptrs_app, all_ptrs_cons. intros (H1 & H2 & (H3 & H4 & H5)%list_relations.list.NoDup_app)%list_relations.list.NoDup_app.
  split; [done|]. intros e' p He Hp He'. apply elem_of_app in He as [He|He].
  - apply (H2 p); [apply elem_of_concat_map; by exists e'|]. apply elem_of_app. by left.
  - apply (H4 p); [done|]. apply elem_of_concat_map. by exists e'.
Qed.

Lemma replace_perm es1 e es2 : all_ptrs (es1 ++ e :: es2) ≡ₚ ent_ptrs e ++ all_ptrs (es1 ++ es2).
Proof using. rewrite !all_ptrs_app, all_ptrs_cons. rewrite !(assoc_L (++)). by rewrite (Permutation_app_comm (all_ptrs es1)). Qed.

Lemma node_in_ptrs e n b : (n, b) ∈ e_nodes e -> n ∈ ent_ptrs e /\ b ∈ ent_ptrs e.
Proof using. intros H. split; right; apply elem_of_node_ptrs; exists n, b; tauto. Qed.

Lemma inv_replace s s' O es1 e es2 q nx a' q' ns' :
  sk_inv s O (es1 ++ e :: es2) -> sk_mem s !! e_ptr e = Some (conc (e_sock e) q nx) ->
  sk_mem s' = <[e_ptr e := conc a' q' nx]> (sk_mem s) -> socket_list s' = socket_list s -> next_port s' = next_port s ->
  (forall e' n b, e' ∈ es1 ++ es2 -> (n, b) ∈ e_nodes e' -> sk_nodes s' !! n = sk_nodes s !! n /\ sk_bufs s' !! b = sk_bufs s !! b) ->
  queue_ok (sk_nodes s') (sk_bufs s') q' ns' (a_queue a') ->
  (exists L, ent_ptrs (Ent (e_ptr e) ns' a') ++ all_ptrs (es1 ++ es2) ≡ₚ L /\ NoDup L /\ (forall p, p ∈ L -> p ∉ O) /\
     al_wf (sk_heap s') (list_to_set L ∪ O)) ->
  sk_inv s' O (es1 ++ Ent (e_ptr e) ns' a' :: es2).
Proof using AllocLaws0.
  intros I Em Em' El Ep Hfr HQ (L & HL & Hnd & HO & Hh). set (e1 := Ent (e_ptr e) ns' a').
  destruct (ptrs_apart es1 e es2 (si_nodup _ _ _ I)) as [_ Hap].
  assert (Hne : forall e', e' ∈ es1 ++ es2 -> e_ptr e' <> e_ptr e).
  { intros e' He' E. apply (Hap e' (e_ptr e') He'); [left|]. rewrite E. left. }
  assert (HP : all_ptrs (es1 ++ e1 :: es2) ≡ₚ L) by (rewrite replace_perm; exact HL).
  split; try (by rewrite HP).
  - rewrite El, fmap_app, fmap_cons. cbn [e_ptr e1]. pose proof (si_chain _ _ _ I) as C. rewrite fmap_app, fmap_cons in C.
    eapply sock_chain_ext; [|exact C]. intros x _. unfold sk_next. rewrite Em'. destruct (Z.eq_dec x (e_ptr e)) as [->|];
      [by rewrite lookup_insert_eq, Em|by rewrite lookup_insert_ne].
  - pose proof (si_ents _ _ _ I) as F. apply Forall_app in F as [F1 F2]. inversion_clear F2 as [|? ? _ F3].
    assert (Hok : forall e', e' ∈ es1 ++ es2 -> ent_ok s e' -> ent_ok s' e').
    { intros e' He'. apply ent_ok_frame; [by rewrite Em', lookup_insert_ne by (symmetry; by apply Hne)|]. intros n b. by apply Hfr. }
    apply Forall_app. split; [|constructor].
    + eapply list_relations.list.Forall_forall. intros e' He'. apply Hok; [set_solver|]. by eapply list_relations.list.Forall_forall in F1.
    + exists q', nx. cbn [e_ptr e_sock e_nodes e1]. rewrite Em', lookup_insert_eq. done.
    + eapply list_relations.list.Forall_forall. intros e' He'. apply Hok; [set_solver|]. by eapply list_relations.list.Forall_forall in F3.
  - intros p. rewrite HP. apply HO.
  - rewrite Ep. apply I.
Qed.

(** A change of a socket's own fields. *)
Lemma inv_fields s O es1 e es2 q nx a' : sk_inv s O (es1 ++ e :: es2) ->
  sk_mem s !! e_ptr e = Some (conc (e_sock e) q nx) -> a_queue a' = a_queue (e_sock e) ->
  sk_inv (put_sock s (e_ptr e) (conc a' q nx)) O (es1 ++ Ent (e_ptr e) (e_nodes e) a' :: es2).
Proof using AllocLaws0.
  intros I Em Eq. eapply (inv_replace s _ O es1 e es2 q nx a' q (e_nodes e)); try done.
  - rewrite Eq. pose proof (si_ents _ _ _ I) as F. apply Forall_app in F as [_ F]. inversion_clear F as [|? ? (q2 & nx2 & E & Q) _].
    rewrite Em in E. injection E as <- <-. exact Q.
  - exists (all_ptrs (es1 ++ e :: es2)). split_and!; try apply I. by rewrite replace_perm.
Qed.

(** ** Allocation *)
Lemma inv_heap s O es h : sk_inv s O es -> al_wf h (list_to_set (all_ptrs es) ∪ O) -> sk_inv (put_heap s h) O es.
Proof using. intros [C F N X _ P] H. by split. Qed.

Lemma free_one h (x : Z) (L : list Z) (O : gset Z) : al_wf h ({[x]} ∪ (list_to_set L ∪ O)) -> x ∉ L -> x ∉ O ->
  al_wf (al_free h x) (list_to_set L ∪ O).
Proof using AllocLaws0.
  intros W HL HO. pose proof (al_free_ok h _ x W ltac:(set_solver)) as W'.
  assert (list_to_set L ∪ O = ({[x]} ∪ (list_to_set L ∪ O)) ∖ {[x]}) as ->; [|done].
  assert (x ∉ (list_to_set L : gset Z)) by (by rewrite elem_of_list_to_set). set_solver.
Qed.

Definition fresh (id type protocol : Z) : asock := ASock id SOCKET_UNBOUND type protocol zero_addr zero_addr 0 [].

Lemma create_ok s O es type protocol s' p : sk_inv s O es -> socket_create s type protocol = (s', p) ->
  (p = 0 /\ sk_inv s' O es) \/ (p <> 0 /\ (p ∉ all_ptrs es) /\ sk_inv s' O (Ent p [] (fresh (next_socket_id s) type protocol) :: es)).
Proof using AllocLaws0.
  intros I. unfold socket_create, kmalloc_sk. destruct (al_malloc (sk_heap s) sizeof_socket) as [sock h] eqn:Em.
  destruct (al_malloc_ok _ _ sizeof_socket sock h (si_heap _ _ _ I) ltac:(unfold sizeof_socket; lia) Em) as [[-> W]|(Hnz & Hfr & W)].
  { cbn [Z.eqb]. intros [= <- <-]. left. split; [done|by apply inv_heap]. }
  rewrite (proj2 (Z.eqb_neq _ 0)) by done. intros [= <- <-]. right. destruct I as [C F N X _ P].
  assert (Hnew : sock ∉ all_ptrs es) by set_solver. split_and!; try done. split.
  - cbn [fmap list_fmap chain e_ptr socket_list put_list]. split; [done|]. exists (socket_list s). unfold sk_next. cbn.
    rewrite lookup_insert_eq. split; [done|]. eapply sock_chain_ext; [|exact C]. intros x (e & -> & He)%list_elem_of_fmap. unfold sk_next. cbn.
    rewrite lookup_insert_ne; [done|]. intros ->. apply Hnew. by apply ptr_in.
  - constructor.
    + exists (Queue 0 0 0), (socket_list s). cbn. rewrite lookup_insert_eq. split; [done|]. split; [done|done|done|constructor].
    + eapply list_relations.list.Forall_forall. intros e He. eapply (ent_ok_frame s); [|done|by eapply list_relations.list.Forall_forall in F].
      cbn. rewrite lookup_insert_ne; [done|]. intros ->. apply Hnew. by apply ptr_in.
  - rewrite all_ptrs_cons. cbn. by constructor.
  - intros q. rewrite all_ptrs_cons. cbn. intros [->|Hq]%elem_of_cons; [set_solver|by apply X].
  - rewrite all_ptrs_cons. cbn. by rewrite <-(assoc_L (∪)).
  - done.
Qed.

(** ** Delivery *)
Definition amatches (dest_ip : list Z) (dest_port protocol : Z) (a : asock) : bool :=
  (a_protocol a =? protocol) && (sa_port (a_local a) =? dest_port) &&
  (bool_decide (sa_ip (a_local a) = dest_ip) || bool_decide (sa_ip (a_local a) = [0; 0; 0; 0])).
Definition received (a : asock) (d : dgram) : asock :=
  ASock (a_id a) SOCKET_ESTABLISHED (a_type a) (a_protocol a) (a_local a)
    (SockAddr (sa_family (a_remote a)) (d_port d) (d_ip d) (sa_padding (a_remote a))) (a_fd_refs a) (a_queue a ++ [d]).

(** One of the two allocations a delivery makes fails. *)
Definition no_memory s (n : Z) : Prop :=
  let '(p, h) := al_malloc (sk_heap s) sizeof_packet_node in p = 0 \/ fst (al_malloc h n) = 0.

Lemma find_ent_split p es e : find_ent p es = Some e ->
  exists es1 es2, es = es1 ++ e :: es2 /\ p (e_sock e) = true /\ Forall (fun e => p (e_sock e) = false) es1.
Proof using.
  induction es as [|x es IH]; [done|]. rewrite find_ent_cons. destruct (p (e_sock x)) eqn:E.
  - intros [= ->]. by exists [], es.
  - intros H. destruct (IH H) as (es1 & es2 & -> & Hp & F). exists (x :: es1), es2. split_and!; [done|done|by constructor].
Qed.

Lemma fresh_facts (n b : Z) (L : list Z) (O : gset Z) :
  n ∉ (list_to_set L ∪ O) -> b ∉ ({[n]} ∪ (list_to_set L ∪ O)) ->
  n <> b /\ (n ∉ L) /\ (b ∉ L) /\ (n ∉ O) /\ b ∉ O.
Proof using. rewrite !not_elem_of_union, !elem_of_list_to_set, not_elem_of_singleton. intros (? & ?) (? & ? & ?). done. Qed.

(** Linking two fresh allocations into the queue of the target. *)
Lemma deliver_inv s s' O es1 e es2 d n b q nx : let es := es1 ++ e :: es2 in
  sk_inv s O es -> 0 < zlen (d_data d) < 2 ^ 16 -> n <> 0 -> n ∉ (list_to_set (all_ptrs es) ∪ O) -> b ∉ ({[n]} ∪ (list_to_set (all_ptrs es) ∪ O)) ->
  al_wf (sk_heap s') ({[b]} ∪ ({[n]} ∪ (list_to_set (all_ptrs es) ∪ O))) ->
  sk_mem s !! e_ptr e = Some (conc (e_sock e) q nx) ->
  let nodes1 := <[n := Node (d_ip d) (d_port d) (zlen (d_data d)) b 0]> (sk_nodes s) in
  let t := default zero_node (nodes1 !! q_tail q) in
  sk_nodes s' = (if negb (q_tail q =? 0) then <[q_tail q := Node (pn_src_ip t) (pn_src_port t) (pn_length t) (pn_payload t) n]> nodes1 else nodes1) ->
  sk_bufs s' = <[b := d_data d]> (sk_bufs s) -> socket_list s' = socket_list s -> next_port s' = next_port s ->
  sk_mem s' = <[e_ptr e := conc (received (e_sock e) d) (Queue (if negb (q_tail q =? 0) then q_head q else n) n (u32 (q_count q + 1))) nx]> (sk_mem s) ->
  sk_inv s' O (es1 ++ Ent (e_ptr e) (e_nodes e ++ [(n, b)]) (received (e_sock e) d) :: es2).
Proof using AllocLaws0.
  intros es I Hd Hn Hnf Hbf W Em nodes1 t En Eb El Ep Em'.
  assert (He : e ∈ es) by (apply elem_of_app; right; left).
  assert (Hsub : forall e', e' ∈ es1 ++ es2 -> e' ∈ es) by (clear; intros e' H; unfold es; set_solver).
  destruct (inv_sock s O es e I He) as (q0 & nx0 & Em0 & _ & Q). rewrite Em in Em0. injection Em0 as <- <-.
  destruct (ptrs_apart es1 e es2 (si_nodup _ _ _ I)) as [Hnd Hap]. destruct (fresh_facts n b _ O Hnf Hbf) as (Hnb & HnL & HbL & HnO & HbO).
  assert (Hin : forall e' x, e' ∈ es -> x ∈ ent_ptrs e' -> x <> n /\ x <> b).
  { intros e' x He' Hx. assert (x ∈ all_ptrs es) by (apply elem_of_concat_map; by exists e'). split; by intros ->. }
  assert (Hold : NoDup (node_ptrs (e_nodes e) ++ [n; b])).
  { apply list_relations.list.NoDup_cons in Hnd as [_ Hnd]. apply list_relations.list.NoDup_app. split_and!; [done| |].
    - intros x Hx [->|[->|[]%not_elem_of_nil]%elem_of_cons]%elem_of_cons; destruct (Hin e _ He (proj2 (elem_of_cons _ _ _) (or_intror Hx))); done.
    - constructor; [by intros ->%list_elem_of_singleton|]. constructor; [by intros []%not_elem_of_nil|constructor]. }
  eapply (inv_replace s s' O es1 e es2 q nx); try done.
  - intros e' m c He' Hm. destruct (node_in_ptrs e' m c Hm) as [Hm1 Hc1].
    destruct (Hin e' m (Hsub _ He') Hm1) as [Hmn _]. destruct (Hin e' c (Hsub _ He') Hc1) as [_ Hcb].
    rewrite En, Eb. unfold nodes1. split; [|by rewrite lookup_insert_ne by done].
    assert (m <> q_tail q \/ q_tail q = 0) as Ht.
    { rewrite (qo_tail _ _ _ _ _ Q). destruct (decide (e_nodes e = [])) as [->|Hne]; [by right|left].
      destruct (nodes_at_tail _ _ _ _ _ (qo_nodes _ _ _ _ _ Q) Hne) as (ns' & tp & tc & told & E & -> & _). intros ->.
      apply (Hap e' tp He' Hm1), (node_in_ptrs e tp tc). rewrite E. apply elem_of_app. right. left. }
    destruct Ht as [Ht| ->]; [|cbn; by rewrite lookup_insert_ne by done].
    destruct (negb _); rewrite ?lookup_insert_ne by done; done.
  - rewrite En, Eb. by apply queue_push.
  - exists (n :: b :: all_ptrs es). split_and!.
    + unfold es. rewrite replace_perm. unfold ent_ptrs. cbn [e_ptr e_nodes]. rewrite node_ptrs_app. cbn.
      rewrite <-!(assoc_L (++)). solve_Permutation.
    + constructor; [by intros [->|?]%elem_of_cons|]. constructor; [done|]. apply I.
    + intros p [->|[->|Hp]%elem_of_cons]%elem_of_cons; [done|done|by eapply si_other].
    + cbn [list_to_set]. by rewrite (assoc_L (∪) {[n]}), (comm_L (∪) {[n]} {[b]}), <-!(assoc_L (∪)).
Qed.

Lemma handle_ok s O es src_ip src_port dest_ip dest_port protocol payload :
  sk_inv s O es -> zlen payload < 2 ^ 16 ->
  let s' := socket_handle_incoming s src_ip src_port dest_ip dest_port protocol payload in
  (sk_inv s' O es /\ (find_ent (amatches dest_ip dest_port protocol) es = None \/ no_memory s (zlen payload))) \/
  (exists es1 e es2 n b, es = es1 ++ e :: es2 /\ amatches dest_ip dest_port protocol (e_sock e) = true /\
     Forall (fun e => amatches dest_ip dest_port protocol (e_sock e) = false) es1 /\ payload <> [] /\
     sk_inv s' O (es1 ++ Ent (e_ptr e) (e_nodes e ++ [(n, b)]) (received (e_sock e) (Dgram src_ip src_port payload)) :: es2)).
Proof using AllocLaws0.
  intros I Hl. unfold socket_handle_incoming. cbn zeta. rewrite (find_socket_inv s O es _ (amatches dest_ip dest_port protocol) I) by done.
  destruct (find_ent _ es) as [e|] eqn:Ef; [|left; cbn; split; [done|by left]]. cbn [fmap option_fmap option_map default from_option id].
  destruct (find_ent_split _ _ _ Ef) as (es1 & es2 & -> & Hmatch & Hbefore). pose proof (ptr_in (es1 ++ e :: es2) e ltac:(set_solver)) as Hin.
  rewrite (proj2 (Z.eqb_neq _ 0)) by (by eapply inv_nonnull). unfold no_memory, kmalloc_sk.
  destruct (al_malloc (sk_heap s) sizeof_packet_node) as [n h1] eqn:E1.
  destruct (al_malloc_ok _ _ sizeof_packet_node n h1 (si_heap _ _ _ I) ltac:(unfold sizeof_packet_node; lia) E1) as [[-> W1]|(Hn & Hnf & W1)].
  { left. cbn [Z.eqb]. split; [by apply inv_heap|]. right. by left. }
  rewrite (proj2 (Z.eqb_neq n 0)) by done. cbn [sk_heap put_heap].
  assert (Hz : 0 <= zlen payload) by (unfold zlen; lia).
  destruct (al_malloc h1 (zlen payload)) as [b h2] eqn:E2. destruct (al_malloc_ok _ _ (zlen payload) b h2 W1 ltac:(lia) E2) as [[-> W2]|(Hb & Hbf & W2)].
  { left. cbn [Z.eqb]. split; [|right; by right]. change (sk_inv (put_heap s (al_free h2 n)) O (es1 ++ e :: es2)).
    apply not_elem_of_union in Hnf as [Hnf1 Hnf2]. rewrite elem_of_list_to_set in Hnf1. apply inv_heap; [done|by apply free_one]. }
  rewrite (proj2 (Z.eqb_neq b 0)) by done. assert (0 < zlen payload) as Hpos.
  { destruct (Z.eq_dec (zlen payload) 0) as [E0|]; [|lia]. rewrite E0, al_malloc_zero in E2. by injection E2 as <- _. }
  right. exists es1, e, es2, n, b. split_and!; [done|done|done|by intros ->|].
  destruct (inv_sock s O _ e I ltac:(apply elem_of_app; right; left)) as (q & nx & Em & _).
  eapply (deliver_inv s _ O es1 e es2 (Dgram src_ip src_port payload) n b q nx); try done.
  all: unfold sock_at, node_at; cbn; rewrite ?Em; cbn; try (by destruct (negb _)).
  - rewrite (u16_small (zlen payload)) by lia. by destruct (negb _).
  - destruct (negb _); cbn; by rewrite Em.
Qed.

(** ** Reading *)
Definition with_queue (a : asock) (ds : list dgram) : asock :=
  ASock (a_id a) (a_state a) (a_type a) (a_protocol a) (a_local a) (a_remote a) (a_fd_refs a) ds.

(** Freeing a packet: its payload and then its node. *)
Lemma free_packet h (n b : Z) (L L0 : list Z) (O : gset Z) :
  al_wf h (list_to_set L0 ∪ O) -> L0 ≡ₚ n :: b :: L -> NoDup L0 -> (forall p, p ∈ L0 -> p ∉ O) ->
  al_wf (al_free (al_free h b) n) (list_to_set L ∪ O) /\ NoDup L /\ (forall p, p ∈ L -> p ∉ O).
Proof using AllocLaws0.
  intros W E Hnd HO. rewrite E in Hnd. setoid_rewrite E in HO.
  apply list_relations.list.NoDup_cons in Hnd as [H1 Hnd]. apply list_relations.list.NoDup_cons in Hnd as [H2 Hnd].
  split_and!; [|done|intros p Hp; apply HO; by do 2 right].
  apply free_one; [|intros ?; apply H1; by right|apply HO; left].
  assert ({[n]} ∪ (list_to_set L ∪ O) = list_to_set (n :: L) ∪ O) as -> by (cbn; by rewrite (assoc_L (∪))).
  apply free_one; [|intros [->|?]%elem_of_cons; [apply H1; left|done]|apply HO; right; left].
  assert (list_to_set L0 = (list_to_set (n :: b :: L) : gset Z)) as E' by (by rewrite E). rewrite E' in W.
  assert ({[b]} ∪ (list_to_set (n :: L) ∪ O) = list_to_set (n :: b :: L) ∪ O) as -> by (cbn; clear; set_solver). done.
Qed.

Lemma recv_ok s O es1 e es2 buf len nonblock : sk_inv s O (es1 ++ e :: es2) -> buf <> 0 -> 0 <= len ->
  match a_queue (e_sock e) with
  | [] => socket_recvfrom s (e_ptr e) buf len nonblock = (s, if nonblock then Returned (- EAGAIN) else Parked, [], None)
  | d :: ds => exists s' ns,
      socket_recvfrom s (e_ptr e) buf len nonblock =
        (s', Returned (Z.min len (zlen (d_data d))), take (Z.to_nat len) (d_data d), Some (AF_INET, d_port d, d_ip d)) /\
      sk_inv s' O (es1 ++ Ent (e_ptr e) ns (with_queue (e_sock e) ds) :: es2)
  end.
Proof using AllocLaws0.
  intros I Hb Hl. assert (He : e ∈ es1 ++ e :: es2) by (apply elem_of_app; right; left).
  destruct (inv_sock s O _ e I He) as (q & nx & Em & Ea & Q). unfold socket_recvfrom.
  rewrite (proj2 (Z.eqb_neq (e_ptr e) 0)), (proj2 (Z.eqb_neq buf 0)) by (done || (eapply inv_nonnull; [exact I|by apply ptr_in])).
  cbn [orb]. rewrite Ea. cbn [so_rx_queue conc]. pose proof (nodes_at_length _ _ _ _ _ (qo_nodes _ _ _ _ _ Q)) as Hlen.
  destruct (a_queue (e_sock e)) as [|d ds] eqn:Eq; destruct (e_nodes e) as [|[n b] ns] eqn:En; try discriminate Hlen.
  { pose proof (qo_nodes _ _ _ _ _ Q) as H0. cbn in H0. rewrite H0. cbn. by destruct nonblock. }
  destruct (queue_pop _ _ _ _ _ _ _ _ Q) as (-> & Hn & m & Enode & Ebuf & Q'). rewrite (proj2 (Z.eqb_neq n 0)) by done. cbn [negb].
  unfold node_at. rewrite Enode. cbn [default from_option id pn_next pn_length pn_payload pn_src_port pn_src_ip sk_bufs put_sock]. rewrite Ebuf.
  eexists _, ns. split.
  { cbn [default from_option id]. set (z := zlen (d_data d)) in *. assert ((if len <? z then len else z) = Z.min len z) as -> by (destruct (Z.ltb_spec len z); lia).
    assert (take (Z.to_nat (Z.min len z)) (d_data d) = take (Z.to_nat len) (d_data d)) as ->; [|reflexivity].
    destruct (Z.le_ge_cases len z); [by rewrite Z.min_l|]. unfold z, zlen in *. rewrite Z.min_r by done. rewrite !take_ge by lia. done. }
  assert (HP : all_ptrs (es1 ++ e :: es2) ≡ₚ n :: b :: (e_ptr e :: node_ptrs ns) ++ all_ptrs (es1 ++ es2)).
  { rewrite replace_perm. unfold ent_ptrs. rewrite En. cbn. solve_Permutation. }
  destruct (free_packet (sk_heap s) n b _ _ O (si_heap _ _ _ I) HP (si_nodup _ _ _ I) (si_other _ _ _ I)) as (W & Hnd & HO).
  eapply (inv_replace s _ O es1 e es2 q nx); try done. by eexists.
Qed.

(** ** Binding *)
Definition bound (a : asock) (addr : sockaddr_in) : asock :=
  ASock (a_id a) SOCKET_OPEN (a_type a) (a_protocol a) addr (a_remote a) (a_fd_refs a) (a_queue a).

Lemma bind_ok s O es1 e es2 addr : sk_inv s O (es1 ++ e :: es2) ->
  exists s', socket_bind s (e_ptr e) (Some addr) = (s', 0) /\ sk_inv s' O (es1 ++ Ent (e_ptr e) (e_nodes e) (bound (e_sock e) addr) :: es2).
Proof using AllocLaws0.
  intros I. assert (He : e ∈ es1 ++ e :: es2) by (apply elem_of_app; right; left).
  destruct (inv_sock s O _ e I He) as (q & nx & Em & Ea & Q). unfold socket_bind.
  rewrite (proj2 (Z.eqb_neq (e_ptr e) 0)) by (eapply inv_nonnull; [exact I|by apply ptr_in]).
  rewrite Ea. eexists. split; [done|]. by apply (inv_fields s O es1 e es2 q nx (bound (e_sock e) addr)).
Qed.

(** ** Closing *)
Lemma last_cons_default {B} (l : list B) x d : last (x :: l) d = last l x.
Proof using.
  revert x d. induction l as [|y l IH]; intros x d; [done|]. change (last (x :: y :: l) d) with (last (y :: l) d). by rewrite !IH.
Qed.

Lemma find_link_ok s x l2 l1 : forall fuel link, chain (sk_next s) (link_get s link) (l1 ++ x :: l2) ->
  (forall y, y ∈ l1 -> y <> 0 /\ y <> x) -> (length l1 <= fuel)%nat -> find_link fuel s x link = last l1 link.
Proof using.
  induction l1 as [|y l1 IH]; intros fuel link C Hy Hf.
  - cbn in C. destruct C as (E & _). destruct fuel; cbn [find_link]; [done|]. by rewrite E, Z.eqb_refl, andb_false_r.
  - cbn in C. destruct C as (E & n & En & C). destruct fuel as [|fuel]; [cbn in Hf; lia|]. cbn [find_link]. rewrite E.
    destruct (Hy y) as [H0 Hx]; [left|]. rewrite (proj2 (Z.eqb_neq y 0)), (proj2 (Z.eqb_neq y x)) by done. cbn [negb andb].
    rewrite last_cons_default. apply IH; [|intros; apply Hy; by right|cbn in Hf; lia].
    unfold link_get. rewrite (proj2 (Z.eqb_neq y 0)) by done. unfold sk_next in En. unfold sock_at.
    destruct (sk_mem s !! y); [|done]. injection En as <-. exact C.
Qed.

Lemma drain_ok O L ns : forall ds fuel s p, nodes_at (sk_nodes s) (sk_bufs s) p ns ds -> (length ns <= fuel)%nat ->
  al_wf (sk_heap s) (list_to_set (node_ptrs ns ++ L) ∪ O) -> NoDup (node_ptrs ns ++ L) -> (forall x, x ∈ node_ptrs ns ++ L -> x ∉ O) ->
  exists h, drain fuel s p = put_heap s h /\ al_wf h (list_to_set L ∪ O).
Proof using AllocLaws0.
  induction ns as [|[n b] ns IH]; intros [|d ds] fuel s p C Hf W Hnd HO; try done.
  - exists (sk_heap s). split; [|done]. cbn in C. subst p. destruct fuel, s; done.
  - cbn in C. destruct C as (-> & Hn & nx & En & Eb & C). destruct fuel as [|fuel]; [cbn in Hf; lia|]. cbn [drain].
    rewrite (proj2 (Z.eqb_neq n 0)) by done. unfold node_at. rewrite En. cbn [default from_option id pn_next pn_payload].
    destruct (free_packet (sk_heap s) n b (node_ptrs ns ++ L) _ O W ltac:(done) Hnd HO) as (W' & Hnd' & HO').
    apply (IH ds fuel (put_heap s (al_free (al_free (sk_heap s) b) n)) nx); [exact C|cbn in Hf; lia|done|done|done].
Qed.

Lemma nodes_size nodes bufs ns : forall p ds, nodes_at nodes bufs p ns ds -> NoDup (node_ptrs ns) -> (length ns <= size nodes)%nat.
Proof using.
  intros p ds C Hnd. assert (NoDup ns.*1) as Hnd1.
  { clear C. induction ns as [|[n b] ns IH]; [constructor|]. cbn in Hnd. apply list_relations.list.NoDup_cons in Hnd as [H1 Hnd].
    apply list_relations.list.NoDup_cons in Hnd as [_ Hnd]. rewrite fmap_cons. constructor; [|by apply IH].
    intros ([m c] & E & Hm)%list_elem_of_fmap. cbn in E. subst m. apply H1. right. apply elem_of_node_ptrs. exists n, c. tauto. }
  rewrite <-(length_fmap fst ns), <-size_dom, <-(size_list_to_set (C := gset Z)) by done. apply subseteq_size. intros x Hx.
  apply elem_of_list_to_set in Hx. clear Hnd Hnd1. revert p ds C. induction ns as [|[n b] ns IH]; intros p [|d ds] C; try done; [by apply not_elem_of_nil in Hx|].
  cbn in C. destruct C as (-> & _ & nx & En & _ & C). apply elem_of_cons in Hx as [->|Hx]; [apply elem_of_dom; by eexists|by eapply IH].
Qed.

Lemma ent_ok_relink s p n e : ent_ok s e -> ent_ok (put_sock s p (set_link (sock_at s p) n)) e.
Proof using.
  intros (q & nx & E & Q). destruct (Z.eq_dec (e_ptr e) p) as [<-|Hne].
  - exists q, n. split; [|exact Q]. unfold sock_at. rewrite E. cbn. by rewrite lookup_insert_eq.
  - exists q, nx. split; [|exact Q]. cbn. by rewrite lookup_insert_ne.
Qed.

(** The list without the socket; nothing else changes. *)
Lemma unlink_ok s O es1 e es2 q nx : sk_inv s O (es1 ++ e :: es2) -> sk_mem s !! e_ptr e = Some (conc (e_sock e) q nx) ->
  let link := find_link (size (sk_mem s)) s (e_ptr e) 0 in
  let s1 := link_set s link nx in
  link_get s link = e_ptr e /\ chain (sk_next s1) (socket_list s1) (e_ptr <$> (es1 ++ es2)) /\ Forall (ent_ok s1) (es1 ++ es2) /\
  sk_mem s1 !! e_ptr e = sk_mem s !! e_ptr e /\ sk_heap s1 = sk_heap s /\ sk_nodes s1 = sk_nodes s /\ sk_bufs s1 = sk_bufs s /\
  next_port s1 = next_port s.
Proof using AllocLaws0.
  intros I Em link s1. pose proof (nodup_ptrs _ (si_nodup _ _ _ I)) as Hnd. pose proof (si_chain _ _ _ I) as C.
  rewrite fmap_app, fmap_cons in Hnd, C. apply list_relations.list.NoDup_app in Hnd as (N1 & N2 & N3).
  assert (Hlink : link = last (e_ptr <$> es1) 0).
  { apply (find_link_ok s (e_ptr e) (e_ptr <$> es2)); [exact C| |rewrite length_fmap; pose proof (inv_length _ _ _ I) as Hl; rewrite length_app in Hl; lia].
    intros y Hy. split; [|intros ->; apply (N2 (e_ptr e) Hy); left]. apply list_elem_of_fmap in Hy as (e' & -> & He').
    eapply inv_nonnull; [exact I|]. apply ptr_in, elem_of_app. by left. }
  assert (F : Forall (ent_ok s) (es1 ++ es2)).
  { pose proof (si_ents _ _ _ I) as F. apply Forall_app in F as [F1 F2]. inversion_clear F2. by apply Forall_app. }
  destruct es1 as [|e0 es0 _] using rev_ind.
  - subst s1. rewrite Hlink. cbn in C |- *. destruct C as (E & n & En & C). unfold sk_next in En. rewrite Em in En. injection En as <-.
    by split_and!.
  - rewrite fmap_app in Hlink, C, N1, N2. change (e_ptr <$> [e0]) with [e_ptr e0] in *. rewrite last_last in Hlink.
    rewrite <-(assoc_L (++)) in C. cbn [app] in C. set (p0 := e_ptr e0) in *.
    assert (He0 : e0 ∈ (es0 ++ [e0]) ++ e :: es2) by set_solver. destruct (inv_sock s O _ e0 I He0) as (q0 & nx0 & Em0 & Ea0 & Q0).
    pose proof (inv_nonnull s O _ _ I (ptr_in _ _ He0)) as Hp0. fold p0 in Hp0, Em0, Ea0.
    pose proof (chain_mid _ _ _ _ _ _ C) as Hmid. unfold sk_next in Hmid. rewrite Em0 in Hmid. injection Hmid as Hmid.
    assert (Hs1 : s1 = put_sock s p0 (conc (e_sock e0) q0 nx)).
    { unfold s1, link_set. rewrite Hlink, (proj2 (Z.eqb_neq p0 0)), Ea0 by done. done. }
    rewrite Hs1. cbn [socket_list put_sock sk_mem sk_heap sk_nodes sk_bufs next_port].
    apply list_relations.list.NoDup_app in N1 as (N1 & N1' & _).
    assert (Hne : p0 <> e_ptr e) by (intros E; apply (N2 p0); [set_solver|rewrite E; left]).
    split_and!; try done.
    + unfold link_get. by rewrite Hlink, (proj2 (Z.eqb_neq p0 0)), Ea0 by done.
    + rewrite <-(assoc_L (++)). cbn [app]. rewrite fmap_app, fmap_cons. eapply (chain_unlink _ _ p0 (e_ptr e) nx _ _ _ C).
      * unfold sk_next. by rewrite Em.
      * unfold sk_next. cbn. by rewrite lookup_insert_eq.
      * intros z Hz. unfold sk_next. cbn. rewrite lookup_insert_ne; [done|]. intros <-. apply elem_of_app in Hz as [Hz|Hz];
          [by apply (N1' p0 Hz); left|by apply (N2 p0); [set_solver|right]].
    + eapply Forall_impl; [|exact F]. intros e' He'. assert (conc (e_sock e0) q0 nx = set_link (sock_at s p0) nx) as -> by (by rewrite Ea0).
      by apply ent_ok_relink.
    + by rewrite lookup_insert_ne.
Qed.

Lemma close_ok s O es1 e es2 : sk_inv s O (es1 ++ e :: es2) -> sk_inv (socket_close s (e_ptr e)) O (es1 ++ es2).
Proof using AllocLaws0.
  intros I. assert (He : e ∈ es1 ++ e :: es2) by (apply elem_of_app; right; left).
  destruct (inv_sock s O _ e I He) as (q & nx & Em & Ea & Q). unfold socket_close.
  rewrite (proj2 (Z.eqb_neq (e_ptr e) 0)) by (eapply inv_nonnull; [exact I|by apply ptr_in]).
  destruct (unlink_ok s O es1 e es2 q nx I Em) as (Hl & C & F & Em1 & Eh & En & Eb & Ep). cbn zeta in *.
  rewrite Hl, Z.eqb_refl, Ea. cbn [so_next conc]. set (s1 := link_set s _ nx) in *.
  assert (sock_at s1 (e_ptr e) = conc (e_sock e) q nx) as -> by (unfold sock_at; by rewrite Em1, Em). cbn [so_rx_queue conc].
  pose proof (si_nodup _ _ _ I) as Hnd. rewrite replace_perm in Hnd.
  assert (HP : all_ptrs (es1 ++ e :: es2) ≡ₚ node_ptrs (e_nodes e) ++ e_ptr e :: all_ptrs (es1 ++ es2)).
  { rewrite replace_perm. unfold ent_ptrs. cbn. solve_Permutation. }
  destruct (ptrs_apart es1 e es2 (si_nodup _ _ _ I)) as [Hnde _]. apply list_relations.list.NoDup_cons in Hnde as [Hpe Hnde].
  destruct (drain_ok O (e_ptr e :: all_ptrs (es1 ++ es2)) (e_nodes e) (a_queue (e_sock e)) (size (sk_nodes s1)) s1 (q_head q)) as (h & -> & W).
  - rewrite En, Eb. apply Q.
  - rewrite En. eapply nodes_size; [apply Q|done].
  - rewrite Eh. assert (list_to_set (all_ptrs (es1 ++ e :: es2)) = (list_to_set (node_ptrs (e_nodes e) ++ e_ptr e :: all_ptrs (es1 ++ es2)) : gset Z)) as <- by (by rewrite HP).
    apply I.
  - rewrite <-HP. apply I.
  - intros x. rewrite <-HP. apply I.
  - apply list_relations.list.NoDup_app in Hnd as (_ & Hd & Hnd). split; [exact C|exact F|done| | |].
    + intros x Hx. apply (si_other _ _ _ I). rewrite HP. apply elem_of_app. by do 2 right.
    + apply free_one; [|apply Hd; left|eapply si_other; [exact I|by apply ptr_in]]. cbn in W. by rewrite (assoc_L (∪)).
    + cbn. rewrite Ep. apply I.
Qed.

(** ** Ephemeral ports *)
Definition host_port (a : asock) : Z := from_be16 (sa_port (a_local a)).
Definition port_used (es : list ent) (c : Z) : Prop := exists e, e ∈ es /\ host_port (e_sock e) = c.

Lemma find_ent_none p es : find_ent p es = None <-> forall e, e ∈ es -> p (e_sock e) = false.
Proof using.
  induction es as [|x es IH]; [split; [by intros _ e []%not_elem_of_nil|done]|]. rewrite find_ent_cons. destruct (p (e_sock x)) eqn:E.
  - split; [done|]. intros H. rewrite (H x) in E; [done|left].
  - rewrite IH. split; [|intros H e He; apply H; by right]. intros H e [->|He]%elem_of_cons; auto.
Qed.

Lemma port_taken_ok s O es c : sk_inv s O es -> port_taken s c = true <-> port_used es c.
Proof using AllocLaws0.
  intros I. unfold port_taken. rewrite (find_socket_inv s O es _ (fun a => host_port a =? c) I) by done.
  destruct (find_ent _ es) as [e|] eqn:E; cbn.
  - destruct (find_ent_split _ _ _ E) as (es1 & es2 & -> & Hp & _). zbool.
    rewrite (proj2 (Z.eqb_neq (e_ptr e) 0)) by (eapply inv_nonnull; [exact I|apply ptr_in; set_solver]).
    split; [|done]. intros _. exists e. split; [set_solver|done].
  - split; [done|]. intros (e & He & Hc). apply find_ent_none with (e := e) in E; [|done]. zbool. done.
Qed.

Definition port_succ (x : Z) : Z := if x >=? 60999 then 32768 else u16 (x + 1).

Lemma port_succ_range x : 32768 <= x <= 60999 -> 32768 <= port_succ x <= 60999.
Proof using. intros. unfold port_succ. rewrite Z.geb_leb. destruct (Z.leb_spec 60999 x); [lia|]. rewrite u16_small; lia. Qed.

(** The candidates walk around the range. *)
Lemma port_iter x k : 32768 <= x <= 60999 -> Nat.iter k port_succ x = 32768 + (x - 32768 + Z.of_nat k) mod 28232.
Proof using.
  intros Hx. induction k as [|k IH].
  - cbn. rewrite Z.add_0_r, Z.mod_small; lia.
  - change (Nat.iter (S k) port_succ x) with (port_succ (Nat.iter k port_succ x)). rewrite IH, Nat2Z.inj_succ.
    set (y := x - 32768 + Z.of_nat k). replace (x - 32768 + Z.succ (Z.of_nat k)) with (y + 1) by (unfold y; lia).
    rewrite <-(Zplus_mod_idemp_l y). pose proof (Z.mod_pos_bound y 28232). set (r := y mod 28232) in *. unfold port_succ. rewrite Z.geb_leb.
    destruct (Z.leb_spec 60999 (32768 + r)).
    + replace r with 28231 by lia. done.
    + rewrite u16_small, Z.mod_small; lia.
Qed.

Lemma inv_port s O es x : sk_inv s O es -> 32768 <= x <= 60999 -> sk_inv (put_next_port s x) O es.
Proof using. intros [C F N X H _] Hx. by split. Qed.

Lemma ephemeral_loop_ok O es k : forall s, sk_inv s O es ->
  let '(s', r) := ephemeral_loop k s in sk_inv s' O es /\
    ((exists c, r = to_be16 c /\ 32768 <= c <= 60999 /\ ~ port_used es c) \/
     (r = 0 /\ forall i, (i < k)%nat -> port_used es (Nat.iter i port_succ (next_port s)))).
Proof using AllocLaws0.
  induction k as [|k IH]; intros s I; cbn [ephemeral_loop]; [split; [done|right; split; [done|lia]]|].
  pose proof (si_port _ _ _ I) as Hp. pose proof (port_succ_range _ Hp) as Hs. set (x := next_port s) in *. fold (port_succ x).
  pose proof (inv_port _ _ _ _ I Hs) as I'. pose proof (port_taken_ok _ _ _ x I') as Ht. destruct (port_taken _ x); cbn [negb].
  - specialize (IH _ I'). destruct (ephemeral_loop k _) as [s' r]. destruct IH as [I'' [H|[-> H]]]; split; [done|by left|done|right].
    split; [done|]. intros [|i] Hi; [by apply Ht|]. rewrite Nat.iter_succ_r. apply H. lia.
  - split; [done|]. left. exists x. split_and!; try lia. intros Hu. by apply Ht in Hu.
Qed.

Lemma ephemeral_ok s O es s' r : sk_inv s O es -> socket_alloc_ephemeral_port s = (s', r) -> sk_inv s' O es /\
  ((exists c, r = to_be16 c /\ 32768 <= c <= 60999 /\ ~ port_used es c) \/
   (r = 0 /\ forall c, 32768 <= c <= 60999 -> port_used es c)).
Proof using AllocLaws0.
  intros I E. pose proof (ephemeral_loop_ok O es (Z.to_nat 28232) s I) as H. unfold socket_alloc_ephemeral_port in E. rewrite E in H.
  destruct H as [I' [H|[-> H]]]; split; [done|by left|done|right; split; [done|]]. intros c Hc. pose proof (si_port _ _ _ I) as Hp.
  pose proof (Z.mod_pos_bound (c - next_port s) 28232 ltac:(lia)) as Hm.
  specialize (H (Z.to_nat ((c - next_port s) mod 28232))). rewrite port_iter, Z2Nat.id, Zplus_mod_idemp_r in H by lia.
  replace (next_port s - 32768 + (c - next_port s)) with (c - 32768) in H by lia. rewrite (Z.mod_small (c - 32768)) in H by lia.
  replace (32768 + (c - 32768)) with c in H by lia. apply H. lia.
Qed.

(** ** The contract *)
Inductive sop :=
  | SCreate (type protocol : Z)
  | SBind (sock : Z) (addr : sockaddr_in)
  | SDeliver (src_ip : list Z) (src_port : Z) (dest_ip : list Z) (dest_port protocol : Z) (payload : list Z)
  | SRecv (sock buf len : Z) (nonblock : bool)
  | SClose (sock : Z).
Inductive sres := RVoid | RVal (r : Z) | RRecv (r : round) (data : list Z) (src : option (Z * Z * list Z)).

Definition sexec s (op : sop) : sockets A * sres :=
  match op with
  | SCreate t p => let '(s, r) := socket_create s t p in (s, RVal r)
  | SBind p a => let '(s, r) := socket_bind s p (Some a) in (s, RVal r)
  | SDeliver si sp di dp pr d => (socket_handle_incoming s si sp di dp pr d, RVoid)
  | SRecv p b n nb => let '(s, r, d, src) := socket_recvfrom s p b n nb in (s, RRecv r d src)
  | SClose p => (socket_close s p, RVoid)
  end.

(** The abstract machine: sockets in the order of the list, most recent first. *)
Abbreviation aview := (list (Z * asock)).
Definition view (es : list ent) : aview := (fun e => (e_ptr e, e_sock e)) <$> es.

Inductive sstep (nomem : Z -> Prop) : aview -> sop -> sres -> aview -> Prop :=
  | ss_create_fail V t p : sstep nomem V (SCreate t p) (RVal 0) V
  | ss_create V t p r id : r <> 0 -> r ∉ V.*1 -> sstep nomem V (SCreate t p) (RVal r) ((r, fresh id t p) :: V)
  | ss_bind V1 V2 p a addr : sstep nomem (V1 ++ (p, a) :: V2) (SBind p addr) (RVal 0) (V1 ++ (p, bound a addr) :: V2)
  | ss_nobody V si sp di dp pr d : Forall (fun x => amatches di dp pr (snd x) = false) V -> sstep nomem V (SDeliver si sp di dp pr d) RVoid V
  | ss_nomem V si sp di dp pr d : nomem (zlen d) -> sstep nomem V (SDeliver si sp di dp pr d) RVoid V
  | ss_deliver V1 V2 p a si sp di dp pr d : d <> [] -> Forall (fun x => amatches di dp pr (snd x) = false) V1 -> amatches di dp pr a = true ->
      sstep nomem (V1 ++ (p, a) :: V2) (SDeliver si sp di dp pr d) RVoid (V1 ++ (p, received a (Dgram si sp d)) :: V2)
  | ss_recv V1 V2 p a d ds b n nb : a_queue a = d :: ds ->
      sstep nomem (V1 ++ (p, a) :: V2) (SRecv p b n nb)
        (RRecv (Returned (Z.min n (zlen (d_data d)))) (take (Z.to_nat n) (d_data d)) (Some (AF_INET, d_port d, d_ip d)))
        (V1 ++ (p, with_queue a ds) :: V2)
  | ss_empty V1 V2 p a b n nb : a_queue a = [] ->
      sstep nomem (V1 ++ (p, a) :: V2) (SRecv p b n nb) (RRecv (if nb then Returned (- EAGAIN) else Parked) [] None) (V1 ++ (p, a) :: V2)
  | ss_close V1 V2 p a : sstep nomem (V1 ++ (p, a) :: V2) (SClose p) RVoid (V1 ++ V2).

(** Callers pass sockets they hold. *)
Definition sop_ok (V : aview) (op : sop) : Prop :=
  match op with
  | SCreate _ _ => True
  | SBind p _ | SClose p => p ∈ V.*1
  | SDeliver _ _ _ _ _ d => zlen d < 2 ^ 16
  | SRecv p b n _ => p ∈ V.*1 /\ b <> 0 /\ 0 <= n
  end.

Lemma sock_view_split p es : p ∈ (view es).*1 -> exists es1 e es2, es = es1 ++ e :: es2 /\ e_ptr e = p.
Proof using.
  intros ([q a] & -> & (e & [= -> ->] & He)%list_elem_of_fmap)%list_elem_of_fmap.
  apply list_elem_of_split in He as (es1 & es2 & ->). by exists es1, e, es2.
Qed.

Lemma view_mid es1 e es2 : view (es1 ++ e :: es2) = view es1 ++ (e_ptr e, e_sock e) :: view es2.
Proof using. unfold view. by rewrite fmap_app, fmap_cons. Qed.

Lemma deliver_step s O es si sp di dp pr d : sk_inv s O es -> zlen d < 2 ^ 16 ->
  exists es', sk_inv (socket_handle_incoming s si sp di dp pr d) O es' /\ sstep (no_memory s) (view es) (SDeliver si sp di dp pr d) RVoid (view es').
Proof using AllocLaws0.
  intros I Hl. destruct (handle_ok s O es si sp di dp pr d I Hl) as [[I' Hwhy]|(es1 & e & es2 & n & b & -> & Hm & Hb & Hd & I')].
  - exists es. split; [done|]. destruct Hwhy as [Hn|Hm]; [|by apply ss_nomem]. apply ss_nobody, list_relations.list.Forall_forall.
    intros x (e & -> & He)%list_elem_of_fmap. by apply (proj1 (find_ent_none _ _) Hn).
  - eexists. split; [exact I'|]. rewrite !view_mid. apply ss_deliver; [done| |done]. unfold view. by apply Forall_fmap.
Qed.

Lemma sock_step s O es op : sk_inv s O es -> sop_ok (view es) op ->
  exists es', sk_inv (fst (sexec s op)) O es' /\ sstep (no_memory s) (view es) op (snd (sexec s op)) (view es').
Proof using AllocLaws0.
  intros I Hop. destruct op as [t p|p addr|si sp di dp pr d|p b n nb|p]; cbn [sexec sop_ok] in *.
  - destruct (socket_create s t p) as [s' r] eqn:E. destruct (create_ok s O es t p s' r I E) as [[-> I']|(Hr & Hn & I')].
    + exists es. split; [done|constructor].
    + eexists. split; [exact I'|]. apply (ss_create _ (view es) t p r (next_socket_id s)); [done|]. intros (es1 & e & es2 & -> & <-)%sock_view_split. apply Hn, ptr_in. set_solver.
  - apply sock_view_split in Hop as (es1 & e & es2 & -> & <-). destruct (bind_ok s O es1 e es2 addr I) as (s' & -> & I').
    eexists. split; [exact I'|]. rewrite !view_mid. constructor.
  - by apply deliver_step.
  - destruct Hop as ((es1 & e & es2 & -> & <-)%sock_view_split & Hb & Hn). pose proof (recv_ok s O es1 e es2 b n nb I Hb Hn) as R.
    destruct (a_queue (e_sock e)) as [|d ds] eqn:Eq.
    + rewrite R. exists (es1 ++ e :: es2). split; [done|]. rewrite view_mid. by constructor.
    + destruct R as (s' & ns & -> & I'). eexists. split; [exact I'|]. rewrite !view_mid. by constructor.
  - apply sock_view_split in Hop as (es1 & e & es2 & -> & <-). exists (es1 ++ es2). split; [by apply close_ok|].
    rewrite view_mid. unfold view. rewrite fmap_app. constructor.
Qed.

Lemma sock_init h O : al_wf h O -> sk_inv (Sockets h ∅ ∅ ∅ 0 1 32768) O [].
Proof using.
  intros W. split; cbn; [done|constructor|constructor|by intros p []%not_elem_of_nil| |lia]. by rewrite (left_id_L ∅ (∪)).
Qed.
End spec.

(** ** Properties *)
Section properties.
Context {A : Type} `{!AllocOps A, !AllocLaws A}.

(** C14: every socket operation keeps the linked structures sound and acts as
    the abstract machine: a new socket goes to the front of the list; a datagram
    goes to the end of the queue of the first socket bound to its protocol, port
    and address (or any address), or is dropped because there is none or no
    memory; reading takes the oldest datagram, cut to the buffer, with its
    sender, and blocks exactly when the queue is empty; closing removes
    exactly that socket. The live heap allocations are at all times those of
    the sockets and queued packets and the allocations [O] of the rest of the
    kernel: nothing is leaked, freed twice or shared. *)
Theorem sock_refines (s : sockets A) O es op : sk_inv s O es -> sop_ok (view es) op ->
  exists es', sk_inv (fst (sexec s op)) O es' /\ sstep (no_memory s) (view es) op (snd (sexec s op)) (view es').
Proof using AllocLaws0. apply sock_step. Qed.

(** [socket_alloc_ephemeral_port] returns a port of 32768..60999, in
    network order, that no socket is bound to, whatever the port it starts from, and
    returns 0 only when every port of that range is taken. *)
Theorem ephemeral_port_correct (s : sockets A) O es s' r : sk_inv s O es -> socket_alloc_ephemeral_port s = (s', r) ->
  sk_inv s' O es /\
  ((exists c, r = to_be16 c /\ 32768 <= c <= 60999 /\ ~ port_used es c) \/
   (r = 0 /\ forall c, 32768 <= c <= 60999 -> port_used es c)).
Proof using AllocLaws0. apply ephemeral_ok. Qed.
End properties.

(** A socket bound to port 5000 on the freshly initialised kernel heap. *)
Definition ex_sk0 : sockets (kheap (vst pmm)) := Sockets (KHeap (fst ex_heap_init) ex_root1 (snd ex_heap_init)) ∅ ∅ ∅ 0 1 32768.
Definition ex_sk1 : sockets (kheap (vst pmm)) := fst (socket_create ex_sk0 SOCK_DGRAM IPPROTO_UDP).
Definition ex_ptr : Z := HEAP_BASE + 32.
Definition ex_addr : sockaddr_in := SockAddr AF_INET (to_be16 5000) [0; 0; 0; 0] (replicate 8 0).
Definition ex_sk2 : sockets (kheap (vst pmm)) := fst (socket_bind ex_sk1 ex_ptr (Some ex_addr)).
Definition ex_ent : ent := Ent ex_ptr [] (bound (fresh 1 SOCK_DGRAM IPPROTO_UDP) ex_addr).

Lemma ex_sk0_inv : sk_inv ex_sk0 ∅ [].
Proof.
  apply sock_init. destruct (proj1 (bool_decide_eq_true _) ex_heap_some) as [[s h] E].
  destruct (heap_init_inv ex_vst ex_root1 {[ ex_root1 ]} ex_heap0 s h ex_heap_wf ex_heap_room E) as (l & I & Hl).
  exists l. unfold ex_heap_init. rewrite E. split; [exact I|]. unfold ptrs. by rewrite Hl.
Qed.

Lemma ex_sk1_ptr : snd (socket_create ex_sk0 SOCK_DGRAM IPPROTO_UDP) = ex_ptr.
Proof. vm_compute. reflexivity. Qed.

Lemma ex_sk2_inv : sk_inv ex_sk2 ∅ [ex_ent].
Proof.
  unfold ex_sk2, ex_sk1. pose proof ex_sk1_ptr as Hp. destruct (socket_create ex_sk0 SOCK_DGRAM IPPROTO_UDP) as [s1 p] eqn:E. cbn [fst snd] in *. subst p.
  destruct (create_ok ex_sk0 ∅ [] _ _ s1 ex_ptr ex_sk0_inv E) as [[H _]|(_ & _ & I)]; [discriminate H|].
  destruct (bind_ok s1 ∅ [] _ [] ex_addr I) as (s2 & Eb & I2). cbn [e_ptr] in Eb. rewrite Eb. exact I2.
Qed.

Definition ex_deliver : sop := SDeliver [10; 0; 2; 2] (to_be16 4242) [10; 0; 2; 15] (to_be16 5000) IPPROTO_UDP [104; 105].

Lemma sock_refines_witness :
  (exists es', sk_inv (fst (sexec ex_sk2 ex_deliver)) ∅ es' /\ sstep (no_memory ex_sk2) [(ex_ptr, e_sock ex_ent)] ex_deliver RVoid (view es')) /\
  snd (sexec (fst (sexec ex_sk2 ex_deliver)) (SRecv ex_ptr 1 512 true)) = RRecv (Returned 2) [104; 105] (Some (AF_INET, to_be16 4242, [10; 0; 2; 2])).
Proof.
  split; [|vm_compute; reflexivity]. apply (sock_refines ex_sk2 ∅ [ex_ent] ex_deliver ex_sk2_inv). vm_compute. reflexivity.
Defined.

Lemma ephemeral_port_correct_witness : exists s' r, socket_alloc_ephemeral_port ex_sk2 = (s', r) /\ r = to_be16 32768 /\ sk_inv s' ∅ [ex_ent].
Proof.
  assert (Hr : snd (socket_alloc_ephemeral_port ex_sk2) = to_be16 32768) by (vm_compute; reflexivity).
  destruct (socket_alloc_ephemeral_port ex_sk2) as [s' r] eqn:E. exists s', r. split; [reflexivity|]. split; [exact Hr|].
  destruct (ephemeral_port_correct ex_sk2 ∅ [ex_ent] s' r ex_sk2_inv E) as [I _]. exact I.
Defined.
