(* ===== verification/Arp.v ===== *)
(** The network interface, Ethernet output and ARP, [kernel/net/netif.c],
    [kernel/net/eth.c] (output) and [kernel/net/arp.c].

    The driver behind the interface is a parameter: a state of any type and
    the [tx] function it registers, which receives a complete frame.  [wire]
    records the frames handed to the driver, in order.  Locks protect each
    step here from the others; ARP transmits outside of its lock, and no
    other call is taken to run between.  The tick counter is read-only. *)
From S2P Require Import Prelude.
From S2P Require Import Inet.

Definition ETH_ALEN : Z := 6.
Definition ETH_HDR_LEN : Z := 14.
Definition ETH_FRAME_MAX : Z := 1514.
Definition ETH_TYPE_IPV4 : Z := 0x0800.
Definition ETH_TYPE_ARP : Z := 0x0806.
Definition eth_broadcast : list Z := replicate 6 0xFF.

(** ** The interface *)
Record netif (D : Type) := Netif {
  nif_mac : list Z;
  nif_ipv4 : list Z;
  nif_netmask : list Z;
  nif_gateway : list Z;
  nif_mtu : Z;
  nif_driver_data : Z;
  nif_tx : option (Z -> list Z -> D -> Z * D);
}.
Arguments Netif {D}.
Arguments nif_mac {D}.
Arguments nif_ipv4 {D}.
Arguments nif_netmask {D}.
Arguments nif_gateway {D}.
Arguments nif_mtu {D}.
Arguments nif_driver_data {D}.
Arguments nif_tx {D}.

(** [lk_stack] is what a frame buffer on the stack holds before it is written. *)
Record link (D : Type) := Link {
  lk_registered : bool;
  lk_interface : netif D;
  lk_drv : D;
  lk_stack : list Z;
  lk_wire : list (list Z);
}.
Arguments Link {D}.
Arguments lk_registered {D}.
Arguments lk_interface {D}.
Arguments lk_drv {D}.
Arguments lk_stack {D}.
Arguments lk_wire {D}.

Record clock := Clock { pit_ticks : Z; pit_get_freq : Z }.

(** ** The ARP cache and the frames parked behind it *)
Definition ARP_CACHE_ENTRIES : Z := 16.
Definition ARP_PENDING_SLOTS : Z := 4.
Definition ARP_ENTRY_TTL_MS : Z := 120000.
Definition ARP_RETRY_MS : Z := 1000.
Definition ARP_MAX_RETRIES : Z := 3.
Definition ARP_HTYPE_ETHERNET : Z := 1.
Definition ARP_OP_REQUEST : Z := 1.
Definition ARP_OP_REPLY : Z := 2.

Inductive arp_state := ARP_FREE | ARP_PENDING | ARP_VALID.
#[export] Instance arp_state_eq_dec : EqDecision arp_state.
Proof. solve_decision. Defined.

Record arp_entry := ArpEntry { ae_ip : list Z; ae_mac : list Z; ae_state : arp_state; ae_retries : Z; ae_deadline : Z }.
Definition zero_entry : arp_entry := ArpEntry (replicate 4 0) (replicate 6 0) ARP_FREE 0 0.
Record arp_pending := ArpPending {
  ap_in_use : bool;
  ap_entry : nat;
  ap_type : Z;
  ap_payload_len : Z;
  ap_queued_at : Z;
  ap_frame : list Z;
}.
Record arp := Arp { arp_cache : list arp_entry; arp_pend : list arp_pending }.

Definition entry_at (a : arp) (i : nat) : arp_entry := default zero_entry (arp_cache a !! i).
Definition set_entry (a : arp) (i : nat) (e : arp_entry) : arp := Arp (<[i := e]> (arp_cache a)) (arp_pend a).
Definition set_pend (a : arp) (k : nat) (p : arp_pending) : arp := Arp (arp_cache a) (<[k := p]> (arp_pend a)).
Definition release (p : arp_pending) : arp_pending :=
  ArpPending false (ap_entry p) (ap_type p) (ap_payload_len p) (ap_queued_at p) (ap_frame p).

Definition arp_deadline (ck : clock) (ms : Z) : Z :=
  let hz := if pit_get_freq ck =? 0 then 1000 else pit_get_freq ck in
  let ticks := (ms ⊗ hz) / 1000 in
  let ticks := if ticks =? 0 then 1 else ticks in
  pit_ticks ck ⊕ ticks.

Definition entry_is (ip : list Z) (e : arp_entry) : bool := negb (bool_decide (ae_state e = ARP_FREE)) && ipv4_addr_equal (ae_ip e) ip.
Definition arp_find_locked (a : arp) (ip : list Z) : option nat := fst <$> list_find (fun e => Is_true (entry_is ip e)) (arp_cache a).

Definition arp_drop_pending_locked (a : arp) (entry_index : nat) : arp :=
  Arp (arp_cache a) ((fun p => if ap_in_use p && (ap_entry p =? entry_index)%nat then release p else p) <$> arp_pend a).

(** The first free entry, or the last of those that beat the victim so far. *)
Fixpoint arp_alloc_loop (l : list arp_entry) (i victim : nat) (vdeadline : Z) : nat + nat :=
  match l with
  | [] => inr victim
  | e :: l =>
      if bool_decide (ae_state e = ARP_FREE) then inl i
      else if ae_deadline e <? vdeadline then arp_alloc_loop l (S i) i (ae_deadline e)
      else arp_alloc_loop l (S i) victim vdeadline
  end.
Definition arp_alloc_locked (a : arp) : arp * nat :=
  match arp_alloc_loop (arp_cache a) 0 0 (ae_deadline (entry_at a 0)) with
  | inl i => (a, i)
  | inr victim => (set_entry (arp_drop_pending_locked a victim) victim zero_entry, victim)
  end.

Fixpoint arp_pending_alloc_loop (l : list arp_pending) (i victim : nat) (vqueued : Z) : nat :=
  match l with
  | [] => victim
  | p :: l =>
      if negb (ap_in_use p) then i
      else if ap_queued_at p <? vqueued then arp_pending_alloc_loop l (S i) i (ap_queued_at p)
      else arp_pending_alloc_loop l (S i) victim vqueued
  end.
Definition arp_pending_alloc_locked (a : arp) : nat :=
  arp_pending_alloc_loop (arp_pend a) 0 0 (default 0 (ap_queued_at <$> arp_pend a !! 0%nat)).

Section model.
Context {D : Type}.
Implicit Types (l : link D) (nif : netif D).

Definition netif_register l (nif : option (netif D)) : link D :=
  match nif with
  | Some nif =>
      match nif_tx nif with
      | None => l
      | Some tx =>
          let mtu := if nif_mtu nif =? 0 then 1500 else nif_mtu nif in
          Link true (Netif (nif_mac nif) (nif_ipv4 nif) (nif_netmask nif) (nif_gateway nif) mtu (nif_driver_data nif) (Some tx))
            (lk_drv l) (lk_stack l) (lk_wire l)
      end
  | None => l
  end.

Definition zero_netif : netif D := Netif (replicate 6 0) (replicate 4 0) (replicate 4 0) (replicate 4 0) 0 0 None.
Definition netif_unregister l (driver_data : Z) : link D :=
  if lk_registered l && (nif_driver_data (lk_interface l) =? driver_data)
  then Link false zero_netif (lk_drv l) (lk_stack l) (lk_wire l) else l.

Definition netif_get l : option (netif D) := if lk_registered l then Some (lk_interface l) else None.

Definition netif_set_ipv4 l (ipv4 netmask gateway : option (list Z)) : link D :=
  if negb (lk_registered l) then l else
  let n := lk_interface l in
  Link true (Netif (nif_mac n) (default (nif_ipv4 n) ipv4) (default (nif_netmask n) netmask) (default (nif_gateway n) gateway)
    (nif_mtu n) (nif_driver_data n) (nif_tx n)) (lk_drv l) (lk_stack l) (lk_wire l).

(** [netif_register] refuses an interface without [tx]. *)
Definition netif_tx l (frame : list Z) (len : Z) : link D * Z :=
  if negb (lk_registered l) || (len =? 0) then (l, -1) else
  match nif_tx (lk_interface l) with
  | None => (l, -1)
  | Some tx =>
      let f := take (Z.to_nat len) frame in
      let '(r, d) := tx (nif_driver_data (lk_interface l)) f (lk_drv l) in
      (Link (lk_registered l) (lk_interface l) d (lk_stack l) (lk_wire l ++ [f]), r)
  end.

Definition eth_output_framed l (frame dst : list Z) (type payload_len : Z) : link D * Z :=
  match netif_get l with
  | None => (l, -1)
  | Some nif =>
      if payload_len >? nif_mtu nif then (l, -1) else
      let frame := copy_to frame 0 dst in
      let frame := copy_to frame 6 (nif_mac nif) in
      let frame := copy_to frame 12 (bytes16 (to_be16 type)) in
      netif_tx l frame (u16 (ETH_HDR_LEN + payload_len))
  end.

Definition eth_output l (dst : list Z) (type : Z) (payload : option (list Z)) (payload_len : Z) : link D * Z :=
  if payload_len >? ETH_FRAME_MAX - ETH_HDR_LEN then (l, -1) else
  let frame := lk_stack l in
  let frame := match payload with
               | Some payload => if negb (payload_len =? 0) then copy_to frame ETH_HDR_LEN (take (Z.to_nat payload_len) payload) else frame
               | None => frame
               end in
  eth_output_framed l frame dst type payload_len.

(** The fields of [struct arp_ipv4] in order. *)
Definition arp_fill nif (oper : Z) (tha : option (list Z)) (tpa : list Z) : list Z :=
  bytes16 (to_be16 ARP_HTYPE_ETHERNET) ++ bytes16 (to_be16 ETH_TYPE_IPV4) ++ [ETH_ALEN; IPV4_ALEN] ++ bytes16 (to_be16 oper) ++
  nif_mac nif ++ nif_ipv4 nif ++ default (replicate 6 0) tha ++ tpa.
Definition sizeof_arp_ipv4 : Z := 28.

Definition arp_request l (ip : list Z) : link D :=
  match netif_get l with
  | None => l
  | Some nif => fst (eth_output l eth_broadcast ETH_TYPE_ARP (Some (arp_fill nif ARP_OP_REQUEST None ip)) sizeof_arp_ipv4)
  end.

Definition arp_announce l : link D :=
  match netif_get l with
  | None => l
  | Some nif =>
      if ipv4_addr_is_zero (nif_ipv4 nif) then l else
      fst (eth_output l eth_broadcast ETH_TYPE_ARP (Some (arp_fill nif ARP_OP_REQUEST None (nif_ipv4 nif))) sizeof_arp_ipv4)
  end.

Definition arp_prime_gateway l : link D :=
  match netif_get l with
  | None => l
  | Some nif =>
      if ipv4_addr_is_zero (nif_gateway nif) then l else
      if ipv4_addr_equal (nif_gateway nif) (nif_ipv4 nif) then l else
      arp_request l (nif_gateway nif)
  end.

(** Each pass empties one slot, so one pass more than there are slots ends
    the loop ([flush_ok]). *)
Fixpoint arp_flush_pending (fuel : nat) l (a : arp) (entry_index : nat) (mac : list Z) : link D * arp :=
  match fuel with
  | O => (l, a)
  | S fuel =>
      match list_find (fun p => Is_true (ap_in_use p && (ap_entry p =? entry_index)%nat)) (arp_pend a) with
      | None => (l, a)
      | Some (i, p) =>
          let frame := copy_to (lk_stack l) 0 (take (Z.to_nat (ETH_HDR_LEN + ap_payload_len p)) (ap_frame p)) in
          let a := set_pend a i (release p) in
          let '(l, _) := eth_output_framed l frame mac (ap_type p) (ap_payload_len p) in
          arp_flush_pending fuel l a entry_index mac
      end
  end.

Definition arp_lookup (a : arp) (ip : list Z) : option (list Z) :=
  match arp_find_locked a ip with
  | Some i => if bool_decide (ae_state (entry_at a i) = ARP_VALID) then Some (ae_mac (entry_at a i)) else None
  | None => None
  end.

Definition arp_send_or_queue (ck : clock) l (a : arp) (ip frame : list Z) (payload_len type : Z) : link D * arp * Z :=
  match netif_get l with
  | None => (l, a, -1)
  | Some _ =>
      if ETH_HDR_LEN + payload_len >? ETH_FRAME_MAX then (l, a, -1) else
      let e := arp_find_locked a ip in
      match e with
      | Some i =>
          if bool_decide (ae_state (entry_at a i) = ARP_VALID) then
            let '(l, r) := eth_output_framed l frame (ae_mac (entry_at a i)) type payload_len in (l, a, r)
          else
            let k := arp_pending_alloc_locked a in
            let old := default [] (ap_frame <$> arp_pend a !! k) in
            (l, set_pend a k (ArpPending true i type payload_len (pit_ticks ck)
                  (copy_to old 0 (take (Z.to_nat (ETH_HDR_LEN + payload_len)) frame))), 1)
      | None =>
          let '(a, i) := arp_alloc_locked a in
          let a := set_entry a i (ArpEntry ip (ae_mac (entry_at a i)) ARP_PENDING 0 (arp_deadline ck ARP_RETRY_MS)) in
          let k := arp_pending_alloc_locked a in
          let old := default [] (ap_frame <$> arp_pend a !! k) in
          let a := set_pend a k (ArpPending true i type payload_len (pit_ticks ck)
                  (copy_to old 0 (take (Z.to_nat (ETH_HDR_LEN + payload_len)) frame))) in
          (arp_request l ip, a, 1)
      end
  end.

Definition arp_learn (ck : clock) l (a : arp) (ip mac : list Z) (may_create : bool) : link D * arp :=
  let e := arp_find_locked a ip in
  let '(a, e) := match e with
                 | Some i => (a, Some i)
                 | None => if may_create then let '(a, i) := arp_alloc_locked a in (a, Some i) else (a, None)
                 end in
  match e with
  | Some i =>
      let a := set_entry a i (ArpEntry ip mac ARP_VALID 0 (arp_deadline ck ARP_ENTRY_TTL_MS)) in
      arp_flush_pending (S (length (arp_pend a))) l a i mac
  | None => (l, a)
  end.

Definition arp_input (ck : clock) l (a : arp) (eth payload : list Z) (len : Z) : link D * arp :=
  match netif_get l with
  | None => (l, a)
  | Some nif =>
      if len <? sizeof_arp_ipv4 then (l, a) else
      if negb (from_be16 (ld16 payload 0) =? ARP_HTYPE_ETHERNET) then (l, a) else
      if negb (from_be16 (ld16 payload 2) =? ETH_TYPE_IPV4) then (l, a) else
      if negb (rd payload 4 =? ETH_ALEN) then (l, a) else
      if negb (rd payload 5 =? IPV4_ALEN) then (l, a) else
      let oper := from_be16 (ld16 payload 6) in
      if negb (oper =? ARP_OP_REQUEST) && negb (oper =? ARP_OP_REPLY) then (l, a) else
      let sha := bytes_at payload 8 6 in
      let spa := bytes_at payload 14 4 in
      let tpa := bytes_at payload 24 4 in
      let for_us := ipv4_addr_equal tpa (nif_ipv4 nif) in
      let '(l, a) := if ipv4_addr_is_zero spa then (l, a) else arp_learn ck l a spa sha for_us in
      if negb (oper =? ARP_OP_REQUEST) then (l, a) else
      if negb for_us then (l, a) else
      if ipv4_addr_is_zero (nif_ipv4 nif) then (l, a) else
      let reply := arp_fill nif ARP_OP_REPLY (Some sha) spa in
      (fst (eth_output l (bytes_at eth 6 6) ETH_TYPE_ARP (Some reply) sizeof_arp_ipv4), a)
  end.

(** One entry of the loop of [arp_tick], with the addresses to ask again for. *)
Definition arp_tick_entry (ck : clock) (st : arp * list (list Z)) (i : nat) : arp * list (list Z) :=
  let '(a, retry_ips) := st in
  let e := entry_at a i in
  if bool_decide (ae_state e = ARP_FREE) || (pit_ticks ck <? ae_deadline e) then (a, retry_ips) else
  if bool_decide (ae_state e = ARP_VALID) then
    (set_entry a i (ArpEntry (ae_ip e) (ae_mac e) ARP_FREE (ae_retries e) (ae_deadline e)), retry_ips)
  else if ae_retries e >=? ARP_MAX_RETRIES then (set_entry (arp_drop_pending_locked a i) i zero_entry, retry_ips)
  else (set_entry a i (ArpEntry (ae_ip e) (ae_mac e) (ae_state e) (u8 (ae_retries e + 1)) (arp_deadline ck ARP_RETRY_MS)),
        retry_ips ++ [ae_ip e]).

Definition arp_tick (ck : clock) l (a : arp) : link D * arp :=
  match netif_get l with
  | None => (l, a)
  | Some _ =>
      let '(a, retry_ips) := foldl (arp_tick_entry ck) (a, []) (seq 0 (Z.to_nat ARP_CACHE_ENTRIES)) in
      (foldl arp_request l retry_ips, a)
  end.

Definition arp_flush (a : arp) : arp := Arp (replicate (Z.to_nat ARP_CACHE_ENTRIES) zero_entry) (release <$> arp_pend a).
End model.
