(* ===== verification/ArpSpec.v ===== *)
(** ARP ([kernel/net/arp.c]): the cache and the parked frames stay
    consistent, a frame parked behind an address is transmitted when the
    address is learned, and an address nobody answers for is given up. *)
From S2P Require Import Prelude.
From S2P Require Import Inet.
From S2P Require Import InetSpec.
From S2P Require Import Arp.

(** ** Frames *)
Lemma copy_to_mid l1 l2 l3 src off : off = Z.of_nat (length l1) -> length src = length l2 ->
  copy_to (l1 ++ l2 ++ l3) off src = l1 ++ src ++ l3.
Proof.
  intros -> Hl. unfold copy_to. rewrite Nat2Z.id, take_app_length, Hl, <-length_app, (assoc_L (++) l1 l2), drop_app_length. done.
Qed.

(** A list of at least the given length, split there. *)
Lemma split_at {B} (l : list B) n : (n <= length l)%nat -> exists l1 l2, l = l1 ++ l2 /\ length l1 = n.
Proof. intros H. exists (take n l), (drop n l). rewrite take_drop, length_take. split; [done|lia]. Qed.

Definition eth_frame (dst src : list Z) (type : Z) (payload : list Z) : list Z := dst ++ src ++ bytes16 (to_be16 type) ++ payload.

Lemma frame_built frame dst mac t n : length dst = 6%nat -> length mac = 6%nat -> 0 <= n -> 14 + n <= zlen frame ->
  take (Z.to_nat (14 + n)) (copy_to (copy_to (copy_to frame 0 dst) 6 mac) 12 (bytes16 t)) = dst ++ mac ++ bytes16 t ++ bytes_at frame 14 n.
Proof.
  unfold zlen. intros Hd Hm Hn Hf. destruct (split_at frame 6) as (f1 & r1 & -> & L1); [lia|].
  rewrite length_app in Hf. destruct (split_at r1 6) as (f2 & r2 & -> & L2); [lia|]. rewrite length_app in Hf.
  destruct (split_at r2 2) as (f3 & r3 & -> & L3); [lia|]. rewrite length_app in Hf.
  change (f1 ++ f2 ++ f3 ++ r3) with ([] ++ f1 ++ (f2 ++ f3 ++ r3)) at 1. rewrite copy_to_mid by (done || lia). cbn [app].
  rewrite copy_to_mid by (rewrite ?Hd; done || lia). rewrite (assoc_L (++) dst mac), copy_to_mid by (rewrite ?length_app, ?Hd, ?Hm; done || lia).
  unfold bytes_at. replace (Z.to_nat 14) with (length (f1 ++ f2 ++ f3)) by (rewrite !length_app; lia).
  replace (f1 ++ f2 ++ f3 ++ r3) with ((f1 ++ f2 ++ f3) ++ r3) by (by rewrite <-!(assoc_L (++))). rewrite drop_app_length.
  rewrite !(assoc_L (++)). rewrite take_app_ge; [|rewrite !length_app, Hd, Hm; change (length (bytes16 t)) with 2%nat; lia].
  f_equal. f_equal. rewrite !length_app, Hd, Hm. change (length (bytes16 t)) with 2%nat. lia.
Qed.

Section link.
Context {D : Type}.
Implicit Types (l : link D) (nif : netif D).

(** An interface with a driver behind it. *)
Record link_ok l nif : Prop := LinkOk {
  lo_get : netif_get l = Some nif;
  lo_tx : is_Some (nif_tx nif);
  lo_mac : length (nif_mac nif) = 6%nat;
  lo_ipv4 : length (nif_ipv4 nif) = 4%nat;
  lo_mtu : 28 <= nif_mtu nif < 2 ^ 16;
  lo_stack : length (lk_stack l) = 1514%nat;
}.

(** The driver queues every frame. *)
Definition accepts nif : Prop := exists tx, nif_tx nif = Some tx /\ forall dd f d, fst (tx dd f d) = 0.

(** [l'] is [l] after the frames [fs] have been handed to the driver. *)
Definition sends l l' (fs : list (list Z)) : Prop :=
  lk_registered l' = lk_registered l /\ lk_interface l' = lk_interface l /\ lk_stack l' = lk_stack l /\ lk_wire l' = lk_wire l ++ fs.

Lemma sends_refl l : sends l l [].
Proof. repeat split. by rewrite app_nil_r. Qed.

Lemma sends_trans l1 l2 l3 fs gs : sends l1 l2 fs -> sends l2 l3 gs -> sends l1 l3 (fs ++ gs).
Proof. intros (E1 & E2 & E3 & E4) (F1 & F2 & F3 & F4). split_and!; try congruence. by rewrite F4, E4, (assoc_L (++)). Qed.

Lemma sends_ok l l' nif fs : link_ok l nif -> sends l l' fs -> link_ok l' nif.
Proof. intros [G T M I U S] (E1 & E2 & E3 & _). split; try done; [|by rewrite E3]. unfold netif_get in *. by rewrite E1, E2. Qed.

Lemma eth_framed_ok l nif frame dst type n : link_ok l nif -> length dst = 6%nat -> 0 <= n <= 1500 -> 14 + n <= zlen frame ->
  exists l' r, eth_output_framed l frame dst type n = (l', r) /\
    if n <=? nif_mtu nif then sends l l' [eth_frame dst (nif_mac nif) type (bytes_at frame 14 n)] /\ (accepts nif -> r = 0)
    else l' = l /\ r = -1.
Proof.
  intros [G T M _ U _] Hd Hn Hf. unfold eth_output_framed. rewrite G. rewrite Z.gtb_ltb, Z.ltb_antisym.
  destruct (n <=? nif_mtu nif); cbn [negb]; [|by eexists _, _]. unfold netif_tx, netif_get in *.
  destruct (lk_registered l) eqn:Er; [|done]. injection G as <-. unfold ETH_HDR_LEN. rewrite u16_small by lia.
  rewrite (proj2 (Z.eqb_neq (14 + n) 0)) by lia. cbn [negb orb]. destruct T as [tx Etx]. rewrite Etx, frame_built by (done || lia).
  destruct (tx _ _ _) as [r d] eqn:E. eexists _, _. split; [done|]. split; [by repeat split; cbn; rewrite ?Er|].
  intros (tx' & Etx' & Hz). rewrite Etx in Etx'. injection Etx' as <-. apply (f_equal fst) in E. by rewrite Hz in E.
Qed.

Lemma eth_output_ok l nif dst type payload : link_ok l nif -> length dst = 6%nat -> zlen payload = 28 ->
  exists l' r, eth_output l dst type (Some payload) 28 = (l', r) /\ sends l l' [eth_frame dst (nif_mac nif) type payload].
Proof.
  intros L Hd Hp. unfold eth_output, ETH_FRAME_MAX, ETH_HDR_LEN. cbn [Z.gtb Z.compare Z.sub negb Z.eqb].
  assert (take (Z.to_nat 28) payload = payload) as -> by (apply take_ge; unfold zlen in Hp; lia).
  pose proof (lo_stack _ _ L) as Hs. destruct (split_at (lk_stack l) 14) as (f1 & r1 & E1 & L1); [lia|].
  destruct (split_at r1 28) as (f2 & r2 & -> & L2); [rewrite E1, length_app in Hs; lia|].
  rewrite E1, copy_to_mid by (unfold zlen in Hp; lia).
  destruct (eth_framed_ok l nif (f1 ++ payload ++ r2) dst type 28 L Hd) as (l' & r & E & Hsend); [lia| |].
  { unfold zlen in *. rewrite !length_app. lia. }
  rewrite (proj2 (Z.leb_le _ _)) in Hsend by apply L. destruct Hsend as [Hsend _]. exists l', r. split; [exact E|].
  unfold bytes_at in Hsend. replace (Z.to_nat 14) with (length f1) in Hsend by lia. rewrite drop_app_length in Hsend.
  replace (Z.to_nat 28) with (length payload) in Hsend by (unfold zlen in Hp; lia). by rewrite take_app_length in Hsend.
Qed.

Lemma arp_fill_len nif oper tha tpa : length (nif_mac nif) = 6%nat -> length (nif_ipv4 nif) = 4%nat ->
  length (default (replicate 6 0) tha) = 6%nat -> length tpa = 4%nat -> zlen (arp_fill nif oper tha tpa) = 28.
Proof. intros H1 H2 H3 H4. unfold zlen, arp_fill. rewrite !length_app, H1, H2, H3, H4. done. Qed.

(** The frame of a request for [ip]. *)
Definition request_frame nif (ip : list Z) : list Z :=
  eth_frame eth_broadcast (nif_mac nif) ETH_TYPE_ARP (arp_fill nif ARP_OP_REQUEST None ip).

Lemma arp_request_ok l nif ip : link_ok l nif -> length ip = 4%nat -> sends l (arp_request l ip) [request_frame nif ip].
Proof.
  intros L Hip. unfold arp_request, sizeof_arp_ipv4. rewrite (lo_get _ _ L).
  destruct (eth_output_ok l nif eth_broadcast ETH_TYPE_ARP (arp_fill nif ARP_OP_REQUEST None ip) L) as (l' & r & -> & H); [done| |done].
  apply arp_fill_len; try apply L; done.
Qed.

(** ** The parked frames *)
Definition ap_payload (p : arp_pending) : list Z := bytes_at (ap_frame p) 14 (ap_payload_len p).
Definition waits (i : nat) (p : arp_pending) : bool := ap_in_use p && (ap_entry p =? i)%nat.

(** Type and payload of the frames parked behind entry [i], by slot. *)
Definition parked_in (ps : list arp_pending) (i : nat) : list (Z * list Z) :=
  omap (fun p => if waits i p then Some (ap_type p, ap_payload p) else None) ps.
Abbreviation parked_at a i := (parked_in (arp_pend a) i).

(** A parked frame is a whole frame. *)
Definition pend_ok (p : arp_pending) : Prop :=
  length (ap_frame p) = 1514%nat /\ (ap_in_use p = true -> 0 <= ap_payload_len p <= 1500).

Definition sendable nif (f : Z * list Z) : bool := zlen (snd f) <=? nif_mtu nif.
Definition frames_to nif (mac : list Z) (fs : list (Z * list Z)) : list (list Z) :=
  (fun f => eth_frame mac (nif_mac nif) (fst f) (snd f)) <$> filter (fun f => Is_true (sendable nif f)) fs.

Definition drop_slot (i : nat) (p : arp_pending) : arp_pending := if waits i p then release p else p.

Lemma payload_len p : pend_ok p -> ap_in_use p = true -> zlen (ap_payload p) = ap_payload_len p.
Proof. intros [Hl Hu] H. specialize (Hu H). unfold zlen, ap_payload. rewrite bytes_at_length; lia. Qed.

Lemma parked_split i ps1 p ps2 : Forall (fun q => waits i q = false) ps1 ->
  parked_in (ps1 ++ p :: ps2) i = (if waits i p then [(ap_type p, ap_payload p)] else []) ++ parked_in ps2 i.
Proof.
  induction 1 as [|q ps1 Hq _ IH]; cbn [app parked_in omap list_omap]; [by destruct (waits i p)|]. by rewrite Hq.
Qed.

Lemma parked_none i ps : Forall (fun q => waits i q = false) ps -> parked_in ps i = [] /\ drop_slot i <$> ps = ps.
Proof.
  induction 1 as [|q ps Hq _ [IH1 IH2]]; [done|]. cbn [parked_in omap list_omap]. rewrite Hq. split; [done|].
  rewrite fmap_cons. unfold drop_slot at 1. by rewrite Hq, IH2.
Qed.

Lemma find_waits i ps : match list_find (fun p => Is_true (waits i p)) ps with
  | None => Forall (fun q => waits i q = false) ps
  | Some (k, p) => exists ps1 ps2, ps = ps1 ++ p :: ps2 /\ length ps1 = k /\ waits i p = true /\ Forall (fun q => waits i q = false) ps1
  end.
Proof.
  induction ps as [|q ps IH]; [constructor|]. cbn [list_find]. case_decide as Hd.
  - exists [], ps. split_and!; try done. by apply Is_true_true_1.
  - assert (waits i q = false) as Hq by (destruct (waits i q); [by destruct Hd|done]).
    destruct (list_find _ ps) as [[k p]|]; cbn.
    + destruct IH as (ps1 & ps2 & -> & <- & Hp & F). exists (q :: ps1), ps2. split_and!; try done. by constructor.
    + by constructor.
Qed.

Lemma drop_pending_eq a i : arp_drop_pending_locked a i = Arp (arp_cache a) (drop_slot i <$> arp_pend a).
Proof. done. Qed.

(** Emptying the first slot that waits. *)
Lemma flush_slot i ps1 p ps2 : Forall (fun q => waits i q = false) ps1 -> waits i p = true ->
  <[length ps1 := release p]> (ps1 ++ p :: ps2) = ps1 ++ release p :: ps2 /\
  parked_in (ps1 ++ release p :: ps2) i = parked_in ps2 i /\
  drop_slot i <$> (ps1 ++ release p :: ps2) = drop_slot i <$> (ps1 ++ p :: ps2).
Proof.
  intros F Hp. assert (waits i (release p) = false) as Hr by done. split_and!.
  - rewrite insert_app_r_alt by done. by rewrite Nat.sub_diag.
  - by rewrite parked_split, Hr by done.
  - rewrite !fmap_app, !fmap_cons. f_equal. f_equal. unfold drop_slot. by rewrite Hp.
Qed.

Lemma frames_to_cons nif mac f fs :
  frames_to nif mac (f :: fs) = (if sendable nif f then [eth_frame mac (nif_mac nif) (fst f) (snd f)] else []) ++ frames_to nif mac fs.
Proof.
  unfold frames_to. destruct (sendable nif f) eqn:E; [rewrite filter_cons_True by (by rewrite E)|rewrite filter_cons_False by (rewrite E; by intros [])]; done.
Qed.

(** One pass of the loop: the frame leaves with its own type and payload. *)
Lemma flush_send l nif mac p : link_ok l nif -> length mac = 6%nat -> pend_ok p -> ap_in_use p = true ->
  let frame := copy_to (lk_stack l) 0 (take (Z.to_nat (ETH_HDR_LEN + ap_payload_len p)) (ap_frame p)) in
  exists l' r, eth_output_framed l frame mac (ap_type p) (ap_payload_len p) = (l', r) /\ sends l l' (frames_to nif mac [(ap_type p, ap_payload p)]).
Proof.
  intros L Hm P Hu frame. pose proof (payload_len p P Hu) as Hpl. destruct P as [Hf Hn]. specialize (Hn Hu).
  set (n := ap_payload_len p) in *. unfold ETH_HDR_LEN in *. pose proof (lo_stack _ _ L) as Hs.
  assert (length (take (Z.to_nat (14 + n)) (ap_frame p)) = Z.to_nat (14 + n)) as Ht by (rewrite length_take; lia).
  assert (zlen frame = 1514) as Hfl by (unfold zlen, frame; rewrite copy_to_length; lia).
  destruct (eth_framed_ok l nif frame mac (ap_type p) n L Hm) as (l' & r & E & H); [lia|lia|]. exists l', r. split; [exact E|].
  assert (bytes_at frame 14 n = ap_payload p) as Eb.
  { unfold frame, ap_payload. fold n. unfold copy_to. change (Z.to_nat 0) with 0%nat. rewrite firstn_O. unfold bytes_at. rewrite app_nil_l.
    rewrite drop_app_le by lia. rewrite take_app_le by (rewrite length_drop; lia).
    rewrite skipn_firstn_comm, take_take. f_equal. lia. }
  rewrite Eb in H. rewrite frames_to_cons. unfold sendable. cbn [fst snd]. rewrite Hpl.
  destruct (n <=? nif_mtu nif); destruct H as [H _]; [by rewrite app_nil_r|]. rewrite H. apply sends_refl.
Qed.

Lemma flush_ok nif mac i : length mac = 6%nat -> forall fuel l a, link_ok l nif -> Forall pend_ok (arp_pend a) ->
  (length (parked_at a i) < fuel)%nat ->
  exists l', arp_flush_pending fuel l a i mac = (l', arp_drop_pending_locked a i) /\ sends l l' (frames_to nif mac (parked_at a i)).
Proof.
  intros Hm. induction fuel as [|fuel IH]; intros l a L P Hf; [lia|]. cbn [arp_flush_pending].
  change (fun p => Is_true (ap_in_use p && (ap_entry p =? i)%nat)) with (fun p => Is_true (waits i p)).
  pose proof (find_waits i (arp_pend a)) as Hw. destruct (list_find _ _) as [[k p]|].
  - destruct Hw as (ps1 & ps2 & Eps & <- & Hp & F). destruct a as [c ps]. cbn [arp_pend] in *. subst ps.
    destruct (flush_slot i ps1 p ps2 F Hp) as (E1 & E2 & E3). apply Forall_app in P as [P1 P2]. inversion_clear P2 as [|? ? Pp P3].
    destruct (flush_send l nif mac p L Hm Pp) as (l1 & r & -> & S1); [by apply andb_prop in Hp as [? _]|].
    rewrite parked_split, Hp in Hf |- * by done. cbn [app length] in Hf. unfold set_pend. cbn [arp_pend arp_cache]. rewrite E1.
    destruct (IH l1 (Arp c (ps1 ++ release p :: ps2))) as (l2 & -> & S2).
    + by eapply sends_ok.
    + apply Forall_app. split; [done|]. constructor; [|done]. split; [apply Pp|done].
    + cbn [arp_pend]. rewrite E2. lia.
    + exists l2. split; [by rewrite !drop_pending_eq; cbn [arp_cache arp_pend]; rewrite E3|]. cbn [arp_pend] in S2. rewrite E2 in S2.
      cbn [app]. rewrite frames_to_cons. eapply sends_trans; [|exact S2]. by rewrite frames_to_cons, app_nil_r in S1.
  - destruct (parked_none i _ Hw) as [E1 E2]. exists l. rewrite drop_pending_eq, E1, E2. split; [by destruct a|apply sends_refl].
Qed.

Lemma parked_length i ps : (length (parked_in ps i) <= length ps)%nat.
Proof. induction ps as [|p ps IH]; [done|]. unfold parked_in in *. cbn. destruct (waits i p); cbn; lia. Qed.
End link.

(** ** The invariant *)
Lemma ipv4_addr_equal_ok a b : length a = 4%nat -> length b = 4%nat -> ipv4_addr_equal a b = true <-> a = b.
Proof.
  intros Ha Hb. destruct a as [|a0 [|a1 [|a2 [|a3 [|]]]]]; try done. destruct b as [|b0 [|b1 [|b2 [|b3 [|]]]]]; try done.
  cbv -[Z.eqb andb iff]. rewrite !andb_true_iff, !Z.eqb_eq. split; [by intros [[[-> ->] ->] ->]|by intros [= -> -> -> ->]].
Qed.

Definition live_entry (e : arp_entry) : Prop := ae_state e <> ARP_FREE.
Definition entry_ok (e : arp_entry) : Prop := length (ae_ip e) = 4%nat /\ length (ae_mac e) = 6%nat /\ 0 <= ae_retries e <= 3.

Record arp_inv (a : arp) : Prop := ArpInv {
  ai_cache : length (arp_cache a) = 16%nat;
  ai_pend : length (arp_pend a) = 4%nat;
  ai_entries : Forall entry_ok (arp_cache a);
  ai_unique : forall i j e f, arp_cache a !! i = Some e -> arp_cache a !! j = Some f -> live_entry e -> live_entry f -> ae_ip e = ae_ip f -> i = j;
  ai_slots : Forall pend_ok (arp_pend a);
  ai_parked : forall p, p ∈ arp_pend a -> ap_in_use p = true -> exists e, arp_cache a !! ap_entry p = Some e /\ ae_state e = ARP_PENDING;
}.

Lemma inv_entry a i e : arp_inv a -> arp_cache a !! i = Some e -> entry_ok e /\ (i < 16)%nat /\ entry_at a i = e.
Proof.
  intros I E. split_and!; [by eapply Forall_lookup_1; [apply I|]|rewrite <-(ai_cache _ I); by eapply lookup_lt_Some|].
  unfold entry_at. by rewrite E.
Qed.

Lemma entry_is_ok a i e ip : arp_inv a -> arp_cache a !! i = Some e -> length ip = 4%nat -> entry_is ip e = true <-> live_entry e /\ ae_ip e = ip.
Proof.
  intros I E Hip. destruct (inv_entry _ _ _ I E) as [(Hl & _) _]. unfold entry_is, live_entry.
  rewrite andb_true_iff, ipv4_addr_equal_ok, negb_true_iff, bool_decide_eq_false by done. done.
Qed.

Lemma find_some a ip i : arp_inv a -> length ip = 4%nat -> arp_find_locked a ip = Some i ->
  exists e, arp_cache a !! i = Some e /\ live_entry e /\ ae_ip e = ip /\ entry_at a i = e.
Proof.
  intros I Hip. unfold arp_find_locked. destruct (list_find _ _) as [[j e]|] eqn:E; [|done]. intros [= <-].
  apply list_find_Some in E as (E & He & _). apply Is_true_true_1, (entry_is_ok a j) in He; try done.
  exists e. destruct He. split_and!; try done. by apply inv_entry.
Qed.

Lemma find_none a ip i e : arp_inv a -> length ip = 4%nat -> arp_find_locked a ip = None -> arp_cache a !! i = Some e -> live_entry e -> ae_ip e <> ip.
Proof.
  intros I Hip. unfold arp_find_locked. destruct (list_find _ _) as [[j x]|] eqn:E; [done|]. intros _ Ei Hl Hx.
  apply list_find_None in E. eapply Forall_lookup_1 in E; [|exact Ei]. apply E, Is_true_true_2, (entry_is_ok a i); done.
Qed.

Lemma find_iff a i e : arp_inv a -> arp_cache a !! i = Some e -> live_entry e -> arp_find_locked a (ae_ip e) = Some i.
Proof.
  intros I E Hl. destruct (inv_entry _ _ _ I E) as [(Hip & _) _]. destruct (arp_find_locked a (ae_ip e)) as [j|] eqn:Ef.
  - destruct (find_some _ _ _ I Hip Ef) as (f & Ej & Hf & Eip & _). f_equal. by eapply (ai_unique _ I).
  - by destruct (find_none _ _ _ _ I Hip Ef E Hl).
Qed.

(** Only pending entries have frames parked behind them. *)
Lemma no_waits a i e : arp_inv a -> arp_cache a !! i = Some e -> ae_state e <> ARP_PENDING -> Forall (fun p => waits i p = false) (arp_pend a).
Proof.
  intros I E Hs. apply list_relations.list.Forall_forall. intros p Hp. destruct (waits i p) eqn:Hw; [|done].
  apply andb_prop in Hw as [Hu Hi]. apply Nat.eqb_eq in Hi as <-. destruct (ai_parked _ I p Hp Hu) as (f & Ef & Hf). congruence.
Qed.

Lemma drop_slot_use i p : ap_in_use (drop_slot i p) = true -> drop_slot i p = p /\ ap_in_use p = true /\ ap_entry p <> i.
Proof.
  unfold drop_slot. destruct (waits i p) eqn:Hw; [done|]. intros Hu. split_and!; [done|done|]. intros <-.
  unfold waits in Hw. by rewrite Hu, Nat.eqb_refl in Hw.
Qed.

Lemma drop_slot_pend i p : pend_ok p -> pend_ok (drop_slot i p).
Proof. intros [H1 H2]. unfold drop_slot. destruct (waits i p); split; done. Qed.

(** Replacing entry [i] and dropping what waits for it. *)
Lemma inv_update a i e' : arp_inv a -> entry_ok e' ->
  (live_entry e' -> forall j f, j <> i -> arp_cache a !! j = Some f -> live_entry f -> ae_ip f <> ae_ip e') ->
  arp_inv (Arp (<[i := e']> (arp_cache a)) (drop_slot i <$> arp_pend a)).
Proof.
  intros I He Hu. split; cbn [arp_cache arp_pend].
  - rewrite length_insert. apply I.
  - rewrite length_fmap. apply I.
  - by apply Forall_insert; [apply I|].
  - intros j k e f Hj Hk Le Lf E. apply list_lookup_insert_Some in Hj, Hk.
    destruct Hj as [(-> & -> & _)|[Hij Hj]], Hk as [(-> & -> & _)|[Hik Hk]]; try done.
    + by destruct (Hu Le k f (not_eq_sym Hik) Hk Lf).
    + by destruct (Hu Lf j e (not_eq_sym Hij) Hj Le).
    + by eapply (ai_unique _ I).
  - apply Forall_fmap. eapply Forall_impl; [|apply I]. intros p. apply drop_slot_pend.
  - intros p (q & -> & Hq)%list_elem_of_fmap Hp. destruct (drop_slot_use i q Hp) as (-> & Hq1 & Hq2).
    rewrite list_lookup_insert_ne by done. by apply (ai_parked _ I).
Qed.

(** Changing the bookkeeping of an entry. *)
Lemma inv_touch a i e e' : arp_inv a -> arp_cache a !! i = Some e -> ae_ip e' = ae_ip e -> ae_state e' = ae_state e -> entry_ok e' ->
  arp_inv (set_entry a i e').
Proof.
  intros I E Hip Hst He. split; cbn [set_entry arp_cache arp_pend]; try apply I.
  - rewrite length_insert. apply I.
  - by apply Forall_insert; [apply I|].
  - intros j k x f Hj Hk Lx Lf Ex. apply list_lookup_insert_Some in Hj, Hk. unfold live_entry in *.
    destruct Hj as [(-> & <- & _)|[Hij Hj]], Hk as [(-> & <- & _)|[Hik Hk]]; try done; eapply (ai_unique _ I); try done;
      unfold live_entry; congruence.
  - intros p Hp Hu. destruct (ai_parked _ I p Hp Hu) as (f & Ef & Hf). destruct (Nat.eq_dec (ap_entry p) i) as [Ei|Hne].
    + exists e'. rewrite Ei, list_lookup_insert_eq; [split; [done|congruence]|]. rewrite (ai_cache _ I). by apply (inv_entry a i e).
    + exists f. by rewrite list_lookup_insert_ne.
Qed.

(** Parking a frame. *)
Lemma inv_park a k p e : arp_inv a -> pend_ok p -> arp_cache a !! ap_entry p = Some e -> ae_state e = ARP_PENDING -> arp_inv (set_pend a k p).
Proof.
  intros I Hp E Hs. split; cbn [set_pend arp_cache arp_pend]; try apply I.
  - rewrite length_insert. apply I.
  - by apply Forall_insert; [apply I|].
  - intros q Hq Hu. apply list_elem_of_lookup in Hq as [j Hj]. apply list_lookup_insert_Some in Hj as [(-> & <- & _)|[_ Hj]]; [by exists e|].
    apply (ai_parked _ I); [|done]. apply list_elem_of_lookup. by exists j.
Qed.

(** ** Allocation *)
Lemma alloc_loop_ok es : forall i v d, match arp_alloc_loop es i v d with
  | inl j => exists k e, j = (i + k)%nat /\ es !! k = Some e /\ ae_state e = ARP_FREE
  | inr w => Forall live_entry es /\ (w = v \/ (i <= w < i + length es)%nat)
  end.
Proof.
  induction es as [|e es IH]; intros i v d; cbn [arp_alloc_loop]; [split; [constructor|by left]|].
  case_bool_decide as Hs; [exists 0%nat, e; split_and!; [lia|done|done]|].
  destruct (ae_deadline e <? d);
    [specialize (IH (S i) i (ae_deadline e))|specialize (IH (S i) v d)]; destruct (arp_alloc_loop es _ _ _) as [j|w];
    try (destruct IH as (k & f & -> & Hk & Hf); exists (S k), f; split_and!; [lia|done|done]);
    destruct IH as [F Hw]; (split; [by constructor|cbn [length]; lia]).
Qed.

(** A free entry, evicting one when there is none: its parked frames go with it. *)
Lemma alloc_ok a a' i : arp_inv a -> arp_alloc_locked a = (a', i) ->
  exists e e0, arp_cache a !! i = Some e /\ arp_cache a' = <[i := e0]> (arp_cache a) /\ arp_pend a' = drop_slot i <$> arp_pend a /\
    ae_state e0 = ARP_FREE /\ entry_ok e0 /\ ((exists f, f ∈ arp_cache a /\ ae_state f = ARP_FREE) -> ae_state e = ARP_FREE).
Proof.
  intros I. unfold arp_alloc_locked. pose proof (alloc_loop_ok (arp_cache a) 0 0 (ae_deadline (entry_at a 0))) as H.
  destruct (arp_alloc_loop _ _ _ _) as [j|w]; intros [= <- <-].
  - destruct H as (k & e & -> & Hk & Hs). cbn [Nat.add] in *. exists e, e. rewrite list_insert_id by done.
    destruct (inv_entry _ _ _ I Hk) as [He _]. split_and!; try done. symmetry. apply parked_none. eapply no_waits; [done|done|congruence].
  - destruct H as [F Hw]. assert (w < 16)%nat as Hlt by (rewrite (ai_cache _ I) in Hw; lia).
    destruct (lookup_lt_is_Some_2 (arp_cache a) w) as [e He]; [by rewrite (ai_cache _ I)|]. exists e, zero_entry. split_and!; try done.
    intros (f & Hf & Hs). rewrite list_relations.list.Forall_forall in F. by destruct (F f Hf).
Qed.

Lemma pending_alloc_loop_ok ps : forall i v d, let k := arp_pending_alloc_loop ps i v d in
  (k = v \/ (i <= k < i + length ps)%nat) /\
  ((exists p, p ∈ ps /\ ap_in_use p = false) -> exists p, (i <= k)%nat /\ ps !! (k - i)%nat = Some p /\ ap_in_use p = false).
Proof.
  induction ps as [|p ps IH]; intros i v d; cbn [arp_pending_alloc_loop]; [split; [by left|by intros (p & []%not_elem_of_nil & _)]|].
  destruct (ap_in_use p) eqn:Hp; cbn [negb]; [|split; [right; cbn; lia|intros _; exists p; rewrite Nat.sub_diag; done]].
  destruct (ap_queued_at p <? d); [destruct (IH (S i) i (ap_queued_at p)) as [H1 H2]|destruct (IH (S i) v d) as [H1 H2]];
    (split; [cbn [length]; lia|]); intros (q & [->|Hq]%elem_of_cons & Hu); try congruence;
    destruct H2 as (r & Hle & Hr & Hru); [by exists q|exists r|by exists q|exists r];
    (split_and!; [lia| |done]); (match goal with |- _ !! (?k - i)%nat = _ => replace (k - i)%nat with (S (k - S i)) by lia end); done.
Qed.

Lemma pending_alloc_ok a : arp_inv a -> let k := arp_pending_alloc_locked a in
  (k < 4)%nat /\ ((exists p, p ∈ arp_pend a /\ ap_in_use p = false) -> exists p, arp_pend a !! k = Some p /\ ap_in_use p = false).
Proof.
  intros I. unfold arp_pending_alloc_locked. destruct (pending_alloc_loop_ok (arp_pend a) 0 0 (default 0 (ap_queued_at <$> arp_pend a !! 0%nat))) as [H1 H2].
  split; [rewrite (ai_pend _ I) in H1; lia|]. intros H. destruct (H2 H) as (p & _ & Hp & Hu). rewrite Nat.sub_0_r in Hp. by exists p.
Qed.

Abbreviation parked_at a i := (parked_in (arp_pend a) i).

(** ** Sending *)
Section ops.
Context {D : Type} (nif : netif D).
Implicit Types (l : link D) (a : arp).

Lemma park_payload type i n ck old frame : length old = 1514%nat -> zlen frame = 1514 -> 0 <= n <= 1500 ->
  let p := ArpPending true i type n (pit_ticks ck) (copy_to old 0 (take (Z.to_nat (ETH_HDR_LEN + n)) frame)) in
  pend_ok p /\ ap_payload p = bytes_at frame 14 n.
Proof.
  intros Ho Hf Hn p. unfold zlen, ETH_HDR_LEN in *. assert (length (take (Z.to_nat (14 + n)) frame) = Z.to_nat (14 + n)) as Ht by (rewrite length_take; lia).
  split; [split; [unfold p; cbn [ap_frame]; rewrite copy_to_length; lia|done]|].
  unfold p, ap_payload, copy_to. cbn [ap_frame ap_payload_len]. change (Z.to_nat 0) with 0%nat. rewrite firstn_O, app_nil_l. unfold bytes_at.
  rewrite drop_app_le by lia. rewrite take_app_le by (rewrite length_drop; lia). rewrite skipn_firstn_comm, take_take. f_equal. lia.
Qed.

Lemma parked_app ps1 ps2 i : parked_in (ps1 ++ ps2) i = parked_in ps1 i ++ parked_in ps2 i.
Proof. apply omap_app. Qed.

(** Filling slot [k]: the frame waits for its entry; nobody else's is lost
    when the slot was free. *)
Lemma parked_insert ps k p q i : ps !! k = Some q -> ap_in_use p = true -> ap_entry p = i ->
  (ap_type p, ap_payload p) ∈ parked_in (<[k := p]> ps) i /\
  (ap_in_use q = false -> parked_in (<[k := p]> ps) i ≡ₚ (ap_type p, ap_payload p) :: parked_in ps i /\
     forall j, j <> i -> parked_in (<[k := p]> ps) j = parked_in ps j).
Proof.
  intros Hk Hu Hi. assert (waits i p = true) as Hw by (unfold waits; by rewrite Hu, Hi, Nat.eqb_refl).
  rewrite (insert_take_drop ps k p) by (by eapply lookup_lt_Some). pose proof (take_drop_middle ps k q Hk) as E.
  assert (forall j, parked_in (p :: drop (S k) ps) j = (if waits j p then [(ap_type p, ap_payload p)] else []) ++ parked_in (drop (S k) ps) j) as Ep.
  { intros j. apply (parked_split j []). constructor. }
  split; [rewrite parked_app, Ep, Hw; apply elem_of_app; right; left|]. intros Hq.
  assert (forall j, parked_in ps j = parked_in (take k ps) j ++ parked_in (drop (S k) ps) j) as Eq.
  { intros j. rewrite <-E at 1. rewrite parked_app. f_equal. unfold parked_in. cbn [omap list_omap]. unfold waits. by rewrite Hq. }
  split.
  - rewrite parked_app, Ep, Hw, Eq. cbn [app]. by rewrite Permutation_middle.
  - intros j Hj. rewrite parked_app, Ep, Eq. assert (waits j p = false) as ->; [|done].
    unfold waits. rewrite Hi, (proj2 (Nat.eqb_neq i j)) by done. apply andb_false_r.
Qed.

(** What is parked for an address. *)
Definition parked a (ip : list Z) : list (Z * list Z) := match arp_find_locked a ip with Some i => parked_at a i | None => [] end.

(** There is a slot to park in and, for a new address, an entry. *)
Definition room_for a (ip : list Z) : Prop :=
  (exists p, p ∈ arp_pend a /\ ap_in_use p = false) /\
  (is_Some (arp_find_locked a ip) \/ exists e, e ∈ arp_cache a /\ ae_state e = ARP_FREE).

(** [a'] is [a] with one more frame parked behind entry [i], which is pending. *)
Record parks a a' (ip : list Z) (i : nat) (f : Z * list Z) : Prop := Parks {
  pk_inv : arp_inv a';
  pk_entry : exists e, arp_cache a' !! i = Some e /\ ae_state e = ARP_PENDING /\ ae_ip e = ip;
  pk_in : f ∈ parked_at a' i;
  pk_room : room_for a ip -> parked_at a' i ≡ₚ f :: parked a ip /\ forall j, j <> i -> parked_at a' j = parked_at a j;
}.

Lemma park_ok ck a i e frame n type : arp_inv a -> arp_cache a !! i = Some e -> ae_state e = ARP_PENDING ->
  zlen frame = 1514 -> 0 <= n <= 1500 ->
  let k := arp_pending_alloc_locked a in
  let old := default [] (ap_frame <$> arp_pend a !! k) in
  let a' := set_pend a k (ArpPending true i type n (pit_ticks ck) (copy_to old 0 (take (Z.to_nat (ETH_HDR_LEN + n)) frame))) in
  arp_inv a' /\ arp_cache a' = arp_cache a /\ (type, bytes_at frame 14 n) ∈ parked_at a' i /\
  ((exists p, p ∈ arp_pend a /\ ap_in_use p = false) ->
     parked_at a' i ≡ₚ (type, bytes_at frame 14 n) :: parked_at a i /\ forall j, j <> i -> parked_at a' j = parked_at a j).
Proof.
  intros I E Hs Hf Hn k old a'. destruct (pending_alloc_ok a I) as [Hk Hfree]. fold k in Hk, Hfree.
  destruct (lookup_lt_is_Some_2 (arp_pend a) k) as [q Hq]; [by rewrite (ai_pend _ I)|].
  assert (length old = 1514%nat) as Ho. { unfold old. rewrite Hq. cbn. apply (Forall_lookup_1 _ _ _ _ (ai_slots _ I) Hq). }
  destruct (park_payload type i n ck old frame Ho Hf Hn) as [Hp Hpay]. set (p := ArpPending true i _ _ _ _) in *.
  destruct (parked_insert (arp_pend a) k p q i Hq) as [Hin Hroom]; [done|done|]. rewrite Hpay in Hin, Hroom.
  split_and!; [by eapply inv_park|done|done|]. intros Hex. destruct (Hfree Hex) as (q' & Hq' & Hu). apply Hroom. congruence.
Qed.

Definition frame_of (frame mac : list Z) (n type : Z) : list (list Z) :=
  if n <=? nif_mtu nif then [eth_frame mac (nif_mac nif) type (bytes_at frame 14 n)] else [].

Lemma send_ok ck l a ip frame n type : arp_inv a -> link_ok l nif -> length ip = 4%nat -> zlen frame = 1514 -> 0 <= n <= 1500 ->
  exists l' a' r, arp_send_or_queue ck l a ip frame n type = (l', a', r) /\
  match arp_lookup a ip with
  | Some mac => a' = a /\ sends l l' (frame_of frame mac n type) /\ (n <= nif_mtu nif -> accepts nif -> r = 0)
  | None => r = 1 /\ sends l l' (match arp_find_locked a ip with Some _ => [] | None => [request_frame nif ip] end) /\
      exists i, parks a a' ip i (type, bytes_at frame 14 n)
  end.
Proof.
  intros I L Hip Hf Hn. unfold arp_send_or_queue, arp_lookup. rewrite (lo_get _ _ L). unfold ETH_FRAME_MAX.
  rewrite Z.gtb_ltb, (proj2 (Z.ltb_ge _ _)) by (unfold ETH_HDR_LEN; lia). destruct (arp_find_locked a ip) as [i|] eqn:Ef.
  - destruct (find_some _ _ _ I Hip Ef) as (e & E & Hl & Eip & ->). destruct (inv_entry _ _ _ I E) as [(_ & Hmac & _) _]. case_bool_decide as Hv.
    + destruct (eth_framed_ok l nif frame (ae_mac e) type n L Hmac Hn) as (l' & r & -> & H); [lia|]. exists l', a, r. split_and!; try done.
      * unfold frame_of. destruct (n <=? nif_mtu nif); destruct H as [H _]; [done|]. rewrite H. apply sends_refl.
      * intros Hm Ha. rewrite (proj2 (Z.leb_le _ _)) in H by done. by apply H.
    + assert (ae_state e = ARP_PENDING) as Hs by (unfold live_entry in Hl; by destruct (ae_state e)).
      destruct (park_ok ck a i e frame n type I E Hs Hf Hn) as (I' & Ec & Hin & Hroom). eexists _, _, _. split_and!; [done|done|apply sends_refl|].
      exists i. split; [done|exists e; by rewrite Ec|done|]. intros [Hfree _]. unfold parked. rewrite Ef. by apply Hroom.
  - destruct (arp_alloc_locked a) as [a1 i] eqn:Ea. destruct (alloc_ok a a1 i I Ea) as (e & e0 & E & Ec & Ep & Hs0 & He0 & Hev).
    assert (entry_at a1 i = e0) as Eat. { unfold entry_at. rewrite Ec, list_lookup_insert_eq; [done|]. by eapply lookup_lt_Some. }
    set (e1 := ArpEntry ip (ae_mac (entry_at a1 i)) ARP_PENDING 0 (arp_deadline ck ARP_RETRY_MS)).
    assert (set_entry a1 i e1 = Arp (<[i := e1]> (arp_cache a)) (drop_slot i <$> arp_pend a)) as Es.
    { unfold set_entry. by rewrite Ec, Ep, list_insert_insert_eq. }
    assert (arp_inv (set_entry a1 i e1)) as I1.
    { rewrite Es. apply inv_update; [done| |]. { split_and!; cbn; [done|rewrite Eat; apply He0|lia|lia]. }
      intros _ j f Hj Hf' Hlf. by apply (find_none a ip j f I Hip Ef). }
    assert (arp_cache (set_entry a1 i e1) !! i = Some e1) as E1.
    { rewrite Es. cbn. rewrite list_lookup_insert_eq; [done|]. by eapply lookup_lt_Some. }
    destruct (park_ok ck _ i e1 frame n type I1 E1) as (I' & Ec' & Hin & Hroom); [done|done|done|]. eexists _, _, _.
    split_and!; [done|done|by apply arp_request_ok|]. exists i. split; [done|exists e1; by rewrite Ec'|done|].
    intros [Hfree [[j Hj]|Hce]]; [congruence|]. specialize (Hev Hce).
    destruct (parked_none i (arp_pend a)) as [Hno Hid]; [eapply no_waits; [done|done|congruence]|].
    rewrite Es in *. cbn [arp_pend] in *. rewrite Hid in *. destruct (Hroom Hfree) as [H1 H2]. rewrite Hno in H1.
    unfold parked. rewrite Ef. done.
Qed.

(** ** Learning *)
Lemma drop_slot_idem i (ps : list arp_pending) : drop_slot i <$> (drop_slot i <$> ps) = drop_slot i <$> ps.
Proof.
  rewrite <-list_fmap_compose. apply list_fmap_ext. intros k p _. cbn. unfold drop_slot. destruct (waits i p) eqn:E; [done|by rewrite E].
Qed.

Lemma parked_dropped i ps : parked_in (drop_slot i <$> ps) i = [].
Proof.
  apply (parked_none i), Forall_fmap, list_relations.list.Forall_forall. intros p _. cbn. unfold drop_slot. by destruct (waits i p) eqn:E.
Qed.

Lemma parked_others i j ps : j <> i -> parked_in (drop_slot i <$> ps) j = parked_in ps j.
Proof.
  intros Hj. induction ps as [|p ps IH]; [done|]. rewrite fmap_cons. unfold parked_in in *. cbn [omap list_omap]. rewrite IH.
  unfold drop_slot. destruct (waits i p) eqn:E; [|done]. assert (waits j (release p) = false) as -> by done.
  assert (waits j p = false) as ->; [|done]. apply andb_prop in E as [_ E]. apply Nat.eqb_eq in E as <-. unfold waits.
  rewrite (proj2 (Nat.eqb_neq _ _)) by done. apply andb_false_r.
Qed.

(** The entry [arp_learn] writes. *)
Definition learned ck (ip mac : list Z) : arp_entry := ArpEntry ip mac ARP_VALID 0 (arp_deadline ck ARP_ENTRY_TTL_MS).

(** The state after learning at entry [i]: the entry is valid and what waited for it is gone. *)
Definition learn_at ck a (i : nat) (ip mac : list Z) : arp := Arp (<[i := learned ck ip mac]> (arp_cache a)) (drop_slot i <$> arp_pend a).

Lemma learn_at_ok ck a i ip mac : arp_inv a -> length ip = 4%nat -> length mac = 6%nat -> (i < 16)%nat ->
  (forall j e, j <> i -> arp_cache a !! j = Some e -> live_entry e -> ae_ip e <> ip) ->
  arp_inv (learn_at ck a i ip mac) /\ arp_lookup (learn_at ck a i ip mac) ip = Some mac /\ parked (learn_at ck a i ip mac) ip = [].
Proof.
  intros I Hip Hmac Hi Hu. assert (arp_inv (learn_at ck a i ip mac)) as I'.
  { apply inv_update; [done| |]. { split_and!; cbn; done || lia. } intros _ j f Hj Hf Hl. by apply (Hu j f). }
  assert (arp_cache (learn_at ck a i ip mac) !! i = Some (learned ck ip mac)) as E.
  { cbn. rewrite list_lookup_insert_eq; [done|]. by rewrite (ai_cache _ I). }
  pose proof (find_iff _ _ _ I' E ltac:(done)) as Ef. cbn [ae_ip learned] in Ef. split_and!; [done| |].
  - unfold arp_lookup. rewrite Ef. destruct (inv_entry _ _ _ I' E) as (_ & _ & ->). done.
  - unfold parked. rewrite Ef. apply parked_dropped.
Qed.

Lemma learn_flush ck l a i ip mac : arp_inv a -> link_ok l nif -> length mac = 6%nat ->
  exists l', arp_flush_pending (S (length (arp_pend (set_entry a i (learned ck ip mac))))) l (set_entry a i (learned ck ip mac)) i mac =
    (l', learn_at ck a i ip mac) /\ sends l l' (frames_to nif mac (parked_at a i)).
Proof.
  intros I L Hmac. destruct (flush_ok nif mac i Hmac (S (length (arp_pend a))) l (set_entry a i (learned ck ip mac)) L) as (l' & E & S).
  - apply I.
  - cbn [set_entry arp_pend]. pose proof (parked_length i (arp_pend a)). lia.
  - exists l'. split; [exact E|exact S].
Qed.

Lemma learn_ok ck l a ip mac may : arp_inv a -> link_ok l nif -> length ip = 4%nat -> length mac = 6%nat ->
  exists l' a', arp_learn ck l a ip mac may = (l', a') /\ arp_inv a' /\
  match arp_find_locked a ip with
  | Some i => a' = learn_at ck a i ip mac /\ sends l l' (frames_to nif mac (parked_at a i))
  | None => sends l l' [] /\ (if may then arp_lookup a' ip = Some mac else a' = a)
  end.
Proof.
  intros I L Hip Hmac. unfold arp_learn. destruct (arp_find_locked a ip) as [i|] eqn:Ef.
  - destruct (find_some _ _ _ I Hip Ef) as (e & E & Hl & Eip & _). destruct (inv_entry _ _ _ I E) as (_ & Hi & _).
    destruct (learn_flush ck l a i ip mac I L Hmac) as (l' & Hfl & Hs). exists l', (learn_at ck a i ip mac). split; [exact Hfl|].
    split; [|done]. apply learn_at_ok; try done. intros j f Hj Hf Hlf Eq. apply Hj. eapply (ai_unique _ I); try done. congruence.
  - destruct may; [|exists l, a; split_and!; [done|done|apply sends_refl|done]].
    destruct (arp_alloc_locked a) as [a1 i] eqn:Ea. destruct (alloc_ok a a1 i I Ea) as (e & e0 & E & Ec & Ep & Hs0 & He0 & _).
    assert (a1 = Arp (<[i := e0]> (arp_cache a)) (drop_slot i <$> arp_pend a)) as -> by (destruct a1; cbn in *; congruence).
    assert (arp_inv (Arp (<[i := e0]> (arp_cache a)) (drop_slot i <$> arp_pend a))) as I1 by (apply inv_update; [done|done|by intros []]).
    destruct (learn_flush ck l _ i ip mac I1 L Hmac) as (l' & Hfl & Hs). cbn [arp_pend] in Hs. rewrite parked_dropped in Hs.
    destruct (inv_entry _ _ _ I E) as (_ & Hi & _).
    destruct (learn_at_ok ck _ i ip mac I1 Hip Hmac Hi) as (I2 & Hl & _); [|eexists _, _; by split_and!; [exact Hfl|..]].
    intros j f Hj Hf Hlf. cbn in Hf. rewrite list_lookup_insert_ne in Hf by done. by apply (find_none a ip j f I Hip Ef).
Qed.

(** ** Receiving *)

(** An ARP packet as it arrives, with anything behind it. *)
Definition arp_packet (oper : Z) (sha spa tha tpa pad : list Z) : list Z :=
  bytes16 (to_be16 ARP_HTYPE_ETHERNET) ++ bytes16 (to_be16 ETH_TYPE_IPV4) ++ [ETH_ALEN; IPV4_ALEN] ++ bytes16 (to_be16 oper) ++
  sha ++ spa ++ tha ++ tpa ++ pad.

(** The reply to a request for our address. *)
Definition reply_frames (eth : list Z) (oper : Z) (sha spa : list Z) (for_us : bool) : list (list Z) :=
  if (oper =? ARP_OP_REQUEST) && for_us && negb (ipv4_addr_is_zero (nif_ipv4 nif))
  then [eth_frame (bytes_at eth 6 6) (nif_mac nif) ETH_TYPE_ARP (arp_fill nif ARP_OP_REPLY (Some sha) spa)] else [].

(** What [arp_input] does to a packet that passes its checks. *)
Definition arp_accept ck l a (eth : list Z) (oper : Z) (sha spa tpa : list Z) : link D * arp :=
  let for_us := ipv4_addr_equal tpa (nif_ipv4 nif) in
  let '(l, a) := if ipv4_addr_is_zero spa then (l, a) else arp_learn ck l a spa sha for_us in
  if negb (oper =? ARP_OP_REQUEST) then (l, a) else
  if negb for_us then (l, a) else
  if ipv4_addr_is_zero (nif_ipv4 nif) then (l, a) else
  (fst (eth_output l (bytes_at eth 6 6) ETH_TYPE_ARP (Some (arp_fill nif ARP_OP_REPLY (Some sha) spa)) sizeof_arp_ipv4), a).

Lemma arp_input_cases ck l a eth payload len : netif_get l = Some nif ->
  arp_input ck l a eth payload len = (l, a) \/
  (28 <= len /\ arp_input ck l a eth payload len =
    arp_accept ck l a eth (from_be16 (ld16 payload 6)) (bytes_at payload 8 6) (bytes_at payload 14 4) (bytes_at payload 24 4)).
Proof.
  intros G. unfold arp_input. rewrite G. unfold sizeof_arp_ipv4. destruct (Z.ltb_spec len 28); [by left|].
  repeat (match goal with |- context [if negb ?b then (l, a) else _] => destruct (negb b); [by left|] end).
  match goal with |- context [if ?b && ?c then (l, a) else _] => destruct (b && c); [by left|] end. right. by split.
Qed.

Lemma accept_ok ck l a eth oper sha spa tpa : arp_inv a -> link_ok l nif -> zlen eth = 14 -> length sha = 6%nat -> length spa = 4%nat ->
  length tpa = 4%nat -> exists l1 l' a', arp_accept ck l a eth oper sha spa tpa = (l', a') /\ arp_inv a' /\
    sends l1 l' (reply_frames eth oper sha spa (ipv4_addr_equal tpa (nif_ipv4 nif))) /\
    (if ipv4_addr_is_zero spa then l1 = l /\ a' = a else arp_learn ck l a spa sha (ipv4_addr_equal tpa (nif_ipv4 nif)) = (l1, a')) /\
    exists fs, sends l l1 fs.
Proof.
  intros I L He Hsha Hspa Htpa. unfold arp_accept, reply_frames, sizeof_arp_ipv4. set (for_us := ipv4_addr_equal tpa _).
  assert (exists l1 a1 fs, (if ipv4_addr_is_zero spa then (l, a) else arp_learn ck l a spa sha for_us) = (l1, a1) /\ arp_inv a1 /\ sends l l1 fs /\
    (if ipv4_addr_is_zero spa then l1 = l /\ a1 = a else arp_learn ck l a spa sha for_us = (l1, a1))) as (l1 & a1 & fs & -> & I1 & S1 & Hlearn).
  { destruct (ipv4_addr_is_zero spa); [exists l, a, []; split_and!; [done|done|apply sends_refl|done|done]|].
    destruct (learn_ok ck l a spa sha for_us I L Hspa Hsha) as (l1 & a1 & -> & I1 & H). exists l1, a1.
    destruct (arp_find_locked a spa); [exists (frames_to nif sha (parked_at a n))|exists []]; (split_and!; [done|done|apply H|done]). }
  pose proof (sends_ok _ _ _ _ L S1) as L1. destruct (oper =? ARP_OP_REQUEST), for_us, (ipv4_addr_is_zero (nif_ipv4 nif)); cbn [negb andb];
    try (exists l1, l1, a1; split_and!; [done|done|apply sends_refl|done|by exists fs]).
  destruct (eth_output_ok l1 nif (bytes_at eth 6 6) ETH_TYPE_ARP (arp_fill nif ARP_OP_REPLY (Some sha) spa) L1) as (l2 & r & -> & S2).
  - unfold zlen in He. rewrite bytes_at_length by lia. done.
  - apply arp_fill_len; try apply L; done.
  - exists l1, l2, a1. split_and!; [done|done|done|done|by exists fs].
Qed.

Lemma packet_input ck l a eth oper sha spa tha tpa pad : netif_get l = Some nif -> oper = ARP_OP_REQUEST \/ oper = ARP_OP_REPLY ->
  length sha = 6%nat -> length spa = 4%nat -> length tha = 6%nat -> length tpa = 4%nat ->
  let p := arp_packet oper sha spa tha tpa pad in
  arp_input ck l a eth p (zlen p) = arp_accept ck l a eth oper sha spa tpa.
Proof.
  intros G Hop Hsha Hspa Htha Htpa p. assert (28 <= zlen p) as Hlen.
  { unfold p, arp_packet, zlen. rewrite !length_app, Hsha, Hspa, Htha, Htpa. cbn [length bytes16]. lia. }
  assert (exists h, p = h ++ sha ++ spa ++ tha ++ tpa ++ pad /\ length h = 8%nat /\ from_be16 (ld16 p 0) = 1 /\ from_be16 (ld16 p 2) = 0x800 /\
    rd p 4 = 6 /\ rd p 5 = 4 /\ from_be16 (ld16 p 6) = oper) as (h & Ep & Lh & E0 & E2 & E4 & E5 & E6).
  { exists (bytes16 (to_be16 ARP_HTYPE_ETHERNET) ++ bytes16 (to_be16 ETH_TYPE_IPV4) ++ [ETH_ALEN; IPV4_ALEN] ++ bytes16 (to_be16 oper)).
    split; [unfold p, arp_packet; by rewrite <-!(assoc_L (++))|]. by destruct Hop as [-> | ->]. }
  assert (bytes_at p 8 6 = sha /\ bytes_at p 14 4 = spa /\ bytes_at p 24 4 = tpa) as (B1 & B2 & B3).
  { rewrite Ep. unfold bytes_at. split_and!.
    - replace (Z.to_nat 8) with (length h) by (rewrite Lh; done). rewrite drop_app_length. by rewrite take_app_length'.
    - replace (Z.to_nat 14) with (length (h ++ sha)) by (rewrite length_app, Lh, Hsha; done). rewrite (assoc_L (++) h), drop_app_length. by rewrite take_app_length'.
    - replace (Z.to_nat 24) with (length (h ++ sha ++ spa ++ tha)) by (rewrite !length_app, Lh, Hsha, Hspa, Htha; done).
      replace (h ++ sha ++ spa ++ tha ++ tpa ++ pad) with ((h ++ sha ++ spa ++ tha) ++ tpa ++ pad) by (by rewrite <-!(assoc_L (++))).
      rewrite drop_app_length. by rewrite take_app_length'. }
  unfold arp_input. rewrite G, E0, E2, E4, E5, E6, B1, B2, B3. unfold sizeof_arp_ipv4. rewrite (proj2 (Z.ltb_ge (zlen p) 28)) by lia.
  by destruct Hop as [-> | ->].
Qed.

(** ** The timer *)
Definition due ck (e : arp_entry) : bool := bool_decide (ae_state e = ARP_PENDING) && (ae_deadline e <=? pit_ticks ck).
Definition gives_up ck (e : arp_entry) : bool := due ck e && (ARP_MAX_RETRIES <=? ae_retries e).
Definition asks_again ck (e : arp_entry) : bool := due ck e && (ae_retries e <? ARP_MAX_RETRIES).
Definition tick_fn ck (e : arp_entry) : arp_entry :=
  if bool_decide (ae_state e = ARP_FREE) || (pit_ticks ck <? ae_deadline e) then e else
  if bool_decide (ae_state e = ARP_VALID) then ArpEntry (ae_ip e) (ae_mac e) ARP_FREE (ae_retries e) (ae_deadline e) else
  if gives_up ck e then zero_entry else
  ArpEntry (ae_ip e) (ae_mac e) (ae_state e) (ae_retries e + 1) (arp_deadline ck ARP_RETRY_MS).

(** One entry of the pass. *)
Record ticked ck a a' (rs rs' : list (list Z)) (i : nat) (e : arp_entry) : Prop := Ticked {
  tk_inv : arp_inv a';
  tk_cache : arp_cache a' = <[i := tick_fn ck e]> (arp_cache a);
  tk_parked : forall j, parked_at a' j = if decide (j = i /\ gives_up ck e = true) then [] else parked_at a j;
  tk_retry : rs' = rs ++ (if asks_again ck e then [ae_ip e] else []);
}.

Lemma tick_entry_ok ck a rs i e : arp_inv a -> arp_cache a !! i = Some e ->
  ticked ck a (fst (arp_tick_entry ck (a, rs) i)) rs (snd (arp_tick_entry ck (a, rs) i)) i e.
Proof.
  intros I E. destruct (inv_entry _ _ _ I E) as ((Hip & Hmac & Hr) & Hi & Eat). unfold arp_tick_entry. rewrite Eat.
  assert (Hsame : forall j, parked_at a j = if decide (j = i /\ false = true) then [] else parked_at a j) by (intros; by rewrite decide_False by (by intros [_ ?])).
  destruct (bool_decide (ae_state e = ARP_FREE) || (pit_ticks ck <? ae_deadline e)) eqn:E1.
  { assert (due ck e = false) as Hd.
    { unfold due. apply orb_prop in E1 as [H|H]; [apply bool_decide_eq_true in H; by rewrite H|]. zbool. rewrite (proj2 (Z.leb_gt _ _)) by lia. apply andb_false_r. }
    split; cbn [fst snd]; unfold tick_fn, gives_up, asks_again; rewrite ?E1, ?Hd; cbn [andb]; [done|by rewrite list_insert_id|done|by rewrite app_nil_r]. }
  apply orb_false_elim in E1 as [E1 E2]. apply bool_decide_eq_false in E1. apply Z.ltb_ge in E2. destruct (ae_state e) eqn:Hs; try done.
  - assert (due ck e = true) as Hd by (unfold due; rewrite Hs, (proj2 (Z.leb_le _ _)) by lia; done).
    rewrite bool_decide_false by done. unfold ARP_MAX_RETRIES in *. rewrite Z.geb_leb. destruct (Z.leb_spec 3 (ae_retries e)) as [H3|H3].
    + assert (gives_up ck e = true) as Hg by (unfold gives_up, ARP_MAX_RETRIES; rewrite Hd, (proj2 (Z.leb_le _ _)) by lia; done).
      split; cbn [fst snd]; [apply (inv_update a i zero_entry); [done|done|by intros []]| | |].
      * unfold tick_fn. rewrite Hs, Hg, (proj2 (Z.ltb_ge _ _)) by lia. done.
      * intros j. cbn [set_entry arp_pend]. rewrite drop_pending_eq. cbn [arp_pend]. rewrite Hg.
        destruct (Nat.eq_dec j i) as [->|Hne]; [rewrite decide_True by done; apply parked_dropped|rewrite decide_False by (by intros []); by apply parked_others].
      * unfold asks_again, ARP_MAX_RETRIES. rewrite (proj2 (Z.ltb_ge _ _)), andb_false_r by lia. by rewrite app_nil_r.
    + assert (gives_up ck e = false) as Hg by (unfold gives_up, ARP_MAX_RETRIES; rewrite Hd, (proj2 (Z.leb_gt _ _)) by lia; done).
      unfold u8. rewrite Z.mod_small by lia. split; cbn [fst snd]; [eapply inv_touch; try done; split_and!; cbn; lia| |rewrite Hg; done|].
      * unfold tick_fn. rewrite Hs, Hg, (proj2 (Z.ltb_ge _ _)) by lia. done.
      * unfold asks_again, ARP_MAX_RETRIES. rewrite Hd, (proj2 (Z.ltb_lt _ _)) by lia. done.
  - assert (due ck e = false) as Hd by (unfold due; by rewrite Hs).
    rewrite bool_decide_true by done. destruct (parked_none i (arp_pend a)) as [_ Hid]; [eapply no_waits; [done|done|congruence]|].
    split; cbn [fst snd]; unfold gives_up, asks_again; rewrite ?Hd; cbn [andb]; [|unfold tick_fn; rewrite Hs, (proj2 (Z.ltb_ge _ _)) by lia; done|done|by rewrite app_nil_r].
    set (e' := ArpEntry _ _ ARP_FREE _ _). assert (set_entry a i e' = Arp (<[i := e']> (arp_cache a)) (drop_slot i <$> arp_pend a)) as -> by (by rewrite Hid).
    apply inv_update; [done|done|by intros []].
Qed.

(** The addresses asked for again, among the entries [js]. *)
Definition retry_ips ck (c : list arp_entry) (js : list nat) : list (list Z) :=
  omap (fun j => match c !! j with Some e => if asks_again ck e then Some (ae_ip e) else None | None => None end) js.

Lemma retry_ips_cons ck c i js e : c !! i = Some e ->
  retry_ips ck c (i :: js) = (if asks_again ck e then [ae_ip e] else []) ++ retry_ips ck c js.
Proof. intros E. unfold retry_ips. cbn [omap list_omap]. rewrite E. by destruct (asks_again ck e). Qed.

Lemma retry_ips_ext ck c c' js : (forall j, j ∈ js -> c' !! j = c !! j) -> retry_ips ck c' js = retry_ips ck c js.
Proof.
  induction js as [|j js IH]; intros H; [done|]. unfold retry_ips in *. cbn [omap list_omap]. rewrite H by left.
  rewrite IH; [done|]. intros k Hk. apply H. by right.
Qed.

(** The whole pass: every entry is updated from its own state. *)
Lemma tick_fold ck js : forall a rs, NoDup js -> arp_inv a -> (forall i, i ∈ js -> (i < 16)%nat) ->
  let '(a', rs') := foldl (arp_tick_entry ck) (a, rs) js in arp_inv a' /\
  (forall j, arp_cache a' !! j = if decide (j ∈ js) then tick_fn ck <$> arp_cache a !! j else arp_cache a !! j) /\
  (forall j e, arp_cache a !! j = Some e -> parked_at a' j = if decide (j ∈ js /\ gives_up ck e = true) then [] else parked_at a j) /\
  rs' = rs ++ retry_ips ck (arp_cache a) js.
Proof.
  induction js as [|i js IH]; intros a rs Hnd I Hlt; cbn [foldl].
  - split_and!; [done|intros j; by rewrite decide_False by (by intros ?%not_elem_of_nil)| |by rewrite app_nil_r].
    intros j e _. by rewrite decide_False by (by intros [?%not_elem_of_nil _]).
  - apply list_relations.list.NoDup_cons in Hnd as [Hni Hnd].
    destruct (lookup_lt_is_Some_2 (arp_cache a) i) as [e E]; [rewrite (ai_cache _ I); apply Hlt; left|].
    pose proof (tick_entry_ok ck a rs i e I E) as [I1 Hc Hp Hr]. destruct (arp_tick_entry ck (a, rs) i) as [a1 rs1]. cbn [fst snd] in *.
    specialize (IH a1 rs1 Hnd I1 (fun k Hk => Hlt k (proj2 (elem_of_cons _ _ _) (or_intror Hk)))). destruct (foldl _ _ js) as [a2 rs2].
    destruct IH as (I2 & Hc2 & Hp2 & Hr2). assert (Hother : forall j, j <> i -> arp_cache a1 !! j = arp_cache a !! j) by (intros; by rewrite Hc, list_lookup_insert_ne).
    assert (E1 : arp_cache a1 !! i = Some (tick_fn ck e)) by (rewrite Hc, list_lookup_insert_eq; [done|rewrite (ai_cache _ I); by apply (inv_entry a i e)]).
    split_and!; [done| | |].
    + intros j. rewrite Hc2. destruct (Nat.eq_dec j i) as [->|Hne].
      * rewrite decide_False, decide_True by (done || left). by rewrite E1, E.
      * rewrite Hother by done. destruct (decide (j ∈ js)); [rewrite decide_True by (by right)|rewrite decide_False by (by intros [?|?]%elem_of_cons)]; done.
    + intros j f Ef. destruct (Nat.eq_dec j i) as [->|Hne].
      * rewrite (Hp2 i _ E1), decide_False by (by intros [? _]). rewrite Hp.
        assert (f = e) as -> by congruence. destruct (gives_up ck e); [rewrite !decide_True by (split; done || left)|rewrite !decide_False by (by intros [_ ?])]; done.
      * rewrite (Hp2 j f) by (by rewrite Hother). rewrite Hp, (decide_False (P := j = i /\ _)) by (by intros []).
        destruct (decide (j ∈ js /\ gives_up ck f = true)) as [[? ?]|Hn]; [rewrite decide_True by (split; [by right|done])|rewrite decide_False; [done|]]; [done|].
        intros [[?|?]%elem_of_cons ?]; [done|by apply Hn].
    + rewrite Hr2, Hr, (retry_ips_cons ck (arp_cache a) i js e E).
      rewrite (retry_ips_ext ck (arp_cache a)) by (intros k Hk; apply Hother; by intros ->). by rewrite <-(assoc_L (++)).
Qed.

Lemma requests_ok ips : forall l, link_ok l nif -> Forall (fun ip => length ip = 4%nat) ips ->
  sends l (foldl arp_request l ips) (request_frame nif <$> ips).
Proof.
  induction ips as [|ip ips IH]; intros l L F; [apply sends_refl|]. inversion_clear F as [|? ? Hip F']. cbn [foldl]. rewrite fmap_cons.
  pose proof (arp_request_ok l nif ip L Hip) as S. change (request_frame nif ip :: (request_frame nif <$> ips)) with ([request_frame nif ip] ++ (request_frame nif <$> ips)).
  eapply sends_trans; [exact S|]. apply IH; [by eapply sends_ok|done].
Qed.

Lemma retry_ips_len ck c js : Forall entry_ok c -> Forall (fun ip => length ip = 4%nat) (retry_ips ck c js).
Proof.
  intros F. apply list_relations.list.Forall_forall. intros ip (j & _ & Hj)%list_elem_of_omap. destruct (c !! j) as [e|] eqn:E; [|done].
  destruct (asks_again ck e); [|done]. injection Hj as <-. by eapply Forall_lookup_1 in F as (? & _).
Qed.

Lemma tick_ok ck l a : arp_inv a -> link_ok l nif ->
  exists l' a', arp_tick ck l a = (l', a') /\ arp_inv a' /\ arp_cache a' = tick_fn ck <$> arp_cache a /\
    (forall j e, arp_cache a !! j = Some e -> parked_at a' j = if gives_up ck e then [] else parked_at a j) /\
    sends l l' (request_frame nif <$> retry_ips ck (arp_cache a) (seq 0 16)).
Proof.
  intros I L. unfold arp_tick. rewrite (lo_get _ _ L). change (Z.to_nat ARP_CACHE_ENTRIES) with 16%nat.
  assert (Hmem : forall i e, arp_cache a !! i = Some e -> i ∈ seq 0 16).
  { intros i e E. destruct (inv_entry _ _ _ I E) as (_ & Hi & _). apply elem_of_seq. lia. }
  pose proof (tick_fold ck (seq 0 16) a [] (NoDup_seq 0 16) I) as H.
  destruct (foldl _ _ _) as [a' rs]. destruct H as (I' & Hc & Hp & ->); [intros i Hi%elem_of_seq; lia|]. cbn [app].
  exists (foldl arp_request l (retry_ips ck (arp_cache a) (seq 0 16))), a'. split_and!; [done|done| | |].
  - apply list_eq. intros j. rewrite Hc, list_lookup_fmap. destruct (arp_cache a !! j) as [e|] eqn:E; [by rewrite decide_True by (by eapply Hmem)|by case_decide].
  - intros j e E. rewrite (Hp j e E). destruct (gives_up ck e); [by rewrite decide_True by (split; [by eapply Hmem|done])|by rewrite decide_False by (by intros [_ ?])].
  - apply requests_ok; [done|]. apply retry_ips_len, I.
Qed.

(** Clock readings at least one retry interval apart. *)
Definition retry_gap (ck : clock) : Z := if pit_get_freq ck =? 0 then 1000 else pit_get_freq ck.
Fixpoint spaced_from (d : Z) (cks : list clock) : Prop :=
  match cks with
  | [] => True
  | ck :: cks => d <= pit_ticks ck < 2 ^ 63 /\ 0 <= pit_ticks ck /\ 0 <= pit_get_freq ck < 2 ^ 32 /\ spaced_from (pit_ticks ck + retry_gap ck) cks
  end.

Lemma retry_deadline ck : 0 <= pit_ticks ck < 2 ^ 63 -> 0 <= pit_get_freq ck < 2 ^ 32 ->
  arp_deadline ck ARP_RETRY_MS = pit_ticks ck + retry_gap ck.
Proof.
  intros Ht Hf. unfold arp_deadline, ARP_RETRY_MS, retry_gap. set (hz := if pit_get_freq ck =? 0 then 1000 else pit_get_freq ck).
  assert (1 <= hz < 2 ^ 32) by (unfold hz; destruct (Z.eqb_spec (pit_get_freq ck) 0); lia).
  rewrite (u64_small (1000 * hz)) by lia. rewrite (Z.mul_comm 1000), Z.div_mul by lia. rewrite (proj2 (Z.eqb_neq hz 0)) by lia. apply u64_small. lia.
Qed.

Definition ticks (cks : list clock) (st : link D * arp) : link D * arp := foldl (fun st ck => arp_tick ck (fst st) (snd st)) st cks.

Lemma gives_up_ok cks : forall l a i e, arp_inv a -> link_ok l nif -> arp_cache a !! i = Some e -> ae_state e = ARP_PENDING ->
  Z.of_nat (length cks) = 4 - ae_retries e -> spaced_from (ae_deadline e) cks ->
  let a' := snd (ticks cks (l, a)) in arp_inv a' /\ arp_cache a' !! i = Some zero_entry /\ parked_at a' i = [].
Proof.
  induction cks as [|ck cks IH]; intros l a i e I L E Hs Hlen Hsp.
  - destruct (inv_entry _ _ _ I E) as ((_ & _ & Hr) & _). cbn in Hlen. lia.
  - cbn in Hsp. destruct Hsp as (Hd & Ht & Hf & Hsp). destruct (tick_ok ck l a I L) as (l1 & a1 & E1 & I1 & Hc & Hp & Sn).
    unfold ticks. cbn [foldl fst snd]. rewrite E1. fold (ticks cks (l1, a1)). specialize (Hp i e E).
    assert (arp_cache a1 !! i = Some (tick_fn ck e)) as Ei by (by rewrite Hc, list_lookup_fmap, E).
    assert (Hdue : due ck e = true) by (unfold due; rewrite Hs, (proj2 (Z.leb_le _ _)) by lia; done).
    assert (Hfn : tick_fn ck e = if gives_up ck e then zero_entry else ArpEntry (ae_ip e) (ae_mac e) ARP_PENDING (ae_retries e + 1) (pit_ticks ck + retry_gap ck)).
    { unfold tick_fn. rewrite Hs, (proj2 (Z.ltb_ge _ _)), retry_deadline by lia. done. }
    destruct (gives_up ck e) eqn:Hg.
    + assert (cks = []) as ->. { unfold gives_up, ARP_MAX_RETRIES in Hg. zbool. destruct cks; [done|cbn [length] in Hlen; lia]. }
      cbn. rewrite Ei, Hfn. done.
    + destruct (IH l1 a1 i (tick_fn ck e) I1) as (I2 & H2 & H3); try done; [by eapply sends_ok|by rewrite Hfn|rewrite Hfn; cbn [ae_retries]|by rewrite Hfn].
      cbn [length] in Hlen. lia.
Qed.

(** ** Other addresses *)
Lemma learn_at_others ck a i e ip mac ip' : arp_inv a -> arp_cache a !! i = Some e -> live_entry e -> ae_ip e = ip -> length mac = 6%nat ->
  length ip' = 4%nat -> ip' <> ip ->
  parked (learn_at ck a i ip mac) ip' = parked a ip' /\ arp_lookup (learn_at ck a i ip mac) ip' = arp_lookup a ip'.
Proof.
  intros I E Hl Hip Hmac Hip' Hne. destruct (inv_entry _ _ _ I E) as ((Hlen & _) & Hi & _). rewrite Hip in Hlen.
  destruct (learn_at_ok ck a i ip mac I Hlen Hmac Hi) as (I' & _).
  { intros j f Hj Hf Hlf Eq. apply Hj. eapply (ai_unique _ I); try done. congruence. }
  assert (forall j, j <> i -> arp_cache (learn_at ck a i ip mac) !! j = arp_cache a !! j) as Hsame by (intros; cbn; by rewrite list_lookup_insert_ne).
  assert (arp_cache (learn_at ck a i ip mac) !! i = Some (learned ck ip mac)) as Ei by (cbn; rewrite list_lookup_insert_eq; [done|by rewrite (ai_cache _ I)]).
  assert (arp_find_locked (learn_at ck a i ip mac) ip' = arp_find_locked a ip') as Ef.
  { destruct (arp_find_locked a ip') as [j|] eqn:Ej.
    - destruct (find_some _ _ _ I Hip' Ej) as (f & Hf & Hlf & <- & _). assert (j <> i) by (intros ->; congruence).
      by apply find_iff; [|rewrite Hsame|].
    - destruct (arp_find_locked (learn_at ck a i ip mac) ip') as [j|] eqn:Ej'; [|done].
      destruct (find_some _ _ _ I' Hip' Ej') as (f & Hf & Hlf & Hfip & _). destruct (Nat.eq_dec j i) as [->|Hj].
      + rewrite Ei in Hf. injection Hf as <-. cbn in Hfip. congruence.
      + rewrite Hsame in Hf by done. by destruct (find_none a ip' j f I Hip' Ej Hf Hlf). }
  unfold parked, arp_lookup, entry_at. rewrite Ef. destruct (arp_find_locked a ip') as [j|] eqn:Ej; [|done].
  destruct (find_some _ _ _ I Hip' Ej) as (f & Hf & Hlf & Hfip & _). assert (j <> i) by (intros ->; congruence). rewrite Hsame by done.
  split; [by apply parked_others|done].
Qed.

(** ** Any sequence of calls *)
Inductive arp_event :=
  | EvSend (ip frame : list Z) (payload_len type : Z)
  | EvInput (eth payload : list Z) (len : Z)
  | EvTick
  | EvFlush.
Definition event_ok (ev : arp_event) : Prop :=
  match ev with
  | EvSend ip frame n _ => length ip = 4%nat /\ zlen frame = 1514 /\ 0 <= n <= 1500
  | EvInput eth payload len => zlen eth = 14 /\ len <= zlen payload
  | EvTick | EvFlush => True
  end.
Definition arp_exec (st : link D * arp) (cev : clock * arp_event) : link D * arp :=
  let '(l, a) := st in let '(ck, ev) := cev in
  match ev with
  | EvSend ip frame n type => fst (arp_send_or_queue ck l a ip frame n type)
  | EvInput eth payload len => arp_input ck l a eth payload len
  | EvTick => arp_tick ck l a
  | EvFlush => (l, arp_flush a)
  end.
Definition arp_run (tr : list (clock * arp_event)) (st : link D * arp) : link D * arp := foldl arp_exec st tr.

(** The static data: everything zero. *)
Definition arp_init : arp := Arp (replicate 16 zero_entry) (replicate 4 (ArpPending false 0 0 0 0 (replicate 1514 0))).

Lemma flush_inv a : Forall pend_ok (arp_pend a) -> length (arp_pend a) = 4%nat -> arp_inv (arp_flush a).
Proof.
  intros P Hl. split; cbn [arp_flush arp_cache arp_pend].
  - done.
  - by rewrite length_fmap.
  - by apply Forall_replicate.
  - intros i j e f Hi _ Hlive. apply lookup_replicate in Hi as [-> _]. by destruct Hlive.
  - apply Forall_fmap. eapply Forall_impl; [|exact P]. intros p [H _]. by split.
  - intros p (q & -> & _)%list_elem_of_fmap. done.
Qed.

Lemma arp_init_inv : arp_inv arp_init.
Proof.
  assert (arp_init = arp_flush arp_init) as -> by done. apply flush_inv; [|done].
  apply Forall_replicate. split; [apply length_replicate|done].
Qed.

Lemma exec_inv ck ev l a : arp_inv a -> link_ok l nif -> event_ok ev ->
  let '(l', a') := arp_exec (l, a) (ck, ev) in arp_inv a' /\ exists fs, sends l l' fs.
Proof.
  intros I L Hev. destruct ev as [ip frame n type|eth payload len| |]; cbn [arp_exec event_ok] in *.
  - destruct Hev as (Hip & Hf & Hn). destruct (send_ok ck l a ip frame n type I L Hip Hf Hn) as (l' & a' & r & -> & H). cbn [fst].
    destruct (arp_lookup a ip); [destruct H as (-> & H & _)|destruct H as (_ & H & i & P)]; (split; [by try apply P|by eexists]).
  - destruct Hev as [He Hlen]. destruct (arp_input_cases ck l a eth payload len (lo_get _ _ L)) as [->|[H28 ->]]; [split; [done|exists []; apply sends_refl]|].
    unfold zlen in Hlen. destruct (accept_ok ck l a eth (from_be16 (ld16 payload 6)) (bytes_at payload 8 6) (bytes_at payload 14 4) (bytes_at payload 24 4) I L He)
      as (l1 & l' & a' & -> & I' & S2 & _ & fs & S1); [rewrite bytes_at_length; lia..|].
    split; [done|]. eexists. by eapply sends_trans.
  - destruct (tick_ok ck l a I L) as (l' & a' & -> & I' & _ & _ & S). split; [done|by eexists].
  - split; [apply flush_inv; apply I|exists []; apply sends_refl].
Qed.

Lemma run_inv tr : forall l a, arp_inv a -> link_ok l nif -> Forall event_ok (snd <$> tr) ->
  let '(l', a') := arp_run tr (l, a) in arp_inv a' /\ exists fs, sends l l' fs.
Proof.
  induction tr as [|[ck ev] tr IH]; intros l a I L F; [split; [done|exists []; apply sends_refl]|]. inversion_clear F as [|? ? H F'].
  unfold arp_run. cbn [foldl]. pose proof (exec_inv ck ev l a I L H) as Hx. destruct (arp_exec (l, a) (ck, ev)) as [l1 a1].
  destruct Hx as (I1 & fs & S1). specialize (IH l1 a1 I1 (sends_ok _ _ _ _ L S1) F'). fold (arp_run tr (l1, a1)).
  destruct (arp_run tr (l1, a1)) as [l2 a2]. destruct IH as (I2 & gs & S2). split; [done|]. eexists. by eapply sends_trans.
Qed.

(** Send, then an answer arrives. *)
Lemma resolution_ok ck ck' l a ip frame n type eth oper mac tha pad :
  arp_inv a -> link_ok l nif -> length ip = 4%nat -> zlen frame = 1514 -> 0 <= n <= 1500 ->
  arp_lookup a ip = None -> ipv4_addr_is_zero ip = false -> zlen eth = 14 -> length mac = 6%nat -> length tha = 6%nat ->
  oper = ARP_OP_REQUEST \/ oper = ARP_OP_REPLY ->
  exists l1 a1, arp_send_or_queue ck l a ip frame n type = (l1, a1, 1) /\
    (type, bytes_at frame 14 n) ∈ parked a1 ip /\ (room_for a ip -> parked a1 ip ≡ₚ (type, bytes_at frame 14 n) :: parked a ip) /\
    let p := arp_packet oper mac ip tha (nif_ipv4 nif) pad in
    exists l2 a2, arp_input ck' l1 a1 eth p (zlen p) = (l2, a2) /\
      sends l1 l2 (frames_to nif mac (parked a1 ip) ++ reply_frames eth oper mac ip true) /\
      arp_lookup a2 ip = Some mac /\ parked a2 ip = [] /\
      (forall ip', length ip' = 4%nat -> ip' <> ip -> parked a2 ip' = parked a1 ip' /\ arp_lookup a2 ip' = arp_lookup a1 ip').
Proof.
  intros I L Hip Hf Hn Hno Hz He Hmac Htha Hop. destruct (send_ok ck l a ip frame n type I L Hip Hf Hn) as (l1 & a1 & r & E & H).
  rewrite Hno in H. destruct H as (-> & S1 & i & [I1 (e & Ei & Hs & Eip) Hin Hroom]). pose proof (sends_ok _ _ _ _ L S1) as L1.
  assert (Hl : live_entry e) by (unfold live_entry; congruence). pose proof (find_iff a1 i e I1 Ei Hl) as Ef. rewrite Eip in Ef.
  exists l1, a1. unfold parked at 1 2. rewrite Ef. split_and!; [done|done|by intros [? _]%Hroom|].
  rewrite (packet_input ck' l1 a1 eth oper mac ip tha (nif_ipv4 nif) pad (lo_get _ _ L1)) by (done || apply L).
  destruct (accept_ok ck' l1 a1 eth oper mac ip (nif_ipv4 nif) I1 L1 He Hmac Hip) as (l2 & l3 & a3 & -> & I3 & S3 & Hlearn & _); [apply L|].
  rewrite Hz in Hlearn. rewrite (proj2 (ipv4_addr_equal_ok _ _ (lo_ipv4 _ _ L) (lo_ipv4 _ _ L)) eq_refl) in *.
  destruct (learn_ok ck' l1 a1 ip mac true I1 L1 Hip Hmac) as (l4 & a4 & E4 & _ & H4). rewrite Ef in H4. destruct H4 as [-> S4].
  rewrite Hlearn in E4. injection E4 as -> ->. destruct (inv_entry _ _ _ I1 Ei) as (_ & Hi & _).
  destruct (learn_at_ok ck' a1 i ip mac I1 Hip Hmac Hi) as (_ & H5 & H6).
  { intros j f Hj Hfj Hlf Eq. apply Hj. eapply (ai_unique _ I1); try done. congruence. }
  eexists _, _. split_and!; [done| |done|done|].
  - unfold parked. rewrite Ef. by eapply sends_trans.
  - intros ip' Hip' Hne. by eapply learn_at_others.
Qed.
End ops.

(** ** Properties *)
Section properties.
Context {D : Type} (nif : netif D).

(** C30: whatever calls are made (sends, received packets valid or not, timer
    ticks, flushes) at whatever times, the ARP state stays consistent: no
    two live entries have the same address, and every parked frame waits
    behind an entry that is still being resolved; and the interface and
    the frames already sent are never disturbed. *)
Theorem arp_invariant (tr : list (clock * arp_event)) (l : link D) : link_ok l nif -> Forall event_ok (snd <$> tr) ->
  let '(l', a') := arp_run tr (l, arp_init) in arp_inv a' /\ exists fs, sends l l' fs.
Proof. intros L F. apply (run_inv nif); [apply arp_init_inv|done|done]. Qed.

(** A frame for an unresolved address is parked, and when a packet from
    that address arrives, every frame parked for it is handed to the driver,
    addressed to the sender's hardware address, with its type and payload, in slot
    order; the address is then resolved, nothing is left parked for it and the other addresses are
    untouched. As long as there is room, parking loses nothing. *)
Theorem arp_resolution ck ck' (l : link D) a ip frame n type eth oper mac tha pad :
  arp_inv a -> link_ok l nif -> length ip = 4%nat -> zlen frame = 1514 -> 0 <= n <= 1500 ->
  arp_lookup a ip = None -> ipv4_addr_is_zero ip = false -> zlen eth = 14 -> length mac = 6%nat -> length tha = 6%nat ->
  oper = ARP_OP_REQUEST \/ oper = ARP_OP_REPLY ->
  exists l1 a1, arp_send_or_queue ck l a ip frame n type = (l1, a1, 1) /\
    (type, bytes_at frame 14 n) ∈ parked a1 ip /\ (room_for a ip -> parked a1 ip ≡ₚ (type, bytes_at frame 14 n) :: parked a ip) /\
    let p := arp_packet oper mac ip tha (nif_ipv4 nif) pad in
    exists l2 a2, arp_input ck' l1 a1 eth p (zlen p) = (l2, a2) /\
      sends l1 l2 (frames_to nif mac (parked a1 ip) ++ reply_frames nif eth oper mac ip true) /\
      arp_lookup a2 ip = Some mac /\ parked a2 ip = [] /\
      (forall ip', length ip' = 4%nat -> ip' <> ip -> parked a2 ip' = parked a1 ip' /\ arp_lookup a2 ip' = arp_lookup a1 ip').
Proof. apply resolution_ok. Qed.

(** Resolution is given up. Once an entry's deadline has passed and the timer
    runs at intervals of at least one second, an address nobody answers for is
    asked for again until three retries are spent, and at the next
    run its entry is freed and the frames parked behind it are dropped. *)
Theorem arp_gives_up (cks : list clock) (l : link D) a i e : arp_inv a -> link_ok l nif ->
  arp_cache a !! i = Some e -> ae_state e = ARP_PENDING -> Z.of_nat (length cks) = 4 - ae_retries e -> spaced_from (ae_deadline e) cks ->
  let a' := snd (ticks cks (l, a)) in arp_inv a' /\ arp_cache a' !! i = Some zero_entry /\ parked_in (arp_pend a') i = [].
Proof. apply gives_up_ok. Qed.
End properties.

(** An interface at 10.0.2.15 whose driver accepts every frame. *)
Definition ex_nif : netif unit :=
  Netif [0x52; 0x54; 0; 0x12; 0x34; 0x56] [10; 0; 2; 15] [255; 255; 255; 0] [10; 0; 2; 2] 1500 1 (Some (fun _ _ d => (0, d))).
Definition ex_link : link unit := Link true ex_nif tt (replicate 1514 0xAA) [].
Definition ex_ck : clock := Clock 5000 100.
Definition ex_gw_mac : list Z := [0x52; 0x55; 10; 0; 2; 2].

Lemma ex_link_ok : link_ok ex_link ex_nif.
Proof. split; [done|by eexists|done|done|cbn; lia|apply length_replicate]. Qed.

Definition ex_trace : list (clock * arp_event) :=
  [(ex_ck, EvSend [10; 0; 2; 2] (replicate 1514 7) 100 ETH_TYPE_IPV4); (ex_ck, EvTick);
   (ex_ck, EvInput (replicate 14 0) (arp_packet 2 ex_gw_mac [10; 0; 2; 2] (nif_mac ex_nif) (nif_ipv4 ex_nif) []) 28)].

Lemma arp_invariant_witness :
  (let '(l', a') := arp_run ex_trace (ex_link, arp_init) in arp_inv a' /\ exists fs, sends ex_link l' fs) /\
  length (lk_wire (fst (arp_run ex_trace (ex_link, arp_init)))) = 2%nat.
Proof.
  split; [|vm_compute; reflexivity]. apply (arp_invariant ex_nif ex_trace ex_link ex_link_ok).
  repeat constructor; vm_compute; try reflexivity; discriminate.
Defined.

Lemma arp_resolution_witness : exists l1 a1 l2 a2,
  arp_send_or_queue ex_ck ex_link arp_init [10; 0; 2; 2] (replicate 1514 7) 100 ETH_TYPE_IPV4 = (l1, a1, 1) /\
  arp_input ex_ck l1 a1 (replicate 14 0) (arp_packet 2 ex_gw_mac [10; 0; 2; 2] (nif_mac ex_nif) (nif_ipv4 ex_nif) []) 28 = (l2, a2) /\
  arp_lookup a2 [10; 0; 2; 2] = Some ex_gw_mac.
Proof.
  destruct (arp_resolution ex_nif ex_ck ex_ck ex_link arp_init [10; 0; 2; 2] (replicate 1514 7) 100 ETH_TYPE_IPV4 (replicate 14 0) 2 ex_gw_mac (nif_mac ex_nif) [])
    as (l1 & a1 & E1 & _ & _ & l2 & a2 & E2 & _ & H & _);
    [apply arp_init_inv|apply ex_link_ok|reflexivity|vm_compute; reflexivity|lia|vm_compute; reflexivity|reflexivity|reflexivity|reflexivity|reflexivity|right; reflexivity|].
  exists l1, a1, l2, a2. split; [exact E1|]. split; [exact E2|exact H].
Defined.

Definition ex_pending : arp := snd (fst (arp_send_or_queue ex_ck ex_link arp_init [10; 0; 2; 2] (replicate 1514 7) 100 ETH_TYPE_IPV4)).
Definition ex_clocks : list clock := [Clock 5100 100; Clock 5200 100; Clock 5300 100; Clock 5400 100].

Lemma ex_send_ok : event_ok (EvSend [10; 0; 2; 2] (replicate 1514 7) 100 ETH_TYPE_IPV4).
Proof. split_and!; [done|vm_compute; reflexivity|lia|lia]. Qed.

Lemma ex_pending_inv : arp_inv ex_pending.
Proof.
  unfold ex_pending. pose proof (exec_inv ex_nif ex_ck _ ex_link arp_init arp_init_inv ex_link_ok ex_send_ok) as H. cbn [arp_exec] in H.
  destruct (fst (arp_send_or_queue _ _ _ _ _ _ _)) as [l1 a1]. exact (proj1 H).
Qed.

Lemma arp_gives_up_witness : arp_cache (snd (ticks ex_clocks (ex_link, ex_pending))) !! 0%nat = Some zero_entry.
Proof.
  assert (E : arp_cache ex_pending !! 0%nat = Some (ArpEntry [10; 0; 2; 2] (replicate 6 0) ARP_PENDING 0 5100)) by (vm_compute; reflexivity).
  eapply (arp_gives_up ex_nif ex_clocks ex_link ex_pending 0); [apply ex_pending_inv|apply ex_link_ok|exact E|reflexivity|reflexivity|cbn; lia].
Defined.
