(* ===== verification/Net.v ===== *)
(** IPv4, ICMP, UDP and TCP above ARP and below the sockets:
    [kernel/net/ipv4.c], [icmp.c], [udp.c], [tcp.c], the input side of
    [eth.c], and sending on a socket ([ksocket.c]).

    One state holds the interface, the ARP cache, the IPv4 identification
    counter, the echo requests in flight and the sockets.  A received packet
    is the list of its bytes; a header pointer is the list from that header
    on.  [icmp_ping] waits by yielding: it is its start and the rounds of
    its loop. *)
From S2P Require Import Prelude.
From S2P Require Import Inet.
From S2P Require Import Alloc.
From S2P Require Import Sock.
From S2P Require Import Arp.

Definition IPV4_HDR_LEN : Z := 20.
Definition IPV4_HEADROOM : Z := ETH_HDR_LEN + IPV4_HDR_LEN.
Definition IPV4_PAYLOAD_MAX : Z := ETH_FRAME_MAX - IPV4_HEADROOM.
Definition IPV4_DEFAULT_TTL : Z := 64.
Definition UDP_HEADER_SIZE : Z := 8.
Definition ICMP_HDR_LEN : Z := 8.
Definition ICMP_ECHO_REPLY : Z := 0.
Definition ICMP_ECHO_REQUEST : Z := 8.
Definition ICMP_PING_PAYLOAD : Z := 32.
Definition ICMP_PING_SESSIONS : Z := 4.
Definition TCP_MIN_HEADER_LEN : Z := 20.

(** ** TCP options *)
Record tcp_options := TcpOptions {
  to_mss : Z;
  to_has_mss : bool;
  to_sack_permitted : bool;
  to_timestamp_present : bool;
  to_timestamp_value : Z;
  to_timestamp_echo : Z;
}.

(** One option that carries a length byte: [kind] at [i], of [len] bytes. *)
Definition tcp_option (opts : list Z) (i kind len : Z) (out : tcp_options) : tcp_options :=
  if kind =? 2 then
    if len =? 4 then TcpOptions (from_be16 (ld16 opts (i + 2))) true (to_sack_permitted out)
      (to_timestamp_present out) (to_timestamp_value out) (to_timestamp_echo out) else out
  else if kind =? 4 then
    if len =? 2 then TcpOptions (to_mss out) (to_has_mss out) true (to_timestamp_present out) (to_timestamp_value out) (to_timestamp_echo out) else out
  else if kind =? 8 then
    if len =? 10 then TcpOptions (to_mss out) (to_has_mss out) (to_sack_permitted out) true
      (from_be32 (ld32 opts (i + 2))) (from_be32 (ld32 opts (i + 6))) else out
  else out.

(** [None] when the fuel runs out, which it does not: every pass that goes on
    advances [i] ([tcp_options_total]). *)
Fixpoint tcp_options_loop (fuel : nat) (opts : list Z) (opts_len i : Z) (out : tcp_options) : option tcp_options :=
  match fuel with
  | O => None
  | S fuel =>
      if negb (i <? opts_len) then Some out else
      let kind := rd opts i in
      if kind =? 0 then Some out else
      if kind =? 1 then tcp_options_loop fuel opts opts_len (u8 (i + 1)) out else
      if i + 1 >=? opts_len then Some out else
      let len := rd opts (i + 1) in
      if (len <? 2) || (len >? u8 (opts_len - i)) then Some out else
      tcp_options_loop fuel opts opts_len (u8 (i + len)) (tcp_option opts i kind len out)
  end.
Definition tcp_parse_options (opts : list Z) (opts_len : Z) : option tcp_options :=
  tcp_options_loop (S (Z.to_nat opts_len)) opts opts_len 0 (TcpOptions 0 false false false 0 0).

Definition tcp_header_len (hdr : list Z) : Z := u8 (Z.shiftr (rd hdr 12) 4 * 4).
Definition tcp_header_len_valid (hdr : list Z) : bool := let words := Z.shiftr (rd hdr 12) 4 in (5 <=? words) && (words <=? 15).

(** ** State *)
Record icmp_session := IcmpSession {
  is_in_use : bool;
  is_replied : bool;
  is_ident : Z;
  is_seq : Z;
  is_dst : list Z;
  is_sent_ticks : Z;
  is_reply_ticks : Z;
}.

Record net (D A : Type) := Net {
  n_link : link D;
  n_arp : arp;
  ipv4_next_id : Z;
  n_pings : list icmp_session;
  n_socks : sockets A;
}.
Arguments Net {D A}.
Arguments n_link {D A}.
Arguments n_arp {D A}.
Arguments ipv4_next_id {D A}.
Arguments n_pings {D A}.
Arguments n_socks {D A}.

Section model.
Context {D A : Type} `{!AllocOps A}.
Implicit Types (s : net D A) (nif : netif D).

Definition put_link s (l : link D) (a : arp) : net D A := Net l a (ipv4_next_id s) (n_pings s) (n_socks s).
Definition put_id s (id : Z) : net D A := Net (n_link s) (n_arp s) id (n_pings s) (n_socks s).
Definition put_pings s (p : list icmp_session) : net D A := Net (n_link s) (n_arp s) (ipv4_next_id s) p (n_socks s).
Definition put_socks s (k : sockets A) : net D A := Net (n_link s) (n_arp s) (ipv4_next_id s) (n_pings s) k.

(** ** IPv4 output *)
Definition ipv4_next_hop nif (dst : list Z) : option (list Z) :=
  if ipv4_same_subnet dst (nif_ipv4 nif) (nif_netmask nif) then Some dst
  else if ipv4_addr_is_zero (nif_gateway nif) then None
  else Some (nif_gateway nif).

Definition ipv4_dst_is_broadcast nif (dst : list Z) : bool :=
  ipv4_addr_equal dst [0xFF; 0xFF; 0xFF; 0xFF] || ipv4_is_broadcast dst (nif_ipv4 nif) (nif_netmask nif).

(** The fields of [struct ipv4_hdr] in order. *)
Definition ipv4_hdr (total_len id protocol checksum : Z) (src dst : list Z) : list Z :=
  [0x45; 0] ++ bytes16 (to_be16 total_len) ++ bytes16 (to_be16 id) ++ bytes16 0 ++ [IPV4_DEFAULT_TTL; protocol] ++ bytes16 checksum ++ src ++ dst.

Definition ipv4_output_framed (ck : clock) s (frame dst : list Z) (protocol payload_len : Z) : net D A * Z :=
  match netif_get (n_link s) with
  | None => (s, -1)
  | Some nif =>
      if payload_len >? IPV4_PAYLOAD_MAX then (s, -1) else
      let total_len := u16 (IPV4_HDR_LEN + payload_len) in
      let id := ipv4_next_id s in
      let s := put_id s (u16 (id + 1)) in
      let frame := copy_to frame ETH_HDR_LEN (ipv4_hdr total_len id protocol 0 (nif_ipv4 nif) dst) in
      let frame := copy_to frame (ETH_HDR_LEN + 10) (bytes16 (inet_checksum (bytes_at frame ETH_HDR_LEN IPV4_HDR_LEN) IPV4_HDR_LEN)) in
      if ipv4_dst_is_broadcast nif dst then
        let '(l, r) := eth_output_framed (n_link s) frame eth_broadcast ETH_TYPE_IPV4 total_len in (put_link s l (n_arp s), r)
      else
        match ipv4_next_hop nif dst with
        | None => (s, -1)
        | Some hop => let '(l, a, r) := arp_send_or_queue ck (n_link s) (n_arp s) hop frame total_len ETH_TYPE_IPV4 in (put_link s l a, r)
        end
  end.

Definition ipv4_output (ck : clock) s (dst : list Z) (protocol : Z) (payload : option (list Z)) (payload_len : Z) : net D A * Z :=
  if payload_len >? IPV4_PAYLOAD_MAX then (s, -1) else
  let frame := lk_stack (n_link s) in
  let frame := match payload with
               | Some payload => if negb (payload_len =? 0) then copy_to frame IPV4_HEADROOM (take (Z.to_nat payload_len) payload) else frame
               | None => frame
               end in
  ipv4_output_framed ck s frame dst protocol payload_len.

(** ** ICMP *)
Definition icmp_ticks_to_ms (ck : clock) (ticks : Z) : Z :=
  if pit_get_freq ck =? 0 then 0 else u32 ((ticks ⊗ 1000) / pit_get_freq ck).

Definition ip_src (ip : list Z) : list Z := bytes_at ip 12 4.
Definition ip_dst (ip : list Z) : list Z := bytes_at ip 16 4.

(** The first session that waits for this reply. *)
Fixpoint echo_reply_loop (ck : clock) (ident seq : Z) (src : list Z) (l : list icmp_session) : list icmp_session :=
  match l with
  | [] => []
  | p :: l =>
      if negb (is_in_use p) || is_replied p then p :: echo_reply_loop ck ident seq src l else
      if negb (is_ident p =? ident) || negb (is_seq p =? seq) || negb (ipv4_addr_equal (is_dst p) src) then p :: echo_reply_loop ck ident seq src l else
      IcmpSession (is_in_use p) true (is_ident p) (is_seq p) (is_dst p) (is_sent_ticks p) (pit_ticks ck) :: l
  end.
Definition icmp_echo_reply_input (ck : clock) s (ip icmp : list Z) : net D A :=
  put_pings s (echo_reply_loop ck (from_be16 (ld16 icmp 4)) (from_be16 (ld16 icmp 6)) (ip_src ip) (n_pings s)).

Definition icmp_echo_request_input (ck : clock) s (ip payload : list Z) (len : Z) : net D A :=
  let frame := copy_to (lk_stack (n_link s)) IPV4_HEADROOM (take (Z.to_nat len) payload) in
  let frame := wr frame IPV4_HEADROOM ICMP_ECHO_REPLY in
  let frame := copy_to frame (IPV4_HEADROOM + 2) (bytes16 0) in
  let frame := copy_to frame (IPV4_HEADROOM + 2) (bytes16 (inet_checksum (bytes_at frame IPV4_HEADROOM len) len)) in
  fst (ipv4_output_framed ck s frame (ip_src ip) IPPROTO_ICMP len).

Definition icmp_input (ck : clock) s (ip payload : list Z) (len : Z) : net D A :=
  if (len <? ICMP_HDR_LEN) || (len >? IPV4_PAYLOAD_MAX) then s else
  if negb (rd payload 1 =? 0) then s else
  if negb (inet_checksum payload len =? 0) then s else
  if rd payload 0 =? ICMP_ECHO_REQUEST then icmp_echo_request_input ck s ip payload len
  else if rd payload 0 =? ICMP_ECHO_REPLY then icmp_echo_reply_input ck s ip payload
  else s.

Definition icmp_session_release s (slot : nat) : net D A :=
  match n_pings s !! slot with
  | Some p => put_pings s (<[slot := IcmpSession false (is_replied p) (is_ident p) (is_seq p) (is_dst p) (is_sent_ticks p) (is_reply_ticks p)]> (n_pings s))
  | None => s
  end.

Definition icmp_ping_request (ident seq : Z) : list Z :=
  let msg c := [ICMP_ECHO_REQUEST; 0] ++ bytes16 c ++ bytes16 (to_be16 ident) ++ bytes16 (to_be16 seq) ++
               ((fun i => u8 (97 + i mod 23)) <$> seqZ 0 ICMP_PING_PAYLOAD) in
  msg (inet_checksum (msg 0) (ICMP_HDR_LEN + ICMP_PING_PAYLOAD)).

(** Up to the waiting loop: the slot claimed, or the error returned. *)
Definition icmp_ping_start (ck : clock) s (dst : list Z) (ident seq : Z) : net D A * (Z + nat) :=
  match netif_get (n_link s) with
  | None => (s, inl (-2))
  | Some _ =>
      match list_find (fun p => Is_true (negb (is_in_use p))) (n_pings s) with
      | None => (s, inl (-2))
      | Some (slot, _) =>
          let s := put_pings s (<[slot := IcmpSession true false ident seq dst (pit_ticks ck) 0]> (n_pings s)) in
          let len := ICMP_HDR_LEN + ICMP_PING_PAYLOAD in
          let frame := copy_to (lk_stack (n_link s)) IPV4_HEADROOM (icmp_ping_request ident seq) in
          let '(s, r) := ipv4_output_framed ck s frame dst IPPROTO_ICMP len in
          if r <? 0 then (icmp_session_release s slot, inl (-2)) else (s, inr slot)
      end
  end.

(** One pass of the waiting loop at time [ck], with the round trip when it
    ends with a reply; otherwise the task yields. *)
Definition icmp_ping_round (ck : clock) s (slot : nat) (start timeout_ms : Z) : net D A * round * option Z :=
  let hz := if pit_get_freq ck =? 0 then 1000 else pit_get_freq ck in
  let limit := (timeout_ms ⊗ hz) / 1000 in
  let limit := if limit =? 0 then 1 else limit in
  match n_pings s !! slot with
  | None => (s, Parked, None)
  | Some p =>
      if is_replied p then
        (icmp_session_release s slot, Returned 0, Some (icmp_ticks_to_ms ck (is_reply_ticks p ⊖ is_sent_ticks p)))
      else if pit_ticks ck ⊖ start >=? limit then (icmp_session_release s slot, Returned (-1), None)
      else (s, Parked, None)
  end.

(** ** UDP and TCP *)
Definition udp_header (src_port dst_port length checksum : Z) : list Z :=
  bytes16 src_port ++ bytes16 dst_port ++ bytes16 length ++ bytes16 checksum.

Definition udp_input s (ip segment : list Z) (seg_len : Z) : net D A :=
  if seg_len <? UDP_HEADER_SIZE then s else
  let udp_len := from_be16 (ld16 segment 4) in
  if (udp_len <? UDP_HEADER_SIZE) || (udp_len >? seg_len) then s else
  if negb (ld16 segment 6 =? 0) && negb (udp_checksum (ip_src ip) (ip_dst ip) segment udp_len =? 0) then s else
  put_socks s (socket_handle_incoming (n_socks s) (ip_src ip) (ld16 segment 0) (ip_dst ip) (ld16 segment 2) IPPROTO_UDP
    (bytes_at segment UDP_HEADER_SIZE (u16 (udp_len - UDP_HEADER_SIZE)))).

(** The segment [udp_output] builds before it calls [ipv4_output]. *)
Definition udp_segment (src_ip dst_ip : list Z) (src_port dst_port : Z) (payload : list Z) : list Z :=
  let seg_len := u16 (UDP_HEADER_SIZE + zlen payload) in
  let hdr c := udp_header (to_be16 src_port) (to_be16 dst_port) (to_be16 seg_len) c in
  let c := udp_checksum src_ip dst_ip (hdr 0 ++ payload) seg_len in
  let c := if c =? 0 then 0xFFFF else c in
  hdr c ++ payload.
Definition udp_output (ck : clock) s (dst_ip : list Z) (src_port dst_port : Z) (payload : list Z) : net D A * Z :=
  if zlen payload >? IPV4_PAYLOAD_MAX - UDP_HEADER_SIZE then (s, -1) else
  match netif_get (n_link s) with
  | None => (s, -1)
  | Some nif =>
      let seg_len := u16 (UDP_HEADER_SIZE + zlen payload) in
      ipv4_output ck s dst_ip IPPROTO_UDP (Some (udp_segment (nif_ipv4 nif) dst_ip src_port dst_port payload)) seg_len
  end.

(** The parsed options are only logged. *)
Definition tcp_input s (ip segment : list Z) (seg_len : Z) : net D A :=
  if seg_len <? TCP_MIN_HEADER_LEN then s else
  if negb (tcp_header_len_valid segment) then s else
  let hdr_len := tcp_header_len segment in
  if hdr_len >? seg_len then s else
  if negb (tcp_checksum (ip_src ip) (ip_dst ip) segment seg_len =? 0) then s else
  put_socks s (socket_handle_incoming (n_socks s) (ip_src ip) (ld16 segment 0) (ip_dst ip) (ld16 segment 2) IPPROTO_TCP
    (bytes_at segment hdr_len (u16 (seg_len - hdr_len)))).

(** ** Input *)
Definition ipv4_deliver (ck : clock) s (ip : list Z) (protocol : Z) (payload : list Z) (payload_len : Z) : net D A :=
  if protocol =? IPPROTO_ICMP then icmp_input ck s ip payload payload_len
  else if protocol =? IPPROTO_UDP then udp_input s ip payload payload_len
  else if protocol =? IPPROTO_TCP then tcp_input s ip payload payload_len
  else s.

Definition ipv4_input (ck : clock) s (packet : list Z) (len : Z) : net D A :=
  match netif_get (n_link s) with
  | None => s
  | Some nif =>
      if len <? IPV4_HDR_LEN then s else
      if negb (Z.shiftr (rd packet 0) 4 =? 4) then s else
      let ihl := u16 (Z.land (rd packet 0) 0x0F * 4) in
      let total_len := from_be16 (ld16 packet 2) in
      if (ihl <? IPV4_HDR_LEN) || (total_len <? ihl) || (total_len >? len) then s else
      if negb (inet_checksum packet ihl =? 0) then s else
      if from_be16 (ld16 packet 6) &? 0x3FFF then s else
      if negb (ipv4_addr_equal (ip_dst packet) (nif_ipv4 nif)) && negb (ipv4_dst_is_broadcast nif (ip_dst packet)) then s else
      ipv4_deliver ck s packet (rd packet 9) (drop (Z.to_nat ihl) packet) (u16 (total_len - ihl))
  end.

Definition eth_addressed_to_us nif (dst : list Z) : bool :=
  (rd dst 0 &? 0x01) || bool_decide (take 6 dst = nif_mac nif).

Definition eth_input (ck : clock) s (frame : list Z) (len : Z) : net D A :=
  match netif_get (n_link s) with
  | None => s
  | Some nif =>
      if (len <? ETH_HDR_LEN) || (len >? ETH_FRAME_MAX) then s else
      if negb (eth_addressed_to_us nif frame) then s else
      let payload := drop (Z.to_nat ETH_HDR_LEN) frame in
      let payload_len := u16 (len - ETH_HDR_LEN) in
      let type := from_be16 (ld16 frame 12) in
      if type =? ETH_TYPE_ARP then
        let '(l, a) := arp_input ck (n_link s) (n_arp s) (take 14 frame) payload payload_len in put_link s l a
      else if type =? ETH_TYPE_IPV4 then ipv4_input ck s payload payload_len
      else s
  end.

(** ** Sending on a socket *)
Definition socket_sendto (ck : clock) s (sock : Z) (buf : option (list Z)) (dest_addr : option sockaddr_in) : net D A * Z :=
  match buf, dest_addr with
  | Some buf, Some dest =>
      if sock =? 0 then (s, -1) else
      let len := zlen buf in
      if len >? IPV4_PAYLOAD_MAX - UDP_HEADER_SIZE then (s, -1) else
      let k := put_sock (n_socks s) sock (set_remote (sock_at (n_socks s) sock) dest) in
      let '(frame, k) := kmalloc_sk k (IPV4_HEADROOM + UDP_HEADER_SIZE + len) in
      let s := put_socks s k in
      if frame =? 0 then (s, -1) else
      let udp := udp_header (sa_port (so_local (sock_at k sock))) (sa_port dest) (to_be16 (UDP_HEADER_SIZE + len)) 0 ++ buf in
      let '(s, ret) := ipv4_output ck s (sa_ip dest) IPPROTO_UDP (Some udp) (UDP_HEADER_SIZE + len) in
      let s := put_socks s (kfree_sk (n_socks s) frame) in
      if ret <? 0 then (s, -1) else (s, len)
  | _, _ => (s, -1)
  end.
End model.
