(* ===== verification/NetSpec.v ===== *)
(** The network stack end to end: what a host sends, another receives.

    The proofs follow a packet through the layers: the header built by
    [ipv4_output_framed], the Ethernet frame on the wire, and the checks of
    [eth_input], [ipv4_input], [udp_input] and [icmp_input] on the way up. *)
From S2P Require Import Prelude.
From S2P Require Import Pmm.
From S2P Require Import Frames.
From S2P Require Import Vmm.
From S2P Require Import Paging.
From S2P Require Import VmmSpec.
From S2P Require Import HeapSpec.
From S2P Require Import Inet.
From S2P Require Import InetSpec.
From S2P Require Import Alloc.
From S2P Require Import Sock.
From S2P Require Import SockSpec.
From S2P Require Import Arp.
From S2P Require Import ArpSpec.
From S2P Require Import Net.

(** ** Packets *)
Definition is_ip (a : list Z) : Prop := length a = 4%nat /\ bytes_ok a.

(** The ten bytes of the header before its checksum. *)
Definition ipv4_hdr1 (total_len id protocol : Z) : list Z :=
  [0x45; 0] ++ bytes16 (to_be16 total_len) ++ bytes16 (to_be16 id) ++ bytes16 0 ++ [IPV4_DEFAULT_TTL; protocol].

Lemma ipv4_hdr_word t id p c src dst : ipv4_hdr t id p c src dst = with_word (ipv4_hdr1 t id p) c (src ++ dst).
Proof. reflexivity. Qed.

Definition ipv4_packet (id protocol : Z) (src dst payload : list Z) : list Z :=
  let t := 20 + zlen payload in
  ipv4_hdr t id protocol (inet_checksum (ipv4_hdr t id protocol 0 src dst) 20) src dst ++ payload.

Lemma ipv4_hdr_len t id p c src dst : length src = 4%nat -> length dst = 4%nat -> length (ipv4_hdr t id p c src dst) = 20%nat.
Proof. intros Hs Hd. unfold ipv4_hdr. rewrite !length_app, Hs, Hd. done. Qed.

Lemma ipv4_hdr1_ok t id p : is_u8 p -> bytes_ok (ipv4_hdr1 t id p).
Proof.
  intros Hp. unfold ipv4_hdr1, bytes_ok. rewrite !Forall_app. split_and!; try apply bytes16_ok; unfold IPV4_DEFAULT_TTL; repeat (constructor; [done || (unfold is_u8; change (2 ^ 8) with 256; lia)|]); constructor.
Qed.

(** The header on the wire passes the receiver's check. *)
Lemma ipv4_hdr_verifies t id p src dst rest : is_u8 p -> is_ip src -> is_ip dst ->
  inet_checksum (ipv4_hdr t id p (inet_checksum (ipv4_hdr t id p 0 src dst) 20) src dst ++ rest) 20 = 0.
Proof.
  intros Hp [Ls Bs] [Ld Bd]. pose proof (checksum_verifies (ipv4_hdr1 t id p) (src ++ dst)) as H. rewrite <-!ipv4_hdr_word in H.
  assert (zlen (ipv4_hdr1 t id p) + 2 + zlen (src ++ dst) = 20) as E by (unfold zlen; rewrite length_app, Ls, Ld; done). rewrite E in H.
  assert (forall h, length h = 20%nat -> inet_checksum (h ++ rest) 20 = inet_checksum h 20) as Hpre.
  { intros h Hh. unfold inet_checksum. change (Z.to_nat 20) with 20%nat. rewrite take_app_le by lia. done. }
  rewrite Hpre by (by apply ipv4_hdr_len). apply H; [by exists 5|by apply ipv4_hdr1_ok|by apply Forall_app|lia].
Qed.

(** What [ipv4_output_framed] makes of its frame. *)
Lemma ipv4_built frame id p src dst n : zlen frame = 1514 -> 0 <= n <= 1480 -> length src = 4%nat -> length dst = 4%nat ->
  let f1 := copy_to frame 14 (ipv4_hdr (20 + n) id p 0 src dst) in
  let f2 := copy_to f1 24 (bytes16 (inet_checksum (bytes_at f1 14 20) 20)) in
  zlen f2 = 1514 /\ bytes_at f2 14 (20 + n) = ipv4_packet id p src dst (bytes_at frame 34 n).
Proof.
  intros Hf Hn Ls Ld. unfold zlen in *. destruct (split_at frame 14) as (a & r1 & -> & La); [lia|]. rewrite length_app in Hf.
  destruct (split_at r1 20) as (b & r & -> & Lb); [lia|]. rewrite length_app in Hf.
  pose proof (ipv4_hdr_len (20 + n) id p 0 src dst Ls Ld) as L0. rewrite copy_to_mid by lia.
  assert (forall h, length h = 20%nat -> bytes_at (a ++ h ++ r) 14 20 = h) as Hb.
  { intros h Lh. unfold bytes_at. replace (Z.to_nat 14) with (length a) by lia. rewrite drop_app_length. by rewrite take_app_length'. }
  rewrite (Hb _ L0). set (c := inet_checksum _ 20). rewrite (ipv4_hdr_word _ _ _ 0). unfold with_word.
  rewrite <-!(assoc_L (++)), (assoc_L (++) a). rewrite copy_to_mid by (rewrite ?length_app, ?La; done).
  replace ((a ++ ipv4_hdr1 (20 + n) id p) ++ bytes16 c ++ src ++ dst ++ r) with (a ++ ipv4_hdr (20 + n) id p c src dst ++ r)
    by (rewrite ipv4_hdr_word; unfold with_word; by rewrite <-!(assoc_L (++))).
  pose proof (ipv4_hdr_len (20 + n) id p c src dst Ls Ld) as Lc. split; [rewrite !length_app; lia|].
  assert (bytes_at (a ++ b ++ r) 34 n = take (Z.to_nat n) r) as ->.
  { unfold bytes_at. replace (Z.to_nat 34) with (length (a ++ b)) by (rewrite length_app; lia). by rewrite (assoc_L (++)), drop_app_length. }
  unfold ipv4_packet. assert (zlen (take (Z.to_nat n) r) = n) as -> by (unfold zlen; rewrite length_take; lia). fold c.
  unfold bytes_at. replace (Z.to_nat 14) with (length a) by lia. rewrite drop_app_length, take_app_ge by lia. rewrite Lc. do 2 f_equal. lia.
Qed.

(** ** Receiving *)
Section input.
Context {D A : Type} `{!AllocOps A}.
Implicit Types (s : net D A) (nif : netif D).

(** A packet for this host, with anything behind it, reaches its protocol. *)
Lemma ipv4_input_ok ck s nif id p src dst payload pad : netif_get (n_link s) = Some nif -> is_u8 p -> is_ip src -> is_ip dst -> is_ip (nif_ipv4 nif) ->
  zlen payload <= 1480 -> dst = nif_ipv4 nif \/ ipv4_dst_is_broadcast nif dst = true ->
  let pkt := ipv4_packet id p src dst payload ++ pad in
  zlen pkt < 2 ^ 16 ->
  ipv4_input ck s pkt (zlen pkt) = ipv4_deliver ck s pkt p (payload ++ pad) (zlen payload) /\ ip_src pkt = src /\ ip_dst pkt = dst.
Proof.
  intros G Hp Hs Hd [Li _] Hl Hdst pkt Hpk. set (t := 20 + zlen payload). assert (Ht : 20 <= t <= 1500) by (unfold t, zlen in *; lia).
  set (c := inet_checksum (ipv4_hdr t id p 0 src dst) 20). assert (pkt = ipv4_hdr t id p c src dst ++ payload ++ pad) as Epk.
  { unfold pkt, ipv4_packet. fold t c. by rewrite <-(assoc_L (++)). }
  assert (E0 : rd pkt 0 = 0x45) by done. assert (E9 : rd pkt 9 = p) by done. assert (E6 : from_be16 (ld16 pkt 6) = 0) by (rewrite Epk; vm_compute; reflexivity).
  assert (E2 : from_be16 (ld16 pkt 2) = t).
  { rewrite Epk. assert (is_u16 (to_be16 t)) as H16 by apply bswap16_range. destruct (bytes16_le (to_be16 t) H16) as (b0 & b1 & Eb & _ & _ & Ele).
    unfold ipv4_hdr. rewrite Eb. change (ld16 _ 2) with (le16 b0 b1). rewrite <-Ele. apply bswap16_invol. unfold is_u16. lia. }
  destruct Hs as [Ls Bs]. destruct Hd as [Ld Bd]. pose proof (ipv4_hdr_len t id p c src dst Ls Ld) as Lh.
  assert (ip_src pkt = src /\ ip_dst pkt = dst) as [Es Ed].
  { rewrite Epk. destruct src as [|s0 [|s1 [|s2 [|s3 [|]]]]]; try done. destruct dst as [|d0 [|d1 [|d2 [|d3 [|]]]]]; try done. }
  split; [|done]. unfold ipv4_input. rewrite G, E0, E2, E6, E9, Ed.
  assert (Hlen : t <= zlen pkt) by (rewrite Epk; unfold zlen at 1; rewrite length_app, Lh, length_app; unfold t, zlen; lia).
  unfold IPV4_HDR_LEN. rewrite (proj2 (Z.ltb_ge (zlen pkt) 20)) by lia. change (u16 (Z.land 69 15 * 4)) with 20. change (negb (Z.shiftr 69 4 =? 4)) with false. cbv iota.
  rewrite (proj2 (Z.ltb_ge t 20)), Z.gtb_ltb, (proj2 (Z.ltb_ge (zlen pkt) t)) by lia. change (20 <? 20) with false. cbn [orb].
  rewrite Epk at 1. unfold c at 1. rewrite ipv4_hdr_verifies by done. change (negb (0 =? 0)) with false. cbv iota. change (0 &? 0x3FFF) with false. cbv iota.
  assert ((negb (ipv4_addr_equal dst (nif_ipv4 nif)) && negb (ipv4_dst_is_broadcast nif dst)) = false) as ->.
  { destruct Hdst as [->| ->]; [|apply andb_false_r]. by rewrite (proj2 (ipv4_addr_equal_ok _ _ Li Li)) by done. }
  unfold u16. rewrite Z.mod_small by lia. replace (t - 20) with (zlen payload) by (unfold t; lia). f_equal.
  rewrite Epk. replace (Z.to_nat 20) with (length (ipv4_hdr t id p c src dst)) by lia. apply drop_app_length.
Qed.

(** A frame for this host reaches IPv4. *)
Lemma eth_input_ipv4 ck s nif dst src payload : netif_get (n_link s) = Some nif -> length dst = 6%nat -> length src = 6%nat ->
  dst = nif_mac nif \/ dst = eth_broadcast -> zlen payload <= 1500 ->
  let f := eth_frame dst src ETH_TYPE_IPV4 payload in
  eth_input ck s f (zlen f) = ipv4_input ck s payload (zlen payload).
Proof.
  intros G Hd Hs Hto Hl f. assert (zlen f = 14 + zlen payload) as El by (unfold f, eth_frame, zlen; rewrite !length_app, Hd, Hs; cbn [length bytes16]; lia).
  assert (Hz : 0 <= zlen payload) by (unfold zlen; lia). unfold eth_input. rewrite G, El. unfold ETH_HDR_LEN, ETH_FRAME_MAX.
  rewrite (proj2 (Z.ltb_ge (14 + zlen payload) 14)), Z.gtb_ltb, (proj2 (Z.ltb_ge 1514 _)) by lia. cbn [orb].
  assert (eth_addressed_to_us nif f = true) as ->.
  { unfold eth_addressed_to_us. destruct Hto as [Hto|Hto].
    - rewrite (bool_decide_true (take 6 f = nif_mac nif)); [apply orb_true_r|]. unfold f, eth_frame. by rewrite take_app_length'.
    - unfold f, eth_frame. rewrite Hto. done. }
  assert (Z.to_nat 14 = length (dst ++ src ++ bytes16 (to_be16 ETH_TYPE_IPV4))) as E14 by (rewrite !length_app, Hd, Hs; done).
  assert (drop (Z.to_nat 14) f = payload) as ->.
  { rewrite E14. replace f with ((dst ++ src ++ bytes16 (to_be16 ETH_TYPE_IPV4)) ++ payload) by (unfold f, eth_frame; by rewrite <-!(assoc_L (++))). apply drop_app_length. }
  assert (from_be16 (ld16 f 12) = ETH_TYPE_IPV4) as ->.
  { unfold f, eth_frame. destruct dst as [|d0 [|d1 [|d2 [|d3 [|d4 [|d5 [|]]]]]]]; try done. destruct src as [|s0 [|s1 [|s2 [|s3 [|s4 [|s5 [|]]]]]]]; try done. }
  cbn [negb]. change (ETH_TYPE_IPV4 =? ETH_TYPE_ARP) with false. change (ETH_TYPE_IPV4 =? ETH_TYPE_IPV4) with true. cbv iota.
  unfold u16. rewrite Z.mod_small by lia. f_equal. lia.
Qed.
End input.

(** ** Sending *)
Section output.
Context {D A : Type} `{!AllocOps A, !AllocLaws A}.
Implicit Types (s : net D A) (nif : netif D).

Record host_ok s nif : Prop := HostOk {
  ho_link : link_ok (n_link s) nif;
  ho_accepts : accepts nif;
  ho_arp : arp_inv (n_arp s);
  ho_ipv4 : is_ip (nif_ipv4 nif);
  ho_mtu : 1500 <= nif_mtu nif;
}.

(** Where a packet for [dst] goes: broadcast, or the resolved next hop. *)
Definition routes s nif (dst mac : list Z) : Prop :=
  if ipv4_dst_is_broadcast nif dst then mac = eth_broadcast
  else exists hop, ipv4_next_hop nif dst = Some hop /\ length hop = 4%nat /\ arp_lookup (n_arp s) hop = Some mac.

(** [s'] is [s] after the IPv4 packet has been handed to the driver. *)
Record sent_ip s s' nif (mac : list Z) (p : Z) (dst payload : list Z) : Prop := SentIp {
  st_wire : sends (n_link s) (n_link s') [eth_frame mac (nif_mac nif) ETH_TYPE_IPV4 (ipv4_packet (ipv4_next_id s) p (nif_ipv4 nif) dst payload)];
  st_arp : n_arp s' = n_arp s;
  st_pings : n_pings s' = n_pings s;
  st_socks : n_socks s' = n_socks s;
}.

Lemma ipv4_send_ok ck s nif frame dst p n mac : host_ok s nif -> zlen frame = 1514 -> 0 <= n <= 1480 -> length dst = 4%nat -> routes s nif dst mac ->
  exists s', ipv4_output_framed ck s frame dst p n = (s', 0) /\ sent_ip s s' nif mac p dst (bytes_at frame 34 n).
Proof.
  intros [L Ha I [Li _] Hm] Hf Hn Hd Hr. unfold ipv4_output_framed. rewrite (lo_get _ _ L).
  change (n >? IPV4_PAYLOAD_MAX) with (n >? 1480). rewrite Z.gtb_ltb, (proj2 (Z.ltb_ge _ _)) by lia.
  unfold IPV4_HDR_LEN, ETH_HDR_LEN. rewrite (u16_small (20 + n)) by lia. change (14 + 10) with 24.
  destruct (ipv4_built frame (ipv4_next_id s) p (nif_ipv4 nif) dst n Hf Hn Li Hd) as [Hl Hpk]. cbn zeta in Hl, Hpk. set (f2 := copy_to _ 24 _) in *.
  unfold routes in Hr. cbn [n_link put_id n_arp]. destruct (ipv4_dst_is_broadcast nif dst).
  - subst mac. destruct (eth_framed_ok (n_link s) nif f2 eth_broadcast ETH_TYPE_IPV4 (20 + n) L) as (l' & r & -> & H); [done|lia|lia|].
    rewrite (proj2 (Z.leb_le _ _)), Hpk in H by lia. destruct H as [H ->]; [|done]. eexists. split; [done|]. by split.
  - destruct Hr as (hop & -> & Hh & Hlk). destruct (send_ok nif ck (n_link s) (n_arp s) hop f2 (20 + n) ETH_TYPE_IPV4 I L Hh Hl) as (l' & a' & r & -> & H); [lia|].
    rewrite Hlk in H. destruct H as (-> & Hs & Hr). rewrite Hr by (done || lia). eexists. split; [done|]. split; try done.
    unfold frame_of in Hs. by rewrite (proj2 (Z.leb_le _ _)), Hpk in Hs by lia.
Qed.

(** A message copied behind the headers. *)
Lemma placed (stack payload : list Z) : length stack = 1514%nat -> zlen payload <= 1480 ->
  zlen (copy_to stack 34 payload) = 1514 /\ bytes_at (copy_to stack 34 payload) 34 (zlen payload) = payload.
Proof using.
  intros Ls Hp. unfold zlen in *. destruct (split_at stack 34) as (a & r1 & -> & La); [lia|]. rewrite length_app in Ls.
  destruct (split_at r1 (length payload)) as (b & r & -> & Lb); [lia|]. rewrite length_app in Ls. rewrite copy_to_mid by lia.
  rewrite !length_app. split; [lia|]. unfold bytes_at. replace (Z.to_nat 34) with (length a) by lia. by rewrite drop_app_length, Nat2Z.id, take_app_length.
Qed.

Lemma ipv4_output_ok ck s nif dst p payload mac : host_ok s nif -> 0 < zlen payload <= 1480 -> length dst = 4%nat -> routes s nif dst mac ->
  exists s', ipv4_output ck s dst p (Some payload) (zlen payload) = (s', 0) /\ sent_ip s s' nif mac p dst payload.
Proof.
  intros H Hp Hd Hr. unfold ipv4_output. change (_ >? IPV4_PAYLOAD_MAX) with (zlen payload >? 1480).
  rewrite Z.gtb_ltb, (proj2 (Z.ltb_ge _ _)), (proj2 (Z.eqb_neq (zlen payload) 0)) by lia. cbn [negb].
  assert (take (Z.to_nat (zlen payload)) payload = payload) as -> by (apply take_ge; unfold zlen; lia).
  destruct (placed (lk_stack (n_link s)) payload (lo_stack _ _ (ho_link _ _ H)) ltac:(lia)) as [Hf E]. change IPV4_HEADROOM with 34.
  destruct (ipv4_send_ok ck s nif _ dst p (zlen payload) mac H Hf) as (s' & -> & Hs); [lia|done|done|].
  exists s'. split; [done|]. by rewrite E in Hs.
Qed.

(** ** UDP *)
Lemma udp_hdr_len a b c d : length (udp_header a b c d) = 8%nat.
Proof. done. Qed.

Lemma ld16_word l1 v l2 : is_u16 v -> ld16 (l1 ++ bytes16 v ++ l2) (zlen l1) = v.
Proof.
  intros H. destruct (bytes16_le v H) as (a & b & -> & _ & _ & ->). unfold ld16, rd, zlen.
  rewrite Nat2Z.id, (lookup_app_r l1), Nat.sub_diag by done. replace (Z.to_nat (Z.of_nat (length l1) + 1)) with (length l1 + 1)%nat by lia.
  rewrite (lookup_app_r l1) by lia. by replace (length l1 + 1 - length l1)%nat with 1%nat by lia.
Qed.

Lemma udp_fields a b c d rest : is_u16 a -> is_u16 b -> is_u16 c -> is_u16 d -> let seg := udp_header a b c d ++ rest in
  ld16 seg 0 = a /\ ld16 seg 2 = b /\ ld16 seg 4 = c /\ ld16 seg 6 = d.
Proof.
  intros Ha Hb Hc Hd seg. split_and!.
  - apply (ld16_word [] a). done.
  - apply (ld16_word (bytes16 a) b). done.
  - apply (ld16_word (bytes16 a ++ bytes16 b) c). done.
  - apply (ld16_word (bytes16 a ++ bytes16 b ++ bytes16 c) d). done.
Qed.

(** A datagram without a checksum is delivered as it is. *)
Lemma udp_input_plain s ip sport dport data pad : is_u16 sport -> is_u16 dport -> zlen data <= 1472 ->
  udp_input s ip (udp_header sport dport (to_be16 (8 + zlen data)) 0 ++ data ++ pad) (8 + zlen data) =
  put_socks s (socket_handle_incoming (n_socks s) (ip_src ip) sport (ip_dst ip) dport IPPROTO_UDP data).
Proof.
  intros Hs Hp Hl. set (seg := _ ++ data ++ pad). assert (0 <= zlen data) as Hz by (unfold zlen; lia).
  destruct (udp_fields sport dport (to_be16 (8 + zlen data)) 0 (data ++ pad) Hs Hp (bswap16_range _)) as (E0 & E2 & E4 & E6); [split; done|].
  fold seg in E0, E2, E4, E6. unfold udp_input. rewrite E0, E2, E4, E6. unfold UDP_HEADER_SIZE.
  unfold from_be16, to_be16. rewrite bswap16_invol by (unfold is_u16; lia).
  rewrite (proj2 (Z.ltb_ge _ 8)), Z.gtb_ltb, Z.ltb_irrefl by lia. cbn [orb Z.eqb negb andb].
  unfold u16. rewrite Z.mod_small by lia. replace (8 + zlen data - 8) with (zlen data) by lia. do 2 f_equal.
  unfold bytes_at, seg, zlen. change (Z.to_nat 8) with (length (udp_header sport dport (to_be16 (8 + Z.of_nat (length data))) 0)).
  by rewrite drop_app_length, Nat2Z.id, take_app_length.
Qed.

(** ** Sending on a socket *)
Definition sent_to (a : asock) (dest : sockaddr_in) : asock :=
  ASock (a_id a) (a_state a) (a_type a) (a_protocol a) (a_local a) dest (a_fd_refs a) (a_queue a).

(** The frame buffer is freed again: only the remote address changes. *)
Lemma sendto_ok ck s nif O es1 e es2 data dest mac : let sock := e_ptr e in let len := zlen data in
  host_ok s nif -> sk_inv (n_socks s) O (es1 ++ e :: es2) -> len <= 1472 -> is_ip (sa_ip dest) -> routes s nif (sa_ip dest) mac ->
  fst (al_malloc (sk_heap (n_socks s)) (34 + 8 + len)) <> 0 ->
  exists s', socket_sendto ck s sock (Some data) (Some dest) = (s', len) /\
    sends (n_link s) (n_link s') [eth_frame mac (nif_mac nif) ETH_TYPE_IPV4 (ipv4_packet (ipv4_next_id s) IPPROTO_UDP (nif_ipv4 nif) (sa_ip dest)
      (udp_header (sa_port (a_local (e_sock e))) (sa_port dest) (to_be16 (8 + len)) 0 ++ data))] /\
    n_arp s' = n_arp s /\ sk_inv (n_socks s') O (es1 ++ Ent sock (e_nodes e) (sent_to (e_sock e) dest) :: es2).
Proof using AllocLaws0.
  intros sock len H I Hl [Ld _] Hr Hmem. assert (He : e ∈ es1 ++ e :: es2) by (apply elem_of_app; right; left).
  destruct (inv_sock _ O _ e I He) as (q & nx & Em & Ea & Q). assert (0 <= len) as Hz by (unfold len, zlen; lia).
  pose proof (inv_fields (n_socks s) O es1 e es2 q nx (sent_to (e_sock e) dest) I Em ltac:(done)) as I1.
  unfold socket_sendto. fold len. rewrite (proj2 (Z.eqb_neq sock 0)) by (eapply inv_nonnull; [exact I|by apply ptr_in]).
  change (len >? IPV4_PAYLOAD_MAX - UDP_HEADER_SIZE) with (len >? 1472). rewrite Z.gtb_ltb, (proj2 (Z.ltb_ge _ _)) by lia.
  unfold sock in *. rewrite Ea. change (set_remote (conc (e_sock e) q nx) dest) with (conc (sent_to (e_sock e) dest) q nx).
  set (k1 := put_sock _ _ _) in *. change (IPV4_HEADROOM + UDP_HEADER_SIZE + len) with (34 + 8 + len). unfold kmalloc_sk. change (sk_heap k1) with (sk_heap (n_socks s)).
  destruct (al_malloc (sk_heap (n_socks s)) (34 + 8 + len)) as [p h] eqn:Eal. cbn [fst] in Hmem. rewrite (proj2 (Z.eqb_neq p 0)) by done.
  destruct (al_malloc_ok _ _ (34 + 8 + len) p h (si_heap _ _ _ I1) ltac:(lia) Eal) as [[? _]|(_ & Hfr & W)]; [done|].
  assert (sock_at (put_heap k1 h) (e_ptr e) = conc (sent_to (e_sock e) dest) q nx) as ->.
  { unfold sock_at, k1. cbn. by rewrite lookup_insert_eq. }
  cbn [so_local conc a_local sent_to]. change UDP_HEADER_SIZE with 8. set (udp := udp_header _ _ _ _ ++ data).
  assert (8 + len = zlen udp) as Eu by (unfold udp, zlen, len; rewrite length_app, udp_hdr_len; unfold zlen; lia).
  destruct (ipv4_output_ok ck (put_socks s (put_heap k1 h)) nif (sa_ip dest) IPPROTO_UDP udp mac) as (s' & Eo & [W1 W2 W3 W4]);
    [destruct H; by split|lia|done|done|]. rewrite <-Eu in Eo. rewrite Eo. rewrite Z.ltb_irrefl. eexists. split; [done|]. split_and!; [exact W1|exact W2|].
  cbn [n_socks put_socks]. rewrite W4. cbn [n_socks put_socks]. unfold kfree_sk. change (sk_inv (put_heap k1 (al_free h p)) O (es1 ++ Ent (e_ptr e) (e_nodes e) (sent_to (e_sock e) dest) :: es2)).
  apply not_elem_of_union in Hfr as [Hfr1 Hfr2]. rewrite elem_of_list_to_set in Hfr1. apply inv_heap; [done|by apply free_one].
Qed.
End output.

(** ** Properties *)

Lemma eth_frame_pad dst src t payload pad : eth_frame dst src t payload ++ pad = eth_frame dst src t (payload ++ pad).
Proof. unfold eth_frame. by rewrite <-!(assoc_L (++)). Qed.

Section end_to_end.
Context {D A : Type} `{!AllocOps A, !AllocLaws A}.
Context {D' A' : Type} `{!AllocOps A', !AllocLaws A'}.

(** C36: a datagram sent on a socket of one host arrives at the other. When the
    next hop is resolved and memory is available, [socket_sendto] returns the
    length, hands exactly one frame to the driver, and frees what it
    allocated; the frame, with any padding added on the wire, given to
    [eth_input] of the host it is addressed to, passes every check on the
    way up, and is delivered to that host's sockets with the sender's address and port and exactly
    the bytes sent: the first socket bound to the port has it at the end of its
    queue, unless there is none or no memory. *)
Theorem udp_end_to_end ck ck' (sa : net D A) nifa O es1 e es2 data dest mac (sb : net D' A') nifb pad O' fs :
  host_ok sa nifa -> sk_inv (n_socks sa) O (es1 ++ e :: es2) -> zlen data <= 1472 -> is_ip (sa_ip dest) ->
  is_u16 (sa_port dest) -> is_u16 (sa_port (a_local (e_sock e))) -> routes sa nifa (sa_ip dest) mac ->
  fst (al_malloc (sk_heap (n_socks sa)) (34 + 8 + zlen data)) <> 0 ->
  netif_get (n_link sb) = Some nifb -> is_ip (nif_ipv4 nifb) -> length (nif_mac nifb) = 6%nat ->
  mac = nif_mac nifb \/ mac = eth_broadcast -> sa_ip dest = nif_ipv4 nifb \/ ipv4_dst_is_broadcast nifb (sa_ip dest) = true ->
  zlen data + 42 + zlen pad <= 1514 -> sk_inv (n_socks sb) O' fs ->
  exists sa' f es' fs', socket_sendto ck sa (e_ptr e) (Some data) (Some dest) = (sa', zlen data) /\
    sends (n_link sa) (n_link sa') [f] /\ sk_inv (n_socks sa') O es' /\
    let sb' := eth_input ck' sb (f ++ pad) (zlen (f ++ pad)) in
    sk_inv (n_socks sb') O' fs' /\
    sstep (no_memory (n_socks sb)) (view fs)
      (SDeliver (nif_ipv4 nifa) (sa_port (a_local (e_sock e))) (sa_ip dest) (sa_port dest) IPPROTO_UDP data) RVoid (view fs').
Proof using AllocLaws0 AllocLaws1.
  intros Ha I Hl Hd Hdp Hsp Hr Hmem Gb Hipb Hmb Hmac Hdst Hpad Ib.
  destruct (sendto_ok ck sa nifa O es1 e es2 data dest mac Ha I Hl Hd Hr Hmem) as (sa' & E & S & _ & I'). cbn zeta in *.
  set (udp := udp_header _ _ _ 0 ++ data) in *. set (pkt := ipv4_packet _ _ _ _ udp) in *.
  assert (zlen udp = 8 + zlen data) as Lu by (unfold udp, zlen; rewrite length_app, udp_hdr_len; lia).
  assert (zlen pkt = 28 + zlen data) as Lp.
  { unfold pkt, ipv4_packet, zlen. rewrite length_app, ipv4_hdr_len by (apply Hd || apply (ho_ipv4 _ _ Ha)). unfold zlen in Lu. lia. }
  destruct (deliver_step (n_socks sb) O' fs (nif_ipv4 nifa) (sa_port (a_local (e_sock e))) (sa_ip dest) (sa_port dest) IPPROTO_UDP data Ib) as (fs' & If & Hstep); [lia|].
  eexists sa', _, _, fs'. split; [exact E|]. split; [exact S|]. split; [exact I'|]. cbn zeta. rewrite eth_frame_pad.
  assert (zlen (pkt ++ pad) = 28 + zlen data + zlen pad) as Lpp by (unfold zlen in *; rewrite length_app; lia).
  rewrite (eth_input_ipv4 ck' sb nifb mac (nif_mac nifa) (pkt ++ pad) Gb) by (try (destruct Hmac as [->| ->]; done); try apply Ha; lia || done).
  destruct (ipv4_input_ok ck' sb nifb (ipv4_next_id sa) IPPROTO_UDP (nif_ipv4 nifa) (sa_ip dest) udp pad Gb) as (Ein & E1 & E2); try done;
    [apply Ha|lia|fold pkt; lia|]. fold pkt in Ein, E1, E2. rewrite Ein. unfold ipv4_deliver. change (IPPROTO_UDP =? IPPROTO_ICMP) with false. change (IPPROTO_UDP =? IPPROTO_UDP) with true. cbv iota.
  rewrite Lu. unfold udp. rewrite <-(assoc_L (++)), udp_input_plain, E1, E2 by done. cbn [n_socks put_socks]. done.
Qed.
End end_to_end.

(** ** The checksum of [udp_output] *)
Section udp_checksum.
Context {D A : Type} `{!AllocOps A}.

Lemma pseudo_pos src dst n : is_ip src -> is_ip dst -> bytes_ok (udp_pseudo_header src dst n) /\ 0 < wsum_be (udp_pseudo_header src dst n).
Proof.
  intros [Ls Bs] [Ld Bd]. change (udp_pseudo_header src dst n) with (pseudo IPPROTO_UDP src dst n). split; [by apply pseudo_ok|]. unfold pseudo.
  rewrite (proj2 (wsum_app src _ ltac:(unfold zlen; rewrite Ls; by exists 2))), (proj2 (wsum_app dst _ ltac:(unfold zlen; rewrite Ld; by exists 2))).
  destruct (wsum_bound src Bs) as [_ ?]. destruct (wsum_bound dst Bd) as [_ ?].
  change (wsum_be ([0; IPPROTO_UDP] ++ bytes16 (to_be16 n))) with (17 + wsum_be (bytes16 (to_be16 n))).
  destruct (wsum_bound _ (bytes16_ok (to_be16 n))) as [_ ?]. lia.
Qed.

(** The segment as its checksum field and the rest. *)
Definition udp_front (sport dport seg_len : Z) : list Z := bytes16 (to_be16 sport) ++ bytes16 (to_be16 dport) ++ bytes16 (to_be16 seg_len).

Lemma udp_front_ok sport dport n : bytes_ok (udp_front sport dport n).
Proof. unfold udp_front, bytes_ok. rewrite !Forall_app. split_and!; apply bytes16_ok. Qed.

Lemma bswap16_eq v : is_u16 v -> bswap16 v = v <-> u8 v = u8 (Z.shiftr v 8).
Proof.
  intros H. destruct (bytes16_le v H) as (a & b & E & Ha & Hb & ->). unfold bytes16 in E. injection E as -> ->. rewrite bswap16_le by done.
  unfold le16, is_u8 in *. change (2 ^ 8) with 256 in *. lia.
Qed.

(** The stored field verifies exactly when its two bytes are equal. *)
Lemma udp_segment_verifies src dst sport dport payload : is_ip src -> is_ip dst -> bytes_ok payload -> zlen payload <= 1472 ->
  let n := 8 + zlen payload in
  exists c, is_u16 c /\ c <> 0 /\ udp_segment src dst sport dport payload = with_word (udp_front sport dport n) c payload /\
    (udp_checksum src dst (udp_segment src dst sport dport payload) n = 0 <-> bswap16 c = c).
Proof.
  intros Hs Hd Hp Hl n. assert (0 <= zlen payload) by (unfold zlen; lia). unfold udp_segment, UDP_HEADER_SIZE. rewrite (u16_small (8 + zlen payload)) by lia. fold n.
  assert (forall c, udp_header (to_be16 sport) (to_be16 dport) (to_be16 n) c ++ payload = with_word (udp_front sport dport n) c payload) as Ew by done.
  rewrite !Ew. destruct (pseudo_pos src dst n Hs Hd) as [Hph Hpos]. destruct Hs as [Ls Bs]. destruct Hd as [Ld Bd].
  pose proof (pseudo_len IPPROTO_UDP src dst n Ls Ld) as Lph.
  assert (zlen (udp_front sport dport n) + 2 + zlen payload = n) as En by (unfold n; change (zlen (udp_front sport dport _)) with 6; lia).
  pose proof (be_stored_raw (udp_pseudo_header src dst n) (udp_front sport dport n) payload ltac:(by exists 3) Hph Lph (udp_front_ok _ _ _) Hp ltac:(lia) Hpos) as Hraw.
  pose proof (be_sums (udp_pseudo_header src dst n) (udp_front sport dport n) payload ltac:(by exists 3) Hph Lph (udp_front_ok _ _ _) Hp ltac:(lia) Hpos) as (_ & Hc & _).
  pose proof (be_verifies (udp_pseudo_header src dst n) (udp_front sport dport n) payload ltac:(by exists 3) Hph Lph (udp_front_ok _ _ _) Hp ltac:(lia) Hpos) as Hver.
  rewrite En in Hraw, Hc, Hver. assert (forall x, udp_checksum src dst x n = be_checksum (udp_pseudo_header src dst n) x n) as Eb by done.
  rewrite !Eb in *. set (c0 := be_checksum _ (with_word _ 0 _) n) in *. destruct (Z.eqb_spec c0 0) as [E0|Hn].
  - exists 0xFFFF. assert (is_u16 0xFFFF) as H16 by (split; done). do 3 (split; [done|]). by rewrite (Hver _ H16), E0.
  - exists c0. by do 3 (split; [done|]).
Qed.

Lemma udp_own_checksum (s : net D A) ip sport dport payload pad :
  is_ip (ip_src ip) -> is_ip (ip_dst ip) -> bytes_ok payload -> zlen payload <= 1472 -> is_u16 sport -> is_u16 dport ->
  let seg := udp_segment (ip_src ip) (ip_dst ip) sport dport payload in
  udp_input s ip (seg ++ pad) (zlen seg) =
    if rd seg 6 =? rd seg 7
    then put_socks s (socket_handle_incoming (n_socks s) (ip_src ip) (to_be16 sport) (ip_dst ip) (to_be16 dport) IPPROTO_UDP payload)
    else s.
Proof.
  intros Hs Hd Hp Hl Hsp Hdp seg. assert (0 <= zlen payload) as Hz by (unfold zlen; lia).
  destruct (udp_segment_verifies (ip_src ip) (ip_dst ip) sport dport payload Hs Hd Hp Hl) as (c & Hc & Hc0 & Eseg & Hver). fold seg in Eseg, Hver.
  set (n := 8 + zlen payload) in *.
  assert (seg ++ pad = udp_header (to_be16 sport) (to_be16 dport) (to_be16 n) c ++ payload ++ pad) as Epad.
  { rewrite Eseg. unfold with_word, udp_front, udp_header. by rewrite <-!(assoc_L (++)). }
  destruct (udp_fields (to_be16 sport) (to_be16 dport) (to_be16 n) c (payload ++ pad) (bswap16_range _) (bswap16_range _) (bswap16_range _) Hc) as (E0 & E2 & E4 & E6).
  rewrite <-Epad in E0, E2, E4, E6. assert (zlen seg = n) as Ln by (rewrite Eseg, with_word_len; change (zlen (udp_front sport dport n)) with 6; unfold n; lia).
  assert (rd seg 6 = u8 c /\ rd seg 7 = u8 (Z.shiftr c 8)) as [-> ->] by (rewrite Eseg; done).
  unfold udp_input. rewrite E0, E2, E4, E6, Ln. unfold UDP_HEADER_SIZE, from_be16, to_be16 in *. rewrite bswap16_invol by (unfold is_u16; lia).
  rewrite (proj2 (Z.ltb_ge n 8)), Z.gtb_ltb, Z.ltb_irrefl, (proj2 (Z.eqb_neq c 0)) by (done || lia). cbn [orb negb andb].
  assert (udp_checksum (ip_src ip) (ip_dst ip) (seg ++ pad) n = udp_checksum (ip_src ip) (ip_dst ip) seg n) as ->.
  { unfold udp_checksum, udp_sum. rewrite take_app_le; [done|]. unfold zlen in Ln. lia. }
  assert ((udp_checksum (ip_src ip) (ip_dst ip) seg n =? 0) = (u8 c =? u8 (Z.shiftr c 8))) as ->.
  { apply eq_true_iff_eq. rewrite !Z.eqb_eq, Hver. by apply bswap16_eq. }
  destruct (u8 c =? u8 (Z.shiftr c 8)); cbn [negb]; [|done]. do 2 f_equal. unfold u16. rewrite Z.mod_small by lia.
  replace (n - 8) with (zlen payload) by (unfold n; lia). rewrite Epad. unfold bytes_at, zlen.
  change (Z.to_nat 8) with (length (udp_header (bswap16 sport) (bswap16 dport) (bswap16 n) c)).
  by rewrite drop_app_length, Nat2Z.id, take_app_length.
Qed.

(** Datagrams of [udp_output] are lost. The checksum it stores is computed in
    host order and not converted, so a receiver that verifies it, like [udp_input]
    itself, delivers the datagram only when the two bytes of the stored
    checksum happen to be equal, and drops it otherwise. *)
Theorem udp_output_checksum_swapped (s : net D A) ip sport dport payload pad :
  is_ip (ip_src ip) -> is_ip (ip_dst ip) -> bytes_ok payload -> zlen payload <= 1472 -> is_u16 sport -> is_u16 dport ->
  let seg := udp_segment (ip_src ip) (ip_dst ip) sport dport payload in
  udp_input s ip (seg ++ pad) (zlen seg) =
    if rd seg 6 =? rd seg 7
    then put_socks s (socket_handle_incoming (n_socks s) (ip_src ip) (to_be16 sport) (ip_dst ip) (to_be16 dport) IPPROTO_UDP payload)
    else s.
Proof. apply udp_own_checksum. Qed.
End udp_checksum.

(** ** Echo requests *)

(** An ICMP message with its checksum. *)
Definition icmp_msg (type : Z) (rest : list Z) : list Z :=
  with_word [type; 0] (inet_checksum (with_word [type; 0] 0 rest) (4 + zlen rest)) rest.

Lemma icmp_msg_len t rest : zlen (icmp_msg t rest) = 4 + zlen rest.
Proof. unfold icmp_msg. rewrite with_word_len. done. Qed.

Lemma icmp_msg_verifies t rest pad : is_u8 t -> bytes_ok rest -> zlen rest <= 1476 ->
  inet_checksum (icmp_msg t rest ++ pad) (zlen (icmp_msg t rest)) = 0.
Proof.
  intros Ht Hr Hl. assert (inet_checksum (icmp_msg t rest ++ pad) (zlen (icmp_msg t rest)) = inet_checksum (icmp_msg t rest) (zlen (icmp_msg t rest))) as ->.
  { unfold inet_checksum, zlen. by rewrite Nat2Z.id, take_app_length, firstn_all. }
  rewrite icmp_msg_len. unfold icmp_msg. apply (checksum_verifies [t; 0] rest); [by exists 1| |done|change (zlen [t; 0]) with 2; lia].
  constructor; [done|]. constructor; [unfold is_u8; lia|constructor].
Qed.

(** The bytes after the checksum of a ping: identifier, sequence number and pattern. *)
Definition ping_rest (ident seq : Z) : list Z :=
  bytes16 (to_be16 ident) ++ bytes16 (to_be16 seq) ++ ((fun i => u8 (97 + i mod 23)) <$> seqZ 0 ICMP_PING_PAYLOAD).

Lemma ping_request_msg ident seq : icmp_ping_request ident seq = icmp_msg 8 (ping_rest ident seq).
Proof. reflexivity. Qed.

Lemma ping_rest_ok ident seq : bytes_ok (ping_rest ident seq) /\ zlen (ping_rest ident seq) = 36.
Proof.
  split; [|done]. unfold ping_rest, bytes_ok. rewrite !Forall_app. split_and!; try apply bytes16_ok. apply Forall_fmap, Forall_true. intros i. apply u8_range.
Qed.

(** The reply [icmp_echo_request_input] builds in its frame. *)
Lemma echo_reply_built (stack : list Z) rest pad : length stack = 1514%nat -> zlen rest <= 1476 ->
  let n := 4 + zlen rest in
  let f := copy_to stack 34 (take (Z.to_nat n) (icmp_msg 8 rest ++ pad)) in
  let f := wr f 34 0 in
  let f := copy_to f 36 (bytes16 0) in
  let f := copy_to f 36 (bytes16 (inet_checksum (bytes_at f 34 n) n)) in
  zlen f = 1514 /\ bytes_at f 34 n = icmp_msg 0 rest.
Proof.
  intros Ls Hl n. assert (zlen (icmp_msg 8 rest) = n) as Ln by apply icmp_msg_len.
  assert (take (Z.to_nat n) (icmp_msg 8 rest ++ pad) = icmp_msg 8 rest) as -> by (rewrite <-Ln; unfold zlen; by rewrite Nat2Z.id, take_app_length).
  unfold zlen in Hl. destruct (split_at stack 34) as (a & r1 & -> & La); [lia|]. rewrite length_app in Ls.
  destruct (split_at r1 (length (icmp_msg 8 rest))) as (b & r & -> & Lb); [unfold n, zlen in *; lia|]. rewrite length_app in Ls.
  rewrite copy_to_mid by lia. unfold icmp_msg at 1. set (c := inet_checksum (with_word [8; 0] 0 rest) _).
  assert (wr (a ++ with_word [8; 0] c rest ++ r) 34 0 = (a ++ [0; 0]) ++ bytes16 c ++ (rest ++ r)) as ->.
  { unfold wr. replace (Z.to_nat 34) with (length a) by lia. rewrite insert_app_r_alt, Nat.sub_diag by done. unfold with_word. cbn. by rewrite <-!(assoc_L (++)). }
  rewrite !(copy_to_mid (a ++ [0; 0])) by (rewrite ?length_app, ?La; done).
  assert (forall v, (a ++ [0; 0]) ++ bytes16 v ++ rest ++ r = a ++ with_word [0; 0] v rest ++ r) as Ew by (intros; unfold with_word; by rewrite <-!(assoc_L (++))).
  assert (forall v, bytes_at (a ++ with_word [0; 0] v rest ++ r) 34 n = with_word [0; 0] v rest) as Eb.
  { intros v. pose proof (with_word_len [0; 0] v rest) as Lw. change (zlen [0; 0]) with 2 in Lw. unfold bytes_at. replace (Z.to_nat 34) with (length a) by lia.
    rewrite drop_app_length. apply take_app_length'. unfold n, zlen in *. lia. }
  rewrite !Ew, !Eb. split; [|done]. unfold zlen. rewrite !length_app. pose proof (with_word_len [0; 0] (inet_checksum (with_word [0; 0] 0 rest) n) rest) as Lw.
  change (zlen [0; 0]) with 2 in Lw. unfold n, zlen in *. lia.
Qed.

Section ping.
Context {D A : Type} `{!AllocOps A}.

(** A request is answered with the same identifier, sequence number and data. *)
Lemma echo_request_ok ck (s : net D A) nif ip rest pad mac : host_ok s nif -> is_ip (ip_src ip) -> bytes_ok rest -> 4 <= zlen rest <= 1476 ->
  routes s nif (ip_src ip) mac ->
  exists s', icmp_input ck s ip (icmp_msg 8 rest ++ pad) (4 + zlen rest) = s' /\ sent_ip s s' nif mac IPPROTO_ICMP (ip_src ip) (icmp_msg 0 rest).
Proof.
  intros H [Li _] Hr Hl Hroute. unfold icmp_input. change ICMP_HDR_LEN with 8. change IPV4_PAYLOAD_MAX with 1480.
  rewrite (proj2 (Z.ltb_ge _ 8)), Z.gtb_ltb, (proj2 (Z.ltb_ge 1480 _)) by lia. cbn [orb].
  change (rd (icmp_msg 8 rest ++ pad) 1) with 0. change (rd (icmp_msg 8 rest ++ pad) 0) with 8. cbn [Z.eqb negb].
  rewrite <-icmp_msg_len with (t := 8). rewrite icmp_msg_verifies by (done || lia). rewrite icmp_msg_len. cbn [Z.eqb negb].
  change (8 =? ICMP_ECHO_REQUEST) with true. cbv iota. unfold icmp_echo_request_input. change IPV4_HEADROOM with 34. change (34 + 2) with 36. unfold ICMP_ECHO_REPLY.
  destruct (echo_reply_built (lk_stack (n_link s)) rest pad (lo_stack _ _ (ho_link _ _ H)) ltac:(lia)) as [Hf Hb]. cbn zeta in Hf, Hb.
  destruct (ipv4_send_ok ck s nif _ (ip_src ip) IPPROTO_ICMP (4 + zlen rest) mac H Hf ltac:(lia) Li Hroute) as (s' & -> & Hs).
  exists s'. split; [done|]. by rewrite Hb in Hs.
Qed.

(** A reply marks the session that waits for it. *)
Definition waiting (ident seq : Z) (src : list Z) (p : icmp_session) : bool :=
  is_in_use p && negb (is_replied p) && (is_ident p =? ident) && (is_seq p =? seq) && ipv4_addr_equal (is_dst p) src.
Definition answered (ck : clock) (p : icmp_session) : icmp_session :=
  IcmpSession (is_in_use p) true (is_ident p) (is_seq p) (is_dst p) (is_sent_ticks p) (pit_ticks ck).

Lemma reply_loop_ok ck ident seq src l1 p l2 : Forall (fun q => waiting ident seq src q = false) l1 -> waiting ident seq src p = true ->
  echo_reply_loop ck ident seq src (l1 ++ p :: l2) = l1 ++ answered ck p :: l2.
Proof.
  intros F Hp. induction F as [|q l1 Hq F IH]; cbn [app echo_reply_loop].
  - unfold waiting in Hp. destruct (is_in_use p) eqn:Eu, (is_replied p) eqn:Er, (is_ident p =? ident), (is_seq p =? seq), (ipv4_addr_equal (is_dst p) src); try done.
    cbn. unfold answered. by rewrite Eu.
  - unfold waiting in Hq. rewrite IH. destruct (is_in_use q), (is_replied q), (is_ident q =? ident), (is_seq q =? seq), (ipv4_addr_equal (is_dst q) src); done.
Qed.

Lemma ping_start_ok ck (s : net D A) nif dst ident seq mac l1 q l2 : host_ok s nif -> is_ip dst -> routes s nif dst mac ->
  n_pings s = l1 ++ q :: l2 -> Forall (fun p => is_in_use p = true) l1 -> is_in_use q = false ->
  exists s', icmp_ping_start ck s dst ident seq = (s', inr (length l1)) /\
    n_pings s' = l1 ++ IcmpSession true false ident seq dst (pit_ticks ck) 0 :: l2 /\ n_arp s' = n_arp s /\
    sends (n_link s) (n_link s') [eth_frame mac (nif_mac nif) ETH_TYPE_IPV4 (ipv4_packet (ipv4_next_id s) IPPROTO_ICMP (nif_ipv4 nif) dst (icmp_msg 8 (ping_rest ident seq)))].
Proof.
  intros H [Ld _] Hr Ep F Hq. unfold icmp_ping_start. rewrite (lo_get _ _ (ho_link _ _ H)).
  assert (list_find (fun p => Is_true (negb (is_in_use p))) (n_pings s) = Some (length l1, q)) as ->.
  { apply list_find_Some. rewrite Ep. rewrite lookup_app_r, Nat.sub_diag by done. split_and!; [done|by rewrite Hq|].
    intros j y Hj Hlt. rewrite lookup_app_l in Hj by done. rewrite (Forall_lookup_1 _ _ _ _ F Hj). by intros []. }
  set (s1 := put_pings s _). change (ICMP_HDR_LEN + ICMP_PING_PAYLOAD) with 40. change IPV4_HEADROOM with 34. rewrite ping_request_msg.
  destruct (ping_rest_ok ident seq) as [_ L36]. pose proof (icmp_msg_len 8 (ping_rest ident seq)) as Lm. rewrite L36 in Lm. change (4 + 36) with 40 in Lm.
  destruct (placed (lk_stack (n_link s1)) (icmp_msg 8 (ping_rest ident seq)) (lo_stack _ _ (ho_link _ _ H)) ltac:(lia)) as [Hf Hb]. rewrite Lm in Hb.
  assert (host_ok s1 nif) as H1 by (destruct H; by split).
  destruct (ipv4_send_ok ck s1 nif _ dst IPPROTO_ICMP 40 mac H1 Hf ltac:(lia) Ld Hr) as (s' & -> & [W1 W2 W3 W4]). cbn [Z.ltb Z.compare].
  exists s'. rewrite Hb in W1. split_and!; [done| |done|done]. rewrite W3. unfold s1. cbn [n_pings put_pings]. rewrite Ep, insert_app_r_alt, Nat.sub_diag by done. done.
Qed.

Lemma echo_reply_ok ck (s : net D A) ip ident seq pad : is_u16 ident -> is_u16 seq ->
  icmp_input ck s ip (icmp_msg 0 (ping_rest ident seq) ++ pad) 40 = put_pings s (echo_reply_loop ck ident seq (ip_src ip) (n_pings s)).
Proof.
  intros Hi Hs. destruct (ping_rest_ok ident seq) as [Hr L36]. unfold icmp_input. change ((40 <? ICMP_HDR_LEN) || (40 >? IPV4_PAYLOAD_MAX)) with false.
  change (rd (icmp_msg 0 (ping_rest ident seq) ++ pad) 1) with 0. change (rd (icmp_msg 0 (ping_rest ident seq) ++ pad) 0) with 0. cbn [Z.eqb negb].
  pose proof (icmp_msg_verifies 0 (ping_rest ident seq) pad ltac:(by split) Hr ltac:(lia)) as Hv. rewrite icmp_msg_len, L36 in Hv. change (4 + 36) with 40 in Hv. rewrite Hv.
  cbn [Z.eqb negb]. change (0 =? ICMP_ECHO_REQUEST) with false. change (0 =? ICMP_ECHO_REPLY) with true. cbv iota. unfold icmp_echo_reply_input.
  set (m := icmp_msg 0 _ ++ pad). set (c := inet_checksum (with_word [0; 0] 0 (ping_rest ident seq)) (4 + zlen (ping_rest ident seq))).
  assert (ld16 m 4 = to_be16 ident) as ->.
  { apply (ld16_word ([0; 0] ++ bytes16 c) (to_be16 ident)), bswap16_range. }
  assert (ld16 m 6 = to_be16 seq) as ->.
  { apply (ld16_word ([0; 0] ++ bytes16 c ++ bytes16 (to_be16 ident)) (to_be16 seq)), bswap16_range. }
  unfold from_be16, to_be16. by rewrite !bswap16_invol.
Qed.

(** An IPv4 packet in an Ethernet frame, received. *)
Lemma receive_ok ck (s : net D A) nif src id p payload nsrc : host_ok s nif -> is_u8 p -> is_ip src -> zlen payload <= 1480 -> length nsrc = 6%nat ->
  let pkt := ipv4_packet id p src (nif_ipv4 nif) payload in
  let f := eth_frame (nif_mac nif) nsrc ETH_TYPE_IPV4 pkt in
  eth_input ck s f (zlen f) = ipv4_deliver ck s pkt p payload (zlen payload) /\ ip_src pkt = src.
Proof.
  intros H Hp Hs Hl Hn pkt f. pose proof (lo_get _ _ (ho_link _ _ H)) as G. pose proof (ho_ipv4 _ _ H) as Hip.
  assert (zlen pkt = 20 + zlen payload) as Lp.
  { unfold pkt, ipv4_packet, zlen. rewrite length_app, ipv4_hdr_len by (apply Hs || apply Hip). unfold zlen. lia. }
  unfold f. rewrite (eth_input_ipv4 ck s nif (nif_mac nif) nsrc pkt G) by (try apply (ho_link _ _ H); try (by left); done || lia).
  assert (zlen (pkt ++ []) < 2 ^ 16) as Hlt by (rewrite app_nil_r; lia).
  destruct (ipv4_input_ok ck s nif id p src (nif_ipv4 nif) payload [] G Hp Hs Hip Hip Hl (or_introl eq_refl) Hlt) as (E & E1 & _). fold pkt in E, E1.
  rewrite !app_nil_r in E. rewrite app_nil_r in E1. split; [exact E|exact E1].
Qed.
End ping.

Lemma host_ok_sends {D A : Type} (s s' : net D A) nif fs : host_ok s nif -> sends (n_link s) (n_link s') fs -> n_arp s' = n_arp s -> host_ok s' nif.
Proof. intros [L Ha I Hi Hm] S E. split; try done; [by eapply sends_ok|by rewrite E]. Qed.

Section answered.
Context {D A D' A' : Type} `{!AllocOps A, !AllocOps A'}.

(** C37: a ping is answered. If two hosts have resolved each other, the
    request of [icmp_ping] given to the other host makes it send exactly one frame, the reply,
    and the reply given back ends the wait of the session that asked: the next
    round of the loop returns 0 and reports the time between sending
    and receiving. *)
Theorem ping_answered ck1 ck2 ck3 ck4 (sa : net D A) nifa (sb : net D' A') nifb ident seq l1 q l2 start timeout :
  host_ok sa nifa -> host_ok sb nifb -> is_u16 ident -> is_u16 seq ->
  routes sa nifa (nif_ipv4 nifb) (nif_mac nifb) -> routes sb nifb (nif_ipv4 nifa) (nif_mac nifa) ->
  n_pings sa = l1 ++ q :: l2 -> Forall (fun p => is_in_use p = true) l1 -> is_in_use q = false ->
  Forall (fun p => waiting ident seq (nif_ipv4 nifb) p = false) l1 ->
  exists sa1 f g, icmp_ping_start ck1 sa (nif_ipv4 nifb) ident seq = (sa1, inr (length l1)) /\ sends (n_link sa) (n_link sa1) [f] /\
    let sb1 := eth_input ck2 sb f (zlen f) in
    sends (n_link sb) (n_link sb1) [g] /\
    let sa2 := eth_input ck3 sa1 g (zlen g) in
    snd (fst (icmp_ping_round ck4 sa2 (length l1) start timeout)) = Returned 0 /\
    snd (icmp_ping_round ck4 sa2 (length l1) start timeout) = Some (icmp_ticks_to_ms ck4 (pit_ticks ck3 ⊖ pit_ticks ck1)).
Proof.
  intros Ha Hb Hi Hq Ra Rb Ep F Hf Hw. pose proof (ho_ipv4 _ _ Ha) as Ipa. pose proof (ho_ipv4 _ _ Hb) as Ipb.
  destruct (ping_start_ok ck1 sa nifa (nif_ipv4 nifb) ident seq (nif_mac nifb) l1 q l2 Ha Ipb Ra Ep F Hf) as (sa1 & E1 & P1 & A1 & S1).
  destruct (ping_rest_ok ident seq) as [Hr L36]. pose proof (fun t => icmp_msg_len t (ping_rest ident seq)) as Lm. rewrite L36 in Lm.
  destruct (receive_ok ck2 sb nifb (nif_ipv4 nifa) (ipv4_next_id sa) IPPROTO_ICMP (icmp_msg 8 (ping_rest ident seq)) (nif_mac nifa) Hb) as [Eb Esrc];
    [done|done|rewrite Lm; lia|apply (ho_link _ _ Ha)|]. rewrite Lm in Eb.
  pose proof (echo_request_ok ck2 sb nifb (ipv4_packet (ipv4_next_id sa) IPPROTO_ICMP (nif_ipv4 nifa) (nif_ipv4 nifb) (icmp_msg 8 (ping_rest ident seq)))
    (ping_rest ident seq) [] (nif_mac nifa) Hb) as Hecho. rewrite Esrc, app_nil_r, L36 in Hecho.
  destruct Hecho as (sb1 & Ei & [S2 A2 _ _]); [done|done|lia|done|].
  destruct (receive_ok ck3 sa1 nifa (nif_ipv4 nifb) (ipv4_next_id sb) IPPROTO_ICMP (icmp_msg 0 (ping_rest ident seq)) (nif_mac nifb) (host_ok_sends _ _ _ _ Ha S1 A1))
    as [Ea Esrc']; [done|done|rewrite Lm; lia|apply (ho_link _ _ Hb)|]. rewrite Lm in Ea.
  eexists sa1, _, _. split; [exact E1|]. split; [exact S1|]. cbn zeta. rewrite Eb. unfold ipv4_deliver. change (IPPROTO_ICMP =? IPPROTO_ICMP) with true. cbv iota. rewrite Ei.
  split; [exact S2|]. rewrite Ea. unfold ipv4_deliver. change (IPPROTO_ICMP =? IPPROTO_ICMP) with true. cbv iota. change (4 + 36) with 40.
  pose proof (echo_reply_ok ck3 sa1 (ipv4_packet (ipv4_next_id sb) IPPROTO_ICMP (nif_ipv4 nifb) (nif_ipv4 nifa) (icmp_msg 0 (ping_rest ident seq))) ident seq [] Hi Hq) as Hrep.
  rewrite app_nil_r, Esrc' in Hrep. rewrite Hrep, P1, reply_loop_ok; [|done|].
  - unfold icmp_ping_round. cbn [n_pings put_pings]. rewrite lookup_app_r, Nat.sub_diag by done. done.
  - unfold waiting. cbn. rewrite !Z.eqb_refl. by rewrite (proj2 (ipv4_addr_equal_ok _ _ (proj1 Ipb) (proj1 Ipb))).
Qed.
End answered.

(** ** TCP options *)

(** Every pass that goes on advances the index. *)
Lemma tcp_options_total opts n : 0 <= n <= 255 -> bytes_ok opts -> forall fuel i out, 0 <= i <= n -> n - i < Z.of_nat fuel ->
  is_Some (tcp_options_loop fuel opts n i out).
Proof.
  intros Hn Ho. induction fuel as [|fuel IH]; intros i out Hi Hf; [lia|]. cbn [tcp_options_loop].
  destruct (Z.ltb_spec i n); cbn [negb]; [|done]. destruct (rd opts i =? 0); [done|]. unfold u8. change (2 ^ 8) with 256.
  destruct (rd opts i =? 1); [rewrite Z.mod_small by lia; apply IH; lia|]. destruct (i + 1 >=? n); [done|].
  destruct (Z.ltb_spec (rd opts (i + 1)) 2); [done|]. rewrite (Z.mod_small (n - i)) by lia. rewrite Z.gtb_ltb.
  destruct (Z.ltb_spec (n - i) (rd opts (i + 1))); [done|]. cbn [orb]. rewrite Z.mod_small by lia. apply IH; lia.
Qed.

(** Nothing behind the first [n] bytes is read. *)
Lemma tcp_option_local opts k i kind len out : 0 <= i -> 2 <= len -> i + len <= zlen opts ->
  tcp_option (opts ++ k) i kind len out = tcp_option opts i kind len out.
Proof.
  intros Hi Hl Hz. unfold tcp_option, ld32, ld16. destruct (kind =? 2), (kind =? 4), (kind =? 8); try done;
    repeat match goal with |- context [len =? ?v] => destruct (Z.eqb_spec len v); [|done] end; rewrite ?rd_app_l by lia; done.
Qed.

Lemma tcp_options_local opts k fuel : zlen opts <= 255 -> forall i out, 0 <= i ->
  tcp_options_loop fuel (opts ++ k) (zlen opts) i out = tcp_options_loop fuel opts (zlen opts) i out.
Proof.
  intros Hn. induction fuel as [|fuel IH]; intros i out Hi; [done|]. cbn [tcp_options_loop].
  destruct (Z.ltb_spec i (zlen opts)); cbn [negb]; [|done]. rewrite rd_app_l by lia. destruct (rd opts i =? 0); [done|].
  assert (0 <= u8 (i + 1)) by apply u8_range. destruct (rd opts i =? 1); [by apply IH|]. rewrite Z.geb_leb. destruct (Z.leb_spec (zlen opts) (i + 1)); [done|].
  rewrite rd_app_l by lia. destruct (Z.ltb_spec (rd opts (i + 1)) 2); [done|]. cbn [orb]. rewrite Z.gtb_ltb.
  unfold u8 at 1 3. change (2 ^ 8) with 256. rewrite (Z.mod_small (zlen opts - i)) by lia.
  destruct (Z.ltb_spec (zlen opts - i) (rd opts (i + 1))); [done|]. rewrite tcp_option_local by lia. apply IH, u8_range.
Qed.

(** The option walk of a received TCP header always ends, whatever the
    peer sent, and looks only at the option bytes: neither malformed lengths nor
    what follows the options can change the result. *)
Theorem tcp_parse_options_safe opts k : bytes_ok opts -> zlen opts <= 255 ->
  exists out, tcp_parse_options (opts ++ k) (zlen opts) = Some out /\ tcp_parse_options opts (zlen opts) = Some out.
Proof.
  intros Ho Hn. assert (0 <= zlen opts) by (unfold zlen; lia). unfold tcp_parse_options.
  destruct (tcp_options_total opts (zlen opts) ltac:(lia) Ho (S (Z.to_nat (zlen opts))) 0 (TcpOptions 0 false false false 0 0)) as [out E]; [lia|lia|].
  exists out. rewrite tcp_options_local by (done || lia). done.
Qed.

(** ** Two hosts on one wire

    10.0.2.15 and 10.0.2.2, each of which has heard an ARP packet of the other. *)
Definition ex_nifb : netif unit :=
  Netif ex_gw_mac [10; 0; 2; 2] [255; 255; 255; 0] [0; 0; 0; 0] 1500 1 (Some (fun _ _ d => (0, d))).
Definition ex_linkb : link unit := Link true ex_nifb tt (replicate 1514 0x55) [].

Definition heard (l : link unit) (sender receiver : netif unit) : arp :=
  snd (arp_run [(ex_ck, EvInput (replicate 14 0) (arp_packet 2 (nif_mac sender) (nif_ipv4 sender) (nif_mac receiver) (nif_ipv4 receiver) []) 28)] (l, arp_init)).

Definition ex_sessions : list icmp_session := replicate 4 (IcmpSession false false 0 0 [0; 0; 0; 0] 0 0).
Definition ex_neta : net unit (kheap (vst pmm)) := Net ex_link (heard ex_link ex_nifb ex_nif) 7 ex_sessions ex_sk2.
Definition ex_netb : net unit (kheap (vst pmm)) := Net ex_linkb (heard ex_linkb ex_nif ex_nifb) 0 ex_sessions ex_sk2.

Lemma ex_linkb_ok : link_ok ex_linkb ex_nifb.
Proof. split; [done|by eexists|done|done|cbn; lia|apply length_replicate]. Qed.

Lemma heard_inv l nif sender receiver : link_ok l nif -> length (nif_mac sender) = 6%nat -> length (nif_ipv4 sender) = 4%nat ->
  length (nif_mac receiver) = 6%nat -> length (nif_ipv4 receiver) = 4%nat -> arp_inv (heard l sender receiver).
Proof.
  intros L H1 H2 H3 H4. unfold heard. set (tr := [_]). assert (Forall event_ok (snd <$> tr)) as F.
  { constructor; [|constructor]. split; [done|]. unfold arp_packet, zlen. rewrite !length_app, H1, H2, H3, H4. cbn. lia. }
  pose proof (run_inv nif tr l arp_init arp_init_inv L F) as H. destruct (arp_run tr (l, arp_init)) as [l' a']. apply H.
Qed.

Lemma ex_ip (a b c d : Z) : is_u8 a -> is_u8 b -> is_u8 c -> is_u8 d -> is_ip [a; b; c; d].
Proof. intros. split; [done|]. by repeat (constructor; [done|]). Qed.

Lemma ex_hosta : host_ok ex_neta ex_nif.
Proof.
  split; [apply ex_link_ok|by eexists|apply (heard_inv _ ex_nif ex_nifb ex_nif ex_link_ok); done|apply ex_ip; split; done|cbn; lia].
Qed.
Lemma ex_hostb : host_ok ex_netb ex_nifb.
Proof.
  split; [apply ex_linkb_ok|by eexists|apply (heard_inv _ ex_nifb ex_nif ex_nifb ex_linkb_ok); done|apply ex_ip; split; done|cbn; lia].
Qed.

Lemma ex_routea : routes ex_neta ex_nif [10; 0; 2; 2] ex_gw_mac.
Proof. exists [10; 0; 2; 2]. split_and!; vm_compute; reflexivity. Qed.
Lemma ex_routeb : routes ex_netb ex_nifb [10; 0; 2; 15] (nif_mac ex_nif).
Proof. exists [10; 0; 2; 15]. split_and!; vm_compute; reflexivity. Qed.

Definition ex_dest : sockaddr_in := SockAddr AF_INET (to_be16 5000) [10; 0; 2; 2] (replicate 8 0).

Lemma udp_end_to_end_witness : exists sa' f,
  socket_sendto ex_ck ex_neta ex_ptr (Some [104; 105]) (Some ex_dest) = (sa', 2) /\ sends ex_link (n_link sa') [f] /\
  exists fs', sstep (no_memory ex_sk2) (view [ex_ent]) (SDeliver [10; 0; 2; 15] (to_be16 5000) [10; 0; 2; 2] (to_be16 5000) IPPROTO_UDP [104; 105]) RVoid (view fs').
Proof.
  destruct (udp_end_to_end ex_ck ex_ck ex_neta ex_nif ∅ [] ex_ent [] [104; 105] ex_dest ex_gw_mac ex_netb ex_nifb [] ∅ [ex_ent])
    as (sa' & f & es' & fs' & E & S & _ & _ & Hs);
    [apply ex_hosta|apply ex_sk2_inv|vm_compute; discriminate|apply ex_ip; split; done|split; vm_compute; done|split; vm_compute; done|apply ex_routea
    |vm_compute; discriminate|reflexivity|apply ex_ip; split; done|reflexivity|left; reflexivity|left; reflexivity|vm_compute; discriminate|apply ex_sk2_inv|].
  exists sa', f. split; [exact E|]. split; [exact S|]. exists fs'. exact Hs.
Defined.

Definition ex_ip_hdr : list Z := ipv4_packet 0 IPPROTO_UDP [10; 0; 2; 15] [10; 0; 2; 2] [].

Lemma udp_output_checksum_swapped_witness :
  let seg := udp_segment [10; 0; 2; 15] [10; 0; 2; 2] 4242 5000 [104; 105] in udp_input ex_netb ex_ip_hdr (seg ++ []) (zlen seg) = ex_netb.
Proof.
  pose proof (udp_output_checksum_swapped ex_netb ex_ip_hdr 4242 5000 [104; 105] []) as H. cbn zeta in *.
  assert (E : (rd (udp_segment [10; 0; 2; 15] [10; 0; 2; 2] 4242 5000 [104; 105]) 6 =? rd (udp_segment [10; 0; 2; 15] [10; 0; 2; 2] 4242 5000 [104; 105]) 7) = false)
    by (vm_compute; reflexivity).
  change (ip_src ex_ip_hdr) with [10; 0; 2; 15] in H. change (ip_dst ex_ip_hdr) with [10; 0; 2; 2] in H. rewrite E in H. apply H.
  - apply ex_ip; split; done.
  - apply ex_ip; split; done.
  - constructor; [split; done|constructor; [split; done|constructor]].
  - vm_compute. discriminate.
  - split; done.
  - split; done.
Defined.

Lemma ping_answered_witness : exists sa1 f g, icmp_ping_start ex_ck ex_neta [10; 0; 2; 2] 99 1 = (sa1, inr 0%nat) /\
  sends ex_linkb (n_link (eth_input ex_ck ex_netb f (zlen f))) [g] /\
  snd (fst (icmp_ping_round ex_ck (eth_input ex_ck sa1 g (zlen g)) 0 5000 1000)) = Returned 0.
Proof.
  destruct (ping_answered ex_ck ex_ck ex_ck ex_ck ex_neta ex_nif ex_netb ex_nifb 99 1 [] (IcmpSession false false 0 0 [0; 0; 0; 0] 0 0)
    (replicate 3 (IcmpSession false false 0 0 [0; 0; 0; 0] 0 0)) 5000 1000) as (sa1 & f & g & E & _ & S & R & _);
    [apply ex_hosta|apply ex_hostb|split; done|split; done|apply ex_routea|apply ex_routeb|reflexivity|constructor|reflexivity|constructor|].
  exists sa1, f, g. split; [exact E|]. split; [exact S|exact R].
Defined.

(** An MSS option of 1460, padding, and a timestamp option cut short. *)
Definition ex_opts : list Z := [2; 4; 5; 180; 1; 1; 8; 10; 0; 0].

Lemma tcp_parse_options_safe_witness : exists out, tcp_parse_options (ex_opts ++ [9; 9]) 10 = Some out /\ to_mss out = 1460 /\ to_timestamp_present out = false.
Proof.
  destruct (tcp_parse_options_safe ex_opts [9; 9]) as (out & E & E').
  - repeat (constructor; [split; done|]). constructor.
  - vm_compute. discriminate.
  - exists out. split; [exact E|]. assert (Hr : tcp_parse_options ex_opts (zlen ex_opts) = Some (TcpOptions 1460 true false false 0 0)) by (vm_compute; reflexivity).
    rewrite Hr in E'. injection E' as <-. split; reflexivity.
Defined.
