(* ===== verification/Fat.v ===== *)
(** FAT volumes and files, [kernel/fs/fat/fat_mount.c], [fat_file.c] and the
    entry metadata of [fat_directory.c].

    The FAT engine works on an image of the volume in memory.  A pointer into
    the image is its offset from the start of the image; the memory around the
    image has the other offsets.  What lies outside of the kernel, the block
    device behind the sector writer and the clock, is a state of any type [W].
    The geometry [fat_volume] is set by [fat_init] and constant afterwards. *)
From S2P Require Import Prelude KString.

Inductive fat_type := FAT_TYPE_16 | FAT_TYPE_32.
#[global] Instance fat_type_eq_dec : EqDecision fat_type.
Proof. solve_decision. Defined.

(** [image_size] and [write_sector] are kept with the geometry, the image is
    state. *)
Record fat_volume (W : Type) := FatVolume {
  image_size : Z;
  bytes_per_sector : Z;
  sectors_per_cluster : Z;
  fat_count : Z;
  sectors_per_fat : Z;
  fat_start_sector : Z;
  root_start_sector : Z;
  data_start_sector : Z;
  root_entries : Z;
  root_cluster : Z;
  cluster_limit : Z;
  vol_type : fat_type;
  write_sector : option (W -> Z -> list Z -> W);
}.
Arguments FatVolume {W}.
Arguments image_size {W}. Arguments bytes_per_sector {W}. Arguments sectors_per_cluster {W}.
Arguments fat_count {W}. Arguments sectors_per_fat {W}. Arguments fat_start_sector {W}.
Arguments root_start_sector {W}. Arguments data_start_sector {W}. Arguments root_entries {W}.
Arguments root_cluster {W}. Arguments cluster_limit {W}. Arguments vol_type {W}. Arguments write_sector {W}.

(** The image and the outside world. *)
Record fat_state (W : Type) := FatState { image : bmem; world : W }.
Arguments FatState {W}. Arguments image {W}. Arguments world {W}.

(** What [rtc_read] reports ([kernel/devices/rtc.h]). *)
Record rtc_time := RtcTime {
  rt_year : Z; rt_month : Z; rt_day : Z; rt_hour : Z; rt_minute : Z; rt_second : Z; rt_valid : bool }.

Record fat_file := FatFile {
  first_cluster : Z;
  cur_cluster : Z;
  ff_size : Z;
  ff_pos : Z;
  dir_ent : option Z;
}.

(** Little-endian fields of the image, as x86 reads and writes them. *)
Definition mem16 (m : bmem) (a : Z) : Z := ld8 m a + 256 * ld8 m (a + 1).
Definition mem32 (m : bmem) (a : Z) : Z := mem16 m a + 65536 * mem16 m (a + 2).
Definition put16 (m : bmem) (a v : Z) : bmem := st_bytes m a [u8 v; u8 (Z.shiftr v 8)].
Definition put32 (m : bmem) (a v : Z) : bmem :=
  st_bytes m a [u8 v; u8 (Z.shiftr v 8); u8 (Z.shiftr v 16); u8 (Z.shiftr v 24)].
Definition mem_bytes (m : bmem) (a n : Z) : list Z := (fun k => ld8 m (a + k)) <$> seqZ 0 n.

(** ** Mounting *)

(** [fs_probe_bytes_equal], [fs_probe_is_exfat] of [fs/probe.h]. *)
Definition fs_probe_bytes_equal (m : bmem) (size offset : Z) (signature : list Z) : bool :=
  if (offset >? size) || (Z.of_nat (length signature) >? size - offset) then false
  else bool_decide (mem_bytes m offset (Z.of_nat (length signature)) = signature).

(** ["EXFAT   "] at offset 3. *)
Definition fs_probe_is_exfat (m : bmem) (size : Z) : bool :=
  fs_probe_bytes_equal m size 3 [69; 88; 70; 65; 84; 32; 32; 32].

(** The size of the volume and of its sectors; 0 when the boot sector is not
    one of a FAT volume. *)
Definition fat_volume_size (boot : bmem) : Z * Z :=
  if fs_probe_is_exfat boot 512 then (0, 0) else
  let bps := mem16 boot 11 in
  let total_sectors := if mem16 boot 19 =? 0 then mem32 boot 32 else mem16 boot 19 in
  if (bps <? 512) || (bps >? 4096) || negb (Z.land bps (bps - 1) =? 0) || (total_sectors =? 0) then (0, 0)
  else (total_sectors * bps, bps).

Definition fat_mount_format {W} (m : bmem) (size : Z) (writer : option (W -> Z -> list Z -> W)) : option (fat_volume W) :=
  if size <? 512 then None else
  let bps := mem16 m 11 in
  let spc := ld8 m 13 in
  let reserved := mem16 m 14 in
  let num_fats := ld8 m 16 in
  let b_root_entries := mem16 m 17 in
  let total_sectors := if mem16 m 19 =? 0 then mem32 m 32 else mem16 m 19 in
  let fat_sectors := if mem16 m 22 =? 0 then mem32 m 36 else mem16 m 22 in
  let b_root_cluster := mem32 m 44 in
  if (bps <? 512) || (bps >? 4096) || negb (Z.land bps (bps - 1) =? 0) || (spc =? 0) || (reserved =? 0) ||
     (num_fats =? 0) || (fat_sectors =? 0) || (total_sectors =? 0) || (total_sectors * bps >? size) then None else
  let root_sectors := u32 (b_root_entries * 32 + bps - 1) / bps in
  let fat_start := reserved in
  let root_start := u32 (fat_start + u32 (num_fats * fat_sectors)) in
  let data_start := u32 (root_start + root_sectors) in
  if (root_start <? fat_start) || (data_start <? root_start) || (data_start >=? total_sectors) then None else
  let data_clusters := (total_sectors - data_start) / spc in
  if data_clusters <? 4085 then None else
  let type := if data_clusters <? 65525 then FAT_TYPE_16 else FAT_TYPE_32 in
  let entry_bytes := match type with FAT_TYPE_32 => 4 | FAT_TYPE_16 => 2 end in
  let fat_entries := u32 (fat_sectors * bps / entry_bytes) in
  let limit := u32 (data_clusters + 2) in
  let limit := if limit >? fat_entries then fat_entries else limit in
  if limit <=? 2 then None else
  if bool_decide (type = FAT_TYPE_16) && (limit >=? 0xFFF0) then None else
  if match type with
     | FAT_TYPE_16 => (b_root_entries =? 0) || (root_sectors =? 0)
     | FAT_TYPE_32 => negb (b_root_entries =? 0) || negb (root_sectors =? 0) || (b_root_cluster <? 2) || (b_root_cluster >=? limit)
     end then None else
  Some (FatVolume size bps spc num_fats fat_sectors fat_start root_start data_start b_root_entries
          (match type with FAT_TYPE_32 => b_root_cluster | FAT_TYPE_16 => 0 end) limit type writer).

Definition fat_init {W} (m : bmem) (size : Z) (writer : option (W -> Z -> list Z -> W)) : option (fat_volume W) :=
  if size <? 512 then None else if fs_probe_is_exfat m size then None else fat_mount_format m size writer.

(** ** Clusters and the allocation table *)
Section Volume.
Context {W : Type} (v : fat_volume W).
Implicit Types s : fat_state W.

Definition cluster_bytes : Z := u32 (sectors_per_cluster v * bytes_per_sector v).
Definition sector (lba : Z) : Z := lba * bytes_per_sector v.
Definition cluster_is_valid (c : Z) : bool := (c >=? 2) && (c <? cluster_limit v).
Definition cluster_eoc : Z := match vol_type v with FAT_TYPE_32 => 0x0FFFFFFF | FAT_TYPE_16 => 0xFFFF end.
Definition cluster_is_eoc (value : Z) : bool :=
  match vol_type v with FAT_TYPE_32 => value >=? 0x0FFFFFF8 | FAT_TYPE_16 => value >=? 0xFFF8 end.

Definition fat_get s (c : Z) : Z :=
  let table := sector (fat_start_sector v) in
  match vol_type v with
  | FAT_TYPE_32 => Z.land (mem32 (image s) (table + 4 * c)) 0x0FFFFFFF
  | FAT_TYPE_16 => mem16 (image s) (table + 2 * c)
  end.

Definition set_image s (m : bmem) : fat_state W := FatState m (world s).
Definition set_world s (w : W) : fat_state W := FatState (image s) w.

Definition fat_put s (table c value : Z) : fat_state W :=
  match vol_type v with
  | FAT_TYPE_32 =>
      let a := table + 4 * c in
      set_image s (put32 (image s) a (Z.lor (Z.land (mem32 (image s) a) 0xF0000000) (Z.land value 0x0FFFFFFF)))
  | FAT_TYPE_16 => set_image s (put16 (image s) (table + 2 * c) (u16 value))
  end.

Definition fat_flush_sector s (lba : Z) : fat_state W :=
  match write_sector v with
  | Some w => set_world s (w (world s) lba (mem_bytes (image s) (sector lba) (bytes_per_sector v)))
  | None => s
  end.

Definition fat_flush_bytes s (off len : Z) : fat_state W :=
  match write_sector v with
  | None => s
  | Some _ =>
      if (len =? 0) || (bytes_per_sector v =? 0) then s else
      if (off <? 0) || (off >=? image_size v) then s else
      let len := if len >? image_size v - off then image_size v - off else len in
      let first := u32 (off / bytes_per_sector v) in
      let last := u32 ((off + len - 1) / bytes_per_sector v) in
      foldl fat_flush_sector s (seqZ first (last - first + 1))
  end.

Definition entry_width : Z := match vol_type v with FAT_TYPE_16 => 2 | FAT_TYPE_32 => 4 end.

Definition fat_set s (c value : Z) : fat_state W :=
  foldl (fun s f =>
    let table := sector (u32 (fat_start_sector v + u32 (f * sectors_per_fat v))) in
    fat_flush_bytes (fat_put s table c value) (table + c * entry_width) entry_width) s (seqZ 0 (fat_count v)).

(** The status and the next cluster: 0 with the next, 1 at the end, -1 for a
    broken chain. *)
Definition next_cluster s (c : Z) : Z * Z :=
  if negb (cluster_is_valid c) then (-1, 0) else
  let value := fat_get s c in
  if cluster_is_eoc value then (1, 0) else
  if negb (cluster_is_valid value) then (-1, 0) else (0, value).

Definition cluster_data (c : Z) : option Z :=
  if negb (cluster_is_valid c) then None
  else Some (sector (u32 (data_start_sector v + u32 ((c - 2) * sectors_per_cluster v)))).

(** Offset 0 for a cluster that is not one of the volume. *)
Definition data_at (c : Z) : Z := default 0 (cluster_data c).

Definition fat_impl_alloc_cluster s : fat_state W * Z :=
  match list_find (fun c => fat_get s c = 0) (seqZ 2 (cluster_limit v - 2)) with
  | None => (s, 0)
  | Some (_, c) =>
      let s := fat_set s c cluster_eoc in
      let s := set_image s (memset (image s) (data_at c) 0 cluster_bytes) in
      (fat_flush_bytes s (data_at c) cluster_bytes, c)
  end.

Fixpoint free_chain_loop (fuel : nat) s (current : Z) : fat_state W :=
  match fuel with
  | O => s
  | S fuel =>
      if negb (cluster_is_valid current) then s else
      let next := fat_get s current in
      let s := fat_set s current 0 in
      if cluster_is_eoc next || negb (cluster_is_valid next) then s else free_chain_loop fuel s next
  end.

(** [visited] bounds the passes by the number of clusters. *)
Definition fat_impl_free_chain s (first : Z) : fat_state W := free_chain_loop (Z.to_nat (cluster_limit v)) s first.

(** ** Entry metadata *)
Definition fat_impl_entry_get_cluster s (e : Z) : Z :=
  let low := mem16 (image s) (e + 26) in
  match vol_type v with
  | FAT_TYPE_32 => Z.lor low (u32 (Z.shiftl (mem16 (image s) (e + 20)) 16))
  | FAT_TYPE_16 => low
  end.
Definition fat_impl_entry_set_cluster s (e cluster : Z) : fat_state W :=
  let m := put16 (image s) (e + 26) (u16 (Z.land cluster 0xFFFF)) in
  set_image s (put16 m (e + 20) (match vol_type v with FAT_TYPE_32 => u16 (Z.shiftr cluster 16) | FAT_TYPE_16 => 0 end)).
Definition fat_impl_entry_get_size s (e : Z) : Z := mem32 (image s) (e + 28).
Definition fat_impl_entry_set_size s (e size : Z) : fat_state W := set_image s (put32 (image s) (e + 28) (u32 size)).

Definition fat_encode_date (t : rtc_time) : Z :=
  let year := u16 (rt_year t - 1980) in
  u16 (Z.lor (Z.lor (Z.shiftl year 9) (Z.shiftl (rt_month t) 5)) (rt_day t)).
Definition fat_encode_time (t : rtc_time) : Z :=
  u16 (Z.lor (Z.lor (Z.shiftl (rt_hour t) 11) (Z.shiftl (rt_minute t) 5)) (rt_second t / 2)).

Variable rtc_read : W -> rtc_time * W.

Definition fat_impl_set_timestamp s (e : Z) : fat_state W :=
  let '(now, w) := rtc_read (world s) in
  let s := set_world s w in
  if negb (rt_valid now) then s else
  let date := fat_encode_date now in
  let time := fat_encode_time now in
  let m := put16 (image s) (e + 24) date in
  let m := put16 m (e + 22) time in
  let m := put16 m (e + 18) date in
  if (mem16 m (e + 16) =? 0) && (mem16 m (e + 14) =? 0) then
    let m := put16 m (e + 16) date in
    let m := put16 m (e + 14) time in
    set_image s (st8 m (e + 13) 0)
  else set_image s m.

Definition fat_file_from_entry s (e : Z) : fat_file :=
  FatFile (fat_impl_entry_get_cluster s e) (fat_impl_entry_get_cluster s e)
    (u32 (fat_impl_entry_get_size s e)) 0 (Some e).

(** ** File operations *)
Definition fat_truncate s (f : fat_file) : fat_state W * fat_file * Z :=
  match dir_ent f with
  | None => (s, f, -1)
  | Some e =>
      let s := if first_cluster f =? 0 then s else fat_impl_free_chain s (first_cluster f) in
      let s := fat_impl_entry_set_cluster s e 0 in
      let s := fat_impl_entry_set_size s e 0 in
      let s := fat_impl_set_timestamp s e in
      (fat_flush_bytes s e 32, FatFile 0 0 0 0 (Some e), 0)
  end.

(** The bytes read so far come first in the result. *)
Fixpoint fat_read_loop (fuel : nat) s (f : fat_file) (length : Z) : fat_file * list Z :=
  match fuel with
  | O => (f, [])
  | S fuel =>
      if (length =? 0) || (ff_pos f >=? ff_size f) then (f, []) else
      match cluster_data (cur_cluster f) with
      | None => (f, [])
      | Some data =>
          let offset := ff_pos f mod cluster_bytes in
          let in_cluster := cluster_bytes - offset in
          let in_file := ff_size f - ff_pos f in
          let chunk := if length >? in_cluster then in_cluster else length in
          let chunk := if chunk >? in_file then in_file else chunk in
          let out := mem_bytes (image s) (data + offset) chunk in
          let f := FatFile (first_cluster f) (cur_cluster f) (ff_size f) (u32 (ff_pos f + chunk)) (dir_ent f) in
          if (ff_pos f mod cluster_bytes =? 0) && (ff_pos f <? ff_size f) then
            let '(status, next) := next_cluster s (cur_cluster f) in
            if negb (status =? 0) then (f, out) else
            let '(f, rest) := fat_read_loop fuel s
              (FatFile (first_cluster f) next (ff_size f) (ff_pos f) (dir_ent f)) (length - chunk) in
            (f, out ++ rest)
          else
            let '(f, rest) := fat_read_loop fuel s f (length - chunk) in
            (f, out ++ rest)
      end
  end.

(** Every pass that goes on reads at least one byte. *)
Definition fat_read s (f : fat_file) (length : Z) : fat_file * list Z :=
  fat_read_loop (S (Z.to_nat length)) s f length.

(** [false] when the chain ends too early; the cursor then stays in between. *)
Fixpoint seek_loop (skip : nat) s (c : Z) : Z * bool :=
  match skip with
  | O => (c, true)
  | S skip =>
      let '(status, next) := next_cluster s c in
      if negb (status =? 0) then (c, false) else seek_loop skip s next
  end.

Definition fat_seek s (f : fat_file) (position : Z) : fat_file * Z :=
  let position := if position >? ff_size f then ff_size f else position in
  if (position =? 0) || (ff_size f =? 0) then
    (FatFile (first_cluster f) (first_cluster f) (ff_size f) position (dir_ent f), 0)
  else
    let skip := position / cluster_bytes in
    let skip := if (position =? ff_size f) && (position mod cluster_bytes =? 0) then skip - 1 else skip in
    let '(c, ok) := seek_loop (Z.to_nat skip) s (first_cluster f) in
    if ok then (FatFile (first_cluster f) c (ff_size f) position (dir_ent f), 0)
    else (FatFile (first_cluster f) c (ff_size f) (ff_pos f) (dir_ent f), -1).

(** The cluster after [c], allocated and linked when the chain ends there;
    [None] when the chain is broken or the volume full. *)
Definition advance s (c : Z) : fat_state W * option Z :=
  let '(status, next) := next_cluster s c in
  if status =? 1 then
    let '(s, next) := fat_impl_alloc_cluster s in
    if next =? 0 then (s, None) else (fat_set s c next, Some next)
  else if status <? 0 then (s, None) else (s, Some next).

Fixpoint fat_write_loop (fuel : nat) s (f : fat_file) (buf : list Z) (total : Z) : fat_state W * fat_file * Z :=
  match fuel with
  | O => (s, f, total)
  | S fuel =>
      let length := Z.of_nat (length buf) in
      if length =? 0 then (s, f, total) else
      match cluster_data (cur_cluster f) with
      | None => (s, f, total)
      | Some data =>
          let offset := ff_pos f mod cluster_bytes in
          let available := cluster_bytes - offset in
          let chunk := if length <? available then length else available in
          let s := set_image s (st_bytes (image s) (data + offset) (take (Z.to_nat chunk) buf)) in
          let s := fat_flush_bytes s (data + offset) chunk in
          let buf := drop (Z.to_nat chunk) buf in
          let f := FatFile (first_cluster f) (cur_cluster f) (ff_size f) (u32 (ff_pos f + chunk)) (dir_ent f) in
          let total := total + chunk in
          if (ff_pos f mod cluster_bytes =? 0) && negb (length - chunk =? 0) then
            let '(s, next) := advance s (cur_cluster f) in
            match next with
            | None => (s, f, total)
            | Some next =>
                fat_write_loop fuel s (FatFile (first_cluster f) next (ff_size f) (ff_pos f) (dir_ent f)) buf total
            end
          else fat_write_loop fuel s f buf total
      end
  end.

Definition set_cur (f : fat_file) (c : Z) : fat_file := FatFile (first_cluster f) c (ff_size f) (ff_pos f) (dir_ent f).

(** Allocate the first cluster of an empty file. *)
Definition write_first s (f : fat_file) (e : Z) : fat_state W * option fat_file :=
  if first_cluster f =? 0 then
    let '(s, cluster) := fat_impl_alloc_cluster s in
    if cluster =? 0 then (s, None)
    else (fat_impl_entry_set_cluster s e cluster, Some (FatFile cluster cluster (ff_size f) (ff_pos f) (dir_ent f)))
  else (s, Some f).

(** Publish the new size and step over a cluster boundary inside the file. *)
Definition write_publish s (f : fat_file) (e : Z) : fat_state W * fat_file :=
  let '(s, f) :=
    if ff_pos f >? ff_size f then
      (fat_impl_entry_set_size s e (ff_pos f), FatFile (first_cluster f) (cur_cluster f) (ff_pos f) (ff_pos f) (dir_ent f))
    else (s, f) in
  let s := fat_impl_set_timestamp s e in
  let s := fat_flush_bytes s e 32 in
  if (ff_pos f >? 0) && (ff_pos f <? ff_size f) && (ff_pos f mod cluster_bytes =? 0) then
    let '(status, next) := next_cluster s (cur_cluster f) in
    (s, if status =? 0 then set_cur f next else f)
  else (s, f).

Definition fat_write s (f : fat_file) (buf : list Z) : fat_state W * fat_file * Z :=
  match dir_ent f with
  | None => (s, f, 0)
  | Some e =>
      let '(s, r) := write_first s f e in
      match r with
      | None => (s, f, 0)
      | Some f =>
          let '(s, r) :=
            if (Z.of_nat (length buf) >? 0) && (ff_pos f >? 0) && (ff_pos f =? ff_size f) && (ff_pos f mod cluster_bytes =? 0)
            then advance s (cur_cluster f) else (s, Some (cur_cluster f)) in
          match r with
          | None => (s, f, 0)
          | Some c =>
              let '(s, f, total) := fat_write_loop (S (length buf)) s (set_cur f c) buf 0 in
              let '(s, f) := write_publish s f e in
              (s, f, total)
          end
      end
  end.

(** ** The operations of the file system switch, [fat_vfs.c]

    An inode is its directory entry, [None] for the root directory; an open
    file adds a position.  Every call rebuilds its cursor from the entry. *)
Definition UINT32_MAX : Z := 0xFFFFFFFF.
Definition FAT_ATTR_READ_ONLY : Z := 0x01.
Definition FAT_ATTR_DIRECTORY : Z := 0x10.

Definition attributes s (node : option Z) : Z :=
  match node with Some e => ld8 (image s) (e + 11) | None => FAT_ATTR_DIRECTORY end.
Definition entry_size s (node : option Z) : Z :=
  match node with Some e => fat_impl_entry_get_size s e | None => 0 end.

Definition vfs_cursor s (node : option Z) (position : Z) : option fat_file :=
  match node with
  | None => None
  | Some e =>
      if position >? UINT32_MAX then None else
      let '(f, r) := fat_seek s (fat_file_from_entry s e) position in
      if r =? 0 then Some f else None
  end.

(** The new position and the bytes read. *)
Definition fat_vfs_read s (node : option Z) (position length : Z) : Z * list Z :=
  if position >=? entry_size s node then (position, []) else
  match vfs_cursor s node position with
  | None => (position, [])
  | Some f => let '(f, out) := fat_read s f length in (ff_pos f, out)
  end.

Fixpoint fill_loop (fuel : nat) s (f : fat_file) (gap : Z) : fat_state W * bool :=
  match fuel with
  | O => (s, true)
  | S fuel =>
      if gap =? 0 then (s, true) else
      let n := if gap <? 512 then gap else 512 in
      let '(s, f, k) := fat_write s f (replicate (Z.to_nat n) 0) in
      if negb (k =? n) then (s, false) else fill_loop fuel s f (gap - n)
  end.

Definition fill_gap s (node : option Z) (position : Z) : fat_state W * bool :=
  let size := entry_size s node in
  if position <=? size then (s, true) else
  match vfs_cursor s node size with
  | None => (s, false)
  | Some f => fill_loop (S (Z.to_nat (position - size))) s f (position - size)
  end.

(** A write when the position is not behind the end of the file. *)
Definition vfs_write_at s (node : option Z) (position : Z) (buf : list Z) : fat_state W * Z * Z :=
  match vfs_cursor s node position with
  | None => (s, position, 0)
  | Some f =>
      let buf := if Z.of_nat (length buf) >? UINT32_MAX - ff_pos f then take (Z.to_nat (UINT32_MAX - ff_pos f)) buf else buf in
      let '(s, f, count) := fat_write s f buf in (s, ff_pos f, count)
  end.

(** The new position and the number of bytes written. *)
Definition fat_vfs_write s (node : option Z) (position : Z) (buf : list Z) : fat_state W * Z * Z :=
  if attributes s node &? FAT_ATTR_READ_ONLY then (s, position, 0) else
  let '(s, ok) := fill_gap s node position in
  if negb ok then (s, position, 0) else vfs_write_at s node position buf.

Definition fat_vfs_seek (node : option Z) (position new_position : Z) : Z * Z :=
  match node with
  | None => (position, -1)
  | Some _ => if new_position >? UINT32_MAX then (position, -1) else (new_position, 0)
  end.

Definition fat_vfs_truncate s (node : option Z) : fat_state W * Z :=
  if attributes s node &? FAT_ATTR_READ_ONLY then (s, -1) else
  match vfs_cursor s node 0 with
  | None => (s, -1)
  | Some f => let '(s, _, r) := fat_truncate s f in (s, r)
  end.

(** Bytes of the volume and bytes free. *)
Definition fat_vfs_statfs s : Z * Z :=
  ((cluster_limit v - 2) * cluster_bytes,
   Z.of_nat (length (filter (fun c => fat_get s c = 0) (seqZ 2 (cluster_limit v - 2)))) * cluster_bytes).
End Volume.
