(* ===== verification/FatSpec.v ===== *)
(** FAT volumes ([kernel/fs/fat/fat_mount.c]): what a mounted volume
    guarantees about its layout, and the allocation table as a function from
    clusters to links. *)
From S2P Require Import Prelude KString KStringSpec Fat.

(** ** Fields of the image *)
Lemma put16_mem m a x : 0 <= x < 2 ^ 16 -> mem16 (put16 m a x) a = x.
Proof.
  intros Hx. unfold mem16, put16. rewrite !ld_st_bytes. cbn [length]. rewrite !decide_True by lia.
  rewrite Z.sub_diag, Z.add_simpl_l. change (Z.to_nat 0) with 0%nat. change (Z.to_nat 1) with 1%nat. cbn [lookup_total list_lookup_total]. unfold u8. rewrite Z.shiftr_div_pow2 by lia.
  change (2 ^ 8) with 256. rewrite (Z.mod_small (x / 256)) by (split; [apply Z.div_pos|apply Z.div_lt_upper_bound]; lia).
  pose proof (Z.div_mod x 256). lia.
Qed.

Lemma put32_mem m a x : 0 <= x < 2 ^ 32 -> mem32 (put32 m a x) a = x.
Proof.
  intros Hx. unfold mem32, mem16, put32. rewrite !ld_st_bytes. cbn [length]. rewrite !decide_True by lia.
  replace (a + 2 + 1 - a) with 3 by lia. rewrite Z.sub_diag, !Z.add_simpl_l.
  change (Z.to_nat 0) with 0%nat. change (Z.to_nat 1) with 1%nat. change (Z.to_nat 2) with 2%nat. change (Z.to_nat 3) with 3%nat.
  cbn [lookup_total list_lookup_total]. unfold u8. rewrite !Z.shiftr_div_pow2 by lia.
  change (2 ^ 8) with 256. change (2 ^ 16) with (256 * 256). change (2 ^ 24) with (256 * 256 * 256).
  rewrite <-!Z.div_div by lia.
  rewrite (Z.mod_small (x / 256 / 256 / 256)) by (split; [repeat apply Z.div_pos; lia|rewrite !Z.div_div by lia; apply Z.div_lt_upper_bound; lia]).
  pose proof (Z.div_mod x 256). pose proof (Z.div_mod (x / 256) 256). pose proof (Z.div_mod (x / 256 / 256) 256). lia.
Qed.

(** [m'] differs from [m] in [a .. a+n) at most. *)
Definition only (m m' : bmem) (a n : Z) : Prop := forall x, ~ (a <= x < a + n) -> ld8 m' x = ld8 m x.

Lemma only_st_bytes m a bs : only m (st_bytes m a bs) a (Z.of_nat (length bs)).
Proof. intros x Hx. rewrite ld_st_bytes. by rewrite decide_False. Qed.
Lemma only_put16 m a x : only m (put16 m a x) a 2.
Proof. apply (only_st_bytes _ _ [_; _]). Qed.
Lemma only_put32 m a x : only m (put32 m a x) a 4.
Proof. apply (only_st_bytes _ _ [_; _; _; _]). Qed.

Lemma mem16_ext m m' a : (forall x, a <= x < a + 2 -> ld8 m' x = ld8 m x) -> mem16 m' a = mem16 m a.
Proof. intros H. unfold mem16. by rewrite !H by lia. Qed.
Lemma mem32_ext m m' a : (forall x, a <= x < a + 4 -> ld8 m' x = ld8 m x) -> mem32 m' a = mem32 m a.
Proof. intros H. unfold mem32. by rewrite !(mem16_ext m m') by (intros; apply H; lia). Qed.
Lemma mem_bytes_ext m m' a n : (forall x, a <= x < a + n -> ld8 m' x = ld8 m x) -> mem_bytes m' a n = mem_bytes m a n.
Proof. intros H. unfold mem_bytes. apply list_fmap_ext. intros i k Hk. apply lookup_seqZ in Hk. apply H. lia. Qed.

Lemma mem_bytes_length m a n : length (mem_bytes m a n) = Z.to_nat n.
Proof. unfold mem_bytes. by rewrite length_fmap, length_seqZ. Qed.
Lemma mem_bytes_lookup m a n i : Z.of_nat i < n -> mem_bytes m a n !! i = Some (ld8 m (a + Z.of_nat i)).
Proof. intros Hi. unfold mem_bytes. rewrite list_lookup_fmap, lookup_seqZ_lt by lia. cbn. do 3 f_equal. Qed.

(** ** Layout of a mounted volume *)
Definition bps_ok (b : Z) : Prop := b = 512 \/ b = 1024 \/ b = 2048 \/ b = 4096.

Definition limit_max (t : fat_type) : Z := match t with FAT_TYPE_16 => 0xFFF0 | FAT_TYPE_32 => 0x0FFFFFF0 end.

(** The boot sectors, the copies of the table, the fixed root directory and the
    clusters follow each other inside the image, and each copy of the table
    has an entry for every cluster. *)
Record vol_ok {W} (v : fat_volume W) : Prop := {
  vo_size : image_size v <= 2 ^ 36;
  vo_bps : bps_ok (bytes_per_sector v);
  vo_spc : 1 <= sectors_per_cluster v <= 255;
  vo_count : 1 <= fat_count v <= 255;
  vo_spf : 1 <= sectors_per_fat v;
  vo_start : 1 <= fat_start_sector v;
  vo_fats : root_start_sector v = fat_start_sector v + fat_count v * sectors_per_fat v;
  vo_entries : 0 <= root_entries v;
  vo_root : root_start_sector v * bytes_per_sector v + root_entries v * 32 <= data_start_sector v * bytes_per_sector v;
  vo_data : (data_start_sector v + (cluster_limit v - 2) * sectors_per_cluster v) * bytes_per_sector v <= image_size v;
  vo_lba : data_start_sector v + (cluster_limit v - 2) * sectors_per_cluster v < 2 ^ 32;
  vo_width : cluster_limit v * entry_width v <= sectors_per_fat v * bytes_per_sector v;
  vo_limit : 2 < cluster_limit v <= limit_max (vol_type v);
  vo_rootc : vol_type v = FAT_TYPE_32 -> cluster_is_valid v (root_cluster v) = true;
}.

Lemma bps_of_test b : 512 <= b <= 4096 -> Z.land b (b - 1) = 0 -> bps_ok b.
Proof.
  intros Hb H0.
  assert (Hall : forallb (fun b => negb (Z.land b (b - 1) =? 0) || (b =? 512) || (b =? 1024) || (b =? 2048) || (b =? 4096)) (seqZ 512 3585) = true)
    by (vm_compute; reflexivity).
  rewrite forallb_forall in Hall. specialize (Hall b ltac:(apply list_elem_of_In, elem_of_seqZ; lia)). rewrite H0 in Hall. cbn in Hall.
  unfold bps_ok. repeat (apply orb_true_iff in Hall as [Hall|Hall]); apply Z.eqb_eq in Hall; lia.
Qed.

(** The number of sectors all tables take together. *)
Definition table_sectors (m : bmem) : Z := ld8 m 16 * (if mem16 m 22 =? 0 then mem32 m 36 else mem16 m 22).

Definition bytes_ok (m : bmem) : Prop := forall a, 0 <= ld8 m a < 256.

Lemma mem16_range m a : bytes_ok m -> 0 <= mem16 m a < 2 ^ 16.
Proof. intros H. unfold mem16. pose proof (H a). pose proof (H (a + 1)). lia. Qed.
Lemma mem32_range m a : bytes_ok m -> 0 <= mem32 m a < 2 ^ 32.
Proof. intros H. unfold mem32. pose proof (mem16_range m a H). pose proof (mem16_range m (a + 2) H). lia. Qed.

Lemma u32_add a b : 0 <= a < 2 ^ 32 -> 0 <= b < 2 ^ 32 -> a <= u32 (a + b) -> u32 (a + b) = a + b.
Proof.
  intros Ha Hb H. unfold u32 in *. destruct (Z.lt_ge_cases (a + b) (2 ^ 32)); [by rewrite Z.mod_small by lia|].
  replace (a + b) with (a + b - 2 ^ 32 + 1 * 2 ^ 32) in H by lia. rewrite Z_mod_plus_full, Z.mod_small in H by lia. lia.
Qed.

Lemma table_entries n eb : 0 <= n -> 0 < eb -> 0 <= u32 (n / eb) /\ u32 (n / eb) * eb <= n.
Proof.
  intros Hn He. pose proof (Z.mod_le (n / eb) (2 ^ 32) ltac:(apply Z.div_pos; lia) ltac:(lia)).
  pose proof (Z.mod_pos_bound (n / eb) (2 ^ 32) ltac:(lia)). pose proof (Z.mul_div_le n eb ltac:(lia)). unfold u32. nia.
Qed.

Lemma if_range (b : bool) x y n : 0 <= x < n -> 0 <= y < n -> 0 <= (if b then x else y) < n.
Proof. by destruct b. Qed.

Lemma fat_mount_ok {W} (m : bmem) (size : Z) (w : option (W -> Z -> list Z -> W)) (v : fat_volume W) :
  bytes_ok m -> size <= 2 ^ 36 -> table_sectors m < 2 ^ 32 -> fat_mount_format m size w = Some v -> vol_ok v.
Proof.
  intros Hm Hs Ht H. unfold fat_mount_format, table_sectors in *. none_if H E0.
  pose proof (mem16_range m 11 Hm) as Hbps. pose proof (mem16_range m 14 Hm) as Hres. pose proof (mem16_range m 17 Hm) as Hre.
  pose proof (Hm 13) as Hspc. pose proof (Hm 16) as Hnf. pose proof (mem32_range m 44 Hm) as Hrc.
  pose proof (if_range (mem16 m 19 =? 0) (mem32 m 32) (mem16 m 19) (2 ^ 32) (mem32_range m 32 Hm)
    ltac:(pose proof (mem16_range m 19 Hm); lia)) as Hts.
  pose proof (if_range (mem16 m 22 =? 0) (mem32 m 36) (mem16 m 22) (2 ^ 32) (mem32_range m 36 Hm)
    ltac:(pose proof (mem16_range m 22 Hm); lia)) as Hfs.
  revert Hbps Hres Hre Hspc Hnf Hrc Hts Hfs H Ht.
  generalize (mem16 m 11) (ld8 m 13) (mem16 m 14) (ld8 m 16) (mem16 m 17) (if mem16 m 19 =? 0 then mem32 m 32 else mem16 m 19)
    (if mem16 m 22 =? 0 then mem32 m 36 else mem16 m 22) (mem32 m 44).
  clear m Hm E0. intros bps spc res nf re total fs rc Hbps Hres Hre Hspc Hnf Hrc Hts Hfs H Ht.
  cbv zeta in H. none_if H E1. repeat (apply orb_false_iff in E1 as [E1 ?]).
  assert (Hb : bps_ok bps) by (apply bps_of_test; lia).
  rewrite (u32_small (re * 32 + bps - 1)) in H by lia. assert (Hnfs : 0 <= nf * fs) by (apply Z.mul_nonneg_nonneg; lia). rewrite (u32_small (nf * fs)) in H by lia.
  set (rs := (re * 32 + bps - 1) / bps) in *.
  assert (Hrs : re * 32 <= rs * bps /\ 0 <= rs < 2 ^ 32).
  { pose proof (Z.div_mod (re * 32 + bps - 1) bps ltac:(lia)). pose proof (Z.mod_pos_bound (re * 32 + bps - 1) bps ltac:(lia)). nia. }
  none_if H E2. repeat (apply orb_false_iff in E2 as [E2 ?]).
  assert (E3 : u32 (res + nf * fs) = res + nf * fs) by (apply u32_add; lia). rewrite E3 in *.
  assert (E4 : u32 (res + nf * fs + rs) = res + nf * fs + rs) by (apply u32_add; lia). rewrite E4 in *.
  set (ds := res + nf * fs + rs) in *. set (dc := (total - ds) / spc) in *.
  assert (Hdc : 0 <= dc /\ dc * spc <= total - ds).
  { pose proof (Z.div_mod (total - ds) spc ltac:(lia)). pose proof (Z.mod_pos_bound (total - ds) spc ltac:(lia)). split; [apply Z.div_pos; lia|lia]. }
  assert (Htb : total <= 2 ^ 27) by (unfold bps_ok in Hb; lia). assert (dc <= total - ds) by nia.
  none_if H E5. rewrite (u32_small (dc + 2)) in H by lia.
  set (t := if dc <? 65525 then FAT_TYPE_16 else FAT_TYPE_32) in *. set (eb := match t with FAT_TYPE_16 => 2 | FAT_TYPE_32 => 4 end) in *.
  assert (Heb : eb = 2 \/ eb = 4) by (unfold eb; destruct t; lia).
  pose proof (table_entries (fs * bps) eb ltac:(lia) ltac:(lia)) as Hfe.
  set (fe := u32 (fs * bps / eb)) in *. set (lim := if dc + 2 >? fe then fe else dc + 2) in *.
  assert (Hlim : lim <= dc + 2 /\ lim * eb <= fs * bps) by (unfold lim; destruct (Z.gtb_spec (dc + 2) fe); nia).
  none_if H E6. none_if H E7. none_if H E8. injection H as <-.
  assert (Hlm : lim <= limit_max t).
  { apply andb_false_iff in E7 as [E7|E7]; [apply bool_decide_eq_false in E7|]; destruct t; cbn; try lia; by destruct E7. }
  assert (Hdl : ds + (lim - 2) * spc <= total)
    by (assert ((lim - 2) * spc <= dc * spc) by (apply Z.mul_le_mono_nonneg_r; lia); lia).
  split; cbn; try lia; [done| |destruct t; exact (proj2 Hlim)|].
  { assert ((ds + (lim - 2) * spc) * bps <= total * bps) by (apply Z.mul_le_mono_nonneg_r; lia). lia. }
  intros Ht32. rewrite Ht32 in E8 |- *. repeat (apply orb_false_iff in E8 as [E8 ?]). unfold cluster_is_valid. cbn. lia.
Qed.

Lemma fat_mount_size {W} (m : bmem) (size : Z) (w : option (W -> Z -> list Z -> W)) (v : fat_volume W) :
  fat_mount_format m size w = Some v -> image_size v = size.
Proof. unfold fat_mount_format. intros H. cbv zeta in H. repeat (let E := fresh in none_if H E). by injection H as <-. Qed.

Lemma fat_init_ok {W} (m : bmem) (size : Z) (w : option (W -> Z -> list Z -> W)) (v : fat_volume W) :
  bytes_ok m -> size <= 2 ^ 36 -> table_sectors m < 2 ^ 32 -> fat_init m size w = Some v -> vol_ok v.
Proof. intros Hm Hs Ht H. unfold fat_init in H. none_if H E0. none_if H E1. by eapply fat_mount_ok. Qed.

(** ** Regions of a volume *)
Section Layout.
Context {W : Type} (v : fat_volume W) (Hv : vol_ok v).
Implicit Types s : fat_state W.

Definition in_table (x : Z) : Prop := fat_start_sector v * bytes_per_sector v <= x < root_start_sector v * bytes_per_sector v.
Definition in_root (x : Z) : Prop := root_start_sector v * bytes_per_sector v <= x < data_start_sector v * bytes_per_sector v.
Definition in_cluster (c x : Z) : Prop := data_at v c <= x < data_at v c + cluster_bytes v.
Definition valid (c : Z) : Prop := 2 <= c < cluster_limit v.

Lemma valid_true c : cluster_is_valid v c = true <-> valid c.
Proof. unfold cluster_is_valid, valid. lia. Qed.

Lemma bps_range : 512 <= bytes_per_sector v <= 4096.
Proof. destruct (vo_bps v Hv) as [ | [ | [ | ]]]; lia. Qed.

Lemma cluster_bytes_eq : cluster_bytes v = sectors_per_cluster v * bytes_per_sector v.
Proof. unfold cluster_bytes. pose proof bps_range. pose proof (vo_spc v Hv). apply u32_small. nia. Qed.

Lemma cluster_bytes_range : 512 <= cluster_bytes v < 2 ^ 32.
Proof. rewrite cluster_bytes_eq. pose proof bps_range. pose proof (vo_spc v Hv). nia. Qed.

Lemma data_start_pos : 1 <= fat_start_sector v < root_start_sector v /\ root_start_sector v <= data_start_sector v.
Proof.
  pose proof bps_range. destruct Hv as [_ _ _ ? ? ? ? ? Hroot _ _ _ _ _]. split; [nia|].
  apply (Z.mul_le_mono_pos_r _ _ (bytes_per_sector v)); lia.
Qed.

Lemma data_at_eq c : valid c -> cluster_data v c = Some (data_at v c) /\
  data_at v c = (data_start_sector v + (c - 2) * sectors_per_cluster v) * bytes_per_sector v.
Proof.
  intros Hc. unfold data_at, cluster_data. rewrite (proj2 (valid_true c) Hc). cbn. split; [done|]. unfold sector. f_equal.
  pose proof data_start_pos. pose proof (vo_spc v Hv). pose proof (vo_lba v Hv). unfold valid in Hc.
  assert ((c - 2) * sectors_per_cluster v <= (cluster_limit v - 2) * sectors_per_cluster v) by (apply Z.mul_le_mono_nonneg_r; lia).
  assert (0 <= (c - 2) * sectors_per_cluster v) by (apply Z.mul_nonneg_nonneg; lia).
  rewrite (u32_small ((c - 2) * _)) by lia. apply u32_small. lia.
Qed.

Lemma cluster_step c d : valid c -> valid d -> c < d -> data_at v c + cluster_bytes v <= data_at v d.
Proof.
  intros Hc Hd Hcd. rewrite (proj2 (data_at_eq c Hc)), (proj2 (data_at_eq d Hd)), cluster_bytes_eq, <-Z.mul_add_distr_r.
  pose proof bps_range. apply Z.mul_le_mono_nonneg_r; [lia|]. pose proof (vo_spc v Hv). nia.
Qed.

Lemma cluster_disjoint c d x : valid c -> valid d -> in_cluster c x -> in_cluster d x -> c = d.
Proof.
  intros Hc Hd H1 H2. unfold in_cluster in *. destruct (Z.lt_trichotomy c d) as [L|[->|L]]; [|done|].
  - pose proof (cluster_step c d Hc Hd L). lia.
  - pose proof (cluster_step d c Hd Hc L). lia.
Qed.

Lemma cluster_bounds c : valid c ->
  data_start_sector v * bytes_per_sector v <= data_at v c /\ data_at v c + cluster_bytes v <= image_size v.
Proof.
  intros Hc. rewrite (proj2 (data_at_eq c Hc)), cluster_bytes_eq. pose proof bps_range. pose proof (vo_spc v Hv). unfold valid in Hc. split.
  - apply Z.mul_le_mono_nonneg_r; [lia|]. nia.
  - etrans; [|apply (vo_data v Hv)]. rewrite <-Z.mul_add_distr_r. apply Z.mul_le_mono_nonneg_r; [lia|]. nia.
Qed.

Lemma regions_in_image x : in_table x \/ in_root x \/ (exists c, valid c /\ in_cluster c x) -> 0 <= x < image_size v.
Proof.
  pose proof data_start_pos as D. pose proof bps_range as B. pose proof (cluster_bounds 2) as C. unfold valid in C. pose proof (vo_limit v Hv).
  assert (0 <= fat_start_sector v * bytes_per_sector v) by lia.
  assert (fat_start_sector v * bytes_per_sector v <= root_start_sector v * bytes_per_sector v) by (apply Z.mul_le_mono_nonneg_r; lia).
  assert (root_start_sector v * bytes_per_sector v <= data_start_sector v * bytes_per_sector v) by (apply Z.mul_le_mono_nonneg_r; lia).
  pose proof cluster_bytes_range. intros [Hx|[Hx|(c & Hc & Hx)]]; unfold in_table, in_root in Hx; [lia..|].
  pose proof (cluster_bounds c Hc). unfold in_cluster in Hx. lia.
Qed.

Lemma cluster_not_table c x : valid c -> in_cluster c x -> ~ in_table x /\ ~ in_root x.
Proof.
  intros Hc Hx. pose proof (cluster_bounds c Hc). pose proof data_start_pos. pose proof bps_range.
  assert (root_start_sector v * bytes_per_sector v <= data_start_sector v * bytes_per_sector v) by (apply Z.mul_le_mono_nonneg_r; lia).
  unfold in_table, in_root, in_cluster in *. lia.
Qed.

(** ** The table *)
Lemma flush_sectors_image ls : forall s, image (foldl (fat_flush_sector v) s ls) = image s.
Proof. induction ls as [|l ls IH]; intros s; cbn; [done|]. rewrite IH. unfold fat_flush_sector. by destruct (write_sector v). Qed.

Lemma flush_image s off n : image (fat_flush_bytes v s off n) = image s.
Proof. unfold fat_flush_bytes. destruct (write_sector v); [|done]. repeat case_match; try done; apply flush_sectors_image. Qed.

(** Reading the copy of the table at offset [t]. *)
Definition get_at s (t c : Z) : Z :=
  match vol_type v with
  | FAT_TYPE_32 => Z.land (mem32 (image s) (t + 4 * c)) 0x0FFFFFFF
  | FAT_TYPE_16 => mem16 (image s) (t + 2 * c)
  end.

Definition link_ok (x : Z) : Prop := 0 <= x <= cluster_eoc v.

Lemma get_at_ext s s' t c :
  (forall x, t + c * entry_width v <= x < t + (c + 1) * entry_width v -> ld8 (image s') x = ld8 (image s) x) -> get_at s' t c = get_at s t c.
Proof.
  intros H. unfold get_at, entry_width in *. destruct (vol_type v); [apply mem16_ext; intros; apply H; lia|f_equal; apply mem32_ext; intros; apply H; lia].
Qed.

Lemma fat_put_only s t c x : only (image s) (image (fat_put v s t c x)) (t + c * entry_width v) (entry_width v).
Proof.
  unfold fat_put, entry_width. destruct (vol_type v); cbn; rewrite Z.mul_comm; [apply only_put16|apply only_put32].
Qed.

Lemma put32_low o x : 0 <= x < 2 ^ 28 ->
  0 <= Z.lor (Z.land o 0xF0000000) (Z.land x 0x0FFFFFFF) < 2 ^ 32 /\ Z.land (Z.lor (Z.land o 0xF0000000) (Z.land x 0x0FFFFFFF)) 0x0FFFFFFF = x.
Proof.
  intros Hx. assert (Z.land x 0x0FFFFFFF = x) as -> by (change 0x0FFFFFFF with (Z.ones 28); rewrite Z.land_ones by lia; apply Z.mod_small; lia).
  split.
  - apply lor_range; [lia| |lia]. rewrite Z.land_comm. apply land_range; lia.
  - rewrite Z.land_lor_distr_l, <-Z.land_assoc. change (Z.land 0xF0000000 0x0FFFFFFF) with 0. rewrite Z.land_0_r, Z.lor_0_l.
    change 0x0FFFFFFF with (Z.ones 28). rewrite Z.land_ones by lia. apply Z.mod_small. lia.
Qed.

Lemma fat_put_get s t c x d : link_ok x -> get_at (fat_put v s t c x) t d = if decide (d = c) then x else get_at s t d.
Proof.
  intros Hx. case_decide as E; [subst d|].
  - unfold link_ok, cluster_eoc in Hx. unfold get_at, fat_put. destruct (vol_type v); cbn [image set_image].
    + rewrite u16_small by lia. apply put16_mem. lia.
    + destruct (put32_low (mem32 (image s) (t + 4 * c)) x ltac:(lia)) as [H1 H2]. rewrite put32_mem; done.
  - apply get_at_ext. intros y Hy. apply fat_put_only. unfold entry_width in *. destruct (vol_type v); lia.
Qed.

(** Copy [f] of the table. *)
Definition table_at (f : Z) : Z := (fat_start_sector v + f * sectors_per_fat v) * bytes_per_sector v.

Lemma table_at_eq f : 0 <= f < fat_count v -> sector v (u32 (fat_start_sector v + u32 (f * sectors_per_fat v))) = table_at f.
Proof.
  intros Hf. unfold sector, table_at. f_equal. pose proof data_start_pos. destruct Hv as [_ _ _ ? ? ? ? _ _ _ Hl _ ? _].
  assert (0 <= f * sectors_per_fat v) by (apply Z.mul_nonneg_nonneg; lia).
  assert (f * sectors_per_fat v <= fat_count v * sectors_per_fat v) by (apply Z.mul_le_mono_nonneg_r; lia).
  pose proof (vo_spc v Hv). assert (0 <= (cluster_limit v - 2) * sectors_per_cluster v) by (apply Z.mul_nonneg_nonneg; lia).
  rewrite (u32_small (f * _)) by lia. apply u32_small. lia.
Qed.

(** The entries of copy [f] lie in the table, behind those of the copies before. *)
Lemma table_at_range f c x : 0 <= f < fat_count v -> valid c -> table_at f + c * entry_width v <= x < table_at f + (c + 1) * entry_width v ->
  in_table x /\ table_at f <= x < table_at (f + 1).
Proof.
  intros Hf Hc Hx. assert (Hw : 2 <= entry_width v) by (unfold entry_width; destruct (vol_type v); lia). unfold valid in Hc.
  assert ((c + 1) * entry_width v <= cluster_limit v * entry_width v) by (apply Z.mul_le_mono_nonneg_r; lia).
  assert (0 <= c * entry_width v) by (apply Z.mul_nonneg_nonneg; lia). pose proof (vo_width v Hv). pose proof bps_range.
  assert (Hx' : table_at f <= x < table_at (f + 1)) by (unfold table_at in *; lia). split; [|done].
  unfold in_table, table_at in *. rewrite (vo_fats v Hv). pose proof (vo_spf v Hv).
  assert (0 <= f * sectors_per_fat v) by (apply Z.mul_nonneg_nonneg; lia).
  assert ((f + 1) * sectors_per_fat v <= fat_count v * sectors_per_fat v) by (apply Z.mul_le_mono_nonneg_r; lia).
  split; [etrans; [|apply Hx']|eapply Z.lt_le_trans; [apply Hx'|]]; apply Z.mul_le_mono_nonneg_r; lia.
Qed.

Definition put_copy (c x : Z) s (f : Z) : fat_state W :=
  fat_flush_bytes v (fat_put v s (sector v (u32 (fat_start_sector v + u32 (f * sectors_per_fat v)))) c x)
    (sector v (u32 (fat_start_sector v + u32 (f * sectors_per_fat v))) + c * entry_width v) (entry_width v).

(** Later copies leave the first copy and everything outside the table alone. *)
Lemma put_copies_frame c x : valid c -> forall fs s y, Forall (fun f => 1 <= f < fat_count v) fs ->
  y < table_at 1 \/ ~ in_table y -> ld8 (image (foldl (put_copy c x) s fs)) y = ld8 (image s) y.
Proof.
  intros Hc. induction fs as [|f fs IH]; intros s y Hfs Hy; cbn; [done|]. apply list_relations.list.Forall_cons in Hfs as [Hf Hfs].
  rewrite (IH _ _ Hfs Hy). unfold put_copy. rewrite flush_image, table_at_eq by lia. apply fat_put_only. intros Hin.
  destruct (table_at_range f c y ltac:(lia) Hc ltac:(lia)) as [Hin1 Hin2].
  assert (table_at 1 <= table_at f).
  { unfold table_at. pose proof bps_range. pose proof (vo_spf v Hv). apply Z.mul_le_mono_nonneg_r; [lia|]. nia. }
  destruct Hy; [lia|done].
Qed.

Lemma fat_set_cons s c x : fat_set v s c x = foldl (put_copy c x) (put_copy c x s 0) (seqZ 1 (fat_count v - 1)).
Proof. unfold fat_set. pose proof (vo_count v Hv). by rewrite seqZ_cons by lia. Qed.

Lemma seqZ_copies : Forall (fun f => 1 <= f < fat_count v) (seqZ 1 (fat_count v - 1)).
Proof. apply list_relations.list.Forall_forall. intros f Hf. apply elem_of_seqZ in Hf. lia. Qed.

Lemma fat_set_frame s c x y : valid c -> ~ in_table y -> ld8 (image (fat_set v s c x)) y = ld8 (image s) y.
Proof.
  intros Hc Hy. pose proof (vo_count v Hv). rewrite fat_set_cons, put_copies_frame by (auto using seqZ_copies).
  unfold put_copy. rewrite flush_image, table_at_eq by lia. apply fat_put_only. intros Hin. apply Hy, (table_at_range 0 c y); [lia|done|lia].
Qed.

Lemma fat_get_at s d : fat_get v s d = get_at s (table_at 0) d.
Proof. unfold fat_get, get_at, sector, table_at. by rewrite Z.mul_0_l, Z.add_0_r. Qed.

Lemma fat_set_get s c x d : valid c -> valid d -> link_ok x ->
  fat_get v (fat_set v s c x) d = if decide (d = c) then x else fat_get v s d.
Proof.
  intros Hc Hd Hx. pose proof (vo_count v Hv). rewrite !fat_get_at, <-(fat_put_get s (table_at 0) c x d Hx), fat_set_cons.
  apply get_at_ext. intros y Hy. destruct (table_at_range 0 d y ltac:(lia) Hd Hy) as [_ [_ Hy1]].
  rewrite put_copies_frame by (auto using seqZ_copies; lia). unfold put_copy. by rewrite flush_image, table_at_eq by lia.
Qed.

Lemma fat_get_ext s s' d : valid d -> (forall x, in_table x -> ld8 (image s') x = ld8 (image s) x) -> fat_get v s' d = fat_get v s d.
Proof.
  intros Hd H. rewrite !fat_get_at. apply get_at_ext. intros x Hx. apply H. pose proof (vo_count v Hv).
  by apply (table_at_range 0 d x); [lia|..].
Qed.

(** ** Chains *)
Fixpoint chain s (c : Z) (cs : list Z) : Prop :=
  match cs with
  | [] => False
  | x :: rest =>
      x = c /\ valid c /\
      match rest with
      | [] => cluster_is_eoc v (fat_get v s c) = true
      | y :: _ => fat_get v s c = y /\ chain s y rest
      end
  end.

Lemma valid_not_eoc y : valid y -> cluster_is_eoc v y = false.
Proof.
  unfold valid, cluster_is_eoc. pose proof (vo_limit v Hv) as H. unfold limit_max in H. destruct (vol_type v); lia.
Qed.

Lemma chain_head s c cs : chain s c cs -> valid c /\ exists rest, cs = c :: rest.
Proof. destruct cs as [|x rest]; cbn; [done|]. intros (-> & Hc & _). eauto. Qed.

Lemma chain_valid s cs : forall c, chain s c cs -> Forall valid cs.
Proof.
  induction cs as [|x rest IH]; intros c; [done|]. cbn. intros (-> & Hc & H). constructor; [done|].
  destruct rest as [|y rest]; [constructor|]. destruct H as [_ H]. by eapply IH.
Qed.

Lemma chain_ext s s' cs : forall c, (forall x, x ∈ cs -> fat_get v s' x = fat_get v s x) -> chain s c cs -> chain s' c cs.
Proof.
  induction cs as [|x rest IH]; intros c E; [done|]. cbn. intros (-> & Hc & H). split; [done|]. split; [done|].
  rewrite E by set_solver. destruct rest as [|y rest]; [done|]. destruct H as [H1 H2]. split; [done|]. apply (IH y); [|done]. set_solver.
Qed.

Lemma chain_unique s cs : forall c cs', chain s c cs -> chain s c cs' -> cs = cs'.
Proof.
  induction cs as [|x rest IH]; intros c [|x' rest']; try done. cbn. intros (-> & Hc & H) (-> & _ & H'). f_equal.
  destruct rest as [|y rest], rest' as [|y' rest']; try done.
  - destruct H' as [<- H']. apply chain_head in H' as [Hy _]. rewrite valid_not_eoc in H; done.
  - destruct H as [<- H]. apply chain_head in H as [Hy _]. rewrite valid_not_eoc in H'; done.
  - destruct H as [Hy H], H' as [Hy' H']. subst y y'. by apply (IH _ _ H).
Qed.

Lemma chain_drop s cs : forall c i x, chain s c cs -> cs !! i = Some x -> chain s x (drop i cs).
Proof.
  induction cs as [|z rest IH]; intros c i x H Hi; [done|]. destruct i as [|i]; cbn in Hi |- *.
  - injection Hi as ->. assert (x = c) as -> by (by destruct H). done.
  - cbn in H. destruct H as (-> & Hc & H). destruct rest as [|y rest]; [done|]. destruct H as [_ H]. by eapply IH.
Qed.

Lemma chain_nodup s c cs : chain s c cs -> NoDup cs.
Proof.
  intros H. apply NoDup_alt. intros i j x Hi Hj.
  pose proof (chain_unique _ _ _ _ (chain_drop _ _ _ _ _ H Hi) (chain_drop _ _ _ _ _ H Hj)) as E.
  apply (f_equal length) in E. rewrite !length_drop in E. apply lookup_lt_Some in Hi, Hj. lia.
Qed.

Lemma chain_length s c cs : chain s c cs -> Z.of_nat (length cs) <= cluster_limit v - 2.
Proof.
  intros H. pose proof (chain_nodup _ _ _ H) as Hnd. pose proof (chain_valid _ _ _ H) as Hval.
  assert (Hsub : cs ⊆ seqZ 2 (cluster_limit v - 2)).
  { intros x Hx. rewrite list_relations.list.Forall_forall in Hval. specialize (Hval x Hx). apply elem_of_seqZ. unfold valid in Hval. lia. }
  pose proof (submseteq_length _ _ (NoDup_submseteq _ _ Hnd Hsub)) as L. rewrite length_seqZ in L. pose proof (vo_limit v Hv). lia.
Qed.

Lemma chain_next s c cs i x y : chain s c cs -> cs !! i = Some x -> cs !! S i = Some y -> next_cluster v s x = (0, y).
Proof.
  intros H Hx Hy. pose proof (chain_drop _ _ _ _ _ H Hx) as Hd. pose proof (chain_valid _ _ _ H) as Hval.
  rewrite (drop_S _ _ _ Hx), (drop_S _ _ _ Hy) in Hd. cbn in Hd. destruct Hd as (_ & Hvx & Hg & _).
  assert (Hvy : valid y) by (rewrite list_relations.list.Forall_forall in Hval; apply Hval; by eapply list_elem_of_lookup_2).
  unfold next_cluster. rewrite (proj2 (valid_true x) Hvx), Hg, (valid_not_eoc y Hvy), (proj2 (valid_true y) Hvy). done.
Qed.

Lemma chain_end s c cs i x : chain s c cs -> cs !! i = Some x -> S i = length cs -> next_cluster v s x = (1, 0).
Proof.
  intros H Hx Hi. pose proof (chain_drop _ _ _ _ _ H Hx) as Hd. rewrite (drop_S _ _ _ Hx), drop_ge in Hd by lia.
  cbn in Hd. destruct Hd as (_ & Hvx & Hg). unfold next_cluster. by rewrite (proj2 (valid_true x) Hvx), Hg.
Qed.

Lemma chain_used s c cs x : chain s c cs -> x ∈ cs -> fat_get v s x <> 0.
Proof.
  intros H Hx E. apply list_elem_of_lookup_1 in Hx as [i Hi]. pose proof (chain_drop _ _ _ _ _ H Hi) as Hd.
  rewrite (drop_S _ _ _ Hi) in Hd. cbn in Hd. destruct Hd as (_ & Hvx & Hg). rewrite E in Hg. destruct (drop (S i) cs) as [|y r].
  - unfold cluster_is_eoc in Hg. destruct (vol_type v); lia.
  - destruct Hg as [<- Hg]. apply chain_head in Hg as [[Hy _] _]. lia.
Qed.

Lemma cluster_eoc_ok : link_ok (cluster_eoc v) /\ cluster_is_eoc v (cluster_eoc v) = true.
Proof. unfold link_ok, cluster_is_eoc, cluster_eoc. destruct (vol_type v); lia. Qed.

Lemma valid_link y : valid y -> link_ok y.
Proof. unfold valid, link_ok, cluster_eoc. pose proof (vo_limit v Hv) as H. unfold limit_max in H. destruct (vol_type v); lia. Qed.

(** Appending a cluster that ends the chain. *)
Lemma chain_snoc s s' n cs : forall c, chain s c cs -> n ∉ cs -> valid n -> cluster_is_eoc v (fat_get v s' n) = true ->
  (forall x, x ∈ cs -> fat_get v s' x = if decide (Some x = list.last cs) then n else fat_get v s x) -> chain s' c (cs ++ [n]).
Proof.
  induction cs as [|x rest IH]; intros c; [done|]. cbn [chain app]. intros (-> & Hc & H) Hn Hv' He Hg. split; [done|]. split; [done|].
  destruct rest as [|y rest].
  - cbn. rewrite (Hg c) by set_solver. rewrite decide_True by done. done.
  - cbn [app]. destruct H as [H1 H2]. assert (Hcr : c ∉ y :: rest).
    { intros Hin. apply list_elem_of_lookup_1 in Hin as [i Hi]. pose proof (chain_drop _ _ _ _ _ H2 Hi) as Hd.
      assert (Hch : chain s c (c :: y :: rest)) by (cbn; eauto). pose proof (chain_unique _ _ _ _ Hd Hch) as E.
      apply (f_equal length) in E. rewrite length_drop in E. cbn in E. lia. }
    split.
    + rewrite (Hg c) by set_solver. rewrite decide_False; [done|]. intros E. apply Hcr. symmetry in E. rewrite last_cons_cons in E.
      by apply last_Some_elem_of in E.
    + apply (IH y); [done|set_solver|done|done|]. intros z Hz. rewrite (Hg z) by set_solver. done.
Qed.

(** ** Allocating and freeing *)
Definition cdata s (c : Z) : list Z := mem_bytes (image s) (data_at v c) (cluster_bytes v).

(** [s'] has the links of [s] but for the clusters of [cs], and the bytes of
    [s] outside of the table and these clusters. *)
Definition same_but (cs : list Z) s s' : Prop :=
  (forall d, valid d -> d ∉ cs -> fat_get v s' d = fat_get v s d) /\
  (forall x, ~ in_table x -> (forall d, d ∈ cs -> ~ in_cluster d x) -> ld8 (image s') x = ld8 (image s) x).

Lemma same_but_refl cs s : same_but cs s s.
Proof. done. Qed.

Lemma same_but_trans cs cs' s1 s2 s3 : cs ⊆ cs' -> same_but cs s1 s2 -> same_but cs' s2 s3 -> same_but cs' s1 s3.
Proof.
  intros Hsub [G1 B1] [G2 B2]. split; intros.
  - rewrite G2, G1 by set_solver. done.
  - rewrite B2, B1; auto.
Qed.

Lemma cdata_ext s s' c : (forall x, in_cluster c x -> ld8 (image s') x = ld8 (image s) x) -> cdata s' c = cdata s c.
Proof. intros H. apply mem_bytes_ext. exact H. Qed.

Lemma same_but_cdata cs s s' c : same_but cs s s' -> Forall valid cs -> valid c -> c ∉ cs -> cdata s' c = cdata s c.
Proof.
  intros [_ B] Hcs Hc Hn. rewrite list_relations.list.Forall_forall in Hcs. apply cdata_ext. intros x Hx.
  apply B; [by apply (cluster_not_table c)|]. intros d Hd Hdx. apply Hn. rewrite (cluster_disjoint c d x); auto.
Qed.

Definition no_free s : Prop := forall d, valid d -> fat_get v s d <> 0.

Lemma alloc_spec s :
  (fat_impl_alloc_cluster v s = (s, 0) /\ no_free s) \/
  exists s' c, fat_impl_alloc_cluster v s = (s', c) /\ valid c /\ fat_get v s c = 0 /\ fat_get v s' c = cluster_eoc v /\
    cdata s' c = replicate (Z.to_nat (cluster_bytes v)) 0 /\ same_but [c] s s'.
Proof.
  pose proof cluster_bytes_range as Hcb. unfold fat_impl_alloc_cluster.
  destruct (list_find (fun c => fat_get v s c = 0) (seqZ 2 (cluster_limit v - 2))) as [[i c]|] eqn:E.
  - right. apply list_find_Some in E as (Hi & Hz & _). apply lookup_seqZ in Hi as [-> Hi]. assert (Hc : valid (2 + Z.of_nat i)) by (unfold valid; lia).
    set (c := 2 + Z.of_nat i) in *. eexists _, c. split; [reflexivity|]. split; [done|]. split; [done|].
    set (s1 := fat_set v s c (cluster_eoc v)). set (s2 := set_image s1 (memset (image s1) (data_at v c) 0 (cluster_bytes v))).
    assert (Hfill : filled (image s1) (image s2) (data_at v c) 0 (cluster_bytes v)) by (apply (memset_filled _ _ 0); lia).
    assert (Hs2 : forall d, valid d -> fat_get v s2 d = fat_get v s1 d).
    { intros d Hd. apply (fat_get_ext s1 s2 d Hd). intros x Hx. rewrite Hfill. rewrite decide_False; [done|]. intros Hin.
      by destruct (cluster_not_table c x Hc Hin). }
    assert (G : forall d, fat_get v (fat_flush_bytes v s2 (data_at v c) (cluster_bytes v)) d = fat_get v s2 d)
      by (intros d; unfold fat_get; by rewrite flush_image).
    split; [rewrite G, Hs2 by done; unfold s1; rewrite fat_set_get by (done || apply cluster_eoc_ok); by rewrite decide_True|].
    split; [|split].
    + unfold cdata. rewrite flush_image. apply list_eq_same_length with (n := Z.to_nat (cluster_bytes v));
        [by rewrite length_replicate|by rewrite mem_bytes_length|]. intros j x y Hj Hx Hy. rewrite mem_bytes_lookup in Hx by lia.
      rewrite lookup_replicate_2 in Hy by lia. injection Hx as <-. injection Hy as <-. rewrite Hfill. by rewrite decide_True by lia.
    + intros d Hd Hn. rewrite G, Hs2 by done. unfold s1. rewrite fat_set_get by (done || apply cluster_eoc_ok).
      rewrite decide_False by set_solver. done.
    + intros x Hx Hn. rewrite flush_image, Hfill. rewrite decide_False by (apply (Hn c); set_solver). by apply fat_set_frame.
  - left. split; [done|]. intros d Hd Hz. eapply list_find_None, list_relations.list.Forall_forall in E; [by apply E|].
    apply elem_of_seqZ. unfold valid in Hd. lia.
Qed.

Lemma free_loop_spec cs : forall fuel s c, chain s c cs -> (length cs <= fuel)%nat ->
  let s' := free_chain_loop v fuel s c in (forall d, d ∈ cs -> fat_get v s' d = 0) /\
    (forall d, valid d -> d ∉ cs -> fat_get v s' d = fat_get v s d) /\ (forall x, ~ in_table x -> ld8 (image s') x = ld8 (image s) x).
Proof.
  assert (H0 : link_ok 0) by (unfold link_ok, cluster_eoc; destruct (vol_type v); lia).
  induction cs as [|x rest IH]; intros [|fuel] s c Hch Hf; cbn in Hch, Hf |- *; try done; try lia.
  pose proof (chain_nodup s c (x :: rest) Hch) as Hnd. destruct Hch as (-> & Hc & Hch). rewrite (proj2 (valid_true c) Hc). cbn [negb].
  apply list_relations.list.NoDup_cons in Hnd as [Hcr _].
  assert (G : forall d, valid d -> fat_get v (fat_set v s c 0) d = if decide (d = c) then 0 else fat_get v s d) by (intros; by apply fat_set_get).
  destruct rest as [|y rest].
  - rewrite Hch. cbn [orb]. split; [|split].
    + intros d Hd. assert (d = c) as -> by set_solver. rewrite G by done. by rewrite decide_True.
    + intros d Hd Hn. rewrite G by done. by rewrite decide_False by set_solver.
    + intros z Hz. by apply fat_set_frame.
  - destruct Hch as [Hg Hch]. pose proof (chain_head _ _ _ Hch) as [Hy _]. rewrite Hg, (valid_not_eoc y Hy), (proj2 (valid_true y) Hy). cbn [orb negb].
    pose proof (chain_valid _ _ _ Hch) as Hval. rewrite list_relations.list.Forall_forall in Hval.
    destruct (IH fuel (fat_set v s c 0) y) as (F1 & F2 & F3).
    { apply (chain_ext s); [|done]. intros z Hz. rewrite G by auto. rewrite decide_False by (intros ->; done). done. }
    { cbn in *. lia. }
    split; [|split].
    + intros d Hd. apply elem_of_cons in Hd as [->|Hd]; [|by apply F1]. rewrite F2 by done. rewrite G by done. by rewrite decide_True.
    + intros d Hd Hn. rewrite F2 by set_solver. rewrite G by done. by rewrite decide_False by set_solver.
    + intros z Hz. rewrite F3 by done. by apply fat_set_frame.
Qed.

Lemma free_chain_spec s c cs : chain s c cs -> let s' := fat_impl_free_chain v s c in
  (forall d, d ∈ cs -> fat_get v s' d = 0) /\
  (forall d, valid d -> d ∉ cs -> fat_get v s' d = fat_get v s d) /\ (forall x, ~ in_table x -> ld8 (image s') x = ld8 (image s) x).
Proof. intros H. apply free_loop_spec; [done|]. pose proof (chain_length _ _ _ H). lia. Qed.
End Layout.

(** ** An example volume

    6000 sectors of 512 bytes, one per cluster, two tables of 24 sectors and
    32 root entries, as a host test formats it. *)
Definition ex_boot (spf16 spf32 : Z) : bmem :=
  let m := put16 ∅ 11 512 in
  let m := st8 m 13 1 in
  let m := put16 m 14 1 in
  let m := st8 m 16 2 in
  let m := put16 m 17 32 in
  let m := put16 m 19 6000 in
  let m := put16 m 22 spf16 in
  put32 m 36 spf32.
Definition ex_size : Z := 6000 * 512.
Definition ex_volume (w : option (bmem -> Z -> list Z -> bmem)) : fat_volume bmem :=
  FatVolume ex_size 512 1 2 24 1 49 51 32 0 5951 FAT_TYPE_16 w.

Lemma bytes_ok_st_bytes bs : forall m a, Forall (fun x => 0 <= x < 256) bs -> bytes_ok m -> bytes_ok (st_bytes m a bs).
Proof.
  induction bs as [|b bs IH]; intros m a Hb Hm; cbn; [done|]. apply list_relations.list.Forall_cons in Hb as [Hb Hbs]. apply IH; [done|].
  intros x. rewrite ld_st. by case_decide.
Qed.
Lemma bytes_ok_put16 m a x : bytes_ok m -> bytes_ok (put16 m a x).
Proof. apply bytes_ok_st_bytes. repeat constructor; apply u8_range. Qed.
Lemma bytes_ok_put32 m a x : bytes_ok m -> bytes_ok (put32 m a x).
Proof. apply bytes_ok_st_bytes. repeat constructor; apply u8_range. Qed.
Lemma bytes_ok_st8 m a x : 0 <= x < 256 -> bytes_ok m -> bytes_ok (st8 m a x).
Proof. intros Hx Hm y. rewrite ld_st. by case_decide. Qed.
#[export] Hint Resolve bytes_ok_put16 bytes_ok_put32 : gaia.

Lemma ex_boot_bytes spf16 spf32 : bytes_ok (ex_boot spf16 spf32).
Proof.
  assert (bytes_ok ∅) by (intros a; unfold ld8; rewrite lookup_empty; cbn; lia).
  unfold ex_boot. apply bytes_ok_put32. do 3 apply bytes_ok_put16. apply bytes_ok_st8; [lia|]. apply bytes_ok_put16, bytes_ok_st8; [lia|]. by apply bytes_ok_put16.
Qed.

Lemma ex_mount w : fat_init (ex_boot 24 0) ex_size w = Some (ex_volume w).
Proof. vm_compute. reflexivity. Qed.

Lemma ex_volume_ok w : vol_ok (ex_volume w).
Proof.
  eapply (fat_init_ok (ex_boot 24 0) ex_size w); [apply ex_boot_bytes|unfold ex_size; lia|vm_compute; reflexivity|apply ex_mount].
Qed.

(** C38: an image that mounts has a sound layout, whatever its boot sector says, as long
    as the tables together have fewer than 2^32 sectors: clusters, the root
    directory and the tables lie inside the image, different clusters do
    not overlap each other or the tables, and setting the table entry
    of a cluster writes nowhere but in the tables. *)
Theorem fat_mount_safe {W} (m : bmem) (size : Z) (w : option (W -> Z -> list Z -> W)) (v : fat_volume W) :
  bytes_ok m -> size <= 2 ^ 36 -> table_sectors m < 2 ^ 32 -> fat_init m size w = Some v ->
  image_size v = size /\
  (forall x, in_table v x \/ in_root v x \/ (exists c, valid v c /\ in_cluster v c x) -> 0 <= x < size) /\
  (forall c x, valid v c -> in_cluster v c x -> ~ in_table v x /\ ~ in_root v x /\ forall d, valid v d -> in_cluster v d x -> d = c) /\
  (forall s c x y, valid v c -> ~ in_table v y -> ld8 (image (fat_set v s c x)) y = ld8 (image s) y).
Proof.
  intros Hm Hs Ht H. pose proof (fat_init_ok m size w v Hm Hs Ht H) as Hv.
  assert (E : image_size v = size) by (unfold fat_init in H; none_if H E0; none_if H E1; by eapply fat_mount_size).
  split; [done|]. split; [rewrite <-E; apply (regions_in_image v Hv)|]. split; [|intros; by apply fat_set_frame].
  intros c x Hc Hx. destruct (cluster_not_table v Hv c x Hc Hx). split; [done|]. split; [done|]. intros d Hd Hdx. by apply (cluster_disjoint v Hv d c x).
Qed.

Lemma fat_mount_safe_witness : image_size (ex_volume None) = ex_size /\ forall x, in_table (ex_volume None) x -> 0 <= x < ex_size.
Proof.
  destruct (fat_mount_safe (ex_boot 24 0) ex_size None (ex_volume None) (ex_boot_bytes 24 0)
    ltac:(unfold ex_size; lia) ltac:(vm_compute; reflexivity) (ex_mount None)) as (E & Hin & _).
  split; [exact E|]. intros x Hx. apply Hin. by left.
Defined.

(** The number of sectors of the tables is not checked. A boot sector whose tables together
    have 2^32 + 48 sectors mounts, because the product wraps to 48, and then
    marking a cluster used writes the second copy of the entry far outside
    of the image. *)
Theorem fat_mount_wraps : exists (m : bmem) (v : fat_volume bmem) (c y : Z),
  bytes_ok m /\ fat_init m ex_size None = Some v /\ valid v c /\ image_size v = ex_size /\ ex_size + 2 ^ 39 < y /\
  ld8 m y = 0 /\ ld8 (image (fat_set v (FatState m ∅) c (cluster_eoc v))) y = 255.
Proof.
  exists (ex_boot 0 (2 ^ 31 + 24)), (FatVolume ex_size 512 1 2 (2 ^ 31 + 24) 1 49 51 32 0 5951 FAT_TYPE_16 None), 2, ((2 ^ 31 + 25) * 512 + 4).
  split; [apply ex_boot_bytes|]. split; [vm_compute; reflexivity|]. split; [unfold valid; cbn; lia|]. split; [done|].
  split; [unfold ex_size; lia|]. split; vm_compute; reflexivity.
Qed.
