(* ===== verification/FatFileSpec.v ===== *)
(** FAT files ([kernel/fs/fat/fat_file.c], [fat_vfs.c]): a file is a sequence
    of bytes, read and written at any position, stored in the chain of
    clusters its directory entry names. *)
From S2P Require Import Prelude KString KStringSpec Fat FatSpec.

(** ** Overwriting a part of a byte sequence *)
Lemma copy_to_app_l R Z0 off d : 0 <= off -> off + zlen d <= zlen R -> copy_to (R ++ Z0) off d = copy_to R off d ++ Z0.
Proof.
  unfold copy_to, zlen. intros H1 H2. rewrite take_app_le by lia. rewrite drop_app_le by lia. by rewrite <-!app_assoc.
Qed.

Lemma copy_to_copy_to R off d1 d2 : 0 <= off -> off + zlen d1 <= zlen R ->
  copy_to (copy_to R off d1) (off + zlen d1) d2 = copy_to R off (d1 ++ d2).
Proof.
  unfold copy_to, zlen. intros H1 H2. set (a := take (Z.to_nat off) R).
  assert (La : length a = Z.to_nat off) by (unfold a; rewrite length_take; lia).
  replace (Z.to_nat (off + Z.of_nat (length d1))) with (length (a ++ d1)) by (rewrite length_app; lia).
  rewrite (app_assoc a d1), take_app_length, <-!app_assoc. f_equal. f_equal. f_equal. rewrite (app_assoc a d1).
  rewrite drop_app_ge by (rewrite !length_app; lia). rewrite drop_drop, !length_app. f_equal. lia.
Qed.

(** What an overwrite does to a prefix that reaches to the overwritten part. *)
Lemma take_copy_to R n off d : 0 <= off <= n -> n <= zlen R -> off + zlen d <= zlen R ->
  take (Z.to_nat (n `max` (off + zlen d))) (copy_to R off d) = copy_to (take (Z.to_nat n) R) off d.
Proof.
  unfold zlen. intros H1 H2 H3. unfold copy_to. rewrite take_take. replace (_ `min` _)%nat with (Z.to_nat off) by lia.
  rewrite take_app_ge by (rewrite length_take; lia). f_equal. rewrite length_take, take_app_ge by lia. f_equal.
  rewrite skipn_firstn_comm. f_equal. lia.
Qed.

Section Files.
Context {W : Type} (v : fat_volume W) (Hv : vol_ok v) (rtc_read : W -> rtc_time * W).
Implicit Types (s : fat_state W) (f : fat_file).

Abbreviation cb := (cluster_bytes v).
Abbreviation get := (fat_get v).

(** ** The bytes of a chain *)
Definition raw s (cs : list Z) : list Z := concat (cdata v s <$> cs).

Lemma cdata_length s c : length (cdata v s c) = Z.to_nat cb.
Proof. apply mem_bytes_length. Qed.

Lemma raw_length s cs : zlen (raw s cs) = zlen cs * cb.
Proof.
  pose proof (cluster_bytes_range v Hv). unfold zlen, raw. induction cs as [|c cs IH]; cbn [fmap list_fmap concat length]; [done|].
  rewrite length_app, cdata_length. lia.
Qed.

Lemma raw_lookup s cs : forall k off c, cs !! k = Some c -> 0 <= off < cb ->
  raw s cs !! Z.to_nat (Z.of_nat k * cb + off) = Some (ld8 (image s) (data_at v c + off)).
Proof.
  pose proof (cluster_bytes_range v Hv) as Hcb. induction cs as [|d cs IH]; intros k off c Hk Ho; [done|]. unfold raw. cbn [fmap list_fmap concat].
  destruct k as [|k]; cbn in Hk.
  - injection Hk as ->. rewrite lookup_app_l by (rewrite cdata_length; lia). unfold cdata. rewrite mem_bytes_lookup by lia. do 2 f_equal. lia.
  - rewrite lookup_app_r by (rewrite cdata_length; lia). rewrite cdata_length. rewrite <-(IH k off c Hk Ho). f_equal. lia.
Qed.

Lemma raw_app s cs cs' : raw s (cs ++ cs') = raw s cs ++ raw s cs'.
Proof. unfold raw. by rewrite fmap_app, concat_app. Qed.

Lemma raw_ext s s' cs : (forall c, c ∈ cs -> cdata v s' c = cdata v s c) -> raw s' cs = raw s cs.
Proof. intros H. unfold raw. f_equal. apply list_fmap_ext. intros i c Hi. apply H. by eapply list_elem_of_lookup_2. Qed.

(** Position [p] lies in cluster [p / cb] of the chain, at offset [p mod cb]. *)
Lemma split_pos p : 0 <= p -> p = p / cb * cb + p mod cb /\ 0 <= p mod cb < cb /\ 0 <= p / cb.
Proof.
  intros Hp. pose proof (cluster_bytes_range v Hv). pose proof (Z.div_mod p cb). pose proof (Z.mod_pos_bound p cb).
  pose proof (Z.div_pos p cb). lia.
Qed.

Lemma raw_at s cs p c : 0 <= p -> cs !! Z.to_nat (p / cb) = Some c -> raw s cs !! Z.to_nat p = Some (ld8 (image s) (data_at v c + p mod cb)).
Proof.
  intros Hp Hc. destruct (split_pos p Hp) as (E & Ho & Hq). rewrite <-(raw_lookup s cs _ _ c Hc Ho). f_equal. rewrite Z2Nat.id by lia. by rewrite <-E.
Qed.

(** Reading and writing inside one cluster of a chain. *)
Lemma raw_slice s cs p n c : 0 <= p -> 0 <= n -> cs !! Z.to_nat (p / cb) = Some c -> p mod cb + n <= cb ->
  mem_bytes (image s) (data_at v c + p mod cb) n = bytes_at (raw s cs) p n.
Proof.
  intros Hp Hn Hc Hm. destruct (split_pos p Hp) as (E & Ho & Hq). pose proof (cluster_bytes_range v Hv).
  pose proof (raw_length s cs) as L. unfold zlen in L. apply lookup_lt_Some in Hc as Hlt.
  assert (Hb : p + n <= Z.of_nat (length (raw s cs))) by nia.
  apply list_eq_same_length with (n := Z.to_nat n); [by apply bytes_at_length|by rewrite mem_bytes_length|].
  intros i x y Hi Hx Hy. rewrite mem_bytes_lookup in Hx by lia. injection Hx as <-. rewrite bytes_at_lookup in Hy by lia.
  replace (Z.to_nat p + i)%nat with (Z.to_nat (Z.of_nat (Z.to_nat (p / cb)) * cb + (p mod cb + Z.of_nat i))) in Hy by (rewrite (Z2Nat.id (p / cb)) by lia; lia).
  rewrite (raw_lookup s cs _ _ c Hc) in Hy by lia. injection Hy as <-. f_equal. lia.
Qed.

Lemma raw_store s s' cs p d c : NoDup cs -> Forall (valid v) cs -> 0 <= p -> cs !! Z.to_nat (p / cb) = Some c -> p mod cb + zlen d <= cb ->
  image s' = st_bytes (image s) (data_at v c + p mod cb) d -> raw s' cs = copy_to (raw s cs) p d.
Proof.
  intros Hnd Hval Hp Hc Hm Hs'. destruct (split_pos p Hp) as (E & Ho & Hq). pose proof (cluster_bytes_range v Hv) as Hcb.
  pose proof (raw_length s cs) as L. pose proof (raw_length s' cs) as L'. unfold zlen in *. apply lookup_lt_Some in Hc as Hlt.
  assert (Hb : p + Z.of_nat (length d) <= Z.of_nat (length (raw s cs))) by nia.
  apply list_eq_same_length with (n := length (raw s cs)); [by apply copy_to_length|lia|].
  intros i x y Hi Hx Hy. rewrite copy_to_lookup in Hy by done.
  destruct (split_pos (Z.of_nat i) ltac:(lia)) as (Ei & Hoi & Hqi). set (k := Z.to_nat (Z.of_nat i / cb)).
  assert (Hk : (k < length cs)%nat) by (unfold k; nia). destruct (lookup_lt_is_Some_2 _ _ Hk) as [ci Hci].
  pose proof (raw_at s' cs (Z.of_nat i) ci ltac:(lia) Hci) as R'. pose proof (raw_at s cs (Z.of_nat i) ci ltac:(lia) Hci) as R.
  rewrite Nat2Z.id in R, R'. rewrite R' in Hx. injection Hx as <-. rewrite Hs', ld_st_bytes. clear Hs' R' L'.
  destruct (decide (p <= Z.of_nat i < _)) as [Hin|Hin].
  - assert (Z.of_nat i / cb = p / cb) as Eq by nia. unfold k in Hci. rewrite Eq, Hc in Hci. injection Hci as <-.
    rewrite decide_True by nia. rewrite list_lookup_total_alt. 
    replace (Z.to_nat (data_at v c + Z.of_nat i mod cb - (data_at v c + p mod cb))) with (i - Z.to_nat p)%nat by nia. by rewrite Hy.
  - rewrite R in Hy. injection Hy as <-. rewrite decide_False; [done|]. intros Hcl. apply Hin.
    rewrite list_relations.list.Forall_forall in Hval.
    assert (ci = c) as ->.
    { apply (cluster_disjoint v Hv ci c (data_at v ci + Z.of_nat i mod cb)); [apply Hval; by eapply list_elem_of_lookup_2..| |]; unfold in_cluster; lia. }
    assert (k = Z.to_nat (p / cb)) as Ek by (by eapply NoDup_lookup). unfold k in Ek. nia.
Qed.

(** ** Directory entries

    The entry of a file with clusters [cs] lies in the image, outside of the
    table, of these clusters and of all free clusters. *)
Definition in_entry (e x : Z) : Prop := e <= x < e + 32.
Definition entry_ok s (e : Z) (cs : list Z) : Prop :=
  0 <= e /\ e + 32 <= image_size v /\
  forall x, in_entry e x -> ~ in_table v x /\ forall d, valid v d -> in_cluster v d x -> get s d <> 0 /\ d ∉ cs.

(** A change inside the entry only. *)
Definition entry_only s s' (e : Z) : Prop := forall x, ~ in_entry e x -> ld8 (image s') x = ld8 (image s) x.

Lemma entry_only_get s s' e cs d : entry_only s s' e -> entry_ok s e cs -> valid v d -> get s' d = get s d.
Proof.
  intros H (_ & _ & E) Hd. apply (fat_get_ext v Hv); [done|]. intros x Hx. apply H. intros Hin. by apply (E x Hin).
Qed.

Lemma entry_only_cdata s s' e cs d : entry_only s s' e -> entry_ok s e cs -> valid v d -> d ∈ cs -> cdata v s' d = cdata v s d.
Proof.
  intros H (_ & _ & E) Hd Hin. apply cdata_ext. intros x Hx. apply H. intros He. by apply (proj2 (E x He) d Hd Hx).
Qed.

Lemma entry_only_raw s s' e cs : entry_only s s' e -> entry_ok s e cs -> Forall (valid v) cs -> raw s' cs = raw s cs.
Proof.
  intros H He Hval. apply raw_ext. intros c Hc. rewrite list_relations.list.Forall_forall in Hval. eapply entry_only_cdata; eauto.
Qed.

Lemma entry_only_ok s s' e cs : entry_only s s' e -> entry_ok s e cs -> entry_ok s' e cs.
Proof.
  intros H He. pose proof He as (H1 & H2 & H3). split; [done|]. split; [done|]. intros x Hx. destruct (H3 x Hx) as [H4 H5]. split; [done|].
  intros d Hd Hin. destruct (H5 d Hd Hin). split; [|done]. by rewrite (entry_only_get s s' e cs).
Qed.

Lemma entry_only_chain s s' e cs c : entry_only s s' e -> entry_ok s e cs -> chain v s c cs -> chain v s' c cs.
Proof.
  intros H He Hc. pose proof (chain_valid _ _ _ _ Hc) as Hval. rewrite list_relations.list.Forall_forall in Hval.
  apply (chain_ext v Hv s); [|done]. intros x Hx. eapply entry_only_get; eauto.
Qed.

Lemma entry_only_trans s1 s2 s3 e : entry_only s1 s2 e -> entry_only s2 s3 e -> entry_only s1 s3 e.
Proof. intros H1 H2 x Hx. by rewrite H2, H1. Qed.

Lemma flush_only s e a n : entry_only s (fat_flush_bytes v s a n) e.
Proof. intros x _. by rewrite flush_image. Qed.

(** ** Growing a chain *)

(** Outside of the clusters [cs] and of the bytes [P] nothing has changed but
    the table, and there only the links of [cs]. *)
Definition others (P : Z -> Prop) (cs : list Z) s s' : Prop :=
  (forall d, valid v d -> d ∉ cs -> get s' d = get s d) /\
  (forall x, ~ in_table v x -> (forall d, d ∈ cs -> ~ in_cluster v d x) -> ~ P x -> ld8 (image s') x = ld8 (image s) x).

Lemma others_trans P cs cs' s1 s2 s3 : cs ⊆ cs' -> others P cs s1 s2 -> others P cs' s2 s3 -> others P cs' s1 s3.
Proof.
  intros Hsub [G1 B1] [G2 B2]. split; intros.
  - rewrite G2, G1; auto.
  - rewrite B2, B1; auto.
Qed.

(** [s'] extends the chain [cs] of [s] by the clusters [new], which were free, and
    has [d] written at position [p] of the longer chain, which is zero where
    it is new; everything else is as in [s]. *)
Definition written (P : Z -> Prop) s s' (c : Z) (cs new : list Z) (p : Z) (d : list Z) : Prop :=
  chain v s' c (cs ++ new) /\ raw s' (cs ++ new) = copy_to (raw s cs ++ replicate (length new * Z.to_nat cb) 0) p d /\
  Forall (fun d => valid v d /\ get s d = 0) new /\ others P (cs ++ new) s s'.

Lemma copy_to_nil (l : list Z) p : copy_to l p [] = l.
Proof. unfold copy_to. cbn. rewrite Nat.add_0_r. apply take_drop. Qed.

Lemma written_refl P s c cs p : chain v s c cs -> written P s s c cs [] p [].
Proof.
  intros H. unfold written. rewrite copy_to_nil, !app_nil_r. split; [done|]. split; [cbn; by rewrite ?app_nil_r|]. split; [constructor|done].
Qed.

Lemma written_entry P e s s' c cs new p d : written P s s' c cs new p d -> entry_ok s e cs -> entry_ok s' e (cs ++ new).
Proof.
  intros (_ & _ & Hnew & Hsame) (H1 & H2 & H3). split; [done|]. split; [done|]. intros x Hx. destruct (H3 x Hx) as [H4 H5].
  split; [done|]. clear d. intros d Hd Hin. destruct (H5 d Hd Hin) as [Hg Hn]. rewrite list_relations.list.Forall_forall in Hnew.
  assert (d ∉ cs ++ new) by (rewrite elem_of_app; intros [?|Hdn]; [done|]; by destruct (Hnew d Hdn)).
  split; [|done]. by rewrite (proj1 Hsame).
Qed.

(** Linking one new cluster behind the last. *)
Lemma advance_alloc P s c cs k x : chain v s c cs -> cs !! k = Some x -> S k = length cs ->
  (advance v s x = (s, None) /\ no_free v s) \/ exists s' n, advance v s x = (s', Some n) /\ forall p, written P s s' c cs [n] p [].
Proof.
  intros Hch Hk Hlen. unfold advance. rewrite (chain_end v s c cs k x Hch Hk Hlen). cbn [Z.eqb Pos.eqb].
  pose proof (chain_valid _ _ _ _ Hch) as Hval. pose proof Hval as Hval'. rewrite list_relations.list.Forall_forall in Hval.
  assert (Hx : x ∈ cs) by (by eapply list_elem_of_lookup_2).
  destruct (alloc_spec v Hv s) as [[-> Hn]|(s1 & n & -> & Hvn & Hz & He & Hd & Hs1)]; [left; done|right].
  assert ((n =? 0) = false) as -> by (destruct Hvn; lia). eexists _, n. split; [reflexivity|].
  assert (Hncs : n ∉ cs) by (intros Hin; by apply (chain_used v s c cs n Hch Hin)).
  assert (Hnx : n <> x) by (intros ->; done). assert (Hlx : list.last cs = Some x) by (rewrite last_lookup, <-Hlen; done).
  set (s2 := fat_set v s1 x n). assert (G : forall d, valid v d -> get s2 d = if decide (d = x) then n else get s1 d).
  { intros d Hvd. apply (fat_set_get v Hv); [auto|done|by apply (valid_link v Hv)]. }
  assert (B : forall d, valid v d -> cdata v s2 d = cdata v s1 d).
  { intros d Hvd. apply cdata_ext. intros y Hy. apply (fat_set_frame v Hv); [auto|]. by apply (cluster_not_table v Hv d). }
  assert (Hcs2 : forall d, d ∈ cs -> cdata v s2 d = cdata v s d).
  { intros d Hdin. rewrite B by auto. apply (same_but_cdata v Hv [n]); [done|by constructor|auto|]. intros E%list_elem_of_singleton. by subst d. }
  intros p. split; [|split; [|split]].
  - apply (chain_snoc v Hv s); [done|done|done| |].
    + rewrite G by done. rewrite decide_False by done. rewrite He. apply cluster_eoc_ok.
    + intros d Hdin. rewrite G by auto. rewrite Hlx. destruct (decide (d = x)) as [->|Hne]; [by rewrite decide_True|].
      rewrite decide_False by congruence. apply Hs1; [auto|]. intros E%list_elem_of_singleton. by subst d.
  - rewrite copy_to_nil, raw_app, (raw_ext s s2 cs Hcs2). f_equal. unfold raw. cbn [fmap list_fmap concat]. rewrite app_nil_r, B, Hd by done. f_equal. cbn. lia.
  - by constructor.
  - split.
    + intros d Hvd Hn. rewrite G by done. rewrite elem_of_app, list_elem_of_singleton in Hn. rewrite decide_False by (intros ->; tauto).
      apply Hs1; [done|]. rewrite list_elem_of_singleton. tauto.
    + intros y Hy Hn _. unfold s2. rewrite (fat_set_frame v Hv) by auto. apply Hs1; [done|]. intros d Hdin. apply Hn. set_solver.
Qed.

Lemma advance_next s c cs k x y : chain v s c cs -> cs !! k = Some x -> cs !! S k = Some y -> advance v s x = (s, Some y).
Proof. intros Hch Hx Hy. unfold advance. by rewrite (chain_next v Hv s c cs k x y). Qed.

Lemma written_trans P s s1 s2 c cs n1 n2 p d1 d2 : 0 <= p -> p + zlen d1 <= zlen (cs ++ n1) * cb ->
  written P s s1 c cs n1 p d1 -> written P s1 s2 c (cs ++ n1) n2 (p + zlen d1) d2 -> written P s s2 c cs (n1 ++ n2) p (d1 ++ d2).
Proof.
  intros Hp Hb (C1 & R1 & F1 & S1) (C2 & R2 & F2 & S2). pose proof (cluster_bytes_range v Hv). split; [by rewrite app_assoc|]. split; [|split].
  - rewrite app_assoc, R2, R1. assert (HL : p + zlen d1 <= zlen (raw s cs ++ replicate (length n1 * Z.to_nat cb) 0)).
    { unfold zlen in *. rewrite length_app, length_replicate. pose proof (raw_length s cs) as L. unfold zlen in L. rewrite length_app in Hb. lia. }
    rewrite <-(copy_to_app_l _ _ p d1) by done. rewrite copy_to_copy_to by (done || (unfold zlen in *; rewrite length_app; lia)).
    rewrite <-app_assoc, <-replicate_add. do 3 f_equal. rewrite length_app. lia.
  - apply list_relations.list.Forall_app. split; [done|]. rewrite list_relations.list.Forall_forall in F2 |- *. intros d Hd.
    destruct (F2 d Hd) as [Hvd Hz]. split; [done|]. rewrite <-(proj1 S1); [done..|].
    intros Hin. by apply (chain_used v s1 c (cs ++ n1) d C1 Hin).
  - rewrite app_assoc. apply (others_trans P (cs ++ n1) _ s s1 s2); [set_solver|done|done].
Qed.

Definition room (cs : list Z) (p : Z) : Prop := 0 <= p /\ p < zlen cs * cb.

Lemma lookup_room (cs : list Z) p x : 0 <= p -> cs !! Z.to_nat (p / cb) = Some x -> room cs p.
Proof.
  intros Hp Hx. destruct (split_pos p Hp) as (E & Ho & Hq). apply lookup_lt_Some in Hx. split; [done|]. unfold zlen. nia.
Qed.

(** One chunk. *)
Lemma store_chunk P s c cs p x d : chain v s c cs -> 0 <= p -> cs !! Z.to_nat (p / cb) = Some x -> p mod cb + zlen d <= cb ->
  written P s (fat_flush_bytes v (set_image s (st_bytes (image s) (data_at v x + p mod cb) d)) (data_at v x + p mod cb) (zlen d)) c cs [] p d.
Proof.
  intros Hch Hp Hx Hd. pose proof (chain_valid _ _ _ _ Hch) as Hval. pose proof Hval as Hv'. rewrite list_relations.list.Forall_forall in Hv'.
  assert (Hxin : x ∈ cs) by (by eapply list_elem_of_lookup_2). set (s' := fat_flush_bytes _ _ _ _).
  assert (Hi : image s' = st_bytes (image s) (data_at v x + p mod cb) d) by (unfold s'; by rewrite flush_image).
  destruct (split_pos p Hp) as (_ & Ho & _).
  assert (O : forall y, ~ in_cluster v x y -> ld8 (image s') y = ld8 (image s) y).
  { intros y Hy. rewrite Hi. apply only_st_bytes. unfold in_cluster, zlen in *. lia. }
  assert (G : forall y, valid v y -> get s' y = get s y).
  { intros y Hy. apply (fat_get_ext v Hv); [done|]. intros z Hz. apply O. intros Hin. by destruct (cluster_not_table v Hv x z (Hv' x Hxin) Hin). }
  unfold written. rewrite !app_nil_r. cbn [length Nat.mul replicate]. rewrite ?app_nil_r. split; [|split; [|split]].
  - apply (chain_ext v Hv s); [|done]. auto.
  - apply (raw_store s s' cs p d x); try done. by eapply chain_nodup.
  - constructor.
  - split; [auto|]. intros y _ Hy _. apply O. auto.
Qed.

Definition at_pos f (c p : Z) : fat_file := FatFile (first_cluster f) c (ff_size f) p (dir_ent f).

(** The size of the chunk at position [p] of what is left to write. *)
Definition chunk_of (p n : Z) : Z := if n <? cb - p mod cb then n else cb - p mod cb.

Lemma chunk_range p n : 0 <= p -> 0 < n -> 0 < chunk_of p n <= n /\ p mod cb + chunk_of p n <= cb /\
  (chunk_of p n < n -> (p + chunk_of p n) mod cb = 0 /\ (p + chunk_of p n) / cb = p / cb + 1) /\ (p + chunk_of p n - 1) / cb = p / cb.
Proof.
  intros Hp Hn. destruct (split_pos p Hp) as (E & Ho & Hq). pose proof (cluster_bytes_range v Hv). unfold chunk_of.
  assert (Hd : forall k, 0 < k -> p mod cb + k <= cb -> (p + k - 1) / cb = p / cb).
  { intros k Hk Hm. symmetry. apply (Z.div_unique _ _ _ (p mod cb + k - 1)); lia. }
  destruct (Z.ltb_spec n (cb - p mod cb)).
  - split; [lia|]. split; [lia|]. split; [lia|]. apply Hd; lia.
  - split; [lia|]. split; [lia|]. split; [|apply Hd; lia]. intros _. split.
    + replace (p + (cb - p mod cb)) with ((p / cb + 1) * cb) by lia. apply Z.mod_mul. lia.
    + symmetry. apply (Z.div_unique _ _ _ 0); lia.
Qed.

(** What a pass of [fat_write_loop] does before it goes on. *)
Lemma write_loop_step P fuel s f buf total c cs : chain v s c cs -> 0 <= ff_pos f -> ff_pos f + zlen buf < 2 ^ 32 -> buf <> [] ->
  cs !! Z.to_nat (ff_pos f / cb) = Some (cur_cluster f) ->
  let k := chunk_of (ff_pos f) (zlen buf) in
  exists s1, written P s s1 c cs [] (ff_pos f) (take (Z.to_nat k) buf) /\
    fat_write_loop v (S fuel) s f buf total =
      (if zlen buf =? k then fat_write_loop v fuel s1 (at_pos f (cur_cluster f) (ff_pos f + k)) [] (total + k) else
       let '(s2, next) := advance v s1 (cur_cluster f) in
       match next with
       | None => (s2, at_pos f (cur_cluster f) (ff_pos f + k), total + k)
       | Some n => fat_write_loop v fuel s2 (at_pos f n (ff_pos f + k)) (drop (Z.to_nat k) buf) (total + k)
       end).
Proof.
  intros Hch Hp Hlen Hne Hcur k. assert (Hn : 0 < zlen buf) by (unfold zlen; destruct buf; [done|cbn; lia]).
  destruct (chunk_range (ff_pos f) (zlen buf) Hp Hn) as (Hk & Hkc & Hk2 & _). fold k in Hk, Hkc, Hk2.
  assert (Hval : valid v (cur_cluster f)).
  { pose proof (chain_valid _ _ _ _ Hch) as HF. rewrite list_relations.list.Forall_forall in HF. apply HF. by eapply list_elem_of_lookup_2. }
  assert (Htk : zlen (take (Z.to_nat k) buf) = k) by (unfold zlen in *; rewrite length_take; lia).
  pose proof (store_chunk P s c cs (ff_pos f) (cur_cluster f) (take (Z.to_nat k) buf) Hch Hp Hcur ltac:(lia)) as Hw. rewrite Htk in Hw.
  eexists. split; [exact Hw|]. cbn [fat_write_loop]. fold (zlen buf). replace (zlen buf =? 0) with false by lia.
  rewrite (proj1 (data_at_eq v Hv _ Hval)). fold (chunk_of (ff_pos f) (zlen buf)). fold k. cbn [ff_pos cur_cluster].
  rewrite u32_small by lia. destruct (Z.eqb_spec (zlen buf) k) as [Ek|Ek].
  - replace (zlen buf - k =? 0) with true by lia. cbn [negb]. rewrite andb_false_r. rewrite drop_ge by (unfold zlen in *; lia). done.
  - replace (zlen buf - k =? 0) with false by lia. rewrite (proj1 (Hk2 ltac:(lia))). cbn [Z.eqb negb andb]. by destruct (advance _ _ _) as [? [?|]].
Qed.

(** What the loop has done when it ends. *)
Definition write_post (P : Z -> Prop) s (c : Z) (cs : list Z) f (buf : list Z) (total : Z) (r : fat_state W * fat_file * Z) : Prop :=
  exists s' x k new, r = (s', at_pos f x (ff_pos f + k), total + k) /\
    0 <= k <= zlen buf /\ written P s s' c cs new (ff_pos f) (take (Z.to_nat k) buf) /\ (k = zlen buf \/ no_free v s') /\
    (if decide (buf = []) then x = cur_cluster f else 0 < k /\ (cs ++ new) !! Z.to_nat ((ff_pos f + k - 1) / cb) = Some x).

Lemma write_post_more P s s2 c cs n1 f x k buf total r : 0 <= ff_pos f -> 0 < k < zlen buf ->
  written P s s2 c cs n1 (ff_pos f) (take (Z.to_nat k) buf) -> ff_pos f + k <= zlen (cs ++ n1) * cb ->
  write_post P s2 c (cs ++ n1) (at_pos f x (ff_pos f + k)) (drop (Z.to_nat k) buf) (total + k) r -> write_post P s c cs f buf total r.
Proof.
  intros Hp Hk Hw Hb (s' & y & k2 & new & -> & Hk2 & Hw2 & Hfull & Hcur). unfold zlen in Hk, Hk2. rewrite length_drop in Hk2. cbn [ff_pos at_pos] in *.
  assert (Htk : zlen (take (Z.to_nat k) buf) = k) by (unfold zlen in *; rewrite length_take; lia).
  rewrite decide_False in Hcur by (intros E; apply (f_equal length) in E; rewrite length_drop in E; cbn in E; lia).
  rewrite <-app_assoc in Hcur. exists s', y, (k + k2), (n1 ++ new). rewrite !Z.add_assoc. split; [done|]. split; [unfold zlen; lia|]. split; [|split].
  - replace (take (Z.to_nat (k + k2)) buf) with (take (Z.to_nat k) buf ++ take (Z.to_nat k2) (drop (Z.to_nat k) buf))
      by (rewrite take_take_drop; f_equal; lia).
    eapply written_trans; [done| |exact Hw|]; rewrite Htk; done.
  - destruct Hfull as [->|?]; [left|by right]. unfold zlen. rewrite length_drop. lia.
  - rewrite decide_False by (intros ->; cbn in *; lia). split; [lia|]. apply Hcur.
Qed.

Lemma write_loop_spec P fuel : forall s f buf total c cs, chain v s c cs -> 0 <= ff_pos f -> ff_pos f + zlen buf < 2 ^ 32 ->
  cs !! Z.to_nat (ff_pos f / cb) = Some (cur_cluster f) -> (length buf < fuel)%nat ->
  write_post P s c cs f buf total (fat_write_loop v fuel s f buf total).
Proof.
  induction fuel as [|fuel IH]; intros s f buf total c cs Hch Hp Hlen Hcur Hf; [lia|].
  destruct (decide (buf = [])) as [->|Hne].
  { exists s, (cur_cluster f), 0, []. rewrite !Z.add_0_r. split; [by destruct f|]. split; [done|]. split; [by apply written_refl|].
    split; [by left|]. by rewrite decide_True. }
  assert (Hn : 0 < zlen buf) by (unfold zlen; destruct buf; [done|cbn; lia]).
  destruct (write_loop_step P fuel s f buf total c cs Hch Hp Hlen Hne Hcur) as (s1 & Hw & ->).
  destruct (chunk_range (ff_pos f) (zlen buf) Hp Hn) as (Hk & Hkc & Hk2 & Hk3). set (k := chunk_of (ff_pos f) (zlen buf)) in *.
  destruct (split_pos (ff_pos f) Hp) as (Ep & Ho & Hq). apply lookup_lt_Some in Hcur as Hlt.
  assert (Hb : ff_pos f + k <= zlen cs * cb) by (unfold zlen; nia).
  pose proof Hw as (Hch1 & _). rewrite app_nil_r in Hch1.
  destruct (Z.eqb_spec (zlen buf) k) as [Ek|Ek].
  { destruct fuel as [|fuel]; [unfold zlen in *; lia|]. exists s1, (cur_cluster f), k, []. split; [done|]. split; [lia|]. split; [done|].
    split; [auto|]. rewrite decide_False by done. split; [lia|]. by rewrite app_nil_r, Hk3. }
  destruct (Hk2 ltac:(lia)) as [Hm Hd].
  assert (Hl : zlen (drop (Z.to_nat k) buf) = zlen buf - k) by (unfold zlen in *; rewrite length_drop; lia).
  assert (Hidx : Z.to_nat ((ff_pos f + k) / cb) = S (Z.to_nat (ff_pos f / cb))) by lia.
  destruct (decide (S (Z.to_nat (ff_pos f / cb)) = length cs)) as [Hend|Hend].
  - destruct (advance_alloc P s1 c cs _ _ Hch1 Hcur Hend) as [[-> Hfull]|(s2 & n & -> & Hw2)].
    { exists s1, (cur_cluster f), k, []. split; [done|]. split; [lia|]. split; [done|]. split; [by right|].
      rewrite decide_False by done. split; [lia|]. by rewrite app_nil_r, Hk3. }
    assert (Hw' : written P s s2 c cs [n] (ff_pos f) (take (Z.to_nat k) buf)).
    { rewrite <-(app_nil_r (take _ _)). apply (written_trans P s s1 s2 c cs [] [n]); [done| |done|rewrite app_nil_r; apply Hw2].
      rewrite app_nil_r. unfold zlen in *. rewrite length_take. lia. }
    apply (write_post_more P s s2 c cs [n] f n k); [done|lia|done|unfold zlen in *; rewrite length_app; cbn; lia|].
    apply IH; cbn [ff_pos at_pos cur_cluster]; try lia; [apply Hw'| |unfold zlen in *; lia].
    rewrite Hidx, Hend. by rewrite lookup_app_r, Nat.sub_diag by lia.
  - destruct (lookup_lt_is_Some_2 cs (S (Z.to_nat (ff_pos f / cb)))) as [y Hy]; [lia|].
    rewrite (advance_next s1 c cs _ _ y Hch1 Hcur Hy).
    apply (write_post_more P s s1 c cs [] f y k); [done|lia|done|by rewrite app_nil_r|rewrite app_nil_r].
    apply IH; cbn [ff_pos at_pos cur_cluster]; try lia; [done|by rewrite Hidx|unfold zlen in *; lia].
Qed.

(** ** Metadata of an entry *)
Abbreviation ecluster := (fat_impl_entry_get_cluster v).
Abbreviation esize := (fat_impl_entry_get_size).

(** A change of the metadata behind the name and the attributes. *)
Definition meta (e x : Z) : Prop := e + 13 <= x < e + 32.
Definition meta_only s s' (e : Z) : Prop := forall x, ~ meta e x -> ld8 (image s') x = ld8 (image s) x.

Lemma meta_entry s s' e : meta_only s s' e -> entry_only s s' e.
Proof. intros H x Hx. apply H. unfold in_entry, meta in *. lia. Qed.
Lemma meta_trans s1 s2 s3 e : meta_only s1 s2 e -> meta_only s2 s3 e -> meta_only s1 s3 e.
Proof. intros H1 H2 x Hx. by rewrite H2, H1. Qed.

Lemma timestamp_only s e x : ~ (e + 13 <= x < e + 20) -> ~ (e + 22 <= x < e + 26) ->
  ld8 (image (fat_impl_set_timestamp rtc_read s e)) x = ld8 (image s) x.
Proof.
  intros H1 H2. unfold fat_impl_set_timestamp. destruct (rtc_read (world s)) as [now w]. destruct (negb (rt_valid now)); [done|].
  repeat case_match; cbn [image set_image set_world]; rewrite ?ld_st, ?decide_False by lia; rewrite !only_put16 by lia; done.
Qed.

Lemma timestamp_meta s e : meta_only s (fat_impl_set_timestamp rtc_read s e) e.
Proof. intros x Hx. unfold meta in Hx. apply timestamp_only; lia. Qed.
Lemma timestamp_cluster s e : ecluster (fat_impl_set_timestamp rtc_read s e) e = ecluster s e.
Proof.
  unfold fat_impl_entry_get_cluster. destruct (vol_type v); [|f_equal; [|do 2 f_equal]]; apply mem16_ext; intros; apply timestamp_only; lia.
Qed.
Lemma timestamp_size s e : esize (fat_impl_set_timestamp rtc_read s e) e = esize s e.
Proof. unfold fat_impl_entry_get_size. apply mem32_ext. intros. apply timestamp_only; lia. Qed.

Lemma set_cluster_meta s e c : meta_only s (fat_impl_entry_set_cluster v s e c) e.
Proof. intros x Hx. unfold meta in Hx. unfold fat_impl_entry_set_cluster. cbn [image set_image]. by rewrite !only_put16 by lia. Qed.
Lemma set_cluster_size s e c : esize (fat_impl_entry_set_cluster v s e c) e = esize s e.
Proof.
  unfold fat_impl_entry_get_size. apply mem32_ext. intros x Hx. unfold fat_impl_entry_set_cluster. cbn [image set_image]. by rewrite !only_put16 by lia.
Qed.
Lemma set_cluster_get s e c : link_ok v c -> ecluster (fat_impl_entry_set_cluster v s e c) e = c.
Proof.
  unfold link_ok, cluster_eoc, fat_impl_entry_get_cluster, fat_impl_entry_set_cluster. cbn [image set_image]. intros Hc.
  assert (E : mem16 (put16 (put16 (image s) (e + 26) (u16 (Z.land c 65535))) (e + 20)
    match vol_type v with FAT_TYPE_16 => 0 | FAT_TYPE_32 => u16 (Z.shiftr c 16) end) (e + 26) = u16 (Z.land c 65535)).
  { rewrite (mem16_ext (put16 (image s) (e + 26) (u16 (Z.land c 65535)))) by (intros; apply only_put16; lia). apply put16_mem, Z.mod_pos_bound. lia. }
  rewrite E. change 65535 with (Z.ones 16). rewrite Z.land_ones by lia. unfold u16. rewrite Z.mod_mod by lia.
  destruct (vol_type v); [apply Z.mod_small; lia|]. rewrite put16_mem by (apply Z.mod_pos_bound; lia). rewrite Z.shiftr_div_pow2 by lia.
  assert (0 <= c / 2 ^ 16 < 2 ^ 12) by (split; [apply Z.div_pos|apply Z.div_lt_upper_bound]; lia).
  rewrite (Z.mod_small (c / 2 ^ 16)) by lia. rewrite Z.shiftl_mul_pow2, u32_small by lia. rewrite Z.lor_comm, (lor_add _ _ 16).
  - pose proof (Z.div_mod c (2 ^ 16)). lia.
  - lia.
  - apply Z.mod_mul. lia.
  - apply Z.mod_pos_bound. lia.
Qed.

Lemma set_size_meta s e n : meta_only s (fat_impl_entry_set_size s e n) e.
Proof. intros x Hx. unfold meta in Hx. unfold fat_impl_entry_set_size. cbn [image set_image]. by rewrite only_put32 by lia. Qed.
Lemma set_size_cluster s e n : ecluster (fat_impl_entry_set_size s e n) e = ecluster s e.
Proof.
  assert (H : forall x, x < e + 28 -> ld8 (image (fat_impl_entry_set_size s e n)) x = ld8 (image s) x)
    by (intros; unfold fat_impl_entry_set_size; cbn [image set_image]; apply only_put32; lia).
  unfold fat_impl_entry_get_cluster. destruct (vol_type v); [|f_equal; [|do 2 f_equal]]; apply mem16_ext; intros; apply H; lia.
Qed.
Lemma set_size_get s e n : 0 <= n < 2 ^ 32 -> esize (fat_impl_entry_set_size s e n) e = n.
Proof. intros Hn. unfold fat_impl_entry_get_size, fat_impl_entry_set_size. cbn [image set_image]. rewrite u32_small by done. by apply put32_mem. Qed.

Lemma flush_meta s e a n : meta_only s (fat_flush_bytes v s a n) e.
Proof. intros x _. by rewrite flush_image. Qed.
Lemma flush_cluster s e a n : ecluster (fat_flush_bytes v s a n) e = ecluster s e.
Proof. unfold fat_impl_entry_get_cluster. by rewrite flush_image. Qed.
Lemma flush_size s e a n : esize (fat_flush_bytes v s a n) e = esize s e.
Proof. unfold fat_impl_entry_get_size. by rewrite flush_image. Qed.

Lemma entry_same s s' e : (forall x, in_entry e x -> ld8 (image s') x = ld8 (image s) x) -> ecluster s' e = ecluster s e /\ esize s' e = esize s e.
Proof.
  intros H. unfold in_entry in H. unfold fat_impl_entry_get_cluster, fat_impl_entry_get_size. split.
  - destruct (vol_type v); [|f_equal; [|do 2 f_equal]]; apply mem16_ext; intros; apply H; lia.
  - apply mem32_ext; intros; apply H; lia.
Qed.

(** ** Files and handles *)

(** The entry [e] names the chain [cs], whose first bytes are the content [c]. *)
Record file_at s (e : Z) (cs c : list Z) : Prop := {
  fa_entry : entry_ok s e cs;
  fa_size : 0 <= esize s e < 2 ^ 32;
  fa_fits : esize s e <= zlen cs * cb;
  fa_chain : (cs = [] /\ ecluster s e = 0) \/ chain v s (ecluster s e) cs;
  fa_content : c = take (Z.to_nat (esize s e)) (raw s cs);
}.

(** The cluster an open file stands in: the one of its position, or the last one
    at the end of a file that fills its clusters. *)
Definition cur_index (p size : Z) : Z := if (p =? size) && (p mod cb =? 0) && (0 <? p) then p / cb - 1 else p / cb.

Record handle s f (e : Z) (cs c : list Z) : Prop := {
  ha_file : file_at s e cs c;
  ha_ent : dir_ent f = Some e;
  ha_first : first_cluster f = ecluster s e;
  ha_size : ff_size f = esize s e;
  ha_pos : 0 <= ff_pos f <= ff_size f;
  ha_cur : cs <> [] -> cs !! Z.to_nat (cur_index (ff_pos f) (ff_size f)) = Some (cur_cluster f);
}.

Lemma content_length s e cs c : file_at s e cs c -> zlen c = esize s e.
Proof. intros [_ H1 H2 _ ->]. pose proof (raw_length s cs). unfold zlen in *. rewrite length_take. lia. Qed.

Lemma file_empty s e c : file_at s e [] c -> esize s e = 0 /\ ecluster s e = 0 /\ c = [].
Proof. intros [_ H1 H2 H3 ->]. change (zlen ([] : list Z)) with 0 in H2. rewrite Z.mul_0_l in H2. assert (E : esize s e = 0) by lia. rewrite E. destruct H3 as [[_ ?]|[]]; done. Qed.

Lemma file_chain s e cs c : file_at s e cs c -> cs <> [] -> chain v s (ecluster s e) cs /\ ecluster s e <> 0.
Proof. intros [_ _ _ H3 _] Hne. destruct H3 as [[? _]|H3]; [done|]. split; [done|]. apply chain_head in H3 as [[? _] _]. lia. Qed.

Lemma written_meta P e s s1 s2 c cs new p d : written P s s1 c cs new p d -> (forall x, P x -> meta e x) ->
  entry_ok s1 e (cs ++ new) -> meta_only s1 s2 e -> written (meta e) s s2 c cs new p d.
Proof.
  intros (H1 & H2 & H3 & H4) HP He Hm. pose proof (meta_entry _ _ _ Hm) as Ho. split; [|split; [|split]].
  - by apply (entry_only_chain s1 s2 e).
  - rewrite <-H2. apply (entry_only_raw s1 s2 e); [done|done|]. by eapply chain_valid.
  - done.
  - split; [intros d' Hd Hn; rewrite (entry_only_get s1 s2 e (cs ++ new)) by done; by apply H4|].
    intros x Hx Hc Hme. rewrite Hm by done. apply H4; auto.
Qed.

Definition nothing (x : Z) : Prop := False.

(** The data path leaves the entry alone. *)
Lemma written_fields e s s1 c cs new p d : written nothing s s1 c cs new p d -> entry_ok s e cs -> ecluster s1 e = ecluster s e /\ esize s1 e = esize s e.
Proof.
  intros Hw He. pose proof (written_entry _ e _ _ _ _ _ _ _ Hw He) as (_ & _ & H3). destruct Hw as (C & _ & _ & O).
  pose proof (chain_valid _ _ _ _ C) as Hval. rewrite list_relations.list.Forall_forall in Hval.
  apply entry_same. intros x Hx. apply O; [by apply H3| |by intros []]. intros y Hy Hin. by apply (proj2 (H3 x Hx) y (Hval y Hy) Hin).
Qed.

Lemma written_weaken (P Q : Z -> Prop) s s1 c cs new p d : (forall x, P x -> Q x) -> written P s s1 c cs new p d -> written Q s s1 c cs new p d.
Proof. intros HPQ (H1 & H2 & H3 & [H4 H5]). split; [done|]. split; [done|]. split; [done|]. split; [done|]. intros. apply H5; auto. Qed.

(** What the file is after the chain has grown, the data has been written and
    the entry has been brought up to date. *)
Lemma written_file e s s' c0 cs new p d c : file_at s e cs c -> written (meta e) s s' c0 cs new p d ->
  ecluster s' e = c0 -> esize s' e = esize s e `max` (p + zlen d) -> 0 <= p <= esize s e -> p + zlen d <= zlen (cs ++ new) * cb -> p + zlen d < 2 ^ 32 ->
  file_at s' e (cs ++ new) (copy_to c p d).
Proof.
  intros Hf Hw Hc Hs Hp Hd Hd2. pose proof (written_entry _ e _ _ _ _ _ _ _ Hw (fa_entry _ _ _ _ Hf)) as He. pose proof Hf as [_ F1 F2 _ ->].
  destruct Hw as (H1 & H2 & _). pose proof (raw_length s cs) as L. pose proof (cluster_bytes_range v Hv).
  assert (LL : zlen (raw s cs ++ replicate (length new * Z.to_nat cb) 0) = zlen (cs ++ new) * cb).
  { unfold zlen in *. rewrite !length_app, length_replicate. lia. }
  split.
  - done.
  - unfold zlen in *. lia.
  - rewrite Hs. unfold zlen in *. rewrite length_app in *. lia.
  - right. by rewrite Hc.
  - rewrite Hs, H2. rewrite take_copy_to; [|lia|rewrite LL; unfold zlen in *; rewrite length_app; lia|by rewrite LL].
    f_equal. rewrite take_app_le; [done|]. unfold zlen in *. lia.
Qed.

Lemma write_first_spec s f e cs c : handle s f e cs c ->
  (write_first v s f e = (s, None) /\ no_free v s) \/
  exists s1 f1 n0, write_first v s f e = (s1, Some f1) /\ (forall p, written (meta e) s s1 (first_cluster f1) cs n0 p []) /\
    handle s1 f1 e (cs ++ n0) c /\ cs ++ n0 <> [] /\ ff_pos f1 = ff_pos f /\ ff_size f1 = ff_size f.
Proof.
  intros Hh. pose proof Hh as [Hf He H1 Hs Hp Hcur]. pose proof (fa_entry _ _ _ _ Hf) as Hent. unfold write_first. rewrite H1.
  destruct (decide (cs = [])) as [->|Hne].
  - destruct (file_empty s e c Hf) as (E1 & E2 & ->). rewrite E2. cbn [Z.eqb].
    destruct (alloc_spec v Hv s) as [[-> Hn]|(s1 & n & -> & Hvn & Hz & He1 & Hd & Hs1)]; [by left|right].
    assert ((n =? 0) = false) as -> by (destruct Hvn; lia).
    assert (Hw : forall p, written nothing s s1 n [] [n] p []).
    { intros p. split; [|split; [|split]].
      - cbn. split; [done|]. split; [done|]. rewrite He1. apply cluster_eoc_ok.
      - rewrite copy_to_nil. unfold raw. cbn [app fmap list_fmap concat]. rewrite app_nil_r, Hd. f_equal. cbn. lia.
      - by constructor.
      - split; [apply Hs1|]. intros x Hx Hn _. apply Hs1; [done|]. apply Hn. }
    pose proof (written_entry _ e _ _ _ _ _ _ _ (Hw 0) Hent) as Hent1. destruct (written_fields e _ _ _ _ _ _ _ (Hw 0) Hent) as [_ F2].
    set (s2 := fat_impl_entry_set_cluster v s1 e n).
    assert (Hw2 : forall p, written (meta e) s s2 n [] [n] p []).
    { intros p. apply (written_meta nothing e s s1); [done|by intros ? []|done|]. apply set_cluster_meta. }
    assert (G1 : ecluster s2 e = n) by (apply set_cluster_get, (valid_link v Hv), Hvn).
    assert (G2 : esize s2 e = 0) by (unfold s2; by rewrite set_cluster_size, F2).
    eexists s2, _, [n]. split; [reflexivity|]. split; [exact Hw2|]. split; [|done]. rewrite Hs, E1 in *.
    assert (ff_pos f = 0) as Hp0 by lia. rewrite Hp0. split; cbn; try done.
    apply (written_file e s s2 n [] [n] 0 [] [] Hf (Hw2 0) G1); unfold zlen; cbn [length app]; rewrite ?G2, ?E1;
      pose proof (cluster_bytes_range v Hv); lia.
  - right. destruct (file_chain _ _ _ _ Hf Hne) as [Hch Hnz]. apply Z.eqb_neq in Hnz. rewrite Hnz. exists s, f, []. rewrite app_nil_r.
    split; [done|]. split; [|done]. intros p. rewrite H1. by apply written_refl.
Qed.

Lemma pred_pos p : 0 < p -> (p - 1) / cb = if p mod cb =? 0 then p / cb - 1 else p / cb.
Proof.
  intros Hp. destruct (split_pos p ltac:(lia)) as (E & Ho & Hq). pose proof (cluster_bytes_range v Hv). symmetry.
  destruct (Z.eqb_spec (p mod cb) 0); [apply (Z.div_unique _ _ _ (cb - 1))|apply (Z.div_unique _ _ _ (p mod cb - 1))]; lia.
Qed.

(** [fat_write] selects or allocates the cluster after the last for an append
    at a cluster boundary. *)
Definition boundary f (buf : list Z) : bool :=
  (Z.of_nat (length buf) >? 0) && (ff_pos f >? 0) && (ff_pos f =? ff_size f) && (ff_pos f mod cb =? 0).

Lemma write_prepare s f e cs c buf : handle s f e cs c -> cs <> [] ->
  let '(s1, r) := if boundary f buf then advance v s (cur_cluster f) else (s, Some (cur_cluster f)) in
  (r = None /\ s1 = s /\ no_free v s) \/
  exists x n0, r = Some x /\ written nothing s s1 (first_cluster f) cs n0 (ff_pos f) [] /\
    (buf <> [] -> (cs ++ n0) !! Z.to_nat (ff_pos f / cb) = Some x).
Proof.
  intros [Hf He H1 Hs Hp Hcur] Hne. destruct (file_chain _ _ _ _ Hf Hne) as [Hch _]. rewrite H1. specialize (Hcur Hne).
  unfold boundary. destruct (_ && _) eqn:Eb.
  - apply andb_true_iff in Eb as [Eb Em]. apply andb_true_iff in Eb as [Eb Es]. apply andb_true_iff in Eb as [_ Epos].
    unfold cur_index in Hcur. rewrite Es, Em in Hcur. replace (0 <? ff_pos f) with true in Hcur by lia. cbn [andb] in Hcur.
    assert (Hq : 1 <= ff_pos f / cb).
    { destruct (split_pos (ff_pos f) ltac:(lia)) as (E & _ & _). pose proof (cluster_bytes_range v Hv). apply Z.eqb_eq in Em. rewrite Em in E. nia. }
    replace (Z.to_nat (ff_pos f / cb)) with (S (Z.to_nat (ff_pos f / cb - 1))) by lia.
    destruct (decide (S (Z.to_nat (ff_pos f / cb - 1)) = length cs)) as [Hend|Hend].
    + destruct (advance_alloc nothing s _ cs _ _ Hch Hcur Hend) as [[-> Hn]|(s1 & n & -> & Hw)]; [by left|right]. exists n, [n].
      split; [done|]. split; [apply Hw|]. intros _. rewrite Hend. by rewrite lookup_app_r, Nat.sub_diag by lia.
    + apply lookup_lt_Some in Hcur as Hlt. destruct (lookup_lt_is_Some_2 cs (S (Z.to_nat (ff_pos f / cb - 1)))) as [y Hy]; [lia|].
      rewrite (advance_next s _ cs _ _ y Hch Hcur Hy). right. exists y, []. rewrite app_nil_r. split; [done|]. split; [by apply written_refl|done].
  - right. exists (cur_cluster f), []. rewrite app_nil_r. split; [done|]. split; [by apply written_refl|]. intros Hb. rewrite <-Hcur. f_equal. f_equal.
    unfold cur_index. replace (Z.of_nat (length buf) >? 0) with true in Eb by (destruct buf; [done|reflexivity]). cbn [andb] in Eb.
    destruct ((ff_pos f =? ff_size f) && (ff_pos f mod cb =? 0) && (0 <? ff_pos f)) eqn:Ei; [|done].
    apply andb_true_iff in Ei as [Ei E3]. apply andb_true_iff in Ei as [E1 E2]. rewrite E1, E2 in Eb. lia.
Qed.

Lemma write_publish_spec s f e : 0 <= ff_pos f < 2 ^ 32 ->
  exists s' cur', write_publish v rtc_read s f e = (s', FatFile (first_cluster f) cur' (ff_size f `max` ff_pos f) (ff_pos f) (dir_ent f)) /\
    meta_only s s' e /\ ecluster s' e = ecluster s e /\ esize s' e = (if ff_pos f >? ff_size f then ff_pos f else esize s e) /\
    cur' = (if (0 <? ff_pos f) && (ff_pos f <? ff_size f) && (ff_pos f mod cb =? 0) then
              let '(status, next) := next_cluster v s' (cur_cluster f) in if status =? 0 then next else cur_cluster f
            else cur_cluster f).
Proof.
  intros Hp. unfold write_publish. set (s1 := if ff_pos f >? ff_size f then fat_impl_entry_set_size s e (ff_pos f) else s).
  set (s2 := fat_flush_bytes v (fat_impl_set_timestamp rtc_read s1 e) e 32).
  assert (M : meta_only s s2 e).
  { apply (meta_trans s s1); [unfold s1; case_match; [apply set_size_meta|done]|].
    eapply meta_trans; [apply timestamp_meta|apply flush_meta]. }
  assert (C : ecluster s2 e = ecluster s e).
  { unfold s2. rewrite flush_cluster, timestamp_cluster. unfold s1. case_match; [apply set_size_cluster|done]. }
  assert (Z : esize s2 e = (if ff_pos f >? ff_size f then ff_pos f else esize s e)).
  { unfold s2. rewrite flush_size, timestamp_size. unfold s1. case_match; [by apply set_size_get|done]. }
  destruct (Z.gtb_spec (ff_pos f) (ff_size f)) as [Hgt|Hle].
  - exists s2, (cur_cluster f). cbn [ff_pos ff_size]. replace (ff_pos f <? ff_pos f) with false by lia. rewrite andb_false_r. cbn [andb].
    replace (ff_size f `max` ff_pos f) with (ff_pos f) by lia. split; [done|]. split; [done|]. split; [done|]. split; [done|].
    replace (ff_pos f <? ff_size f) with false by lia. by rewrite andb_false_r.
  - exists s2. replace (ff_size f `max` ff_pos f) with (ff_size f) by lia. rewrite (Z.gtb_ltb (ff_pos f) 0). destruct (_ && _) eqn:Eb.
    + change (fat_flush_bytes v (fat_impl_set_timestamp rtc_read s e) e 32) with s2. destruct (next_cluster v s2 (cur_cluster f)) as [st nx] eqn:En. eexists. split; [|done]. destruct (st =? 0); by destruct f.
    + exists (cur_cluster f). split; [by destruct f|done].
Qed.

(** After a write the cursor stands in the cluster of the last byte written,
    or, stepping over a boundary inside the file, in the next. *)
Lemma cursor_after s c cs p size x : chain v s c cs -> 0 < p <= size -> size <= zlen cs * cb -> cs !! Z.to_nat ((p - 1) / cb) = Some x ->
  cs !! Z.to_nat (cur_index p size) =
    Some (if (0 <? p) && (p <? size) && (p mod cb =? 0) then
            let '(status, next) := next_cluster v s x in if status =? 0 then next else x
          else x).
Proof.
  intros Hch Hp Hs Hx. destruct (split_pos p ltac:(lia)) as (E & Ho & Hq). pose proof (cluster_bytes_range v Hv). rewrite pred_pos in Hx by lia.
  unfold cur_index. replace (0 <? p) with true by lia. rewrite andb_true_r. cbn [andb].
  destruct (Z.eqb_spec (p mod cb) 0) as [Em|Em]; rewrite ?andb_true_r, ?andb_false_r; [|done].
  destruct (Z.eqb_spec p size) as [Ep|Ep]; [by replace (p <? size) with false by lia|]. replace (p <? size) with true by lia.
  assert (Hq1 : 1 <= p / cb) by nia. assert (Hlt : (Z.to_nat (p / cb) < length cs)%nat) by (unfold zlen in Hs; nia).
  destruct (lookup_lt_is_Some_2 _ _ Hlt) as [y Hy]. replace (Z.to_nat (p / cb)) with (S (Z.to_nat (p / cb - 1))) in Hy |- * by lia.
  rewrite (chain_next v Hv s c cs _ x y Hch Hx Hy). done.
Qed.

(** The outcome of a write: [k] bytes have gone in at the position, all of
    them unless the volume is full. *)
Definition wrote s f (e : Z) (cs c buf : list Z) (r : fat_state W * fat_file * Z) : Prop :=
  exists s' f' k new, r = (s', f', k) /\ 0 <= k <= zlen buf /\ ff_pos f' = ff_pos f + k /\
    file_at s' e (cs ++ new) (copy_to c (ff_pos f) (take (Z.to_nat k) buf)) /\
    (buf <> [] -> handle s' f' e (cs ++ new) (copy_to c (ff_pos f) (take (Z.to_nat k) buf))) /\
    (k = zlen buf \/ no_free v s') /\ Forall (fun d => valid v d /\ get s d = 0) new /\ others (meta e) (cs ++ new) s s'.

Lemma wrote_none s f e cs c buf s1 f1 n0 : handle s1 f1 e (cs ++ n0) c -> ff_pos f1 = ff_pos f -> no_free v s1 ->
  Forall (fun d => valid v d /\ get s d = 0) n0 -> others (meta e) (cs ++ n0) s s1 -> wrote s f e cs c buf (s1, f1, 0).
Proof.
  intros Hh Ep Hn HF Ho. exists s1, f1, 0, n0. rewrite Ep, Z.add_0_r. cbn [Z.to_nat take]. rewrite copy_to_nil. split; [done|].
  split; [unfold zlen; lia|]. split; [done|]. split; [by apply Hh|]. split; [done|]. split; [by right|]. done.
Qed.

(** The end of a write: the data is in place, the entry is brought up to date. *)
Lemma wrote_publish s f e cs c buf s3 f3 k new c0 x : file_at s e cs c -> ff_pos f + zlen buf < 2 ^ 32 -> ff_pos f3 = ff_pos f + k ->
  first_cluster f3 = c0 -> ff_size f3 = esize s e -> dir_ent f3 = Some e -> cur_cluster f3 = x -> 0 <= ff_pos f <= esize s e -> 0 <= k <= zlen buf ->
  written (meta e) s s3 c0 cs new (ff_pos f) (take (Z.to_nat k) buf) -> ecluster s3 e = c0 -> esize s3 e = esize s e ->
  (k = zlen buf \/ no_free v s3) -> (buf <> [] -> 0 < k /\ (cs ++ new) !! Z.to_nat ((ff_pos f + k - 1) / cb) = Some x) -> cs ++ new <> [] ->
  ff_pos f <= zlen (cs ++ new) * cb ->
  wrote s f e cs c buf (let '(s4, f4) := write_publish v rtc_read s3 f3 e in (s4, f4, k)).
Proof.
  intros Hf Hlen Ep Efc Esz Eent Ecur Hp Hk Hw Hc Hs Hfull Hcur Hne Hroom.
  destruct (write_publish_spec s3 f3 e ltac:(lia)) as (s4 & cur' & -> & M & C4 & Z4 & Ecur').
  pose proof (written_entry _ e _ _ _ _ _ _ _ Hw (fa_entry _ _ _ _ Hf)) as Hent3.
  pose proof (written_meta (meta e) e s s3 s4 _ _ _ _ _ Hw ltac:(done) Hent3 M) as Hw4.
  assert (Hd : zlen (take (Z.to_nat k) buf) = k) by (unfold zlen in *; rewrite length_take; lia).
  assert (Hroom' : ff_pos f + k <= zlen (cs ++ new) * cb).
  { destruct (decide (buf = [])) as [->|Hb]; [unfold zlen in Hk; cbn in Hk; lia|]. destruct (Hcur Hb) as [Hk0 Hx].
    pose proof (lookup_room _ (ff_pos f + k - 1) _ ltac:(lia) Hx) as [_ ?]. lia. }
  assert (Z4' : esize s4 e = esize s e `max` (ff_pos f + k)).
  { rewrite Z4, Hs, Ep, Esz. destruct (Z.gtb_spec (ff_pos f + k) (esize s e)); lia. }
  assert (Hf4 : file_at s4 e (cs ++ new) (copy_to c (ff_pos f) (take (Z.to_nat k) buf))).
  { apply (written_file e s s4 c0); [done|done|by rewrite C4|by rewrite Hd|done|by rewrite Hd|rewrite Hd; lia]. }
  exists s4, (FatFile (first_cluster f3) cur' (ff_size f3 `max` ff_pos f3) (ff_pos f3) (dir_ent f3)), k, new.
  split; [done|]. split; [done|]. split; [done|]. split; [done|]. split; [|split; [|split; [apply Hw|apply Hw4]]].
  - intros Hb. destruct (Hcur Hb) as [Hk0 Hx]. split; cbn; [done|done|by rewrite C4, Hc, Efc|by rewrite Z4', Ep, Esz|lia|]. intros _.
    rewrite Ecur', Ecur, Ep, Esz. pose proof Hw4 as (Hch4 & _). rewrite (cursor_after s4 c0 _ _ _ x Hch4); [|lia| |done].
    + f_equal. destruct (Z.lt_ge_cases (ff_pos f + k) (esize s e)).
      * by replace (esize s e `max` (ff_pos f + k)) with (esize s e) by lia.
      * replace (esize s e `max` (ff_pos f + k)) with (ff_pos f + k) by lia. replace (ff_pos f + k <? ff_pos f + k) with false by lia.
        replace (ff_pos f + k <? esize s e) with false by lia. by rewrite !andb_false_r.
    + rewrite <-Z4'. apply Hf4.
  - destruct Hfull as [?|Hn]; [by left|right]. intros d Hd'. rewrite (entry_only_get s3 s4 e (cs ++ new)); [by apply Hn|by apply meta_entry|done|done].
Qed.

Lemma fat_write_spec s f e cs c buf : handle s f e cs c -> ff_pos f + zlen buf < 2 ^ 32 -> wrote s f e cs c buf (fat_write v rtc_read s f buf).
Proof.
  intros Hh Hlen. pose proof Hh as [Hf He _ Hsz Hpos _]. unfold fat_write. rewrite He.
  destruct (write_first_spec s f e cs c Hh) as [[-> Hn]|(s1 & f1 & n0 & -> & Hw0 & Hh1 & Hne & Ep & Es)].
  { apply (wrote_none _ _ _ _ _ _ _ _ []); try done. by rewrite app_nil_r. }
  pose proof (write_prepare s1 f1 e (cs ++ n0) c buf Hh1 Hne) as Hprep. fold (boundary f1 buf). destruct (if boundary f1 buf then _ else _) as [s2 r].
  destruct Hprep as [(-> & -> & Hn)|(x & n1 & -> & Hw1 & Hx)].
  { destruct (Hw0 0) as (_ & _ & ? & ?). by apply (wrote_none _ _ _ _ _ _ _ _ n0). }
  rewrite Ep in *. destruct Hh1 as [Hf1 He1 Hfc1 Hsz1 Hp1 _]. pose proof (fa_entry _ _ _ _ Hf1) as Hent1.
  pose proof (written_entry _ e _ _ _ _ _ _ _ Hw1 Hent1) as Hent2. destruct (written_fields e _ _ _ _ _ _ _ Hw1 Hent1) as [C2 Z2].
  assert (Hpost : write_post nothing s2 (first_cluster f1) ((cs ++ n0) ++ n1) (set_cur f1 x) buf 0 (fat_write_loop v (S (length buf)) s2 (set_cur f1 x) buf 0)).
  { destruct (decide (buf = [])) as [->|Hb].
    - exists s2, x, 0, []. rewrite Z.add_0_r. split; [done|]. split; [done|]. split; [apply written_refl, Hw1|]. split; [by left|]. by rewrite decide_True.
    - apply write_loop_spec; cbn [set_cur ff_pos cur_cluster]; rewrite ?Ep; [apply Hw1|lia|done|by apply Hx|lia]. }
  destruct Hpost as (s3 & y & k & n2 & -> & Hk & Hw2 & Hfull & Hcur). cbn [set_cur ff_pos cur_cluster] in Hw2, Hcur. rewrite Ep in *.
  destruct (written_fields e _ _ _ _ _ _ _ Hw2 Hent2) as [C3 Z3]. pose proof (fa_fits _ _ _ _ Hf1) as Hfit. rewrite <-Hsz1, Es in Hfit.
  assert (Hz1 : esize s1 e = esize s e) by congruence.
  pose proof (cluster_bytes_range v Hv). assert (Hmono : forall l : list Z, zlen (cs ++ n0) * cb <= zlen ((cs ++ n0) ++ l) * cb).
  { intros l. unfold zlen. rewrite (length_app (cs ++ n0)). nia. }
  assert (Hw : written (meta e) s s3 (first_cluster f1) cs (n0 ++ n1 ++ n2) (ff_pos f) (take (Z.to_nat k) buf)).
  { apply (written_trans (meta e) s s1 s3 _ cs n0 (n1 ++ n2) (ff_pos f) []); [lia|change (zlen ([] : list Z)) with 0; lia|apply Hw0|].
    change (zlen ([] : list Z)) with 0. rewrite Z.add_0_r. apply (written_weaken nothing); [by intros ? []|].
    apply (written_trans nothing s1 s2 s3 _ (cs ++ n0) n1 n2 (ff_pos f) []); change (zlen ([] : list Z)) with 0; [lia| |done|by rewrite Z.add_0_r].
    specialize (Hmono n1). lia. }
  rewrite Z.add_0_l. replace (((cs ++ n0) ++ n1) ++ n2) with (cs ++ n0 ++ n1 ++ n2) in Hcur by (by rewrite !app_assoc).
  apply (wrote_publish _ _ _ _ _ _ s3 _ k (n0 ++ n1 ++ n2) (first_cluster f1) y); cbn [at_pos set_cur ff_pos ff_size first_cluster cur_cluster dir_ent]; try done; try congruence.
  - intros Hb. by rewrite decide_False in Hcur.
  - rewrite app_assoc. intros E. apply app_eq_nil in E as [E _]. done.
  - rewrite app_assoc. specialize (Hmono (n1 ++ n2)). lia.
Qed.

(** ** Seeking, reading and truncating *)
Lemma seek_loop_spec s n : forall c cs x, chain v s c cs -> cs !! n = Some x -> seek_loop v n s c = (x, true).
Proof.
  induction n as [|n IH]; intros c cs x Hch Hx; cbn [seek_loop].
  - destruct (chain_head _ _ _ _ Hch) as (_ & rest & ->). injection Hx as ->. done.
  - destruct (chain_head _ _ _ _ Hch) as (_ & rest & ->). destruct rest as [|y rest]; [done|].
    rewrite (chain_next v Hv s c _ 0 c y Hch) by done. cbn [Z.eqb negb]. apply (IH y (y :: rest)); [|done].
    apply (chain_drop v s _ c 1 y Hch eq_refl).
Qed.

Lemma cur_index_range (cs : list Z) p size : 0 <= p <= size -> size <= zlen cs * cb -> cs <> [] -> (Z.to_nat (cur_index p size) < length cs)%nat /\ 0 <= cur_index p size.
Proof.
  intros Hp Hs Hne. destruct (split_pos p ltac:(lia)) as (E & Ho & Hq). pose proof (cluster_bytes_range v Hv). unfold cur_index, zlen in *.
  assert (0 < length cs)%nat by (destruct cs; [done|cbn; lia]).
  destruct ((p =? size) && (p mod cb =? 0) && (0 <? p)) eqn:Eb.
  - apply andb_true_iff in Eb as [Eb E3]. apply andb_true_iff in Eb as [E1 E2]. nia.
  - destruct (Z.eq_dec p 0) as [->|]; [rewrite Z.div_0_l by lia; lia|].
    destruct (Z.eqb_spec p size), (Z.eqb_spec (p mod cb) 0); cbn in Eb; try lia; nia.
Qed.

Lemma seek_spec s e cs c p : file_at s e cs c -> 0 <= p ->
  exists f, fat_seek v s (fat_file_from_entry v s e) p = (f, 0) /\ handle s f e cs c /\ ff_pos f = p `min` esize s e.
Proof.
  intros Hf Hp. pose proof (fa_size _ _ _ _ Hf) as Hsz. pose proof (fa_fits _ _ _ _ Hf) as Hfit.
  unfold fat_seek, fat_file_from_entry. cbn [ff_size first_cluster dir_ent ff_pos]. rewrite (u32_small (esize s e)) by done.
  replace (if p >? esize s e then esize s e else p) with (p `min` esize s e) by (destruct (Z.gtb_spec p (esize s e)); lia).
  set (q := p `min` esize s e). assert (Hq : 0 <= q <= esize s e) by lia.
  destruct ((q =? 0) || (esize s e =? 0)) eqn:E0.
  - assert (q = 0) as Hq0 by lia. eexists. split; [reflexivity|]. split; [|done]. split; cbn; try done. intros Hne.
    destruct (file_chain _ _ _ _ Hf Hne) as [Hch _]. destruct (chain_head _ _ _ _ Hch) as (_ & rest & Ecs). rewrite Hq0, Ecs.
    unfold cur_index. rewrite andb_false_r. pose proof (cluster_bytes_range v Hv). by rewrite Z.div_0_l by lia.
  - assert (Hne : cs <> []) by (intros ->; destruct (file_empty _ _ _ Hf); lia). destruct (file_chain _ _ _ _ Hf Hne) as [Hch _].
    destruct (cur_index_range cs q (esize s e) Hq Hfit Hne) as [Hlt _]. destruct (lookup_lt_is_Some_2 _ _ Hlt) as [x Hx].
    replace (if (q =? esize s e) && (q mod cb =? 0) then q / cb - 1 else q / cb) with (cur_index q (esize s e))
      by (unfold cur_index; replace (0 <? q) with true by lia; by rewrite andb_true_r).
    rewrite (seek_loop_spec s _ _ cs x Hch Hx). eexists. split; [reflexivity|]. split; [|done]. split; cbn; done.
Qed.

Lemma cursor_spec s e cs c p : file_at s e cs c -> 0 <= p <= UINT32_MAX ->
  exists f, vfs_cursor v s (Some e) p = Some f /\ handle s f e cs c /\ ff_pos f = p `min` esize s e.
Proof.
  intros Hf Hp. unfold vfs_cursor. replace (p >? UINT32_MAX) with false by lia. destruct (seek_spec s e cs c p Hf ltac:(lia)) as (f & -> & H1 & H2).
  eauto.
Qed.

(** Moving on by a chunk of the file. *)
Lemma handle_step s f e cs c k : handle s f e cs c -> 0 < k -> ff_pos f + k <= ff_size f -> (ff_pos f + k - 1) / cb = ff_pos f / cb ->
  let p := ff_pos f + k in
  if (p mod cb =? 0) && (p <? ff_size f) then exists y, next_cluster v s (cur_cluster f) = (0, y) /\ handle s (at_pos f y p) e cs c
  else handle s (at_pos f (cur_cluster f) p) e cs c.
Proof.
  intros [Hf He Hfc Hsz Hp Hcur] Hk Hle Hd p. assert (Hne : cs <> []) by (intros ->; destruct (file_empty _ _ _ Hf); lia).
  destruct (file_chain _ _ _ _ Hf Hne) as [Hch _]. specialize (Hcur Hne). pose proof (fa_fits _ _ _ _ Hf) as Hfit.
  assert (Hidx : cs !! Z.to_nat ((p - 1) / cb) = Some (cur_cluster f)).
  { unfold p. rewrite Hd, <-Hcur. unfold cur_index. by replace (ff_pos f =? ff_size f) with false by lia. }
  pose proof (cursor_after s _ cs p (ff_size f) _ Hch ltac:(lia) ltac:(lia) Hidx) as Hc. replace (0 <? p) with true in Hc by lia. cbn [andb] in Hc.
  rewrite (andb_comm (p <? ff_size f)) in Hc. destruct ((p mod cb =? 0) && (p <? ff_size f)) eqn:Eb.
  - destruct (next_cluster v s (cur_cluster f)) as [st y] eqn:En. exists y. assert (Hst : st = 0).
    { apply andb_true_iff in Eb as [Em Elt]. rewrite pred_pos, Em in Hidx by lia. unfold cur_index in Hc. replace (p =? ff_size f) with false in Hc by lia.
      cbn [andb] in Hc. assert (1 <= p / cb)
        by (destruct (split_pos p ltac:(lia)) as (E & _ & _); pose proof (cluster_bytes_range v Hv); assert (p mod cb = 0) by lia; nia).
      replace (Z.to_nat (p / cb)) with (S (Z.to_nat (p / cb - 1))) in Hc by lia. rewrite (chain_next v Hv s _ cs _ _ _ Hch Hidx Hc) in En. congruence. }
    subst st. split; [done|]. split; cbn; try done; lia.
  - split; cbn; try done; lia.
Qed.

Lemma bytes_at_cut (d : list Z) off n : 0 <= off -> bytes_at d off n = bytes_at d off (n `min` (zlen d - off)).
Proof.
  intros Ho. unfold bytes_at, zlen. destruct (Z.le_gt_cases n (Z.of_nat (length d) - off)); [by rewrite Z.min_l by lia|].
  rewrite Z.min_r by lia. rewrite !take_ge; [done|rewrite length_drop; lia..].
Qed.

Lemma bytes_at_split (d : list Z) off k n : 0 <= off -> 0 <= k <= n -> bytes_at d off n = bytes_at d off k ++ bytes_at d (off + k) (n - k).
Proof.
  intros Ho Hk. unfold bytes_at. replace (Z.to_nat (off + k)) with (Z.to_nat off + Z.to_nat k)%nat by lia.
  rewrite <-drop_drop, take_take_drop. f_equal. lia.
Qed.

Lemma read_loop_spec fuel : forall s f e cs c n, handle s f e cs c -> 0 <= n < Z.of_nat fuel ->
  exists f', fat_read_loop v fuel s f n = (f', bytes_at c (ff_pos f) n) /\ ff_pos f' = (ff_pos f + n) `min` ff_size f.
Proof.
  induction fuel as [|fuel IH]; intros s f e cs c n Hh Hn; [lia|]. pose proof Hh as [Hf He Hfc Hsz Hp Hcur]. cbn [fat_read_loop].
  pose proof (content_length _ _ _ _ Hf) as Hc. destruct ((n =? 0) || (ff_pos f >=? ff_size f)) eqn:E0.
  { exists f. split; [|lia]. f_equal. unfold bytes_at. destruct (Z.eqb_spec n 0) as [->|]; [done|]. rewrite drop_ge by (unfold zlen in *; lia). by rewrite take_nil. }
  assert (Hne : cs <> []) by (intros ->; destruct (file_empty _ _ _ Hf); lia). destruct (file_chain _ _ _ _ Hf Hne) as [Hch _]. specialize (Hcur Hne).
  assert (Hidx : cs !! Z.to_nat (ff_pos f / cb) = Some (cur_cluster f)).
  { rewrite <-Hcur. unfold cur_index. by replace (ff_pos f =? ff_size f) with false by lia. }
  pose proof (chain_valid _ _ _ _ Hch) as Hval. rewrite list_relations.list.Forall_forall in Hval.
  rewrite (proj1 (data_at_eq v Hv _ (Hval _ (list_elem_of_lookup_2 _ _ _ Hidx)))).
  set (m := n `min` (ff_size f - ff_pos f)). destruct (chunk_range (ff_pos f) m ltac:(lia) ltac:(lia)) as (Hk & Hkc & _ & Hk3).
  match goal with |- context [if ?a >? ?b then ?b else ?a] => replace (if a >? b then b else a) with (chunk_of (ff_pos f) m) end.
  2:{ unfold chunk_of, m. destruct (Z.gtb_spec n (cb - ff_pos f mod cb)); repeat match goal with |- context [?a >? ?b] => destruct (Z.gtb_spec a b) | |- context [?a <? ?b] => destruct (Z.ltb_spec a b) end; lia. }
  set (k := chunk_of (ff_pos f) m) in *. cbn [ff_pos cur_cluster first_cluster ff_size dir_ent]. rewrite u32_small by (pose proof (fa_size _ _ _ _ Hf); lia).
  assert (Hout : mem_bytes (image s) (data_at v (cur_cluster f) + ff_pos f mod cb) k = bytes_at c (ff_pos f) k).
  { rewrite (raw_slice s cs (ff_pos f) k (cur_cluster f) ltac:(lia) ltac:(lia) Hidx Hkc). rewrite (fa_content _ _ _ _ Hf). unfold bytes_at.
    rewrite skipn_firstn_comm, take_take. f_equal. lia. }
  assert (Hcut : bytes_at c (ff_pos f) n = bytes_at c (ff_pos f) k ++ bytes_at c (ff_pos f + k) (n - k)) by (apply bytes_at_split; lia).
  rewrite Hout, Hcut. pose proof (handle_step s f e cs c k Hh ltac:(lia) ltac:(lia) Hk3) as Hstep. cbv zeta in Hstep.
  destruct ((_ =? 0) && _).
  - destruct Hstep as (y & -> & Hh2). cbn [Z.eqb negb]. destruct (IH s _ e cs c (n - k) Hh2 ltac:(lia)) as (f' & E & Hp').
    unfold at_pos in E. rewrite E. exists f'. split; [done|]. cbn in Hp'. lia.
  - destruct (IH s _ e cs c (n - k) Hstep ltac:(lia)) as (f' & E & Hp'). unfold at_pos in E. rewrite E. exists f'. split; [done|]. cbn in Hp'. lia.
Qed.

Lemma fat_read_spec s f e cs c n : handle s f e cs c -> 0 <= n ->
  exists f', fat_read v s f n = (f', bytes_at c (ff_pos f) n) /\ ff_pos f' = (ff_pos f + n) `min` ff_size f.
Proof. intros Hh Hn. eapply read_loop_spec; [done|lia]. Qed.

Lemma fat_truncate_spec s f e cs c : handle s f e cs c ->
  exists s', fat_truncate v rtc_read s f = (s', FatFile 0 0 0 0 (Some e), 0) /\ file_at s' e [] [] /\
    (forall d, d ∈ cs -> get s' d = 0) /\ others (meta e) cs s s'.
Proof.
  intros [Hf He Hfc Hsz Hp _]. pose proof (fa_entry _ _ _ _ Hf) as Hent. unfold fat_truncate. rewrite He.
  set (s1 := if first_cluster f =? 0 then s else fat_impl_free_chain v s (first_cluster f)).
  assert (H1 : (forall d, d ∈ cs -> valid v d /\ get s1 d = 0) /\ (forall d, valid v d -> d ∉ cs -> get s1 d = get s d) /\
    (forall x, ~ in_table v x -> ld8 (image s1) x = ld8 (image s) x)).
  { unfold s1. rewrite Hfc. destruct (decide (cs = [])) as [->|Hne].
    - destruct (file_empty _ _ _ Hf) as (_ & -> & _). cbn [Z.eqb]. split; [set_solver|done].
    - destruct (file_chain _ _ _ _ Hf Hne) as [Hch Hnz]. apply Z.eqb_neq in Hnz as ->. destruct (free_chain_spec v Hv s _ cs Hch) as (F1 & F2 & F3).
      pose proof (chain_valid _ _ _ _ Hch) as Hval. rewrite list_relations.list.Forall_forall in Hval. split; [|done]. auto. }
  destruct H1 as (F1 & F2 & F3).
  set (s2 := fat_impl_entry_set_cluster v s1 e 0). set (s3 := fat_impl_entry_set_size s2 e 0).
  set (s4 := fat_flush_bytes v (fat_impl_set_timestamp rtc_read s3 e) e 32). exists s4. split; [done|].
  assert (M : meta_only s1 s4 e).
  { eapply meta_trans; [apply set_cluster_meta|]. eapply meta_trans; [apply set_size_meta|]. eapply meta_trans; [apply timestamp_meta|apply flush_meta]. }
  assert (C : ecluster s4 e = 0).
  { unfold s4. rewrite flush_cluster, timestamp_cluster. unfold s3. rewrite set_size_cluster. apply set_cluster_get. unfold link_ok, cluster_eoc. destruct (vol_type v); lia. }
  assert (Z : esize s4 e = 0) by (unfold s4; rewrite flush_size, timestamp_size; by apply set_size_get).
  assert (Hent1 : entry_ok s1 e []).
  { destruct Hent as (E1 & E2 & E3). split; [done|]. split; [done|]. intros x Hx. destruct (E3 x Hx) as [E4 E5]. split; [done|]. intros d Hd Hin.
    destruct (E5 d Hd Hin). rewrite F2 by done. split; [done|set_solver]. }
  assert (G : forall d, valid v d -> get s4 d = get s1 d) by (intros d Hd; eapply entry_only_get; [by apply meta_entry|done|done]).
  split; [|split; [|split]].
  - split; rewrite ?C, ?Z; [|lia|done|by left|done]. eapply entry_only_ok; [by apply meta_entry|done].
  - intros d Hd. destruct (F1 d Hd). by rewrite G.
  - intros d Hd Hn. rewrite G by done. auto.
  - intros x Hx _ Hm. rewrite M by done. by apply F3.
Qed.

(** ** The operations of the switch *)
Lemma vfs_read_spec s e cs c p n : file_at s e cs c -> 0 <= p -> 0 <= n ->
  fat_vfs_read v s (Some e) p n = (p `max` ((p + n) `min` zlen c), bytes_at c p n).
Proof.
  intros Hf Hp Hn. pose proof (content_length _ _ _ _ Hf) as Hc. pose proof (fa_size _ _ _ _ Hf). unfold fat_vfs_read, entry_size. rewrite <-Hc.
  destruct (Z.geb_spec p (zlen c)).
  - f_equal; [lia|]. unfold bytes_at. rewrite drop_ge by (unfold zlen in *; lia). by rewrite take_nil.
  - destruct (cursor_spec s e cs c p Hf ltac:(unfold UINT32_MAX; lia)) as (f & -> & Hh & Ep).
    destruct (fat_read_spec s f e cs c n Hh Hn) as (f' & -> & ->). rewrite (ha_size _ _ _ _ _ Hh), Ep.
    rewrite (Z.min_l p) by lia. f_equal. lia.
Qed.

(** Two steps that grow a file one after the other. *)
Lemma grow_trans P cs n1 n2 s s1 s2 : (forall d, d ∈ cs ++ n1 -> get s1 d <> 0) ->
  Forall (fun d => valid v d /\ get s d = 0) n1 -> others P (cs ++ n1) s s1 ->
  Forall (fun d => valid v d /\ get s1 d = 0) n2 -> others P (cs ++ n1 ++ n2) s1 s2 ->
  Forall (fun d => valid v d /\ get s d = 0) (n1 ++ n2) /\ others P (cs ++ n1 ++ n2) s s2.
Proof.
  intros Hu F1 O1 F2 O2. split.
  - apply list_relations.list.Forall_app. split; [done|]. rewrite list_relations.list.Forall_forall in F2 |- *. intros d Hd. destruct (F2 d Hd) as [Hvd Hz].
    split; [done|]. rewrite <-(proj1 O1); [done..|]. intros Hin. by apply (Hu d Hin).
  - apply (others_trans P (cs ++ n1) _ s s1 s2); [|done|done]. intros d. rewrite !elem_of_app. tauto.
Qed.

Lemma file_used s e cs c d : file_at s e cs c -> d ∈ cs -> get s d <> 0.
Proof. intros Hf Hd. assert (Hne : cs <> []) by (intros ->; by apply not_elem_of_nil in Hd). destruct (file_chain _ _ _ _ Hf Hne) as [Hch _]. by eapply chain_used. Qed.

(** Outside of the file, [s'] differs from [s] only by clusters that were
    free and are now the file's. *)
Definition grew s (e : Z) (cs new : list Z) s' : Prop :=
  Forall (fun d => valid v d /\ get s d = 0) new /\ others (meta e) (cs ++ new) s s'.

Lemma grew_trans s s1 s2 e cs n1 n2 c1 : file_at s1 e (cs ++ n1) c1 -> grew s e cs n1 s1 -> grew s1 e (cs ++ n1) n2 s2 -> grew s e cs (n1 ++ n2) s2.
Proof.
  intros Hf [F1 O1] [F2 O2]. rewrite <-app_assoc in O2. apply (grow_trans (meta e) cs n1 n2 s s1 s2); try done. intros d Hd. by eapply file_used.
Qed.

Lemma grew_refl s e cs : grew s e cs [] s.
Proof. split; [constructor|done]. Qed.

Definition zeros (n : Z) : list Z := replicate (Z.to_nat n) 0.

Lemma zeros_length n : 0 <= n -> zlen (zeros n) = n.
Proof. intros. unfold zlen, zeros. rewrite length_replicate. lia. Qed.

Lemma copy_to_end (c d : list Z) : copy_to c (zlen c) d = c ++ d.
Proof.
  unfold copy_to, zlen. rewrite take_ge, (drop_ge c) by lia. by rewrite app_nil_r.
Qed.

Lemma take_full (d : list Z) : take (Z.to_nat (zlen d)) d = d.
Proof. unfold zlen. rewrite Nat2Z.id. apply firstn_all. Qed.

Lemma fill_loop_spec fuel : forall s f e cs c gap, handle s f e cs c -> ff_pos f = zlen c -> zlen c + gap < 2 ^ 32 -> 0 <= gap < Z.of_nat fuel ->
  exists s' new j ok, fill_loop v rtc_read fuel s f gap = (s', ok) /\ file_at s' e (cs ++ new) (c ++ zeros j) /\ 0 <= j <= gap /\
    (if ok then j = gap else no_free v s') /\ grew s e cs new s'.
Proof.
  induction fuel as [|fuel IH]; intros s f e cs c gap Hh Ep Hmax Hg; [lia|]. cbn [fill_loop]. destruct (Z.eqb_spec gap 0) as [->|Hnz].
  { exists s, [], 0, true. rewrite !app_nil_r. split; [done|]. split; [apply Hh|]. split; [lia|]. split; [done|apply grew_refl]. }
  set (n := if gap <? 512 then gap else 512). assert (Hn : 0 < n <= gap) by (unfold n; destruct (Z.ltb_spec gap 512); lia).
  fold (zeros n). pose proof (zeros_length n ltac:(lia)) as Hz.
  destruct (fat_write_spec s f e cs c (zeros n) Hh ltac:(lia)) as (s1 & f1 & k & n1 & -> & Hk & Ep1 & Hf1 & Hh1 & Hfull & HF & HO).
  rewrite Ep, copy_to_end in *. assert (Hne : zeros n <> []) by (intros E; rewrite E in Hz; unfold zlen in Hz; cbn [length] in Hz; lia). specialize (Hh1 Hne).
  destruct (Z.eqb_spec k n) as [->|Hkn]; cbn [negb].
  - assert (Ht : take (Z.to_nat n) (zeros n) = zeros n) by (apply take_ge; unfold zlen in Hz; lia). rewrite Ht in *.
    destruct (IH s1 f1 e (cs ++ n1) (c ++ zeros n) (gap - n) Hh1) as (s2 & n2 & j & ok & -> & Hf2 & Hj & Hok & HG).
    { unfold zlen in *. rewrite length_app. lia. }
    { unfold zlen in *. rewrite length_app. lia. }
    { lia. }
    exists s2, (n1 ++ n2), (n + j), ok. split; [done|]. split; [|split; [lia|split]].
    + rewrite <-!app_assoc in Hf2. unfold zeros in *. rewrite <-replicate_add in Hf2. by replace (Z.to_nat (n + j)) with (Z.to_nat n + Z.to_nat j)%nat by lia.
    + destruct ok; [lia|done].
    + by eapply grew_trans.
  - exists s1, n1, k, false. split; [done|]. unfold zeros in Hf1 at 1. rewrite take_replicate, Nat.min_l in Hf1 by lia.
    split; [done|]. split; [lia|]. split; [|done]. destruct Hfull as [E|?]; [lia|done].
Qed.

(** The bytes of a write clipped to what a FAT size can describe. *)
Definition clipped (buf : list Z) (p : Z) : list Z := if zlen buf >? UINT32_MAX - p then take (Z.to_nat (UINT32_MAX - p)) buf else buf.

Lemma clipped_length buf p : 0 <= p <= UINT32_MAX -> zlen (clipped buf p) = zlen buf `min` (UINT32_MAX - p).
Proof. intros Hp. unfold clipped. destruct (Z.gtb_spec (zlen buf) (UINT32_MAX - p)); unfold zlen in *; rewrite ?length_take; lia. Qed.

(** A write whose position is inside the file or at its end. *)
Lemma vfs_write_inside s e cs c p buf : file_at s e cs c -> 0 <= p <= UINT32_MAX -> p <= zlen c ->
  exists s' k new, vfs_write_at v rtc_read s (Some e) p buf = (s', p + k, k) /\ 0 <= k <= zlen buf /\ file_at s' e (cs ++ new) (copy_to c p (take (Z.to_nat k) buf)) /\
    (k = zlen buf `min` (UINT32_MAX - p) \/ no_free v s') /\ grew s e cs new s'.
Proof.
  intros Hf Hp Hpc. unfold vfs_write_at. destruct (cursor_spec s e cs c p Hf Hp) as (f & -> & Hh & Ep). rewrite <-(content_length _ _ _ _ Hf), Z.min_l in Ep by lia.
  rewrite Ep. fold (zlen buf). fold (clipped buf p). pose proof (clipped_length buf p Hp) as Hcl.
  destruct (fat_write_spec s f e cs c (clipped buf p) Hh) as (s1 & f1 & k & n1 & Ew & Hk & Ep1 & Hf1 & _ & Hfull & HF & HO); [unfold UINT32_MAX in *; lia|].
  rewrite Ew. exists s1, k, n1. rewrite Ep in *. rewrite Hcl in Hk, Hfull. split; [by rewrite Ep1|]. split; [lia|].
  assert (take (Z.to_nat k) (clipped buf p) = take (Z.to_nat k) buf) as <-; [|done].
  unfold clipped. destruct (Z.gtb_spec (zlen buf) (UINT32_MAX - p)); [|done]. rewrite take_take. f_equal. lia.
Qed.

Lemma vfs_write_spec s e cs c p buf : file_at s e cs c -> 0 <= p <= UINT32_MAX -> (attributes s (Some e) &? FAT_ATTR_READ_ONLY) = false ->
  exists s' k new c', fat_vfs_write v rtc_read s (Some e) p buf = (s', p + k, k) /\ 0 <= k <= zlen buf /\ file_at s' e (cs ++ new) c' /\ grew s e cs new s' /\
    ((c' = copy_to (c ++ zeros (p - zlen c)) p (take (Z.to_nat k) buf) /\ (k = zlen buf `min` (UINT32_MAX - p) \/ no_free v s')) \/
     (k = 0 /\ no_free v s' /\ exists j, c' = c ++ zeros j /\ 0 <= j <= p - zlen c)).
Proof.
  intros Hf Hp Ha. unfold fat_vfs_write. rewrite Ha. unfold fill_gap, entry_size. pose proof (content_length _ _ _ _ Hf) as Hc. pose proof (fa_size _ _ _ _ Hf).
  destruct (Z.leb_spec p (esize s e)) as [Hle|Hgt].
  - cbn [negb]. destruct (vfs_write_inside s e cs c p buf Hf Hp ltac:(lia)) as (s1 & k & n1 & -> & Hk & Hf1 & Hfull & HG).
    eexists s1, k, n1, _. split; [done|]. split; [done|]. split; [exact Hf1|]. split; [done|]. left. split; [|done].
    assert (zeros (p - zlen c) = []) as -> by (unfold zeros; by replace (Z.to_nat (p - zlen c)) with 0%nat by lia). by rewrite app_nil_r.
  - destruct (cursor_spec s e cs c (esize s e) Hf ltac:(unfold UINT32_MAX; lia)) as (f & -> & Hh & Ep). rewrite Z.min_id in Ep.
    destruct (fill_loop_spec (S (Z.to_nat (p - esize s e))) s f e cs c (p - esize s e) Hh) as (s1 & n1 & j & ok & -> & Hf1 & Hj & Hok & HG);
      [lia|unfold UINT32_MAX in *; lia|lia|].
    destruct ok; cbn [negb].
    + subst j. rewrite <-Hc in *. assert (Hl : zlen (c ++ zeros (p - zlen c)) = p).
      { pose proof (zeros_length (p - zlen c) ltac:(lia)) as Hz. unfold zlen in *. rewrite length_app. lia. }
      destruct (vfs_write_inside s1 e (cs ++ n1) _ p buf Hf1 Hp ltac:(lia)) as (s2 & k & n2 & -> & Hk & Hf2 & Hfull & HG2).
      rewrite <-app_assoc in Hf2. eexists s2, k, (n1 ++ n2), _. split; [done|]. split; [done|]. split; [exact Hf2|]. split; [by eapply grew_trans|]. by left.
    + eexists s1, 0, n1, _. rewrite Z.add_0_r. split; [done|]. split; [unfold zlen; lia|]. split; [exact Hf1|]. split; [done|]. right. split; [done|]. split; [done|].
      exists j. split; [done|]. lia.
Qed.

(** ** Other files *)

(** The clusters and the entry of one file and those of another do not overlap. *)
Definition apart (e : Z) (cs : list Z) (e2 : Z) (cs2 : list Z) : Prop :=
  (forall d, d ∈ cs -> d ∉ cs2) /\ (forall x, in_entry e2 x -> ~ in_entry e x /\ forall d, d ∈ cs -> ~ in_cluster v d x) /\
  (forall x d, in_entry e x -> d ∈ cs2 -> ~ in_cluster v d x).

Lemma others_file s s' e cs e2 cs2 c2 : others (meta e) cs s s' -> Forall (valid v) cs -> apart e cs e2 cs2 -> file_at s e2 cs2 c2 -> file_at s' e2 cs2 c2.
Proof.
  intros [G B] Hval (A1 & A2 & A3) Hf. pose proof Hf as [(E1 & E2 & E3) S1 S2 C ->]. rewrite list_relations.list.Forall_forall in Hval.
  assert (Hme : forall x, meta e x -> in_entry e x) by (unfold meta, in_entry; lia).
  assert (Hv2 : forall d, d ∈ cs2 -> valid v d).
  { intros d Hd. destruct C as [[-> _]|C]; [by apply not_elem_of_nil in Hd|]. apply chain_valid in C. rewrite list_relations.list.Forall_forall in C. by apply C. }
  assert (G2 : forall d, d ∈ cs2 -> get s' d = get s d) by (intros d Hd; apply G; [by apply Hv2|]; intros Hin; by apply (A1 d Hin)).
  assert (R : raw s' cs2 = raw s cs2).
  { apply raw_ext. intros d Hd. apply cdata_ext. intros x Hx. apply B.
    - by apply (cluster_not_table v Hv d x (Hv2 d Hd) Hx).
    - intros d' Hd' Hx'. apply (A1 d' Hd'). by rewrite (cluster_disjoint v Hv d' d x (Hval d' Hd') (Hv2 d Hd) Hx' Hx).
    - intros Hm. by apply (A3 x d (Hme x Hm) Hd). }
  destruct (entry_same s s' e2) as [F1 F2].
  { intros x Hx. destruct (A2 x Hx) as [A4 A5]. apply B; [by apply E3|done|auto]. }
  split; rewrite ?F1, ?F2, ?R; try done.
  - split; [done|]. split; [done|]. intros x Hx. destruct (E3 x Hx) as [E4 E5]. split; [done|]. intros d Hd Hin. destruct (E5 d Hd Hin) as [E6 E7]. split; [|done].
    rewrite G; [done|done|]. intros Hdc. by apply (proj2 (A2 x Hx) d Hdc).
  - destruct C as [C|C]; [by left|right]. by apply (chain_ext v Hv s).
Qed.

Lemma grew_file s s' e cs new e2 cs2 c2 : grew s e cs new s' -> Forall (valid v) cs -> apart e cs e2 cs2 -> file_at s e2 cs2 c2 -> file_at s' e2 cs2 c2.
Proof.
  intros [F O] Hval (A1 & A2 & A3) Hf. rewrite list_relations.list.Forall_forall in F.
  apply (others_file s s' e (cs ++ new)); [done| | |done].
  - apply list_relations.list.Forall_app. split; [done|]. apply list_relations.list.Forall_forall. intros d Hd. by destruct (F d Hd).
  - split; [|split; [|done]].
    + intros d [Hd|Hd]%elem_of_app; [by apply A1|]. intros Hd2. destruct (F d Hd) as [_ Hz]. by apply (file_used s e2 cs2 c2 d Hf Hd2).
    + intros x Hx. destruct (A2 x Hx) as [A4 A5]. split; [done|]. intros d [Hd|Hd]%elem_of_app; [by apply A5|]. intros Hin. destruct (F d Hd) as [Hvd Hz].
      destruct (fa_entry _ _ _ _ Hf) as (_ & _ & E3). by destruct (proj2 (E3 x Hx) d Hvd Hin).
Qed.

Lemma file_valid s e cs c : file_at s e cs c -> Forall (valid v) cs.
Proof. intros [_ _ _ [[-> _]|C] _]; [constructor|by eapply chain_valid]. Qed.

Lemma vfs_truncate_spec s e cs c : file_at s e cs c -> (attributes s (Some e) &? FAT_ATTR_READ_ONLY) = false ->
  exists s', fat_vfs_truncate v rtc_read s (Some e) = (s', 0) /\ file_at s' e [] [] /\ (forall d, d ∈ cs -> get s' d = 0) /\ others (meta e) cs s s'.
Proof.
  intros Hf Ha. unfold fat_vfs_truncate. rewrite Ha. destruct (cursor_spec s e cs c 0 Hf ltac:(unfold UINT32_MAX; lia)) as (f & -> & Hh & _).
  destruct (fat_truncate_spec s f e cs c Hh) as (s' & -> & H). eauto.
Qed.
End Files.

(** ** A file of the example volume: an empty one, in the first root entry *)
Definition ex_rtc (w : bmem) : rtc_time * bmem := (RtcTime 2026 1 2 3 4 5 true, w).
Definition ex_state (m : bmem) : fat_state bmem := FatState m m.
Definition ex_entry : Z := 49 * 512.

Lemma ex_file w : file_at (ex_volume w) (ex_state (ex_boot 24 0)) ex_entry [] [].
Proof.
  split; [|vm_compute; intuition congruence|vm_compute; congruence|left; split; [done|vm_compute; reflexivity]|vm_compute; reflexivity].
  split; [unfold ex_entry; lia|]. split; [unfold ex_entry; cbn; unfold ex_size; lia|]. intros x Hx. unfold in_entry, ex_entry in Hx.
  split; [unfold in_table; cbn; lia|]. intros d Hd Hin. destruct (cluster_not_table _ (ex_volume_ok w) d x Hd Hin) as [_ Hr]. destruct Hr. unfold in_root. cbn. lia.
Qed.

(** C8: a file is a sequence of bytes. Reading returns the bytes at the
    position, cut at the end of the file. Writing puts the
    bytes in place, after zeros up to the position if that is behind the end,
    and stores all of them unless the volume is full or the file reaches 4
    GiB; whatever happens, the file then has exactly the content described.
    Truncating empties the file and frees exactly its clusters. Read-only
    files are refused. No other file changes: neither its content nor its
    clusters. *)
Theorem fat_file_refines {W} (v : fat_volume W) (rtc_read : W -> rtc_time * W) s e cs c p n buf :
  vol_ok v -> file_at v s e cs c -> 0 <= p <= UINT32_MAX -> 0 <= n ->
  fat_vfs_read v s (Some e) p n = (p `max` ((p + n) `min` zlen c), bytes_at c p n) /\
  (if attributes s (Some e) &? FAT_ATTR_READ_ONLY then
     fat_vfs_write v rtc_read s (Some e) p buf = (s, p, 0) /\ fat_vfs_truncate v rtc_read s (Some e) = (s, -1)
   else
     (exists s' k new c', fat_vfs_write v rtc_read s (Some e) p buf = (s', p + k, k) /\ 0 <= k <= zlen buf /\ file_at v s' e (cs ++ new) c' /\
        ((c' = copy_to (c ++ zeros (p - zlen c)) p (take (Z.to_nat k) buf) /\ (k = zlen buf `min` (UINT32_MAX - p) \/ no_free v s')) \/
         (k = 0 /\ no_free v s' /\ exists j, c' = c ++ zeros j /\ 0 <= j <= p - zlen c)) /\
        forall e2 cs2 c2, apart v e cs e2 cs2 -> file_at v s e2 cs2 c2 -> file_at v s' e2 cs2 c2) /\
     (exists s', fat_vfs_truncate v rtc_read s (Some e) = (s', 0) /\ file_at v s' e [] [] /\ (forall d, d ∈ cs -> fat_get v s' d = 0) /\
        (forall d, valid v d -> d ∉ cs -> fat_get v s' d = fat_get v s d) /\
        forall e2 cs2 c2, apart v e cs e2 cs2 -> file_at v s e2 cs2 c2 -> file_at v s' e2 cs2 c2)).
Proof.
  intros Hv Hf Hp Hn. split; [by apply (vfs_read_spec v Hv s e cs); [done|lia|]|]. destruct (_ &? _) eqn:Ha.
  { unfold fat_vfs_write, fat_vfs_truncate. by rewrite Ha. }
  pose proof (file_valid v s e cs c Hf) as Hval. split.
  - destruct (vfs_write_spec v Hv rtc_read s e cs c p buf Hf Hp Ha) as (s' & k & new & c' & E & Hk & Hf' & HG & Hc). exists s', k, new, c'.
    split; [done|]. split; [done|]. split; [done|]. split; [done|]. intros. by eapply grew_file.
  - destruct (vfs_truncate_spec v Hv rtc_read s e cs c Hf Ha) as (s' & E & Hf' & Hz & HO). exists s'. split; [done|]. split; [done|]. split; [done|].
    split; [apply HO|]. intros. by eapply others_file.
Qed.

Lemma fat_file_refines_witness : exists s' k new c', fat_vfs_write (ex_volume None) ex_rtc (ex_state (ex_boot 24 0)) (Some ex_entry) 600 [1; 2; 3] = (s', 600 + k, k) /\
  k = 3 /\ file_at (ex_volume None) s' ex_entry new c' /\ fat_vfs_read (ex_volume None) s' (Some ex_entry) 598 10 = (603, [0; 0; 1; 2; 3]).
Proof.
  destruct (fat_file_refines (ex_volume None) ex_rtc (ex_state (ex_boot 24 0)) ex_entry [] [] 600 10 [1; 2; 3] (ex_volume_ok None) (ex_file None)
    ltac:(unfold UINT32_MAX; lia) ltac:(lia)) as [_ H]. assert (E : (attributes (ex_state (ex_boot 24 0)) (Some ex_entry) &? FAT_ATTR_READ_ONLY) = false) by (vm_compute; reflexivity).
  rewrite E in H. destruct H as [(s' & k & new & c' & Ew & _ & Hf' & _) _].
  assert (Ek : k = 3) by (assert (Hk : snd (fat_vfs_write (ex_volume None) ex_rtc (ex_state (ex_boot 24 0)) (Some ex_entry) 600 [1; 2; 3]) = 3) by (vm_compute; reflexivity); rewrite Ew in Hk; exact Hk).
  exists s', k, new, c'. split; [exact Ew|]. split; [exact Ek|]. split; [exact Hf'|].
  assert (Es : s' = fst (fst (fat_vfs_write (ex_volume None) ex_rtc (ex_state (ex_boot 24 0)) (Some ex_entry) 600 [1; 2; 3]))) by (by rewrite Ew).
  rewrite Es. vm_compute. reflexivity.
Defined.
