(* ===== verification/FatSync.v ===== *)
(** FAT write-through ([fat_flush_bytes] of [kernel/fs/fat/fat_mount.c] and its
    callers): after every operation the block device holds what the image
    in memory holds. *)
From S2P Require Import Prelude KString KStringSpec Fat FatSpec FatFileSpec.

Section Sync.
Context {W : Type} (v : fat_volume W) (Hv : vol_ok v) (rtc_read : W -> rtc_time * W).
(** The byte of the device at an offset of the volume.  The sector writer stores
    the sector it is given; reading the clock stores nothing. *)
Context (dev_byte : W -> Z -> Z) (w : W -> Z -> list Z -> W) (Hw : write_sector v = Some w).
Context (write_law : forall d lba data a, dev_byte (w d lba data) a =
  if decide (lba * bytes_per_sector v <= a < lba * bytes_per_sector v + Z.of_nat (length data))
  then data !!! Z.to_nat (a - lba * bytes_per_sector v) else dev_byte d a).
Context (rtc_law : forall d a, dev_byte (snd (rtc_read d)) a = dev_byte d a).
Implicit Types (s : fat_state W) (f : fat_file) (P : Z -> Prop).

Abbreviation bps := (bytes_per_sector v).

(** Device and image agree outside of [P]. *)
Definition synced_but P s : Prop := forall a, 0 <= a < image_size v -> ~ P a -> dev_byte (world s) a = ld8 (image s) a.
Definition synced s : Prop := synced_but (fun _ => False) s.

Lemma synced_weaken P Q s : (forall a, P a -> Q a) -> synced_but P s -> synced_but Q s.
Proof. intros H Hs a Ha Hq. apply Hs; auto. Qed.

Lemma flush_sector_byte s lba a : dev_byte (world (fat_flush_sector v s lba)) a =
  if decide (lba * bps <= a < lba * bps + bps) then ld8 (image s) a else dev_byte (world s) a.
Proof.
  pose proof (bps_range v Hv) as Hb. unfold fat_flush_sector. rewrite Hw. cbn [world set_world]. rewrite write_law, mem_bytes_length, Z2Nat.id by lia.
  case_decide as Hd; [|done]. apply list_lookup_total_correct. unfold sector. rewrite mem_bytes_lookup by lia. f_equal. f_equal. lia.
Qed.

Lemma flush_sectors_byte n : forall s first a, dev_byte (world (foldl (fat_flush_sector v) s (seqZ first (Z.of_nat n)))) a =
  if decide (first * bps <= a < (first + Z.of_nat n) * bps) then ld8 (image s) a else dev_byte (world s) a.
Proof.
  pose proof (bps_range v Hv) as Hb. induction n as [|n IH]; intros s first a; [cbn; by rewrite decide_False by lia|].
  rewrite seqZ_cons by lia. cbn [foldl]. replace (Z.pred (Z.of_nat (S n))) with (Z.of_nat n) by lia.
  rewrite IH, flush_sector_byte.
  assert (Hi : image (fat_flush_sector v s first) = image s) by (unfold fat_flush_sector; by rewrite Hw). rewrite Hi.
  repeat case_decide; try done; lia.
Qed.

(** A flush makes the sectors it covers agree and disturbs no others. *)
Lemma flush_synced P s off n : 0 <= off -> 0 < n -> off + n <= image_size v ->
  synced_but (fun a => P a \/ off <= a < off + n) s -> synced_but P (fat_flush_bytes v s off n).
Proof.
  intros Ho Hn Hi Hs a Ha HP. rewrite flush_image. unfold fat_flush_bytes. rewrite Hw. pose proof (bps_range v Hv) as Hb. pose proof (vo_size v Hv).
  replace (n =? 0) with false by lia. replace (bps =? 0) with false by lia. cbn [orb].
  replace (off <? 0) with false by lia. replace (off >=? image_size v) with false by lia. cbn [orb].
  replace (n >? image_size v - off) with false by lia.
  assert (D : forall x, 0 <= x < image_size v -> u32 (x / bps) = x / bps /\ x / bps * bps <= x < (x / bps + 1) * bps).
  { intros x Hx. pose proof (Z.div_mod x bps ltac:(lia)). pose proof (Z.mod_pos_bound x bps ltac:(lia)). split; [|lia]. apply u32_small. split; [apply Z.div_pos; lia|].
    apply Z.div_lt_upper_bound; lia. }
  destruct (D off ltac:(lia)) as [-> D1]. destruct (D (off + n - 1) ltac:(lia)) as [-> D2].
  assert (Hm : off / bps <= (off + n - 1) / bps) by (apply Z.div_le_mono; lia).
  replace ((off + n - 1) / bps - off / bps + 1) with (Z.of_nat (Z.to_nat ((off + n - 1) / bps - off / bps + 1))) by lia.
  rewrite flush_sectors_byte. case_decide as Hd; [done|]. apply Hs; [done|]. intros [?|Hin]; [done|]. apply Hd. rewrite Z2Nat.id by lia. lia.
Qed.

(** Changing bytes and flushing them. *)
Lemma store_synced P s m off n : 0 <= off -> 0 < n -> off + n <= image_size v -> only (image s) m off n ->
  synced_but P s -> synced_but P (fat_flush_bytes v (set_image s m) off n).
Proof.
  intros Ho Hn Hi Hm Hs. apply flush_synced; try done. intros a Ha HP. cbn [world image set_image]. rewrite Hm by tauto. apply Hs; [done|tauto].
Qed.

Lemma fat_put_set s t c x : exists m, fat_put v s t c x = set_image s m.
Proof. unfold fat_put. destruct (vol_type v); eauto. Qed.

Lemma fat_set_synced P s c x : valid v c -> synced_but P s -> synced_but P (fat_set v s c x).
Proof.
  intros Hc Hs. unfold fat_set. assert (HF : Forall (fun t => 0 <= t < fat_count v) (seqZ 0 (fat_count v)))
    by (apply list_relations.list.Forall_forall; intros t Hf; apply elem_of_seqZ in Hf; lia).
  revert s Hs. induction HF as [|t fs Hf _ IH]; intros s Hs; cbn [foldl]; [done|]. apply IH. clear IH.
  rewrite (table_at_eq v Hv t Hf). assert (Hwd : 2 <= entry_width v) by (unfold entry_width; destruct (vol_type v); lia).
  pose proof (fat_put_only v s (table_at v t) c x) as Ho. destruct (fat_put_set s (table_at v t) c x) as [m Em]. rewrite Em in *.
  assert (R : forall y, table_at v t + c * entry_width v <= y < table_at v t + (c + 1) * entry_width v -> 0 <= y < image_size v).
  { intros y Hy. apply (regions_in_image v Hv). left. by apply (table_at_range v Hv t c y Hf Hc). }
  pose proof (R (table_at v t + c * entry_width v) ltac:(lia)). pose proof (R (table_at v t + (c + 1) * entry_width v - 1) ltac:(lia)).
  apply store_synced; [lia|lia|lia|exact Ho|done].
Qed.

Lemma cluster_in_image c : valid v c -> 0 <= data_at v c /\ data_at v c + cluster_bytes v <= image_size v.
Proof.
  intros Hc. pose proof (cluster_bounds v Hv c Hc). pose proof (data_start_pos v Hv). pose proof (bps_range v Hv). nia.
Qed.

Lemma alloc_synced P s : synced_but P s -> synced_but P (fst (fat_impl_alloc_cluster v s)).
Proof.
  intros Hs. unfold fat_impl_alloc_cluster. destruct (list_find _ _) as [[i c]|] eqn:E; [|done]. cbn [fst].
  apply list_find_Some in E as (Hi & _). apply lookup_seqZ in Hi as [-> Hi]. assert (Hc : valid v (2 + Z.of_nat i)) by (unfold valid; lia).
  destruct (cluster_in_image _ Hc). pose proof (cluster_bytes_range v Hv). apply store_synced; [lia|lia|lia| |by apply fat_set_synced].
  intros x Hx. rewrite (memset_filled _ _ 0 (cluster_bytes v)) by lia. by rewrite decide_False.
Qed.

Lemma next_cluster_valid s c : fst (next_cluster v s c) <> -1 -> valid v c.
Proof. unfold next_cluster. intros H. apply valid_true. destruct (cluster_is_valid v c); [done|]. cbn in H. lia. Qed.

Lemma advance_synced P s c : synced_but P s -> synced_but P (fst (advance v s c)).
Proof.
  intros Hs. unfold advance. pose proof (next_cluster_valid s c) as Hc. destruct (next_cluster v s c) as [st nx]. cbn [fst] in Hc.
  destruct (Z.eqb_spec st 1) as [->|]; [|by destruct (st <? 0)].
  pose proof (alloc_synced P s Hs) as Ha. destruct (fat_impl_alloc_cluster v s) as [s1 n]. cbn [fst] in Ha.
  destruct (n =? 0); cbn [fst]; [done|]. apply fat_set_synced; [by apply Hc|done].
Qed.

Lemma free_synced P fuel : forall s c, synced_but P s -> synced_but P (free_chain_loop v fuel s c).
Proof.
  induction fuel as [|fuel IH]; intros s c Hs; cbn [free_chain_loop]; [done|]. destruct (cluster_is_valid v c) eqn:E; cbn [negb]; [|done].
  apply valid_true in E. assert (H1 : synced_but P (fat_set v s c 0)) by (by apply fat_set_synced).
  destruct (_ || _); [done|]. by apply IH.
Qed.

Lemma write_loop_synced P fuel : forall s f buf total, synced_but P s -> synced_but P (fst (fst (fat_write_loop v fuel s f buf total))).
Proof.
  pose proof (cluster_bytes_range v Hv) as Hcb.
  induction fuel as [|fuel IH]; intros s f buf total Hs; cbn [fat_write_loop]; [done|]. destruct (Z.eqb_spec (Z.of_nat (length buf)) 0); [done|].
  destruct (cluster_data v (cur_cluster f)) as [data|] eqn:E; [|done].
  assert (Hc : valid v (cur_cluster f)) by (apply valid_true; unfold cluster_data in E; by destruct (cluster_is_valid v _)).
  rewrite (proj1 (data_at_eq v Hv _ Hc)) in E. injection E as <-. destruct (cluster_in_image _ Hc). pose proof (Z.mod_pos_bound (ff_pos f) (cluster_bytes v) ltac:(lia)) as Ho.
  set (k := if Z.of_nat (length buf) <? _ then _ else _).
  assert (Hk : 0 < k <= cluster_bytes v - ff_pos f mod cluster_bytes v /\ k <= Z.of_nat (length buf))
    by (unfold k; destruct (Z.ltb_spec (Z.of_nat (length buf)) (cluster_bytes v - ff_pos f mod cluster_bytes v)); lia).
  set (s1 := fat_flush_bytes v _ _ k). assert (H1 : synced_but P s1).
  { apply store_synced; [lia|lia|lia| |done]. pose proof (only_st_bytes (image s) (data_at v (cur_cluster f) + ff_pos f mod cluster_bytes v) (take (Z.to_nat k) buf)) as Hst.
    rewrite length_take in Hst. by replace (Z.of_nat (Z.to_nat k `min` length buf)) with k in Hst by lia. }
  destruct (_ && _); [|by apply IH]. pose proof (advance_synced P s1 (cur_cluster f) H1) as H2. cbn [cur_cluster].
  destruct (advance v s1 (cur_cluster f)) as [s2 [nx|]]; cbn [fst] in *; [by apply IH|done].
Qed.

(** ** The entry, and whole operations *)
Lemma entry_synced s s' e : entry_only s s' e -> (forall a, dev_byte (world s') a = dev_byte (world s) a) ->
  synced_but (in_entry e) s -> synced_but (in_entry e) s'.
Proof. intros Ho Hd Hs a Ha Hn. rewrite Hd, (Ho a Hn). by apply Hs. Qed.

Lemma timestamp_synced s e : synced_but (in_entry e) s -> synced_but (in_entry e) (fat_impl_set_timestamp rtc_read s e).
Proof.
  apply entry_synced; [apply meta_entry, timestamp_meta|]. intros a. unfold fat_impl_set_timestamp. pose proof (rtc_law (world s) a) as Hr.
  destruct (rtc_read (world s)) as [now w1]. cbn [snd] in Hr. by repeat case_match.
Qed.

Lemma set_cluster_synced s e c : synced_but (in_entry e) s -> synced_but (in_entry e) (fat_impl_entry_set_cluster v s e c).
Proof. apply entry_synced; [apply meta_entry, set_cluster_meta|done]. Qed.
Lemma set_size_synced s e n : synced_but (in_entry e) s -> synced_but (in_entry e) (fat_impl_entry_set_size s e n).
Proof. apply entry_synced; [apply meta_entry, set_size_meta|done]. Qed.

Lemma flush_entry s e : 0 <= e -> e + 32 <= image_size v -> synced_but (in_entry e) s -> synced (fat_flush_bytes v s e 32).
Proof. intros H1 H2 Hs. apply flush_synced; [done|lia|done|]. eapply synced_weaken; [|exact Hs]. intros a Ha. by right. Qed.

Lemma publish_synced s f e : 0 <= e -> e + 32 <= image_size v -> synced_but (in_entry e) s -> synced (fst (write_publish v rtc_read s f e)).
Proof.
  intros H1 H2 Hs. unfold write_publish. set (s1 := if ff_pos f >? ff_size f then fat_impl_entry_set_size s e (ff_pos f) else s).
  assert (Hs1 : synced_but (in_entry e) s1) by (unfold s1; case_match; [by apply set_size_synced|done]).
  pose proof (flush_entry _ e H1 H2 (timestamp_synced s1 e Hs1)) as Hf. unfold s1 in Hf. destruct (ff_pos f >? ff_size f); destruct (_ && _); try done.
  all: by destruct (next_cluster v _ _).
Qed.

Lemma write_synced s f e cs c buf : handle v s f e cs c -> synced s -> synced (fst (fst (fat_write v rtc_read s f buf))).
Proof.
  intros Hh Hs. destruct Hh as [Hf He Hfc Hsz Hp _]. destruct (fa_entry _ _ _ _ _ Hf) as (E1 & E2 & _). unfold fat_write. rewrite He.
  assert (Hlast : forall s1 f1, synced_but (in_entry e) s1 -> synced (fst (fst
    (let '(s0, f0, total) := fat_write_loop v (S (length buf)) s1 f1 buf 0 in let '(s2, f2) := write_publish v rtc_read s0 f0 e in (s2, f2, total))))).
  { intros s1 f1 Hs1. pose proof (write_loop_synced (in_entry e) (S (length buf)) s1 f1 buf 0 Hs1) as Hl.
    destruct (fat_write_loop v _ s1 f1 buf 0) as [[s2 f2] k]. cbn [fst] in Hl. pose proof (publish_synced s2 f2 e E1 E2 Hl) as Hpb.
    by destruct (write_publish v rtc_read s2 f2 e). }
  assert (Hsw : synced_but (in_entry e) s) by (eapply synced_weaken; [|exact Hs]; done). unfold write_first.
  destruct (Z.eqb_spec (first_cluster f) 0) as [H0|H0].
  - pose proof (alloc_synced (in_entry e) s Hsw) as Ha. pose proof (alloc_synced _ s Hs) as Ha'. destruct (fat_impl_alloc_cluster v s) as [s1 n]. cbn [fst] in Ha, Ha'.
    destruct (n =? 0); [done|]. assert (cs = []) as ->.
    { destruct (decide (cs = [])) as [|Hne]; [done|]. destruct (file_chain v s e cs c Hf Hne) as [_ ?]. congruence. }
    destruct (file_empty v s e c Hf) as (Hz & _). cbn [ff_pos ff_size cur_cluster]. replace (ff_pos f >? 0) with false by lia. rewrite andb_false_r. cbn [andb].
    apply Hlast. by apply set_cluster_synced.
  - destruct (_ && _); [|by apply Hlast]. pose proof (advance_synced _ s (cur_cluster f) Hs) as Ha. pose proof (advance_synced _ s (cur_cluster f) Hsw) as Ha'.
    destruct (advance v s (cur_cluster f)) as [s1 [x|]]; cbn [fst] in Ha, Ha'; [by apply Hlast|done].
Qed.

Lemma truncate_synced s f e : dir_ent f = Some e -> 0 <= e -> e + 32 <= image_size v -> synced s -> synced (fst (fst (fat_truncate v rtc_read s f))).
Proof.
  intros He H1 H2 Hs. unfold fat_truncate. rewrite He. cbn [fst]. apply flush_entry; [done..|]. apply timestamp_synced, set_size_synced, set_cluster_synced.
  eapply synced_weaken; [|case_match; [exact Hs|apply free_synced, Hs]]; done.
Qed.

Lemma fill_loop_synced fuel : forall s f e cs c gap, handle v s f e cs c -> ff_pos f = zlen c -> zlen c + gap < 2 ^ 32 -> 0 <= gap ->
  synced s -> synced (fst (fill_loop v rtc_read fuel s f gap)).
Proof.
  induction fuel as [|fuel IH]; intros s f e cs c gap Hh Ep Hmax Hg Hs; cbn [fill_loop]; [done|]. destruct (Z.eqb_spec gap 0) as [|Hnz]; [done|].
  set (n := if gap <? 512 then gap else 512). assert (Hn : 0 < n <= gap) by (unfold n; destruct (Z.ltb_spec gap 512); lia).
  fold (zeros n). pose proof (zeros_length n ltac:(lia)) as Hz. pose proof (write_synced s f e cs c (zeros n) Hh Hs) as Hws.
  destruct (fat_write_spec v Hv rtc_read s f e cs c (zeros n) Hh ltac:(lia)) as (s1 & f1 & k & n1 & E & Hk & Ep1 & _ & Hh1 & _). rewrite E in *. cbn [fst] in Hws.
  destruct (Z.eqb_spec k n) as [->|]; cbn [negb]; [|done].
  assert (Ht : take (Z.to_nat n) (zeros n) = zeros n) by (apply take_ge; unfold zlen in Hz; lia). rewrite Ht, Ep, copy_to_end in Hh1.
  assert (Hne : zeros n <> []) by (intros E0; rewrite E0 in Hz; unfold zlen in Hz; cbn [length] in Hz; lia).
  apply (IH s1 f1 e (cs ++ n1) (c ++ zeros n)); [by apply Hh1| | |lia|done]; unfold zlen in *; rewrite length_app; lia.
Qed.

Lemma vfs_write_synced s e cs c p buf : file_at v s e cs c -> 0 <= p <= UINT32_MAX -> synced s ->
  synced (fst (fst (fat_vfs_write v rtc_read s (Some e) p buf))).
Proof.
  intros Hf Hp Hs. unfold fat_vfs_write. destruct (_ &? _); [done|]. pose proof (fa_size _ _ _ _ _ Hf).
  assert (Hin : forall s1 cs1 c1, file_at v s1 e cs1 c1 -> synced s1 -> synced (fst (fst (vfs_write_at v rtc_read s1 (Some e) p buf)))).
  { intros s1 cs1 c1 Hf1 Hs1. unfold vfs_write_at. destruct (cursor_spec v Hv s1 e cs1 c1 p Hf1 Hp) as (f & -> & Hh & _).
    match goal with |- context [fat_write v rtc_read s1 f ?b] => pose proof (write_synced s1 f e cs1 c1 b Hh Hs1) as Hws; destruct (fat_write v rtc_read s1 f b) as [[? ?] ?] end.
    exact Hws. }
  unfold fill_gap, entry_size. destruct (Z.leb_spec p (fat_impl_entry_get_size s e)) as [Hle|Hgt]; [cbn [negb]; by eapply Hin|].
  destruct (cursor_spec v Hv s e cs c (fat_impl_entry_get_size s e) Hf ltac:(unfold UINT32_MAX; lia)) as (f & -> & Hh & Ep). rewrite Z.min_id in Ep.
  pose proof (content_length v Hv _ _ _ _ Hf) as Hc. set (gap := p - fat_impl_entry_get_size s e).
  pose proof (fill_loop_synced (S (Z.to_nat gap)) s f e cs c gap Hh ltac:(lia) ltac:(unfold gap, UINT32_MAX in *; lia) ltac:(lia) Hs) as Hfs.
  destruct (fill_loop_spec v Hv rtc_read (S (Z.to_nat gap)) s f e cs c gap Hh) as (s1 & n1 & j & ok & E & Hf1 & _);
    [lia|unfold gap, UINT32_MAX in *; lia|lia|]. rewrite E in *. cbn [fst] in Hfs. destruct ok; cbn [negb]; [by eapply Hin|done].
Qed.

Lemma vfs_truncate_synced s e cs c : file_at v s e cs c -> synced s -> synced (fst (fat_vfs_truncate v rtc_read s (Some e))).
Proof.
  intros Hf Hs. unfold fat_vfs_truncate. destruct (_ &? _); [done|]. destruct (fa_entry _ _ _ _ _ Hf) as (E1 & E2 & _).
  destruct (cursor_spec v Hv s e cs c 0 Hf ltac:(unfold UINT32_MAX; lia)) as (f & -> & Hh & _).
  pose proof (truncate_synced s f e (ha_ent _ _ _ _ _ _ Hh) E1 E2 Hs) as Ht. by destruct (fat_truncate v rtc_read s f) as [[? ?] ?].
Qed.
End Sync.

(** C33: write-through is complete. If the device stores the sectors it is given and
    device and image agree before a write or a truncation, they agree after
    it, whether it succeeds or stops because the volume is full: every byte
    that changes, in the tables, in the clusters and in the directory entry,
    has been flushed. *)
Theorem fat_write_through {W} (v : fat_volume W) (rtc_read : W -> rtc_time * W) (dev_byte : W -> Z -> Z) (w : W -> Z -> list Z -> W) s e cs c p buf :
  vol_ok v -> write_sector v = Some w ->
  (forall d lba data a, dev_byte (w d lba data) a =
     if decide (lba * bytes_per_sector v <= a < lba * bytes_per_sector v + Z.of_nat (length data))
     then data !!! Z.to_nat (a - lba * bytes_per_sector v) else dev_byte d a) ->
  (forall d a, dev_byte (snd (rtc_read d)) a = dev_byte d a) ->
  file_at v s e cs c -> 0 <= p <= UINT32_MAX -> synced v dev_byte s ->
  synced v dev_byte (fst (fst (fat_vfs_write v rtc_read s (Some e) p buf))) /\
  synced v dev_byte (fst (fat_vfs_truncate v rtc_read s (Some e))).
Proof. intros Hv Hw Hl Hr Hf Hp Hs. split; [by eapply vfs_write_synced|by eapply vfs_truncate_synced]. Qed.

Definition ex_writer (d : bmem) (lba : Z) (data : list Z) : bmem := st_bytes d (lba * 512) data.

Lemma fat_write_through_witness :
  synced (ex_volume (Some ex_writer)) ld8
  (fst (fst (fat_vfs_write (ex_volume (Some ex_writer)) ex_rtc (ex_state (ex_boot 24 0)) (Some ex_entry) 600 [1; 2; 3]))) /\
  synced (ex_volume (Some ex_writer)) ld8 (fst (fat_vfs_truncate (ex_volume (Some ex_writer)) ex_rtc (ex_state (ex_boot 24 0)) (Some ex_entry))).
Proof.
  refine (fat_write_through (ex_volume (Some ex_writer)) ex_rtc ld8 ex_writer (ex_state (ex_boot 24 0)) ex_entry [] [] 600 [1; 2; 3]
    (ex_volume_ok _) eq_refl _ _ (ex_file _) _ _).
  - intros d lba data a. apply ld_st_bytes.
  - done.
  - unfold UINT32_MAX. lia.
  - done.
Defined.

(** ** An open file of three clusters: ones, twos and threes *)
Definition ex_data : list Z := replicate 512 1 ++ replicate 512 2 ++ replicate 512 3.
Definition ex_three : fat_state bmem :=
  fst (fst (fat_vfs_write (ex_volume None) ex_rtc (ex_state (ex_boot 24 0)) (Some ex_entry) 0 ex_data)).
Definition ex_handle (p : Z) : fat_file := default (FatFile 0 0 0 0 None) (vfs_cursor (ex_volume None) ex_three (Some ex_entry) p).

Lemma ex_three_file : exists cs, file_at (ex_volume None) ex_three ex_entry cs ex_data.
Proof.
  destruct (vfs_write_spec (ex_volume None) (ex_volume_ok None) ex_rtc (ex_state (ex_boot 24 0)) ex_entry [] [] 0 ex_data (ex_file None))
    as (s' & k & new & c' & E & _ & Hf & _ & Hc); [unfold UINT32_MAX; lia|vm_compute; reflexivity|].
  assert (Hk : snd (fat_vfs_write (ex_volume None) ex_rtc (ex_state (ex_boot 24 0)) (Some ex_entry) 0 ex_data) = 1536) by (vm_compute; reflexivity).
  rewrite E in Hk. cbn [snd] in Hk. subst k. exists new. unfold ex_three. rewrite E. cbn [fst]. destruct Hc as [[-> _]|[? _]]; [|done]. exact Hf.
Qed.

Lemma ex_handle_ok : exists cs, handle (ex_volume None) ex_three (ex_handle 512) ex_entry cs ex_data /\ ff_pos (ex_handle 512) = 512.
Proof.
  destruct ex_three_file as [cs Hf]. exists cs. destruct (cursor_spec _ (ex_volume_ok None) ex_three ex_entry cs ex_data 512 Hf) as (f & E & Hh & Hp);
    [unfold UINT32_MAX; lia|]. assert (Ex : ex_handle 512 = f) by (unfold ex_handle; by rewrite E). rewrite Ex. split; [done|].
  rewrite Hp, <-(content_length _ (ex_volume_ok None) _ _ _ _ Hf). reflexivity.
Qed.

(** An empty write breaks an open file. With the position at a cluster boundary
    inside the file, [fat_write] of no bytes moves the cursor to the next
    cluster although the position stays, so that the next read returns the bytes of
    a later position: a file of three clusters of ones, twos and threes then
    reads a three at position 512. *)
Theorem fat_write_empty_skips : exists (s : fat_state bmem) (f : fat_file) (cs : list Z),
  handle (ex_volume None) s f ex_entry cs ex_data /\ ff_pos f = 512 /\ snd (fat_read (ex_volume None) s f 1) = [2] /\
  let '(s', f', k) := fat_write (ex_volume None) ex_rtc s f [] in
  k = 0 /\ ff_pos f' = 512 /\ snd (fat_read (ex_volume None) s' f' 1) = [3].
Proof.
  destruct ex_handle_ok as (cs & Hh & Hp). exists ex_three, (ex_handle 512), cs. split; [exact Hh|]. split; [exact Hp|].
  split; [vm_compute; reflexivity|]. assert (E : let '(s', f', k) := fat_write (ex_volume None) ex_rtc ex_three (ex_handle 512) [] in
    (k, ff_pos f', snd (fat_read (ex_volume None) s' f' 1)) = (0, 512, [3])) by (vm_compute; reflexivity).
  destruct (fat_write (ex_volume None) ex_rtc ex_three (ex_handle 512) []) as [[s' f'] k].
  apply pair_equal_spec in E as [E E3]. apply pair_equal_spec in E as [E1 E2]. split; [exact E1|]. split; [exact E2|exact E3].
Qed.
