(* ===== verification/FatName.v ===== *)
(** FAT names, [kernel/fs/fat/fat_name.c]: VFAT long names in directory slots
    and DOS 8.3 short names.

    A name is the list of its bytes before the terminator; a directory slot is
    the list of its 32 bytes. *)
From S2P Require Import Prelude.

Definition FAT_ATTR_LFN : Z := 0x0F.
Definition FAT_CASE_BASE_LOWER : Z := 0x08.
Definition FAT_CASE_EXT_LOWER : Z := 0x10.
Definition FAT_LFN_MAX_SLOTS : Z := 20.
Definition FAT_LFN_BUFFER : Z := 261.

(** Byte offsets of the 13 characters stored in one long-name slot. *)
Definition lfn_offsets : list Z := [1; 3; 5; 7; 9; 14; 16; 18; 20; 22; 24; 28; 30].

(** ** Long names *)
Definition lfn_checksum (name : list Z) : Z :=
  foldl (fun sum c => u8 (Z.shiftl (Z.land sum 1) 7 + Z.shiftr sum 1 + u8 c)) 0 (take 11 name).

Record lfn_state := LfnState {
  ls_name : list Z;
  ls_length : Z;
  ls_start : Z;
  ls_checksum : Z;
  ls_expect : Z;
  ls_valid : bool;
}.

Definition lfn_reset (st : lfn_state) : lfn_state := LfnState (ls_name st) 0 0 0 0 false.

(** The character of a slot's UCS-2 code unit. *)
Definition lfn_char (ch : Z) : Z :=
  if (ch =? 0) || (ch =? 0xFFFF) then 0 else if ch <? 0x80 then ch else 95.

Definition lfn_unit (raw : list Z) (off : Z) : Z := Z.lor (rd raw off) (u16 (Z.shiftl (rd raw (off + 1)) 8)).

Definition lfn_store (name raw : list Z) (base : Z) : list Z :=
  foldl (fun name '(i, off) => wr name (base + i) (lfn_char (lfn_unit raw off))) name (zip (seqZ 0 13) lfn_offsets).

Definition lfn_feed (st : lfn_state) (raw : list Z) (index : Z) : lfn_state :=
  let marker := rd raw 0 in
  if marker =? 0xE5 then lfn_reset st else
  let seq := Z.land marker 0x1F in
  let last := negb (Z.land marker 0x40 =? 0) in
  if (seq =? 0) || (seq >? FAT_LFN_MAX_SLOTS) then lfn_reset st else
  if negb last && (negb (ls_valid st) || negb (seq =? ls_expect st) || negb (rd raw 13 =? ls_checksum st)) then lfn_reset st else
  let st := if last then LfnState (ls_name st) (seq * 13) index (rd raw 13) seq true else st in
  LfnState (lfn_store (ls_name st) raw ((seq - 1) * 13)) (ls_length st) (ls_start st) (ls_checksum st) (u8 (seq - 1)) (ls_valid st).

(** The first index with a zero byte, at most [n]. *)
Fixpoint name_length (name : list Z) (n : nat) : nat :=
  match n, name with
  | S n, c :: name => if c =? 0 then 0%nat else S (name_length name n)
  | _, _ => 0%nat
  end.

(** The terminator the C function writes behind the name is not read again: the
    state is reset before its next use. *)
Definition lfn_take (st : lfn_state) (entry : list Z) : option (list Z) :=
  if negb (ls_valid st) || negb (ls_expect st =? 0) then None else
  if negb (lfn_checksum entry =? ls_checksum st) then None else
  let length := name_length (ls_name st) (Z.to_nat (ls_length st)) in
  if (length =? 0)%nat || (255 <? Z.of_nat length) then None else Some (take length (ls_name st)).

(** The code unit at position [idx] of a name: a terminator, then padding. *)
Definition name_unit (name : list Z) (length idx : Z) : Z :=
  if idx <? length then u8 (rd name idx) else if idx =? length then 0 else 0xFFFF.

Definition write_lfn_slot (name : list Z) (length seq : Z) (last : bool) (checksum : Z) : list Z :=
  let raw := replicate 32 0 in
  let raw := wr raw 0 (u8 (Z.lor seq (if last then 0x40 else 0))) in
  let raw := wr raw 11 FAT_ATTR_LFN in
  let raw := wr raw 13 checksum in
  foldl (fun raw '(i, off) =>
    let ch := name_unit name length ((seq - 1) * 13 + i) in
    wr (wr raw off (u8 (Z.land ch 0xFF))) (off + 1) (u8 (Z.shiftr ch 8))) raw (zip (seqZ 0 13) lfn_offsets).

(** ** Short names *)
Definition is_lower (c : Z) : bool := (97 <=? c) && (c <=? 122).
Definition is_upper (c : Z) : bool := (65 <=? c) && (c <=? 90).
Definition to_upper (c : Z) : Z := if is_lower c then c - 32 else c.

(** [$ % ' - _ @ ~ ` ! ( ) { } ^ # &] *)
Definition short_specials : list Z := [36; 37; 39; 45; 95; 64; 126; 96; 33; 40; 41; 123; 125; 94; 35; 38].
Definition valid_short_char (c : Z) : bool :=
  is_upper c || is_lower c || ((48 <=? c) && (c <=? 57)) || bool_decide (c ∈ short_specials).

(** The index of the last dot, not counting one at index 0; the length when
    there is none. *)
Fixpoint dot_loop (name : list Z) (length : Z) (i : nat) : Z :=
  match i with
  | S (S _ as i') => if rd name (Z.of_nat i') =? 46 then Z.of_nat i' else dot_loop name length i'
  | _ => length
  end.

Definition split_extension (name : list Z) : Z * Z * Z :=
  let length := zlen name in
  let dot := dot_loop name length (Z.to_nat length) in
  let ext_at := if dot <? length then dot + 1 else length in
  (dot, ext_at, length - ext_at).

Definition pad (n : nat) (l : list Z) : list Z := l ++ replicate (n - length l) 32.

Definition short_name_exact (name : list Z) : option (list Z * Z) :=
  let length := zlen name in
  if (length =? 0) || (length >? 12) || (rd name (length - 1) =? 46) then None else
  let '(base_len, ext_at, ext_len) := split_extension name in
  if (base_len =? 0) || (base_len >? 8) || (ext_len >? 3) then None else
  let base := bytes_at name 0 base_len in
  let ext := bytes_at name ext_at ext_len in
  if negb (forallb valid_short_char base) || negb (forallb valid_short_char ext) then None else
  let base_lower := existsb is_lower base in
  let ext_lower := existsb is_lower ext in
  if (base_lower && existsb is_upper base) || (ext_lower && existsb is_upper ext) then None else
  let out := pad 8 (to_upper <$> base) ++ pad 3 (to_upper <$> ext) in
  let out := if rd out 0 =? 0xE5 then wr out 0 0x05 else out in
  Some (out, Z.lor (if base_lower then FAT_CASE_BASE_LOWER else 0) (if ext_lower then FAT_CASE_EXT_LOWER else 0)).

(** The characters before the first space. *)
Fixpoint before_space (l : list Z) : list Z :=
  match l with [] => [] | c :: l => if c =? 32 then [] else c :: before_space l end.

Definition lower_if (b : bool) (c : Z) : Z := if b && is_upper c then c + 32 else c.

(** The short name of a slot: eight bytes and three, and the case flags at
    offset 12. *)
Definition entry_short_name (entry : list Z) : list Z :=
  let nt_case := rd entry 12 in
  let base_lower := negb (Z.land nt_case FAT_CASE_BASE_LOWER =? 0) in
  let ext_lower := negb (Z.land nt_case FAT_CASE_EXT_LOWER =? 0) in
  let name := take 8 entry in
  let ext := take 3 (drop 8 entry) in
  let base := before_space name in
  let base := match base with c :: rest => (if c =? 0x05 then 0xE5 else c) :: rest | [] => [] end in
  (lower_if base_lower <$> base) ++
  (if existsb (fun c => negb (c =? 32)) ext then 46 :: (lower_if ext_lower <$> before_space ext) else []).

(** The slots [fat_impl_create_entry] writes for a long name, last part first. *)
Definition lfn_slots (name : list Z) (checksum : Z) : list (list Z) :=
  let n := (zlen name + 12) / 13 in
  (fun i => write_lfn_slot name (zlen name) (u8 (n - i)) (i =? 0) checksum) <$> seqZ 0 n.
