(* ===== verification/FatNameSpec.v ===== *)
(** FAT names ([kernel/fs/fat/fat_name.c]): reading the slots a name was
    written to gives the name back, up to characters the codec replaces. *)
From S2P Require Import Prelude FatName.

(** ** One slot *)
Lemma unit_bytes ch : 0 <= ch < 65536 -> Z.lor (u8 (Z.land ch 0xFF)) (u16 (Z.shiftl (u8 (Z.shiftr ch 8)) 8)) = ch.
Proof.
  intros Hc. change 0xFF with (Z.ones 8). rewrite Z.land_ones, Z.shiftr_div_pow2, Z.shiftl_mul_pow2 by lia.
  unfold u8. rewrite Z.mod_mod by lia. assert (0 <= ch / 2 ^ 8 < 2 ^ 8) by (split; [apply Z.div_pos|apply Z.div_lt_upper_bound]; lia).
  rewrite (Z.mod_small (ch / 2 ^ 8)) by lia. rewrite u16_small by lia. rewrite Z.lor_comm, (lor_add _ _ 8).
  - pose proof (Z.div_mod ch (2 ^ 8)). lia.
  - lia.
  - apply Z.mod_mul. lia.
  - apply Z.mod_pos_bound. lia.
Qed.

Lemma name_unit_range name length idx : 0 <= name_unit name length idx < 65536.
Proof. unfold name_unit. pose proof (u8_range (rd name idx)). repeat case_match; lia. Qed.

Lemma slot_units name length seq last ck i off : (i, off) ∈ zip (seqZ 0 13) lfn_offsets ->
  lfn_unit (write_lfn_slot name length seq last ck) off = name_unit name length ((seq - 1) * 13 + i).
Proof.
  intros Hin. assert (H : forall j, lfn_unit [0; u8 (Z.land (name_unit name length j) 0xFF); u8 (Z.shiftr (name_unit name length j) 8)] 1 = name_unit name length j).
  { intros j. apply unit_bytes, name_unit_range. }
  cbn in Hin. repeat (apply elem_of_cons in Hin as [Hin|Hin]; [injection Hin as -> ->; rewrite <-H; reflexivity|]). by apply not_elem_of_nil in Hin.
Qed.

Lemma slot_marker name length seq last ck : 1 <= seq <= 20 -> let raw := write_lfn_slot name length seq last ck in
  (rd raw 0 =? 0xE5) = false /\ Z.land (rd raw 0) 0x1F = seq /\ negb (Z.land (rd raw 0) 0x40 =? 0) = last /\ rd raw 13 = ck.
Proof.
  intros Hs raw. assert (E : rd raw 0 = u8 (Z.lor seq (if last then 0x40 else 0))) by reflexivity. rewrite E. split_and!; [..|reflexivity].
  all: assert (Hall : forallb (fun seq => forallb (fun last : bool => let m := u8 (Z.lor seq (if last then 0x40 else 0)) in
    negb (m =? 0xE5) && (Z.land m 0x1F =? seq) && eqb (negb (Z.land m 0x40 =? 0)) last) [true; false]) (seqZ 1 20) = true) by (vm_compute; reflexivity);
    rewrite forallb_forall in Hall; specialize (Hall seq ltac:(apply list_elem_of_In, elem_of_seqZ; lia)); rewrite forallb_forall in Hall;
    specialize (Hall last ltac:(destruct last; cbn; auto)); cbv zeta in Hall; apply andb_true_iff in Hall as [Hall H3];
    apply andb_true_iff in Hall as [H1 H2].
  - by apply negb_true_iff.
  - lia.
  - by apply eqb_prop.
Qed.

(** ** The accumulated name *)
Lemma store_units (g : Z -> Z) : forall (offs : list Z) k base name, 0 <= base + k -> base + k + zlen offs <= zlen name ->
  let name' := foldl (fun name '(i, off) => wr name (base + i) (g off)) name (zip (seqZ k (zlen offs)) offs) in
  zlen name' = zlen name /\ forall j, 0 <= j -> rd name' j = if decide (base + k <= j < base + k + zlen offs) then g (rd offs (j - (base + k))) else rd name j.
Proof.
  induction offs as [|off offs IH]; intros k base name Hk Hl; cbv zeta.
  { split; [done|]. intros j Hj. by rewrite decide_False by (unfold zlen; cbn; lia). }
  assert (Hz : zlen (off :: offs) = zlen offs + 1) by (unfold zlen; cbn [length]; lia). rewrite Hz in *. unfold zlen in Hl.
  rewrite seqZ_cons by (unfold zlen; lia). cbn [zip foldl zip_with]. replace (Z.pred (zlen offs + 1)) with (zlen offs) by lia.
  destruct (IH (Z.succ k) base (wr name (base + k) (g off))) as [L H]; [lia|rewrite zlen_wr; unfold zlen; lia|].
  split; [by rewrite L, zlen_wr|]. intros j Hj. rewrite H by done. unfold zlen in *. destruct (decide (j = base + k)) as [->|Hne].
  - rewrite decide_False by lia. rewrite decide_True by lia. rewrite rd_wr_eq by (unfold zlen; lia). by rewrite Z.sub_diag.
  - destruct (decide (base + Z.succ k <= j < _)).
    + rewrite decide_True by lia. f_equal. unfold rd. replace (Z.to_nat (j - (base + k))) with (S (Z.to_nat (j - (base + Z.succ k)))) by lia. done.
    + rewrite decide_False by lia. rewrite rd_wr_ne by lia. done.
Qed.

(** What the codec makes of the character at [idx] of a name. *)
Definition decoded (name : list Z) (idx : Z) : Z := if idx <? zlen name then (if rd name idx <? 0x80 then rd name idx else 95) else 0.

Definition name_ok (name : list Z) : Prop := Forall (fun c => 0 < c < 256) name.

Lemma decoded_unit name idx : name_ok name -> 0 <= idx -> lfn_char (name_unit name (zlen name) idx) = decoded name idx.
Proof.
  intros Hn Hi. unfold decoded, name_unit. destruct (Z.ltb_spec idx (zlen name)) as [Hlt|]; [|by destruct (idx =? zlen name)].
  assert (Hc : 0 < rd name idx < 256).
  { unfold rd, zlen in *. destruct (lookup_lt_is_Some_2 name (Z.to_nat idx)) as [c E]; [lia|]. rewrite E. cbn.
    unfold name_ok in Hn. rewrite list_relations.list.Forall_forall in Hn. apply Hn. by eapply list_elem_of_lookup_2. }
  rewrite u8_small by lia. unfold lfn_char. by replace (rd name idx =? 0) with false by lia; replace (rd name idx =? 65535) with false by lia.
Qed.

Lemma lfn_store_slot name buf seq last ck : name_ok name -> 1 <= seq -> seq * 13 <= zlen buf ->
  let buf' := lfn_store buf (write_lfn_slot name (zlen name) seq last ck) ((seq - 1) * 13) in
  zlen buf' = zlen buf /\ forall j, 0 <= j -> rd buf' j = if decide ((seq - 1) * 13 <= j < seq * 13) then decoded name j else rd buf j.
Proof.
  intros Hn Hs Hl buf'. set (raw := write_lfn_slot name (zlen name) seq last ck) in *.
  destruct (store_units (fun off => lfn_char (lfn_unit raw off)) lfn_offsets 0 ((seq - 1) * 13) buf) as [L H]; [lia|change (zlen lfn_offsets) with 13; lia|].
  split; [exact L|]. intros j Hj. unfold buf', lfn_store. rewrite Z.add_0_r in H. change (zlen lfn_offsets) with 13 in H.
  rewrite H by done. replace ((seq - 1) * 13 + 13) with (seq * 13) by lia. case_decide as Hd; [|done].
  rewrite <-(decoded_unit name j Hn Hj). f_equal. set (i := j - (seq - 1) * 13). replace j with ((seq - 1) * 13 + i) at 1 by lia.
  apply slot_units. unfold rd. assert (Hi : (Z.to_nat i < 13)%nat) by lia. replace i with (Z.of_nat (Z.to_nat i)) at 1 by lia.
  generalize (Z.to_nat i), Hi. clear. intros i Hi. do 13 (destruct i as [|i]; [cbn; set_solver|]). lia.
Qed.

Record lfn_mid (name : list Z) (start ck m : Z) (st : lfn_state) : Prop := {
  lm_valid : ls_valid st = true;
  lm_expect : ls_expect st = m;
  lm_checksum : ls_checksum st = ck;
  lm_start : ls_start st = start;
  lm_length : ls_length st = (zlen name + 12) / 13 * 13;
  lm_buffer : zlen (ls_name st) = FAT_LFN_BUFFER;
  lm_name : forall j, m * 13 <= j < (zlen name + 12) / 13 * 13 -> rd (ls_name st) j = decoded name j;
}.

Lemma feed_slot name start ck st i : name_ok name -> zlen (ls_name st) = FAT_LFN_BUFFER -> 1 <= zlen name <= 255 ->
  let n := (zlen name + 12) / 13 in 0 <= i < n -> (i = 0 \/ lfn_mid name start ck (n - i) st) ->
  lfn_mid name start ck (n - i - 1) (lfn_feed st (write_lfn_slot name (zlen name) (u8 (n - i)) (i =? 0) ck) (start + i)).
Proof.
  intros Hn Hb Hl n Hi Hst. assert (Hn20 : n <= 20) by (unfold n; apply Z.lt_succ_r, Z.div_lt_upper_bound; lia).
  rewrite (u8_small (n - i)) by lia. set (seq := n - i) in *.
  destruct (slot_marker name (zlen name) seq (i =? 0) ck ltac:(lia)) as (M1 & M2 & M3 & M4). set (raw := write_lfn_slot name (zlen name) seq (i =? 0) ck) in *.
  destruct (lfn_store_slot name (ls_name st) seq (i =? 0) ck Hn ltac:(lia)) as [L S]; [unfold FAT_LFN_BUFFER in Hb; lia|]. fold raw in L, S.
  unfold lfn_feed. rewrite M1, M2, M3, M4. unfold FAT_LFN_MAX_SLOTS. replace (seq =? 0) with false by lia. replace (seq >? 20) with false by lia. cbn [orb].
  rewrite (u8_small (seq - 1)) by lia. destruct (Z.eqb_spec i 0) as [->|Hi0]; cbn [negb andb].
  - replace seq with n in * by lia. rewrite Z.add_0_r. split; cbn [ls_name ls_length ls_start ls_checksum ls_expect ls_valid]; try done; [lia..|]. intros j Hj.
    rewrite S by lia. by rewrite decide_True by (unfold n in *; lia).
  - destruct Hst as [?|[V X C T G B N]]; [done|]. rewrite V, X, C, !Z.eqb_refl. cbn [negb orb].
    split; cbn [ls_name ls_length ls_start ls_checksum ls_expect ls_valid]; try done; [lia..|]. intros j Hj. rewrite S by lia. case_decide; [done|]. apply N. unfold n in *. lia.
Qed.

(** Feeding the slots of a directory one after the other, as its scan does. *)
Fixpoint feed_slots (st : lfn_state) (slots : list (list Z)) (index : Z) : lfn_state :=
  match slots with [] => st | raw :: slots => feed_slots (lfn_feed st raw index) slots (index + 1) end.

Lemma feed_slots_mid name start ck : name_ok name -> 1 <= zlen name <= 255 -> let n := (zlen name + 12) / 13 in
  forall k st i, 0 <= i -> i + Z.of_nat (S k) = n -> zlen (ls_name st) = FAT_LFN_BUFFER -> (i = 0 \/ lfn_mid name start ck (n - i) st) ->
  lfn_mid name start ck 0 (feed_slots st ((fun i => write_lfn_slot name (zlen name) (u8 (n - i)) (i =? 0) ck) <$> seqZ i (Z.of_nat (S k))) (start + i)).
Proof.
  intros Hn Hl n. induction k as [|k IH]; intros st i Hi Hk Hb Hst; rewrite seqZ_cons by lia; cbn [fmap list_fmap feed_slots].
  all: pose proof (feed_slot name start ck st i Hn Hb Hl ltac:(lia) Hst) as Hm; fold n in Hm.
  - cbn. by replace (n - i - 1) with 0 in Hm by lia.
  - replace (Z.pred (Z.of_nat (S (S k)))) with (Z.of_nat (S k)) by lia. replace (start + i + 1) with (start + Z.succ i) by lia.
    apply IH; [lia|lia|by apply Hm|]. right. by replace (n - Z.succ i) with (n - i - 1) by lia.
Qed.

Lemma name_length_spec l : forall (name : list Z), (forall i, (i < length l)%nat -> name !! i = l !! i) -> Forall (fun c => c <> 0) l ->
  forall n, (length l <= n)%nat -> (length l = n \/ name !! length l = Some 0) -> name_length name n = length l.
Proof.
  induction l as [|c l IH]; intros name Hpre Hnz n Hle Hend; cbn [length] in *.
  - destruct n as [|n]; [by destruct name|]. destruct Hend as [|E]; [done|]. destruct name as [|x name]; [done|]. injection E as ->. done.
  - destruct n as [|n]; [lia|]. pose proof (Hpre 0%nat ltac:(lia)) as H0. destruct name as [|x name]; [done|]. injection H0 as ->.
    apply list_relations.list.Forall_cons in Hnz as [Hc Hnz]. cbn. apply Z.eqb_neq in Hc as ->. f_equal.
    apply IH; [intros i Hi; apply (Hpre (S i)); lia|done|lia|]. destruct Hend; [left; lia|by right].
Qed.

Definition decode (name : list Z) : list Z := (fun c => if c <? 0x80 then c else 95) <$> name.

Lemma decode_lookup name i : (i < length name)%nat -> decode name !! i = Some (decoded name (Z.of_nat i)).
Proof.
  intros Hi. unfold decode, decoded, zlen. rewrite list_lookup_fmap. replace (Z.of_nat i <? Z.of_nat (length name)) with true by lia.
  unfold rd. rewrite Nat2Z.id. destruct (lookup_lt_is_Some_2 name i Hi) as [c ->]. done.
Qed.

Lemma rd_lookup (l : list Z) (i : nat) x : (i < length l)%nat -> rd l (Z.of_nat i) = x -> l !! i = Some x.
Proof. unfold rd. rewrite Nat2Z.id. intros Hi. by destruct (lookup_lt_is_Some_2 l i Hi) as [c ->]; intros <-. Qed.

Lemma lfn_take_mid name start ck st entry : name_ok name -> 1 <= zlen name <= 255 -> lfn_mid name start ck 0 st -> lfn_checksum entry = ck ->
  lfn_take st entry = Some (decode name).
Proof.
  intros Hn Hl [V X C T G B N] Hck. unfold lfn_take. rewrite V, X, C, Hck, Z.eqb_refl. cbn [negb orb]. rewrite G.
  set (n := (zlen name + 12) / 13) in *. assert (Hcover : zlen name <= n * 13 <= 260).
  { unfold n. pose proof (Z.div_mod (zlen name + 12) 13 ltac:(lia)). pose proof (Z.mod_pos_bound (zlen name + 12) 13 ltac:(lia)). lia. }
  assert (Ld : length (decode name) = length name) by (unfold decode; by rewrite length_fmap). unfold FAT_LFN_BUFFER, zlen in *.
  assert (Hpre : forall i, (i < length (decode name))%nat -> ls_name st !! i = decode name !! i).
  { intros i Hi. rewrite decode_lookup by lia. apply rd_lookup; [lia|]. apply N. lia. }
  assert (Hlen : name_length (ls_name st) (Z.to_nat (n * 13)) = length (decode name)).
  { apply name_length_spec; [done| |lia|].
    - unfold decode. apply list_monad.list.Forall_fmap. eapply list_relations.list.Forall_impl; [exact Hn|]. intros c Hc. cbn in Hc |- *. destruct (Z.ltb_spec c 128); lia.
    - destruct (Z.eq_dec (Z.of_nat (length name)) (n * 13)) as [E|E]; [left; lia|right]. rewrite Ld. apply rd_lookup; [lia|]. rewrite N by lia.
      unfold decoded, zlen. by replace (_ <? _) with false by lia. }
  rewrite Hlen, Ld. replace (length name =? 0)%nat with false by (symmetry; apply Nat.eqb_neq; lia). replace (255 <? Z.of_nat (length name)) with false by lia. cbn [orb].
  rewrite Z.eqb_refl. cbn [negb]. f_equal. apply list_eq_same_length with (n := length name); [exact Ld|rewrite length_take; lia|]. intros i x y Hi Hx Hy.
  rewrite lookup_take_lt in Hx by lia. rewrite (Hpre i) in Hx by lia. congruence.
Qed.

Lemma lfn_roundtrip_ok name entry st start : name_ok name -> 1 <= zlen name <= 255 -> zlen (ls_name st) = FAT_LFN_BUFFER ->
  let st' := feed_slots st (lfn_slots name (lfn_checksum entry)) start in lfn_take st' entry = Some (decode name) /\ ls_start st' = start.
Proof.
  intros Hn Hl Hb st'. assert (Hm : lfn_mid name start (lfn_checksum entry) 0 st').
  { pose proof (Z.div_le_mono 13 (zlen name + 12) 13 ltac:(lia) ltac:(lia)) as H1. change (13 / 13) with 1 in H1.
    pose proof (feed_slots_mid name start (lfn_checksum entry) Hn Hl (Z.to_nat ((zlen name + 12) / 13 - 1)) st 0 ltac:(lia) ltac:(lia) Hb ltac:(by left)) as Hm.
    rewrite Z.add_0_r in Hm. unfold st', lfn_slots. by replace (Z.of_nat (S (Z.to_nat ((zlen name + 12) / 13 - 1)))) with ((zlen name + 12) / 13) in Hm by lia. }
  split; [by eapply lfn_take_mid|]. by apply (lm_start _ _ _ _ _ Hm).
Qed.

(** ** Short names *)
Lemma dot_loop_spec name len i : let d := dot_loop name len i in
  d = len \/ (1 <= d < Z.of_nat i /\ rd name d = 46).
Proof.
  induction i as [|i IH]; [by left|]. cbn [dot_loop]. destruct i as [|i]; [by left|].
  destruct (Z.eqb_spec (rd name (Z.of_nat (S i))) 46) as [E|]; [right; split; [lia|done]|]. destruct IH as [->|[? ?]]; [by left|right; split; [lia|done]].
Qed.

Lemma split_extension_spec name : let '(base_len, ext_at, ext_len) := split_extension name in
  (base_len = zlen name /\ ext_at = zlen name /\ ext_len = 0) \/
  (1 <= base_len < zlen name /\ rd name base_len = 46 /\ ext_at = base_len + 1 /\ ext_len = zlen name - base_len - 1).
Proof.
  unfold split_extension. set (d := dot_loop _ _ _). pose proof (dot_loop_spec name (zlen name) (Z.to_nat (zlen name))) as H. fold d in H. cbv zeta in H.
  assert (0 <= zlen name) by (unfold zlen; lia). destruct H as [->|[H1 H2]]; [left; rewrite Z.ltb_irrefl; lia|right].
  replace (d <? zlen name) with true by lia. lia.
Qed.

Lemma split_name name d : 0 <= d < zlen name -> rd name d = 46 -> name = bytes_at name 0 d ++ 46 :: bytes_at name (d + 1) (zlen name - d - 1).
Proof.
  intros Hd H. unfold bytes_at, zlen in *. cbn [Z.to_nat drop]. rewrite <-(take_drop (Z.to_nat d) name) at 1. f_equal.
  unfold rd in H. destruct (lookup_lt_is_Some_2 name (Z.to_nat d)) as [c E]; [lia|]. rewrite E in H. cbn in H. subst c.
  rewrite (drop_S _ _ _ E). f_equal. replace (Z.to_nat (d + 1)) with (S (Z.to_nat d)) by lia. rewrite take_ge; [done|]. rewrite length_drop. lia.
Qed.

Lemma valid_char_range c : valid_short_char c = true -> 33 <= c <= 126 /\ c <> 46.
Proof.
  unfold valid_short_char, is_upper, is_lower. intros H. apply orb_true_iff in H as [H|H]; [lia|]. apply bool_decide_eq_true in H.
  assert (HF : Forall (fun c => 33 <= c <= 126 /\ c <> 46) short_specials) by (unfold short_specials; repeat constructor; lia).
  rewrite list_relations.list.Forall_forall in HF. by apply HF.
Qed.

Lemma upper_no_space c : valid_short_char c = true -> 33 <= to_upper c <= 126 /\ to_upper c <> 46.
Proof. intros H%valid_char_range. unfold to_upper, is_lower. case_match; lia. Qed.

Lemma before_space_pad l n : Forall (fun c => c <> 32) l -> before_space (l ++ replicate n 32) = l.
Proof.
  induction 1 as [|c l Hc _ IH]; [by destruct n|]. cbn. apply Z.eqb_neq in Hc as ->. by rewrite IH.
Qed.

(** Upper-casing and undoing it by the case flag. *)
Lemma case_back l : (existsb is_lower l && existsb is_upper l) = false -> lower_if (existsb is_lower l) <$> (to_upper <$> l) = l.
Proof.
  intros H. destruct (existsb is_lower l) eqn:El; cbn [andb] in H.
  - assert (HF : Forall (fun c => is_upper c = false) l).
    { apply list_relations.list.Forall_forall. intros c Hc. destruct (is_upper c) eqn:E; [|done].
      rewrite <-H. symmetry. apply existsb_exists. exists c. split; [by apply list_elem_of_In|done]. }
    clear El H. induction HF as [|c l Hc _ IH]; [done|]. cbn [fmap list_fmap]. f_equal; [|exact IH].
    unfold lower_if, to_upper, is_upper, is_lower in *. destruct ((97 <=? c) && (c <=? 122)) eqn:E; cbn [andb].
    + replace ((65 <=? c - 32) && (c - 32 <=? 90)) with true by lia. lia.
    + by rewrite Hc.
  - assert (HF : Forall (fun c => is_lower c = false) l).
    { apply list_relations.list.Forall_forall. intros c Hc. destruct (is_lower c) eqn:E; [|done].
      rewrite <-El. symmetry. apply existsb_exists. exists c. split; [by apply list_elem_of_In|done]. }
    clear El H. induction HF as [|c l Hc _ IH]; [done|]. cbn [fmap list_fmap]. f_equal; [|exact IH]. unfold lower_if, to_upper. by rewrite Hc.
Qed.

Lemma upper_ok l : forallb valid_short_char l = true -> Forall (fun c => 33 <= c <= 126 /\ c <> 46) (to_upper <$> l).
Proof.
  intros H. apply list_monad.list.Forall_fmap, list_relations.list.Forall_forall. intros c Hc. rewrite forallb_forall in H.
  apply upper_no_space, H. by apply list_elem_of_In.
Qed.

Definition case_flags (bl el : bool) : Z := Z.lor (if bl then FAT_CASE_BASE_LOWER else 0) (if el then FAT_CASE_EXT_LOWER else 0).

(** Reading a slot whose name fields and case flags came from [base] and [ext]. *)
Lemma entry_short_name_back entry base ext : forallb valid_short_char base = true -> forallb valid_short_char ext = true ->
  (length base <= 8)%nat -> (length ext <= 3)%nat -> (existsb is_lower base && existsb is_upper base) = false ->
  (existsb is_lower ext && existsb is_upper ext) = false -> take 11 entry = pad 8 (to_upper <$> base) ++ pad 3 (to_upper <$> ext) ->
  rd entry 12 = case_flags (existsb is_lower base) (existsb is_lower ext) ->
  entry_short_name entry = base ++ (if decide (ext = []) then [] else 46 :: ext).
Proof.
  intros Vb Ve Lb Le Cb Ce Ht Hf. pose proof (upper_ok _ Vb) as Ub. pose proof (upper_ok _ Ve) as Ue.
  assert (Lp : length (pad 8 (to_upper <$> base)) = 8%nat) by (unfold pad; rewrite length_app, length_replicate, length_fmap; lia).
  assert (Lp3 : length (pad 3 (to_upper <$> ext)) = 3%nat) by (unfold pad; rewrite length_app, length_replicate, length_fmap; lia).
  assert (T8 : take 8 entry = pad 8 (to_upper <$> base)).
  { transitivity (take 8 (take 11 entry)); [by rewrite take_take|]. rewrite Ht. by apply take_app_length'. }
  assert (T3 : take 3 (drop 8 entry) = pad 3 (to_upper <$> ext)).
  { transitivity (drop 8 (take 11 entry)); [by rewrite skipn_firstn_comm|]. rewrite Ht. by apply drop_app_length'. }
  unfold entry_short_name. rewrite T8, T3, Hf.
  assert (F1 : negb (Z.land (case_flags (existsb is_lower base) (existsb is_lower ext)) FAT_CASE_BASE_LOWER =? 0) = existsb is_lower base)
    by (by destruct (existsb is_lower base), (existsb is_lower ext)).
  assert (F2 : negb (Z.land (case_flags (existsb is_lower base) (existsb is_lower ext)) FAT_CASE_EXT_LOWER =? 0) = existsb is_lower ext)
    by (by destruct (existsb is_lower base), (existsb is_lower ext)).
  rewrite F1, F2. unfold pad. rewrite before_space_pad by (eapply list_relations.list.Forall_impl; [exact Ub|cbn; lia]).
  rewrite before_space_pad by (eapply list_relations.list.Forall_impl; [exact Ue|cbn; lia]). f_equal.
  - etrans; [|apply (case_back base Cb)]. f_equal. destruct (to_upper <$> base) as [|c rest]; [done|].
    apply list_relations.list.Forall_cons in Ub as [Hc _]. by replace (c =? 5) with false by lia.
  - destruct (decide (ext = [])) as [->|Hne]; [done|]. rewrite (case_back ext Ce). destruct (to_upper <$> ext) as [|c rest] eqn:E; [by apply fmap_nil_inv in E|].
    apply list_relations.list.Forall_cons in Ue as [Hc _]. cbn. by replace (c =? 32) with false by lia.
Qed.

Lemma short_name_roundtrip_ok name out nt entry : short_name_exact name = Some (out, nt) -> take 11 entry = out -> rd entry 12 = nt ->
  entry_short_name entry = name.
Proof.
  unfold short_name_exact. intros H Ht Hn. none_if H E1. repeat (apply orb_false_iff in E1 as [E1 ?]).
  pose proof (split_extension_spec name) as Hs. destruct (split_extension name) as [[bl ea] el]. none_if H E2. repeat (apply orb_false_iff in E2 as [E2 ?]).
  set (base := bytes_at name 0 bl) in *. set (ext := bytes_at name ea el) in *.
  none_if H E3. apply orb_false_iff in E3 as [Vb Ve]. apply negb_false_iff in Vb, Ve. none_if H E4. apply orb_false_iff in E4 as [Cb Ce].
  pose proof (upper_ok _ Vb) as Ub. assert (Lb : 1 <= zlen name) by (unfold zlen in *; lia).
  assert (Hb : length base = Z.to_nat bl /\ (length ext <= 3)%nat).
  { unfold base, ext, bytes_at, zlen in *. rewrite !length_take, !length_drop. lia. }
  assert (E0 : (rd (pad 8 (to_upper <$> base) ++ pad 3 (to_upper <$> ext)) 0 =? 0xE5) = false).
  { destruct base as [|c rest]; [cbn in Hb; lia|]. apply list_relations.list.Forall_cons in Ub as [Hc _]. change ((to_upper c =? 0xE5) = false). lia. }
  rewrite E0 in H. injection H as <- <-.
  rewrite (entry_short_name_back entry base ext Vb Ve ltac:(lia) ltac:(lia) Cb Ce Ht Hn).
  destruct Hs as [(-> & -> & ->)|(Hbl & Hdot & -> & ->)].
  - assert (ext = []) as -> by done. rewrite decide_True by done. rewrite app_nil_r. unfold base, bytes_at, zlen. rewrite Nat2Z.id. apply firstn_all.
  - rewrite decide_False; [symmetry; apply split_name; [lia|done]|]. intros E. apply (f_equal length) in E. unfold ext, bytes_at, zlen in *.
    rewrite length_take, length_drop in E. cbn in E. assert (bl = Z.of_nat (length name) - 1) as -> by lia. lia.
Qed.

(** C39: names survive storage. The slots written for a long name of 1 to 255 characters,
    read back in order before an entry with the matching checksum, give the
    name again, with every character outside ASCII replaced by an underscore;
    a name that fits the short form is given back exactly, case
    included. *)
Theorem fat_names_roundtrip name entry st start : name_ok name -> 1 <= zlen name <= 255 -> zlen (ls_name st) = FAT_LFN_BUFFER ->
  (let st' := feed_slots st (lfn_slots name (lfn_checksum entry)) start in lfn_take st' entry = Some (decode name) /\ ls_start st' = start) /\
  (forall out nt, short_name_exact name = Some (out, nt) -> take 11 entry = out -> rd entry 12 = nt -> entry_short_name entry = name).
Proof. intros H1 H2 H3. split; [by apply lfn_roundtrip_ok|]. intros out nt. apply short_name_roundtrip_ok. Qed.

(** "Read me", before an entry of zeros. *)
Definition ex_long : list Z := [82; 101; 97; 100; 32; 109; 101].
Definition ex_lfn : lfn_state := LfnState (replicate 261 0) 0 0 0 0 false.

Lemma fat_names_roundtrip_witness : lfn_take (feed_slots ex_lfn (lfn_slots ex_long (lfn_checksum (pad 32 []))) 7) (pad 32 []) = Some ex_long.
Proof.
  refine (proj1 (proj1 (fat_names_roundtrip ex_long (pad 32 []) ex_lfn 7 _ _ _))).
  - unfold ex_long. repeat constructor; lia.
  - unfold ex_long, zlen. cbn. lia.
  - reflexivity.
Defined.
