(* ===== verification/FatDir.v ===== *)
(** FAT directories, [kernel/fs/fat/fat_directory.c], and the operations on
    one component of a path, [fat_create_at], [fat_remove_at] and [fat_mkdir_at]
    of [fat.c].

    A directory entry in the image is the offset of its 32 bytes.  A name is
    the list of its bytes before the terminator. *)
From S2P Require Import Prelude KString Fat FatName.

Definition FAT_NAME_LEN : Z := 11.
Definition FAT_LFN_MAX : Z := 255.
Definition FAT_ATTR_ARCHIVE : Z := 0x20.

Record fat_dir := FatDir { fd_first : Z; is_root : bool }.

Record found_entry := FoundEntry {
  fe_cluster : Z;
  fe_size : Z;
  fe_attr : Z;
  fe_index : Z;
  fe_index_end : Z;
  fe_raw : Z;
}.

Record dir_cursor := DirCursor {
  dc_dir : fat_dir;
  dc_cluster : Z;
  dc_slot : Z;
  dc_index : Z;
  dc_seen : Z;
  dc_ended : bool;
}.

(** The bytes of an entry before a terminator among them. *)
Fixpoint c_str (l : list Z) : list Z :=
  match l with [] => [] | c :: l => if c =? 0 then [] else c :: c_str l end.

(** ** The kinds of entries, by their 32 bytes *)
Definition entry_is_lfn (raw : list Z) : bool := Z.land (rd raw 11) FAT_ATTR_LFN =? FAT_ATTR_LFN.
Definition entry_is_free (raw : list Z) : bool := (rd raw 0 =? 0x00) || (rd raw 0 =? 0xE5).
Definition entry_is_usable (raw : list Z) : bool :=
  negb (entry_is_free raw) && negb (entry_is_lfn raw) && (Z.land (rd raw 11) 0x08 =? 0).
Definition is_dot_entry (raw : list Z) : bool := (rd raw 0 =? 46) && ((rd raw 1 =? 32) || (rd raw 1 =? 46)).

(** The accumulator before a walk; its buffer is not initialised in the C code. *)
Definition lfn_start : lfn_state := LfnState (replicate 261 0) 0 0 0 0 false.

Section Directory.
Context {W : Type} (v : fat_volume W).
Implicit Types (s : fat_state W) (d : fat_dir).

Definition root_directory : fat_dir :=
  FatDir (match vol_type v with FAT_TYPE_16 => 0 | FAT_TYPE_32 => root_cluster v end) true.
Definition dir_is_fixed_root d : bool := is_root d && bool_decide (vol_type v = FAT_TYPE_16).

Definition slot_bytes s (e : Z) : list Z := mem_bytes (image s) e 32.

Definition entries_per_cluster : Z := cluster_bytes v / 32.

(** ** Directory cursor *)
Fixpoint skip_clusters (skip : nat) s (c seen : Z) : option (Z * Z) :=
  match skip with
  | O => Some (c, seen)
  | S skip =>
      let '(status, next) := next_cluster v s c in
      if negb (status =? 0) then None else
      if u32 (seen + 1) >=? cluster_limit v then None else skip_clusters skip s next (u32 (seen + 1))
  end.

Definition cursor_init s d (start_index : Z) : option dir_cursor :=
  if dir_is_fixed_root d then
    if start_index <=? root_entries v then Some (DirCursor d 0 start_index start_index 0 false) else None
  else if negb (cluster_is_valid v (fd_first d)) then None else
  match skip_clusters (Z.to_nat (start_index / entries_per_cluster)) s (fd_first d) 1 with
  | None => None
  | Some (c, seen) => Some (DirCursor d c (start_index mod entries_per_cluster) start_index seen false)
  end.

Definition cursor_end (cur : dir_cursor) (seen : Z) : dir_cursor :=
  DirCursor (dc_dir cur) (dc_cluster cur) (dc_slot cur) (dc_index cur) seen true.

(** The entry at the cursor, which moves behind it. *)
Definition cursor_take (cur : dir_cursor) (base : Z) : dir_cursor * option Z :=
  (DirCursor (dc_dir cur) (dc_cluster cur) (u32 (dc_slot cur + 1)) (u32 (dc_index cur + 1)) (dc_seen cur) (dc_ended cur),
   Some (base + 32 * dc_slot cur)).

Definition cursor_next s (cur : dir_cursor) : dir_cursor * option Z :=
  if dc_ended cur then (cur, None) else
  if dir_is_fixed_root (dc_dir cur) then
    if dc_slot cur >=? root_entries v then (cursor_end cur (dc_seen cur), None)
    else cursor_take cur (sector v (root_start_sector v))
  else
    let here (cur : dir_cursor) :=
      match cluster_data v (dc_cluster cur) with
      | None => (cursor_end cur (dc_seen cur), None)
      | Some data => cursor_take cur data
      end in
    if dc_slot cur >=? entries_per_cluster then
      let '(status, next) := next_cluster v s (dc_cluster cur) in
      if negb (status =? 0) then (cursor_end cur (dc_seen cur), None) else
      let seen := u32 (dc_seen cur + 1) in
      if seen >=? cluster_limit v then (cursor_end cur seen, None)
      else here (DirCursor (dc_dir cur) next 0 (dc_index cur) seen false)
    else here cur.

(** [while ((entry = cursor_next(&cursor)) != 0)]: the body gets what the loop
    carries, the index of the cursor and the entry, and goes on with [inl] or
    returns with [inr]; [fin] is the code behind the loop.  The result is
    [None] when the fuel runs out. *)
Fixpoint cursor_loop {A R : Type} (fuel : nat) s (body : A -> Z -> Z -> A + R) (fin : A -> Z -> R)
    (cur : dir_cursor) (a : A) : option R :=
  match fuel with
  | O => None
  | S fuel =>
      let '(cur, entry) := cursor_next s cur in
      match entry with
      | None => Some (fin a (dc_index cur))
      | Some e =>
          match body a (dc_index cur) e with
          | inl a => cursor_loop fuel s body fin cur a
          | inr r => Some r
          end
      end
  end.

(** More passes than a cursor has slots to visit. *)
Definition dir_fuel : nat := Z.to_nat (root_entries v + cluster_limit v * entries_per_cluster + 2).

(** ** Searching *)
Definition taken_body s (name : list Z) (_ : unit) (_ e : Z) : unit + bool :=
  let raw := slot_bytes s e in
  if rd raw 0 =? 0x00 then inr false else
  if negb (entry_is_usable raw) then inl tt else
  if bool_decide (take 11 raw = name) then inr true else inl tt.

Definition short_name_taken s d (name : list Z) : bool :=
  match cursor_init s d 0 with
  | None => false
  | Some cur => default false (cursor_loop dir_fuel s (taken_body s name) (fun _ _ => false) cur tt)
  end.

Definition find_body s (name : list Z) (lfn : lfn_state) (index e : Z) : lfn_state + option found_entry :=
  let raw := slot_bytes s e in
  if rd raw 0 =? 0x00 then inr None else
  if entry_is_lfn raw then inl (lfn_feed lfn raw (u32 (index - 1))) else
  if negb (entry_is_usable raw) then inl (lfn_reset lfn) else
  let long_name := lfn_take lfn raw in
  if match long_name with Some l => strcasecmp l name =? 0 | None => false end ||
     (strcasecmp (c_str (entry_short_name raw)) name =? 0)
  then inr (Some (FoundEntry (fat_impl_entry_get_cluster v s e) (fat_impl_entry_get_size s e) (rd raw 11)
                    (match long_name with Some _ => ls_start lfn | None => u32 (index - 1) end) (u32 (index - 1)) e))
  else inl (lfn_reset lfn).

Definition fat_impl_find_entry s d (name : list Z) : option found_entry :=
  match cursor_init s d 0 with
  | None => None
  | Some cur => default None (cursor_loop dir_fuel s (find_body s name) (fun _ _ => None) cur lfn_start)
  end.

(** [true] when the directory has no entry but the two dot entries. *)
Definition empty_body s (_ : unit) (_ e : Z) : unit + bool :=
  let raw := slot_bytes s e in
  if rd raw 0 =? 0x00 then inr true else
  if negb (entry_is_usable raw) then inl tt else
  if is_dot_entry raw then inl tt else inr false.

Definition fat_impl_dir_is_empty s (cluster : Z) : bool :=
  if negb (cluster_is_valid v cluster) then false else
  match cursor_init s (FatDir cluster false) 0 with
  | None => false
  | Some cur => default false (cursor_loop dir_fuel s (empty_body s) (fun _ _ => true) cur tt)
  end.

(** What [fat_impl_read_dir_one] returns: the new index, the result, and the
    name and kind it has stored when the result is positive. *)
Record dir_result := DirResult { dr_index : Z; dr_result : Z; dr_name : list Z; dr_is_dir : bool }.

Definition read_body s (index0 length : Z) (lfn : lfn_state) (index e : Z) : lfn_state + dir_result :=
  let raw := slot_bytes s e in
  if rd raw 0 =? 0x00 then inr (DirResult index 0 [] false) else
  if entry_is_lfn raw then inl (lfn_feed lfn raw (u32 (index - 1))) else
  if negb (entry_is_usable raw) || is_dot_entry raw then inl (lfn_reset lfn) else
  let name := match lfn_take lfn raw with Some l => l | None => c_str (entry_short_name raw) end in
  if strlen name + 1 >? length then inr (DirResult index0 (-1) [] false)
  else inr (DirResult index (strlen name + 1) name (rd raw 11 &? FAT_ATTR_DIRECTORY)).

Definition fat_impl_read_dir_one s d (index length : Z) : dir_result :=
  if length =? 0 then DirResult index (-1) [] false else
  match cursor_init s d index with
  | None => DirResult index (-1) [] false
  | Some cur =>
      default (DirResult index (-1) [] false)
        (cursor_loop dir_fuel s (read_body s index length) (fun _ i => DirResult i 0 [] false) cur lfn_start)
  end.

(** The names so far, each with a slash for a directory and a terminator. *)
Fixpoint read_dir_loop (fuel : nat) s d (index length : Z) (buffer : list Z) : Z * Z * list Z :=
  match fuel with
  | O => (index, -1, buffer)
  | S fuel =>
      let r := fat_impl_read_dir_one s d index (FAT_LFN_MAX + 1) in
      if dr_result r <=? 0 then
        (dr_index r, if (dr_result r <? 0) && (zlen buffer =? 0) then -1 else i32 (zlen buffer), buffer)
      else
        let required := dr_result r + (if dr_is_dir r then 1 else 0) in
        if required >? length - zlen buffer then (index, if zlen buffer =? 0 then -1 else i32 (zlen buffer), buffer)
        else read_dir_loop fuel s d (dr_index r) length (buffer ++ dr_name r ++ (if dr_is_dir r then [47] else []) ++ [0])
  end.

(** Every name takes at least its terminator of the buffer. *)
Definition fat_impl_read_dir s d (index length : Z) : Z * Z * list Z :=
  if length =? 0 then (index, -1, []) else read_dir_loop (S (Z.to_nat length)) s d index length [].

(** ** Slot allocation *)

(** Look for [count] free entries in a row: [out] holds the entries of the
    present run and [start] the index of its first; [inr] has found one. *)
Fixpoint free_run s (count : Z) (es : list (Z * Z)) (start : Z) (out : list Z) : (Z * list Z) + (Z * list Z) :=
  match es with
  | [] => inl (start, out)
  | (i, e) :: es =>
      if entry_is_free (slot_bytes s e) then
        let start := if zlen out =? 0 then i else start in
        let out := out ++ [e] in
        if zlen out =? count then inr (start, out) else free_run s count es start out
      else free_run s count es start []
  end.

(** The entries of a table of [n] entries at [base], the first with index [i]. *)
Definition entries_from (i base n : Z) : list (Z * Z) := (fun k => (u32 (i + k), base + 32 * k)) <$> seqZ 0 n.

Fixpoint alloc_slots_loop (fuel : nat) s (count current visited start : Z) (out : list Z) : fat_state W * option (Z * list Z) :=
  match fuel with
  | O => (s, None)
  | S fuel =>
      match cluster_data v current with
      | None => (s, None)
      | Some data =>
          match free_run s count (entries_from (u32 (visited * entries_per_cluster)) data entries_per_cluster) start out with
          | inr r => (s, Some r)
          | inl (start, out) =>
              if u32 (visited + 1) >=? cluster_limit v then (s, None) else
              let '(s, next) := advance v s current in
              match next with
              | None => (s, None)
              | Some next => alloc_slots_loop fuel s count next (u32 (visited + 1)) start out
              end
          end
      end
  end.

Definition alloc_dir_slots s d (count : Z) : fat_state W * option (Z * list Z) :=
  if dir_is_fixed_root d then
    match free_run s count (entries_from 0 (sector v (root_start_sector v)) (root_entries v)) 0 [] with
    | inr r => (s, Some r)
    | inl _ => (s, None)
    end
  else if negb (cluster_is_valid v (fd_first d)) then (s, None)
  else alloc_slots_loop (Z.to_nat (cluster_limit v)) s count (fd_first d) 0 0 [].

(** ** Aliases, [short_name_alias] of [fat_name.c] *)

(** The first [n] characters that are kept, those outside of the short set replaced. *)
Fixpoint alias_part (name : list Z) (n : nat) : list Z :=
  match n, name with
  | S n', c :: name =>
      if (c =? 32) || (c =? 46) then alias_part name n
      else (if valid_short_char c then to_upper c else 95) :: alias_part name n'
  | _, _ => []
  end.

(** Decimal digits, the last one first. *)
Fixpoint suffix_digits (fuel : nat) (value : Z) : list Z :=
  match fuel with
  | O => []
  | S fuel => if value =? 0 then [] else (48 + value mod 10) :: suffix_digits fuel (value / 10)
  end.

Definition alias_name (base ext : list Z) (n : Z) : list Z :=
  let suffix := suffix_digits 7 n in
  let stem := 8 - (zlen suffix + 1) in
  let stem := if stem >? zlen base then zlen base else stem in
  pad 8 (take (Z.to_nat stem) base ++ 126 :: rev suffix) ++ pad 3 ext.

Fixpoint alias_loop (fuel : nat) s d (base ext : list Z) (n : Z) : option (list Z) :=
  match fuel with
  | O => None
  | S fuel =>
      if negb (short_name_taken s d (alias_name base ext n)) then Some (alias_name base ext n)
      else alias_loop fuel s d base ext (n + 1)
  end.

Definition short_name_alias s d (name : list Z) : option (list Z) :=
  let '(base_len, ext_at, ext_len) := split_extension name in
  let base := alias_part (bytes_at name 0 base_len) 8 in
  let base := match base with [] => [95] | _ => base end in
  let ext := alias_part (bytes_at name ext_at ext_len) 3 in
  alias_loop (Z.to_nat 999999) s d base ext 1.

(** ** Creating and erasing entries *)
Variable rtc_read : W -> rtc_time * W.

(** The short name, its case flags and the number of long-name slots. *)
Definition choose_short_name s d (name : list Z) : option (list Z * Z * Z) :=
  match short_name_exact name with
  | Some (short_name, nt_case) => Some (short_name, nt_case, 0)
  | None =>
      match short_name_alias s d name with
      | None => None
      | Some short_name => Some (short_name, 0, (strlen name + 12) / 13)
      end
  end.

Definition store_slot s (e : Z) (raw : list Z) : fat_state W := set_image s (st_bytes (image s) e raw).

(** The 32 bytes of a fresh entry before its cluster and its time. *)
Definition fresh_entry (short_name : list Z) (attr nt_case : Z) : list Z :=
  let raw := replicate 32 0 in
  let raw := copy_to raw 0 short_name in
  let raw := wr raw 11 attr in
  wr raw 12 nt_case.

(** Store 32 bytes in each of the given entries. *)
Definition store_all s (es : list Z) (raws : list (list Z)) : fat_state W := foldl (fun s '(e, raw) => store_slot s e raw) s (zip es raws).

(** The slots of a long name, the last part first; none for [lfn_count] 0. *)
Definition long_slots (name short_name : list Z) (lfn_count : Z) : list (list Z) :=
  (fun i => write_lfn_slot name (strlen name) (u8 (lfn_count - i)) (i =? 0) (lfn_checksum short_name)) <$> seqZ 0 lfn_count.

(** Fill the slots that were allocated for an entry, and flush them. *)
Definition fill_slots s (name short_name : list Z) (nt_case lfn_count attr cluster : Z) (slots : list Z) : fat_state W :=
  let s := store_all s slots (long_slots name short_name lfn_count) in
  let entry := default 0 (slots !! Z.to_nat lfn_count) in
  let s := store_slot s entry (fresh_entry short_name attr nt_case) in
  let s := fat_impl_entry_set_cluster v s entry cluster in
  let s := fat_impl_entry_set_size s entry 0 in
  let s := fat_impl_set_timestamp rtc_read s entry in
  foldl (fun s e => fat_flush_bytes v s e 32) s slots.

Definition fat_impl_create_entry s d (name : list Z) (attr cluster : Z) : fat_state W * option found_entry :=
  let length := strlen name in
  if (length =? 0) || (length >? 255) then (s, None) else
  match choose_short_name s d name with
  | None => (s, None)
  | Some (short_name, nt_case, lfn_count) =>
      let '(s, r) := alloc_dir_slots s d (lfn_count + 1) in
      match r with
      | None => (s, None)
      | Some (start_index, slots) =>
          (fill_slots s name short_name nt_case lfn_count attr cluster slots,
           Some (FoundEntry cluster 0 attr start_index (u32 (start_index + lfn_count)) (default 0 (slots !! Z.to_nat lfn_count))))
      end
  end.

Fixpoint erase_loop (fuel : nat) s (index_end : Z) (cur : dir_cursor) : fat_state W :=
  match fuel with
  | O => s
  | S fuel =>
      if negb (dc_index cur <=? index_end) then s else
      let '(cur, entry) := cursor_next s cur in
      match entry with
      | None => s
      | Some e =>
          let s := set_image s (st8 (image s) e 0xE5) in
          erase_loop fuel (fat_flush_bytes v s e 32) index_end cur
      end
  end.

Definition fat_impl_erase_entry s d (e : found_entry) : fat_state W :=
  match cursor_init s d (fe_index e) with
  | None => s
  | Some cur => erase_loop (S (Z.to_nat (fe_index_end e + 1 - fe_index e))) s (fe_index_end e) cur
  end.

(** A dot entry: [n] dots, then spaces. *)
Definition store_dot s (e : Z) (n : nat) (cluster : Z) : fat_state W :=
  let s := store_slot s e (fresh_entry (pad 11 (replicate n 46)) FAT_ATTR_DIRECTORY 0) in
  let s := fat_impl_entry_set_cluster v s e cluster in
  fat_impl_set_timestamp rtc_read s e.

Definition fat_impl_init_dir_cluster s (cluster : Z) (parent : fat_dir) : fat_state W * bool :=
  match cluster_data v cluster with
  | None => (s, false)
  | Some entries =>
      let s := set_image s (memset (image s) entries 0 (cluster_bytes v)) in
      let s := store_dot s entries 1 cluster in
      let s := store_dot s (entries + 32) 2 (if is_root parent then 0 else fd_first parent) in
      (fat_flush_bytes v s entries (cluster_bytes v), true)
  end.

(** ** Operations on a component, [fat.c] *)
Definition fat_create_at s d (name : list Z) : fat_state W * option found_entry :=
  match fat_impl_find_entry s d name with
  | Some _ => (s, None)
  | None => fat_impl_create_entry s d name FAT_ATTR_ARCHIVE 0
  end.

Definition fat_remove_at s d (name : list Z) (is_directory : bool) : fat_state W * bool :=
  match fat_impl_find_entry s d name with
  | None => (s, false)
  | Some entry =>
      if negb (Bool.eqb (fe_attr entry &? FAT_ATTR_DIRECTORY) is_directory) then (s, false) else
      if is_directory && negb (fat_impl_dir_is_empty s (fe_cluster entry)) then (s, false) else
      let s := if fe_cluster entry =? 0 then s else fat_impl_free_chain v s (fe_cluster entry) in
      (fat_impl_erase_entry s d entry, true)
  end.

Definition fat_mkdir_at s d (name : list Z) : fat_state W * bool :=
  match fat_impl_find_entry s d name with
  | Some _ => (s, false)
  | None =>
      let '(s, cluster) := fat_impl_alloc_cluster v s in
      if cluster =? 0 then (s, false) else
      let '(s, ok) := fat_impl_init_dir_cluster s cluster d in
      if negb ok then (fat_impl_free_chain v s cluster, false) else
      let '(s, r) := fat_impl_create_entry s d name FAT_ATTR_DIRECTORY cluster in
      match r with
      | None => (fat_impl_free_chain v s cluster, false)
      | Some _ => (s, true)
      end
  end.
End Directory.
