(* ===== verification/FatListing.v ===== *)
(** The listing of a FAT directory: what the raw slots of a directory mean, and
    how storing and erasing the slots of one entry changes it. *)
From S2P Require Import Prelude KString Fat FatName FatNameSpec FatDir.

(** ** Parsing slots *)

(** An entry: its long name, its 32 bytes, and the indices of its first and last slot. *)
Record dent := Dent { de_long : option (list Z); de_raw : list Z; de_first : Z; de_last : Z }.

Implicit Types (st : lfn_state) (raws A B : list (list Z)).

Definition de_of st (i : Z) (raw : list Z) : dent :=
  let long := lfn_take st raw in
  Dent long raw (match long with Some _ => ls_start st | None => i end) i.

Definition zero_slot (raw : list Z) : bool := rd raw 0 =? 0x00.

(** The accumulator behind a slot with index [i]. *)
Definition after1 st (i : Z) (raw : list Z) : lfn_state :=
  if entry_is_lfn raw then lfn_feed st raw i else lfn_reset st.

(** The entries up to the first slot that begins with a zero. *)
Fixpoint parse st (i : Z) raws : list dent :=
  match raws with
  | [] => []
  | raw :: raws =>
      if zero_slot raw then [] else
      (if entry_is_usable raw then [de_of st i raw] else []) ++ parse (after1 st i raw) (i + 1) raws
  end.

Definition listing raws : list dent := parse lfn_start 0 raws.

(** Whether an entry answers to a name, in any case. *)
Definition answers (name : list Z) (e : dent) : bool :=
  match de_long e with Some l => strcasecmp l name =? 0 | None => false end ||
  (strcasecmp (c_str (entry_short_name (de_raw e))) name =? 0).

(** ** The accumulator

    Two states are the same when they agree but for the bytes of the buffer that
    will be written before they are read. *)
Record lfn_same st st' : Prop := {
  sm_valid : ls_valid st' = ls_valid st;
  sm_zlen : zlen (ls_name st') = zlen (ls_name st);
  sm_rest : ls_valid st = true ->
    ls_length st' = ls_length st /\ ls_start st' = ls_start st /\ ls_checksum st' = ls_checksum st /\ ls_expect st' = ls_expect st /\
    forall j, ls_expect st * 13 <= j < ls_length st -> rd (ls_name st') j = rd (ls_name st) j;
}.

(** What holds of every state of a walk. *)
Definition lfn_wf st : Prop :=
  zlen (ls_name st) = FAT_LFN_BUFFER /\ (ls_valid st = true -> 0 <= ls_expect st <= 20 /\ 0 <= ls_length st <= 260).

#[global] Instance lfn_same_equiv : Equivalence lfn_same.
Proof.
  split.
  - intros st. by split.
  - intros st st' [V L R]. split; [done|done|]. rewrite V. intros Hv. destruct (R Hv) as (-> & -> & -> & E & H). rewrite E. split_and!; try done.
    intros j Hj. symmetry. by apply H.
  - intros a b c [V L R] [V' L' R']. split; [congruence|congruence|]. intros Hv. destruct (R Hv) as (E1 & E2 & E3 & E4 & H).
    destruct (R' ltac:(congruence)) as (F1 & F2 & F3 & F4 & H'). rewrite E1, E4 in *. split_and!; try congruence.
    intros j Hj. rewrite H', H by done. done.
Qed.

Lemma lfn_store_spec buf raw base : 0 <= base -> base + 13 <= zlen buf ->
  zlen (lfn_store buf raw base) = zlen buf /\
  forall j, 0 <= j -> rd (lfn_store buf raw base) j =
    if decide (base <= j < base + 13) then lfn_char (lfn_unit raw (rd lfn_offsets (j - base))) else rd buf j.
Proof.
  intros Hb Hl. pose proof (store_units (fun off => lfn_char (lfn_unit raw off)) lfn_offsets 0 base buf ltac:(lia)) as H.
  change (zlen lfn_offsets) with 13 in H. cbv zeta in H. rewrite Z.add_0_r in H. by apply H.
Qed.

(** The three outcomes of a long-name slot. *)
Lemma lfn_feed_cases st raw i : let seq := Z.land (rd raw 0) 0x1F in let last := negb (Z.land (rd raw 0) 0x40 =? 0) in
  (lfn_feed st raw i = lfn_reset st) \/
  (rd raw 0 <> 0xE5 /\ 1 <= seq <= 20 /\ last = true /\
   lfn_feed st raw i = LfnState (lfn_store (ls_name st) raw ((seq - 1) * 13)) (seq * 13) i (rd raw 13) (seq - 1) true) \/
  (rd raw 0 <> 0xE5 /\ 1 <= seq <= 20 /\ last = false /\ ls_valid st = true /\ seq = ls_expect st /\ rd raw 13 = ls_checksum st /\
   lfn_feed st raw i = LfnState (lfn_store (ls_name st) raw ((seq - 1) * 13)) (ls_length st) (ls_start st) (ls_checksum st) (seq - 1) true).
Proof.
  intros seq last. unfold lfn_feed. fold seq last. destruct (Z.eqb_spec (rd raw 0) 0xE5) as [|Hm]; [by left|].
  destruct (_ || (seq >? _)) eqn:Es; [by left|]. apply orb_false_iff in Es as [Es1 Es2]. unfold FAT_LFN_MAX_SLOTS in Es2.
  assert (Hseq : 1 <= seq <= 20).
  { assert (0 <= seq) by (unfold seq; rewrite Z.land_nonneg; lia). lia. }
  assert (Eu : u8 (seq - 1) = seq - 1) by (apply u8_small; lia).
  destruct last; cbn [negb andb].
  - right; left. split; [done|]. split; [done|]. split; [done|]. cbn [ls_name ls_length ls_start ls_checksum ls_valid]. by rewrite Eu.
  - destruct (ls_valid st) eqn:Ev; cbn [negb orb]; [|by left].
    destruct (Z.eqb_spec seq (ls_expect st)) as [E1|]; cbn [negb orb]; [|by left].
    destruct (Z.eqb_spec (rd raw 13) (ls_checksum st)) as [E2|]; cbn [negb orb]; [|by left].
    right; right. split_and!; try done; try lia. by rewrite Eu.
Qed.

Lemma lfn_wf_start : lfn_wf lfn_start.
Proof. by split. Qed.
Lemma lfn_wf_reset st : lfn_wf st -> lfn_wf (lfn_reset st).
Proof. intros [H _]. by split. Qed.

Lemma lfn_wf_feed st raw i : lfn_wf st -> lfn_wf (lfn_feed st raw i).
Proof.
  intros [H1 H2]. destruct (lfn_feed_cases st raw i) as [->|[(_ & Hs & _ & ->)|(_ & Hs & _ & Hv & _ & _ & ->)]]; [by apply lfn_wf_reset|..].
  all: destruct (lfn_store_spec (ls_name st) raw ((Z.land (rd raw 0) 31 - 1) * 13) ltac:(lia) ltac:(rewrite H1; unfold FAT_LFN_BUFFER; lia)) as [L _].
  all: split; cbn; [congruence|intros _; try specialize (H2 Hv); lia].
Qed.

Lemma lfn_wf_after1 st i raw : lfn_wf st -> lfn_wf (after1 st i raw).
Proof. intros H. unfold after1. destruct (entry_is_lfn raw); auto using lfn_wf_feed, lfn_wf_reset. Qed.
#[export] Hint Resolve lfn_wf_start lfn_wf_reset lfn_wf_feed lfn_wf_after1 : gaia.

Lemma lfn_same_reset st st' : lfn_same st st' -> lfn_same (lfn_reset st) (lfn_reset st').
Proof. intros [_ L _]. by split. Qed.

(** Any two states are the same after a reset. *)
Lemma lfn_reset_any st st' : lfn_wf st -> lfn_wf st' -> lfn_same (lfn_reset st) (lfn_reset st').
Proof. intros [L _] [L' _]. split; [done|cbn; congruence|done]. Qed.

Lemma lfn_same_feed st st' raw i : lfn_wf st -> lfn_same st st' -> lfn_same (lfn_feed st raw i) (lfn_feed st' raw i).
Proof.
  intros [HL HR] Hs. pose proof (lfn_same_reset _ _ Hs) as Hreset. destruct Hs as [V L R]. unfold lfn_feed. destruct (rd raw 0 =? _); [done|].
  set (seq := Z.land (rd raw 0) 0x1F). destruct (_ || _) eqn:Es; [done|]. apply orb_false_iff in Es as [Es1 Es2]. unfold FAT_LFN_MAX_SLOTS in Es2.
  assert (Hseq : 1 <= seq <= 20) by (assert (0 <= seq) by (unfold seq; rewrite Z.land_nonneg; lia); lia).
  assert (Eu : u8 (seq - 1) = seq - 1) by (apply u8_small; lia). rewrite V.
  destruct (lfn_store_spec (ls_name st) raw ((seq - 1) * 13) ltac:(lia) ltac:(rewrite HL; unfold FAT_LFN_BUFFER; lia)) as [L1 N1].
  destruct (lfn_store_spec (ls_name st') raw ((seq - 1) * 13) ltac:(lia) ltac:(rewrite L, HL; unfold FAT_LFN_BUFFER; lia)) as [L2 N2].
  destruct (negb (Z.land _ 0x40 =? 0)) eqn:El; cbn [negb andb].
  - split; cbn [ls_name ls_length ls_start ls_checksum ls_valid ls_expect]; [done|congruence|]. intros _. rewrite Eu. split_and!; try done.
    intros j Hj. rewrite N1, N2 by lia. rewrite !decide_True by lia. done.
  - destruct (ls_valid st) eqn:Ev; cbn [negb orb]; [|done]. destruct (R eq_refl) as (E1 & E2 & E3 & E4 & H). rewrite E4, E3.
    destruct (_ || _) eqn:Ec; [done|]. apply orb_false_iff in Ec as [Ec _]. apply negb_false_iff, Z.eqb_eq in Ec.
    split; cbn [ls_name ls_length ls_start ls_checksum ls_valid ls_expect]; [congruence|congruence|]. intros _. rewrite Eu. split_and!; try done.
    intros j Hj. rewrite N1, N2 by lia. case_decide; [done|]. apply H. lia.
Qed.

Lemma lfn_same_after1 st st' i raw : lfn_wf st -> lfn_same st st' -> lfn_same (after1 st i raw) (after1 st' i raw).
Proof. intros Hw Hs. unfold after1. destruct (entry_is_lfn raw); [by apply lfn_same_feed|by apply lfn_same_reset]. Qed.

Lemma name_length_le n : forall (l : list Z), (name_length l n <= n)%nat.
Proof. induction n as [|n IH]; intros [|x l]; cbn; try lia. destruct (x =? 0); [lia|]. specialize (IH l). lia. Qed.

Lemma name_length_take n : forall (a b : list Z), take n a = take n b -> name_length a n = name_length b n.
Proof.
  induction n as [|n IH]; intros [|x a] [|y b] E0; try done. cbn in *. injection E0 as -> E0. by rewrite (IH a b E0).
Qed.

Lemma lfn_take_same st st' raw : lfn_wf st -> lfn_same st st' -> lfn_take st' raw = lfn_take st raw.
Proof.
  intros [HL HR] [V L R]. unfold lfn_take. rewrite V. destruct (ls_valid st) eqn:Ev; [|done]. cbn [negb orb].
  destruct (R eq_refl) as (-> & _ & -> & -> & H). destruct (Z.eqb_spec (ls_expect st) 0) as [E|]; [|done]. rewrite E in H.
  assert (Hlen : ls_length st <= 260) by (apply HR; done). unfold FAT_LFN_BUFFER in HL. set (n := Z.to_nat (ls_length st)).
  assert (T : take n (ls_name st') = take n (ls_name st)).
  { apply list_eq_same_length with (n := n); [unfold n, zlen in *; rewrite length_take; lia|unfold n, zlen in *; rewrite length_take; lia|].
    intros k x y Hk Hx Hy. rewrite lookup_take_lt in Hx, Hy by done. specialize (H (Z.of_nat k) ltac:(lia)). unfold rd in H.
    rewrite Nat2Z.id, Hx, Hy in H. done. }
  rewrite (name_length_take _ _ _ T). pose proof (name_length_le n (ls_name st)) as Hn. set (k := name_length _ _) in *.
  replace (take k (ls_name st')) with (take k (ls_name st)); [done|].
  rewrite <-(Nat.min_l k n Hn), <-!take_take. by rewrite T.
Qed.

Lemma de_of_same st st' i raw : lfn_wf st -> lfn_same st st' -> de_of st' i raw = de_of st i raw.
Proof.
  intros Hw Hs. unfold de_of. rewrite (lfn_take_same st st' raw Hw Hs). destruct (lfn_take st raw) eqn:E; [|done]. f_equal.
  assert (ls_valid st = true) by (unfold lfn_take in E; by destruct (ls_valid st)). apply (sm_rest _ _ Hs); done.
Qed.

Lemma parse_same raws : forall st st' i, lfn_wf st -> lfn_same st st' -> parse st' i raws = parse st i raws.
Proof.
  induction raws as [|raw raws IH]; intros st st' i Hw Hs; cbn [parse]; [done|]. destruct (zero_slot raw); [done|].
  rewrite (IH (after1 st i raw)) by auto using lfn_wf_after1, lfn_same_after1. by rewrite (de_of_same st).
Qed.

(** ** Walking over a part of the slots *)
Fixpoint after st (i : Z) raws : lfn_state :=
  match raws with [] => st | raw :: raws => after (after1 st i raw) (i + 1) raws end.

(** No slot that ends the directory. *)
Definition live raws : Prop := Forall (fun raw => zero_slot raw = false) raws.

Lemma after_app A B : forall st i, after st i (A ++ B) = after (after st i A) (i + zlen A) B.
Proof.
  unfold zlen. induction A as [|raw A IH]; intros st i; cbn [app after length]; [by rewrite Z.add_0_r|]. rewrite IH. f_equal. lia.
Qed.

Lemma parse_app A B : live A -> forall st i, parse st i (A ++ B) = parse st i A ++ parse (after st i A) (i + zlen A) B.
Proof.
  unfold zlen. induction 1 as [|raw A Hz HA IH]; intros st i; cbn [app after parse length]; [by rewrite Z.add_0_r|].
  rewrite Hz, IH, app_assoc. do 2 f_equal. lia.
Qed.

Lemma lfn_wf_after raws : forall st i, lfn_wf st -> lfn_wf (after st i raws).
Proof. induction raws as [|raw raws IH]; intros st i H; cbn [after]; auto with gaia. Qed.
#[export] Hint Resolve lfn_wf_after : gaia.

(** Where an entry of the listing comes from. *)
Lemma parse_at raws : forall st i E1 e E2, parse st i raws = E1 ++ e :: E2 ->
  exists A raw B, raws = A ++ raw :: B /\ live A /\ parse st i A = E1 /\ zero_slot raw = false /\ entry_is_usable raw = true /\
    e = de_of (after st i A) (i + zlen A) raw /\ E2 = parse (lfn_reset (after st i A)) (i + zlen A + 1) B.
Proof.
  induction raws as [|raw raws IH]; intros st i E1 e E2 H; cbn [parse] in H; [by destruct E1|].
  destruct (zero_slot raw) eqn:Ez; [by destruct E1|].
  assert (Hrest : forall E1', parse (after1 st i raw) (i + 1) raws = E1' ++ e :: E2 -> E1 = (if entry_is_usable raw then [de_of st i raw] else []) ++ E1' ->
    exists A r B, raw :: raws = A ++ r :: B /\ live A /\ parse st i A = E1 /\ zero_slot r = false /\ entry_is_usable r = true /\
      e = de_of (after st i A) (i + zlen A) r /\ E2 = parse (lfn_reset (after st i A)) (i + zlen A + 1) B).
  { intros E1' H' HE. destruct (IH _ _ _ _ _ H') as (A & r & B & -> & HA & HP & Hr & Hu & -> & ->). exists (raw :: A), r, B.
    unfold zlen. cbn [app after parse length]. rewrite Ez, HP, HE. replace (i + Z.of_nat (S (length A))) with (i + 1 + Z.of_nat (length A)) by lia.
    split; [done|]. split; [by constructor|]. done. }
  destruct (entry_is_usable raw) eqn:Eu; [|by apply (Hrest E1)]. destruct E1 as [|e1 E1]; cbn [app] in H.
  - injection H as <- <-. exists [], raw, raws. change (zlen (@nil (list Z))) with 0. rewrite Z.add_0_r. cbn [app after parse].
    split; [done|]. split; [constructor|]. split_and!; try done. unfold after1. unfold entry_is_usable in Eu. destruct (entry_is_lfn raw); [|done].
    cbn in Eu. by rewrite andb_false_r in Eu.
  - injection H as <- H. by apply (Hrest E1).
Qed.

(** ** Erasing *)
Definition lfn_live (raw : list Z) : Prop := entry_is_lfn raw = true /\ zero_slot raw = false /\ rd raw 0 <> 0xE5.
Definition lfn_last (raw : list Z) : bool := negb (Z.land (rd raw 0) 0x40 =? 0).

(** A long name that has begun: its slots are the last ones of the walk. *)
Lemma pending_slots A st i : live A -> ls_valid st = false -> ls_valid (after st i A) = true ->
  exists A1 raw P, A = A1 ++ raw :: P /\ ls_start (after st i A) = i + zlen A1 /\ lfn_live raw /\ lfn_last raw = true /\ Forall lfn_live P.
Proof.
  intros HA Hst. induction A as [|raw A IH] using rev_ind; cbn [after]; [congruence|].
  apply list_relations.list.Forall_app in HA as [HA Hz]. apply list_relations.list.Forall_cons in Hz as [Hz _].
  rewrite after_app. cbn [after]. set (st1 := after st i A). unfold after1. destruct (entry_is_lfn raw) eqn:El; [|done].
  destruct (lfn_feed_cases st1 raw (i + zlen A)) as [->|[(Hm & _ & Hl & ->)|(Hm & _ & _ & Hv & _ & _ & ->)]]; [done|..]; intros _; cbn [ls_start].
  - exists A, raw, []. unfold lfn_live. split_and!; done.
  - destruct (IH HA Hv) as (A1 & r & P & -> & Hs & Hr & Hl & HP). exists A1, r, (P ++ [raw]). rewrite <-app_assoc. split_and!; try done.
    apply list_relations.list.Forall_app. split; [done|]. by repeat constructor.
Qed.

Lemma lfn_live_not_usable raw : lfn_live raw -> entry_is_usable raw = false.
Proof. intros (H & _ & _). unfold entry_is_usable. rewrite H. cbn. by rewrite andb_false_r. Qed.

Lemma lfn_live_live P : Forall lfn_live P -> live P.
Proof. induction 1 as [|raw P (_ & H & _) _ IH]; by constructor. Qed.

Lemma parse_lfn P : Forall lfn_live P -> forall st i, parse st i P = [].
Proof.
  induction 1 as [|raw P Hr HP IH]; intros st i; cbn [parse]; [done|]. destruct Hr as (H1 & H2 & H3).
  rewrite H2, IH, lfn_live_not_usable by done. done.
Qed.

(** The slots of an entry, as [fat_impl_find_entry] reports them. *)
Lemma entry_slots raws E1 e E2 : listing raws = E1 ++ e :: E2 ->
  exists A P raw B, raws = A ++ P ++ raw :: B /\ live A /\ Forall lfn_live P /\ zero_slot raw = false /\ entry_is_usable raw = true /\
    listing A = E1 /\ e = de_of (after lfn_start 0 (A ++ P)) (de_last e) raw /\ E2 = parse (lfn_reset (after lfn_start 0 (A ++ P))) (de_last e + 1) B /\
    de_first e = zlen A /\ de_last e = zlen A + zlen P /\
    match P with [] => de_long e = None | p :: _ => lfn_last p = true /\ is_Some (de_long e) end.
Proof.
  intros H. destruct (parse_at _ _ _ _ _ _ H) as (A & raw & B & -> & HA & HP & Hz & Hu & He & HE). rewrite Z.add_0_l in He, HE.
  destruct (lfn_take (after lfn_start 0 A) raw) as [long|] eqn:Et.
  - assert (Hv : ls_valid (after lfn_start 0 A) = true) by (unfold lfn_take in Et; by destruct (ls_valid _)).
    destruct (pending_slots A lfn_start 0 HA eq_refl Hv) as (A1 & r & P & -> & Hs & Hr & Hl & HF).
    apply list_relations.list.Forall_app in HA as [HA1 HA2]. exists A1, (r :: P), raw, B. rewrite <-app_assoc in *. rewrite He. cbn [de_last de_first de_of de_long].
    rewrite Et. split; [done|]. split; [done|]. split; [by constructor|]. split; [done|]. split; [done|]. split.
    { rewrite <-HP. unfold listing. rewrite parse_app by done. rewrite (parse_lfn (r :: P)) by (by constructor). by rewrite app_nil_r. }
    split; [done|]. split; [done|]. split; [done|]. split; [unfold zlen; rewrite length_app; lia|]. split; [done|by eexists].
  - exists A, [], raw, B. rewrite app_nil_r. cbn [app]. rewrite He. cbn [de_last de_first de_of de_long]. rewrite Et.
    change (zlen (@nil (list Z))) with 0. rewrite Z.add_0_r. split_and!; try done.
Qed.

(** An erased slot. *)
Definition erase_slot (raw : list Z) : list Z := wr raw 0 0xE5.

Lemma erased_first raw : raw <> [] -> rd (erase_slot raw) 0 = 0xE5.
Proof. intros H. unfold erase_slot. apply rd_wr_eq. unfold zlen. destruct raw; [done|cbn; lia]. Qed.

Lemma after1_erased st i raw : rd raw 0 = 0xE5 -> after1 st i raw = lfn_reset st.
Proof. intros H. unfold after1. destruct (entry_is_lfn raw); [|done]. unfold lfn_feed. by rewrite H. Qed.

Definition erased raws : Prop := Forall (fun raw => rd raw 0 = 0xE5) raws.

Lemma erased_live raws : erased raws -> live raws.
Proof. induction 1 as [|raw raws H _ IH]; constructor; [unfold zero_slot; by rewrite H|done]. Qed.

Lemma parse_erased raws : erased raws -> forall st i, parse st i raws = [].
Proof.
  induction 1 as [|raw raws H HE IH]; intros st i; cbn [parse]; [done|]. unfold zero_slot, entry_is_usable, entry_is_free. rewrite H. cbn. apply IH.
Qed.

Lemma after_erased raws : erased raws -> raws <> [] -> forall st i, after st i raws = lfn_reset st.
Proof.
  induction 1 as [|raw raws H HE IH]; intros Hne st i; [done|]. cbn [after]. rewrite after1_erased by done.
  destruct raws as [|r raws]; [done|]. by rewrite IH.
Qed.

(** Between two stretches of slots, a stretch of erased slots is not seen. *)
Lemma parse_over_erased A G B st i : live A -> erased G -> G <> [] ->
  parse st i (A ++ G ++ B) = parse st i A ++ parse (lfn_reset (after st i A)) (i + zlen A + zlen G) B.
Proof.
  intros HA HG Hne. rewrite parse_app by done. f_equal. rewrite parse_app by (by apply erased_live). by rewrite parse_erased, after_erased.
Qed.

(** ** Clean directories

    Long-name slots are always followed by the entry they belong to, and behind
    the end of the directory there are no old entries. *)
Definition clean1 st (raw : list Z) : Prop :=
  ls_valid st = false \/ (lfn_live raw /\ lfn_last raw = false) \/ (entry_is_usable raw = true /\ is_Some (lfn_take st raw)).

Fixpoint clean st (i : Z) raws : Prop :=
  match raws with
  | [] => ls_valid st = false
  | raw :: raws =>
      clean1 st raw /\
      (if zero_slot raw then Forall (fun r => zero_slot r = true) raws else clean (after1 st i raw) (i + 1) raws)
  end.

Lemma clean1_same st st' raw : lfn_wf st -> lfn_same st st' -> clean1 st raw -> clean1 st' raw.
Proof. intros Hw Hs. unfold clean1. rewrite (lfn_take_same st st' raw Hw Hs), (sm_valid _ _ Hs). done. Qed.

Lemma clean_same raws : forall st st' i, lfn_wf st -> lfn_same st st' -> clean st i raws -> clean st' i raws.
Proof.
  induction raws as [|raw raws IH]; intros st st' i Hw Hs; cbn [clean]; [by rewrite (sm_valid _ _ Hs)|].
  intros [H1 H2]. split; [by apply (clean1_same st)|]. destruct (zero_slot raw); [done|]. eapply IH; [..|done]; auto using lfn_same_after1 with gaia.
Qed.

Lemma clean_app A B : live A -> forall st i, clean st i (A ++ B) -> clean (after st i A) (i + zlen A) B.
Proof.
  unfold zlen. induction 1 as [|raw A Hz HA IH]; intros st i; cbn [app clean after length]; [by rewrite Z.add_0_r|].
  rewrite Hz. intros [_ H]. apply IH in H. replace (i + Z.of_nat (S (length A))) with (i + 1 + Z.of_nat (length A)) by lia. done.
Qed.

(** The part before stays clean when what follows it is. *)
Lemma clean_replace A B B' : live A -> forall st i, clean st i (A ++ B) -> clean (after st i A) (i + zlen A) B' -> clean st i (A ++ B').
Proof.
  unfold zlen. induction 1 as [|raw A Hz HA IH]; intros st i; cbn [app clean after length]; [by rewrite Z.add_0_r|].
  rewrite Hz. intros [H1 H2] H. split; [done|]. apply (IH _ _ H2). replace (i + 1 + Z.of_nat (length A)) with (i + Z.of_nat (S (length A))) by lia. done.
Qed.

Lemma clean_erased G B : erased G -> G <> [] -> forall st i, ls_valid st = false -> clean (lfn_reset st) (i + zlen G) B -> clean st i (G ++ B).
Proof.
  unfold zlen. induction 1 as [|raw G H HG IH]; intros Hne st i Hv HB; [done|]. cbn [app clean length] in *. split; [by left|].
  unfold zero_slot. rewrite H. cbn [Z.eqb Pos.eqb]. rewrite after1_erased by done. destruct G as [|r G].
  - cbn [app length] in *. replace (i + 1) with (i + Z.of_nat 1) by lia. done.
  - apply IH; [done|done|]. cbn [length] in *. replace (i + 1 + Z.of_nat (S (length G))) with (i + Z.of_nat (S (S (length G)))) by lia. done.
Qed.

Lemma clean_head st i raw raws : clean st i (raw :: raws) -> (entry_is_free raw = true \/ lfn_last raw = true) -> entry_is_usable raw = false ->
  ls_valid st = false.
Proof.
  intros [[H|[[H Hl]|[H _]]] _] Hf Hu; [done| |congruence]. exfalso. destruct H as (_ & H1 & H2). unfold zero_slot, entry_is_free in *.
  destruct Hf as [Hf|Hf]; [|congruence]. rewrite H1 in Hf. cbn in Hf. apply Z.eqb_eq in Hf. done.
Qed.

Lemma usable_not_lfn raw : entry_is_usable raw = true -> entry_is_lfn raw = false.
Proof. unfold entry_is_usable. destruct (entry_is_lfn raw); [|done]. cbn. by rewrite andb_false_r. Qed.

(** No long name has begun where the slots of an entry start. *)
Lemma clean_entry st i P raw B : clean st i (P ++ raw :: B) -> Forall lfn_live P -> entry_is_usable raw = true ->
  match P with [] => lfn_take st raw = None | p :: _ => lfn_last p = true end -> ls_valid st = false.
Proof.
  intros Hc HP Hu Hlong. destruct P as [|p P]; cbn [app] in *.
  - destruct Hc as [[Hc|[[(Hx & _) _]|[_ Hc]]] _]; [done|by rewrite (usable_not_lfn raw) in Hx|rewrite Hlong in Hc; by destruct Hc].
  - apply (clean_head _ _ _ _ Hc); [by right|]. apply list_relations.list.Forall_cons in HP as [HP _]. by apply lfn_live_not_usable.
Qed.

(** What follows an entry is clean on its own. *)
Lemma clean_behind st i P raw B : lfn_wf st -> clean st i (P ++ raw :: B) -> Forall lfn_live P -> zero_slot raw = false -> entry_is_usable raw = true ->
  clean (lfn_reset st) (i + zlen P + 1) B.
Proof.
  intros Hw Hc HP Hz Hu. apply clean_app in Hc; [|by apply lfn_live_live]. cbn [clean] in Hc. rewrite Hz in Hc. destruct Hc as [_ Hc].
  unfold after1 in Hc. rewrite usable_not_lfn in Hc by done. apply (clean_same _ (lfn_reset (after st i P))); [by auto with gaia|apply lfn_reset_any; by auto with gaia|done].
Qed.

(** Erasing the slots of an entry takes that entry out of the listing and
    leaves the others. *)
Lemma listing_erase raws E1 e E2 : Forall (fun raw => raw <> []) raws -> clean lfn_start 0 raws -> listing raws = E1 ++ e :: E2 ->
  exists A G B, raws = A ++ G ++ B /\ zlen A = de_first e /\ zlen (A ++ G) = de_last e + 1 /\
    listing (A ++ (erase_slot <$> G) ++ B) = E1 ++ E2 /\ clean lfn_start 0 (A ++ (erase_slot <$> G) ++ B).
Proof.
  intros Hne Hc H. destruct (entry_slots _ _ _ _ H) as (A & P & raw & B & -> & HA & HP & Hz & Hu & HE1 & He & HE2 & Hf & Hl & Hlong).
  exists A, (P ++ [raw]), B. split; [by rewrite <-app_assoc|]. split; [done|].
  split; [unfold zlen in *; rewrite !length_app; cbn; lia|]. set (G := erase_slot <$> (P ++ [raw])).
  assert (HG : erased G).
  { unfold G. apply list_monad.list.Forall_fmap. rewrite cons_middle in Hne.
    apply list_relations.list.Forall_app in Hne as [_ Hne]. rewrite app_assoc in Hne. apply list_relations.list.Forall_app in Hne as [Hne _].
    induction Hne as [|r G' Hr _ IH]; constructor; [by apply erased_first|done]. }
  assert (HGne : G <> []) by (unfold G; by destruct P).
  assert (HGl : zlen G = zlen P + 1) by (unfold G, zlen; rewrite length_fmap, length_app; cbn; lia).
  assert (HwA : lfn_wf (after lfn_start 0 A)) by auto with gaia. assert (HwP : lfn_wf (after lfn_start 0 (A ++ P))) by auto with gaia.
  split.
  - unfold listing. rewrite parse_over_erased by done. fold (listing A). rewrite HE1, HE2. f_equal.
    rewrite (parse_same B (lfn_reset (after lfn_start 0 (A ++ P)))) by auto using lfn_reset_any with gaia. f_equal. lia.
  - eapply clean_replace; [done|exact Hc|]. apply clean_app in Hc; [|done]. apply clean_erased; [done|done| |].
    + apply (clean_entry _ _ _ _ _ Hc HP Hu). destruct P as [|p P]; [|by destruct Hlong].
      rewrite app_nil_r in He. rewrite He in Hlong. done.
    + pose proof (clean_behind _ _ _ _ _ HwA Hc HP Hz Hu) as HB. replace (0 + zlen A + zlen G) with (0 + zlen A + zlen P + 1) by lia. done.
Qed.

(** ** Inserting *)

(** Slots that make up one entry, when the accumulator before them is empty. *)
Record segment st (i : Z) (N : list (list Z)) (e : dent) : Prop := {
  sg_live : live N;
  sg_parse : parse st i N = [e];
  sg_after : lfn_same (lfn_reset st) (after st i N);
  sg_clean : forall B, clean (lfn_reset st) (i + zlen N) B -> clean st i (N ++ B);
}.

Definition free_slots raws : Prop := Forall (fun raw => entry_is_free raw = true) raws.
Definition ends_used raws : Prop := forall raw, list.last raws = Some raw -> entry_is_free raw = false.

Lemma zero_free raw : zero_slot raw = true -> entry_is_free raw = true.
Proof. unfold zero_slot, entry_is_free. by intros ->. Qed.

Lemma free_not_usable raw : entry_is_free raw = true -> entry_is_usable raw = false.
Proof. unfold entry_is_usable. by intros ->. Qed.

(** Before a used slot of a clean directory there is no end. *)
Lemma clean_live A B : ends_used A -> forall st i, clean st i (A ++ B) -> live A.
Proof.
  induction A as [|raw A IH]; intros Hu st i Hc; [constructor|]. cbn [app clean] in Hc. destruct Hc as [_ Hc]. destruct (zero_slot raw) eqn:Ez.
  - exfalso. destruct (list.last (raw :: A)) as [x|] eqn:El; [|apply list.last_None in El; done]. specialize (Hu x El). assert (Hz : zero_slot x = true).
    { apply list.last_Some_elem_of in El. apply list.elem_of_cons in El as [->|El]; [done|].
      apply list_relations.list.Forall_app in Hc as [Hc _]. rewrite list_relations.list.Forall_forall in Hc. by apply Hc. }
    by rewrite (zero_free x Hz) in Hu.
  - constructor; [done|]. apply (IH ltac:(intros x Hx; apply Hu; destruct A; [done|exact Hx]) _ _ Hc).
Qed.

Lemma parse_zeros B : Forall (fun r => zero_slot r = true) B -> forall st i, parse st i B = [].
Proof. intros [|raw raws H _] st i; cbn [parse]; [done|]. by rewrite H. Qed.

Lemma clean_zeros B : Forall (fun r => zero_slot r = true) B -> forall st i, ls_valid st = false -> clean st i B.
Proof. intros [|raw raws H HB] st i Hv; cbn [clean]; [done|]. split; [by left|]. by rewrite H. Qed.

(** What follows a run of free slots. *)
Lemma behind_free F B : free_slots F -> F <> [] -> forall st i, lfn_wf st -> clean st i (F ++ B) ->
  parse st i (F ++ B) = parse (lfn_reset st) (i + zlen F) B /\ clean (lfn_reset st) (i + zlen F) B.
Proof.
  unfold zlen. induction 1 as [|raw F Hf HF IH]; intros Hne st i Hw Hc; [done|]. cbn [app clean parse length] in *. destruct Hc as [_ Hc].
  rewrite free_not_usable by done. cbn [app]. destruct (zero_slot raw) eqn:Ez.
  - apply list_relations.list.Forall_app in Hc as [_ Hc]. split; [by rewrite parse_zeros|by apply clean_zeros].
  - assert (He : rd raw 0 = 0xE5) by (unfold entry_is_free, zero_slot in *; rewrite Ez in Hf; cbn in Hf; by apply Z.eqb_eq).
    rewrite after1_erased in * by done. replace (i + Z.of_nat (S (length F))) with (i + 1 + Z.of_nat (length F)) by lia.
    destruct F as [|r F]; [cbn [app length] in *; by rewrite Z.add_0_r|].
    destruct (IH ltac:(done) (lfn_reset st) (i + 1) ltac:(auto with gaia) Hc) as [E C]. split; [exact E|exact C].
Qed.

(** Storing an entry in free slots behind a used one adds it to the listing. *)
Lemma listing_insert A F B N e : free_slots F -> F <> [] -> ends_used A -> clean lfn_start 0 (A ++ F ++ B) -> zlen N = zlen F ->
  (ls_valid (after lfn_start 0 A) = false -> segment (after lfn_start 0 A) (zlen A) N e) ->
  exists E1 E2, listing (A ++ F ++ B) = E1 ++ E2 /\ listing (A ++ N ++ B) = E1 ++ e :: E2 /\ clean lfn_start 0 (A ++ N ++ B).
Proof.
  intros HF Hne HA Hc HN Hseg. pose proof (clean_live _ _ HA _ _ Hc) as HlA. pose proof (clean_app _ _ HlA _ _ Hc) as HcF. rewrite Z.add_0_l in HcF.
  set (st := after lfn_start 0 A) in *. assert (Hw : lfn_wf st) by (unfold st; auto with gaia).
  assert (Hv : ls_valid st = false).
  { destruct F as [|f F]; [done|]. apply list_relations.list.Forall_cons in HF as [Hf _]. apply (clean_head _ _ _ _ HcF); [by left|by apply free_not_usable]. }
  destruct (Hseg Hv) as [HlN HpN HaN HcN]. destruct (behind_free F B HF Hne st (zlen A) Hw HcF) as [EB CB]. rewrite <-HN in EB, CB.
  exists (listing A), (parse (lfn_reset st) (zlen A + zlen N) B). unfold listing. rewrite !(parse_app A) by done. rewrite Z.add_0_l. fold st. split; [by rewrite EB|]. split.
  - rewrite parse_app, HpN by done. cbn [app]. do 2 f_equal. by apply parse_same; [auto with gaia|].
  - eapply clean_replace; [done|exact Hc|]. apply HcN, CB.
Qed.

(** More free slots at the end do not change the listing. *)
Lemma listing_extend raws Z0 : Forall (fun r => zero_slot r = true) Z0 -> clean lfn_start 0 raws ->
  listing (raws ++ Z0) = listing raws /\ clean lfn_start 0 (raws ++ Z0).
Proof.
  intros HZ. unfold listing. generalize lfn_start as st, 0 as i. induction raws as [|raw raws IH]; intros st i; cbn [app clean parse].
  - intros Hv. split; [by apply parse_zeros|by apply clean_zeros].
  - intros [H1 H2]. destruct (zero_slot raw) eqn:Ez.
    + split; [done|]. split; [done|]. by apply list_relations.list.Forall_app.
    + destruct (IH _ _ H2) as [E C]. rewrite E. done.
Qed.

(** ** The slots of a new entry *)
Lemma segment_short st i raw : lfn_wf st -> ls_valid st = false -> zero_slot raw = false -> entry_is_usable raw = true ->
  segment st i [raw] (Dent None raw i i).
Proof.
  intros Hw Hv Hz Hu. pose proof (usable_not_lfn raw Hu) as Hl. assert (Ha : after1 st i raw = lfn_reset st) by (unfold after1; by rewrite Hl).
  split; cbn [parse after app clean].
  - by repeat constructor.
  - rewrite Hz, Hu. unfold de_of, lfn_take. by rewrite Hv.
  - rewrite Ha. by apply lfn_reset_any.
  - intros B HB. split; [by left|]. rewrite Hz, Ha. exact HB.
Qed.

Lemma feed_after N : Forall lfn_live N -> forall st i, feed_slots st N i = after st i N.
Proof.
  induction 1 as [|raw N (Hr & _) HN IH]; intros st i; cbn [feed_slots after]; [done|]. rewrite IH. unfold after1. by rewrite Hr.
Qed.

Lemma clean_long P raw B : Forall (fun p => lfn_live p /\ lfn_last p = false) P -> zero_slot raw = false -> entry_is_usable raw = true ->
  forall st i, lfn_wf st -> is_Some (lfn_take (after st i P) raw) -> clean (lfn_reset st) (i + zlen P + 1) B -> clean st i (P ++ raw :: B).
Proof.
  intros HP Hz Hu. unfold zlen. induction HP as [|p P [Hp Hl] HP IH]; intros st i Hw Ht HB; cbn [app clean after length] in *.
  - split; [right; right; done|]. rewrite Hz. unfold after1. rewrite usable_not_lfn by done. by rewrite Z.add_0_r in HB.
  - split; [right; by left|]. pose proof Hp as (_ & Hpz & _). rewrite Hpz. apply IH; [auto with gaia|done|].
    eapply clean_same; [..|]; [by apply lfn_wf_reset, Hw|by apply lfn_reset_any; auto with gaia|].
    replace (i + 1 + Z.of_nat (length P) + 1) with (i + Z.of_nat (S (length P)) + 1) by lia. done.
Qed.

Lemma lfn_slot_live name length seq last ck : 1 <= seq <= 20 ->
  lfn_live (write_lfn_slot name length seq last ck) /\ lfn_last (write_lfn_slot name length seq last ck) = last.
Proof.
  intros Hs. destruct (slot_marker name length seq last ck Hs) as (H1 & H2 & H3 & _). split; [|exact H3].
  split; [reflexivity|]. split; [|by apply Z.eqb_neq]. unfold zero_slot. apply Z.eqb_neq. intros E. rewrite E in H2. change (0 = seq) in H2. lia.
Qed.

Lemma lfn_slots_length name ck : length (lfn_slots name ck) = Z.to_nat ((zlen name + 12) / 13).
Proof. unfold lfn_slots. by rewrite length_fmap, length_seqZ. Qed.

(** All slots of a long name, and all but the first. *)
Lemma lfn_slots_live name ck : 1 <= zlen name <= 255 ->
  exists p P, lfn_slots name ck = p :: P /\ lfn_live p /\ Forall (fun p => lfn_live p /\ lfn_last p = false) P.
Proof.
  intros Hl. unfold lfn_slots. set (n := (zlen name + 12) / 13). assert (Hn : 1 <= n <= 20).
  { unfold n. split; [apply Z.div_le_lower_bound; lia|apply Z.lt_succ_r, Z.div_lt_upper_bound; lia]. }
  rewrite seqZ_cons by lia. cbn [fmap list_fmap]. eexists _, _. split; [done|]. split.
  - apply lfn_slot_live. rewrite Z.sub_0_r, u8_small by lia. lia.
  - apply list_monad.list.Forall_fmap, list_relations.list.Forall_forall. intros i Hi. apply elem_of_seqZ in Hi. cbn.
    destruct (lfn_slot_live name (zlen name) (u8 (n - i)) (i =? 0) ck) as [H1 H2]; [rewrite u8_small; lia|]. split; [done|]. rewrite H2. lia.
Qed.

Lemma segment_long st i name raw : lfn_wf st -> ls_valid st = false -> name_ok name -> 1 <= zlen name <= 255 ->
  zero_slot raw = false -> entry_is_usable raw = true ->
  let n := (zlen name + 12) / 13 in segment st i (lfn_slots name (lfn_checksum raw) ++ [raw]) (Dent (Some (decode name)) raw i (i + n)).
Proof.
  intros Hw Hv Hn Hl Hz Hu n. destruct (lfn_roundtrip_ok name raw st i Hn Hl (proj1 Hw)) as [Ht Hs].
  destruct (lfn_slots_live name (lfn_checksum raw) Hl) as (p & P & E & Hp & HP). pose proof (lfn_slots_length name (lfn_checksum raw)) as Len.
  assert (Hn1 : 1 <= n) by (unfold n; apply Z.div_le_lower_bound; lia).
  rewrite E in *. set (st1 := after st i (p :: P)).
  assert (HPl : Forall lfn_live (p :: P)).
  { constructor; [done|]. clear -HP. induction HP as [|q P [H _] _ IH]; by constructor. }
  assert (Ef : feed_slots st (p :: P) i = st1) by (by apply feed_after). rewrite Ef in Ht, Hs.
  assert (Hw1 : lfn_wf st1) by (unfold st1; auto with gaia). pose proof (lfn_live_live _ HPl) as Hlive. pose proof (usable_not_lfn raw Hu) as Hnl.
  assert (Zl : zlen (p :: P) = n) by (unfold zlen; rewrite Len; lia). split.
  - apply list_relations.list.Forall_app. split; [done|]. by repeat constructor.
  - rewrite parse_app by done. rewrite parse_lfn by done. cbn [app parse]. fold st1. rewrite Hz, Hu, Zl. unfold de_of. rewrite Ht, Hs. done.
  - rewrite after_app. fold st1. cbn [after]. unfold after1. rewrite Hnl. by apply lfn_reset_any.
  - intros B HB. rewrite <-app_assoc. cbn [app clean]. split; [by left|]. pose proof Hp as (_ & Hpz & _). rewrite Hpz.
    apply clean_long; [done|done|done|auto with gaia|eexists; exact Ht|].
    eapply clean_same; [by apply lfn_wf_reset, Hw|by apply lfn_reset_any; auto with gaia|].
    unfold zlen in *. rewrite length_app in HB. cbn [length] in *. replace (i + 1 + Z.of_nat (length P) + 1) with (i + Z.of_nat (S (length P) + 1)) by lia. done.
Qed.

(** ** Changing the metadata of an entry *)
Definition retouch (e : dent) (raw : list Z) : dent := Dent (de_long e) raw (de_first e) (de_last e).

Lemma rd_take n l i : 0 <= i < Z.of_nat n -> rd (take n l) i = rd l i.
Proof. intros Hi. unfold rd. by rewrite lookup_take_lt by lia. Qed.

(** Nothing of the listing depends on the bytes behind the name, the attributes and the case flags. *)
Lemma same_head raw raw' : take 13 raw' = take 13 raw -> zero_slot raw' = zero_slot raw /\ entry_is_lfn raw' = entry_is_lfn raw /\ entry_is_usable raw' = entry_is_usable raw /\
  (forall st, lfn_take st raw' = lfn_take st raw) /\ entry_short_name raw' = entry_short_name raw /\ rd raw' 11 = rd raw 11.
Proof.
  intros H. assert (R : forall i, 0 <= i < 13 -> rd raw' i = rd raw i) by (intros i Hi; rewrite <-(rd_take 13 raw' i), <-(rd_take 13 raw i), H by lia; done).
  assert (T : forall n, (n <= 13)%nat -> take n raw' = take n raw) by (intros n Hn; rewrite <-(Nat.min_l n 13), <-!take_take, H by lia; done).
  unfold zero_slot, entry_is_usable, entry_is_free, entry_is_lfn. rewrite !R by lia. split_and!; try done.
  - intros st. unfold lfn_take, lfn_checksum. by rewrite T by lia.
  - unfold entry_short_name. rewrite !R, !T by lia.
    assert (take 3 (drop 8 raw') = take 3 (drop 8 raw)) as ->; [|done]. change 3%nat with (11 - 8)%nat. rewrite <-!skipn_firstn_comm. by rewrite T by lia.
Qed.

Lemma listing_touch raws E1 e E2 : clean lfn_start 0 raws -> listing raws = E1 ++ e :: E2 ->
  exists A B, raws = A ++ de_raw e :: B /\ zlen A = de_last e /\ forall raw', take 13 raw' = take 13 (de_raw e) ->
    listing (A ++ raw' :: B) = E1 ++ retouch e raw' :: E2 /\ clean lfn_start 0 (A ++ raw' :: B).
Proof.
  intros Hc H. destruct (parse_at _ _ _ _ _ _ H) as (A & raw & B & -> & HA & HP & Hz & Hu & -> & ->). rewrite !Z.add_0_l. exists A, B. cbn [de_raw de_of de_last].
  split; [done|]. split; [done|]. intros raw' Ht. destruct (same_head raw raw' Ht) as (Sz & Sl & Su & St & _). pose proof (usable_not_lfn raw Hu) as Hl. split.
  - unfold listing. rewrite parse_app by done. rewrite HP, Z.add_0_l. cbn [parse]. rewrite Sz, Hz, Su, Hu. unfold after1. rewrite Sl, Hl. cbn [app]. unfold de_of, retouch. cbn [de_long de_first de_last]. by rewrite St.
  - eapply clean_replace; [done|exact Hc|]. apply clean_app in Hc; [|done]. cbn [clean] in Hc |- *. rewrite Sz, Hz in *. unfold after1 in *. rewrite Sl, Hl in *. split; [|exact (proj2 Hc)].
    destruct Hc as [[Hc|[[(Hx & _) _]|[_ Hc]]] _]; [by left|congruence|]. right; right. by rewrite Su, St.
Qed.
