(* ===== verification/FatWalk.v ===== *)
(** FAT directories ([kernel/fs/fat/fat_directory.c]): the cursor visits the
    slots of a directory in order and always comes to an end, and lookup is a
    search in the listing of these slots. *)
From S2P Require Import Prelude KString KStringSpec Fat FatSpec FatFileSpec FatName FatNameSpec FatDir FatListing.

Section Dirs.
Context {W : Type} (v : fat_volume W) (Hv : vol_ok v) (rtc_read : W -> rtc_time * W).
Implicit Types (s : fat_state W) (d : fat_dir) (cs : list Z) (cur : dir_cursor).

Abbreviation epc := (entries_per_cluster v).
Abbreviation cb := (cluster_bytes v).
Abbreviation fixed := (dir_is_fixed_root v).

Lemma epc_eq : cb = 32 * epc /\ 16 <= epc < 2 ^ 27.
Proof.
  pose proof (cluster_bytes_range v Hv) as Hr. unfold entries_per_cluster.
  assert (H : cb = sectors_per_cluster v * (bytes_per_sector v / 32) * 32).
  { rewrite (cluster_bytes_eq v Hv). destruct (vo_bps v Hv) as [E|[E|[E|E]]]; rewrite E; [change (512 / 32) with 16|change (1024 / 32) with 32|change (2048 / 32) with 64|change (4096 / 32) with 128]; lia. }
  assert (E : cb / 32 = sectors_per_cluster v * (bytes_per_sector v / 32)) by (rewrite H; apply Z.div_mul; lia). lia.
Qed.

(** ** Every walk ends *)

(** The slots a cursor can still visit. *)
Definition cursor_left cur : Z :=
  if dc_ended cur then 0 else
  if fixed (dc_dir cur) then root_entries v - dc_slot cur
  else (cluster_limit v - dc_seen cur) * epc + (epc - dc_slot cur).

Definition cursor_ok cur : Prop :=
  dc_ended cur = true \/
  if fixed (dc_dir cur) then 0 <= dc_slot cur <= root_entries v
  else 0 <= dc_slot cur <= epc /\ 1 <= dc_seen cur <= cluster_limit v.

Lemma root_entries_range : 0 <= root_entries v < 2 ^ 32.
Proof.
  pose proof (vo_entries v Hv). pose proof (vo_root v Hv). pose proof (vo_data v Hv). pose proof (vo_size v Hv). pose proof (data_start_pos v Hv).
  pose proof (bps_range v Hv). pose proof (cluster_bounds v Hv 2) as C. unfold valid in C. pose proof (vo_limit v Hv). pose proof (cluster_bytes_range v Hv).
  assert (0 <= root_start_sector v * bytes_per_sector v) by (apply Z.mul_nonneg_nonneg; lia). lia.
Qed.

Lemma limit_range : 2 < cluster_limit v < 2 ^ 28.
Proof. pose proof (vo_limit v Hv) as H. unfold limit_max in H. destruct (vol_type v); lia. Qed.

Lemma cursor_next_left s cur cur' e : cursor_ok cur -> cursor_next v s cur = (cur', e) ->
  match e with None => True | Some _ => cursor_ok cur' /\ 0 <= cursor_left cur' < cursor_left cur end.
Proof.
  pose proof epc_eq as [_ Hepc]. pose proof root_entries_range as Hre. pose proof limit_range as Hlim.
  assert (T : forall cur0 base, dc_ended cur0 = false -> cursor_ok cur0 ->
    dc_slot cur0 < (if fixed (dc_dir cur0) then root_entries v else epc) -> cursor_take cur0 base = (cur', e) ->
    match e with None => True | Some _ => cursor_ok cur' /\ 0 <= cursor_left cur' /\ cursor_left cur' = cursor_left cur0 - 1 end).
  { intros cur0 base He Hok Hslot H. unfold cursor_take in H. injection H as <- <-. unfold cursor_ok, cursor_left in *. cbn [dc_ended dc_dir dc_slot dc_seen].
    rewrite He in *. destruct Hok as [?|Hok]; [done|]. destruct (fixed (dc_dir cur0)).
    - rewrite u32_small by lia. split; [right; lia|lia].
    - rewrite u32_small by lia. split; [right; lia|]. assert (0 <= (cluster_limit v - dc_seen cur0) * epc) by (apply Z.mul_nonneg_nonneg; lia). lia. }
  intros Hok. unfold cursor_next. destruct (dc_ended cur) eqn:He; [intros [= <- <-]; done|].
  destruct (fixed (dc_dir cur)) eqn:Ef.
  - destruct (Z.geb_spec (dc_slot cur) (root_entries v)) as [|Hlt]; [intros [= <- <-]; done|]. intros H.
    pose proof (T cur _ He Hok ltac:(rewrite Ef; lia) H) as T1. destruct e; [|done]. split; [apply T1|lia].
  - assert (Hin : dc_slot cur < epc -> (match cluster_data v (dc_cluster cur) with
        | Some data => cursor_take cur data | None => (cursor_end cur (dc_seen cur), None) end) = (cur', e) ->
        match e with None => True | Some _ => cursor_ok cur' /\ 0 <= cursor_left cur' < cursor_left cur end).
    { intros Hslot H. destruct (cluster_data v _); [|by injection H as <- <-]. pose proof (T cur _ He Hok ltac:(rewrite Ef; lia) H) as T1.
      destruct e; [|done]. split; [apply T1|lia]. }
    destruct (Z.geb_spec (dc_slot cur) epc) as [Hge|Hlt]; [|by apply Hin].
    destruct (next_cluster v s (dc_cluster cur)) as [status next]. destruct (negb (status =? 0)); [intros [= <- <-]; done|].
    unfold cursor_ok in Hok. rewrite He, Ef in Hok. destruct Hok as [?|Hok]; [done|]. rewrite u32_small by lia.
    destruct (Z.geb_spec (dc_seen cur + 1) (cluster_limit v)) as [|Hs]; [intros [= <- <-]; done|].
    clear Hin. destruct (cluster_data v _) as [data|]; [|intros [= <- <-]; done]. intros H.
    set (cur0 := DirCursor (dc_dir cur) next 0 (dc_index cur) (dc_seen cur + 1) false) in *.
    assert (Hok0 : cursor_ok cur0) by (right; unfold cur0; cbn [dc_dir dc_slot dc_seen]; rewrite Ef; lia).
    pose proof (T cur0 data eq_refl Hok0 ltac:(unfold cur0; cbn [dc_dir dc_slot]; rewrite Ef; lia) H) as T1. destruct e; [|done]. split; [apply T1|].
    assert (El : cursor_left cur0 = cursor_left cur - epc + (dc_slot cur)).
    { unfold cursor_left, cur0. cbn [dc_ended dc_dir dc_slot dc_seen]. rewrite He, Ef. lia. }
    assert (dc_slot cur <= epc) by lia. lia.
Qed.

Lemma cursor_loop_S {A R} s (body : A -> Z -> Z -> A + R) fin n cur a : cursor_loop v (S n) s body fin cur a =
  let '(cur', entry) := cursor_next v s cur in
  match entry with
  | None => Some (fin a (dc_index cur'))
  | Some e => match body a (dc_index cur') e with inl a' => cursor_loop v n s body fin cur' a' | inr r => Some r end
  end.
Proof. reflexivity. Qed.

Lemma cursor_loop_total {A R} s (body : A -> Z -> Z -> A + R) fin : forall fuel cur a, cursor_ok cur -> cursor_left cur < Z.of_nat fuel ->
  is_Some (cursor_loop v (S fuel) s body fin cur a).
Proof.
  induction fuel as [|fuel IH]; intros cur a Hok Hf; rewrite cursor_loop_S.
  all: destruct (cursor_next v s cur) as [cur' [e|]] eqn:E; [|by eexists].
  all: pose proof (cursor_next_left s cur cur' _ Hok E) as [Hok' Hl].
  - lia.
  - destruct (body a (dc_index cur') e) as [a'|r]; [|by eexists]. apply IH; [done|lia].
Qed.

Lemma skip_clusters_seen s skip : forall c seen c' seen', 1 <= seen < cluster_limit v ->
  skip_clusters v skip s c seen = Some (c', seen') -> 1 <= seen' < cluster_limit v.
Proof.
  pose proof limit_range. induction skip as [|skip IH]; intros c seen c' seen' Hs; cbn [skip_clusters]; [by intros [= <- <-]|].
  destruct (next_cluster v s c) as [status next]. destruct (negb _); [done|]. rewrite u32_small by lia.
  destruct (Z.geb_spec (seen + 1) (cluster_limit v)); [done|]. apply IH. lia.
Qed.

Lemma cursor_init_ok s d i cur : 0 <= i -> cursor_init v s d i = Some cur -> cursor_ok cur /\ 0 <= cursor_left cur /\ cursor_left cur + 1 < Z.of_nat (dir_fuel v).
Proof.
  intros Hi. pose proof epc_eq as [_ Hepc]. pose proof root_entries_range. pose proof limit_range. unfold cursor_init, cursor_ok, cursor_left.
  assert (Hf : root_entries v + 1 < Z.of_nat (dir_fuel v) /\ cluster_limit v * epc + 1 < Z.of_nat (dir_fuel v)).
  { unfold dir_fuel. assert (0 <= cluster_limit v * epc) by (apply Z.mul_nonneg_nonneg; lia). lia. }
  destruct (fixed d) eqn:Ef.
  - destruct (Z.leb_spec i (root_entries v)); [|done]. intros [= <-]. cbn. rewrite Ef. split; [right; lia|lia].
  - destruct (negb _); [done|]. destruct (skip_clusters _ _ _ _ _) as [[c seen]|] eqn:Es; [|done]. intros [= <-]. cbn. rewrite Ef.
    apply skip_clusters_seen in Es; [|lia]. pose proof (Z.mod_pos_bound i epc). split; [right; lia|].
    assert (0 <= (cluster_limit v - seen) * epc <= (cluster_limit v - 1) * epc) by (split; [apply Z.mul_nonneg_nonneg|apply Z.mul_le_mono_nonneg_r]; lia). lia.
Qed.

(** A walk from any start over any image, even over a chain of clusters that runs
    in a circle, ends before the fuel does. *)
Lemma walk_total {A R} s d i (body : A -> Z -> Z -> A + R) fin cur a : 0 <= i -> cursor_init v s d i = Some cur ->
  is_Some (cursor_loop v (dir_fuel v) s body fin cur a).
Proof.
  intros Hi H. destruct (cursor_init_ok s d i cur Hi H) as (Hok & Hl0 & Hl). destruct (dir_fuel v) as [|fuel] eqn:E; [lia|]. apply cursor_loop_total; [done|lia].
Qed.

(** ** The slots of a directory

    A directory has the clusters [cs], the fixed root directory none.  Slot [k] is
    its 32 bytes at index [k]. *)
Definition dir_at s d cs : Prop := if fixed d then cs = [] else chain v s (fd_first d) cs.
Definition slot_count d cs : Z := if fixed d then root_entries v else zlen cs * epc.
Definition slot_addr d cs (k : Z) : Z :=
  if fixed d then sector v (root_start_sector v) + 32 * k else data_at v (cs !!! Z.to_nat (k / epc)) + 32 * (k mod epc).
Definition slots s d cs : list (list Z) := (fun k => slot_bytes s (slot_addr d cs k)) <$> seqZ 0 (slot_count d cs).

Lemma slot_count_range s d cs : dir_at s d cs -> 0 <= slot_count d cs < 2 ^ 32 /\ slot_count d cs + 1 < Z.of_nat (dir_fuel v) /\ (fixed d = false -> 0 < slot_count d cs).
Proof.
  pose proof epc_eq as [Hcb Hepc]. pose proof root_entries_range. pose proof limit_range. unfold dir_at, slot_count, dir_fuel.
  assert (0 <= cluster_limit v * epc) by (apply Z.mul_nonneg_nonneg; lia). destruct (fixed d); [intros ->; split; [lia|split; [lia|done]]|].
  intros Hch. pose proof (chain_length v Hv _ _ _ Hch) as L. unfold zlen. apply chain_head in Hch as [_ [rest E]].
  assert (1 <= Z.of_nat (length cs)) by (rewrite E; cbn; lia).
  assert (Z.of_nat (length cs) * epc <= (cluster_limit v - 2) * epc) by (apply Z.mul_le_mono_nonneg_r; lia).
  pose proof (vo_data v Hv) as Hd. pose proof (vo_size v Hv). pose proof (data_start_pos v Hv). pose proof (bps_range v Hv).
  assert ((cluster_limit v - 2) * cb <= 2 ^ 36).
  { rewrite (cluster_bytes_eq v Hv). rewrite Z.mul_add_distr_r in Hd. assert (0 <= data_start_sector v * bytes_per_sector v) by (apply Z.mul_nonneg_nonneg; lia). lia. }
  split; [nia|]. split; [lia|]. intros _. nia.
Qed.

(** The cursor stands before slot [k]. *)
Definition cursor_at d cs (k : Z) cur : Prop :=
  dc_dir cur = d /\ dc_ended cur = false /\ dc_index cur = k /\
  if fixed d then dc_slot cur = k /\ 0 <= k <= root_entries v
  else exists q, cs !! q = Some (dc_cluster cur) /\ dc_seen cur = Z.of_nat q + 1 /\ 0 <= dc_slot cur <= epc /\ k = Z.of_nat q * epc + dc_slot cur.

Lemma cursor_take_at d cs k cur q : k < 2 ^ 32 - 1 -> fixed d = false -> dc_dir cur = d -> dc_ended cur = false -> dc_index cur = k ->
  cs !! q = Some (dc_cluster cur) -> valid v (dc_cluster cur) -> dc_seen cur = Z.of_nat q + 1 -> 0 <= dc_slot cur < epc -> k = Z.of_nat q * epc + dc_slot cur ->
  exists cur', (match cluster_data v (dc_cluster cur) with
                | Some data => cursor_take cur data | None => (cursor_end cur (dc_seen cur), None) end) = (cur', Some (slot_addr d cs k)) /\
               cursor_at d cs (k + 1) cur'.
Proof.
  intros Hk Hf Hd He Hi Hq Hval Hs Hslot Ek. pose proof epc_eq as [_ Hepc].
  rewrite (proj1 (data_at_eq v Hv _ Hval)). unfold cursor_take. eexists. split.
  - do 2 f_equal. unfold slot_addr. rewrite Hf. assert (k / epc = Z.of_nat q) as -> by (symmetry; apply (Z.div_unique _ _ _ (dc_slot cur)); lia).
    assert (k mod epc = dc_slot cur) as -> by (symmetry; apply (Z.mod_unique _ _ (Z.of_nat q)); lia).
    rewrite Nat2Z.id. by rewrite (list_lookup_total_correct _ _ _ Hq).
  - unfold cursor_at. cbn [dc_dir dc_ended dc_index dc_cluster dc_slot dc_seen]. split; [done|]. split; [done|]. assert (0 <= k) by nia.
    split; [rewrite Hi; apply u32_small; lia|]. rewrite Hf. exists q. rewrite u32_small by lia. split; [done|]. split; [done|]. lia.
Qed.

Lemma cursor_next_at s d cs k cur : dir_at s d cs -> cursor_at d cs k cur -> k < slot_count d cs ->
  exists cur', cursor_next v s cur = (cur', Some (slot_addr d cs k)) /\ cursor_at d cs (k + 1) cur'.
Proof.
  intros Hd (Ed & He & Hi & Hc) Hk. pose proof epc_eq as [_ Hepc]. destruct (slot_count_range s d cs Hd) as (Hcnt & Hfuel & _). pose proof limit_range as Hlim.
  unfold cursor_next. rewrite He, Ed. unfold slot_count in Hk, Hcnt. unfold dir_at in Hd. destruct (fixed d) eqn:Ef.
  - destruct Hc as [Hs Hr]. rewrite Hs. destruct (Z.geb_spec k (root_entries v)); [lia|]. unfold cursor_take. eexists. split.
    + rewrite Hs. unfold slot_addr. by rewrite Ef.
    + unfold cursor_at. cbn. rewrite Ef, Hi, !u32_small by lia. split_and!; done || lia.
  - destruct Hc as (q & Hq & Hs & Hslot & Ek). pose proof (chain_valid v s cs (fd_first d) Hd) as Hval. rewrite list_relations.list.Forall_forall in Hval.
    destruct (Z.geb_spec (dc_slot cur) epc) as [Hge|Hlt].
    + apply lookup_lt_Some in Hq as Hql. assert (Hsq : (S q < length cs)%nat) by (unfold zlen in Hk; nia).
      destruct (lookup_lt_is_Some_2 _ _ Hsq) as [n Hn]. rewrite (chain_next v Hv s (fd_first d) cs q _ n Hd Hq Hn). cbn [Z.eqb negb].
      pose proof (chain_length v Hv _ _ _ Hd) as L. rewrite u32_small by lia. destruct (Z.geb_spec (dc_seen cur + 1) (cluster_limit v)); [lia|].
      apply (cursor_take_at d cs k (DirCursor d n 0 (dc_index cur) (dc_seen cur + 1) false) (S q)); cbn; try done; try lia.
      apply Hval. by eapply list_elem_of_lookup_2.
    + apply (cursor_take_at d cs k cur q); try done; try lia. apply Hval. by eapply list_elem_of_lookup_2.
Qed.

Lemma cursor_next_end s d cs cur : dir_at s d cs -> cursor_at d cs (slot_count d cs) cur ->
  exists cur', cursor_next v s cur = (cur', None) /\ dc_index cur' = slot_count d cs.
Proof.
  intros Hd (Ed & He & Hi & Hc). pose proof epc_eq as [_ Hepc]. unfold cursor_next. rewrite He, Ed. unfold slot_count in *. unfold dir_at in Hd. destruct (fixed d) eqn:Ef.
  - destruct Hc as [Hs _]. rewrite Hs. destruct (Z.geb_spec (root_entries v) (root_entries v)); [|lia]. by eexists.
  - destruct Hc as (q & Hq & Hs & Hslot & Ek). apply lookup_lt_Some in Hq as Hql. assert (S q = length cs /\ dc_slot cur = epc) as [Hsq Hse] by (unfold zlen in Ek; nia).
    rewrite Hse. destruct (Z.geb_spec epc epc); [|lia]. rewrite (chain_end v s (fd_first d) cs q _ Hd Hq Hsq). cbn. by eexists.
Qed.

Lemma skip_clusters_at s d cs : chain v s (fd_first d) cs -> forall n q x, cs !! q = Some x -> (q + n < length cs)%nat ->
  exists y, cs !! (q + n)%nat = Some y /\ skip_clusters v n s x (Z.of_nat q + 1) = Some (y, Z.of_nat (q + n) + 1).
Proof.
  intros Hch. pose proof limit_range. pose proof (chain_length v Hv _ _ _ Hch) as L. induction n as [|n IH]; intros q x Hq Hn; cbn [skip_clusters].
  - exists x. rewrite Nat.add_0_r. done.
  - destruct (lookup_lt_is_Some_2 cs (S q) ltac:(lia)) as [y Hy]. rewrite (chain_next v Hv s _ cs q x y Hch Hq Hy). cbn [Z.eqb negb].
    rewrite u32_small by lia. destruct (Z.geb_spec (Z.of_nat q + 1 + 1) (cluster_limit v)); [lia|].
    destruct (IH (S q) y Hy ltac:(lia)) as (z & Hz & E). exists z. replace (q + S n)%nat with (S q + n)%nat by lia. split; [done|].
    rewrite <-E. f_equal. lia.
Qed.

(** Behind the last cluster there is nothing to skip to. *)
Lemma skip_end s d cs : chain v s (fd_first d) cs -> skip_clusters v (length cs) s (fd_first d) 1 = None.
Proof.
  intros Hch. pose proof limit_range. pose proof (chain_length v Hv _ _ _ Hch) as L. pose proof (chain_head v s _ _ Hch) as [_ [rest E]].
  assert (H0 : forall n q x, cs !! q = Some x -> (q + S n = length cs)%nat -> skip_clusters v (S n) s x (Z.of_nat q + 1) = None).
  { induction n as [|n IH]; intros q x Hq Hn; cbn [skip_clusters].
    - by rewrite (chain_end v s _ cs q x Hch Hq ltac:(lia)).
    - destruct (lookup_lt_is_Some_2 cs (S q) ltac:(lia)) as [y Hy]. rewrite (chain_next v Hv s _ cs q x y Hch Hq Hy). cbn [Z.eqb negb].
      rewrite u32_small by lia. destruct (Z.geb_spec (Z.of_nat q + 1 + 1) (cluster_limit v)); [done|].
      replace (Z.of_nat q + 1 + 1) with (Z.of_nat (S q) + 1) by lia. apply (IH (S q) y Hy). lia. }
  rewrite E at 1. cbn [length]. apply (H0 (length rest) 0%nat); rewrite E; [done|cbn; lia].
Qed.

Lemma cursor_init_at s d cs k : dir_at s d cs -> 0 <= k -> k < slot_count d cs \/ (fixed d = true /\ k = slot_count d cs) ->
  exists cur, cursor_init v s d k = Some cur /\ cursor_at d cs k cur.
Proof.
  intros Hd Hk0 Hk. pose proof epc_eq as [_ Hepc]. unfold cursor_init, cursor_at, dir_at, slot_count in *. destruct (fixed d) eqn:Ef.
  - destruct (Z.leb_spec k (root_entries v)); [|lia]. eexists. split; [done|]. cbn. split_and!; done || lia.
  - destruct Hk as [Hk|[? _]]; [|done]. pose proof (chain_head v s _ _ Hd) as [Hval [rest E]]. rewrite (proj2 (valid_true v _) Hval). cbn [negb].
    pose proof (Z.div_mod k epc ltac:(lia)) as Hdm. pose proof (Z.mod_pos_bound k epc ltac:(lia)) as Hm. pose proof (Z.div_pos k epc ltac:(lia) ltac:(lia)) as Hq.
    assert (Hl : (0 + Z.to_nat (k / epc) < length cs)%nat) by (unfold zlen in Hk; nia).
    destruct (skip_clusters_at s d cs Hd (Z.to_nat (k / epc)) 0 (fd_first d) ltac:(by rewrite E) Hl) as (y & Hy & E1). change (Z.of_nat 0 + 1) with 1 in E1. rewrite E1.
    eexists. split; [done|]. cbn [dc_dir dc_ended dc_index dc_cluster dc_seen dc_slot]. split_and!; try done.
    exists (Z.to_nat (k / epc)). split; [done|]. split; [done|]. split; [lia|]. rewrite Z2Nat.id by lia. lia.
Qed.

(** The body of a loop over entries, without the cursor. *)
Fixpoint scan_slots {A R} (body : A -> Z -> Z -> A + R) (fin : A -> Z -> R) (a : A) (k : Z) (es : list Z) : R :=
  match es with
  | [] => fin a k
  | e :: es => match body a (k + 1) e with inl a => scan_slots body fin a (k + 1) es | inr r => r end
  end.

Definition addrs d cs (k : Z) : list Z := slot_addr d cs <$> seqZ k (slot_count d cs - k).

Lemma addrs_cons d cs k : k < slot_count d cs -> addrs d cs k = slot_addr d cs k :: addrs d cs (k + 1).
Proof. intros H. unfold addrs. rewrite seqZ_cons by lia. cbn. do 3 f_equal. lia. Qed.

Lemma addrs_end d cs : addrs d cs (slot_count d cs) = [].
Proof. unfold addrs. by rewrite Z.sub_diag. Qed.

Lemma cursor_at_le s d cs k cur : dir_at s d cs -> cursor_at d cs k cur -> 0 <= k <= slot_count d cs.
Proof.
  pose proof epc_eq as [_ Hepc]. intros Hd (_ & _ & _ & H). unfold slot_count. destruct (fixed d); [lia|]. destruct H as (q & Hq & _ & Hs & ->).
  apply lookup_lt_Some in Hq. unfold zlen. nia.
Qed.

Lemma cursor_loop_scan {A R} s d cs (body : A -> Z -> Z -> A + R) fin : dir_at s d cs -> forall fuel k cur a, cursor_at d cs k cur ->
  slot_count d cs - k < Z.of_nat fuel -> cursor_loop v fuel s body fin cur a = Some (scan_slots body fin a k (addrs d cs k)).
Proof.
  intros Hd. induction fuel as [|fuel IH]; intros k cur a Hc Hf; pose proof (cursor_at_le s d cs k cur Hd Hc) as Hk; [lia|]. rewrite cursor_loop_S.
  destruct (decide (k = slot_count d cs)) as [->|Hne].
  - destruct (cursor_next_end s d cs cur Hd Hc) as (cur' & -> & Hi). rewrite addrs_end. cbn. by rewrite Hi.
  - destruct (cursor_next_at s d cs k cur Hd Hc ltac:(lia)) as (cur' & -> & Hc'). rewrite addrs_cons by lia. cbn [scan_slots].
    pose proof Hc' as (_ & _ & -> & _). destruct (body a (k + 1) (slot_addr d cs k)); [|done]. apply IH; [done|lia].
Qed.

(** A whole walk, from the start of the directory. *)
Lemma walk_scan {A R} s d cs (body : A -> Z -> Z -> A + R) fin a : dir_at s d cs ->
  exists cur, cursor_init v s d 0 = Some cur /\ cursor_loop v (dir_fuel v) s body fin cur a = Some (scan_slots body fin a 0 (addrs d cs 0)).
Proof.
  intros Hd. destruct (slot_count_range s d cs Hd) as (Hc & Hf & Hp).
  destruct (cursor_init_at s d cs 0 Hd ltac:(lia)) as (cur & E & Hat).
  { destruct (fixed d) eqn:Ef; [|left; auto]. destruct (decide (slot_count d cs = 0)); [right; done|left; lia]. }
  exists cur. split; [done|]. apply cursor_loop_scan; [done|done|lia].
Qed.

(** ** Lookup *)
Definition slots_from s d cs (k : Z) : list (list Z) := slot_bytes s <$> addrs d cs k.

Lemma slots_eq s d cs : slots s d cs = slots_from s d cs 0.
Proof. unfold slots, slots_from, addrs. by rewrite Z.sub_0_r, <-list_fmap_compose. Qed.

(** The entries of a directory. *)
Definition entries s d cs : list dent := listing (slots s d cs).

Definition found_at s d cs (e : dent) : found_entry :=
  let a := slot_addr d cs (de_last e) in
  FoundEntry (fat_impl_entry_get_cluster v s a) (fat_impl_entry_get_size s a) (rd (de_raw e) 11) (de_first e) (de_last e) a.

Lemma find_scan s d cs name : dir_at s d cs -> forall n k st, 0 <= k -> k + Z.of_nat n = slot_count d cs ->
  scan_slots (find_body v s name) (fun _ _ => None) st k (addrs d cs k) = found_at s d cs <$> List.find (answers name) (parse st k (slots_from s d cs k)).
Proof.
  intros Hd. destruct (slot_count_range s d cs Hd) as (Hc & _). induction n as [|n IH]; intros k st Hk Hn.
  - assert (k = slot_count d cs) as -> by lia. unfold slots_from. by rewrite addrs_end.
  - unfold slots_from. rewrite addrs_cons by lia. cbn [scan_slots fmap list_fmap parse]. unfold find_body at 1. fold (zero_slot (slot_bytes s (slot_addr d cs k))).
    set (raw := slot_bytes s (slot_addr d cs k)). fold (slots_from s d cs (k + 1)). rewrite Z.add_simpl_r, u32_small by lia.
    destruct (zero_slot raw) eqn:Ez; [done|]. unfold after1. destruct (entry_is_lfn raw) eqn:El.
    + assert (entry_is_usable raw = false) as -> by (unfold entry_is_usable; rewrite El; cbn; by rewrite andb_false_r). cbn [app]. apply IH; lia.
    + destruct (entry_is_usable raw) eqn:Eu; cbn [negb app List.find]; [|apply IH; lia].
      unfold answers at 1, de_of at 1 2. cbn [de_long de_raw]. destruct (_ || _) eqn:Ea; [|apply IH; lia]. cbn. unfold found_at, de_of. cbn. done.
Qed.

(** [fat_impl_find_entry] is the search for the first entry that answers to the name. *)
Lemma find_entry_ok s d cs name : dir_at s d cs ->
  fat_impl_find_entry v s d name = found_at s d cs <$> List.find (answers name) (entries s d cs).
Proof.
  intros Hd. destruct (walk_scan s d cs (find_body v s name) (fun _ _ => None) lfn_start Hd) as (cur & E1 & E2).
  destruct (slot_count_range s d cs Hd) as (Hc & _).
  unfold fat_impl_find_entry. rewrite E1, E2. cbn [default from_option]. unfold entries. rewrite slots_eq.
  apply (find_scan s d cs name Hd (Z.to_nat (slot_count d cs))); lia.
Qed.

End Dirs.

(** C34: every walk over a directory ends, on any contents of the image: from any start index,
    whatever the loop does with the entries it gets, and even when the chain
    of clusters of the directory runs in a circle. *)
Theorem fat_walk_terminates {W A R} (v : fat_volume W) s d i (body : A -> Z -> Z -> A + R) fin cur a :
  vol_ok v -> 0 <= i -> cursor_init v s d i = Some cur -> exists r, cursor_loop v (dir_fuel v) s body fin cur a = Some r.
Proof. intros Hv Hi H. by apply (walk_total v Hv s d i). Qed.

(** Cluster 2 followed by itself, and a walk that counts its entries. *)
Definition ex_circle : fat_state bmem := fat_set (ex_volume None) (FatState (ex_boot 24 0) ∅) 2 2.

Lemma fat_walk_terminates_witness :
  next_cluster (ex_volume None) ex_circle 2 = (0, 2) /\
  exists r, cursor_loop (ex_volume None) (dir_fuel (ex_volume None)) ex_circle (fun n _ _ => inl (n + 1)) (fun n _ => n) (DirCursor (FatDir 2 false) 2 0 0 1 false) 0 = Some r.
Proof.
  split; [vm_compute; reflexivity|].
  apply (fat_walk_terminates (ex_volume None) ex_circle (FatDir 2 false) 0); [apply ex_volume_ok|lia|vm_compute; reflexivity].
Defined.
