(* ===== verification/FatDirSpec.v ===== *)
(** FAT directories ([kernel/fs/fat/fat_directory.c], [fat.c]): creating an entry
    adds it to the listing of its directory, and removing takes it out. *)
From S2P Require Import Prelude KString KStringSpec Fat FatSpec FatFileSpec FatName FatNameSpec FatDir FatListing FatWalk.

Section Dirs.
Context {W : Type} (v : fat_volume W) (Hv : vol_ok v) (rtc_read : W -> rtc_time * W).
Implicit Types (s : fat_state W) (d : fat_dir) (cs : list Z).

Abbreviation epc := (entries_per_cluster v).
Abbreviation cb := (cluster_bytes v).
Abbreviation fixed := (dir_is_fixed_root v).
Abbreviation dir_at := (dir_at v).
Abbreviation slot_count := (slot_count v).
Abbreviation slot_addr := (slot_addr v).
Abbreviation slots := (slots v).

(** ** Where slots lie *)
Definition dir_area d cs (x : Z) : Prop := if fixed d then in_root v x else exists c, c ∈ cs /\ valid v c /\ in_cluster v c x.

Lemma slot_cluster s d cs k : dir_at s d cs -> fixed d = false -> 0 <= k < slot_count d cs ->
  exists c, cs !! Z.to_nat (k / epc) = Some c /\ valid v c /\ slot_addr d cs k = data_at v c + 32 * (k mod epc) /\ 0 <= k mod epc < epc /\ 0 <= k / epc.
Proof.
  pose proof (epc_eq v Hv) as [_ Hepc]. unfold FatWalk.dir_at, FatWalk.slot_count, FatWalk.slot_addr. intros Hd Hf Hk. rewrite Hf in *.
  pose proof (Z.div_mod k epc ltac:(lia)). pose proof (Z.mod_pos_bound k epc ltac:(lia)). pose proof (Z.div_pos k epc ltac:(lia) ltac:(lia)).
  destruct (lookup_lt_is_Some_2 cs (Z.to_nat (k / epc))) as [c Hc]; [unfold zlen in Hk; nia|].
  exists c. split; [done|]. pose proof (chain_valid v s cs _ Hd) as Hval. rewrite list_relations.list.Forall_forall in Hval.
  split; [apply Hval; by eapply list_elem_of_lookup_2|]. by rewrite (list_lookup_total_correct _ _ _ Hc).
Qed.

Lemma slot_in_area s d cs k x : dir_at s d cs -> 0 <= k < slot_count d cs -> in_entry (slot_addr d cs k) x -> dir_area d cs x.
Proof.
  intros Hd Hk Hx. unfold dir_area. destruct (fixed d) eqn:Ef.
  - unfold FatWalk.slot_count, FatWalk.slot_addr, in_entry, in_root, sector in *. rewrite Ef in *. pose proof (vo_root v Hv). lia.
  - destruct (slot_cluster s d cs k Hd Ef Hk) as (c & Hc & Hval & Ea & Hm & _). exists c. split; [by eapply list_elem_of_lookup_2|]. split; [done|].
    pose proof (epc_eq v Hv) as [Ecb _]. unfold in_entry, in_cluster in *. lia.
Qed.

Lemma area_apart d cs x : dir_area d cs x -> ~ in_table v x /\ 0 <= x < image_size v.
Proof.
  unfold dir_area. intros H. split.
  - destruct (fixed d); [unfold in_root, in_table in *; lia|]. destruct H as (c & _ & Hval & Hin). by apply (cluster_not_table v Hv c).
  - apply (regions_in_image v Hv). destruct (fixed d); [auto|]. destruct H as (c & _ & Hval & Hin). right. right. eauto.
Qed.

Lemma slot_disjoint s d cs k k' x : dir_at s d cs -> 0 <= k < slot_count d cs -> 0 <= k' < slot_count d cs ->
  in_entry (slot_addr d cs k) x -> in_entry (slot_addr d cs k') x -> k = k'.
Proof.
  intros Hd Hk Hk' Hx Hx'. destruct (fixed d) eqn:Ef.
  - unfold FatWalk.slot_addr, in_entry in *. rewrite Ef in *. lia.
  - destruct (slot_cluster s d cs k Hd Ef Hk) as (c & Hc & Hval & Ea & Hm & Hq). destruct (slot_cluster s d cs k' Hd Ef Hk') as (c' & Hc' & Hval' & Ea' & Hm' & Hq').
    pose proof (epc_eq v Hv) as [Ecb Hepc]. rewrite Ea in Hx. rewrite Ea' in Hx'. unfold in_entry in *.
    assert (c = c') as <- by (apply (cluster_disjoint v Hv c c' x); unfold in_cluster; (done || lia)).
    unfold FatWalk.dir_at in Hd. rewrite Ef in Hd. pose proof (NoDup_lookup _ _ _ _ (chain_nodup v Hv _ _ _ Hd) Hc Hc') as E.
    pose proof (Z.div_mod k epc ltac:(lia)). pose proof (Z.div_mod k' epc ltac:(lia)). assert (k / epc = k' / epc) as E2 by lia. rewrite E2 in *. lia.
Qed.

(** ** Changing one slot *)
Lemma dir_at_ext s s' d cs : (forall x, in_table v x -> ld8 (image s') x = ld8 (image s) x) -> dir_at s d cs -> dir_at s' d cs.
Proof.
  intros H. unfold FatWalk.dir_at. destruct (fixed d); [done|]. intros Hch. pose proof (chain_valid v s cs _ Hch) as Hval. rewrite list_relations.list.Forall_forall in Hval.
  apply (chain_ext v Hv s); [|done]. intros c Hc. by apply (fat_get_ext v Hv); [apply Hval|].
Qed.

Lemma slot_only_dir s s' d cs k : dir_at s d cs -> 0 <= k < slot_count d cs -> entry_only s s' (slot_addr d cs k) -> dir_at s' d cs.
Proof.
  intros Hd Hk H. apply (dir_at_ext s); [|done]. intros x Hx. apply H. intros Hin. apply (slot_in_area s d cs k x Hd Hk) in Hin. by destruct (area_apart d cs x Hin).
Qed.

Lemma slots_length s d cs : length (slots s d cs) = Z.to_nat (slot_count d cs).
Proof. unfold FatWalk.slots. by rewrite length_fmap, length_seqZ. Qed.

Lemma slots_lookup s d cs k : 0 <= k < slot_count d cs -> slots s d cs !! Z.to_nat k = Some (slot_bytes s (slot_addr d cs k)).
Proof. intros Hk. unfold FatWalk.slots. rewrite list_lookup_fmap, lookup_seqZ_lt by lia. cbn. do 3 f_equal. lia. Qed.

Lemma slots_ext s s' d cs : (forall k x, 0 <= k < slot_count d cs -> in_entry (slot_addr d cs k) x -> ld8 (image s') x = ld8 (image s) x) ->
  slots s' d cs = slots s d cs.
Proof.
  intros H. unfold FatWalk.slots. apply list_fmap_ext. intros i k Hk. apply lookup_seqZ in Hk as [-> Hk]. apply mem_bytes_ext. intros x Hx. apply (H (0 + Z.of_nat i)); [lia|done].
Qed.

Lemma slot_only_slots s s' d cs k : dir_at s d cs -> 0 <= k < slot_count d cs -> entry_only s s' (slot_addr d cs k) ->
  slots s' d cs = <[Z.to_nat k := slot_bytes s' (slot_addr d cs k)]> (slots s d cs).
Proof.
  intros Hd Hk H. apply list_eq_same_length with (n := Z.to_nat (slot_count d cs)); [by rewrite length_insert, slots_length|apply slots_length|].
  intros i x y Hi Hx Hy. rewrite <-(Nat2Z.id i) in Hx, Hy. rewrite slots_lookup in Hx by lia. injection Hx as <-.
  destruct (decide (Z.of_nat i = k)) as [<-|Hne].
  - rewrite list_lookup_insert_eq in Hy by (rewrite slots_length; lia). by injection Hy as <-.
  - rewrite list_lookup_insert_ne in Hy by lia. rewrite slots_lookup in Hy by lia. injection Hy as <-. apply mem_bytes_ext. intros z Hz.
    apply H. intros Hin. apply Hne. apply (slot_disjoint s d cs (Z.of_nat i) k z); done || lia.
Qed.

(** ** Storing consecutive slots *)
Lemma store_slot_bytes s e raw : length raw = 32%nat -> slot_bytes (store_slot s e raw) e = raw.
Proof.
  intros L. unfold slot_bytes, store_slot. cbn [image set_image]. apply list_eq_same_length with (n := 32%nat); [done|by rewrite mem_bytes_length|].
  intros i x y Hi Hx Hy. rewrite mem_bytes_lookup in Hx by lia. injection Hx as <-. rewrite ld_st_bytes, decide_True by lia.
  rewrite list_lookup_total_alt. replace (Z.to_nat (e + Z.of_nat i - e)) with i by lia. by rewrite Hy.
Qed.

Lemma store_slot_only s e raw : length raw = 32%nat -> entry_only s (store_slot s e raw) e.
Proof. intros L x Hx. unfold store_slot. cbn [image set_image]. apply only_st_bytes. rewrite L. unfold in_entry in Hx. lia. Qed.

(** Outside of the slots [k .. k+n) nothing has changed. *)
Definition slots_only d cs s s' (k n : Z) : Prop :=
  forall x, (forall i, k <= i < k + n -> ~ in_entry (slot_addr d cs i) x) -> ld8 (image s') x = ld8 (image s) x.

Lemma slots_only_trans d cs s1 s2 s3 k n k' n' m : slots_only d cs s1 s2 k n -> slots_only d cs s2 s3 k' n' ->
  k <= k' -> k' + n' <= k + m -> n <= m -> slots_only d cs s1 s3 k m.
Proof. intros H1 H2 H3 H4 H5 x Hx. rewrite H2, H1; [done|intros i Hi; apply Hx; lia..]. Qed.

Lemma slots_only_one d cs s s' k : entry_only s s' (slot_addr d cs k) -> slots_only d cs s s' k 1.
Proof. intros H x Hx. apply H, Hx. lia. Qed.

Lemma slots_only_dir d cs s s' k n : dir_at s d cs -> 0 <= k -> k + n <= slot_count d cs -> slots_only d cs s s' k n -> dir_at s' d cs.
Proof.
  intros Hd Hk Hn H. apply (dir_at_ext s); [|done]. intros x Hx. apply H. intros i Hi Hin. apply (slot_in_area s d cs i x Hd) in Hin; [|lia].
  by destruct (area_apart d cs x Hin).
Qed.

(** One slot replaced, in the middle of the list. *)
Lemma slots_replace s s' d cs A raw B : dir_at s d cs -> slots s d cs = A ++ raw :: B -> entry_only s s' (slot_addr d cs (zlen A)) ->
  slots s' d cs = A ++ slot_bytes s' (slot_addr d cs (zlen A)) :: B.
Proof.
  intros Hd E H. assert (Hk : 0 <= zlen A < slot_count d cs).
  { pose proof (slots_length s d cs) as L. rewrite E, length_app in L. cbn in L. unfold zlen. lia. }
  rewrite (slot_only_slots s s' d cs (zlen A) Hd Hk H), E. unfold zlen. rewrite Nat2Z.id. rewrite insert_app_r_alt by lia. by rewrite Nat.sub_diag.
Qed.

Lemma store_all_slots d cs N : Forall (fun raw : list Z => length raw = 32%nat) N -> forall s A F B k, dir_at s d cs -> slots s d cs = A ++ F ++ B ->
  length F = length N -> k = zlen A ->
  let s' := store_all s (slot_addr d cs <$> seqZ k (zlen N)) N in
  slots s' d cs = A ++ N ++ B /\ slots_only d cs s s' k (zlen N) /\ dir_at s' d cs.
Proof.
  induction 1 as [|raw N Hr HN IH]; intros s A F B k Hd E HF Hk; [destruct F; [|done]; cbn; split; [done|split; [by intros x _|done]]|].
  destruct F as [|f F]; [done|]. injection HF as HF. unfold zlen. cbn [length]. rewrite seqZ_cons by lia. cbn [fmap list_fmap store_all zip foldl].
  replace (Z.pred (Z.of_nat (S (length N)))) with (zlen N) by (unfold zlen; lia). unfold store_all. cbn [zip zip_with foldl]. set (s1 := store_slot s (slot_addr d cs k) raw).
  assert (H1 : entry_only s s1 (slot_addr d cs k)) by (by apply store_slot_only).
  assert (Hkr : 0 <= k < slot_count d cs).
  { pose proof (slots_length s d cs) as L. rewrite E, length_app in L. cbn in L. unfold zlen in Hk. lia. }
  assert (Hd1 : dir_at s1 d cs) by (by apply (slot_only_dir s s1 d cs k)).
  assert (E1 : slots s1 d cs = (A ++ [raw]) ++ F ++ B).
  { rewrite Hk in H1. rewrite (slots_replace s s1 d cs A f (F ++ B) Hd E H1). rewrite <-app_assoc, <-Hk. unfold s1. by rewrite store_slot_bytes. }
  assert (Hk1 : Z.succ k = zlen (A ++ [raw])) by (rewrite Hk; unfold zlen; rewrite length_app; cbn; lia).
  destruct (IH s1 (A ++ [raw]) F B (Z.succ k) Hd1 E1 HF Hk1) as (E2 & O2 & D2). fold (store_all s1 (slot_addr d cs <$> seqZ (Z.succ k) (zlen N)) N).
  split; [rewrite E2, <-app_assoc; done|]. split; [|done]. eapply slots_only_trans; [by apply slots_only_one|exact O2|..]; unfold zlen; lia.
Qed.

(** ** Finding free slots *)
Definition free_at s d cs (k : Z) : Prop := entry_is_free (slot_bytes s (slot_addr d cs k)) = true.

(** The run of free slots that ends before slot [k] begins at slot [b]. *)
Definition run_at s d cs (b k : Z) : Prop :=
  0 <= b <= k /\ (forall i, b <= i < k -> free_at s d cs i) /\ (b = 0 \/ ~ free_at s d cs (b - 1)).

Lemma free_run_spec s d cs count : 1 <= count -> forall n k start out, 0 <= k ->
  (exists b, run_at s d cs b k /\ k - b < count /\ out = slot_addr d cs <$> seqZ b (k - b) /\ (out <> [] -> start = b)) ->
  match free_run s count ((fun i => (i, slot_addr d cs i)) <$> seqZ k (Z.of_nat n)) start out with
  | inr (start', out') => out' = slot_addr d cs <$> seqZ start' count /\ run_at s d cs start' (start' + count) /\ start' + count <= k + Z.of_nat n
  | inl (start', out') => exists b, run_at s d cs b (k + Z.of_nat n) /\ k + Z.of_nat n - b < count /\
      out' = slot_addr d cs <$> seqZ b (k + Z.of_nat n - b) /\ (out' <> [] -> start' = b)
  end.
Proof.
  intros Hcount. induction n as [|n IH]; intros k start out Hk (b & Hrun & Hlt & Eo & Hs).
  - cbn [seqZ seq fmap list_fmap free_run Z.of_nat]. change (free_run s count _ start out) with (@inl (Z * list Z) (Z * list Z) (start, out)). cbn iota beta. rewrite Z.add_0_r. by exists b.
  - replace (Z.of_nat (S n)) with (Z.succ (Z.of_nat n)) by lia. rewrite seqZ_cons by lia. rewrite Z.pred_succ. cbn [fmap list_fmap free_run].
    pose proof Hrun as (Hb & Hfree & Hbefore). specialize (IH (Z.succ k)). replace (k + Z.succ (Z.of_nat n)) with (Z.succ k + Z.of_nat n) by lia.
    assert (Lo : zlen out = k - b) by (rewrite Eo; unfold zlen; rewrite length_fmap, length_seqZ; lia).
    destruct (entry_is_free _) eqn:Ef.
    + assert (Eb : (if zlen out =? 0 then k else start) = b).
      { destruct (Z.eqb_spec (zlen out) 0) as [E0|E0]; [lia|]. apply Hs. intros ->. done. }
      rewrite Eb. assert (Eo' : out ++ [slot_addr d cs k] = slot_addr d cs <$> seqZ b (k + 1 - b)).
      { rewrite Eo. replace (k + 1 - b) with ((k - b) + 1) by lia. rewrite seqZ_app by lia. rewrite fmap_app. do 2 f_equal. cbn. by replace (b + (k - b)) with k by lia. }
      assert (Hrun' : run_at s d cs b (k + 1)).
      { split; [lia|]. split; [|done]. intros i Hi. destruct (decide (i = k)) as [->|]; [exact Ef|]. apply Hfree. lia. }
      rewrite Eo'. assert (Ll : zlen (slot_addr d cs <$> seqZ b (k + 1 - b)) = k + 1 - b) by (unfold zlen; rewrite length_fmap, length_seqZ; lia).
      rewrite Ll. destruct (Z.eqb_spec (k + 1 - b) count) as [E|Hne].
      * rewrite E. replace (b + count) with (k + 1) by lia. split; [done|]. split; [done|lia].
      * apply IH; [lia|]. exists b. replace (Z.succ k) with (k + 1) by lia. split; [done|]. split; [lia|]. done.
    + apply IH; [lia|]. exists (Z.succ k). split.
      * split; [lia|]. split; [lia|]. right. replace (Z.succ k - 1) with k by lia. unfold free_at. by rewrite Ef.
      * split; [lia|]. by rewrite Z.sub_diag.
Qed.

Lemma entries_from_slots s d cs q n base : dir_at s d cs -> 0 <= q -> q + n <= slot_count d cs -> (forall i, 0 <= i < n -> base + 32 * i = slot_addr d cs (q + i)) ->
  entries_from (u32 q) base n = (fun i => (i, slot_addr d cs i)) <$> seqZ q n.
Proof.
  intros Hd Hq Hn H. destruct (slot_count_range v Hv s d cs Hd) as (Hc & _). destruct (Z.le_gt_cases n 0) as [Hn0|Hn0].
  { unfold entries_from. destruct (decide (n = 0)) as [->|]; [done|]. by rewrite !seqZ_nil by lia. }
  unfold entries_from. rewrite (u32_small q) by lia. apply list_eq_same_length with (n := Z.to_nat n); [by rewrite length_fmap, length_seqZ|by rewrite length_fmap, length_seqZ|].
  intros i x y Hi Hx Hy. rewrite list_lookup_fmap, lookup_seqZ_lt in Hx, Hy by lia. injection Hx as <-. injection Hy as <-.
  rewrite u32_small by lia. rewrite Z.add_0_l, H by lia. done.
Qed.

(** ** Growing the directory *)
Lemma slot_addr_app s d cs new k : dir_at s d cs -> 0 <= k < slot_count d cs -> slot_addr d (cs ++ new) k = slot_addr d cs k.
Proof.
  intros Hd Hk. destruct (fixed d) eqn:Ef; [unfold FatWalk.slot_addr; by rewrite Ef|].
  destruct (slot_cluster s d cs k Hd Ef Hk) as (c & Hc & _). unfold FatWalk.slot_addr. rewrite Ef. do 2 f_equal.
  rewrite !list_lookup_total_alt. by rewrite lookup_app_l by (by eapply lookup_lt_Some).
Qed.

(** A slot of a chain is a part of the bytes of the chain. *)
Lemma slot_raw s d cs k : dir_at s d cs -> fixed d = false -> 0 <= k < slot_count d cs -> slot_bytes s (slot_addr d cs k) = bytes_at (raw v s cs) (32 * k) 32.
Proof.
  intros Hd Hf Hk. pose proof (epc_eq v Hv) as [Ecb Hepc]. destruct (slot_cluster s d cs k Hd Hf Hk) as (c & Hc & Hval & Ea & Hm & Hq).
  assert (E1 : 32 * k / cb = k / epc) by (rewrite Ecb; apply Z.div_mul_cancel_l; lia).
  assert (E2 : 32 * k mod cb = 32 * (k mod epc)) by (rewrite Ecb; apply Zmult_mod_distr_l).
  rewrite Ea, <-E2. unfold slot_bytes. apply (raw_slice v Hv); [lia|lia|by rewrite E1|lia].
Qed.

Definition zero_slots (n : nat) : list (list Z) := replicate n (replicate 32 0).

Lemma zero_slots_zero n : Forall (fun r => zero_slot r = true) (zero_slots n).
Proof. unfold zero_slots. induction n as [|n IH]; by constructor. Qed.

Lemma written_slots P s s' d cs new p : fixed d = false -> dir_at s d cs -> written v P s s' (fd_first d) cs new p [] ->
  dir_at s' d (cs ++ new) /\ slots s' d (cs ++ new) = slots s d cs ++ zero_slots (length new * Z.to_nat epc).
Proof.
  intros Hf Hd (Hch & Hraw & _ & _). rewrite copy_to_nil in Hraw. pose proof (epc_eq v Hv) as [Ecb Hepc].
  assert (Hd' : dir_at s' d (cs ++ new)) by (unfold FatWalk.dir_at; by rewrite Hf). split; [done|].
  assert (Hcnt : slot_count d (cs ++ new) = slot_count d cs + zlen new * epc).
  { unfold FatWalk.slot_count. rewrite Hf. unfold zlen. rewrite length_app. lia. }
  destruct (slot_count_range v Hv s d cs Hd) as (Hc & _).
  assert (Hlen : length (slots s d cs ++ zero_slots (length new * Z.to_nat epc)) = Z.to_nat (slot_count d (cs ++ new))).
  { rewrite length_app, slots_length. unfold zero_slots. rewrite length_replicate, Hcnt. unfold zlen. lia. }
  apply list_eq_same_length with (n := Z.to_nat (slot_count d (cs ++ new))); [done|apply slots_length|].
  intros i x y Hi Hx Hy. rewrite <-(Nat2Z.id i), slots_lookup in Hx by lia. injection Hx as <-.
  rewrite (slot_raw s' d (cs ++ new)), Hraw by (done || lia).
  pose proof (raw_length v Hv s cs) as Lr. unfold FatWalk.slot_count in *. rewrite Hf in *. unfold zlen in *.
  destruct (decide (Z.of_nat i < Z.of_nat (length cs) * epc)) as [Hlt|Hge].
  - rewrite lookup_app_l in Hy by (rewrite slots_length; unfold FatWalk.slot_count; rewrite Hf; unfold zlen; lia).
    rewrite <-(Nat2Z.id i), slots_lookup in Hy by (unfold FatWalk.slot_count; rewrite Hf; unfold zlen; lia). injection Hy as <-.
    rewrite (slot_raw s d cs) by (done || (unfold FatWalk.slot_count; rewrite Hf; unfold zlen; lia)). unfold bytes_at.
    rewrite drop_app_le by lia. rewrite take_app_le by (rewrite length_drop; lia). done.
  - rewrite lookup_app_r in Hy by (rewrite slots_length; unfold FatWalk.slot_count; rewrite Hf; unfold zlen; lia).
    unfold zero_slots in Hy. apply lookup_replicate in Hy as [-> Hy]. unfold bytes_at. rewrite drop_app_ge by lia. rewrite drop_replicate, take_replicate. f_equal.
    rewrite slots_length in Hy. lia.
Qed.

Definition run_state s d cs (count k start : Z) (out : list Z) : Prop :=
  exists b, run_at s d cs b k /\ k - b < count /\ out = slot_addr d cs <$> seqZ b (k - b) /\ (out <> [] -> start = b).

Lemma run_state_start s d cs count : 1 <= count -> run_state s d cs count 0 0 [].
Proof. intros H. exists 0. split; [split; [lia|split; [lia|by left]]|]. split; [lia|done]. Qed.

Lemma run_state_grow s s' d cs new Z0 count k start out : dir_at s d cs -> dir_at s' d (cs ++ new) -> slots s' d (cs ++ new) = slots s d cs ++ Z0 ->
  k <= slot_count d cs -> run_state s d cs count k start out -> run_state s' d (cs ++ new) count k start out.
Proof.
  intros Hd Hd' E Hk (b & (Hb & Hfree & Hbefore) & Hlt & Eo & Hs).
  assert (Hc : slot_count d cs <= slot_count d (cs ++ new)).
  { pose proof (slots_length s' d (cs ++ new)) as L. rewrite E, length_app, slots_length in L. destruct (slot_count_range v Hv s' d (cs ++ new) Hd') as (? & _). lia. }
  assert (S : forall i, 0 <= i < slot_count d cs -> slot_bytes s' (slot_addr d (cs ++ new) i) = slot_bytes s (slot_addr d cs i)).
  { intros i Hi. apply (inj Some). rewrite <-!slots_lookup by lia. rewrite E. rewrite lookup_app_l by (rewrite slots_length; lia). done. }
  exists b. split; [split; [done|split]|].
  - intros i Hi. unfold free_at. rewrite S by lia. by apply Hfree.
  - destruct Hbefore as [|Hn]; [by left|]. destruct (decide (b = 0)); [by left|]. right. unfold free_at. by rewrite S by lia.
  - split; [done|]. split; [|done]. rewrite Eo. apply list_fmap_ext. intros j i Hi. apply lookup_seqZ in Hi as [-> Hi]. symmetry. apply (slot_addr_app s); [done|lia].
Qed.

(** Slots found for a new entry, behind a used slot or at the start. *)
Definition slots_found s d cs (count : Z) (r : option (Z * list Z)) : Prop :=
  match r with
  | None => True
  | Some (st, o) => o = slot_addr d cs <$> seqZ st count /\ run_at s d cs st (st + count) /\ st + count <= slot_count d cs
  end.

Lemma alloc_loop_spec d count : fixed d = false -> 1 <= count -> forall fuel s cs q c start out, dir_at s d cs -> cs !! q = Some c ->
  cluster_limit v - Z.of_nat q <= Z.of_nat fuel -> run_state s d cs count (Z.of_nat q * epc) start out ->
  exists s' new r, alloc_slots_loop v fuel s count c (Z.of_nat q) start out = (s', r) /\ written v (fun _ => False) s s' (fd_first d) cs new 0 [] /\
    slots_found s' d (cs ++ new) count r /\ (r = None -> no_free v s').
Proof.
  intros Hf Hcount. pose proof (epc_eq v Hv) as [Ecb Hepc]. pose proof (limit_range v Hv) as Hlim.
  induction fuel as [|fuel IH]; intros s cs q c start out Hd Hq Hfuel Hrun; pose proof Hd as Hch; unfold FatWalk.dir_at in Hch; rewrite Hf in Hch;
    pose proof (chain_length v Hv _ _ _ Hch) as L; apply lookup_lt_Some in Hq as Hql; [lia|].
  assert (Hval : valid v c).
  { pose proof (chain_valid v s cs _ Hch) as HF. rewrite list_relations.list.Forall_forall in HF. apply HF. by eapply list_elem_of_lookup_2. }
  assert (Hcnt : Z.of_nat q * epc + epc <= slot_count d cs) by (unfold FatWalk.slot_count; rewrite Hf; unfold zlen; nia).
  destruct (slot_count_range v Hv s d cs Hd) as (Hc & _).
  cbn [alloc_slots_loop]. rewrite (proj1 (data_at_eq v Hv c Hval)). rewrite (entries_from_slots s d cs (Z.of_nat q * epc) epc (data_at v c) Hd); [|lia|lia|].
  2:{ intros i Hi. unfold FatWalk.slot_addr. rewrite Hf. rewrite (Z.add_comm (Z.of_nat q * epc)), Z.div_add, Z.mod_add, Z.div_small, Z.mod_small by lia.
      rewrite Z.add_0_l, Nat2Z.id. by rewrite (list_lookup_total_correct _ _ _ Hq). }
  assert (Wr : written v (fun _ => False) s s (fd_first d) cs [] 0 []) by (by apply written_refl).
  pose proof (free_run_spec s d cs count Hcount (Z.to_nat epc) (Z.of_nat q * epc) start out ltac:(lia) Hrun) as Hfr. rewrite Z2Nat.id in Hfr by lia.
  destruct (free_run _ _ _ _ _) as [[start1 out1]|[st o]].
  2:{ exists s, [], (Some (st, o)). rewrite app_nil_r. destruct Hfr as (-> & Hr & Hle). split; [done|]. split; [done|]. split; [|done]. split; [done|]. split; [done|lia]. }
  rewrite u32_small by lia. destruct (Z.geb_spec (Z.of_nat q + 1) (cluster_limit v)); [lia|].
  replace (Z.of_nat q * epc + epc) with (Z.of_nat (S q) * epc) in * by lia. replace (Z.of_nat q + 1) with (Z.of_nat (S q)) by lia.
  destruct (decide (S q = length cs)) as [Hend|Hmid].
  - destruct (advance_alloc v Hv (fun _ => False) s (fd_first d) cs q c Hch Hq Hend) as [[-> Hno]|(s1 & n & -> & Hw)].
    + exists s, [], None. rewrite app_nil_r. done.
    + destruct (written_slots _ _ _ _ _ _ _ Hf Hd (Hw 0)) as [Hd1 Es1].
      destruct (IH s1 (cs ++ [n]) (S q) n start1 out1 Hd1) as (s' & new & r & E & Hw2 & Hr & Hn); [by rewrite lookup_app_r, Hend, Nat.sub_diag by lia|lia| |].
      { eapply run_state_grow; [exact Hd|exact Hd1|exact Es1|lia|exact Hfr]. }
      exists s', ([n] ++ new), r. rewrite app_assoc. split; [done|]. split; [|done].
      apply (written_trans v Hv _ s s1 s' _ cs [n] new 0 [] []); [lia| |apply Hw|exact Hw2]. change (zlen (@nil Z)) with 0. unfold zlen. nia.
  - destruct (lookup_lt_is_Some_2 cs (S q) ltac:(lia)) as [y Hy]. rewrite (advance_next v Hv s (fd_first d) cs q c y Hch Hq Hy).
    apply IH; [done|done|lia|exact Hfr].
Qed.

Lemma alloc_slots_spec s d cs count : dir_at s d cs -> 1 <= count ->
  exists s' new r, alloc_dir_slots v s d count = (s', r) /\ dir_at s' d (cs ++ new) /\ others v (fun _ => False) (cs ++ new) s s' /\
    (exists n, slots s' d (cs ++ new) = slots s d cs ++ zero_slots n) /\ Forall (fun c => valid v c /\ fat_get v s c = 0) new /\
    slots_found s' d (cs ++ new) count r /\ (r = None -> if fixed d then new = [] else no_free v s').
Proof.
  intros Hd Hcount. unfold alloc_dir_slots. destruct (fixed d) eqn:Ef.
  - exists s, []. rewrite app_nil_r. pose proof (root_entries_range v Hv). pose proof Hd as Hcs. unfold FatWalk.dir_at in Hcs. rewrite Ef in Hcs. subst cs.
    change 0 with (u32 0) at 1. rewrite (entries_from_slots s d [] 0 (root_entries v) (sector v (root_start_sector v)) Hd ltac:(lia));
      [|unfold FatWalk.slot_count; rewrite Ef; lia|intros; unfold FatWalk.slot_addr; rewrite Ef; lia].
    pose proof (free_run_spec s d [] count Hcount (Z.to_nat (root_entries v)) 0 0 [] ltac:(lia)) as Hfr. rewrite Z2Nat.id in Hfr by lia.
    assert (R3 : exists n, slots s d [] = slots s d [] ++ zero_slots n) by (exists 0%nat; by rewrite app_nil_r).
    specialize (Hfr (run_state_start s d [] count Hcount)). destruct (free_run _ _ _ _ _) as [[start1 out1]|[st o]].
    + exists None. split_and!; done.
    + exists (Some (st, o)). do 4 (split; [done|]). split; [constructor|]. split; [|done]. destruct Hfr as (Ho & Hr & Hle). split; [done|]. split; [done|].
      unfold FatWalk.slot_count. rewrite Ef. lia.
  - pose proof Hd as Hch. unfold FatWalk.dir_at in Hch. rewrite Ef in Hch. destruct (chain_head v s _ _ Hch) as [Hval [rest E]]. rewrite (proj2 (valid_true v _) Hval). cbn [negb].
    destruct (alloc_loop_spec d count Ef Hcount (Z.to_nat (cluster_limit v)) s cs 0 (fd_first d) 0 [] Hd) as (s' & new & r & Ea & Hw & Hr & Hn); [by rewrite E|lia|by apply run_state_start|].
    change (Z.of_nat 0) with 0 in Ea. exists s', new, r. destruct (written_slots _ _ _ _ _ _ _ Ef Hd Hw) as [Hd' Es]. split; [done|]. split; [done|].
    destruct Hw as (_ & _ & HF & Ho). split; [done|]. split; [by eexists|]. split; [done|]. done.
Qed.

(** ** The bytes of a new entry *)
Lemma alias_part_ok name : forall n, (length (alias_part name n) <= n)%nat /\ Forall (fun c => 33 <= c <= 126 /\ c <> 46) (alias_part name n).
Proof.
  induction name as [|c name IH]; intros [|n]; cbn [alias_part]; try (split; [cbn; lia|constructor]).
  destruct (_ || _); [apply IH|]. destruct (IH n) as [L F]. split; [cbn; lia|]. constructor; [|done].
  destruct (valid_short_char c) eqn:E; [by apply upper_no_space|lia].
Qed.

Lemma suffix_digits_length fuel : forall n, (length (suffix_digits fuel n) <= fuel)%nat.
Proof. induction fuel as [|fuel IH]; intros n; cbn; [lia|]. destruct (n =? 0); cbn; [lia|]. specialize (IH (n / 10)). lia. Qed.

(** Below a million there are at most six digits. *)
Lemma suffix_digits_six n : 0 <= n < 10 ^ 6 -> (length (suffix_digits 7 n) <= 6)%nat.
Proof.
  intros Hn. assert (H : forall fuel m, 0 <= m < 10 ^ Z.of_nat fuel -> suffix_digits (S fuel) m = suffix_digits fuel m).
  { induction fuel as [|fuel IH]; intros m Hm; [assert (m = 0) as -> by lia; done|]. cbn [suffix_digits]. destruct (Z.eqb_spec m 0); [done|]. f_equal.
    apply IH. split; [apply Z.div_pos; lia|]. apply Z.div_lt_upper_bound; [lia|]. replace (Z.of_nat (S fuel)) with (Z.succ (Z.of_nat fuel)) in Hm by lia. rewrite Z.pow_succ_r in Hm by lia. lia. }
  rewrite (H 6%nat) by (cbn; lia). apply suffix_digits_length.
Qed.

Lemma pad_length n l : (length l <= n)%nat -> length (pad n l) = n.
Proof. intros H. unfold pad. rewrite length_app, length_replicate. lia. Qed.

Lemma alias_name_ok base ext n : base <> [] -> Forall (fun c => 33 <= c <= 126 /\ c <> 46) base -> (length ext <= 3)%nat -> 0 <= n < 10 ^ 6 ->
  length (alias_name base ext n) = 11%nat /\ (33 <= rd (alias_name base ext n) 0 <= 126 /\ rd (alias_name base ext n) 0 <> 46).
Proof.
  intros Hb HF He Hn. pose proof (suffix_digits_six n Hn) as Hs. unfold alias_name. set (suffix := suffix_digits 7 n) in *.
  set (stem := if _ >? _ then _ else _). assert (Hst : 1 <= stem <= 7 - zlen suffix /\ stem <= zlen base).
  { unfold stem. unfold zlen in *. destruct base as [|b base]; [done|]. cbn [length]. destruct (Z.gtb_spec (8 - (Z.of_nat (length suffix) + 1)) (Z.of_nat (S (length base)))); lia. }
  split.
  - unfold zlen in *. rewrite length_app, !pad_length; [done|lia|]. rewrite length_app, length_take. cbn [length]. rewrite length_rev. lia.
  - destruct base as [|b base]; [done|]. replace (Z.to_nat stem) with (S (Z.to_nat (stem - 1))) by lia. cbn. by apply list_relations.list.Forall_cons in HF as [HF _].
Qed.

Lemma alias_loop_ok s d base ext : forall fuel n r, alias_loop v fuel s d base ext n = Some r ->
  exists m, n <= m < n + Z.of_nat fuel /\ r = alias_name base ext m /\ short_name_taken v s d r = false.
Proof.
  induction fuel as [|fuel IH]; intros n r; cbn [alias_loop]; [done|]. destruct (negb _) eqn:E.
  - intros [= <-]. exists n. split; [lia|]. split; [done|]. by apply negb_true_iff.
  - intros H. destruct (IH _ _ H) as (m & Hm & ? & ?). exists m. split; [lia|done].
Qed.

Lemma exact_name_ok name sn nt : short_name_exact name = Some (sn, nt) -> length sn = 11%nat /\ (33 <= rd sn 0 <= 126 /\ rd sn 0 <> 46).
Proof.
  unfold short_name_exact. intros H. none_if H E1. pose proof (split_extension_spec name) as Hs. destruct (split_extension name) as [[bl ea] el].
  none_if H E2. repeat (apply orb_false_iff in E2 as [E2 ?]). repeat (apply orb_false_iff in E1 as [E1 ?]).
  set (base := bytes_at name 0 bl) in *. set (ext := bytes_at name ea el) in *. none_if H E3. apply orb_false_iff in E3 as [Vb _]. apply negb_false_iff in Vb. none_if H E4.
  pose proof (upper_ok _ Vb) as Ub. assert (Hb : length base = Z.to_nat bl /\ (length ext <= 3)%nat /\ 1 <= bl <= 8).
  { unfold base, ext, bytes_at, zlen in *. rewrite !length_take, !length_drop. lia. }
  assert (Hhd : 33 <= rd (pad 8 (to_upper <$> base) ++ pad 3 (to_upper <$> ext)) 0 <= 126 /\ rd (pad 8 (to_upper <$> base) ++ pad 3 (to_upper <$> ext)) 0 <> 46).
  { destruct base as [|c rest]; [cbn in Hb; lia|]. by apply list_relations.list.Forall_cons in Ub as [Hc _]. }
  destruct (Z.eqb_spec (rd (pad 8 (to_upper <$> base) ++ pad 3 (to_upper <$> ext)) 0) 0xE5); [lia|]. injection H as <- _. split; [|done].
  rewrite length_app, !pad_length; rewrite ?length_fmap; lia.
Qed.

Lemma choose_short_ok s d name sn nt n : choose_short_name v s d name = Some (sn, nt, n) ->
  length sn = 11%nat /\ (33 <= rd sn 0 <= 126 /\ rd sn 0 <> 46) /\
  ((short_name_exact name = Some (sn, nt) /\ n = 0) \/
   (short_name_exact name = None /\ nt = 0 /\ n = (zlen name + 12) / 13 /\ short_name_taken v s d sn = false)).
Proof.
  unfold choose_short_name. destruct (short_name_exact name) as [[sn' nt']|] eqn:Ee.
  - intros [= <- <- <-]. destruct (exact_name_ok _ _ _ Ee). auto.
  - unfold short_name_alias. destruct (split_extension name) as [[bl ea] el]. destruct (alias_loop _ _ _ _ _ _ _) as [r|] eqn:Ea; [|done]. intros [= <- <- <-].
    destruct (alias_loop_ok _ _ _ _ _ _ _ Ea) as (m & Hm & -> & Ht). rewrite Z2Nat.id in Hm by lia.
    destruct (alias_part_ok (bytes_at name 0 bl) 8) as [_ F1]. destruct (alias_part_ok (bytes_at name ea el) 3) as [L2 _].
    destruct (alias_name_ok (match alias_part (bytes_at name 0 bl) 8 with [] => [95] | _ => alias_part (bytes_at name 0 bl) 8 end)
      (alias_part (bytes_at name ea el) 3) m) as [H1 H2]; [by destruct (alias_part _ 8)|destruct (alias_part _ 8); [by repeat constructor|done]|done|lia|].
    split; [done|]. split; [done|]. right. done.
Qed.

Lemma fresh_entry_ok sn attr nt : length sn = 11%nat ->
  length (fresh_entry sn attr nt) = 32%nat /\ take 11 (fresh_entry sn attr nt) = sn /\ rd (fresh_entry sn attr nt) 11 = attr /\ rd (fresh_entry sn attr nt) 12 = nt.
Proof. intros L. do 11 (destruct sn as [|? sn]; [done|]). destruct sn; [|done]. done. Qed.

Lemma lfn_slot_length name len seq last ck : length (write_lfn_slot name len seq last ck) = 32%nat.
Proof. reflexivity. Qed.

Lemma slot_bytes_rd s e i : 0 <= i < 32 -> rd (slot_bytes s e) i = ld8 (image s) (e + i).
Proof. intros Hi. unfold rd, slot_bytes. rewrite mem_bytes_lookup by lia. cbn. f_equal. lia. Qed.

(** The metadata calls keep the name, the attributes and the case flags. *)
Lemma meta_keeps s s' e : meta_only s s' e ->
  take 11 (slot_bytes s' e) = take 11 (slot_bytes s e) /\ rd (slot_bytes s' e) 11 = rd (slot_bytes s e) 11 /\ rd (slot_bytes s' e) 12 = rd (slot_bytes s e) 12.
Proof.
  intros H. assert (B : forall x, e <= x < e + 13 -> ld8 (image s') x = ld8 (image s) x) by (intros x Hx; apply H; unfold meta; lia).
  rewrite !slot_bytes_rd, !B by lia. split; [|done]. unfold slot_bytes.
  assert (T : forall m, take 11 (mem_bytes m e 32) = mem_bytes m e 11) by (intros m; reflexivity). rewrite !T. apply mem_bytes_ext. intros x Hx. apply B. lia.
Qed.

Lemma flush_all_image o : forall s, image (foldl (fun s e => fat_flush_bytes v s e 32) s o) = image s.
Proof. induction o as [|e o IH]; intros s; cbn; [done|]. by rewrite IH, flush_image. Qed.

Lemma store_all_snoc e raw : forall es N s, length es = length N -> store_slot (store_all s (es ++ [e]) N) e raw = store_all s (es ++ [e]) (N ++ [raw]).
Proof.
  unfold store_all. induction es as [|x es IH]; intros [|r N] s H; cbn [length] in H; try done. cbn [app zip zip_with foldl]. apply IH. lia.
Qed.

Lemma long_slots_length name sn n : 0 <= n -> zlen (long_slots name sn n) = n.
Proof. intros Hn. unfold zlen, long_slots. rewrite length_fmap, length_seqZ. lia. Qed.

Lemma long_slots_32 name sn n : Forall (fun raw : list Z => length raw = 32%nat) (long_slots name sn n).
Proof. unfold long_slots. induction (seqZ 0 n) as [|i l IH]; constructor; [apply lfn_slot_length|done]. Qed.

(** The metadata calls at the end, on an entry of a directory. *)
Definition finish_entry s (a cluster : Z) (o : list Z) : fat_state W :=
  foldl (fun s e => fat_flush_bytes v s e 32)
    (fat_impl_set_timestamp rtc_read (fat_impl_entry_set_size (fat_impl_entry_set_cluster v s a cluster) a 0) a) o.

Lemma finish_entry_spec s a cluster o : link_ok v cluster -> let s' := finish_entry s a cluster o in
  meta_only s s' a /\ fat_impl_entry_get_cluster v s' a = cluster /\ fat_impl_entry_get_size s' a = 0.
Proof.
  intros Hc. unfold finish_entry. cbv zeta. set (s4 := fat_impl_set_timestamp _ _ _). set (s5 := foldl _ s4 o). assert (I5 : image s5 = image s4) by apply flush_all_image.
  split; [|split].
  - intros x Hx. rewrite I5. unfold s4. rewrite timestamp_meta, set_size_meta, set_cluster_meta by done. done.
  - assert (fat_impl_entry_get_cluster v s5 a = fat_impl_entry_get_cluster v s4 a) as -> by (unfold fat_impl_entry_get_cluster; by rewrite I5).
    unfold s4. rewrite timestamp_cluster, set_size_cluster. by apply (set_cluster_get v).
  - assert (fat_impl_entry_get_size s5 a = fat_impl_entry_get_size s4 a) as -> by (unfold fat_impl_entry_get_size; by rewrite I5).
    unfold s4. by rewrite timestamp_size, set_size_get by lia.
Qed.

Lemma fill_slots_spec s d cs name sn nt n attr cluster st A F B : dir_at s d cs -> length sn = 11%nat -> 0 <= n -> link_ok v cluster ->
  slots s d cs = A ++ F ++ B -> zlen A = st -> zlen F = n + 1 ->
  let s' := fill_slots v rtc_read s name sn nt n attr cluster (slot_addr d cs <$> seqZ st (n + 1)) in let a := slot_addr d cs (st + n) in
  exists raw, slots s' d cs = A ++ (long_slots name sn n ++ [raw]) ++ B /\ dir_at s' d cs /\ slots_only d cs s s' st (n + 1) /\
    take 11 raw = sn /\ rd raw 11 = attr /\ rd raw 12 = nt /\ fat_impl_entry_get_cluster v s' a = cluster /\ fat_impl_entry_get_size s' a = 0.
Proof.
  intros Hd Hsn Hn Hcl Es HA HF. cbv zeta. set (a := slot_addr d cs (st + n)). set (N := long_slots name sn n).
  assert (Eo : slot_addr d cs <$> seqZ st (n + 1) = (slot_addr d cs <$> seqZ st n) ++ [a]) by (rewrite seqZ_app by lia; by rewrite fmap_app).
  pose proof (long_slots_length name sn n Hn) as LN. fold N in LN. destruct (fresh_entry_ok sn attr nt Hsn) as (Lf & Tf & Af & Nf). set (fresh := fresh_entry sn attr nt) in *.
  assert (Len : length (slot_addr d cs <$> seqZ st n) = Z.to_nat n) by (by rewrite length_fmap, length_seqZ).
  assert (Zl : zlen (N ++ [fresh]) = n + 1) by (unfold zlen in *; rewrite length_app; cbn [length]; lia).
  set (s1 := store_all s (slot_addr d cs <$> seqZ st (zlen (N ++ [fresh]))) (N ++ [fresh])).
  assert (Ef : fill_slots v rtc_read s name sn nt n attr cluster (slot_addr d cs <$> seqZ st (n + 1)) = finish_entry s1 a cluster (slot_addr d cs <$> seqZ st (n + 1))).
  { unfold fill_slots, finish_entry, s1. rewrite Zl, Eo, (lookup_app_r _ _ (Z.to_nat n)), Len, Nat.sub_diag by lia. cbn [lookup list_lookup default from_option id].
    fold N fresh. rewrite store_all_snoc; [done|unfold zlen in LN; lia]. }
  rewrite Ef. set (s5 := finish_entry _ _ _ _). destruct (finish_entry_spec s1 a cluster (slot_addr d cs <$> seqZ st (n + 1)) Hcl) as (M5 & C5 & Z5). fold s5 in M5, C5, Z5.
  assert (HN : Forall (fun raw : list Z => length raw = 32%nat) (N ++ [fresh])).
  { apply list_relations.list.Forall_app. split; [apply long_slots_32|by repeat constructor]. }
  destruct (store_all_slots d cs _ HN s A F B st Hd Es ltac:(unfold zlen in *; lia) ltac:(done)) as (S1 & O1 & D1). fold s1 in S1, O1, D1. rewrite Zl in O1.
  destruct (meta_keeps s1 s5 a M5) as (K1 & K2 & K3). assert (Zn : zlen (A ++ N) = st + n) by (unfold zlen in *; rewrite length_app; lia).
  assert (S1' : slots s1 d cs = (A ++ N) ++ fresh :: B) by (rewrite S1, <-!app_assoc; done).
  assert (Hk : 0 <= st + n < slot_count d cs).
  { pose proof (slots_length s d cs) as L. rewrite Es, !length_app in L. unfold zlen in *. lia. }
  assert (Ha : slot_bytes s1 a = fresh).
  { apply (inj Some). unfold a. rewrite <-slots_lookup by done. rewrite S1', <-Zn. unfold zlen. rewrite Nat2Z.id. by apply list_lookup_middle. }
  pose proof (meta_entry _ _ _ M5) as H5. unfold a in H5. rewrite <-Zn in H5.
  exists (slot_bytes s5 a). split; [rewrite (slots_replace s1 s5 d cs (A ++ N) _ B D1 S1' H5), Zn, <-!app_assoc; done|]. rewrite Zn in H5.
  split; [by apply (slot_only_dir s1 s5 d cs (st + n) D1 Hk)|].
  split; [eapply slots_only_trans; [exact O1|apply slots_only_one, H5|lia..]|]. rewrite K1, K2, K3, Ha. done.
Qed.

(** A run of free slots cuts the list of slots in three. *)
Lemma run_split s d cs st m : 0 <= m -> run_at s d cs st (st + m) -> st + m <= slot_count d cs ->
  exists A F B, slots s d cs = A ++ F ++ B /\ zlen A = st /\ zlen F = m /\ free_slots F /\ ends_used A.
Proof.
  intros Hm (Hst & Hfree & Hbefore) Hle. set (l := slots s d cs). pose proof (slots_length s d cs) as L. fold l in L.
  exists (take (Z.to_nat st) l), (take (Z.to_nat m) (drop (Z.to_nat st) l)), (drop (Z.to_nat m) (drop (Z.to_nat st) l)).
  unfold zlen. rewrite !take_drop, !length_take, length_drop. split; [done|]. split; [lia|]. split; [lia|]. split.
  - apply list_relations.list.Forall_forall. intros x Hx. apply list_elem_of_lookup_1 in Hx as [i Hi]. apply lookup_take_Some in Hi as [Hi Hlt].
    rewrite lookup_drop in Hi. replace (Z.to_nat st + i)%nat with (Z.to_nat (st + Z.of_nat i)) in Hi by lia. unfold l in Hi. rewrite slots_lookup in Hi by lia. injection Hi as <-.
    apply Hfree. lia.
  - intros x Hx. rewrite last_lookup, length_take in Hx. destruct (decide (st = 0)) as [->|Hne]; [done|].
    destruct Hbefore as [|Hn]; [done|]. apply lookup_take_Some in Hx as [Hx _]. replace (Init.Nat.pred _) with (Z.to_nat (st - 1)) in Hx by lia.
    unfold l in Hx. rewrite slots_lookup in Hx by lia. injection Hx as <-. unfold free_at in Hn. by destruct (entry_is_free _).
Qed.

(** ** Creating an entry *)

(** The name a new entry carries: the short form when the name fits it, the
    long form as the codec stores it otherwise.  It is never taken for a dot entry. *)
Definition named (name : list Z) (e : dent) : Prop :=
  is_dot_entry (de_raw e) = false /\
  match short_name_exact name with
  | Some _ => de_long e = None /\ entry_short_name (de_raw e) = name
  | None => de_long e = Some (decode name)
  end.

Lemma not_dot_entry raw sn : take 11 raw = sn -> rd sn 0 <> 46 -> is_dot_entry raw = false.
Proof. intros <- H. unfold is_dot_entry, rd in *. rewrite lookup_take_lt in H by (cbn; lia). by apply Z.eqb_neq in H as ->. Qed.

Lemma usable_entry raw sn attr : take 11 raw = sn -> 33 <= rd sn 0 <= 126 -> rd raw 11 = attr -> Z.land attr 8 = 0 ->
  zero_slot raw = false /\ entry_is_usable raw = true.
Proof.
  intros Ht Hf Ha Hat. assert (E : rd raw 0 = rd sn 0) by (rewrite <-Ht; unfold rd; by rewrite lookup_take_lt by (cbn; lia)).
  unfold entry_is_usable, entry_is_free, entry_is_lfn, zero_slot, FAT_ATTR_LFN. rewrite E, Ha, Hat.
  destruct (Z.eqb_spec (rd sn 0) 0); [lia|]. destruct (Z.eqb_spec (rd sn 0) 229); [lia|]. destruct (Z.eqb_spec (Z.land attr 15) 15) as [E15|]; [|done].
  exfalso. assert (H8 : Z.land (Z.land attr 15) 8 = 8) by (by rewrite E15). rewrite <-Z.land_assoc in H8. change (Z.land 15 8) with 8 in H8. lia.
Qed.

Lemma checksum_take raw sn : take 11 raw = sn -> lfn_checksum raw = lfn_checksum sn.
Proof. intros <-. unfold lfn_checksum. by rewrite take_take. Qed.

Lemma new_segment s d name sn nt n raw attr st i : choose_short_name v s d name = Some (sn, nt, n) -> name_ok name -> 1 <= zlen name <= 255 ->
  take 11 raw = sn -> rd raw 11 = attr -> rd raw 12 = nt -> Z.land attr 8 = 0 -> lfn_wf st -> ls_valid st = false ->
  exists e, segment st i (long_slots name sn n ++ [raw]) e /\ named name e /\ de_raw e = raw /\ de_first e = i /\ de_last e = i + n.
Proof.
  intros Hc Hn Hl Ht Ha Hnt Hat Hw Hv'. destruct (choose_short_ok _ _ _ _ _ _ Hc) as (Lsn & [Hf Hf46] & Hcase).
  destruct (usable_entry raw sn attr Ht Hf Ha Hat) as [Hz Hu]. pose proof (not_dot_entry raw sn Ht Hf46) as Hdot. unfold named. destruct Hcase as [[Ee ->]|(Ee & -> & -> & _)].
  - exists (Dent None raw i i). rewrite Ee. cbn [de_long de_raw de_first de_last]. split; [by apply segment_short|]. split; [|rewrite Z.add_0_r; done].
    split; [done|]. split; [done|]. by eapply short_name_roundtrip_ok.
  - exists (Dent (Some (decode name)) raw i (i + (zlen name + 12) / 13)). rewrite Ee. cbn [de_long de_raw de_first de_last]. split; [|done].
    pose proof (segment_long st i name raw Hw Hv' Hn Hl Hz Hu) as Hs. cbv zeta in Hs. rewrite (checksum_take raw sn Ht) in Hs. exact Hs.
Qed.

(** The bytes of the slots of an entry. *)
Definition in_slots d cs (first last x : Z) : Prop := exists i, first <= i <= last /\ in_entry (slot_addr d cs i) x.

(** What a successful creation has done. *)
Definition created s s' d cs new (name : list Z) (attr cluster : Z) (f : found_entry) : Prop :=
  exists E1 e E2, entries v s d cs = E1 ++ E2 /\ entries v s' d (cs ++ new) = E1 ++ e :: E2 /\ named name e /\
    rd (de_raw e) 11 = attr /\ f = FoundEntry cluster 0 attr (de_first e) (de_last e) (slot_addr d (cs ++ new) (de_last e)) /\ f = found_at v s' d (cs ++ new) e /\
    0 <= de_last e < slot_count d (cs ++ new) /\ others v (in_slots d (cs ++ new) (de_first e) (de_last e)) (cs ++ new) s s'.

(** What a failed creation has done: it may have made the directory longer. *)
Definition not_created s s' d cs new (name : list Z) : Prop :=
  entries v s' d (cs ++ new) = entries v s d cs /\ others v (fun _ => False) (cs ++ new) s s' /\
  (fixed d = false -> 1 <= zlen name <= 255 -> choose_short_name v s d name = None \/ no_free v s').

Definition clean_dir s d cs : Prop := dir_at s d cs /\ clean lfn_start 0 (slots s d cs).

Lemma slots_only_others P d cs s s' k n : dir_at s d cs -> 0 <= k -> k + n <= slot_count d cs -> slots_only d cs s s' k n ->
  (forall i x, k <= i < k + n -> in_entry (slot_addr d cs i) x -> P x) -> others v P cs s s'.
Proof.
  intros Hd Hk Hn H HP. split.
  - intros c Hc _. apply (fat_get_ext v Hv); [done|]. intros x Hx. apply H. intros i Hi Hin. apply (slot_in_area s d cs i x Hd) in Hin; [|lia]. by destruct (area_apart d cs x Hin).
  - intros x _ _ Hx. apply H. intros i Hi Hin. apply Hx. by eapply HP.
Qed.

Lemma others_mono (P Q : Z -> Prop) cs s s' : (forall x, P x -> Q x) -> others v P cs s s' -> others v Q cs s s'.
Proof. intros H [G B]. split; [done|]. intros x H1 H2 H3. apply B; auto. Qed.

Lemma create_entry_spec s d cs name attr cluster : clean_dir s d cs -> name_ok name -> Z.land attr 8 = 0 -> link_ok v cluster ->
  exists s' new r, fat_impl_create_entry v rtc_read s d name attr cluster = (s', r) /\ clean_dir s' d (cs ++ new) /\
    Forall (fun c => valid v c /\ fat_get v s c = 0) new /\
    match r with None => not_created s s' d cs new name | Some f => created s s' d cs new name attr cluster f end.
Proof.
  intros [Hd Hcl] Hn Hat Hlk. unfold fat_impl_create_entry. fold (zlen name) (strlen name). change (strlen name) with (zlen name).
  assert (Hsame : (fixed d = false -> 1 <= zlen name <= 255 -> choose_short_name v s d name = None \/ no_free v s) ->
    exists s' new r, (s, @None found_entry) = (s', r) /\ clean_dir s' d (cs ++ new) /\ Forall (fun c => valid v c /\ fat_get v s c = 0) new /\
    match r with None => not_created s s' d cs new name | Some f => created s s' d cs new name attr cluster f end).
  { intros HQ. exists s, [], None. unfold not_created. rewrite app_nil_r. split_and!; done. }
  destruct (_ || _) eqn:El; [apply Hsame; intros; apply orb_true_iff in El; lia|]. apply orb_false_iff in El as [El1 El2].
  assert (Hl : 1 <= zlen name <= 255) by (unfold zlen in *; lia).
  destruct (choose_short_name v s d name) as [[[sn nt] n]|] eqn:Ec; [|apply Hsame; intros; by left].
  destruct (choose_short_ok _ _ _ _ _ _ Ec) as (Lsn & Hfst & Hcase).
  assert (Hn0 : 0 <= n) by (destruct Hcase as [[_ ->]|(_ & _ & -> & _)]; [lia|apply Z.div_pos; lia]).
  destruct (alloc_slots_spec s d cs (n + 1) Hd ltac:(lia)) as (s1 & new & r & -> & Hd1 & Ho1 & [m Es1] & HF & Hfound & Hnone).
  destruct (listing_extend (slots s d cs) (zero_slots m) (zero_slots_zero m) Hcl) as [El Cl]. rewrite <-Es1 in El, Cl.
  destruct r as [[st o]|].
  2:{ exists s1, new, None. split; [done|]. split; [done|]. split; [done|]. split; [done|]. split; [done|]. intros Hf _. right. specialize (Hnone eq_refl). by rewrite Hf in Hnone. }
  destruct Hfound as (-> & Hrun & Hle). destruct (run_split s1 d (cs ++ new) st (n + 1) ltac:(lia) Hrun Hle) as (A & F & B & Es & HA & HFl & Hfree & Hused).
  destruct (fill_slots_spec s1 d (cs ++ new) name sn nt n attr cluster st A F B Hd1 Lsn Hn0 Hlk Es HA HFl) as (raw & Es2 & Hd2 & Ho2 & Ht & Ha & Hnt & Hc2 & Hz2).
  set (s2 := fill_slots _ _ _ _ _ _ _ _ _ _) in *. rewrite Es in Cl, El.
  assert (Hw : lfn_wf (after lfn_start 0 A)) by auto with gaia.
  destruct (ls_valid (after lfn_start 0 A)) eqn:Ev.
  { exfalso. pose proof (clean_live _ _ Hused _ _ Cl) as HlA. apply (clean_app _ _ HlA) in Cl. destruct F as [|f F]; [unfold zlen in HFl; cbn in HFl; lia|].
    apply list_relations.list.Forall_cons in Hfree as [Hf _]. rewrite (clean_head _ _ _ _ Cl) in Ev; [done|by left|by apply free_not_usable]. }
  destruct (new_segment s d name sn nt n raw attr (after lfn_start 0 A) (zlen A) Ec Hn Hl Ht Ha Hnt Hat Hw Ev) as (e & Hseg & Hnm & Er & Ef & Elast).
  destruct (listing_insert A F B (long_slots name sn n ++ [raw]) e Hfree ltac:(destruct F; [unfold zlen in HFl; cbn in HFl; lia|done]) Hused Cl
    ltac:(unfold zlen in *; rewrite length_app; pose proof (long_slots_length name sn n Hn0); unfold zlen in *; cbn [length]; lia) (fun _ => Hseg)) as (E1 & E2 & L1 & L2 & C2).
  exists s2, new, (Some (FoundEntry cluster 0 attr st (u32 (st + n)) (default 0 ((slot_addr d (cs ++ new) <$> seqZ st (n + 1)) !! Z.to_nat n)))). split; [done|].
  split; [split; [done|by rewrite Es2]|]. split; [done|].
  pose proof Hrun as ([Hst0 _] & _). destruct (slot_count_range v Hv s1 d (cs ++ new) Hd1) as (Hcr & _).
  assert (Eent : default 0 ((slot_addr d (cs ++ new) <$> seqZ st (n + 1)) !! Z.to_nat n) = slot_addr d (cs ++ new) (st + n)).
  { rewrite list_lookup_fmap, lookup_seqZ_lt by lia. cbn. f_equal. lia. }
  rewrite Eent, u32_small by lia. exists E1, e, E2. unfold entries at 1. rewrite <-El, L1. split; [done|]. unfold entries. rewrite Es2. split; [done|]. split; [done|].
  rewrite Er, Ef, Elast, HA. split; [done|]. split; [done|]. split.
  { unfold found_at. rewrite Ef, Elast, Er, HA, Hc2, Hz2, Ha. done. }
  split; [lia|]. apply (others_trans v _ (cs ++ new) (cs ++ new) s s1 s2); [done|by eapply others_mono; [|exact Ho1]|].
  eapply slots_only_others; [exact Hd1| |exact Hle|exact Ho2|]; [lia|]. intros i x Hi Hx. exists i. split; [lia|done].
Qed.

(** ** Looking up what was created *)
Definition ascii_name (name : list Z) : Prop := Forall (fun c => 0 < c < 128) name.

Lemma ascii_ok name : ascii_name name -> name_ok name /\ decode name = name /\ c_str name = name.
Proof.
  induction 1 as [|c name Hc _ (H1 & H2 & H3)]; [by split; [constructor|]|]. split; [constructor; [lia|done]|]. unfold decode in *. cbn [fmap list_fmap c_str]. rewrite H2, H3.
  destruct (Z.ltb_spec c 128); [|lia]. by destruct (Z.eqb_spec c 0); [lia|].
Qed.

Lemma strcasecmp_refl l : strcasecmp l l = 0.
Proof. induction l as [|c l IH]; cbn; [done|]. by rewrite Z.eqb_refl. Qed.

Lemma named_answers name e : ascii_name name -> named name e -> answers name e = true.
Proof.
  intros Hn. destruct (ascii_ok name Hn) as (_ & Hd & Hc). unfold named, answers. intros [_ H]. revert H. destruct (short_name_exact name).
  - intros [-> ->]. by rewrite Hc, strcasecmp_refl.
  - intros ->. by rewrite Hd, strcasecmp_refl.
Qed.

Lemma find_insert (P : dent -> bool) E1 e E2 : List.find P (E1 ++ E2) = None -> P e = true -> List.find P (E1 ++ e :: E2) = Some e.
Proof. intros H He. induction E1 as [|x E1 IH]; cbn in *; [by rewrite He|]. destruct (P x); [done|]. by apply IH. Qed.

Lemma create_at_spec s d cs name : clean_dir s d cs -> name_ok name ->
  (exists e, List.find (answers name) (entries v s d cs) = Some e /\ fat_create_at v rtc_read s d name = (s, None)) \/
  (List.find (answers name) (entries v s d cs) = None /\
   exists s' new r, fat_create_at v rtc_read s d name = (s', r) /\ clean_dir s' d (cs ++ new) /\
     Forall (fun c => valid v c /\ fat_get v s c = 0) new /\
     match r with None => not_created s s' d cs new name | Some f => created s s' d cs new name FAT_ATTR_ARCHIVE 0 f end).
Proof.
  intros Hc Hn. pose proof Hc as [Hd _]. unfold fat_create_at. rewrite (find_entry_ok v Hv s d cs name Hd).
  destruct (List.find _ _) as [e|] eqn:E; [left; by exists e|right]. split; [done|]. cbn [fmap option_fmap option_map].
  apply create_entry_spec; [done|done|done|]. unfold link_ok, cluster_eoc. destruct (vol_type v); lia.
Qed.

(** ** Erasing an entry *)
Lemma erased_bytes s s' e : image s' = st8 (image s) e 0xE5 -> slot_bytes s' e = erase_slot (slot_bytes s e) /\ entry_only s s' e.
Proof.
  intros E. split.
  - unfold slot_bytes, erase_slot, wr. change (Z.to_nat 0) with 0%nat. rewrite E.
    apply list_eq_same_length with (n := 32%nat); [by rewrite length_insert, mem_bytes_length|by rewrite mem_bytes_length|].
    intros i x y Hi Hx Hy. rewrite mem_bytes_lookup in Hx by lia. injection Hx as <-. rewrite ld_st. destruct i as [|i].
    + rewrite list_lookup_insert_eq in Hy by (rewrite mem_bytes_length; lia). injection Hy as <-. by rewrite decide_True by lia.
    + rewrite list_lookup_insert_ne, mem_bytes_lookup in Hy by lia. injection Hy as <-. by rewrite decide_False by lia.
  - intros x Hx. rewrite E, ld_st, decide_False; [done|]. unfold in_entry in Hx. lia.
Qed.

Lemma erase_loop_spec d cs last G : forall fuel s A B cur, dir_at s d cs -> slots s d cs = A ++ G ++ B -> cursor_at v d cs (zlen A) cur ->
  zlen (A ++ G) = last + 1 -> (length G < fuel)%nat ->
  let s' := erase_loop v fuel s last cur in
  slots s' d cs = A ++ (erase_slot <$> G) ++ B /\ dir_at s' d cs /\ slots_only d cs s s' (zlen A) (zlen G).
Proof.
  induction G as [|raw G IH]; intros [|fuel] s A B cur Hd Es Hc Hl Hf; cbn [length] in Hf; try lia; cbn [erase_loop]; cbv zeta.
  - pose proof Hc as (_ & _ & -> & _). rewrite app_nil_r in Hl. replace (zlen A <=? last) with false by lia. cbn. split; [done|]. split; [done|]. by intros x _.
  - pose proof Hc as (_ & _ & Hi & _). unfold zlen in Hl. rewrite length_app in Hl. cbn [length] in Hl. rewrite Hi.
    replace (zlen A <=? last) with true by (unfold zlen; lia). cbn [negb].
    assert (Hk : 0 <= zlen A < slot_count d cs).
    { pose proof (slots_length s d cs) as L. rewrite Es, !length_app in L. cbn in L. unfold zlen. lia. }
    destruct (cursor_next_at v Hv s d cs (zlen A) cur Hd Hc ltac:(lia)) as (cur' & -> & Hc').
    set (s1 := fat_flush_bytes _ _ _ _). assert (I1 : image s1 = st8 (image s) (slot_addr d cs (zlen A)) 0xE5) by (unfold s1; by rewrite flush_image).
    destruct (erased_bytes s s1 _ I1) as [Hb Ho]. pose proof (slot_only_dir s s1 d cs (zlen A) Hd Hk Ho) as Hd1.
    assert (Er : slot_bytes s (slot_addr d cs (zlen A)) = raw).
    { apply (inj Some). rewrite <-slots_lookup, Es by done. unfold zlen. rewrite Nat2Z.id. by apply list_lookup_middle. }
    assert (Es1 : slots s1 d cs = (A ++ [erase_slot raw]) ++ G ++ B).
    { rewrite (slots_replace s s1 d cs A raw (G ++ B) Hd Es Ho), Hb, Er, <-app_assoc. done. }
    assert (Z1 : zlen (A ++ [erase_slot raw]) = zlen A + 1) by (unfold zlen; rewrite length_app; cbn; lia). rewrite <-Z1 in Hc'.
    destruct (IH fuel s1 (A ++ [erase_slot raw]) B cur' Hd1 Es1 Hc' ltac:(unfold zlen; rewrite !length_app; cbn [length]; lia) ltac:(lia)) as (E2 & D2 & O2).
    split; [rewrite E2, <-app_assoc; done|]. split; [exact D2|]. rewrite Z1 in O2. unfold zlen in *.
    eapply slots_only_trans; [by apply slots_only_one|exact O2|cbn [length]; lia..].
Qed.

Lemma slots_nonempty s d cs : Forall (fun raw => raw <> []) (slots s d cs).
Proof.
  unfold FatWalk.slots. apply list_monad.list.Forall_fmap, list_relations.list.Forall_forall. intros k _ E. apply (f_equal length) in E. unfold slot_bytes in E. by rewrite mem_bytes_length in E.
Qed.

(** The slots of a listed entry. *)
Lemma entry_range s d cs E1 e E2 : clean_dir s d cs -> entries v s d cs = E1 ++ e :: E2 -> 0 <= de_first e <= de_last e /\ de_last e < slot_count d cs.
Proof.
  intros [Hd _] E. destruct (entry_slots _ _ _ _ E) as (A & P & raw & B & Es & _ & _ & _ & _ & _ & _ & _ & Hf & Hl & _).
  pose proof (slots_length s d cs) as L. rewrite Es, !length_app in L. cbn in L. unfold zlen in *. lia.
Qed.

Lemma erase_entry_spec s d cs E1 e E2 : clean_dir s d cs -> entries v s d cs = E1 ++ e :: E2 ->
  let s' := fat_impl_erase_entry v s d (found_at v s d cs e) in
  clean_dir s' d cs /\ entries v s' d cs = E1 ++ E2 /\ slots_only d cs s s' (de_first e) (de_last e + 1 - de_first e).
Proof.
  intros Hcd E. pose proof (entry_range s d cs E1 e E2 Hcd E) as Hr. destruct Hcd as [Hd Hcl].
  destruct (listing_erase _ _ _ _ (slots_nonempty s d cs) Hcl E) as (A & G & B & Es & HA & HG & HL & HC).
  unfold fat_impl_erase_entry, found_at. cbn [fe_index fe_index_end].
  destruct (cursor_init_at v Hv s d cs (de_first e) Hd ltac:(lia) ltac:(lia)) as (cur & -> & Hc). rewrite <-HA in Hc.
  destruct (erase_loop_spec d cs (de_last e) G (S (Z.to_nat (de_last e + 1 - de_first e))) s A B cur Hd Es Hc HG) as (E' & D' & O').
  { unfold zlen in *. rewrite length_app in HG. lia. }
  cbv zeta. split; [split; [done|by rewrite E']|]. split; [unfold entries; by rewrite E'|].
  assert (EG : zlen G = de_last e + 1 - de_first e) by (unfold zlen in *; rewrite length_app in HG; lia). rewrite HA, EG in O'. exact O'.
Qed.

(** ** What does not concern a directory *)

(** The clusters [ecs] are not the directory's own. *)
Definition apart_from d cs (ecs : list Z) : Prop := Forall (valid v) ecs /\ (fixed d = false -> forall c, c ∈ cs -> c ∉ ecs).

Lemma area_bytes P s s' d cs ecs x : others v P ecs s s' -> apart_from d cs ecs -> dir_area d cs x -> ~ P x -> ld8 (image s') x = ld8 (image s) x.
Proof.
  intros [_ B] [Hval Ha] Hx HP. apply B; [by destruct (area_apart d cs x Hx)| |done]. intros c Hc Hin. rewrite list_relations.list.Forall_forall in Hval. pose proof (Hval c Hc) as Hvc.
  unfold dir_area in Hx. destruct (fixed d) eqn:Ef; [by destruct (cluster_not_table v Hv c x Hvc Hin)|]. destruct Hx as (c' & Hc' & Hv' & Hin').
  rewrite (cluster_disjoint v Hv c c' x) in Hc by done. by apply (Ha eq_refl c').
Qed.

Lemma others_dir P s s' d cs ecs : others v P ecs s s' -> apart_from d cs ecs -> (forall x, dir_area d cs x -> ~ P x) -> dir_at s d cs ->
  dir_at s' d cs /\ slots s' d cs = slots s d cs.
Proof.
  intros Ho Hap HP Hd. pose proof Ho as [G _]. pose proof Hap as [_ Ha].
  split.
  - unfold FatWalk.dir_at in *. destruct (fixed d) eqn:Ef; [done|]. pose proof (chain_valid v s cs _ Hd) as Hval'. rewrite list_relations.list.Forall_forall in Hval'.
    apply (chain_ext v Hv s); [|done]. intros c Hc. apply G; [by apply Hval'|by apply (Ha eq_refl)].
  - apply slots_ext. intros k x Hk Hx. apply (slot_in_area s d cs k x Hd Hk) in Hx. apply (area_bytes P s s' d cs ecs); auto.
Qed.

Lemma others_clean P s s' d cs ecs : others v P ecs s s' -> apart_from d cs ecs -> (forall x, dir_area d cs x -> ~ P x) -> clean_dir s d cs ->
  clean_dir s' d cs /\ entries v s' d cs = entries v s d cs.
Proof. intros Ho Ha HP [Hd Hc]. destruct (others_dir P s s' d cs ecs Ho Ha HP Hd) as [Hd' E]. unfold clean_dir, entries. by rewrite E. Qed.

(** A free cluster belongs to no directory. *)
Lemma free_apart s d cs c : dir_at s d cs -> valid v c -> fat_get v s c = 0 -> apart_from d cs [c].
Proof.
  intros Hd Hc Hg. split; [by constructor|]. intros Ef x Hx E%list_elem_of_singleton. subst x. unfold FatWalk.dir_at in Hd. rewrite Ef in Hd. by apply (chain_used v s _ cs c Hd).
Qed.

(** ** Removing *)
Definition only_dots (es : list dent) : bool := forallb (fun e => is_dot_entry (de_raw e)) es.

Lemma empty_scan s d cs : dir_at s d cs -> forall n k st, 0 <= k -> k + Z.of_nat n = slot_count d cs ->
  scan_slots (empty_body s) (fun _ _ => true) tt k (addrs v d cs k) = only_dots (parse st k (slots_from v s d cs k)).
Proof.
  intros Hd. induction n as [|n IH]; intros k st Hk Hn.
  - assert (k = slot_count d cs) as -> by lia. unfold slots_from. by rewrite addrs_end.
  - unfold slots_from. rewrite addrs_cons by lia. cbn [scan_slots fmap list_fmap parse]. unfold empty_body at 1. fold (zero_slot (slot_bytes s (slot_addr d cs k))).
    set (raw := slot_bytes s (slot_addr d cs k)). fold (slots_from v s d cs (k + 1)).
    destruct (zero_slot raw) eqn:Ez; [done|]. destruct (entry_is_usable raw) eqn:Eu; cbn [negb app]; [|apply IH; lia].
    unfold only_dots at 1. cbn [forallb de_raw de_of]. destruct (is_dot_entry raw); cbn [andb]; [|done]. apply IH; lia.
Qed.

Lemma dir_is_empty_ok s c cs : dir_at s (FatDir c false) cs -> fat_impl_dir_is_empty v s c = only_dots (entries v s (FatDir c false) cs).
Proof.
  intros Hd. pose proof Hd as Hch. unfold FatWalk.dir_at in Hch. cbn in Hch. destruct (chain_head v s c cs Hch) as [Hval _].
  unfold fat_impl_dir_is_empty. rewrite (proj2 (valid_true v c) Hval). cbn [negb].
  destruct (walk_scan v Hv s _ cs (empty_body s) (fun _ _ => true) tt Hd) as (cur & -> & ->). cbn [default from_option id]. unfold entries. rewrite slots_eq.
  destruct (slot_count_range v Hv s _ cs Hd) as (Hc & _). apply (empty_scan s _ cs Hd (Z.to_nat (slot_count (FatDir c false) cs))); lia.
Qed.

Lemma find_split (P : dent -> bool) l e : List.find P l = Some e -> exists E1 E2, l = E1 ++ e :: E2 /\ P e = true /\ Forall (fun x => P x = false) E1.
Proof.
  induction l as [|x l IH]; cbn; [done|]. destruct (P x) eqn:E.
  - intros [= ->]. exists [], l. split; [done|]. split; [done|constructor].
  - intros H. destruct (IH H) as (E1 & E2 & -> & He & HF). exists (x :: E1), E2. split; [done|]. split; [done|by constructor].
Qed.

(** The clusters of an entry. *)
Definition entry_chain s d cs (e : dent) (ecs : list Z) : Prop :=
  let c := fe_cluster (found_at v s d cs e) in (c = 0 /\ ecs = []) \/ chain v s c ecs.

(** A removal that went through: the entry is gone and its clusters are free. *)
Definition removed s s' d cs E1 (e : dent) E2 (ecs : list Z) : Prop :=
  clean_dir s' d cs /\ entries v s' d cs = E1 ++ E2 /\ (forall c, c ∈ ecs -> fat_get v s' c = 0) /\ others v (in_slots d cs (de_first e) (de_last e)) ecs s s'.

Lemma free_entry_spec s c ecs : (c = 0 /\ ecs = []) \/ chain v s c ecs -> let s' := if c =? 0 then s else fat_impl_free_chain v s c in
  (forall x, x ∈ ecs -> fat_get v s' x = 0) /\ others v (fun _ => False) ecs s s' /\ Forall (valid v) ecs.
Proof.
  intros [[-> ->]|Hch]; cbv zeta.
  - cbn. split; [by intros x ?%elem_of_nil|]. done.
  - pose proof (chain_head v s c ecs Hch) as [[Hc _] _]. destruct (Z.eqb_spec c 0); [lia|]. destruct (free_chain_spec v Hv s c ecs Hch) as (H1 & H2 & H3).
    split; [done|]. split; [split; [done|intros x Hx _ _; by apply H3]|]. by apply (chain_valid v s ecs c).
Qed.

Lemma found_ext s s' d cs e : dir_at s d cs -> 0 <= de_last e < slot_count d cs -> (forall x, dir_area d cs x -> ld8 (image s') x = ld8 (image s) x) ->
  found_at v s' d cs e = found_at v s d cs e.
Proof.
  intros Hd Hk H. unfold found_at. destruct (entry_same v s s' (slot_addr d cs (de_last e))) as [-> ->]; [|done]. intros x Hx. apply H. by apply (slot_in_area s d cs (de_last e)).
Qed.

Lemma remove_at_spec s d cs name is_dir : clean_dir s d cs ->
  match List.find (answers name) (entries v s d cs) with
  | None => fat_remove_at v s d name is_dir = (s, false)
  | Some e =>
      exists E1 E2, entries v s d cs = E1 ++ e :: E2 /\ Forall (fun x => answers name x = false) E1 /\ forall ecs, entry_chain s d cs e ecs -> apart_from d cs ecs ->
      if Bool.eqb (rd (de_raw e) 11 &? FAT_ATTR_DIRECTORY) is_dir && (negb is_dir || (negb (bool_decide (ecs = [])) && only_dots (entries v s (FatDir (fe_cluster (found_at v s d cs e)) false) ecs)))
      then exists s', fat_remove_at v s d name is_dir = (s', true) /\ removed s s' d cs E1 e E2 ecs
      else fat_remove_at v s d name is_dir = (s, false)
  end.
Proof.
  intros Hcd. pose proof Hcd as [Hd _]. unfold fat_remove_at. rewrite (find_entry_ok v Hv s d cs name Hd).
  destruct (List.find _ _) as [e|] eqn:Ef; [|done]. cbn [fmap option_fmap option_map]. destruct (find_split _ _ _ Ef) as (E1 & E2 & E & _ & HF). exists E1, E2. split; [done|]. split; [done|].
  intros ecs Hec Hap. pose proof (entry_range s d cs E1 e E2 Hcd E) as Hr. set (f := found_at v s d cs e). change (fe_attr f) with (rd (de_raw e) 11).
  destruct (Bool.eqb _ is_dir); cbn [negb andb]; [|done].
  assert (Eempty : is_dir && negb (fat_impl_dir_is_empty v s (fe_cluster f)) =
    negb (negb is_dir || (negb (bool_decide (ecs = [])) && only_dots (entries v s (FatDir (fe_cluster f) false) ecs)))).
  { destruct is_dir; [|done]. cbn [negb andb orb]. f_equal. unfold entry_chain in Hec. fold f in Hec. cbv zeta in Hec. destruct Hec as [[E0 ->]|Hch].
    - rewrite E0, bool_decide_true by done. done.
    - rewrite (dir_is_empty_ok s _ ecs) by exact Hch. rewrite bool_decide_false; [done|]. intros ->. done. }
  rewrite Eempty. destruct (negb is_dir || _); cbn [negb]; [|done]. set (s1 := if _ =? 0 then s else _).
  destruct (free_entry_spec s (fe_cluster f) ecs Hec) as (Hfree & Ho & Hval). fold s1 in Hfree, Ho.
  destruct (others_clean (fun _ => False) s s1 d cs ecs Ho Hap ltac:(auto) Hcd) as [Hcd1 En1]. rewrite E in En1.
  assert (Hf1 : found_at v s1 d cs e = f).
  { apply found_ext; [done|lia|]. intros x Hx. apply (area_bytes (fun _ => False) s s1 d cs ecs); auto. }
  destruct (erase_entry_spec s1 d cs E1 e E2 Hcd1 En1) as (Hcd2 & En2 & Ho2). rewrite Hf1 in Hcd2, En2, Ho2.
  assert (Hoth : others v (in_slots d cs (de_first e) (de_last e)) [] s1 (fat_impl_erase_entry v s1 d f)).
  { destruct Hcd1 as [Hd1 _]. split.
    - intros c Hc _. apply (fat_get_ext v Hv); [done|]. intros x Hx. apply Ho2. intros i Hi Hin. apply (slot_in_area s1 d cs i x Hd1) in Hin; [|lia]. by destruct (area_apart d cs x Hin).
    - intros x _ _ Hx. apply Ho2. intros i Hi Hin. apply Hx. exists i. split; [lia|done]. }
  eexists. split; [done|]. split; [done|]. split; [done|]. split.
  - intros c Hc. rewrite list_relations.list.Forall_forall in Hval. rewrite (proj1 Hoth); [by apply Hfree|by apply Hval|]. by intros ?%elem_of_nil.
  - destruct Ho as [G1 B1]. destruct Hoth as [G2 B2]. split.
    + intros c Hc Hn. rewrite G2, G1 by (done || by intros ?%elem_of_nil). done.
    + intros x Hx Hn Hp. rewrite B2; [|done|by intros c ?%elem_of_nil|done]. apply B1; auto.
Qed.
End Dirs.

(** The root directory of the example volume is empty. *)
Lemma ex_root_clean w : clean_dir (ex_volume w) (ex_state (ex_boot 24 0)) (root_directory (ex_volume w)) [].
Proof.
  split; [reflexivity|]. apply clean_zeros; [|reflexivity]. apply List.Forall_forall. intros r Hr.
  assert (E : forallb zero_slot (slots (ex_volume w) (ex_state (ex_boot 24 0)) (root_directory (ex_volume w)) []) = true) by (vm_compute; reflexivity).
  rewrite forallb_forall in E. by apply E.
Qed.

(** A directory is a list of entries. Lookup returns the first entry that answers
    to the name, in any case. Creation refuses a name that is taken, and
    otherwise adds one entry with that name at a free place of the list, which may
    make the directory longer by clusters that were free; outside of the fixed
    root directory it fails only when the volume is full, when the name is
    empty or too long, or when no alias is free. Removal takes the entry off the list and
    frees exactly its clusters, and it refuses an entry of the other kind and a
    directory that is not empty. Nothing outside of the slots of the entry
    and the clusters named changes. *)
Theorem fat_directory_refines {W} (v : fat_volume W) (rtc_read : W -> rtc_time * W) s d cs name :
  vol_ok v -> clean_dir v s d cs -> name_ok name ->
  let found := List.find (answers name) (entries v s d cs) in
  fat_impl_find_entry v s d name = found_at v s d cs <$> found /\
  (match found with
   | Some _ => fat_create_at v rtc_read s d name = (s, None)
   | None =>
       exists s' new r, fat_create_at v rtc_read s d name = (s', r) /\ clean_dir v s' d (cs ++ new) /\
         Forall (fun c => valid v c /\ fat_get v s c = 0) new /\
         match r with None => not_created v s s' d cs new name | Some f => created v s s' d cs new name FAT_ATTR_ARCHIVE 0 f end
   end) /\
  (forall is_dir,
   match found with
   | None => fat_remove_at v s d name is_dir = (s, false)
   | Some e =>
       exists E1 E2, entries v s d cs = E1 ++ e :: E2 /\ Forall (fun x => answers name x = false) E1 /\ forall ecs, entry_chain v s d cs e ecs -> apart_from v d cs ecs ->
       if Bool.eqb (rd (de_raw e) 11 &? FAT_ATTR_DIRECTORY) is_dir &&
          (negb is_dir || (negb (bool_decide (ecs = [])) && only_dots (entries v s (FatDir (fe_cluster (found_at v s d cs e)) false) ecs)))
       then exists s', fat_remove_at v s d name is_dir = (s', true) /\ removed v s s' d cs E1 e E2 ecs
       else fat_remove_at v s d name is_dir = (s, false)
   end).
Proof.
  intros Hv Hcd Hn found. pose proof Hcd as [Hd _]. split; [by apply (find_entry_ok v Hv)|]. split.
  - destruct (create_at_spec v Hv rtc_read s d cs name Hcd Hn) as [(e & E & Hc)|[E H]]; unfold found; by rewrite E.
  - intros is_dir. by apply (remove_at_spec v Hv).
Qed.

Lemma fat_directory_refines_witness : exists s' f,
  fat_create_at (ex_volume None) ex_rtc (ex_state (ex_boot 24 0)) (root_directory (ex_volume None)) ex_long = (s', Some f) /\
  exists new, created (ex_volume None) (ex_state (ex_boot 24 0)) s' (root_directory (ex_volume None)) [] new ex_long FAT_ATTR_ARCHIVE 0 f.
Proof.
  destruct (fat_directory_refines (ex_volume None) ex_rtc (ex_state (ex_boot 24 0)) (root_directory (ex_volume None)) [] ex_long
    (ex_volume_ok None) (ex_root_clean None) ltac:(unfold ex_long, name_ok; repeat constructor; lia)) as (_ & H & _).
  assert (E : List.find (answers ex_long) (entries (ex_volume None) (ex_state (ex_boot 24 0)) (root_directory (ex_volume None)) []) = None) by (vm_compute; reflexivity).
  rewrite E in H. destruct H as (s' & new & r & Hc & _ & _ & Hr).
  assert (En : snd (fat_create_at (ex_volume None) ex_rtc (ex_state (ex_boot 24 0)) (root_directory (ex_volume None)) ex_long) <> None) by (vm_compute; discriminate).
  rewrite Hc in En. cbn in En. destruct r as [f|]; [|done]. exists s', f. split; [exact Hc|]. by exists new.
Defined.
