(* ===== verification/FatMkdir.v ===== *)
(** FAT subdirectories ([fat_impl_init_dir_cluster] of [kernel/fs/fat/fat_directory.c],
    [fat_mkdir_at] of [fat.c]): a new directory holds the two dot entries and
    is listed in its parent. *)
From S2P Require Import Prelude KString KStringSpec Fat FatSpec FatFileSpec FatName FatNameSpec FatDir FatListing FatWalk FatDirSpec.

Section Dirs.
Context {W : Type} (v : fat_volume W) (Hv : vol_ok v) (rtc_read : W -> rtc_time * W).
Implicit Types (s : fat_state W) (d : fat_dir) (cs : list Z).

Abbreviation epc := (entries_per_cluster v).
Abbreviation cb := (cluster_bytes v).
Abbreviation fixed := (dir_is_fixed_root v).
Abbreviation dir_at := (dir_at v).
Abbreviation slot_count := (slot_count v).
Abbreviation slot_addr := (slot_addr v).
Abbreviation slots := (slots v).
Abbreviation clean_dir := (clean_dir v).
Abbreviation entries := (entries v).

(** The directory that starts at cluster [c]. *)
Abbreviation subdir c := (FatDir c false).

Lemma subdir_slots s c : valid v c -> dir_at s (subdir c) [c] -> slot_count (subdir c) [c] = epc /\ forall k, 0 <= k < epc -> slot_addr (subdir c) [c] k = data_at v c + 32 * k.
Proof.
  pose proof (epc_eq v Hv) as [_ Hepc]. intros Hc Hd. unfold FatWalk.slot_count, FatWalk.slot_addr. cbn [dir_is_fixed_root is_root andb]. unfold zlen. cbn [length]. split; [lia|].
  intros k Hk. by rewrite Z.div_small, Z.mod_small by lia.
Qed.

(** ** Dot entries *)
Lemma dot_bytes n cluster s e : (n = 1 \/ n = 2)%nat -> link_ok v cluster -> let s' := store_dot v rtc_read s e n cluster in
  entry_only s s' e /\ fat_impl_entry_get_cluster v s' e = cluster /\ take 11 (slot_bytes s' e) = pad 11 (replicate n 46) /\ rd (slot_bytes s' e) 11 = FAT_ATTR_DIRECTORY /\ rd (slot_bytes s' e) 12 = 0.
Proof.
  intros Hn Hc. unfold store_dot. cbv zeta. set (raw := fresh_entry _ _ _). set (s1 := store_slot s e raw). set (s3 := fat_impl_set_timestamp _ _ _).
  assert (L : length (pad 11 (replicate n 46)) = 11%nat) by (by destruct Hn as [->| ->]).
  destruct (fresh_entry_ok (pad 11 (replicate n 46)) FAT_ATTR_DIRECTORY 0 L) as (Lf & Tf & Af & Nf). fold raw in Lf, Tf, Af, Nf.
  assert (M : meta_only s1 s3 e) by (eapply meta_trans; [apply set_cluster_meta|apply timestamp_meta]).
  destruct (meta_keeps s1 s3 e M) as (K1 & K2 & K3). unfold s1 in K1, K2, K3. rewrite store_slot_bytes in K1, K2, K3 by done. fold s1 in K1, K2, K3.
  split; [eapply entry_only_trans; [by apply store_slot_only|by apply meta_entry]|].
  split; [unfold s3; rewrite timestamp_cluster; by apply (set_cluster_get v)|]. rewrite K1, K2, K3. done.
Qed.

Definition dot_name (n : nat) (raw : list Z) : Prop := take 11 raw = pad 11 (replicate n 46) /\ rd raw 11 = FAT_ATTR_DIRECTORY /\ rd raw 12 = 0.

Lemma dot_entry_ok n raw : (n = 1 \/ n = 2)%nat -> dot_name n raw ->
  zero_slot raw = false /\ entry_is_usable raw = true /\ is_dot_entry raw = true /\ entry_short_name raw = replicate n 46.
Proof.
  intros Hn (Ht & Ha & H12). destruct (usable_entry raw _ FAT_ATTR_DIRECTORY Ht ltac:(by destruct Hn as [->| ->]) Ha eq_refl) as [Hz Hu]. split; [done|]. split; [done|].
  assert (Hb : forall i, (i < 11)%nat -> raw !! i = pad 11 (replicate n 46) !! i) by (intros i Hi; rewrite <-Ht; by rewrite lookup_take_lt).
  split.
  - unfold is_dot_entry, rd. change (Z.to_nat 0) with 0%nat. change (Z.to_nat 1) with 1%nat. rewrite (Hb 0%nat), (Hb 1%nat) by lia. by destruct Hn as [->| ->].
  - unfold entry_short_name. rewrite H12. change (take 8 raw) with (take 8 raw). replace (take 8 raw) with (take 8 (take 11 raw)) by (by rewrite take_take).
    replace (take 3 (drop 8 raw)) with (drop 8 (take 11 raw)) by (by rewrite skipn_firstn_comm). rewrite Ht. by destruct Hn as [->| ->].
Qed.

(** A directory with two dot entries and nothing else. *)
Lemma listing_dots raw1 raw2 n : dot_name 1 raw1 -> dot_name 2 raw2 ->
  listing (raw1 :: raw2 :: zero_slots n) = [Dent None raw1 0 0; Dent None raw2 1 1] /\ clean lfn_start 0 (raw1 :: raw2 :: zero_slots n).
Proof.
  intros H1 H2. destruct (dot_entry_ok 1 raw1 ltac:(auto) H1) as (Z1 & U1 & _). destruct (dot_entry_ok 2 raw2 ltac:(auto) H2) as (Z2 & U2 & _).
  pose proof (segment_short lfn_start 0 raw1 lfn_wf_start eq_refl Z1 U1) as [Hl1 P1 _ C1]. pose proof (segment_short (lfn_reset lfn_start) 1 raw2 ltac:(auto with gaia) eq_refl Z2 U2) as [Hl2 P2 _ C2].
  assert (Ea : after1 lfn_start 0 raw1 = lfn_reset lfn_start) by (unfold after1; by rewrite (usable_not_lfn raw1)).
  split.
  - unfold listing. cbn [parse]. rewrite Z1, U1, Z2, U2, Ea. cbn [app]. unfold de_of. cbn. f_equal. f_equal. apply parse_zeros, zero_slots_zero.
  - apply (C1 (raw2 :: zero_slots n)). apply (C2 (zero_slots n)). apply clean_zeros; [apply zero_slots_zero|done].
Qed.

(** ** A fresh directory *)
Definition fresh_dir s c (parent : Z) : Prop :=
  clean_dir s (subdir c) [c] /\ exists raw1 raw2, entries s (subdir c) [c] = [Dent None raw1 0 0; Dent None raw2 1 1] /\ dot_name 1 raw1 /\ dot_name 2 raw2 /\
    fat_impl_entry_get_cluster v s (data_at v c) = c /\ fat_impl_entry_get_cluster v s (data_at v c + 32) = parent.

Lemma cluster_chain s c : valid v c -> cluster_is_eoc v (fat_get v s c) = true -> chain v s c [c].
Proof. intros Hc He. done. Qed.

Lemma cluster_dir s t c : valid v c -> fat_get v s c = cluster_eoc v -> (forall x, ~ in_cluster v c x -> ld8 (image t) x = ld8 (image s) x) -> dir_at t (subdir c) [c].
Proof.
  intros Hc Hg Ht. assert (Eg : fat_get v t c = fat_get v s c).
  { apply (fat_get_ext v Hv); [done|]. intros x Hx. apply Ht. intros Hi. by destruct (cluster_not_table v Hv c x Hc Hi). }
  unfold FatWalk.dir_at. cbn [dir_is_fixed_root is_root andb fd_first]. apply cluster_chain; [done|]. rewrite Eg, Hg. apply cluster_eoc_ok.
Qed.

Lemma zeroed_slots s c : valid v c -> let s0 := set_image s (memset (image s) (data_at v c) 0 cb) in
  dir_at s0 (subdir c) [c] -> slots s0 (subdir c) [c] = zero_slots (Z.to_nat epc).
Proof.
  intros Hc s0 Hd0. pose proof (epc_eq v Hv) as [Ecb Hepc]. destruct (subdir_slots s0 c Hc Hd0) as [Hcnt Haddr].
  apply list_eq_same_length with (n := Z.to_nat epc); [unfold zero_slots; apply length_replicate|by rewrite slots_length, Hcnt|].
  intros i x y Hi Hx Hy. rewrite <-(Nat2Z.id i), slots_lookup in Hx by lia. injection Hx as <-. unfold zero_slots in Hy. apply lookup_replicate in Hy as [-> _].
  rewrite Haddr by lia. unfold slot_bytes, s0. cbn [image set_image]. apply list_eq_same_length with (n := 32%nat); [done|by rewrite mem_bytes_length|].
  intros j x y Hj Hx Hy. rewrite mem_bytes_lookup in Hx by lia. injection Hx as <-. apply lookup_replicate in Hy as [-> _].
  rewrite memset_filled, decide_True by lia. done.
Qed.

Lemma init_dir_spec s c d : valid v c -> fat_get v s c = cluster_eoc v -> link_ok v (fd_first d) ->
  exists s', fat_impl_init_dir_cluster v rtc_read s c d = (s', true) /\ fresh_dir s' c (if is_root d then 0 else fd_first d) /\
    (forall x, ~ in_cluster v c x -> ld8 (image s') x = ld8 (image s) x).
Proof.
  intros Hc Hg Hp. pose proof (epc_eq v Hv) as [Ecb Hepc]. pose proof (cluster_bytes_range v Hv). unfold fat_impl_init_dir_cluster. rewrite (proj1 (data_at_eq v Hv c Hc)).
  set (a := data_at v c). set (s0 := set_image s _). set (s1 := store_dot v rtc_read s0 a 1 c). set (p := if is_root d then 0 else fd_first d). set (s2 := store_dot v rtc_read s1 (a + 32) 2 p).
  eexists. split; [done|]. set (s3 := fat_flush_bytes _ _ _ _). assert (I3 : image s3 = image s2) by (unfold s3; by rewrite flush_image).
  assert (B0 : forall x, ~ in_cluster v c x -> ld8 (image s0) x = ld8 (image s) x).
  { intros x Hx. unfold s0. cbn [image set_image]. rewrite memset_filled by lia. rewrite decide_False; [done|]. unfold in_cluster in Hx. fold a in Hx. lia. }
  assert (Hp' : link_ok v p) by (unfold p; destruct (is_root d); [unfold link_ok, cluster_eoc; destruct (vol_type v); lia|done]).
  destruct (dot_bytes 1 c s0 a ltac:(auto) ltac:(by apply (valid_link v Hv))) as (O1 & C1 & D1). fold s1 in O1, C1, D1.
  destruct (dot_bytes 2 p s1 (a + 32) ltac:(auto) Hp') as (O2 & C2 & D2). fold s2 in O2, C2, D2.
  assert (Hin : forall x e, (e = a \/ e = a + 32) -> in_entry e x -> in_cluster v c x) by (intros x e He Hx; unfold in_entry, in_cluster in *; fold a; lia).
  assert (B3 : forall x, ~ in_cluster v c x -> ld8 (image s3) x = ld8 (image s) x).
  { intros x Hx. rewrite I3, O2, O1, B0; auto. all: intros He; apply Hx; eauto. }
  pose proof (fun t => cluster_dir s t c Hc Hg) as Hdir.
  assert (Hd0 : dir_at s0 (subdir c) [c]) by (by apply Hdir). destruct (subdir_slots s0 c Hc Hd0) as [Hcnt Haddr].
  pose proof (zeroed_slots s c Hc Hd0) as S0. fold s0 a in S0.
  replace (Z.to_nat epc) with (S (S (Z.to_nat (epc - 2)))) in S0 by lia.
  assert (Hd1 : dir_at s1 (subdir c) [c]) by (apply Hdir; intros x Hx; rewrite O1, B0; auto; intros He; apply Hx; eauto).
  assert (E0 : slot_addr (subdir c) [c] 0 = a) by (rewrite Haddr by lia; unfold a; lia).
  assert (E1 : slot_addr (subdir c) [c] 1 = a + 32) by (rewrite Haddr by lia; unfold a; lia).
  pose proof (slots_replace v Hv s0 s1 (subdir c) [c] [] _ (replicate (S (Z.to_nat (epc - 2))) (replicate 32 0)) Hd0 S0) as S1. change (zlen (@nil (list Z))) with 0 in S1. rewrite E0 in S1. specialize (S1 O1).
  pose proof (slots_replace v Hv s1 s3 (subdir c) [c] [slot_bytes s1 a] _ (zero_slots (Z.to_nat (epc - 2))) Hd1 S1) as S2.
  change (zlen [slot_bytes s1 a]) with 1 in S2. rewrite E1 in S2. specialize (S2 ltac:(intros x Hx; rewrite I3; by apply O2)).
  assert (Eb : slot_bytes s3 (a + 32) = slot_bytes s2 (a + 32)) by (unfold slot_bytes; by rewrite I3). rewrite Eb in S2. cbn [app] in S2.
  destruct (listing_dots _ _ (Z.to_nat (epc - 2)) D1 D2) as [L C]. split; [|done]. split; [split; [by apply Hdir|by rewrite S2]|].
  exists (slot_bytes s1 a), (slot_bytes s2 (a + 32)). split; [unfold FatWalk.entries; by rewrite S2|]. split; [done|]. split; [done|].
  assert (Ec : forall e, fat_impl_entry_get_cluster v s3 e = fat_impl_entry_get_cluster v s2 e) by (intros e; unfold fat_impl_entry_get_cluster; by rewrite I3).
  rewrite !Ec. split; [|done]. etrans; [|exact C1]. apply (entry_same v s1 s2 a). intros x Hx. apply O2. unfold in_entry in *. lia.
Qed.

(** ** Making a directory *)
Lemma others_of_cluster s s' c : valid v c -> (forall x, ~ in_cluster v c x -> ld8 (image s') x = ld8 (image s) x) ->
  others v (fun _ => False) [c] s s' /\ (forall x, valid v x -> fat_get v s' x = fat_get v s x).
Proof.
  intros Hc H. assert (G : forall x, valid v x -> fat_get v s' x = fat_get v s x).
  { intros x Hx. apply (fat_get_ext v Hv); [done|]. intros y Hy. apply H. intros Hi. by destruct (cluster_not_table v Hv c y Hc Hi). }
  split; [|done]. split; [auto|]. intros x _ Hn _. apply H, Hn, list_elem_of_singleton. done.
Qed.

Lemma in_slots_area s d cs k l x : dir_at s d cs -> 0 <= k -> l < slot_count d cs -> in_slots v d cs k l x -> dir_area v d cs x.
Proof. intros Hd Hk Hl (i & Hi & Hx). apply (slot_in_area v Hv s d cs i x Hd); [lia|done]. Qed.

(** The area of a directory and a cluster that is not its own. *)
Lemma area_not_cluster d cs c x : dir_area v d cs x -> valid v c -> (fixed d = false -> c ∉ cs) -> ~ in_cluster v c x.
Proof.
  unfold dir_area. intros Hx Hc Hn Hin. destruct (fixed d); [by destruct (cluster_not_table v Hv c x Hc Hin)|].
  destruct Hx as (c' & Hc' & Hv' & Hin'). rewrite (cluster_disjoint v Hv c' c x) in Hc' by done. by apply Hn.
Qed.

Lemma fresh_dir_keeps P s s' c p ecs : valid v c -> others v P ecs s s' -> Forall (valid v) ecs -> c ∉ ecs -> (forall x, in_cluster v c x -> ~ P x) ->
  fresh_dir s c p -> fresh_dir s' c p.
Proof.
  intros Hc Ho Hval Hn HP (Hcd & raw1 & raw2 & E & D1 & D2 & C1 & C2).
  assert (Ha : apart_from v (subdir c) [c] ecs) by (split; [done|]; intros _ x ->%list_elem_of_singleton; done).
  assert (Har : forall x, dir_area v (subdir c) [c] x -> in_cluster v c x) by (intros x (c' & ->%list_elem_of_singleton & _ & Hx); done).
  assert (Har' : forall x, in_cluster v c x -> dir_area v (subdir c) [c] x) by (intros x Hx; exists c; rewrite list_elem_of_singleton; done).
  destruct (others_clean v Hv P s s' (subdir c) [c] ecs Ho Ha ltac:(intros x Hx; apply HP; auto) Hcd) as [Hcd' E']. rewrite E in E'. split; [done|].
  assert (Hb : forall x, in_cluster v c x -> ld8 (image s') x = ld8 (image s) x) by (intros x Hx; apply (area_bytes v Hv P s s' (subdir c) [c] ecs); auto).
  pose proof (epc_eq v Hv) as [Ecb Hepc]. exists raw1, raw2. split; [done|]. split; [done|]. split; [done|]. split.
  - etrans; [|exact C1]. apply (entry_same v s s'). intros x Hx. apply Hb. unfold in_entry, in_cluster in *. lia.
  - etrans; [|exact C2]. apply (entry_same v s s'). intros x Hx. apply Hb. unfold in_entry, in_cluster in *. lia.
Qed.

(** What a new directory [c] under the name [name] amounts to. *)
Definition made_dir s s' d cs new (name : list Z) (c : Z) : Prop :=
  exists E1 e E2, entries s d cs = E1 ++ E2 /\ entries s' d (cs ++ new) = E1 ++ e :: E2 /\ named name e /\ rd (de_raw e) 11 = FAT_ATTR_DIRECTORY /\
    fe_cluster (found_at v s' d (cs ++ new) e) = c /\ valid v c /\ fat_get v s c = 0 /\ (c ∉ cs ++ new) /\
    fresh_dir s' c (if is_root d then 0 else fd_first d) /\ others v (in_slots v d (cs ++ new) (de_first e) (de_last e)) (c :: cs ++ new) s s'.

(** A failure: only free clusters and, when the directory was made longer, the directory have changed. *)
Definition not_made s s' d cs new : Prop :=
  entries s' d (cs ++ new) = entries s d cs /\ (forall x, valid v x -> x ∉ (cs ++ new) -> fat_get v s' x = fat_get v s x) /\
  exists ecs, Forall (fun c => valid v c /\ fat_get v s c = 0) ecs /\ others v (fun _ => False) (ecs ++ cs ++ new) s s'.

Lemma others_weaken P cs cs' s s' : cs ⊆ cs' -> others v P cs s s' -> others v P cs' s s'.
Proof. intros Hs [G B]. split; [intros x Hx Hn; apply G; auto|intros x H1 H2 H3; apply B; auto]. Qed.

(** The new cluster, zeroed and with its dot entries, leaves the parent as it is. *)
Lemma mkdir_cluster s d cs : clean_dir s d cs ->
  (fat_impl_alloc_cluster v s = (s, 0) /\ no_free v s) \/
  exists s1 s2 c, fat_impl_alloc_cluster v s = (s1, c) /\ fat_impl_init_dir_cluster v rtc_read s1 c d = (s2, true) /\ valid v c /\ fat_get v s c = 0 /\
    fat_get v s2 c = cluster_eoc v /\ fresh_dir s2 c (if is_root d then 0 else fd_first d) /\ others v (fun _ => False) [c] s s2 /\
    (fixed d = false -> c ∉ cs) /\ clean_dir s2 d cs /\ entries s2 d cs = entries s d cs.
Proof.
  intros Hcd. pose proof Hcd as [Hd _]. destruct (alloc_spec v Hv s) as [[-> Hn]|(s1 & c & -> & Hc & Hz & He & _ & Hs1)]; [by left|right].
  assert (Hp : link_ok v (if is_root d then 0 else fd_first d)).
  { destruct (is_root d) eqn:Er; [unfold link_ok, cluster_eoc; destruct (vol_type v); lia|]. unfold FatWalk.dir_at, dir_is_fixed_root in Hd. rewrite Er in Hd. cbn [andb] in Hd.
    apply (valid_link v Hv). by destruct (chain_head v s _ _ Hd). }
  set (d' := FatDir (if is_root d then 0 else fd_first d) (is_root d)).
  destruct (init_dir_spec s1 c d' Hc He Hp) as (s2 & Ei & Hf & Hb).
  assert (Ei' : fat_impl_init_dir_cluster v rtc_read s1 c d = (s2, true)).
  { rewrite <-Ei. unfold fat_impl_init_dir_cluster, d'. cbn [is_root fd_first]. by destruct (is_root d). }
  destruct (others_of_cluster s1 s2 c Hc Hb) as [Ho2 Hg2]. pose proof (free_apart v s d cs c Hd Hc Hz) as Hap.
  assert (Ho : others v (fun _ => False) [c] s s2).
  { apply (others_trans v _ [c] [c] s s1 s2); [done| |done]. destruct Hs1 as [G B]. split; [done|]. intros x H1 H2 _. by apply B. }
  destruct (others_clean v Hv (fun _ => False) s s2 d cs [c] Ho Hap ltac:(auto) Hcd) as [Hcd2 E2].
  exists s1, s2, c. split; [done|]. split; [done|]. split; [done|]. split; [done|]. split; [by rewrite Hg2|].
  split; [unfold d' in Hf; cbn [is_root fd_first] in Hf; by destruct (is_root d)|]. split; [done|]. split; [|done].
  intros Ef Hin. destruct Hap as [_ Hap]. apply (Hap Ef c Hin). by apply list_elem_of_singleton.
Qed.

Lemma mkdir_at_spec s d cs name : clean_dir s d cs -> name_ok name ->
  (exists e, List.find (answers name) (entries s d cs) = Some e /\ fat_mkdir_at v rtc_read s d name = (s, false)) \/
  (List.find (answers name) (entries s d cs) = None /\
   exists s' ok new, fat_mkdir_at v rtc_read s d name = (s', ok) /\ clean_dir s' d (cs ++ new) /\ Forall (fun c => valid v c /\ fat_get v s c = 0) new /\
     if (ok : bool) then exists c, made_dir s s' d cs new name c else not_made s s' d cs new).
Proof.
  intros Hcd Hn. pose proof Hcd as [Hd _]. unfold fat_mkdir_at. rewrite (find_entry_ok v Hv s d cs name Hd).
  destruct (List.find _ _) as [e|] eqn:Ef; [left; by exists e|right]. split; [done|]. cbn [fmap option_fmap option_map].
  destruct (mkdir_cluster s d cs Hcd) as [[-> Hnf]|(s1 & s2 & c & -> & E2 & Hc & Hz & He & Hf & Ho & Hncs & Hcd2 & En2)].
  { exists s, false, []. rewrite app_nil_r. cbn. split_and!; try done. unfold not_made. rewrite app_nil_r. split; [done|]. split; [done|]. by exists []. }
  assert ((c =? 0) = false) as -> by (destruct Hc; lia). rewrite E2. cbn [negb].
  destruct (create_entry_spec v Hv rtc_read s2 d cs name FAT_ATTR_DIRECTORY c Hcd2 Hn eq_refl ltac:(by apply (valid_link v Hv))) as (s3 & new & r & -> & Hcd3 & HF & Hr).
  rewrite list_relations.list.Forall_forall in HF.
  assert (Hcn : c ∉ (cs ++ new)).
  { rewrite elem_of_app. intros [Hin|Hin]; [|destruct (HF c Hin) as [_ E]; rewrite He in E; unfold cluster_eoc in E; destruct (vol_type v); lia].
    destruct (fixed d) eqn:Efx; [|by apply Hncs]. unfold FatWalk.dir_at in Hd. rewrite Efx in Hd. subst cs. by apply elem_of_nil in Hin. }
  assert (HF' : Forall (fun c => valid v c /\ fat_get v s c = 0) new).
  { apply list_relations.list.Forall_forall. intros x Hx. destruct (HF x Hx) as [Hvx Hgx]. split; [done|]. rewrite <-Hgx. symmetry. apply Ho; [done|].
    intros ->%list_elem_of_singleton. apply Hcn, elem_of_app. by right. }
  assert (Hvn : Forall (valid v) (cs ++ new)).
  { apply list_relations.list.Forall_app. split; [|apply list_relations.list.Forall_forall; intros x Hx; by apply HF].
    unfold FatWalk.dir_at in Hd. destruct (fixed d); [by subst cs|]. by apply (chain_valid v s cs (fd_first d)). }
  destruct r as [f|].
  - exists s3, true, new. split; [done|]. split; [done|]. split; [done|]. exists c. destruct Hr as (E1 & e & E3 & L1 & L2 & Hnm & Hat & Ef1 & Ef2 & Hk & Ho3).
    pose proof (entry_range v s3 d (cs ++ new) E1 e E3 Hcd3 L2) as Hrange. destruct Hcd3 as [Hd3 _].
    exists E1, e, E3. rewrite <-En2. split; [done|]. split; [done|]. split; [done|]. split; [done|]. split; [rewrite <-Ef2, Ef1; done|]. do 3 (split; [done|]). split.
    + apply (fresh_dir_keeps _ s2 s3 c _ (cs ++ new) Hc Ho3 Hvn Hcn); [|done]. intros x Hx Hin. apply (in_slots_area s3 _ _ _ _ _ Hd3) in Hin; [|lia|lia].
      by apply (area_not_cluster d (cs ++ new) c x Hin).
    + apply (others_trans v _ [c] (c :: cs ++ new) s s2 s3); [set_solver|by eapply others_mono; [|exact Ho]|]. eapply others_weaken; [|exact Ho3]. set_solver.
  - set (s4 := fat_impl_free_chain v s3 c). destruct Hr as (L & Ho3 & _). pose proof Ho3 as [G3 _].
    assert (Hch : chain v s3 c [c]) by (apply cluster_chain; [done|]; rewrite G3, He by done; apply cluster_eoc_ok).
    destruct (free_chain_spec v Hv s3 c [c] Hch) as (F1 & F2 & F3). fold s4 in F1, F2, F3.
    assert (Ho4 : others v (fun _ => False) [c] s3 s4) by (split; [done|intros x Hx _ _; by apply F3]).
    assert (Hap : apart_from v d (cs ++ new) [c]) by (split; [by constructor|]; intros _ x Hx ->%list_elem_of_singleton; done).
    destruct (others_clean v Hv (fun _ => False) s3 s4 d (cs ++ new) [c] Ho4 Hap ltac:(auto) Hcd3) as [Hcd4 L4].
    exists s4, false, new. split; [done|]. split; [done|]. split; [done|]. split; [by rewrite L4, L, En2|]. split.
    2:{ exists [c]. split; [by constructor|]. apply (others_trans v _ [c] (c :: cs ++ new) s s2 s4); [set_solver|done|].
        apply (others_trans v _ (cs ++ new) (c :: cs ++ new) s2 s3 s4); [set_solver|done|]. by apply (others_weaken _ [c]); [set_solver|]. }
    intros x Hx Hnx. destruct (decide (x = c)) as [->|Hne]; [rewrite F1 by (by apply list_elem_of_singleton); done|].
    assert (Hxc : x ∉ [c]) by (by intros ->%list_elem_of_singleton). rewrite F2, G3 by done. by apply Ho.
Qed.
End Dirs.

(** Making a directory refuses a name that is taken. Otherwise it adds one entry with
    that name to the parent, whose cluster was free and is a directory of its
    own with exactly the two dot entries, the first leading to itself and
    the second to the parent, by 0 when that is the root; everything else
    is unchanged. A failure leaves the entries of the parent and all
    clusters in use outside of it as they were. *)
Theorem fat_mkdir_correct {W} (v : fat_volume W) (rtc_read : W -> rtc_time * W) s d cs name :
  vol_ok v -> clean_dir v s d cs -> name_ok name ->
  (exists e, List.find (answers name) (entries v s d cs) = Some e /\ fat_mkdir_at v rtc_read s d name = (s, false)) \/
  (List.find (answers name) (entries v s d cs) = None /\
   exists s' ok new, fat_mkdir_at v rtc_read s d name = (s', ok) /\ clean_dir v s' d (cs ++ new) /\ Forall (fun c => valid v c /\ fat_get v s c = 0) new /\
     if (ok : bool) then exists c, made_dir v s s' d cs new name c else not_made v s s' d cs new).
Proof. intros Hv. by apply (mkdir_at_spec v Hv). Qed.

Lemma fat_mkdir_correct_witness : exists s' new c,
  fat_mkdir_at (ex_volume None) ex_rtc (ex_state (ex_boot 24 0)) (root_directory (ex_volume None)) ex_long = (s', true) /\
  made_dir (ex_volume None) (ex_state (ex_boot 24 0)) s' (root_directory (ex_volume None)) [] new ex_long c.
Proof.
  destruct (fat_mkdir_correct (ex_volume None) ex_rtc (ex_state (ex_boot 24 0)) (root_directory (ex_volume None)) [] ex_long
    (ex_volume_ok None) (ex_root_clean None) ltac:(unfold ex_long, name_ok; repeat constructor; lia)) as [(e & E & _)|(_ & s' & ok & new & Hm & _ & _ & Hok)].
  - assert (E' : List.find (answers ex_long) (entries (ex_volume None) (ex_state (ex_boot 24 0)) (root_directory (ex_volume None)) []) = None) by (vm_compute; reflexivity).
    rewrite E' in E. discriminate.
  - assert (En : snd (fat_mkdir_at (ex_volume None) ex_rtc (ex_state (ex_boot 24 0)) (root_directory (ex_volume None)) ex_long) = true) by (vm_compute; reflexivity).
    rewrite Hm in En. cbn in En. subst ok. destruct Hok as [c Hc]. exists s', new, c. split; [exact Hm|exact Hc].
Defined.
