(* ===== verification/FatReaddir.v ===== *)
(** Reading FAT directories ([fat_impl_read_dir_one] and [fat_impl_read_dir] of
    [kernel/fs/fat/fat_directory.c]): the names come in the order of the
    listing, and a call that stops early can be continued. *)
From S2P Require Import Prelude KString KStringSpec Fat FatSpec FatFileSpec FatName FatNameSpec FatDir FatListing FatWalk FatDirSpec.

Section Dirs.
Context {W : Type} (v : fat_volume W) (Hv : vol_ok v).
Implicit Types (s : fat_state W) (d : fat_dir) (cs : list Z).

Abbreviation fixed := (dir_is_fixed_root v).
Abbreviation dir_at := (dir_at v).
Abbreviation slot_count := (slot_count v).
Abbreviation slot_addr := (slot_addr v).

(** The name under which an entry is listed. *)
Definition display (e : dent) : list Z := match de_long e with Some l => l | None => c_str (entry_short_name (de_raw e)) end.
Definition is_dir (e : dent) : bool := rd (de_raw e) 11 &? FAT_ATTR_DIRECTORY.

(** The entries from index [k] on that are listed. *)
Definition shown (es : list dent) : list dent := List.filter (fun e => negb (is_dot_entry (de_raw e))) es.
Definition visible s d cs (k : Z) : list dent := shown (parse lfn_start k (slots_from v s d cs k)).

Lemma c_str_length l : (length (c_str l) <= length l)%nat.
Proof. induction l as [|c l IH]; cbn; [lia|]. destruct (c =? 0); cbn; lia. Qed.

Lemma before_space_length l : (length (before_space l) <= length l)%nat.
Proof. induction l as [|c l IH]; cbn; [lia|]. destruct (c =? 32); cbn; lia. Qed.

Lemma short_name_length raw : (length (entry_short_name raw) <= 12)%nat.
Proof.
  unfold entry_short_name. rewrite length_app, length_fmap. pose proof (before_space_length (take 8 raw)) as H1. pose proof (before_space_length (take 3 (drop 8 raw))) as H2.
  rewrite length_take in H1, H2. destruct (existsb _ _); cbn [length]; rewrite ?length_fmap; destruct (before_space (take 8 raw)); cbn [length] in *; lia.
Qed.

Lemma lfn_take_length st raw l : lfn_take st raw = Some l -> (length l <= 255)%nat.
Proof.
  unfold lfn_take. destruct (_ || _); [done|]. destruct (negb _); [done|]. destruct (_ || _) eqn:E; [done|]. apply orb_false_iff in E as [_ E]. intros [= <-].
  rewrite length_take. lia.
Qed.

Lemma display_length st i raw : strlen (display (de_of st i raw)) <= 255.
Proof.
  unfold display, de_of, strlen. cbn [de_long de_raw]. destruct (lfn_take st raw) as [l|] eqn:E; [apply lfn_take_length in E; lia|].
  pose proof (c_str_length (entry_short_name raw)). pose proof (short_name_length raw). lia.
Qed.

(** ** One name *)
Definition listed (e : dent) : dir_result := DirResult (de_last e + 1) (strlen (display e) + 1) (display e) (is_dir e).

Lemma read_scan s d cs k0 length : dir_at s d cs -> 256 <= length -> forall n k st, lfn_wf st -> 0 <= k -> k + Z.of_nat n = slot_count d cs ->
  let r := scan_slots (read_body s k0 length) (fun _ i => DirResult i 0 [] false) st k (addrs v d cs k) in
  match shown (parse st k (slots_from v s d cs k)) with
  | [] => exists i, r = DirResult i 0 [] false
  | e :: es => r = listed e /\ visible s d cs (de_last e + 1) = es /\ k <= de_last e < slot_count d cs /\ strlen (display e) <= 255
  end.
Proof.
  intros Hd Hlen. destruct (slot_count_range v Hv s d cs Hd) as (Hc & _). induction n as [|n IH]; intros k st Hw Hk Hn; cbv zeta.
  - assert (k = slot_count d cs) as -> by lia. unfold slots_from. rewrite addrs_end. cbn. by eexists.
  - unfold slots_from. rewrite addrs_cons by lia. cbn [scan_slots fmap list_fmap parse]. unfold read_body at 1 3. fold (zero_slot (slot_bytes s (slot_addr d cs k))).
    set (raw := slot_bytes s (slot_addr d cs k)). fold (slots_from v s d cs (k + 1)). rewrite Z.add_simpl_r, u32_small by lia.
    destruct (zero_slot raw) eqn:Ez; [cbn; by eexists|].
    assert (Hnext : match shown (parse (after1 st k raw) (k + 1) (slots_from v s d cs (k + 1))) with
      | [] => exists i, scan_slots (read_body s k0 length) (fun _ i => DirResult i 0 [] false) (after1 st k raw) (k + 1) (addrs v d cs (k + 1)) = DirResult i 0 [] false
      | e :: es => scan_slots (read_body s k0 length) (fun _ i => DirResult i 0 [] false) (after1 st k raw) (k + 1) (addrs v d cs (k + 1)) = listed e /\
          visible s d cs (de_last e + 1) = es /\ k <= de_last e < slot_count d cs /\ strlen (display e) <= 255 end).
    { specialize (IH (k + 1) (after1 st k raw) ltac:(auto with gaia) ltac:(lia) ltac:(lia)). cbv zeta in IH. destruct (shown _) as [|e es]; [done|].
      destruct IH as (H1 & H2 & H3 & H4). split_and!; try done; lia. }
    unfold after1 in Hnext at 1 2 3. unfold after1. destruct (entry_is_lfn raw) eqn:El.
    + assert (entry_is_usable raw = false) as -> by (unfold entry_is_usable; rewrite El; cbn; by rewrite andb_false_r). exact Hnext.
    + destruct (entry_is_usable raw) eqn:Eu; cbn [negb app orb]; [|exact Hnext]. unfold shown at 1. cbn [List.filter de_of de_raw].
      fold (shown (parse (lfn_reset st) (k + 1) (slots_from v s d cs (k + 1)))). destruct (is_dot_entry raw); cbn [negb]; [exact Hnext|].
      pose proof (display_length st k raw) as HL. change (match lfn_take st raw with Some l => l | None => c_str (entry_short_name raw) end) with (display (de_of st k raw)).
      replace (strlen (display (de_of st k raw)) + 1 >? length) with false by lia. change (de_last (de_of st k raw)) with k. split; [done|]. split; [|split; [lia|done]].
      unfold visible. f_equal. symmetry. apply parse_same; [by auto with gaia|]. apply (lfn_reset_any lfn_start st); auto with gaia.
Qed.

Definition readable d cs (k : Z) : bool := fixed d || (k <? slot_count d cs).

Lemma read_dir_one_ok s d cs k : dir_at s d cs -> 0 <= k <= slot_count d cs ->
  let r := fat_impl_read_dir_one v s d k (FAT_LFN_MAX + 1) in
  if readable d cs k then
    match visible s d cs k with
    | [] => exists i, r = DirResult i 0 [] false
    | e :: es => r = listed e /\ visible s d cs (de_last e + 1) = es /\ k <= de_last e < slot_count d cs /\ strlen (display e) <= 255
    end
  else r = DirResult k (-1) [] false /\ visible s d cs k = [].
Proof.
  intros Hd Hk. destruct (slot_count_range v Hv s d cs Hd) as (Hc & Hf & Hp). unfold fat_impl_read_dir_one. change (FAT_LFN_MAX + 1 =? 0) with false. cbv iota zeta. unfold readable.
  destruct (fixed d || (k <? slot_count d cs)) eqn:Er.
  - destruct (cursor_init_at v Hv s d cs k Hd ltac:(lia)) as (cur & -> & Hcur).
    { destruct (fixed d); [|left; cbn in Er; lia]. destruct (decide (k = slot_count d cs)); [by right|left; lia]. }
    rewrite (cursor_loop_scan v Hv s d cs _ _ Hd _ k cur lfn_start Hcur) by lia. cbn [default from_option id].
    apply (read_scan s d cs k (FAT_LFN_MAX + 1) Hd ltac:(unfold FAT_LFN_MAX; lia) (Z.to_nat (slot_count d cs - k)) k lfn_start lfn_wf_start); lia.
  - apply orb_false_iff in Er as [Ef Ek]. assert (k = slot_count d cs) as -> by lia. split; [|unfold visible, slots_from; by rewrite addrs_end].
    destruct (cursor_init v s d (slot_count d cs)) as [cur|] eqn:Ei; [|done]. exfalso. unfold cursor_init in Ei. rewrite Ef in Ei.
    unfold FatWalk.dir_at in Hd. rewrite Ef in Hd. destruct (chain_head v s _ _ Hd) as [Hval [rest E]]. rewrite (proj2 (valid_true v _) Hval) in Ei. cbn [negb] in Ei.
    pose proof (epc_eq v Hv) as [_ Hepc]. unfold FatWalk.slot_count in Ei. rewrite Ef in Ei. rewrite Z.div_mul in Ei by lia. unfold zlen in Ei. rewrite Nat2Z.id in Ei.
    rewrite (skip_end v Hv s d cs Hd) in Ei. done.
Qed.

(** ** Filling a buffer *)
Definition line (e : dent) : list Z := display e ++ (if is_dir e then [47] else []) ++ [0].
Definition text (es : list dent) : list Z := concat (line <$> es).

Lemma line_length e : zlen (line e) = strlen (display e) + 1 + (if is_dir e then 1 else 0).
Proof. unfold line, zlen, strlen. rewrite !length_app. destruct (is_dir e); cbn; lia. Qed.

Definition read_result (buffer : list Z) : Z := if zlen buffer =? 0 then -1 else i32 (zlen buffer).

(** The loop lists the entries [es1]; it stops at the end, or before an entry that
    does not fit, at an index from which the rest can be read. *)
Lemma read_dir_loop_ok s d cs length : dir_at s d cs -> forall fuel k buffer, 0 <= k <= slot_count d cs -> zlen buffer <= length -> length - zlen buffer < Z.of_nat fuel ->
  exists es1 es2 i r, visible s d cs k = es1 ++ es2 /\ read_dir_loop v fuel s d k length buffer = (i, r, buffer ++ text es1) /\
    match es2 with
    | [] => r = if (zlen (buffer ++ text es1) =? 0) && negb (readable d cs k) then -1 else i32 (zlen (buffer ++ text es1))
    | e :: _ => visible s d cs i = es2 /\ 0 <= i <= slot_count d cs /\ length < zlen (buffer ++ text es1) + zlen (line e) /\ r = read_result (buffer ++ text es1)
    end.
Proof.
  intros Hd. induction fuel as [|fuel IH]; intros k buffer Hk Hb Hf; [lia|]. cbn [read_dir_loop].
  pose proof (read_dir_one_ok s d cs k Hd Hk) as H1. cbv zeta in H1. destruct (readable d cs k) eqn:Er.
  - destruct (visible s d cs k) as [|e es] eqn:Ev.
    + destruct H1 as [i ->]. exists [], [], i, (i32 (zlen buffer)). unfold text. cbn [fmap list_fmap concat app dr_result dr_index]. rewrite app_nil_r, andb_false_r. split; [done|]. split; done.
    + destruct H1 as (-> & Hv2 & Hlast & Hlen). pose proof (line_length e) as Ll. assert (Hd0 : 0 <= strlen (display e)) by (unfold strlen; lia).
      assert (Hl1 : 1 <= zlen (line e)) by (destruct (is_dir e); lia).
      cbn [listed dr_result dr_index dr_name dr_is_dir]. replace (strlen (display e) + 1 <=? 0) with false by lia. rewrite <-Ll. rewrite Z.gtb_ltb. destruct (Z.ltb_spec (length - zlen buffer) (zlen (line e))) as [Hbig|Hfit].
      * exists [], (e :: es), k, (read_result buffer). unfold text. cbn [fmap list_fmap concat app]. rewrite app_nil_r. split; [done|]. split; [done|]. split; [done|]. split; [done|]. split; [lia|done].
      * fold (line e). assert (Zb : zlen (buffer ++ line e) = zlen buffer + zlen (line e)) by (unfold zlen; rewrite length_app; lia).
        destruct (IH (de_last e + 1) (buffer ++ line e) ltac:(lia) ltac:(lia) ltac:(lia)) as (es1 & es2 & i & r & E & -> & Hr). rewrite Hv2 in E.
        assert (Et : (buffer ++ line e) ++ text es1 = buffer ++ text (e :: es1)) by (unfold text; cbn [fmap list_fmap concat]; by rewrite app_assoc).
        rewrite Et in *. exists (e :: es1), es2, i, r. split; [by rewrite E|]. split; [done|]. destruct es2 as [|e2 es2]; [|done]. rewrite Hr.
        assert (Hpos : 1 <= zlen (buffer ++ text (e :: es1))) by (unfold text; cbn [fmap list_fmap concat]; unfold zlen in *; rewrite !length_app; lia).
        by replace (zlen (buffer ++ text (e :: es1)) =? 0) with false by lia.
  - destruct H1 as [-> Ev]. rewrite Ev. exists [], [], k, (if zlen buffer =? 0 then -1 else i32 (zlen buffer)). unfold text. cbn [fmap list_fmap concat app dr_result dr_index].
    rewrite app_nil_r. split; [done|]. split; [done|]. by rewrite andb_true_r.
Qed.

Lemma read_dir_ok s d cs k length : dir_at s d cs -> 0 <= k <= slot_count d cs -> 0 < length ->
  exists es1 es2 i r, visible s d cs k = es1 ++ es2 /\ fat_impl_read_dir v s d k length = (i, r, text es1) /\
    match es2 with
    | [] => r = if (zlen (text es1) =? 0) && negb (readable d cs k) then -1 else i32 (zlen (text es1))
    | e :: _ => visible s d cs i = es2 /\ 0 <= i <= slot_count d cs /\ length < zlen (text es1) + zlen (line e) /\ r = read_result (text es1)
    end.
Proof.
  intros Hd Hk Hl. unfold fat_impl_read_dir. replace (length =? 0) with false by lia.
  apply (read_dir_loop_ok s d cs length Hd (S (Z.to_nat length)) k []); [done|change (zlen (@nil Z)) with 0; lia|change (zlen (@nil Z)) with 0; lia].
Qed.
End Dirs.

(** Reading a directory from an index lists, in order, the names of the entries from there on except
    the dot entries, with a slash behind directories and a terminator
    behind each. A call stops at the end, or before an entry that does not fit,
    and then the index it leaves is one from which the next call lists
    exactly the rest. *)
Theorem fat_read_dir_lists {W} (v : fat_volume W) s d cs k length :
  vol_ok v -> dir_at v s d cs -> 0 <= k <= slot_count v d cs -> 0 < length ->
  exists es1 es2 i r, visible v s d cs k = es1 ++ es2 /\ fat_impl_read_dir v s d k length = (i, r, text es1) /\
    match es2 with
    | [] => r = if (zlen (text es1) =? 0) && negb (readable v d cs k) then -1 else i32 (zlen (text es1))
    | e :: _ => visible v s d cs i = es2 /\ 0 <= i <= slot_count v d cs /\ length < zlen (text es1) + zlen (line e) /\ r = read_result (text es1)
    end.
Proof. intros Hv. by apply (read_dir_ok v Hv). Qed.

(** Two files in the root directory of the example volume. *)
Definition ex_two : fat_state bmem :=
  let create s name := fst (fat_create_at (ex_volume None) ex_rtc s (root_directory (ex_volume None)) name) in
  create (create (ex_state (ex_boot 24 0)) ex_long) [97; 98].

Lemma fat_read_dir_lists_witness : exists i, fat_impl_read_dir (ex_volume None) ex_two (root_directory (ex_volume None)) 0 9 = (i, 8, ex_long ++ [0]) /\
  exists e, visible (ex_volume None) ex_two (root_directory (ex_volume None)) [] i = [e] /\ display e = [97; 98].
Proof.
  destruct (fat_read_dir_lists (ex_volume None) ex_two (root_directory (ex_volume None)) [] 0 9 (ex_volume_ok None) eq_refl ltac:(vm_compute; intuition congruence) ltac:(lia))
    as (es1 & es2 & i & r & Ev & Er & H).
  assert (E : fat_impl_read_dir (ex_volume None) ex_two (root_directory (ex_volume None)) 0 9 = (2, 8, ex_long ++ [0])) by (vm_compute; reflexivity).
  exists 2. split; [exact E|]. rewrite E in Er. injection Er as Ei _ Et. destruct es2 as [|e [|e' es2]].
  - rewrite app_nil_r in Ev. rewrite <-Ev in Et. assert (En : text (visible (ex_volume None) ex_two (root_directory (ex_volume None)) [] 0) <> ex_long ++ [0]) by (vm_compute; discriminate).
    exfalso. apply En. symmetry. exact Et.
  - destruct H as [H _]. rewrite Ei. exists e. split; [exact H|]. assert (D : display <$> visible (ex_volume None) ex_two (root_directory (ex_volume None)) [] 2 = [[97; 98]]) by (vm_compute; reflexivity).
    rewrite Ei, H in D. by injection D.
  - destruct H as [H _]. assert (L : length (visible (ex_volume None) ex_two (root_directory (ex_volume None)) [] 2) = 1%nat) by (vm_compute; reflexivity). rewrite Ei, H in L. discriminate.
Defined.

(** A subdirectory of one cluster, all of whose 16 slots are used. *)
Definition ex_full : fat_state bmem :=
  let dir := FatDir 2 false in
  foldl (fun s c => fst (fat_create_at (ex_volume None) ex_rtc s dir [c])) (fst (fat_mkdir_at (ex_volume None) ex_rtc (ex_state (ex_boot 24 0)) (root_directory (ex_volume None)) [100])) (seqZ 97 14).

