(* ===== verification/FatUse.v ===== *)
(** Files in FAT directories: a file created under a name, written and looked up
    again has the bytes that were written, and operations on a directory and
    on the files in it do not disturb each other. *)
From S2P Require Import Prelude KString KStringSpec Fat FatSpec FatFileSpec FatName FatNameSpec FatDir FatListing FatWalk FatDirSpec FatMkdir FatReaddir.

Section Dirs.
Context {W : Type} (v : fat_volume W) (Hv : vol_ok v) (rtc_read : W -> rtc_time * W).
Implicit Types (s : fat_state W) (d : fat_dir) (cs : list Z).

Abbreviation fixed := (dir_is_fixed_root v).
Abbreviation dir_at := (dir_at v).
Abbreviation slot_count := (slot_count v).
Abbreviation slot_addr := (slot_addr v).
Abbreviation slots := (slots v).
Abbreviation clean_dir := (clean_dir v).
Abbreviation entries := (entries v).

(** A slot of a directory can hold the entry of a file with clusters elsewhere. *)
Lemma slot_entry_ok s d cs k ecs : dir_at s d cs -> 0 <= k < slot_count d cs -> apart_from v d cs ecs -> entry_ok v s (slot_addr d cs k) ecs.
Proof.
  intros Hd Hk [Hval Hap]. set (a := slot_addr d cs k).
  assert (Hin : forall x, in_entry a x -> dir_area v d cs x) by (intros x; by apply (slot_in_area v Hv s)).
  destruct (area_apart v Hv d cs a) as [_ H1]; [apply Hin; unfold in_entry; lia|]. destruct (area_apart v Hv d cs (a + 31)) as [_ H2]; [apply Hin; unfold in_entry; lia|].
  split; [lia|]. split; [lia|]. intros x Hx. apply Hin in Hx. split; [by destruct (area_apart v Hv d cs x Hx)|]. intros c Hc Hcx.
  unfold dir_area in Hx. unfold FatWalk.dir_at in Hd. destruct (fixed d); [by destruct (cluster_not_table v Hv c x Hc Hcx)|].
  destruct Hx as (c' & Hc' & Hv' & Hcx'). rewrite (cluster_disjoint v Hv c c' x) by done. split; [by apply (chain_used v s (fd_first d) cs)|by apply Hap].
Qed.

(** An entry without clusters and with size 0 is an empty file. *)
Lemma empty_file s d cs e : dir_at s d cs -> 0 <= de_last e < slot_count d cs -> fe_cluster (found_at v s d cs e) = 0 -> fe_size (found_at v s d cs e) = 0 ->
  file_at v s (slot_addr d cs (de_last e)) [] [].
Proof.
  intros Hd Hk Hc Hz. cbn in Hc, Hz. split.
  - apply slot_entry_ok; [done|done|]. split; [constructor|]. by intros _ c _ ?%elem_of_nil.
  - rewrite Hz. lia.
  - rewrite Hz. change (zlen (@nil Z)) with 0. lia.
  - by left.
  - by rewrite Hz.
Qed.

(** The 32 bytes of an entry are those of its last slot. *)
Lemma entry_raw s d cs E1 e E2 : clean_dir s d cs -> entries s d cs = E1 ++ e :: E2 -> slot_bytes s (slot_addr d cs (de_last e)) = de_raw e.
Proof.
  intros Hcd E. pose proof (entry_range v s d cs E1 e E2 Hcd E) as Hr. destruct Hcd as [Hd Hcl]. destruct (listing_touch _ _ _ _ Hcl E) as (A & B & Es & HA & _).
  apply (inj Some). rewrite <-(slots_lookup v s d cs) by lia. rewrite Es, <-HA. unfold zlen. rewrite Nat2Z.id. by apply list_lookup_middle.
Qed.

(** A change to a file whose entry lies in the directory, metadata included,
    keeps the listing but for the metadata. *)
Lemma file_change_listing s s' d cs E1 e E2 ecs : clean_dir s d cs -> entries s d cs = E1 ++ e :: E2 ->
  others v (meta (slot_addr d cs (de_last e))) ecs s s' -> apart_from v d cs ecs ->
  clean_dir s' d cs /\ exists raw, entries s' d cs = E1 ++ retouch e raw :: E2 /\ take 13 raw = take 13 (de_raw e) /\ raw = slot_bytes s' (slot_addr d cs (de_last e)).
Proof.
  intros Hcd E Ho Hap. pose proof (entry_range v s d cs E1 e E2 Hcd E) as Hr. pose proof (entry_raw s d cs E1 e E2 Hcd E) as Hraw. destruct Hcd as [Hd Hcl]. set (a := slot_addr d cs (de_last e)) in *.
  destruct (listing_touch _ _ _ _ Hcl E) as (A & B & Es & HA & Ht).
  assert (Hd' : dir_at s' d cs).
  { unfold FatWalk.dir_at in *. destruct (fixed d) eqn:Ef; [done|]. pose proof (chain_valid v s cs _ Hd) as Hval. rewrite list_relations.list.Forall_forall in Hval.
    apply (chain_ext v Hv s); [|done]. intros c Hc. apply Ho; [by apply Hval|]. by apply Hap. }
  assert (Hb : forall k x, 0 <= k < slot_count d cs -> in_entry (slot_addr d cs k) x -> ~ meta a x -> ld8 (image s') x = ld8 (image s) x).
  { intros k x Hk Hx Hm. apply (area_bytes v Hv _ s s' d cs ecs x Ho Hap); [|done]. by apply (slot_in_area v Hv s d cs k). }
  assert (Es' : slots s' d cs = A ++ slot_bytes s' a :: B).
  { apply list_eq_same_length with (n := Z.to_nat (slot_count d cs)); [rewrite <-(slots_length v s d cs), Es, !length_app; done|apply slots_length|].
    intros i x y Hi Hx Hy. rewrite <-(Nat2Z.id i), slots_lookup in Hx by lia. injection Hx as <-. destruct (decide (Z.of_nat i = de_last e)) as [Ei|Hne].
    - rewrite Ei. fold a. assert (i = length A) as -> by (unfold zlen in HA; lia). rewrite list_lookup_middle in Hy by done. by injection Hy as <-.
    - assert (Hy' : slots s d cs !! i = Some y).
      { rewrite Es. unfold zlen in HA. destruct (decide (i < length A)%nat); [rewrite lookup_app_l in * by done; done|].
        rewrite lookup_app_r in * by lia. destruct (i - length A)%nat eqn:Ed; [lia|done]. }
      rewrite <-(Nat2Z.id i), slots_lookup in Hy' by lia. injection Hy' as <-. apply mem_bytes_ext. intros z Hz. apply (Hb (Z.of_nat i)); [lia|done|].
      intros Hm. apply Hne. apply (slot_disjoint v Hv s d cs (Z.of_nat i) (de_last e) z Hd); [lia|lia|done|]. fold a. unfold meta, in_entry in *. lia. }
  assert (H13 : take 13 (slot_bytes s' a) = take 13 (de_raw e)).
  { rewrite <-Hraw. assert (T : forall m, take 13 (mem_bytes m a 32) = mem_bytes m a 13) by reflexivity. unfold slot_bytes. rewrite !T. apply mem_bytes_ext. intros x Hx.
    apply (Hb (de_last e)); [lia|fold a; unfold in_entry; lia|unfold meta; lia]. }
  destruct (Ht _ H13) as [HL HC]. split; [split; [done|by rewrite Es']|]. exists (slot_bytes s' a). split; [unfold FatWalk.entries; by rewrite Es'|]. done.
Qed.

Lemma attributes_raw s d cs E1 e E2 : clean_dir s d cs -> entries s d cs = E1 ++ e :: E2 -> attributes s (Some (slot_addr d cs (de_last e))) = rd (de_raw e) 11.
Proof. intros Hcd E. unfold attributes. rewrite <-(entry_raw s d cs E1 e E2 Hcd E). by rewrite slot_bytes_rd by lia. Qed.

Lemma answers_retouch name e raw : take 13 raw = take 13 (de_raw e) -> answers name (retouch e raw) = answers name e.
Proof. intros H. destruct (same_head (de_raw e) raw H) as (_ & _ & _ & _ & E & _). unfold answers, retouch. cbn [de_long de_raw]. by rewrite E. Qed.

(** Created, written and looked up. *)
Lemma create_write_spec s d cs name s1 f buf : clean_dir s d cs -> ascii_name name -> zlen buf <= UINT32_MAX -> fat_create_at v rtc_read s d name = (s1, Some f) ->
  exists s2 k cs2 fcs, fat_vfs_write v rtc_read s1 (Some (fe_raw f)) 0 buf = (s2, k, k) /\ (k = zlen buf \/ no_free v s2) /\ clean_dir s2 d cs2 /\ 0 <= k <= zlen buf /\
    exists f2, fat_impl_find_entry v s2 d name = Some f2 /\ fe_raw f2 = fe_raw f /\ fe_size f2 = k /\ file_at v s2 (fe_raw f2) fcs (take (Z.to_nat k) buf).
Proof.
  intros Hcd Hn Hbuf Hcr. destruct (ascii_ok name Hn) as (Hok & _ & _).
  destruct (create_at_spec v Hv rtc_read s d cs name Hcd Hok) as [(e & _ & E)|(Hnone & s1' & new & r & E & Hcd1 & HF & Hr)]; rewrite Hcr in E; [done|].
  injection E as <- <-. destruct Hr as (E1 & e & E2 & L & L1 & Hnm & Hat & Ef & Ef' & Hk & Ho). pose proof Hcd1 as [Hd1 _].
  set (a := slot_addr d (cs ++ new) (de_last e)). assert (Ea : fe_raw f = a) by (by rewrite Ef).
  pose proof (empty_file s1 d (cs ++ new) e Hd1 Hk ltac:(by rewrite <-Ef', Ef) ltac:(by rewrite <-Ef', Ef)) as Hfile. fold a in Hfile.
  assert (Hro : (attributes s1 (Some a) &? FAT_ATTR_READ_ONLY) = false) by (unfold a; rewrite (attributes_raw s1 d (cs ++ new) E1 e E2 Hcd1 L1), Hat; done).
  destruct (vfs_write_spec v Hv rtc_read s1 a [] [] 0 buf Hfile ltac:(unfold UINT32_MAX; lia) Hro) as (s2 & k & fcs & c' & Ew & Hkk & Hf2 & [HFf Hof] & Hc').
  rewrite Ea, Ew. cbn [app] in *. assert (Hfree : apart_from v d (cs ++ new) fcs).
  { rewrite list_relations.list.Forall_forall in HFf. split; [apply list_relations.list.Forall_forall; intros c Hc; by apply HFf|]. intros Ef0 c Hc Hin. destruct (HFf c Hin) as [_ Hz].
    unfold FatWalk.dir_at in Hd1. rewrite Ef0 in Hd1. by apply (chain_used v s1 (fd_first d) (cs ++ new) c Hd1). }
  destruct (file_change_listing s1 s2 d (cs ++ new) E1 e E2 fcs Hcd1 L1 Hof Hfree) as (Hcd2 & raw & L2 & H13 & Eraw).
  assert (Ec : c' = take (Z.to_nat k) buf /\ (k = zlen buf \/ no_free v s2)).
  { change (zlen (@nil Z)) with 0 in Hc'. unfold zeros in Hc'. change (replicate (Z.to_nat (0 - 0)) 0) with (@nil Z) in Hc'. destruct Hc' as [[-> Hk2]|(-> & Hno & j & -> & Hj)].
    - split; [unfold copy_to; rewrite take_nil, drop_nil; cbn [app]; by rewrite app_nil_r|]. destruct Hk2 as [->|?]; [left|by right]. lia.
    - assert (j = 0) as -> by lia. split; [done|by right]. }
  destruct Ec as [-> Hfull]. exists s2, k, (cs ++ new), fcs. rewrite Z.add_0_l. split; [done|]. split; [done|]. split; [done|]. split; [done|].
  pose proof Hcd2 as [Hd2 _]. rewrite (find_entry_ok v Hv s2 d (cs ++ new) name Hd2), L2.
  rewrite (find_insert _ E1 (retouch e raw) E2); [|by rewrite <-L|rewrite answers_retouch by done; by apply named_answers].
  eexists. split; [done|]. cbn [found_at retouch de_last fe_raw fe_size]. fold a. split; [done|]. split; [|done].
  pose proof (content_length v Hv s2 a fcs _ Hf2) as Hl. rewrite <-Hl. unfold zlen in *. rewrite length_take. lia.
Qed.
End Dirs.

(** A file that is created under a name and written is found again under that name, at the
    same entry, with exactly the bytes that were written as its content and
    their number as its size; all of them are written unless the volume is full. *)
Theorem fat_create_write_find {W} (v : fat_volume W) (rtc_read : W -> rtc_time * W) s d cs name s1 f buf :
  vol_ok v -> clean_dir v s d cs -> ascii_name name -> zlen buf <= UINT32_MAX -> fat_create_at v rtc_read s d name = (s1, Some f) ->
  exists s2 k cs2 fcs, fat_vfs_write v rtc_read s1 (Some (fe_raw f)) 0 buf = (s2, k, k) /\ (k = zlen buf \/ no_free v s2) /\ clean_dir v s2 d cs2 /\ 0 <= k <= zlen buf /\
    exists f2, fat_impl_find_entry v s2 d name = Some f2 /\ fe_raw f2 = fe_raw f /\ fe_size f2 = k /\ file_at v s2 (fe_raw f2) fcs (take (Z.to_nat k) buf).
Proof. intros Hv. by apply (create_write_spec v Hv). Qed.

Lemma fat_create_write_find_witness : exists s1 s2 f f2,
  fat_create_at (ex_volume None) ex_rtc (ex_state (ex_boot 24 0)) (root_directory (ex_volume None)) ex_long = (s1, Some f) /\
  fat_vfs_write (ex_volume None) ex_rtc s1 (Some (fe_raw f)) 0 [1; 2; 3] = (s2, 3, 3) /\
  fat_impl_find_entry (ex_volume None) s2 (root_directory (ex_volume None)) ex_long = Some f2 /\
  exists fcs, file_at (ex_volume None) s2 (fe_raw f2) fcs [1; 2; 3].
Proof.
  destruct (fat_create_at (ex_volume None) ex_rtc (ex_state (ex_boot 24 0)) (root_directory (ex_volume None)) ex_long) as [s1 r] eqn:Ec.
  assert (Ek : snd (let '(s1, r) := fat_create_at (ex_volume None) ex_rtc (ex_state (ex_boot 24 0)) (root_directory (ex_volume None)) ex_long in
    match r with Some f => fat_vfs_write (ex_volume None) ex_rtc s1 (Some (fe_raw f)) 0 [1; 2; 3] | None => (s1, 0, 0) end) = 3) by (vm_compute; reflexivity).
  rewrite Ec in Ek. destruct r as [f|]; [|discriminate Ek].
  destruct (fat_create_write_find (ex_volume None) ex_rtc (ex_state (ex_boot 24 0)) (root_directory (ex_volume None)) [] ex_long s1 f [1; 2; 3]
    (ex_volume_ok None) (ex_root_clean None) ltac:(unfold ex_long, ascii_name; repeat constructor; lia) ltac:(vm_compute; discriminate) Ec)
    as (s2 & k & cs2 & fcs & Ew & _ & _ & _ & f2 & Hf & _ & _ & Hfile).
  cbv iota beta in Ek. rewrite Ew in Ek. cbn [snd] in Ek. subst k. exists s1, s2, f, f2. split; [exact eq_refl|]. split; [exact Ew|]. split; [exact Hf|]. exists fcs. exact Hfile.
Defined.

(** ** Aliases

    [LongFi~2.txt], [Longfilename.txt], and a name that needs as many slots as the latter. *)
Definition ex_tilde : list Z := [76; 111; 110; 103; 70; 105; 126; 50; 46; 116; 120; 116].
Definition ex_other : list Z := [76; 111; 110; 103; 102; 105; 108; 101; 110; 97; 109; 101; 46; 116; 120; 116].
Definition ex_filler : list Z := [65; 32; 110; 97; 109; 101; 32; 116; 111; 32; 98; 101; 32; 114; 101; 109; 111; 118; 101; 100].

(** In the root directory of the example volume: create the filler and [ex_tilde], remove the filler. *)
Definition ex_before : fat_state bmem :=
  let v := ex_volume None in
  let d := root_directory v in
  let s := fst (fat_create_at v ex_rtc (ex_state (ex_boot 24 0)) d ex_filler) in
  let s := fst (fat_create_at v ex_rtc s d ex_tilde) in
  fst (fat_remove_at v s d ex_filler false).

(** The alias of a new file can be the long name of an existing one: [short_name_alias] only
    compares short names. With [LongFi~2.txt] in a directory,
    [Longfilename.txt] gets the alias [LONGFI~2.TXT]; when its entry comes to lie in front, lookup of
    [LongFi~2.txt] finds the new file, and removing [LongFi~2.txt] removes the new file and keeps the old. *)
Theorem fat_alias_shadows :
  let v := ex_volume None in
  let d := root_directory v in
  let s1 := fst (fat_create_at v ex_rtc ex_before d ex_other) in
  let s2 := fst (fat_remove_at v s1 d ex_tilde false) in
  exists old new, fe_raw old <> fe_raw new /\
    fat_impl_find_entry v ex_before d ex_tilde = Some old /\ fat_impl_find_entry v ex_before d ex_other = None /\
    snd (fat_create_at v ex_rtc ex_before d ex_other) = Some new /\ fat_impl_find_entry v s1 d ex_tilde = Some new /\
    snd (fat_remove_at v s1 d ex_tilde false) = true /\ fat_impl_find_entry v s2 d ex_other = None /\ fat_impl_find_entry v s2 d ex_tilde = Some old.
Proof.
  exists (FoundEntry 0 0 32 3 4 25216), (FoundEntry 0 0 32 0 2 25152). split; [discriminate|]. split_and!; vm_compute; reflexivity.
Qed.
