(* ===== verification/FatPath.v ===== *)
(** FAT paths, [kernel/fs/fat/fat.c]: splitting a path into components, walking
    to a directory, and the operations on paths; and the directory operations
    of the file system switch, [fat_vfs.c].

    A path is the list of its bytes before the terminator. *)
From S2P Require Import Prelude KString Fat FatName FatDir.

Definition FAT_PATH_MAX : Z := 260.

(** Of [vfs.h]: the limit of a name, a status and a directory entry as the
    file system switch has them; the type of a node is a directory or a file. *)
Definition VFS_NAME_MAX : Z := 255.
Record vfs_stat := VfsStat { vs_inode : Z; vs_size : Z; vs_blocks : Z; vs_block_size : Z; vs_mode : Z; vs_is_dir : bool; vs_attributes : Z }.
Record vfs_dirent := VfsDirent { vd_inode : Z; vd_is_dir : bool; vd_name : list Z }.

Definition is_separator (c : Z) : bool := (c =? 47) || (c =? 92).

(** ** Splitting *)

(** [while (pos < FAT_PATH_MAX && is_separator(path[pos])) pos++;] *)
Fixpoint skip_separators (fuel : nat) (path : list Z) (pos : Z) : Z :=
  match fuel with
  | O => pos
  | S fuel => if (pos <? FAT_PATH_MAX) && is_separator (rd path pos) then skip_separators fuel path (pos + 1) else pos
  end.

(** [while (pos < FAT_PATH_MAX && path[pos] && !is_separator(path[pos])) pos++;] *)
Fixpoint skip_component (fuel : nat) (path : list Z) (pos : Z) : Z :=
  match fuel with
  | O => pos
  | S fuel => if (pos <? FAT_PATH_MAX) && negb (rd path pos =? 0) && negb (is_separator (rd path pos)) then skip_component fuel path (pos + 1) else pos
  end.

Definition path_fuel : nat := Z.to_nat FAT_PATH_MAX.

(** The components so far, in order. *)
Fixpoint split_loop (fuel : nat) (path : list Z) (pos : Z) (parts : list (list Z)) : option (list (list Z)) :=
  match fuel with
  | O => None
  | S fuel =>
      let pos := skip_separators path_fuel path pos in
      if pos >=? FAT_PATH_MAX then None else
      if rd path pos =? 0 then Some parts else
      let start := pos in
      let pos := skip_component path_fuel path pos in
      if pos >=? FAT_PATH_MAX then None else
      let length := pos - start in
      if (length =? 1) && (rd path start =? 46) then split_loop fuel path pos parts else
      if (length =? 2) && (rd path start =? 46) && (rd path (start + 1) =? 46) then
        split_loop fuel path pos (if zlen parts >? 0 then removelast parts else parts)
      else
      if (length =? 0) || (length >? FAT_LFN_MAX) || (zlen parts >=? 16) then None
      else split_loop fuel path pos (parts ++ [bytes_at path start length])
  end.

(** Every pass that goes on has passed a component. *)
Definition split_path (path : list Z) : option (list (list Z)) := split_loop (S path_fuel) path 0 [].

(** [while (length > 0 && is_separator(path[length - 1])) length--;], and the start of the last component. *)
Fixpoint strip_separators (path : list Z) (length : nat) : nat :=
  match length with S n => if is_separator (rd path (Z.of_nat n)) then strip_separators path n else length | O => O end.
Fixpoint component_start (path : list Z) (start : nat) : nat :=
  match start with S n => if negb (is_separator (rd path (Z.of_nat n))) then component_start path n else start | O => O end.

Definition path_ends_with_dot_component (path : list Z) : bool :=
  if zlen path >=? FAT_PATH_MAX then true else
  let length := strip_separators path (length path) in
  let start := component_start path length in
  let component_length := (length - start)%nat in
  ((component_length =? 1)%nat && (rd path (Z.of_nat start) =? 46)) ||
  ((component_length =? 2)%nat && (rd path (Z.of_nat start) =? 46) && (rd path (Z.of_nat start + 1) =? 46)).

Section Paths.
Context {W : Type} (v : fat_volume W).
Implicit Types (s : fat_state W) (d : fat_dir).

(** ** Walking *)
Definition enter s d (component : list Z) : option fat_dir :=
  match fat_impl_find_entry v s d component with
  | None => None
  | Some found =>
      if negb (fe_attr found &? FAT_ATTR_DIRECTORY) then None else
      if fe_cluster found =? 0 then Some (root_directory v) else
      if cluster_is_valid v (fe_cluster found) then Some (FatDir (fe_cluster found) false) else None
  end.

Fixpoint walk_loop s d (parts : list (list Z)) : option fat_dir :=
  match parts with
  | [] => Some d
  | component :: parts => match enter s d component with None => None | Some d => walk_loop s d parts end
  end.

(** Only the first [count] parts are walked. *)
Definition walk_directories s (parts : list (list Z)) (count : nat) : option fat_dir := walk_loop s (root_directory v) (take count parts).

Definition resolve_parent s (path : list Z) : option (fat_dir * list Z) :=
  match split_path path with
  | None => None
  | Some parts =>
      if zlen parts =? 0 then None else
      let last := (length parts - 1)%nat in
      match walk_directories s parts last with
      | None => None
      | Some parent => Some (parent, default [] (parts !! last))
      end
  end.

(** ** Operations on paths *)
Record fat_stat_t := FatStat { st_cluster : Z; st_size : Z; st_attr : Z; st_is_dir : bool }.

Definition fat_stat s (path : list Z) : option fat_stat_t :=
  if match split_path path with Some parts => zlen parts =? 0 | None => false end
  then Some (FatStat (root_cluster v) 0 FAT_ATTR_DIRECTORY true) else
  match resolve_parent s path with
  | None => None
  | Some (parent, leaf) =>
      match fat_impl_find_entry v s parent leaf with
      | None => None
      | Some found => Some (FatStat (fe_cluster found) (fe_size found) (fe_attr found) (fe_attr found &? FAT_ATTR_DIRECTORY))
      end
  end.

Definition fat_open s (path : list Z) : option fat_file :=
  match resolve_parent s path with
  | None => None
  | Some (parent, leaf) =>
      match fat_impl_find_entry v s parent leaf with
      | None => None
      | Some found =>
          if fe_attr found &? FAT_ATTR_DIRECTORY then None else
          if negb (fe_size found =? 0) && negb (cluster_is_valid v (fe_cluster found)) then None
          else Some (fat_file_from_entry v s (fe_raw found))
      end
  end.

Definition fat_rmdir s (path : list Z) : fat_state W * bool :=
  if path_ends_with_dot_component path then (s, false) else
  match resolve_parent s path with None => (s, false) | Some (parent, name) => fat_remove_at v s parent name true end.

Definition fat_unlink s (path : list Z) : fat_state W * bool :=
  match resolve_parent s path with None => (s, false) | Some (parent, name) => fat_remove_at v s parent name false end.

(** [None] when the path does not lead to a directory. *)
Definition fat_read_dir_one s (path : list Z) (index length : Z) : option dir_result :=
  match split_path path with
  | None => None
  | Some parts =>
      match walk_directories s parts (List.length parts) with
      | None => None
      | Some dir => Some (fat_impl_read_dir_one v s dir index length)
      end
  end.

Definition fat_read_dir s (path : list Z) (index length : Z) : option (Z * Z * list Z) :=
  match split_path path with
  | None => None
  | Some parts =>
      match walk_directories s parts (List.length parts) with
      | None => None
      | Some dir => Some (fat_impl_read_dir v s dir index length)
      end
  end.

Definition fat_read_root_dir s (index length : Z) : option (Z * Z * list Z) := fat_read_dir s [47] index length.

Variable rtc_read : W -> rtc_time * W.

Definition fat_create s (path : list Z) : fat_state W * option fat_file :=
  match resolve_parent s path with
  | None => (s, None)
  | Some (parent, name) =>
      let '(s, r) := fat_create_at v rtc_read s parent name in
      match r with None => (s, None) | Some entry => (s, Some (fat_file_from_entry v s (fe_raw entry))) end
  end.

Definition fat_mkdir s (path : list Z) : fat_state W * bool :=
  match resolve_parent s path with None => (s, false) | Some (parent, name) => fat_mkdir_at v rtc_read s parent name end.

(** ** The directory operations of [fat_vfs.c]

    An inode is its directory entry, [None] for the root. *)
Definition entry_number (entry : option Z) : Z := match entry with Some e => e + 2 | None => 1 end.

Definition directory s (inode : option Z) : fat_dir :=
  match inode with None => root_directory v | Some e => FatDir (fat_impl_entry_get_cluster v s e) false end.

(** The type of an inode is fixed when it is made, from the attributes of its entry. *)
Definition getattr s (inode : option Z) (is_dir : bool) : vfs_stat :=
  let attr := attributes s inode in
  let size := entry_size s inode in
  let mode := if attr &? FAT_ATTR_READ_ONLY then 0x16D else 0x1FF in
  let mode := Z.lor mode (if is_dir then 0x4000 else 0x8000) in
  VfsStat (entry_number inode) size ((size + 511) / 512) (cluster_bytes v) mode is_dir attr.

Definition fat_vfs_mkdir s (inode : option Z) (name : list Z) : fat_state W * bool := fat_mkdir_at v rtc_read s (directory s inode) name.
Definition fat_vfs_unlink s (inode : option Z) (name : list Z) : fat_state W * bool := fat_remove_at v s (directory s inode) name false.
Definition fat_vfs_rmdir s (inode : option Z) (name : list Z) : fat_state W * bool := fat_remove_at v s (directory s inode) name true.

(** The new index, the result, and the entry that is stored when it is positive. *)
Definition iterate s (inode : option Z) (index : Z) : Z * Z * option vfs_dirent :=
  let parent := directory s inode in
  let r := fat_impl_read_dir_one v s parent index (VFS_NAME_MAX + 1) in
  if dr_result r <=? 0 then (dr_index r, dr_result r, None) else
  match fat_impl_find_entry v s parent (dr_name r) with
  | None => (dr_index r, -1, None)
  | Some entry => (dr_index r, 1, Some (VfsDirent (entry_number (Some (fe_raw entry))) (dr_is_dir r) (dr_name r)))
  end.
End Paths.
