(* ===== verification/FatPathSpec.v ===== *)
(** FAT paths: [split_path] of [kernel/fs/fat/fat.c] agrees with a reference that
    first cuts a path into words and then resolves dots. *)
From S2P Require Import Prelude KString Fat FatName FatDir FatPath.

Implicit Types (path l w : list Z) (parts ws : list (list Z)).

(** ** The reference *)
Definition flush_word w : list (list Z) := match w with [] => [] | _ => [w] end.

(** The words of a path: its longest stretches without separators. *)
Fixpoint words_from w l : list (list Z) :=
  match l with
  | [] => flush_word w
  | c :: l => if is_separator c then flush_word w ++ words_from [] l else words_from (w ++ [c]) l
  end.
Definition words path : list (list Z) := words_from [] path.

(** One dot stays, two dots lead up one component, and at the root to the root. *)
Fixpoint normalise parts ws : option (list (list Z)) :=
  match ws with
  | [] => Some parts
  | w :: ws =>
      if bool_decide (w = [46]) then normalise parts ws else
      if bool_decide (w = [46; 46]) then normalise (removelast parts) ws else
      if (zlen w >? FAT_LFN_MAX) || (zlen parts >=? 16) then None else normalise (parts ++ [w]) ws
  end.

(** ** Scanning *)
Lemma rd_app_0 l1 l2 : rd (l1 ++ l2) (zlen l1) = rd l2 0.
Proof. rewrite <-(rd_app_r l1 l2 0) by lia. f_equal. lia. Qed.

Definition seps l : Prop := Forall (fun c => is_separator c = true) l.
Definition plain l : Prop := Forall (fun c => is_separator c = false /\ c <> 0) l.
(** What stops a word. *)
Definition stops l : Prop := match l with [] => True | c :: _ => is_separator c = true end.
Definition starts_word l : Prop := match l with [] => True | c :: _ => is_separator c = false end.

Lemma split_seps l : exists l1 l2, l = l1 ++ l2 /\ seps l1 /\ starts_word l2.
Proof.
  induction l as [|c l (l1 & l2 & -> & H1 & H2)]; [by exists [], []; split; [|split; [constructor|]]|].
  destruct (is_separator c) eqn:E; [exists (c :: l1), l2; split; [done|split; [by constructor|done]]|].
  exists [], (c :: l1 ++ l2). split; [done|]. split; [constructor|done].
Qed.

Lemma split_word l : Forall (fun c => c <> 0) l -> exists w l2, l = w ++ l2 /\ plain w /\ stops l2.
Proof.
  induction 1 as [|c l Hc _ (w & l2 & -> & H1 & H2)]; [by exists [], []; split; [|split; [constructor|]]|].
  destruct (is_separator c) eqn:E; [exists [], (c :: w ++ l2); split; [done|split; [constructor|done]]|].
  exists (c :: w), l2. split; [done|]. split; [by constructor|done].
Qed.

Lemma skip_separators_ok l1 l2 : seps l1 -> starts_word l2 -> forall fuel pre, (length l1 <= fuel)%nat -> zlen (pre ++ l1 ++ l2) < FAT_PATH_MAX ->
  skip_separators fuel (pre ++ l1 ++ l2) (zlen pre) = zlen (pre ++ l1).
Proof.
  intros H1 H2. induction H1 as [|c l1 Hc H1 IH]; intros fuel pre Hf Hl.
  - rewrite app_nil_r. destruct fuel as [|fuel]; [done|]. cbn [skip_separators app]. rewrite rd_app_0.
    assert (is_separator (rd l2 0) = false) as -> by (by destruct l2). by rewrite andb_false_r.
  - destruct fuel as [|fuel]; [cbn in Hf; lia|]. cbn [skip_separators]. rewrite rd_app_0. cbn [app]. change (rd (c :: _) 0) with c. rewrite Hc.
    assert ((zlen pre <? FAT_PATH_MAX) = true) as -> by (unfold zlen in *; rewrite length_app in Hl; lia). cbn [andb].
    replace (pre ++ c :: l1 ++ l2) with ((pre ++ [c]) ++ l1 ++ l2) in * by (by rewrite <-app_assoc).
    replace (zlen pre + 1) with (zlen (pre ++ [c])) by (unfold zlen; rewrite length_app; cbn; lia).
    rewrite IH; [by rewrite <-app_assoc|cbn in Hf; lia|by rewrite <-app_assoc].
Qed.

Lemma skip_component_ok w l2 : plain w -> stops l2 -> forall fuel pre, (length w <= fuel)%nat -> zlen (pre ++ w ++ l2) < FAT_PATH_MAX ->
  skip_component fuel (pre ++ w ++ l2) (zlen pre) = zlen (pre ++ w).
Proof.
  intros H1 H2. induction H1 as [|c w [Hc Hz] H1 IH]; intros fuel pre Hf Hl.
  - rewrite app_nil_r. destruct fuel as [|fuel]; [done|]. cbn [skip_component app]. rewrite rd_app_0.
    assert (negb (rd l2 0 =? 0) && negb (is_separator (rd l2 0)) = false) as E.
    { destruct l2 as [|c l2]; [done|]. change (rd (c :: l2) 0) with c. cbn in H2. rewrite H2. by rewrite andb_false_r. }
    by rewrite <-andb_assoc, E, andb_false_r.
  - destruct fuel as [|fuel]; [cbn in Hf; lia|]. cbn [skip_component]. rewrite rd_app_0. cbn [app]. change (rd (c :: _) 0) with c. rewrite Hc.
    assert ((zlen pre <? FAT_PATH_MAX) = true) as -> by (unfold zlen in *; rewrite length_app in Hl; lia).
    assert ((c =? 0) = false) as -> by lia. cbn [andb negb].
    replace (pre ++ c :: w ++ l2) with ((pre ++ [c]) ++ w ++ l2) in * by (by rewrite <-app_assoc).
    replace (zlen pre + 1) with (zlen (pre ++ [c])) by (unfold zlen; rewrite length_app; cbn; lia).
    rewrite IH; [by rewrite <-app_assoc|cbn in Hf; lia|by rewrite <-app_assoc].
Qed.

(** ** Words *)
Lemma words_seps l1 l2 : seps l1 -> words_from [] (l1 ++ l2) = words_from [] l2.
Proof. induction 1 as [|c l1 Hc _ IH]; [done|]. cbn [words_from app]. by rewrite Hc. Qed.

Lemma words_word w l2 : plain w -> stops l2 -> forall w0, words_from w0 (w ++ l2) = flush_word (w0 ++ w) ++ words_from [] l2.
Proof.
  intros H1 H2. induction H1 as [|c w [Hc _] _ IH]; intros w0.
  - rewrite app_nil_r. destruct l2 as [|c l2]; cbn [app words_from flush_word]; [by rewrite app_nil_r|]. cbn in H2. by rewrite H2.
  - cbn [app words_from]. rewrite Hc, IH. by rewrite <-app_assoc.
Qed.

(** ** Splitting *)
Lemma split_loop_ok : forall fuel pre l parts, Forall (fun c => c <> 0) l -> (length l < fuel)%nat -> zlen (pre ++ l) < FAT_PATH_MAX ->
  split_loop fuel (pre ++ l) (zlen pre) parts = normalise parts (words_from [] l).
Proof.
  assert (Hpf : path_fuel = 260%nat) by reflexivity. induction fuel as [|fuel IH]; intros pre l parts Hz Hf Hl; [lia|].
  destruct (split_seps l) as (l1 & l2 & -> & H1 & H2). apply list_relations.list.Forall_app in Hz as [_ Hz].
  assert (Hb : (length pre + length l1 + length l2 < 260)%nat) by (unfold zlen, FAT_PATH_MAX in Hl; rewrite !length_app in Hl; lia).
  cbn [split_loop]. rewrite skip_separators_ok, words_seps by (done || lia).
  destruct (Z.geb_spec (zlen (pre ++ l1)) FAT_PATH_MAX); [unfold zlen, FAT_PATH_MAX in *; rewrite !length_app in *; lia|].
  rewrite app_assoc, rd_app_0. destruct (split_word l2 Hz) as (w & l3 & -> & H3 & H4). destruct w as [|c w].
  { cbn [app] in *. destruct l3 as [|c l3]; [done|]. cbn in H2, H4. congruence. }
  change (rd ((c :: w) ++ l3) 0) with c. assert (Hc : c <> 0) by (apply list_relations.list.Forall_cons in H3 as [[_ ?] _]; done).
  replace (c =? 0) with false by lia.
  rewrite skip_component_ok; [|done|done|rewrite length_app in Hb; lia|by rewrite <-app_assoc]. rewrite words_word by done. cbn [app flush_word].
  change (c :: w ++ l3) with ((c :: w) ++ l3) in *. set (x := c :: w) in *.
  rewrite length_app in Hb. destruct (Z.geb_spec (zlen ((pre ++ l1) ++ x)) FAT_PATH_MAX); [unfold zlen, FAT_PATH_MAX in *; rewrite !length_app in *; lia|].
  replace (zlen ((pre ++ l1) ++ x) - zlen (pre ++ l1)) with (zlen x) by (unfold zlen; rewrite !length_app; lia).
  rewrite rd_app_r by lia.
  replace (bytes_at ((pre ++ l1) ++ x ++ l3) (zlen (pre ++ l1)) (zlen x)) with x.
  2:{ unfold bytes_at, zlen. by rewrite !Nat2Z.id, drop_app_length, take_app_length. }
  replace ((pre ++ l1) ++ x ++ l3) with (((pre ++ l1) ++ x) ++ l3) by (by rewrite <-app_assoc).
  assert (Hr : forall parts, split_loop fuel (((pre ++ l1) ++ x) ++ l3) (zlen ((pre ++ l1) ++ x)) parts = normalise parts (words_from [] l3)).
  { intros. apply IH; [by apply list_relations.list.Forall_app in Hz as [_ ?]|rewrite !length_app in Hf; unfold x in Hf; cbn in Hf; lia|rewrite <-!app_assoc in *; done]. }
  rewrite !Hr. cbn [normalise]. unfold x. destruct w as [|c1 w].
  - change (zlen [c]) with 1. cbn [Z.eqb Pos.eqb andb orb]. destruct (Z.eqb_spec c 46) as [->|Hne].
    + rewrite bool_decide_true by done. done.
    + rewrite !(bool_decide_false) by congruence. done.
  - assert (Hlen : zlen (c :: c1 :: w) = 2 + zlen w) by (unfold zlen; cbn; lia). change (rd ((c :: c1 :: w) ++ l3) 1) with c1.
    pose proof (Nat2Z.is_nonneg (length w)). fold (zlen w) in *. replace (zlen (c :: c1 :: w) =? 1) with false by lia. cbn [andb]. rewrite (bool_decide_false (_ = [46])) by congruence.
    replace (zlen (c :: c1 :: w) =? 0) with false by lia. cbn [orb].
    destruct ((zlen (c :: c1 :: w) =? 2) && (c =? 46) && (c1 =? 46)) eqn:E.
    + zbool. assert (w = []) as -> by (apply length_zero_iff_nil; unfold zlen in *; lia). subst. rewrite bool_decide_true by done.
      destruct (zlen parts >? 0) eqn:Ep; [done|]. assert (parts = []) as -> by (apply length_zero_iff_nil; unfold zlen in *; lia). done.
    + rewrite bool_decide_false; [done|]. intros [= -> -> ->]. done.
Qed.

(** A result needs a terminator within the first [FAT_PATH_MAX] bytes. *)
Lemma skip_separators_le fuel path pos : pos <= skip_separators fuel path pos.
Proof. revert pos. induction fuel as [|fuel IH]; intros pos; cbn; [lia|]. destruct (_ && _); [|lia]. specialize (IH (pos + 1)). lia. Qed.
Lemma skip_component_le fuel path pos : pos <= skip_component fuel path pos.
Proof. revert pos. induction fuel as [|fuel IH]; intros pos; cbn; [lia|]. destruct (_ && _); [|lia]. specialize (IH (pos + 1)). lia. Qed.

Lemma split_loop_end path : forall fuel pos parts r, 0 <= pos -> split_loop fuel path pos parts = Some r -> exists q, 0 <= q < FAT_PATH_MAX /\ rd path q = 0.
Proof.
  induction fuel as [|fuel IH]; intros pos parts r Hp; cbn [split_loop]; [done|]. pose proof (skip_separators_le path_fuel path pos).
  set (p := skip_separators path_fuel path pos) in *. destruct (Z.geb_spec p FAT_PATH_MAX); [done|].
  destruct (Z.eqb_spec (rd path p) 0); [intros _; exists p; lia|]. pose proof (skip_component_le path_fuel path p).
  destruct (_ >=? FAT_PATH_MAX); [done|]. destruct (_ && _); [apply IH; lia|]. destruct (_ && _); [apply IH; lia|]. destruct (_ || _); [done|apply IH; lia].
Qed.

Lemma split_path_ok path : Forall (fun c => c <> 0) path -> split_path path = if zlen path <? FAT_PATH_MAX then normalise [] (words path) else None.
Proof.
  intros Hz. unfold split_path. destruct (Z.ltb_spec (zlen path) FAT_PATH_MAX) as [Hl|Hl].
  - apply (split_loop_ok (S path_fuel) [] path []); [done|unfold zlen, FAT_PATH_MAX in Hl; unfold path_fuel, FAT_PATH_MAX; lia|done].
  - destruct (split_loop _ _ _ _) as [r|] eqn:E; [|done]. apply split_loop_end in E as (q & Hq & E); [|lia]. exfalso.
    destruct (lookup_lt_is_Some_2 path (Z.to_nat q)) as [c Hc]; [unfold zlen in Hl; lia|]. unfold rd in E. rewrite Hc in E. cbn in E.
    apply list_elem_of_lookup_2 in Hc. rewrite list_relations.list.Forall_forall in Hz. by apply (Hz c).
Qed.

(** ** The last component *)
Lemma words_trailing s : seps s -> forall l w, words_from w (l ++ s) = words_from w l.
Proof.
  intros Hs. induction l as [|c l IH]; intros w; cbn [app words_from]; [|destruct (is_separator c); by rewrite IH].
  destruct Hs as [|c s Hc Hs]; [done|]. cbn [words_from]. rewrite Hc, <-(app_nil_r s), (words_seps s [] Hs). cbn. by rewrite app_nil_r.
Qed.

Lemma words_sep l c l2 : is_separator c = true -> forall w, words_from w (l ++ c :: l2) = words_from w l ++ words_from [] l2.
Proof. intros Hc. induction l as [|a l IH]; intros w; cbn [app words_from]; [by rewrite Hc|]. destruct (is_separator a); rewrite IH; [by rewrite app_assoc|done]. Qed.

Lemma strip_separators_ok l : forall s, exists l', l = l' ++ drop (length l') l /\ strip_separators (l ++ s) (length l) = length l' /\ words l = words l' /\ (l' = [] \/ exists l0 c, l' = l0 ++ [c] /\ is_separator c = false).
Proof.
  induction l as [|c l IH] using rev_ind; intros s; [by exists []; split; [|split; [|split; [|left]]]|]. rewrite length_app, Nat.add_1_r. cbn [strip_separators].
  assert (E : rd ((l ++ [c]) ++ s) (Z.of_nat (length l)) = c) by (rewrite <-app_assoc; apply (rd_app_0 l ([c] ++ s))). rewrite E.
  destruct (is_separator c) eqn:Ec.
  - destruct (IH ([c] ++ s)) as (l' & E1 & E2 & E3 & E4). rewrite <-app_assoc. exists l'. split; [|split; [done|split; [|done]]].
    + rewrite E1 at 1. rewrite drop_app_le; [by rewrite app_assoc|]. rewrite E1, length_app. lia.
    + unfold words in *. rewrite <-E3. apply words_trailing. by constructor.
  - exists (l ++ [c]). rewrite drop_all, app_nil_r, length_app. cbn [length]. split; [done|]. split; [lia|]. split; [done|]. right. by exists l, c.
Qed.

Definition ends_word l : Prop := l = [] \/ exists l0 c, l = l0 ++ [c] /\ is_separator c = true.

Lemma words_last l1 w : ends_word l1 -> plain w -> words (l1 ++ w) = words l1 ++ flush_word w.
Proof.
  intros H Hw. assert (E : words_from [] w = flush_word w) by (rewrite <-(app_nil_r w), (words_word w [] Hw I []); cbn; by rewrite !app_nil_r).
  unfold words. destruct H as [->|(l0 & c & -> & Hc)]; [done|]. rewrite <-app_assoc. cbn [app]. rewrite !words_sep by done. rewrite E. cbn. by rewrite app_nil_r.
Qed.

Lemma component_start_ok l : Forall (fun c => c <> 0) l -> forall s, exists l1 w, l = l1 ++ w /\ plain w /\ component_start (l ++ s) (length l) = length l1 /\ ends_word l1.
Proof.
  induction l as [|c l IH] using rev_ind; intros Hz s; [by exists [], []; split; [|split; [constructor|split; [|left]]]|].
  apply list_relations.list.Forall_app in Hz as [Hz Hc]. apply list_relations.list.Forall_cons in Hc as [Hc _]. rewrite length_app, Nat.add_1_r. cbn [component_start].
  assert (E : rd ((l ++ [c]) ++ s) (Z.of_nat (length l)) = c) by (rewrite <-app_assoc; apply (rd_app_0 l ([c] ++ s))). rewrite E.
  destruct (is_separator c) eqn:Ec; cbn [negb].
  - exists (l ++ [c]), []. rewrite app_nil_r, length_app. cbn [length]. split; [done|]. split; [constructor|]. split; [lia|]. right. by exists l, c.
  - destruct (IH Hz ([c] ++ s)) as (l1 & w & E1 & Hw & E2 & E3). rewrite <-app_assoc. exists l1, (w ++ [c]). split; [by rewrite E1, <-app_assoc|].
    split; [apply list_relations.list.Forall_app; split; [done|by constructor]|]. done.
Qed.

Definition is_dots w : bool := bool_decide (w = [46]) || bool_decide (w = [46; 46]).

Lemma ends_with_dot_ok path : Forall (fun c => c <> 0) path -> zlen path < FAT_PATH_MAX ->
  path_ends_with_dot_component path = match list.last (words path) with Some w => is_dots w | None => false end.
Proof.
  intros Hz Hl. unfold path_ends_with_dot_component. destruct (Z.geb_spec (zlen path) FAT_PATH_MAX); [lia|].
  destruct (strip_separators_ok path []) as (l & E & Es & Ew & Hend). rewrite app_nil_r in Es. rewrite Es, Ew. set (s := drop (length l) path) in *. clearbody s. subst path.
  apply list_relations.list.Forall_app in Hz as [Hz _]. destruct (component_start_ok l Hz s) as (l1 & w & -> & Hw & Ec & Hl1). rewrite Ec, length_app, words_last by done.
  replace (length l1 + length w - length l1)%nat with (length w) by lia. rewrite <-app_assoc.
  change (Z.of_nat (length l1)) with (zlen l1). rewrite rd_app_0, rd_app_r by lia. destruct w as [|c w].
  { rewrite app_nil_r in *. cbn [length Nat.eqb andb orb flush_word]. destruct Hl1 as [->|(l0 & c & -> & Hc)]; [done|].
    destruct Hend as [Hend|(l0' & c' & Hend & Hc')]; [by destruct l0|]. apply app_inj_tail in Hend as [_ ->]. congruence. }
  cbn [flush_word]. rewrite list.last_snoc. change (rd ((c :: w) ++ s) 0) with c. unfold is_dots. destruct w as [|c1 [|c2 w]].
  - cbn [length Nat.eqb andb]. rewrite orb_false_r. rewrite (bool_decide_false ([c] = [46; 46])) by congruence. rewrite orb_false_r. destruct (Z.eqb_spec c 46) as [->|]; [by rewrite bool_decide_true|by rewrite bool_decide_false by congruence].
  - cbn [length Nat.eqb andb orb]. change (rd ([c; c1] ++ s) 1) with c1. rewrite (bool_decide_false (_ = [46])) by congruence. cbn [orb].
    destruct (Z.eqb_spec c 46) as [->|]; [|by rewrite bool_decide_false by congruence]. destruct (Z.eqb_spec c1 46) as [->|]; [by rewrite bool_decide_true|by rewrite bool_decide_false by congruence].
  - cbn [length Nat.eqb andb orb]. by rewrite !bool_decide_false by congruence.
Qed.

(** C35: a path is cut into its longest stretches without a slash or backslash, in which one dot
    is skipped and two dots remove the component before, if there is one.
    Splitting fails exactly for a path of 260 bytes or more, and when a component of more than
    255 bytes or a seventeenth component has to be stored. The removal of a
    directory refuses exactly the paths whose last stretch is one or two dots. *)
Theorem fat_split_path_normalises path : Forall (fun c => c <> 0) path ->
  split_path path = (if zlen path <? FAT_PATH_MAX then normalise [] (words path) else None) /\
  path_ends_with_dot_component path = (if zlen path <? FAT_PATH_MAX then match list.last (words path) with Some w => is_dots w | None => false end else true).
Proof.
  intros Hz. split; [by apply split_path_ok|]. destruct (Z.ltb_spec (zlen path) FAT_PATH_MAX); [by apply ends_with_dot_ok|].
  unfold path_ends_with_dot_component. by destruct (Z.geb_spec (zlen path) FAT_PATH_MAX); [|lia].
Qed.

(** [/ab//./c\../d/] *)
Definition ex_path : list Z := [47; 97; 98; 47; 47; 46; 47; 99; 92; 46; 46; 47; 100; 47].

Lemma fat_split_path_normalises_witness : split_path ex_path = Some [[97; 98]; [100]] /\ path_ends_with_dot_component ex_path = false.
Proof.
  assert (Hz : Forall (fun c => c <> 0) ex_path) by (unfold ex_path; repeat constructor; lia).
  destruct (fat_split_path_normalises ex_path Hz) as [E1 E2]. rewrite E1, E2. split; vm_compute; reflexivity.
Defined.
