(* ===== verification/FatTree.v ===== *)
(** A FAT volume as a tree of named files and directories: the abstract tree, what
    it means for a volume to hold it, and that a change in one directory is
    a change at one place of the tree. *)
From S2P Require Import Prelude KString KStringSpec Fat FatSpec FatFileSpec FatName FatNameSpec FatDir FatListing FatWalk FatDirSpec FatMkdir FatReaddir FatUse FatPath.

(** ** Trees *)

(** What a directory says of an entry: its long and short name and its attributes. *)
Record key := Key { k_long : option (list Z); k_short : list Z; k_attr : Z }.

(** A dot entry stands for a directory above it, which is not part of it. *)
Inductive node :=
  | NDot
  | NFile (content : list Z)
  | NDir (children : list (key * node)).

Definition k_answers (name : list Z) (k : key) : bool :=
  match k_long k with Some l => strcasecmp l name =? 0 | None => false end || (strcasecmp (k_short k) name =? 0).
Definition k_dir (k : key) : bool := k_attr k &? FAT_ATTR_DIRECTORY.

(** The first child that answers to a name. *)
Definition tfind (name : list Z) (ch : list (key * node)) : option (key * node) := List.find (fun kt => k_answers name kt.1) ch.

(** The children of the directory at a path. *)
Fixpoint twalk (ch : list (key * node)) (parts : list (list Z)) : option (list (key * node)) :=
  match parts with
  | [] => Some ch
  | p :: parts => match tfind p ch with Some (_, NDir sub) => twalk sub parts | _ => None end
  end.

(** The tree in which the directory at a path has other children. *)
Fixpoint on_first (P : key -> bool) (f : node -> node) (ch : list (key * node)) : list (key * node) :=
  match ch with [] => [] | (k, t) :: ch => if P k then (k, f t) :: ch else (k, t) :: on_first P f ch end.
Fixpoint tset (parts : list (list Z)) (sub' ch : list (key * node)) : list (key * node) :=
  match parts with
  | [] => sub'
  | p :: parts => on_first (k_answers p) (fun t => match t with NDir sub => NDir (tset parts sub' sub) | _ => t end) ch
  end.

(** Induction that reaches the children. *)
Fixpoint node_rect_list (P : node -> Prop) (Hdot : P NDot) (Hfile : forall c, P (NFile c))
    (Hdir : forall ch, Forall (fun kt => P kt.2) ch -> P (NDir ch)) (t : node) : P t :=
  match t with
  | NDot => Hdot
  | NFile c => Hfile c
  | NDir ch => Hdir ch ((fix go ch : Forall (fun kt : key * node => P kt.2) ch :=
      match ch with [] => Forall_nil_2 _ | kt :: ch => Forall_cons_2 _ _ _ (node_rect_list P Hdot Hfile Hdir kt.2) (go ch) end) ch)
  end.

Definition key_of (e : dent) : key := Key (de_long e) (c_str (entry_short_name (de_raw e))) (rd (de_raw e) 11).

Lemma answers_key name e : answers name e = k_answers name (key_of e).
Proof. reflexivity. Qed.

(** An entry and its node agree. *)
Definition child_ok (e : dent) (kt : key * node) : Prop :=
  kt.1 = key_of e /\
  match kt.2 with
  | NDot => is_dot_entry (de_raw e) = true /\ de_long e = None /\ (k_short kt.1 = [46] \/ k_short kt.1 = [46; 46])
  | NFile _ => is_dot_entry (de_raw e) = false /\ k_dir kt.1 = false
  | NDir _ => is_dot_entry (de_raw e) = false /\ k_dir kt.1 = true
  end.

(** A component of a path: not empty, not one or two dots, and here of ASCII characters. *)
Definition part_ok (p : list Z) : Prop := ascii_name p /\ p <> [] /\ p <> [46] /\ p <> [46; 46].

Section Tree.
Context {W : Type} (v : fat_volume W) (Hv : vol_ok v).
Implicit Types (s : fat_state W) (d : fat_dir) (cs fp : list Z) (ch : list (key * node)) (fps : list (list Z)).

Abbreviation fixed := (dir_is_fixed_root v).
Abbreviation dir_at := (dir_at v).
Abbreviation slot_count := (slot_count v).
Abbreviation slot_addr := (slot_addr v).
Abbreviation slots := (slots v).
Abbreviation clean_dir := (clean_dir v).
Abbreviation entries := (entries v).
Abbreviation ecluster := (fat_impl_entry_get_cluster v).
Abbreviation get := (fat_get v).

(** ** Volumes that hold a tree

    The entry at [a] has the node [t] and owns the clusters [fp]: a file its own,
    a directory its own and those of everything below it. *)
Fixpoint tree_at s (a : Z) (t : node) fp {struct t} : Prop :=
  match t with
  | NDot => fp = []
  | NFile c => file_at v s a fp c
  | NDir ch =>
      exists cs fps, fp = cs ++ concat fps /\ clean_dir s (FatDir (ecluster s a) false) cs /\
        (fix go es ch fps {struct ch} : Prop :=
           match es, ch, fps with
           | [], [], [] => True
           | e :: es, (k, t) :: ch, fp :: fps =>
               (child_ok e (k, t) /\ tree_at s (slot_addr (FatDir (ecluster s a) false) cs (de_last e)) t fp) /\ go es ch fps
           | _, _, _ => False
           end) (entries s (FatDir (ecluster s a) false) cs) ch fps
  end.

Definition child s d cs (e : dent) (kt : key * node) fp : Prop := child_ok e kt /\ tree_at s (slot_addr d cs (de_last e)) kt.2 fp.

(** A directory with the children [ch], which own the clusters [fps]. *)
Definition dir_tree s d cs ch fps : Prop := clean_dir s d cs /\ Forall3 (child s d cs) (entries s d cs) ch fps.

Lemma tree_dir s a ch fp : tree_at s a (NDir ch) fp <-> exists cs fps, fp = cs ++ concat fps /\ dir_tree s (FatDir (ecluster s a) false) cs ch fps.
Proof.
  cbn [tree_at]. unfold dir_tree. split; intros (cs & fps & E & Hc & H); exists cs, fps; (split; [done|]); (split; [done|]); clear E; revert ch fps H;
    induction (entries s (FatDir (ecluster s a) false) cs) as [|e es IH]; intros [|[k t] ch] [|f fps]; try done.
  1: constructor.
  1: intros [H1 H2]; constructor; [done|by apply IH].
  all: inversion 1; subst; try done. split; [done|by apply IH].
Qed.

(** The clusters a tree owns are in use. *)
Lemma Forall3_elem {A B C} (R : A -> B -> C -> Prop) l k m z : Forall3 R l k m -> z ∈ m -> exists x y, x ∈ l /\ y ∈ k /\ R x y z.
Proof.
  induction 1 as [|x y z' l k m H _ IH]; [by intros ?%elem_of_nil|]. intros [->|Hz]%elem_of_cons.
  - exists x, y. split; [left|]. split; [left|done].
  - destruct (IH Hz) as (x' & y' & Hx & Hy & HR). exists x', y'. split; [by right|]. split; [by right|done].
Qed.

Lemma dir_used s d cs c : dir_at s d cs -> c ∈ cs -> valid v c /\ get s c <> 0.
Proof.
  unfold FatWalk.dir_at. destruct (fixed d); [by intros -> ?%elem_of_nil|]. intros Hch Hc. pose proof (chain_valid v s cs _ Hch) as Hval. rewrite list_relations.list.Forall_forall in Hval.
  split; [by apply Hval|by apply (chain_used v s (fd_first d) cs)].
Qed.

Lemma elem_of_concat {A} (ll : list (list A)) x : x ∈ concat ll <-> exists l, l ∈ ll /\ x ∈ l.
Proof.
  induction ll as [|l ll IH]; cbn; [split; [by intros ?%elem_of_nil|by intros (l & ?%elem_of_nil & _)]|]. rewrite elem_of_app, IH. split.
  - intros [Hx|(l' & Hl & Hx)]; [exists l; split; [left|done]|exists l'; split; [by right|done]].
  - intros (l' & [->|Hl]%elem_of_cons & Hx); [by left|right; by exists l'].
Qed.

Lemma tree_used s t : forall a fp c, tree_at s a t fp -> c ∈ fp -> valid v c /\ get s c <> 0.
Proof.
  induction t as [|co|ch IH] using node_rect_list; intros a fp c H Hc.
  - cbn in H. subst. by apply elem_of_nil in Hc.
  - destruct H as [_ _ _ [[-> _]|Hch] _]; [by apply elem_of_nil in Hc|]. pose proof (chain_valid v s fp _ Hch) as Hval. rewrite list_relations.list.Forall_forall in Hval.
    split; [by apply Hval|by eapply (chain_used v s)].
  - apply tree_dir in H as (cs & fps & -> & [Hd _] & H3). apply elem_of_app in Hc as [Hc|Hc]; [by apply (dir_used s (FatDir (ecluster s a) false) cs)|].
    apply elem_of_concat in Hc as (f & Hf & Hc). destruct (Forall3_elem _ _ _ _ _ H3 Hf) as (e & kt & _ & Hkt & _ & Ht).
    rewrite list_relations.list.Forall_forall in IH. by apply (IH kt Hkt _ f c Ht).
Qed.

Lemma dir_tree_used s d cs ch fps c : dir_tree s d cs ch fps -> c ∈ cs ++ concat fps -> valid v c /\ get s c <> 0.
Proof.
  intros [[Hd _] H3] Hc. apply elem_of_app in Hc as [Hc|Hc]; [by apply (dir_used s d cs)|].
  apply elem_of_concat in Hc as (f & Hf & Hc). destruct (Forall3_elem _ _ _ _ _ H3 Hf) as (e & kt & _ & Hkt & _ & Ht). by eapply tree_used.
Qed.

(** ** Frames *)

(** A cluster is the same before and after. *)
Definition same_cluster s s' (c : Z) : Prop := get s' c = get s c /\ forall x, in_cluster v c x -> ld8 (image s') x = ld8 (image s) x.
(** The entry at [a] is, and it lies in clusters in use, or in none. *)
Definition same_entry s s' (a : Z) : Prop :=
  (forall x, in_entry a x -> ld8 (image s') x = ld8 (image s) x) /\ (forall c x, valid v c -> in_cluster v c x -> in_entry a x -> get s' c <> 0).

Lemma file_frame s s' a fp c : file_at v s a fp c -> (forall x, x ∈ fp -> same_cluster s s' x) -> same_entry s s' a -> file_at v s' a fp c.
Proof.
  intros [He Hs Hf Hc Hco] Hfp [Hb Hu]. destruct (entry_same v s s' a Hb) as [E1 E2]. split.
  - destruct He as (H1 & H2 & H3). split; [done|]. split; [done|]. intros x Hx. destruct (H3 x Hx) as [H4 H5]. split; [done|].
    intros y Hy Hin. split; [by apply (Hu y x)|]. by apply H5.
  - by rewrite E2.
  - by rewrite E2.
  - rewrite E1. destruct Hc as [?|Hch]; [by left|right]. apply (chain_ext v Hv s); [|done]. intros x Hx. by apply Hfp.
  - rewrite E2, Hco. f_equal. symmetry. apply raw_ext. intros x Hx. apply cdata_ext. by apply Hfp.
Qed.

(** A directory whose area is the same, and whose clusters are. *)
Lemma dir_frame s s' d cs : (forall c, c ∈ cs -> get s' c = get s c) -> (forall x, dir_area v d cs x -> ld8 (image s') x = ld8 (image s) x) -> clean_dir s d cs ->
  clean_dir s' d cs /\ entries s' d cs = entries s d cs.
Proof.
  intros Hg Hb [Hd Hc]. assert (Es : slots s' d cs = slots s d cs).
  { apply slots_ext. intros k x Hk Hx. apply Hb. by apply (slot_in_area v Hv s d cs k). }
  unfold FatWalk.entries. split; [split|]; rewrite ?Es; try done. unfold FatWalk.dir_at in *. destruct (fixed d); [done|]. by apply (chain_ext v Hv s).
Qed.

Lemma slot_same s s' d cs k : dir_at s d cs -> (forall c, c ∈ cs -> get s' c = get s c) -> 0 <= k < slot_count d cs -> (forall x, dir_area v d cs x -> ld8 (image s') x = ld8 (image s) x) ->
  same_entry s s' (slot_addr d cs k).
Proof.
  intros Hd Hg Hk Hb. split; [intros x Hx; apply Hb; by apply (slot_in_area v Hv s d cs k)|]. intros c x Hc Hcx Hx.
  apply (slot_in_area v Hv s d cs k x Hd Hk) in Hx. unfold dir_area in Hx. destruct (fixed d) eqn:Ef; [by destruct (cluster_not_table v Hv c x Hc Hcx)|].
  destruct Hx as (c' & Hc' & Hv' & Hcx'). rewrite (cluster_disjoint v Hv c c' x) by done. rewrite Hg by done. by apply (dir_used s d cs).
Qed.

Lemma entry_slot s d cs e : clean_dir s d cs -> e ∈ entries s d cs -> 0 <= de_last e < slot_count d cs.
Proof. intros Hcd (E1 & E2 & E)%list_elem_of_split. pose proof (entry_range v s d cs E1 e E2 Hcd E). lia. Qed.

Lemma tree_frame s s' t : forall a fp, tree_at s a t fp -> (forall x, x ∈ fp -> same_cluster s s' x) -> same_entry s s' a -> tree_at s' a t fp.
Proof.
  induction t as [|co|ch IH] using node_rect_list; intros a fp H Hfp He.
  - done.
  - by apply (file_frame s).
  - apply tree_dir in H as (cs & fps & -> & Hcd & H3). apply tree_dir. destruct (entry_same v s s' a (proj1 He)) as [-> _]. exists cs, fps. split; [done|].
    set (d := FatDir (ecluster s a) false) in *. pose proof Hcd as [Hd _].
    assert (Hg : forall c, c ∈ cs -> get s' c = get s c) by (intros c Hc; apply Hfp; apply elem_of_app; by left).
    assert (Hb : forall x, dir_area v d cs x -> ld8 (image s') x = ld8 (image s) x).
    { intros x (c & Hc & _ & Hx). apply (Hfp c); [apply elem_of_app; by left|done]. }
    destruct (dir_frame s s' d cs Hg Hb Hcd) as [Hcd' En]. split; [done|]. rewrite En.
    assert (Hent : forall e, e ∈ entries s d cs -> same_entry s s' (slot_addr d cs (de_last e))).
    { intros e Hin. apply slot_same; [done|done|by apply (entry_slot s)|done]. }
    assert (Hfps : forall x, x ∈ concat fps -> same_cluster s s' x) by (intros x Hx; apply Hfp, elem_of_app; by right).
    clear Hcd' En Hfp Hb. induction H3 as [|e [k t] f es ch fps [Hok Ht] H3 IH3]; [constructor|].
    apply list_relations.list.Forall_cons in IH as [IHt IH]. constructor.
    + split; [done|]. apply IHt; [done| |apply Hent; left]. intros x Hx. apply Hfps. cbn. apply elem_of_app. by left.
    + apply IH3; [done| |]; [intros e' He'; apply Hent; by right|]. intros x Hx. apply Hfps. cbn. apply elem_of_app. by right.
Qed.

(** ** Finding a child *)
Lemma find_child s d cs ch fps name : dir_tree s d cs ch fps ->
  match tfind name ch with
  | None => List.find (answers name) (entries s d cs) = None
  | Some (k, t) => exists E1 e E2 C1 C2 F1 fp F2, entries s d cs = E1 ++ e :: E2 /\ ch = C1 ++ (k, t) :: C2 /\ fps = F1 ++ fp :: F2 /\
      List.find (answers name) (entries s d cs) = Some e /\ Forall (fun kt => k_answers name kt.1 = false) C1 /\ k_answers name k = true /\
      Forall3 (child s d cs) E1 C1 F1 /\ child s d cs e (k, t) fp /\ Forall3 (child s d cs) E2 C2 F2
  end.
Proof.
  intros [_ H3]. unfold tfind. induction H3 as [|e [k t] f es ch fps Hc H3 IH]; [done|]. cbn [List.find fst].
  assert (Ek : answers name e = k_answers name k) by (destruct Hc as [[Ek _] _]; cbn in Ek; rewrite Ek; apply answers_key). rewrite Ek.
  destruct (k_answers name k) eqn:Ea.
  - exists [], e, es, [], ch, [], f, fps. cbn [app]. split_and!; try done; constructor.
  - destruct (List.find _ ch) as [[k' t']|]; [|done]. destruct IH as (E1 & e' & E2 & C1 & C2 & F1 & fp & F2 & -> & -> & -> & Hf & HF & Hk & H1 & H2 & H4).
    exists (e :: E1), e', E2, ((k, t) :: C1), C2, (f :: F1), fp, F2. split_and!; try done; by constructor.
Qed.

(** Only dots answer to dots. *)
Lemma strcasecmp_dots l : Forall (fun c => c = 46) l -> forall p, ascii_name p -> strcasecmp l p = 0 -> p = l.
Proof.
  induction 1 as [|c l -> _ IH]; intros [|c' p] Hp E; try done; apply list_relations.list.Forall_cons in Hp as [Hc Hp] || clear Hp.
  - exfalso. cbn in E. unfold sc, i8 in E. destruct (Z.ltb_spec c' 128); lia.
  - cbn [strcasecmp] in E. change (to_lower_byte 46) with 46 in E. destruct (Z.eqb_spec 46 (to_lower_byte c')) as [E'|Hne]; cbn [negb] in E.
    + f_equal; [|by apply IH]. unfold to_lower_byte in E'. destruct (_ && _) eqn:Eb; [|done]. lia.
    + exfalso. assert (0 <= to_lower_byte c' < 128) by (unfold to_lower_byte; destruct (_ && _) eqn:Eb; lia). unfold sc, i8 in E. change (46 <? 128) with true in E. destruct (Z.ltb_spec (to_lower_byte c') 128); lia.
Qed.

Lemma part_not_dot s d cs e k fp p : child s d cs e (k, NDot) fp -> part_ok p -> k_answers p k = false.
Proof.
  intros [[Ek (_ & Hl & Hs)] _] (Ha & _ & H1 & H2). cbn in Ek, Hs. unfold k_answers. rewrite Ek in *. cbn [k_long key_of] in *. rewrite Hl. cbn [orb].
  apply Z.eqb_neq. intros E. apply strcasecmp_dots in E; [|destruct Hs as [->| ->]; by repeat constructor|done]. destruct Hs; congruence.
Qed.

(** ** Changing one directory

    From [s] to [s'] the directory [d] has become one with the children [ch'];
    what is new in it was free, and clusters in use elsewhere are as they were. *)
Record op_ok s s' d cs fps cs' ch' fps' : Prop := {
  op_tree : dir_tree s' d cs' ch' fps';
  op_nodup : NoDup (cs' ++ concat fps');
  op_new : forall c, c ∈ cs' ++ concat fps' -> c ∈ cs ++ concat fps \/ get s c = 0;
  op_same : forall c, valid v c -> c ∉ cs ++ concat fps -> get s c <> 0 -> same_cluster s s' c;
  op_root : fixed d = false -> forall x, in_root v x -> ld8 (image s') x = ld8 (image s) x;
}.

Lemma op_refl s d cs ch fps : dir_tree s d cs ch fps -> NoDup (cs ++ concat fps) -> op_ok s s d cs fps cs ch fps.
Proof. intros Ht Hn. split; try done. by left. Qed.

(** The clusters of one child and those of the rest. *)
Definition rest cs F1 F2 : list Z := cs ++ concat F1 ++ concat F2.

Lemma fps_perm cs F1 fp F2 : cs ++ concat (F1 ++ fp :: F2) ≡ₚ rest cs F1 F2 ++ fp.
Proof. unfold rest. rewrite concat_app. cbn [concat]. solve_Permutation. Qed.

Lemma children_frame s s' d cs es ch fps : (forall e, e ∈ es -> same_entry s s' (slot_addr d cs (de_last e))) ->
  (forall c, c ∈ concat fps -> same_cluster s s' c) -> Forall3 (child s d cs) es ch fps -> Forall3 (child s' d cs) es ch fps.
Proof.
  intros He Hf H. induction H as [|e [k t] f es ch fps [Hok Ht] H IH]; [constructor|]. constructor.
  - split; [done|]. apply (tree_frame s); [done| |apply He; left]. intros c Hc. apply Hf. cbn. apply elem_of_app. by left.
  - apply IH; [intros e' He'; apply He; by right|]. intros c Hc. apply Hf. cbn. apply elem_of_app. by right.
Qed.

Lemma Forall3_middle {A B C} (R : A -> B -> C -> Prop) l1 x l2 k1 y k2 m1 z m2 : Forall3 R l1 k1 m1 -> R x y z -> Forall3 R l2 k2 m2 ->
  Forall3 R (l1 ++ x :: l2) (k1 ++ y :: k2) (m1 ++ z :: m2).
Proof. intros H1 H H2. induction H1; cbn; by constructor. Qed.

(** A change below a child is a change of the directory. *)
Lemma op_child s s' d cs E1 e E2 C1 k sub C2 F1 cs1 fps1 F2 cs1' sub' fps1' : clean_dir s d cs -> entries s d cs = E1 ++ e :: E2 ->
  Forall3 (child s d cs) E1 C1 F1 -> child s d cs e (k, NDir sub) (cs1 ++ concat fps1) -> Forall3 (child s d cs) E2 C2 F2 ->
  NoDup (cs ++ concat (F1 ++ (cs1 ++ concat fps1) :: F2)) -> dir_tree s (FatDir (ecluster s (slot_addr d cs (de_last e))) false) cs1 sub fps1 ->
  op_ok s s' (FatDir (ecluster s (slot_addr d cs (de_last e))) false) cs1 fps1 cs1' sub' fps1' ->
  op_ok s s' d cs (F1 ++ (cs1 ++ concat fps1) :: F2) cs (C1 ++ (k, NDir sub') :: C2) (F1 ++ (cs1' ++ concat fps1') :: F2) /\
  entries s' d cs = entries s d cs /\ ecluster s' (slot_addr d cs (de_last e)) = ecluster s (slot_addr d cs (de_last e)).
Proof.
  intros Hcd En H1 Hc H2 Hnd Hsub [Ht' Hnd' Hnew Hsame Hroot]. pose proof Hcd as [Hd _]. set (a := slot_addr d cs (de_last e)) in *. set (fp := cs1 ++ concat fps1) in *. set (fp' := cs1' ++ concat fps1') in *.
  rewrite fps_perm in Hnd. apply list.NoDup_app in Hnd as (Hnr & Hdis & Hnf).
  assert (Hused : forall c, c ∈ rest cs F1 F2 -> valid v c /\ get s c <> 0).
  { intros c Hr. apply (dir_tree_used s d cs (C1 ++ (k, NDir sub) :: C2) (F1 ++ fp :: F2)); [split; [done|rewrite En; by apply Forall3_middle]|]. rewrite fps_perm, elem_of_app. by left. }
  assert (Hsm : forall c, c ∈ rest cs F1 F2 -> same_cluster s s' c) by (intros c Hr; destruct (Hused c Hr); apply Hsame; [done|by apply Hdis|done]).
  assert (Hcs : forall c, c ∈ cs -> same_cluster s s' c) by (intros c Hin; apply Hsm; unfold rest; apply elem_of_app; by left).
  assert (Hb : forall x, dir_area v d cs x -> ld8 (image s') x = ld8 (image s) x).
  { unfold dir_area. intros x Hx. destruct (fixed d); [by apply Hroot|]. destruct Hx as (c & Hin & _ & Hx). by apply (Hcs c). }
  assert (Hg : forall c, c ∈ cs -> get s' c = get s c) by (intros c Hin; by apply Hcs).
  destruct (dir_frame s s' d cs Hg Hb Hcd) as [Hcd' En'].
  assert (Hent : forall e', e' ∈ E1 ++ e :: E2 -> same_entry s s' (slot_addr d cs (de_last e'))).
  { intros e' Hin. apply slot_same; [done|done|apply (entry_slot s); [done|by rewrite En]|done]. }
  assert (Ea : ecluster s' a = ecluster s a) by (destruct (entry_same v s s' a) as [-> _]; [|done]; apply Hent, elem_of_app; right; left).
  split; [|done]. split.
  - split; [done|]. rewrite En', En. apply Forall3_middle.
    + apply (children_frame s); [intros e' Hin; apply Hent, elem_of_app; by left| |done]. intros c Hin. apply Hsm. unfold rest. rewrite !elem_of_app. auto.
    + destruct Hc as [[Hk Hok] _]. split; [split; [done|exact Hok]|]. cbn [snd]. apply tree_dir. exists cs1', fps1'. split; [done|]. fold a. by rewrite Ea.
    + apply (children_frame s); [intros e' Hin; apply Hent, elem_of_app; right; by right| |done]. intros c Hin. apply Hsm. unfold rest. rewrite !elem_of_app. auto.
  - rewrite fps_perm. apply list.NoDup_app. split; [done|]. split; [|done]. intros c Hr Hin. destruct (Hnew c Hin) as [Hold|Hfree]; [by apply (Hdis c)|]. by destruct (Hused c Hr).
  - intros c. rewrite !fps_perm, !elem_of_app. intros [Hr|Hin]; [by left; left|]. destruct (Hnew c Hin); [left; by right|by right].
  - intros c Hval. rewrite fps_perm, elem_of_app. intros Hn Hu. apply Hsame; [done| |done]. intros Hin. apply Hn. by right.
  - intros _ x Hx. by apply Hroot.
Qed.

Lemma on_first_middle p f C1 k t C2 : Forall (fun kt => k_answers p kt.1 = false) C1 -> k_answers p k = true ->
  on_first (k_answers p) f (C1 ++ (k, t) :: C2) = C1 ++ (k, f t) :: C2.
Proof. intros H Hk. induction H as [|[k' t'] C1 H _ IH]; cbn in *; [by rewrite Hk|]. by rewrite H, IH. Qed.

(** ** Walking the tree

    A walk along a path finds the directory the tree has there, and a change of that directory
    is a change of the tree at that path. *)
Lemma walk_ok parts : Forall part_ok parts -> forall s d cs ch fps, dir_tree s d cs ch fps -> NoDup (cs ++ concat fps) ->
  match twalk ch parts with
  | None => walk_loop v s d parts = None
  | Some sub => exists d1 cs1 fps1, walk_loop v s d parts = Some d1 /\ dir_tree s d1 cs1 sub fps1 /\ NoDup (cs1 ++ concat fps1) /\
      forall s' cs1' sub' fps1', op_ok s s' d1 cs1 fps1 cs1' sub' fps1' -> (exists cs' fps', op_ok s s' d cs fps cs' (tset parts sub' ch) fps') /\ walk_loop v s' d parts = Some d1
  end.
Proof.
  induction 1 as [|p parts Hp _ IH]; intros s d cs ch fps Ht Hnd; cbn [twalk walk_loop tset].
  { exists d, cs, fps. split_and!; try done. intros s' cs' sub' fps' Hop. split; [by exists cs', fps'|done]. }
  pose proof Ht as [Hcd _]. pose proof Hcd as [Hd _]. unfold enter. rewrite (find_entry_ok v Hv s d cs p Hd). pose proof (find_child s d cs ch fps p Ht) as Hfc.
  destruct (tfind p ch) as [[k t]|]; [|by rewrite Hfc]. destruct Hfc as (E1 & e & E2 & C1 & C2 & F1 & fp & F2 & En & -> & -> & Hfind & HF & Hk & H1 & Hc & H2).
  rewrite Hfind. cbn [fmap option_fmap option_map]. destruct t as [|co|sub].
  - rewrite (part_not_dot s d cs e k fp p Hc Hp) in Hk. done.
  - destruct Hc as [[Ek [_ Hdir]] _]. cbn in Ek, Hdir. rewrite Ek in Hdir. unfold k_dir in Hdir. cbn in Hdir. cbn [fe_attr found_at]. by rewrite Hdir.
  - pose proof Hc as [[Ek [_ Hdir]] Hsub]. cbn in Ek, Hdir. rewrite Ek in Hdir. unfold k_dir in Hdir. cbn [k_attr key_of] in Hdir. cbn [fe_attr fe_cluster found_at]. rewrite Hdir. cbn [negb].
    cbn [snd] in Hsub. apply tree_dir in Hsub as (cs1 & fps1 & -> & Hsub). set (c := ecluster s (slot_addr d cs (de_last e))) in *.
    assert (Hval : valid v c) by (destruct Hsub as [[Hd1 _] _]; by destruct (chain_head v s _ _ Hd1)).
    assert ((c =? 0) = false) as -> by (destruct Hval; lia). rewrite (proj2 (valid_true v c) Hval).
    assert (Hnd1 : NoDup (cs1 ++ concat fps1)) by (rewrite fps_perm in Hnd; by apply list.NoDup_app in Hnd as (_ & _ & ?)).
    specialize (IH s (FatDir c false) cs1 sub fps1 Hsub Hnd1). destruct (twalk sub parts) as [sub2|]; [|done].
    destruct IH as (d2 & cs2 & fps2 & Hw & Ht2 & Hnd2 & Hop). exists d2, cs2, fps2. split_and!; try done. intros s' cs2' sub' fps2' Ho.
    destruct (Hop s' cs2' sub' fps2' Ho) as [(cs1' & fps1' & Ho1) Hw']. rewrite on_first_middle by done.
    destruct (op_child s s' d cs E1 e E2 C1 k sub C2 F1 cs1 fps1 F2 cs1' _ fps1' Hcd En H1 Hc H2 Hnd Hsub Ho1) as (Ho2 & En' & Ec). split; [by eexists cs, _|].
    rewrite (find_entry_ok v Hv s' d cs p) by apply Ho2. rewrite En', Hfind. cbn [fmap option_fmap option_map fe_attr fe_cluster found_at]. rewrite Hdir, Ec. fold c. cbn [negb].
    assert ((c =? 0) = false) as -> by (destruct Hval; lia). by rewrite (proj2 (valid_true v c) Hval).
Qed.
End Tree.
