(* ===== verification/FatTreeOps.v ===== *)
(** The operations of [kernel/fs/fat/fat.c] and [fat_vfs.c] on the tree of a volume:
    creating, removing and making directories at a path, looking up, and writing files. *)
From S2P Require Import Prelude KString KStringSpec Fat FatSpec FatFileSpec FatName FatNameSpec FatDir FatListing FatWalk FatDirSpec FatMkdir FatReaddir FatUse FatPath FatPathSpec FatTree.

Section Ops.
Context {W : Type} (v : fat_volume W) (Hv : vol_ok v) (rtc_read : W -> rtc_time * W).
Implicit Types (s : fat_state W) (d : fat_dir) (cs fp : list Z) (ch : list (key * node)) (fps : list (list Z)).

Abbreviation fixed := (dir_is_fixed_root v).
Abbreviation dir_at := (dir_at v).
Abbreviation slot_count := (slot_count v).
Abbreviation slot_addr := (slot_addr v).
Abbreviation clean_dir := (clean_dir v).
Abbreviation entries := (entries v).
Abbreviation ecluster := (fat_impl_entry_get_cluster v).
Abbreviation get := (fat_get v).
Abbreviation child := (child v).
Abbreviation dir_tree := (dir_tree v).
Abbreviation same_cluster := (same_cluster v).
Abbreviation same_entry := (same_entry v).
Abbreviation op_ok := (op_ok v).
Abbreviation free_clusters s := (Forall (fun c => valid v c /\ get s c = 0)).

(** ** The frame of a change in a directory *)

(** Everything that changes is the area of the directory, the clusters [ecs], which belong to
    it or are free, and clusters that are free. *)
Definition changes s s' d cs new fps : Prop :=
  exists (P : Z -> Prop) ecs, others v P ecs s s' /\ Forall (valid v) ecs /\ (forall x, P x -> dir_area v d (cs ++ new) x) /\
    (forall c, c ∈ ecs -> c ∈ cs ++ concat fps \/ get s c = 0).

Lemma changes_same s s' d cs new fps c : changes s s' d cs new fps -> free_clusters s new -> valid v c -> c ∉ cs ++ concat fps -> get s c <> 0 -> same_cluster s s' c.
Proof.
  intros (P & ecs & [G B] & Hval & HP & Hecs) Hnew Hc Hn Hu. rewrite list_relations.list.Forall_forall in Hval, Hnew.
  assert (Hce : c ∉ ecs) by (intros Hin; by destruct (Hecs c Hin)). split; [by apply G|]. intros x Hx. destruct (cluster_not_table v Hv c x Hc Hx) as [Ht Hr]. apply B; [done| |].
  - intros c' Hc' Hx'. apply Hce. by rewrite (cluster_disjoint v Hv c c' x) by auto.
  - intros Hp. apply HP in Hp. unfold dir_area in Hp. destruct (fixed d); [done|]. destruct Hp as (c' & Hc' & Hv' & Hx'). rewrite <-(cluster_disjoint v Hv c c' x) in Hc' by done.
    apply elem_of_app in Hc' as [Hin|Hin]; [apply Hn, elem_of_app; by left|by destruct (Hnew c Hin)].
Qed.

Lemma changes_root s s' d cs new fps x : changes s s' d cs new fps -> fixed d = false -> in_root v x -> ld8 (image s') x = ld8 (image s) x.
Proof.
  intros (P & ecs & [G B] & Hval & HP & _) Hf Hx. rewrite list_relations.list.Forall_forall in Hval.
  assert (Hn : forall c, valid v c -> ~ in_cluster v c x) by (intros c Hc Hin; by destruct (cluster_not_table v Hv c x Hc Hin)). apply B; [|auto|].
  - unfold in_root, in_table in *. lia.
  - intros Hp. apply HP in Hp. unfold dir_area in Hp. rewrite Hf in Hp. destruct Hp as (c & _ & Hc & Hin). by apply (Hn c).
Qed.

(** An entry that is listed before and after. *)
Lemma sibling_entry s s' d cs new e : clean_dir s d cs -> clean_dir s' d (cs ++ new) -> e ∈ entries s d cs -> e ∈ entries s' d (cs ++ new) ->
  slot_addr d (cs ++ new) (de_last e) = slot_addr d cs (de_last e) /\ same_entry s s' (slot_addr d cs (de_last e)).
Proof.
  intros Hcd Hcd' Hin Hin'. pose proof (entry_slot v s d cs e Hcd Hin) as Hk. pose proof (entry_slot v s' d (cs ++ new) e Hcd' Hin') as Hk'.
  pose proof (slot_addr_app v Hv s d cs new (de_last e) (proj1 Hcd) Hk) as Ea. split; [done|]. split.
  - apply list_elem_of_split in Hin as (E1 & E2 & E), Hin' as (E1' & E2' & E'). intros x Hx.
    pose proof (entry_raw v s d cs E1 e E2 Hcd E) as R. pose proof (entry_raw v s' d (cs ++ new) E1' e E2' Hcd' E') as R'. rewrite Ea, <-R in R'.
    unfold in_entry in Hx. pose proof (slot_bytes_rd s (slot_addr d cs (de_last e)) (x - slot_addr d cs (de_last e)) ltac:(lia)) as S1.
    pose proof (slot_bytes_rd s' (slot_addr d cs (de_last e)) (x - slot_addr d cs (de_last e)) ltac:(lia)) as S2. rewrite R', S1 in S2.
    by replace (slot_addr d cs (de_last e) + (x - slot_addr d cs (de_last e))) with x in S2 by lia.
  - intros c x Hc Hcx Hx. rewrite <-Ea in Hx. apply (slot_in_area v Hv s' d (cs ++ new) (de_last e) x (proj1 Hcd') Hk') in Hx. unfold dir_area in Hx.
    destruct (fixed d) eqn:Ef; [by destruct (cluster_not_table v Hv c x Hc Hcx)|]. destruct Hx as (c' & Hc' & Hv' & Hcx'). rewrite (cluster_disjoint v Hv c c' x) by done.
    exact (proj2 (dir_used v s' d (cs ++ new) c' (proj1 Hcd') Hc')).
Qed.

Lemma siblings s s' d cs new es ch fps : clean_dir s d cs -> clean_dir s' d (cs ++ new) -> (forall e, e ∈ es -> e ∈ entries s d cs /\ e ∈ entries s' d (cs ++ new)) ->
  (forall c, c ∈ concat fps -> same_cluster s s' c) -> Forall3 (child s d cs) es ch fps -> Forall3 (child s' d (cs ++ new)) es ch fps.
Proof.
  intros Hcd Hcd' He Hf H. induction H as [|e [k t] f es ch fps [Hok Ht] H IH]; [constructor|]. constructor.
  - destruct (He e ltac:(left)) as [Hi Hi']. destruct (sibling_entry s s' d cs new e Hcd Hcd' Hi Hi') as [Ea Hse]. split; [done|]. rewrite Ea.
    apply (tree_frame v Hv s); [done| |done]. intros c Hc. apply Hf. cbn. apply elem_of_app. by left.
  - apply IH; [intros e' He'; apply He; by right|]. intros c Hc. apply Hf. cbn. apply elem_of_app. by right.
Qed.

Lemma dir_nodup s d cs : dir_at s d cs -> NoDup cs.
Proof. unfold FatWalk.dir_at. destruct (fixed d); [intros ->; constructor|]. by apply (chain_nodup v Hv). Qed.

(** The clusters of a directory that has become longer, with those of its children. *)
Lemma longer_nodup s s' d cs new ch fps : dir_tree s d cs ch fps -> NoDup (cs ++ concat fps) -> dir_at s' d (cs ++ new) -> free_clusters s new -> NoDup ((cs ++ new) ++ concat fps).
Proof.
  intros Ht Hnd Hd Hnew. rewrite list_relations.list.Forall_forall in Hnew. apply list.NoDup_app in Hnd as (_ & Hdis & Hf). apply list.NoDup_app. split; [by apply (dir_nodup s' d)|].
  split; [|done]. intros c [Hc|Hc]%elem_of_app Hin; [by apply (Hdis c)|]. destruct (Hnew c Hc) as [_ Hz]. by destruct (dir_tree_used v s d cs ch fps c Ht ltac:(apply elem_of_app; by right)).
Qed.

(** A change of a stretch of the children. *)
Lemma op_splice s s' d cs new E1 X Y E2 C1 CX CY C2 F1 FX FY F2 : clean_dir s d cs -> entries s d cs = E1 ++ X ++ E2 ->
  Forall3 (child s d cs) E1 C1 F1 -> Forall3 (child s d cs) X CX FX -> Forall3 (child s d cs) E2 C2 F2 -> NoDup (cs ++ concat (F1 ++ FX ++ F2)) ->
  clean_dir s' d (cs ++ new) -> free_clusters s new -> entries s' d (cs ++ new) = E1 ++ Y ++ E2 -> changes s s' d cs new FX ->
  Forall3 (child s' d (cs ++ new)) Y CY FY -> (forall c, c ∈ concat FY -> (c ∈ concat FX \/ get s c = 0) /\ c ∉ cs ++ new) -> NoDup (concat FY) ->
  op_ok s s' d cs (F1 ++ FX ++ F2) (cs ++ new) (C1 ++ CY ++ C2) (F1 ++ FY ++ F2).
Proof.
  intros Hcd En H1 HX H2 Hnd Hcd' Hnew En' Hch HY Hfy Hny.
  assert (Ht : dir_tree s d cs (C1 ++ CX ++ C2) (F1 ++ FX ++ F2)) by (split; [done|rewrite En; by apply Forall3_app, Forall3_app]).
  assert (Hused : forall c, c ∈ cs ++ concat (F1 ++ FX ++ F2) -> valid v c /\ get s c <> 0) by (intros c Hc; by apply (dir_tree_used v s d cs _ _ c Ht)).
  pose proof (longer_nodup s s' d cs new _ _ Ht Hnd (proj1 Hcd') Hnew) as Hnl.
  assert (P0 : forall G, (cs ++ new) ++ concat (F1 ++ G ++ F2) ≡ₚ ((cs ++ new) ++ concat F1 ++ concat F2) ++ concat G) by (intros G; rewrite !concat_app; solve_Permutation).
  rewrite P0 in Hnl. apply list.NoDup_app in Hnl as (Hnr & Hdis & _). rewrite list_relations.list.Forall_forall in Hnew.
  assert (Hin : forall c, c ∈ concat F1 ++ concat F2 -> c ∈ cs ++ concat (F1 ++ FX ++ F2)) by (intros c; rewrite !concat_app, !elem_of_app; tauto).
  assert (Hsm : forall c, c ∈ concat F1 ++ concat F2 -> same_cluster s s' c).
  { intros c Hc. destruct (Hused c (Hin c Hc)) as [Hvc Hu]. apply (changes_same s s' d cs new FX); [done|by apply list_relations.list.Forall_forall|done| |done].
    intros Hc'. apply list.NoDup_app in Hnr as (_ & Hn & _). apply elem_of_app in Hc' as [Hc'|Hc']; [apply (Hn c); [apply elem_of_app; by left|done]|].
    apply (Hdis c); [apply elem_of_app; by right|done]. }
  assert (Hsib : forall e, e ∈ E1 ++ E2 -> e ∈ entries s d cs /\ e ∈ entries s' d (cs ++ new)) by (intros e; rewrite En, En', !elem_of_app; tauto).
  split.
  - split; [done|]. rewrite En'. apply Forall3_app; [|apply Forall3_app; [done|]].
    + apply (siblings s); [done|done|intros e He; apply Hsib, elem_of_app; by left|intros c Hc; apply Hsm, elem_of_app; by left|done].
    + apply (siblings s); [done|done|intros e He; apply Hsib, elem_of_app; by right|intros c Hc; apply Hsm, elem_of_app; by right|done].
  - rewrite P0. apply list.NoDup_app. split; [done|]. split; [|done]. intros c Hc Hy. destruct (Hfy c Hy) as [Hold Hn].
    destruct Hold as [Hx|Hz]; [by apply (Hdis c)|]. apply elem_of_app in Hc as [Hc|Hc]; [done|]. by destruct (Hused c (Hin c Hc)).
  - intros c. rewrite P0, !elem_of_app. intros [[[Hc|Hc]|Hc]|Hc]; [left; by left|right; by apply Hnew|left; right|].
    + rewrite !concat_app, !elem_of_app. tauto.
    + destruct (Hfy c Hc) as [[Hx|?] _]; [|by right]. left. right. rewrite !concat_app, !elem_of_app. tauto.
  - intros c Hc Hn Hu. apply (changes_same s s' d cs new FX); [done|by apply list_relations.list.Forall_forall|done| |done]. intros Hc'. apply Hn. rewrite !concat_app, !elem_of_app in *. tauto.
  - intros Hf x Hx. by apply (changes_root s s' d cs new FX).
Qed.

(** A change that keeps the children. *)
Lemma op_keep s s' d cs new ch fps : dir_tree s d cs ch fps -> NoDup (cs ++ concat fps) -> clean_dir s' d (cs ++ new) -> free_clusters s new ->
  entries s' d (cs ++ new) = entries s d cs -> changes s s' d cs new [] -> op_ok s s' d cs fps (cs ++ new) ch fps.
Proof.
  intros [Hcd H3] Hnd Hcd' Hnew En Hch. apply (op_splice s s' d cs new [] [] [] (entries s d cs) [] [] [] ch [] [] [] fps); try done; [apply Forall3_nil..| |apply NoDup_nil_2]. by intros c ?%elem_of_nil.
Qed.

(** A new child. *)
Lemma op_insert s s' d cs new E1 e E2 ch fps kt fp : dir_tree s d cs ch fps -> NoDup (cs ++ concat fps) -> clean_dir s' d (cs ++ new) -> free_clusters s new ->
  entries s d cs = E1 ++ E2 -> entries s' d (cs ++ new) = E1 ++ e :: E2 -> changes s s' d cs new [] -> child s' d (cs ++ new) e kt fp ->
  NoDup fp -> (forall c, c ∈ fp -> get s c = 0 /\ c ∉ cs ++ new) -> exists C1 C2 fps', ch = C1 ++ C2 /\ op_ok s s' d cs fps (cs ++ new) (C1 ++ kt :: C2) fps'.
Proof.
  intros [Hcd H3] Hnd Hcd' Hnew En En' Hch Hc Hfp Hfree. pose proof H3 as H4. rewrite En in H4. apply Forall3_app_inv_l in H4 as (C1 & C2 & F1 & F2 & -> & -> & H1 & H2).
  exists C1, C2, (F1 ++ [fp] ++ F2). split; [done|].
  apply (op_splice s s' d cs new E1 [] [e] E2 C1 [] [kt] C2 F1 [] [fp] F2); try done; [apply Forall3_nil|constructor; [done|apply Forall3_nil]|..]; cbn [concat]; rewrite app_nil_r; [|done].
  intros c Hin. destruct (Hfree c Hin). auto.
Qed.

(** ** Operations on a directory *)

(** The names and attributes of what was created under a name. *)
Definition k_named (name : list Z) (k : key) : Prop :=
  match short_name_exact name with Some _ => k_long k = None /\ k_short k = name | None => k_long k = Some name end.

Lemma named_key name e : ascii_name name -> named name e -> k_named name (key_of e).
Proof.
  intros Hn [_ H]. destruct (ascii_ok name Hn) as (_ & Hd & Hc). unfold k_named, key_of. cbn [k_long k_short]. destruct (short_name_exact name); [|by rewrite H, Hd].
  destruct H as [-> ->]. by rewrite Hc.
Qed.

Lemma others_changes (P : Z -> Prop) ecs s s' d cs new : others v P (ecs ++ cs ++ new) s s' -> dir_at s' d (cs ++ new) -> free_clusters s new -> free_clusters s ecs ->
  (forall x, P x -> dir_area v d (cs ++ new) x) -> changes s s' d cs new [].
Proof.
  intros Ho Hd Hnew Hecs HP. rewrite list_relations.list.Forall_forall in Hnew, Hecs. exists P, (ecs ++ cs ++ new). split; [done|]. split; [|split; [done|]].
  - apply list_relations.list.Forall_forall. intros c [Hc|Hc]%elem_of_app; [by apply Hecs|]. by apply (dir_used v s' d (cs ++ new)).
  - intros c. cbn. rewrite app_nil_r, !elem_of_app. intros [Hc|[Hc|Hc]]; [right; by apply Hecs|by left|right; by apply Hnew].
Qed.

Lemma create_op s d cs ch fps name : dir_tree s d cs ch fps -> NoDup (cs ++ concat fps) -> ascii_name name ->
  match tfind name ch with
  | Some _ => fat_create_at v rtc_read s d name = (s, None)
  | None => exists s' r cs' ch' fps', fat_create_at v rtc_read s d name = (s', r) /\ op_ok s s' d cs fps cs' ch' fps' /\
      match r with
      | None => ch' = ch
      | Some f => fat_impl_find_entry v s' d name = Some f /\ fe_attr f = FAT_ATTR_ARCHIVE /\ fe_size f = 0 /\
          exists C1 k C2, ch = C1 ++ C2 /\ ch' = C1 ++ (k, NFile []) :: C2 /\ k_named name k /\ k_attr k = FAT_ATTR_ARCHIVE
      end
  end.
Proof.
  intros Ht Hnd Hn. destruct (ascii_ok name Hn) as (Hok & _). pose proof Ht as [Hcd _]. pose proof (find_child v s d cs ch fps name Ht) as Hfc.
  destruct (create_at_spec v Hv rtc_read s d cs name Hcd Hok) as [(e & Ef & Ec)|(Ef & s' & new & r & Ec & Hcd' & HF & Hr)].
  { destruct (tfind name ch) as [[k t]|]; [done|]. congruence. }
  destruct (tfind name ch) as [[k t]|]; [by destruct Hfc as (? & ? & ? & ? & ? & ? & ? & ? & _ & _ & _ & Hf & _); congruence|].
  pose proof Hcd' as [Hd' _]. destruct r as [f|].
  - destruct Hr as (E1 & e & E2 & L & L' & Hnm & Hat & Ef1 & Ef2 & Hk & Ho). pose proof (entry_range v s' d (cs ++ new) E1 e E2 Hcd' L') as Hrange.
    assert (Hfile : file_at v s' (slot_addr d (cs ++ new) (de_last e)) [] []) by (apply (empty_file v Hv); [done|done|by rewrite <-Ef2, Ef1|by rewrite <-Ef2, Ef1]).
    assert (Hch : changes s s' d cs new []).
    { apply (others_changes _ [] _ _ _ _ _ Ho Hd' HF (Forall_nil_2 _)). intros x Hx. apply (in_slots_area v Hv s' _ _ _ _ _ Hd') in Hx; [done|lia|lia]. }
    destruct (op_insert s s' d cs new E1 e E2 ch fps (key_of e, NFile []) [] Ht Hnd Hcd' HF L L' Hch) as (C1 & C2 & fps' & Ech & Hop).
    { split; [|exact Hfile]. split; [done|]. split; [by destruct Hnm|]. unfold k_dir. cbn. by rewrite Hat. }
    { constructor. } { by intros c ?%elem_of_nil. }
    exists s', (Some f), (cs ++ new), (C1 ++ (key_of e, NFile []) :: C2), fps'. split; [done|]. split; [done|].
    split; [|rewrite Ef1; split; [done|split; [done|]]; by exists C1, (key_of e), C2; split_and!; [| |by apply named_key|]].
    rewrite (find_entry_ok v Hv s' d (cs ++ new) name Hd'), L', (find_insert _ E1 e E2); [by rewrite Ef2|by rewrite <-L|by apply named_answers].
  - destruct Hr as (L & Ho & _). exists s', None, (cs ++ new), ch, fps. split; [done|]. split; [|done]. apply op_keep; try done. by apply (others_changes (fun _ => False) [] _ _ _ _ _ Ho Hd' HF (Forall_nil_2 _)).
Qed.

(** A directory without anything but its dots. *)
Definition is_dot_node (kt : key * node) : bool := match kt.2 with NDot => true | _ => false end.

Lemma fresh_tree s c parent : fresh_dir v s c parent -> exists sub, dir_tree s (FatDir c false) [c] sub [[]; []] /\ forallb is_dot_node sub = true.
Proof.
  intros (Hcd & raw1 & raw2 & En & D1 & D2 & _). set (e1 := Dent None raw1 0 0) in *. set (e2 := Dent None raw2 1 1) in *.
  exists [(key_of e1, NDot); (key_of e2, NDot)]. split; [|done]. split; [done|]. rewrite En.
  destruct (dot_entry_ok 1 raw1 ltac:(auto) D1) as (_ & _ & Hd1 & Hs1). destruct (dot_entry_ok 2 raw2 ltac:(auto) D2) as (_ & _ & Hd2 & Hs2).
  constructor; [|constructor; [|apply Forall3_nil]]; (split; [|done]); (split; [done|]); (split; [done|]); (split; [done|]); cbn [key_of k_short fst de_raw e1 e2]; [rewrite Hs1; by left|rewrite Hs2; by right].
Qed.

Lemma mkdir_op s d cs ch fps name : dir_tree s d cs ch fps -> NoDup (cs ++ concat fps) -> ascii_name name ->
  match tfind name ch with
  | Some _ => fat_mkdir_at v rtc_read s d name = (s, false)
  | None => exists s' ok cs' ch' fps', fat_mkdir_at v rtc_read s d name = (s', ok) /\ op_ok s s' d cs fps cs' ch' fps' /\
      if (ok : bool) then exists C1 k sub C2, ch = C1 ++ C2 /\ ch' = C1 ++ (k, NDir sub) :: C2 /\ k_named name k /\ k_attr k = FAT_ATTR_DIRECTORY /\ forallb is_dot_node sub = true
      else ch' = ch
  end.
Proof.
  intros Ht Hnd Hn. destruct (ascii_ok name Hn) as (Hok & _). pose proof Ht as [Hcd _]. pose proof (find_child v s d cs ch fps name Ht) as Hfc.
  destruct (mkdir_at_spec v Hv rtc_read s d cs name Hcd Hok) as [(e & Ef & Ec)|(Ef & s' & ok & new & Ec & Hcd' & HF & Hr)].
  { destruct (tfind name ch) as [[k t]|]; [done|]. congruence. }
  destruct (tfind name ch) as [[k t]|]; [by destruct Hfc as (? & ? & ? & ? & ? & ? & ? & ? & _ & _ & _ & Hf & _); congruence|].
  pose proof Hcd' as [Hd' _]. destruct ok.
  - destruct Hr as (c & E1 & e & E2 & L & L' & Hnm & Hat & Hcl & Hc & Hz & Hcn & Hfresh & Ho). pose proof (entry_range v s' d (cs ++ new) E1 e E2 Hcd' L') as Hrange.
    destruct (fresh_tree s' c _ Hfresh) as (sub & Hsub & Hdots).
    assert (Hch : changes s s' d cs new []).
    { apply (others_changes _ [c] _ _ _ _ _ Ho Hd' HF); [by constructor|]. intros x Hx. apply (in_slots_area v Hv s' _ _ _ _ _ Hd') in Hx; [done|lia|lia]. }
    destruct (op_insert s s' d cs new E1 e E2 ch fps (key_of e, NDir sub) [c] Ht Hnd Hcd' HF L L' Hch) as (C1 & C2 & fps' & Ech & Hop).
    { split; [split; [done|]; split; [by destruct Hnm|]; unfold k_dir; cbn; by rewrite Hat|]. cbn [snd]. apply tree_dir. exists [c], [[]; []]. split; [done|]. cbn in Hcl. by rewrite Hcl. }
    { apply NoDup_singleton. } { by intros x ->%list_elem_of_singleton. }
    exists s', true, (cs ++ new), (C1 ++ (key_of e, NDir sub) :: C2), fps'. split; [done|]. split; [done|]. exists C1, (key_of e), sub, C2. split_and!; try done. by apply named_key.
  - destruct Hr as (L & _ & ecs & Hecs & Ho). exists s', false, (cs ++ new), ch, fps. split; [done|]. split; [|done]. apply op_keep; try done. by apply (others_changes (fun _ => False) ecs).
Qed.

(** What can be removed: a file as a file, an empty directory as a directory. *)
Definition removable (is_dir : bool) (t : node) : bool :=
  match t with NDot => false | NFile _ => negb is_dir | NDir sub => is_dir && forallb is_dot_node sub end.
Fixpoint remove_first (P : key -> bool) ch : list (key * node) :=
  match ch with [] => [] | (k, t) :: ch => if P k then ch else (k, t) :: remove_first P ch end.

Lemma remove_first_middle p C1 k t C2 : Forall (fun kt => k_answers p kt.1 = false) C1 -> k_answers p k = true -> remove_first (k_answers p) (C1 ++ (k, t) :: C2) = C1 ++ C2.
Proof. intros H Hk. induction H as [|[k' t'] C1 H _ IH]; cbn in *; [by rewrite Hk|]. by rewrite H, IH. Qed.

Lemma only_dots_tree s d cs ch fps : dir_tree s d cs ch fps -> only_dots (entries s d cs) = forallb is_dot_node ch /\ (forallb is_dot_node ch = true -> concat fps = []).
Proof.
  intros [_ H]. induction H as [|e [k t] f es ch fps [[_ Hok] Ht] _ [IH1 IH2]]; [done|]. unfold only_dots in *. cbn [forallb is_dot_node snd concat] in *.
  rewrite IH1. destruct t as [|co|sub]; destruct Hok as [-> _]; [|done|done]. split; [done|]. intros H. rewrite (IH2 H). cbn in Ht. by subst f.
Qed.

Lemma first_unique {A} (P : A -> bool) l1 l2 x k1 k2 : l1 ++ x :: k1 = l2 ++ x :: k2 -> P x = true -> Forall (fun y => P y = false) l1 -> Forall (fun y => P y = false) l2 -> l1 = l2 /\ k1 = k2.
Proof.
  intros E Hx H1. revert l2 E. induction H1 as [|y l1 Hy _ IH]; intros [|z l2] E H2; cbn in E; simplify_eq; try done; apply list_relations.list.Forall_cons in H2 as [Hz H2] || clear H2; [congruence..|].
  match goal with E : _ ++ _ = _ |- _ => destruct (IH _ E H2) as [-> ->] end. done.
Qed.

Lemma not_answers s d cs es ch fps p : Forall3 (child s d cs) es ch fps -> Forall (fun kt => k_answers p kt.1 = false) ch -> Forall (fun e => answers p e = false) es.
Proof.
  intros H. induction H as [|e kt f es ch fps [[Ek _] _] _ IH]; intros HF; [constructor|]. apply list_relations.list.Forall_cons in HF as [Hk HF].
  constructor; [|by apply IH]. by rewrite answers_key, <-Ek.
Qed.

(** The clusters of an entry, as removal needs them. *)
Lemma child_chain s d cs e kt fp : child s d cs e kt fp -> (forall c, c ∈ cs -> c ∉ fp) -> is_dot_node kt = false -> exists ecs, ecs ⊆ fp /\ entry_chain v s d cs e ecs /\ apart_from v d cs ecs /\
  forall is_dir, Bool.eqb (rd (de_raw e) 11 &? FAT_ATTR_DIRECTORY) is_dir && (negb is_dir || (negb (bool_decide (ecs = [])) && only_dots (entries s (FatDir (fe_cluster (found_at v s d cs e)) false) ecs))) = removable is_dir kt.2.
Proof.
  intros [[Ek Hok] Ht] Hdis Hnd. assert (Ha : (rd (de_raw e) 11 &? FAT_ATTR_DIRECTORY) = k_dir kt.1) by (by rewrite Ek). rewrite Ha. destruct kt as [k [|co|sub]]; cbn [fst snd] in *; [done| |].
  - destruct Hok as [_ ->]. exists fp. split; [done|]. assert (Hval : Forall (valid v) fp) by (apply list_relations.list.Forall_forall; intros c Hc; by destruct (tree_used v s (NFile co) _ fp c Ht Hc)).
    split; [|split; [by split|]]; [destruct Ht as [_ _ _ [[? ?]|?] _]; [by left|by right]|]. intros [|]; done.
  - destruct Hok as [_ ->]. pose proof Ht as Ht'. apply tree_dir in Ht' as (cs1 & fps1 & -> & Hsub). exists cs1. split; [set_solver|]. pose proof Hsub as [[Hd1 _] _].
    assert (Hval : Forall (valid v) cs1) by (apply list_relations.list.Forall_forall; intros c Hc; by destruct (dir_used v s _ cs1 c Hd1 Hc)).
    split; [by right|]. split; [split; [done|]; intros _ c Hc Hin; apply (Hdis c Hc), elem_of_app; by left|]. intros [|]; [|done]. cbn [Bool.eqb negb andb orb removable].
    rewrite bool_decide_false by (intros ->; by cbn in Hd1). cbn [negb andb found_at fe_cluster]. by destruct (only_dots_tree _ _ _ _ _ Hsub) as [-> _].
Qed.

Lemma remove_op s d cs ch fps name is_dir : dir_tree s d cs ch fps -> NoDup (cs ++ concat fps) -> part_ok name ->
  match tfind name ch with
  | None => fat_remove_at v s d name is_dir = (s, false)
  | Some (_, t) =>
      if removable is_dir t then exists s' fps', fat_remove_at v s d name is_dir = (s', true) /\ op_ok s s' d cs fps cs (remove_first (k_answers name) ch) fps'
      else fat_remove_at v s d name is_dir = (s, false)
  end.
Proof.
  intros Ht Hnd Hn. pose proof Ht as [Hcd _]. pose proof (find_child v s d cs ch fps name Ht) as Hfc. pose proof (remove_at_spec v Hv s d cs name is_dir Hcd) as Hrm.
  destruct (tfind name ch) as [[k t]|]; [|by rewrite Hfc in Hrm]. destruct Hfc as (E1 & e & E2 & C1 & C2 & F1 & fp & F2 & En & -> & -> & Hf & HF & Hk & H1 & Hc & H2). rewrite Hf in Hrm.
  destruct Hrm as (E1' & E2' & En' & HF' & Hrm). rewrite En in En'. apply (first_unique (answers name)) in En' as [<- <-]; [|by destruct Hc as [[Ek _] _]; rewrite answers_key, <-Ek|by apply (not_answers s d cs E1 C1 F1)|done].
  pose proof (entry_range v s d cs E1 e E2 Hcd En) as Hr. pose proof Hnd as Hnd'. rewrite fps_perm in Hnd'. apply list.NoDup_app in Hnd' as (_ & Hdis & _).
  destruct (child_chain s d cs e (k, t) fp Hc) as (ecs & Hsub & Hec & Hap & Hcond).
  { intros c Hin. apply Hdis. unfold rest. apply elem_of_app. by left. }
  { destruct t as [|co|sub]; [|done|done]. by rewrite (part_not_dot v s d cs e k fp name Hc Hn) in Hk. }
  specialize (Hrm ecs Hec Hap). rewrite Hcond in Hrm. cbn [snd] in Hrm. destruct (removable is_dir t); [|done].
  destruct Hrm as (s' & Es & Hcd' & En' & _ & Ho). exists s', (F1 ++ F2). split; [done|]. rewrite remove_first_middle by done.
  pose proof (op_splice s s' d cs [] E1 [e] [] E2 C1 [(k, t)] [] C2 F1 [fp] [] F2) as Hop. rewrite app_nil_r in Hop. apply Hop; try done; [by constructor; [|apply Forall3_nil]|..].
  - exists (in_slots v d cs (de_first e) (de_last e)), ecs. rewrite app_nil_r. split; [done|]. split; [by destruct Hap|]. split.
    + intros x Hx. apply (in_slots_area v Hv s _ _ _ _ _ (proj1 Hcd)) in Hx; [done|lia|lia].
    + intros c Hin. left. cbn. rewrite app_nil_r. apply elem_of_app. right. by apply Hsub.
  - apply Forall3_nil.
  - by intros c ?%elem_of_nil.
  - constructor.
Qed.

Lemma retouch_child s d cs e raw k c fp : take 13 raw = take 13 (de_raw e) -> child_ok e (k, NFile c) -> file_at v s (slot_addr d cs (de_last e)) fp c -> child s d cs (retouch e raw) (k, NFile c) fp.
Proof.
  intros H13 [Ek [Hd Hdir]] Hf. destruct (same_head (de_raw e) raw H13) as (_ & _ & _ & _ & E & _). cbn [fst] in *.
  assert (Hb : forall i, 0 <= i < 13 -> rd raw i = rd (de_raw e) i) by (intros i Hi; by rewrite <-(rd_take 13 raw i), H13, rd_take by lia).
  split; [|done]. split; [|split; [|done]]; cbn [fst retouch de_raw].
  - rewrite Ek. unfold key_of. cbn [retouch de_long de_raw]. by rewrite E, (Hb 11).
  - rewrite <-Hd. unfold is_dot_entry. by rewrite !Hb by lia.
Qed.

(** A change of a file is a change of its content in the tree. *)
Lemma file_op s s' d cs E1 e E2 C1 k c C2 F1 fp F2 new fp' c' : clean_dir s d cs -> entries s d cs = E1 ++ e :: E2 ->
  Forall3 (child s d cs) E1 C1 F1 -> child s d cs e (k, NFile c) fp -> Forall3 (child s d cs) E2 C2 F2 -> NoDup (cs ++ concat (F1 ++ fp :: F2)) ->
  others v (meta (slot_addr d cs (de_last e))) (fp ++ new) s s' -> free_clusters s new -> file_at v s' (slot_addr d cs (de_last e)) fp' c' -> fp' ⊆ fp ++ new ->
  op_ok s s' d cs (F1 ++ fp :: F2) cs (C1 ++ (k, NFile c') :: C2) (F1 ++ fp' :: F2).
Proof.
  intros Hcd En H1 Hc H2 Hnd Ho Hnew Hf' Hsub. set (a := slot_addr d cs (de_last e)) in *. pose proof Hc as [Hok Hfile]. cbn [snd] in Hfile. pose proof (entry_range v s d cs E1 e E2 Hcd En) as Hr.
  pose proof Hnd as Hnd'. rewrite fps_perm in Hnd'. apply list.NoDup_app in Hnd' as (_ & Hdis & _). rewrite list_relations.list.Forall_forall in Hnew.
  assert (Hfp : forall x, x ∈ cs -> x ∉ fp ++ new).
  { intros x Hx [Hin|Hin]%elem_of_app; [apply (Hdis x); [unfold rest; apply elem_of_app; by left|done]|]. destruct (Hnew x Hin). by destruct (dir_used v s d cs x (proj1 Hcd) Hx). }
  assert (Hval : Forall (valid v) (fp ++ new)).
  { apply list_relations.list.Forall_forall. intros x [Hin|Hin]%elem_of_app; [by destruct (tree_used v s (NFile c) a fp x Hfile Hin)|by apply Hnew]. }
  destruct (file_change_listing v Hv s s' d cs E1 e E2 (fp ++ new) Hcd En Ho (conj Hval (fun _ => Hfp))) as (Hcd' & raw & En' & H13 & _).
  pose proof (op_splice s s' d cs [] E1 [e] [retouch e raw] E2 C1 [(k, NFile c)] [(k, NFile c')] C2 F1 [fp] [fp'] F2) as Hop. rewrite app_nil_r in Hop. apply Hop; try done.
  - by constructor; [|apply Forall3_nil].
  - exists (meta a), (fp ++ new). rewrite app_nil_r. split; [done|]. split; [done|]. split.
    + intros x Hx. apply (slot_in_area v Hv s d cs (de_last e)); [apply Hcd|lia|]. fold a. unfold meta, in_entry in *. lia.
    + intros x. cbn. rewrite app_nil_r, !elem_of_app. intros [Hin|Hin]; [left; by right|right; by apply Hnew].
  - constructor; [|apply Forall3_nil]. by apply retouch_child.
  - cbn. rewrite !app_nil_r. intros x Hx. apply Hsub in Hx as Hx'. split; [|by intros Hin; apply (Hfp x Hin)]. apply elem_of_app in Hx' as [Hin|Hin]; [by left|right; by apply Hnew].
  - cbn. rewrite app_nil_r. destruct Hf' as [_ _ _ [[-> _]|Hch] _]; [constructor|by apply (chain_nodup v Hv) in Hch].
Qed.

(** A file that a directory holds: reading, writing and truncating it. *)
Lemma file_ops s d cs ch fps name k c : dir_tree s d cs ch fps -> NoDup (cs ++ concat fps) -> tfind name ch = Some (k, NFile c) ->
  exists f fp, fat_impl_find_entry v s d name = Some f /\ fe_attr f = k_attr k /\ fe_size f = zlen c /\ (fe_attr f &? FAT_ATTR_DIRECTORY) = false /\ file_at v s (fe_raw f) fp c /\ fe_cluster f = ecluster s (fe_raw f) /\
    (if k_attr k &? FAT_ATTR_READ_ONLY then forall p buf, fat_vfs_write v rtc_read s (Some (fe_raw f)) p buf = (s, p, 0) /\ fat_vfs_truncate v rtc_read s (Some (fe_raw f)) = (s, -1) else
     (forall p buf, 0 <= p <= UINT32_MAX -> exists s' n c' fps', fat_vfs_write v rtc_read s (Some (fe_raw f)) p buf = (s', p + n, n) /\ 0 <= n <= zlen buf /\
        ((c' = copy_to (c ++ zeros (p - zlen c)) p (take (Z.to_nat n) buf) /\ (n = zlen buf `min` (UINT32_MAX - p) \/ no_free v s')) \/
         (n = 0 /\ no_free v s' /\ exists j, c' = c ++ zeros j /\ 0 <= j <= p - zlen c)) /\
        op_ok s s' d cs fps cs (on_first (k_answers name) (fun _ => NFile c') ch) fps') /\
     (exists s' fps', fat_vfs_truncate v rtc_read s (Some (fe_raw f)) = (s', 0) /\ op_ok s s' d cs fps cs (on_first (k_answers name) (fun _ => NFile []) ch) fps')).
Proof.
  intros Ht Hnd Hk0. pose proof Ht as [Hcd _]. pose proof (find_child v s d cs ch fps name Ht) as Hfc. rewrite Hk0 in Hfc.
  destruct Hfc as (E1 & e & E2 & C1 & C2 & F1 & fp & F2 & En & -> & -> & Hf & HF & Hk & H1 & Hc & H2). pose proof Hc as [[Ek [_ Hdir]] Hfile]. cbn [fst snd] in Ek, Hfile, Hdir.
  exists (found_at v s d cs e), fp. rewrite (find_entry_ok v Hv s d cs name (proj1 Hcd)), Hf. cbn [fmap option_fmap option_map found_at fe_attr fe_size fe_raw fe_cluster].
  assert (Ha : rd (de_raw e) 11 = k_attr k) by (by rewrite Ek). rewrite Ha. set (a := slot_addr d cs (de_last e)) in *.
  split; [done|]. split; [done|]. split; [symmetry; by apply (content_length v Hv s a fp)|]. split; [exact Hdir|]. split; [done|]. split; [done|].
  pose proof (attributes_raw v s d cs E1 e E2 Hcd En) as Hat. fold a in Hat. rewrite Ha in Hat. destruct (k_attr k &? FAT_ATTR_READ_ONLY) eqn:Ero.
  { intros p buf. unfold fat_vfs_write, fat_vfs_truncate. by rewrite Hat, Ero. }
  assert (Hro : (attributes s (Some a) &? FAT_ATTR_READ_ONLY) = false) by (by rewrite Hat). split.
  - intros p buf Hp. destruct (vfs_write_spec v Hv rtc_read s a fp c p buf Hfile Hp Hro) as (s' & n & new & c' & Ew & Hn & Hf' & [HFn Ho] & Hc'). exists s', n, c', (F1 ++ (fp ++ new) :: F2).
    split; [done|]. split; [done|]. split; [done|]. rewrite on_first_middle by done. by apply (file_op s s' d cs E1 e E2 C1 k c C2 F1 fp F2 new (fp ++ new) c').
  - destruct (vfs_truncate_spec v Hv rtc_read s a fp c Hfile Hro) as (s' & Ew & Hf' & _ & Ho). exists s', (F1 ++ [] :: F2). split; [done|]. rewrite on_first_middle by done.
    apply (file_op s s' d cs E1 e E2 C1 k c C2 F1 fp F2 [] [] []); try done; [by rewrite app_nil_r|set_solver].
Qed.
End Ops.
