(* ===== verification/FatTreeSpec.v ===== *)
(** FAT volumes refine trees: every operation on a path does to the tree what its name says. *)
From S2P Require Import Prelude KString KStringSpec Fat FatSpec FatFileSpec FatName FatNameSpec FatDir FatListing FatWalk FatDirSpec FatMkdir FatReaddir FatUse FatPath FatPathSpec FatTree FatTreeOps.

(** ** The components of a path *)
Lemma words_ok l : forall w, ascii_name l -> ascii_name w -> Forall (fun x => ascii_name x /\ x <> []) (words_from w l).
Proof.
  assert (Hfl : forall w, ascii_name w -> Forall (fun x => ascii_name x /\ x <> []) (flush_word w)) by (intros [|c w] H; cbn; [constructor|by constructor; [split|]]).
  induction l as [|c l IH]; intros w Hl Hw; cbn [words_from]; [by apply Hfl|]. apply list_relations.list.Forall_cons in Hl as [Hc Hl]. destruct (is_separator c).
  - apply list_relations.list.Forall_app. split; [by apply Hfl|]. apply IH; [done|constructor].
  - apply IH; [done|]. apply list_relations.list.Forall_app. split; [done|by constructor].
Qed.

Lemma normalise_parts ws : Forall (fun x => ascii_name x /\ x <> []) ws -> forall parts r, Forall part_ok parts -> normalise parts ws = Some r -> Forall part_ok r.
Proof.
  induction 1 as [|w ws [Hw Hne] _ IH]; intros parts r Hp; cbn [normalise]; [by intros [= <-]|].
  case_bool_decide; [by apply IH|]. case_bool_decide.
  - apply IH. destruct parts as [|p parts _] using rev_ind; [done|]. rewrite removelast_last. by apply list_relations.list.Forall_app in Hp as [? _].
  - destruct (_ || _); [done|]. apply IH. apply list_relations.list.Forall_app. split; [done|]. by constructor.
Qed.

Lemma split_parts path parts : ascii_name path -> split_path path = Some parts -> Forall part_ok parts.
Proof.
  intros Ha. rewrite split_path_ok; [|eapply list.Forall_impl; [exact Ha|]; cbn; lia]. destruct (_ <? _); [|done]. intros E.
  eapply normalise_parts; [|apply Forall_nil_2|exact E]. apply words_ok; [done|constructor].
Qed.

(** ** Trees *)

(** The node at a path. *)
Definition tat (ch : list (key * node)) (dirs : list (list Z)) (name : list Z) : option (key * node) :=
  match twalk ch dirs with Some sub => tfind name sub | None => None end.

Lemma tset_same dirs : forall ch sub, twalk ch dirs = Some sub -> tset dirs sub ch = ch.
Proof.
  induction dirs as [|p dirs IH]; intros ch sub; cbn [twalk tset]; [by intros [= <-]|]. unfold tfind.
  induction ch as [|[k t] ch IHc]; cbn [List.find fst on_first]; [done|]. destruct (k_answers p k); [|intros H; by rewrite IHc].
  destruct t as [|co|sub']; [done|done|]. intros H. by rewrite (IH sub' sub H).
Qed.

(** A child more, under a new name. *)
Definition inserted (name : list Z) (attr : Z) (t : node) (sub sub' : list (key * node)) : Prop :=
  exists C1 k C2, sub = C1 ++ C2 /\ sub' = C1 ++ (k, t) :: C2 /\ k_named name k /\ k_attr k = attr.

Section Refinement.
Context {W : Type} (v : fat_volume W) (Hv : vol_ok v) (rtc_read : W -> rtc_time * W).
Implicit Types (s : fat_state W) (ch sub : list (key * node)) (path name : list Z) (dirs : list (list Z)).

(** The volume holds a tree: its clusters belong to one file or directory each. *)
Definition holds s ch : Prop := exists cs fps, dir_tree v s (root_directory v) cs ch fps /\ NoDup (cs ++ concat fps).

Lemma op_holds s s' cs fps cs' ch' fps' : op_ok v s s' (root_directory v) cs fps cs' ch' fps' -> holds s' ch'.
Proof. intros [Ht Hn _ _ _]. by exists cs', fps'. Qed.

Lemma resolve_ok s path dirs name : split_path path = Some (dirs ++ [name]) -> resolve_parent v s path = (fun d => (d, name)) <$> walk_loop v s (root_directory v) dirs.
Proof.
  intros E. unfold resolve_parent, walk_directories. rewrite E. assert ((zlen (dirs ++ [name]) =? 0) = false) as -> by (apply Z.eqb_neq; unfold zlen; rewrite length_app; cbn [length]; lia).
  rewrite length_app, Nat.add_sub, take_app_length, list_lookup_middle by done. by destruct (walk_loop _ _ _ _).
Qed.

(** The parent directory of a path, in the tree and on the volume. *)
Lemma parent_ok s ch path dirs name : holds s ch -> ascii_name path -> split_path path = Some (dirs ++ [name]) ->
  part_ok name /\
  match twalk ch dirs with
  | None => resolve_parent v s path = None
  | Some sub => exists d cs fps, resolve_parent v s path = Some (d, name) /\ dir_tree v s d cs sub fps /\ NoDup (cs ++ concat fps) /\
      forall s' cs' sub' fps', op_ok v s s' d cs fps cs' sub' fps' -> holds s' (tset dirs sub' ch) /\ resolve_parent v s' path = Some (d, name)
  end.
Proof.
  intros (cs0 & fps0 & Ht & Hnd) Ha E. pose proof (split_parts path _ Ha E) as Hp. apply list_relations.list.Forall_app in Hp as [Hd Hn]. apply list_relations.list.Forall_cons in Hn as [Hn _].
  split; [done|]. pose proof (walk_ok v Hv dirs Hd s (root_directory v) cs0 ch fps0 Ht Hnd) as Hw. rewrite (resolve_ok s path dirs name E).
  destruct (twalk ch dirs) as [sub|]; [|by rewrite Hw]. destruct Hw as (d & cs & fps & Hw & Ht1 & Hn1 & Hop). exists d, cs, fps. rewrite Hw. split_and!; try done.
  intros s' cs' sub' fps' Ho. destruct (Hop s' cs' sub' fps' Ho) as [(cs2 & fps2 & Ho2) Hw']. split; [by eapply op_holds|]. by rewrite (resolve_ok s' path dirs name E), Hw'.
Qed.

Lemma found_ok s d cs ch fps name k t : dir_tree v s d cs ch fps -> part_ok name -> tfind name ch = Some (k, t) ->
  exists f, fat_impl_find_entry v s d name = Some f /\ fe_attr f = k_attr k /\ match t with NDot => False | NFile _ => k_dir k = false | NDir _ => k_dir k = true end.
Proof.
  intros Ht Hn E. pose proof (find_child v s d cs ch fps name Ht) as Hfc. rewrite E in Hfc. destruct Hfc as (E1 & e & E2 & C1 & C2 & F1 & fp & F2 & En & _ & _ & Hf & _ & Hk & _ & Hc & _).
  exists (found_at v s d cs e). rewrite (find_entry_ok v Hv s d cs name) by apply Ht. rewrite Hf. split; [done|]. pose proof Hc as [[Ek Hok] _]. cbn [fst snd] in Ek, Hok. split; [by rewrite Ek|].
  destruct t; [|by destruct Hok|by destruct Hok]. by rewrite (part_not_dot v s d cs e k fp name Hc Hn) in Hk.
Qed.

(** What a lookup of a path says. *)
Definition seen s path (r : option (key * node)) : Prop :=
  match r with
  | None => fat_stat v s path = None /\ fat_open v s path = None
  | Some (k, t) =>
      (exists st, fat_stat v s path = Some st /\ st_attr st = k_attr k /\ st_is_dir st = k_dir k /\ forall c, t = NFile c -> st_size st = zlen c) /\
      match t with
      | NFile c => k_dir k = false /\ exists f e fp, fat_open v s path = Some f /\ dir_ent f = Some e /\ file_at v s e fp c
      | NDir _ => k_dir k = true /\ fat_open v s path = None
      | NDot => False
      end
  end.

Lemma lookup_ok s ch path dirs name : holds s ch -> ascii_name path -> split_path path = Some (dirs ++ [name]) -> seen s path (tat ch dirs name).
Proof.
  intros Hh Ha E. destruct (parent_ok s ch path dirs name Hh Ha E) as [Hn Hp]. unfold seen, tat.
  assert (Hst : fat_stat v s path = match resolve_parent v s path with None => None | Some (parent, leaf) => match fat_impl_find_entry v s parent leaf with None => None
    | Some found => Some (FatStat (fe_cluster found) (fe_size found) (fe_attr found) (fe_attr found &? FAT_ATTR_DIRECTORY)) end end).
  { unfold fat_stat. rewrite E. destruct (Z.eqb_spec (zlen (dirs ++ [name])) 0) as [H0|]; [|done]. unfold zlen in H0. rewrite length_app in H0. cbn in H0. lia. }
  rewrite Hst. unfold fat_open. destruct (twalk ch dirs) as [sub|]; [|by rewrite Hp]. destruct Hp as (d & cs & fps & -> & Ht & Hnd & _).
  pose proof (find_child v s d cs sub fps name Ht) as Hfc. destruct (tfind name sub) as [[k t]|] eqn:Et; [|by rewrite (find_entry_ok v Hv s d cs name (proj1 (proj1 Ht))), Hfc].
  destruct (found_ok s d cs sub fps name k t Ht Hn Et) as (f & Hf & Hat & Hkind). rewrite Hf. destruct t as [|c|sub']; [done| |].
  - destruct (file_ops v Hv rtc_read s d cs sub fps name k c Ht Hnd Et) as (f' & fp & Hf' & _ & Hsz & Hdir & Hfile & Hcl & _). rewrite Hf in Hf'. injection Hf' as <-. split.
    + eexists. split; [done|]. cbn. rewrite Hat. split; [done|]. split; [done|]. by intros c' [= <-].
    + split; [done|]. rewrite Hdir. assert ((negb (fe_size f =? 0) && negb (cluster_is_valid v (fe_cluster f))) = false) as ->.
      { destruct (Z.eqb_spec (fe_size f) 0); [done|]. cbn [negb andb]. apply negb_false_iff, (valid_true v). rewrite Hcl. destruct Hfile as [_ _ _ [[-> _]|Hch] Hc]; [|by destruct (chain_head v s _ _ Hch)].
        exfalso. unfold raw in Hc. cbn in Hc. rewrite take_nil in Hc. subst c. unfold zlen in Hsz. cbn in Hsz. lia. }
      eexists _, _, fp. split; [done|]. by split.
  - split; [|split; [done|]].
    + eexists. split; [done|]. cbn. by rewrite Hat.
    + rewrite Hat. fold (k_dir k). by rewrite Hkind.
Qed.

(** ** Changes at a path

    The directory [dirs] of the tree has changed as [R] says. *)
Definition changed ch dirs (R : list (key * node) -> list (key * node) -> Prop) s' : Prop :=
  exists sub sub', twalk ch dirs = Some sub /\ R sub sub' /\ holds s' (tset dirs sub' ch).

Lemma create_path s ch path dirs name : holds s ch -> ascii_name path -> split_path path = Some (dirs ++ [name]) ->
  exists s' r, fat_create v rtc_read s path = (s', r) /\
    match r with
    | None => holds s' ch /\ (tat ch dirs name <> None \/ twalk ch dirs = None -> s' = s)
    | Some f => tat ch dirs name = None /\ fat_open v s' path = Some f /\ changed ch dirs (inserted name FAT_ATTR_ARCHIVE (NFile [])) s'
    end.
Proof.
  intros Hh Ha E. destruct (parent_ok s ch path dirs name Hh Ha E) as [Hn Hp]. unfold fat_create, tat, changed. destruct (twalk ch dirs) as [sub|] eqn:Ew; [|rewrite Hp; by exists s, None].
  destruct Hp as (d & cs & fps & -> & Ht & Hnd & Hop). pose proof (create_op v Hv rtc_read s d cs sub fps name Ht Hnd (proj1 Hn)) as Hc.
  destruct (tfind name sub) as [kt|]; [rewrite Hc; by exists s, None|]. destruct Hc as (s' & r & cs' & sub' & fps' & -> & Ho & Hr). destruct (Hop s' cs' sub' fps' Ho) as [Hh' Hres].
  destruct r as [f|].
  - destruct Hr as (Hf & Hat & Hsz & C1 & k & C2 & E1 & E2 & Hk & Hka). eexists s', _. split; [done|]. split; [done|]. split; [|exists sub, sub'; split_and!; try done; by exists C1, k, C2].
    unfold fat_open. by rewrite Hres, Hf, Hat, Hsz.
  - subst sub'. rewrite (tset_same dirs ch sub Ew) in Hh'. exists s', None. split; [done|]. split; [done|]. by intros [?|?].
Qed.

Lemma mkdir_path s ch path dirs name : holds s ch -> ascii_name path -> split_path path = Some (dirs ++ [name]) ->
  exists s' ok, fat_mkdir v rtc_read s path = (s', ok) /\
    if (ok : bool) then tat ch dirs name = None /\ exists dots, forallb is_dot_node dots = true /\ changed ch dirs (inserted name FAT_ATTR_DIRECTORY (NDir dots)) s'
    else holds s' ch /\ (tat ch dirs name <> None \/ twalk ch dirs = None -> s' = s).
Proof.
  intros Hh Ha E. destruct (parent_ok s ch path dirs name Hh Ha E) as [Hn Hp]. unfold fat_mkdir, tat, changed. destruct (twalk ch dirs) as [sub|] eqn:Ew; [|rewrite Hp; by exists s, false].
  destruct Hp as (d & cs & fps & -> & Ht & Hnd & Hop). pose proof (mkdir_op v Hv rtc_read s d cs sub fps name Ht Hnd (proj1 Hn)) as Hc.
  destruct (tfind name sub) as [kt|]; [rewrite Hc; by exists s, false|]. destruct Hc as (s' & ok & cs' & sub' & fps' & -> & Ho & Hr). destruct (Hop s' cs' sub' fps' Ho) as [Hh' Hres].
  exists s', ok. split; [done|]. destruct ok.
  - destruct Hr as (C1 & k & dots & C2 & E1 & E2 & Hk & Hka & Hdots). split; [done|]. exists dots. split; [done|]. exists sub, sub'. split_and!; try done. by exists C1, k, C2.
  - subst sub'. rewrite (tset_same dirs ch sub Ew) in Hh'. split; [done|]. by intros [?|?].
Qed.

Lemma remove_path s ch path dirs name is_dir : holds s ch -> ascii_name path -> split_path path = Some (dirs ++ [name]) ->
  let run := match resolve_parent v s path with None => (s, false) | Some (parent, name) => fat_remove_at v s parent name is_dir end in
  match tat ch dirs name with
  | Some (_, t) => if removable is_dir t then exists s', run = (s', true) /\ changed ch dirs (fun sub sub' => sub' = remove_first (k_answers name) sub) s' else run = (s, false)
  | None => run = (s, false)
  end.
Proof.
  intros Hh Ha E. destruct (parent_ok s ch path dirs name Hh Ha E) as [Hn Hp]. unfold tat, changed. destruct (twalk ch dirs) as [sub|] eqn:Ew; [|by rewrite Hp].
  destruct Hp as (d & cs & fps & -> & Ht & Hnd & Hop). cbv zeta. pose proof (remove_op v Hv s d cs sub fps name is_dir Ht Hnd Hn) as Hr. destruct (tfind name sub) as [[k t]|]; [|done].
  destruct (removable is_dir t); [|done]. destruct Hr as (s' & fps' & -> & Ho). destruct (Hop _ _ _ _ Ho) as [Hh' _]. exists s'. split; [done|]. by eexists _, _.
Qed.

(** ** Files at a path *)
Lemma file_path s ch path dirs name k c : holds s ch -> ascii_name path -> split_path path = Some (dirs ++ [name]) -> tat ch dirs name = Some (k, NFile c) ->
  exists f e, fat_open v s path = Some f /\ dir_ent f = Some e /\
    (forall p n, 0 <= p -> 0 <= n -> fat_vfs_read v s (Some e) p n = (p `max` ((p + n) `min` zlen c), bytes_at c p n)) /\
    (if k_attr k &? FAT_ATTR_READ_ONLY then forall p buf, fat_vfs_write v rtc_read s (Some e) p buf = (s, p, 0) /\ fat_vfs_truncate v rtc_read s (Some e) = (s, -1) else
     (forall p buf, 0 <= p <= UINT32_MAX -> exists s' n c', fat_vfs_write v rtc_read s (Some e) p buf = (s', p + n, n) /\ 0 <= n <= zlen buf /\
        ((c' = copy_to (c ++ zeros (p - zlen c)) p (take (Z.to_nat n) buf) /\ (n = zlen buf `min` (UINT32_MAX - p) \/ no_free v s')) \/
         (n = 0 /\ no_free v s' /\ exists j, c' = c ++ zeros j /\ 0 <= j <= p - zlen c)) /\
        changed ch dirs (fun sub sub' => sub' = on_first (k_answers name) (fun _ => NFile c') sub) s') /\
     (exists s', fat_vfs_truncate v rtc_read s (Some e) = (s', 0) /\ changed ch dirs (fun sub sub' => sub' = on_first (k_answers name) (fun _ => NFile []) sub) s')).
Proof.
  intros Hh Ha E Et. pose proof (lookup_ok s ch path dirs name Hh Ha E) as Hl. rewrite Et in Hl. destruct Hl as [_ (_ & f & e & fp & Ho & He & _)].
  destruct (parent_ok s ch path dirs name Hh Ha E) as [Hn Hp]. unfold tat in Et. unfold changed. destruct (twalk ch dirs) as [sub|] eqn:Ew; [|done].
  destruct Hp as (d & cs & fps & Hr & Ht & Hnd & Hop). destruct (file_ops v Hv rtc_read s d cs sub fps name k c Ht Hnd Et) as (f0 & fp0 & Hf0 & Hat & _ & Hdir & Hfile & _ & Hw).
  assert (e = fe_raw f0) as ->.
  { unfold fat_open in Ho. rewrite Hr, Hf0, Hdir in Ho. destruct (_ && _); [done|]. injection Ho as <-. by injection He. }
  exists f, (fe_raw f0). split; [done|]. split; [done|]. split; [intros p n Hp Hn0; by apply (vfs_read_spec v Hv s _ fp0)|].
  destruct (k_attr k &? FAT_ATTR_READ_ONLY); [done|]. destruct Hw as [Hw1 Hw2]. split.
  - intros p buf Hp. destruct (Hw1 p buf Hp) as (s' & n & c' & fps' & E1 & E2 & E3 & Hop1). exists s', n, c'. do 3 (split; [done|]). destruct (Hop _ _ _ _ Hop1) as [Hh' _]. by eexists _, _.
  - destruct Hw2 as (s' & fps' & E1 & Hop1). exists s'. split; [done|]. destruct (Hop _ _ _ _ Hop1) as [Hh' _]. by eexists _, _.
Qed.

Lemma no_leaf s path : (split_path path = None \/ split_path path = Some []) ->
  fat_open v s path = None /\ fat_create v rtc_read s path = (s, None) /\ fat_mkdir v rtc_read s path = (s, false) /\ fat_unlink v s path = (s, false) /\ fat_rmdir v s path = (s, false).
Proof.
  intros H. assert (E : resolve_parent v s path = None) by (unfold resolve_parent; by destruct H as [-> | ->]).
  unfold fat_open, fat_create, fat_mkdir, fat_unlink, fat_rmdir. rewrite E. by destruct (path_ends_with_dot_component path).
Qed.
End Refinement.


(** The example volume holds the empty tree, and after the creation of [/ab] a tree with one file. *)
Lemma ex_holds : holds (ex_volume None) (ex_state (ex_boot 24 0)) [].
Proof.
  exists [], []. split; [|constructor]. split; [apply ex_root_clean|]. assert (E : entries (ex_volume None) (ex_state (ex_boot 24 0)) (root_directory (ex_volume None)) [] = []) by (vm_compute; reflexivity).
  rewrite E. constructor.
Qed.

Definition ex_file_path : list Z := [47; 97; 98].


(** C16: a file that is opened by its path has the content the tree has there. Reading through
    its inode returns those bytes; writing and truncating replace the
    content of that one node of the tree, by what they say, and change nothing else of the tree; a
    read-only file is refused. *)
Theorem fat_tree_files {W} (v : fat_volume W) (rtc_read : W -> rtc_time * W) s ch path dirs name k c :
  vol_ok v -> holds v s ch -> ascii_name path -> split_path path = Some (dirs ++ [name]) -> tat ch dirs name = Some (k, NFile c) ->
  exists f e, fat_open v s path = Some f /\ dir_ent f = Some e /\
    (forall p n, 0 <= p -> 0 <= n -> fat_vfs_read v s (Some e) p n = (p `max` ((p + n) `min` zlen c), bytes_at c p n)) /\
    (if k_attr k &? FAT_ATTR_READ_ONLY then forall p buf, fat_vfs_write v rtc_read s (Some e) p buf = (s, p, 0) /\ fat_vfs_truncate v rtc_read s (Some e) = (s, -1) else
     (forall p buf, 0 <= p <= UINT32_MAX -> exists s' n c', fat_vfs_write v rtc_read s (Some e) p buf = (s', p + n, n) /\ 0 <= n <= zlen buf /\
        ((c' = copy_to (c ++ zeros (p - zlen c)) p (take (Z.to_nat n) buf) /\ (n = zlen buf `min` (UINT32_MAX - p) \/ no_free v s')) \/
         (n = 0 /\ no_free v s' /\ exists j, c' = c ++ zeros j /\ 0 <= j <= p - zlen c)) /\
        changed v ch dirs (fun sub sub' => sub' = on_first (k_answers name) (fun _ => NFile c') sub) s') /\
     (exists s', fat_vfs_truncate v rtc_read s (Some e) = (s', 0) /\ changed v ch dirs (fun sub sub' => sub' = on_first (k_answers name) (fun _ => NFile []) sub) s')).
Proof. intros Hv. by apply (file_path v Hv). Qed.

Lemma ex_file_held : exists s k, holds (ex_volume None) s [(k, NFile [])] /\ tat [(k, NFile [])] [] [97; 98] = Some (k, NFile []) /\ k_attr k = FAT_ATTR_ARCHIVE.
Proof.
  destruct (create_path (ex_volume None) (ex_volume_ok None) ex_rtc (ex_state (ex_boot 24 0)) [] ex_file_path [] [97; 98] ex_holds ltac:(unfold ex_file_path; repeat constructor; lia) ltac:(vm_compute; reflexivity))
    as (s & r & Ec & Hr).
  assert (Hs : snd (fat_create (ex_volume None) ex_rtc (ex_state (ex_boot 24 0)) ex_file_path) <> None) by (vm_compute; discriminate). rewrite Ec in Hs. cbn [snd] in Hs. destruct r as [f|]; [|done].
  destruct Hr as (_ & _ & sub & sub' & Ew & (C1 & k & C2 & E1 & E2 & Hk & Ha) & Hh). injection Ew as <-. destruct C1; [|discriminate]. destruct C2; [|discriminate]. cbn in E2. subst sub'.
  exists s, k. split; [exact Hh|]. split; [|done]. unfold tat, tfind. cbn [twalk List.find fst].
  assert (Ex : short_name_exact [97; 98] <> None) by (vm_compute; discriminate). unfold k_named in Hk. destruct (short_name_exact [97; 98]); [|done]. destruct Hk as [E1' E2'].
  unfold k_answers. by rewrite E1', E2'.
Qed.

Lemma fat_tree_files_witness : exists s k s' n, holds (ex_volume None) s [(k, NFile [])] /\ (exists e, fat_vfs_write (ex_volume None) ex_rtc s (Some e) 2 [7] = (s', 2 + n, n)) /\
  (no_free (ex_volume None) s' \/ holds (ex_volume None) s' [(k, NFile [0; 0; 7])]).
Proof.
  destruct ex_file_held as (s & k & Hh & Ht & Ha).
  destruct (fat_tree_files (ex_volume None) ex_rtc s [(k, NFile [])] ex_file_path [] [97; 98] k [] (ex_volume_ok None) Hh ltac:(unfold ex_file_path; repeat constructor; lia) ltac:(vm_compute; reflexivity) Ht)
    as (f & e & _ & _ & _ & H). rewrite Ha in H. destruct H as [H _]. destruct (H 2 [7] ltac:(unfold UINT32_MAX; lia)) as (s' & n & c' & Ew & Hn & Hc & sub & sub' & Et & -> & Hh').
  exists s, k, s', n. split; [exact Hh|]. split; [exists e; exact Ew|]. destruct Hc as [[Hc [Hn'|?]]|(_ & ? & _)]; [|by left|by left].
  right. change (n = 1) in Hn'. subst n. injection Et as <-. cbn [tset on_first] in Hh'. unfold tat, tfind in Ht. cbn [twalk List.find fst] in Ht. destruct (k_answers [97; 98] k); [|discriminate].
  rewrite Hc in Hh'. exact Hh'.
Defined.
