(* ===== verification/PeImage.v ===== *)
(** PE images, [kernel/loader/pe_image.c]: validation of an untrusted file, laying it out in
    memory, relocation and symbol lookup.

    The file and the memory are lists of bytes.  Every access is checked: a
    computation is [None] when the code would touch a byte outside of them, and a
    [Some] holds what it returns. *)
From S2P Require Import Prelude KString.

(** ** Checked accesses *)

(** [memcpy] out of a buffer and into one; nothing is touched when there are no bytes to copy. *)
Definition fetch (buf : list Z) (off n : Z) : option (list Z) :=
  if n =? 0 then Some [] else if (0 <=? off) && (off + n <=? zlen buf) then Some (bytes_at buf off n) else None.
Definition put (buf : list Z) (off : Z) (src : list Z) : option (list Z) :=
  if zlen src =? 0 then Some buf else if (0 <=? off) && (off + zlen src <=? zlen buf) then Some (copy_to buf off src) else None.

(** A little-endian field. *)
Definition field (bs : list Z) (off n : Z) : Z := le_value (bytes_at bs off n).
Definition load (buf : list Z) (off n : Z) : option Z := bs ← fetch buf off n; Some (le_value bs).

(** Run a check for each index until one fails. *)
Fixpoint check_all (ids : list Z) (check : Z -> option bool) : option bool :=
  match ids with
  | [] => Some true
  | i :: ids => ok ← check i; if (ok : bool) then check_all ids check else Some false
  end.

(** ** Headers, [pe.h]: the fields the loader uses *)
Definition DOS_HEADER_SIZE : Z := 64.
Definition NT_HEADERS_SIZE : Z := 264.
Definition OPTIONAL_HEADER_SIZE : Z := 240.

Record IMAGE_FILE_HEADER := FileHeader { machine : Z; numberOfSections : Z; sizeOfOptionalHeader : Z; fh_characteristics : Z }.
Record IMAGE_DATA_DIRECTORY := DataDirectory { dd_va : Z; dd_size : Z }.
Record IMAGE_OPTIONAL_HEADER64 := OptionalHeader {
  oh_magic : Z;
  addressOfEntryPoint : Z;
  imageBase : Z;
  sectionAlignment : Z;
  fileAlignment : Z;
  sizeOfImage : Z;
  sizeOfHeaders : Z;
  numberOfRvaAndSizes : Z;
  dataDirectory : list IMAGE_DATA_DIRECTORY;
}.
Record IMAGE_NT_HEADERS64 := NtHeaders { signature : Z; fileHeader : IMAGE_FILE_HEADER; optionalHeader : IMAGE_OPTIONAL_HEADER64 }.
Record IMAGE_SECTION_HEADER := SectionHeader { virtualSize : Z; virtualAddress : Z; sizeOfRawData : Z; pointerToRawData : Z; sh_characteristics : Z }.

Definition nt_of (bs : list Z) : IMAGE_NT_HEADERS64 :=
  NtHeaders (field bs 0 4)
    (FileHeader (field bs 4 2) (field bs 6 2) (field bs 20 2) (field bs 22 2))
    (OptionalHeader (field bs 24 2) (field bs 40 4) (field bs 48 8) (field bs 56 4) (field bs 60 4) (field bs 80 4) (field bs 84 4) (field bs 132 4)
       ((fun i => DataDirectory (field bs (136 + 8 * i) 4) (field bs (140 + 8 * i) 4)) <$> seqZ 0 16)).

Definition section_of (bs : list Z) : IMAGE_SECTION_HEADER :=
  SectionHeader (field bs 8 4) (field bs 12 4) (field bs 16 4) (field bs 20 4) (field bs 36 4).

(** ** The image, [pe_image.h] *)
Definition PE_MAX_IMAGE : Z := 16 * 1024 * 1024.

Record pe_image := PeImage { nt : IMAGE_NT_HEADERS64; pe_file : list Z; sections_offset : Z }.

Definition image_bytes (im : pe_image) : Z := sizeOfImage (optionalHeader (nt im)).
Definition directory_entry (o : IMAGE_OPTIONAL_HEADER64) (i : Z) : IMAGE_DATA_DIRECTORY := default (DataDirectory 0 0) (dataDirectory o !! Z.to_nat i).

Definition pe_image_range (size rva bytes : Z) : bool := (rva <=? size) && (bytes <=? size - rva).

(** The offset of the string, when it ends before [size]. *)
Fixpoint string_ends (n : nat) (memory : list Z) (i : Z) : option bool :=
  match n with
  | O => Some false
  | S n => c ← load memory i 1; if c =? 0 then Some true else string_ends n memory (i + 1)
  end.
Definition pe_image_string (memory : list Z) (size rva : Z) : option (option Z) :=
  if rva >=? size then Some None else
  ends ← string_ends (Z.to_nat (size - rva)) memory rva;
  Some (if (ends : bool) then Some rva else None).

Definition file_range (size offset length : Z) : bool := (offset <=? size) && (length <=? size - offset).

(** ** Parsing *)
Definition section_header (file : list Z) (sections i : Z) : option IMAGE_SECTION_HEADER :=
  bs ← fetch file (sections + i * 40) 40; Some (section_of bs).

Definition span (sh : IMAGE_SECTION_HEADER) : Z := if virtualSize sh >? sizeOfRawData sh then virtualSize sh else sizeOfRawData sh.
Definition page_end (sh : IMAGE_SECTION_HEADER) : Z := Z.land (virtualAddress sh + span sh + 4095) (not64 4095).

(** [(sizeOfHeaders + 4095) & ~4095u] *)
Definition headers_end (o : IMAGE_OPTIONAL_HEADER64) : Z := Z.land (u32 (sizeOfHeaders o + 4095)) (2 ^ 32 - 1 - 4095).

(** Whether section [j] leaves the pages of section [sh] alone. *)
Definition no_overlap (file : list Z) (sections : Z) (sh : IMAGE_SECTION_HEADER) (j : Z) : option bool :=
  prev ← section_header file sections j;
  Some (negb (negb (span prev =? 0) && (virtualAddress sh <? page_end prev) && (virtualAddress prev <? page_end sh))).

Definition section_valid (file : list Z) (o : IMAGE_OPTIONAL_HEADER64) (sections i : Z) : option bool :=
  sh ← section_header file sections i;
  if span sh =? 0 then Some true else
  if (virtualAddress sh &? 4095) || (virtualAddress sh <? headers_end o) ||
     negb (pe_image_range (sizeOfImage o) (virtualAddress sh) (span sh)) || negb (file_range (zlen file) (pointerToRawData sh) (sizeOfRawData sh))
  then Some false
  else check_all (seqZ 0 i) (no_overlap file sections sh).

(** Whether the entry point lies in one of the sections [ids] that is executable. *)
Fixpoint entry_executable (ids : list Z) (file : list Z) (sections entry : Z) (executable : bool) : option bool :=
  match ids with
  | [] => Some executable
  | i :: ids =>
      sh ← section_header file sections i;
      entry_executable ids file sections entry
        (if (sh_characteristics sh &? 0x20000000) && (entry >=? virtualAddress sh) && (entry - virtualAddress sh <? virtualSize sh) then true else executable)
  end.

Definition headers_valid (n : IMAGE_NT_HEADERS64) (size : Z) : bool :=
  let o := optionalHeader n in
  negb (negb (signature n =? 0x4550) || negb (machine (fileHeader n) =? 0x8664) || negb (oh_magic o =? 0x20b) ||
        negb (sizeOfOptionalHeader (fileHeader n) =? OPTIONAL_HEADER_SIZE) || (numberOfSections (fileHeader n) =? 0) ||
        (numberOfSections (fileHeader n) >? 96) || (sizeOfImage o =? 0) || (sizeOfImage o >? PE_MAX_IMAGE) ||
        (sizeOfImage o &? 4095) || negb (sectionAlignment o =? 4096) || (fileAlignment o =? 0) ||
        (fileAlignment o >? 4096) || (fileAlignment o &? u32 (fileAlignment o - 1)) || (sizeOfHeaders o =? 0) ||
        (sizeOfHeaders o >? sizeOfImage o) || (sizeOfHeaders o >? size) || (numberOfRvaAndSizes o >? 16) ||
        (addressOfEntryPoint o >=? sizeOfImage o)).

(** Directory 4 is a file offset and not checked; those behind the last are cleared. *)
Definition directories_valid (o : IMAGE_OPTIONAL_HEADER64) : bool :=
  forallb (fun i => (i =? 4) || pe_image_range (sizeOfImage o) (dd_va (directory_entry o i)) (dd_size (directory_entry o i))) (seqZ 0 (numberOfRvaAndSizes o)).
Definition clear_directories (o : IMAGE_OPTIONAL_HEADER64) : IMAGE_OPTIONAL_HEADER64 :=
  OptionalHeader (oh_magic o) (addressOfEntryPoint o) (imageBase o) (sectionAlignment o) (fileAlignment o) (sizeOfImage o) (sizeOfHeaders o) (numberOfRvaAndSizes o)
    ((fun i => if i <? numberOfRvaAndSizes o then directory_entry o i else DataDirectory 0 0) <$> seqZ 0 16).

Definition pe_image_parse (file : list Z) : option (option pe_image) :=
  let size := zlen file in
  if size <? DOS_HEADER_SIZE then Some None else
  dos ← fetch file 0 DOS_HEADER_SIZE;
  let e_lfanew := field dos 60 4 in
  if negb (field dos 0 2 =? 0x5a4d) || negb (file_range size e_lfanew NT_HEADERS_SIZE) then Some None else
  bs ← fetch file e_lfanew NT_HEADERS_SIZE;
  let n := nt_of bs in
  if negb (headers_valid n size) then Some None else
  let o := optionalHeader n in
  let count := numberOfSections (fileHeader n) in
  let sections := e_lfanew + NT_HEADERS_SIZE in
  if negb (file_range size sections (count * 40)) || (sections + count * 40 >? sizeOfHeaders o) then Some None else
  if negb (directories_valid o) then Some None else
  let o := clear_directories o in
  if negb (dd_size (directory_entry o 9) =? 0) || negb (dd_size (directory_entry o 13) =? 0) then Some None else
  ok ← check_all (seqZ 0 count) (section_valid file o sections);
  if negb ok then Some None else
  let im := PeImage (NtHeaders (signature n) (fileHeader n) o) file (u32 sections) in
  if addressOfEntryPoint o =? 0 then Some (Some im) else
  executable ← entry_executable (seqZ 0 count) file sections (addressOfEntryPoint o) false;
  Some (if (executable : bool) then Some im else None).

(** ** Laying out *)
Fixpoint copy_sections (ids : list Z) (im : pe_image) (memory : list Z) : option (list Z) :=
  match ids with
  | [] => Some memory
  | i :: ids =>
      sh ← section_header (pe_file im) (sections_offset im) i;
      raw ← fetch (pe_file im) (pointerToRawData sh) (sizeOfRawData sh);
      memory ← put memory (virtualAddress sh) raw;
      copy_sections ids im memory
  end.

Definition pe_image_materialize (im : pe_image) (memory : list Z) : option (list Z) :=
  memory ← put memory 0 (replicate (Z.to_nat (image_bytes im)) 0);
  headers ← fetch (pe_file im) 0 (sizeOfHeaders (optionalHeader (nt im)));
  memory ← put memory 0 headers;
  copy_sections (seqZ 0 (numberOfSections (fileHeader (nt im)))) im memory.

(** ** Relocating *)

(** One entry of a block; [false] refuses it. *)
Definition relocate_entry (size delta page : Z) (memory : list Z) (entry : Z) : option (list Z * bool) :=
  let kind := Z.shiftr entry 12 in
  if kind =? 0 then Some (memory, true) else
  let target := page + Z.land entry 4095 in
  if negb (kind =? 10) || (target >? size) || negb (pe_image_range size (u32 target) 8) then Some (memory, false) else
  value ← load memory target 8;
  memory ← put memory target (le_bytes 8 (u64 (value + delta)));
  Some (memory, true).

(** [for (u32 p = 8; p < block; p += 2)], [n] entries from [p] on. *)
Fixpoint relocate_block (n : nat) (size delta page base p : Z) (memory : list Z) : option (list Z * bool) :=
  match n with
  | O => Some (memory, true)
  | S n =>
      entry ← load memory (base + p) 2;
      r ← relocate_entry size delta page memory entry;
      let '(memory, ok) := (r : list Z * bool) in
      if ok then relocate_block n size delta page base (p + 2) memory else Some (memory, false)
  end.

(** Out of fuel when there are more blocks than bytes, which the size of a block rules out. *)
Fixpoint relocate_loop (fuel : nat) (size delta : Z) (d : IMAGE_DATA_DIRECTORY) (at_ : Z) (memory : list Z) : option (list Z * bool) :=
  match fuel with
  | O => None
  | S fuel =>
      if negb (at_ <? dd_size d) then Some (memory, true) else
      if dd_size d - at_ <? 8 then Some (memory, false) else
      page ← load memory (dd_va d + at_) 4;
      block ← load memory (dd_va d + at_ + 4) 4;
      if (block <? 8) || (block &? 1) || (block >? dd_size d - at_) then Some (memory, false) else
      r ← relocate_block (Z.to_nat ((block - 8) / 2)) size delta page (dd_va d + at_) 8 memory;
      let '(memory, ok) := (r : list Z * bool) in
      if ok then relocate_loop fuel size delta d (at_ + block) memory else Some (memory, false)
  end.

Definition pe_image_relocate (im : pe_image) (memory : list Z) (base : Z) : option (list Z * bool) :=
  let o := optionalHeader (nt im) in
  let delta := u64 (base - imageBase o) in
  if delta =? 0 then Some (memory, true) else
  let d := directory_entry o 5 in
  if (dd_size d =? 0) || (fh_characteristics (fileHeader (nt im)) &? 1) then Some (memory, false)
  else relocate_loop (S (Z.to_nat (dd_size d))) (sizeOfImage o) delta d 0 memory.

(** ** Exports *)

(** The bytes of the string at an offset. *)
Fixpoint until_zero (l : list Z) : list Z := match l with [] => [] | c :: l => if c =? 0 then [] else c :: until_zero l end.
Definition string_at (memory : list Z) (off : Z) : list Z := until_zero (drop (Z.to_nat off) memory).

(** The ordinal index stored with the name; [inl] returns from the function. *)
Fixpoint find_name (ids : list Z) (memory : list Z) (size nm ord : Z) (name : list Z) : option (unit + Z) :=
  match ids with
  | [] => Some (inr (2 ^ 32 - 1))
  | i :: ids =>
      r ← load memory (nm + i * 4) 4;
      n ← load memory (ord + i * 2) 2;
      s ← pe_image_string memory size r;
      match (s : option Z) with
      | None => Some (inl tt)
      | Some s => if strcmp (string_at memory s) name =? 0 then Some (inr n) else find_name ids memory size nm ord name
      end
  end.

(** The address and the forwarder, if there is one. *)
Definition pe_image_export (im : pe_image) (memory : list Z) (name : option (list Z)) (ordinal : Z) : option (Z * option Z) :=
  let o := optionalHeader (nt im) in
  let d := directory_entry o 0 in
  let size := sizeOfImage o in
  if (dd_size d <? 40) || negb (pe_image_range size (dd_va d) 40) then Some (0, None) else
  e ← fetch memory (dd_va d) 40;
  let base := field e 16 4 in
  let functions := field e 20 4 in
  let names := field e 24 4 in
  let fn := field e 28 4 in
  let nm := field e 32 4 in
  let ord := field e 36 4 in
  if negb (pe_image_range size fn (functions * 4)) || negb (pe_image_range size nm (names * 4)) || negb (pe_image_range size ord (names * 2)) then Some (0, None) else
  found ← match name with
          | Some name => find_name (seqZ 0 names) memory size nm ord name
          | None => Some (inr (if ordinal >=? base then ordinal - base else 2 ^ 32 - 1))
          end;
  match (found : unit + Z) with
  | inl _ => Some (0, None)
  | inr index =>
      if index >=? functions then Some (0, None) else
      rva ← load memory (fn + index * 4) 4;
      if (rva =? 0) || (rva >=? size) then Some (0, None) else
      if (rva >=? dd_va d) && (rva - dd_va d <? dd_size d) then
        s ← pe_image_string memory (u32 (dd_va d + dd_size d)) rva;
        match (s : option Z) with None => Some (0, None) | Some s => Some (rva, Some s) end
      else Some (rva, None)
  end.
