(* ===== verification/PeImageSpec.v ===== *)
(** PE images: validation touches no byte outside the file, the images it accepts are well
    formed, and laying one out puts every byte where its header says. *)
From S2P Require Import Prelude KString PeImage.

Implicit Types (file memory m bs : list Z).

(** ** Accesses *)
Lemma fetch_ok buf off n : 0 <= off -> 0 <= n -> off + n <= zlen buf -> fetch buf off n = Some (bytes_at buf off n).
Proof.
  intros H1 H2 H3. unfold fetch. destruct (Z.eqb_spec n 0) as [->|]; [done|].
  destruct (Z.leb_spec 0 off); [|lia]. by destruct (Z.leb_spec (off + n) (zlen buf)); [|lia].
Qed.

Lemma put_ok buf off src : 0 <= off -> off + zlen src <= zlen buf -> put buf off src = Some (copy_to buf off src).
Proof.
  intros H1 H2. unfold put. destruct (Z.eqb_spec (zlen src) 0) as [E|].
  - assert (src = []) as -> by (apply length_zero_iff_nil; unfold zlen in E; lia). unfold copy_to. cbn. by rewrite Nat.add_0_r, take_drop.
  - destruct (Z.leb_spec 0 off); [|lia]. by destruct (Z.leb_spec (off + zlen src) (zlen buf)); [|lia].
Qed.

Lemma zlen_copy buf off src : 0 <= off -> off + zlen src <= zlen buf -> zlen (copy_to buf off src) = zlen buf.
Proof. intros. unfold zlen in *. by rewrite copy_to_length by lia. Qed.

Lemma zlen_bytes_at buf off n : 0 <= off -> 0 <= n -> off + n <= zlen buf -> zlen (bytes_at buf off n) = n.
Proof. intros. unfold zlen in *. rewrite bytes_at_length by lia. lia. Qed.

Lemma bytes_bytes_at l off n : bytes l -> bytes (bytes_at l off n).
Proof. intros. unfold bytes_at. by apply Forall_take, Forall_drop. Qed.

Lemma bytes_copy_to l off src : bytes l -> bytes src -> bytes (copy_to l off src).
Proof. intros. unfold copy_to. apply Forall_app_2; [by apply Forall_take|]. apply Forall_app_2; [done|by apply Forall_drop]. Qed.

Lemma field_range bs off n : bytes bs -> 0 <= n -> 0 <= field bs off n < 256 ^ n.
Proof.
  intros Hb Hn. unfold field. pose proof (le_value_range _ (bytes_bytes_at bs off n Hb)) as H. assert (zlen (bytes_at bs off n) <= n) by (unfold zlen, bytes_at; rewrite length_take; lia).
  assert (256 ^ zlen (bytes_at bs off n) <= 256 ^ n) by (apply Z.pow_le_mono_r; lia). lia.
Qed.

Lemma load_ok m off n : 0 <= off -> 0 <= n -> off + n <= zlen m -> load m off n = Some (field m off n).
Proof. intros. unfold load. by rewrite fetch_ok. Qed.

Lemma check_all_ok (f : Z -> bool) check ids : (forall i, i ∈ ids -> check i = Some (f i)) -> check_all ids check = Some (forallb f ids).
Proof.
  induction ids as [|i ids IH]; intros H; [done|]. cbn [check_all forallb]. rewrite H by left. cbn [mbind option_bind]. destruct (f i); [|done]. apply IH. intros j Hj. apply H. by right.
Qed.

(** ** Sections *)
Definition sec file (off i : Z) : IMAGE_SECTION_HEADER := section_of (bytes_at file (off + i * 40) 40).

Record sec_ok (sh : IMAGE_SECTION_HEADER) : Prop := {
  so_vsize : 0 <= virtualSize sh < 2 ^ 32;
  so_va : 0 <= virtualAddress sh < 2 ^ 32;
  so_raw : 0 <= sizeOfRawData sh < 2 ^ 32;
  so_ptr : 0 <= pointerToRawData sh < 2 ^ 32;
}.

Lemma sec_range file off i : bytes file -> sec_ok (sec file off i).
Proof. intros Hb. pose proof (bytes_bytes_at file (off + i * 40) 40 Hb) as H. split; cbn; apply (field_range _ _ 4 H); lia. Qed.

Lemma section_header_ok file off count i : 0 <= off -> off + count * 40 <= zlen file -> 0 <= i < count -> section_header file off i = Some (sec file off i).
Proof. intros H1 H2 H3. unfold section_header. rewrite fetch_ok by lia. done. Qed.

Lemma span_range sh : sec_ok sh -> 0 <= span sh < 2 ^ 32 /\ virtualSize sh <= span sh /\ sizeOfRawData sh <= span sh.
Proof. intros [H1 _ H2 _]. unfold span. destruct (Z.gtb_spec (virtualSize sh) (sizeOfRawData sh)); lia. Qed.

Lemma page_end_eq sh : sec_ok sh -> page_end sh = (virtualAddress sh + span sh + 4095) / 4096 * 4096.
Proof.
  intros H. destruct (span_range sh H) as [Hs _]. destruct H as [_ Hv _ _]. unfold page_end. change 4095 with (2 ^ 12 - 1) at 2. rewrite land_not64_ones by lia.
  change (2 ^ 12) with 4096. pose proof (Z.div_mod (virtualAddress sh + span sh + 4095) 4096). lia.
Qed.

Lemma page_end_le sh : sec_ok sh -> virtualAddress sh + span sh <= page_end sh.
Proof. intros H. rewrite page_end_eq by done. pose proof (Z.div_mod (virtualAddress sh + span sh + 4095) 4096). pose proof (Z.mod_pos_bound (virtualAddress sh + span sh + 4095) 4096). lia. Qed.

(** A section that occupies memory, and what is required of it. *)
Definition sec_fits (o : IMAGE_OPTIONAL_HEADER64) (size : Z) (sh : IMAGE_SECTION_HEADER) : Prop :=
  span sh <> 0 -> virtualAddress sh mod 4096 = 0 /\ headers_end o <= virtualAddress sh /\ virtualAddress sh + span sh <= sizeOfImage o /\ pointerToRawData sh + sizeOfRawData sh <= size.
Definition sec_apart (a b : IMAGE_SECTION_HEADER) : Prop := span a <> 0 -> span b <> 0 -> page_end a <= virtualAddress b \/ page_end b <= virtualAddress a.

Lemma sec_apart_sym a b : sec_apart a b -> sec_apart b a.
Proof. intros H H1 H2. destruct (H H2 H1); auto. Qed.

Section Sections.
Context (file : list Z) (o : IMAGE_OPTIONAL_HEADER64) (off count : Z).
Context (Hfile : bytes file) (Hoff : 0 <= off) (Hcount : off + count * 40 <= zlen file) (Hhdr : 0 <= sizeOfHeaders o <= PE_MAX_IMAGE).
Abbreviation sec := (sec file off).

Definition apart_b (a b : IMAGE_SECTION_HEADER) : bool := negb (negb (span b =? 0) && (virtualAddress a <? page_end b) && (virtualAddress b <? page_end a)).
Definition fits_b (sh : IMAGE_SECTION_HEADER) : bool :=
  negb ((virtualAddress sh &? 4095) || (virtualAddress sh <? headers_end o) ||
     negb (pe_image_range (sizeOfImage o) (virtualAddress sh) (span sh)) || negb (file_range (zlen file) (pointerToRawData sh) (sizeOfRawData sh))).
Definition valid_b (i : Z) : bool := (span (sec i) =? 0) || (fits_b (sec i) && forallb (fun j => apart_b (sec i) (sec j)) (seqZ 0 i)).

Lemma section_valid_ok i : 0 <= i < count -> section_valid file o off i = Some (valid_b i).
Proof.
  intros Hi. unfold section_valid, valid_b. rewrite (section_header_ok file off count) by done. cbn [mbind option_bind]. fold (sec i). destruct (span (sec i) =? 0); [done|]. cbn [orb]. unfold fits_b.
  destruct (_ || _); [done|]. cbn [negb andb]. apply check_all_ok. intros j Hj%elem_of_seqZ. unfold no_overlap. by rewrite (section_header_ok file off count) by lia.
Qed.

Lemma page_aligned va : 0 <= va -> (va &? 4095) = false -> va mod 4096 = 0.
Proof. intros Hva H. apply negb_false_iff, Z.eqb_eq in H. change 4095 with (Z.ones 12) in H. by rewrite Z.land_ones in H by lia. Qed.

Lemma fits_ok sh : sec_ok sh -> span sh <> 0 -> fits_b sh = true -> sec_fits o (zlen file) sh.
Proof.
  intros Hs Hn H _. apply negb_true_iff in H. apply orb_false_iff in H as [H H4]. apply orb_false_iff in H as [H H3]. apply orb_false_iff in H as [H1 H2].
  apply negb_false_iff in H3, H4. unfold pe_image_range in H3. unfold file_range in H4. pose proof (page_aligned (virtualAddress sh) (proj1 (so_va sh Hs)) H1). clear H1. zbool. destruct Hs. split; [done|]. lia.
Qed.

Lemma sections_ok : forallb valid_b (seqZ 0 count) = true ->
  (forall i, 0 <= i < count -> sec_fits o (zlen file) (sec i)) /\ (forall i j, 0 <= i < count -> 0 <= j < count -> i <> j -> sec_apart (sec i) (sec j)).
Proof.
  intros H. rewrite forallb_forall in H. assert (Hv : forall i, 0 <= i < count -> valid_b i = true) by (intros i Hi; apply H, list_elem_of_In, elem_of_seqZ; lia). clear H.
  assert (Hlt : forall i j, 0 <= j < i -> i < count -> sec_apart (sec i) (sec j)).
  { intros i j Hj Hi Hs1 Hs2. specialize (Hv i ltac:(lia)). unfold valid_b in Hv. destruct (Z.eqb_spec (span (sec i)) 0); [done|]. cbn [orb] in Hv. apply andb_prop in Hv as [_ Hv].
    rewrite forallb_forall in Hv. specialize (Hv j ltac:(apply list_elem_of_In, elem_of_seqZ; lia)). unfold apart_b in Hv.
    destruct (Z.eqb_spec (span (sec j)) 0); [done|]. cbn [negb andb] in Hv. destruct (Z.ltb_spec (virtualAddress (sec i)) (page_end (sec j))); [|by right]. destruct (Z.ltb_spec (virtualAddress (sec j)) (page_end (sec i))); [done|by left]. }
  split.
  - intros i Hi Hn. specialize (Hv i Hi). unfold valid_b in Hv. destruct (Z.eqb_spec (span (sec i)) 0); [done|]. cbn [orb] in Hv. apply andb_prop in Hv as [Hv _]. apply fits_ok; [by apply sec_range|done|done|done].
  - intros i j Hi Hj Hne. destruct (Z.lt_ge_cases j i); [by apply Hlt; lia|]. apply sec_apart_sym, Hlt; lia.
Qed.

(** The sections that hold the entry point as code. *)
Definition enters (entry : Z) (sh : IMAGE_SECTION_HEADER) : bool :=
  (sh_characteristics sh &? 0x20000000) && (entry >=? virtualAddress sh) && (entry - virtualAddress sh <? virtualSize sh).

Lemma entry_executable_ok entry : forall ids b, (forall i, i ∈ ids -> 0 <= i < count) -> entry_executable ids file off entry b = Some (b || existsb (fun i => enters entry (sec i)) ids).
Proof.
  induction ids as [|i ids IH]; intros b Hi; cbn [entry_executable existsb]; [by rewrite orb_false_r|].
  rewrite (section_header_ok file off count) by (done || apply Hi; left). cbn [mbind option_bind]. rewrite IH by (intros j Hj; apply Hi; by right). f_equal. unfold enters.
  destruct (_ && _); [by rewrite orb_true_r|done].
Qed.

Lemma headers_end_le : sizeOfHeaders o <= headers_end o.
Proof.
  unfold headers_end. unfold PE_MAX_IMAGE in Hhdr. rewrite u32_small by lia. set (x := sizeOfHeaders o + 4095). change (2 ^ 32 - 1 - 4095) with (Z.shiftl (Z.ones 20) 12).
  assert (E : Z.land x (Z.shiftl (Z.ones 20) 12) = Z.shiftl (Z.land (Z.shiftr x 12) (Z.ones 20)) 12).
  { apply Z.bits_inj'. intros k Hk. rewrite Z.land_spec, !Z.shiftl_spec by lia. destruct (Z.lt_ge_cases k 12); [by rewrite !(Z.testbit_neg_r _ (k - 12)), andb_false_r by lia|].
    rewrite Z.land_spec, Z.shiftr_spec by lia. by replace (k - 12 + 12) with k by lia. }
  rewrite E, Z.land_ones, Z.shiftr_div_pow2, Z.shiftl_mul_pow2 by lia. change (2 ^ 12) with 4096. pose proof (Z.div_mod x 4096). pose proof (Z.mod_pos_bound x 4096).
  rewrite Z.mod_small; [lia|]. split; [apply Z.div_pos; lia|]. apply Z.div_lt_upper_bound; lia.
Qed.
End Sections.

(** ** Valid images *)
Definition secs (im : pe_image) : Z -> IMAGE_SECTION_HEADER := sec (pe_file im) (sections_offset im).
Definition sec_count (im : pe_image) : Z := numberOfSections (fileHeader (nt im)).

Record pe_ok (im : pe_image) : Prop := {
  po_file : bytes (pe_file im);
  po_size : 0 < image_bytes im <= PE_MAX_IMAGE;
  po_aligned : image_bytes im mod 4096 = 0;
  po_headers : 0 < sizeOfHeaders (optionalHeader (nt im)) <= image_bytes im /\ sizeOfHeaders (optionalHeader (nt im)) <= zlen (pe_file im);
  po_count : 1 <= sec_count im <= 96;
  po_offset : 0 <= sections_offset im /\ sections_offset im + sec_count im * 40 <= sizeOfHeaders (optionalHeader (nt im));
  po_fits : forall i, 0 <= i < sec_count im -> sec_fits (optionalHeader (nt im)) (zlen (pe_file im)) (secs im i);
  po_apart : forall i j, 0 <= i < sec_count im -> 0 <= j < sec_count im -> i <> j -> sec_apart (secs im i) (secs im j);
  po_dirs : forall i, 0 <= i < 16 -> i <> 4 -> 0 <= dd_va (directory_entry (optionalHeader (nt im)) i) /\ 0 <= dd_size (directory_entry (optionalHeader (nt im)) i) /\
    dd_va (directory_entry (optionalHeader (nt im)) i) + dd_size (directory_entry (optionalHeader (nt im)) i) <= image_bytes im;
  po_entry : addressOfEntryPoint (optionalHeader (nt im)) = 0 \/ exists i, 0 <= i < sec_count im /\ enters (addressOfEntryPoint (optionalHeader (nt im))) (secs im i) = true;
}.

(** The fields of the headers that bound others. *)
Record hdr_ok (n : IMAGE_NT_HEADERS64) (size : Z) : Prop := {
  ho_count : 1 <= numberOfSections (fileHeader n) <= 96;
  ho_size : 0 < sizeOfImage (optionalHeader n) <= PE_MAX_IMAGE;
  ho_aligned : sizeOfImage (optionalHeader n) mod 4096 = 0;
  ho_headers : 0 < sizeOfHeaders (optionalHeader n) <= sizeOfImage (optionalHeader n) /\ sizeOfHeaders (optionalHeader n) <= size;
  ho_dirs : 0 <= numberOfRvaAndSizes (optionalHeader n) <= 16;
}.

Lemma headers_valid_ok bs size : bytes bs -> headers_valid (nt_of bs) size = true -> hdr_ok (nt_of bs) size.
Proof.
  intros Hb H. unfold headers_valid in H. cbv zeta in H. apply negb_true_iff in H. repeat (apply orb_false_iff in H as [H ?]).
  match goal with H : (sizeOfImage _ &? 4095) = false |- _ => apply page_aligned in H; [|cbn; by apply (field_range bs 80 4 Hb)] end.
  assert (R1 : 0 <= numberOfSections (fileHeader (nt_of bs)) < 256 ^ 2) by (apply (field_range bs 6 2 Hb); lia).
  assert (R2 : 0 <= sizeOfImage (optionalHeader (nt_of bs)) < 256 ^ 4) by (apply (field_range bs 80 4 Hb); lia).
  assert (R3 : 0 <= sizeOfHeaders (optionalHeader (nt_of bs)) < 256 ^ 4) by (apply (field_range bs 84 4 Hb); lia).
  assert (R4 : 0 <= numberOfRvaAndSizes (optionalHeader (nt_of bs)) < 256 ^ 4) by (apply (field_range bs 132 4 Hb); lia).
  split; try done; lia.
Qed.

Lemma directory_of bs i : 0 <= i < 16 -> directory_entry (optionalHeader (nt_of bs)) i = DataDirectory (field bs (136 + 8 * i) 4) (field bs (140 + 8 * i) 4).
Proof. intros Hi. unfold directory_entry, nt_of. cbn [optionalHeader dataDirectory]. rewrite list_lookup_fmap, lookup_seqZ_lt by lia. cbn. do 3 f_equal; lia. Qed.

Lemma directories_ok bs i : bytes bs -> 0 <= numberOfRvaAndSizes (optionalHeader (nt_of bs)) <= 16 -> 0 <= sizeOfImage (optionalHeader (nt_of bs)) ->
  directories_valid (optionalHeader (nt_of bs)) = true -> 0 <= i < 16 -> i <> 4 ->
  let d := directory_entry (clear_directories (optionalHeader (nt_of bs))) i in 0 <= dd_va d /\ 0 <= dd_size d /\ dd_va d + dd_size d <= sizeOfImage (optionalHeader (nt_of bs)).
Proof.
  intros Hb Hr Hs Hd Hi Hi4. cbv zeta. set (o := optionalHeader (nt_of bs)) in *.
  assert (E : directory_entry (clear_directories o) i = if i <? numberOfRvaAndSizes o then directory_entry o i else DataDirectory 0 0).
  { unfold directory_entry at 1. unfold clear_directories. cbn [dataDirectory]. rewrite list_lookup_fmap, lookup_seqZ_lt by lia. cbn [fmap option_fmap option_map default from_option id]. by rewrite Z.add_0_l, Z2Nat.id by lia. }
  rewrite E. destruct (Z.ltb_spec i (numberOfRvaAndSizes o)); [|cbn [dd_va dd_size]; lia].
  unfold directories_valid in Hd. rewrite forallb_forall in Hd. specialize (Hd i ltac:(apply list_elem_of_In, elem_of_seqZ; lia)). destruct (Z.eqb_spec i 4); [done|]. cbn [orb] in Hd. unfold pe_image_range in Hd. zbool.
  unfold o in *. rewrite directory_of in * by done. cbn [dd_va dd_size] in *. pose proof (field_range bs (136 + 8 * i) 4 Hb). pose proof (field_range bs (140 + 8 * i) 4 Hb). lia.
Qed.

Lemma parse_ok file : bytes file -> exists r, pe_image_parse file = Some r /\ forall im, r = Some im -> pe_ok im /\ pe_file im = file.
Proof.
  intros Hb. unfold pe_image_parse. destruct (Z.ltb_spec (zlen file) DOS_HEADER_SIZE) as [|Hdos]; [by exists None|]. unfold DOS_HEADER_SIZE in *. rewrite fetch_ok by lia. cbn [mbind option_bind].
  set (dos := bytes_at file 0 64). pose proof (field_range dos 60 4 (bytes_bytes_at file 0 64 Hb) ltac:(lia)) as Hlf. set (lf := field dos 60 4) in *.
  destruct (_ || _) eqn:E1; [by exists None|]. apply orb_false_iff in E1 as [_ E1]. apply negb_false_iff in E1. unfold file_range, NT_HEADERS_SIZE in E1. zbool.
  unfold NT_HEADERS_SIZE. rewrite fetch_ok by lia. cbn [mbind option_bind]. set (bs := bytes_at file lf 264). assert (Hbs : bytes bs) by (by apply bytes_bytes_at).
  destruct (headers_valid (nt_of bs) (zlen file)) eqn:E2; cbn [negb]; [|by exists None]. pose proof (headers_valid_ok bs _ Hbs E2) as [Hc Hs Ha Hh Hn].
  destruct (_ || _) eqn:E3; [by exists None|]. apply orb_false_iff in E3 as [E3 E4]. apply negb_false_iff in E3. unfold file_range in E3. zbool.
  destruct (directories_valid _) eqn:E5; cbn [negb]; [|by exists None]. destruct (_ || _); [by exists None|]. set (o := clear_directories _). set (count := numberOfSections _) in *.
  assert (Hcount : (lf + 264) + count * 40 <= zlen file) by lia.
  rewrite (check_all_ok (valid_b file o (lf + 264))) by (intros i Hi%elem_of_seqZ; apply (section_valid_ok file o (lf + 264) count); lia). cbn [mbind option_bind].
  destruct (forallb _ _) eqn:E6; cbn [negb]; [|by exists None]. destruct (sections_ok file o (lf + 264) count Hb E6) as [Hfit Hap].
  assert (Hok : addressOfEntryPoint o = 0 \/ existsb (fun i => enters (addressOfEntryPoint o) (sec file (lf + 264) i)) (seqZ 0 count) = true ->
    pe_ok (PeImage (NtHeaders (signature (nt_of bs)) (fileHeader (nt_of bs)) o) file (u32 (lf + 264)))).
  { intros He. assert (Eu : u32 (lf + 264) = lf + 264) by (unfold PE_MAX_IMAGE in Hs; apply u32_small; lia). rewrite Eu.
    assert (Eh : sizeOfHeaders o = sizeOfHeaders (optionalHeader (nt_of bs))) by done.
    split; cbn [pe_file nt optionalHeader fileHeader sections_offset]; unfold image_bytes, sec_count, secs; cbn [pe_file nt optionalHeader fileHeader sections_offset]; try done; [lia| |].
    - intros i Hi Hi4. by apply directories_ok; [|lia|lia| | |].
    - destruct He as [He|He]; [by left|right]. apply existsb_exists in He as (i & Hi & He). exists i. split; [|done]. apply list_elem_of_In, elem_of_seqZ in Hi. lia. }
  destruct (Z.eqb_spec (addressOfEntryPoint o) 0) as [E7|E7]; [eexists; split; [done|]; intros im [= <-]; split; [apply Hok; by left|done]|].
  rewrite (entry_executable_ok file (lf + 264) count) by (lia || (intros i Hi%elem_of_seqZ; lia)). cbn [mbind option_bind orb]. destruct (existsb _ _) eqn:E8; [|by exists None].
  eexists. split; [done|]. intros im [= <-]. split; [apply Hok; by right|done].
Qed.

(** ** Laying out *)
Lemma zlen_replicate (n : Z) (x : Z) : 0 <= n -> zlen (replicate (Z.to_nat n) x) = n.
Proof. intros. unfold zlen. rewrite length_replicate. lia. Qed.

Lemma copied_in m off src k : 0 <= off -> off + zlen src <= zlen m -> 0 <= k < zlen src -> copy_to m off src !! Z.to_nat (off + k) = src !! Z.to_nat k.
Proof. intros H1 H2 Hk. unfold zlen in *. rewrite copy_to_lookup by done. rewrite decide_True by lia. f_equal. lia. Qed.

Lemma copied_out m off src x : 0 <= off -> off + zlen src <= zlen m -> 0 <= x -> ~ off <= x < off + zlen src -> copy_to m off src !! Z.to_nat x = m !! Z.to_nat x.
Proof. intros H1 H2 Hk Hx. unfold zlen in *. rewrite copy_to_lookup by done. by rewrite decide_False by lia. Qed.

(** Whether the file supplies the byte at [x] through the section. *)
Definition covers (sh : IMAGE_SECTION_HEADER) (x : Z) : Prop := virtualAddress sh <= x < virtualAddress sh + sizeOfRawData sh.

Section Layout.
Context (im : pe_image) (Him : pe_ok im).

Lemma secs_ok i : sec_ok (secs im i).
Proof. apply sec_range, Him. Qed.

Lemma secs_header i : 0 <= i < sec_count im -> section_header (pe_file im) (sections_offset im) i = Some (secs im i).
Proof. intros Hi. pose proof (po_offset im Him). pose proof (po_headers im Him). apply (section_header_ok _ _ (sec_count im)); lia. Qed.

(** Where the data of a section lies, when it has some. *)
Lemma raw_fits i : 0 <= i < sec_count im -> 0 < sizeOfRawData (secs im i) ->
  sizeOfHeaders (optionalHeader (nt im)) <= virtualAddress (secs im i) /\ virtualAddress (secs im i) + sizeOfRawData (secs im i) <= image_bytes im /\
  pointerToRawData (secs im i) + sizeOfRawData (secs im i) <= zlen (pe_file im).
Proof.
  intros Hi Hr. destruct (span_range _ (secs_ok i)) as (H1 & H2 & H3). destruct (po_fits im Him i Hi ltac:(lia)) as (_ & Hh & Ha & Hp).
  pose proof (headers_end_le (optionalHeader (nt im))) as He. pose proof (po_headers im Him). pose proof (po_size im Him). unfold image_bytes in *. lia.
Qed.

Lemma covers_one i j x : 0 <= i < sec_count im -> 0 <= j < sec_count im -> covers (secs im i) x -> covers (secs im j) x -> i = j.
Proof.
  unfold covers. intros Hi Hj Hx Hy. destruct (Z.eq_dec i j) as [|Hne]; [done|exfalso]. pose proof (span_range _ (secs_ok i)). pose proof (span_range _ (secs_ok j)).
  pose proof (page_end_le _ (secs_ok i)). pose proof (page_end_le _ (secs_ok j)). destruct (po_apart im Him i j Hi Hj Hne); lia.
Qed.

Lemma copy_section i m : 0 <= i < sec_count im -> zlen m = image_bytes im -> exists m1,
  (raw ← fetch (pe_file im) (pointerToRawData (secs im i)) (sizeOfRawData (secs im i)); put m (virtualAddress (secs im i)) raw) = Some m1 /\
  zlen m1 = image_bytes im /\
  (forall k, 0 <= k < sizeOfRawData (secs im i) -> m1 !! Z.to_nat (virtualAddress (secs im i) + k) = pe_file im !! Z.to_nat (pointerToRawData (secs im i) + k)) /\
  (forall x, 0 <= x -> ~ covers (secs im i) x -> m1 !! Z.to_nat x = m !! Z.to_nat x).
Proof.
  intros Hi Hm. destruct (secs_ok i) as [_ Hv Hr Hp]. destruct (Z.eq_dec (sizeOfRawData (secs im i)) 0) as [E|E].
  - exists m. rewrite E. split; [done|]. split; [done|]. split; [lia|done].
  - pose proof (raw_fits i Hi ltac:(lia)) as (_ & Ha & Hf). rewrite fetch_ok by lia. cbn [mbind option_bind]. set (raw := bytes_at _ _ _).
    assert (Hl : zlen raw = sizeOfRawData (secs im i)) by (apply zlen_bytes_at; lia). rewrite put_ok by lia. eexists. split; [done|]. split; [rewrite zlen_copy; lia|]. split.
    + intros k Hk. rewrite copied_in by lia. unfold raw. rewrite bytes_at_lookup by lia. f_equal. lia.
    + intros x Hx Hc. unfold covers in Hc. apply copied_out; lia.
Qed.

Lemma copy_sections_ok : forall ids m, NoDup ids -> (forall i, i ∈ ids -> 0 <= i < sec_count im) -> zlen m = image_bytes im -> exists m1,
  copy_sections ids im m = Some m1 /\ zlen m1 = image_bytes im /\
  (forall i k, i ∈ ids -> 0 <= k < sizeOfRawData (secs im i) -> m1 !! Z.to_nat (virtualAddress (secs im i) + k) = pe_file im !! Z.to_nat (pointerToRawData (secs im i) + k)) /\
  (forall x, 0 <= x -> (forall i, i ∈ ids -> ~ covers (secs im i) x) -> m1 !! Z.to_nat x = m !! Z.to_nat x).
Proof.
  induction ids as [|i ids IH]; intros m Hnd Hids Hm; cbn [copy_sections]; [exists m; repeat split; try done; set_solver|].
  apply list.NoDup_cons in Hnd as [Hni Hnd]. assert (Hi : 0 <= i < sec_count im) by (apply Hids; left). rewrite secs_header by done. cbn [mbind option_bind].
  destruct (copy_section i m Hi Hm) as (m1 & E1 & Hm1 & Hin & Hout). destruct (fetch _ _ _) as [raw|]; [|done]. cbn [mbind option_bind] in *. rewrite E1. cbn [mbind option_bind].
  destruct (IH m1 Hnd ltac:(set_solver) Hm1) as (m2 & E2 & Hm2 & Hin2 & Hout2). exists m2. split; [done|]. split; [done|]. split.
  - intros j k Hj Hk. apply elem_of_cons in Hj as [->|Hj]; [|by apply Hin2]. rewrite <- Hin by done. destruct (secs_ok i) as [_ Hv _ _]. apply Hout2; [lia|].
    intros j Hj Hc. assert (i = j) by (apply (covers_one i j (virtualAddress (secs im i) + k)); [done|apply Hids; by right|unfold covers; lia|done]). by subst.
  - intros x Hx Hc. rewrite Hout2 by set_solver. apply Hout; [done|]. apply Hc. left.
Qed.

Lemma materialize_ok m : zlen m = image_bytes im -> exists m1, pe_image_materialize im m = Some m1 /\ zlen m1 = image_bytes im /\
  (forall x, 0 <= x < sizeOfHeaders (optionalHeader (nt im)) -> m1 !! Z.to_nat x = pe_file im !! Z.to_nat x) /\
  (forall i k, 0 <= i < sec_count im -> 0 <= k < sizeOfRawData (secs im i) -> m1 !! Z.to_nat (virtualAddress (secs im i) + k) = pe_file im !! Z.to_nat (pointerToRawData (secs im i) + k)) /\
  (forall x, sizeOfHeaders (optionalHeader (nt im)) <= x < image_bytes im -> (forall i, 0 <= i < sec_count im -> ~ covers (secs im i) x) -> m1 !! Z.to_nat x = Some 0).
Proof.
  intros Hm. pose proof (po_size im Him) as Hs. pose proof (po_headers im Him) as Hh. unfold pe_image_materialize. set (o := optionalHeader (nt im)) in *. pose proof (zlen_replicate (image_bytes im) 0 ltac:(lia)) as Hz.
  rewrite put_ok by lia. cbn [mbind option_bind]. rewrite fetch_ok by lia. cbn [mbind option_bind]. set (hd := bytes_at _ _ _).
  assert (Hl : zlen hd = sizeOfHeaders o) by (apply zlen_bytes_at; lia). set (m0 := copy_to m 0 _). assert (Hm0 : zlen m0 = image_bytes im) by (unfold m0; rewrite zlen_copy; lia).
  rewrite put_ok by lia. cbn [mbind option_bind]. destruct (copy_sections_ok (seqZ 0 (sec_count im)) (copy_to m0 0 hd)) as (m1 & E1 & Hm1 & Hin & Hout);
    [apply NoDup_seqZ|intros i Hi%elem_of_seqZ; lia|by rewrite zlen_copy by lia|].
  exists m1. split; [done|]. split; [done|]. split; [|split].
  - intros x Hx. rewrite Hout; [|lia|].
    + change x with (0 + x) at 1. rewrite copied_in by lia. unfold hd. rewrite bytes_at_lookup by lia. f_equal.
    + intros i Hi%elem_of_seqZ Hc. unfold covers in Hc. pose proof (raw_fits i ltac:(lia) ltac:(lia)) as [Hf _]. unfold o in *. lia.
  - intros i k Hi Hk. apply Hin; [apply elem_of_seqZ; lia|done].
  - intros x Hx Hc. rewrite Hout by (lia || intros i Hi%elem_of_seqZ; apply Hc; lia). rewrite copied_out by lia. unfold m0. change x with (0 + x) at 1. rewrite copied_in by lia.
    apply lookup_replicate_2. lia.
Qed.
End Layout.

Lemma fetch_bytes l off n r : bytes l -> fetch l off n = Some r -> bytes r.
Proof. unfold fetch. intros Hb H. repeat case_match; simplify_eq; [constructor|by apply bytes_bytes_at]. Qed.

Lemma put_bytes l off src r : bytes l -> bytes src -> put l off src = Some r -> bytes r.
Proof. unfold put. intros Hb Hs H. repeat case_match; simplify_eq; [done|by apply bytes_copy_to]. Qed.

Lemma copy_sections_bytes im : bytes (pe_file im) -> forall ids m r, bytes m -> copy_sections ids im m = Some r -> bytes r.
Proof.
  intros Hf. induction ids as [|i ids IH]; intros m r Hb H; cbn [copy_sections] in H; [by simplify_eq|].
  apply bind_Some in H as (sh & _ & H). apply bind_Some in H as (raw & E1 & H). apply bind_Some in H as (m1 & E2 & H). eapply IH, H. eapply put_bytes, E2; [done|]. by eapply fetch_bytes, E1.
Qed.

Lemma materialize_bytes im m r : bytes (pe_file im) -> bytes m -> pe_image_materialize im m = Some r -> bytes r.
Proof.
  intros Hf Hb H. unfold pe_image_materialize in H. apply bind_Some in H as (m1 & E1 & H). apply bind_Some in H as (hd & E2 & H). apply bind_Some in H as (m2 & E3 & H).
  eapply copy_sections_bytes, H; [done|]. eapply put_bytes, E3; [|by eapply fetch_bytes, E2]. eapply put_bytes, E1; [done|]. apply Forall_replicate. lia.
Qed.
