(* ===== verification/PeLoad.v ===== *)
(** PE images in memory: relocation and export lookup stay inside the memory whatever it holds,
    relocation moves the words its table names, lookup returns the entry asked for; and the
    fixture of the program's own test. *)
From S2P Require Import Prelude KString PeImage PeImageSpec.

Implicit Types (file memory m bs : list Z).

(** ** Relocating *)
Lemma bytes_at_copy_out m off src a n : 0 <= off -> off + zlen src <= zlen m -> 0 <= a -> 0 <= n -> a + n <= off \/ off + zlen src <= a ->
  bytes_at (copy_to m off src) a n = bytes_at m a n.
Proof.
  intros H1 H2 Ha Hn Hd. apply list_eq. intros i. destruct (Z.lt_ge_cases (Z.of_nat i) n) as [Hi|Hi].
  - rewrite !bytes_at_lookup by lia. unfold zlen in *. rewrite copy_to_lookup by lia. by rewrite decide_False by lia.
  - unfold bytes_at. by rewrite !lookup_take_ge by lia.
Qed.

Lemma bytes_at_copy_in m off src : 0 <= off -> off + zlen src <= zlen m -> bytes_at (copy_to m off src) off (zlen src) = src.
Proof.
  intros H1 H2. unfold zlen in *. unfold bytes_at, copy_to. rewrite drop_app_length' by (rewrite length_take; lia). by rewrite take_app_length' by lia.
Qed.

(** One 64-bit word moved by [delta]. *)
Definition add64 (delta : Z) (m : list Z) (t : Z) : list Z := copy_to m t (le_bytes 8 (u64 (field m t 8 + delta))).

Lemma add64_length delta m t : 0 <= t -> t + 8 <= zlen m -> zlen (add64 delta m t) = zlen m.
Proof. intros. apply zlen_copy; rewrite ?le_bytes_length; lia. Qed.

Lemma add64_out delta m t a n : 0 <= t -> t + 8 <= zlen m -> 0 <= a -> 0 <= n -> a + n <= t \/ t + 8 <= a -> bytes_at (add64 delta m t) a n = bytes_at m a n.
Proof. intros. apply bytes_at_copy_out; rewrite ?le_bytes_length; lia. Qed.

Lemma add64_in delta m t : 0 <= t -> t + 8 <= zlen m -> field (add64 delta m t) t 8 = u64 (field m t 8 + delta).
Proof.
  intros H1 H2. unfold field at 1, add64. set (x := u64 _). pose proof (le_bytes_length 8 x) as Hl. change (Z.of_nat 8) with 8 in Hl.
  replace (bytes_at _ t 8) with (le_bytes 8 x) by (symmetry; rewrite <- Hl; apply bytes_at_copy_in; lia).
  rewrite le_value_bytes. change (256 ^ Z.of_nat 8) with (2 ^ 64). unfold x, u64. by rewrite Z.mod_mod.
Qed.

Lemma bytes_add64 delta m t : bytes m -> bytes (add64 delta m t).
Proof. intros. apply bytes_copy_to; [done|apply le_bytes_bytes]. Qed.

(** What one entry asks for: [None] when it is refused, otherwise the word to move, if any. *)
Definition entry_target (size page entry : Z) : option (option Z) :=
  if Z.shiftr entry 12 =? 0 then Some None else
  let target := page + Z.land entry 4095 in
  if (Z.shiftr entry 12 =? 10) && (target + 8 <=? size) then Some (Some target) else None.

Lemma entry_target_range size page entry t : 0 <= page -> entry_target size page entry = Some (Some t) -> 0 <= t /\ t + 8 <= size.
Proof.
  unfold entry_target. intros Hp H. assert (0 <= Z.land entry 4095) by (apply Z.land_nonneg; lia). destruct (_ =? 0); [done|]. destruct (_ =? 10); [|done]. cbn [andb] in H.
  destruct (Z.leb_spec (page + Z.land entry 4095 + 8) size); [|done]. simplify_eq. lia.
Qed.

Lemma relocate_entry_ok size delta page m entry : 0 <= size <= PE_MAX_IMAGE -> zlen m = size -> 0 <= page ->
  relocate_entry size delta page m entry =
    Some (match entry_target size page entry with Some (Some t) => (add64 delta m t, true) | Some None => (m, true) | None => (m, false) end).
Proof.
  intros Hs Hm Hp. unfold relocate_entry, entry_target. assert (0 <= Z.land entry 4095) by (apply Z.land_nonneg; lia). destruct (_ =? 0); [done|]. destruct (_ =? 10); [|done]. cbn [negb orb andb].
  set (t := page + Z.land entry 4095) in *. unfold PE_MAX_IMAGE in Hs. unfold pe_image_range. destruct (Z.gtb_spec t size); [by destruct (Z.leb_spec (t + 8) size); [lia|]|]. cbn [orb].
  rewrite u32_small by lia. destruct (Z.leb_spec t size); [|lia]. cbn [andb]. destruct (Z.leb_spec 8 (size - t)), (Z.leb_spec (t + 8) size); try lia; [|done]. cbn [negb].
  rewrite load_ok by lia. cbn [mbind option_bind]. by rewrite put_ok by (rewrite ?le_bytes_length; lia).
Qed.

(** Every word of a list moved by [delta]. *)
Definition add_all (delta : Z) (ts : list Z) (m : list Z) : list Z := foldl (add64 delta) m ts.
Definition clear_of (a n t : Z) : Prop := a + n <= t \/ t + 8 <= a.
Fixpoint spread (ts : list Z) : Prop := match ts with [] => True | t :: ts => Forall (clear_of t 8) ts /\ spread ts end.

Section Words.
Context (delta size : Z).
Abbreviation inside := (fun t => 0 <= t /\ t + 8 <= size).

Lemma add_all_length ts : forall m, zlen m = size -> Forall inside ts -> zlen (add_all delta ts m) = size.
Proof. induction ts as [|t ts IH]; intros m Hm Ht; [done|]. apply Forall_cons_1 in Ht as [[H1 H2] Ht]. cbn. apply IH; [|done]. rewrite add64_length; lia. Qed.

Lemma add_all_out ts a n : 0 <= a -> 0 <= n -> forall m, zlen m = size -> Forall inside ts -> Forall (clear_of a n) ts -> bytes_at (add_all delta ts m) a n = bytes_at m a n.
Proof.
  intros Ha Hn. induction ts as [|t ts IH]; intros m Hm Ht Hc; [done|]. apply Forall_cons_1 in Ht as [[H1 H2] Ht]. apply Forall_cons_1 in Hc as [Hc1 Hc]. cbn.
  unfold add_all in IH. rewrite IH by (rewrite ?add64_length; done || lia). unfold clear_of in Hc1. apply add64_out; lia.
Qed.

Lemma add_all_in ts t : t ∈ ts -> forall m, zlen m = size -> Forall inside ts -> spread ts -> field (add_all delta ts m) t 8 = u64 (field m t 8 + delta).
Proof.
  induction ts as [|u ts IH]; intros Ht m Hm Hi Hsp; [by apply not_elem_of_nil in Ht|]. destruct Hsp as [Hs1 Hs]. apply Forall_cons_1 in Hi as [[H1 H2] Hi]. cbn. assert (Hl : zlen (add64 delta m u) = size) by (rewrite add64_length; lia).
  apply elem_of_cons in Ht as [->|Ht].
  - unfold field at 1. fold (add_all delta ts (add64 delta m u)). rewrite add_all_out by (done || lia). fold (field (add64 delta m u) u 8). apply add64_in; lia.
  - unfold add_all in IH. rewrite IH by done. do 2 f_equal. unfold field. f_equal. rewrite list.Forall_forall in Hs1, Hi. specialize (Hs1 t Ht). specialize (Hi t Ht). unfold clear_of in Hs1. apply add64_out; lia.
Qed.

Lemma bytes_add_all ts : forall m, bytes m -> bytes (add_all delta ts m).
Proof. induction ts as [|t ts IH]; intros m Hm; [done|]. cbn. by apply IH, bytes_add64. Qed.
End Words.

(** The relocation table read before anything is moved: the words it names, up to the first
    entry that is refused, and whether there is none. *)
Fixpoint block_targets (n : nat) (size page base p : Z) (m : list Z) : list Z * bool :=
  match n with
  | O => ([], true)
  | S n =>
      match entry_target size page (field m (base + p) 2) with
      | None => ([], false)
      | Some None => block_targets n size page base (p + 2) m
      | Some (Some t) => let r := block_targets n size page base (p + 2) m in (t :: r.1, r.2)
      end
  end.

Fixpoint table_targets (fuel : nat) (size : Z) (d : IMAGE_DATA_DIRECTORY) (at_ : Z) (m : list Z) : list Z * bool :=
  match fuel with
  | O => ([], false)
  | S fuel =>
      if negb (at_ <? dd_size d) then ([], true) else
      if dd_size d - at_ <? 8 then ([], false) else
      let block := field m (dd_va d + at_ + 4) 4 in
      if (block <? 8) || (block &? 1) || (block >? dd_size d - at_) then ([], false) else
      let r := block_targets (Z.to_nat ((block - 8) / 2)) size (field m (dd_va d + at_) 4) (dd_va d + at_) 8 m in
      if r.2 then let s := table_targets fuel size d (at_ + block) m in (r.1 ++ s.1, s.2) else r
  end.

Section Relocate.
Context (size delta : Z) (d : IMAGE_DATA_DIRECTORY) (Hsize : 0 <= size <= PE_MAX_IMAGE).
Context (Hva : 0 <= dd_va d) (Hds : 0 <= dd_size d) (Hfit : dd_va d + dd_size d <= size).

(** *** Safety: whatever the table holds *)
Lemma relocate_block_safe page base : 0 <= page -> 0 <= base -> forall n p m, 0 <= p -> base + p + 2 * Z.of_nat n <= size -> zlen m = size -> bytes m ->
  exists m1 ok, relocate_block n size delta page base p m = Some (m1, ok) /\ zlen m1 = size /\ bytes m1.
Proof.
  intros Hp Hb. induction n as [|n IH]; intros p m Hp0 Hn Hm Hbm; cbn [relocate_block]; [by exists m, true|].
  rewrite load_ok by lia. cbn [mbind option_bind]. rewrite relocate_entry_ok by (done || lia). cbn [mbind option_bind].
  destruct (entry_target size page _) as [[t|]|] eqn:E; [|apply IH; (done || lia)|by exists m, false].
  apply entry_target_range in E as [H1 H2]; [|done]. apply IH; [lia|lia|rewrite add64_length; lia|by apply bytes_add64].
Qed.

Lemma relocate_loop_safe : forall fuel at_ m, 0 <= at_ <= dd_size d -> dd_size d - at_ < Z.of_nat fuel -> zlen m = size -> bytes m ->
  exists m1 ok, relocate_loop fuel size delta d at_ m = Some (m1, ok) /\ zlen m1 = size /\ bytes m1.
Proof.
  induction fuel as [|fuel IH]; intros at_ m Ha Hf Hm Hb; cbn [relocate_loop]; [lia|].
  destruct (Z.ltb_spec at_ (dd_size d)); cbn [negb]; [|by exists m, true]. destruct (Z.ltb_spec (dd_size d - at_) 8); [by exists m, false|].
  rewrite !load_ok by lia. cbn [mbind option_bind]. set (block := field m (dd_va d + at_ + 4) 4). destruct (_ || _) eqn:E; [by exists m, false|].
  apply orb_false_iff in E as [E E3]. apply orb_false_iff in E as [E1 _]. zbool. pose proof (Z.div_mod (block - 8) 2). pose proof (Z.mod_pos_bound (block - 8) 2). pose proof (Z.div_pos (block - 8) 2).
  destruct (relocate_block_safe (field m (dd_va d + at_) 4) (dd_va d + at_) (proj1 (field_range m _ 4 Hb ltac:(lia))) ltac:(lia) (Z.to_nat ((block - 8) / 2)) 8 m) as (m1 & ok & E2 & Hm1 & Hb1); [lia|lia|done|done|].
  rewrite E2. cbn [mbind option_bind]. destruct ok; [|by exists m1, false]. apply IH; (done || lia).
Qed.

(** *** Function: the table read first, when no word it names lies in the table *)
Abbreviation inside := (fun t => 0 <= t /\ t + 8 <= size).
Abbreviation avoids := (clear_of (dd_va d) (dd_size d)).
Definition same_table (m m0 : list Z) : Prop := bytes_at m (dd_va d) (dd_size d) = bytes_at m0 (dd_va d) (dd_size d).

Lemma same_field m m0 x n : same_table m m0 -> 0 <= x -> 0 <= n -> x + n <= dd_size d -> field m (dd_va d + x) n = field m0 (dd_va d + x) n.
Proof. intros H Hx Hn Hl. unfold field. by rewrite <- !(bytes_at_sub _ _ (dd_size d)), H by lia. Qed.

Lemma same_add_all m m0 ts : same_table m m0 -> zlen m = size -> Forall inside ts -> Forall avoids ts -> same_table (add_all delta ts m) m0.
Proof. intros H Hm Hi Ha. unfold same_table. by rewrite (add_all_out delta size). Qed.

Lemma block_targets_inside page base m : 0 <= page -> forall n p, Forall inside (block_targets n size page base p m).1.
Proof.
  intros Hp. induction n as [|n IH]; intros p; cbn [block_targets]; [constructor|]. destruct (entry_target _ _ _) as [[t|]|] eqn:E; [|apply IH|constructor].
  cbn [fst]. constructor; [by eapply entry_target_range|apply IH].
Qed.

Lemma table_targets_inside m : bytes m -> forall fuel at_, Forall inside (table_targets fuel size d at_ m).1.
Proof.
  intros Hb. induction fuel as [|fuel IH]; intros at_; cbn [table_targets]; [constructor|]. destruct (negb _); [constructor|]. destruct (_ <? 8); [constructor|]. destruct (_ || _); [constructor|].
  pose proof (block_targets_inside (field m (dd_va d + at_) 4) (dd_va d + at_) m (proj1 (field_range m _ 4 Hb ltac:(lia))) (Z.to_nat ((field m (dd_va d + at_ + 4) 4 - 8) / 2)) 8) as Hi.
  destruct (block_targets _ _ _ _ _ _) as [ts ok]. cbn [fst snd] in *. destruct ok; [|done]. cbn [fst]. by apply Forall_app_2.
Qed.

Lemma relocate_block_ok page at_ m0 : 0 <= page -> 0 <= at_ -> forall n p m, 0 <= p -> at_ + p + 2 * Z.of_nat n <= dd_size d -> zlen m = size -> same_table m m0 ->
  Forall avoids (block_targets n size page (dd_va d + at_) p m0).1 ->
  relocate_block n size delta page (dd_va d + at_) p m =
    Some (add_all delta (block_targets n size page (dd_va d + at_) p m0).1 m, (block_targets n size page (dd_va d + at_) p m0).2).
Proof.
  intros Hp Ha. induction n as [|n IH]; intros p m Hp0 Hn Hm Hs Hav; cbn [relocate_block block_targets] in *; [done|].
  assert (E : field m (dd_va d + at_ + p) 2 = field m0 (dd_va d + at_ + p) 2) by (rewrite <- !Z.add_assoc; apply same_field; (done || lia)).
  rewrite load_ok by lia. cbn [mbind option_bind]. rewrite E, relocate_entry_ok by (done || lia). cbn [mbind option_bind].
  destruct (entry_target size page _) as [[t|]|] eqn:Et; [|apply IH; (done || lia)|done]. cbn [fst snd] in *. apply Forall_cons_1 in Hav as [Ht Hav].
  apply entry_target_range in Et as [H1 H2]; [|done]. rewrite IH; [done|lia|lia|rewrite add64_length; lia| |done].
  apply (same_add_all m m0 [t]); [done|done|by apply Forall_singleton|by apply Forall_singleton].
Qed.

Lemma relocate_loop_ok m0 : bytes m0 -> forall fuel at_ m, 0 <= at_ <= dd_size d -> dd_size d - at_ < Z.of_nat fuel -> zlen m = size -> same_table m m0 ->
  Forall avoids (table_targets fuel size d at_ m0).1 ->
  relocate_loop fuel size delta d at_ m = Some (add_all delta (table_targets fuel size d at_ m0).1 m, (table_targets fuel size d at_ m0).2).
Proof.
  intros Hb. induction fuel as [|fuel IH]; intros at_ m Ha Hf Hm Hs Hav; cbn [relocate_loop table_targets] in *; [lia|].
  destruct (Z.ltb_spec at_ (dd_size d)); cbn [negb] in *; [|done]. destruct (Z.ltb_spec (dd_size d - at_) 8); [done|].
  rewrite !load_ok by lia. cbn [mbind option_bind]. rewrite <- (Z.add_assoc (dd_va d) at_ 4) in *. rewrite !(same_field m m0) by (done || lia). set (block := field m0 (dd_va d + (at_ + 4)) 4) in *.
  destruct (_ || _) eqn:E; [done|]. apply orb_false_iff in E as [E E3]. apply orb_false_iff in E as [E1 _]. zbool.
  pose proof (Z.div_mod (block - 8) 2). pose proof (Z.mod_pos_bound (block - 8) 2). pose proof (Z.div_pos (block - 8) 2). set (n := Z.to_nat ((block - 8) / 2)) in *. set (page := field m0 (dd_va d + at_) 4) in *.
  assert (Hpage : 0 <= page) by apply (field_range m0 _ 4 Hb ltac:(lia)). pose proof (block_targets_inside page (dd_va d + at_) m0 Hpage n 8) as Hi.
  pose proof (relocate_block_ok page at_ m0 Hpage ltac:(lia) n 8 m ltac:(lia) ltac:(lia) Hm Hs) as Hblk. destruct (block_targets n size page (dd_va d + at_) 8 m0) as [ts ok]. cbn [fst snd] in *.
  destruct ok; cbn [fst snd] in *; [|by rewrite Hblk]. apply Forall_app in Hav as [Hav1 Hav2]. rewrite Hblk by done. cbn [mbind option_bind]. rewrite IH; [|lia|lia|by apply add_all_length|by apply same_add_all|done].
  unfold add_all. by rewrite foldl_app.
Qed.
End Relocate.

(** ** Exports *)

(** A string that ends inside the memory below [size]. *)
Definition ends_below (m : list Z) (rva size : Z) : Prop := exists k, rva <= k < size /\ m !! Z.to_nat k = Some 0.

Lemma field_byte m i : 0 <= i < zlen m -> m !! Z.to_nat i = Some (field m i 1).
Proof.
  intros Hi. unfold zlen in Hi. destruct (lookup_lt_is_Some_2 m (Z.to_nat i)) as [c Hc]; [lia|]. unfold field, bytes_at. rewrite (drop_S m c) by done. change (Z.to_nat 1) with 1%nat. rewrite Hc.
  f_equal. cbn. rewrite take_0. cbn.
  lia.
Qed.

Lemma string_ends_ok m : forall n i, 0 <= i -> i + Z.of_nat n <= zlen m -> exists b, string_ends n m i = Some b /\ (b = true -> ends_below m i (i + Z.of_nat n)).
Proof.
  induction n as [|n IH]; intros i Hi Hn; cbn [string_ends]; [by exists false|]. rewrite load_ok by lia. cbn [mbind option_bind]. destruct (Z.eqb_spec (field m i 1) 0) as [E|E].
  - exists true. split; [done|]. intros _. exists i. split; [lia|]. rewrite field_byte by lia. by rewrite E.
  - destruct (IH (i + 1) ltac:(lia) ltac:(lia)) as (b & Eb & Hb). exists b. split; [done|]. intros H. destruct (Hb H) as (k & Hk & Hz). exists k. split; [lia|done].
Qed.

Lemma pe_image_string_ok m size rva : 0 <= rva -> size <= zlen m -> exists s, pe_image_string m size rva = Some s /\ forall x, s = Some x -> x = rva /\ ends_below m rva size.
Proof.
  intros Hr Hs. unfold pe_image_string. destruct (Z.geb_spec rva size); [by exists None|]. destruct (string_ends_ok m (Z.to_nat (size - rva)) rva Hr ltac:(lia)) as (b & Eb & Hb). rewrite Eb. cbn [mbind option_bind].
  destruct b; [|by exists None]. exists (Some rva). split; [done|]. intros x [= <-]. split; [done|]. destruct (Hb eq_refl) as (k & Hk & Hz). exists k. split; [lia|done].
Qed.

(** The first name of the table that is the one asked for gives the index; [2^32 - 1] says there is none. *)
Definition name_is (m name : list Z) (nm i : Z) : Prop := strcmp (string_at m (field m (nm + i * 4) 4)) name = 0.
Definition name_found (m name : list Z) (nm ord : Z) (ids : list Z) (n : Z) : Prop :=
  exists ids1 i ids2, ids = ids1 ++ i :: ids2 /\ name_is m name nm i /\ Forall (fun j => ~ name_is m name nm j) ids1 /\ n = field m (ord + i * 2) 2.

Lemma find_name_ok m size nm ord name names : bytes m -> size <= zlen m -> 0 <= nm -> 0 <= ord -> nm + names * 4 <= zlen m -> ord + names * 2 <= zlen m -> forall ids, (forall i, i ∈ ids -> 0 <= i < names) ->
  exists r, find_name ids m size nm ord name = Some r /\ forall n, r = inr n -> 0 <= n < 2 ^ 32 /\ (name_found m name nm ord ids n \/ n = 2 ^ 32 - 1 /\ Forall (fun j => ~ name_is m name nm j) ids).
Proof.
  intros Hb Hs Hnm Hord Hn4 Ho2. induction ids as [|i ids IH]; intros Hi; cbn [find_name]; [exists (inr (2 ^ 32 - 1)); split; [done|]; intros n [= <-]; split; [lia|by right]|].
  pose proof (Hi i ltac:(left)) as Hi0. rewrite !load_ok by lia. cbn [mbind option_bind].
  destruct (pe_image_string_ok m size (field m (nm + i * 4) 4) (proj1 (field_range m _ 4 Hb ltac:(lia))) Hs) as (s & Es & Hst). rewrite Es. cbn [mbind option_bind]. destruct s as [s|]; [|by exists (inl tt)].
  destruct (Hst s eq_refl) as [-> _]. destruct (Z.eqb_spec (strcmp (string_at m (field m (nm + i * 4) 4)) name) 0) as [E|E].
  - eexists. split; [done|]. intros n [= <-]. pose proof (field_range m (ord + i * 2) 2 Hb). split; [lia|]. left. by exists [], i, ids.
  - destruct (IH ltac:(set_solver)) as (r & Er & Hr). exists r. split; [done|]. intros n Hn. destruct (Hr n Hn) as (Hrng & [(l1 & j & l2 & -> & H1 & H2 & H3)|[-> H]]); (split; [lia|]).
    + left. exists (i :: l1), j, l2. split; [done|]. split; [done|]. split; [|done]. by constructor.
    + right. split; [done|]. by constructor.
Qed.

(** The export directory in memory. *)
Record export_table := { et_base : Z; et_functions : Z; et_names : Z; et_fn : Z; et_nm : Z; et_ord : Z }.
Definition table_of (im : pe_image) (m : list Z) : export_table :=
  let e := bytes_at m (dd_va (directory_entry (optionalHeader (nt im)) 0)) 40 in
  {| et_base := field e 16 4; et_functions := field e 20 4; et_names := field e 24 4; et_fn := field e 28 4; et_nm := field e 32 4; et_ord := field e 36 4 |}.

(** The index asked for: that of the first such name, or the ordinal's. *)
Definition export_index (t : export_table) (m : list Z) (name : option (list Z)) (ordinal index : Z) : Prop :=
  match name with
  | Some name => name_found m name (et_nm t) (et_ord t) (seqZ 0 (et_names t)) index
  | None => et_base t <= ordinal /\ index = ordinal - et_base t
  end.
Definition forward_ok (d : IMAGE_DATA_DIRECTORY) (m : list Z) (rva : Z) (f : option Z) : Prop :=
  match f with
  | Some s => s = rva /\ dd_va d <= s < dd_va d + dd_size d /\ ends_below m s (dd_va d + dd_size d)
  | None => ~ dd_va d <= rva < dd_va d + dd_size d
  end.

Lemma export_rest im m index functions fn : pe_ok im -> bytes m -> zlen m = image_bytes im -> 0 <= index -> 0 <= fn -> fn + functions * 4 <= image_bytes im ->
  let d := directory_entry (optionalHeader (nt im)) 0 in
  exists rva f,
    (if index >=? functions then Some (0, None) else
     rva ← load m (fn + index * 4) 4;
     if (rva =? 0) || (rva >=? image_bytes im) then Some (0, None) else
     if (rva >=? dd_va d) && (rva - dd_va d <? dd_size d) then
       s ← pe_image_string m (u32 (dd_va d + dd_size d)) rva;
       match s with None => Some (0, None) | Some s => Some (rva, Some s) end
     else Some (rva, None)) = Some (rva, f) /\
    (rva = 0 /\ f = None \/ 0 < rva < image_bytes im /\ index < functions /\ rva = field m (fn + index * 4) 4 /\ forward_ok d m rva f).
Proof.
  intros Him Hb Hm Hi Hfn Hfs d. pose proof (po_size im Him) as Hs. destruct (po_dirs im Him 0 ltac:(lia) ltac:(lia)) as (Hd1 & Hd2 & Hd3). fold d in Hd1, Hd2, Hd3. unfold PE_MAX_IMAGE in Hs.
  destruct (Z.geb_spec index functions); [exists 0, None; split; [done|by left]|]. rewrite load_ok by lia. cbn [mbind option_bind]. pose proof (field_range m (fn + index * 4) 4 Hb ltac:(lia)) as Hr. set (rva := field m _ 4) in *.
  destruct (Z.eqb_spec rva 0); [exists 0, None; split; [done|by left]|]. destruct (Z.geb_spec rva (image_bytes im)); [exists 0, None; split; [done|by left]|]. cbn [orb].
  assert (Hrest : forall f, forward_ok d m rva f -> 0 < rva < image_bytes im /\ index < functions /\ rva = rva /\ forward_ok d m rva f) by (intros f Hf; repeat split; try lia; done).
  destruct (Z.geb_spec rva (dd_va d)) as [Hge|Hlt]; cbn [andb]; [|exists rva, None; split; [done|right; apply Hrest; cbn; lia]].
  destruct (Z.ltb_spec (rva - dd_va d) (dd_size d)); [|exists rva, None; split; [done|right; apply Hrest; cbn; lia]]. rewrite u32_small by lia.
  destruct (pe_image_string_ok m (dd_va d + dd_size d) rva ltac:(lia) ltac:(lia)) as (s & Es & Hst). rewrite Es. cbn [mbind option_bind]. destruct s as [s|]; [|exists 0, None; split; [done|by left]].
  destruct (Hst s eq_refl) as [-> He]. exists rva, (Some rva). split; [done|right; apply Hrest]. split; [done|]. split; [lia|done].
Qed.

(** The answer: nothing, or the entry of the address table with that index, inside the image. *)
Definition export_answer (im : pe_image) (m : list Z) (name : option (list Z)) (ordinal rva : Z) (f : option Z) : Prop :=
  rva = 0 /\ f = None \/
  0 < rva < image_bytes im /\ exists index, export_index (table_of im m) m name ordinal index /\ 0 <= index < et_functions (table_of im m) /\
    rva = field m (et_fn (table_of im m) + index * 4) 4 /\ forward_ok (directory_entry (optionalHeader (nt im)) 0) m rva f.

Lemma export_ok im m name ordinal : pe_ok im -> bytes m -> zlen m = image_bytes im -> 0 <= ordinal ->
  exists rva f, pe_image_export im m name ordinal = Some (rva, f) /\ export_answer im m name ordinal rva f.
Proof.
  intros Him Hb Hm Ho. unfold pe_image_export, export_answer. set (d := directory_entry _ 0). fold (image_bytes im).
  pose proof (po_size im Him) as Hs. destruct (po_dirs im Him 0 ltac:(lia) ltac:(lia)) as (Hd1 & Hd2 & Hd3). fold d in Hd1, Hd2, Hd3.
  destruct (Z.ltb_spec (dd_size d) 40); cbn [orb]; [exists 0, None; split; [done|by left]|]. unfold pe_image_range at 1. destruct (Z.leb_spec (dd_va d) (image_bytes im)); [|lia]. destruct (Z.leb_spec 40 (image_bytes im - dd_va d)); [|lia]. cbn [andb negb].
  rewrite fetch_ok by lia. cbn [mbind option_bind]. set (t := table_of im m). pose proof (bytes_bytes_at m (dd_va d) 40 Hb) as He.
  change (field (bytes_at m (dd_va d) 40) 16 4) with (et_base t). change (field (bytes_at m (dd_va d) 40) 20 4) with (et_functions t). change (field (bytes_at m (dd_va d) 40) 24 4) with (et_names t).
  change (field (bytes_at m (dd_va d) 40) 28 4) with (et_fn t). change (field (bytes_at m (dd_va d) 40) 32 4) with (et_nm t). change (field (bytes_at m (dd_va d) 40) 36 4) with (et_ord t).
  destruct (field_range _ 28 4 He ltac:(lia)) as [Hfn _]. destruct (field_range _ 32 4 He ltac:(lia)) as [Hnm _]. destruct (field_range _ 36 4 He ltac:(lia)) as [Hord _]. change (0 <= et_fn t) in Hfn. change (0 <= et_nm t) in Hnm. change (0 <= et_ord t) in Hord.
  destruct (_ || _) eqn:E; [exists 0, None; split; [done|by left]|]. apply orb_false_iff in E as [E E3]. apply orb_false_iff in E as [E1 E2]. apply negb_false_iff in E1, E2, E3. unfold pe_image_range in E1, E2, E3. zbool.
  assert (Hidx : exists r, (match name with Some name => find_name (seqZ 0 (et_names t)) m (image_bytes im) (et_nm t) (et_ord t) name | None => Some (inr (if ordinal >=? et_base t then ordinal - et_base t else 2 ^ 32 - 1)) end) = Some r /\
    forall n, r = inr n -> 0 <= n /\ (n < et_functions t -> export_index t m name ordinal n)).
  { unfold PE_MAX_IMAGE in Hs. destruct name as [name|].
    - destruct (find_name_ok m (image_bytes im) (et_nm t) (et_ord t) name (et_names t) Hb ltac:(lia) ltac:(done) ltac:(done) ltac:(lia) ltac:(lia) (seqZ 0 (et_names t))) as (r & Er & Hr); [intros i Hi%elem_of_seqZ; lia|].
      exists r. split; [done|]. intros n Hn. destruct (Hr n Hn) as [Hn1 [Hn2|[-> _]]]; (split; [lia|]); [done|intros; exfalso; lia].
    - eexists. split; [done|]. intros n Hn. unfold export_index. cbn match. destruct (Z.geb_spec ordinal (et_base t)); apply (inj inr) in Hn; lia. }
  destruct Hidx as (r & Er & Hr). rewrite Er. cbn [mbind option_bind]. destruct r as [|index]; [exists 0, None; split; [done|by left]|]. destruct (Hr index eq_refl) as [Hi0 Hi].
  destruct (export_rest im m index (et_functions t) (et_fn t) Him Hb Hm Hi0 ltac:(done) ltac:(lia)) as (rva & f & Ex & Hx). exists rva, f. split; [exact Ex|].
  destruct Hx as [Hx|(Hx1 & Hx2 & Hx3 & Hx4)]; [by left|right]. split; [done|]. exists index. split; [by apply Hi|]. split; [lia|done].
Qed.

(** ** The whole functions *)
Lemma parse_accepts file im : bytes file -> pe_image_parse file = Some (Some im) -> pe_ok im /\ pe_file im = file.
Proof. intros Hb Hp. destruct (parse_ok file Hb) as (r & Er & Hr). apply Hr. congruence. Qed.

(** The directory of relocations, and the words they name in a memory. *)
Definition reloc_dir (im : pe_image) : IMAGE_DATA_DIRECTORY := directory_entry (optionalHeader (nt im)) 5.
Definition reloc_targets (im : pe_image) (m : list Z) : list Z * bool := table_targets (S (Z.to_nat (dd_size (reloc_dir im)))) (image_bytes im) (reloc_dir im) 0 m.

Lemma relocate_ok im m base : pe_ok im -> zlen m = image_bytes im -> bytes m ->
  exists m1 ok, pe_image_relocate im m base = Some (m1, ok) /\ zlen m1 = image_bytes im /\ bytes m1.
Proof.
  intros Him Hm Hb. unfold pe_image_relocate. destruct (_ =? 0); [by exists m, true|]. destruct (_ || _); [by exists m, false|]. pose proof (po_size im Him). destruct (po_dirs im Him 5 ltac:(lia) ltac:(lia)) as (H1 & H2 & H3).
  apply (relocate_loop_safe (image_bytes im)); (done || lia).
Qed.

Lemma relocate_words im m base : pe_ok im -> zlen m = image_bytes im -> bytes m -> u64 (base - imageBase (optionalHeader (nt im))) <> 0 -> dd_size (reloc_dir im) <> 0 ->
  (fh_characteristics (fileHeader (nt im)) &? 1) = false -> Forall (clear_of (dd_va (reloc_dir im)) (dd_size (reloc_dir im))) (reloc_targets im m).1 ->
  pe_image_relocate im m base = Some (add_all (u64 (base - imageBase (optionalHeader (nt im)))) (reloc_targets im m).1 m, (reloc_targets im m).2) /\
  Forall (fun t => 0 <= t /\ t + 8 <= image_bytes im) (reloc_targets im m).1.
Proof.
  intros Him Hm Hb Hd Hs Hc Ha. pose proof (po_size im Him). destruct (po_dirs im Him 5 ltac:(lia) ltac:(lia)) as (H1 & H2 & H3). fold (reloc_dir im) in *. split; [|by apply table_targets_inside].
  unfold pe_image_relocate. fold (reloc_dir im). rewrite Hc. apply Z.eqb_neq in Hd, Hs. rewrite Hd, Hs. cbn [orb]. apply relocate_loop_ok; (done || lia).
Qed.

(** ** The fixture of [tests/pe_image_test.c] *)
Module Fixture.
Definition store (f : list Z) (off : Z) (n : nat) (x : Z) : list Z := copy_to f off (le_bytes n x).
Definition stores (f : list Z) (l : list (Z * nat * Z)) : list Z := foldl (fun f '(off, n, x) => store f off n x) f l.
Definition text (f : list Z) (off : Z) (s : list Z) : list Z := copy_to f off s.

Definition sym_Example : list Z := [69; 120; 97; 109; 112; 108; 101].
Definition sym_Target : list Z := [111; 116; 104; 101; 114; 46; 84; 97; 114; 103; 101; 116].

Definition file : list Z :=
  let f := stores (replicate (Z.to_nat 8192) 0)
    [(0, 2%nat, 0x5a4d); (60, 4%nat, 128);
     (128, 4%nat, 0x4550); (132, 2%nat, 0x8664); (134, 2%nat, 1); (148, 2%nat, 240);
     (152, 2%nat, 0x20b); (168, 4%nat, 4096); (176, 8%nat, 0x140000000); (184, 4%nat, 4096); (188, 4%nat, 512);
     (208, 4%nat, 8192); (212, 4%nat, 512); (260, 4%nat, 16);
     (400, 4%nat, 4096); (404, 4%nat, 4096); (408, 4%nat, 4096); (412, 4%nat, 512); (428, 4%nat, 0xe0000000);
     (264, 4%nat, 0x1100); (268, 4%nat, 0x100);
     (784, 4%nat, 1); (788, 4%nat, 2); (792, 4%nat, 1); (796, 4%nat, 0x1150); (800, 4%nat, 0x1160); (804, 4%nat, 0x1170);
     (848, 4%nat, 0x1000); (852, 4%nat, 0x11b0); (864, 4%nat, 0x11a0); (880, 2%nat, 0);
     (304, 4%nat, 0x1300); (308, 4%nat, 12);
     (1280, 4%nat, 0x1000); (1284, 4%nat, 12); (1288, 2%nat, 0xa200); (1290, 2%nat, 0);
     (1024, 8%nat, 0x140000123)] in
  text (text f 928 (sym_Example ++ [0])) 944 (sym_Target ++ [0]).

Definition none : pe_image := PeImage (nt_of []) [] 0.
Definition image : pe_image := match pe_image_parse file with Some (Some im) => im | _ => none end.
Definition mapped : list Z := default [] (pe_image_materialize image (replicate (Z.to_nat 8192) 0)).

Lemma file_bytes : bytes file.
Proof. unfold file, text, stores. cbn [foldl]. unfold store. repeat (apply bytes_copy_to; [|first [apply le_bytes_bytes|repeat constructor; lia]]). apply Forall_replicate. lia. Qed.

Lemma parsed : pe_image_parse file = Some (Some image).
Proof. vm_compute. reflexivity. Qed.

Lemma laid_out : pe_image_materialize image (replicate (Z.to_nat 8192) 0) = Some mapped.
Proof. vm_compute. reflexivity. Qed.

Lemma mapped_bytes : bytes mapped.
Proof. apply (fun Hf Hm => materialize_bytes image (replicate (Z.to_nat 8192) 0) mapped Hf Hm laid_out); [|apply Forall_replicate; lia]. destruct (parse_accepts file image file_bytes parsed) as [_ ->]. apply file_bytes. Qed.

Lemma by_name : pe_image_export image mapped (Some sym_Example) 0 = Some (0x1000, None).
Proof. vm_compute. reflexivity. Qed.

Lemma forwarded : pe_image_export image mapped None 2 = Some (0x11b0, Some 0x11b0) /\ string_at mapped 0x11b0 = sym_Target.
Proof. vm_compute. split; reflexivity. Qed.

Lemma relocated : match pe_image_relocate image mapped 0x180000000 with Some (m, ok) => ok = true /\ load m 0x1200 8 = Some 0x180000123 | None => False end.
Proof. vm_compute. split; reflexivity. Qed.
End Fixture.

(** ** Claims *)

(** C11: whatever bytes a file holds, [pe_image_parse] returns without touching a byte outside the
    file, and an image it accepts is well formed: header, section data and directories lie
    inside the file and the image, no two sections share a page, and an entry point
    lies in an executable section.  On such an image, for every memory of the image's
    size, [pe_image_relocate] to any base and [pe_image_export] of any name or
    ordinal return without touching a byte outside the memory.  Relocation keeps it a
    memory of that size.  Lookup answers nothing, or the entry of the address table
    for the ordinal or for the first such name, inside the image, with a forwarder
    exactly when the entry lies in the export directory, where the string ends. *)
Theorem pe_image_safe file : bytes file ->
  exists r, pe_image_parse file = Some r /\ forall im, r = Some im -> pe_ok im /\ pe_file im = file /\
    forall m, zlen m = image_bytes im -> bytes m ->
      (forall base, exists m1 ok, pe_image_relocate im m base = Some (m1, ok) /\ zlen m1 = image_bytes im /\ bytes m1) /\
      (forall name ordinal, 0 <= ordinal -> exists rva f, pe_image_export im m name ordinal = Some (rva, f) /\ export_answer im m name ordinal rva f).
Proof.
  intros Hb. destruct (parse_ok file Hb) as (r & Er & Hr). exists r. split; [done|]. intros im Him. destruct (Hr im Him) as [Hok Hf]. split; [done|]. split; [done|]. intros m Hm Hbm. split.
  - intros base. by apply relocate_ok.
  - intros name ordinal Ho. by apply export_ok.
Qed.

(** The fixture is accepted, and its image can be relocated and searched. *)
Lemma pe_image_safe_witness : bytes Fixture.file /\ exists im, pe_image_parse Fixture.file = Some (Some im) /\ pe_ok im.
Proof.
  split; [exact Fixture.file_bytes|]. destruct (pe_image_safe Fixture.file Fixture.file_bytes) as (r & Er & Hr). exists Fixture.image. split; [exact Fixture.parsed|].
  rewrite Fixture.parsed in Er. injection Er as <-. exact (proj1 (Hr _ eq_refl)).
Defined.

(** C32: for a file [pe_image_parse] accepts, [pe_image_materialize] fills the memory with the
    headers, with the data of every section at its address, and with zeroes everywhere
    else, whatever the memory held before. *)
Theorem pe_materialize_correct file im m : bytes file -> pe_image_parse file = Some (Some im) -> zlen m = image_bytes im ->
  exists m1, pe_image_materialize im m = Some m1 /\ zlen m1 = image_bytes im /\
    (forall x, 0 <= x < sizeOfHeaders (optionalHeader (nt im)) -> m1 !! Z.to_nat x = file !! Z.to_nat x) /\
    (forall i k, 0 <= i < sec_count im -> 0 <= k < sizeOfRawData (secs im i) -> m1 !! Z.to_nat (virtualAddress (secs im i) + k) = file !! Z.to_nat (pointerToRawData (secs im i) + k)) /\
    (forall x, sizeOfHeaders (optionalHeader (nt im)) <= x < image_bytes im -> (forall i, 0 <= i < sec_count im -> ~ covers (secs im i) x) -> m1 !! Z.to_nat x = Some 0).
Proof. intros Hb Hp Hm. destruct (parse_accepts file im Hb Hp) as [Hok <-]. by apply materialize_ok. Qed.

Lemma pe_materialize_correct_witness : exists m1, pe_image_materialize Fixture.image (replicate (Z.to_nat 8192) 7) = Some m1 /\
  m1 !! Z.to_nat (0x1200 + 1) = Fixture.file !! Z.to_nat (512 + 0x200 + 1) /\ Fixture.file !! Z.to_nat (512 + 0x200 + 1) = Some 1.
Proof.
  destruct (pe_materialize_correct Fixture.file Fixture.image (replicate (Z.to_nat 8192) 7) Fixture.file_bytes Fixture.parsed) as (m1 & E & _ & _ & Hs & _); [vm_compute; reflexivity|].
  exists m1. split; [exact E|]. split; [|vm_compute; reflexivity].
  assert (E1 : virtualAddress (secs Fixture.image 0) = 4096) by (vm_compute; reflexivity). assert (E2 : pointerToRawData (secs Fixture.image 0) = 512) by (vm_compute; reflexivity).
  assert (E3 : sizeOfRawData (secs Fixture.image 0) = 4096) by (vm_compute; reflexivity). assert (E4 : sec_count Fixture.image = 1) by (vm_compute; reflexivity).
  specialize (Hs 0 513 ltac:(rewrite E4; lia) ltac:(rewrite E3; lia)). rewrite E1, E2 in Hs. exact Hs.
Defined.

(** C31: for a file [pe_image_parse] accepts, when the relocation table names words that do not
    overlap each other or the table, [pe_image_relocate] moves each of them by the distance
    from the preferred base, modulo [2^64], and changes no other byte; it succeeds
    exactly when the table, read before anything moves, has no entry to refuse. *)
Theorem pe_relocate_correct file im m base : bytes file -> pe_image_parse file = Some (Some im) -> zlen m = image_bytes im -> bytes m ->
  u64 (base - imageBase (optionalHeader (nt im))) <> 0 -> dd_size (reloc_dir im) <> 0 -> (fh_characteristics (fileHeader (nt im)) &? 1) = false ->
  Forall (clear_of (dd_va (reloc_dir im)) (dd_size (reloc_dir im))) (reloc_targets im m).1 -> spread (reloc_targets im m).1 ->
  exists m1, pe_image_relocate im m base = Some (m1, (reloc_targets im m).2) /\ zlen m1 = image_bytes im /\
    (forall t, t ∈ (reloc_targets im m).1 -> field m1 t 8 = u64 (field m t 8 + (base - imageBase (optionalHeader (nt im))))) /\
    (forall x, 0 <= x < image_bytes im -> (forall t, t ∈ (reloc_targets im m).1 -> ~ t <= x < t + 8) -> m1 !! Z.to_nat x = m !! Z.to_nat x).
Proof.
  intros Hf Hp Hm Hb Hd Hs Hc Ha Hsp. destruct (parse_accepts file im Hf Hp) as [Hok _]. destruct (relocate_words im m base Hok Hm Hb Hd Hs Hc Ha) as [E Hi]. eexists. split; [exact E|].
  pose proof (add_all_length (u64 (base - imageBase (optionalHeader (nt im)))) (image_bytes im) _ m Hm Hi) as Hl. split; [done|]. split.
  - intros t Ht. rewrite (add_all_in _ (image_bytes im)) by done. unfold u64. by rewrite Z.add_mod_idemp_r.
  - intros x Hx Ht. rewrite !field_byte by lia. f_equal. unfold field. f_equal. apply (add_all_out _ (image_bytes im)); [lia|lia|done|done|].
    apply list.Forall_forall. intros t Hin. specialize (Ht t Hin). unfold clear_of. lia.
Qed.

Lemma pe_relocate_correct_witness : exists m1, pe_image_relocate Fixture.image Fixture.mapped 0x180000000 = Some (m1, true) /\ field m1 0x1200 8 = 0x180000123.
Proof.
  assert (Et : reloc_targets Fixture.image Fixture.mapped = ([0x1200], true)) by (vm_compute; reflexivity).
  destruct (pe_relocate_correct Fixture.file Fixture.image Fixture.mapped 0x180000000 Fixture.file_bytes Fixture.parsed) as (m1 & E & _ & Hw & _); rewrite ?Et in *.
  - vm_compute. reflexivity.
  - exact Fixture.mapped_bytes.
  - vm_compute. discriminate.
  - vm_compute. discriminate.
  - vm_compute. reflexivity.
  - cbn [fst]. apply Forall_singleton. right. vm_compute. discriminate.
  - repeat constructor.
  - exists m1. split; [exact E|]. rewrite Hw by (cbn [fst]; left). vm_compute. reflexivity.
Defined.
