(* ===== verification/VfsGate.v ===== *)
(** The lock of the file system switch, [kernel/fs/vfs/lock.c]: a first-in first-out gate.

    Interrupts are off inside [vfs_lock] and [vfs_unlock] and only one processor uses
    them, so each runs without interruption up to [task_block].  A task that
    waits is an element of a list linked through records on the stacks of the
    waiting tasks; [nodes] holds the records of the calls that have not returned,
    and following a link to any other record is a [Fault]. *)
From stdpp Require Import functions.
From S2P Require Import Prelude.

Definition task := Z.
(** [static struct task boot_owner], the caller before there are tasks. *)
Definition boot_owner : task := 0.

Record vfs_gate := VfsGate {
  owner : option task;
  head : option task;
  tail : option task;
  nodes : gmap task (option task);
  active : gset task;
}.

Inductive lock_result := Panic | Fault | Parks (g : vfs_gate) | Returns (g : vfs_gate).
Inductive unlock_result := UPanic | UFault | Unlocked (g : vfs_gate) (woken : option task).

(** [caller]: the task, when this is a context that may use the switch. *)
Definition caller (cpu : Z) (in_handler : bool) (current : option task) : option task :=
  if negb (cpu =? 0) || in_handler then None else Some (default boot_owner current).

(** [vfs_lock] up to its return or to [task_block]. *)
Definition vfs_lock (t : task) (g : vfs_gate) : lock_result :=
  if bool_decide (owner g = Some t) || bool_decide (t ∈ active g) then Panic else
  let active := {[t]} ∪ active g in
  match owner g with
  | None => Returns (VfsGate (Some t) (head g) (tail g) (nodes g) active)
  | Some o =>
      if bool_decide (t = boot_owner) then Panic else
      let nodes := <[t := None]> (nodes g) in
      match tail g with
      | Some last =>
          match nodes !! last with
          | None => Fault
          | Some _ => Parks (VfsGate (Some o) (head g) (Some t) (<[last := Some t]> nodes) active)
          end
      | None => Parks (VfsGate (Some o) (Some t) (Some t) nodes active)
      end
  end.

(** [while (owner != task)]: what a waiting call does when its task runs again. *)
Definition vfs_lock_resume (t : task) (g : vfs_gate) : lock_result :=
  if bool_decide (owner g = Some t) then Returns (VfsGate (owner g) (head g) (tail g) (delete t (nodes g)) (active g)) else Parks g.

Definition vfs_unlock (t : task) (g : vfs_gate) : unlock_result :=
  if negb (bool_decide (owner g = Some t)) || negb (bool_decide (t ∈ active g)) then UPanic else
  let active := active g ∖ {[t]} in
  match head g with
  | Some next =>
      match nodes g !! next with
      | None => UFault
      | Some rest => Unlocked (VfsGate (Some next) rest (if rest is Some _ then tail g else None) (nodes g) active) (Some next)
      end
  | None => Unlocked (VfsGate None (head g) (tail g) (nodes g) active) None
  end.

(** [vfs_assert_locked] returns. *)
Definition vfs_assert_locked (t : task) (g : vfs_gate) : bool := bool_decide (owner g = Some t) && bool_decide (t ∈ active g).

(** ** The tasks and the gate *)

(** Where a task is: not using the switch, blocked in [vfs_lock], runnable there, or past it. *)
Inductive status := Outside | Parked | Ready | Inside.
#[global] Instance status_eq : EqDecision status.
Proof. solve_decision. Defined.

Record system := System { gate : vfs_gate; at_ : task -> status }.
Definition start : system := System (VfsGate None None None ∅ ∅) (fun _ => Outside).

(** A task enters [vfs_lock], runs again in it, or calls [vfs_unlock]; or some other part of the
    kernel makes a blocked task runnable. *)
Inductive event := Lock (t : task) | Resume (t : task) | Unlock (t : task) | Wake (t : task).

(** [task_wakeup] *)
Definition task_wakeup (t : task) (a : task -> status) : task -> status := if decide (a t = Parked) then <[t := Ready]> a else a.

Definition locked (s : system) (t : task) (r : lock_result) : option system :=
  match r with
  | Panic | Fault => None
  | Parks g => Some (System g (<[t := Parked]> (at_ s)))
  | Returns g => Some (System g (<[t := Inside]> (at_ s)))
  end.

(** [None] when the kernel panics or follows a dead link. *)
Definition run (s : system) (e : event) : option system :=
  match e with
  | Lock t => locked s t (vfs_lock t (gate s))
  | Resume t => locked s t (vfs_lock_resume t (gate s))
  | Unlock t =>
      match vfs_unlock t (gate s) with
      | Unlocked g w => Some (System g (let a := <[t := Outside]> (at_ s) in match w with Some w => task_wakeup w a | None => a end))
      | _ => None
      end
  | Wake t => Some (System (gate s) (task_wakeup t (at_ s)))
  end.

(** What tasks can do: the caller of [vfs_lock] does not hold the lock, that of [vfs_unlock] does, and
    the boot caller meets no other. *)
Definition allowed (s : system) (e : event) : Prop :=
  match e with
  | Lock t => at_ s t = Outside /\ (t = boot_owner -> owner (gate s) = None)
  | Resume t => at_ s t = Ready
  | Unlock t => at_ s t = Inside
  | Wake _ => True
  end.
#[global] Instance allowed_dec s e : Decision (allowed s e).
Proof. destruct e; cbn; apply _. Defined.

Inductive reachable : list event -> system -> Prop :=
| reachable_start : reachable [] start
| reachable_step es s e s' : reachable es s -> allowed s e -> run s e = Some s' -> reachable (es ++ [e]) s'.
