(* ===== verification/VfsGateSpec.v ===== *)
(** The gate of the file system switch is a queue: the holder first, the others in the order in
    which they called, whatever runs in between. *)
From stdpp Require Import functions.
From S2P Require Import Prelude VfsGate.

(** ** The linked list *)
Fixpoint linked (n : gmap task (option task)) (hd : option task) (q : list task) : Prop :=
  match q with
  | [] => hd = None
  | t :: q => hd = Some t /\ exists next, n !! t = Some next /\ linked n next q
  end.

Lemma linked_agree n m q : (forall t, t ∈ q -> m !! t = n !! t) -> forall hd, linked n hd q -> linked m hd q.
Proof.
  induction q as [|t q IH]; intros H hd; cbn; [done|]. intros (-> & next & E & Hl). split; [done|]. exists next. rewrite H by left. split; [done|].
  apply IH; [|done]. intros u Hu. apply H. by right.
Qed.

Lemma linked_snoc n t q l : NoDup (q ++ [l]) -> t ∉ q ++ [l] -> forall hd, linked n hd (q ++ [l]) -> linked (<[l := Some t]> (<[t := None]> n)) hd (q ++ [l; t]).
Proof.
  intros Hnd Ht. assert (Hlt : l <> t) by set_solver. induction q as [|u q IH]; intros hd; cbn.
  - intros (-> & next & E & ->). split; [done|]. exists (Some t). rewrite lookup_insert_eq. split; [done|]. split; [done|]. exists None. by rewrite lookup_insert_ne, lookup_insert_eq.
  - intros (-> & next & E & Hl). cbn in Hnd. apply list.NoDup_cons in Hnd as [Hu Hnd]. split; [done|]. exists next. rewrite !lookup_insert_ne by set_solver. split; [done|]. apply IH; [done|set_solver|done].
Qed.

Lemma linked_last n q l : forall hd, linked n hd (q ++ [l]) -> is_Some (n !! l).
Proof. induction q as [|t q IH]; intros hd; cbn; [intros (_ & next & -> & _); by exists next|]. intros (_ & next & _ & H). by eapply IH. Qed.

(** ** The state of the gate *)

(** The line: the owner and behind it the tasks that wait. *)
Record gate_ok (s : system) (line : list task) : Prop := {
  go_nodup : NoDup line;
  go_owner : owner (gate s) = list.head line;
  go_linked : linked (nodes (gate s)) (head (gate s)) (list.tail line);
  go_tail : tail (gate s) = list.last (list.tail line);
  go_active : forall t, t ∈ active (gate s) <-> t ∈ line;
  go_outside : forall t, at_ s t = Outside <-> t ∉ line;
  go_first : forall t, list.head line = Some t -> at_ s t = Inside \/ at_ s t = Ready;
  go_rest : forall t, t ∈ list.tail line -> at_ s t = Parked \/ at_ s t = Ready;
}.

Lemma start_ok : gate_ok start [].
Proof. split; cbn; try done; [constructor|set_solver|set_solver|set_solver]. Qed.

(** The effect of an event on the line. *)
Definition line_after (line : list task) (e : event) : list task :=
  match e with Lock t => line ++ [t] | Unlock _ => list.tail line | _ => line end.

Lemma at_member s line t : gate_ok s line -> at_ s t <> Outside -> t ∈ line.
Proof. intros H Ht. destruct (decide (t ∈ line)) as [|Hn]; [done|]. by apply (go_outside _ _ H) in Hn. Qed.

(** Only the first of the line is past the gate. *)
Lemma inside_first s line t : gate_ok s line -> at_ s t = Inside -> exists rest, line = t :: rest.
Proof.
  intros H Ht. pose proof (at_member s line t H ltac:(congruence)) as Hin. destruct line as [|o q]; [by apply not_elem_of_nil in Hin|].
  apply elem_of_cons in Hin as [->|Hin]; [by exists q|]. destruct (go_rest _ _ H t Hin); congruence.
Qed.

(** Linking a waiter behind the last one. *)
Lemma enqueue_ok g o q t : NoDup (o :: q ++ [t]) -> linked (nodes g) (head g) q -> tail g = list.last q ->
  exists g', (match tail g with
    | Some last =>
        match <[t := None]> (nodes g) !! last with
        | None => Fault
        | Some _ => Parks (VfsGate (Some o) (head g) (Some t) (<[last := Some t]> (<[t := None]> (nodes g))) ({[t]} ∪ active g))
        end
    | None => Parks (VfsGate (Some o) (Some t) (Some t) (<[t := None]> (nodes g)) ({[t]} ∪ active g))
    end) = Parks g' /\ owner g' = Some o /\ tail g' = Some t /\ active g' = {[t]} ∪ active g /\ linked (nodes g') (head g') (q ++ [t]).
Proof.
  intros Hnd Hlk Htl. apply list.NoDup_cons in Hnd as [_ Hnd]. apply list.NoDup_app in Hnd as (Hnd & Hd & _). rewrite Htl. destruct q as [|l q _] using rev_ind; cbn [list.last].
  - eexists. do 4 (split; [done|]). cbn. split; [done|]. exists None. by rewrite lookup_insert_eq.
  - rewrite list.last_snoc. assert (Hlt : t <> l) by (intros ->; apply (Hd l); set_solver). rewrite lookup_insert_ne by done.
    assert (Hl : is_Some (nodes g !! l)) by (by eapply linked_last). destruct Hl as [next ->]. eexists. do 4 (split; [done|]). cbn [nodes head]. rewrite <- app_assoc. apply linked_snoc; [done|set_solver|done].
Qed.

Lemma lock_ok s line t : gate_ok s line -> allowed s (Lock t) -> exists s', run s (Lock t) = Some s' /\ gate_ok s' (line ++ [t]).
Proof.
  intros H [Ho Hb]. pose proof H as [Hnd Hown Hlk Htl Hac Hout Hfst Hrst]. apply Hout in Ho. cbn [run]. unfold vfs_lock.
  rewrite (bool_decide_eq_false_2 (owner (gate s) = Some t)) by (rewrite Hown; destruct line; [done|cbn; set_solver]). rewrite (bool_decide_eq_false_2 (t ∈ active (gate s))) by (by rewrite Hac). cbn [orb].
  assert (Hst : forall x u, <[t := x]> (at_ s) u = Outside -> x <> Outside -> u ∉ line ++ [t]).
  { intros x u Hu Hx. destruct (decide (t = u)) as [<-|Hne]; [by rewrite fn_lookup_insert in Hu|]. rewrite fn_lookup_insert_ne in Hu by done. apply Hout in Hu. set_solver. }
  assert (Hst2 : forall x u, u ∉ line ++ [t] -> <[t := x]> (at_ s) u = Outside) by (intros x u Hu; rewrite fn_lookup_insert_ne by set_solver; apply Hout; set_solver).
  assert (Hnd' : NoDup (line ++ [t])) by (apply list.NoDup_app; split; [done|]; split; [set_solver|apply NoDup_singleton]).
  destruct line as [|o q]; cbn [list.head list.tail app] in *; rewrite Hown.
  - eexists. split; [done|]. split; cbn; [done|done|done|done|intros u; rewrite elem_of_union, Hac; set_solver| |intros u [= <-]; left; apply fn_lookup_insert|set_solver].
    intros u. split; [intros Hu; by eapply Hst|apply Hst2].
  - rewrite bool_decide_eq_false_2 by (intros ->; rewrite Hown in Hb; by specialize (Hb eq_refl)).
    assert (Hold : forall u, u ∈ o :: q -> <[t := Parked]> (at_ s) u = at_ s u) by (intros u Hu; apply fn_lookup_insert_ne; set_solver).
    assert (Hq : exists g, (match tail (gate s) with Some last => match <[t := None]> (nodes (gate s)) !! last with None => Fault | Some _ => Parks (VfsGate (Some o) (head (gate s)) (Some t) (<[last := Some t]> (<[t := None]> (nodes (gate s)))) ({[t]} ∪ active (gate s))) end
        | None => Parks (VfsGate (Some o) (Some t) (Some t) (<[t := None]> (nodes (gate s))) ({[t]} ∪ active (gate s))) end) = Parks g /\
      owner g = Some o /\ tail g = Some t /\ active g = {[t]} ∪ active (gate s) /\ linked (nodes g) (head g) (q ++ [t])) by (by apply enqueue_ok).
    destruct Hq as (g & -> & Eo & Et & Ea & Hl). eexists. split; [done|]. split; cbn; [done|done|done|by rewrite Et, list.last_snoc|intros u; rewrite Ea, elem_of_union, Hac; set_solver| | |].
    + intros u. split; [intros Hu; by eapply Hst|apply Hst2].
    + intros u [= <-]. rewrite Hold by left. by apply Hfst.
    + intros u Hu. apply elem_of_app in Hu as [Hu|Hu%list_elem_of_singleton]; [rewrite Hold by (by right); by apply Hrst|subst u; left; apply fn_lookup_insert].
Qed.

Lemma resume_ok s line t : gate_ok s line -> allowed s (Resume t) -> exists s', run s (Resume t) = Some s' /\ gate_ok s' line.
Proof.
  intros H Ht. pose proof H as [Hnd Hown Hlk Htl Hac Hout Hfst Hrst]. cbn in Ht. pose proof (at_member s line t H ltac:(congruence)) as Hin. cbn [run]. unfold vfs_lock_resume.
  assert (Hst : forall x u, x <> Outside -> <[t := x]> (at_ s) u = Outside <-> u ∉ line).
  { intros x u Hx. destruct (decide (t = u)) as [<-|Hne]; [rewrite fn_lookup_insert; split; [done|set_solver]|by rewrite fn_lookup_insert_ne]. }
  destruct line as [|o q]; [by apply not_elem_of_nil in Hin|]. cbn [list.head list.tail] in *. apply list.NoDup_cons in Hnd as Hno. destruct Hno as [Ho Hq]. case_bool_decide as E; rewrite Hown in E.
  - injection E as ->. eexists. split; [done|]. split; cbn; try done; [|intros u; by apply Hst|intros u [= <-]; left; apply fn_lookup_insert|].
    + eapply linked_agree, Hlk. intros u Hu. rewrite lookup_delete_ne; set_solver.
    + intros u Hu. rewrite fn_lookup_insert_ne by set_solver. by apply Hrst.
  - assert (o <> t) by congruence. eexists. split; [done|]. split; cbn; try done; [intros u; by apply Hst| |].
    + intros u [= <-]. rewrite fn_lookup_insert_ne by done. by apply Hfst.
    + intros u Hu. destruct (decide (t = u)) as [<-|Hne]; [left; apply fn_lookup_insert|rewrite fn_lookup_insert_ne by done; by apply Hrst].
Qed.

Lemma wakeup_at a t u : task_wakeup t a u = a u \/ a u = Parked /\ task_wakeup t a u = Ready.
Proof. unfold task_wakeup. destruct (decide (a t = Parked)); [|by left]. destruct (decide (t = u)) as [<-|]; [right; by rewrite fn_lookup_insert|left; by apply fn_lookup_insert_ne]. Qed.

Lemma wakeup_self a t : a t = Parked \/ a t = Ready -> task_wakeup t a t = Ready.
Proof. unfold task_wakeup. intros H. destruct (decide (a t = Parked)); [apply fn_lookup_insert|naive_solver]. Qed.

Lemma wake_ok s line t : gate_ok s line -> gate_ok (System (gate s) (task_wakeup t (at_ s))) line.
Proof.
  intros [Hnd Hown Hlk Htl Hac Hout Hfst Hrst]. split; cbn; try done.
  - intros u. rewrite <- Hout. destruct (wakeup_at (at_ s) t u) as [->|[-> ->]]; done.
  - intros u Hu. destruct (Hfst u Hu), (wakeup_at (at_ s) t u) as [->|[? ->]]; auto.
  - intros u Hu. destruct (Hrst u Hu), (wakeup_at (at_ s) t u) as [->|[? ->]]; auto.
Qed.

Lemma unlock_ok s line t : gate_ok s line -> allowed s (Unlock t) -> exists s', run s (Unlock t) = Some s' /\ gate_ok s' (list.tail line).
Proof.
  intros H Ht. cbn in Ht. destruct (inside_first s line t H Ht) as [q ->]. destruct H as [Hnd Hown Hlk Htl Hac Hout Hfst Hrst]. cbn [list.head list.tail] in *. apply list.NoDup_cons in Hnd as [Htq Hnd].
  cbn [run]. unfold vfs_unlock. rewrite (bool_decide_eq_true_2 _ Hown), (bool_decide_eq_true_2 (t ∈ active (gate s))) by (apply Hac; left). cbn [negb orb].
  assert (Hst : forall u, <[t := Outside]> (at_ s) u = Outside <-> u ∉ q).
  { intros u. destruct (decide (t = u)) as [<-|Hne]; [by rewrite fn_lookup_insert|]. rewrite fn_lookup_insert_ne by done. rewrite Hout. set_solver. }
  assert (Hold : forall u, u ∈ q -> <[t := Outside]> (at_ s) u = at_ s u) by (intros u Hu; apply fn_lookup_insert_ne; set_solver).
  destruct q as [|n q]; cbn [linked list.last] in Hlk.
  - rewrite Hlk. eexists. split; [done|]. split; cbn; try done; [set_solver|set_solver].
  - destruct Hlk as (-> & next & -> & Hlk). eexists. split; [done|]. set (a := <[t := Outside]> (at_ s)) in *. cbn in Hnd. apply list.NoDup_cons in Hnd as Hn. destruct Hn as [Hn Hndq].
    split; cbn [gate at_ owner head tail nodes active list.head list.tail]; [done|done|done| | | | |].
    + destruct q as [|m q]; cbn in Hlk; [by subst|]. destruct Hlk as [-> _]. by rewrite Htl.
    + intros u. rewrite elem_of_difference, Hac. set_solver.
    + intros u. rewrite <- Hst. destruct (wakeup_at a n u) as [->|[-> ->]]; done.
    + intros u [= <-]. right. apply wakeup_self. rewrite Hold by left. apply Hrst. left.
    + intros u Hu. pose proof (Hrst u ltac:(by right)) as Hr. rewrite <- Hold in Hr by (by right). destruct (wakeup_at a n u) as [->|[? ->]]; auto.
Qed.

(** ** Every run *)
Lemma event_ok s line e : gate_ok s line -> allowed s e -> exists s', run s e = Some s' /\ gate_ok s' (line_after line e).
Proof.
  intros H Ha. destruct e as [t|t|t|t]; [by apply lock_ok|by apply resume_ok|by apply unlock_ok|]. eexists. split; [done|]. by apply wake_ok.
Qed.

Lemma reachable_ok es s : reachable es s -> gate_ok s (foldl line_after [] es).
Proof.
  induction 1 as [|es s e s' _ IH Ha Hr]; [apply start_ok|]. rewrite foldl_app. cbn. destruct (event_ok s _ e IH Ha) as (s2 & E & H2). congruence.
Qed.

(** Runs computed step by step. *)
Definition exec (es : list event) : option system := foldl (fun o e => s ← o; if decide (allowed s e) then run s e else None) (Some start) es.

Lemma exec_reachable es s : exec es = Some s -> reachable es s.
Proof.
  revert s. induction es as [|e es IH] using rev_ind; intros s; [intros [= <-]; constructor|]. unfold exec. rewrite foldl_app. cbn. fold (exec es). intros H.
  apply bind_Some in H as (s0 & E & H). case_decide; [|done]. econstructor; [by apply IH|done|done].
Qed.

(** [Unlock]s in a list of events. *)
Fixpoint unlocks (es : list event) : nat := match es with [] => 0 | Unlock _ :: es => S (unlocks es) | _ :: es => unlocks es end.

Lemma line_position es t : forall line k, line !! (k + unlocks es)%nat = Some t -> foldl line_after line es !! k = Some t.
Proof.
  induction es as [|e es IH]; intros line k; cbn [unlocks foldl]; [by rewrite Nat.add_0_r|]. intros H. apply IH. destruct e; cbn [line_after]; [by apply lookup_app_l_Some|done| |done].
  destruct line as [|u line]; [done|]. by rewrite Nat.add_succ_r in H.
Qed.

(** C10: after any interleaving of calls, resumptions, releases and stray wake-ups, the gate is
    a queue: [vfs_lock] puts its caller at the end of the line, [vfs_unlock] takes the
    first away, and nothing else moves it.  Exactly the tasks that use the switch
    stand in the line, at most one of them is past the gate, it is the first and
    passes [vfs_assert_locked], and no step that tasks can take panics or follows
    a link to a stack record that is gone. *)
Theorem vfs_gate_fifo es s : reachable es s ->
  let line := foldl line_after [] es in
  NoDup line /\ owner (gate s) = list.head line /\ (forall t, at_ s t = Outside <-> t ∉ line) /\
  (forall t, at_ s t = Inside -> list.head line = Some t /\ vfs_assert_locked t (gate s) = true) /\
  (forall t u, at_ s t = Inside -> at_ s u = Inside -> t = u) /\
  (forall e, allowed s e -> exists s', run s e = Some s' /\ reachable (es ++ [e]) s').
Proof.
  intros Hr line. pose proof (reachable_ok es s Hr) as H. fold line in H. assert (Hin : forall t, at_ s t = Inside -> list.head line = Some t) by (intros t Ht; by destruct (inside_first s line t H Ht) as [q ->]).
  split; [apply H|]. split; [apply H|]. split; [apply H|]. split; [|split].
  - intros t Ht. specialize (Hin t Ht). split; [done|]. unfold vfs_assert_locked. rewrite bool_decide_eq_true_2 by (by rewrite (go_owner _ _ H)). rewrite bool_decide_eq_true_2; [done|].
    apply (go_active _ _ H). destruct (inside_first s line t H Ht) as [q ->]. left.
  - intros t u Ht Hu. apply Hin in Ht, Hu. congruence.
  - intros e He. destruct (event_ok s line e H He) as (s' & E & _). exists s'. split; [done|]. by econstructor.
Qed.

Definition ex_events : list event := [Lock 1; Lock 2; Lock 3; Wake 3; Resume 3; Unlock 1; Lock 1; Resume 2].

Lemma vfs_gate_fifo_witness : exists s, reachable ex_events s /\ at_ s 2 = Inside /\ owner (gate s) = Some 2 /\ foldl line_after [] ex_events = [2; 3; 1].
Proof.
  destruct (exec ex_events) as [s|] eqn:E; [|vm_compute in E; discriminate]. exists s. split; [by apply exec_reachable|].
  destruct (vfs_gate_fifo ex_events s (exec_reachable _ _ E)) as (_ & Ho & _). split; [vm_compute in E; injection E as <-; reflexivity|]. split; [exact Ho|reflexivity].
Defined.

(** C27: nobody waits for ever: a task in the line at position [k] owns the gate after the next [k]
    releases, whoever calls or is woken meanwhile, and is then past it or made runnable, and
    passes as soon as it runs. *)
Theorem vfs_gate_bounded_wait es es' s k t : reachable (es ++ es') s -> foldl line_after [] es !! k = Some t -> unlocks es' = k ->
  owner (gate s) = Some t /\
  (at_ s t = Inside \/ at_ s t = Ready /\ exists s', run s (Resume t) = Some s' /\ at_ s' t = Inside).
Proof.
  intros Hr Hk Hu. pose proof (reachable_ok _ s Hr) as H. rewrite foldl_app in H. assert (Hh : list.head (foldl line_after (foldl line_after [] es) es') = Some t).
  { pose proof (line_position es' t (foldl line_after [] es) 0) as Hp. rewrite Hu in Hp. specialize (Hp Hk). by destruct (foldl line_after _ es'). }
  pose proof (go_owner _ _ H) as Ho. rewrite Hh in Ho. split; [done|]. destruct (go_first _ _ H t Hh) as [|Hrd]; [by left|right]. split; [done|]. cbn [run]. unfold vfs_lock_resume. rewrite bool_decide_eq_true_2 by done.
  eexists. split; [done|]. apply fn_lookup_insert.
Qed.

Lemma vfs_gate_bounded_wait_witness : exists s, reachable ([Lock 1; Lock 2; Lock 3] ++ [Unlock 1; Lock 1; Resume 2; Unlock 2]) s /\ owner (gate s) = Some 3.
Proof.
  destruct (exec ([Lock 1; Lock 2; Lock 3] ++ [Unlock 1; Lock 1; Resume 2; Unlock 2])) as [s|] eqn:E; [|vm_compute in E; discriminate]. exists s. split; [by apply exec_reachable|].
  apply (vfs_gate_bounded_wait [Lock 1; Lock 2; Lock 3] [Unlock 1; Lock 1; Resume 2; Unlock 2] s 2 3); [by apply exec_reachable|reflexivity|reflexivity].
Defined.
