(* ===== verification/BlockDev.v ===== *)
(** Block devices ([drivers/storage/block.h]), the registry of named volumes
    ([drivers/storage/blockdev.c]) and the partitions of a disk ([drivers/storage/partition.c]).

    A disk is known by its unit; what the transports behind the disks do is a
    parameter ([Transport]).  A partition is a device that refers to the device it
    lies on.  Names are C strings without their terminator. *)
From S2P Require Import Prelude KString.

(** ** Devices, [block.h] *)
Definition BLOCK_SECTOR_SIZE : Z := 512.

(** What a transport does on its units; a result says whether the request succeeded. *)
Class Transport (W : Type) := {
  disk_read : W -> Z -> Z -> Z -> W * option (list Z);
  disk_write : W -> Z -> Z -> Z -> list Z -> W * bool;
  disk_flush : W -> Z -> W * bool;
}.

(** [struct block_device]: the context with the callbacks of its transport or of [partition.c]. *)
Inductive block_device :=
| Disk (unit sectors : Z) (readable writable flushable : bool)
| Slice (index : Z) (parent : block_device) (first sectors : Z) (writable flushable : bool).

Definition sectors (d : block_device) : Z := match d with Disk _ n _ _ _ => n | Slice _ _ _ n _ _ => n end.
Definition has_read (d : block_device) : bool := match d with Disk _ _ r _ _ => r | Slice _ _ _ _ _ _ => true end.
Definition has_write (d : block_device) : bool := match d with Disk _ _ _ w _ => w | Slice _ _ _ _ w _ => w end.
Definition has_flush (d : block_device) : bool := match d with Disk _ _ _ _ f => f | Slice _ _ _ _ _ f => f end.
Definition context (d : block_device) : bool * Z := match d with Disk u _ _ _ _ => (false, u) | Slice i _ _ _ _ _ => (true, i) end.

Definition block_range_valid (d : block_device) (lba count : Z) : bool := negb (count =? 0) && (lba <? sectors d) && (count <=? sectors d - lba).

Section Transfer.
Context {W : Type} `{!Transport W}.

(** [block_read] with [slice_read], [block_write] with [slice_write], [block_flush] with [slice_flush]. *)
Fixpoint block_read (w : W) (d : block_device) (lba count : Z) : W * option (list Z) :=
  if block_range_valid d lba count && has_read d then
    match d with
    | Disk unit _ _ _ _ => disk_read w unit lba count
    | Slice _ parent first _ _ _ => block_read w parent (u64 (first + lba)) count
    end
  else (w, None).

Fixpoint block_write (w : W) (d : block_device) (lba count : Z) (buffer : list Z) : W * bool :=
  if block_range_valid d lba count && has_write d then
    match d with
    | Disk unit _ _ _ _ => disk_write w unit lba count buffer
    | Slice _ parent first _ _ _ => block_write w parent (u64 (first + lba)) count buffer
    end
  else (w, false).

Fixpoint block_flush (w : W) (d : block_device) : W * bool :=
  if has_flush d then
    match d with
    | Disk unit _ _ _ _ => disk_flush w unit
    | Slice _ parent _ _ _ _ => block_flush w parent
    end
  else (w, false).
End Transfer.

(** ** The registry, [blockdev.c] *)
Definition BLOCKDEV_MAX : Z := 64.
Definition BLOCKDEV_NAME_MAX : Z := 16.
Definition BLOCKDEV_WRITABLE : Z := 0x1.
Definition BLOCKDEV_PARTITION : Z := 0x4.
Definition BLOCKDEV_ESP : Z := 0x10.
Definition BLOCKDEV_OFFLINE : Z := 0x20.

Record blockdev_entry := Entry { name : list Z; device : block_device; start_lba : Z; flags : Z }.
Record blockdev_info := Info { info_sectors : Z; info_start_lba : Z; info_sector_size : Z; info_flags : Z; info_name : list Z }.

(** The entries below [entry_count]. *)
Abbreviation registry := (list blockdev_entry).

(** The index of the entry with a name. *)
Fixpoint find (r : registry) (n : list Z) : option nat :=
  match r with
  | [] => None
  | e :: r => if strcmp (name e) n =? 0 then Some O else S <$> find r n
  end.

Definition blockdev_register (r : registry) (n : list Z) (d : block_device) (start fl : Z) : registry * Z :=
  if bool_decide (n = []) || (strlen n >=? BLOCKDEV_NAME_MAX) || negb (has_read d) || (sectors d =? 0) then (r, - EINVAL) else
  match find r n with
  | Some _ => (r, - EEXIST)
  | None =>
      if zlen r <? BLOCKDEV_MAX then (r ++ [Entry n d start (Z.lor fl (if has_write d then BLOCKDEV_WRITABLE else 0))], 0)
      else (r, - ENOSPC)
  end.

Definition set_entry_flags (e : blockdev_entry) (fl : Z) : blockdev_entry := Entry (name e) (device e) (start_lba e) fl.

Definition blockdev_set_flags (r : registry) (n : list Z) (fl : Z) : registry * Z :=
  match find r n with
  | Some i => (alter (fun e => set_entry_flags e (Z.lor (flags e) fl)) i r, 0)
  | None => (r, - ENOENT)
  end.

Definition blockdev_set_online (r : registry) (n : list Z) (online : bool) : registry * Z :=
  match find r n with
  | Some i => (alter (fun e => set_entry_flags e (if online then Z.land (flags e) (2 ^ 32 - 1 - BLOCKDEV_OFFLINE) else Z.lor (flags e) BLOCKDEV_OFFLINE)) i r, 0)
  | None => (r, - ENOENT)
  end.

Definition blockdev_count (r : registry) : Z := zlen r.

Definition blockdev_describe (r : registry) (index : Z) : Z + blockdev_info :=
  if index <? zlen r then
    match r !! Z.to_nat index with
    | Some e => inr (Info (sectors (device e)) (start_lba e) BLOCK_SECTOR_SIZE (flags e) (name e))
    | None => inl (- ENOENT)
    end
  else inl (- ENOENT).

Definition blockdev_name_of (r : registry) (c : bool * Z) : Z + list Z :=
  match List.find (fun e => bool_decide (context (device e) = c)) r with Some e => inr (name e) | None => inl (- ENOENT) end.

Definition blockdev_lookup (r : registry) (n : list Z) : Z + block_device :=
  match find r n ≫= (r !!.) with
  | Some e => if flags e &? BLOCKDEV_OFFLINE then inl (- ENODEV) else inr (device e)
  | None => inl (- ENOENT)
  end.
