(* ===== verification/Partition.v ===== *)
(** Partition tables, [drivers/storage/partition.c]: the four entries of a master boot record and
    the chain of extended boot records, published as devices of their own. *)
From S2P Require Import Prelude KString BlockDev.

Definition PARTITION_MAX : Z := 32.
Definition MBR_TABLE_OFFSET : Z := 446.
Definition MBR_ENTRY_BYTES : Z := 16.
Definition MBR_ENTRIES : Z := 4.
Definition MBR_SIGNATURE_OFFSET : Z := 510.
Definition MBR_STATUS_INACTIVE : Z := 0x00.
Definition MBR_STATUS_BOOTABLE : Z := 0x80.
Definition MBR_TYPE_EMPTY : Z := 0x00.
Definition MBR_TYPE_EXTENDED_CHS : Z := 0x05.
Definition MBR_TYPE_EXTENDED_LBA : Z := 0x0F.
Definition MBR_TYPE_EXTENDED_LINUX : Z := 0x85.
Definition MBR_TYPE_GPT_PROTECTIVE : Z := 0xEE.
Definition MBR_TYPE_EFI_SYSTEM : Z := 0xEF.
Definition EBR_MAX_LINKS : nat := 64.
Definition LOGICAL_FIRST_NUMBER : Z := 5.

Definition read_le32 (sector : list Z) (at_ : Z) : Z :=
  Z.lor (Z.lor (Z.lor (rd sector at_) (u32 (Z.shiftl (rd sector (at_ + 1)) 8))) (u32 (Z.shiftl (rd sector (at_ + 2)) 16))) (u32 (Z.shiftl (rd sector (at_ + 3)) 24)).

Definition is_extended (type : Z) : bool := (type =? MBR_TYPE_EXTENDED_CHS) || (type =? MBR_TYPE_EXTENDED_LBA) || (type =? MBR_TYPE_EXTENDED_LINUX).

(** The digits of the number, the last one first; there is room for eight. *)
Fixpoint number_digits (n : nat) (number : Z) : list Z :=
  match n with
  | O => []
  | S n => 48 + number mod 10 :: (if number / 10 =? 0 then [] else number_digits n (number / 10))
  end.
Fixpoint parent_fits (parent : list Z) (at_ max : Z) : bool :=
  match parent with [] => true | _ :: parent => if at_ + 1 >=? max then false else parent_fits parent (at_ + 1) max end.
Definition slice_name (max : Z) (parent : list Z) (number : Z) : option (list Z) :=
  if negb (parent_fits parent 0 max) then None else
  let digits := number_digits 8 number in
  if zlen parent + zlen digits + 2 >? max then None else Some (parent ++ [112] ++ reverse digits).

Definition has_signature (sector : list Z) : bool := (rd sector MBR_SIGNATURE_OFFSET =? 0x55) && (rd sector (MBR_SIGNATURE_OFFSET + 1) =? 0xAA).

(** The first sector, the number of sectors, the status and the type of the entry at an offset. *)
Definition entry_first (sector : list Z) (e : Z) : Z := read_le32 sector (e + 8).
Definition entry_sectors (sector : list Z) (e : Z) : Z := read_le32 sector (e + 12).
Definition entry_status (sector : list Z) (e : Z) : Z := rd sector e.
Definition entry_type (sector : list Z) (e : Z) : Z := rd sector (e + 4).
Definition table_entry (i : Z) : Z := MBR_TABLE_OFFSET + i * MBR_ENTRY_BYTES.

(** The static variables of [blockdev.c] and [partition.c]: the registry and the slices below [slice_count]. *)
Record volumes := Volumes { reg : registry; slices : list block_device }.

Definition publish (v : volumes) (parent : block_device) (parent_name : list Z) (number first count inherit type : Z) : volumes * Z :=
  if (count =? 0) || (first >=? sectors parent) || (count >? sectors parent - first) then (v, 0) else
  if zlen (slices v) >=? PARTITION_MAX then (v, 0) else
  match slice_name BLOCKDEV_NAME_MAX parent_name number with
  | None => (v, 0)
  | Some n =>
      let d := Slice (zlen (slices v)) parent first count (has_write parent) (has_flush parent) in
      let role := if type =? MBR_TYPE_EFI_SYSTEM then BLOCKDEV_ESP else 0 in
      let '(r, result) := blockdev_register (reg v) n d first (Z.lor (Z.lor inherit BLOCKDEV_PARTITION) role) in
      if negb (result =? 0) then (v, 0) else (Volumes r (slices v ++ [d]), 1)
  end.

Section Scan.
Context {W : Type} `{!Transport W}.

(** The links from [here] on; [n] of them are left. *)
Fixpoint scan_links (n : nat) (w : W) (v : volumes) (parent : block_device) (parent_name : list Z) (extended_first inherit number here published : Z) : W * volumes * Z :=
  match n with
  | O => (w, v, published)
  | S n =>
      if here >=? sectors parent then (w, v, published) else
      let '(w, r) := block_read w parent here 1 in
      match r with
      | None => (w, v, published)
      | Some sector =>
          if negb (has_signature sector) then (w, v, published) else
          let entry := MBR_TABLE_OFFSET in
          let first := entry_first sector entry in
          let count := entry_sectors sector entry in
          let '(v, k) :=
            if negb (entry_type sector entry =? MBR_TYPE_EMPTY) && negb (count =? 0)
            then publish v parent parent_name number (u64 (here + first)) count inherit (entry_type sector entry) else (v, 0) in
          let published := published + k in
          let next := entry + MBR_ENTRY_BYTES in
          if negb (is_extended (entry_type sector next)) then (w, v, published) else
          let offset := entry_first sector next in
          if offset =? 0 then (w, v, published) else
          let following := u64 (extended_first + offset) in
          if following <=? here then (w, v, published) else
          scan_links n w v parent parent_name extended_first inherit (number + 1) following published
      end
  end.

Definition scan_logical (w : W) (v : volumes) (parent : block_device) (parent_name : list Z) (extended_first inherit : Z) : W * volumes * Z :=
  scan_links EBR_MAX_LINKS w v parent parent_name extended_first inherit LOGICAL_FIRST_NUMBER extended_first 0.

(** The validation loop: [None] refuses the table, otherwise whether an entry is usable. *)
Fixpoint table_usable (ids : list Z) (sector : list Z) (limit : Z) (usable : bool) : option bool :=
  match ids with
  | [] => Some usable
  | i :: ids =>
      let entry := table_entry i in
      if negb (entry_status sector entry =? MBR_STATUS_INACTIVE) && negb (entry_status sector entry =? MBR_STATUS_BOOTABLE) then None else
      if entry_type sector entry =? MBR_TYPE_GPT_PROTECTIVE then None else
      let first := entry_first sector entry in
      let count := entry_sectors sector entry in
      if (entry_type sector entry =? MBR_TYPE_EMPTY) || (count =? 0) then table_usable ids sector limit usable else
      table_usable ids sector limit (if (first <? limit) && (count <=? limit - first) then true else usable)
  end.

Fixpoint publish_table (ids : list Z) (sector : list Z) (w : W) (v : volumes) (parent : block_device) (parent_name : list Z) (inherit published : Z) : W * volumes * Z :=
  match ids with
  | [] => (w, v, published)
  | i :: ids =>
      let entry := table_entry i in
      let first := entry_first sector entry in
      let count := entry_sectors sector entry in
      if (entry_type sector entry =? MBR_TYPE_EMPTY) || (count =? 0) then publish_table ids sector w v parent parent_name inherit published else
      if is_extended (entry_type sector entry) then
        let '(w, v, k) := scan_logical w v parent parent_name first inherit in
        publish_table ids sector w v parent parent_name inherit (published + k)
      else
        let '(v, k) := publish v parent parent_name (i + 1) first count inherit (entry_type sector entry) in
        publish_table ids sector w v parent parent_name inherit (published + k)
  end.

Definition partition_scan (w : W) (v : volumes) (parent : block_device) (parent_name : list Z) (inherit : Z) : W * volumes * Z :=
  let '(w, r) := block_read w parent 0 1 in
  match r with
  | None => (w, v, 0)
  | Some sector =>
      if negb (has_signature sector) then (w, v, 0) else
      match table_usable (seqZ 0 MBR_ENTRIES) sector (sectors parent) false with
      | Some true => publish_table (seqZ 0 MBR_ENTRIES) sector w v parent parent_name inherit 0
      | _ => (w, v, 0)
      end
  end.
End Scan.
