(* ===== verification/PartitionSpec.v ===== *)
(** Partitions are devices of their own, the registry names each volume once, and a scan publishes
    slices that lie on the disk. *)
From S2P Require Import Prelude KString KStringSpec BlockDev Partition.

(** ** Byte buffers *)
Lemma bytes_at_ext (c c' : list Z) off n : 0 <= off -> 0 <= n -> (forall x, off <= x < off + n -> c' !! Z.to_nat x = c !! Z.to_nat x) -> bytes_at c' off n = bytes_at c off n.
Proof.
  intros Ho Hn H. apply list_eq. intros i. destruct (Z.lt_ge_cases (Z.of_nat i) n) as [Hi|Hi]; [|unfold bytes_at; by rewrite !lookup_take_ge by lia].
  rewrite !bytes_at_lookup by lia. replace (Z.to_nat off + i)%nat with (Z.to_nat (off + Z.of_nat i)) by lia. apply H. lia.
Qed.

Lemma bytes_at_copy_sub (c b : list Z) off n o : 0 <= off -> 0 <= n -> off + n <= zlen c -> 0 <= o -> o + zlen b <= n ->
  bytes_at (copy_to c (off + o) b) off n = copy_to (bytes_at c off n) o b.
Proof.
  intros H1 H2 H3 H4 H5. unfold zlen in *. assert (Hl : length (bytes_at c off n) = Z.to_nat n) by (apply bytes_at_length; lia). apply list_eq. intros i. destruct (Z.lt_ge_cases (Z.of_nat i) n) as [Hi|Hi].
  - rewrite bytes_at_lookup, !copy_to_lookup by (try rewrite Hl; lia). destruct (decide (o <= Z.of_nat i < o + Z.of_nat (length b))); [rewrite decide_True by lia; f_equal; lia|]. rewrite decide_False, bytes_at_lookup by lia. done.
  - rewrite !lookup_ge_None_2; [done|rewrite copy_to_length by lia; lia|]. rewrite bytes_at_length; rewrite ?copy_to_length; lia.
Qed.

(** ** Transports *)
Definition is_byte (b : Z) : Prop := 0 <= b < 256.


(** What [block.h] promises of a transport: a unit is an array of sectors, reading returns what is
    stored, and writing changes nothing but the sectors it names. *)
Class TransportLaws (W : Type) `{!Transport W} := {
  content : W -> Z -> list Z;
  content_bytes : forall w u, Forall is_byte (content w u);
  disk_read_law : forall w u lba n w' r, disk_read w u lba n = (w', r) ->
    (forall u', content w' u' = content w u') /\
    (forall b, r = Some b -> 0 <= lba -> 0 <= n -> (lba + n) * 512 <= zlen (content w u) -> b = bytes_at (content w u) (lba * 512) (n * 512));
  disk_write_law : forall w u lba n b w' ok, disk_write w u lba n b = (w', ok) -> 0 <= lba -> (lba + n) * 512 <= zlen (content w u) -> zlen b = n * 512 -> Forall is_byte b ->
    (forall u', u' <> u -> content w' u' = content w u') /\ zlen (content w' u) = zlen (content w u) /\
    (forall x, 0 <= x -> ~ lba * 512 <= x < (lba + n) * 512 -> content w' u !! Z.to_nat x = content w u !! Z.to_nat x) /\
    (ok = true -> content w' u = copy_to (content w u) (lba * 512) b);
}.

(** ** Devices *)
Fixpoint unit_of (d : block_device) : Z := match d with Disk u _ _ _ _ => u | Slice _ p _ _ _ _ => unit_of p end.
Fixpoint base_of (d : block_device) : Z := match d with Disk _ _ _ _ _ => 0 | Slice _ p first _ _ _ => first + base_of p end.
Fixpoint disk_of (d : block_device) : block_device := match d with Disk _ _ _ _ _ => d | Slice _ p _ _ _ _ => disk_of p end.

(** A slice lies on its parent, and is writable only if that is. *)
Fixpoint dev_ok (d : block_device) : Prop :=
  match d with
  | Disk _ n r _ _ => 0 <= n < 2 ^ 63 /\ r = true
  | Slice _ p first n w f => dev_ok p /\ 0 <= first /\ 0 < n /\ first + n <= sectors p /\ w = has_write p /\ f = has_flush p
  end.

Lemma dev_range d : dev_ok d -> 0 <= sectors d /\ 0 <= base_of d /\ base_of d + sectors d <= sectors (disk_of d) < 2 ^ 63.
Proof. induction d as [|i p IH first n w f]; cbn; [lia|]. intros (Hp & H1 & H2 & H3 & _). specialize (IH Hp). lia. Qed.

Lemma has_read_ok d : dev_ok d -> has_read d = true.
Proof. destruct d; cbn; naive_solver. Qed.

Section Devices.
Context {W : Type} `{!Transport W}.
Implicit Types (w : W).

(** A request to a slice is one to its disk, moved. *)
Lemma block_read_disk d : dev_ok d -> forall w lba n, 0 <= lba -> 0 <= n ->
  block_read w d lba n = if block_range_valid d lba n then disk_read w (unit_of d) (base_of d + lba) n else (w, None).
Proof.
  induction d as [u m r wr f|i p IH first m wr f]; intros Hok w lba n Hl Hn; cbn [block_read].
  - destruct Hok as [_ ->]. rewrite andb_true_r. done.
  - rewrite has_read_ok, andb_true_r by done. destruct (block_range_valid _ _ _) eqn:E; [|done]. pose proof (dev_range _ Hok) as Hr. destruct Hok as (Hp & H1 & H2 & H3 & _). specialize (IH Hp). pose proof (dev_range p Hp).
    unfold block_range_valid in E. cbn [sectors base_of unit_of] in *. zbool. rewrite u64_small by lia. rewrite IH by lia. unfold block_range_valid.
    destruct (Z.eqb_spec n 0); [lia|]. destruct (Z.ltb_spec (first + lba) (sectors p)); [|lia]. destruct (Z.leb_spec n (sectors p - (first + lba))); [|lia]. cbn [negb andb]. f_equal. lia.
Qed.

Lemma block_write_disk d : dev_ok d -> forall w lba n b, 0 <= lba -> 0 <= n ->
  block_write w d lba n b = if block_range_valid d lba n && has_write d then disk_write w (unit_of d) (base_of d + lba) n b else (w, false).
Proof.
  induction d as [u m r wr f|i p IH first m wr f]; intros Hok w lba n b Hl Hn; cbn [block_write]; [done|].
  destruct (block_range_valid _ _ _) eqn:E; [|done]. cbn [andb]. destruct (has_write (Slice i p first m wr f)) eqn:Ew; [|done]. pose proof (dev_range _ Hok) as Hr. destruct Hok as (Hp & H1 & H2 & H3 & Hw & _). cbn in Ew. subst wr. specialize (IH Hp). pose proof (dev_range p Hp).
  unfold block_range_valid in E. cbn [sectors base_of unit_of] in *. zbool. rewrite u64_small by lia. rewrite IH by lia. unfold block_range_valid. rewrite Ew.
  destruct (Z.eqb_spec n 0); [lia|]. destruct (Z.ltb_spec (first + lba) (sectors p)); [|lia]. destruct (Z.leb_spec n (sectors p - (first + lba))); [|lia]. cbn [negb andb]. f_equal. lia.
Qed.

Context `{!TransportLaws W}.

(** The bytes of a device. *)
Definition dev_bytes w (d : block_device) : list Z := bytes_at (content w (unit_of d)) (base_of d * 512) (sectors d * 512).
(** The transport has all sectors of the device. *)
Definition present w (d : block_device) : Prop := sectors (disk_of d) * 512 <= zlen (content w (unit_of d)).

Definition disjoint_devices (d e : block_device) : Prop := unit_of d <> unit_of e \/ base_of d + sectors d <= base_of e \/ base_of e + sectors e <= base_of d.

Lemma read_ok d w lba n w' r : dev_ok d -> present w d -> 0 <= lba -> 0 <= n -> block_read w d lba n = (w', r) ->
  (forall u, content w' u = content w u) /\ (forall b, r = Some b -> 0 < n /\ lba + n <= sectors d /\ b = bytes_at (dev_bytes w d) (lba * 512) (n * 512)).
Proof.
  intros Hok Hp Hl Hn. rewrite block_read_disk by done. pose proof (dev_range d Hok). unfold present in Hp. destruct (block_range_valid d lba n) eqn:E; [|by intros [= <- <-]].
  unfold block_range_valid in E. zbool. intros Hr. destruct (disk_read_law _ _ _ _ _ _ Hr) as [Hc Hb]. split; [done|]. intros b ->. split; [lia|]. split; [lia|]. rewrite (Hb b eq_refl) by lia.
  unfold dev_bytes. rewrite bytes_at_sub by lia. f_equal; lia.
Qed.

Lemma write_ok d w lba n b w' ok : dev_ok d -> present w d -> 0 <= lba -> 0 <= n -> zlen b = n * 512 -> Forall is_byte b -> block_write w d lba n b = (w', ok) ->
  (forall u, zlen (content w' u) = zlen (content w u)) /\
  (ok = true -> dev_bytes w' d = copy_to (dev_bytes w d) (lba * 512) b) /\
  (forall e, dev_ok e -> disjoint_devices d e -> dev_bytes w' e = dev_bytes w e).
Proof.
  intros Hok Hp Hl Hn Hb Hbb. rewrite block_write_disk by done. pose proof (dev_range d Hok) as Hd. unfold present in Hp. destruct (block_range_valid d lba n && has_write d) eqn:E; [|by intros [= <- <-]].
  apply andb_prop in E as [E _]. unfold block_range_valid in E. zbool. intros Hr. apply disk_write_law in Hr as (Hu & Hz & Hout & Hin); [|lia|lia|done|done]. split; [|split].
  - intros u. destruct (Z.eq_dec u (unit_of d)) as [->|Hne]; [done|by rewrite Hu].
  - intros Hs. unfold dev_bytes. rewrite (Hin Hs). replace ((base_of d + lba) * 512) with (base_of d * 512 + lba * 512) by lia. apply bytes_at_copy_sub; lia.
  - intros e He Hdis. pose proof (dev_range e He). unfold dev_bytes. destruct (Z.eq_dec (unit_of e) (unit_of d)) as [Eu|Hne]; [|by rewrite Hu]. rewrite Eu.
    destruct Hdis as [Hdis|Hdis]; [congruence|]. apply bytes_at_ext; [lia|lia|]. intros x Hx. apply Hout; lia.
Qed.
End Devices.

(** ** The registry *)
Lemma strcmp_zero a : forall b, cstring a -> cstring b -> strcmp a b = 0 <-> a = b.
Proof.
  induction a as [|x a IH]; intros [|y b] Ha Hb; cbn [strcmp]; [done| | |].
  - apply hd0_pos in Hb. cbn. split; [lia|done].
  - apply hd0_pos in Ha. cbn. split; [lia|done].
  - inversion_clear Ha. inversion_clear Hb. destruct (Z.eqb_spec x y) as [->|Hne]; [rewrite IH by done; naive_solver|]. split; [lia|naive_solver].
Qed.

Definition entry_ok (e : blockdev_entry) : Prop := cstring (name e) /\ name e <> [] /\ zlen (name e) < BLOCKDEV_NAME_MAX /\ 0 < sectors (device e) /\ has_read (device e) = true.
Record reg_ok (r : registry) : Prop := {
  ro_len : zlen r <= BLOCKDEV_MAX;
  ro_names : NoDup (name <$> r);
  ro_entries : Forall entry_ok r;
}.

Lemma find_fresh r n : Forall entry_ok r -> cstring n -> find r n = None <-> (n ∉ (name <$> r)).
Proof.
  intros Hr Hn. induction Hr as [|e r [He _] _ IH]; cbn [find fmap list_fmap]; [set_solver|]. pose proof (strcmp_zero (name e) n He Hn) as Hz.
  destruct (Z.eqb_spec (strcmp (name e) n) 0) as [E|E]; [apply Hz in E; subst; set_solver|]. rewrite fmap_None, IH, not_elem_of_cons. naive_solver.
Qed.

Lemma find_named r n i : Forall entry_ok r -> cstring n -> find r n = Some i -> exists e, r !! i = Some e /\ name e = n.
Proof.
  intros Hr Hn. revert i. induction Hr as [|e r [He _] _ IH]; intros i; cbn [find]; [done|].
  destruct (Z.eqb_spec (strcmp (name e) n) 0) as [E|E]; [apply strcmp_zero in E; [|done|done]; intros [= <-]; by exists e|]. intros Hi. apply fmap_Some in Hi as (j & Hj & ->). by apply IH.
Qed.

Lemma register_ok r n d start fl : reg_ok r -> cstring n -> 0 <= sectors d ->
  exists r' res, blockdev_register r n d start fl = (r', res) /\ reg_ok r' /\
    (res = 0 /\ (n ∉ (name <$> r)) /\ r' = r ++ [Entry n d start (Z.lor fl (if has_write d then BLOCKDEV_WRITABLE else 0))] \/ res < 0 /\ r' = r).
Proof.
  intros [Hl Hn He] Hc Hs. unfold blockdev_register. destruct (_ || _) eqn:E; [eexists _, _; split; [done|]; split; [done|]; right; done|].
  apply orb_false_iff in E as [E E4]. apply orb_false_iff in E as [E E3]. apply orb_false_iff in E as [E1 E2]. apply bool_decide_eq_false in E1. apply negb_false_iff in E3. unfold strlen in E2. fold (zlen n) in E2. zbool.
  destruct (find r n) eqn:Ef; [eexists _, _; split; [done|]; split; [done|]; right; done|]. apply find_fresh in Ef; [|done|done].
  destruct (Z.ltb_spec (zlen r) BLOCKDEV_MAX); [|eexists _, _; split; [done|]; split; [done|]; right; done]. eexists _, _. split; [done|]. split; [|by left]. split.
  - unfold zlen in *. rewrite length_app. cbn. lia.
  - rewrite fmap_app. apply list.NoDup_app. split; [done|]. split; [set_solver|apply NoDup_singleton].
  - apply Forall_app_2; [done|]. apply Forall_singleton. split; [done|]. split; [done|]. split; [cbn [name]; lia|]. split; [cbn [device]; lia|done].
Qed.

(** Changing the flags of an entry changes no name and no other entry. *)
Lemma alter_names (r : registry) (i : nat) (f : Z -> Z) : name <$> alter (fun e => set_entry_flags e (f (flags e))) i r = name <$> r.
Proof. revert i. induction r as [|e r IH]; intros [|i]; try done. cbn. f_equal. apply IH. Qed.

Lemma find_names r r' n : name <$> r = name <$> r' -> find r n = find r' n.
Proof. revert r'. induction r as [|e r IH]; intros [|e' r'] H; try done. cbn in H. injection H as H1 H2. cbn [find]. by rewrite H1, (IH r'). Qed.

Lemma alter_reg_ok r i f : reg_ok r -> reg_ok (alter (fun e => set_entry_flags e (f (flags e))) i r).
Proof.
  intros [H1 H2 H3]. split; [unfold zlen in *; by rewrite list.length_alter|by rewrite alter_names|]. apply Forall_alter; [done|]. intros e _ He. exact He.
Qed.

(** What a name stands for. *)
Definition volume (r : registry) (n : list Z) : option blockdev_entry := find r n ≫= (r !!.).

Lemma lookup_volume r n : blockdev_lookup r n = match volume r n with Some e => if flags e &? BLOCKDEV_OFFLINE then inl (- ENODEV) else inr (device e) | None => inl (- ENOENT) end.
Proof. done. Qed.

Lemma volume_alter r n i f m : Forall entry_ok r -> cstring n -> cstring m -> find r n = Some i ->
  volume (alter (fun e => set_entry_flags e (f (flags e))) i r) m = (if decide (m = n) then (fun e => set_entry_flags e (f (flags e))) <$> volume r m else volume r m).
Proof.
  intros Hr Hn Hm Hi. unfold volume. rewrite (find_names _ r m) by apply alter_names. destruct (decide (m = n)) as [->|Hne].
  - rewrite Hi. cbn. by rewrite list_lookup_alter_eq.
  - destruct (find r m) as [j|] eqn:Ej; [|done]. cbn. destruct (find_named r n i Hr Hn Hi) as (e & He & En). destruct (find_named r m j Hr Hm Ej) as (e' & He' & En').
    apply list_lookup_alter_ne. intros ->. congruence.
Qed.

Lemma offline_set fl : (Z.lor fl BLOCKDEV_OFFLINE &? BLOCKDEV_OFFLINE) = true.
Proof. apply negb_true_iff, Z.eqb_neq. rewrite Z.land_lor_distr_l, Z.land_diag. intros H. by apply Z.lor_eq_0_iff in H as [_ H]. Qed.

Lemma offline_clear fl : (Z.land fl (2 ^ 32 - 1 - BLOCKDEV_OFFLINE) &? BLOCKDEV_OFFLINE) = false.
Proof. apply negb_false_iff, Z.eqb_eq. rewrite <- Z.land_assoc. change (Z.land (2 ^ 32 - 1 - BLOCKDEV_OFFLINE) BLOCKDEV_OFFLINE) with 0. apply Z.land_0_r. Qed.

(** Taking a volume off line makes its lookup fail with [ENODEV] until it is on line again; every other
    lookup is unaffected. *)
Theorem blockdev_online r n online : reg_ok r -> cstring n ->
  let '(r', res) := blockdev_set_online r n online in
  reg_ok r' /\ (res = 0 /\ is_Some (volume r n) \/ res = - ENOENT /\ r' = r /\ volume r n = None) /\
  (forall e, volume r n = Some e -> blockdev_lookup r' n = if online then inr (device e) else inl (- ENODEV)) /\
  (forall m, cstring m -> m <> n -> blockdev_lookup r' m = blockdev_lookup r m).
Proof.
  intros Hr Hn. unfold blockdev_set_online. destruct (find r n) as [i|] eqn:Ei.
  - set (f := fun fl => if online then Z.land fl (2 ^ 32 - 1 - BLOCKDEV_OFFLINE) else Z.lor fl BLOCKDEV_OFFLINE). change (alter _ i r) with (alter (fun e => set_entry_flags e (f (flags e))) i r). split; [by apply (alter_reg_ok r i f)|].
    pose proof (fun m Hm => volume_alter r n i f m (ro_entries r Hr) Hn Hm Ei) as Hva. split; [left; split; [done|]; unfold volume; rewrite Ei; destruct (find_named r n i (ro_entries r Hr) Hn Ei) as (e & He & _); by exists e|]. split.
    + intros e He. rewrite lookup_volume, Hva, decide_True, He by done. cbn [fmap option_fmap option_map set_entry_flags flags device]. unfold f.
      destruct online; [by rewrite offline_clear|by rewrite offline_set].
    + intros m Hm Hne. by rewrite !lookup_volume, Hva, decide_False.
  - split; [done|]. assert (Hv : volume r n = None) by (unfold volume; by rewrite Ei). split; [by right|]. split; [intros e He; congruence|done].
Qed.

(** ** Publishing *)
Record vol_ok (v : volumes) : Prop := {
  vo_reg : reg_ok (reg v);
  vo_slices : zlen (slices v) <= PARTITION_MAX;
  vo_index : forall i d, slices v !! i = Some d -> context d = (true, Z.of_nat i);
}.

(** An entry for a slice on a device. *)
Definition slice_on (parent : block_device) (pname : list Z) (e : blockdev_entry) : Prop :=
  exists index first n number, device e = Slice index parent first n (has_write parent) (has_flush parent) /\ start_lba e = first /\
    0 <= first /\ 0 < n /\ first + n <= sectors parent /\ slice_name BLOCKDEV_NAME_MAX pname number = Some (name e).

(** New volumes have been added, and nothing else has changed. *)
Definition extends (parent : block_device) (pname : list Z) (v v' : volumes) (k : Z) : Prop :=
  vol_ok v' /\ exists new, reg v' = reg v ++ new /\ slices v' = slices v ++ (device <$> new) /\ k = zlen new /\ Forall (slice_on parent pname) new.

Lemma extends_refl p n v : vol_ok v -> extends p n v v 0.
Proof. intros H. split; [done|]. exists []. by rewrite !app_nil_r. Qed.

Lemma extends_trans p n v1 v2 v3 k l : extends p n v1 v2 k -> extends p n v2 v3 l -> extends p n v1 v3 (k + l).
Proof.
  intros (_ & a & Ea & Sa & -> & Fa) (H3 & b & Eb & Sb & -> & Fb). split; [done|]. exists (a ++ b). rewrite Eb, Ea, Sb, Sa, fmap_app, !app_assoc. unfold zlen. rewrite length_app.
  repeat split; [lia|]. by apply Forall_app_2.
Qed.

Lemma number_digits_ok n : forall x, 0 <= x -> Forall (fun c => 0 < c < 256) (number_digits n x).
Proof.
  induction n as [|n IH]; intros x Hx; cbn [number_digits]; [constructor|]. pose proof (Z.mod_pos_bound x 10). constructor; [lia|]. destruct (_ =? 0); [constructor|]. apply IH, Z.div_pos; lia.
Qed.

Lemma slice_name_cstring max p x n : cstring p -> 0 <= x -> slice_name max p x = Some n -> cstring n.
Proof.
  unfold slice_name. intros Hp Hx H. destruct (negb _); [done|]. pose proof (number_digits_ok 8 x Hx) as Hd. set (ds := number_digits 8 x) in *. clearbody ds.
  destruct (_ >? _); [done|]. injection H as <-. apply Forall_app_2; [done|]. constructor; [lia|by apply Forall_reverse].
Qed.

Lemma publish_ok v parent pname number first count inherit type v' k : vol_ok v -> cstring pname -> 0 <= number -> 0 <= first -> 0 <= count -> 
  publish v parent pname number first count inherit type = (v', k) -> extends parent pname v v' k.
Proof.
  intros Hv Hp Hn Hf Hc. unfold publish. destruct (_ || _) eqn:E; [intros [= <- <-]; by apply extends_refl|]. apply orb_false_iff in E as [E E3]. apply orb_false_iff in E as [E1 E2]. zbool.
  destruct (Z.geb_spec (zlen (slices v)) PARTITION_MAX); [intros [= <- <-]; by apply extends_refl|]. destruct (slice_name _ _ _) as [nm|] eqn:En; [|intros [= <- <-]; by apply extends_refl].
  set (d := Slice _ _ _ _ _ _). set (fl := Z.lor (Z.lor inherit BLOCKDEV_PARTITION) _). destruct (register_ok (reg v) nm d first fl (vo_reg v Hv)) as (r & res & Er & Hr & Hres); [exact (slice_name_cstring _ _ _ _ Hp Hn En)|cbn; lia|]. rewrite Er.
  destruct Hres as [(-> & _ & ->)|[Hneg _]]; [|destruct (Z.eqb_spec res 0); [lia|]; intros [= <- <-]; by apply extends_refl]. cbn [Z.eqb negb]. intros [= <- <-]. split.
  - split; cbn [reg slices]; [done|unfold zlen in *; rewrite length_app; cbn; lia|]. intros i e Hi. apply lookup_app_Some in Hi as [Hi|[Hi Hi2]]; [by apply (vo_index v Hv)|]. apply list_lookup_singleton_Some in Hi2 as [Hi2 <-]. cbn. unfold zlen. do 2 f_equal. lia.
  - eexists. split; [done|]. split; [done|]. split; [done|]. apply Forall_singleton. exists (zlen (slices v)), first, count, number. repeat split; try done; lia.
Qed.

(** ** Scanning *)
Lemma sector_byte s i : Forall is_byte s -> 0 <= rd s i < 256.
Proof. intros H. unfold rd. destruct (s !! Z.to_nat i) as [b|] eqn:E; cbn; [|lia]. rewrite list.Forall_lookup in H. by apply (H (Z.to_nat i)). Qed.

Lemma read_le32_range s i : Forall is_byte s -> 0 <= read_le32 s i < 2 ^ 32.
Proof. intros H. unfold read_le32. pose proof (sector_byte s i H). repeat apply lor_range; try lia; unfold u32; apply Z.mod_pos_bound; lia. Qed.

Section Scanning.
Context {W : Type} `{!Transport W} `{!TransportLaws W}.
Context (parent : block_device) (pname : list Z) (Hdev : dev_ok parent) (Hname : cstring pname).
Implicit Types (w : W).

Lemma sector_read w lba w' r : present w parent -> 0 <= lba -> block_read w parent lba 1 = (w', r) ->
  (forall u, content w' u = content w u) /\ present w' parent /\ forall s, r = Some s -> Forall is_byte s.
Proof.
  intros Hp Hl Hr. destruct (read_ok parent w lba 1 w' r Hdev Hp Hl ltac:(lia) Hr) as [Hc Hb]. split; [done|]. split; [unfold present; by rewrite Hc|].
  intros s Hs. destruct (Hb s Hs) as (_ & _ & ->). unfold dev_bytes, bytes_at. apply Forall_take, Forall_drop, Forall_take, Forall_drop. apply content_bytes.
Qed.

Lemma scan_links_ok inherit ext : 0 <= ext -> forall n w v number here published w' v' k, present w parent -> vol_ok v -> 0 <= number -> 0 <= here ->
  scan_links n w v parent pname ext inherit number here published = (w', v', k) ->
  (forall u, content w' u = content w u) /\ exists j, k = published + j /\ extends parent pname v v' j.
Proof.
  intros He. induction n as [|n IH]; intros w v number here published w' v' k Hp Hv Hn Hh; cbn [scan_links].
  { intros [= <- <- <-]. split; [done|]. exists 0. split; [lia|by apply extends_refl]. }
  assert (Hstop : forall w1 v1 j, (forall u, content w1 u = content w u) -> extends parent pname v v1 j -> (w1, v1, published + j) = (w', v', k) ->
    (forall u, content w' u = content w u) /\ exists j, k = published + j /\ extends parent pname v v' j) by (intros w1 v1 j Hc Hx [= <- <- <-]; eauto).
  destruct (here >=? sectors parent); [intros E; apply (Hstop w v 0); [done|by apply extends_refl|by rewrite Z.add_0_r]|]. destruct (block_read w parent here 1) as [w1 r] eqn:Er.
  destruct (sector_read w here w1 r Hp Hh Er) as (Hc & Hp1 & Hs). destruct r as [s|]; [|intros E; apply (Hstop w1 v 0); [done|by apply extends_refl|by rewrite Z.add_0_r]]. specialize (Hs s eq_refl).
  destruct (negb (has_signature s)); [intros E; apply (Hstop w1 v 0); [done|by apply extends_refl|by rewrite Z.add_0_r]|]. cbv zeta.
  assert (Hpub : forall v1 j, (if negb (entry_type s MBR_TABLE_OFFSET =? MBR_TYPE_EMPTY) && negb (entry_sectors s MBR_TABLE_OFFSET =? 0)
     then publish v parent pname number (u64 (here + entry_first s MBR_TABLE_OFFSET)) (entry_sectors s MBR_TABLE_OFFSET) inherit (entry_type s MBR_TABLE_OFFSET) else (v, 0)) = (v1, j) -> extends parent pname v v1 j).
  { intros v1 j. destruct (_ && _); [|intros [= <- <-]; by apply extends_refl]. apply publish_ok; [done|done|done|apply u64_range|apply read_le32_range; done]. }
  destruct (if negb (entry_type s MBR_TABLE_OFFSET =? MBR_TYPE_EMPTY) && _ then _ else _) as [v1 j] eqn:Ep. specialize (Hpub v1 j eq_refl). clear Ep.
  destruct (negb (is_extended _)); [by apply Hstop|]. destruct (_ =? 0); [by apply Hstop|]. destruct (_ <=? here) eqn:Ef; [by apply Hstop|]. intros E.
  apply IH in E; [|done|apply Hpub|lia|apply u64_range]. destruct E as [Hc2 (j2 & -> & Hx)]. split; [intros u; by rewrite Hc2|]. exists (j + j2). split; [lia|by eapply extends_trans].
Qed.

Lemma publish_table_ok inherit s : Forall is_byte s -> forall ids w v published w' v' k, (forall i, i ∈ ids -> 0 <= i) -> present w parent -> vol_ok v ->
  publish_table ids s w v parent pname inherit published = (w', v', k) ->
  (forall u, content w' u = content w u) /\ exists j, k = published + j /\ extends parent pname v v' j.
Proof.
  intros Hs. induction ids as [|i ids IH]; intros w v published w' v' k Hids Hp Hv; cbn [publish_table].
  { intros [= <- <- <-]. split; [done|]. exists 0. split; [lia|by apply extends_refl]. }
  assert (Hids' : forall i, i ∈ ids -> 0 <= i) by (intros j Hj; apply Hids; by right). cbv zeta. destruct (_ || _); [by apply IH|]. destruct (is_extended _).
  - unfold scan_logical. destruct (scan_links _ _ _ _ _ _ _ _ _ _) as [[w1 v1] j] eqn:E1. intros E2. apply scan_links_ok in E1; [|apply read_le32_range; done|done|done|unfold LOGICAL_FIRST_NUMBER; lia|apply read_le32_range; done].
    destruct E1 as [Hc1 (j1 & -> & Hx1)]. apply IH in E2; [|done|unfold present; by rewrite Hc1|apply Hx1]. destruct E2 as [Hc2 (j2 & -> & Hx2)]. split; [intros u; by rewrite Hc2|].
    exists (j1 + j2). split; [lia|by eapply extends_trans].
  - destruct (publish _ _ _ _ _ _ _ _) as [v1 j] eqn:E1. intros E2. apply publish_ok in E1; [|done|done|specialize (Hids i ltac:(left)); lia|apply read_le32_range; done|apply read_le32_range; done].
    apply IH in E2; [|done|done|apply E1]. destruct E2 as [Hc2 (j2 & -> & Hx2)]. split; [done|]. exists (j + j2). split; [lia|by eapply extends_trans].
Qed.

Lemma scan_ok w v inherit w' v' k : present w parent -> vol_ok v -> partition_scan w v parent pname inherit = (w', v', k) ->
  (forall u, content w' u = content w u) /\ extends parent pname v v' k.
Proof.
  intros Hp Hv. unfold partition_scan. destruct (block_read w parent 0 1) as [w1 r] eqn:Er. destruct (sector_read w 0 w1 r Hp ltac:(lia) Er) as (Hc & Hp1 & Hs).
  destruct r as [s|]; [|intros [= <- <- <-]; split; [done|by apply extends_refl]]. specialize (Hs s eq_refl).
  destruct (negb _); [intros [= <- <- <-]; split; [done|by apply extends_refl]|]. destruct (table_usable _ _ _ _) as [[]|]; [|intros [= <- <- <-]; split; [done|by apply extends_refl]..].
  intros E. apply publish_table_ok in E; [|done|intros i Hi%elem_of_seqZ; lia|done|done]. destruct E as [Hc2 (j & -> & Hx)]. split; [intros u; by rewrite Hc2|done].
Qed.
End Scanning.

(** ** A disk in memory *)
Module RamDisk.
(** The bytes of unit 0; there is no other unit. *)
Definition disk := list Z.
Definition stored (w : disk) (u : Z) : list Z := if u =? 0 then u8 <$> w else [].

#[export] Instance ram_transport : Transport disk := {
  disk_read w u lba n := (w, if (lba + n) * 512 <=? zlen (stored w u) then Some (bytes_at (stored w u) (lba * 512) (n * 512)) else None);
  disk_write w u lba n b := if (u =? 0) && ((lba + n) * 512 <=? zlen w) then (copy_to w (lba * 512) b, true) else (w, false);
  disk_flush w u := (w, true);
}.

Lemma u8_bytes b : Forall is_byte b -> u8 <$> b = b.
Proof. induction 1 as [|x b Hx _ IH]; cbn; [done|]. rewrite IH. unfold u8. by rewrite Z.mod_small. Qed.

Lemma stored_bytes w u : Forall is_byte (stored w u).
Proof. unfold stored. destruct (u =? 0); [|constructor]. induction w as [|x w IH]; constructor; [apply u8_range|done]. Qed.

Lemma stored_len w : zlen (stored w 0) = zlen w.
Proof. unfold stored, zlen. cbn. by rewrite length_fmap. Qed.

Lemma stored_copy w off b : Forall is_byte b -> stored (copy_to w off b) 0 = copy_to (stored w 0) off b.
Proof. intros Hb. unfold stored, copy_to. cbn. by rewrite !fmap_app, fmap_take, fmap_drop, (u8_bytes b Hb). Qed.

#[export] Program Instance ram_laws : TransportLaws disk := { content := stored }.
Next Obligation. apply stored_bytes. Qed.
Next Obligation. intros w u lba n w' r [= <- <-]. split; [done|]. intros b H ? ? ?. destruct (Z.leb_spec ((lba + n) * 512) (zlen (stored w u))); [|lia]. congruence. Qed.
Next Obligation.
  intros w u lba n b w' ok. cbn. destruct (Z.eqb_spec u 0) as [->|Hu]; cbn [andb]; [|intros [= <- <-]; by repeat split]. rewrite stored_len. destruct (Z.leb_spec ((lba + n) * 512) (zlen w)); [|lia].
  intros [= <- <-] Hl _ Hb Hbb. rewrite stored_copy by done. split; [|split; [|split; [|done]]].
  - intros u' Hu. unfold stored. by destruct (Z.eqb_spec u' 0).
  - pose proof (stored_len w) as Hw. unfold zlen in *. rewrite copy_to_length by lia. done.
  - intros x Hx Hout. unfold zlen in *. rewrite copy_to_lookup; [|lia|unfold stored; cbn; rewrite length_fmap; lia]. by rewrite decide_False by lia.
Qed.
End RamDisk.
