(* ===== verification/PartitionUse.v ===== *)
(** Partition tables written and read back, and the claims about partitions. *)
From S2P Require Import Prelude KString KStringSpec BlockDev Partition PartitionSpec.

(** ** A table on disk *)
Record part := Part { p_status : Z; p_type : Z; p_first : Z; p_count : Z }.

Definition le32_bytes (x : Z) : list Z := [u8 x; u8 (x / 2 ^ 8); u8 (x / 2 ^ 16); u8 (x / 2 ^ 24)].
Definition mbr_entry (p : part) : list Z := [p_status p; 0; 0; 0; p_type p; 0; 0; 0] ++ le32_bytes (p_first p) ++ le32_bytes (p_count p).
Definition mbr_sector (table : list part) : list Z := replicate 446 0 ++ concat (mbr_entry <$> table) ++ [0x55; 0xAA].

Record part_ok (p : part) : Prop := {
  pk_status : p_status p = MBR_STATUS_INACTIVE \/ p_status p = MBR_STATUS_BOOTABLE;
  pk_type : 0 <= p_type p < 256 /\ p_type p <> MBR_TYPE_GPT_PROTECTIVE /\ is_extended (p_type p) = false;
  pk_first : 0 <= p_first p < 2 ^ 32;
  pk_count : 0 <= p_count p < 2 ^ 32;
}.

Lemma le32_read (x : Z) (l : list Z) i : 0 <= x < 2 ^ 32 -> rd l i = u8 x -> rd l (i + 1) = u8 (x / 2 ^ 8) -> rd l (i + 2) = u8 (x / 2 ^ 16) -> rd l (i + 3) = u8 (x / 2 ^ 24) -> read_le32 l i = x.
Proof.
  intros Hx E0 E1 E2 E3. unfold read_le32. rewrite E0, E1, E2, E3. clear E0 E1 E2 E3. pose proof (u8_range x). pose proof (u8_range (x / 2 ^ 8)). pose proof (u8_range (x / 2 ^ 16)). pose proof (u8_range (x / 2 ^ 24)).
  set (a := u8 x) in *. set (b := u8 (x / 2 ^ 8)) in *. set (c := u8 (x / 2 ^ 16)) in *. set (d := u8 (x / 2 ^ 24)) in *. rewrite !Z.shiftl_mul_pow2 by lia. rewrite !u32_small by lia.
  rewrite (Z.lor_comm a), (lor_add (b * 2 ^ 8) a 8) by (lia || apply Z.mod_mul; lia). rewrite (Z.lor_comm _ (c * 2 ^ 16)), (lor_add (c * 2 ^ 16) _ 16) by (lia || apply Z.mod_mul; lia).
  rewrite (Z.lor_comm _ (d * 2 ^ 24)), (lor_add (d * 2 ^ 24) _ 24) by (lia || apply Z.mod_mul; lia). unfold a, b, c, d, u8. change (2 ^ 8) with 256. change (2 ^ 16) with (256 * 256). change (2 ^ 24) with (256 * 256 * 256).
  rewrite <- !Z.div_div by lia. pose proof (Z.div_mod x 256). pose proof (Z.div_mod (x / 256) 256). pose proof (Z.div_mod (x / 256 / 256) 256).
  rewrite (Z.mod_small (x / 256 / 256 / 256) 256) by (split; [repeat apply Z.div_pos; lia|repeat apply Z.div_lt_upper_bound; lia]). lia.
Qed.

(** The bytes of the entry [i]. *)
Lemma mbr_rd table i p j : table !! Z.to_nat i = Some p -> 0 <= i -> 0 <= j < 16 -> rd (mbr_sector table) (table_entry i + j) = rd (mbr_entry p) j.
Proof.
  intros Hp Hi Hj. unfold mbr_sector, table_entry, MBR_TABLE_OFFSET, MBR_ENTRY_BYTES. replace (446 + i * 16 + j) with (zlen (replicate 446 0) + (i * 16 + j)) by (unfold zlen; rewrite length_replicate; lia).
  rewrite rd_app_r by lia. revert i Hp Hi. induction table as [|q table IH]; intros i Hp Hi; [done|]. cbn [fmap list_fmap concat]. rewrite <- app_assoc. destruct (Z.eq_dec i 0) as [->|Hne].
  - cbn in Hp. injection Hp as ->. apply rd_app_l. unfold zlen. cbn. lia.
  - replace (i * 16 + j) with (zlen (mbr_entry q) + ((i - 1) * 16 + j)) by (unfold zlen; cbn; lia). rewrite rd_app_r by lia. apply IH; [|lia]. replace (Z.to_nat i) with (S (Z.to_nat (i - 1))) in Hp by lia. done.
Qed.

Lemma mbr_fields table i p : table !! Z.to_nat i = Some p -> 0 <= i -> part_ok p ->
  entry_status (mbr_sector table) (table_entry i) = p_status p /\ entry_type (mbr_sector table) (table_entry i) = p_type p /\
  entry_first (mbr_sector table) (table_entry i) = p_first p /\ entry_sectors (mbr_sector table) (table_entry i) = p_count p.
Proof.
  intros Hp Hi [_ _ Hf Hc]. pose proof (fun j => mbr_rd table i p j Hp Hi) as H. unfold entry_status, entry_type, entry_first, entry_sectors. split; [|split; [|split]].
  - rewrite <- (Z.add_0_r (table_entry i)), H by lia. done.
  - rewrite H by lia. done.
  - apply le32_read; [done|rewrite H by lia; done| | |]; rewrite <- Z.add_assoc, H by lia; done.
  - apply le32_read; [done|rewrite H by lia; done| | |]; rewrite <- Z.add_assoc, H by lia; done.
Qed.

(** ** Reading it back *)
Section Table.
Context (parent : block_device) (pname : list Z) (inherit : Z).
Context (Hname : cstring pname) (Hlen : zlen pname <= 13) (Hsize : 0 <= sectors parent).

(** An entry that describes sectors of the disk. *)
Definition valid (p : part) : bool := negb (p_type p =? MBR_TYPE_EMPTY) && negb (p_count p =? 0) && (p_first p + p_count p <=? sectors parent).
Definition part_name (i : Z) : list Z := pname ++ [112; 49 + i].

(** The volumes with the entry [i] of the table published. *)
Definition add_part (v : volumes) (i : Z) (p : part) : volumes :=
  if valid p then
    let d := Slice (zlen (slices v)) parent (p_first p) (p_count p) (has_write parent) (has_flush parent) in
    let fl := Z.lor (Z.lor inherit BLOCKDEV_PARTITION) (if p_type p =? MBR_TYPE_EFI_SYSTEM then BLOCKDEV_ESP else 0) in
    Volumes (reg v ++ [Entry (part_name i) d (p_first p) (Z.lor fl (if has_write parent then BLOCKDEV_WRITABLE else 0))]) (slices v ++ [d])
  else v.
Definition add_table (v : volumes) (ps : list (Z * part)) : volumes := foldl (fun v ip => add_part v ip.1 ip.2) v ps.
Definition valid_parts (ps : list (Z * part)) : Z := zlen (filter (fun ip => valid ip.2 = true) ps).

Lemma parent_fits_ok l : forall k, 0 <= k -> k + zlen l < 16 -> parent_fits l k 16 = true.
Proof. induction l as [|c l IH]; intros k Hk H; cbn [parent_fits]; [done|]. unfold zlen in *. cbn [length] in H. destruct (Z.geb_spec (k + 1) 16); [lia|]. apply IH; lia. Qed.

Lemma part_name_ok i : 0 <= i < 4 -> slice_name BLOCKDEV_NAME_MAX pname (i + 1) = Some (part_name i).
Proof.
  intros Hi. unfold slice_name, BLOCKDEV_NAME_MAX. rewrite parent_fits_ok by lia. cbn [negb number_digits]. rewrite (Z.div_small (i + 1) 10), (Z.mod_small (i + 1) 10) by lia. cbn [Z.eqb].
  change (zlen [_]) with 1. destruct (Z.gtb_spec (zlen pname + 1 + 2) 16); [lia|]. unfold part_name. cbn. by replace (48 + (i + 1)) with (49 + i) by lia.
Qed.

Lemma publish_part v i p : vol_ok v -> part_ok p -> p_type p <> MBR_TYPE_EMPTY -> p_count p <> 0 -> 0 <= i < 4 ->
  zlen (slices v) < PARTITION_MAX -> zlen (reg v) < BLOCKDEV_MAX -> part_name i ∉ (name <$> reg v) ->
  publish v parent pname (i + 1) (p_first p) (p_count p) inherit (p_type p) = (add_part v i p, if valid p then 1 else 0).
Proof.
  intros Hv [_ _ Hf Hc] Ht Hn Hi Hs Hr Hfresh. unfold publish, add_part, valid. destruct (Z.eqb_spec (p_type p) MBR_TYPE_EMPTY); [done|]. destruct (Z.eqb_spec (p_count p) 0); [done|]. cbn [orb negb andb].
  destruct (Z.geb_spec (p_first p) (sectors parent)); cbn [orb]; [by destruct (Z.leb_spec (p_first p + p_count p) (sectors parent)); [lia|]|].
  destruct (Z.gtb_spec (p_count p) (sectors parent - p_first p)), (Z.leb_spec (p_first p + p_count p) (sectors parent)); try lia; [done|].
  destruct (Z.geb_spec (zlen (slices v)) PARTITION_MAX); [lia|]. rewrite part_name_ok by done. unfold blockdev_register. cbn [has_read sectors]. rewrite (bool_decide_eq_false_2 (part_name i = [])) by (unfold part_name; by destruct pname).
  assert (Hl : strlen (part_name i) = zlen pname + 2) by (unfold strlen, part_name, zlen; rewrite length_app; cbn; lia). rewrite Hl. destruct (Z.geb_spec (zlen pname + 2) BLOCKDEV_NAME_MAX); [unfold BLOCKDEV_NAME_MAX in *; lia|].
  destruct (Z.eqb_spec (p_count p) 0); [done|]. cbn [orb negb]. assert (Hc2 : cstring (part_name i)) by (apply Forall_app_2; [done|repeat constructor; lia]).
  apply find_fresh in Hfresh; [|apply (vo_reg v Hv)|done]. rewrite Hfresh. destruct (Z.ltb_spec (zlen (reg v)) BLOCKDEV_MAX); [|lia]. done.
Qed.

Context (table : list part) (Htable : Forall part_ok table).
Definition entry_of (i : Z) : Z * part := (i, default (Part 0 0 0 0) (table !! Z.to_nat i)).

Lemma entry_of_fields i : 0 <= i < zlen table -> exists p, entry_of i = (i, p) /\ part_ok p /\
  entry_status (mbr_sector table) (table_entry i) = p_status p /\ entry_type (mbr_sector table) (table_entry i) = p_type p /\
  entry_first (mbr_sector table) (table_entry i) = p_first p /\ entry_sectors (mbr_sector table) (table_entry i) = p_count p.
Proof.
  intros Hi. unfold zlen in Hi. destruct (lookup_lt_is_Some_2 table (Z.to_nat i)) as [p Hp]; [lia|]. assert (Hok : part_ok p) by (by eapply list.Forall_lookup_1). exists p.
  unfold entry_of. rewrite Hp. split; [done|]. split; [done|]. apply mbr_fields; [done|lia|done].
Qed.

Lemma usable_mbr : forall ids u, (forall i, i ∈ ids -> 0 <= i < zlen table) ->
  table_usable ids (mbr_sector table) (sectors parent) u = Some (u || existsb (fun i => valid (entry_of i).2) ids).
Proof.
  induction ids as [|i ids IH]; intros u Hids; cbn [table_usable existsb]; [by rewrite orb_false_r|]. destruct (entry_of_fields i (Hids i ltac:(left))) as (p & -> & [Hst Hty Hf Hc] & E1 & E2 & E3 & E4). cbv zeta. rewrite E1, E2, E3, E4. cbn [snd].
  destruct Hty as (_ & Hg & _). destruct (Z.eqb_spec (p_type p) MBR_TYPE_GPT_PROTECTIVE); [done|].
  replace (negb (p_status p =? MBR_STATUS_INACTIVE) && negb (p_status p =? MBR_STATUS_BOOTABLE)) with false by (destruct Hst as [->| ->]; done).
  unfold valid at 1. destruct (p_type p =? MBR_TYPE_EMPTY); cbn [orb negb andb]; [apply IH; set_solver|]. destruct (Z.eqb_spec (p_count p) 0); cbn [orb negb andb]; [apply IH; set_solver|]. rewrite IH by set_solver. f_equal.
  destruct (Z.ltb_spec (p_first p) (sectors parent)), (Z.leb_spec (p_count p) (sectors parent - p_first p)), (Z.leb_spec (p_first p + p_count p) (sectors parent)); cbn [andb orb]; try lia; rewrite ?orb_true_r; done.
Qed.

Lemma add_part_ok v i p : vol_ok v -> part_ok p -> 0 <= i < 4 -> zlen (slices v) < PARTITION_MAX -> zlen (reg v) < BLOCKDEV_MAX -> part_name i ∉ (name <$> reg v) ->
  vol_ok (add_part v i p) /\ zlen (slices (add_part v i p)) <= zlen (slices v) + 1 /\ zlen (reg (add_part v i p)) <= zlen (reg v) + 1 /\
  (forall j, j <> i -> part_name j ∉ (name <$> reg v) -> part_name j ∉ (name <$> reg (add_part v i p))).
Proof.
  intros Hv Hp Hi Hs Hr Hfresh. split.
  - destruct (valid p) eqn:Ev; [|unfold add_part; by rewrite Ev]. assert (p_type p <> MBR_TYPE_EMPTY /\ p_count p <> 0) as [H1 H2] by (unfold valid in Ev; zbool; done).
    pose proof (publish_part v i p Hv Hp H1 H2 Hi Hs Hr Hfresh) as E. apply publish_ok in E; [by destruct E|done|done|lia|by apply (pk_first p)|by apply (pk_count p)].
  - unfold add_part. destruct (valid p); cbn [slices reg]; unfold zlen in *; rewrite ?length_app; cbn [length]; repeat split; try lia; [|done].
    intros j Hj Hn. rewrite fmap_app, not_elem_of_app. split; [done|]. cbn. rewrite list_elem_of_singleton. unfold part_name. intros E. apply app_inv_head in E. injection E as E. lia.
Qed.

Lemma publish_mbr {W} `{!Transport W} : forall ids (w : W) v published, NoDup ids -> (forall i, i ∈ ids -> 0 <= i < 4 /\ i < zlen table /\ part_name i ∉ (name <$> reg v)) ->
  vol_ok v -> zlen (slices v) + zlen ids <= PARTITION_MAX -> zlen (reg v) + zlen ids <= BLOCKDEV_MAX ->
  publish_table ids (mbr_sector table) w v parent pname inherit published = (w, add_table v (entry_of <$> ids), published + valid_parts (entry_of <$> ids)).
Proof.
  induction ids as [|i ids IH]; intros w v published Hnd Hids Hv Hs Hr; cbn [publish_table]; [by rewrite Z.add_0_r|]. apply list.NoDup_cons in Hnd as [Hni Hnd]. destruct (Hids i ltac:(left)) as (Hi4 & Hit & Hfresh).
  destruct (entry_of_fields i ltac:(lia)) as (p & Ep & Hok & _ & E2 & E3 & E4). cbv zeta. rewrite E2, E3, E4. unfold zlen in Hs, Hr. cbn [length] in Hs, Hr.
  assert (Hvp : valid_parts (entry_of <$> i :: ids) = (if valid p then 1 else 0) + valid_parts (entry_of <$> ids)).
  { unfold valid_parts. cbn [fmap list_fmap]. rewrite Ep, filter_cons. cbn [snd]. unfold zlen. destruct (valid p); [rewrite decide_True by done; cbn [length]; lia|rewrite decide_False by done; lia]. }
  destruct (add_part_ok v i p Hv Hok Hi4 ltac:(unfold zlen; lia) ltac:(unfold zlen; lia) Hfresh) as (Hv1 & Hs1 & Hr1 & Hf1).
  assert (Hrest : forall k, publish_table ids (mbr_sector table) w (add_part v i p) parent pname inherit (published + (if valid p then 1 else 0)) = (w, add_table v (entry_of <$> i :: ids), k) <-> k = published + valid_parts (entry_of <$> i :: ids)).
  { intros k. rewrite IH; [|done| |done|unfold zlen in *; lia|unfold zlen in *; lia].
    - rewrite Hvp. cbn [fmap list_fmap]. unfold add_table at 2. cbn [foldl]. rewrite Ep. split; [intros [= <-]; lia|intros ->; f_equal; lia].
    - intros j Hj. destruct (Hids j ltac:(by right)) as (? & ? & ?). split; [done|]. split; [done|]. apply Hf1; [set_solver|done]. }
  destruct (Hok) as [_ (_ & _ & Hext) _ _]. destruct (Z.eqb_spec (p_type p) MBR_TYPE_EMPTY) as [Et|Et]; cbn [orb]; [|destruct (Z.eqb_spec (p_count p) 0) as [Ec|Ec]; cbn [orb]].
  - assert (Ev : valid p = false) by (unfold valid; by rewrite Et). unfold add_part in Hrest. rewrite Ev in Hrest. rewrite Z.add_0_r in Hrest. by apply Hrest.
  - assert (Ev : valid p = false) by (unfold valid; rewrite Ec; by rewrite andb_false_r). unfold add_part in Hrest. rewrite Ev in Hrest. rewrite Z.add_0_r in Hrest. by apply Hrest.
  - rewrite Hext. rewrite publish_part by (done || unfold zlen; lia). by apply Hrest.
Qed.
End Table.

Lemma scan_mbr {W} `{!Transport W} `{!TransportLaws W} (w : W) v parent pname inherit table :
  dev_ok parent -> present w parent -> is_Some (block_read w parent 0 1).2 -> bytes_at (dev_bytes w parent) 0 512 = mbr_sector table ->
  cstring pname -> zlen pname <= 13 -> length table = 4%nat -> Forall part_ok table -> existsb (valid parent) table = true ->
  vol_ok v -> zlen (slices v) <= 28 -> zlen (reg v) <= 60 -> (forall i, 0 <= i < 4 -> part_name pname i ∉ (name <$> reg v)) ->
  exists w', partition_scan w v parent pname inherit = (w', add_table parent pname inherit v (zip (seqZ 0 4) table), valid_parts parent (zip (seqZ 0 4) table)).
Proof.
  intros Hd Hp Hr Hm Hc Hl Ht Hok Hu Hv Hs Hg Hf. unfold partition_scan. destruct (block_read w parent 0 1) as [w1 r] eqn:Er. destruct Hr as [s Hs0]. cbn in Hs0. subst r.
  destruct (read_ok parent w 0 1 w1 (Some s) Hd Hp ltac:(lia) ltac:(lia) Er) as [_ Hb]. destruct (Hb s eq_refl) as (_ & _ & Es). change (0 * 512) with 0 in Es. change (1 * 512) with 512 in Es. rewrite Hm in Es. subst s. exists w1.
  assert (Hsig : has_signature (mbr_sector table) = true).
  { unfold has_signature, MBR_SIGNATURE_OFFSET. assert (Hlen : zlen (replicate 446 0 ++ concat (mbr_entry <$> table)) = 510).
    { destruct table as [|a [|b [|c [|e [|]]]]]; try done. }
    unfold mbr_sector. rewrite app_assoc. replace (510 + 1) with (zlen (replicate 446 0 ++ concat (mbr_entry <$> table)) + 1) by lia. rewrite <- Hlen at 1. rewrite rd_app_r by lia.
    rewrite <- (Z.add_0_r (zlen _)) at 1. by rewrite rd_app_r by lia. }
  rewrite Hsig. cbn [negb]. assert (Hz : zlen table = 4) by (unfold zlen; lia). pose proof (dev_range parent Hd).
  assert (Eids : entry_of table <$> seqZ 0 4 = zip (seqZ 0 4) table) by (by destruct table as [|a [|b [|c [|e [|]]]]]).
  change MBR_ENTRIES with 4. rewrite (usable_mbr parent pname) by (done || lia || (intros i Hi%elem_of_seqZ; lia)). cbn [orb].
  assert (Eu : existsb (fun i => valid parent (entry_of table i).2) (seqZ 0 4) = true) by (destruct table as [|a [|b [|c [|e [|]]]]]; try done). rewrite Eu, <- Eids.
  rewrite publish_mbr; [by rewrite Z.add_0_l|done|done|lia|done|apply NoDup_seqZ| |done|change (zlen (seqZ 0 4)) with 4; unfold PARTITION_MAX; lia|change (zlen (seqZ 0 4)) with 4; unfold BLOCKDEV_MAX; lia].
  intros i Hi%elem_of_seqZ. split; [lia|]. split; [lia|]. apply Hf. lia.
Qed.

(** ** Claims *)

(** C21: a partition is a device of its own.  On any transport that stores sectors, what
    [block_read] returns from a device is its own bytes; a successful [block_write]
    replaces exactly those it names in them; and no write through a device, successful or
    not, changes a device that shares no sector with it. *)
Theorem partition_isolated {W} `{!Transport W} `{!TransportLaws W} (w : W) d lba n : dev_ok d -> present w d -> 0 <= lba -> 0 <= n ->
  (forall w' r, block_read w d lba n = (w', r) -> (forall e, dev_bytes w' e = dev_bytes w e) /\ (forall b, r = Some b -> b = bytes_at (dev_bytes w d) (lba * 512) (n * 512) /\ lba + n <= sectors d)) /\
  (forall b w' ok, zlen b = n * 512 -> Forall is_byte b -> block_write w d lba n b = (w', ok) ->
     (ok = true -> dev_bytes w' d = copy_to (dev_bytes w d) (lba * 512) b) /\
     (forall e, dev_ok e -> disjoint_devices d e -> dev_bytes w' e = dev_bytes w e)).
Proof.
  intros Hd Hp Hl Hn. split.
  - intros w' r Hr. destruct (read_ok d w lba n w' r Hd Hp Hl Hn Hr) as [Hc Hb]. split; [intros e; unfold dev_bytes; by rewrite Hc|]. intros b Hs. destruct (Hb b Hs) as (_ & H1 & H2). done.
  - intros b w' ok Hz Hbb Hw. destruct (write_ok d w lba n b w' ok Hd Hp Hl Hn Hz Hbb Hw) as (_ & H1 & H2). done.
Qed.

(** C25: whatever is on a disk, [partition_scan] ends, writes nothing, and only adds volumes: each is a
    slice that lies on the disk, is writable only if the disk is, and has a name of
    its own made from the name of the disk; the result is their number, and the
    registry and the table of slices stay well formed. *)
Theorem partition_scan_sound {W} `{!Transport W} `{!TransportLaws W} (w : W) v parent pname inherit w' v' k : dev_ok parent -> present w parent -> cstring pname -> vol_ok v ->
  partition_scan w v parent pname inherit = (w', v', k) ->
  (forall e, dev_bytes w' e = dev_bytes w e) /\ vol_ok v' /\
  exists new, reg v' = reg v ++ new /\ slices v' = slices v ++ (device <$> new) /\ k = zlen new /\ Forall (slice_on parent pname) new /\ Forall (fun e => dev_ok (device e)) new.
Proof.
  intros Hd Hp Hc Hv E. destruct (scan_ok parent pname Hd Hc w v inherit w' v' k Hp Hv E) as [Hcon (Hv' & new & E1 & E2 & E3 & Hf)]. split; [intros e; unfold dev_bytes; by rewrite Hcon|]. split; [done|].
  exists new. repeat split; [done|done|done|done|]. eapply list.Forall_impl; [exact Hf|]. intros e (i & f & n & num & -> & _ & H1 & H2 & H3 & _). cbn. done.
Qed.

(** C26: a table of four entries written into the master boot record comes back from
    [partition_scan]: each entry that describes sectors of the disk is published under
    the name of the disk, "p" and its slot number, with its first sector and length,
    in order, and nothing else is. *)
Theorem mbr_roundtrip {W} `{!Transport W} `{!TransportLaws W} (w : W) v parent pname inherit table :
  dev_ok parent -> present w parent -> is_Some (block_read w parent 0 1).2 -> bytes_at (dev_bytes w parent) 0 512 = mbr_sector table ->
  cstring pname -> zlen pname <= 13 -> length table = 4%nat -> Forall part_ok table -> existsb (valid parent) table = true ->
  vol_ok v -> zlen (slices v) <= 28 -> zlen (reg v) <= 60 -> (forall i, 0 <= i < 4 -> part_name pname i ∉ (name <$> reg v)) ->
  exists w', partition_scan w v parent pname inherit = (w', add_table parent pname inherit v (zip (seqZ 0 4) table), valid_parts parent (zip (seqZ 0 4) table)).
Proof. apply scan_mbr. Qed.

(** A disk "sd" of four sectors with a table of two partitions. *)
Import RamDisk.
Module Sample.
Definition table : list part := [Part 0x80 0x0C 1 2; Part 0 0 0 0; Part 0 0xEF 3 1; Part 0 0x83 3 2].
Definition disk : RamDisk.disk := mbr_sector table ++ replicate 1536 7.
Definition dev : block_device := Disk 0 4 true true true.
Definition dname : list Z := [115; 100].
Definition none : volumes := Volumes [] [].

Lemma dev_fine : dev_ok dev.
Proof. cbn. lia. Qed.

Lemma here : present disk dev.
Proof. vm_compute. discriminate. Qed.

Lemma dname_ok : cstring dname.
Proof. repeat constructor. Qed.

Lemma none_ok : vol_ok none.
Proof. split; [split; [done|constructor|constructor]|done|done]. Qed.
End Sample.

Lemma partition_isolated_witness : exists w, block_write Sample.disk (Slice 0 Sample.dev 1 2 true true) 0 1 (replicate 512 9) = (w, true) /\ dev_bytes w (Slice 1 Sample.dev 3 1 true true) = dev_bytes Sample.disk (Slice 1 Sample.dev 3 1 true true).
Proof.
  destruct (block_write Sample.disk (Slice 0 Sample.dev 1 2 true true) 0 1 (replicate 512 9)) as [w ok] eqn:E. exists w.
  destruct (partition_isolated Sample.disk (Slice 0 Sample.dev 1 2 true true) 0 1) as [_ H]; [cbn; lia|exact Sample.here|lia|lia|].
  destruct (H (replicate 512 9) w ok) as [_ Hd]; [reflexivity|apply Forall_replicate; split; lia|exact E|].
  split; [|apply Hd; [cbn; lia|right; left; cbn; lia]]. assert (Ek : ok = true) by (change ok with (w, ok).2; rewrite <- E; vm_compute; reflexivity). rewrite Ek. reflexivity.
Defined.

Lemma partition_scan_sound_witness : exists w v, partition_scan Sample.disk Sample.none Sample.dev Sample.dname 0 = (w, v, 2) /\ vol_ok v.
Proof.
  destruct (partition_scan Sample.disk Sample.none Sample.dev Sample.dname 0) as [[w v] k] eqn:E. exists w, v.
  pose proof (partition_scan_sound Sample.disk Sample.none Sample.dev Sample.dname 0 w v k Sample.dev_fine Sample.here Sample.dname_ok Sample.none_ok E) as (_ & Hv & _).
  split; [|exact Hv]. assert (Ek : k = 2) by (change k with (w, v, k).2; rewrite <- E; vm_compute; reflexivity). rewrite Ek. reflexivity.
Defined.

Lemma mbr_roundtrip_witness : exists w, partition_scan Sample.disk Sample.none Sample.dev Sample.dname 0 = (w, add_table Sample.dev Sample.dname 0 Sample.none (zip (seqZ 0 4) Sample.table), 2) /\
  (name <$> reg (add_table Sample.dev Sample.dname 0 Sample.none (zip (seqZ 0 4) Sample.table))) = [[115; 100; 112; 49]; [115; 100; 112; 51]].
Proof.
  destruct (mbr_roundtrip Sample.disk Sample.none Sample.dev Sample.dname 0 Sample.table Sample.dev_fine Sample.here) as [w E].
  - eexists. vm_compute. reflexivity.
  - vm_compute. reflexivity.
  - exact Sample.dname_ok.
  - vm_compute. discriminate.
  - reflexivity.
  - repeat constructor; cbn; (lia || auto || done).
  - vm_compute. reflexivity.
  - exact Sample.none_ok.
  - vm_compute. discriminate.
  - vm_compute. discriminate.
  - intros i _. apply not_elem_of_nil.
  - exists w. split; [exact E|vm_compute; reflexivity].
Defined.
