(* ===== verification/Signal.v ===== *)
(** Signals, [kernel/sched/signal.c] (with [sys_rt_sigaction] and [syscall_prepare_return] of
    [kernel/arch/syscall.c]): sending, delivery onto the user stack, return and masks.

    User memory is a function from addresses to bytes; whether a range of it may be
    used is [uvm_buffer_ok], which the class [UserRanges] stands for.  Ending a task
    is an outcome of its own, because the code after it does not run. *)
From S2P Require Import Prelude Vmm Paging Uvm.

(** ** Constants, [signal.h] *)
Definition LINUX_SIGKILL : Z := 9.
Definition LINUX_SIGSEGV : Z := 11.
Definition LINUX_SIGCHLD : Z := 17.
Definition LINUX_SIGCONT : Z := 18.
Definition LINUX_SIGSTOP : Z := 19.
Definition LINUX_SIGTSTP : Z := 20.
Definition LINUX_SIGTTIN : Z := 21.
Definition LINUX_SIGTTOU : Z := 22.
Definition LINUX_SIGURG : Z := 23.
Definition LINUX_SIGWINCH : Z := 28.
Definition LINUX_SIG_DFL : Z := 0.
Definition LINUX_SIG_IGN : Z := 1.
Definition LINUX_SA_RESTORER : Z := 0x04000000.
Definition LINUX_SA_NODEFER : Z := 0x40000000.
Definition LINUX_SA_RESETHAND : Z := 0x80000000.
Definition TASK_SIGNAL_COUNT : Z := 64.
Definition SIG_BIT (sig : Z) : Z := Z.shiftl 1 (sig - 1).
Definition SIG_UNBLOCKABLE : Z := Z.lor (SIG_BIT LINUX_SIGKILL) (SIG_BIT LINUX_SIGSTOP).
Definition FXSAVE_BYTES : Z := 512.
Definition SI_USER : Z := 0.
Definition RED_ZONE : Z := 128.
Definition RFLAGS_TF : Z := Z.shiftl 1 8.
Definition RFLAGS_DF : Z := Z.shiftl 1 10.
Definition MXCSR_OFFSET : Z := 24.
Definition MXCSR_VALID : Z := 0x0000FFFF.
Definition LINUX_SIG_BLOCK : Z := 0.
Definition LINUX_SIG_UNBLOCK : Z := 1.
Definition LINUX_SIG_SETMASK : Z := 2.
(** [sizeof(struct rt_sigframe)], [sizeof(struct linux_ucontext)], [sizeof(struct task_signal_action)] *)
Definition SIGFRAME_BYTES : Z := 440.
Definition UCONTEXT_BYTES : Z := 304.
Definition ACTION_BYTES : Z := 32.

(** ** User memory *)
Definition memory := Z -> Z.
Definition peek (m : memory) (a n : Z) : list Z := m <$> seqZ a n.
Definition poke (m : memory) (a : Z) (bs : list Z) : memory := fun x => if (a <=? x) && (x <? a + zlen bs) then rd bs (x - a) else m x.

(** 64-bit words. *)
Definition words (ws : list Z) : list Z := concat (le_bytes 8 <$> ws).
Definition peek_words (m : memory) (a : Z) (n : Z) : list Z := (fun k => le_value (peek m (a + 8 * k) 8)) <$> seqZ 0 n.

Class UserRanges (U : Type) := buffer_ok : U -> Z -> Z -> bool -> U * bool.

(** ** Tasks, [sched.h] *)
Record task_signal_action := Action { handler : Z; sa_flags : Z; restorer : Z; mask : Z }.
Definition no_action : task_signal_action := Action 0 0 0 0.

Inductive task_state := TASK_RUNNING | TASK_BLOCKED | TASK_ZOMBIE | TASK_READY | TASK_DEAD | TASK_SLEEPING | TASK_LOADING.

(** The fields of [struct task] and its context that signals use; [vm] and [context] say whether these are there. *)
Record task := Task {
  vm : bool;
  context : bool;
  is_thread : bool;
  state : task_state;
  block_interruptible : bool;
  block_interrupted : bool;
  sig_pending : Z;
  sig_blocked : Z;
  signal_actions : list task_signal_action;
  user_fx : list Z;
}.
Definition set_signals (t : task) (pending blocked : Z) : task :=
  Task (vm t) (context t) (is_thread t) (state t) (block_interruptible t) (block_interrupted t) pending blocked (signal_actions t) (user_fx t).
Definition set_actions (t : task) (a : list task_signal_action) : task :=
  Task (vm t) (context t) (is_thread t) (state t) (block_interruptible t) (block_interrupted t) (sig_pending t) (sig_blocked t) a (user_fx t).
Definition set_fx (t : task) (fx : list Z) : task :=
  Task (vm t) (context t) (is_thread t) (state t) (block_interruptible t) (block_interrupted t) (sig_pending t) (sig_blocked t) (signal_actions t) fx.

Definition task_signal_deliverable (t : task) : bool := sig_pending t &? not64 (sig_blocked t).

(** [task_interrupt] with the part of [task_wakeup] that concerns the task. *)
Definition task_interrupt (t : task) : task :=
  match state t with
  | TASK_BLOCKED =>
      if block_interruptible t then
        Task (vm t) (context t) (is_thread t) TASK_READY (block_interruptible t) true (sig_pending t) (sig_blocked t) (signal_actions t) (user_fx t)
      else t
  | _ => t
  end.

(** ** Dispositions *)
Definition default_ignored (sig : Z) : bool :=
  bool_decide (sig ∈ [LINUX_SIGCHLD; LINUX_SIGCONT; LINUX_SIGURG; LINUX_SIGWINCH; LINUX_SIGSTOP; LINUX_SIGTSTP; LINUX_SIGTTIN; LINUX_SIGTTOU]).
Definition action_of (t : task) (sig : Z) : task_signal_action := default no_action (signal_actions t !! Z.to_nat (sig - 1)).
Definition discarded (t : task) (sig : Z) : bool :=
  if sig =? LINUX_SIGKILL then false else
  let h := handler (action_of t sig) in
  (h =? LINUX_SIG_IGN) || ((h =? LINUX_SIG_DFL) && default_ignored sig).

(** ** Sending *)
Definition make_pending (t : task) (sig : Z) : task :=
  let t := set_signals t (Z.lor (sig_pending t) (SIG_BIT sig)) (sig_blocked t) in
  if task_signal_deliverable t then task_interrupt t else t.

(** Return a value; call [task_kill] and return 0, or [-EAGAIN] if it fails; or [task_exit]. *)
Inductive sent := SendReturn (t : option task) (r : Z) | SendKill (code : Z) | SendExit (code : Z).

Definition gone (t : task) : bool := match state t with TASK_ZOMBIE | TASK_DEAD => true | _ => false end.

(** [found] is what [task_find] returns and [is_current] whether it is the caller. *)
Definition signal_send (found : option task) (is_current : bool) (sig : Z) : sent :=
  if (sig <? 0) || (sig >? TASK_SIGNAL_COUNT) then SendReturn found (- EINVAL) else
  match found with
  | None => SendReturn found (- ESRCH)
  | Some t =>
      if negb (vm t) || negb (context t) || is_thread t || gone t then SendReturn found (- ESRCH) else
      if sig =? 0 then SendReturn found 0 else
      match state t with
      | TASK_LOADING => if discarded t sig then SendReturn found 0 else SendKill (- sig)
      | _ =>
          if discarded t sig then SendReturn found 0 else
          let h := handler (action_of t sig) in
          let blocked := sig_blocked t &? SIG_BIT sig in
          if (sig =? LINUX_SIGKILL) || ((h =? LINUX_SIG_DFL) && negb blocked) then
            if is_current then SendExit (- sig) else SendKill (- sig)
          else SendReturn (Some (make_pending t sig)) 0
      end
  end.

Definition signal_child_exited (parent : option task) : option task :=
  match parent with
  | Some t =>
      if negb (context t) || gone t then Some t else
      if handler (action_of t LINUX_SIGCHLD) >? LINUX_SIG_IGN then Some (make_pending t LINUX_SIGCHLD) else Some t
  | None => None
  end.

(** ** Register frames *)

(** [struct syscall_frame] *)
Record syscall_frame := SyscallFrame {
  r15 : Z; r14 : Z; r13 : Z; r12 : Z;
  r11 : Z; rbx : Z; rbp : Z; r10 : Z;
  r9 : Z; r8 : Z; rcx : Z; rdx : Z;
  rsi : Z; rdi : Z; rax : Z;
  rip : Z; cs : Z; rflags : Z; rsp : Z; ss : Z;
}.

(** [struct interrupt_frame], its registers as those of a system call and what it has besides. *)
Record interrupt_frame := InterruptFrame { regs : syscall_frame; int_num : Z; err_code : Z }.

(** [struct linux_sigcontext] up to [fpstate]. *)
Record linux_sigcontext := Sigcontext {
  sc_r8 : Z; sc_r9 : Z; sc_r10 : Z; sc_r11 : Z; sc_r12 : Z; sc_r13 : Z; sc_r14 : Z; sc_r15 : Z;
  sc_rdi : Z; sc_rsi : Z; sc_rbp : Z; sc_rbx : Z; sc_rdx : Z; sc_rax : Z; sc_rcx : Z; sc_rsp : Z;
  sc_rip : Z; sc_eflags : Z;
  sc_cs : Z; sc_gs : Z; sc_fs : Z; sc_ss : Z;
  sc_err : Z; sc_trapno : Z; sc_oldmask : Z; sc_cr2 : Z;
  sc_fpstate : Z;
}.

(** [REGS_TO_SC] on a cleared record, with the two fields an interrupt adds. *)
Definition regs_to_sc (f : syscall_frame) (err trapno : Z) : linux_sigcontext :=
  Sigcontext (r8 f) (r9 f) (r10 f) (r11 f) (r12 f) (r13 f) (r14 f) (r15 f) (rdi f) (rsi f) (rbp f) (rbx f) (rdx f) (rax f) (rcx f) (rsp f) (rip f) (rflags f)
    (u16 (cs f)) 0 0 (u16 (ss f)) err trapno 0 0 0.

(** [SC_TO_REGS]: every register but [cs] and [ss]. *)
Definition sc_to_regs (f : syscall_frame) (sc : linux_sigcontext) : syscall_frame :=
  SyscallFrame (sc_r15 sc) (sc_r14 sc) (sc_r13 sc) (sc_r12 sc) (sc_r11 sc) (sc_rbx sc) (sc_rbp sc) (sc_r10 sc) (sc_r9 sc) (sc_r8 sc) (sc_rcx sc) (sc_rdx sc)
    (sc_rsi sc) (sc_rdi sc) (sc_rax sc) (sc_rip sc) (cs f) (sc_eflags sc) (sc_rsp sc) (ss f).

(** The record in memory: 32 words, four 16-bit fields in one and eight reserved ones at the end. *)
Definition sc_words (sc : linux_sigcontext) : list Z :=
  [sc_r8 sc; sc_r9 sc; sc_r10 sc; sc_r11 sc; sc_r12 sc; sc_r13 sc; sc_r14 sc; sc_r15 sc;
   sc_rdi sc; sc_rsi sc; sc_rbp sc; sc_rbx sc; sc_rdx sc; sc_rax sc; sc_rcx sc; sc_rsp sc;
   sc_rip sc; sc_eflags sc;
   sc_cs sc + 2 ^ 16 * sc_gs sc + 2 ^ 32 * sc_fs sc + 2 ^ 48 * sc_ss sc;
   sc_err sc; sc_trapno sc; sc_oldmask sc; sc_cr2 sc; sc_fpstate sc] ++ replicate 8 0.
Definition words_sc (ws : list Z) : linux_sigcontext :=
  Sigcontext (rd ws 0) (rd ws 1) (rd ws 2) (rd ws 3) (rd ws 4) (rd ws 5) (rd ws 6) (rd ws 7) (rd ws 8) (rd ws 9) (rd ws 10) (rd ws 11) (rd ws 12) (rd ws 13) (rd ws 14) (rd ws 15)
    (rd ws 16) (rd ws 17) (u16 (rd ws 18)) (u16 (rd ws 18 / 2 ^ 16)) (u16 (rd ws 18 / 2 ^ 32)) (u16 (rd ws 18 / 2 ^ 48)) (rd ws 19) (rd ws 20) (rd ws 21) (rd ws 22) (rd ws 23).

(** [struct linux_ucontext]: five words before the registers, the mask behind them. *)
Definition ucontext_words (sc : linux_sigcontext) (sigmask : Z) : list Z := [0; 0; 0; 0; 0] ++ sc_words sc ++ [sigmask].

(** [struct rt_sigframe]: the return address, the context and [struct linux_siginfo]. *)
Definition sigframe_words (pretcode : Z) (sc : linux_sigcontext) (sigmask sig : Z) : list Z :=
  [pretcode] ++ ucontext_words sc sigmask ++ [sig; SI_USER] ++ replicate 14 0.

(** ** Delivery *)

(** [__builtin_ctzll]: the lowest bit that is set. *)
Fixpoint ctz_loop (n : nat) (i x : Z) : Z := match n with O => i | S n => if Z.testbit x i then i else ctz_loop n (i + 1) x end.
Definition ctzll (x : Z) : Z := ctz_loop 64 0 x.

Definition user_code_address (va : Z) : bool := (va >=? USER_VA_MIN) && (va <? USER_VA_MAX).

(** Nothing to do for the frame; the end of the task; or a handler to enter. *)
Inductive delivered (U : Type) := NoHandler (t : task) | Terminated (sig : Z) | Handler (u : U) (m : memory) (t : task) (sc : linux_sigcontext).
Arguments NoHandler {U}.
Arguments Terminated {U}.
Arguments Handler {U}.

Definition set_frame (sc : linux_sigcontext) (fpstate oldmask : Z) : linux_sigcontext :=
  Sigcontext (sc_r8 sc) (sc_r9 sc) (sc_r10 sc) (sc_r11 sc) (sc_r12 sc) (sc_r13 sc) (sc_r14 sc) (sc_r15 sc) (sc_rdi sc) (sc_rsi sc) (sc_rbp sc) (sc_rbx sc) (sc_rdx sc) (sc_rax sc) (sc_rcx sc) (sc_rsp sc)
    (sc_rip sc) (sc_eflags sc) (sc_cs sc) (sc_gs sc) (sc_fs sc) (sc_ss sc) (sc_err sc) (sc_trapno sc) oldmask (sc_cr2 sc) fpstate.

(** The registers the handler starts with. *)
Definition enter_handler (sc : linux_sigcontext) (h frame_va sig : Z) : linux_sigcontext :=
  Sigcontext (sc_r8 sc) (sc_r9 sc) (sc_r10 sc) (sc_r11 sc) (sc_r12 sc) (sc_r13 sc) (sc_r14 sc) (sc_r15 sc) sig (frame_va + 312) (sc_rbp sc) (sc_rbx sc) (frame_va + 8) 0 (sc_rcx sc) frame_va
    h (Z.land (sc_eflags sc) (not64 (Z.lor RFLAGS_DF RFLAGS_TF))) (sc_cs sc) (sc_gs sc) (sc_fs sc) (sc_ss sc) (sc_err sc) (sc_trapno sc) (sc_oldmask sc) (sc_cr2 sc) (sc_fpstate sc).

(** Where the image of the FPU and the frame go. *)
Definition fx_va (sp : Z) : Z := Z.land (sp ⊖ RED_ZONE ⊖ FXSAVE_BYTES) (not64 63).
Definition frame_va (sp : Z) : Z := Z.land (fx_va sp ⊖ SIGFRAME_BYTES) (not64 15) ⊖ 8.

Section Deliver.
Context {U : Type} `{!UserRanges U}.

Definition deliver (u : U) (m : memory) (t : task) (sc : linux_sigcontext) : delivered U :=
  if negb (context t) || negb (vm t) then NoHandler t else
  let ready := Z.land (sig_pending t) (not64 (sig_blocked t)) in
  if ready =? 0 then NoHandler t else
  let sig := ctzll ready + 1 in
  let t := set_signals t (Z.land (sig_pending t) (not64 (SIG_BIT sig))) (sig_blocked t) in
  let act := action_of t sig in
  if handler act =? LINUX_SIG_IGN then NoHandler t else
  if handler act =? LINUX_SIG_DFL then (if default_ignored sig then NoHandler t else Terminated sig) else
  if negb (sa_flags act &? LINUX_SA_RESTORER) || negb (user_code_address (restorer act)) || negb (user_code_address (handler act)) then Terminated LINUX_SIGSEGV else
  let fx := fx_va (sc_rsp sc) in
  let frame := frame_va (sc_rsp sc) in
  if frame <? USER_VA_MIN then Terminated LINUX_SIGSEGV else
  let '(u, ok) := buffer_ok u frame (sc_rsp sc ⊖ frame) true in
  if negb ok then Terminated LINUX_SIGSEGV else
  let m := poke m frame (words (sigframe_words (restorer act) (set_frame sc fx (sig_blocked t)) (sig_blocked t) sig)) in
  let m := poke m fx (user_fx t) in
  let msk := if sa_flags act &? LINUX_SA_NODEFER then mask act else Z.lor (mask act) (SIG_BIT sig) in
  let t := set_signals t (sig_pending t) (Z.land (Z.lor (sig_blocked t) msk) (not64 SIG_UNBLOCKABLE)) in
  let t := if sa_flags act &? LINUX_SA_RESETHAND
           then set_actions t (<[Z.to_nat (sig - 1) := Action LINUX_SIG_DFL (sa_flags act) (restorer act) (mask act)]> (signal_actions t)) else t in
  Handler u m t (enter_handler sc (handler act) frame sig).

(** The frame about to return to user mode, or the end of the task. *)
Inductive outcome := Exits (sig : Z) | Continues (u : U) (m : memory) (t : task) (f : syscall_frame).

Definition signal_deliver_syscall (u : U) (m : memory) (t : task) (f : syscall_frame) : outcome :=
  match deliver u m t (regs_to_sc f 0 0) with
  | NoHandler t => Continues u m t f
  | Terminated sig => Exits sig
  | Handler u m t sc => Continues u m t (sc_to_regs f sc)
  end.

(** The registers of the interrupt frame; only a return to user mode is looked at. *)
Definition signal_deliver_irq (u : U) (m : memory) (t : task) (r : interrupt_frame) : outcome :=
  if negb (Z.land (cs (regs r)) 3 =? 3) then Continues u m t (regs r) else
  match deliver u m t (regs_to_sc (regs r) (err_code r) (int_num r)) with
  | NoHandler t => Continues u m t (regs r)
  | Terminated sig => Exits sig
  | Handler u m t sc => Continues u m t (sc_to_regs (regs r) sc)
  end.

(** ** Return *)

(** The image with the reserved bits of MXCSR cleared. *)
Definition clean_fx (fx : list Z) : list Z := copy_to fx MXCSR_OFFSET (le_bytes 4 (Z.land (le_value (bytes_at fx MXCSR_OFFSET 4)) MXCSR_VALID)).

Definition signal_sigreturn (u : U) (m : memory) (t : task) (f : syscall_frame) : outcome :=
  if negb (vm t) then Exits LINUX_SIGSEGV else
  let '(u, ok) := buffer_ok u (rsp f) UCONTEXT_BYTES false in
  if negb ok then Exits LINUX_SIGSEGV else
  let ws := peek_words m (rsp f) 38 in
  let sc := words_sc (bytes_at ws 5 32) in
  let sigmask := rd ws 37 in
  let f := sc_to_regs f sc in
  let finish (u : U) (t : task) := Continues u m (set_signals t (sig_pending t) (Z.land sigmask (not64 SIG_UNBLOCKABLE))) f in
  if sc_fpstate sc =? 0 then finish u t else
  if sc_fpstate sc &? 15 then Exits LINUX_SIGSEGV else
  let '(u, ok) := buffer_ok u (sc_fpstate sc) FXSAVE_BYTES false in
  if negb ok then Exits LINUX_SIGSEGV else
  finish u (set_fx t (clean_fx (peek m (sc_fpstate sc) FXSAVE_BYTES))).

(** ** Masks *)

(** Null pointers are [0]. *)
Definition signal_sigprocmask (u : U) (m : memory) (t : task) (how set old size : Z) : U * memory * task * Z :=
  if negb (vm t) || negb (size =? 8) then (u, m, t, - EINVAL) else
  let '(u, ok) := if set =? 0 then (u, true) else buffer_ok u set 8 false in
  if negb ok then (u, m, t, - EFAULT) else
  let '(u, ok) := if old =? 0 then (u, true) else buffer_ok u old 8 true in
  if negb ok then (u, m, t, - EFAULT) else
  let previous := sig_blocked t in
  let store (m : memory) := if old =? 0 then m else poke m old (le_bytes 8 previous) in
  if set =? 0 then (u, store m, t, 0) else
  let v := le_value (peek m set 8) in
  let block next := (u, store m, set_signals t (sig_pending t) (Z.land next (not64 SIG_UNBLOCKABLE)), 0) in
  if how =? LINUX_SIG_BLOCK then block (Z.lor previous v) else
  if how =? LINUX_SIG_UNBLOCK then block (Z.land previous (not64 v)) else
  if how =? LINUX_SIG_SETMASK then block v else (u, m, t, - EINVAL).

Definition signal_sigpending (u : U) (m : memory) (t : task) (out size : Z) : U * memory * Z :=
  if negb (vm t) || negb (size =? 8) then (u, m, - EINVAL) else
  let '(u, ok) := buffer_ok u out 8 true in
  if negb ok then (u, m, - EFAULT) else
  (u, poke m out (le_bytes 8 (Z.land (sig_pending t) (sig_blocked t))), 0).

(** [sys_rt_sigaction] *)
Definition action_words (a : task_signal_action) : list Z := [handler a; sa_flags a; restorer a; mask a].
Definition sys_rt_sigaction (u : U) (m : memory) (t : task) (sig action old_action sigset_bytes : Z) : U * memory * task * Z :=
  if negb (context t) || (sig <? 1) || (sig >? TASK_SIGNAL_COUNT) || negb (sigset_bytes =? 8) then (u, m, t, - EINVAL) else
  if negb (action =? 0) && ((sig =? LINUX_SIGKILL) || (sig =? LINUX_SIGSTOP)) then (u, m, t, - EINVAL) else
  let '(u, ok) := if action =? 0 then (u, true) else buffer_ok u action ACTION_BYTES false in
  if negb ok then (u, m, t, - EFAULT) else
  let '(u, ok) := if old_action =? 0 then (u, true) else buffer_ok u old_action ACTION_BYTES true in
  if negb ok then (u, m, t, - EFAULT) else
  let previous := action_of t sig in
  let ws := peek_words m action 4 in
  let t := if action =? 0 then t else set_actions t (<[Z.to_nat (sig - 1) := Action (rd ws 0) (rd ws 1) (rd ws 2) (rd ws 3)]> (signal_actions t)) in
  let m := if old_action =? 0 then m else poke m old_action (words (action_words previous)) in
  (u, m, t, 0).
End Deliver.
Arguments Exits {U}.
Arguments Continues {U}.

(** ** The return to user mode, [syscall_prepare_return] *)
Definition RFLAGS_FIXED : Z := Z.shiftl 1 1.
Definition RFLAGS_IF : Z := Z.shiftl 1 9.
(** CF, PF, AF, ZF, SF, TF, IF, DF, OF and ID *)
Definition USER_RETURN_RFLAGS_ALLOWED : Z :=
  foldl (fun a k => Z.lor a (Z.shiftl 1 k)) 0 [0; 2; 4; 6; 7; 8; 9; 10; 11; 21].
Definition GDT_USER_DATA : Z := 0x18.
Definition GDT_USER_CODE : Z := 0x20.
Definition GDT_RPL_USER : Z := 3.

Definition user_return_address_ok (address : Z) (allow_stack_top : bool) : bool :=
  if address <? USER_VA_MIN then false else
  if address <? USER_VA_MAX then true else
  (address >=? USER_STACK_LOW) && (address <? USER_STACK_TOP + (if allow_stack_top then 1 else 0)).

(** The frame to return with, over the page tables rooted at [pml4]; [None] refuses it. *)
Definition syscall_prepare_return {S} `{!PagingOps S} (s : S) (pml4 : Z) (f : syscall_frame) : option syscall_frame :=
  if pml4 =? 0 then None else
  if negb (cs f =? Z.lor GDT_USER_CODE GDT_RPL_USER) || negb (ss f =? Z.lor GDT_USER_DATA GDT_RPL_USER) then None else
  if negb (user_return_address_ok (rip f) false) || negb (user_return_address_ok (rsp f) true) then None else
  let rip_entry := pg_entry s pml4 (rip f) in
  if negb (rip_entry &? VMM_PRESENT) || negb (rip_entry &? VMM_USER) || (rip_entry &? VMM_NX) then None else
  Some (SyscallFrame (r15 f) (r14 f) (r13 f) (r12 f) (r11 f) (rbx f) (rbp f) (r10 f) (r9 f) (r8 f) (rcx f) (rdx f) (rsi f) (rdi f) (rax f) (rip f) (cs f)
          (Z.lor (Z.land (rflags f) USER_RETURN_RFLAGS_ALLOWED) (Z.lor RFLAGS_FIXED RFLAGS_IF)) (rsp f) (ss f)).
