(* ===== verification/SignalSpec.v ===== *)
(** Signals: delivery and return are inverse, the frame stays inside the user stack, and the
    signals that cannot be blocked never are. *)
From S2P Require Import Prelude Paging Uvm Signal.

Implicit Types (m : memory) (t : task).

(** ** User memory *)
Lemma peek_length m a n : zlen (peek m a n) = Z.max 0 n.
Proof. unfold peek, zlen. rewrite length_fmap, length_seqZ. lia. Qed.

Lemma peek_lookup m a n (i : nat) : Z.of_nat i < n -> peek m a n !! i = Some (m (a + Z.of_nat i)).
Proof. intros H. unfold peek. rewrite list_lookup_fmap, lookup_seqZ_lt by lia. cbn. done. Qed.

Lemma peek_ext m m' a n : (forall x, a <= x < a + n -> m x = m' x) -> peek m a n = peek m' a n.
Proof. intros H. unfold peek. apply list_fmap_ext. intros i x Hx. apply lookup_seqZ in Hx as [-> Hi]. apply H. lia. Qed.

Lemma poke_in m a bs x : a <= x < a + zlen bs -> poke m a bs x = rd bs (x - a).
Proof. intros H. unfold poke. destruct (Z.leb_spec a x); [|lia]. by destruct (Z.ltb_spec x (a + zlen bs)); [|lia]. Qed.

Lemma poke_out m a bs x : ~ a <= x < a + zlen bs -> poke m a bs x = m x.
Proof. intros H. unfold poke. destruct (Z.leb_spec a x); [|done]. by destruct (Z.ltb_spec x (a + zlen bs)); [lia|]. Qed.

Lemma peek_poke m a bs o n : 0 <= o -> 0 <= n -> o + n <= zlen bs -> peek (poke m a bs) (a + o) n = bytes_at bs o n.
Proof.
  intros Ho Hn Hl. unfold zlen in Hl. apply list_eq. intros i. destruct (Z.lt_ge_cases (Z.of_nat i) n) as [Hi|Hi].
  - rewrite peek_lookup, bytes_at_lookup by lia. rewrite poke_in by (unfold zlen; lia). unfold rd. destruct (lookup_lt_is_Some_2 bs (Z.to_nat o + i)) as [b Hb]; [lia|]. rewrite Hb.
    replace (Z.to_nat (a + o + Z.of_nat i - a)) with (Z.to_nat o + i)%nat by lia. by rewrite Hb.
  - rewrite !lookup_ge_None_2; [done|rewrite bytes_at_length; lia|]. pose proof (peek_length (poke m a bs) (a + o) n) as H. unfold zlen in H. lia.
Qed.

(** ** Words *)
Lemma words_cons w ws : words (w :: ws) = le_bytes 8 w ++ words ws.
Proof. done. Qed.

Lemma words_length ws : zlen (words ws) = 8 * zlen ws.
Proof.
  induction ws as [|w ws IH]; [done|]. rewrite words_cons. unfold zlen in *. rewrite length_app, Nat2Z.inj_add, IH. pose proof (le_bytes_length 8 w) as H. unfold zlen in H. rewrite H. cbn [length]. lia.
Qed.

Lemma words_at ws : forall i w, ws !! i = Some w -> bytes_at (words ws) (8 * Z.of_nat i) 8 = le_bytes 8 w.
Proof.
  induction ws as [|v ws IH]; intros i w Hi; [done|]. rewrite words_cons. pose proof (le_bytes_length 8 v) as Hl. unfold zlen in Hl. destruct i as [|i].
  - cbn in Hi. injection Hi as ->. unfold bytes_at. change (drop (Z.to_nat (8 * Z.of_nat 0)) ?l) with l. apply take_app_length'. lia.
  - unfold bytes_at. rewrite drop_app_ge by lia. rewrite <- (IH i w Hi). unfold bytes_at. do 2 f_equal. lia.
Qed.

Lemma peek_word m a ws i w : ws !! i = Some w -> is_u64 w -> le_value (peek (poke m a (words ws)) (a + 8 * Z.of_nat i) 8) = w.
Proof.
  intros Hi Hw. pose proof (lookup_lt_Some _ _ _ Hi). pose proof (words_length ws) as Hl. rewrite peek_poke by (try unfold zlen in *; lia). rewrite (words_at ws i w Hi), le_value_bytes.
  change (256 ^ Z.of_nat 8) with (2 ^ 64). apply Z.mod_small. done.
Qed.

(** Words read back from a memory that still holds them. *)
Lemma peek_words_same m m' a ws k n : 0 <= k -> 0 <= n -> k + n <= zlen ws -> Forall is_u64 ws -> (forall x, a + 8 * k <= x < a + 8 * (k + n) -> m' x = poke m a (words ws) x) ->
  peek_words m' (a + 8 * k) n = bytes_at ws k n.
Proof.
  intros Hk Hn Hl Hu Hm. unfold zlen in Hl. apply list_eq. intros i. unfold peek_words. rewrite list_lookup_fmap. destruct (Z.lt_ge_cases (Z.of_nat i) n) as [Hi|Hi].
  - rewrite lookup_seqZ_lt, bytes_at_lookup by lia. cbn [fmap option_fmap option_map]. destruct (lookup_lt_is_Some_2 ws (Z.to_nat k + i)) as [w Hw]; [lia|]. rewrite Hw. f_equal.
    rewrite <- (peek_word m a ws (Z.to_nat k + i) w Hw) by (by eapply list.Forall_lookup_1). f_equal. replace (a + 8 * Z.of_nat (Z.to_nat k + i)) with (a + 8 * k + 8 * (0 + Z.of_nat i)) by lia.
    apply peek_ext. intros x Hx. apply Hm. lia.
  - rewrite lookup_seqZ_ge by lia. cbn. by rewrite lookup_ge_None_2 by (rewrite bytes_at_length; lia).
Qed.

(** ** The record of registers *)
Definition sc_ok (sc : linux_sigcontext) : Prop :=
  Forall is_u64 [sc_r8 sc; sc_r9 sc; sc_r10 sc; sc_r11 sc; sc_r12 sc; sc_r13 sc; sc_r14 sc; sc_r15 sc; sc_rdi sc; sc_rsi sc; sc_rbp sc; sc_rbx sc; sc_rdx sc; sc_rax sc; sc_rcx sc; sc_rsp sc;
    sc_rip sc; sc_eflags sc; sc_err sc; sc_trapno sc; sc_oldmask sc; sc_cr2 sc; sc_fpstate sc] /\
  Forall (fun x => 0 <= x < 2 ^ 16) [sc_cs sc; sc_gs sc; sc_fs sc; sc_ss sc].

Lemma sc_words_u64 sc : sc_ok sc -> Forall is_u64 (sc_words sc).
Proof.
  intros [H1 H2]. unfold sc_words. repeat (apply Forall_cons_1 in H1 as [? H1]). repeat (apply Forall_cons_1 in H2 as [? H2]). unfold is_u64 in *. repeat constructor; lia.
Qed.

Lemma words_sc_words sc : sc_ok sc -> words_sc (sc_words sc) = sc.
Proof.
  intros [_ H2]. repeat (apply Forall_cons_1 in H2 as [? H2]). destruct sc as [? ? ? ? ? ? ? ? ? ? ? ? ? ? ? ? ? ? c g f s ? ? ? ? ?]. cbn in *. unfold words_sc. cbn. unfold u16.
  f_equal; change (rd _ 18) with (c + 2 ^ 16 * g + 2 ^ 32 * f + 2 ^ 48 * s); Z.div_mod_to_equations; lia.
Qed.

(** ** Where the frame goes *)

(** What a checked range promises: it lies in user memory and does not wrap. *)
Class UserRangesLaws (U : Type) `{!UserRanges U} := {
  buffer_range : forall u p n w u', is_u64 p -> is_u64 n -> n <> 0 -> buffer_ok u p n w = (u', true) -> USER_VA_MIN <= p /\ p + n <= USER_STACK_TOP;
}.

Lemma u64_sub x y : is_u64 x -> 0 <= y < 2 ^ 64 -> x ⊖ y = if x <? y then x - y + 2 ^ 64 else x - y.
Proof.
  unfold is_u64. intros Hx Hy. unfold u64. destruct (Z.ltb_spec x y); [|apply Z.mod_small; lia]. rewrite <- (Z.mod_add (x - y) 1) by lia. apply Z.mod_small. lia.
Qed.

Lemma land_align x n : is_u64 x -> 0 <= n -> Z.land x (not64 (2 ^ n - 1)) = x - x mod 2 ^ n.
Proof. apply land_not64_ones. Qed.

(** The frame below a stack pointer when it does not wrap around. *)
Lemma frame_geometry sp : is_u64 sp -> frame_va sp <= sp ->
  frame_va sp + 448 <= fx_va sp /\ fx_va sp + 512 <= sp - 128 /\ fx_va sp mod 64 = 0 /\ (frame_va sp + 8) mod 16 = 0 /\ 0 <= frame_va sp.
Proof.
  intros Hsp Hle. assert (H0 := Hsp). unfold is_u64 in H0. unfold frame_va, fx_va, RED_ZONE, FXSAVE_BYTES, SIGFRAME_BYTES in *.
  change 63 with (2 ^ 6 - 1) in *. change 15 with (2 ^ 4 - 1) in *. assert (Ha : is_u64 (sp ⊖ 128)) by apply u64_range. set (a := sp ⊖ 128) in *. assert (Ea : a = if sp <? 128 then sp - 128 + 2 ^ 64 else sp - 128) by (apply u64_sub; [done|lia]).
  assert (Hb : is_u64 (a ⊖ 512)) by apply u64_range. set (b := a ⊖ 512) in *. assert (Eb : b = if a <? 512 then a - 512 + 2 ^ 64 else a - 512) by (apply u64_sub; [done|lia]). rewrite (land_align b 6 Hb) in * by lia. clearbody a b.
  pose proof (Z.mod_pos_bound b (2 ^ 6)) as Hm6. pose proof (Z.div_mod b (2 ^ 6)) as Hd6. set (fx := b - b mod 2 ^ 6) in *. assert (Efx : fx = 2 ^ 6 * (b / 2 ^ 6)) by (unfold fx; lia). unfold is_u64 in Ha, Hb.
  assert (Hfx : is_u64 fx) by (unfold is_u64, fx; lia). assert (Hc : is_u64 (fx ⊖ 440)) by apply u64_range. set (c := fx ⊖ 440) in *. assert (Ec : c = if fx <? 440 then fx - 440 + 2 ^ 64 else fx - 440) by (apply u64_sub; [done|lia]).
  rewrite (land_align c 4 Hc) in * by lia. clearbody c. unfold is_u64 in Hc. pose proof (Z.mod_pos_bound c (2 ^ 4)) as Hm4. pose proof (Z.div_mod c (2 ^ 4)) as Hd4. set (g := c - c mod 2 ^ 4) in *.
  assert (Eg : g = 2 ^ 4 * (c / 2 ^ 4)) by (unfold g; lia). assert (Hg : is_u64 g) by (unfold is_u64, g; lia). assert (Ef : g ⊖ 8 = if g <? 8 then g - 8 + 2 ^ 64 else g - 8) by (apply u64_sub; [done|lia]). rewrite Ef in *.
  assert (Hmod64 : fx mod 64 = 0) by (rewrite Efx; change (2 ^ 6) with 64; rewrite Z.mul_comm; apply Z.mod_mul; lia).
  assert (Hmod16 : g mod 16 = 0) by (rewrite Eg; change (2 ^ 4) with 16; rewrite Z.mul_comm; apply Z.mod_mul; lia).
  change (2 ^ 6) with 64 in *. change (2 ^ 4) with 16 in *. unfold is_u64 in *. unfold fx, g in *.
  destruct (Z.ltb_spec sp 128), (Z.ltb_spec a 512), (Z.ltb_spec (b - b mod 64) 440), (Z.ltb_spec (c - c mod 16) 8); try lia. split; [lia|]. split; [lia|]. split; [done|]. split; [|lia].
  replace (c - c mod 16 - 8 + 8) with (c - c mod 16) by lia. done.
Qed.

(** ** Tasks *)
Definition action_ok (a : task_signal_action) : Prop := is_u64 (handler a) /\ is_u64 (sa_flags a) /\ is_u64 (restorer a) /\ is_u64 (mask a).

Record task_ok (t : task) : Prop := {
  to_pending : is_u64 (sig_pending t);
  to_blocked : is_u64 (sig_blocked t);
  to_unblockable : Z.land (sig_blocked t) SIG_UNBLOCKABLE = 0;
  to_actions : length (signal_actions t) = 64%nat /\ Forall action_ok (signal_actions t);
  to_fx : zlen (user_fx t) = 512 /\ bytes (user_fx t);
}.

Lemma action_of_ok t sig : task_ok t -> action_ok (action_of t sig).
Proof.
  intros H. unfold action_of. destruct (signal_actions t !! _) as [a|] eqn:E; cbn; [|unfold action_ok, is_u64; cbn; lia]. by eapply list.Forall_lookup_1; [apply (to_actions t H)|].
Qed.

Lemma land_u64 x y : is_u64 x -> 0 <= y -> is_u64 (Z.land x y).
Proof.
  unfold is_u64. intros Hx Hy. assert (0 <= Z.land x y) by (apply Z.land_nonneg; lia). split; [done|]. destruct (Z.eq_dec (Z.land x y) 0) as [->|]; [lia|].
  apply Z.log2_lt_pow2; [lia|]. pose proof (Z.log2_land x y ltac:(lia) Hy). destruct (Z.eq_dec x 0) as [->|]; [by rewrite Z.land_0_l in *|]. pose proof (proj1 (Z.log2_lt_pow2 x 64 ltac:(lia)) (proj2 Hx)). lia.
Qed.

Lemma lor_u64 x y : is_u64 x -> is_u64 y -> is_u64 (Z.lor x y).
Proof. unfold is_u64. intros. apply lor_range; lia. Qed.

Lemma not64_u64 x : is_u64 x -> is_u64 (not64 x).
Proof. unfold is_u64, not64. intros H. split; [apply Z.lxor_nonneg; lia|]. destruct (Z.eq_dec (Z.lxor x (2 ^ 64 - 1)) 0) as [->|]; [lia|]. apply Z.log2_lt_pow2; [assert (0 <= Z.lxor x (2 ^ 64 - 1)) by (apply Z.lxor_nonneg; lia); lia|].
  pose proof (Z.log2_lxor x (2 ^ 64 - 1) ltac:(lia) ltac:(lia)). change (Z.log2 (2 ^ 64 - 1)) with 63 in *. destruct (Z.eq_dec x 0) as [->|]; [cbn in *; lia|]. pose proof (proj1 (Z.log2_lt_pow2 x 64 ltac:(lia)) (proj2 H)). lia. Qed.

Lemma land_unblockable x : is_u64 x -> Z.land (Z.land x (not64 SIG_UNBLOCKABLE)) SIG_UNBLOCKABLE = 0.
Proof. intros _. rewrite <- Z.land_assoc. change (Z.land (not64 SIG_UNBLOCKABLE) SIG_UNBLOCKABLE) with 0. apply Z.land_0_r. Qed.

Lemma keep_blockable x : is_u64 x -> Z.land x SIG_UNBLOCKABLE = 0 -> Z.land x (not64 SIG_UNBLOCKABLE) = x.
Proof.
  intros Hx H. apply Z.bits_inj'. intros k Hk. apply (f_equal (fun z => Z.testbit z k)) in H. rewrite Z.land_spec, Z.bits_0 in H. rewrite Z.land_spec. unfold not64. rewrite Z.lxor_spec.
  destruct (Z.lt_ge_cases k 64) as [Hlt|Hge].
  - change (2 ^ 64 - 1) with (Z.ones 64). rewrite Z.ones_spec_low by lia. destruct (Z.testbit x k); [|done]. cbn in H. by rewrite H.
  - unfold is_u64 in Hx. rewrite (testbit_high x 64) by lia. done.
Qed.

(** ** The lowest signal *)
Lemma ctz_loop_spec x n : forall i, (exists k, i <= k < i + Z.of_nat n /\ Z.testbit x k = true) ->
  i <= ctz_loop n i x < i + Z.of_nat n /\ Z.testbit x (ctz_loop n i x) = true /\ forall j, i <= j < ctz_loop n i x -> Z.testbit x j = false.
Proof.
  induction n as [|n IH]; intros i (k & Hk & Hb); [lia|]. cbn [ctz_loop]. destruct (Z.testbit x i) eqn:E; [split; [lia|]; split; [done|lia]|].
  destruct (IH (i + 1)) as (H1 & H2 & H3); [exists k; split; [|done]; destruct (Z.eq_dec k i) as [->|]; [congruence|lia]|]. split; [lia|]. split; [done|]. intros j Hj. destruct (Z.eq_dec j i) as [->|]; [done|]. apply H3. lia.
Qed.

Lemma ctzll_spec x : is_u64 x -> x <> 0 -> 0 <= ctzll x < 64 /\ Z.testbit x (ctzll x) = true /\ forall j, 0 <= j < ctzll x -> Z.testbit x j = false.
Proof.
  unfold is_u64. intros Hx Hn. unfold ctzll. apply (ctz_loop_spec x 64 0). exists (Z.log2 x). pose proof (Z.log2_nonneg x). pose proof (proj1 (Z.log2_lt_pow2 x 64 ltac:(lia)) (proj2 Hx)). split; [lia|]. apply Z.bit_log2. lia.
Qed.

Lemma SIG_BIT_u64 sig : 1 <= sig <= 64 -> is_u64 (SIG_BIT sig).
Proof.
  intros H. unfold SIG_BIT, is_u64. rewrite Z.shiftl_1_l. split; [apply Z.pow_nonneg; lia|]. apply Z.pow_lt_mono_r; lia.
Qed.

(** ** Delivery *)
Section Delivery.
Context {U : Type} `{!UserRanges U} `{!UserRangesLaws U}.
Implicit Types (u : U).

Definition ready t : Z := Z.land (sig_pending t) (not64 (sig_blocked t)).
Definition blocked_in_handler t (sig : Z) : Z :=
  let act := action_of t sig in
  Z.land (Z.lor (sig_blocked t) (if sa_flags act &? LINUX_SA_NODEFER then mask act else Z.lor (mask act) (SIG_BIT sig))) (not64 SIG_UNBLOCKABLE).
Definition actions_in_handler t (sig : Z) : list task_signal_action :=
  let act := action_of t sig in
  if sa_flags act &? LINUX_SA_RESETHAND then <[Z.to_nat (sig - 1) := Action LINUX_SIG_DFL (sa_flags act) (restorer act) (mask act)]> (signal_actions t) else signal_actions t.

(** What it takes to enter the handler of a signal, and the state it starts in. *)
Record entered u m t (sc : linux_sigcontext) u' m' t' (sc' : linux_sigcontext) (sig : Z) : Prop := {
  en_sig : 1 <= sig <= 64;
  en_set : Z.testbit (ready t) (sig - 1) = true;
  en_lowest : forall j, 1 <= j < sig -> Z.testbit (ready t) (j - 1) = false;
  en_handler : user_code_address (handler (action_of t sig)) = true /\ user_code_address (restorer (action_of t sig)) = true;
  en_low : USER_VA_MIN <= frame_va (sc_rsp sc);
  en_buffer : buffer_ok u (frame_va (sc_rsp sc)) (sc_rsp sc ⊖ frame_va (sc_rsp sc)) true = (u', true);
  en_mem : m' = poke (poke m (frame_va (sc_rsp sc)) (words (sigframe_words (restorer (action_of t sig)) (set_frame sc (fx_va (sc_rsp sc)) (sig_blocked t)) (sig_blocked t) sig))) (fx_va (sc_rsp sc)) (user_fx t);
  en_task : t' = set_actions (set_signals t (Z.land (sig_pending t) (not64 (SIG_BIT sig))) (blocked_in_handler t sig)) (actions_in_handler t sig);
  en_sc : sc' = enter_handler sc (handler (action_of t sig)) (frame_va (sc_rsp sc)) sig;
}.

Lemma deliver_entered u m t sc u' m' t' sc' : task_ok t -> deliver u m t sc = Handler u' m' t' sc' -> exists sig, entered u m t sc u' m' t' sc' sig.
Proof.
  intros Ht. unfold deliver. destruct (_ || _); [done|]. cbv zeta. fold (ready t). destruct (Z.eqb_spec (ready t) 0) as [|Hn]; [done|].
  assert (Hr : is_u64 (ready t)) by (apply land_u64; [apply Ht|apply not64_u64, Ht]). destruct (ctzll_spec (ready t) Hr Hn) as (H1 & H2 & H3). set (sig := ctzll (ready t) + 1) in *.
  change (action_of (set_signals t _ _) sig) with (action_of t sig). destruct (_ =? LINUX_SIG_IGN); [done|]. destruct (_ =? LINUX_SIG_DFL); [by destruct (default_ignored sig)|].
  destruct (_ || _) eqn:E; [done|]. apply orb_false_iff in E as [E E3]. apply orb_false_iff in E as [_ E2]. apply negb_false_iff in E2, E3.
  destruct (Z.ltb_spec (frame_va (sc_rsp sc)) USER_VA_MIN); [done|]. destruct (buffer_ok u _ _ true) as [u1 ok] eqn:Eb. destruct ok; [|done]. cbn [negb]. intros [= <- <- <- <-]. exists sig.
  split; try done; [lia|unfold sig; by replace (ctzll (ready t) + 1 - 1) with (ctzll (ready t)) by lia|intros j Hj; apply H3; lia|].
  unfold actions_in_handler, blocked_in_handler. by destruct (_ &? LINUX_SA_RESETHAND), t.
Qed.

(** The frame lies between the bottom of user memory and the red zone. *)
Lemma entered_range u m t sc u' m' t' sc' sig : entered u m t sc u' m' t' sc' sig -> is_u64 (sc_rsp sc) ->
  let frame := frame_va (sc_rsp sc) in let fx := fx_va (sc_rsp sc) in
  USER_VA_MIN <= frame /\ frame + 448 <= fx /\ fx + 512 <= sc_rsp sc - 128 /\ sc_rsp sc <= USER_STACK_TOP /\ fx mod 64 = 0 /\ (frame + 8) mod 16 = 0.
Proof.
  intros [H1 _ _ _ Hlow Hb _ _ _] Hsp frame fx. assert (Hf : is_u64 frame) by (unfold frame, frame_va; apply u64_range). assert (Hn : is_u64 (sc_rsp sc ⊖ frame)) by apply u64_range.
  pose proof (u64_sub (sc_rsp sc) frame Hsp Hf) as Es. fold frame in Hlow, Hb. unfold is_u64 in *.
  assert (Hle : frame <= sc_rsp sc /\ sc_rsp sc <= USER_STACK_TOP).
  { destruct (Z.eq_dec (sc_rsp sc ⊖ frame) 0) as [E0|E0].
    - exfalso. assert (frame = sc_rsp sc) by (destruct (Z.ltb_spec (sc_rsp sc) frame); lia). pose proof (frame_geometry (sc_rsp sc) Hsp) as Hg. fold frame in Hg. unfold is_u64 in Hg. lia.
    - pose proof (buffer_range u frame _ true u' Hf Hn E0 Hb) as [_ Hr]. unfold USER_STACK_TOP in *. destruct (Z.ltb_spec (sc_rsp sc) frame); lia. }
  destruct (frame_geometry (sc_rsp sc) Hsp) as (G1 & G2 & G3 & G4 & _); [apply Hle|]. unfold frame, fx. repeat split; (done || lia).
Qed.

Lemma sigframe_length a sc b s : zlen (words (sigframe_words a sc b s)) = 440.
Proof. rewrite words_length. done. Qed.

(** Nothing outside of the frame and the image of the FPU is written. *)
Lemma entered_frame u m t sc u' m' t' sc' sig x : task_ok t -> entered u m t sc u' m' t' sc' sig -> is_u64 (sc_rsp sc) ->
  ~ frame_va (sc_rsp sc) <= x < sc_rsp sc - 128 -> m' x = m x.
Proof.
  intros Ht He Hsp Hx. destruct (entered_range _ _ _ _ _ _ _ _ _ He Hsp) as (G1 & G2 & G3 & _). rewrite (en_mem _ _ _ _ _ _ _ _ _ He). destruct (to_fx t Ht) as [Hl _].
  rewrite poke_out by lia. apply poke_out. rewrite sigframe_length. lia.
Qed.

(** ** Return *)
Definition regs_ok (f : syscall_frame) : Prop :=
  Forall is_u64 [r15 f; r14 f; r13 f; r12 f; r11 f; rbx f; rbp f; r10 f; r9 f; r8 f; rcx f; rdx f; rsi f; rdi f; rax f; rip f; rflags f; rsp f].

Lemma sc_of_regs_ok f err trapno fx b : regs_ok f -> is_u64 err -> is_u64 trapno -> is_u64 fx -> is_u64 b -> sc_ok (set_frame (regs_to_sc f err trapno) fx b).
Proof.
  intros H He Hn Hf Hb. unfold regs_ok in H. repeat (apply Forall_cons_1 in H as [? H]). split; cbn.
  - repeat (apply Forall_cons_2; [first [done|unfold is_u64; lia]|]). constructor.
  - repeat (apply Forall_cons_2; [first [lia|unfold u16; apply Z.mod_pos_bound; lia]|]). constructor.
Qed.

Lemma clean_fx_valid fx : zlen fx = 512 -> bytes fx -> le_value (bytes_at fx MXCSR_OFFSET 4) <= MXCSR_VALID -> clean_fx fx = fx.
Proof.
  intros Hl Hb Hv. unfold clean_fx, MXCSR_OFFSET, MXCSR_VALID in *. unfold zlen in Hl. assert (H4 : length (bytes_at fx 24 4) = 4%nat) by (rewrite bytes_at_length; lia).
  assert (Hb4 : bytes (bytes_at fx 24 4)) by (unfold bytes_at; by apply Forall_take, Forall_drop). pose proof (le_value_range _ Hb4) as [H0 _].
  change 65535 with (Z.ones 16). rewrite Z.land_ones, Z.mod_small by lia. rewrite <- H4, le_bytes_value by done. unfold copy_to. rewrite H4. unfold bytes_at. rewrite <- (take_drop (Z.to_nat 24) fx) at 4. f_equal.
  rewrite <- drop_drop. apply take_drop.
Qed.

Lemma sigreturn_ok u m t f err trapno u' m' t' sc' sig u2 m2 t2 f2 u3 u4 : task_ok t -> regs_ok f -> is_u64 err -> is_u64 trapno ->
  entered u m t (regs_to_sc f err trapno) u' m' t' sc' sig ->
  rsp f2 = sc_rsp sc' + 8 -> cs f2 = cs f -> ss f2 = ss f -> vm t2 = true ->
  (forall x, sc_rsp sc' + 8 <= x < sc_rsp sc' + 312 \/ fx_va (rsp f) <= x < fx_va (rsp f) + 512 -> m2 x = m' x) ->
  buffer_ok u2 (sc_rsp sc' + 8) 304 false = (u3, true) -> buffer_ok u3 (fx_va (rsp f)) 512 false = (u4, true) ->
  signal_sigreturn u2 m2 t2 f2 = Continues u4 m2 (set_signals (set_fx t2 (clean_fx (user_fx t))) (sig_pending t2) (sig_blocked t)) f.
Proof.
  intros Ht Hf Herr Htr He Hrsp Hcs Hss Hvm Hm Hb1 Hb2. assert (Hsp : is_u64 (rsp f)) by (unfold regs_ok in Hf; rewrite list.Forall_forall in Hf; apply Hf; set_solver).
  destruct (entered_range _ _ _ _ _ _ _ _ _ He Hsp) as (G1 & G2 & G3 & G4 & G5 & G6). pose proof (en_mem _ _ _ _ _ _ _ _ _ He) as Em. assert (Efr : sc_rsp sc' = frame_va (rsp f)) by (by rewrite (en_sc _ _ _ _ _ _ _ _ _ He)).
  rewrite Efr in *. change (sc_rsp (regs_to_sc f err trapno)) with (rsp f) in *. set (frame := frame_va (rsp f)) in *. set (fx := fx_va (rsp f)) in *. set (act := action_of t sig) in *.
  assert (Hfx : is_u64 fx) by (unfold is_u64, USER_VA_MIN, USER_STACK_TOP in *; lia). set (sc := set_frame (regs_to_sc f err trapno) fx (sig_blocked t)) in *. assert (Hsc : sc_ok sc) by (apply sc_of_regs_ok; (done || apply Ht)).
  set (fw := sigframe_words (restorer act) sc (sig_blocked t) sig) in *. assert (Hfw : Forall is_u64 fw).
  { unfold fw, sigframe_words, ucontext_words. apply Forall_app_2; [apply Forall_singleton; apply (action_of_ok t sig Ht)|]. pose proof (en_sig _ _ _ _ _ _ _ _ _ He). apply Forall_app_2; [|unfold is_u64; repeat constructor; unfold SI_USER; lia].
    apply Forall_app_2; [unfold is_u64; repeat constructor; lia|]. apply Forall_app_2; [by apply sc_words_u64|]. apply Forall_singleton, Ht. }
  assert (Hws : peek_words m2 (frame + 8) 38 = ucontext_words sc (sig_blocked t)).
  { change (frame + 8) with (frame + 8 * 1). rewrite (peek_words_same m m2 frame fw 1 38); [done|lia|lia|done|done|]. intros x Hx. rewrite Hm by lia. rewrite Em. destruct (to_fx t Ht) as [Hl _]. apply poke_out. lia. }
  unfold signal_sigreturn. rewrite Hvm, Hrsp. cbn [negb]. unfold UCONTEXT_BYTES. rewrite Hb1. cbn [negb]. cbv zeta. rewrite Hws. change (bytes_at (ucontext_words sc (sig_blocked t)) 5 32) with (sc_words sc). rewrite (words_sc_words sc Hsc).
  change (rd (ucontext_words sc (sig_blocked t)) 37) with (sig_blocked t). change (sc_fpstate sc) with fx. destruct (Z.eqb_spec fx 0); [unfold USER_VA_MIN in *; lia|].
  replace (fx &? 15) with false by (symmetry; apply negb_false_iff, Z.eqb_eq; change 15 with (Z.ones 4); rewrite Z.land_ones by lia; change (2 ^ 4) with 16; rewrite (Z.div_mod fx 64) by lia; rewrite G5, Z.add_0_r; replace (64 * (fx / 64)) with (4 * (fx / 64) * 16) by lia; apply Z.mod_mul; lia).
  unfold FXSAVE_BYTES. rewrite Hb2. cbn [negb]. rewrite (keep_blockable (sig_blocked t)) by apply Ht. destruct (to_fx t Ht) as [Hl _].
  assert (Hpk : peek m2 fx 512 = user_fx t).
  { rewrite (peek_ext m2 m') by (intros x Hx; apply Hm; lia). rewrite Em, <- (Z.add_0_r fx). replace (peek _ (fx + 0) 512) with (bytes_at (user_fx t) 0 512) by (symmetry; rewrite Z.add_0_r at 1; apply peek_poke; lia). unfold bytes_at. cbn [Z.to_nat drop]. apply take_ge. unfold zlen in Hl. lia. }
  rewrite Hpk. f_equal. destruct f, f2. cbn in *. by subst.
Qed.

(** ** Every operation keeps tasks well formed *)
Definition mem_ok m : Prop := forall x, 0 <= m x < 256.

Lemma words_bytes ws : bytes (words ws).
Proof. induction ws as [|w ws IH]; [constructor|]. rewrite words_cons. apply Forall_app_2; [apply le_bytes_bytes|done]. Qed.

Lemma poke_ok m a bs : mem_ok m -> bytes bs -> mem_ok (poke m a bs).
Proof.
  intros Hm Hb x. unfold poke. destruct (_ && _); [|apply Hm]. unfold rd. destruct (bs !! _) as [b|] eqn:E; cbn; [|lia]. by eapply (list.Forall_lookup_1 _ _ _ _ Hb).
Qed.

Lemma peek_bytes m a n : mem_ok m -> bytes (peek m a n).
Proof. intros Hm. unfold peek. apply Forall_fmap, Forall_true. intros x. apply Hm. Qed.

Lemma peek_value m a : mem_ok m -> is_u64 (le_value (peek m a 8)).
Proof. intros Hm. pose proof (le_value_range _ (peek_bytes m a 8 Hm)) as H. rewrite peek_length in H. exact H. Qed.

Lemma peek_words_u64 m a n i : mem_ok m -> is_u64 (rd (peek_words m a n) i).
Proof.
  intros Hm. unfold rd, peek_words. rewrite list_lookup_fmap. destruct (seqZ 0 n !! Z.to_nat i); cbn; [by apply peek_value|unfold is_u64; lia].
Qed.

Lemma clean_fx_ok fx : zlen fx = 512 -> bytes fx -> zlen (clean_fx fx) = 512 /\ bytes (clean_fx fx).
Proof.
  intros Hl Hb. unfold clean_fx, MXCSR_OFFSET. set (bs := le_bytes 4 _). pose proof (le_bytes_length 4 (Z.land (le_value (bytes_at fx 24 4)) MXCSR_VALID)) as H4. fold bs in H4. split.
  - unfold zlen in *. rewrite copy_to_length by lia. done.
  - unfold copy_to. apply Forall_app_2; [by apply Forall_take|]. apply Forall_app_2; [apply le_bytes_bytes|by apply Forall_drop].
Qed.

Lemma unblockable_masked t pending x : task_ok t -> is_u64 pending -> is_u64 x -> task_ok (set_signals t pending (Z.land x (not64 SIG_UNBLOCKABLE))).
Proof. intros [H1 H2 H3 H4 H5] Hp Hx. split; cbn; [done|apply land_u64; [done|vm_compute; discriminate]|by apply land_unblockable|done|done]. Qed.

Lemma set_pending_ok t pending : task_ok t -> is_u64 pending -> task_ok (set_signals t pending (sig_blocked t)).
Proof. intros [H1 H2 H3 H4 H5] Hp. by split. Qed.

Lemma set_actions_ok t i a : task_ok t -> action_ok a -> task_ok (set_actions t (<[i := a]> (signal_actions t))).
Proof. intros [H1 H2 H3 [H4 H4'] H5] Ha. split; cbn; try done. split; [by rewrite length_insert|by apply Forall_insert]. Qed.

Lemma make_pending_ok t sig : task_ok t -> 1 <= sig <= 64 -> task_ok (make_pending t sig).
Proof.
  intros Ht Hs. unfold make_pending. assert (H : task_ok (set_signals t (Z.lor (sig_pending t) (SIG_BIT sig)) (sig_blocked t))) by (apply set_pending_ok; [done|apply lor_u64; [apply Ht|by apply SIG_BIT_u64]]).
  destruct (task_signal_deliverable _); [|done]. unfold task_interrupt. destruct (state _); try done. destruct (block_interruptible _); [|done]. destruct H. by split.
Qed.

Lemma entered_ok u m t sc u' m' t' sc' sig : task_ok t -> mem_ok m -> entered u m t sc u' m' t' sc' sig -> task_ok t' /\ mem_ok m'.
Proof.
  intros Ht Hm He. pose proof (en_sig _ _ _ _ _ _ _ _ _ He) as Hs. rewrite (en_task _ _ _ _ _ _ _ _ _ He), (en_mem _ _ _ _ _ _ _ _ _ He). pose proof (action_of_ok t sig Ht) as (A1 & A2 & A3 & A4). split.
  - unfold actions_in_handler, blocked_in_handler. cbv zeta. set (x := Z.lor (sig_blocked t) _). assert (Hx : is_u64 x) by (unfold x; apply lor_u64; [apply Ht|]; destruct (_ &? _); [done|apply lor_u64; [done|by apply SIG_BIT_u64]]).
    assert (Hp : is_u64 (Z.land (sig_pending t) (not64 (SIG_BIT sig)))) by (apply land_u64; [apply Ht|apply not64_u64; by apply SIG_BIT_u64]). pose proof (unblockable_masked t _ x Ht Hp Hx) as Hok.
    destruct (_ &? LINUX_SA_RESETHAND); [|by destruct t]. apply (set_actions_ok _ (Z.to_nat (sig - 1)) (Action LINUX_SIG_DFL (sa_flags (action_of t sig)) (restorer (action_of t sig)) (mask (action_of t sig)))) in Hok; [done|]. unfold action_ok; cbn. unfold LINUX_SIG_DFL, is_u64 in *. split; [lia|done].
  - apply poke_ok; [apply poke_ok; [done|apply words_bytes]|apply Ht].
Qed.

Lemma deliver_ok u m t sc : task_ok t -> mem_ok m ->
  match deliver u m t sc with NoHandler t' => task_ok t' | Terminated _ => True | Handler u' m' t' sc' => task_ok t' /\ mem_ok m' end.
Proof.
  intros Ht Hm. destruct (deliver u m t sc) as [t'|s|u' m' t' sc'] eqn:E; [|done|by destruct (deliver_entered _ _ _ _ _ _ _ _ Ht E) as [sig He]; eapply entered_ok].
  assert (Hr : forall sig, 1 <= sig <= 64 -> task_ok (set_signals t (Z.land (sig_pending t) (not64 (SIG_BIT sig))) (sig_blocked t))) by (intros sig Hs; apply set_pending_ok; [done|]; apply land_u64; [apply Ht|apply not64_u64; by apply SIG_BIT_u64]).
  unfold deliver in E. destruct (_ || _); [by injection E as <-|]. cbv zeta in E. fold (ready t) in E. destruct (Z.eqb_spec (ready t) 0) as [|Hn]; [by injection E as <-|].
  assert (Hrd : is_u64 (ready t)) by (apply land_u64; [apply Ht|apply not64_u64, Ht]). destruct (ctzll_spec (ready t) Hrd Hn) as (H1 & _ & _). specialize (Hr (ctzll (ready t) + 1) ltac:(lia)).
  destruct (_ =? LINUX_SIG_IGN); [by injection E as <-|]. destruct (_ =? LINUX_SIG_DFL); [by destruct (default_ignored _); [injection E as <-|]|]. destruct (_ || _); [done|]. destruct (_ <? USER_VA_MIN); [done|]. destruct (buffer_ok _ _ _ _) as [? []]; done.
Qed.

Definition keeps (o : outcome (U:=U)) : Prop := match o with Continues _ m' t' _ => task_ok t' /\ mem_ok m' | Exits _ => True end.

Lemma deliver_keeps u m t f e n : task_ok t -> mem_ok m ->
  keeps (match deliver u m t (regs_to_sc f e n) with NoHandler t => Continues u m t f | Terminated sig => Exits sig | Handler u m t sc => Continues u m t (sc_to_regs f sc) end).
Proof. intros Ht Hm. pose proof (deliver_ok u m t (regs_to_sc f e n) Ht Hm) as H. destruct (deliver _ _ _ _); done. Qed.

Lemma sigreturn_keeps u m t f : task_ok t -> mem_ok m -> keeps (signal_sigreturn u m t f).
Proof.
  intros Ht Hm. unfold signal_sigreturn. destruct (negb _); [done|]. destruct (buffer_ok _ _ _ _) as [u1 []]; [|done]. cbn [negb]. cbv zeta. set (mk := rd _ 37). assert (Hk : is_u64 mk) by (by apply peek_words_u64).
  destruct (_ =? 0); [split; [apply unblockable_masked; [done|apply Ht|done]|done]|]. destruct (_ &? 15); [done|]. destruct (buffer_ok _ _ _ _) as [u2 []]; [|done]. cbn [negb]. set (p := sc_fpstate _).
  assert (Hfx : task_ok (set_fx t (clean_fx (peek m p FXSAVE_BYTES)))) by (destruct Ht; split; cbn; try done; apply clean_fx_ok; [by rewrite peek_length|by apply peek_bytes]).
  split; [|done]. apply (unblockable_masked _ _ mk Hfx); [apply Ht|done].
Qed.

Lemma sigprocmask_keeps u m t how set old size : task_ok t -> mem_ok m -> let '(u', m', t', r) := signal_sigprocmask u m t how set old size in task_ok t' /\ mem_ok m'.
Proof.
  intros Ht Hm. unfold signal_sigprocmask. destruct (_ || _); [done|]. destruct (if set =? 0 then _ else _) as [u1 []]; [|done]. cbn [negb]. destruct (if old =? 0 then _ else _) as [u2 []]; [|done]. cbn [negb]. cbv zeta.
  assert (Hs : mem_ok (if old =? 0 then m else poke m old (le_bytes 8 (sig_blocked t)))) by (destruct (old =? 0); [done|apply poke_ok; [done|apply le_bytes_bytes]]). destruct (set =? 0); [done|].
  set (v := le_value (peek m set 8)). assert (Hv : is_u64 v) by (by apply peek_value). assert (Hb : forall x, is_u64 x -> task_ok (set_signals t (sig_pending t) (Z.land x (not64 SIG_UNBLOCKABLE)))) by (intros x Hx; apply unblockable_masked; [done|apply Ht|done]).
  destruct (how =? LINUX_SIG_BLOCK); [split; [apply Hb, lor_u64; [apply Ht|done]|done]|]. destruct (how =? LINUX_SIG_UNBLOCK); [split; [apply Hb, land_u64; [apply Ht|by apply not64_u64]|done]|].
  destruct (how =? LINUX_SIG_SETMASK); [split; [by apply Hb|done]|done].
Qed.

Lemma sigaction_keeps u m t sig a old n : task_ok t -> mem_ok m -> let '(u', m', t', r) := sys_rt_sigaction u m t sig a old n in task_ok t' /\ mem_ok m'.
Proof.
  intros Ht Hm. unfold sys_rt_sigaction. destruct (_ || _); [done|]. destruct (_ && _); [done|]. destruct (if a =? 0 then _ else _) as [u1 []]; [|done]. cbn [negb]. destruct (if old =? 0 then _ else _) as [u2 []]; [|done]. cbn [negb]. cbv zeta. split.
  - destruct (a =? 0); [done|]. apply set_actions_ok; [done|]. unfold action_ok. cbn. repeat split; by apply peek_words_u64.
  - destruct (old =? 0); [done|]. apply poke_ok; [done|apply words_bytes].
Qed.

Lemma send_keeps t cur sig : task_ok t -> match signal_send (Some t) cur sig with SendReturn (Some t') _ => task_ok t' | _ => True end.
Proof.
  intros Ht. unfold signal_send. destruct (_ || _) eqn:E; [done|]. apply orb_false_iff in E as [E1 E2]. unfold TASK_SIGNAL_COUNT in E2. zbool. destruct (_ || _); [done|]. destruct (Z.eqb_spec sig 0); [done|].
  assert (H : task_ok (make_pending t sig)) by (apply make_pending_ok; [done|lia]). destruct (state t); destruct (discarded t sig); try done; destruct (_ || _); try done; by destruct cur.
Qed.

Lemma child_keeps t : task_ok t -> match signal_child_exited (Some t) with Some t' => task_ok t' | None => True end.
Proof. intros Ht. cbn. destruct (_ || _); [done|]. destruct (_ >? _); [|done]. apply make_pending_ok; [done|unfold LINUX_SIGCHLD; lia]. Qed.
End Delivery.

(** ** User memory as [uvm.c] checks it *)
#[export] Instance uvm_ranges {S} `{!PagingOps S} : UserRanges (S * task_vm) := fun u p n w => let '(s, ok) := uvm_buffer_ok u.1 u.2 p n w in ((s, u.2), ok).

#[export] Instance uvm_ranges_laws {S} `{!PagingOps S} : UserRangesLaws (S * task_vm).
Proof.
  split. intros [s v] p n w [s' v'] Hp Hn Hnz. unfold buffer_ok, uvm_ranges, uvm_buffer_ok. cbn [fst snd]. destruct (Z.eqb_spec n 0); [done|]. destruct (_ =? 0); [done|]. cbv zeta. unfold is_u64 in *.
  destruct (Z.ltb_spec p USER_VA_MIN); [done|]. destruct (Z.ltb_spec (p ⊕ n) p) as [|Hw]; [done|]. cbn [orb].
  assert (E : p ⊕ n = p + n).
  { unfold u64 in *. destruct (Z.lt_ge_cases (p + n) (2 ^ 64)); [apply Z.mod_small; lia|]. exfalso. rewrite <- (Z.mod_add (p + n) (-1)), Z.mod_small in Hw by lia. lia. }
  rewrite E. destruct (Z.leb_spec (p + n) USER_VA_MAX) as [|Hg]; cbn [negb andb]; [intros _; unfold USER_VA_MAX, USER_STACK_TOP in *; lia|]. destruct (Z.leb_spec (p + n) USER_STACK_TOP); [done|]. by rewrite andb_false_r.
Qed.
