(* ===== verification/SignalUse.v ===== *)
(** The claims about signals. *)
From S2P Require Import Prelude Vmm Paging Uvm Signal SignalSpec.

(** ** Sending *)

(** A target that can be signalled. *)
Definition live (t : task) : Prop := vm t = true /\ context t = true /\ is_thread t = false /\ gone t = false /\ state t <> TASK_LOADING.

(** What [signal_send] does to a live target: [SIGKILL] always ends it; a signal it ignores, by choice
    or by default, changes nothing; a signal with its default action ends it unless it
    is blocked; and any other becomes pending and wakes an interruptible wait if
    it is not blocked. *)
Lemma signal_send_ok t cur sig : live t -> 1 <= sig <= 64 ->
  signal_send (Some t) cur sig =
    if decide (sig = LINUX_SIGKILL) then (if cur then SendExit (- sig) else SendKill (- sig)) else
    if decide (handler (action_of t sig) = LINUX_SIG_IGN) then SendReturn (Some t) 0 else
    if decide (handler (action_of t sig) = LINUX_SIG_DFL) then
      if default_ignored sig then SendReturn (Some t) 0 else
      if sig_blocked t &? SIG_BIT sig then SendReturn (Some (make_pending t sig)) 0 else
      if cur then SendExit (- sig) else SendKill (- sig)
    else SendReturn (Some (make_pending t sig)) 0.
Proof.
  intros (Hv & Hc & Hth & Hg & Hst) Hs. unfold signal_send, TASK_SIGNAL_COUNT. destruct (Z.ltb_spec sig 0); [lia|]. destruct (Z.gtb_spec sig 64); [lia|]. cbn [orb]. rewrite Hv, Hc, Hth, Hg. cbn [negb orb].
  destruct (Z.eqb_spec sig 0); [lia|]. unfold discarded. destruct (Z.eqb_spec sig LINUX_SIGKILL) as [->|Hk]; [rewrite decide_True by done; destruct (state t); done|]. rewrite decide_False by done. cbv zeta.
  destruct (Z.eqb_spec (handler (action_of t sig)) LINUX_SIG_IGN) as [E|E]; [rewrite decide_True by done; destruct (state t); done|]. rewrite decide_False by done. cbn [orb].
  destruct (Z.eqb_spec (handler (action_of t sig)) LINUX_SIG_DFL) as [E2|E2]; [rewrite decide_True by done|rewrite decide_False by done; destruct (state t); done]. cbn [andb].
  destruct (state t); try done; destruct (default_ignored sig); try done; by destruct (_ &? SIG_BIT sig).
Qed.

(** ** The return to user mode *)

Lemma set_bits x n j : 0 <= x < 2 ^ n -> 0 <= j -> Z.testbit x j = true -> j ∈ filter (fun j => Z.testbit x j = true) (seqZ 0 n).
Proof.
  intros Hx Hj Hb. apply list_elem_of_filter. split; [done|]. apply elem_of_seqZ. destruct (Z.lt_ge_cases j n); [lia|]. by rewrite (testbit_high x n) in Hb.
Qed.

Lemma allowed_bits j : 0 <= j -> Z.testbit USER_RETURN_RFLAGS_ALLOWED j = true -> j ∈ [0; 2; 4; 6; 7; 8; 9; 10; 11; 21].
Proof. intros Hj Ht. apply (set_bits _ 22) in Ht; [|vm_compute; split; [discriminate|reflexivity]|done]. exact Ht. Qed.

Lemma forced_bits j : 0 <= j -> Z.testbit (Z.lor RFLAGS_FIXED RFLAGS_IF) j = true -> j ∈ [1; 9].
Proof. intros Hj Ht. apply (set_bits _ 10) in Ht; [|vm_compute; split; [discriminate|reflexivity]|done]. exact Ht. Qed.

(** Whatever the registers hold, for instance what a program put into a signal frame, a return that
    [syscall_prepare_return] admits is to user code and a user stack, with interrupts
    on and no flag set but those a program may choose. *)
Theorem user_return_safe {S} `{!PagingOps S} (s : S) pml4 f f' : syscall_prepare_return s pml4 f = Some f' ->
  cs f' = 0x23 /\ ss f' = 0x1B /\ rip f' = rip f /\ user_return_address_ok (rip f') false = true /\ user_return_address_ok (rsp f') true = true /\
  (pg_entry s pml4 (rip f') &? VMM_USER) = true /\ (pg_entry s pml4 (rip f') &? VMM_NX) = false /\
  Z.testbit (rflags f') 9 = true /\ (forall k, 0 <= k -> k ∉ [0; 1; 2; 4; 6; 7; 8; 9; 10; 11; 21] -> Z.testbit (rflags f') k = false).
Proof.
  unfold syscall_prepare_return. intros H. destruct (_ =? 0); [done|]. destruct (_ || _) eqn:E1; [done|]. destruct (_ || _) eqn:E2 in H; [done|]. cbv zeta in H. destruct (_ || _) eqn:E3 in H; [done|]. injection H as <-. cbn [cs ss rip rsp rflags].
  apply orb_false_iff in E1 as [E1 E1']. apply orb_false_iff in E2 as [E2 E2']. apply orb_false_iff in E3 as [E3 E3'']. apply orb_false_iff in E3 as [_ E3']. apply negb_false_iff in E1, E1', E2, E2', E3'. apply Z.eqb_eq in E1, E1'.
  rewrite E1, E1'. split; [reflexivity|]. split; [reflexivity|]. split; [reflexivity|]. split; [exact E2|]. split; [exact E2'|]. split; [exact E3'|]. split; [exact E3''|]. split.
  - rewrite Z.lor_spec. apply orb_true_iff. right. reflexivity.
  - intros k Hk Hn. rewrite Z.lor_spec, Z.land_spec. apply orb_false_iff. split.
    + apply andb_false_iff. right. destruct (Z.testbit USER_RETURN_RFLAGS_ALLOWED k) eqn:Et; [|done]. apply allowed_bits in Et; [|done]. set_solver.
    + destruct (Z.testbit (Z.lor RFLAGS_FIXED RFLAGS_IF) k) eqn:Et; [|done]. apply forced_bits in Et; [|done]. set_solver.
Qed.

(** ** Entering a handler *)
Lemma sig_bit_clear sig : 1 <= sig <= 64 -> Z.testbit (not64 (SIG_BIT sig)) (sig - 1) = false.
Proof.
  intros H. unfold not64, SIG_BIT. rewrite Z.lxor_spec, Z.shiftl_1_l, Z.pow2_bits_true by lia. change (2 ^ 64 - 1) with (Z.ones 64). by rewrite Z.ones_spec_low by lia.
Qed.

Lemma entered_unblockable t sig : task_ok t -> 1 <= sig <= 64 -> Z.land (blocked_in_handler t sig) SIG_UNBLOCKABLE = 0.
Proof.
  intros Ht Hs. apply land_unblockable. pose proof (action_of_ok t sig Ht) as (_ & _ & _ & Hm). apply lor_u64; [apply Ht|]. destruct (_ &? _); [done|]. apply lor_u64; [done|by apply SIG_BIT_u64].
Qed.

Section Claims.
Context {U : Type} `{!UserRanges U} `{!UserRangesLaws U}.
Implicit Types (u : U) (m : memory) (t : task).

(** A return to user mode, by a system call or an interrupt, that was redirected into a handler. *)
Definition redirected u m t (r : interrupt_frame) u' m' t' (f' : syscall_frame) : Prop :=
  (signal_deliver_syscall u m t (regs r) = Continues u' m' t' f' \/ signal_deliver_irq u m t r = Continues u' m' t' f') /\ rsp f' <> rsp (regs r).

Definition frame_ok (r : interrupt_frame) : Prop := regs_ok (regs r) /\ is_u64 (err_code r) /\ is_u64 (int_num r).

Lemma frame_ok_rsp r : frame_ok r -> is_u64 (rsp (regs r)).
Proof. intros [H _]. unfold regs_ok in H. rewrite list.Forall_forall in H. apply H. set_solver. Qed.

Lemma redirected_entered u m t r u' m' t' f' : task_ok t -> frame_ok r -> redirected u m t r u' m' t' f' ->
  exists err trapno sc' sig, is_u64 err /\ is_u64 trapno /\ entered u m t (regs_to_sc (regs r) err trapno) u' m' t' sc' sig /\ f' = sc_to_regs (regs r) sc'.
Proof.
  intros Ht (_ & He & Hn) [[H|H] Hne].
  - unfold signal_deliver_syscall in H. destruct (deliver u m t _) as [t1|s|u1 m1 t1 sc'] eqn:E; [by injection H as <- <- <- <-|done|]. injection H as <- <- <- <-.
    destruct (deliver_entered _ _ _ _ _ _ _ _ Ht E) as [sig Hs]. exists 0, 0, sc', sig. by split; [unfold is_u64; lia|split; [unfold is_u64; lia|]].
  - unfold signal_deliver_irq in H. destruct (negb _); [by injection H as <- <- <- <-|]. destruct (deliver u m t _) as [t1|s|u1 m1 t1 sc'] eqn:E; [by injection H as <- <- <- <-|done|]. injection H as <- <- <- <-.
    destruct (deliver_entered _ _ _ _ _ _ _ _ Ht E) as [sig Hs]. by exists (err_code r), (int_num r), sc', sig.
Qed.

(** C20: the handler that runs is that of the lowest pending signal that is not blocked; its
    frame lies in user memory below the red zone of the interrupted code, the stack is aligned
    as at a call, no other byte is written, and while the handler runs the signal is not pending and
    [SIGKILL] and [SIGSTOP] are not blocked. *)
Theorem signal_entry_safe u m t r u' m' t' f' : task_ok t -> frame_ok r -> redirected u m t r u' m' t' f' ->
  exists sig, 1 <= sig <= 64 /\ Z.testbit (ready t) (sig - 1) = true /\ (forall j, 1 <= j < sig -> Z.testbit (ready t) (j - 1) = false) /\
    rip f' = handler (action_of t sig) /\ user_code_address (rip f') = true /\ rdi f' = sig /\ cs f' = cs (regs r) /\ ss f' = ss (regs r) /\
    USER_VA_MIN <= rsp f' /\ rsp f' + 440 <= fx_va (rsp (regs r)) /\ fx_va (rsp (regs r)) + 512 <= rsp (regs r) - RED_ZONE /\ rsp (regs r) <= USER_STACK_TOP /\ (rsp f' + 8) mod 16 = 0 /\
    (forall x, ~ rsp f' <= x < rsp (regs r) - RED_ZONE -> m' x = m x) /\
    Z.testbit (sig_pending t') (sig - 1) = false /\ sig_blocked t' = blocked_in_handler t sig /\ Z.land (sig_blocked t') SIG_UNBLOCKABLE = 0.
Proof.
  intros Ht Hr Hd. destruct (redirected_entered _ _ _ _ _ _ _ _ Ht Hr Hd) as (err & trapno & sc' & sig & _ & _ & He & ->). pose proof (frame_ok_rsp r Hr) as Hsp.
  destruct (entered_range _ _ _ _ _ _ _ _ _ He Hsp) as (G1 & G2 & G3 & G4 & _ & G6). assert (Hout := fun x => entered_frame _ _ _ _ _ _ _ _ _ x Ht He Hsp).
  rewrite (en_sc _ _ _ _ _ _ _ _ _ He), (en_task _ _ _ _ _ _ _ _ _ He). pose proof (entered_unblockable t sig Ht (en_sig _ _ _ _ _ _ _ _ _ He)) as Hu. destruct He as [H1 H2 H3 [H4 _] _ _ _ _ _]. exists sig.
  cbn [sc_to_regs enter_handler rip rdi cs ss rsp sc_rip sc_rdi sc_rsp regs_to_sc set_actions set_signals sig_pending sig_blocked] in *. unfold RED_ZONE. repeat (split; [done || lia|]). split; [|by split].
  rewrite Z.land_spec. apply andb_false_iff. right. by apply sig_bit_clear.
Qed.

(** ** Returning from one *)

(** C6: a handler is invisible to the code it interrupts.  Whatever the handler did to the registers and to the rest
    of memory, if it returns to its restorer with the frame intact, [rt_sigreturn] restores every
    register, the mask and the image of the FPU (but for bits that are not bits of MXCSR) as
    they were before the delivery. *)
Theorem signal_roundtrip u m t r u' m' t' f' u2 m2 t2 f2 u3 u4 : task_ok t -> frame_ok r -> redirected u m t r u' m' t' f' ->
  rsp f2 = rsp f' + 8 -> cs f2 = cs f' -> ss f2 = ss f' -> vm t2 = true ->
  (forall x, rsp f2 <= x < rsp f2 + 304 \/ fx_va (rsp (regs r)) <= x < fx_va (rsp (regs r)) + 512 -> m2 x = m' x) ->
  buffer_ok u2 (rsp f2) 304 false = (u3, true) -> buffer_ok u3 (fx_va (rsp (regs r))) 512 false = (u4, true) ->
  (exists fx, signal_sigreturn u2 m2 t2 f2 = Continues u4 m2 (set_signals (set_fx t2 fx) (sig_pending t2) (sig_blocked t)) (regs r) /\
     (le_value (bytes_at (user_fx t) MXCSR_OFFSET 4) <= MXCSR_VALID -> fx = user_fx t)).
Proof.
  intros Ht Hr Hd Hrsp Hcs Hss Hvm Hm Hb1 Hb2. destruct (redirected_entered _ _ _ _ _ _ _ _ Ht Hr Hd) as (err & trapno & sc' & sig & Herr & Htr & He & ->). exists (clean_fx (user_fx t)).
  cbn [sc_to_regs rsp cs ss] in *. split.
  - rewrite Hrsp in Hm, Hb1. eapply sigreturn_ok; [exact Ht|apply Hr|exact Herr|exact Htr|exact He|done|done|done|done| |exact Hb1|exact Hb2]. intros x Hx. apply Hm. lia.
  - intros Hv. apply clean_fx_valid; [apply Ht|apply Ht|done].
Qed.

(** ** Signals nobody can refuse *)
Definition never_caught t : Prop := handler (action_of t LINUX_SIGKILL) = LINUX_SIG_DFL /\ handler (action_of t LINUX_SIGSTOP) = LINUX_SIG_DFL.

(** What can happen to a task and its memory: the program, the scheduler and the entry from user mode change
    anything but the signal state; and the operations on signals. *)
Inductive sig_step : memory -> task -> memory -> task -> Prop :=
  | step_other m t m' t' : mem_ok m' -> sig_pending t' = sig_pending t -> sig_blocked t' = sig_blocked t -> signal_actions t' = signal_actions t ->
      zlen (user_fx t') = 512 -> bytes (user_fx t') -> sig_step m t m' t'
  | step_send m t cur sig t' r : signal_send (Some t) cur sig = SendReturn (Some t') r -> sig_step m t m t'
  | step_child m t t' : signal_child_exited (Some t) = Some t' -> sig_step m t m t'
  | step_syscall u m t f u' m' t' f' : signal_deliver_syscall u m t f = Continues u' m' t' f' -> sig_step m t m' t'
  | step_irq u m t r u' m' t' f' : signal_deliver_irq u m t r = Continues u' m' t' f' -> sig_step m t m' t'
  | step_return u m t f u' m' t' f' : signal_sigreturn u m t f = Continues u' m' t' f' -> sig_step m t m' t'
  | step_mask u m t how set old size u' m' t' r : signal_sigprocmask u m t how set old size = (u', m', t', r) -> sig_step m t m' t'
  | step_action u m t sig a old size u' m' t' r : sys_rt_sigaction u m t sig a old size = (u', m', t', r) -> sig_step m t m' t'.

Inductive sig_steps : memory -> task -> memory -> task -> Prop :=
  | sig_refl m t : sig_steps m t m t
  | sig_trans m t m1 t1 m2 t2 : sig_step m t m1 t1 -> sig_steps m1 t1 m2 t2 -> sig_steps m t m2 t2.

Lemma action_of_insert t i a sig :
  let t' := set_actions t (<[i := a]> (signal_actions t)) in action_of t' sig = action_of t sig \/ (i = Z.to_nat (sig - 1) /\ action_of t' sig = a).
Proof.
  cbv zeta. unfold action_of. cbn [set_actions signal_actions]. destruct (decide (i = Z.to_nat (sig - 1))) as [->|Hn]; [|left; by rewrite list_lookup_insert_ne].
  destruct (decide (Z.to_nat (sig - 1) < length (signal_actions t))%nat) as [Hl|Hl]; [right; split; [done|by rewrite list_lookup_insert_eq]|left; by rewrite list_insert_ge by lia].
Qed.

Lemma never_caught_same t t' : signal_actions t' = signal_actions t -> never_caught t -> never_caught t'.
Proof. unfold never_caught, action_of. by intros ->. Qed.

Lemma make_pending_actions t sig : signal_actions (make_pending t sig) = signal_actions t.
Proof. unfold make_pending, task_interrupt. destruct (task_signal_deliverable _); [|done]. cbn. destruct (state t); try done. by destruct (block_interruptible t). Qed.

Lemma send_never_caught t cur sig t' r : signal_send (Some t) cur sig = SendReturn (Some t') r -> never_caught t -> never_caught t'.
Proof.
  intros H. apply never_caught_same. unfold signal_send in H. destruct (_ || _); [by injection H as <- _|]. destruct (_ || _); [by injection H as <- _|]. destruct (sig =? 0); [by injection H as <- _|].
  destruct (state t); (destruct (discarded t sig); [by injection H as <- _|]); try done; (destruct (_ || _); [by destruct cur|]); injection H as <- _; apply make_pending_actions.
Qed.

Lemma child_never_caught t t' : signal_child_exited (Some t) = Some t' -> never_caught t -> never_caught t'.
Proof.
  intros H. apply never_caught_same. cbn in H. destruct (_ || _); [by injection H as <-|]. destruct (_ >? _); injection H as <-; [apply make_pending_actions|done].
Qed.

Lemma entered_never_caught u m t sc u' m' t' sc' sig : entered u m t sc u' m' t' sc' sig -> never_caught t -> never_caught t'.
Proof.
  intros He [H1 H2]. rewrite (en_task _ _ _ _ _ _ _ _ _ He). unfold actions_in_handler. cbv zeta. destruct (_ &? LINUX_SA_RESETHAND); [|by split]. set (a := Action _ _ _ _).
  split; [destruct (action_of_insert t (Z.to_nat (sig - 1)) a LINUX_SIGKILL) as [E|[_ E]]|destruct (action_of_insert t (Z.to_nat (sig - 1)) a LINUX_SIGSTOP) as [E|[_ E]]];
    unfold action_of in *; cbn [set_actions set_signals signal_actions] in *; by rewrite E.
Qed.

Lemma deliver_never_caught u m t sc : task_ok t -> never_caught t ->
  match deliver u m t sc with NoHandler t' => never_caught t' | Terminated _ => True | Handler _ _ t' _ => never_caught t' end.
Proof.
  intros Ht Hc. destruct (deliver u m t sc) as [t'|s|u' m' t' sc'] eqn:E; [|done|by destruct (deliver_entered _ _ _ _ _ _ _ _ Ht E) as [sig He]; eapply entered_never_caught].
  revert Hc. apply never_caught_same. unfold deliver in E. destruct (_ || _); [by injection E as <-|]. cbv zeta in E. destruct (_ =? 0); [by injection E as <-|]. destruct (_ =? LINUX_SIG_IGN); [by injection E as <-|].
  destruct (_ =? LINUX_SIG_DFL); [by destruct (default_ignored _); [injection E as <-|]|]. destruct (_ || _); [done|]. destruct (_ <? USER_VA_MIN); [done|]. destruct (buffer_ok _ _ _ _) as [? []]; done.
Qed.

Lemma return_never_caught u m t f u' m' t' f' : signal_sigreturn u m t f = Continues u' m' t' f' -> never_caught t -> never_caught t'.
Proof.
  intros H. apply never_caught_same. unfold signal_sigreturn in H. destruct (negb _); [done|]. destruct (buffer_ok _ _ _ _) as [u1 []]; [|done]. cbn [negb] in H. cbv zeta in H.
  destruct (_ =? 0); [by injection H as <- <- <- <-|]. destruct (_ &? 15); [done|]. destruct (buffer_ok _ _ _ _) as [u2 []]; [|done]. by injection H as <- <- <- <-.
Qed.

Lemma mask_never_caught u m t how set old size u' m' t' r : signal_sigprocmask u m t how set old size = (u', m', t', r) -> never_caught t -> never_caught t'.
Proof.
  intros H. apply never_caught_same. unfold signal_sigprocmask in H. destruct (_ || _); [by injection H as <- <- <- <-|]. destruct (if set =? 0 then _ else _) as [u1 []]; [|by injection H as <- <- <- <-]. cbn [negb] in H.
  destruct (if old =? 0 then _ else _) as [u2 []] in H; [|by injection H as <- <- <- <-]. cbn [negb] in H. cbv zeta in H. destruct (set =? 0); [by injection H as <- <- <- <-|].
  destruct (how =? LINUX_SIG_BLOCK); [by injection H as <- <- <- <-|]. destruct (how =? LINUX_SIG_UNBLOCK); [by injection H as <- <- <- <-|]. destruct (how =? LINUX_SIG_SETMASK); by injection H as <- <- <- <-.
Qed.

Lemma action_never_caught u m t sig a old size u' m' t' r : sys_rt_sigaction u m t sig a old size = (u', m', t', r) -> never_caught t -> never_caught t'.
Proof.
  intros H Hc. unfold sys_rt_sigaction in H. destruct (_ || _) eqn:E in H; [by injection H as <- <- <- <-|]. apply orb_false_iff in E as [E _]. apply orb_false_iff in E as [E _]. apply orb_false_iff in E as [_ E].
  destruct (_ && _) eqn:Ek in H; [by injection H as <- <- <- <-|]. destruct (if a =? 0 then _ else _) as [u1 []]; [|by injection H as <- <- <- <-]. cbn [negb] in H. destruct (if old =? 0 then _ else _) as [u2 []] in H; [|by injection H as <- <- <- <-]. cbn [negb] in H. cbv zeta in H.
  injection H as <- <- <- <-. destruct (a =? 0); [done|]. cbn [negb andb] in Ek. apply orb_false_iff in Ek as [K1 K2]. unfold LINUX_SIGKILL, LINUX_SIGSTOP in *. zbool. destruct Hc as [H1 H2]. set (b := Action _ _ _ _).
  split; [destruct (action_of_insert t (Z.to_nat (sig - 1)) b LINUX_SIGKILL) as [E'|[E' _]]|destruct (action_of_insert t (Z.to_nat (sig - 1)) b LINUX_SIGSTOP) as [E'|[E' _]]];
    unfold LINUX_SIGKILL, LINUX_SIGSTOP in *; first [by rewrite E'|exfalso; lia].
Qed.

Lemma sig_step_ok m t m' t' : sig_step m t m' t' -> task_ok t /\ mem_ok m /\ never_caught t -> task_ok t' /\ mem_ok m' /\ never_caught t'.
Proof.
  intros Hstep (Ht & Hm & Hc). destruct Hstep as [m t m' t' Hm' E1 E2 E3 E4 E5|m t cur sig t' r E|m t t' E|u m t f u' m' t' f' E|u m t r u' m' t' f' E|u m t f u' m' t' f' E|u m t how set old size u' m' t' r E|u m t sig a old size u' m' t' r E].
  - split; [|split; [done|by apply (never_caught_same t)]]. destruct Ht as [T1 T2 T3 T4 T5]. split; [by rewrite E1|by rewrite E2|by rewrite E2|by rewrite E3|done].
  - pose proof (send_keeps t cur sig Ht) as H. rewrite E in H. split; [done|]. split; [done|by eapply send_never_caught].
  - pose proof (child_keeps t Ht) as H. rewrite E in H. split; [done|]. split; [done|by eapply child_never_caught].
  - pose proof (deliver_keeps u m t f 0 0 Ht Hm) as H. pose proof (deliver_never_caught u m t (regs_to_sc f 0 0) Ht Hc) as H'. unfold signal_deliver_syscall in E. destruct (deliver u m t _); [|done|]; injection E as <- <- <- <-; by destruct H.
  - pose proof (deliver_keeps u m t (regs r) (err_code r) (int_num r) Ht Hm) as H. pose proof (deliver_never_caught u m t (regs_to_sc (regs r) (err_code r) (int_num r)) Ht Hc) as H'.
    unfold signal_deliver_irq in E. destruct (negb _); [by injection E as <- <- <- <-|]. destruct (deliver u m t _); [|done|]; injection E as <- <- <- <-; by destruct H.
  - pose proof (sigreturn_keeps u m t f Ht Hm) as H. rewrite E in H. destruct H as [H1 H2]. split; [done|]. split; [done|by eapply return_never_caught].
  - pose proof (sigprocmask_keeps u m t how set old size Ht Hm) as H. rewrite E in H. destruct H as [H1 H2]. split; [done|]. split; [done|by eapply mask_never_caught].
  - pose proof (sigaction_keeps u m t sig a old size Ht Hm) as H. rewrite E in H. destruct H as [H1 H2]. split; [done|]. split; [done|by eapply action_never_caught].
Qed.

Lemma sig_steps_ok m t m' t' : sig_steps m t m' t' -> task_ok t /\ mem_ok m /\ never_caught t -> task_ok t' /\ mem_ok m' /\ never_caught t'.
Proof. induction 1 as [|m t m1 t1 m2 t2 Hs _ IH]; [done|]. intros H. by apply IH, (sig_step_ok m t). Qed.

End Claims.

(** ** A program with a handler *)
Module Program.
(** User memory that is mapped throughout. *)
#[local] Instance flat_ranges : UserRanges unit := fun u p n _ => (u, (USER_VA_MIN <=? p) && (p + n <=? USER_STACK_TOP)).
#[local] Instance flat_ranges_laws : UserRangesLaws unit.
Proof. split. intros u p n w u' _ _ _ [= _ H]. apply andb_true_iff in H as [H1 H2]. zbool. lia. Qed.

(** Signal 10 has a handler and is pending. *)
Definition usr1 : task_signal_action := Action (USER_VA_MIN + 0x100) LINUX_SA_RESTORER (USER_VA_MIN + 0x200) (SIG_BIT 12).
Definition program : task := Task true true false TASK_RUNNING false false (SIG_BIT 10) (SIG_BIT 3) (<[9%nat := usr1]> (replicate 64 no_action)) (replicate 512 0).
Definition at_call : interrupt_frame := InterruptFrame (SyscallFrame 15 14 13 12 11 3 5 10 9 8 2 4 6 7 1 (USER_VA_MIN + 0x40) 0x23 0x202 (USER_VA_MIN + 0x10010) 0x1B) 0 0.
Definition zeroes : memory := fun _ => 0.
Definition handled : outcome := signal_deliver_syscall tt zeroes program (regs at_call).
Definition memory_of (o : outcome (U:=unit)) : memory := match o with Continues _ m _ _ => m | Exits _ => zeroes end.
Definition task_of (o : outcome (U:=unit)) : task := match o with Continues _ _ t _ => t | Exits _ => program end.
Definition regs_of (o : outcome (U:=unit)) : syscall_frame := match o with Continues _ _ _ f => f | Exits _ => regs at_call end.

Lemma program_ok : task_ok program.
Proof.
  split; cbn [program sig_pending sig_blocked signal_actions user_fx].
  - by apply SIG_BIT_u64.
  - by apply SIG_BIT_u64.
  - reflexivity.
  - split; [reflexivity|]. apply Forall_insert; [apply Forall_replicate|]; (split; [|split; [|split]]); cbn [no_action usr1 handler sa_flags restorer mask]; try (by apply SIG_BIT_u64); unfold is_u64, USER_VA_MIN, LINUX_SA_RESTORER; lia.
  - split; [reflexivity|]. apply Forall_replicate. lia.
Qed.

Lemma at_call_ok : frame_ok at_call.
Proof. split; [|split; unfold is_u64; cbn; lia]. unfold regs_ok, USER_VA_MIN. cbn. repeat (apply Forall_cons_2; [unfold is_u64, USER_VA_MIN; lia|]). constructor. Qed.

Lemma handled_redirected : redirected tt zeroes program at_call tt (memory_of handled) (task_of handled) (regs_of handled).
Proof. split; [left; reflexivity|]. vm_compute. discriminate. Qed.

Lemma signal_entry_safe_witness : exists sig, rip (regs_of handled) = handler (action_of program sig) /\ rdi (regs_of handled) = sig /\ (rsp (regs_of handled) + 8) mod 16 = 0 /\ Z.land (sig_blocked (task_of handled)) SIG_UNBLOCKABLE = 0.
Proof.
  destruct (signal_entry_safe tt zeroes program at_call tt (memory_of handled) (task_of handled) (regs_of handled) program_ok at_call_ok handled_redirected) as (sig & _ & _ & _ & H1 & _ & H2 & _ & _ & _ & _ & _ & _ & H3 & _ & _ & _ & H4).
  exists sig. exact (conj H1 (conj H2 (conj H3 H4))).
Defined.

(** The handler pushed three bytes, changed every register and returned to the restorer. *)
Definition frame : Z := 68536.
Definition after : memory := poke (memory_of handled) (frame - 3) [1; 2; 3].
Definition at_return : syscall_frame := SyscallFrame 0 0 0 0 0 0 0 0 0 0 0 0 0 0 15 (USER_VA_MIN + 0x200) 0x23 0x202 (frame + 8) 0x1B.

Lemma signal_roundtrip_witness : exists fx, signal_sigreturn tt after (task_of handled) at_return =
    Continues tt after (set_signals (set_fx (task_of handled) fx) (sig_pending (task_of handled)) (SIG_BIT 3)) (regs at_call) /\ (le_value (bytes_at (user_fx program) MXCSR_OFFSET 4) <= MXCSR_VALID -> fx = user_fx program).
Proof.
  apply (signal_roundtrip tt zeroes program at_call tt (memory_of handled) (task_of handled) (regs_of handled) tt after (task_of handled) at_return tt tt program_ok at_call_ok handled_redirected).
  - reflexivity.
  - reflexivity.
  - reflexivity.
  - reflexivity.
  - intros x Hx. apply poke_out. replace (fx_va (rsp (regs at_call))) with 68992 in Hx by reflexivity. change (rsp at_return) with (68536 + 8) in Hx. change (zlen [1; 2; 3]) with 3. unfold frame. lia.
  - reflexivity.
  - reflexivity.
Defined.

Lemma never_caught_program : never_caught program.
Proof. split; reflexivity. Qed.

Lemma zeroes_ok : mem_ok zeroes.
Proof. intros x. unfold zeroes. lia. Qed.

End Program.
