(* ===== verification/Vfs.v ===== *)
(** The file system switch, [kernel/fs/vfs/] ([vfs.c], [namei.c], [file.c], [internal.h], [vfs.h]).

    Every call of the switch runs under the lock of [VfsGate], so it is one step.  Inodes are
    heap objects shared by reference count; a use of one that is not allocated, or of a table that
    is not there, is a [fault].  The list of the inodes of a superblock and the chain of directory entries of a
    lookup are lists of heap addresses.  Paths and names are C strings without their terminator.
    Null pointers are [0]; the caller's own pointers are not null.

    What the file systems do is a parameter, the class [Backend]: a pointer to an operation table
    selects the operations, which may be missing.  An operation that returns an
    inode says which one it passes to [vfs_inode_get]; if that has no memory
    the operation fails, as the contract in [vfs.h] asks.  Data private to a
    superblock is part of the state [W] of the file systems.  Directories are finite: [dir_left]
    bounds the entries listed from a position on. *)
From S2P Require Import Prelude Alloc.

Definition VFS_PATH_MAX : Z := 260.
Definition VFS_NAME_MAX : Z := 255.
Definition VFS_MAX_FILESYSTEMS : nat := 8.
Definition VFS_MAX_MOUNTS : nat := 8.
Definition VFS_NODE_FILE : Z := 1.
Definition VFS_NODE_DIRECTORY : Z := 2.
Definition SLASH : Z := 47.
Definition DOT : Z := 46.
Definition sizeof_inode : Z := 64.
Definition sizeof_dentry : Z := 32.

(** ** Objects *)
Record vfs_stat := Stat { st_size : Z; st_inode : Z; st_blocks : Z; st_block_size : Z; st_mode : Z; st_type : Z; st_attributes : Z }.
Record vfs_dirent := Dirent { de_inode : Z; de_type : Z; de_name : list Z }.
Definition zero_dirent : vfs_dirent := Dirent 0 0 [].

(** [struct vfs_inode] but for its count and its link: what identifies it to a file system.  The superblock is a slot of the mount table. *)
Record vnode := Node { super : nat; number : Z; type : Z; private_data : Z; operations : Z; file_operations : Z }.
Record vfs_inode := Inode { node : vnode; references : Z }.

Record vfs_superblock := Superblock { filesystem : Z; root : Z; s_inodes : list Z; open_files : Z; device_context : Z }.
Record vfs_mount := Mount { mpath : list Z; msuper : vfs_superblock }.
Definition zero_super : vfs_superblock := Superblock 0 0 [] 0 0.
Definition zero_mount : vfs_mount := Mount [] zero_super.

Record vfs_file := File { fmount : nat; fnode : Z; fprivate : Z; position : Z; fsize : Z; finode : Z; ftype : Z; fattributes : Z }.
Definition zero_file : vfs_file := File 0 0 0 0 0 0 0 0.

Record vfs_dentry := Dentry { d_addr : Z; d_inode : Z; d_mount : nat; path_length : Z }.
(** The chain, the last entry first. *)
Record vfs_path := Path { entry : list vfs_dentry; pname : list Z }.

(** ** File systems *)
Class Backend (W : Type) := {
  fs_name : Z -> list Z;
  fs_probe : Z -> option (W -> Z -> Z -> Z);
  fs_mount : Z -> option (W -> nat -> Z -> Z -> (Z * option vnode) * W);
  fs_attach : Z -> option (W -> nat -> Z -> (Z * option vnode) * W);
  fs_unmount : Z -> option (W -> nat -> W);
  fs_sync : Z -> option (W -> nat -> Z * W);
  fs_statfs : Z -> option (W -> nat -> (Z * Z * Z) * W);
  block_context : Z -> Z;                                               (* block_device.context *)
  op_lookup : Z -> option (W -> vnode -> list Z -> option vnode * W);
  op_create : Z -> option (W -> vnode -> list Z -> option vnode * W);
  create_undo : W -> vnode -> list Z -> W;                              (* when no inode can be had *)
  op_mkdir : Z -> option (W -> vnode -> list Z -> Z * W);
  op_unlink : Z -> option (W -> vnode -> list Z -> Z * W);
  op_rmdir : Z -> option (W -> vnode -> list Z -> Z * W);
  op_getattr : Z -> option (W -> vnode -> (Z * vfs_stat) * W);
  op_truncate : Z -> option (W -> vnode -> Z * W);
  op_setmode : Z -> option (W -> vnode -> Z -> Z * W);
  fo_open : Z -> option (W -> vnode -> vfs_file -> (Z * Z) * W);        (* result, private data *)
  fo_release : Z -> option (W -> vnode -> vfs_file -> W);
  fo_read : Z -> option (W -> vnode -> vfs_file -> Z -> (list Z * Z) * W);   (* bytes, position *)
  fo_write : Z -> option (W -> vnode -> vfs_file -> list Z -> (Z * Z) * W);
  fo_seek : Z -> option (W -> vnode -> vfs_file -> Z -> (Z * Z) * W);
  fo_iterate : Z -> option (W -> vnode -> Z -> (Z * Z * vfs_dirent) * W);    (* result, cookie, entry *)
  dir_left : W -> vnode -> Z -> nat;
}.

(** ** State *)
Record vfs (A W : Type) := Vfs { filesystems : list Z; mounts : list vfs_mount; inodes : gmap Z vfs_inode; heap : A; disk : W }.
Arguments Vfs {A W}.
Arguments filesystems {A W}.
Arguments mounts {A W}.
Arguments inodes {A W}.
Arguments heap {A W}.
Arguments disk {A W}.

(** A computation on the state; [None] is a use of memory that is not the object it is used as. *)
Definition M (A W X : Type) := vfs A W -> option (X * vfs A W).
#[export] Instance M_ret A W : MRet (M A W) := fun X x s => Some (x, s).
#[export] Instance M_bind A W : MBind (M A W) := fun X Y k m s => match m s with Some (x, s) => k x s | None => None end.

Section Switch.
Context {A W : Type} `{!AllocOps A, !Backend W}.
Abbreviation M := (M A W).

Definition fault {X} : M X := fun _ => None.
Definition gets {X} (f : vfs A W -> X) : M X := fun s => Some (f s, s).
Definition backend {X} (f : W -> X * W) : M X := fun s => let '(x, w) := f (disk s) in Some (x, Vfs (filesystems s) (mounts s) (inodes s) (heap s) w).
Definition heap_alloc (n : Z) : M Z := fun s => let '(p, h) := al_malloc (heap s) n in Some (p, Vfs (filesystems s) (mounts s) (inodes s) h (disk s)).
Definition heap_free (p : Z) : M unit := fun s => Some (tt, Vfs (filesystems s) (mounts s) (inodes s) (al_free (heap s) p) (disk s)).
Definition inode_at (a : Z) : M vfs_inode := fun s => match inodes s !! a with Some i => Some (i, s) | None => None end.
Definition set_inodes (f : gmap Z vfs_inode -> gmap Z vfs_inode) : M unit := fun s => Some (tt, Vfs (filesystems s) (mounts s) (f (inodes s)) (heap s) (disk s)).
Definition mount_at (j : nat) : M vfs_mount := fun s => match mounts s !! j with Some m => Some (m, s) | None => None end.
Definition set_mount (j : nat) (m : vfs_mount) : M unit := fun s => Some (tt, Vfs (filesystems s) (<[j := m]> (mounts s)) (inodes s) (heap s) (disk s)).
Definition set_mounts (l : list vfs_mount) : M unit := fun s => Some (tt, Vfs (filesystems s) l (inodes s) (heap s) (disk s)).
Definition set_filesystems (l : list Z) : M unit := fun s => Some (tt, Vfs l (mounts s) (inodes s) (heap s) (disk s)).

(** A field of the table at [o] is read. *)
Definition deref (o : Z) : M unit := if o =? 0 then fault else mret tt.

Definition super_at (j : nat) : M vfs_superblock := m ← mount_at j; mret (msuper m).
Definition set_super (j : nat) (sb : vfs_superblock) : M unit := m ← mount_at j; set_mount j (Mount (mpath m) sb).
Definition with_inodes (sb : vfs_superblock) (l : list Z) : vfs_superblock := Superblock (filesystem sb) (root sb) l (open_files sb) (device_context sb).
Definition with_open (sb : vfs_superblock) (n : Z) : vfs_superblock := Superblock (filesystem sb) (root sb) (s_inodes sb) n (device_context sb).
Definition with_root (sb : vfs_superblock) (r : Z) : vfs_superblock := Superblock (filesystem sb) r (s_inodes sb) (open_files sb) (device_context sb).

(** ** Inode references, [vfs.c] *)
Definition vfs_inode_ref (a : Z) : M Z :=
  if a =? 0 then mret 0 else
  i ← inode_at a;
  _ ← set_inodes <[a := Inode (node i) (u32 (references i + 1))]>;
  mret a.

Fixpoint unlink_inode (a : Z) (l : list Z) : option (list Z) :=
  match l with
  | [] => None
  | b :: l => if b =? a then Some l else r ← unlink_inode a l; Some (b :: r)
  end.

Definition vfs_inode_put (a : Z) : M unit :=
  if a =? 0 then mret tt else
  i ← inode_at a;
  let n := u32 (references i - 1) in
  if negb (n =? 0) then set_inodes <[a := Inode (node i) n]> else
  sb ← super_at (super (node i));
  match unlink_inode a (s_inodes sb) with
  | None => fault
  | Some l =>
      _ ← set_super (super (node i)) (with_inodes sb l);
      _ ← set_inodes (delete a);
      heap_free a
  end.

Fixpoint find_inode (l : list Z) (n : Z) : M Z :=
  match l with
  | [] => mret 0
  | a :: l => i ← inode_at a; if number (node i) =? n then mret a else find_inode l n
  end.

Definition vfs_inode_get (v : vnode) : M Z :=
  sb ← super_at (super v);
  a ← find_inode (s_inodes sb) (number v);
  if negb (a =? 0) then vfs_inode_ref a else
  a ← heap_alloc sizeof_inode;
  if a =? 0 then mret 0 else
  _ ← set_inodes <[a := Inode v 1]>;
  _ ← set_super (super v) (with_inodes sb (a :: s_inodes sb));
  mret a.

(** The [lookup] and [create] of the file system of [dir]: the new reference, or [0] if it fails. *)
Definition call_lookup (f : W -> vnode -> list Z -> option vnode * W) (dir : vnode) (name : list Z) : M Z :=
  r ← backend (fun w => f w dir name);
  match r with
  | Some v => vfs_inode_get (Node (super dir) (number v) (type v) (private_data v) (operations v) (file_operations v))
  | None => mret 0
  end.
Definition call_create (f : W -> vnode -> list Z -> option vnode * W) (dir : vnode) (name : list Z) : M Z :=
  r ← backend (fun w => f w dir name);
  match r with
  | Some v =>
      a ← vfs_inode_get (Node (super dir) (number v) (type v) (private_data v) (operations v) (file_operations v));
      if a =? 0 then backend (fun w => (0, create_undo w dir name)) else mret a
  | None => mret 0
  end.

(** ** Mount table, [vfs.c] *)
Definition live (m : vfs_mount) : bool := negb (filesystem (msuper m) =? 0).

Fixpoint find_slot (p : vfs_mount -> bool) (l : list vfs_mount) (j : nat) : option nat :=
  match l with
  | [] => None
  | m :: l => if p m then Some j else find_slot p l (S j)
  end.
Definition vfs_find_mount (path : list Z) : M (option nat) := gets (fun s => find_slot (fun m => live m && bool_decide (mpath m = path)) (mounts s) 0).

(** [strncmp(a, b, strlen(b)) == 0] *)
Definition starts_with (a b : list Z) : bool := bool_decide (take (length b) a = b).

Definition vfs_mount_contains (path : list Z) : M bool :=
  gets (fun s => existsb (fun m => live m && starts_with (mpath m) path &&
    ((zlen path =? 1) || (rd (mpath m) (zlen path) =? 0) || (rd (mpath m) (zlen path) =? SLASH))) (mounts s)).

Definition mount_child_name (parent mounted : list Z) : option (list Z) :=
  let name child := if (zlen child =? 0) || (zlen child >? VFS_NAME_MAX) || bool_decide (SLASH ∈ child) then None else Some child in
  if bool_decide (parent = [SLASH]) then name (drop 1 mounted) else
  if negb (starts_with mounted parent) || negb (rd mounted (zlen parent) =? SLASH) then None else
  name (drop (S (length parent)) mounted).

Fixpoint mount_child_loop (l : list vfs_mount) (parent : list Z) (seen index : Z) : option (Z * list Z) :=
  match l with
  | [] => None
  | m :: l =>
      match (if live m then mount_child_name parent (mpath m) else None) with
      | None => mount_child_loop l parent seen index
      | Some name => if negb (seen =? index) then mount_child_loop l parent (u32 (seen + 1)) index else Some (u32 (seen + 1), name)
      end
  end.
(** The cookie and the entry, when there is one. *)
Definition vfs_mount_child (parent : list Z) (index : Z) : M (option (Z * vfs_dirent)) :=
  gets (fun s => r ← mount_child_loop (mounts s) parent 0 index; Some (r.1, Dirent 0 VFS_NODE_DIRECTORY r.2)).

Definition vfs_mount_child_named (parent name : list Z) : M bool :=
  gets (fun s => existsb (fun m => live m && bool_decide (mount_child_name parent (mpath m) = Some name)) (mounts s)).

(** ** Paths, [namei.c] *)

(** The length, or the error. *)
Definition vfs_path_length (path : list Z) : Z :=
  if negb (rd path 0 =? SLASH) then - EINVAL else if zlen path <? VFS_PATH_MAX then zlen path else - ENAMETOOLONG.

(** The characters up to the next slash. *)
Fixpoint component (l : list Z) : list Z :=
  match l with
  | [] => []
  | c :: l => if c =? SLASH then [] else c :: component l
  end.

Definition is_dot (name : list Z) : bool := bool_decide (name = [DOT]).
Definition is_dotdot (name : list Z) : bool := bool_decide (name = [DOT; DOT]).

(** From [vfs.c]: slashes are normalised, dot components refused. *)
Fixpoint mount_name_loop (fuel : nat) (rest out : list Z) : option (list Z) :=
  match fuel, rest with
  | O, _ => None
  | _, [] => Some out
  | S fuel, c :: rest' =>
      if c =? SLASH then mount_name_loop fuel rest' out else
      let name := component rest in
      if (zlen name >? VFS_NAME_MAX) || is_dot name || is_dotdot name then None else
      mount_name_loop fuel (drop (length name) rest) (out ++ (if zlen out >? 1 then [SLASH] else []) ++ name)
  end.
Definition mount_name (path : list Z) : option (list Z) :=
  if vfs_path_length path <? 0 then None else mount_name_loop (S (length path)) (drop 1 path) [SLASH].

Definition pop_entry (p : vfs_path) : M vfs_path :=
  match entry p with
  | [] => fault
  | e :: parents =>
      _ ← vfs_inode_put (d_inode e);
      _ ← heap_free (d_addr e);
      mret (Path parents (take (match parents with d :: _ => Z.to_nat (path_length d) | [] => 0%nat end) (pname p)))
  end.

Fixpoint put_entries (l : list vfs_dentry) : M unit :=
  match l with
  | [] => mret tt
  | e :: l => _ ← vfs_inode_put (d_inode e); _ ← heap_free (d_addr e); put_entries l
  end.
Definition vfs_path_put (p : vfs_path) : M unit := put_entries (entry p).

(** The error and the path. *)
Definition push_entry (p : vfs_path) (inode : Z) (mount : nat) : M (Z * vfs_path) :=
  a ← heap_alloc sizeof_dentry;
  if a =? 0 then _ ← vfs_inode_put inode; mret (- ENOMEM, p) else
  mret (0, Path (Dentry a inode mount (zlen (pname p)) :: entry p) (pname p)).

(** The name of a child: [path] up to [at], a slash where needed and [name]; [None] if it does not fit. *)
Definition child_name (path : list Z) (at_ : Z) (name : list Z) : M (option (list Z)) :=
  if (at_ >? 1) && (at_ >=? VFS_PATH_MAX) then fault else
  let prefix := take (Z.to_nat at_) path ++ (if at_ >? 1 then [SLASH] else []) in
  let at_ := if at_ >? 1 then at_ + 1 else at_ in
  if zlen name >=? u64 (VFS_PATH_MAX - at_) then mret None else mret (Some (prefix ++ name)).

(** One component that is neither empty nor a dot, below the entry [e] of the directory [dir]. *)
Definition lookup_component (out : vfs_path) (e : vfs_dentry) (dir : vnode) (name : list Z) : M (Z * vfs_path) :=
  c ← child_name (pname out) (path_length e) name;
  match c with
  | None => mret (- ENAMETOOLONG, out)
  | Some path =>
      let out := Path (entry out) path in
      mount ← vfs_find_mount path;
      match mount with
      | Some j =>
          sb ← super_at j;
          child ← vfs_inode_ref (root sb);
          if child =? 0 then mret (- EIO, out) else push_entry out child j
      | None =>
          _ ← deref (operations dir);
          match op_lookup (operations dir) with
          | None => mret (- EIO, out)
          | Some f => child ← call_lookup f dir name; if child =? 0 then mret (- ENOENT, out) else push_entry out child (d_mount e)
          end
      end
  end.

Fixpoint lookup_loop (fuel : nat) (rest : list Z) (out : vfs_path) : M (Z * vfs_path) :=
  match fuel, rest with
  | O, _ => fault
  | _, [] => mret (0, out)
  | S fuel, c :: rest' =>
      if c =? SLASH then lookup_loop fuel rest' out else
      match entry out with
      | [] => fault
      | e :: parents =>
          dir ← inode_at (d_inode e);
          if negb (type (node dir) =? VFS_NODE_DIRECTORY) then mret (- ENOTDIR, out) else
          let name := component rest in
          let rest := drop (length name) rest in
          if zlen name >? VFS_NAME_MAX then mret (- ENAMETOOLONG, out) else
          if is_dot name then lookup_loop fuel rest out else
          if is_dotdot name then
            match parents with [] => lookup_loop fuel rest out | _ => out ← pop_entry out; lookup_loop fuel rest out end
          else
            r ← lookup_component out e (node dir) name;
            if negb (r.1 =? 0) then mret r else lookup_loop fuel rest r.2
      end
  end.

(** The inode of the last entry. *)
Definition path_inode (p : vfs_path) : M vfs_inode := match entry p with [] => fault | e :: _ => inode_at (d_inode e) end.

Definition vfs_lookup (path : list Z) : M (Z * vfs_path) :=
  rt ← vfs_find_mount [SLASH];
  match rt with
  | None => mret (- ENODEV, Path [] [])
  | Some j =>
      let length := vfs_path_length path in
      if length <? 0 then mret (length, Path [] []) else
      sb ← super_at j;
      a ← vfs_inode_ref (root sb);
      r ← push_entry (Path [] [SLASH]) a j;
      if negb (r.1 =? 0) then mret r else
      r ← lookup_loop (S (List.length path)) (drop 1 path) r.2;
      if negb (r.1 =? 0) then _ ← vfs_path_put r.2; mret (r.1, Path [] []) else
      i ← path_inode r.2;
      if (rd path (length - 1) =? SLASH) && negb (type (node i) =? VFS_NODE_DIRECTORY)
      then _ ← vfs_path_put r.2; mret (- ENOTDIR, Path [] []) else mret r
  end.

(** [while (length > 1 && path[length - 1] == '/') length--] *)
Fixpoint trim_length (path : list Z) (length : nat) : nat :=
  match length with
  | S (S _ as n) => if rd path (Z.of_nat n) =? SLASH then trim_length path n else length
  | _ => length
  end.
(** [while (start && path[start - 1] != '/') start--] *)
Fixpoint name_start (path : list Z) (start : nat) : nat :=
  match start with
  | S n => if negb (rd path (Z.of_nat n) =? SLASH) then name_start path n else start
  | O => O
  end.

(** The error, the directory with the path of the name, the name and whether slashes follow it. *)
Definition vfs_lookup_parent (path : list Z) : M (Z * vfs_path * list Z * bool) :=
  let length := vfs_path_length path in
  if length <? 0 then mret (length, Path [] [], [], false) else
  let trailing := rd path (length - 1) =? SLASH in
  let length := trim_length path (Z.to_nat length) in
  let start := name_start path length in
  let name := take (length - start) (drop start path) in
  if (zlen name =? 0) || (zlen name >? VFS_NAME_MAX) then mret (- EINVAL, Path [] [], name, trailing) else
  if is_dot name || is_dotdot name then mret (- EINVAL, Path [] [], name, trailing) else
  r ← vfs_lookup (take start path);
  let '(result, parent) := r in
  if negb (result =? 0) then mret (result, parent, name, trailing) else
  dir ← path_inode parent;
  let fail (e : Z) : M (Z * vfs_path * list Z * bool) := _ ← vfs_path_put parent; mret (e, Path [] [], name, trailing) in
  if negb (type (node dir) =? VFS_NODE_DIRECTORY) then fail (- ENOTDIR) else
  c ← child_name (pname parent) (zlen (pname parent)) name;
  match c with
  | None => fail (- ENAMETOOLONG)
  | Some full =>
      busy ← vfs_mount_contains full;
      if (busy : bool) then fail (- EBUSY) else mret (0, Path (entry parent) full, name, trailing)
  end.

Definition zero_stat : vfs_stat := Stat 0 0 0 0 0 0 0.
Definition vfs_getattr (i : vnode) : M (Z * vfs_stat) :=
  if operations i =? 0 then mret (- EIO, zero_stat) else
  match op_getattr (operations i) with
  | None => mret (- EIO, zero_stat)
  | Some f => r ← backend (fun w => f w i); mret (if r.1 =? 0 then 0 else - EIO, r.2)
  end.

Definition vfs_stat_path (path : list Z) : M (Z * vfs_stat) :=
  r ← vfs_lookup path;
  if negb (r.1 =? 0) then mret (r.1, zero_stat) else
  i ← path_inode r.2;
  g ← vfs_getattr (node i);
  _ ← vfs_path_put r.2;
  mret g.

Definition setmode_locked (i : vnode) (permissions : Z) : M Z :=
  if operations i =? 0 then mret (- EPERM) else
  match op_setmode (operations i) with
  | None => mret (- EPERM)
  | Some f => r ← backend (fun w => f w i (Z.land permissions 0xFFF)); mret (if r =? 0 then 0 else - EIO)
  end.

Definition vfs_chmod (path : list Z) (permissions : Z) : M Z :=
  r ← vfs_lookup path;
  if negb (r.1 =? 0) then mret r.1 else
  i ← path_inode r.2;
  g ← setmode_locked (node i) permissions;
  _ ← vfs_path_put r.2;
  mret g.

Definition vfs_file_chmod (file : vfs_file) (permissions : Z) : M Z :=
  if fnode file =? 0 then mret (- EBADF) else
  i ← inode_at (fnode file);
  setmode_locked (node i) permissions.

Inductive name_operation := CREATE_DIRECTORY | REMOVE_FILE | REMOVE_DIRECTORY.

(** Only dot entries continue the loop. *)
Fixpoint has_entries_loop (fuel : nat) (f : W -> vnode -> Z -> (Z * Z * vfs_dirent) * W) (dir : vnode) (index : Z) : M Z :=
  match fuel with
  | O => fault
  | S fuel =>
      r ← backend (fun w => f w dir index);
      let '(rc, index, entry) := r in
      if rc =? 0 then mret 0 else
      if rc <? 0 then mret (- EIO) else
      if negb (is_dot (de_name entry)) && negb (is_dotdot (de_name entry)) then mret 1 else
      has_entries_loop fuel f dir index
  end.
Definition directory_has_entries (dir : vnode) : M Z :=
  match (if file_operations dir =? 0 then None else fo_iterate (file_operations dir)) with
  | None => mret 0
  | Some f => n ← gets (fun s => dir_left (disk s) dir 0); has_entries_loop (S n) f dir 0
  end.

(** A missing operation leaves [- EROFS]. *)
Definition call_name (f : option (W -> vnode -> list Z -> Z * W)) (dir : vnode) (name : list Z) : M Z :=
  match f with
  | None => mret (- EROFS)
  | Some f => r ← backend (fun w => f w dir name); mret (if r =? 0 then 0 else - EIO)
  end.
Definition target_of (dir : vnode) (name : list Z) : M Z :=
  match op_lookup (operations dir) with None => mret 0 | Some f => call_lookup f dir name end.

(** What is done about the target once it is known. *)
Definition change_target (operation : name_operation) (dir : vnode) (name : list Z) (trailing : bool) (target : Z) : M Z :=
  match operation with
  | CREATE_DIRECTORY => if negb (target =? 0) then mret (- EEXIST) else call_name (op_mkdir (operations dir)) dir name
  | REMOVE_FILE =>
      if target =? 0 then mret (- ENOENT) else
      i ← inode_at target;
      if negb (references i =? 1) then mret (- EBUSY) else
      if trailing || (type (node i) =? VFS_NODE_DIRECTORY) then mret (- EISDIR) else
      if negb (type (node i) =? VFS_NODE_FILE) then mret (- EINVAL) else
      call_name (op_unlink (operations dir)) dir name
  | REMOVE_DIRECTORY =>
      if target =? 0 then mret (- ENOENT) else
      i ← inode_at target;
      if negb (references i =? 1) then mret (- EBUSY) else
      if negb (type (node i) =? VFS_NODE_DIRECTORY) then mret (- ENOTDIR) else
      occupied ← directory_has_entries (node i);
      if negb (occupied =? 0) then mret (if occupied <? 0 then occupied else - ENOTEMPTY) else
      call_name (op_rmdir (operations dir)) dir name
  end.

Definition change_name (path : list Z) (operation : name_operation) : M Z :=
  r ← vfs_lookup_parent path;
  let '(result, parent, name, trailing) := r in
  if negb (result =? 0) then mret result else
  dir ← path_inode parent;
  _ ← deref (operations (node dir));
  target ← target_of (node dir) name;
  result ← change_target operation (node dir) name trailing target;
  _ ← vfs_inode_put target;
  _ ← vfs_path_put parent;
  mret result.

Definition vfs_mkdir (path : list Z) : M Z := change_name path CREATE_DIRECTORY.
Definition vfs_unlink (path : list Z) : M Z := change_name path REMOVE_FILE.
Definition vfs_rmdir (path : list Z) : M Z := change_name path REMOVE_DIRECTORY.

(** ** Files, [file.c] *)
Definition with_stat (file : vfs_file) (st : vfs_stat) : vfs_file :=
  File (fmount file) (fnode file) (fprivate file) (position file) (st_size st) (st_inode st) (st_type st) (st_attributes st).
Definition with_position (file : vfs_file) (n : Z) : vfs_file :=
  File (fmount file) (fnode file) (fprivate file) n (fsize file) (finode file) (ftype file) (fattributes file).

(** The error, the file with its snapshots renewed and the status. *)
Definition file_stat_locked (file : vfs_file) : M (Z * vfs_file * vfs_stat) :=
  if fnode file =? 0 then mret (- EINVAL, file, zero_stat) else
  i ← inode_at (fnode file);
  r ← vfs_getattr (node i);
  if negb (r.1 =? 0) then mret (- EIO, file, r.2) else mret (0, with_stat file r.2, r.2).
Definition refresh_file (file : vfs_file) : M vfs_file := r ← file_stat_locked file; mret r.1.2.
Definition vfs_file_stat (file : vfs_file) : M (Z * vfs_file * vfs_stat) := file_stat_locked file.

Definition close_locked (file : vfs_file) : M vfs_file :=
  if fnode file =? 0 then mret zero_file else
  i ← inode_at (fnode file);
  _ ← match (if file_operations (node i) =? 0 then None else fo_release (file_operations (node i))) with
      | Some f => backend (fun w => (tt, f w (node i) file))
      | None => mret tt
      end;
  sb ← super_at (super (node i));
  _ ← set_super (super (node i)) (with_open sb (u32 (open_files sb - 1)));
  _ ← vfs_inode_put (fnode file);
  mret zero_file.
Definition vfs_close (file : vfs_file) : M vfs_file := close_locked file.

(** The result of [open] and the file with what it left in it. *)
Definition call_open (file : vfs_file) (i : vnode) : M (Z * vfs_file) :=
  match (if file_operations i =? 0 then None else fo_open (file_operations i)) with
  | Some f =>
      r ← backend (fun w => f w i file);
      mret (r.1, File (fmount file) (fnode file) r.2 (position file) (fsize file) (finode file) (ftype file) (fattributes file))
  | None => mret (0, file)
  end.

Definition open_inode (inode : Z) (mount : nat) : M (Z * vfs_file) :=
  i ← inode_at inode;
  sb ← super_at (super (node i));
  _ ← set_super (super (node i)) (with_open sb (u32 (open_files sb + 1)));
  o ← call_open (File mount inode 0 0 0 0 0 0) (node i);
  if negb (o.1 =? 0) then f ← close_locked o.2; mret (- EIO, f) else
  r ← file_stat_locked o.2;
  if negb (r.1.1 =? 0) then f ← close_locked r.1.2; mret (- EIO, f) else mret (0, r.1.2).

Definition vfs_open (path : list Z) : M (Z * vfs_file) :=
  r ← vfs_lookup path;
  if negb (r.1 =? 0) then mret (r.1, zero_file) else
  match entry r.2 with
  | [] => fault
  | e :: _ =>
      a ← vfs_inode_ref (d_inode e);
      o ← open_inode a (d_mount e);
      _ ← vfs_path_put r.2;
      mret o
  end.

Definition vfs_create (path : list Z) : M (Z * vfs_file) :=
  r ← vfs_lookup_parent path;
  let '(result, parent, name, trailing) := r in
  if negb (result =? 0) then mret (result, zero_file) else
  match entry parent with
  | [] => fault
  | e :: _ =>
      dir ← inode_at (d_inode e);
      o ← (if (trailing : bool) then mret (- ENOTDIR, zero_file) else
           _ ← deref (operations (node dir));
           match op_create (operations (node dir)) with
           | None => mret (- EROFS, zero_file)
           | Some f =>
               inode ← call_create f (node dir) name;
               if inode =? 0 then mret (- EROFS, zero_file) else
               o ← open_inode inode (d_mount e);
               match op_unlink (operations (node dir)) with
               | Some g => if negb (o.1 =? 0) then _ ← backend (fun w => g w (node dir) name); mret o else mret o
               | None => mret o
               end
           end);
      _ ← vfs_path_put parent;
      mret o
  end.

(** The operations of a file that is open and regular, with its inode. *)
Definition regular_ops (file : vfs_file) : M (option (Z * vnode)) :=
  if fnode file =? 0 then mret None else
  i ← inode_at (fnode file);
  mret (if (type (node i) =? VFS_NODE_FILE) && negb (file_operations (node i) =? 0) then Some (file_operations (node i), node i) else None).

(** The bytes read and the file. *)
Definition vfs_read (file : vfs_file) (length : Z) : M (list Z * vfs_file) :=
  ops ← regular_ops file;
  match ops with
  | Some (o, i) =>
      match fo_read o with
      | Some f =>
          if length =? 0 then mret ([], file) else
          r ← backend (fun w => f w i file length);
          file ← refresh_file (with_position file r.2);
          mret (r.1, file)
      | None => mret ([], file)
      end
  | None => mret ([], file)
  end.

Definition write_locked (file : vfs_file) (buffer : list Z) : M (Z * vfs_file) :=
  ops ← regular_ops file;
  match ops with
  | Some (o, i) =>
      match fo_write o with
      | Some f =>
          if zlen buffer =? 0 then mret (0, file) else
          r ← backend (fun w => f w i file buffer);
          file ← refresh_file (with_position file r.2);
          mret (r.1, file)
      | None => mret (0, file)
      end
  | None => mret (0, file)
  end.
Definition vfs_write (file : vfs_file) (buffer : list Z) : M (Z * vfs_file) := write_locked file buffer.

Definition vfs_append (file : vfs_file) (buffer : list Z) : M (Z * vfs_file) :=
  ops ← regular_ops file;
  match ops with
  | Some (o, i) =>
      match fo_write o, fo_seek o with
      | Some _, Some sk =>
          if zlen buffer =? 0 then mret (0, file) else
          r ← file_stat_locked file;
          let '(result, file, st) := r in
          if negb (result =? 0) then mret (0, file) else
          k ← backend (fun w => sk w i file (st_size st));
          let file := with_position file k.2 in
          if negb (k.1 =? 0) then mret (0, file) else write_locked file buffer
      | _, _ => mret (0, file)
      end
  | None => mret (0, file)
  end.

Definition vfs_seek (file : vfs_file) (pos : Z) : M (Z * vfs_file) :=
  ops ← regular_ops file;
  match ops with
  | Some (o, i) =>
      match fo_seek o with
      | Some sk =>
          k ← backend (fun w => sk w i file pos);
          file ← refresh_file (with_position file k.2);
          mret (if k.1 =? 0 then 0 else - EIO, file)
      | None => mret (- ESPIPE, file)
      end
  | None => mret (- ESPIPE, file)
  end.

Definition vfs_truncate (file : vfs_file) : M (Z * vfs_file) :=
  ops ← regular_ops file;
  match ops with
  | None => mret (- EISDIR, file)
  | Some (_, i) =>
      match (if operations i =? 0 then None else op_truncate (operations i)) with
      | None => mret (- EROFS, file)
      | Some f =>
          r ← backend (fun w => f w i);
          file ← refresh_file (if r =? 0 then with_position file 0 else file);
          mret (if r =? 0 then 0 else - EIO, file)
      end
  end.

(** ** Directories *)
Definition VFS_READDIR_MOUNT_PHASE : Z := 0x80000000.

(** The result, the cookie and the entry. *)
Definition iterate (dir : vnode) (index : Z) : M (Z * Z * vfs_dirent) :=
  if negb (type dir =? VFS_NODE_DIRECTORY) then mret (- ENOTDIR, index, zero_dirent) else
  match (if file_operations dir =? 0 then None else fo_iterate (file_operations dir)) with
  | None => mret (- EIO, index, zero_dirent)
  | Some f => r ← backend (fun w => f w dir index); mret (if r.1.1 <? 0 then - EIO else r.1.1, r.1.2, r.2)
  end.

Definition backing_has_child (dir : vnode) (name : list Z) : M bool :=
  if operations dir =? 0 then mret false else
  a ← target_of dir name;
  _ ← vfs_inode_put a;
  mret (negb (a =? 0)).

(** One pass per mount at most: each moves the index past another one. *)
Fixpoint virtual_mount_loop (fuel : nat) (path : list Z) (dir : vnode) (mount_index : Z) (out : vfs_dirent) : M (Z * Z * vfs_dirent) :=
  match fuel with
  | O => fault
  | S fuel =>
      r ← vfs_mount_child path mount_index;
      match r with
      | None => mret (0, Z.lor VFS_READDIR_MOUNT_PHASE mount_index, out)
      | Some (mount_index, out) =>
          shadowed ← backing_has_child dir (de_name out);
          if negb shadowed then mret (1, Z.lor VFS_READDIR_MOUNT_PHASE mount_index, out) else virtual_mount_loop fuel path dir mount_index out
      end
  end.
Definition virtual_mount_entry (path : list Z) (dir : vnode) (index : Z) : M (Z * Z * vfs_dirent) :=
  virtual_mount_loop (S VFS_MAX_MOUNTS) path dir (Z.land index (Z.lxor VFS_READDIR_MOUNT_PHASE (2 ^ 32 - 1))) zero_dirent.

Definition read_dir_one_locked (path : list Z) (dir : vnode) (index : Z) : M (Z * Z * vfs_dirent) :=
  if index &? VFS_READDIR_MOUNT_PHASE then virtual_mount_entry path dir index else
  r ← iterate dir index;
  let '(result, cookie, out) := r in
  if result >? 0 then
    hidden ← vfs_mount_child_named path (de_name out);
    mret (result, cookie, if (hidden : bool) then Dirent (de_inode out) VFS_NODE_DIRECTORY (de_name out) else out)
  else if result =? 0 then
    v ← virtual_mount_entry path dir VFS_READDIR_MOUNT_PHASE;
    mret (if v.1.1 =? 0 then (0, cookie, v.2) else v)
  else mret (result, cookie, out).

Definition vfs_read_dir_one (path : list Z) (index : Z) : M (Z * Z * vfs_dirent) :=
  l ← vfs_lookup path;
  if negb (l.1 =? 0) then mret (l.1, index, zero_dirent) else
  i ← path_inode l.2;
  r ← read_dir_one_locked (pname l.2) (node i) index;
  _ ← vfs_path_put l.2;
  mret (if r.1.1 <? 0 then (r.1.1, index, r.2) else r).

(** The result, the cookie and the text; each entry takes a byte at least. *)
Fixpoint vfs_read_dir_loop (fuel : nat) (path : list Z) (dir : vnode) (index length : Z) (buffer : list Z) : M (Z * Z * list Z) :=
  match fuel with
  | O => fault
  | S fuel =>
      r ← read_dir_one_locked path dir index;
      let '(status, cookie, entry) := r in
      if status <=? 0 then
        mret (if (status <? 0) && (zlen buffer =? 0) then status else zlen buffer, if status <? 0 then index else cookie, buffer)
      else
        let text := de_name entry ++ (if de_type entry =? VFS_NODE_DIRECTORY then [SLASH] else []) ++ [0] in
        if zlen text >? length - zlen buffer then mret (if zlen buffer =? 0 then - EINVAL else zlen buffer, index, buffer) else
        vfs_read_dir_loop fuel path dir cookie length (buffer ++ text)
  end.
Definition vfs_read_dir (path : list Z) (index length : Z) : M (Z * Z * list Z) :=
  if length =? 0 then mret (- EINVAL, index, []) else
  l ← vfs_lookup path;
  if negb (l.1 =? 0) then mret (l.1, index, []) else
  i ← path_inode l.2;
  r ← vfs_read_dir_loop (S (Z.to_nat length)) (pname l.2) (node i) index length [];
  _ ← vfs_path_put l.2;
  mret r.

(** ** Mounting, [vfs.c] *)
Definition vfs_init : M unit :=
  busy ← gets (fun s => existsb live (mounts s));
  if (busy : bool) then mret tt else
  _ ← set_filesystems (replicate VFS_MAX_FILESYSTEMS 0);
  set_mounts (replicate VFS_MAX_MOUNTS zero_mount).

(** The table entry of a name, [0] if there is none. *)
Fixpoint find_type_loop (l : list Z) (name : list Z) : Z :=
  match l with
  | [] => 0
  | t :: l => if negb (t =? 0) && bool_decide (fs_name t = name) then t else find_type_loop l name
  end.
Definition find_type (name : list Z) : M Z := gets (fun s => find_type_loop (filesystems s) name).

(** The first entry that is [0] becomes [t]. *)
Fixpoint put_type (l : list Z) (t : Z) : option (list Z) :=
  match l with
  | [] => None
  | x :: l => if x =? 0 then Some (t :: l) else r ← put_type l t; Some (x :: r)
  end.
Definition vfs_register (t : Z) : M Z :=
  if (t =? 0) || (zlen (fs_name t) =? 0) || bool_decide (fs_mount t = None) then mret (- EINVAL) else
  known ← find_type (fs_name t);
  if negb (known =? 0) then mret (- EEXIST) else
  l ← gets filesystems;
  match put_type l t with
  | None => mret (- ENOSPC)
  | Some l => _ ← set_filesystems l; mret 0
  end.

Definition release_super (j : nat) : M unit :=
  sb ← super_at j;
  _ ← vfs_inode_put (root sb);
  sb ← super_at j;
  _ ← set_super j (with_root sb 0);
  _ ← deref (filesystem sb);
  _ ← match fs_unmount (filesystem sb) with
      | Some f => backend (fun w => (tt, f w j))
      | None => mret tt
      end;
  set_super j zero_super.

(** [mount] or [attach]: the result, with the root it publishes in [super]. *)
Definition call_mount (j : nat) (f : W -> (Z * option vnode) * W) : M Z :=
  r ← backend f;
  match r.2 with
  | None => mret r.1
  | Some v =>
      a ← vfs_inode_get (Node j (number v) (type v) (private_data v) (operations v) (file_operations v));
      sb ← super_at j;
      _ ← set_super j (with_root sb a);
      mret (if a =? 0 then -1 else r.1)
  end.

(** Whether the slot holds a directory as its root. *)
Definition root_ok (j : nat) : M bool :=
  sb ← super_at j;
  if root sb =? 0 then mret false else
  i ← inode_at (root sb);
  mret (type (node i) =? VFS_NODE_DIRECTORY).

(** The part of [mount_type] that works on the free slot [j]. *)
Definition fill_slot (j : nat) (name : list Z) (t source size : Z) (attach : bool) : M Z :=
  sb ← super_at j;
  _ ← set_super j (Superblock t (root sb) (s_inodes sb) (open_files sb) (if attach then block_context source else device_context sb));
  result ← (if attach then match fs_attach t with Some f => call_mount j (fun w => f w j source) | None => fault end
            else match fs_mount t with Some f => call_mount j (fun w => f w j source size) | None => fault end);
  ok ← root_ok j;
  if negb (result =? 0) || negb ok then _ ← release_super j; mret (- EINVAL) else
  m ← mount_at j;
  _ ← set_mount j (Mount name (msuper m));
  mret 0.

(** [source] is a pointer to an image of [size] bytes, or to a block device if [attach]. *)
Definition mount_type (path : list Z) (t source size : Z) (attach : bool) : M Z :=
  if t =? 0 then mret (- ENODEV) else
  if source =? 0 then mret (- EINVAL) else
  match mount_name path with
  | None => mret (- EINVAL)
  | Some name =>
      taken ← vfs_find_mount name;
      if bool_decide (is_Some taken) then mret (- EBUSY) else
      slot ← gets (fun s => find_slot (fun m => negb (live m)) (mounts s) 0);
      match slot with
      | None => mret (- ENOMEM)
      | Some j =>
          if attach && bool_decide (fs_attach t = None) then mret (- ENODEV) else
          probe ← (match fs_probe t with
                   | Some f => if attach || (size =? 0) then mret 1 else backend (fun w => (f w source size, w))
                   | None => mret 1
                   end);
          if negb attach && ((size =? 0) || (probe <=? 0)) then mret (- EINVAL) else
          fill_slot j name t source size attach
      end
  end.

Definition vfs_mount_image (path name : list Z) (image size : Z) : M Z := t ← find_type name; mount_type path t image size false.
Definition vfs_attach (path name : list Z) (context : Z) : M Z := t ← find_type name; mount_type path t context 0 true.

(** The result and the table entry that took the source. *)
Fixpoint mount_any_loop (l : list Z) (path : list Z) (source size : Z) (attach : bool) (reason : Z) : M (Z * Z) :=
  match l with
  | [] => mret (reason, 0)
  | t :: l =>
      if t =? 0 then mount_any_loop l path source size attach reason else
      result ← mount_type path t source size attach;
      if result =? 0 then mret (0, t) else
      if negb (result =? - EINVAL) && negb (result =? - ENODEV) then mret (result, 0) else
      mount_any_loop l path source size attach (if result =? - EINVAL then - EINVAL else reason)
  end.
Definition mount_any (path : list Z) (source size : Z) (attach : bool) : M (Z * Z) := l ← gets filesystems; mount_any_loop l path source size attach (- ENODEV).
Definition vfs_mount_auto (path : list Z) (image size : Z) : M (Z * Z) := mount_any path image size false.
Definition vfs_attach_auto (path : list Z) (context : Z) : M (Z * Z) := mount_any path context 0 true.

(** [mounts[i]] lies below [name]. *)
Definition below (name : list Z) (m : vfs_mount) : bool :=
  live m && starts_with (mpath m) name && ((zlen name =? 1) || (rd (mpath m) (zlen name) =? SLASH)).
Fixpoint nested_mount (l : list vfs_mount) (i j : nat) (name : list Z) : bool :=
  match l with
  | [] => false
  | m :: l => (negb (bool_decide (i = j)) && below name m) || nested_mount l (S i) j name
  end.

(** Some inode besides the root is live, or the root is in use. *)
Fixpoint inodes_busy (l : list Z) (r : Z) : M bool :=
  match l with
  | [] => mret false
  | a :: l => i ← inode_at a; if negb (a =? r) || negb (references i =? 1) then mret true else inodes_busy l r
  end.

Definition vfs_unmount (path : list Z) : M Z :=
  match mount_name path with
  | None => mret (- EINVAL)
  | Some name =>
      slot ← vfs_find_mount name;
      match slot with
      | None => mret (- EINVAL)
      | Some j =>
          sb ← super_at j;
          if negb (open_files sb =? 0) then mret (- EBUSY) else
          nested ← gets (fun s => nested_mount (mounts s) 0 j name);
          if (nested : bool) then mret (- EBUSY) else
          busy ← inodes_busy (s_inodes sb) (root sb);
          if (busy : bool) then mret (- EBUSY) else
          result ← (match fs_sync (filesystem sb) with Some f => backend (fun w => f w j) | None => mret 0 end);
          if negb (result =? 0) then mret (- EIO) else
          _ ← release_super j;
          _ ← set_mount j zero_mount;
          mret 0
      end
  end.

Fixpoint sync_loop (l : list vfs_mount) (j : nat) (result : Z) : M Z :=
  match l with
  | [] => mret result
  | m :: l =>
      r ← (match (if live m then fs_sync (filesystem (msuper m)) else None) with Some f => backend (fun w => f w j) | None => mret 0 end);
      sync_loop l (S j) (if r =? 0 then result else - EIO)
  end.
Definition vfs_sync_all : M Z := l ← gets mounts; sync_loop l 0 0.

Definition vfs_device_mounted (context : Z) : M bool :=
  if context =? 0 then mret false else gets (fun s => existsb (fun m => live m && (device_context (msuper m) =? context)) (mounts s)).

(** The path, the name of the file system, the device and the sizes in bytes. *)
Definition vfs_mount_describe (slot : nat) : M (Z * option (list Z * list Z * Z * Z * Z)) :=
  if bool_decide (VFS_MAX_MOUNTS <= slot)%nat then mret (- EINVAL, None) else
  m ← mount_at slot;
  if negb (live m) then mret (- ENOENT, None) else
  let t := filesystem (msuper m) in
  r ← (match fs_statfs t with Some f => backend (fun w => f w slot) | None => mret (0, 0, 0) end);
  let '(result, total, free) := r in
  mret (0, Some (mpath m, fs_name t, device_context (msuper m), if result =? 0 then total else 0, if result =? 0 then free else 0)).

Definition vfs_file_sync (file : vfs_file) : M Z :=
  if fnode file =? 0 then mret (- EINVAL) else
  i ← inode_at (fnode file);
  sb ← super_at (super (node i));
  _ ← deref (filesystem sb);
  match fs_sync (filesystem sb) with
  | Some f => r ← backend (fun w => f w (super (node i))); mret (if r =? 0 then 0 else - EIO)
  | None => mret 0
  end.
End Switch.
