(* ===== verification/VfsSpec.v ===== *)
(** The file system switch: inode references are counted exactly. *)
From stdpp Require Import gmultiset.
From S2P Require Import Prelude Alloc Vfs.

(** A directory has a table of operations. *)
Definition proper (v : vnode) : Prop := type v = VFS_NODE_DIRECTORY -> operations v <> 0.

(** What the switch relies on: directories have operations and are listed in finitely many steps,
    and there is a tree of names, by superblock and inode number, that lookups agree with and do
    not change. *)
Class BackendLaws (W : Type) `{!Backend W} := {
  names : W -> nat -> Z -> list Z -> option Z;
  lookup_names o f w d name v w' : op_lookup o = Some f -> f w d name = (Some v, w') -> names w (super d) (number d) name = Some (number v);
  lookup_steady o f w d name r w' j n x : op_lookup o = Some f -> f w d name = (r, w') -> names w' j n x = names w j n x;
  lookup_proper o f w d name v w' : op_lookup o = Some f -> f w d name = (Some v, w') -> proper v;
  create_proper o f w d name v w' : op_create o = Some f -> f w d name = (Some v, w') -> proper v;
  mount_proper t f w j source size r v w' : fs_mount t = Some f -> f w j source size = (r, Some v, w') -> proper v;
  attach_proper t f w j source r v w' : fs_attach t = Some f -> f w j source = (r, Some v, w') -> proper v;
  iterate_less o f w d index rc cookie e w' : fo_iterate o = Some f -> f w d index = (rc, cookie, e, w') -> 0 < rc -> (dir_left w' d cookie < dir_left w d index)%nat;
}.

Section Spec.
Context {A W : Type} `{!AllocOps A, !AllocLaws A, !Backend W, !BackendLaws W}.
Abbreviation M := (Vfs.M A W).
Implicit Types (s : vfs A W) (R : gmultiset Z) (D : gset Z) (a : Z) (j : nat).

(** ** Total correctness of a computation *)
Definition wp {X} (m : M X) (Q : X -> vfs A W -> Prop) s : Prop := match m s with Some (x, s') => Q x s' | None => False end.

Lemma wp_bind {X Y} (m : M X) (k : X -> M Y) Q s : wp m (fun x => wp (k x) Q) s -> wp (m ≫= k) Q s.
Proof. unfold wp, mbind, M_bind. by destruct (m s) as [[x s']|]. Qed.

Lemma wp_bind_inv {X Y} (m : M X) (k : X -> M Y) Q s : wp (m ≫= k) Q s -> wp m (fun x => wp (k x) Q) s.
Proof. unfold wp, mbind, M_bind. by destruct (m s) as [[x s']|]. Qed.

Lemma wp_ret {X} (x : X) Q s : Q x s -> wp (mret x) Q s.
Proof. done. Qed.

Lemma wp_mono {X} (m : M X) (Q Q' : X -> vfs A W -> Prop) s : wp m Q s -> (forall x s', Q x s' -> Q' x s') -> wp m Q' s.
Proof. unfold wp. destruct (m s) as [[x s']|]; [|done]. auto. Qed.

Lemma wp_inv {X} (m : M X) Q s : wp m Q s -> exists x s', m s = Some (x, s') /\ Q x s'.
Proof. unfold wp. destruct (m s) as [[x s']|]; [|done]. eauto. Qed.

Lemma wp_inode_at a i Q s : inodes s !! a = Some i -> Q i s -> wp (inode_at a) Q s.
Proof. unfold wp, inode_at. by intros ->. Qed.

Lemma wp_super_at j m Q s : mounts s !! j = Some m -> Q (msuper m) s -> wp (super_at j) Q s.
Proof. intros Hm HQ. apply wp_bind. unfold wp, mount_at. by rewrite Hm. Qed.

(** A computation that does not reach the file systems. *)
Definition steady {X} (m : M X) : Prop := forall s x s', m s = Some (x, s') -> disk s' = disk s.

Lemma steady_ret {X} (x : X) : steady (mret x).
Proof. by intros s y s' [= _ <-]. Qed.

Lemma steady_bind {X Y} (m : M X) (k : X -> M Y) : steady m -> (forall x, steady (k x)) -> steady (m ≫= k).
Proof. intros Hm Hk s y s'. unfold mbind, M_bind. destruct (m s) as [[x s1]|] eqn:E; [|done]. intros H. rewrite (Hk x _ _ _ H). by eapply Hm. Qed.

Lemma wp_steady {X} (m : M X) (Q : X -> vfs A W -> Prop) s : steady m -> wp m (fun x s' => disk s' = disk s -> Q x s') s -> wp m Q s.
Proof. unfold wp. intros H. destruct (m s) as [[x s']|] eqn:E; [|done]. intros HQ. by apply HQ, (H _ _ _ E). Qed.

Lemma wp_deref o (Q : unit -> vfs A W -> Prop) s : o <> 0 -> Q tt s -> wp (deref o) Q s.
Proof. intros Ho. unfold deref. by destruct (Z.eqb_spec o 0). Qed.

Ltac steady_step := intros ?s ?x ?s'; cbv [inode_at mount_at set_inodes set_mount heap_free Vfs.heap_alloc fault]; repeat case_match; naive_solver.
Ltac steady := repeat first [apply steady_ret | apply steady_bind; [|intros ?] | steady_step | case_match].

Lemma steady_set_super j sb : steady (set_super j sb).
Proof. unfold set_super. steady. Qed.
Lemma steady_super_at j : steady (super_at j).
Proof. unfold super_at. steady. Qed.

Lemma steady_ref a : steady (vfs_inode_ref a).
Proof. unfold vfs_inode_ref. steady. Qed.

Lemma steady_put a : steady (vfs_inode_put a).
Proof. unfold vfs_inode_put. repeat first [apply steady_super_at | apply steady_set_super | steady]. Qed.

Lemma steady_find_inode l n : steady (find_inode l n).
Proof. induction l as [|a l IH]; cbn [find_inode]; repeat first [apply IH | steady]. Qed.

Lemma steady_get v : steady (vfs_inode_get v).
Proof. unfold vfs_inode_get. repeat first [apply steady_super_at | apply steady_set_super | apply steady_find_inode | apply steady_ref | steady]. Qed.

Lemma steady_push p a j : steady (push_entry p a j).
Proof. unfold push_entry. repeat first [apply steady_put | steady]. Qed.

Lemma steady_pop p : steady (pop_entry p).
Proof. unfold pop_entry. repeat first [apply steady_put | steady]. Qed.

Lemma steady_put_entries l : steady (put_entries l).
Proof. induction l as [|e l IH]; cbn [put_entries]; repeat first [apply IH | apply steady_put | steady]. Qed.

(** ** References *)

(** [R] holds every reference there is and [D] the blocks of directory entries. *)
Record store_ok s R D : Prop := {
  so_slots : length (mounts s) = VFS_MAX_MOUNTS;
  so_refs a i : inodes s !! a = Some i -> references i = u32 (Z.of_nat (multiplicity a R)) /\ a ∈ R;
  so_live a : a ∈ R -> is_Some (inodes s !! a);
  so_list j m : mounts s !! j = Some m -> NoDup (s_inodes (msuper m)) /\ forall a, a ∈ s_inodes (msuper m) <-> exists i, inodes s !! a = Some i /\ super (node i) = j;
  so_super a i : inodes s !! a = Some i -> is_Some (mounts s !! super (node i));
  so_number a b i k : inodes s !! a = Some i -> inodes s !! b = Some k -> super (node i) = super (node k) -> number (node i) = number (node k) -> a = b;
  so_heap : al_wf (heap s) (dom (inodes s) ∪ D);
  so_apart : dom (inodes s) ## D;
  so_proper a i : inodes s !! a = Some i -> proper (node i);
}.

(** The fields of a mount that reference counting leaves alone. *)
Definition shape (m : vfs_mount) : list Z * Z * Z * Z * Z := (mpath m, filesystem (msuper m), root (msuper m), open_files (msuper m), device_context (msuper m)).

(** What a computation that keeps the references [R] leaves alone. *)
Record ext R s s' : Prop := {
  ex_types : filesystems s' = filesystems s;
  ex_shape : shape <$> mounts s' = shape <$> mounts s;
  ex_node a i : a ∈ R -> inodes s !! a = Some i -> exists i', inodes s' !! a = Some i' /\ node i' = node i;
  ex_slots a' i' : inodes s' !! a' = Some i' -> exists a i, inodes s !! a = Some i /\ super (node i) = super (node i');
}.

Lemma ext_refl R s : ext R s s.
Proof. split; [done|done|eauto|eauto]. Qed.

Lemma ext_trans R s1 s2 s3 : ext R s1 s2 -> ext R s2 s3 -> ext R s1 s3.
Proof.
  intros [E1 E2 E3 E4] [F1 F2 F3 F4]. split; [congruence|congruence| |].
  - intros a i Ha Hi. destruct (E3 a i Ha Hi) as (i2 & Hi2 & <-). destruct (F3 a i2 Ha Hi2) as (i3 & Hi3 & <-). eauto.
  - intros a3 i3 H3. destruct (F4 a3 i3 H3) as (a2 & i2 & H2 & <-). by apply (E4 a2).
Qed.

Lemma ext_sub R R' s s' : R' ⊆ R -> ext R s s' -> ext R' s s'.
Proof. intros Hs [E1 E2 E3 E4]. split; [done|done| |done]. intros a i Ha. apply E3. multiset_solver. Qed.

Lemma store_nonnull s R D a : store_ok s R D -> a ∈ R -> a <> 0.
Proof.
  intros H Ha ->. destruct (so_live _ _ _ H 0 Ha) as [i Hi]. apply (al_nonnull _ _ (so_heap _ _ _ H)). apply elem_of_union_l, elem_of_dom. by exists i.
Qed.

(** The inode an owned reference leads to, with its superblock. *)
Lemma store_owned s R D a : store_ok s R D -> a ∈ R -> exists i m, inodes s !! a = Some i /\ mounts s !! super (node i) = Some m /\ a ∈ s_inodes (msuper m).
Proof.
  intros H Ha. destruct (so_live _ _ _ H a Ha) as [i Hi]. destruct (so_super _ _ _ H a i Hi) as [m Hm]. exists i, m. split; [done|]. split; [done|].
  apply (so_list _ _ _ H _ _ Hm). eauto.
Qed.

Definition put_inodes s (f : gmap Z vfs_inode -> gmap Z vfs_inode) : vfs A W := Vfs (filesystems s) (mounts s) (f (inodes s)) (heap s) (disk s).

Lemma store_set_refs s R R' D a i n : store_ok s R D -> inodes s !! a = Some i -> (forall b, b <> a -> multiplicity b R' = multiplicity b R) -> a ∈ R' ->
  n = u32 (Z.of_nat (multiplicity a R')) ->
  store_ok (put_inodes s <[a := Inode (node i) n]>) R' D /\ forall R0, ext R0 s (put_inodes s <[a := Inode (node i) n]>).
Proof.
  intros H Hi Hb Ha Hn. destruct H as [H1 H2 H3 H4 H5 H6 H7 H8 H9].
  assert (Hlk : forall b k, <[a := Inode (node i) n]> (inodes s) !! b = Some k -> exists k0, inodes s !! b = Some k0 /\ node k = node k0) by (intros b k; rewrite lookup_insert_Some; intros [[<- <-]|[_ ?]]; eauto).
  assert (Hlk' : forall b k0, inodes s !! b = Some k0 -> exists k, <[a := Inode (node i) n]> (inodes s) !! b = Some k /\ node k = node k0).
  { intros b k0 Hk. destruct (decide (b = a)) as [->|Hne]; [|exists k0; by rewrite lookup_insert_ne]. rewrite Hi in Hk. injection Hk as <-. exists (Inode (node i) n).
    by rewrite lookup_insert_eq. }
  assert (Hdom : dom (<[a := Inode (node i) n]> (inodes s)) = dom (inodes s)) by (apply dom_insert_lookup_L; by exists i).
  split; [split; cbn [put_inodes mounts inodes heap]|].
  - done.
  - intros b k. rewrite lookup_insert_Some. intros [[<- <-]|[Hne Hk]]; [by split|]. rewrite Hb by done. split; [by apply H2|]. apply H2 in Hk as [_ Hk].
    rewrite elem_of_multiplicity, Hb by done. by apply elem_of_multiplicity.
  - intros b Hbm. destruct (decide (b = a)) as [->|Hne]; [by rewrite lookup_insert_eq; eexists|]. rewrite lookup_insert_ne by done. apply H3.
    rewrite elem_of_multiplicity, <- Hb by done. by apply elem_of_multiplicity.
  - intros j m Hm. destruct (H4 j m Hm) as [N L]. split; [done|]. intros b. rewrite L. split.
    + intros (k & Hk & <-). destruct (Hlk' b k Hk) as (k' & Hk' & E). exists k'. by rewrite E.
    + intros (k & Hk & <-). destruct (Hlk b k Hk) as (k' & Hk' & E). exists k'. by rewrite E.
  - intros b k Hk. destruct (Hlk b k Hk) as (k' & Hk' & ->). by apply (H5 b).
  - intros b c k k2 Hk Hk2. destruct (Hlk b k Hk) as (k' & Hk' & ->). destruct (Hlk c k2 Hk2) as (k2' & Hk2' & ->). by apply H6.
  - by rewrite Hdom.
  - by rewrite Hdom.
  - intros b k Hk. destruct (Hlk b k Hk) as (k' & Hk' & ->). by eapply H9.
  - intros R0. split; [done|done|intros b k _ Hk; by apply Hlk'|]. intros b k Hk. destruct (Hlk b k Hk) as (k' & Hk' & ->). eauto.
Qed.

Lemma wp_ref s R D a (Q : Z -> vfs A W -> Prop) : store_ok s R D -> a ∈ R -> (forall s', store_ok s' ({[+ a +]} ⊎ R) D -> (forall R0, ext R0 s s') -> Q a s') ->
  wp (vfs_inode_ref a) Q s.
Proof.
  intros H Ha HQ. unfold vfs_inode_ref. rewrite (proj2 (Z.eqb_neq a 0)) by (by eapply store_nonnull). destruct (so_live _ _ _ H a Ha) as [i Hi].
  apply wp_bind, (wp_inode_at a i); [done|].
  destruct (store_set_refs s R ({[+ a +]} ⊎ R) D a i (u32 (references i + 1)) H Hi) as [H1 H2]; [intros b Hb; rewrite multiplicity_disj_union, multiplicity_singleton_ne by done; lia|multiset_solver| |by apply HQ].
  destruct (so_refs _ _ _ H a i Hi) as [-> _]. rewrite multiplicity_disj_union, multiplicity_singleton, decide_True by done. unfold u32. rewrite Zplus_mod_idemp_l.
  f_equal. lia.
Qed.

Lemma unlink_inode_spec a l : NoDup l -> a ∈ l -> exists l', unlink_inode a l = Some l' /\ NoDup l' /\ forall b, b ∈ l' <-> b ∈ l /\ b <> a.
Proof.
  induction l as [|b l IH]; intros Hn Ha; [by apply elem_of_nil in Ha|]. apply list.NoDup_cons in Hn as [Hb Hn]. cbn [unlink_inode].
  destruct (Z.eqb_spec b a) as [->|Hne].
  - exists l. split; [done|]. split; [done|]. intros c. rewrite elem_of_cons. split; [intros Hc; split; [by right|by intros ->]|intros [[->|?] ?]; done].
  - destruct IH as (l' & -> & Hn' & Hl); [done|by apply elem_of_cons in Ha as [->|]|]. exists (b :: l'). split; [done|].
    split; [apply list.NoDup_cons; rewrite Hl; tauto|]. intros c. rewrite !elem_of_cons, Hl. split; [intros [->|[]]; auto|intros [[->|] ]; auto].
Qed.

Definition small R : Prop := Z.of_nat (size R) < 2 ^ 32 - 1.

Lemma small_sub R R' : R' ⊆ R -> small R -> small R'.
Proof. unfold small. intros Hs. pose proof (gmultiset_subseteq_size _ _ Hs). lia. Qed.

Lemma multiplicity_size a R : (multiplicity a R <= size R)%nat.
Proof.
  induction R as [|b R IH] using gmultiset_ind; [by rewrite multiplicity_empty; lia|].
  rewrite multiplicity_disj_union, multiplicity_singleton, gmultiset_size_disj_union, gmultiset_size_singleton. destruct (decide (a = b)); lia.
Qed.

Definition put_mount s j (m : vfs_mount) : vfs A W := Vfs (filesystems s) (<[j := m]> (mounts s)) (inodes s) (heap s) (disk s).

Lemma wp_set_super s j m sb Q : mounts s !! j = Some m -> Q tt (put_mount s j (Mount (mpath m) sb)) -> wp (set_super j sb) Q s.
Proof. intros Hm HQ. apply wp_bind. unfold wp, mount_at. rewrite Hm. exact HQ. Qed.

(** The inode [a] of slot [j] goes. *)
Definition drop_inode s j (m : vfs_mount) (l : list Z) a : vfs A W :=
  Vfs (filesystems s) (<[j := Mount (mpath m) (with_inodes (msuper m) l)]> (mounts s)) (delete a (inodes s)) (al_free (heap s) a) (disk s).

Lemma store_drop s R D a i m l : store_ok s ({[+ a +]} ⊎ R) D -> inodes s !! a = Some i -> a ∉ R -> mounts s !! super (node i) = Some m ->
  NoDup l -> (forall b, b ∈ l <-> b ∈ s_inodes (msuper m) /\ b <> a) -> store_ok (drop_inode s (super (node i)) m l a) R D /\ forall R0, a ∉ R0 ->
  ext R0 s (drop_inode s (super (node i)) m l a).
Proof.
  intros [H1 H2 H3 H4 H5 H6 H7 H8 H9] Hi Ha Hm Hn Hl. assert (Had : a ∈ dom (inodes s)) by (apply elem_of_dom; by exists i).
  split; [split; cbn [drop_inode mounts inodes heap]|].
  - by rewrite length_insert.
  - intros b k. rewrite lookup_delete_Some. intros [Hne Hk]. destruct (H2 b k Hk) as [-> Hb]. rewrite multiplicity_disj_union, multiplicity_singleton_ne by done.
    split; [done|]. apply gmultiset_elem_of_disj_union in Hb as [Hb|]; [|done]. by apply gmultiset_elem_of_singleton in Hb.
  - intros b Hb. rewrite lookup_delete_ne by (by intros ->). apply H3. apply gmultiset_elem_of_disj_union. by right.
  - intros j m'. rewrite list_lookup_insert_Some. intros [(<- & <- & _)|[Hne Hm']]; cbn [msuper with_inodes s_inodes].
    + split; [done|]. intros b. rewrite Hl, (proj2 (H4 _ _ Hm) b). split; [intros [(k & Hk & E) Hne]; exists k; by rewrite lookup_delete_ne|]. intros (k & Hk & E).
      apply lookup_delete_Some in Hk as [? ?]. eauto.
    + destruct (H4 j m' Hm') as [N L]. split; [done|]. intros b. rewrite L. split.
      * intros (k & Hk & <-). exists k. split; [|done]. rewrite lookup_delete_ne; [done|]. intros <-. congruence.
      * intros (k & Hk & <-). apply lookup_delete_Some in Hk as [_ Hk]. eauto.
  - intros b k Hk. apply lookup_delete_Some in Hk as [_ Hk]. apply H5 in Hk. by rewrite list_lookup_insert_is_Some.
  - intros b c k k2 Hk Hk2. apply lookup_delete_Some in Hk as [_ Hk]. apply lookup_delete_Some in Hk2 as [_ Hk2]. by apply H6.
  - rewrite dom_delete_L. replace (dom (inodes s) ∖ {[a]} ∪ D) with ((dom (inodes s) ∪ D) ∖ {[a]}) by set_solver. apply al_free_ok; [done|set_solver].
  - rewrite dom_delete_L. set_solver.
  - intros b k Hk. apply lookup_delete_Some in Hk as [_ Hk]. by eapply H9.
  - intros R0 Ha0. split; cbn [drop_inode filesystems mounts inodes]; [done| | |intros b k Hk; apply lookup_delete_Some in Hk as [_ Hk]; eauto].
    + rewrite list_fmap_insert. apply list_insert_id. by rewrite list_lookup_fmap, Hm.
    + intros b k Hb Hk. exists k. split; [|done]. rewrite lookup_delete_ne; [done|]. by intros ->.
Qed.

Lemma wp_put s R D a (Q : unit -> vfs A W -> Prop) : store_ok s ({[+ a +]} ⊎ R) D -> small R -> (forall s', store_ok s' R D -> ext R s s' -> Q tt s') ->
  wp (vfs_inode_put a) Q s.
Proof.
  intros H Hs HQ. assert (Ha : a ∈ {[+ a +]} ⊎ R) by multiset_solver. unfold vfs_inode_put. rewrite (proj2 (Z.eqb_neq a 0)) by (by eapply store_nonnull).
  destruct (store_owned _ _ _ _ H Ha) as (i & m & Hi & Hm & Hl). apply wp_bind, (wp_inode_at a i); [done|]. destruct (so_refs _ _ _ H a i Hi) as [Er _].
  assert (En : u32 (references i - 1) = Z.of_nat (multiplicity a R)).
  { rewrite Er, multiplicity_disj_union, multiplicity_singleton, decide_True by done. unfold u32. rewrite Zminus_mod_idemp_l.
    rewrite Z.mod_small; pose proof (multiplicity_size a R); unfold small in Hs; lia. }
  cbv zeta. rewrite En. destruct (Z.eqb_spec (Z.of_nat (multiplicity a R)) 0) as [E0|E0]; cbn [negb].
  - assert (Hna : a ∉ R) by (rewrite elem_of_multiplicity; lia). apply wp_bind, (wp_super_at _ m); [done|].
    destruct (unlink_inode_spec a (s_inodes (msuper m))) as (l & -> & Hn & Hin); [apply (so_list _ _ _ H _ _ Hm)|done|].
    apply wp_bind, (wp_set_super _ _ m); [done|]. destruct (store_drop s R D a i m l H Hi Hna Hm Hn Hin) as [H1 H2]. apply HQ; [exact H1|by apply H2].
  - destruct (store_set_refs s ({[+ a +]} ⊎ R) R D a i (Z.of_nat (multiplicity a R)) H Hi) as [H1 H2]; [intros b Hb; rewrite multiplicity_disj_union, multiplicity_singleton_ne by done; lia|rewrite elem_of_multiplicity; lia| |by apply HQ].
    unfold u32. rewrite Z.mod_small; [done|]. pose proof (multiplicity_size a R). unfold small in Hs. lia.
Qed.

Lemma wp_find_inode s l n (Q : Z -> vfs A W -> Prop) : (forall a, a ∈ l -> is_Some (inodes s !! a) /\ a <> 0) ->
  (forall a, (a = 0 /\ forall b k, b ∈ l -> inodes s !! b = Some k -> number (node k) <> n) \/ (a ∈ l /\ exists k, inodes s !! a = Some k /\ number (node k) = n) -> Q a s) ->
  wp (find_inode l n) Q s.
Proof.
  induction l as [|a l IH]; intros Hl HQ; cbn [find_inode].
  - apply wp_ret, HQ. left. split; [done|]. intros b k Hb. by apply elem_of_nil in Hb.
  - destruct (Hl a) as [[i Hi] _]; [by left|]. apply wp_bind, (wp_inode_at a i); [done|].
    destruct (Z.eqb_spec (number (node i)) n) as [E|E]; [apply wp_ret, HQ; right; split; [by left|eauto]|].
    apply IH; [intros b Hb; apply Hl; by right|]. intros b [[-> Hb]|[Hb Hk]]; apply HQ; [left|right; split; [by right|done]].
    split; [done|]. intros c k Hc Hk. apply elem_of_cons in Hc as [->|Hc]; [congruence|by eapply Hb].
Qed.

Definition with_heap s (h : A) : vfs A W := Vfs (filesystems s) (mounts s) (inodes s) h (disk s).
Definition with_disk s (w : W) : vfs A W := Vfs (filesystems s) (mounts s) (inodes s) (heap s) w.

Lemma store_with_disk s R D w : store_ok s R D -> store_ok (with_disk s w) R D.
Proof. intros [H1 H2 H3 H4 H5 H6 H7 H8 H9]. by split. Qed.
Lemma ext_with_disk s R w : ext R s (with_disk s w).
Proof. split; [done|done|eauto|eauto]. Qed.
Lemma store_with_heap s R D D' h : store_ok s R D -> al_wf h (dom (inodes s) ∪ D') -> dom (inodes s) ## D' -> store_ok (with_heap s h) R D'.
Proof. intros [H1 H2 H3 H4 H5 H6 H7 H8 H9] H10 H11. by split. Qed.
Lemma ext_with_heap s R h : ext R s (with_heap s h).
Proof. split; [done|done|eauto|eauto]. Qed.

Lemma wp_backend {X} (f : W -> X * W) (Q : X -> vfs A W -> Prop) s : (forall x w, f (disk s) = (x, w) -> Q x (with_disk s w)) -> wp (backend f) Q s.
Proof. intros HQ. unfold wp, backend. destruct (f (disk s)) as [x w]. by apply HQ. Qed.

(** A new block, as a directory entry or for something else. *)
Lemma wp_heap_alloc s R D n (Q : Z -> vfs A W -> Prop) : store_ok s R D -> 0 <= n <= 64 ->
  (forall h, store_ok (with_heap s h) R D -> Q 0 (with_heap s h)) ->
  (forall p h, p <> 0 -> p ∉ dom (inodes s) ∪ D -> store_ok (with_heap s h) R ({[p]} ∪ D) -> Q p (with_heap s h)) -> wp (heap_alloc n) Q s.
Proof.
  intros H Hn H0 H1. unfold wp, heap_alloc. destruct (al_malloc (heap s) n) as [p h] eqn:E. pose proof (so_apart _ _ _ H) as Hap.
  destruct (al_malloc_ok _ _ n p h (so_heap _ _ _ H) ltac:(lia) E) as [[-> Hw]|(Hp & Hf & Hw)]; [apply H0; by eapply store_with_heap|].
  apply H1; [done|done|]. apply (store_with_heap s R D); [done| |set_solver]. by replace (dom (inodes s) ∪ ({[p]} ∪ D)) with ({[p]} ∪ (dom (inodes s) ∪ D)) by set_solver.
Qed.

(** A new inode [v] at [p] in its slot. *)
Definition add_inode s (v : vnode) (m : vfs_mount) p : vfs A W :=
  Vfs (filesystems s) (<[super v := Mount (mpath m) (with_inodes (msuper m) (p :: s_inodes (msuper m)))]> (mounts s)) (<[p := Inode v 1]> (inodes s)) (heap s) (disk s).

Lemma store_add s R D v m p : proper v -> store_ok s R ({[p]} ∪ D) -> p ∉ dom (inodes s) ∪ D -> mounts s !! super v = Some m ->
  (forall b k, b ∈ s_inodes (msuper m) -> inodes s !! b = Some k -> number (node k) <> number v) ->
  store_ok (add_inode s v m p) ({[+ p +]} ⊎ R) D /\ ((exists b k, inodes s !! b = Some k /\ super (node k) = super v) -> ext R s (add_inode s v m p)).
Proof.
  intros Hv [H1 H2 H3 H4 H5 H6 H7 H8 H9] Hp Hm Hnum. assert (Hpd : inodes s !! p = None) by (apply not_elem_of_dom; set_solver).
  assert (HpR : p ∉ R) by (intros Hc; apply H3 in Hc as [? ?]; congruence). assert (Hne : forall b, b ∈ R -> b <> p) by (by intros b Hb ->).
  split; [split; cbn [add_inode mounts inodes heap]|].
  - by rewrite length_insert.
  - intros b k. rewrite lookup_insert_Some. rewrite multiplicity_disj_union. intros [[<- <-]|[Hb Hk]].
    + rewrite multiplicity_singleton, decide_True by done. split; [|multiset_solver]. cbn [references]. replace (multiplicity p R) with 0%nat; [done|].
      rewrite elem_of_multiplicity in HpR. lia.
    + rewrite multiplicity_singleton_ne by done. destruct (H2 b k Hk) as [-> HbR]. split; [done|multiset_solver].
  - intros b Hb. destruct (decide (b = p)) as [->|Hbp]; [rewrite lookup_insert_eq; by eexists|]. rewrite lookup_insert_ne by done. apply H3. multiset_solver.
  - intros j m'. rewrite list_lookup_insert_Some. intros [(<- & <- & _)|[Hj Hm']]; cbn [msuper with_inodes s_inodes].
    + destruct (H4 _ _ Hm) as [N L]. split; [apply list.NoDup_cons; split; [|done]; rewrite L; intros (k & Hk & _); congruence|]. intros b. rewrite elem_of_cons, L.
      split.
      * intros [->|(k & Hk & E)]; [exists (Inode v 1); by rewrite lookup_insert_eq|exists k; rewrite lookup_insert_ne; [done|congruence]].
      * intros (k & Hk & E). apply lookup_insert_Some in Hk as [[<- <-]|[_ Hk]]; [by left|right; eauto].
    + destruct (H4 j m' Hm') as [N L]. split; [done|]. intros b. rewrite L. split.
      * intros (k & Hk & <-). exists k. rewrite lookup_insert_ne; [done|congruence].
      * intros (k & Hk & <-). apply lookup_insert_Some in Hk as [[<- <-]|[_ Hk]]; [done|eauto].
  - intros b k. rewrite lookup_insert_Some, list_lookup_insert_is_Some. intros [[<- <-]|[_ Hk]]; [by exists m|by eapply H5].
  - intros b c k k2 Hk Hk2 Es En.
    assert (Hold : forall x kx, inodes s !! x = Some kx -> super (node kx) = super v -> number (node kx) = number v -> False) by (intros x kx Hx E1 E2; eapply (Hnum x kx); [apply (H4 _ _ Hm); eauto|done|done]).
    apply lookup_insert_Some in Hk as [[<- <-]|[_ Hk]]; apply lookup_insert_Some in Hk2 as [[<- <-]|[_ Hk2]]; cbn [node] in *; [done|by destruct (Hold c k2)|by destruct (Hold b k)|by apply (H6 b c k k2)].
  - rewrite dom_insert_L. by replace ({[p]} ∪ dom (inodes s) ∪ D) with (dom (inodes s) ∪ ({[p]} ∪ D)) by set_solver.
  - rewrite dom_insert_L. set_solver.
  - intros b k Hk. apply lookup_insert_Some in Hk as [[<- <-]|[_ Hk]]; [done|by eapply H9].
  - intros Hused. split; cbn [add_inode filesystems mounts inodes]; [done| | |intros b k Hk; apply lookup_insert_Some in Hk as [[<- <-]|[_ Hk]]; [done|eauto]].
    + rewrite list_fmap_insert. apply list_insert_id. by rewrite list_lookup_fmap, Hm.
    + intros b k Hb Hk. exists k. rewrite lookup_insert_ne; [done|]. apply not_eq_sym, Hne, Hb.
Qed.

Lemma wp_get s R D v (Q : Z -> vfs A W -> Prop) : proper v -> store_ok s R D -> (exists b k, inodes s !! b = Some k /\ super (node k) = super v) ->
  (forall s', store_ok s' R D -> ext R s s' -> Q 0 s') ->
  (forall a i s', a <> 0 -> store_ok s' ({[+ a +]} ⊎ R) D -> ext R s s' -> inodes s' !! a = Some i -> super (node i) = super v -> number (node i) = number v -> Q a s') ->
  wp (vfs_inode_get v) Q s.
Proof.
  intros Hv H Hused Q0 Q1. assert (Hm : is_Some (mounts s !! super v)) by (destruct Hused as (b & k & Hk & <-); by eapply (so_super _ _ _ H)). destruct Hm as [m Hm].
  unfold vfs_inode_get. apply wp_bind, (wp_super_at _ m); [done|]. destruct (so_list _ _ _ H _ _ Hm) as [N L]. apply wp_bind, wp_find_inode.
  { intros a (i & Hi & _)%L. split; [by exists i|]. eapply store_nonnull; [done|]. by eapply (so_refs _ _ _ H). }
  intros a [[-> Hnum]|[Ha (k & Hk & Ek)]]; [cbn [negb Z.eqb]|].
  - apply wp_bind, (wp_heap_alloc s R D); [done|unfold sizeof_inode; lia|intros h Hh; by apply wp_ret, Q0; [|apply ext_with_heap]|]. intros p h Hp Hf Hh.
    destruct (Z.eqb_spec p 0); [done|]. apply wp_bind. unfold wp at 1, set_inodes.
    apply wp_bind, (wp_set_super _ _ m); [done|]. destruct (store_add (with_heap s h) R D v m p) as [H1 H2]; [done|done|done|done|done|]. apply wp_ret.
    apply (Q1 p (Inode v 1)); [done|exact H1|eapply ext_trans; [apply ext_with_heap|by apply H2]|apply lookup_insert_eq|done|done].
  - assert (HaR : a ∈ R) by (by eapply (so_refs _ _ _ H)). destruct (Z.eqb_spec a 0) as [->|Hn]; [by eapply store_nonnull in HaR|]. cbn [negb].
    apply (wp_ref s R D); [done|done|]. intros s' H1 H2.
    destruct (ex_node _ _ _ (H2 R) a k HaR Hk) as (k' & Hk' & E'). apply L in Ha as (k2 & Hk2 & E2). rewrite Hk in Hk2. injection Hk2 as <-.
    apply (Q1 a k'); [done|done|apply H2|done|congruence|congruence].
Qed.
End Spec.
