(* ===== verification/VfsPath.v ===== *)
(** Names and paths of the file system switch. *)
From S2P Require Import Prelude Vfs.

(** ** Components *)

(** The components of a path. *)
Fixpoint words (l : list Z) : list (list Z) :=
  match l with
  | [] => []
  | c :: l =>
      if c =? SLASH then words l else
      match l with
      | [] => [[c]]
      | d :: _ => if d =? SLASH then [c] :: words l else match words l with w :: ws => (c :: w) :: ws | [] => [[c]] end
      end
  end.

Lemma words_cons2 c d l :
  words (c :: d :: l) = if c =? SLASH then words (d :: l) else if d =? SLASH then [c] :: words (d :: l) else match words (d :: l) with w :: ws => (c :: w) :: ws | [] => [[c]] end.
Proof. done. Qed.

Lemma words_slash l : words (SLASH :: l) = words l.
Proof. done. Qed.

Lemma component_cons c l : c <> SLASH -> component (c :: l) = c :: component l.
Proof. intros H. cbn. by destruct (Z.eqb_spec c SLASH). Qed.

Lemma words_component c l : c <> SLASH -> words (c :: l) = component (c :: l) :: words (drop (length (component (c :: l))) (c :: l)).
Proof.
  revert c. induction l as [|d l IH]; intros c Hc; rewrite (component_cons c) by done; cbn [length drop].
  - cbn. by destruct (Z.eqb_spec c SLASH).
  - rewrite words_cons2. destruct (Z.eqb_spec c SLASH); [done|]. destruct (Z.eqb_spec d SLASH) as [->|Hd]; [done|]. by rewrite (IH d Hd).
Qed.

Lemma component_nil_iff c l : (component (c :: l) = []) <-> c = SLASH.
Proof. cbn. destruct (Z.eqb_spec c SLASH); naive_solver. Qed.

Lemma component_no_slash l : SLASH ∉ component l.
Proof. induction l as [|c l IH]; cbn; [by apply not_elem_of_nil|]. destruct (Z.eqb_spec c SLASH); [by apply not_elem_of_nil|]. rewrite elem_of_cons. naive_solver. Qed.

Lemma component_length c l : c <> SLASH -> (0 < length (component (c :: l)))%nat.
Proof. intros H. rewrite component_cons by done. cbn. lia. Qed.

(** A component a file system can be asked for. *)
Definition plain (w : list Z) : Prop := w <> [] /\ (SLASH ∉ w) /\ w <> [DOT] /\ w <> [DOT; DOT] /\ zlen w <= VFS_NAME_MAX.

(** ** Resolved paths: components, the last first *)
Definition resolve_step (ws : list (list Z)) (w : list Z) : list (list Z) :=
  if is_dot w then ws else if is_dotdot w then tail ws else w :: ws.
Definition resolved (ws l : list (list Z)) : list (list Z) := foldl resolve_step ws l.

Fixpoint below_root (ws : list (list Z)) : list Z := match ws with [] => [] | w :: ws => below_root ws ++ SLASH :: w end.
Definition render (ws : list (list Z)) : list Z := match ws with [] => [SLASH] | _ => below_root ws end.

Lemma below_root_length w ws : zlen (below_root (w :: ws)) = zlen (below_root ws) + 1 + zlen w.
Proof. unfold zlen. cbn [below_root]. rewrite length_app. cbn [length]. lia. Qed.

Lemma zlen_pos {X} (l : list X) : l <> [] -> 0 < zlen l.
Proof. destruct l; [done|]. unfold zlen. cbn. lia. Qed.

Lemma render_nested w ws : w <> [] -> (zlen (render (w :: ws)) >? 1) = true.
Proof. intros Hw. apply Z.gtb_lt. cbn [render]. rewrite below_root_length. pose proof (zlen_pos w Hw). unfold zlen in *. lia. Qed.

Lemma render_cons w ws : Forall plain ws -> render (w :: ws) = render ws ++ (if zlen (render ws) >? 1 then [SLASH] else []) ++ w.
Proof. intros Hp. destruct ws as [|v ws]; [done|]. apply Forall_cons_1 in Hp as [[Hv _] _]. by rewrite render_nested. Qed.

Lemma render_take w ws : take (length (render ws)) (render (w :: ws)) = render ws.
Proof. destruct ws as [|v ws]; [done|]. change (render (w :: v :: ws)) with (below_root (v :: ws) ++ SLASH :: w). apply take_app_length. Qed.

Lemma render_pos ws : 1 <= zlen (render ws).
Proof. destruct ws as [|w ws]; [done|]. cbn [render]. rewrite below_root_length. unfold zlen. lia. Qed.

Lemma below_root_inj ws vs : Forall plain ws -> Forall plain vs -> below_root ws = below_root vs -> ws = vs.
Proof.
  revert vs. induction ws as [|w ws IH]; intros [|v vs] Hw Hv E; [done|exfalso|exfalso|].
  - apply (f_equal zlen) in E. rewrite below_root_length in E. unfold zlen in E. cbn in E. lia.
  - apply (f_equal zlen) in E. rewrite below_root_length in E. unfold zlen in E. cbn in E. lia.
  - apply Forall_cons_1 in Hw as [[_ [Hw _]] Hws]. apply Forall_cons_1 in Hv as [[_ [Hv _]] Hvs]. cbn [below_root] in E.
    assert (Ew : w = v /\ below_root ws = below_root vs); [|destruct Ew as [-> Ew]; f_equal; by apply IH].
    clear IH Hws Hvs. apply (f_equal reverse) in E. rewrite !reverse_app, !reverse_cons, <- !(assoc_L (++)) in E. cbn [app] in E.
    assert (Hs : forall (x y r1 r2 : list Z), SLASH ∉ x -> SLASH ∉ y -> x ++ SLASH :: r1 = y ++ SLASH :: r2 -> x = y /\ r1 = r2).
    { induction x as [|a x IHx]; intros [|b y] r1 r2 Hx Hy Exy; cbn in Exy; [by injection Exy|injection Exy as <- _; set_solver|injection Exy as -> _; set_solver|].
      injection Exy as -> Exy. destruct (IHx y r1 r2) as [-> ->]; [set_solver|set_solver|done|done]. }
    destruct (Hs (reverse w) (reverse v) _ _ ltac:(by rewrite elem_of_reverse) ltac:(by rewrite elem_of_reverse) E) as [E1 E2]. split; by apply (inj reverse).
Qed.

Lemma render_inj ws vs : Forall plain ws -> Forall plain vs -> render ws = render vs -> ws = vs.
Proof.
  intros Hw Hv E. assert (Hlong : forall w ws, Forall plain (w :: ws) -> render (w :: ws) <> [SLASH]).
  { intros w l Hp Er. apply Forall_cons_1 in Hp as [[Hne _] _]. apply (render_nested w l) in Hne. rewrite Er in Hne. done. }
  destruct ws as [|w ws], vs as [|v vs]; [done|by destruct (Hlong v vs Hv)|by destruct (Hlong w ws Hw)|]. by apply below_root_inj.
Qed.

(** ** The last component *)
Lemma words_app a b : words (a ++ SLASH :: b) = words a ++ words b.
Proof.
  induction a as [|c a IH]; [done|]. destruct a as [|d a]; [cbn [app]; rewrite words_cons2; cbn [words]; by destruct (c =? SLASH)|]. cbn [app] in *.
  rewrite !words_cons2, IH. destruct (c =? SLASH); [done|]. destruct (Z.eqb_spec d SLASH); [done|]. by rewrite (words_component d a).
Qed.

Lemma words_plain w : w <> [] -> SLASH ∉ w -> words w = [w].
Proof.
  induction w as [|c w IH]; [done|]. intros _ Hn. apply not_elem_of_cons in Hn as [Hc Hn]. destruct w as [|d w]; [cbn; by destruct (Z.eqb_spec c SLASH)|].
  rewrite words_cons2, IH by done. apply not_elem_of_cons in Hn as [Hd _]. destruct (Z.eqb_spec c SLASH), (Z.eqb_spec d SLASH); congruence.
Qed.

Lemma words_slashes l : Forall (eq SLASH) l -> words l = [].
Proof. induction 1 as [|c l <- _ IH]; [done|]. by rewrite words_slash. Qed.

Lemma trim_length_spec path n : (trim_length path n <= n)%nat /\ forall k, (trim_length path n <= k < n)%nat -> rd path (Z.of_nat k) = SLASH.
Proof.
  induction n as [|n [IH1 IH2]]; [split; [done|lia]|]. destruct n as [|n]; [split; [done|cbn; lia]|].
  change (trim_length path (S (S n))) with (if rd path (Z.of_nat (S n)) =? SLASH then trim_length path (S n) else S (S n)).
  destruct (Z.eqb_spec (rd path (Z.of_nat (S n))) SLASH) as [E|]; [|split; [done|lia]]. split; [lia|]. intros k Hk. destruct (decide (k = S n)) as [->|]; [done|].
  apply IH2. lia.
Qed.

Lemma name_start_slash path n : name_start path n = 0%nat \/ rd path (Z.of_nat (pred (name_start path n))) = SLASH.
Proof. induction n as [|n IH]; [by left|]. cbn [name_start]. destruct (Z.eqb_spec (rd path (Z.of_nat n)) SLASH); cbn [negb]; [by right|done]. Qed.

Lemma name_start_spec path n : (name_start path n <= n)%nat /\ forall k, (name_start path n <= k < n)%nat -> rd path (Z.of_nat k) <> SLASH.
Proof.
  induction n as [|n [IH1 IH2]]; cbn [name_start]; [split; [done|lia]|]. destruct (Z.eqb_spec (rd path (Z.of_nat n)) SLASH) as [E|E]; cbn [negb]; [split; [done|lia]|].
  split; [lia|]. intros k Hk. destruct (decide (k = n)) as [->|]; [done|]. apply IH2. lia.
Qed.

Lemma name_no_slash path n : SLASH ∉ take (n - name_start path n) (drop (name_start path n) path).
Proof.
  intros H. apply list_elem_of_lookup in H as [k Hk]. apply lookup_take_Some in Hk as [Hk Hlt]. rewrite lookup_drop in Hk. destruct (name_start_spec path n) as [_ H2].
  apply (H2 (name_start path n + k)%nat); [lia|].
  unfold rd. rewrite Nat2Z.id, Hk. done.
Qed.

Lemma path_char path k : (k < length path)%nat -> path !! k = Some (rd path (Z.of_nat k)).
Proof. intros H. apply lookup_lt_is_Some_2 in H as [c Hc]. unfold rd. by rewrite Nat2Z.id, Hc. Qed.

(** A path is that of a directory, a name and slashes. *)
Lemma words_last_name path : rd path 0 = SLASH ->
  let n := trim_length path (length path) in let start := name_start path n in let name := take (n - start) (drop start path) in name <> [] ->
  words path = words (take start path) ++ [name].
Proof.
  intros H0 n start name Hne. destruct (trim_length_spec path (length path)) as [Hn Htail]. fold n in Hn, Htail. destruct (name_start_spec path n) as [Hs Hns].
  fold start in Hs, Hns. pose proof (name_no_slash path n) as Hslash. fold start name in Hslash.
  assert (Hlt : (start < n)%nat) by (destruct (decide (start = n)) as [E|]; [|lia]; unfold name in Hne; by rewrite E, Nat.sub_diag in Hne).
  destruct (name_start_slash path n) as [E|E]; fold start in E; [destruct (Hns 0%nat); [lia|done]|].
  assert (Hpos : (0 < start)%nat) by (destruct start; [by destruct (Hns 0%nat); [lia|]|lia]). assert (Etake : take start path = take (pred start) path ++ SLASH :: []).
  { destruct start as [|k]; [lia|]. cbn [pred] in *. rewrite (take_S_r path k SLASH); [done|]. rewrite <- E. apply path_char. lia. }
  assert (Ename : take n path = take (pred start) path ++ SLASH :: name).
  { unfold name. replace n with (start + (n - start))%nat at 1 by lia. rewrite <- take_take_drop, Etake. by rewrite <- (assoc_L (++)). }
  assert (Epath : words path = words (take n path)).
  { assert (Hall : Forall (eq SLASH) (drop n path)). { apply Forall_lookup_2. intros k c. rewrite lookup_drop. intros Hk.
    rewrite <- (Htail (n + k)%nat); [|split; [lia|by eapply lookup_lt_Some]]. unfold rd. by rewrite Nat2Z.id, Hk. }
    rewrite <- (take_drop n path) at 1. destruct (drop n path) as [|c l]; [by rewrite app_nil_r|]. apply Forall_cons_1 in Hall as [<- Hall].
    rewrite words_app, (words_slashes l Hall). by rewrite app_nil_r. }
  rewrite Epath, Ename, words_app, (words_plain name Hne Hslash), Etake, words_app. change (words []) with (@nil (list Z)). by rewrite app_nil_r.
Qed.

Lemma resolved_app ws a b : resolved ws (a ++ b) = resolved (resolved ws a) b.
Proof. apply foldl_app. Qed.

Lemma resolved_plain ws w : plain w -> resolved ws [w] = w :: ws.
Proof. intros (_ & _ & H1 & H2 & _). unfold resolved, resolve_step, is_dot, is_dotdot. cbn [foldl]. by rewrite !bool_decide_false. Qed.
