(* ===== verification/VfsLookup.v ===== *)
(** Lookup of paths in the file system switch: what it finds and what it owns meanwhile. *)
From stdpp Require Import gmultiset.
From S2P Require Import Prelude Alloc Vfs VfsSpec VfsPath.

Section Lookup.
Context {A W : Type} `{!AllocOps A, !AllocLaws A, !Backend W, !BackendLaws W}.
Abbreviation M := (Vfs.M A W).
Implicit Types (N : nat -> Z -> list Z -> option Z) (s : vfs A W) (R : gmultiset Z) (D : gset Z) (a : Z) (j : nat) (l : list vfs_dentry) (p : vfs_path) (ws : list (list Z)).

(** ** Chains of directory entries *)
Definition chain_refs l : gmultiset Z := list_to_set_disj (d_inode <$> l).
Definition chain_blocks l : gset Z := list_to_set (d_addr <$> l).

(** The chain owns a reference per entry and the blocks of the entries. *)
Record owns s l R D : Prop := {
  ow_store : store_ok s (chain_refs l ⊎ R) (chain_blocks l ∪ D);
  ow_nodup : NoDup (d_addr <$> l);
  ow_apart : chain_blocks l ## D;
  ow_small : small (chain_refs l ⊎ R);
}.

Lemma wp_heap_free s R D a (Q : unit -> vfs A W -> Prop) : store_ok s R ({[a]} ∪ D) -> a ∉ D -> (forall h, store_ok (with_heap s h) R D -> Q tt (with_heap s h)) ->
  wp (heap_free a) Q s.
Proof.
  intros H Ha HQ. pose proof (so_apart _ _ _ H). unfold wp, heap_free. apply HQ. apply (store_with_heap s R ({[a]} ∪ D)); [done| |set_solver].
  replace (dom (inodes s) ∪ D) with ((dom (inodes s) ∪ ({[a]} ∪ D)) ∖ {[a]}) by set_solver. apply al_free_ok; [apply H|set_solver].
Qed.

Lemma owns_live s l R D a : owns s l R D -> a ∈ R -> is_Some (inodes s !! a).
Proof. intros H Ha. apply (so_live _ _ _ (ow_store _ _ _ _ H)). multiset_solver. Qed.

Lemma chain_refs_cons e l : chain_refs (e :: l) = {[+ d_inode e +]} ⊎ chain_refs l.
Proof. done. Qed.
Lemma chain_blocks_cons e l : chain_blocks (e :: l) = {[d_addr e]} ∪ chain_blocks l.
Proof. done. Qed.

Lemma owns_pop s e l R D (Q : unit -> vfs A W -> Prop) : owns s (e :: l) R D -> (forall s', owns s' l R D -> ext (chain_refs l ⊎ R) s s' -> Q tt s') ->
  wp (vfs_inode_put (d_inode e)) (fun _ => wp (heap_free (d_addr e)) Q) s.
Proof.
  intros [H1 H2 H3 H4] HQ. rewrite chain_refs_cons, <- (assoc_L (⊎)) in *. rewrite chain_blocks_cons in *. rewrite <- (assoc_L (∪)) in H1.
  apply list.NoDup_cons in H2 as [Hn H2].
  assert (Hsm : small (chain_refs l ⊎ R)) by (eapply small_sub; [|exact H4]; multiset_solver). eapply wp_put; [exact H1|done|]. intros s1 S1 E1.
  eapply wp_heap_free; [exact S1| |].
  { assert (Hn' : d_addr e ∉ chain_blocks l) by (unfold chain_blocks; by rewrite elem_of_list_to_set). set_solver. }
  intros h S2. apply HQ; [split; [done|done|set_solver|done]|]. eapply ext_trans; [exact E1|apply ext_with_heap].
Qed.

Lemma wp_put_entries l s R D (Q : unit -> vfs A W -> Prop) : owns s l R D -> (forall s', store_ok s' R D -> ext R s s' -> Q tt s') -> wp (put_entries l) Q s.
Proof.
  revert s Q. induction l as [|e l IH]; intros s Q H HQ; cbn [put_entries].
  - apply wp_ret, HQ; [|apply ext_refl]. destruct H as [H _ _ _]. change (chain_refs []) with (∅ : gmultiset Z) in H. change (chain_blocks []) with (∅ : gset Z) in H.
    by rewrite !(left_id_L _ _) in H.
  - apply wp_bind. eapply wp_mono; [apply (owns_pop s e l R D (fun _ => wp (put_entries l) Q)); [done|]|intros x s1 H1; by apply wp_bind]. intros s1 H1 E1.
    apply IH; [done|]. intros s2 H2 E2. apply HQ; [done|]. eapply ext_trans; [eapply ext_sub; [|exact E1]; multiset_solver|done].
Qed.

(** A reference becomes the last entry of the chain, or is given back. *)
Lemma wp_push s p R D a (mount : nat) (Q : Z * vfs_path -> vfs A W -> Prop) : owns s (entry p) ({[+ a +]} ⊎ R) D ->
  (forall s', owns s' (entry p) R D -> ext (chain_refs (entry p) ⊎ R) s s' -> Q (- ENOMEM, p) s') ->
  (forall s' b, let p' := Path (Dentry b a mount (zlen (pname p)) :: entry p) (pname p) in owns s' (entry p') R D -> ext (chain_refs (entry p) ⊎ ({[+ a +]} ⊎ R)) s s' -> Q (0, p') s') ->
  wp (push_entry p a mount) Q s.
Proof.
  intros [H1 H2 H3 H4] Q0 Q1. assert (Er : forall l, chain_refs l ⊎ ({[+ a +]} ⊎ R) = {[+ a +]} ⊎ (chain_refs l ⊎ R)) by (intros l; multiset_solver). rewrite Er in *.
  assert (Hsm : small (chain_refs (entry p) ⊎ R)) by (eapply small_sub; [|exact H4]; multiset_solver). unfold push_entry.
  apply wp_bind, (wp_heap_alloc _ _ _ _ _ H1); [unfold sizeof_dentry; lia| |].
  - intros h Hh. cbn [Z.eqb]. apply wp_bind. eapply wp_put; [exact Hh|done|]. intros s1 S1 E1. apply Q0; [by split|]. eapply ext_trans; [apply ext_with_heap|exact E1].
  - intros b h Hb Hf Hh. destruct (Z.eqb_spec b 0); [done|]. apply wp_ret, Q1; [|apply ext_with_heap]. cbn [entry]. split.
    + rewrite chain_refs_cons, chain_blocks_cons. cbn [d_inode d_addr]. by rewrite <- (assoc_L (⊎)), <- (assoc_L (∪)).
    + rewrite fmap_cons. apply list.NoDup_cons. split; [|done]. cbn [d_addr]. intros Hc. apply Hf. apply elem_of_union_r, elem_of_union_l. unfold chain_blocks.
      by rewrite elem_of_list_to_set.
    + rewrite chain_blocks_cons. cbn [d_addr]. set_solver.
    + rewrite chain_refs_cons. cbn [d_inode]. by rewrite <- (assoc_L (⊎)).
Qed.

(** ** The mount table *)
Definition find_path s (path : list Z) : option nat := find_slot (fun m => live m && bool_decide (mpath m = path)) (mounts s) 0.

Lemma find_slot_Some q (ms : list vfs_mount) j k : find_slot q ms j = Some k -> exists m i, k = (j + i)%nat /\ ms !! i = Some m /\ q m = true.
Proof.
  revert j. induction ms as [|m ms IH]; intros j; cbn [find_slot]; [done|]. destruct (q m) eqn:E.
  - intros [= <-]. exists m, 0%nat. split; [lia|done].
  - intros H. destruct (IH _ H) as (m' & i & -> & Hm & Hq). exists m', (S i). split; [lia|done].
Qed.

Lemma find_slot_None q (ms : list vfs_mount) j i m : find_slot q ms j = None -> ms !! i = Some m -> q m = false.
Proof.
  revert j i. induction ms as [|m' ms IH]; intros j i; cbn [find_slot]; [done|]. destruct (q m') eqn:E; [done|]. intros H. destruct i as [|i]; cbn; [by intros [= <-]|].
  by apply (IH (S j)).
Qed.

Lemma find_slot_shape q (ms ms' : list vfs_mount) j : (forall m m', shape m = shape m' -> q m = q m') -> shape <$> ms' = shape <$> ms ->
  find_slot q ms' j = find_slot q ms j.
Proof.
  intros Hq. revert ms' j. induction ms as [|m ms IH]; intros [|m' ms'] j E; try done. injection E as E1 E2 E3 E4 E5 E6. cbn [find_slot].
  rewrite (Hq m' m) by (unfold shape; congruence). destruct (q m); [done|]. by apply IH.
Qed.

Lemma shape_live m m' : shape m = shape m' -> live m = live m' /\ mpath m = mpath m' /\ root (msuper m) = root (msuper m').
Proof. unfold shape, live. intros [= -> -> -> _ _]. done. Qed.

Lemma find_path_ext R s s' path : ext R s s' -> find_path s' path = find_path s path.
Proof. intros E. apply find_slot_shape; [|apply E]. intros m m' H. by destruct (shape_live m m' H) as (-> & -> & _). Qed.

Lemma ext_mount R s s' j m' : ext R s s' -> mounts s' !! j = Some m' -> exists m, mounts s !! j = Some m /\ shape m' = shape m.
Proof.
  intros E H. pose proof (ex_shape _ _ _ E) as Es. apply (f_equal (fun x : list _ => x !! j)) in Es. rewrite !list_lookup_fmap, H in Es.
  destruct (mounts s !! j) as [m|]; [|done]. exists m. split; [done|]. by apply (inj Some) in Es.
Qed.

(** Every mounted file system has its root among the references. *)
Definition rooted s R : Prop := forall j m, mounts s !! j = Some m -> live m = true -> root (msuper m) ∈ R.

Lemma rooted_ext R0 s s' R : ext R0 s s' -> rooted s R -> rooted s' R.
Proof. intros E H j m' Hm Hl. destruct (ext_mount _ _ _ _ _ E Hm) as (m & Hm0 & Es). destruct (shape_live _ _ Es) as (El & _ & ->). apply (H j); [done|congruence]. Qed.

Lemma rooted_sub s R R' : R ⊆ R' -> rooted s R -> rooted s R'.
Proof. intros HR H j m Hm Hl. specialize (H j m Hm Hl). multiset_solver. Qed.

Lemma find_path_root s R path j : rooted s R -> find_path s path = Some j -> exists m, mounts s !! j = Some m /\ live m = true /\ mpath m = path /\ root (msuper m) ∈ R.
Proof.
  intros Hr H. apply find_slot_Some in H as (m & i & -> & Hm & Hq). apply andb_true_iff in Hq as [Hl Hp]. apply bool_decide_eq_true in Hp. exists m. split; [done|].
  split; [done|]. split; [done|]. by apply (Hr i).
Qed.

(** The innermost mount a path lies in. *)
Fixpoint mount_of s ws : option nat := match find_path s (render ws) with Some j => Some j | None => match ws with [] => None | _ :: ws => mount_of s ws end end.

Lemma mount_of_ext R s s' ws : ext R s s' -> mount_of s' ws = mount_of s ws.
Proof. intros E. induction ws as [|w ws IH]; cbn [mount_of]; rewrite (find_path_ext _ _ _ _ E); [done|]. by rewrite IH. Qed.

(** ** What a path names *)

(** The superblock and the number of the inode a path leads to: [N] lists the names in directories, and the root of a mount covers what its path names. *)
Fixpoint walk N s ws : option (nat * Z) :=
  match find_path s (render ws) with
  | Some j => m ← mounts s !! j; i ← inodes s !! root (msuper m); Some (super (node i), number (node i))
  | None => match ws with [] => None | w :: ws => d ← walk N s ws; n ← N d.1 d.2 w; Some (d.1, n) end
  end.

Lemma walk_ext N R s s' ws : ext R s s' -> rooted s R -> (forall a, a ∈ R -> is_Some (inodes s !! a)) -> walk N s' ws = walk N s ws.
Proof.
  intros E Hr Hl. assert (Hroot : forall j path, find_path s path = Some j ->
    (m ← mounts s' !! j; i ← inodes s' !! root (msuper m); Some (super (node i), number (node i))) = (m ← mounts s !! j; i ← inodes s !! root (msuper m); Some (super (node i), number (node i)))).
  { intros j path Hj. destruct (find_path_root _ _ _ _ Hr Hj) as (m & Hm & _ & _ & Ha). destruct (Hl _ Ha) as [i Hi].
    destruct (ex_node _ _ _ E _ _ Ha Hi) as (i' & Hi' & En). pose proof (ex_shape _ _ _ E) as Es. apply (f_equal (fun x : list _ => x !! j)) in Es.
    rewrite !list_lookup_fmap, Hm in Es.
    destruct (mounts s' !! j) as [m'|]; [|done]. apply (inj Some) in Es. destruct (shape_live _ _ Es) as (_ & _ & Er). rewrite Hm. cbn [mbind option_bind].
    rewrite Er, Hi, Hi'. cbn [mbind option_bind]. by rewrite En. }
  induction ws as [|w ws IH]; cbn [walk]; rewrite (find_path_ext _ _ _ _ E); [|rewrite IH]; destruct (find_path s _) as [j|] eqn:Ej; by eauto.
Qed.

Definition lists N s : Prop := forall j n name, names (disk s) j n name = N j n name.

Lemma lists_disk N s s' : disk s' = disk s -> lists N s -> lists N s'.
Proof. intros E H j n name. by rewrite E. Qed.

(** ** Chains that spell a path *)
Record path_ok N s p ws : Prop := {
  po_name : pname p = render ws;
  po_plain : Forall plain ws;
  po_short : zlen (render ws) < VFS_PATH_MAX;
  po_length : length (entry p) = S (length ws);
  po_entry k e : entry p !! k = Some e -> path_length e = zlen (render (drop k ws)) /\ Some (d_mount e) = mount_of s (drop k ws);
  po_root k e j m : entry p !! k = Some e -> find_path s (render (drop k ws)) = Some j -> mounts s !! j = Some m -> d_inode e = root (msuper m);
  po_walk k e : entry p !! k = Some e -> exists i, inodes s !! d_inode e = Some i /\ walk N s (drop k ws) = Some (super (node i), number (node i));
}.

Lemma path_ok_ext N R s s' p ws : (forall a, a ∈ R -> is_Some (inodes s !! a)) -> rooted s R -> ext (chain_refs (entry p) ⊎ R) s s' -> path_ok N s p ws ->
  path_ok N s' p ws.
Proof.
  intros Ho Hr E [H1 H2 H3 H4 H5 H6 H7]. split; try done; [intros k e He; rewrite (mount_of_ext _ _ _ _ E); by apply H5| |].
  - intros k e j m' He. rewrite (find_path_ext _ _ _ _ E). intros Hj Hm. destruct (ext_mount _ _ _ _ _ E Hm) as (m & Hm0 & Es).
    destruct (shape_live _ _ Es) as (_ & _ & ->). by eapply H6.
  - intros k e He. destruct (H7 k e He) as (i & Hi & Hw). destruct (ex_node _ _ _ E (d_inode e) i) as (i' & Hi' & En); [|done|].
    { apply gmultiset_elem_of_disj_union. left. unfold chain_refs. rewrite elem_of_list_to_set_disj. apply list_elem_of_fmap. exists e. split; [done|].
      by eapply list_elem_of_lookup_2. }
    exists i'. split; [done|]. rewrite En, <- Hw. apply (walk_ext N R); [eapply ext_sub; [|exact E]; multiset_solver|done|done].
Qed.

Lemma path_ok_cons N s p ws w b a i mount : path_ok N s p ws -> inodes s !! a = Some i -> walk N s (w :: ws) = Some (super (node i), number (node i)) -> plain w ->
  zlen (render (w :: ws)) < VFS_PATH_MAX -> Some mount = mount_of s (w :: ws) ->
  (forall j m, find_path s (render (w :: ws)) = Some j -> mounts s !! j = Some m -> a = root (msuper m)) ->
  path_ok N s (Path (Dentry b a mount (zlen (render (w :: ws))) :: entry p) (render (w :: ws))) (w :: ws).
Proof.
  intros [H1 H2 H3 H4 H5 H6 H7] Hi Hwk Hw Hl Hm Ha. split; cbn [pname entry]; [done|by apply Forall_cons_2|done|cbn; lia| | |].
  - intros [|k] e; cbn [lookup list_lookup drop]; [by intros [= <-]|]. apply H5.
  - intros [|k] e j m; cbn [lookup list_lookup drop]; [intros [= <-]; by apply Ha|]. apply H6.
  - intros [|k] e; cbn [lookup list_lookup drop]; [intros [= <-]; by exists i|]. apply H7.
Qed.

Lemma path_ok_tail N s p e parents w ws : path_ok N s p (w :: ws) -> entry p = e :: parents ->
  path_ok N s (Path parents (take (match parents with d :: _ => Z.to_nat (path_length d) | [] => 0%nat end) (pname p))) ws.
Proof.
  intros [H1 H2 H3 H4 H5 H6 H7] He. rewrite He in *. apply Forall_cons_1 in H2 as [Hw H2]. cbn in H4. destruct parents as [|d parents]; [done|].
  destruct (H5 1%nat d eq_refl) as [Hd _]. cbn [drop] in Hd.
  split; cbn [pname entry]; [|done| |lia|intros k e' Hk; by apply (H5 (S k))|intros k e' j m Hk; by apply (H6 (S k))|intros k e' Hk; by apply (H7 (S k))].
  - rewrite H1, Hd. unfold zlen. rewrite Nat2Z.id. apply render_take.
  - rewrite (render_cons w) in H3 by done. unfold zlen in *. rewrite !length_app in H3. lia.
Qed.

Lemma path_ok_root N s p ws e : path_ok N s p ws -> entry p = [e] -> ws = [].
Proof. intros H He. pose proof (po_length _ _ _ _ H) as Hl. rewrite He in Hl. by destruct ws. Qed.

(** ** Lookup *)

(** Room for [n] more references. *)
Definition room l R (n : Z) : Prop := Z.of_nat (size (chain_refs l ⊎ R)) + n < 2 ^ 32 - 1.

Lemma chain_size l : size (chain_refs l) = length l.
Proof. induction l as [|e l IH]; [done|]. rewrite chain_refs_cons, gmultiset_size_disj_union, gmultiset_size_singleton, IH. done. Qed.

Lemma room_length l R n : room l R n <-> Z.of_nat (length l) + Z.of_nat (size R) + n < 2 ^ 32 - 1.
Proof. unfold room. rewrite gmultiset_size_disj_union, chain_size. lia. Qed.

Lemma owns_ref s s1 l R D a : owns s l R D -> room l R 1 -> store_ok s1 ({[+ a +]} ⊎ (chain_refs l ⊎ R)) (chain_blocks l ∪ D) -> owns s1 l ({[+ a +]} ⊎ R) D.
Proof.
  intros [H1 H2 H3 H4] Hr H. assert (E : chain_refs l ⊎ ({[+ a +]} ⊎ R) = {[+ a +]} ⊎ (chain_refs l ⊎ R)) by multiset_solver. split; [by rewrite E|done|done|]. rewrite E.
  unfold small, room in *. rewrite gmultiset_size_disj_union, gmultiset_size_singleton. lia.
Qed.

Lemma owns_disk s l R D w : owns s l R D -> owns (with_disk s w) l R D.
Proof. intros [H1 H2 H3 H4]. split; [by apply store_with_disk|done|done|done]. Qed.

Lemma owns_entry s e l R D : owns s (e :: l) R D -> exists i, inodes s !! d_inode e = Some i.
Proof.
  intros H. destruct (store_owned _ _ _ (d_inode e) (ow_store _ _ _ _ H)) as (i & m & Hi & _); [rewrite chain_refs_cons; multiset_solver|]. eauto.
Qed.

Lemma wp_child_name N s p ws w (Q : option (list Z) -> vfs A W -> Prop) : path_ok N s p ws -> Q None s ->
  (zlen (render (w :: ws)) < VFS_PATH_MAX -> Q (Some (render (w :: ws))) s) -> wp (child_name (pname p) (zlen (render ws)) w) Q s.
Proof.
  intros H Q0 Q1. rewrite (po_name _ _ _ _ H). pose proof (po_short _ _ _ _ H) as Hs. pose proof (po_plain _ _ _ _ H) as Hp. pose proof (render_pos ws).
  unfold child_name. destruct (Z.geb_spec (zlen (render ws)) VFS_PATH_MAX); [lia|]. rewrite andb_false_r.
  assert (Et : take (Z.to_nat (zlen (render ws))) (render ws) = render ws) by (unfold zlen; rewrite Nat2Z.id; apply take_ge; lia). rewrite Et.
  rewrite (render_cons w ws Hp) in *. set (at' := if zlen (render ws) >? 1 then _ else _).
  assert (Ea : at' = zlen (render ws ++ (if zlen (render ws) >? 1 then [SLASH] else []))) by (unfold at', zlen; rewrite length_app; destruct (_ >? 1); cbn [length]; lia).
  assert (Hat : 1 <= at' <= VFS_PATH_MAX) by (unfold at'; destruct (_ >? 1); lia). unfold VFS_PATH_MAX in *. rewrite u64_small by lia.
  destruct (Z.geb_spec (zlen w) (260 - at')); apply wp_ret; [done|]. rewrite <- (assoc_L (++)). apply Q1.
  rewrite (assoc_L (++)). unfold zlen in *. rewrite length_app. lia.
Qed.

(** What a lookup that ends with [r] leaves: a chain, which spells [ws] if it succeeds. *)
Definition found N s R D ws (r : Z * vfs_path) s' : Prop := owns s' (entry r.2) R D /\ ext R s s' /\ lists N s' /\ r.1 <= 0 /\ (r.1 = 0 -> path_ok N s' r.2 ws).

Lemma wp_call_lookup N s l R D o f dir name (Q : Z -> vfs A W -> Prop) : lists N s -> op_lookup o = Some f -> owns s l R D -> room l R 1 ->
  (exists b k, inodes s !! b = Some k /\ super (node k) = super dir) ->
  (forall s', owns s' l R D -> ext (chain_refs l ⊎ R) s s' -> lists N s' -> Q 0 s') ->
  (forall a i s', a <> 0 -> owns s' l ({[+ a +]} ⊎ R) D -> ext (chain_refs l ⊎ R) s s' -> lists N s' -> inodes s' !! a = Some i -> super (node i) = super dir -> N (super dir) (number dir) name = Some (number (node i)) -> Q a s') ->
  wp (call_lookup f dir name) Q s.
Proof.
  intros HN Hf Ho Hr Hm Q0 Q1. unfold call_lookup. apply wp_bind, wp_backend. intros v w Ew.
  assert (HN1 : lists N (with_disk s w)) by (intros j n x; cbn [with_disk disk]; rewrite (lookup_steady _ _ _ _ _ _ _ _ _ _ Hf Ew); apply HN).
  destruct v as [v|]; [|apply wp_ret, Q0; [by apply owns_disk|apply ext_with_disk|done]].
  pose proof (lookup_names _ _ _ _ _ _ _ Hf Ew) as Hn. rewrite HN in Hn. apply wp_steady; [apply steady_get|].
  eapply wp_get; [exact (lookup_proper _ _ _ _ _ _ _ Hf Ew)|apply (owns_disk _ _ _ _ w Ho)|exact Hm| |].
  - intros s' S' E' Hd. apply Q0; [|eapply ext_trans; [apply ext_with_disk|exact E']|by eapply lists_disk]. destruct Ho as [_ N1 N2 N3]. by split.
  - intros a i s' Ha S' E' Hi Esup En Hd.
    apply (Q1 a i); [done|by eapply owns_ref|eapply ext_trans; [apply ext_with_disk|exact E']|by eapply lists_disk|done|exact Esup|by rewrite Hn, En].
Qed.

(** A reference to what [w] names is added to the chain. *)
Lemma wp_push_found N s s1 p ws w R D a i mount : owns s1 (entry p) ({[+ a +]} ⊎ R) D -> ext R s s1 -> rooted s1 R -> lists N s1 -> path_ok N s1 p ws -> plain w ->
  zlen (render (w :: ws)) < VFS_PATH_MAX -> inodes s1 !! a = Some i ->
  walk N s1 (w :: ws) = Some (super (node i), number (node i)) -> Some mount = mount_of s1 (w :: ws) ->
  (forall j m, find_path s1 (render (w :: ws)) = Some j -> mounts s1 !! j = Some m -> a = root (msuper m)) ->
  wp (push_entry (Path (entry p) (render (w :: ws))) a mount) (found N s R D (w :: ws)) s1.
Proof.
  intros O1 E1 Hr HN Hp Hw Hl Hi Hwk Hm Ha. assert (Hr' : rooted s1 ({[+ a +]} ⊎ R)) by (eapply rooted_sub; [|exact Hr]; multiset_solver).
  apply wp_steady; [apply steady_push|]. apply (wp_push s1 (Path (entry p) (render (w :: ws))) R D a); [done| |].
  - intros s2 O2 E2 Hd. split; [done|]. split; [eapply ext_trans; [exact E1|]; eapply ext_sub; [|exact E2]; multiset_solver|]. split; [by eapply lists_disk|]. by cbn.
  - intros s2 b p' O2 E2 Hd. cbn [entry] in E2. assert (E12 : ext R s1 s2) by (eapply ext_sub; [|exact E2]; multiset_solver). split; [done|].
    split; [by eapply ext_trans|]. split; [by eapply lists_disk|]. split; [done|]. intros _.
    destruct (ex_node _ _ _ E2 a i) as (i2 & Hi2 & En); [multiset_solver|done|].
    apply (path_ok_cons N s2 p ws w b a i2); [eapply (path_ok_ext N ({[+ a +]} ⊎ R) s1); [intros c; by eapply owns_live|done|exact E2|done]|done| |done|done|by rewrite (mount_of_ext _ _ _ _ E12)|].
    + rewrite En, <- Hwk. apply (walk_ext N ({[+ a +]} ⊎ R)); [eapply ext_sub; [|exact E2]; multiset_solver|done|]. intros c. by eapply owns_live.
    + intros j m'. rewrite (find_path_ext _ _ _ _ E12). intros Hj Hm'. destruct (ext_mount _ _ _ _ _ E12 Hm') as (m & Hm0 & Es).
      destruct (shape_live _ _ Es) as (_ & _ & ->). by eapply Ha.
Qed.

Lemma wp_component N s p e i parents ws R D w : owns s (entry p) R D -> path_ok N s p ws -> lists N s -> entry p = e :: parents -> inodes s !! d_inode e = Some i ->
  type (node i) = VFS_NODE_DIRECTORY -> rooted s R -> room (entry p) R 1 -> plain w ->
  wp (lookup_component p e (node i) w) (found N s R D (w :: ws)) s.
Proof.
  intros Ho Hp HN He Hi Hdir Hr Hroom Hw. unfold lookup_component. destruct (po_entry _ _ _ _ Hp 0%nat e) as [-> Hme]; [by rewrite He|]. cbn [drop] in *.
  apply wp_bind, (wp_child_name N s p ws w); [done|by apply wp_ret; split; [|split; [apply ext_refl|split]]|]. intros Hshort.
  apply wp_bind. change (wp (vfs_find_mount (render (w :: ws))) ?Q s) with (Q (find_path s (render (w :: ws))) s). cbn [entry pname].
  set (out := Path (entry p) (render (w :: ws))).
  assert (Hfail : forall c s', c < 0 -> owns s' (entry p) R D -> ext R s s' -> lists N s' -> found N s R D (w :: ws) (c, out) s') by (intros c s' Hc H1 H2 H3; split; [done|split; [done|split; [done|cbn [fst]; lia]]]).
  destruct (find_path s (render (w :: ws))) as [j|] eqn:Ej.
  - destruct (find_path_root _ _ _ _ Hr Ej) as (m & Hm & _ & _ & Hroot). apply wp_bind, (wp_super_at _ m); [done|]. apply wp_bind, wp_steady; [apply steady_ref|].
    eapply wp_ref; [apply Ho|multiset_solver|]. intros s1 S1 E1 Hd.
    destruct (Z.eqb_spec (root (msuper m)) 0) as [E0|E0]; [exfalso; by eapply (store_nonnull s _ _ _ (ow_store _ _ _ _ Ho)); [|exact E0]; multiset_solver|].
    destruct (so_live _ _ _ (ow_store _ _ _ _ Ho) (root (msuper m))) as [k Hk]; [multiset_solver|]. destruct (ex_node _ _ _ (E1 R) _ _ Hroot Hk) as (k1 & Hk1 & En).
    apply (wp_push_found N s s1 p ws w R D _ k1); [by eapply owns_ref|apply E1|exact (rooted_ext R _ _ _ (E1 R) Hr)|by eapply lists_disk|eapply (path_ok_ext N R s); [intros c; by eapply owns_live|done|apply E1|done]|done|done|done| |rewrite (mount_of_ext _ _ _ _ (E1 R)); cbn [mount_of]; by rewrite Ej|].
    + rewrite (walk_ext N R s); [|done|done|intros c; by eapply owns_live]. cbn [walk]. rewrite Ej, Hm. cbn [mbind option_bind]. by rewrite Hk, En.
    + intros j' m'. rewrite (find_path_ext _ _ _ _ (E1 R)), Ej. intros [= <-] Hm'. destruct (ext_mount _ _ _ _ _ (E1 R) Hm') as (m0 & Hm0 & Es).
      destruct (shape_live _ _ Es) as (_ & _ & ->). congruence.
  - apply wp_bind, wp_deref; [exact (so_proper _ _ _ (ow_store _ _ _ _ Ho) _ _ Hi Hdir)|].
    destruct (op_lookup (operations (node i))) as [f|] eqn:Ef; [|apply wp_ret, Hfail; [done|done|apply ext_refl|done]]. apply wp_bind.
    eapply (wp_call_lookup N s); [done|exact Ef|done|done|eauto| |].
    + intros s1 O1 E1 HN1. apply wp_ret, Hfail; [done|done| |done]. eapply ext_sub; [|exact E1]. multiset_solver.
    + intros a k s1 Ha O1 E1 HN1 Hk Hsup Hnum. destruct (Z.eqb_spec a 0); [done|]. assert (E1' : ext R s s1) by (eapply ext_sub; [|exact E1]; multiset_solver).
      apply (wp_push_found N s s1 p ws w R D _ k); [done|done|by eapply rooted_ext|done|eapply (path_ok_ext N R s); [intros c; by eapply owns_live|done|apply E1|done]|done|done|done| |rewrite (mount_of_ext _ _ _ _ E1'); cbn [mount_of]; by rewrite Ej|rewrite (find_path_ext _ _ _ _ E1'); by rewrite Ej].
      rewrite (walk_ext N R s); [|done|done|intros c; by eapply owns_live]. cbn [walk]. rewrite Ej.
      destruct (po_walk _ _ _ _ Hp 0%nat e) as (i' & Hi' & Hwk); [by rewrite He|]. rewrite drop_0 in Hwk. rewrite Hi in Hi'. injection Hi' as <-. rewrite Hwk.
      cbn [mbind option_bind fst snd]. rewrite Hnum. cbn [mbind option_bind]. by rewrite Hsup.
Qed.

Lemma found_weaken N s s1 R D ws r s' : ext R s s1 -> found N s1 R D ws r s' -> found N s R D ws r s'.
Proof. intros E (H1 & H2 & H3). split; [done|]. split; [by eapply ext_trans|done]. Qed.

Lemma is_dot_spec w : reflect (w = [DOT]) (is_dot w).
Proof. unfold is_dot. apply bool_decide_reflect. Qed.
Lemma is_dotdot_spec w : reflect (w = [DOT; DOT]) (is_dotdot w).
Proof. unfold is_dotdot. apply bool_decide_reflect. Qed.

Lemma resolved_cons w vs ws : resolved ws (w :: vs) = resolved (resolve_step ws w) vs.
Proof. done. Qed.

Lemma wp_lookup_loop N fuel rest s p ws R D : (length rest < fuel)%nat -> owns s (entry p) R D -> path_ok N s p ws -> lists N s -> rooted s R ->
  room (entry p) R (zlen rest) ->
  wp (lookup_loop fuel rest p) (found N s R D (resolved ws (words rest))) s.
Proof.
  revert rest s p ws. induction fuel as [|fuel IH]; intros rest s p ws Hf Ho Hp HN Hr Hroom; [lia|].
  destruct rest as [|c rest]; cbn [lookup_loop]; [apply wp_ret; split; [done|split; [apply ext_refl|by split]]|].
  assert (Hz : zlen (c :: rest) = zlen rest + 1) by (unfold zlen; cbn [length]; lia). cbn [length] in Hf. assert (H0 : 0 <= zlen rest) by (unfold zlen; lia).
  apply room_length in Hroom.
  destruct (Z.eqb_spec c SLASH) as [->|Hc]; [rewrite words_slash; apply IH; try done; [lia|apply room_length; lia]|].
  destruct (entry p) as [|e parents] eqn:He; [by pose proof (po_length _ _ _ _ Hp) as Hl; rewrite He in Hl|]. destruct (owns_entry _ _ _ _ _ Ho) as (i & Hi).
  apply wp_bind, (wp_inode_at _ i); [done|].
  assert (Hfail : forall k, k < 0 -> found N s R D (resolved ws (words (c :: rest))) (k, p) s) by (intros k Hk; split; [cbn [snd]; by rewrite He|split; [apply ext_refl|split; [done|cbn [fst]; lia]]]).
  destruct (Z.eqb_spec (type (node i)) VFS_NODE_DIRECTORY) as [Hdir|]; cbn [negb]; [|by apply wp_ret, Hfail]. rewrite (words_component c rest Hc) in Hfail |- *.
  pose proof (component_length c rest Hc) as Hcl. pose proof (component_no_slash (c :: rest)) as Hcs. set (w := component (c :: rest)) in *.
  set (rest' := drop (length w) (c :: rest)) in *.
  assert (Hl' : (length rest' < fuel)%nat /\ zlen rest' <= zlen rest) by (unfold rest', zlen; rewrite length_drop; cbn [length]; lia). destruct Hl' as [Hl1 Hl2].
  destruct (Z.gtb_spec (zlen w) VFS_NAME_MAX) as [|Hlen]; [by apply wp_ret, Hfail|].
  rewrite resolved_cons in *. unfold resolve_step in *. destruct (is_dot_spec w) as [|Hd]; [apply IH; try done; [by rewrite He|by rewrite He; apply room_length; lia]|].
  destruct (is_dotdot_spec w) as [|Hdd].
  - destruct parents as [|d parents]; [assert (Ews : ws = []) by (by eapply path_ok_root); subst ws; apply IH; try done; [by rewrite He|by rewrite He; apply room_length; lia]|].
    destruct ws as [|v ws]; [by pose proof (po_length _ _ _ _ Hp) as Hl; rewrite He in Hl|]. pose proof (path_ok_tail N s p e _ v ws Hp He) as Hp'. cbn [tail].
    apply wp_bind, wp_steady; [apply steady_pop|]. unfold pop_entry. rewrite He. apply wp_bind.
    eapply wp_mono; [apply (owns_pop s e (d :: parents) R D (fun _ s1 => owns s1 (d :: parents) R D /\ ext (chain_refs (d :: parents) ⊎ R) s s1)); [done|]; intros s1 O1 E1; by split|].
    intros [] s1 H1. apply wp_bind. eapply wp_mono; [exact H1|]. intros [] s2 [O2 E2]. apply wp_ret. intros Hd2.
    assert (E2' : ext R s s2) by (eapply ext_sub; [|exact E2]; multiset_solver).
    eapply wp_mono; [apply IH|intros r s3; by apply found_weaken]; [done|done|eapply (path_ok_ext N R s); [intros a; by eapply owns_live|done|exact E2|exact Hp']|by eapply lists_disk|by eapply rooted_ext|].
    apply room_length. cbn [entry length] in *. lia.
  - apply wp_bind. eapply wp_mono; [eapply (wp_component N s p e i parents ws R D w); [by rewrite He|done|done|done|done|done|done|rewrite He; apply room_length; lia|]|].
    { split; [intros Ew; rewrite Ew in Hcl; cbn in Hcl; lia|]. split; [done|]. split; [done|]. split; [done|lia]. }
    intros r s1 (O1 & E1 & N1 & L1 & P1). destruct (Z.eqb_spec r.1 0) as [E0|E0]; cbn [negb]; [|by apply wp_ret; split; [|split; [|split]]]. specialize (P1 E0).
    eapply wp_mono; [apply IH|intros r' s3; by apply found_weaken]; [done|done|done|done|by eapply rooted_ext|]. apply room_length.
    pose proof (po_length _ _ _ _ P1) as Hl. pose proof (po_length _ _ _ _ Hp) as Hl0. rewrite He in Hl0. cbn [length] in *. lia.
Qed.

(** What [vfs_lookup] ends with: an error and nothing owned, or a chain that spells the resolved path. *)
Definition lookup_result s R D (path : list Z) (r : Z * vfs_path) s' : Prop :=
  ext R s s' /\ ((r.1 < 0 /\ entry r.2 = [] /\ store_ok s' R D) \/
    (r.1 = 0 /\ zlen path < VFS_PATH_MAX /\ rd path 0 = SLASH /\ owns s' (entry r.2) R D /\ lists (names (disk s)) s' /\ path_ok (names (disk s)) s' r.2 (resolved [] (words path)))).

Lemma wp_find_mount s path (Q : option nat -> vfs A W -> Prop) : Q (find_path s path) s -> wp (vfs_find_mount path) Q s.
Proof. done. Qed.

Lemma path_length_cases path : (vfs_path_length path < 0) \/ (vfs_path_length path = zlen path /\ zlen path < VFS_PATH_MAX /\ rd path 0 = SLASH /\ 1 <= zlen path).
Proof.
  unfold vfs_path_length. destruct (Z.eqb_spec (rd path 0) SLASH) as [E|]; cbn [negb]; [|by left]. destruct (Z.ltb_spec (zlen path) VFS_PATH_MAX); [|by left]. right.
  split; [done|]. split; [done|]. split; [done|].
  destruct path; [done|]. unfold zlen. cbn [length]. lia.
Qed.

Lemma words_drop1 path : rd path 0 = SLASH -> words (drop 1 path) = words path.
Proof. destruct path as [|c path]; [done|]. intros E. change (rd (c :: path) 0) with c in E. by subst c. Qed.

(** What there must be for a lookup: the roots, and room for the references it takes meanwhile. *)
Definition ready s R D : Prop := store_ok s R D /\ rooted s R /\ Z.of_nat (size R) + 600 < 2 ^ 32.

Lemma ready_ext s s' R D : ready s R D -> ext R s s' -> store_ok s' R D -> ready s' R D.
Proof. intros (H1 & H2 & H3) E H. split; [done|]. split; [by eapply rooted_ext|done]. Qed.

Lemma ready_small s R D : ready s R D -> small R.
Proof. intros (_ & _ & H). unfold small. lia. Qed.

Lemma owns_nil s R D : store_ok s R D -> small R -> owns s [] R D.
Proof.
  intros H Hs.
  split; [|constructor|apply disjoint_empty_l|]; change (chain_refs []) with (∅ : gmultiset Z); change (chain_blocks []) with (∅ : gset Z); by rewrite !(left_id_L _ _).
Qed.

Lemma wp_path_inode N s p ws R D (Q : vfs_inode -> vfs A W -> Prop) : owns s (entry p) R D -> path_ok N s p ws ->
  (forall e l i, entry p = e :: l -> inodes s !! d_inode e = Some i -> Q i s) -> wp (path_inode p) Q s.
Proof.
  intros Ho Hp HQ. unfold path_inode. destruct (entry p) as [|e l] eqn:He; [by pose proof (po_length _ _ _ _ Hp) as Hl; rewrite He in Hl|].
  destruct (owns_entry _ _ _ _ _ Ho) as (i & Hi). apply (wp_inode_at _ i); [done|]. by apply (HQ e l).
Qed.

Lemma wp_path_put s p R D (Q : unit -> vfs A W -> Prop) : owns s (entry p) R D -> (forall s', store_ok s' R D -> ext R s s' -> Q tt s') -> wp (vfs_path_put p) Q s.
Proof. apply wp_put_entries. Qed.

Lemma wp_lookup s R D path : ready s R D -> wp (vfs_lookup path) (lookup_result s R D path) s.
Proof.
  intros (Hs & Hr & Hb). unfold vfs_lookup. apply wp_bind, wp_find_mount.
  assert (Hbad : forall c, c < 0 -> lookup_result s R D path (c, Path [] []) s) by (intros c Hc; split; [apply ext_refl|by left]).
  destruct (find_path s [SLASH]) as [j|] eqn:Ej; [|by apply wp_ret, Hbad]. cbv zeta.
  destruct (path_length_cases path) as [Hl|(El & Hl & H0 & H1)]; [rewrite (proj2 (Z.ltb_lt _ 0)) by done; by apply wp_ret, Hbad|].
  rewrite El, (proj2 (Z.ltb_ge _ 0)) by lia. destruct (find_path_root _ _ _ _ Hr Ej) as (m & Hm & _ & _ & Hroot). apply wp_bind, (wp_super_at _ m); [done|].
  apply wp_bind, wp_steady; [apply steady_ref|]. eapply wp_ref; [exact Hs|done|]. intros s1 S1 E1 D1. destruct (so_live _ _ _ Hs _ Hroot) as [i0 Hi0].
  destruct (ex_node _ _ _ (E1 R) _ _ Hroot Hi0) as (i1 & Hi1 & En1).
  assert (O1 : owns s1 [] ({[+ root (msuper m) +]} ⊎ R) D) by (apply owns_nil; [done|unfold small; rewrite gmultiset_size_disj_union, gmultiset_size_singleton; lia]).
  apply wp_bind, wp_steady; [apply steady_push|]. apply (wp_push s1 (Path [] [SLASH]) R D _ j); [done| |].
  { intros s2 O2 E2 _. apply wp_ret. split; [eapply ext_trans; [apply (E1 R)|]; eapply ext_sub; [|exact E2]; multiset_solver|]. left. split; [done|]. split; [done|].
    destruct O2 as [O2 _ _ _]. cbn [entry] in O2. change (chain_refs []) with (∅ : gmultiset Z) in O2. change (chain_blocks []) with (∅ : gset Z) in O2.
    by rewrite !(left_id_L _ _) in O2. }
  intros s2 b p' O2 E2 D2. cbn [entry fst snd Z.eqb negb] in *. set (N := names (disk s)).
  assert (E12 : ext R s s2) by (eapply ext_trans; [apply (E1 R)|]; eapply ext_sub; [|exact E2]; multiset_solver).
  assert (N2 : lists N s2) by (intros x y z; by rewrite D2, D1). assert (P2 : path_ok N s2 p' []).
  { assert (Hm2 : forall m2, mounts s2 !! j = Some m2 -> root (msuper m) = root (msuper m2)).
    { intros m2 Hm2. destruct (ext_mount _ _ _ _ _ E12 Hm2) as (m0 & Hm0 & Es). destruct (shape_live _ _ Es) as (_ & _ & ->). congruence. }
    destruct (ex_node _ _ _ E2 (root (msuper m)) i1) as (i2 & Hi2 & En2); [multiset_solver|done|].
    split; [done|constructor|done|done| |intros [|k] e j2 m2; [|done]; intros [= <-]; cbn [drop]; change (render []) with [SLASH]; rewrite (find_path_ext _ _ _ _ E12), Ej; intros [= <-]; by apply Hm2|].
    - intros [|k] e; [|done]. intros [= <-]. cbn [drop path_length d_mount mount_of]. split; [done|]. change (render []) with [SLASH].
      by rewrite (find_path_ext _ _ _ _ E12), Ej.
    - intros [|k] e; [|done]. intros [= <-]. cbn [drop d_inode]. exists i2. split; [done|]. rewrite (walk_ext N R s); [|done|done|apply Hs]. cbn [walk].
      change (render []) with [SLASH]. rewrite Ej, Hm. cbn [mbind option_bind]. rewrite Hi0. cbn [mbind option_bind]. by rewrite En2, En1. }
  apply wp_bind. eapply wp_mono; [apply (wp_lookup_loop N _ _ s2 p' [] R D); [rewrite length_drop; unfold zlen in *; lia|done|done|done|by eapply rooted_ext|]|].
  { apply room_length. unfold zlen. rewrite length_drop. unfold zlen, VFS_PATH_MAX in *. cbn [entry length p']. lia. }
  intros r s3 (O3 & E3 & N3 & L3 & P3). assert (E13 : ext R s s3) by (by eapply ext_trans). rewrite words_drop1 in P3 by done.
  destruct (Z.eqb_spec r.1 0) as [Er|Er]; cbn [negb].
  - specialize (P3 Er). apply wp_bind. eapply wp_path_inode; [done|done|]. intros e l i He Hi. destruct (_ && _); [|apply wp_ret; split; [done|]; right; done].
    apply wp_bind. eapply wp_path_put; [done|]. intros s4 S4 E4. apply wp_ret. split; [by eapply ext_trans|by left].
  - apply wp_bind. eapply wp_path_put; [done|]. intros s4 S4 E4. apply wp_ret. split; [by eapply ext_trans|]. left. split; [cbn [fst]; lia|done].
Qed.
End Lookup.
