(* ===== verification/VfsOps.v ===== *)
(** The operations of the file system switch keep its references exact. *)
From stdpp Require Import gmultiset.
From S2P Require Import Prelude Alloc Vfs VfsSpec VfsPath VfsLookup.

Section Ops.
Context {A W : Type} `{!AllocOps A, !AllocLaws A, !Backend W, !BackendLaws W}.
Abbreviation M := (Vfs.M A W).
Implicit Types (s : vfs A W) (R : gmultiset Z) (D : gset Z) (a : Z) (j : nat) (p : vfs_path) (ws : list (list Z)).

(** ** Names in a directory *)
Definition parent_result s R D (path : list Z) (r : Z * vfs_path * list Z * bool) s' : Prop :=
  let '(result, p, name, _) := r in
  ext R s s' /\ ((result < 0 /\ store_ok s' R D) \/
    (result = 0 /\ owns s' (entry p) R D /\ lists (names (disk s)) s' /\ exists ws, resolved [] (words path) = name :: ws /\ path_ok (names (disk s)) s' (Path (entry p) (render ws)) ws /\ plain name /\ find_path s' (render (name :: ws)) = None /\
      forall e l i, entry p = e :: l -> inodes s' !! d_inode e = Some i -> operations (node i) <> 0)).

Lemma wp_mount_contains s path (Q : bool -> vfs A W -> Prop) : (forall b, vfs_mount_contains path s = Some (b, s) -> Q b s) -> wp (vfs_mount_contains path) Q s.
Proof. intros HQ. by apply HQ. Qed.

Lemma path_ok_render N s p ws : path_ok N s p ws -> path_ok N s (Path (entry p) (render ws)) ws.
Proof. intros [H1 H2 H3 H4 H5 H6 H7]. by split. Qed.

Lemma mount_contains_path s path : vfs_mount_contains path s = Some (false, s) -> find_path s path = None.
Proof.
  intros E. destruct (find_path s path) as [j|] eqn:Ej; [|done]. exfalso. apply find_slot_Some in Ej as (m & i & _ & Hm & Hq). apply andb_true_iff in Hq as [Hl Hp].
  apply bool_decide_eq_true in Hp. unfold vfs_mount_contains, gets in E. injection E as E. apply not_true_iff_false in E. apply E.
  apply existsb_exists. exists m. split; [apply list_elem_of_In; by eapply list_elem_of_lookup_2|]. rewrite Hl, Hp. unfold starts_with.
  rewrite bool_decide_true by (by rewrite take_ge). replace (rd path (zlen path)) with 0; [by rewrite orb_true_r|]. unfold rd, zlen. rewrite Nat2Z.id.
  by rewrite lookup_ge_None_2.
Qed.

Lemma wp_lookup_parent s R D path : ready s R D -> wp (vfs_lookup_parent path) (parent_result s R D path) s.
Proof.
  intros Hrd. pose proof Hrd as (Hs & _ & _). unfold vfs_lookup_parent. cbv zeta.
  assert (Hbad : forall c n t, c < 0 -> parent_result s R D path (c, Path [] [], n, t) s) by (intros c n t Hc; split; [apply ext_refl|by left]).
  destruct (path_length_cases path) as [Hl|(El & Hl & H0 & H1)]; [rewrite (proj2 (Z.ltb_lt _ 0)) by done; by apply wp_ret, Hbad|].
  rewrite El, (proj2 (Z.ltb_ge _ 0)) by lia. replace (Z.to_nat (zlen path)) with (length path) by (unfold zlen; by rewrite Nat2Z.id).
  pose proof (words_last_name path H0) as Hlast. cbv zeta in Hlast. set (n := trim_length _ _) in *. pose proof (name_no_slash path n) as Hns.
  set (name := take _ _) in *.
  destruct ((zlen name =? 0) || (zlen name >? VFS_NAME_MAX)) eqn:E1; [by apply wp_ret, Hbad|]. destruct (is_dot name || is_dotdot name) eqn:E2; [by apply wp_ret, Hbad|].
  apply orb_false_iff in E1 as [E1 E1']. apply orb_false_iff in E2 as [E2 E2'].
  assert (Hpl : plain name).
  { split; [intros E; apply Z.eqb_neq in E1; by rewrite E in E1|]. split; [done|]. split; [revert E2; by destruct (is_dot_spec name)|].
    split; [revert E2'; by destruct (is_dotdot_spec name)|]. zbool. lia. }
  apply wp_bind. eapply wp_mono; [by apply wp_lookup|]. intros [c p] s1 [Ex Hc]. cbn [fst snd] in Hc.
  destruct Hc as [(Hc & _ & S1)|(-> & _ & _ & O1 & N1 & P1)]; [rewrite (proj2 (Z.eqb_neq c 0)) by lia; cbn [negb]; apply wp_ret; split; [done|by left]|].
  cbn [Z.eqb negb].
  apply wp_bind. eapply wp_path_inode; [done|done|]. intros e l i He Hi.
  assert (Hfail : forall k, k < 0 -> wp (vfs_path_put p ≫= fun _ => mret (k, Path [] [], name, rd path (zlen path - 1) =? SLASH)) (parent_result s R D path) s1).
  { intros k Hk. apply wp_bind. eapply wp_path_put; [done|]. intros s2 S2 E2x. apply wp_ret. split; [by eapply ext_trans|by left]. }
  destruct (Z.eqb_spec (type (node i)) VFS_NODE_DIRECTORY) as [Hdir|]; cbn [negb]; [|by apply Hfail]. set (ws := resolved _ _) in *. rewrite (po_name _ _ _ _ P1).
  apply wp_bind. rewrite <- (po_name _ _ _ _ P1) at 1. apply (wp_child_name (names (disk s)) s1 p ws name); [done|by apply Hfail|]. intros Hsh.
  apply wp_bind, wp_mount_contains. intros [] Hb; [by apply Hfail|]. apply wp_ret. split; [done|]. right. split; [done|]. split; [done|]. split; [done|]. exists ws.
  split; [by rewrite (Hlast (proj1 Hpl)), resolved_app, resolved_plain|]. split; [exact (path_ok_render _ s1 p ws P1)|]. split; [done|].
  split; [by apply mount_contains_path|]. intros e' l' i' He' Hi'. rewrite He in He'. injection He' as <- <-. rewrite Hi in Hi'. injection Hi' as <-.
  exact (so_proper _ _ _ (ow_store _ _ _ _ O1) _ _ Hi Hdir).
Qed.

(** Only the file systems change. *)
Definition disk_only {X} s (P : X -> Prop) (x : X) s' : Prop := (exists w, s' = with_disk s w) /\ P x.

Lemma disk_only_refl {X} s (P : X -> Prop) x : P x -> disk_only s P x s.
Proof. intros H. split; [|done]. exists (disk s). by destruct s. Qed.

Lemma with_disk_twice s w w' : with_disk (with_disk s w) w' = with_disk s w'.
Proof. done. Qed.

Lemma wp_has_entries fuel o f dir index s : fo_iterate o = Some f -> (dir_left (disk s) dir index < fuel)%nat ->
  wp (has_entries_loop fuel f dir index) (disk_only s (fun _ => True)) s.
Proof.
  intros Ho. revert index s. induction fuel as [|fuel IH]; intros index s Hf; [lia|]. cbn [has_entries_loop]. apply wp_bind, wp_backend. intros [[rc cookie] e] w Ew.
  assert (Hdone : forall x : Z, disk_only s (fun _ => True) x (with_disk s w)) by (intros x; split; [by exists w|done]). destruct (Z.eqb_spec rc 0); [by apply wp_ret|].
  destruct (Z.ltb_spec rc 0); [by apply wp_ret|]. destruct (negb _ && negb _); [by apply wp_ret|].
  pose proof (iterate_less o f _ _ _ _ _ _ _ Ho Ew ltac:(lia)) as Hless. eapply wp_mono; [apply IH; cbn [with_disk disk]; lia|]. intros x s' [[w' ->] _].
  rewrite with_disk_twice. split; [by exists w'|done].
Qed.

Lemma wp_directory_has_entries dir s : wp (directory_has_entries dir) (disk_only s (fun _ => True)) s.
Proof.
  unfold directory_has_entries. destruct (if file_operations dir =? 0 then None else fo_iterate (file_operations dir)) as [f|] eqn:E; [|by apply wp_ret, disk_only_refl].
  destruct (_ =? 0); [done|]. apply wp_bind. unfold gets, wp at 1. eapply wp_has_entries; [done|lia].
Qed.

Lemma wp_call_name f dir name s : wp (call_name f dir name) (disk_only s (fun _ => True)) s.
Proof. destruct f as [f|]; [|by apply wp_ret, disk_only_refl]. apply wp_bind, wp_backend. intros x w _. apply wp_ret. split; [by exists w|done]. Qed.

(** A name is only removed when nobody else refers to its inode. *)
Definition removal (operation : name_operation) : bool := match operation with CREATE_DIRECTORY => false | _ => true end.

Lemma wp_change_target operation dir name trailing target s : (target <> 0 -> is_Some (inodes s !! target)) ->
  wp (change_target operation dir name trailing target) (disk_only s (fun r => r = 0 -> removal operation = true -> exists i, inodes s !! target = Some i /\ references i = 1)) s.
Proof.
  intros Ht.
  assert (Hcall : forall f (P : Z -> Prop), (forall x, P x) -> wp (call_name f dir name) (disk_only s P) s) by (intros f P HP; eapply wp_mono; [apply wp_call_name|]; intros x s' [H _]; by split).
  destruct operation; cbn [change_target removal].
  - destruct (negb _); [by apply wp_ret, disk_only_refl|]. by apply Hcall.
  - destruct (Z.eqb_spec target 0); [by apply wp_ret, disk_only_refl|]. destruct Ht as [i Hi]; [done|]. apply wp_bind, (wp_inode_at _ i); [done|].
    destruct (Z.eqb_spec (references i) 1) as [E|]; cbn [negb]; [|by apply wp_ret, disk_only_refl].
    destruct (_ || _); [by apply wp_ret, disk_only_refl|]. destruct (negb _); [by apply wp_ret, disk_only_refl|]. apply Hcall. eauto.
  - destruct (Z.eqb_spec target 0); [by apply wp_ret, disk_only_refl|]. destruct Ht as [i Hi]; [done|]. apply wp_bind, (wp_inode_at _ i); [done|].
    destruct (Z.eqb_spec (references i) 1) as [E|]; cbn [negb]; [|by apply wp_ret, disk_only_refl].
    destruct (negb _); [by apply wp_ret, disk_only_refl|]. apply wp_bind. eapply wp_mono; [apply wp_directory_has_entries|]. intros occupied s1 [[w ->] _].
    destruct (negb _); [apply wp_ret; split; [by exists w|]; intros; eauto|]. eapply wp_mono; [apply wp_call_name|]. intros x s' [[w' ->] _]. rewrite with_disk_twice.
    split; [by exists w'|]. eauto.
Qed.

(** Every reference is back where it was. *)
Definition stays s R D s' : Prop := store_ok s' R D /\ ext R s s'.

Lemma stays_disk s R D w : store_ok s R D -> stays s R D (with_disk s w).
Proof. intros H. split; [by apply store_with_disk|apply ext_with_disk]. Qed.

Lemma wp_target_of N s l R D dir name (Q : Z -> vfs A W -> Prop) : lists N s -> owns s l R D -> room l R 1 ->
  (exists b k, inodes s !! b = Some k /\ super (node k) = super dir) ->
  (forall s', owns s' l R D -> ext (chain_refs l ⊎ R) s s' -> Q 0 s') ->
  (forall a i s', a <> 0 -> owns s' l ({[+ a +]} ⊎ R) D -> ext (chain_refs l ⊎ R) s s' -> inodes s' !! a = Some i -> super (node i) = super dir -> N (super dir) (number dir) name = Some (number (node i)) -> Q a s') ->
  wp (target_of dir name) Q s.
Proof.
  intros HN Ho Hr Hd Q0 Q1. unfold target_of. destruct (op_lookup _) as [f|] eqn:Ef; [|apply wp_ret, Q0; [done|apply ext_refl]].
  eapply (wp_call_lookup N); [done|exact Ef|done|done|done|eauto|]. intros a i s' Ha O E _. by apply Q1.
Qed.

(** Giving back a reference next to a chain. *)
Lemma owns_put s l R D a (Q : unit -> vfs A W -> Prop) : owns s l ({[+ a +]} ⊎ R) D -> (forall s', owns s' l R D -> ext (chain_refs l ⊎ R) s s' -> Q tt s') ->
  wp (vfs_inode_put a) Q s.
Proof.
  intros [H1 H2 H3 H4] HQ. assert (E : chain_refs l ⊎ ({[+ a +]} ⊎ R) = {[+ a +]} ⊎ (chain_refs l ⊎ R)) by multiset_solver. rewrite E in *.
  assert (Hsm : small (chain_refs l ⊎ R)) by (eapply small_sub; [|exact H4]; multiset_solver).
  eapply wp_put; [exact H1|done|]. intros s' S' E'. apply HQ; [by split|done].
Qed.

(** The path named an inode, and none of [R] is that one. *)
Definition unused s (path : list Z) R s' : Prop := exists j n, walk (names (disk s)) s (resolved [] (words path)) = Some (j, n) /\
  forall a i, a ∈ R -> inodes s' !! a = Some i -> super (node i) = j -> number (node i) <> n.

Lemma path_room N s p ws R : path_ok N s p ws -> Z.of_nat (size R) + 600 < 2 ^ 32 -> room (entry p) R 1.
Proof.
  intros Hp HR. apply room_length. rewrite (po_length _ _ _ _ Hp). pose proof (po_short _ _ _ _ Hp) as Hs. pose proof (po_plain _ _ _ _ Hp) as Hpl.
  assert (Hl : Z.of_nat (length ws) <= zlen (render ws)); [|unfold VFS_PATH_MAX in *; lia].
  clear -ws.
  assert (H : Z.of_nat (length ws) <= zlen (below_root ws)) by (induction ws as [|w ws IH]; [done|]; rewrite below_root_length; unfold zlen in *; cbn [length]; lia).
  destruct ws; [done|done].
Qed.

Lemma store_zero s R D k : store_ok s R D -> inodes s !! 0 = Some k -> False.
Proof. intros H Hk. apply (al_nonnull _ _ (so_heap _ _ _ H)). apply elem_of_union_l, elem_of_dom. by exists k. Qed.

(** An inode with one reference, the one at hand, is nobody else's. *)
Lemma sole_reference s s' l R D a i n j : store_ok s (chain_refs l ⊎ ({[+ a +]} ⊎ R)) (chain_blocks l ∪ D) -> inodes s !! a = Some i -> references i = 1 ->
  small (chain_refs l ⊎ ({[+ a +]} ⊎ R)) -> ext R s s' ->
  super (node i) = j -> number (node i) = n -> forall b k, b ∈ R -> inodes s' !! b = Some k -> super (node k) = j -> number (node k) <> n.
Proof.
  intros H Hi H1 Hs E <- <- b k Hb Hk Ej En. destruct (so_refs _ _ _ H a i Hi) as [Er _]. rewrite H1 in Er.
  pose proof (multiplicity_size a (chain_refs l ⊎ ({[+ a +]} ⊎ R))). unfold small in Hs. unfold u32 in Er. rewrite Z.mod_small in Er by lia.
  assert (Hna : a ∉ R) by (rewrite elem_of_multiplicity; rewrite !multiplicity_disj_union, multiplicity_singleton, decide_True in Er by done; lia).
  destruct (so_live _ _ _ H b) as [k0 Hk0]; [multiset_solver|]. destruct (ex_node _ _ _ E b k0 Hb Hk0) as (k1 & Hk1 & En1). rewrite Hk in Hk1. injection Hk1 as <-.
  apply Hna. rewrite (so_number _ _ _ H a b i k0); [done|done|done|congruence|congruence].
Qed.

Lemma wp_change_name s R D path operation : ready s R D ->
  wp (change_name path operation) (fun r s' => stays s R D s' /\ (r = 0 -> removal operation = true -> unused s path R s')) s.
Proof.
  intros Hrd. unfold change_name. apply wp_bind. eapply wp_mono; [by apply wp_lookup_parent|].
  intros [[[c p] name] trailing] s1 [E1 [[Hc S1]|(-> & O1 & N1 & ws & Ews & P1 & Hpl & Hfp & Hops)]].
  { rewrite (proj2 (Z.eqb_neq c 0)) by lia. cbn [negb]. apply wp_ret. split; [by split|lia]. }
  cbn [Z.eqb negb]. apply wp_bind. eapply (wp_path_inode _ s1 (Path (entry p) (render ws))); [done|done|]. cbn [entry]. intros e l i He Hi.
  apply wp_bind, wp_deref; [exact (Hops e l i He Hi)|]. apply wp_bind.
  assert (Hroom : room (entry p) R 1) by (by eapply (path_room _ s1 (Path (entry p) (render ws))); [|apply Hrd]). eapply wp_target_of; [exact N1|exact O1|done|eauto| |].
  - intros s2 O2 E2. assert (E2' : ext R s1 s2) by (eapply ext_sub; [|exact E2]; multiset_solver). apply wp_bind. eapply wp_mono; [by apply wp_change_target|].
    intros r s3 [[w ->] Hr]. apply wp_bind, wp_ret, wp_bind. eapply wp_path_put; [by apply owns_disk|]. intros s4 S4 E4. apply wp_ret.
    split; [split; [done|]; eapply ext_trans; [done|]; eapply ext_trans; [exact E2'|]; eapply ext_trans; [apply ext_with_disk|done]|]. intros Hz Hrem.
    destruct (Hr Hz Hrem) as (k & Hk & _). exfalso. by apply (store_zero _ _ _ k (ow_store _ _ _ _ O2)).
  - intros a k s2 Ha O2 E2 Hk Hsup Hn. assert (E2' : ext R s1 s2) by (eapply ext_sub; [|exact E2]; multiset_solver). apply wp_bind.
    eapply wp_mono; [apply wp_change_target; by exists k|]. intros r s3 [[w ->] Hr].
    apply wp_bind. eapply owns_put; [by apply owns_disk|]. intros s4 O4 E4. apply wp_bind. eapply wp_path_put; [done|]. intros s5 S5 E5. apply wp_ret.
    assert (E25 : ext R s2 s5).
    { eapply ext_trans; [apply ext_with_disk|]. eapply ext_trans; [|exact E5]. eapply ext_sub; [|exact E4]. multiset_solver. }
    split; [split; [done|]; eapply ext_trans; [done|]; by eapply ext_trans|]. intros Hz Hrem. exists (super (node i)), (number (node k)). split.
    { rewrite Ews, <- (walk_ext _ R s s1); [|done|apply Hrd|apply Hrd]. cbn [walk]. rewrite Hfp.
      destruct (po_walk _ _ _ _ P1 0%nat e) as (i' & Hi' & Hwk); [by cbn [entry]; rewrite He|]. rewrite Hi in Hi'. injection Hi' as <-. rewrite drop_0 in Hwk.
      rewrite Hwk. cbn [mbind option_bind fst snd]. by rewrite Hn. }
    destruct (Hr Hz Hrem) as (k' & Hk' & Hone).
    rewrite Hk in Hk'. injection Hk' as <-. eapply sole_reference; [apply O2|done|done|apply O2|exact E25|done|done].
Qed.

(** ** Files *)
Definition same_file (f f' : vfs_file) : Prop := fnode f' = fnode f /\ fmount f' = fmount f.

Lemma wp_getattr i s : wp (vfs_getattr i) (disk_only s (fun _ => True)) s.
Proof.
  unfold vfs_getattr. destruct (_ =? 0); [by apply wp_ret, disk_only_refl|]. destruct (op_getattr _); [|by apply wp_ret, disk_only_refl]. apply wp_bind, wp_backend.
  intros x w _. apply wp_ret. split; [by exists w|done].
Qed.

Lemma wp_setmode i permissions s : wp (setmode_locked i permissions) (disk_only s (fun _ => True)) s.
Proof.
  unfold setmode_locked. destruct (_ =? 0); [by apply wp_ret, disk_only_refl|]. destruct (op_setmode _); [|by apply wp_ret, disk_only_refl]. apply wp_bind, wp_backend.
  intros x w _. apply wp_ret. split; [by exists w|done].
Qed.

(** An open file refers to a live inode. *)
Definition opened s (f : vfs_file) : Prop := fnode f <> 0 -> is_Some (inodes s !! fnode f).

Lemma opened_disk s w f f' : opened s f -> same_file f f' -> opened (with_disk s w) f'.
Proof. unfold opened. intros H [-> _]. done. Qed.

Lemma wp_file_stat f s : opened s f -> wp (file_stat_locked f) (disk_only s (fun r => same_file f r.1.2)) s.
Proof.
  intros Hf. unfold file_stat_locked. destruct (Z.eqb_spec (fnode f) 0) as [|Hn]; [by apply wp_ret, disk_only_refl|]. destruct (Hf Hn) as [i Hi].
  apply wp_bind, (wp_inode_at _ i); [done|]. apply wp_bind. eapply wp_mono; [apply wp_getattr|]. intros r s' [Hd _].
  destruct (negb _); apply wp_ret; by split.
Qed.

Lemma wp_refresh f s : opened s f -> wp (refresh_file f) (disk_only s (same_file f)) s.
Proof. intros Hf. apply wp_bind. eapply wp_mono; [by apply wp_file_stat|]. intros r s' [Hd Hs]. by apply wp_ret. Qed.

Lemma wp_regular f s (Q : option (Z * vnode) -> vfs A W -> Prop) : opened s f -> (forall r, Q r s) -> wp (regular_ops f) Q s.
Proof.
  intros Hf HQ. unfold regular_ops. destruct (Z.eqb_spec (fnode f) 0) as [|Hn]; [by apply wp_ret|]. destruct (Hf Hn) as [i Hi]. apply wp_bind, (wp_inode_at _ i); [done|].
  by apply wp_ret.
Qed.

Lemma disk_only_trans {X Y} s w (P : X -> Prop) (P' : Y -> Prop) x y s' : disk_only (with_disk s w) P x s' -> (P x -> P' y) -> disk_only s P' y s'.
Proof. intros [[w' ->] H] HP. split; [by exists w'|auto]. Qed.

Ltac by_disk := by apply wp_ret, disk_only_refl.

Lemma wp_read f n s : opened s f -> wp (vfs_read f n) (disk_only s (fun r => same_file f r.2)) s.
Proof.
  intros Hf. unfold vfs_read. apply wp_bind, wp_regular; [done|]. intros [[o i]|]; [|by_disk]. destruct (fo_read o) as [g|]; [|by_disk]. destruct (n =? 0); [by_disk|].
  apply wp_bind, wp_backend. intros x w _. apply wp_bind.
  eapply wp_mono; [apply wp_refresh; by eapply opened_disk|]. intros f' s' H. apply wp_ret. by eapply disk_only_trans.
Qed.

Lemma wp_write f b s : opened s f -> wp (write_locked f b) (disk_only s (fun r => same_file f r.2)) s.
Proof.
  intros Hf. unfold write_locked. apply wp_bind, wp_regular; [done|]. intros [[o i]|]; [|by_disk]. destruct (fo_write o) as [g|]; [|by_disk].
  destruct (_ =? 0); [by_disk|]. apply wp_bind, wp_backend. intros x w _. apply wp_bind.
  eapply wp_mono; [apply wp_refresh; by eapply opened_disk|]. intros f' s' H. apply wp_ret. by eapply disk_only_trans.
Qed.

Lemma wp_append f b s : opened s f -> wp (vfs_append f b) (disk_only s (fun r => same_file f r.2)) s.
Proof.
  intros Hf. unfold vfs_append. apply wp_bind, wp_regular; [done|]. intros [[o i]|]; [|by_disk]. destruct (fo_write o) as [g|]; [|by_disk].
  destruct (fo_seek o) as [k|]; [|by_disk]. destruct (_ =? 0); [by_disk|]. apply wp_bind.
  eapply wp_mono; [by apply wp_file_stat|]. intros [[c f1] st] s1 [[w1 ->] Hs]. cbn [fst snd] in Hs. destruct (negb _); [apply wp_ret; split; [by exists w1|done]|].
  apply wp_bind, wp_backend. intros x w _. destruct (negb _); [apply wp_ret; split; [by exists w|done]|].
  eapply wp_mono; [apply wp_write; by eapply opened_disk|]. intros r s' H. rewrite with_disk_twice in H. eapply disk_only_trans; [exact H|]. destruct Hs. intros [].
  split; cbn in *; congruence.
Qed.

Lemma wp_seek f n s : opened s f -> wp (vfs_seek f n) (disk_only s (fun r => same_file f r.2)) s.
Proof.
  intros Hf. unfold vfs_seek. apply wp_bind, wp_regular; [done|]. intros [[o i]|]; [|by_disk]. destruct (fo_seek o) as [g|]; [|by_disk]. apply wp_bind, wp_backend.
  intros x w _. apply wp_bind.
  eapply wp_mono; [apply wp_refresh; by eapply opened_disk|]. intros f' s' H. apply wp_ret. by eapply disk_only_trans.
Qed.

Lemma wp_truncate f s : opened s f -> wp (vfs_truncate f) (disk_only s (fun r => same_file f r.2)) s.
Proof.
  intros Hf. unfold vfs_truncate. apply wp_bind, wp_regular; [done|]. intros [[o i]|]; [|by_disk]. destruct (if _ =? 0 then _ else _) as [g|]; [|by_disk].
  apply wp_bind, wp_backend. intros x w _. apply wp_bind.
  set (f1 := if x =? 0 then with_position f 0 else f). assert (Hs : same_file f f1) by (unfold f1; by destruct (x =? 0)).
  eapply wp_mono; [apply (wp_refresh f1); by eapply opened_disk|]. intros f' s' H. apply wp_ret. eapply disk_only_trans; [exact H|]. destruct Hs. intros [].
  split; cbn in *; congruence.
Qed.

Lemma wp_file_chmod f n s : opened s f -> wp (vfs_file_chmod f n) (disk_only s (fun _ => True)) s.
Proof.
  intros Hf. unfold vfs_file_chmod. destruct (Z.eqb_spec (fnode f) 0) as [|Hn]; [by_disk|]. destruct (Hf Hn) as [i Hi]. apply wp_bind, (wp_inode_at _ i); [done|].
  apply wp_setmode.
Qed.

Lemma wp_file_sync f s : (forall a i, inodes s !! a = Some i -> exists m, mounts s !! super (node i) = Some m /\ live m = true) -> opened s f ->
  wp (vfs_file_sync f) (disk_only s (fun _ => True)) s.
Proof.
  intros Hs Hf. unfold vfs_file_sync. destruct (Z.eqb_spec (fnode f) 0) as [|Hn]; [by_disk|]. destruct (Hf Hn) as [i Hi]. destruct (Hs _ _ Hi) as (m & Hm & Hl).
  apply wp_bind, (wp_inode_at _ i); [done|]. apply wp_bind, (wp_super_at _ m); [done|].
  apply wp_bind, wp_deref; [unfold live in Hl; by destruct (Z.eqb_spec (filesystem (msuper m)) 0)|]. destruct (fs_sync _); [|by_disk]. apply wp_bind, wp_backend.
  intros x w _. apply wp_ret. split; [by exists w|done].
Qed.

Lemma wp_stat s R D path : ready s R D -> wp (vfs_stat_path path) (fun _ => stays s R D) s.
Proof.
  intros Hrd. unfold vfs_stat_path. apply wp_bind. eapply wp_mono; [by apply wp_lookup|].
  intros r s1 [E1 [(Hc & _ & S1)|(Hc & _ & _ & O1 & N1 & P1)]]; [rewrite (proj2 (Z.eqb_neq r.1 0)) by lia; apply wp_ret; by split|].
  rewrite Hc. cbn [Z.eqb negb]. apply wp_bind. eapply wp_path_inode; [done|done|]. intros e l i He Hi. apply wp_bind. eapply wp_mono; [apply wp_getattr|].
  intros g s2 [[w ->] _]. apply wp_bind. eapply wp_path_put; [by apply owns_disk|]. intros s3 S3 E3. apply wp_ret. split; [done|].
  eapply ext_trans; [done|]. eapply ext_trans; [apply ext_with_disk|done].
Qed.

Lemma wp_chmod s R D path n : ready s R D -> wp (vfs_chmod path n) (fun _ => stays s R D) s.
Proof.
  intros Hrd. unfold vfs_chmod. apply wp_bind. eapply wp_mono; [by apply wp_lookup|].
  intros r s1 [E1 [(Hc & _ & S1)|(Hc & _ & _ & O1 & N1 & P1)]]; [rewrite (proj2 (Z.eqb_neq r.1 0)) by lia; apply wp_ret; by split|].
  rewrite Hc. cbn [Z.eqb negb]. apply wp_bind. eapply wp_path_inode; [done|done|]. intros e l i He Hi. apply wp_bind. eapply wp_mono; [apply wp_setmode|].
  intros g s2 [[w ->] _]. apply wp_bind. eapply wp_path_put; [by apply owns_disk|]. intros s3 S3 E3. apply wp_ret. split; [done|].
  eapply ext_trans; [done|]. eapply ext_trans; [apply ext_with_disk|done].
Qed.

(** ** Directories *)
Lemma mount_child_loop_spec (ms : list vfs_mount) parent seen index k name : 0 <= seen -> seen + zlen ms < 2 ^ 32 ->
  mount_child_loop ms parent seen index = Some (k, name) -> seen <= index < seen + zlen ms /\ k = index + 1.
Proof.
  revert seen. induction ms as [|m ms IH]; intros seen H0 Hl; cbn [mount_child_loop]; [done|]. unfold zlen in *. cbn [length] in *.
  destruct (if live m then _ else _); [|intros E; destruct (IH seen) as [H1 H2]; [lia|lia|done|lia]].
  rewrite u32_small by lia. destruct (Z.eqb_spec seen index); cbn [negb]; [intros [= <- _]; lia|]. intros E. destruct (IH (seen + 1)) as [H1 H2]; [lia|lia|done|lia].
Qed.

(** The chain and the references are kept while [dir], one of its inodes, is listed. *)
Definition keeps_chain s l R D s' : Prop := owns s' l R D /\ ext (chain_refs l ⊎ R) s s'.

Lemma keeps_chain_refl s l R D : owns s l R D -> keeps_chain s l R D s.
Proof. intros H. split; [done|apply ext_refl]. Qed.
Lemma keeps_chain_trans s1 s2 s3 l R D : keeps_chain s1 l R D s2 -> keeps_chain s2 l R D s3 -> keeps_chain s1 l R D s3.
Proof. intros [_ E1] [O2 E2]. split; [done|by eapply ext_trans]. Qed.
Lemma keeps_chain_disk s l R D w : owns s l R D -> keeps_chain s l R D (with_disk s w).
Proof. intros H. split; [by apply owns_disk|apply ext_with_disk]. Qed.

(** [dir] is the inode of an entry of the chain. *)
Definition in_chain s (l : list vfs_dentry) (dir : vnode) : Prop := exists b k, b ∈ chain_refs l /\ inodes s !! b = Some k /\ node k = dir.

Lemma in_chain_keeps s s' l R D dir : in_chain s l dir -> keeps_chain s l R D s' -> in_chain s' l dir.
Proof.
  intros (b & k & Hb & Hk & Hn) [_ E]. destruct (ex_node _ _ _ E b k) as (k' & Hk' & E'); [multiset_solver|done|]. exists b, k'. split; [done|]. split; [done|congruence].
Qed.

Lemma in_chain_used s l dir : in_chain s l dir -> exists b k, inodes s !! b = Some k /\ super (node k) = super dir.
Proof. intros (b & k & _ & Hk & <-). eauto. Qed.

Lemma wp_backing s l R D dir name : owns s l R D -> room l R 1 -> in_chain s l dir -> wp (backing_has_child dir name) (fun _ => keeps_chain s l R D) s.
Proof.
  intros Ho Hr Hd. unfold backing_has_child. destruct (_ =? 0); [by apply wp_ret, keeps_chain_refl|]. apply wp_bind.
  eapply (wp_target_of (names (disk s))); [done|done|done|by eapply in_chain_used| |].
  - intros s1 O1 E1. apply wp_bind, wp_ret, wp_ret. by split.
  - intros a i s1 Ha O1 E1 _ _ _. apply wp_bind. eapply owns_put; [done|]. intros s2 O2 E2. apply wp_ret. split; [done|by eapply ext_trans].
Qed.

Lemma wp_virtual_loop fuel s l R D path dir index out : (Z.to_nat (8 - index) < fuel)%nat -> 0 <= index -> owns s l R D -> room l R 1 -> in_chain s l dir ->
  wp (virtual_mount_loop fuel path dir index out) (fun _ => keeps_chain s l R D) s.
Proof.
  revert s index out. induction fuel as [|fuel IH]; intros s index out Hf Hi Ho Hr Hd; [lia|]. cbn [virtual_mount_loop]. apply wp_bind.
  unfold vfs_mount_child, gets, wp at 1. pose proof (so_slots _ _ _ (ow_store _ _ _ _ Ho)) as Hlen.
  destruct (mount_child_loop (mounts s) path 0 index) as [[k name]|] eqn:E; cbn [mbind option_bind]; [|by apply wp_ret, keeps_chain_refl].
  apply mount_child_loop_spec in E as [E ->]; [|lia|unfold zlen; rewrite Hlen; unfold VFS_MAX_MOUNTS; lia]. unfold zlen in E. rewrite Hlen in E.
  unfold VFS_MAX_MOUNTS in E. cbn [fst snd].
  apply wp_bind. eapply wp_mono; [by apply wp_backing|]. intros shadowed s1 K1. destruct (negb shadowed); [by apply wp_ret|].
  eapply wp_mono; [apply (IH s1); [lia|lia|apply K1|done|exact (in_chain_keeps s s1 l R D dir Hd K1)]|]. intros r s2 K2. exact (keeps_chain_trans s s1 s2 l R D K1 K2).
Qed.

Lemma wp_virtual s l R D path dir index : owns s l R D -> room l R 1 -> in_chain s l dir -> wp (virtual_mount_entry path dir index) (fun _ => keeps_chain s l R D) s.
Proof.
  intros Ho Hr Hd. assert (H : 0 <= Z.land index (Z.lxor VFS_READDIR_MOUNT_PHASE (2 ^ 32 - 1))) by (by apply Z.land_nonneg; right). apply wp_virtual_loop; try done.
  unfold VFS_MAX_MOUNTS. lia.
Qed.

Lemma wp_iterate s dir index : wp (iterate dir index) (disk_only s (fun _ => True)) s.
Proof.
  unfold iterate. destruct (negb _); [by_disk|]. destruct (if _ =? 0 then _ else _) as [f|]; [|by_disk]. apply wp_bind, wp_backend. intros x w _. apply wp_ret.
  split; [by exists w|done].
Qed.

Lemma wp_read_dir_one_locked s l R D path dir index : owns s l R D -> room l R 1 -> in_chain s l dir ->
  wp (read_dir_one_locked path dir index) (fun _ => keeps_chain s l R D) s.
Proof.
  intros Ho Hr Hd. unfold read_dir_one_locked. destruct (index &? _); [by apply wp_virtual|]. apply wp_bind. eapply wp_mono; [apply wp_iterate|].
  intros [[c cookie] out] s1 [[w ->] _]. pose proof (keeps_chain_disk _ _ _ _ w Ho) as K.
  destruct (c >? 0); [by apply wp_bind, wp_ret|]. destruct (c =? 0); [|by apply wp_ret]. apply wp_bind.
  eapply wp_mono; [apply (wp_virtual (with_disk s w)); [apply K|done|exact (in_chain_keeps _ _ l R D dir Hd K)]|]. intros v s2 K2. apply wp_ret.
  exact (keeps_chain_trans _ _ _ l R D K K2).
Qed.

Lemma in_chain_head s p e l i : entry p = e :: l -> inodes s !! d_inode e = Some i -> in_chain s (entry p) (node i).
Proof. intros He Hi. exists (d_inode e), i. split; [|done]. rewrite He, chain_refs_cons. multiset_solver. Qed.

Lemma stays_chain s s1 s2 s3 l R D : ext R s s1 -> keeps_chain s1 l R D s2 -> store_ok s3 R D -> ext R s2 s3 -> stays s R D s3.
Proof. intros E1 [_ E2] S3 E3. split; [done|]. eapply ext_trans; [done|]. eapply ext_trans; [|done]. eapply ext_sub; [|exact E2]. multiset_solver. Qed.

Lemma wp_read_dir_one s R D path index : ready s R D -> wp (vfs_read_dir_one path index) (fun _ => stays s R D) s.
Proof.
  intros Hrd. unfold vfs_read_dir_one. apply wp_bind. eapply wp_mono; [by apply wp_lookup|].
  intros r s1 [E1 [(Hc & _ & S1)|(Hc & _ & _ & O1 & N1 & P1)]]; [rewrite (proj2 (Z.eqb_neq r.1 0)) by lia; apply wp_ret; by split|].
  rewrite Hc. cbn [Z.eqb negb]. apply wp_bind. eapply wp_path_inode; [done|done|]. intros e l i He Hi. apply wp_bind.
  eapply wp_mono; [apply (wp_read_dir_one_locked s1 (entry r.2) R D); [done|by eapply path_room; [|apply Hrd]|by eapply in_chain_head]|].
  intros g s2 K2. apply wp_bind. eapply wp_path_put; [apply K2|]. intros s3 S3 E3. apply wp_ret. exact (stays_chain s s1 s2 s3 (entry r.2) R D E1 K2 S3 E3).
Qed.

Lemma wp_vfs_read_dir_loop fuel s l R D path dir index n buffer : (Z.to_nat (n - zlen buffer) < fuel)%nat -> owns s l R D -> room l R 1 -> in_chain s l dir ->
  wp (vfs_read_dir_loop fuel path dir index n buffer) (fun _ => keeps_chain s l R D) s.
Proof.
  revert s index buffer. induction fuel as [|fuel IH]; intros s index buffer Hf Ho Hr Hd; [lia|]. cbn [vfs_read_dir_loop]. apply wp_bind.
  eapply wp_mono; [by apply wp_read_dir_one_locked|]. intros [[status cookie] e] s1 K1. destruct (status <=? 0); [by apply wp_ret|]. cbv zeta.
  set (text := de_name e ++ _). assert (Ht : 1 <= zlen text) by (unfold text, zlen; rewrite !length_app; cbn [length]; lia).
  destruct (Z.gtb_spec (zlen text) (n - zlen buffer)); [by apply wp_ret|].
  eapply wp_mono; [apply (IH s1); [|apply K1|done|exact (in_chain_keeps s s1 l R D dir Hd K1)]|]; [unfold zlen in *; rewrite length_app; lia|]. intros g s2 K2.
  exact (keeps_chain_trans s s1 s2 l R D K1 K2).
Qed.

Lemma wp_read_dir s R D path index n : ready s R D -> wp (vfs_read_dir path index n) (fun _ => stays s R D) s.
Proof.
  intros Hrd. unfold vfs_read_dir. destruct (n =? 0); [apply wp_ret; split; [apply Hrd|apply ext_refl]|]. apply wp_bind. eapply wp_mono; [by apply wp_lookup|].
  intros r s1 [E1 [(Hc & _ & S1)|(Hc & _ & _ & O1 & N1 & P1)]]; [rewrite (proj2 (Z.eqb_neq r.1 0)) by lia; apply wp_ret; by split|].
  rewrite Hc. cbn [Z.eqb negb]. apply wp_bind. eapply wp_path_inode; [done|done|]. intros e l i He Hi. apply wp_bind.
  eapply wp_mono; [apply (wp_vfs_read_dir_loop _ s1 (entry r.2) R D); [unfold zlen; cbn [length]; lia|done|by eapply path_room; [|apply Hrd]|by eapply in_chain_head]|].
  intros g s2 K2. apply wp_bind. eapply wp_path_put; [apply K2|]. intros s3 S3 E3. apply wp_ret. exact (stays_chain s s1 s2 s3 (entry r.2) R D E1 K2 S3 E3).
Qed.

(** ** Open files *)

(** [O] holds the slot of every open file. *)
Definition opens_ok s (O : gmultiset nat) : Prop := forall j m, mounts s !! j = Some m -> open_files (msuper m) = u32 (Z.of_nat (multiplicity j O)).

Lemma opens_ext R s s' O : ext R s s' -> opens_ok s O -> opens_ok s' O.
Proof. intros E H j m' Hm. destruct (ext_mount _ _ _ _ _ E Hm) as (m & Hm0 & Es). unfold shape in Es. injection Es as _ _ _ -> _. by apply H. Qed.

(** [ext] but for the counts of open files. *)
Definition shape2 (m : vfs_mount) : list Z * Z * Z * Z := (mpath m, filesystem (msuper m), root (msuper m), device_context (msuper m)).
Record ext2 R s s' : Prop := {
  e2_types : filesystems s' = filesystems s;
  e2_shape : shape2 <$> mounts s' = shape2 <$> mounts s;
  e2_node a i : a ∈ R -> inodes s !! a = Some i -> exists i', inodes s' !! a = Some i' /\ node i' = node i;
  e2_slots a' i' : inodes s' !! a' = Some i' -> exists a i, inodes s !! a = Some i /\ super (node i) = super (node i');
}.

Lemma ext_weak R s s' : ext R s s' -> ext2 R s s'.
Proof.
  intros [E1 E2 E3 E4]. split; [done| |done|done]. apply (f_equal (fmap (fun x : list Z * Z * Z * Z * Z => (x.1.1.1.1, x.1.1.1.2, x.1.1.2, x.2)))) in E2.
  rewrite <- !list_fmap_compose in E2. exact E2.
Qed.

Lemma ext2_trans R s1 s2 s3 : ext2 R s1 s2 -> ext2 R s2 s3 -> ext2 R s1 s3.
Proof.
  intros [E1 E2 E3 E4] [F1 F2 F3 F4]. split; [congruence|congruence| |].
  - intros a i Ha Hi. destruct (E3 a i Ha Hi) as (i2 & Hi2 & <-). destruct (F3 a i2 Ha Hi2) as (i3 & Hi3 & <-). eauto.
  - intros a3 i3 H3. destruct (F4 a3 i3 H3) as (a2 & i2 & H2 & <-). by apply (E4 a2).
Qed.

Lemma ext2_sub R R' s s' : R' ⊆ R -> ext2 R s s' -> ext2 R' s s'.
Proof. intros Hs [E1 E2 E3 E4]. split; [done|done| |done]. intros a i Ha. apply E3. multiset_solver. Qed.

Lemma rooted_ext2 R0 s s' R : ext2 R0 s s' -> rooted s R -> rooted s' R.
Proof.
  intros E H j m' Hm Hl. pose proof (e2_shape _ _ _ E) as Es. apply (f_equal (fun x : list _ => x !! j)) in Es. rewrite !list_lookup_fmap, Hm in Es.
  destruct (mounts s !! j) as [m|] eqn:Em; [|done]. cbn in Es. unfold shape2 in Es.
  injection Es as _ Ef Er _. rewrite Er. apply (H j m Em). unfold live in *. congruence.
Qed.

Lemma store_put_mount s R D j m sb : store_ok s R D -> mounts s !! j = Some m -> s_inodes sb = s_inodes (msuper m) ->
  forall path, store_ok (put_mount s j (Mount path sb)) R D.
Proof.
  intros [H1 H2 H3 H4 H5 H6 H7 H8 H9] Hm Hs path.
  split; cbn [put_mount mounts inodes heap]; [by rewrite length_insert|done|done| |intros a i Hi; apply list_lookup_insert_is_Some; by eapply H5|done|done|done|done].
  intros k m'. rewrite list_lookup_insert_Some. intros [(<- & <- & _)|[_ Hm']]; [|by apply H4]. cbn [msuper]. rewrite Hs. by apply H4.
Qed.

Lemma wp_set_open s R D O O' j m n (Q : unit -> vfs A W -> Prop) : store_ok s R D -> opens_ok s O -> mounts s !! j = Some m ->
  n = u32 (Z.of_nat (multiplicity j O')) -> (forall k, k <> j -> multiplicity k O' = multiplicity k O) ->
  (forall s', store_ok s' R D -> opens_ok s' O' -> (forall R0, ext2 R0 s s') -> inodes s' = inodes s -> Q tt s') -> wp (set_super j (with_open (msuper m) n)) Q s.
Proof.
  intros Hs Ho Hm Hn Hk HQ. apply (wp_set_super _ _ m); [done|]. apply HQ; [by apply (store_put_mount _ _ _ _ m)| | |done].
  - intros k m'. cbn [put_mount mounts]. rewrite list_lookup_insert_Some. intros [(<- & <- & _)|[Hne Hm']]; [done|]. rewrite Hk by done. by apply Ho.
  - intros R0. split; cbn [put_mount filesystems mounts inodes]; [done| |eauto|eauto]. rewrite list_fmap_insert. apply list_insert_id. by rewrite list_lookup_fmap, Hm.
Qed.
End Ops.
