(* ===== verification/VfsFiles.v ===== *)
(** Open files of the file system switch: opening, creating and closing. *)
From stdpp Require Import gmultiset.
From S2P Require Import Prelude Alloc Vfs VfsSpec VfsPath VfsLookup VfsOps.

Section Files.
Context {A W : Type} `{!AllocOps A, !AllocLaws A, !Backend W, !BackendLaws W}.
Abbreviation M := (Vfs.M A W).
Implicit Types (s : vfs A W) (R : gmultiset Z) (D : gset Z) (a : Z) (j : nat) (O : gmultiset nat) (f : vfs_file).

Lemma opens_disk s w O : opens_ok s O -> opens_ok (with_disk s w) O.
Proof. done. Qed.
Lemma ext2_disk s w R : ext2 R s (with_disk s w).
Proof. apply ext_weak, ext_with_disk. Qed.

Lemma wp_close s R D O f i : store_ok s ({[+ fnode f +]} ⊎ R) D -> opens_ok s ({[+ super (node i) +]} ⊎ O) -> inodes s !! fnode f = Some i -> small R ->
  wp (close_locked f) (fun f' s' => f' = zero_file /\ store_ok s' R D /\ opens_ok s' O /\ ext2 R s s') s.
Proof.
  intros Hs Ho Hi Hsm. unfold close_locked. rewrite (proj2 (Z.eqb_neq (fnode f) 0)) by (eapply store_nonnull; [exact Hs|multiset_solver]).
  apply wp_bind, (wp_inode_at _ i); [done|].
  assert (Hrest : forall w, wp (super_at (super (node i)) ≫= fun sb => set_super (super (node i)) (with_open sb (u32 (open_files sb - 1))) ≫= fun _ => vfs_inode_put (fnode f) ≫= fun _ => mret zero_file)
    (fun f' s' => f' = zero_file /\ store_ok s' R D /\ opens_ok s' O /\ ext2 R s s') (with_disk s w)).
  { intros w. destruct (so_super _ _ _ Hs _ _ Hi) as [m Hm]. apply wp_bind, (wp_super_at _ m); [done|]. apply wp_bind.
    eapply (wp_set_open (with_disk s w) _ D ({[+ super (node i) +]} ⊎ O) O); [by apply store_with_disk|done|done| | |].
    - rewrite (Ho _ _ Hm), multiplicity_disj_union, multiplicity_singleton, decide_True by done. unfold u32. rewrite Zminus_mod_idemp_l. f_equal. lia.
    - intros k Hk. rewrite multiplicity_disj_union, multiplicity_singleton_ne by done. lia.
    - intros s1 S1 O1 E1 _. apply wp_bind. eapply wp_put; [exact S1|done|]. intros s2 S2 E2. apply wp_ret. split; [done|]. split; [done|].
      split; [by eapply opens_ext|]. eapply ext2_trans; [apply (ext2_disk s w)|]. eapply ext2_trans; [apply E1|by apply ext_weak]. }
  destruct (if _ =? 0 then _ else _) as [g|]; [apply wp_bind, wp_backend; intros [] w _; apply Hrest|]. apply wp_bind, wp_ret.
  assert (Es : with_disk s (disk s) = s) by (by destruct s). specialize (Hrest (disk s)). by rewrite Es in Hrest.
Qed.

(** What opening the inode [a] with [R] besides leaves. *)
Definition open_result s R D O a j (mount : nat) (r : Z * vfs_file) s' : Prop :=
  (r.1 < 0 /\ r.2 = zero_file /\ store_ok s' R D /\ opens_ok s' O /\ ext2 R s s') \/
  (r.1 = 0 /\ fnode r.2 = a /\ fmount r.2 = mount /\ store_ok s' ({[+ a +]} ⊎ R) D /\ opens_ok s' ({[+ j +]} ⊎ O) /\ ext2 ({[+ a +]} ⊎ R) s s').

Lemma wp_open_inode s R D O a i (mount : nat) : store_ok s ({[+ a +]} ⊎ R) D -> opens_ok s O -> inodes s !! a = Some i -> small R ->
  wp (open_inode a mount) (open_result s R D O a (super (node i)) mount) s.
Proof.
  intros Hs Ho Hi Hsm. unfold open_inode. apply wp_bind, (wp_inode_at _ i); [done|]. destruct (so_super _ _ _ Hs _ _ Hi) as [m Hm].
  apply wp_bind, (wp_super_at _ m); [done|]. apply wp_bind.
  eapply (wp_set_open s _ D O ({[+ super (node i) +]} ⊎ O)); [done|done|done| | |].
  { rewrite (Ho _ _ Hm), multiplicity_disj_union, multiplicity_singleton, decide_True by done. unfold u32. rewrite Zplus_mod_idemp_l. f_equal. lia. }
  { intros k Hk. rewrite multiplicity_disj_union, multiplicity_singleton_ne by done. lia. }
  intros s1 S1 O1 E1 Ei. set (f0 := File mount a 0 0 0 0 0 0).
  assert (Hfail : forall f w, same_file f0 f -> wp (close_locked f ≫= fun f => mret (- EIO, f)) (open_result s R D O a (super (node i)) mount) (with_disk s1 w)).
  { intros f w [Hf _]. change (fnode f0) with a in Hf. rewrite <- Hf in S1 |- *. apply wp_bind.
    eapply wp_mono; [apply (wp_close (with_disk s1 w) R D O f i); [by apply store_with_disk|done|cbn [with_disk inodes]; rewrite Ei, Hf; done|done]|].
    intros f' s2 (-> & S2 & O2 & E2). apply wp_ret. left. split; [done|]. split; [done|]. split; [done|]. split; [done|]. eapply ext2_trans; [apply E1|].
    eapply ext2_trans; [apply (ext2_disk s1 w)|done]. }
  assert (Hopened : forall f w, same_file f0 f -> opened (with_disk s1 w) f) by (intros f w [Hf _] _; change (fnode f0) with a in Hf; cbn [with_disk inodes]; rewrite Hf, Ei; by exists i).
  apply wp_bind. assert (Hopen : wp (call_open f0 (node i)) (disk_only s1 (fun r => same_file f0 r.2)) s1).
  { unfold call_open. destruct (if _ =? 0 then _ else _) as [g|]; [|by apply wp_ret, disk_only_refl]. apply wp_bind, wp_backend. intros x w _. apply wp_ret.
    split; [by exists w|done]. }
  eapply wp_mono; [exact Hopen|]. intros o s2 [[w ->] Hsame]. destruct (negb (o.1 =? 0)); [by apply Hfail|]. apply wp_bind.
  eapply wp_mono; [apply wp_file_stat; by apply Hopened|]. intros [[c f1] st] s3 [[w3 ->] Hs3]. cbn [fst snd] in *. rewrite with_disk_twice.
  assert (Hs1 : same_file f0 f1) by (destruct Hsame, Hs3; split; congruence). destruct (negb (c =? 0)); [by apply Hfail|]. apply wp_ret. right. split; [done|].
  split; [apply Hs1|]. split; [apply Hs1|]. split; [by apply store_with_disk|]. split; [done|]. eapply ext2_trans; [apply E1|apply ext2_disk].
Qed.

(** A call that opens a file: nothing is left of it if it fails, otherwise the file has a reference of its own. *)
Definition open_post s R D O (P : vfs_file -> vnode -> Prop) (r : Z * vfs_file) s' : Prop :=
  ext2 R s s' /\ ((r.1 < 0 /\ r.2 = zero_file /\ store_ok s' R D /\ opens_ok s' O) \/
  (r.1 = 0 /\ exists i, inodes s' !! fnode r.2 = Some i /\ P r.2 (node i) /\ store_ok s' ({[+ fnode r.2 +]} ⊎ R) D /\ opens_ok s' ({[+ super (node i) +]} ⊎ O))).

(** Opening next to a chain, which is then given back. *)
Lemma wp_open_put s0 s p R D O a i (mount : nat) (k : Z * vfs_file -> M (Z * vfs_file)) : owns s (entry p) ({[+ a +]} ⊎ R) D -> opens_ok s O -> ext2 R s0 s ->
  inodes s !! a = Some i ->
  (forall o s1, wp (k o) (fun o' s2 => o' = o /\ exists w, s2 = with_disk s1 w) s1) ->
  wp (open_inode a mount ≫= fun o => k o ≫= fun o => vfs_path_put p ≫= fun _ => mret o) (open_post s0 R D O (fun f v => fmount f = mount /\ v = node i)) s.
Proof.
  intros Ho Hop E0 Hi Hk. assert (Er : chain_refs (entry p) ⊎ ({[+ a +]} ⊎ R) = {[+ a +]} ⊎ (chain_refs (entry p) ⊎ R)) by multiset_solver. destruct Ho as [H1 H2 H3 H4].
  rewrite Er in *.
  assert (Hsm : small (chain_refs (entry p) ⊎ R)) by (eapply small_sub; [|exact H4]; multiset_solver). apply wp_bind.
  eapply wp_mono; [eapply wp_open_inode; [exact H1|done|done|done]|]. intros o s1 Hres. apply wp_bind. eapply wp_mono; [apply Hk|]. intros o' s2 (-> & w & ->).
  apply wp_bind.
  destruct Hres as [(Hc & Hf & S1 & O1 & E1)|(Hc & Hf & Hmt & S1 & O1 & E1)].
  - eapply (wp_path_put _ p R D); [split; [by apply store_with_disk|done|done|done]|]. intros s3 S3 E3. apply wp_ret. split.
    + eapply ext2_trans; [exact E0|]. eapply ext2_trans; [eapply ext2_sub; [|exact E1]; multiset_solver|]. eapply ext2_trans; [apply (ext2_disk s1 w)|by apply ext_weak].
    + left. split; [done|]. split; [done|]. split; [done|]. eapply opens_ext; [exact E3|done].
  - eapply (wp_path_put _ p ({[+ a +]} ⊎ R) D); [split; [rewrite Er; by apply store_with_disk|done|done|by rewrite Er]|]. intros s3 S3 E3. apply wp_ret. split.
    + eapply ext2_trans; [exact E0|]. eapply ext2_trans; [eapply ext2_sub; [|exact E1]; multiset_solver|]. eapply ext2_trans; [apply (ext2_disk s1 w)|].
      eapply ext2_sub; [|apply ext_weak, E3]. multiset_solver.
    + right. split; [done|]. rewrite Hf. destruct (e2_node _ _ _ E1 a i) as (i1 & Hi1 & En1); [multiset_solver|done|].
      destruct (ex_node _ _ _ E3 a i1) as (i3 & Hi3 & En3); [multiset_solver|done|].
      exists i3. split; [done|]. rewrite En3, En1. split; [done|]. split; [done|]. by eapply opens_ext.
Qed.

Lemma wp_vfs_open s R D O path : ready s R D -> opens_ok s O ->
  wp (vfs_open path) (open_post s R D O (fun f v => Some (fmount f) = mount_of s (resolved [] (words path)) /\ walk (names (disk s)) s (resolved [] (words path)) = Some (super v, number v))) s.
Proof.
  intros Hrd Hop. unfold vfs_open. apply wp_bind. eapply wp_mono; [by apply wp_lookup|]. intros r s1 [E1 [(Hc & _ & S1)|(Hc & _ & _ & O1 & N1 & P1)]].
  { rewrite (proj2 (Z.eqb_neq r.1 0)) by lia. apply wp_ret. split; [by apply ext_weak|]. left. split; [done|]. split; [done|]. split; [done|by eapply opens_ext]. }
  rewrite Hc. cbn [Z.eqb negb]. pose proof (path_room _ _ _ _ _ P1 (proj2 (proj2 Hrd))) as Hroom.
  destruct (entry r.2) as [|e l] eqn:He; [by pose proof (po_length _ _ _ _ P1) as Hl; rewrite He in Hl|]. destruct (owns_entry _ _ _ _ _ O1) as [i Hi].
  apply wp_bind. eapply wp_ref; [apply O1|rewrite chain_refs_cons; multiset_solver|]. intros s2 S2 E2.
  destruct (ex_node _ _ _ (E2 (chain_refs (e :: l))) (d_inode e) i) as (i2 & Hi2 & En); [rewrite chain_refs_cons; multiset_solver|done|].
  pose proof (wp_open_put s s2 r.2 R D O (d_inode e) i2 (d_mount e) mret) as H. rewrite He in H. eapply wp_mono; [apply H|].
  - by eapply owns_ref.
  - eapply opens_ext; [apply (E2 R)|]. by eapply opens_ext.
  - apply ext_weak. eapply ext_trans; [exact E1|apply E2].
  - done.
  - intros o s3. apply wp_ret. split; [done|]. exists (disk s3). by destruct s3.
  - intros o s3 [E3 Hres]. split; [done|]. destruct Hres as [?|(H1 & i3 & H2 & [H3 H3'] & H4)]; [by left|]. right. split; [done|]. exists i3. split; [done|].
    split; [|done]. rewrite H3, H3', En. split.
    + destruct (po_entry _ _ _ _ P1 0%nat e) as [_ Hm]; [by rewrite He|]. cbn [drop] in Hm. rewrite Hm. by apply (mount_of_ext _ _ _ _ E1).
    + destruct (po_walk _ _ _ _ P1 0%nat e) as (i' & Hi' & Hwk); [by rewrite He|]. rewrite Hi in Hi'. injection Hi' as <-. rewrite drop_0 in Hwk. rewrite <- Hwk.
      symmetry. apply (walk_ext _ R); [done|apply Hrd|apply Hrd].
Qed.

Lemma wp_call_create s l R D o g dir name (Q : Z -> vfs A W -> Prop) : op_create o = Some g -> owns s l R D -> room l R 1 ->
  (exists b k, inodes s !! b = Some k /\ super (node k) = super dir) ->
  (forall s', owns s' l R D -> ext (chain_refs l ⊎ R) s s' -> Q 0 s') ->
  (forall a i s', a <> 0 -> owns s' l ({[+ a +]} ⊎ R) D -> ext (chain_refs l ⊎ R) s s' -> inodes s' !! a = Some i -> Q a s') -> wp (call_create g dir name) Q s.
Proof.
  intros Hg Ho Hr Hm Q0 Q1. unfold call_create. apply wp_bind, wp_backend. intros v w Ew.
  destruct v as [v|]; [|apply wp_ret, Q0; [by apply owns_disk|apply ext_with_disk]].
  apply wp_bind. eapply wp_get; [exact (create_proper _ _ _ _ _ _ _ Hg Ew)|apply (owns_disk _ _ _ _ w Ho)|exact Hm| |].
  - intros s' S' E'. cbn [Z.eqb]. apply wp_backend. intros x w' [= <- <-].
    apply Q0; [|eapply ext_trans; [apply ext_with_disk|]; eapply ext_trans; [exact E'|apply ext_with_disk]]. apply owns_disk. destruct Ho as [_ N1 N2 N3]. by split.
  - intros a i s' Ha S' E' Hi _ _. destruct (Z.eqb_spec a 0); [done|].
    apply wp_ret, (Q1 a i); [done|by eapply owns_ref|eapply ext_trans; [apply ext_with_disk|exact E']|done].
Qed.

Lemma wp_vfs_create s R D O path : ready s R D -> opens_ok s O -> wp (vfs_create path) (open_post s R D O (fun _ _ => True)) s.
Proof.
  intros Hrd Hop. unfold vfs_create. apply wp_bind. eapply wp_mono; [by apply wp_lookup_parent|].
  intros [[[c p] name] trailing] s1 [E1 [[Hc S1]|(-> & O1 & N1 & ws & Ews & P1 & Hpl & _ & Hops)]].
  { rewrite (proj2 (Z.eqb_neq c 0)) by lia. apply wp_ret. split; [by apply ext_weak|]. left. split; [done|]. split; [done|]. split; [done|by eapply opens_ext]. }
  cbn [Z.eqb negb]. assert (Hroom : room (entry p) R 1) by (by eapply (path_room _ s1 (Path (entry p) (render ws))); [|apply Hrd]).
  destruct (entry p) as [|e l] eqn:He; [by pose proof (po_length _ _ _ _ P1) as Hl; cbn [entry] in Hl|]. destruct (owns_entry _ _ _ _ _ O1) as [i Hi].
  apply wp_bind, (wp_inode_at _ i); [done|].
  assert (Hfail : forall k s2, k < 0 -> owns s2 (e :: l) R D -> ext R s s2 -> wp (vfs_path_put p ≫= fun _ => mret (k, zero_file)) (open_post s R D O (fun _ _ => True)) s2).
  { intros k s2 Hk O2 E2. apply wp_bind. eapply wp_path_put; [rewrite He; exact O2|]. intros s3 S3 E3. assert (E13 : ext R s s3) by (by eapply ext_trans). apply wp_ret.
    split; [by apply ext_weak|]. left. split; [done|]. split; [done|]. split; [done|by eapply opens_ext]. }
  destruct trailing; [by apply (Hfail (- ENOTDIR))|]. apply wp_bind, wp_bind, wp_deref; [exact (Hops e l i eq_refl Hi)|].
  destruct (op_create _) as [g|] eqn:Eg; [|by apply (Hfail (- EROFS))].
  apply wp_bind. eapply wp_call_create; [exact Eg|exact O1|done|eauto| |].
  - intros s2 O2 E2. apply wp_ret. apply (Hfail (- EROFS)); [done|done|]. eapply ext_trans; [exact E1|]. eapply ext_sub; [|exact E2]. multiset_solver.
  - intros a k s2 Ha O2 E2 Hk. destruct (Z.eqb_spec a 0); [done|].
    assert (E02 : ext R s s2) by (eapply ext_trans; [exact E1|]; eapply ext_sub; [|exact E2]; multiset_solver).
    pose proof (wp_open_put s s2 p R D O a k (d_mount e) (fun o => match op_unlink (operations (node i)) with Some g => if negb (o.1 =? 0) then _ ← backend (fun w => g w (node i) name); mret o else mret o | None => mret o end)) as H.
    rewrite He in H. specialize (H O2 (opens_ext _ _ _ _ E02 Hop) (ext_weak _ _ _ E02) Hk).
    eassert (Hk' : _) by (by refine (H _); intros o s3; destruct (op_unlink _) as [g'|]; [destruct (negb _); [apply wp_bind, wp_backend; intros x w _; apply wp_ret; split; [done|by exists w]|]|]; (apply wp_ret; split; [done|]; exists (disk s3); by destruct s3)).
    apply wp_bind. eapply wp_mono; [exact (wp_bind_inv _ _ _ _ Hk')|]. intros o s3 H3. apply wp_bind_inv in H3. eapply wp_mono; [exact H3|]. intros o' s4 H4.
    eapply wp_mono; [exact H4|]. intros o2 s5 [E5 Hres]. split; [done|]. destruct Hres as [?|(? & i5 & ? & _ & ?)]; [by left|right; split; [done|by exists i5]].
Qed.
End Files.
