(* ===== verification/VfsMount.v ===== *)
(** Mounting and unmounting in the file system switch, and the invariant of its calls. *)
From stdpp Require Import gmultiset.
From S2P Require Import Prelude Alloc Vfs VfsSpec VfsPath VfsLookup VfsOps VfsFiles.

(** ** Names of mounts *)
Lemma component_split l : l = component l ++ drop (length (component l)) l.
Proof. induction l as [|c l IH]; [done|]. cbn. destruct (c =? SLASH); [done|]. cbn. by rewrite <- IH. Qed.

Lemma component_next l : drop (length (component l)) l = [] \/ rd (drop (length (component l)) l) 0 = SLASH.
Proof. induction l as [|c l IH]; [by left|]. cbn [component]. destruct (Z.eqb_spec c SLASH) as [->|]; [by right|]. cbn [length drop]. exact IH. Qed.

Lemma mount_name_loop_spec n fuel rest ws name : (length rest < fuel)%nat -> Forall plain ws -> zlen (render ws) + zlen rest <= n ->
  (1 < zlen (render ws) -> rest = [] \/ rd rest 0 = SLASH \/ zlen (render ws) + zlen rest <= n - 1) ->
  mount_name_loop fuel rest (render ws) = Some name -> name = render (rev_append (words rest) ws) /\ Forall plain (rev_append (words rest) ws) /\ zlen name <= n.
Proof.
  revert rest ws. induction fuel as [|fuel IH]; intros rest ws Hf Hp Hn Hs; [lia|].
  destruct rest as [|c rest]; cbn [mount_name_loop]; [intros [= <-]; cbn; split; [done|]; split; [done|unfold zlen in *; lia]|]. cbn [length] in Hf.
  assert (Hz : zlen (c :: rest) = zlen rest + 1) by (unfold zlen; cbn [length]; lia).
  destruct (Z.eqb_spec c SLASH) as [->|Hc]; [rewrite words_slash; apply IH; [lia|done|lia|]; intros; right; right; lia|].
  rewrite (words_component c rest Hc). pose proof (component_length c rest Hc) as Hcl. pose proof (component_no_slash (c :: rest)) as Hcs.
  pose proof (component_split (c :: rest)) as Hsp. pose proof (component_next (c :: rest)) as Hnx. set (w := component (c :: rest)) in *.
  set (rest' := drop (length w) (c :: rest)) in *. destruct (_ || _ || _) eqn:E; [done|]. apply orb_false_iff in E as [E E3]. apply orb_false_iff in E as [E1 E2].
  assert (Hw : plain w). { split; [intros Ew; rewrite Ew in Hcl; cbn in Hcl; lia|]. split; [done|]. split; [revert E2; by destruct (is_dot_spec w)|].
  split; [revert E3; by destruct (is_dotdot_spec w)|]. zbool. lia. }
  rewrite <- (render_cons w ws Hp). intros Hr. assert (Hlen : zlen (c :: rest) = zlen w + zlen rest') by (rewrite Hsp at 1; unfold zlen; rewrite length_app; lia).
  assert (Hrl : zlen (render (w :: ws)) = zlen (render ws) + (if zlen (render ws) >? 1 then 1 else 0) + zlen w) by (rewrite (render_cons w ws Hp); unfold zlen; rewrite !length_app; destruct (_ >? 1); cbn [length]; lia).
  cbn [rev_append]. apply (IH rest' (w :: ws)); [unfold zlen in *; lia|by apply Forall_cons_2| | |done].
  - destruct (Z.gtb_spec (zlen (render ws)) 1) as [H1|H1]; [|lia]. destruct (Hs H1) as [?|[H2|H2]]; [done|by change (rd (c :: rest) 0) with c in H2|lia].
  - intros _. destruct Hnx as [|]; [by left|by right; left].
Qed.

Lemma mount_name_spec path name : mount_name path = Some name ->
  name = render (rev_append (words path) []) /\ Forall plain (rev_append (words path) []) /\ zlen name < VFS_PATH_MAX.
Proof.
  unfold mount_name. destruct (path_length_cases path) as [Hl|(El & Hl & H0 & H1)]; [by rewrite (proj2 (Z.ltb_lt _ 0))|]. rewrite El, (proj2 (Z.ltb_ge _ 0)) by lia.
  change [SLASH] with (render []). intros H.
  apply (mount_name_loop_spec (zlen path)) in H as (E & Hp & Hlen); [rewrite words_drop1 in E, Hp by done; split; [done|]; split; [done|lia]|rewrite length_drop; lia|constructor| |].
  - change (zlen (render [])) with 1. unfold zlen in *. rewrite length_drop. lia.
  - by change (zlen (render [])) with 1.
Qed.

Section Mount.
Context {A W : Type} `{!AllocOps A, !AllocLaws A, !Backend W, !BackendLaws W}.
Abbreviation M := (Vfs.M A W).
Implicit Types (s : vfs A W) (R : gmultiset Z) (D : gset Z) (a : Z) (j : nat) (O : gmultiset nat) (f : vfs_file) (m : vfs_mount) (fs : list vfs_file).

(** ** The references of a state *)
Definition root_of m : gmultiset Z := if live m then {[+ root (msuper m) +]} else ∅.
Definition roots (ms : list vfs_mount) : gmultiset Z := foldr (fun m R => root_of m ⊎ R) ∅ ms.
Definition file_refs fs : gmultiset Z := list_to_set_disj (fnode <$> fs).
Definition slot_of s f : nat := match inodes s !! fnode f with Some i => super (node i) | None => 0%nat end.
Definition file_slots s fs : gmultiset nat := list_to_set_disj (slot_of s <$> fs).

Lemma roots_insert (ms : list vfs_mount) j m m' : ms !! j = Some m -> root_of m ⊎ roots (<[j := m']> ms) = root_of m' ⊎ roots ms.
Proof.
  revert j. induction ms as [|n ms IH]; intros [|j]; [done|done| |]; cbn [insert list_insert roots foldr lookup list_lookup].
  - intros [= ->]. fold (roots ms). multiset_solver.
  - intros Hm. specialize (IH j Hm). change (foldr (fun m R => root_of m ⊎ R) ∅ (<[j := m']> ms)) with (roots (<[j := m']> ms)). fold (roots ms).
    rewrite (assoc_L (⊎)), (comm_L (⊎) (root_of m)), <- (assoc_L (⊎)), IH. multiset_solver.
Qed.

Lemma elem_of_roots (ms : list vfs_mount) a : a ∈ roots ms <-> exists j m, ms !! j = Some m /\ live m = true /\ root (msuper m) = a.
Proof.
  induction ms as [|n ms IH]; cbn [roots foldr]; [split; [multiset_solver|intros (j & m & Hm & _); done]|]. fold (roots ms). rewrite gmultiset_elem_of_disj_union, IH.
  unfold root_of. split.
  - intros [H|(j & m & Hm & H)]; [|by exists (S j), m]. destruct (live n) eqn:E; [|multiset_solver]. apply gmultiset_elem_of_singleton in H as ->. by exists 0%nat, n.
  - intros ([|j] & m & Hm & Hl & <-); [injection Hm as ->; left; rewrite Hl; multiset_solver|]. right. by exists j, m.
Qed.

Lemma roots_shape2 (ms ms' : list vfs_mount) : shape2 <$> ms' = shape2 <$> ms -> roots ms' = roots ms.
Proof.
  revert ms'. induction ms as [|m ms IH]; intros [|m' ms'] E; try done. injection E as E1 E2 E3 E4 E5. cbn [roots foldr]. fold (roots ms) (roots ms').
  rewrite (IH ms' E5). f_equal. unfold root_of, live. by rewrite E2, E3.
Qed.

Lemma roots_size (ms : list vfs_mount) : (size (roots ms) <= length ms)%nat.
Proof.
  induction ms as [|m ms IH]; [done|]. cbn [roots foldr length]. fold (roots ms). rewrite gmultiset_size_disj_union. unfold root_of.
  destruct (live m); rewrite ?gmultiset_size_singleton, ?gmultiset_size_empty; lia.
Qed.

Lemma file_refs_cons f fs : file_refs (f :: fs) = {[+ fnode f +]} ⊎ file_refs fs.
Proof. done. Qed.
Lemma file_refs_size fs : size (file_refs fs) = length fs.
Proof. induction fs as [|f fs IH]; [done|]. rewrite file_refs_cons, gmultiset_size_disj_union, gmultiset_size_singleton, IH. done. Qed.
Lemma file_slots_cons s f fs : file_slots s (f :: fs) = {[+ slot_of s f +]} ⊎ file_slots s fs.
Proof. done. Qed.

Lemma elem_of_file_refs fs a : a ∈ file_refs fs <-> exists f, f ∈ fs /\ fnode f = a.
Proof. unfold file_refs. rewrite elem_of_list_to_set_disj, list_elem_of_fmap. naive_solver. Qed.

Lemma file_slots_ext s s' fs : (forall a i, a ∈ file_refs fs -> inodes s !! a = Some i -> exists i', inodes s' !! a = Some i' /\ node i' = node i) ->
  (forall a, a ∈ file_refs fs -> is_Some (inodes s !! a)) -> file_slots s' fs = file_slots s fs.
Proof.
  intros H H0. unfold file_slots. f_equal. apply list_fmap_ext. intros k f Hf.
  assert (Ha : fnode f ∈ file_refs fs) by (apply elem_of_file_refs; exists f; split; [by eapply list_elem_of_lookup_2|done]).
  destruct (H0 _ Ha) as [i Hi]. destruct (H _ _ Ha Hi) as (i' & Hi' & E). unfold slot_of. by rewrite Hi, Hi', E.
Qed.

(** ** The invariant: [fs] are the open files *)
Definition canonical (path : list Z) : Prop := exists ws, Forall plain ws /\ path = render ws /\ zlen path < VFS_PATH_MAX.

Record vfs_ok s fs : Prop := {
  vo_store : store_ok s (roots (mounts s) ⊎ file_refs fs) ∅;
  vo_opens : opens_ok s (file_slots s fs);
  vo_live j m : mounts s !! j = Some m -> live m = true ->
  canonical (mpath m) /\ exists i, inodes s !! root (msuper m) = Some i /\ super (node i) = j /\ type (node i) = VFS_NODE_DIRECTORY;
  vo_dead j m : mounts s !! j = Some m -> live m = false -> m = zero_mount;
  vo_used a i : inodes s !! a = Some i -> exists m, mounts s !! super (node i) = Some m /\ live m = true;
  vo_names j k m m' : mounts s !! j = Some m -> mounts s !! k = Some m' -> live m = true -> live m' = true -> mpath m = mpath m' -> j = k;
  vo_types : Forall (fun t => t = 0 \/ fs_mount t <> None) (filesystems s);
}.

Lemma rooted_ok s fs : rooted s (roots (mounts s) ⊎ file_refs fs).
Proof. intros j m Hm Hl. apply gmultiset_elem_of_disj_union. left. apply elem_of_roots. eauto. Qed.

Definition few fs : Prop := Z.of_nat (length fs) < 2 ^ 31.

Lemma refs_size s fs : vfs_ok s fs -> (size (roots (mounts s) ⊎ file_refs fs) <= VFS_MAX_MOUNTS + length fs)%nat.
Proof. intros H. rewrite gmultiset_size_disj_union, file_refs_size. pose proof (roots_size (mounts s)) as Hr. rewrite (so_slots _ _ _ (vo_store _ _ H)) in Hr. lia. Qed.

Lemma vfs_ok_ready s fs : vfs_ok s fs -> few fs -> ready s (roots (mounts s) ⊎ file_refs fs) ∅.
Proof. intros H Hf. split; [apply H|]. split; [apply rooted_ok|]. pose proof (refs_size s fs H). unfold few, VFS_MAX_MOUNTS in *. lia. Qed.

Lemma ext2_mount R s s' j m' : ext2 R s s' -> mounts s' !! j = Some m' -> exists m, mounts s !! j = Some m /\ shape2 m' = shape2 m.
Proof.
  intros E H. pose proof (e2_shape _ _ _ E) as Es. apply (f_equal (fun x : list _ => x !! j)) in Es. rewrite !list_lookup_fmap, H in Es.
  destruct (mounts s !! j) as [m|]; [|done]. exists m. split; [done|]. by apply (inj Some) in Es.
Qed.

Lemma shape2_live m m' : shape2 m = shape2 m' ->
  live m = live m' /\ mpath m = mpath m' /\ root (msuper m) = root (msuper m') /\ filesystem (msuper m) = filesystem (msuper m') /\ device_context (msuper m) = device_context (msuper m').
Proof. unfold shape2, live. intros [= -> -> -> ->]. done. Qed.

(** Open files are on mounted file systems. *)
Lemma slot_live s fs R D : store_ok s (R ⊎ file_refs fs) D -> (forall a i, inodes s !! a = Some i -> exists m, mounts s !! super (node i) = Some m /\ live m = true) ->
  forall j m, mounts s !! j = Some m -> live m = false -> multiplicity j (file_slots s fs) = 0%nat.
Proof.
  intros Hs Hu j m Hm Hl. destruct (multiplicity j (file_slots s fs)) eqn:E; [done|]. exfalso. assert (Hj : j ∈ file_slots s fs) by (rewrite elem_of_multiplicity; lia).
  unfold file_slots in Hj. rewrite elem_of_list_to_set_disj, list_elem_of_fmap in Hj. destruct Hj as (f & -> & Hf).
  assert (Ha : fnode f ∈ file_refs fs) by (apply elem_of_file_refs; eauto). destruct (so_live _ _ _ Hs (fnode f)) as [i Hi]; [multiset_solver|].
  destruct (Hu _ _ Hi) as (m' & Hm' & Hl'). unfold slot_of in Hm. rewrite Hi, Hm' in Hm. injection Hm as <-. congruence.
Qed.

Lemma vfs_ok_ext2 s s' fs fs' : vfs_ok s fs -> ext2 (roots (mounts s)) s s' -> store_ok s' (roots (mounts s) ⊎ file_refs fs') ∅ -> opens_ok s' (file_slots s' fs') ->
  vfs_ok s' fs'.
Proof.
  intros H E Hs Ho. assert (Hused : forall a i, inodes s' !! a = Some i -> exists m, mounts s' !! super (node i) = Some m /\ live m = true).
  { intros a i Hi. destruct (e2_slots _ _ _ E a i Hi) as (b & k & Hk & <-). destruct (vo_used _ _ H b k Hk) as (m & Hm & Hl). pose proof (e2_shape _ _ _ E) as Es.
    apply (f_equal (fun x : list _ => x !! super (node k))) in Es. rewrite !list_lookup_fmap, Hm in Es.
    destruct (mounts s' !! super (node k)) as [m'|]; [|done]. exists m'. split; [done|]. apply (inj Some) in Es. by destruct (shape2_live _ _ Es) as (-> & _). }
  split; [by rewrite (roots_shape2 _ _ (e2_shape _ _ _ E))|done| | |done| |by rewrite (e2_types _ _ _ E); apply H].
  - intros j m' Hm' Hl. destruct (ext2_mount _ _ _ _ _ E Hm') as (m & Hm & Es). destruct (shape2_live _ _ Es) as (El & -> & -> & _). rewrite El in Hl.
    destruct (vo_live _ _ H j m Hm Hl) as (Hc & i & Hi & Hj & Ht). split; [done|].
    destruct (e2_node _ _ _ E (root (msuper m)) i) as (i' & Hi' & En); [apply elem_of_roots; eauto|done|]. exists i'. by rewrite En.
  - intros j m' Hm' Hl. destruct (ext2_mount _ _ _ _ _ E Hm') as (m & Hm & Es). pose proof (shape2_live _ _ Es) as (El & Ep & Er & Ef & Ed). rewrite El in Hl.
    rewrite (vo_dead _ _ H j m Hm Hl) in *. pose proof (Ho j m' Hm') as Hop. rewrite (slot_live _ _ _ _ Hs Hused j m' Hm') in Hop by (by rewrite El).
    destruct (so_list _ _ _ Hs j m' Hm') as [_ L]. destruct m' as [p [ft r l n d]]. cbn in *. subst. f_equal. f_equal. destruct l as [|x l]; [done|]. exfalso.
    destruct (proj1 (L x)) as (i & Hi & Hj); [by left|]. destruct (Hused x i Hi) as (m2 & Hm2 & Hl2). rewrite Hj, Hm' in Hm2. by injection Hm2 as <-.
  - intros j k m1 m2 Hm1 Hm2. destruct (ext2_mount _ _ _ _ _ E Hm1) as (n1 & Hn1 & E1). destruct (ext2_mount _ _ _ _ _ E Hm2) as (n2 & Hn2 & E2).
    destruct (shape2_live _ _ E1) as (-> & -> & _). destruct (shape2_live _ _ E2) as (-> & -> & _). by apply (vo_names _ _ H).
Qed.

(** Calls that leave the open files as they are. *)
Lemma vfs_ok_stays s s' fs : vfs_ok s fs -> stays s (roots (mounts s) ⊎ file_refs fs) ∅ s' -> vfs_ok s' fs.
Proof.
  intros H [Hs E]. apply (vfs_ok_ext2 s s' fs fs); [done|eapply ext2_sub; [|by apply ext_weak]; multiset_solver|done|].
  rewrite (file_slots_ext s s'); [eapply opens_ext; [exact E|apply H]| |].
  - intros a i Ha. apply (ex_node _ _ _ E). multiset_solver.
  - intros a Ha. apply (so_live _ _ _ (vo_store _ _ H)). multiset_solver.
Qed.

(** ** Mounting *)
Lemma wp_get_fresh s R v m (Q : Z -> vfs A W -> Prop) : proper v -> store_ok s R ∅ -> mounts s !! super v = Some m -> s_inodes (msuper m) = [] ->
  (forall h, store_ok (with_heap s h) R ∅ -> Q 0 (with_heap s h)) ->
  (forall a h, a <> 0 -> inodes s !! a = None -> store_ok (add_inode (with_heap s h) v m a) ({[+ a +]} ⊎ R) ∅ -> Q a (add_inode (with_heap s h) v m a)) ->
  wp (vfs_inode_get v) Q s.
Proof.
  intros Hv Hs Hm Hl Q0 Q1. unfold vfs_inode_get. apply wp_bind, (wp_super_at _ m); [done|]. rewrite Hl. apply wp_bind, wp_ret. cbn [Z.eqb negb].
  apply wp_bind, (wp_heap_alloc s R ∅); [done|unfold sizeof_inode; lia|intros h Hh; by apply wp_ret, Q0|].
  intros a h Ha Hf Hh. destruct (Z.eqb_spec a 0); [done|]. apply wp_bind. unfold wp at 1, set_inodes. apply wp_bind, (wp_set_super _ _ m); [done|]. apply wp_ret.
  assert (Hn : inodes s !! a = None) by (apply not_elem_of_dom; set_solver).
  destruct (store_add (with_heap s h) R ∅ v m a) as [S1 _]; [done|done|done|done|intros b k Hb; rewrite Hl in Hb; by apply elem_of_nil in Hb|].
  pose proof (Q1 a h Ha Hn S1) as HQ. unfold add_inode, with_heap, put_mount in *. cbn [mounts inodes filesystems Vfs.heap disk] in *. by rewrite Hl in HQ.
Qed.

(** Giving back the only reference to the only inode of a slot. *)
Lemma wp_put_last s R a i m (Q : unit -> vfs A W -> Prop) : store_ok s ({[+ a +]} ⊎ R) ∅ -> a ∉ R -> inodes s !! a = Some i -> mounts s !! super (node i) = Some m ->
  s_inodes (msuper m) = [a] ->
  (store_ok (drop_inode s (super (node i)) m [] a) R ∅ -> Q tt (drop_inode s (super (node i)) m [] a)) -> wp (vfs_inode_put a) Q s.
Proof.
  intros Hs Ha Hi Hm Hl HQ. unfold vfs_inode_put. rewrite (proj2 (Z.eqb_neq a 0)) by (eapply store_nonnull; [exact Hs|multiset_solver]).
  apply wp_bind, (wp_inode_at a i); [done|]. destruct (so_refs _ _ _ Hs a i Hi) as [Er _].
  assert (E1 : references i = 1). { rewrite Er, multiplicity_disj_union, multiplicity_singleton, decide_True by done. replace (multiplicity a R) with 0%nat; [done|].
  rewrite elem_of_multiplicity in Ha. lia. }
  cbv zeta. rewrite E1. cbn [Z.sub Z.add Z.opp Z.pos_sub]. change (u32 0) with 0. cbn [Z.eqb negb]. apply wp_bind, (wp_super_at _ m); [done|]. rewrite Hl.
  cbn [unlink_inode]. rewrite Z.eqb_refl. apply wp_bind, (wp_set_super _ _ m); [done|].
  destruct (store_drop s R ∅ a i m [] Hs Hi Ha Hm) as [S1 _]; [constructor|intros b; rewrite Hl, list_elem_of_singleton; split; [by intros ?%elem_of_nil|by intros [-> ?]]|].
  by apply HQ.
Qed.

(** A slot that is being mounted, with its root at [a] if there is one. *)
Record mounting s s' R j (t dc a : Z) : Prop := {
  mg_types : filesystems s' = filesystems s;
  mg_mounts : mounts s' = <[j := Mount [] (Superblock t a (if a =? 0 then [] else [a]) 0 dc)]> (mounts s);
  mg_store : (a = 0 /\ inodes s' = inodes s /\ store_ok s' R ∅) \/
    (a <> 0 /\ inodes s !! a = None /\ exists v, super v = j /\ inodes s' = <[a := Inode v 1]> (inodes s) /\ store_ok s' ({[+ a +]} ⊎ R) ∅);
}.

Lemma mounting_disk s s' R j t dc a w : mounting s s' R j t dc a -> mounting s (with_disk s' w) R j t dc a.
Proof.
  intros [H1 H2 H3]. split; [done|done|].
  destruct H3 as [(-> & H4 & H5)|(H3 & H4 & v & H5 & H6 & H7)]; [left|right; split; [done|]; split; [done|]; exists v]; auto using store_with_disk.
Qed.

Lemma mounting_at s s' R j t dc a m : mounting s s' R j t dc a -> mounts s !! j = Some m ->
  mounts s' !! j = Some (Mount [] (Superblock t a (if a =? 0 then [] else [a]) 0 dc)).
Proof. intros H Hm. rewrite (mg_mounts _ _ _ _ _ _ _ H). apply list_lookup_insert_eq. by eapply lookup_lt_Some. Qed.

Lemma wp_call_mount s s1 R j t dc g m : (forall w r v w', g w = (r, Some v, w') -> proper v) -> mounting s s1 R j t dc 0 -> mounts s !! j = Some m ->
  wp (call_mount j g) (fun _ s2 => exists a, mounting s s2 R j t dc a) s1.
Proof.
  intros Hg H Hm. pose proof (mounting_at _ _ _ _ _ _ _ _ H Hm) as Hm1. unfold call_mount. apply wp_bind, wp_backend. intros [r v] w Ew. cbn [fst snd].
  destruct v as [v|]; [|apply wp_ret; exists 0; by apply mounting_disk].
  destruct H as [H1 H2 H3]. destruct H3 as [(_ & H4 & H5)|(H3 & _)]; [|done]. assert (Hj : (j < length (mounts s))%nat) by (by eapply lookup_lt_Some).
  set (v' := Node j _ _ _ _ _).
  apply wp_bind. eapply (wp_get_fresh (with_disk s1 w) R v'); [exact (Hg _ _ _ _ Ew)|by apply store_with_disk|exact Hm1|done| |].
  - intros h Hh. apply wp_bind. eapply wp_super_at; [exact Hm1|]. apply wp_bind. eapply wp_set_super; [exact Hm1|]. apply wp_ret. exists 0.
    split; cbn [put_mount filesystems mounts inodes with_heap with_disk with_root]; [done| |left; split; [done|]; split; [done|]].
    + rewrite H2, list_insert_insert_eq. done.
    + by eapply (store_put_mount (with_heap (with_disk s1 w) h)).
  - intros a h Ha Hn Hs.
    assert (Hm2 : mounts (add_inode (with_heap (with_disk s1 w) h) v' (Mount [] (Superblock t 0 [] 0 dc)) a) !! j = Some (Mount [] (Superblock t 0 [a] 0 dc))).
    { cbn [add_inode mounts with_heap with_disk super v']. rewrite list_lookup_insert_eq; [done|]. rewrite H2, length_insert. done. }
    apply wp_bind. eapply wp_super_at; [exact Hm2|]. apply wp_bind. eapply wp_set_super; [exact Hm2|]. apply wp_ret. exists a.
    split; cbn [put_mount add_inode filesystems mounts inodes with_heap with_disk with_root msuper mpath]; [done| |right; split; [done|]; split; [by rewrite <- H4|]].
    + cbn [super v' with_inodes]. rewrite H2, !list_insert_insert_eq. by rewrite (proj2 (Z.eqb_neq a 0)).
    + exists v'. split; [done|]. split; [by rewrite H4|]. by eapply store_put_mount.
Qed.

Lemma wp_root_ok s s1 R j t dc a m (Q : bool -> vfs A W -> Prop) : mounting s s1 R j t dc a -> mounts s !! j = Some m -> Q false s1 ->
  (forall i, a <> 0 -> inodes s1 !! a = Some i -> type (node i) = VFS_NODE_DIRECTORY -> Q true s1) -> wp (root_ok j) Q s1.
Proof.
  intros H Hm Q0 Q1. pose proof (mounting_at _ _ _ _ _ _ _ _ H Hm) as Hm1. unfold root_ok. apply wp_bind. eapply wp_super_at; [exact Hm1|]. cbn [root msuper].
  destruct (mg_store _ _ _ _ _ _ _ H) as [(-> & _)|(Ha & _ & v & _ & Ei & _)]; [by apply wp_ret|].
  rewrite (proj2 (Z.eqb_neq a 0)) by done. apply wp_bind, (wp_inode_at a (Inode v 1)); [by rewrite Ei, lookup_insert_eq|]. apply wp_ret.
  destruct (Z.eqb_spec (type (node (Inode v 1))) VFS_NODE_DIRECTORY) as [E|]; [|done]. apply (Q1 (Inode v 1)); [done|by rewrite Ei, lookup_insert_eq|done].
Qed.

(** Giving up a mount leaves the state as it was before. *)
Definition same_tables s s' : Prop := filesystems s' = filesystems s /\ mounts s' = mounts s /\ inodes s' = inodes s.

Lemma wp_release s R j m : mounts s !! j = Some m -> live m = true -> let a := root (msuper m) in
  (a = 0 /\ s_inodes (msuper m) = [] /\ store_ok s R ∅) \/ (a <> 0 /\ s_inodes (msuper m) = [a] /\ (a ∉ R) /\ (exists i, inodes s !! a = Some i /\ super (node i) = j) /\ store_ok s ({[+ a +]} ⊎ R) ∅) ->
  wp (release_super j) (fun _ s' => filesystems s' = filesystems s /\ mounts s' = <[j := Mount (mpath m) zero_super]> (mounts s) /\ inodes s' = (if a =? 0 then inodes s else delete a (inodes s)) /\ store_ok s' R ∅) s.
Proof.
  intros Hm Hlive a Ha. assert (Hj : (j < length (mounts s))%nat) by (by eapply lookup_lt_Some). set (post := fun (_ : unit) s' => _).
  assert (Hend : forall s2 sb, filesystems s2 = filesystems s -> mounts s2 = <[j := Mount (mpath m) sb]> (mounts s) -> filesystem sb <> 0 -> s_inodes sb = [] -> inodes s2 = (if a =? 0 then inodes s else delete a (inodes s)) -> store_ok s2 R ∅ ->
    wp (super_at j ≫= fun sb => set_super j (with_root sb 0) ≫= fun _ => deref (filesystem sb) ≫= fun _ => match fs_unmount (filesystem sb) with Some f => backend (fun w => (tt, f w j)) | None => mret tt end ≫= fun _ => set_super j zero_super) post s2).
  { intros s2 sb F1 F2 Ff Fl F3 F4. assert (Hm2 : mounts s2 !! j = Some (Mount (mpath m) sb)) by (rewrite F2; by apply list_lookup_insert_eq). apply wp_bind.
    eapply wp_super_at; [exact Hm2|]. apply wp_bind. eapply wp_set_super; [exact Hm2|]. cbn [msuper mpath].
    assert (S3 : store_ok (put_mount s2 j (Mount (mpath m) (with_root sb 0))) R ∅) by (by eapply store_put_mount). set (s3 := put_mount s2 j _) in *.
    assert (Hm3 : mounts s3 !! j = Some (Mount (mpath m) (with_root sb 0))) by (cbn [s3 put_mount mounts]; rewrite list_lookup_insert_eq; [done|]; by rewrite F2, length_insert).
    assert (Hfin : forall w, wp (set_super j zero_super) post (with_disk s3 w)).
    { intros w. eapply wp_set_super; [exact Hm3|]. split; [done|].
      split; [|split; [done|eapply store_put_mount; [by apply store_with_disk|exact Hm3|exact (eq_sym Fl)]]]. cbn [put_mount with_disk s3 mounts mpath].
      by rewrite F2, !list_insert_insert_eq. }
    apply wp_bind, wp_deref; [exact Ff|]. apply wp_bind. destruct (fs_unmount _) as [u|]; [apply wp_backend; intros [] w _; apply Hfin|]. apply wp_ret.
    specialize (Hfin (disk s3)). by replace (with_disk s3 (disk s3)) with s3 in Hfin by (by destruct s3). }
  assert (Hf0 : filesystem (msuper m) <> 0) by (unfold live in Hlive; by destruct (Z.eqb_spec (filesystem (msuper m)) 0)). unfold release_super. apply wp_bind.
  eapply wp_super_at; [exact Hm|]. apply wp_bind. fold a. destruct Ha as [(E0 & Hl & Hs)|(E0 & Hl & Hn & (i & Hi & Hsup) & Hs)].
  - rewrite E0. apply wp_ret. apply (Hend s (msuper m)); [done|rewrite list_insert_id; [done|by destruct m]|done|done|by rewrite E0|done].
  - eapply (wp_put_last s R a i m); [done|done|done|by rewrite Hsup|done|]. rewrite Hsup. intros S2.
    eapply (Hend _ (with_inodes (msuper m) [])); [done|done|done|done| |exact S2]. by rewrite (proj2 (Z.eqb_neq a 0)).
Qed.

Lemma wp_release_mounting s s1 R j t dc a : t <> 0 -> mounting s s1 R j t dc a -> mounts s !! j = Some zero_mount -> (forall b, b ∈ R -> is_Some (inodes s !! b)) ->
  wp (release_super j) (fun _ s2 => same_tables s s2 /\ store_ok s2 R ∅) s1.
Proof.
  intros Ht H Hm HR. pose proof (mounting_at _ _ _ _ _ _ _ _ H Hm) as Hm1. destruct H as [H1 H2 H3].
  eapply wp_mono; [eapply (wp_release s1 R j); [exact Hm1|unfold live; cbn [msuper filesystem]; by rewrite (proj2 (Z.eqb_neq t 0))|]|].
  - cbn [msuper root s_inodes]. destruct H3 as [(-> & H4 & H5)|(Ha & Hn & v & Hv & H4 & H5)]; [by left|]. rewrite (proj2 (Z.eqb_neq a 0)) by done. right.
    split; [done|]. split; [done|]. split; [intros Hc; apply HR in Hc as [? ?]; congruence|].
    split; [|done]. exists (Inode v 1). by rewrite H4, lookup_insert_eq.
  - intros [] s2 (F1 & F2 & F3 & F4). cbn [mpath msuper root] in *. split; [|done]. split; [congruence|].
    split; [rewrite F2, H2, list_insert_insert_eq; by apply list_insert_id|]. rewrite F3.
    destruct H3 as [(-> & H4 & H5)|(Ha & Hn & v & Hv & H4 & H5)]; [done|]. rewrite (proj2 (Z.eqb_neq a 0)) by done. rewrite H4. by apply delete_insert_id.
Qed.

Lemma store_put_path s R D j m path : store_ok s R D -> mounts s !! j = Some m -> store_ok (put_mount s j (Mount path (msuper m))) R D.
Proof. intros Hs Hm. by eapply store_put_mount. Qed.

Lemma vfs_ok_mounted s s1 fs j t dc a name : vfs_ok s fs -> mounting s s1 (roots (mounts s) ⊎ file_refs fs) j t dc a -> mounts s !! j = Some zero_mount -> t <> 0 ->
  a <> 0 -> (forall i, inodes s1 !! a = Some i -> type (node i) = VFS_NODE_DIRECTORY) ->
  canonical name -> find_path s name = None -> vfs_ok (put_mount s1 j (Mount name (Superblock t a [a] 0 dc))) fs.
Proof.
  intros H Hg Hm Ht Ha Hty Hcan Hfree. pose proof (mounting_at _ _ _ _ _ _ _ _ Hg Hm) as Hm1. destruct Hg as [G1 G2 G3].
  destruct G3 as [(-> & _)|(_ & Hn & v & Hv & G4 & G5)]; [done|]. rewrite (proj2 (Z.eqb_neq a 0)) in G2, Hm1 by done.
  assert (Hj : (j < length (mounts s))%nat) by (by eapply lookup_lt_Some). set (m' := Mount name _).
  assert (Hms : mounts (put_mount s1 j m') = <[j := m']> (mounts s)) by (cbn [put_mount mounts]; by rewrite G2, list_insert_insert_eq).
  assert (Hat : forall k x, mounts (put_mount s1 j m') !! k = Some x -> (k = j /\ x = m') \/ (k <> j /\ mounts s !! k = Some x)) by (intros k x; rewrite Hms, list_lookup_insert_Some; intros [(-> & -> & _)|[? ?]]; auto).
  assert (Hlive : live m' = true) by (unfold live; cbn; by rewrite (proj2 (Z.eqb_neq t 0))).
  assert (Hroots : roots (mounts (put_mount s1 j m')) = {[+ a +]} ⊎ roots (mounts s)).
  { rewrite Hms. pose proof (roots_insert (mounts s) j zero_mount m' Hm) as Hr. change (root_of zero_mount) with (∅ : gmultiset Z) in Hr. rewrite (left_id_L _ _) in Hr.
    rewrite Hr. unfold root_of. by rewrite Hlive. }
  assert (Hin : forall b k, inodes s !! b = Some k -> inodes (put_mount s1 j m') !! b = Some k) by (intros b k Hk; cbn [put_mount inodes]; rewrite G4, lookup_insert_ne; [done|congruence]).
  assert (Hliveat : forall k x, mounts s !! k = Some x -> live x = true -> mounts (put_mount s1 j m') !! k = Some x) by (intros k x Hk Hx; rewrite Hms, list_lookup_insert_ne; [done|intros <-; rewrite Hm in Hk; by injection Hk as <-]).
  split.
  - rewrite Hroots, <- (assoc_L (⊎)). exact (store_put_path s1 _ ∅ j _ name G5 Hm1).
  - rewrite (file_slots_ext s).
    + intros k x Hk. destruct (Hat k x Hk) as [[-> ->]|[_ Hk']]; [|by apply (vo_opens _ _ H)]. cbn.
      by rewrite (slot_live s fs _ _ (vo_store _ _ H) (vo_used _ _ H) j zero_mount Hm).
    + intros b k _ Hk. exists k. split; [by apply Hin|done].
    + intros b Hb. apply (so_live _ _ _ (vo_store _ _ H)). multiset_solver.
  - intros k x Hk Hx. destruct (Hat k x Hk) as [[-> ->]|[_ Hk']].
    + split; [done|]. exists (Inode v 1). cbn [m' msuper root put_mount inodes]. rewrite G4, lookup_insert_eq. split; [done|]. split; [done|]. apply (Hty (Inode v 1)).
      by rewrite G4, lookup_insert_eq.
    + destruct (vo_live _ _ H k x Hk' Hx) as (Hc & i & Hi & Hk2 & Hd). split; [done|]. exists i. split; [by apply Hin|done].
  - intros k x Hk Hx. destruct (Hat k x Hk) as [[-> ->]|[_ Hk']]; [congruence|by apply (vo_dead _ _ H k)].
  - intros b k. cbn [put_mount inodes]. rewrite G4, lookup_insert_Some.
    intros [[<- <-]|[_ Hk]]; [exists m'; split; [|done]; cbn [node]; rewrite Hv, Hms; by apply list_lookup_insert_eq|]. destruct (vo_used _ _ H b k Hk) as (x & Hx & Hlx).
    exists x. split; [by apply Hliveat|done].
  - assert (Hnew : forall k x, mounts s !! k = Some x -> live x = true -> mpath x = name -> False).
    { intros k x Hk Hx Ep. unfold find_path in Hfree. pose proof (find_slot_None _ _ _ _ _ Hfree Hk) as Hq. cbn beta in Hq. rewrite Hx, bool_decide_true in Hq by done.
      done. }
    intros k1 k2 x1 x2 H1 H2 L1 L2 Ep.
    destruct (Hat k1 x1 H1) as [[-> ->]|[_ H1']]; destruct (Hat k2 x2 H2) as [[-> ->]|[_ H2']]; [done|by destruct (Hnew k2 x2)|by destruct (Hnew k1 x1)|by apply (vo_names _ _ H k1 k2 x1 x2)].
  - cbn [put_mount filesystems]. rewrite G1. apply H.
Qed.

Lemma vfs_ok_same s s' fs : vfs_ok s fs -> same_tables s s' -> store_ok s' (roots (mounts s) ⊎ file_refs fs) ∅ -> vfs_ok s' fs.
Proof.
  intros H (E1 & E2 & E3) Hs. apply (vfs_ok_stays s); [done|]. split; [done|]. split; [done|by rewrite E2|intros a i _ Hi; rewrite E3; eauto|rewrite E3; eauto].
Qed.

Lemma vfs_ok_disk s fs w : vfs_ok s fs -> vfs_ok (with_disk s w) fs.
Proof. intros H. apply (vfs_ok_same s); [done|done|]. apply store_with_disk, H. Qed.

(** A mount call that fails changes no table; one that succeeds fills a free slot under a name that was free. *)
Definition mount_post s fs (path : list Z) (t : Z) (r : Z) s' : Prop :=
  vfs_ok s' fs /\ ((r < 0 /\ same_tables s s') \/
    (r = 0 /\ exists name j m, mount_name path = Some name /\ find_path s name = None /\ mounts s !! j = Some zero_mount /\ mounts s' = <[j := m]> (mounts s) /\ mpath m = name /\ filesystem (msuper m) = t)).

Lemma wp_fill_slot s fs path name j t source size attach w : vfs_ok s fs -> t <> 0 -> fs_mount t <> None -> (attach = true -> fs_attach t <> None) ->
  mount_name path = Some name -> find_path s name = None -> mounts s !! j = Some zero_mount ->
  wp (fill_slot j name t source size attach) (mount_post s fs path t) (with_disk s w).
Proof.
  intros H Ht0 Ht Hat En Ef Hm. unfold fill_slot. apply wp_bind. eapply (wp_super_at _ zero_mount); [exact Hm|].
  cbn [msuper zero_mount root s_inodes open_files device_context zero_super]. set (dc := if attach then block_context source else 0). apply wp_bind.
  eapply (wp_set_super (with_disk s w) j zero_mount); [exact Hm|].
  set (R := roots (mounts s) ⊎ file_refs fs). assert (Hg : mounting s (put_mount (with_disk s w) j (Mount (mpath zero_mount) (Superblock t 0 [] 0 dc))) R j t dc 0).
  { split; [done|done|]. left. split; [done|]. split; [done|]. by eapply (store_put_mount (with_disk s w)); [apply store_with_disk, H|exact Hm|]. }
  apply wp_bind.
  assert (Hcall : forall g, (forall w r v w', g w = (r, Some v, w') -> proper v) -> wp (call_mount j g) (fun _ s2 => exists a, mounting s s2 R j t dc a) (put_mount (with_disk s w) j (Mount (mpath zero_mount) (Superblock t 0 [] 0 dc)))) by (intros g Hpr; by eapply wp_call_mount).
  eapply (wp_mono _ (fun _ s2 => exists a, mounting s s2 R j t dc a)).
  { destruct attach; [destruct (fs_attach t) eqn:Eg; [|by destruct Hat]|destruct (fs_mount t) eqn:Eg; [|done]]; apply Hcall; intros w' r v w'' Ew; [by eapply attach_proper|by eapply mount_proper].
    }
  intros result s2 [a Ha]. apply wp_bind. assert (Hrel : wp (release_super j ≫= fun _ => mret (- EINVAL)) (mount_post s fs path t) s2).
  { apply wp_bind. eapply wp_mono; [eapply wp_release_mounting; [exact Ht0|exact Ha|exact Hm|intros b Hb; by apply (so_live _ _ _ (vo_store _ _ H))]|].
    intros [] s3 [Es Hs]. apply wp_ret. split; [by eapply vfs_ok_same|left; by split]. }
  eapply wp_root_ok; [exact Ha|exact Hm|rewrite orb_true_r; exact Hrel|]. intros i Ha0 Hi Hty. destruct (negb (result =? 0)); [exact Hrel|]. cbn [orb negb].
  apply wp_bind. pose proof (mounting_at _ _ _ _ _ _ _ _ Ha Hm) as Hm2. rewrite (proj2 (Z.eqb_neq a 0)) in Hm2 by done. unfold wp at 1, mount_at. rewrite Hm2.
  apply wp_bind. unfold wp at 1, set_mount. apply wp_ret. cbn [msuper].
  destruct (mount_name_spec _ _ En) as (Ename & Hpl & Hlen). split.
  - apply (vfs_ok_mounted s s2 fs j t dc a name); [done|exact Ha|done|done|done|intros k Hk; congruence|by exists (rev_append (words path) [])|done].
  - right. split; [done|]. exists name, j, (Mount name (Superblock t a [a] 0 dc)). split; [done|]. split; [done|]. split; [done|]. split; [|done]. cbn [mounts].
    by rewrite (mg_mounts _ _ _ _ _ _ _ Ha), list_insert_insert_eq.
Qed.

Lemma wp_mount_type s fs path t source size attach : vfs_ok s fs -> (t = 0 \/ fs_mount t <> None) -> wp (mount_type path t source size attach) (mount_post s fs path t) s.
Proof.
  intros H Ht. assert (Hbad : forall c w, c < 0 -> mount_post s fs path t c (with_disk s w)) by (intros c w Hc; split; [by apply vfs_ok_disk|left; by split]).
  assert (Hbad0 : forall c, c < 0 -> mount_post s fs path t c s) by (intros c Hc; split; [done|left; by split]).
  unfold mount_type. destruct (Z.eqb_spec t 0) as [|Ht0]; [by apply wp_ret, Hbad0|]. destruct Ht as [|Ht]; [done|]. destruct (source =? 0); [by apply wp_ret, Hbad0|].
  destruct (mount_name path) as [name|] eqn:En; [|by apply wp_ret, Hbad0].
  apply wp_bind, wp_find_mount. destruct (find_path s name) as [k|] eqn:Ef; [rewrite bool_decide_true by (by eexists); by apply wp_ret, Hbad0|].
  rewrite bool_decide_false by (by intros [? ?]).
  apply wp_bind. unfold gets, wp at 1. destruct (find_slot _ _ _) as [j|] eqn:Ej; [|by apply wp_ret, Hbad0]. apply find_slot_Some in Ej as (m0 & j' & -> & Hm & Hd).
  cbn [Nat.add] in *. rename j' into j. apply negb_true_iff in Hd. rewrite (vo_dead _ _ H j m0 Hm Hd) in Hm. clear m0 Hd.
  destruct (attach && _) eqn:Eat; [by apply wp_ret, Hbad0|].
  assert (Hfill : forall w, wp (fill_slot j name t source size attach) (mount_post s fs path t) (with_disk s w)) by (intros w; apply wp_fill_slot; try done; intros ->; by apply bool_decide_eq_false in Eat).
  apply wp_bind.
  destruct (fs_probe t) as [g|]; [destruct (attach || _); [|apply wp_backend; intros x w _; destruct (negb attach && _); [by apply wp_ret, Hbad|apply Hfill]]|];
    (apply wp_ret; destruct (negb attach && _); [by apply wp_ret, Hbad0|]; specialize (Hfill (disk s)); by replace (with_disk s (disk s)) with s in Hfill by (by destruct s)).
Qed.

(** ** Unmounting *)
Lemma wp_inodes_busy s l r (Q : bool -> vfs A W -> Prop) : (forall a, a ∈ l -> is_Some (inodes s !! a)) ->
  (forall b, (b = false -> forall a, a ∈ l -> a = r /\ exists i, inodes s !! a = Some i /\ references i = 1) -> Q b s) -> wp (inodes_busy l r) Q s.
Proof.
  induction l as [|a l IH]; intros Hl HQ; cbn [inodes_busy]; [apply wp_ret, HQ; intros _ a Ha; by apply elem_of_nil in Ha|]. destruct (Hl a) as [i Hi]; [by left|].
  apply wp_bind, (wp_inode_at a i); [done|].
  destruct (Z.eqb_spec a r) as [Ea|]; cbn [negb orb]; [|by apply wp_ret, HQ]. destruct (Z.eqb_spec (references i) 1) as [E1|]; cbn [negb]; [|by apply wp_ret, HQ].
  apply IH; [intros b Hb; apply Hl; by right|].
  intros b Hb. apply HQ. intros -> c [->|Hc]%elem_of_cons; [split; [done|eauto]|by apply Hb].
Qed.

(** A mount lies below [name]. *)
Lemma nested_mount_spec (ms : list vfs_mount) i j name k m : nested_mount ms i j name = false -> ms !! k = Some m -> (i + k)%nat <> j -> below name m = false.
Proof.
  revert i k. induction ms as [|n ms IH]; intros i k; cbn [nested_mount]; [done|]. intros H Hm Hne. apply orb_false_iff in H as [H1 H2].
  destruct k as [|k]; [injection Hm as ->; rewrite Nat.add_0_r in Hne; by rewrite bool_decide_false in H1 by done|].
  apply (IH (S i) k); [done|done|lia].
Qed.

(** Only a file system nobody uses is unmounted: no file of it is open, no mount lies below it and its only inode is its root. *)
Definition unmount_post s fs (path : list Z) (r : Z) s' : Prop :=
  vfs_ok s' fs /\ ((r < 0 /\ same_tables s s') \/
    (r = 0 /\ exists name j m, mount_name path = Some name /\ find_path s name = Some j /\ mounts s !! j = Some m /\ mounts s' = <[j := zero_mount]> (mounts s) /\ inodes s' = delete (root (msuper m)) (inodes s) /\
       (forall f, f ∈ fs -> slot_of s f <> j) /\ (forall a i, inodes s !! a = Some i -> super (node i) = j -> a = root (msuper m)) /\ (forall k n, mounts s !! k = Some n -> k <> j -> below name n = false))).

Lemma vfs_ok_unmounted s s' fs j m : vfs_ok s fs -> mounts s !! j = Some m -> live m = true -> filesystems s' = filesystems s ->
  mounts s' = <[j := zero_mount]> (mounts s) -> inodes s' = delete (root (msuper m)) (inodes s) ->
  s_inodes (msuper m) = [root (msuper m)] -> (forall f, f ∈ fs -> slot_of s f <> j) -> store_ok s' (roots (<[j := zero_mount]> (mounts s)) ⊎ file_refs fs) ∅ ->
  vfs_ok s' fs.
Proof.
  intros H Hm Hl F1 F2 F3 Hone Hfree Hs. assert (Hj : (j < length (mounts s))%nat) by (by eapply lookup_lt_Some).
  assert (Hat : forall k x, mounts s' !! k = Some x -> (k = j /\ x = zero_mount) \/ (k <> j /\ mounts s !! k = Some x)) by (intros k x; rewrite F2, list_lookup_insert_Some; intros [(-> & -> & _)|[? ?]]; auto).
  assert (Hsup : forall a i, inodes s !! a = Some i -> super (node i) = j -> a = root (msuper m)). { intros a i Hi Hsj. apply list_elem_of_singleton. rewrite <- Hone.
  apply (so_list _ _ _ (vo_store _ _ H) j m Hm). eauto. }
  destruct (vo_live _ _ H j m Hm Hl) as (_ & ir & Hir & Hirj & _). assert (Hgone : forall a i, inodes s' !! a = Some i -> inodes s !! a = Some i /\ super (node i) <> j).
  { intros a i. rewrite F3, lookup_delete_Some. intros [Hne Hi]. split; [done|]. intros E. by destruct Hne; rewrite (Hsup a i Hi E). }
  assert (Hkeep : forall a i, inodes s !! a = Some i -> super (node i) <> j -> inodes s' !! a = Some i) by (intros a i Hi Hne; rewrite F3, lookup_delete_ne; [done|]; intros <-; congruence).
  split.
  - by rewrite F2.
  - rewrite (file_slots_ext s).
    + intros k x Hk. destruct (Hat k x Hk) as [[-> ->]|[_ Hk']]; [|by apply (vo_opens _ _ H)]. cbn. destruct (multiplicity j (file_slots s fs)) eqn:E; [done|]. exfalso.
      assert (Hjs : j ∈ file_slots s fs) by (rewrite elem_of_multiplicity; lia).
      unfold file_slots in Hjs. rewrite elem_of_list_to_set_disj, list_elem_of_fmap in Hjs. destruct Hjs as (f & Ef & Hf). by apply (Hfree f Hf).
    + intros a i Ha Hi. exists i. split; [|done]. apply Hkeep; [done|]. apply elem_of_file_refs in Ha as (f & Hf & <-). pose proof (Hfree f Hf) as Hne.
      unfold slot_of in Hne. by rewrite Hi in Hne.
    + intros a Ha. apply (so_live _ _ _ (vo_store _ _ H)). multiset_solver.
  - intros k x Hk Hx. destruct (Hat k x Hk) as [[-> ->]|[Hne Hk']]; [done|]. destruct (vo_live _ _ H k x Hk' Hx) as (Hc & i & Hi & Hik & Ht). split; [done|]. exists i.
    split; [apply Hkeep; [done|congruence]|done].
  - intros k x Hk Hx. destruct (Hat k x Hk) as [[-> ->]|[_ Hk']]; [done|by apply (vo_dead _ _ H k)].
  - intros a i Hi. destruct (Hgone a i Hi) as [Hi0 Hne]. destruct (vo_used _ _ H a i Hi0) as (x & Hx & Hlx). exists x. split; [by rewrite F2, list_lookup_insert_ne|done].
  - intros k1 k2 x1 x2 H1 H2 L1 L2. destruct (Hat k1 x1 H1) as [[-> ->]|[_ H1']]; [done|]. destruct (Hat k2 x2 H2) as [[-> ->]|[_ H2']]; [done|].
    by apply (vo_names _ _ H).
  - rewrite F1. apply H.
Qed.

Lemma wp_unmount s fs path : vfs_ok s fs -> few fs -> wp (vfs_unmount path) (unmount_post s fs path) s.
Proof.
  intros H Hfew. assert (Hbad0 : forall c, c < 0 -> unmount_post s fs path c s) by (intros c Hc; split; [done|left; by split]).
  assert (Hbad : forall c w, c < 0 -> unmount_post s fs path c (with_disk s w)) by (intros c w Hc; split; [by apply vfs_ok_disk|left; by split]).
  unfold vfs_unmount. destruct (mount_name path) as [name|] eqn:En; [|by apply wp_ret, Hbad0]. apply wp_bind, wp_find_mount.
  destruct (find_path s name) as [j|] eqn:Ej; [|by apply wp_ret, Hbad0].
  destruct (find_path_root _ _ _ _ (rooted_ok s fs) Ej) as (m & Hm & Hl & Hp & _). pose proof (vo_store _ _ H) as Hs. apply wp_bind, (wp_super_at _ m); [done|].
  destruct (Z.eqb_spec (open_files (msuper m)) 0) as [E0|]; cbn [negb]; [|by apply wp_ret, Hbad0].
  apply wp_bind. unfold gets, wp at 1. destruct (nested_mount _ _ _ _) eqn:Enest; [by apply wp_ret, Hbad0|]. destruct (so_list _ _ _ Hs j m Hm) as [Hnd HL].
  apply wp_bind, wp_inodes_busy; [intros a (i & Hi & _)%HL; eauto|]. intros busy Hbusy. destruct busy; [by apply wp_ret, Hbad0|]. specialize (Hbusy eq_refl).
  destruct (vo_live _ _ H j m Hm Hl) as (_ & ir & Hir & Hirj & Hirt). set (r := root (msuper m)) in *. assert (Hone : s_inodes (msuper m) = [r]).
  { assert (Hr : r ∈ s_inodes (msuper m)) by (apply HL; eauto).
    destruct (s_inodes (msuper m)) as [|x [|y l]]; [by apply elem_of_nil in Hr|f_equal; apply (Hbusy x); by left|]. exfalso. apply list.NoDup_cons in Hnd as [Hx _].
    apply Hx. rewrite (proj1 (Hbusy x ltac:(by left))), (proj1 (Hbusy y ltac:(right; by left))). by left. }
  destruct (Hbusy r) as [_ (i' & Hi' & H1)]; [rewrite Hone; by left|]. rewrite Hir in Hi'. injection Hi' as <-. pose proof (refs_size s fs H) as Hsz.
  set (R := roots (<[j := zero_mount]> (mounts s)) ⊎ file_refs fs).
  assert (ER : roots (mounts s) ⊎ file_refs fs = {[+ r +]} ⊎ R). { pose proof (roots_insert (mounts s) j m zero_mount Hm) as Hri.
  change (root_of zero_mount) with (∅ : gmultiset Z) in Hri. unfold root_of in Hri. rewrite Hl in Hri. unfold R. multiset_solver. }
  assert (Hfew' : Z.of_nat (size ({[+ r +]} ⊎ R)) < 2 ^ 32) by (rewrite <- ER; unfold few, VFS_MAX_MOUNTS in *; lia). rewrite ER in Hs. assert (Hna : r ∉ R).
  { destruct (so_refs _ _ _ Hs r ir Hir) as [Er _]. pose proof (multiplicity_size r ({[+ r +]} ⊎ R)). rewrite H1 in Er. unfold u32 in Er.
    rewrite Z.mod_small in Er by lia. rewrite multiplicity_disj_union, multiplicity_singleton, decide_True in Er by done. rewrite elem_of_multiplicity. lia. }
  assert (Hfree : forall f, f ∈ fs -> slot_of s f <> j).
  { intros f Hf Ef. apply Hna. unfold R. apply gmultiset_elem_of_disj_union. right. apply elem_of_file_refs. exists f. split; [done|].
    assert (Ha : fnode f ∈ roots (mounts s) ⊎ file_refs fs) by (apply gmultiset_elem_of_disj_union; right; apply elem_of_file_refs; eauto).
    destruct (so_live _ _ _ (vo_store _ _ H) _ Ha) as [i Hi]. unfold slot_of in Ef. rewrite Hi in Ef. apply list_elem_of_singleton. rewrite <- Hone. apply HL. eauto. }
  assert (Hmain : forall w, wp (release_super j ≫= fun _ => set_mount j zero_mount ≫= fun _ => mret 0) (unmount_post s fs path) (with_disk s w)).
  { intros w. apply wp_bind. eapply wp_mono; [eapply (wp_release (with_disk s w) R j m); [exact Hm|exact Hl|]|].
    - fold r. right. split; [by eapply (store_nonnull s); [exact Hs|multiset_solver]|]. split; [done|]. split; [done|]. split; [by exists ir|by apply store_with_disk].
    - fold r. intros [] s2 (F1 & F2 & F3 & F4). rewrite (proj2 (Z.eqb_neq r 0)) in F3 by (eapply (store_nonnull s); [exact Hs|multiset_solver]). apply wp_bind.
      unfold wp at 1, set_mount. apply wp_ret. cbn [with_disk mounts filesystems inodes] in *.
      assert (Hms : <[j := zero_mount]> (mounts s2) = <[j := zero_mount]> (mounts s)) by (by rewrite F2, list_insert_insert_eq).
      assert (Hm2 : mounts s2 !! j = Some (Mount (mpath m) zero_super)) by (rewrite F2; apply list_lookup_insert_eq; by eapply lookup_lt_Some). split.
      + eapply (vfs_ok_unmounted s _ fs j m); [done|done|done|done|exact Hms|exact F3|done|done|]. exact (store_put_mount s2 R ∅ j _ zero_super F4 Hm2 eq_refl []).
      + right. split; [done|]. exists name, j, m. split; [done|]. split; [done|]. split; [done|]. split; [exact Hms|]. split; [exact F3|]. split; [done|].
        split; [|intros k n Hk Hne; by eapply (nested_mount_spec _ 0)].
        intros a i Hi Ei. apply list_elem_of_singleton. fold r. rewrite <- Hone. apply HL. eauto. }
  apply wp_bind. destruct (fs_sync _) as [g|]; [apply wp_backend; intros x w _; destruct (negb _); [by apply wp_ret, Hbad|apply Hmain]|]. apply wp_ret. cbn [Z.eqb negb].
  specialize (Hmain (disk s)). by replace (with_disk s (disk s)) with s in Hmain by (by destruct s).
Qed.
End Mount.
