(* ===== verification/VfsUse.v ===== *)
(** The file system switch in use: any sequence of calls keeps it sound. *)
From stdpp Require Import gmultiset.
From S2P Require Import Prelude Alloc Vfs VfsSpec VfsPath VfsLookup VfsOps VfsFiles VfsMount.

(** A call, as the rest of the kernel makes it; [k] selects one of the open files. *)
Inductive call :=
  | Register (t : Z)
  | Mount_image (path name : list Z) (image size : Z)
  | Attach (path name : list Z) (context : Z)
  | Mount_auto (path : list Z) (image size : Z)
  | Attach_auto (path : list Z) (context : Z)
  | Unmount (path : list Z)
  | Sync_all
  | Describe (slot : nat)
  | Device_mounted (context : Z)
  | Open (path : list Z)
  | Create (path : list Z)
  | Close (k : nat)
  | Read (k : nat) (length : Z)
  | Write (k : nat) (buffer : list Z)
  | Append (k : nat) (buffer : list Z)
  | Seek (k : nat) (pos : Z)
  | Truncate (k : nat)
  | File_stat (k : nat)
  | File_chmod (k : nat) (permissions : Z)
  | File_sync (k : nat)
  | Stat_path (path : list Z)
  | Chmod (path : list Z) (permissions : Z)
  | Mkdir (path : list Z)
  | Unlink (path : list Z)
  | Rmdir (path : list Z)
  | Read_dir_one (path : list Z) (index : Z)
  | Read_dir (path : list Z) (index length : Z)
  | Init.

Section Use.
Context {A W : Type} `{!AllocOps A, !Backend W}.
Abbreviation M := (Vfs.M A W).

(** A file that is not open is all zeroes. *)
Definition file_at (fs : list vfs_file) (k : nat) : vfs_file := default zero_file (fs !! k).
Definition opened_file (fs : list vfs_file) (r : Z * vfs_file) : list vfs_file := if r.1 =? 0 then r.2 :: fs else fs.

(** The open files after a call. *)
Definition perform (c : call) (fs : list vfs_file) : M (list vfs_file) :=
  match c with
  | Register t => _ ← vfs_register t; mret fs
  | Mount_image path name image size => _ ← vfs_mount_image path name image size; mret fs
  | Attach path name context => _ ← vfs_attach path name context; mret fs
  | Mount_auto path image size => _ ← vfs_mount_auto path image size; mret fs
  | Attach_auto path context => _ ← vfs_attach_auto path context; mret fs
  | Unmount path => _ ← vfs_unmount path; mret fs
  | Sync_all => _ ← vfs_sync_all; mret fs
  | Describe slot => _ ← vfs_mount_describe slot; mret fs
  | Device_mounted context => _ ← vfs_device_mounted context; mret fs
  | Open path => r ← vfs_open path; mret (opened_file fs r)
  | Create path => r ← vfs_create path; mret (opened_file fs r)
  | Close k => _ ← vfs_close (file_at fs k); mret (delete k fs)
  | Read k length => r ← vfs_read (file_at fs k) length; mret (<[k := r.2]> fs)
  | Write k buffer => r ← vfs_write (file_at fs k) buffer; mret (<[k := r.2]> fs)
  | Append k buffer => r ← vfs_append (file_at fs k) buffer; mret (<[k := r.2]> fs)
  | Seek k pos => r ← vfs_seek (file_at fs k) pos; mret (<[k := r.2]> fs)
  | Truncate k => r ← vfs_truncate (file_at fs k); mret (<[k := r.2]> fs)
  | File_stat k => r ← vfs_file_stat (file_at fs k); mret (<[k := r.1.2]> fs)
  | File_chmod k permissions => _ ← vfs_file_chmod (file_at fs k) permissions; mret fs
  | File_sync k => _ ← vfs_file_sync (file_at fs k); mret fs
  | Stat_path path => _ ← vfs_stat_path path; mret fs
  | Chmod path permissions => _ ← vfs_chmod path permissions; mret fs
  | Mkdir path => _ ← vfs_mkdir path; mret fs
  | Unlink path => _ ← vfs_unlink path; mret fs
  | Rmdir path => _ ← vfs_rmdir path; mret fs
  | Read_dir_one path index => _ ← vfs_read_dir_one path index; mret fs
  | Read_dir path index length => _ ← vfs_read_dir path index length; mret fs
  | Init => _ ← vfs_init; mret fs
  end.

Fixpoint run (cs : list call) (fs : list vfs_file) : M (list vfs_file) :=
  match cs with
  | [] => mret fs
  | c :: cs => fs ← perform c fs; run cs fs
  end.

(** The memory of the switch when the kernel starts: all zeroes. *)
Definition cold (h : A) (w : W) : vfs A W := Vfs (replicate VFS_MAX_FILESYSTEMS 0) (replicate VFS_MAX_MOUNTS zero_mount) ∅ h w.
End Use.

Section Sound.
Context {A W : Type} `{!AllocOps A, !AllocLaws A, !Backend W, !BackendLaws W}.
Abbreviation M := (Vfs.M A W).
Implicit Types (s : vfs A W) (fs : list vfs_file).

Lemma vfs_ok_cold (h : A) (w : W) : al_wf h ∅ -> vfs_ok (cold h w) [].
Proof.
  intros Hh. assert (Hz : forall j m, replicate VFS_MAX_MOUNTS zero_mount !! j = Some m -> m = zero_mount) by (intros j m Hm; by apply lookup_replicate in Hm as [-> _]).
  split; cbn [cold mounts inodes filesystems heap].
  - split; cbn [cold mounts inodes filesystems heap]; [done|done| | |done|done| | |done].
    + intros a Ha. exfalso. by apply (gmultiset_not_elem_of_empty a).
    + intros j m Hm%Hz. subst m. split; [constructor|]. intros a. split; [by intros ?%elem_of_nil|by intros (i & ? & _)].
    + rewrite dom_empty_L. by rewrite (left_id_L _ _).
    + set_solver.
  - intros j m Hm%Hz. by subst m.
  - intros j m Hm%Hz. by subst m.
  - by intros j m Hm%Hz.
  - done.
  - intros j k m m' Hm%Hz. by subst m.
  - by repeat (constructor; [by left|]).
Qed.

Lemma vfs_ok_types s fs l : vfs_ok s fs -> Forall (fun t => t = 0 \/ fs_mount t <> None) l -> vfs_ok (Vfs l (mounts s) (inodes s) (heap s) (disk s)) fs.
Proof. intros [H1 H2 H3 H4 H5 H6 H7] Hl. split; try done. by destruct H1. Qed.

Lemma vfs_ok_fnodes s fs fs' : fnode <$> fs' = fnode <$> fs -> vfs_ok s fs -> vfs_ok s fs'.
Proof.
  intros E [H1 H2 H3 H4 H5 H6 H7]. assert (Er : file_refs fs' = file_refs fs) by (unfold file_refs; by rewrite E). assert (Es : file_slots s fs' = file_slots s fs).
  { unfold file_slots. f_equal. change (slot_of s) with ((fun a => match inodes s !! a with Some i => super (node i) | None => 0%nat end) ∘ fnode).
    by rewrite !list_fmap_compose, E. }
  split; try done; [by rewrite Er|by rewrite Es].
Qed.

Lemma find_type_ok (l : list Z) name : Forall (fun t => t = 0 \/ fs_mount t <> None) l -> find_type_loop l name = 0 \/ fs_mount (find_type_loop l name) <> None.
Proof. induction 1 as [|t l Ht _ IH]; cbn [find_type_loop]; [by left|]. by destruct (_ && _). Qed.

Lemma put_type_ok (l : list Z) t l' : Forall (fun t => t = 0 \/ fs_mount t <> None) l -> fs_mount t <> None -> put_type l t = Some l' ->
  Forall (fun t => t = 0 \/ fs_mount t <> None) l'.
Proof.
  intros Hl Ht. revert l'. induction Hl as [|x l Hx Hl IH]; intros l'; cbn [put_type]; [done|]. destruct (x =? 0); [intros [= <-]; constructor; [by right|done]|].
  destruct (put_type l t) as [r|]; [|done]. intros [= <-]. constructor; [done|by apply IH].
Qed.

Lemma wp_register s fs t : vfs_ok s fs -> wp (vfs_register t) (fun _ s' => vfs_ok s' fs) s.
Proof.
  intros H. unfold vfs_register. destruct (_ || _) eqn:E; [by apply wp_ret|]. apply orb_false_iff in E as [_ E]. apply bool_decide_eq_false in E. apply wp_bind.
  unfold find_type, gets, wp at 1. destruct (negb _); [by apply wp_ret|]. apply wp_bind. unfold wp at 1.
  destruct (put_type (filesystems s) t) as [l|] eqn:Ep; [|by apply wp_ret]. apply wp_bind. unfold set_filesystems, wp at 1. apply wp_ret. apply vfs_ok_types; [done|].
  by eapply put_type_ok; [apply H| |].
Qed.

Lemma wp_mount_named s fs path name source size attach : vfs_ok s fs -> wp (t ← find_type name; mount_type path t source size attach) (fun _ s' => vfs_ok s' fs) s.
Proof. intros H. apply wp_bind. unfold find_type, gets, wp at 1. eapply wp_mono; [apply wp_mount_type; [done|apply find_type_ok, H]|]. by intros r s' [? _]. Qed.

Lemma wp_mount_any s fs path source size attach : vfs_ok s fs -> wp (mount_any path source size attach) (fun _ s' => vfs_ok s' fs) s.
Proof.
  intros H. unfold mount_any. apply wp_bind. unfold gets, wp at 1. pose proof (vo_types _ _ H) as Hl. generalize (- ENODEV) as reason. revert Hl.
  generalize (filesystems s) as l. intros l Hl reason. revert s H reason. induction Hl as [|t l Ht Hl IH]; intros s H reason; cbn [mount_any_loop]; [by apply wp_ret|].
  destruct (t =? 0); [by apply IH|]. apply wp_bind. eapply wp_mono; [by apply wp_mount_type|]. intros r s' [H' _]. destruct (r =? 0); [by apply wp_ret|].
  destruct (_ && _); [by apply wp_ret|by apply IH].
Qed.

Lemma wp_sync_loop s (l : list vfs_mount) j result : wp (sync_loop l j result) (disk_only s (fun _ => True)) s.
Proof.
  revert s j result. induction l as [|m l IH]; intros s j result; cbn [sync_loop]; [by apply wp_ret, disk_only_refl|]. apply wp_bind.
  destruct (if live m then _ else _) as [f|]; [|apply wp_ret, IH]. apply wp_backend. intros x w _.
  eapply wp_mono; [apply IH|]. intros r s' K. by eapply (disk_only_trans s w (fun _ => True)).
Qed.

Lemma wp_describe s fs slot : vfs_ok s fs -> wp (vfs_mount_describe slot) (disk_only s (fun _ => True)) s.
Proof.
  intros H. unfold vfs_mount_describe. destruct (bool_decide_reflect (VFS_MAX_MOUNTS <= slot)%nat) as [|Hlt]; [by apply wp_ret, disk_only_refl|].
  assert (Hm : is_Some (mounts s !! slot)) by (apply lookup_lt_is_Some_2; rewrite (so_slots _ _ _ (vo_store _ _ H)); lia). destruct Hm as [m Hm].
  apply wp_bind. unfold mount_at, wp at 1. rewrite Hm. destruct (negb _); [by apply wp_ret, disk_only_refl|]. apply wp_bind.
  destruct (fs_statfs _); [|by apply wp_ret, wp_ret, disk_only_refl]. apply wp_backend. intros [[x1 x2] x3] w _. apply wp_ret. split; [by exists w|done].
Qed.

Lemma wp_init s fs : vfs_ok s fs -> wp vfs_init (fun _ s' => vfs_ok s' fs) s.
Proof.
  intros H. unfold vfs_init. apply wp_bind. unfold gets, wp at 1. destruct (existsb live (mounts s)) eqn:E; [by apply wp_ret|]. apply wp_bind.
  unfold set_filesystems, set_mounts, wp at 1 2. cbn [filesystems mounts inodes heap disk].
  assert (Em : mounts s = replicate VFS_MAX_MOUNTS zero_mount).
  { rewrite <- (so_slots _ _ _ (vo_store _ _ H)). apply list_eq. intros j.
    destruct (mounts s !! j) as [m|] eqn:Hm; [|symmetry; apply lookup_ge_None_2; rewrite length_replicate; by apply lookup_ge_None_1].
    symmetry. apply lookup_replicate. split; [|by eapply lookup_lt_Some]. apply (vo_dead _ _ H j m Hm). destruct (live m) eqn:El; [|done].
    assert (Ht : existsb live (mounts s) = true); [|congruence]. apply existsb_exists. exists m. split; [apply list_elem_of_In; by eapply list_elem_of_lookup_2|done]. }
  rewrite <- Em. apply vfs_ok_types; [done|]. by repeat (constructor; [by left|]).
Qed.
(** ** Every call *)
Lemma file_at_cases fs k : (exists f, fs !! k = Some f /\ file_at fs k = f) \/ (fs !! k = None /\ file_at fs k = zero_file).
Proof. unfold file_at. destruct (fs !! k) as [f|]; [left; by exists f|by right]. Qed.

Lemma file_live s fs k f : vfs_ok s fs -> fs !! k = Some f -> exists i, inodes s !! fnode f = Some i.
Proof.
  intros H Hf. destruct (so_live _ _ _ (vo_store _ _ H) (fnode f)) as [i Hi]; [|by exists i]. apply gmultiset_elem_of_disj_union. right. apply elem_of_file_refs.
  exists f. split; [by eapply list_elem_of_lookup_2|done].
Qed.

Lemma file_at_opened s fs k : vfs_ok s fs -> opened s (file_at fs k).
Proof.
  intros H. destruct (file_at_cases fs k) as [(f & Hf & ->)|[_ ->]]; [|by intros Hne; destruct Hne]. intros _. destruct (file_live _ _ _ _ H Hf) as [i Hi]. by exists i.
Qed.

Lemma same_file_ok s fs k w f : vfs_ok s fs -> same_file (file_at fs k) f -> vfs_ok (with_disk s w) (<[k := f]> fs) /\ (length (<[k := f]> fs) <= S (length fs))%nat.
Proof.
  intros H [Hn _]. split; [|rewrite length_insert; lia]. apply (vfs_ok_fnodes _ fs); [|by apply vfs_ok_disk].
  destruct (file_at_cases fs k) as [(f0 & Hf & E)|[Hf _]]; [|by rewrite list_insert_ge by (by apply lookup_ge_None_1)].
  rewrite list_fmap_insert. apply list_insert_id. by rewrite list_lookup_fmap, Hf, Hn, E.
Qed.

Lemma delete_none fs k : fs !! k = None -> delete k fs = fs.
Proof. revert k. induction fs as [|f fs IH]; intros [|k]; [done|done|done|]. cbn [lookup list_lookup delete list_delete]. intros Hf. f_equal. by apply IH. Qed.

Lemma delete_refs fs k f : fs !! k = Some f -> file_refs fs = {[+ fnode f +]} ⊎ file_refs (delete k fs).
Proof. intros Hf. rewrite <- file_refs_cons. unfold file_refs. apply list_to_set_disj_perm. by rewrite <- (delete_Permutation fs k f Hf). Qed.

Lemma delete_slots s fs k f : fs !! k = Some f -> file_slots s fs = {[+ slot_of s f +]} ⊎ file_slots s (delete k fs).
Proof. intros Hf. rewrite <- file_slots_cons. unfold file_slots. apply list_to_set_disj_perm. by rewrite <- (delete_Permutation fs k f Hf). Qed.

Lemma wp_close_ok s fs k : vfs_ok s fs -> few fs -> wp (vfs_close (file_at fs k)) (fun _ s' => vfs_ok s' (delete k fs)) s.
Proof.
  intros H Hfew. destruct (file_at_cases fs k) as [(f & Hf & ->)|[Hf ->]]; [|apply wp_ret; by rewrite delete_none]. destruct (file_live _ _ _ _ H Hf) as [i Hi].
  pose proof (vfs_ok_ready _ _ H Hfew) as Hrd. set (fs' := delete k fs). pose proof (vo_store _ _ H) as Hs.
  assert (ER : roots (mounts s) ⊎ file_refs fs = {[+ fnode f +]} ⊎ (roots (mounts s) ⊎ file_refs fs')) by (rewrite (delete_refs _ _ _ Hf); multiset_solver).
  rewrite ER in Hs. assert (Hsm : small (roots (mounts s) ⊎ file_refs fs')) by (eapply small_sub; [|apply (ready_small _ _ _ Hrd)]; rewrite ER; multiset_solver).
  pose proof (vo_opens _ _ H) as Ho. rewrite (delete_slots s _ _ _ Hf) in Ho. unfold slot_of at 1 in Ho. rewrite Hi in Ho.
  eapply wp_mono; [by apply (wp_close s (roots (mounts s) ⊎ file_refs fs') ∅ (file_slots s fs') f i)|].
  intros f' s' (_ & S' & O' & E'). apply (vfs_ok_ext2 s s' fs fs'); [done|eapply ext2_sub; [|exact E']; multiset_solver|done|].
  rewrite (file_slots_ext s s'); [done|intros a j Ha; apply (e2_node _ _ _ E'); multiset_solver|intros a Ha; apply (so_live _ _ _ Hs); multiset_solver].
Qed.

Lemma wp_opened s fs (m : M (Z * vfs_file)) P : vfs_ok s fs -> wp m (open_post s (roots (mounts s) ⊎ file_refs fs) ∅ (file_slots s fs) P) s ->
  wp m (fun r s' => vfs_ok s' (opened_file fs r)) s.
Proof.
  intros H Hm. eapply wp_mono; [exact Hm|]. intros r s' [E Hr]. unfold opened_file.
  assert (Eq : file_slots s' fs = file_slots s fs) by (apply file_slots_ext; [intros a j Ha; apply (e2_node _ _ _ E); multiset_solver|intros a Ha; apply (so_live _ _ _ (vo_store _ _ H)); multiset_solver]).
  assert (E' : ext2 (roots (mounts s)) s s') by (eapply ext2_sub; [|exact E]; multiset_solver). destruct Hr as [(Hc & _ & S1 & O1)|(-> & i & Hi & _ & S1 & O1)].
  - rewrite (proj2 (Z.eqb_neq r.1 0)) by lia. apply (vfs_ok_ext2 s s' fs fs); [done|done|done|by rewrite Eq].
  - cbn [Z.eqb]. apply (vfs_ok_ext2 s s' fs (r.2 :: fs)); [done|done| |].
    + rewrite file_refs_cons.
      assert (Ec : roots (mounts s) ⊎ ({[+ fnode r.2 +]} ⊎ file_refs fs) = {[+ fnode r.2 +]} ⊎ (roots (mounts s) ⊎ file_refs fs)) by multiset_solver. by rewrite Ec.
    + rewrite file_slots_cons, Eq. unfold slot_of. by rewrite Hi.
Qed.

Lemma opened_file_length fs r : (length (opened_file fs r) <= S (length fs))%nat.
Proof. unfold opened_file. destruct (_ =? 0); cbn [length]; lia. Qed.

(** A call that leaves the open files alone. *)
Lemma wp_plain {X} s fs (m : M X) (Q : X -> vfs A W -> Prop) : wp m Q s -> (forall x s', Q x s' -> vfs_ok s' fs) ->
  wp (_ ← m; mret fs) (fun fs' s' => vfs_ok s' fs' /\ (length fs' <= S (length fs))%nat) s.
Proof. intros Hm HQ. apply wp_bind. eapply wp_mono; [exact Hm|]. intros x s' Hx. apply wp_ret. split; [by eapply HQ|lia]. Qed.

(** A call on an open file, which [g] returns. *)
Lemma wp_on_file {X} s fs k (m : M X) (g : X -> vfs_file) : vfs_ok s fs -> wp m (disk_only s (fun r => same_file (file_at fs k) (g r))) s ->
  wp (r ← m; mret (<[k := g r]> fs)) (fun fs' s' => vfs_ok s' fs' /\ (length fs' <= S (length fs))%nat) s.
Proof. intros H Hm. apply wp_bind. eapply wp_mono; [exact Hm|]. intros x s' [[w ->] Hx]. apply wp_ret. by apply same_file_ok. Qed.

Lemma wp_perform s fs c : vfs_ok s fs -> few fs -> wp (perform c fs) (fun fs' s' => vfs_ok s' fs' /\ (length fs' <= S (length fs))%nat) s.
Proof.
  intros H Hfew. pose proof (vfs_ok_ready _ _ H Hfew) as Hrd.
  assert (Hdisk : forall X (P : X -> Prop) (x : X) s', disk_only s P x s' -> vfs_ok s' fs) by (intros X P x s' [[w ->] _]; by apply vfs_ok_disk).
  assert (Hstay : forall s', stays s (roots (mounts s) ⊎ file_refs fs) ∅ s' -> vfs_ok s' fs) by (intros s'; by apply vfs_ok_stays).
  pose proof (fun k => file_at_opened s fs k H) as Hop.
  destruct c; cbn [perform].
  - eapply wp_plain; [by apply wp_register|done].
  - eapply wp_plain; [by apply wp_mount_named|done].
  - eapply wp_plain; [by apply wp_mount_named|done].
  - eapply wp_plain; [by apply wp_mount_any|done].
  - eapply wp_plain; [by apply wp_mount_any|done].
  - eapply wp_plain; [by apply wp_unmount|by intros x s' [? _]].
  - eapply wp_plain; [|apply Hdisk]. unfold vfs_sync_all. apply wp_bind. unfold gets, wp at 1. apply wp_sync_loop.
  - eapply wp_plain; [by eapply wp_describe|apply Hdisk].
  - eapply (wp_plain s fs _ (fun _ s' => s' = s)); [|by intros x s' ->]. unfold vfs_device_mounted. by destruct (_ =? 0).
  - apply wp_bind. eapply wp_mono; [eapply wp_opened; [done|by apply wp_vfs_open; [|apply H]]|]. intros r s' H'. apply wp_ret. split; [done|apply opened_file_length].
  - apply wp_bind. eapply wp_mono; [eapply wp_opened; [done|by apply wp_vfs_create; [|apply H]]|]. intros r s' H'. apply wp_ret. split; [done|apply opened_file_length].
  - apply wp_bind. eapply wp_mono; [by apply wp_close_ok|]. intros x s' H'. apply wp_ret. split; [done|].
    destruct (fs !! k) as [f|] eqn:Hf; [rewrite length_delete by (by exists f)|rewrite delete_none by done]; lia.
  - apply wp_on_file; [done|by apply wp_read].
  - apply wp_on_file; [done|by apply wp_write].
  - apply wp_on_file; [done|by apply wp_append].
  - apply wp_on_file; [done|by apply wp_seek].
  - apply wp_on_file; [done|by apply wp_truncate].
  - apply wp_on_file; [done|by apply wp_file_stat].
  - eapply wp_plain; [by apply wp_file_chmod|apply Hdisk].
  - eapply wp_plain; [by apply wp_file_sync; [apply H|]|apply Hdisk].
  - eapply wp_plain; [by eapply wp_stat|intros x; apply Hstay].
  - eapply wp_plain; [by eapply wp_chmod|intros x; apply Hstay].
  - eapply wp_plain; [by eapply wp_change_name|intros x s' [? _]; by apply Hstay].
  - eapply wp_plain; [by eapply wp_change_name|intros x s' [? _]; by apply Hstay].
  - eapply wp_plain; [by eapply wp_change_name|intros x s' [? _]; by apply Hstay].
  - eapply wp_plain; [by eapply wp_read_dir_one|intros x; apply Hstay].
  - eapply wp_plain; [by eapply wp_read_dir|intros x; apply Hstay].
  - eapply wp_plain; [by apply wp_init|done].
Qed.

Lemma wp_run s fs cs : vfs_ok s fs -> Z.of_nat (length fs) + Z.of_nat (length cs) < 2 ^ 31 ->
  wp (run cs fs) (fun fs' s' => vfs_ok s' fs' /\ (length fs' <= length fs + length cs)%nat) s.
Proof.
  revert s fs. induction cs as [|c cs IH]; intros s fs H Hl; cbn [run length] in *; [apply wp_ret; split; [done|lia]|]. apply wp_bind.
  eapply wp_mono; [apply wp_perform; [done|unfold few; lia]|]. intros fs' s' [H' Hlen].
  eapply wp_mono; [apply IH; [done|lia]|]. intros fs2 s2 [H2 Hl2]. split; [done|lia].
Qed.

(** How many mounts have the inode [a] as their root, and how many of the files are open on it. *)
Definition mounts_on s (a : Z) : nat := length (filter (fun m => live m = true /\ root (msuper m) = a) (mounts s)).
Definition files_on fs (a : Z) : nat := length (filter (fun f => fnode f = a) fs).

Lemma roots_count (ms : list vfs_mount) a : multiplicity a (roots ms) = length (filter (fun m => live m = true /\ root (msuper m) = a) ms).
Proof.
  induction ms as [|m ms IH]; [apply multiplicity_empty|]. change (roots (m :: ms)) with (root_of m ⊎ roots ms). rewrite multiplicity_disj_union, IH, filter_cons.
  unfold root_of.
  destruct (live m); [|by rewrite decide_False by (by intros [? _])].
  destruct (decide (root (msuper m) = a)) as [<-|Hne]; [rewrite decide_True by done; by rewrite multiplicity_singleton, decide_True|].
  rewrite decide_False by (by intros [_ ?]). by rewrite multiplicity_singleton_ne by done.
Qed.

Lemma files_count fs a : multiplicity a (file_refs fs) = files_on fs a.
Proof.
  unfold files_on. induction fs as [|f fs IH]; [apply multiplicity_empty|]. rewrite file_refs_cons, multiplicity_disj_union, IH, filter_cons.
  destruct (decide (fnode f = a)) as [<-|Hne]; [by rewrite multiplicity_singleton, decide_True|by rewrite multiplicity_singleton_ne].
Qed.

Lemma references_exact s fs a i : vfs_ok s fs -> few fs -> inodes s !! a = Some i -> references i = Z.of_nat (mounts_on s a + files_on fs a) /\ 0 < references i.
Proof.
  intros H Hf Hi. destruct (so_refs _ _ _ (vo_store _ _ H) a i Hi) as [E Ha]. pose proof (multiplicity_size a (roots (mounts s) ⊎ file_refs fs)) as Hm.
  pose proof (refs_size s fs H) as Hs. unfold few, VFS_MAX_MOUNTS in *. rewrite u32_small in E by lia.
  rewrite elem_of_multiplicity in Ha. rewrite multiplicity_disj_union, roots_count, files_count in *. fold (mounts_on s a) in *. lia.
Qed.

Lemma opens_exact s fs j m : vfs_ok s fs -> few fs -> mounts s !! j = Some m -> open_files (msuper m) = Z.of_nat (length (filter (fun f => slot_of s f = j) fs)).
Proof.
  intros H Hf Hm. rewrite (vo_opens _ _ H j m Hm). assert (E : multiplicity j (file_slots s fs) = length (filter (fun f => slot_of s f = j) fs)).
  { clear. induction fs as [|f fs IH]; [apply multiplicity_empty|]. rewrite file_slots_cons, multiplicity_disj_union, IH, filter_cons.
    destruct (decide (slot_of s f = j)) as [<-|Hne]; [by rewrite multiplicity_singleton, decide_True|by rewrite multiplicity_singleton_ne]. }
  rewrite E, u32_small; [done|]. pose proof (length_filter (fun f => slot_of s f = j) fs). unfold few in Hf. lia.
Qed.

(** C5: From the memory the kernel starts with, any sequence of calls of the switch returns: no call uses an inode that has been freed, and no loop runs without end.
    Then the count of every inode is the number of mounts and open files that refer to it, the count of open files of every mount is exact, and the heap holds the inodes that are referred to and nothing else of the switch. *)
Theorem vfs_safe (h : A) (w : W) cs : al_wf h ∅ -> Z.of_nat (length cs) < 2 ^ 31 ->
  exists fs s, run cs [] (cold h w) = Some (fs, s) /\ vfs_ok s fs /\ al_wf (heap s) (dom (inodes s)) /\
    (forall f, f ∈ fs -> is_Some (inodes s !! fnode f)) /\
    (forall a i, inodes s !! a = Some i -> references i = Z.of_nat (mounts_on s a + files_on fs a) /\ 0 < references i) /\
    (forall j m, mounts s !! j = Some m -> open_files (msuper m) = Z.of_nat (length (filter (fun f => slot_of s f = j) fs))).
Proof.
  intros Hh Hl. destruct (wp_inv _ _ _ (wp_run (cold h w) [] cs (vfs_ok_cold h w Hh) ltac:(cbn; lia))) as (fs & s & E & H & Hlen). cbn in Hlen.
  assert (Hf : few fs) by (unfold few; lia). exists fs, s. split; [done|]. split; [done|]. split; [|split; [|split]].
  - pose proof (so_heap _ _ _ (vo_store _ _ H)) as Hw. by rewrite (right_id_L _ _) in Hw.
  - intros f Hin. apply (so_live _ _ _ (vo_store _ _ H)). apply gmultiset_elem_of_disj_union. right. apply elem_of_file_refs. eauto.
  - intros a i. by apply references_exact.
  - intros j m. by apply opens_exact.
Qed.

(** C9: Opening a path follows it: the file that comes back is on the inode that its components name, one directory after the other from the root, with dots resolved and the roots of the mounts over what their paths name, and it has a reference of its own.
    An open that fails returns an error and leaves nothing open. *)
Theorem vfs_open_correct s fs path : vfs_ok s fs -> few fs ->
  exists r s', vfs_open path s = Some (r, s') /\ vfs_ok s' (opened_file fs r) /\
    ((r.1 < 0 /\ r.2 = zero_file) \/
     (r.1 = 0 /\ Some (fmount r.2) = mount_of s (resolved [] (words path)) /\
      exists i, inodes s' !! fnode r.2 = Some i /\ walk (names (disk s)) s (resolved [] (words path)) = Some (super (node i), number (node i)))).
Proof.
  intros H Hf. pose proof (wp_vfs_open s _ _ _ path (vfs_ok_ready s fs H Hf) (vo_opens _ _ H)) as Hw. pose proof (wp_opened s fs _ _ H Hw) as Ho.
  destruct (wp_inv _ _ _ Hw) as (r & s' & E & _ & Hr). exists r, s'. split; [done|]. unfold wp in Ho. rewrite E in Ho. split; [done|].
  destruct Hr as [(H1 & H2 & _)|(H1 & i & H2 & [H3 H4] & _)]; [by left|right]. split; [done|]. split; [done|]. by exists i.
Qed.

(** C18: A file or directory is removed only if nobody uses it: when [vfs_unlink] or [vfs_rmdir] returns success, the path named an inode on which no file is open and which is not the root of a mount; whatever the result, every reference and every open file is as before. *)
Theorem vfs_remove_safe s fs path operation : vfs_ok s fs -> few fs -> operation <> CREATE_DIRECTORY ->
  exists r s', change_name path operation s = Some (r, s') /\ vfs_ok s' fs /\
    (r = 0 -> exists j n, walk (names (disk s)) s (resolved [] (words path)) = Some (j, n) /\
       (forall f i, f ∈ fs -> inodes s' !! fnode f = Some i -> super (node i) = j -> number (node i) <> n) /\
       (forall k m i, mounts s' !! k = Some m -> live m = true -> inodes s' !! root (msuper m) = Some i -> super (node i) = j -> number (node i) <> n)).
Proof.
  intros H Hf Hop. destruct (wp_inv _ _ _ (wp_change_name s _ _ path operation (vfs_ok_ready s fs H Hf))) as (r & s' & E & Hs & Hu). exists r, s'. split; [done|].
  pose proof (vfs_ok_stays s s' fs H Hs) as H'. split; [done|]. intros Hr.
  destruct (Hu Hr) as (j & n & Hw & Hn); [by destruct operation|]. exists j, n. split; [done|]. split.
  - intros f i Hin. apply Hn. apply gmultiset_elem_of_disj_union. right. apply elem_of_file_refs. eauto.
  - intros k m i Hm Hl. apply Hn. apply gmultiset_elem_of_disj_union. left. rewrite <- (roots_shape2 _ _ (e2_shape _ _ _ (ext_weak _ _ _ (proj2 Hs)))).
    apply elem_of_roots. eauto.
Qed.

(** C17: A file system is unmounted only if nobody uses it: when [vfs_unmount] returns success, no file of the mount was open, no other mount lay below it and its root was its only inode; then its slot is free and its root is gone.
    When it fails, no table has changed. *)
Theorem vfs_unmount_safe s fs path : vfs_ok s fs -> few fs ->
  exists r s', vfs_unmount path s = Some (r, s') /\ vfs_ok s' fs /\
    ((r < 0 /\ filesystems s' = filesystems s /\ mounts s' = mounts s /\ inodes s' = inodes s) \/
     (r = 0 /\ exists name j m, mount_name path = Some name /\ mounts s !! j = Some m /\ live m = true /\ mpath m = name /\
        mounts s' = <[j := zero_mount]> (mounts s) /\ inodes s' = delete (root (msuper m)) (inodes s) /\
        (forall f i, f ∈ fs -> inodes s !! fnode f = Some i -> super (node i) <> j) /\
        (forall a i, inodes s !! a = Some i -> super (node i) = j -> a = root (msuper m)) /\
        (forall k n, mounts s !! k = Some n -> k <> j -> below name n = false))).
Proof.
  intros H Hf. destruct (wp_inv _ _ _ (wp_unmount s fs path H Hf)) as (r & s' & E & H' & Hr). exists r, s'. split; [done|]. split; [done|].
  destruct Hr as [?|(-> & name & j & m & Hn & Hj & Hm & H1 & H2 & H3 & H4 & H5)]; [by left|right]. split; [done|].
  destruct (find_path_root s _ _ _ (rooted_ok s fs) Hj) as (m' & Hm' & Hl & Hp & _). rewrite Hm in Hm'. injection Hm' as <-. exists name, j, m. split; [done|].
  split; [done|]. split; [done|]. split; [done|]. split; [done|]. split; [done|]. split; [|by split].
  intros f i Hin Hi. specialize (H3 f Hin). unfold slot_of in H3. by rewrite Hi in H3.
Qed.
End Sound.

(** ** An instance: a heap that never reuses memory and a file system with one directory *)
Module Demo.
#[local] Instance bump_ops : AllocOps Z := {|
  al_malloc a n := if n =? 0 then (0, a) else (a, a + 1);
  al_free a _ := a;
  al_wf a L := 0 < a /\ forall p, p ∈ L -> 0 < p < a;
|}.
#[local] Instance bump_laws : AllocLaws Z.
Proof.
  split; cbn [al_malloc al_free al_wf bump_ops].
  - intros a L n p a' [Ha HL] _. destruct (n =? 0); intros [= <- <-]; [by left|right]. split; [lia|]. split; [intros H; specialize (HL a H); lia|]. split; [lia|].
    intros p [->%elem_of_singleton|Hp]%elem_of_union; [lia|]. specialize (HL p Hp). lia.
  - done.
  - intros a L p [Ha HL] _. split; [done|]. intros q [Hq _]%elem_of_difference. by apply HL.
  - intros a L [_ HL] H. specialize (HL 0 H). lia.
Qed.

(** The names in the directory, whose number is 1, and the numbers of the files. *)
Definition entries := list (list Z * Z).
Fixpoint number_of (name : list Z) (w : entries) : option Z := match w with [] => None | (x, n) :: w => if bool_decide (x = name) then Some n else number_of name w end.
Definition file_node (n : Z) : vnode := Node 0 n VFS_NODE_FILE 0 1 1.
Definition without (w : entries) (name : list Z) : entries := filter (fun e => e.1 <> name) w.
Definition NAME : list Z := [102; 115].
Definition list_entry (w : entries) (d : vnode) (index : Z) : (Z * Z * vfs_dirent) * entries :=
  match (if index <? 0 then None else w !! Z.to_nat index) with Some (x, n) => ((1, index + 1, Dirent n VFS_NODE_FILE x), w) | None => ((0, index, zero_dirent), w) end.

#[local] Instance flat : Backend entries := {|
  fs_name t := if t =? 1 then NAME else [];
  fs_probe _ := None;
  fs_mount t := if t =? 1 then Some (fun w j _ _ => ((0, Some (Node j 1 VFS_NODE_DIRECTORY 0 1 1)), w)) else None;
  fs_attach _ := None;
  fs_unmount _ := Some (fun _ _ => []);
  fs_sync _ := Some (fun w _ => (0, w));
  fs_statfs _ := None;
  block_context _ := 0;
  op_lookup o := if o =? 1 then Some (fun w d name => (if number d =? 1 then file_node <$> number_of name w else None, w)) else None;
  op_create o := if o =? 1 then Some (fun w d name => if (number d =? 1) && negb (bool_decide (is_Some (number_of name w))) then (Some (file_node (zlen w + 2)), (name, zlen w + 2) :: w) else (None, w)) else None;
  create_undo w _ name := without w name;
  op_mkdir _ := None;
  op_unlink o := if o =? 1 then Some (fun w d name => (0, without w name)) else None;
  op_rmdir _ := None;
  op_getattr o := if o =? 1 then Some (fun w d => ((0, Stat 0 (number d) 0 512 0 (type d) 0), w)) else None;
  op_truncate _ := None;
  op_setmode _ := None;
  fo_open _ := None;
  fo_release _ := None;
  fo_read _ := None;
  fo_write _ := None;
  fo_seek _ := None;
  fo_iterate o := if o =? 1 then Some list_entry else None;
  dir_left w _ index := if index <? 0 then 0%nat else (length w - Z.to_nat index)%nat;
|}.
#[local] Instance flat_laws : BackendLaws entries.
Proof.
  refine {| names w _ n name := if n =? 1 then number_of name w else None |}; cbn.
  - intros o f w d name v w'. destruct (o =? 1); [|done]. intros [= <-]. destruct (number d =? 1); [|done]. destruct (number_of name w); [|done]. by intros [= <- _].
  - intros o f w d name r w' j n x. destruct (o =? 1); [|done]. intros [= <-]. by intros [= _ <-].
  - intros o f w d name v w'. destruct (o =? 1); [|done]. intros [= <-]. destruct (number d =? 1); [|done]. destruct (number_of name w); [|done]. by intros [= <- _].
  - intros o f w d name v w'. destruct (o =? 1); [|done]. intros [= <-]. destruct (_ && _); [|done]. by intros [= <- _].
  - intros t f w j source size r v w'. destruct (t =? 1); [|done]. intros [= <-]. by intros [= _ <- _].
  - done.
  - intros o f w d index rc cookie e w'. destruct (o =? 1); [|done]. intros [= <-]. unfold list_entry.
    destruct (Z.ltb_spec index 0) as [|Hi]; [by intros [= <- _ _ _]|]. destruct (w !! Z.to_nat index) as [[x n]|] eqn:E; [|by intros [= <- _ _ _]].
    intros [= _ <- _ <-] _. apply lookup_lt_Some in E. destruct (Z.ltb_spec (index + 1) 0); [lia|]. lia.
Defined.

Definition PATH : list Z := [SLASH; 97].
Definition setup : list call := [Init; Register 1; Mount_image [SLASH] NAME 4096 512; Create PATH; Close 0; Open [SLASH; DOT; SLASH; 97]; Read_dir [SLASH] 0 64].
Definition after (cs : list call) : list vfs_file * vfs Z entries := default ([], cold 1 []) (run cs [] (cold 1 [])).

Lemma after_ok cs : Z.of_nat (length cs) < 2 ^ 31 -> vfs_ok (after cs).2 (after cs).1.
Proof.
  intros Hl. unfold after. pose proof (vfs_ok_cold 1 ([] : entries)) as H.
  destruct (wp_inv _ _ _ (wp_run (cold 1 []) [] cs (H ltac:(by split; [lia|set_solver])) ltac:(cbn; lia))) as (fs & s & -> & Hs & _). done.
Qed.

Definition status {X} (r : option ((Z * X) * vfs Z entries)) : Z := match r with Some (x, _) => x.1 | None => 1 end.
Definition result (r : option (Z * vfs Z entries)) : Z := match r with Some (x, _) => x | None => 1 end.

Lemma vfs_safe_witness : exists fs s, run setup [] (cold 1 []) = Some (fs, s) /\ length fs = 1%nat /\ vfs_ok s fs.
Proof.
  destruct (vfs_safe 1 ([] : entries) setup) as (fs & s & E & H & _); [by split; [lia|set_solver]|done|]. exists fs, s. split; [done|]. split; [|done].
  assert (Hc : (fun x => length x.1) <$> run setup [] (cold 1 ([] : entries)) = Some 1%nat) by (vm_compute; reflexivity). rewrite E in Hc. by injection Hc.
Defined.

Lemma vfs_open_correct_witness : exists r s', vfs_open PATH (after setup).2 = Some (r, s') /\ r.1 = 0 /\ exists i, inodes s' !! fnode r.2 = Some i /\ number (node i) = 2.
Proof.
  destruct (vfs_open_correct (after setup).2 (after setup).1 PATH (after_ok setup ltac:(done)) ltac:(by vm_compute)) as (r & s' & E & _ & Hr).
  assert (Hs : status (vfs_open PATH (after setup).2) = 0) by (vm_compute; reflexivity). rewrite E in Hs. cbn [status] in Hs.
  exists r, s'. split; [done|]. split; [done|]. destruct Hr as [[? _]|(_ & _ & i & Hi & Hw)]; [lia|]. exists i. split; [done|].
  assert (Hv : walk (names (disk (after setup).2)) (after setup).2 (resolved [] (words PATH)) = Some (0%nat, 2)) by (vm_compute; reflexivity). congruence.
Defined.

Lemma vfs_remove_safe_witness : result (vfs_unlink PATH (after setup).2) = - EBUSY /\ exists s', vfs_unlink PATH (after (setup ++ [Close 0])).2 = Some (0, s') /\ vfs_ok s' [].
Proof.
  split; [vm_compute; reflexivity|]. set (cs := setup ++ [Close 0]).
  destruct (vfs_remove_safe (after cs).2 (after cs).1 PATH REMOVE_FILE (after_ok cs ltac:(done)) ltac:(by vm_compute) ltac:(done)) as (r & s' & E & H & _).
  assert (Hs : result (vfs_unlink PATH (after cs).2) = 0) by (vm_compute; reflexivity). unfold vfs_unlink in *. rewrite E in Hs. cbn [result] in Hs. subst r.
  assert (Hf : (after cs).1 = []) by (vm_compute; reflexivity). rewrite Hf in H. exists s'. split; [exact E|exact H].
Defined.

Lemma vfs_unmount_safe_witness : result (vfs_unmount [SLASH] (after setup).2) = - EBUSY /\ exists s', vfs_unmount [SLASH] (after (setup ++ [Close 0])).2 = Some (0, s') /\ vfs_ok s' [].
Proof.
  split; [vm_compute; reflexivity|]. set (cs := setup ++ [Close 0]).
  destruct (vfs_unmount_safe (after cs).2 (after cs).1 [SLASH] (after_ok cs ltac:(done)) ltac:(by vm_compute)) as (r & s' & E & H & _).
  assert (Hs : result (vfs_unmount [SLASH] (after cs).2) = 0) by (vm_compute; reflexivity). rewrite E in Hs. cbn [result] in Hs. subst r.
  assert (Hf : (after cs).1 = []) by (vm_compute; reflexivity). rewrite Hf in H. exists s'. split; [exact E|exact H].
Defined.
End Demo.
